(* ===== verification/_CoqProject ===== *)
-Q . S2P
Prelude.v
Fiber.v
FiberSpec.v
Workload.v
Backends.v
C10M.v
Calendar.v
Preopens.v
Posix.v
Multibyte.v
Events.v
Dirent.v
Tsearch.v
TsearchSpec.v
Hsearch.v
Queue.v
Syscalls.v
Sort.v
SortCycle.v
SortBits.v
SortHeap.v
SortSpec.v
Stdio.v
StdioBuffer.v
StdioRead.v
StdioWrite.v
StdioSpec.v
Intscan.v
IntscanSpec.v
Memory.v
Strings.v
StringsCopy.v
StringsScan.v
StringsSpec.v
StringsCat.v
Twoway.v
Search.v
SearchSpec.v
SearchStr.v
StringsType.v
Environ.v
EnvironSpec.v
Printf.v
PrintfSpec.v
PrintfScan.v
PrintfFile.v
Inet.v
InetSpec.v
InetText.v
Fnmatch.v
FnmatchSpec.v
FnmatchMatch.v
FnmatchPath.v
FnmatchText.v
Getopt.v
GetoptSpec.v
GetoptLong.v
Random.v
RandomSpec.v
Casecmp.v
Version.v
Strftime.v
Isoweek.v
StrftimeSpec.v
TimeText.v
MultibyteN.v
Asctime.v
Mman.v
