(* ===== verification/Prelude.v ===== *)
(** * A verification of the C code of the WasmFX artifact

    The artifact compares ways to give WebAssembly programs stackful
    concurrency.  Its own C code is the c10m benchmark (benchmarks/c10m): a
    workload of millions of short-lived workers over an interface with three
    implementations, one of them on a fiber library that is built on
    binaryen's Asyncify.  The benchmark programs, and the TinyGo programs, are
    linked with wasi-libc (tinygo/lib/wasi-libc), whose C code is the second
    part: the bottom half turns POSIX calls into WASI host calls, the top half is
    musl.  Paths below are relative to src/; W is tinygo/lib/wasi-libc, BH is
    W/libc-bottom-half, T is W/libc-top-half/musl/src.

    ** Conventions

    Integers are [Z], wrapped where the C type wraps ([u8], [u32], [i32], ...).
    Code that can fail is an [outcome]: [Ok], [UB] (undefined behaviour), [Trap]
    (a trap or failed assertion) or [NoFuel]; code with state is [M S A], state
    passing over [outcome], with [let*] and [do*].  A theorem that some code
    gives [Ok] therefore says that it ends, and that it neither
    traps nor has undefined behaviour.  [wp c Q st] is total correctness.  Loops are
    structural where the code counts, and else carry fuel; the fuel of every loop is
    part of the model and is shown to be enough.  What is not in src/ (the host
    behind WASI, the allocator's answers, comparison functions) is an argument of the
    definitions, its documented behaviour a hypothesis.

    ** The benchmark

    - Fiber: benchmarks/c10m/fiber.h, fiber_asyncify.c.  The world is the table
      of fibers and Asyncify's globals; [fiber_alloc], [fiber_free],
      [fiber_resume], [fiber_yield] are the C functions; an instrumented body is a tree of
      its calls to the interface.  FiberSpec has one-shot coroutines as the
      specification: resuming and yielding refine them, nested resumes
      included, while the saved frames fit the stack; writing a frame behind the end
      of the stack is undefined behaviour ([yield_overflow]), since Asyncify writes it
      into the memory of others before it checks.
    - Workload: c10m.c, parameters.h over the class [AsyncWorker]; Backends: asyncify.c,
      c10m_bespoke.c and c10m_wasmfx.wast as instances that satisfy
      [AsyncWorkerSpec]; C10M: the result of the workload on
      every instance and the exit status of the three programs, when the pages that
      [stack_use] reads below the stack pointer are in memory.

    ** The bottom half of wasi-libc

    - Preopens: BH/sources/preopens.c.  The table of preopened directories; a path is
      resolved to the longest preopened prefix, and start-up registers
      the host's directories in order.
    - Posix: BH/sources/posix.c, at_fdcwd.c, chdir.c, getcwd.c over Preopens.
      Every path function refines resolution followed by one call of its
      [*at] function, except that a link of two paths reads a stale one once chdir was
      linked; chdir and getcwd keep the current directory absolute.
    - Events: BH/cloudlibc poll, select, time.  poll and pselect against the
      host's [poll_oneoff].
    - Dirent: BH/cloudlibc dirent.  readdir and scandirat enumerate the host's
      directory whatever the buffer, and where they do not.
    - Syscalls: BH/cloudlibc fcntl, sys/stat, unistd, sys/uio, sys/socket,
      sys/ioctl.  Functions are trees of host calls played against a host.
    - Mman: BH/mman/mman.c on the pread of Syscalls, BH/sources/sbrk.c.  A mapped file is in
      memory until it is unmapped, however the host divides the reads.

    ** The top half

    - Calendar: T/time.  Seconds and broken-down time against the
      proleptic Gregorian calendar.
    - Multibyte: T/multibyte.  UTF-8 decoding and encoding, whole strings and
      resumable conversions, against a reference decoder.  MultibyteN: the
      conversions with a limit on the source, mbsnrtowcs.c and wcsnrtombs.c.
    - Tsearch, TsearchSpec: T/search/tsearch.c, tdelete.c, tfind.c, twalk.c,
      tdestroy.c.  Nodes in a store, links as addresses; a functional AVL tree is the
      specification.
    - Hsearch: T/search/hsearch.c refines a finite map.  Queue: lsearch.c, insque.c.
    - Sort (the code), SortCycle, SortBits, SortHeap, SortSpec (the proof):
      T/stdlib/qsort.c, bsearch.c.  The smoothsort of the code, on bytes, sorts.
    - Stdio (the code), StdioBuffer, StdioRead, StdioWrite, StdioSpec (the proof):
      T/stdio over Syscalls.  Streams deliver a file's bytes and write
      theirs to it, whatever the buffers and the sizes the host serves, at the
      position of the descriptor or, when it appends, at the end of the file.
    - Intscan, IntscanSpec: T/internal/intscan.c, T/stdlib/strtol.c, atoi.c
      equal a reference parser of numerals.
    - Memory: linear memory with bytes, aligned words, C strings.  Strings: T/string's
      byte and string functions on it.  StringsCopy, StringsScan, StringsSpec,
      StringsCat: they equal list functions at every alignment, and stay in bounds.
    - Twoway (the combinatorics of critical factorizations), Search (T/string/memmem.c,
      strstr.c), SearchSpec, SearchStr: substring search equals the naive search.
      StringsType: instances by which later proofs carry the type of the memory through calls.
    - Environ, EnvironSpec: T/env over BH/sources/__wasilibc_initialize_environ.c.  A heap
      of blocks in which the environment's strings are shared by address; the
      functions refine a list of strings and free what they own, once.
    - Printf (printf_core and vsnprintf), PrintfSpec (what a format means, and that
      the code prints it), PrintfScan (printing and strtol), PrintfFile (vfprintf on
      the streams of Stdio): T/stdio/vfprintf.c, vsnprintf.c, vdprintf.c, without
      floating point.
    - Inet (inet_pton, inet_ntop, inet_aton, byte order), InetSpec (inet_pton takes exactly
      the textual forms of addresses), InetText (inet_ntop writes one that is read
      back): T/network.
    - Fnmatch (T/regex/fnmatch.c), FnmatchSpec (the meaning of stars; reading
      characters, tokens and brackets), FnmatchMatch (fnmatch_internal decides the
      meaning of its tokens), FnmatchPath (fnmatch with all its flags, and where it
      does not return), FnmatchText (what the text of a pattern means, bracket
      expressions and escapes included, and that the code decides it).
    - Getopt (T/misc/getopt.c, getopt_long.c), GetoptSpec (a call is a step of a parser
      of the argument list), GetoptLong (the calls report the options and sort the
      arguments).
    - Random (T/prng), RandomSpec: the sequences of the generators, and switching
      between state arrays.
    - Casecmp (T/string/strcasecmp.c, strncasecmp.c, strcasestr.c): comparing without
      case.  Version (strverscmp.c, T/dirent/versionsort.c): a total order in which
      numbers come by value.
    - Strftime (T/time/strftime.c, strptime.c, T/locale/langinfo.c), Isoweek (the week of
      a date is that of ISO 8601), StrftimeSpec (the text of a format, and that no
      format makes strftime leave its buffer), TimeText (strptime reads back
      what strftime wrote; a time of the clock survives being written as text).
    - Asctime: T/time/asctime_r.c, asctime.c, ctime_r.c, ctime.c.  The text is the one of
      strftime's ["%c"], and a year that does not fit traps.

    ** Bounds and fuel

    - A search tree of the address space has at most 40 levels, below the
      array of [MAXH] = 48 links (TsearchSpec).
    - The probes of a hash table of size [2^n] visit every slot once in
      [2^n] steps, and a table is never full (Hsearch).
    - [qsort] is proved for up to [leo 33] = 11405773 elements and 2 GB: one more
      tree order needs a two-word shift that the code does not do rightly on this
      target (SortSpec, [pntz_word_gap]).  The path of a sift has at most 57 entries,
      the walk along the trees at most 65 steps.
    - String loops over memory have the size of the memory as fuel, counted
      loops their count, the maximal suffix loop [2 l + 2] (it is linear), and
      the two-way search one round for each character of the haystack.
    - memcpy, memset and memmove are proved for sizes below [2^31], where the comparison of
      distances of memmove in 32 bits is exact ([memmove_test_wraps] shows that it is not above).
    - The loop of printf_core reads a character of the format in every round, which is
      its fuel; digits take one bit at least, 65 rounds; the digits of 64 bits fit in
      the local buffer of 55 bytes (PrintfSpec).
    - The loops of fnmatch consume a token or a character in every round; the search for
      a slash in the pattern takes its bound, [steps], as an argument, because it does not
      end on bytes that are no character ([fnmatch_never_returns]).
    - strftime and strptime call themselves for conversions that stand for a format, at most
      twice nested; the texts of these fit the array of 100 bytes for all values
      of the fields (StrftimeSpec).
    - The reads of mmap have as fuel the bytes to map and the interruptions to come, which
      [ServesFile] says are finitely many (Mman).
    - Stream loops have as fuel what is left to transfer; an adversarial host that
      reports progress forever without making any is excluded by what WASI documents of
      regular files, a hypothesis of StdioBuffer with an instance.

    ** Not modelled

    The allocator (vendored dlmalloc; its answers are arguments), formatted input,
    floating point and wide characters in formatted output, streams on memory and the
    list of open streams, wide-character string functions, loaded locales,
    regular expressions and glob, mathematics and drand48 (no floating point),
    threads (WASI builds are single-threaded), signals, accept and truncate, the generated host bindings, the glue
    of wasmtime, and the vendored libraries for other targets.  The theorems on printf
    cover formats without positional arguments, [%n] and wide conversions, which the
    model has.  Those on getopt_long are for [longonly] 0, arguments that
    are permuted and letters that do not lack their argument, where the code
    moves the null pointer that ends the vector ([missing_argument_moves_null]).

    This file is the shared ground: machine integers at their C width, the
    outcome monad, total correctness of stateful code, loops, C strings and
    byte buffers, and the tactics and hint databases of the component files. *)

From Stdlib Require Export ZArith Lia Bool List.
From stdpp Require Export base gmap list.
Export ListNotations.

#[global] Open Scope Z_scope.

(** * Machine integers

    A C integer is a [Z]; every operation that can leave the range of its type
    is followed by the conversion the C type performs. [u8] to [u64] are the
    conversions to the unsigned types, [s32] and [s64] to the two's complement
    ones.  On wasm32, [size_t], [uintptr_t] and [long] have 32 bits. *)

Definition u8 (x : Z) : Z := x mod 2 ^ 8.
Definition u16 (x : Z) : Z := x mod 2 ^ 16.
Definition u32 (x : Z) : Z := x mod 2 ^ 32.
Definition u64 (x : Z) : Z := x mod 2 ^ 64.

Definition swrap (w x : Z) : Z :=
  let m := x mod 2 ^ w in if m <? 2 ^ (w - 1) then m else m - 2 ^ w.

Definition s8 (x : Z) : Z := swrap 8 x.
Definition s16 (x : Z) : Z := swrap 16 x.
Definition s32 (x : Z) : Z := swrap 32 x.
Definition s64 (x : Z) : Z := swrap 64 x.

Definition INT_MAX : Z := 2 ^ 31 - 1.
Definition INT_MIN : Z := - 2 ^ 31.
Definition UINT_MAX : Z := 2 ^ 32 - 1.
Definition SIZE_MAX : Z := 2 ^ 32 - 1.
Definition LLONG_MAX : Z := 2 ^ 63 - 1.
Definition LLONG_MIN : Z := - 2 ^ 63.

(** The value of a C comparison or logical operator. *)
Definition cbool (b : bool) : Z := if b then 1 else 0.

(** The truth value of a C scalar. *)
Definition ctrue (x : Z) : bool := negb (x =? 0).

Definition in_u (w x : Z) : Prop := 0 <= x < 2 ^ w.
Definition in_s (w x : Z) : Prop := - 2 ^ (w - 1) <= x < 2 ^ (w - 1).

(** * Outcomes

    What running a piece of C gives: a value, a WebAssembly trap (an
    [unreachable], a failed [assert], [abort]), undefined behaviour of C (an
    access through a dangling pointer or outside an object), or a model that
    ran out of the fuel that bounds a loop or recursion.  The last one is never
    a behaviour of the program; the theorems exclude it. *)

Inductive outcome (A : Type) : Type :=
| Ok (a : A)
| Trap
| UB
| NoFuel.
Arguments Ok {A} a.
Arguments Trap {A}.
Arguments UB {A}.
Arguments NoFuel {A}.

Definition obind {A B} (c : outcome A) (k : A -> outcome B) : outcome B :=
  match c with
  | Ok a => k a
  | Trap => Trap
  | UB => UB
  | NoFuel => NoFuel
  end.

Declare Scope c_scope.
Delimit Scope c_scope with c.
Notation "'let!' x ':=' c 'in' k" := (obind c (fun x => k))
  (at level 10, x pattern, c at level 100, k at level 200) : c_scope.
#[global] Open Scope c_scope.

(** An [int]; leaving its range is undefined. *)
Definition int_ (x : Z) : outcome Z := if (INT_MIN <=? x) && (x <=? INT_MAX) then Ok x else UB.

(** An access that is undefined behaviour where there is no object. *)
Definition deref {A} (o : option A) : outcome A :=
  match o with Some a => Ok a | None => UB end.

Lemma obind_Ok {A B} (c : outcome A) (k : A -> outcome B) b :
  obind c k = Ok b -> exists a, c = Ok a /\ k a = Ok b.
Proof. destruct c; simpl; intros; try discriminate; eauto. Qed.

Lemma obind_assoc {A B C} (c : outcome A) (f : A -> outcome B) (g : B -> outcome C) :
  obind (obind c f) g = obind c (fun a => obind (f a) g).
Proof. by destruct c. Qed.

Lemma obind_ret {A} (c : outcome A) : obind c Ok = c.
Proof. by destruct c. Qed.

Lemma deref_Ok {A} (o : option A) a : deref o = Ok a <-> o = Some a.
Proof. destruct o; simpl; naive_solver. Qed.

(** * Stateful code

    [M S A] is code that reads and writes a state [S] and gives an [A]. *)
Definition M (S A : Type) : Type := S -> outcome (A * S).
Definition sret {S A} (a : A) : M S A := fun s => Ok (a, s).
Definition sbind {S A B} (c : M S A) (k : A -> M S B) : M S B :=
  fun s => let! r := c s in k (fst r) (snd r).
(** A step that may fail and does not touch the state. *)
Definition lift {S A} (o : outcome A) : M S A := fun s => let! a := o in Ok (a, s).
Definition sget {S A} (f : S -> A) : M S A := fun s => Ok (f s, s).
Definition sput {S} (f : S -> S) : M S unit := fun s => Ok (tt, f s).
Definition sfail {S A} : M S A := fun _ => UB.
Notation "'let*' x ':=' c 'in' k" := (sbind c (fun x => k))
  (at level 10, x pattern, c at level 100, k at level 200) : c_scope.
Notation "'do*' c 'in' k" := (sbind c (fun _ => k))
  (at level 10, c at level 100, k at level 200) : c_scope.

Lemma sbind_Ok {S A B} (c : M S A) (k : A -> M S B) s a s' :
  c s = Ok (a, s') -> sbind c k s = k a s'.
Proof. unfold sbind. by intros ->. Qed.

Lemma sbind_cong {S A B} (c : M S A) (k k' : A -> M S B) s :
  (forall a s', k a s' = k' a s') -> sbind c k s = sbind c k' s.
Proof. intros H. unfold sbind. destruct (c s) as [[a s']| | |]; cbn; auto. Qed.

(** * Total correctness of stateful code

    [wp c Q st]: from [st], [c] gives a value and a state with [Q]. *)

Definition wp {St A} (c : M St A) (Q : A -> St -> Prop) (st : St) : Prop :=
  exists a st', c st = Ok (a, st') /\ Q a st'.

Lemma wp_bind {St A B} (c : M St A) (k : A -> M St B) Q st :
  wp c (fun a => wp (k a) Q) st -> wp (sbind c k) Q st.
Proof. intros (a & st' & E & H). unfold wp. by rewrite (sbind_Ok _ _ _ _ _ E). Qed.

Lemma wp_ret {St A} (a : A) (Q : A -> St -> Prop) st : Q a st -> wp (sret a) Q st.
Proof. intros H. by exists a, st. Qed.

Lemma wp_mono {St A} (c : M St A) (Q Q' : A -> St -> Prop) st :
  wp c Q st -> (forall a st', Q a st' -> Q' a st') -> wp c Q' st.
Proof. intros (a & st' & E & H) HQ. exists a, st'. auto. Qed.

Lemma wp_lift {St A} (o : outcome A) a (Q : A -> St -> Prop) st : o = Ok a -> Q a st -> wp (lift o) Q st.
Proof. intros -> H. by exists a, st. Qed.

Lemma wp_sget {St A} (f : St -> A) st (Q : A -> St -> Prop) : Q (f st) st -> wp (sget f) Q st.
Proof. intros HQ. by exists (f st), st. Qed.
Lemma wp_sput {St} (f : St -> St) st (Q : unit -> St -> Prop) : Q tt (f st) -> wp (sput f) Q st.
Proof. intros HQ. by exists tt, (f st). Qed.

(** One call, with what a lemma says of it. *)
Ltac seq := apply wp_bind; eapply wp_mono.

(** [while (cond(a)) a = body(a);] *)
Fixpoint while {St A} (fuel : nat) (cond : A -> M St bool) (body : A -> M St A) (a : A) : M St A :=
  match fuel with
  | O => fun _ => NoFuel
  | S fuel' =>
      let* b := cond a in
      if b : bool then let* a' := body a in while fuel' cond body a' else sret a
  end.

(** The rule of a loop: an invariant and a measure that bounds the fuel. *)
Lemma wp_while {St A} (I : A -> St -> Prop) (meas : A -> Z) (cond : A -> M St bool) (body : A -> M St A) Q :
  (forall a st, I a st -> wp (cond a) (fun b st' => if b then
     wp (body a) (fun a' st'' => I a' st'' /\ 0 <= meas a' < meas a) st' else Q a st') st) ->
  forall fuel a st, I a st -> meas a < Z.of_nat fuel -> 0 <= meas a -> wp (while fuel cond body a) Q st.
Proof.
  intros Hstep. induction fuel as [|fuel IH]; intros a st HI Hm H0; [lia|]. cbn [while].
  apply wp_bind. eapply wp_mono; [by apply Hstep|]. intros [] st' Hb; cbn beta in Hb; [|by apply wp_ret].
  apply wp_bind. eapply wp_mono; [exact Hb|]. intros a' st'' [HI' Hm']. apply IH; [done|lia|lia].
Qed.

(** * Counted loops

    [for_up n i body s] is [for (; n > 0; i++, n--) s = body(i, s)], the shape
    of [for (i = a; i < b; i++)] with [n = b - a]. *)
Fixpoint for_up {S : Type} (n : nat) (i : Z) (body : Z -> S -> outcome S) (s : S)
  : outcome S :=
  match n with
  | O => Ok s
  | Datatypes.S n' => let! s' := body i s in for_up n' (i + 1) body s'
  end.

(** The invariant rule of a counted loop: it terminates normally. *)
Lemma for_up_ind {S : Type} (P : Z -> S -> Prop) n : forall i body s,
  P i s ->
  (forall j t, i <= j < i + Z.of_nat n -> P j t ->
     exists t', body j t = Ok t' /\ P (j + 1) t') ->
  exists s', for_up n i body s = Ok s' /\ P (i + Z.of_nat n) s'.
Proof.
  induction n as [|n IH]; intros i body s HP Hstep; cbn [for_up].
  - exists s. split; [done|]. by replace (i + Z.of_nat 0) with i by lia.
  - destruct (Hstep i s) as (t & Hb & Ht); [lia|done|].
    rewrite Hb; cbn [obind].
    destruct (IH (i + 1) body t Ht) as (s' & Hs' & HP').
    { intros j u Hj Hu. apply Hstep; [lia|done]. }
    exists s'. split; [done|]. by replace (i + Z.of_nat (Datatypes.S n))
      with (i + 1 + Z.of_nat n) by lia.
Qed.

(** * Arithmetic lemmas on the conversions *)

Lemma u8_range x : in_u 8 (u8 x).
Proof. apply Z.mod_pos_bound; lia. Qed.
Lemma u16_range x : in_u 16 (u16 x).
Proof. apply Z.mod_pos_bound; lia. Qed.
Lemma u32_range x : in_u 32 (u32 x).
Proof. apply Z.mod_pos_bound; lia. Qed.
Lemma u64_range x : in_u 64 (u64 x).
Proof. apply Z.mod_pos_bound; lia. Qed.

Lemma u8_id x : in_u 8 x -> u8 x = x.
Proof. apply Z.mod_small. Qed.
Lemma u16_id x : in_u 16 x -> u16 x = x.
Proof. apply Z.mod_small. Qed.
Lemma u32_id x : in_u 32 x -> u32 x = x.
Proof. apply Z.mod_small. Qed.
Lemma u64_id x : in_u 64 x -> u64 x = x.
Proof. apply Z.mod_small. Qed.

Lemma swrap_range w x : 0 < w -> in_s w (swrap w x).
Proof.
  intros Hw. unfold in_s, swrap.
  assert (2 ^ w = 2 * 2 ^ (w - 1)) as E.
  { rewrite <- Z.pow_succ_r by lia. f_equal; lia. }
  assert (0 < 2 ^ (w - 1)) by (apply Z.pow_pos_nonneg; lia).
  pose proof (Z.mod_pos_bound x (2 ^ w) ltac:(lia)).
  destruct (Z.ltb_spec (x mod 2 ^ w) (2 ^ (w - 1))); lia.
Qed.

Lemma swrap_id w x : 0 < w -> in_s w x -> swrap w x = x.
Proof.
  intros Hw Hx. unfold in_s in Hx. unfold swrap.
  assert (2 ^ w = 2 * 2 ^ (w - 1)) as E.
  { rewrite <- Z.pow_succ_r by lia. f_equal; lia. }
  assert (0 < 2 ^ (w - 1)) by (apply Z.pow_pos_nonneg; lia).
  destruct (Z.lt_ge_cases x 0) as [Hn|Hp].
  - replace (x mod 2 ^ w) with (x + 2 ^ w)
      by (apply Z.mod_unique with (-1); lia).
    destruct (Z.ltb_spec (x + 2 ^ w) (2 ^ (w - 1))); lia.
  - rewrite Z.mod_small by lia. destruct (Z.ltb_spec x (2 ^ (w - 1))); lia.
Qed.

Lemma swrap_mod w x : 0 < w -> (swrap w x) mod 2 ^ w = x mod 2 ^ w.
Proof.
  intros Hw. unfold swrap.
  assert (0 < 2 ^ w) by (apply Z.pow_pos_nonneg; lia).
  destruct (x mod 2 ^ w <? 2 ^ (w - 1)).
  - by rewrite Z.mod_mod by lia.
  - rewrite Zminus_mod, Z.mod_mod, Z.mod_same, Z.sub_0_r, Z.mod_mod by lia. done.
Qed.

Lemma s32_range x : in_s 32 (s32 x).
Proof. by apply swrap_range. Qed.
Lemma s64_range x : in_s 64 (s64 x).
Proof. by apply swrap_range. Qed.
Lemma s32_id x : in_s 32 x -> s32 x = x.
Proof. by apply swrap_id. Qed.
Lemma s64_id x : in_s 64 x -> s64 x = x.
Proof. by apply swrap_id. Qed.
Lemma int_Ok x : in_s 32 x -> int_ x = Ok x.
Proof. unfold in_s, int_, INT_MIN, INT_MAX. intros Hx. by rewrite (proj2 (Z.leb_le _ x)), (proj2 (Z.leb_le x _)) by lia. Qed.

(** The idiom that turns C's truncated division into floor division. *)
Lemma floor_fixup x n : 0 < n ->
  (if Z.rem x n <? 0 then (Z.rem x n + n, Z.quot x n - 1) else (Z.rem x n, Z.quot x n))
  = (x mod n, x / n).
Proof.
  intros Hn. pose proof (Z.quot_rem' x n) as E. pose proof (Z.rem_bound_abs x n ltac:(lia)) as B.
  destruct (Z.ltb_spec (Z.rem x n) 0); f_equal.
  - apply Z.mod_unique_pos with (Z.quot x n - 1); lia.
  - apply Z.div_unique_pos with (Z.rem x n + n); lia.
  - apply Z.mod_unique_pos with (Z.quot x n); lia.
  - apply Z.div_unique_pos with (Z.rem x n); lia.
Qed.

Create HintDb words.
#[export] Hint Resolve u8_range u16_range u32_range u64_range s32_range s64_range : words.

(** Expose the bounds behind [in_u] and [in_s] and the literal powers of two. *)
Ltac bounds :=
  unfold in_u, in_s, INT_MAX, INT_MIN, UINT_MAX, SIZE_MAX, LLONG_MAX, LLONG_MIN in *;
  repeat match goal with
    | H : context [2 ^ (Zpos ?p - Zpos ?q)] |- _ =>
        let v := eval vm_compute in (2 ^ (Zpos p - Zpos q)) in
        change (2 ^ (Zpos p - Zpos q)) with v in H
    | |- context [2 ^ (Zpos ?p - Zpos ?q)] =>
        let v := eval vm_compute in (2 ^ (Zpos p - Zpos q)) in
        change (2 ^ (Zpos p - Zpos q)) with v
    | H : context [2 ^ Zpos ?p] |- _ =>
        let v := eval vm_compute in (2 ^ Zpos p) in change (2 ^ Zpos p) with v in H
    | |- context [2 ^ Zpos ?p] =>
        let v := eval vm_compute in (2 ^ Zpos p) in change (2 ^ Zpos p) with v
    end.

(** Case analysis on the boolean comparisons the code branches on. *)
Ltac case_cmp :=
  match goal with
  | |- context [Z.eqb ?a ?b] => destruct (Z.eqb_spec a b)
  | |- context [Z.ltb ?a ?b] => destruct (Z.ltb_spec a b)
  | |- context [Z.leb ?a ?b] => destruct (Z.leb_spec a b)
  end.

(** Replace the comparisons of the goal that linear arithmetic decides. *)
Ltac decide_cmp :=
  repeat match goal with
    | |- context [Z.eqb ?a ?b] =>
        first [rewrite (proj2 (Z.eqb_eq a b)) by lia | rewrite (proj2 (Z.eqb_neq a b)) by lia]
    | |- context [Z.ltb ?a ?b] =>
        first [rewrite (proj2 (Z.ltb_lt a b)) by lia | rewrite (proj2 (Z.ltb_ge a b)) by lia]
    | |- context [Z.leb ?a ?b] =>
        first [rewrite (proj2 (Z.leb_le a b)) by lia | rewrite (proj2 (Z.leb_gt a b)) by lia]
    end.

(** Evaluate the literal subterms of the goal and the hypotheses: indices,
    comparisons and reads of constant tables. *)
Ltac lit_nat t := match t with O => idtac | S ?n => lit_nat n end.
Ltac lits :=
  repeat match goal with
    | |- context [Z.to_nat ?z] =>
        let n := eval vm_compute in (Z.to_nat z) in lit_nat n; change (Z.to_nat z) with n
    | H : context [Z.to_nat ?z] |- _ =>
        let n := eval vm_compute in (Z.to_nat z) in lit_nat n; change (Z.to_nat z) with n in H
    | |- context [?a <=? ?b] =>
        let c := eval vm_compute in (a <=? b) in
        match c with true => idtac | false => idtac end; change (a <=? b) with c
    | H : context [?a <=? ?b] |- _ =>
        let c := eval vm_compute in (a <=? b) in
        match c with true => idtac | false => idtac end; change (a <=? b) with c in H
    | |- context [?a =? ?b] =>
        let c := eval vm_compute in (a =? b) in
        match c with true => idtac | false => idtac end; change (a =? b) with c
    | H : context [?a =? ?b] |- _ =>
        let c := eval vm_compute in (a =? b) in
        match c with true => idtac | false => idtac end; change (a =? b) with c in H
    end; cbn iota in *; cbn [nth andb orb negb] in *.

(** Read a boolean hypothesis as the proposition it decides. *)
Ltac bool_hyps :=
  repeat match goal with
    | H : (_ && _)%bool = true |- _ => apply andb_true_iff in H; destruct H
    | H : (_ || _)%bool = false |- _ => apply orb_false_iff in H; destruct H
    | H : negb _ = true |- _ => apply negb_true_iff in H
    | H : negb _ = false |- _ => apply negb_false_iff in H
    | H : Z.eqb _ _ = true |- _ => apply Z.eqb_eq in H
    | H : Z.eqb _ _ = false |- _ => apply Z.eqb_neq in H
    | H : Z.ltb _ _ = true |- _ => apply Z.ltb_lt in H
    | H : Z.ltb _ _ = false |- _ => apply Z.ltb_ge in H
    | H : Z.leb _ _ = true |- _ => apply Z.leb_le in H
    | H : Z.leb _ _ = false |- _ => apply Z.leb_gt in H
    end.

(** Split an equation on [obind] into the equations of its parts. *)
Ltac inv_ok :=
  repeat match goal with
    | H : obind _ _ = Ok _ |- _ =>
        let a := fresh "a" in let E := fresh "E" in
        apply obind_Ok in H as (a & E & H)
    | H : deref _ = Ok _ |- _ => apply deref_Ok in H
    | H : Ok _ = Ok _ |- _ => injection H as H
    | H : Ok _ = Trap |- _ => discriminate H
    | H : Ok _ = UB |- _ => discriminate H
    | H : @Trap _ = Ok _ |- _ => discriminate H
    | H : @UB _ = Ok _ |- _ => discriminate H
    | H : @NoFuel _ = Ok _ |- _ => discriminate H
    end; subst.

(** * C strings and buffers

    A C string is the list of its bytes before the terminating NUL; a read at
    the index of the terminator gives 0.  [zget] reads a buffer, [zset] stores
    into it; both are undefined behaviour outside of it. *)

Definition zlen {A} (l : list A) : Z := Z.of_nat (length l).

Definition zget {A} (l : list A) (i : Z) : outcome A :=
  if (0 <=? i) then deref (l !! Z.to_nat i) else UB.

Definition zset {A} (l : list A) (i : Z) (x : A) : outcome (list A) :=
  if (0 <=? i) && (i <? zlen l) then Ok (<[Z.to_nat i := x]> l) else UB.

(** [s[i]] of a C string, for an index up to its terminator. *)
Definition schar (s : list Z) (i : Z) : Z := nth (Z.to_nat i) s 0.

Lemma zlen_nonneg {A} (l : list A) : 0 <= zlen l.
Proof. unfold zlen; lia. Qed.

Lemma zlen_app {A} (l k : list A) : zlen (l ++ k) = zlen l + zlen k.
Proof. unfold zlen. rewrite length_app. lia. Qed.

Lemma zlen_cons {A} (x : A) l : zlen (x :: l) = 1 + zlen l.
Proof. unfold zlen. simpl. lia. Qed.

Lemma zlen_insert {A} (l : list A) i x : zlen (<[i := x]> l) = zlen l.
Proof. unfold zlen. by rewrite length_insert. Qed.

Lemma zget_lookup {A} (l : list A) i x :
  zget l i = Ok x <-> 0 <= i /\ l !! Z.to_nat i = Some x.
Proof.
  unfold zget. destruct (Z.leb_spec 0 i); rewrite ?deref_Ok;
    split; intros; destruct_and?; try done; lia.
Qed.

Lemma zget_in_range {A} (l : list A) i :
  0 <= i < zlen l -> exists x, zget l i = Ok x.
Proof.
  intros Hi. unfold zlen in Hi.
  destruct (lookup_lt_is_Some_2 l (Z.to_nat i)) as [x Hx]; [lia|].
  exists x. apply zget_lookup. split; [lia|done].
Qed.

Lemma zset_in_range {A} (l : list A) i x :
  0 <= i < zlen l -> zset l i x = Ok (<[Z.to_nat i := x]> l).
Proof.
  intros Hi. unfold zset.
  destruct (Z.leb_spec 0 i), (Z.ltb_spec i (zlen l)); try lia; done.
Qed.

Lemma zget_zset {A} (l : list A) i j x :
  0 <= i < zlen l ->
  zget (<[Z.to_nat i := x]> l) j = if decide (i = j) then Ok x else zget l j.
Proof.
  intros Hi. unfold zget, zlen in *. case_decide as E; [subst|].
  - rewrite list_lookup_insert_eq by lia. case_cmp; [done|lia].
  - case_cmp; [|done]. rewrite list_lookup_insert_ne by lia. done.
Qed.

(** A property of finitely many numbers, checked one by one. *)
Lemma forall_below (p : Z -> bool) n : forallb p (seqZ 0 n) = true -> forall c, 0 <= c < n -> p c = true.
Proof.
  intros H c Hc. rewrite forallb_forall in H. apply H. apply list_elem_of_In, elem_of_seqZ. lia.
Qed.

(** The longest prefix of elements with a property. *)
Fixpoint span {A} (p : A -> bool) (l : list A) : list A :=
  match l with c :: l' => if p c then c :: span p l' else [] | [] => [] end.

Lemma span_prefix {A} (p : A -> bool) l : exists r, l = span p l ++ r /\ match r with [] => True | c :: _ => p c = false end.
Proof.
  induction l as [|c l (r & E & Hr)]; [by exists []|]. simpl. destruct (p c) eqn:Ep.
  - exists r. simpl. split; [congruence|done].
  - exists (c :: l). done.
Qed.

Lemma span_length {A} (p : A -> bool) l : (length (span p l) <= length l)%nat.
Proof. induction l as [|c l IH]; simpl; [done|]. destruct (p c); simpl; lia. Qed.

Lemma span_forall {A} (p : A -> bool) l : Forall (fun c => p c = true) (span p l).
Proof. induction l as [|c l IH]; simpl; [constructor|]. destruct (p c) eqn:E; by constructor. Qed.

Lemma span_drop {A} (p : A -> bool) : forall l n, (n <= length (span p l))%nat -> span p (drop n l) = drop n (span p l).
Proof.
  induction l as [|c l IH]; intros n Hn; simpl in *; [by rewrite !drop_nil|].
  destruct n as [|n]; [done|]. destruct (p c); simpl in *; [apply IH; lia|lia].
Qed.

Lemma span_take {A} (p : A -> bool) : forall l n, (n <= length (span p l))%nat -> take n l = take n (span p l).
Proof.
  induction l as [|c l IH]; intros n Hn; simpl in *; [by rewrite !take_nil|].
  destruct n as [|n]; [done|]. destruct (p c); simpl in *; [by rewrite IH by lia|lia].
Qed.

Create Rewrite HintDb lens.
#[export] Hint Rewrite @zlen_app @zlen_cons @zlen_insert : lens.
#[export] Hint Resolve zlen_nonneg : words.

(** * Results with [errno]

    What a C library function that reports errors gives: a value, or the
    failure value with [errno] set. *)

Inductive res (A : Type) : Type :=
| Val (a : A)
| Err (errno : Z).
Arguments Val {A} a.
Arguments Err {A} errno.

(** The errno values of WASI (wasi/api.h) the modelled code sets. *)
Definition E2BIG : Z := 1.
Definition EACCES : Z := 2.
Definition EAFNOSUPPORT : Z := 5.
Definition EBADF : Z := 8.
Definition EILSEQ : Z := 25.
Definition EINVAL : Z := 28.
Definition EINTR : Z := 27.
Definition EISDIR : Z := 31.
Definition ENOENT : Z := 44.
Definition ENOMEM : Z := 48.
Definition ENOSYS : Z := 52.
Definition ENOTDIR : Z := 54.
Definition ENOTSUP : Z := 58.
Definition EOVERFLOW : Z := 61.
Definition ERANGE : Z := 68.
Definition ENOTCAPABLE : Z := 76.

(** * Bits *)

Lemma land_low n a b : 0 <= n -> 0 <= b < 2 ^ n -> Z.land (a * 2 ^ n) b = 0.
Proof.
  intros Hn Hb. destruct (Z.eqb_spec b 0) as [-> |Hb0]; [apply Z.land_0_r|].
  apply Z.bits_inj'. intros i Hi. rewrite Z.land_spec, Z.bits_0. destruct (Z.ltb_spec i n).
  - by rewrite Z.mul_pow2_bits_low.
  - rewrite (Z.bits_above_log2 b i), andb_false_r; [done|lia|].
    apply Z.log2_lt_pow2; [lia|]. apply Z.lt_le_trans with (2 ^ n); [lia|].
    apply Z.pow_le_mono_r; lia.
Qed.

Lemma lor_add n a b : 0 <= n -> 0 <= b < 2 ^ n -> Z.lor (a * 2 ^ n) b = a * 2 ^ n + b.
Proof.
  intros Hn Hb. pose proof (land_low n a b Hn Hb) as Hl.
  rewrite <- Z.lxor_lor by exact Hl. symmetry. by apply Z.add_nocarry_lxor.
Qed.

(** The bit above a value. *)
Lemma testbit_top n x : 0 <= n -> 0 <= x < 2 ^ n -> Z.testbit x n = false.
Proof.
  intros Hn Hx. destruct (Z.eqb_spec x 0) as [-> |]; [apply Z.bits_0|].
  apply Z.bits_above_log2; [lia|]. apply Z.log2_lt_pow2; lia.
Qed.

Lemma testbit_set n x : 0 <= n -> 2 ^ n <= x < 2 ^ (n + 1) -> Z.testbit x n = true.
Proof.
  intros Hn Hx. rewrite Z.pow_add_r in Hx by lia. change (2 ^ 1) with 2 in Hx.
  replace x with (x - 2 ^ n + 1 * 2 ^ n) by lia.
  apply Z.testbit_true; [done|].
  rewrite Z.div_add by lia. rewrite Z.div_small by lia. done.
Qed.
