(* ===== verification/Fiber.v ===== *)
(** The fiber library of benchmarks/c10m (fiber.h, fiber_asyncify.c) on top of
    the Asyncify runtime that binaryen's Asyncify pass adds to the module
    (tinygo/lib/binaryen/src/passes/Asyncify.cpp).

    A fiber body is instrumented code.  What the library can observe of it is
    the sequence of its calls to the fiber interface, so a body is a [comp]: it
    returns, calls [fiber_yield], calls [fiber_resume] on another fiber, or traps.
    Asyncify saves the call chain and the locals of such a body at the call
    that unwinds; the saved frame is the [comp] that starts with that call. *)

From S2P Require Import Prelude.

(** ** The allocator the library calls

    [malloc] and [free] as the C library documents them: [malloc] gives 0 or a
    fresh block that fits the address space, [free] releases one. [cap] is the
    number of blocks of at most a page the heap can hold for certain. *)

Class Allocator (H : Type) := {
  malloc : Z -> H -> Z * H;
  free : Z -> H -> H;
  live : H -> gset Z;
}.

Class AllocatorLaws (H : Type) {A : Allocator H} (cap : nat) := {
  malloc_fresh : forall n h, 0 <= n <= 4096 -> (size (live h) < cap)%nat ->
    0 < fst (malloc n h) /\ fst (malloc n h) + n < 2 ^ 32 /\
    (fst (malloc n h) ∉ live h) /\
    live (snd (malloc n h)) = {[fst (malloc n h)]} ∪ live h;
  free_live : forall p h, live (free p h) = live h ∖ {[p]};
}.

(** ** Fibers *)

Module Fiber.

Inductive fiber_result_t := FIBER_OK | FIBER_YIELD | FIBER_ERROR.

Inductive fiber_state_t := ACTIVE | YIELDING | DONE.

#[export] Instance fiber_state_eq : EqDecision fiber_state_t.
Proof. solve_decision. Defined.

Inductive comp :=
| Return (v : Z)
| CallYield (arg : Z) (k : Z -> comp)
| CallResume (fib arg : Z) (k : Z -> fiber_result_t -> comp)
| Crash.

(** [saved] is the contents of the buffer between [buffer] and [top]: the
    frames Asyncify has written there, the innermost one first. *)
Record fiber_stack := mk_stack {
  top : Z;
  end_ : Z;
  buffer : Z;
  saved : list comp;
}.

Record fiber := mk_fiber {
  stack : fiber_stack;
  state : fiber_state_t;
  entry : Z -> comp;
  arg : Z;
}.

Definition with_stack (s : fiber_stack) (f : fiber) : fiber :=
  mk_fiber s (state f) (entry f) (arg f).
Definition with_state (s : fiber_state_t) (f : fiber) : fiber :=
  mk_fiber (stack f) s (entry f) (arg f).
Definition with_arg (a : Z) (f : fiber) : fiber :=
  mk_fiber (stack f) (state f) (entry f) a.

(** Asyncify's [__asyncify_state]. *)
Inductive State := Normal | Unwinding | Rewinding.

#[export] Instance State_eq : EqDecision State.
Proof. solve_decision. Defined.

Definition FIBER_DEFAULT_STACK_SIZE : Z := 4096.

(** [sizeof(struct fiber)] on wasm32. *)
Definition sizeof_fiber : Z := 24.

(** The memory: the heap, the live [struct fiber] objects by address, the
    global [active_fiber] and Asyncify's two globals. *)
Record world (H : Type) := mk_world {
  heap : H;
  fibers : gmap Z fiber;
  active_fiber : Z;
  asyncify_state : State;
  asyncify_data : Z;
}.
Arguments mk_world {H}.
Arguments heap {H}.
Arguments fibers {H}.
Arguments active_fiber {H}.
Arguments asyncify_state {H}.
Arguments asyncify_data {H}.

Definition init_world {H} (h : H) : world H := mk_world h ∅ 0 Normal 0.

Section Ops.
Context {H : Type} `{Allocator H}.

(** The bytes Asyncify needs for the call chain and the locals of a suspended
    body; they depend on the compiled code. *)
Variable frame_size : comp -> Z.

Definition set_fiber (p : Z) (f : fiber) (w : world H) : world H :=
  mk_world (heap w) (<[p := f]> (fibers w)) (active_fiber w)
    (asyncify_state w) (asyncify_data w).
Definition set_active (p : Z) (w : world H) : world H :=
  mk_world (heap w) (fibers w) p (asyncify_state w) (asyncify_data w).
Definition set_asyncify (s : State) (d : Z) (w : world H) : world H :=
  mk_world (heap w) (fibers w) (active_fiber w) s d.

(** *** The functions the Asyncify pass adds

    Each sets the state, [start_*] also the data pointer, and then checks
    [data->top > data->end].  While no stack was ever installed the pointer is
    0 and both loads give 0, which passes. *)

Definition check_data (w : world H) : outcome (world H) :=
  if asyncify_data w =? 0 then Ok w else
  let! f := deref (fibers w !! asyncify_data w) in
  if end_ (stack f) <? top (stack f) then Trap else Ok w.

Definition asyncify_start_unwind (d : Z) (w : world H) : outcome (world H) :=
  check_data (set_asyncify Unwinding d w).
Definition asyncify_stop_unwind (w : world H) : outcome (world H) :=
  check_data (set_asyncify Normal (asyncify_data w) w).
Definition asyncify_start_rewind (d : Z) (w : world H) : outcome (world H) :=
  check_data (set_asyncify Rewinding d w).
Definition asyncify_stop_rewind (w : world H) : outcome (world H) :=
  check_data (set_asyncify Normal (asyncify_data w) w).

(** What instrumented code does to the installed stack: [saveLocals] and
    [noteUnWound] at the call that unwinds, [loadLocals] on the way back.
    Storing into the null buffer a failed [malloc] leaves is undefined.  The pass
    writes the frame before it looks at [end]: a frame that does not fit overwrites
    whatever is behind the buffer's block, of which nothing can be said ([UB]). *)

Definition push_frame (c : comp) (w : world H) : outcome (world H) :=
  let! f := deref (fibers w !! asyncify_data w) in
  let s := stack f in
  if buffer s =? 0 then UB else
  if end_ s <? top s + frame_size c then UB else
  Ok (set_fiber (asyncify_data w)
        (with_stack (mk_stack (top s + frame_size c) (end_ s) (buffer s)
                       (c :: saved s)) f) w).

Definition pop_frame (w : world H) : outcome (comp * world H) :=
  let! f := deref (fibers w !! asyncify_data w) in
  let s := stack f in
  match saved s with
  | [] => UB
  | c :: cs =>
      Ok (c, set_fiber (asyncify_data w)
               (with_stack (mk_stack (top s - frame_size c) (end_ s) (buffer s) cs) f) w)
  end.

(** *** fiber_asyncify.c *)

Definition fiber_stack_alloc (stack_size : Z) (w : world H) : fiber_stack * world H :=
  let '(buf, h) := malloc (u32 stack_size) (heap w) in
  (mk_stack buf (u32 (buf + stack_size)) buf [],
   mk_world h (fibers w) (active_fiber w) (asyncify_state w) (asyncify_data w)).

Definition fiber_stack_free (s : fiber_stack) (w : world H) : world H :=
  mk_world (free (buffer s) (heap w)) (fibers w) (active_fiber w)
    (asyncify_state w) (asyncify_data w).

(** [malloc] is not checked: a null result is stored through, which is
    undefined behaviour. *)
Definition fiber_sized_alloc (stack_size : Z) (ent : Z -> comp) (w : world H)
  : outcome (Z * world H) :=
  let '(p, h) := malloc sizeof_fiber (heap w) in
  if p =? 0 then UB else
  let w1 := mk_world h (fibers w) (active_fiber w) (asyncify_state w) (asyncify_data w) in
  let '(s, w2) := fiber_stack_alloc stack_size w1 in
  Ok (p, set_fiber p (mk_fiber s ACTIVE ent 0) w2).

Definition fiber_alloc (ent : Z -> comp) (w : world H) : outcome (Z * world H) :=
  fiber_sized_alloc FIBER_DEFAULT_STACK_SIZE ent w.

Definition fiber_free (p : Z) (w : world H) : outcome (world H) :=
  let! f := deref (fibers w !! p) in
  let w1 := fiber_stack_free (stack f) w in
  Ok (mk_world (free p (heap w1)) (delete p (fibers w1)) (active_fiber w1)
        (asyncify_state w1) (asyncify_data w1)).

Definition fiber_yield (a : Z) (w : world H) : outcome (Z * world H) :=
  let! f := deref (fibers w !! active_fiber w) in
  if decide (state f = YIELDING) then
    let! w1 := asyncify_stop_rewind w in
    let! f1 := deref (fibers w1 !! active_fiber w1) in
    Ok (arg f1, set_fiber (active_fiber w1) (with_state ACTIVE f1) w1)
  else
    let w1 := set_fiber (active_fiber w) (with_state YIELDING (with_arg a f)) w in
    let! w2 := asyncify_start_unwind (active_fiber w1) w1 in
    Ok (0, w2).

(** [call_entry] is the indirect call [fiber->entry(arg)]. *)
Definition fiber_resume
    (call_entry : (Z -> comp) -> Z -> world H -> outcome (Z * world H))
    (p a : Z) (w : world H) : outcome (Z * fiber_result_t * world H) :=
  let! f := deref (fibers w !! p) in
  if decide (state f = DONE) then Ok (0, FIBER_ERROR, w) else
  let prev := active_fiber w in
  let w1 := set_active p w in
  let! w2 :=
    (if decide (state f = YIELDING)
     then asyncify_start_rewind p (set_fiber p (with_arg a f) w1)
     else Ok w1) in
  let! (fiber_result, w3) := call_entry (entry f) a w2 in
  let! w4 := asyncify_stop_unwind w3 in
  let! f4 := deref (fibers w4 !! p) in
  let f5 := if decide (state f4 = YIELDING) then f4 else with_state DONE f4 in
  let w6 := set_active prev (set_fiber p f5 w4) in
  Ok (if decide (state f5 = YIELDING) then arg f5 else fiber_result,
      if decide (state f5 = YIELDING) then FIBER_YIELD else FIBER_OK,
      w6).

(** *** Running instrumented code

    [exec] runs a body from one of its calls.  After a call to [fiber_yield]
    that started an unwind, the instrumentation saves the frame and leaves
    the function with a dummy result. [fiber_resume] itself is not
    instrumented, since it calls the Asyncify functions. [enter] is the call of
    a fiber's entry point: while rewinding, the code skips to the call it was
    suspended in. *)

Definition enter (run : comp -> world H -> outcome (Z * world H))
    (ent : Z -> comp) (a : Z) (w : world H) : outcome (Z * world H) :=
  match asyncify_state w with
  | Normal => run (ent a) w
  | Rewinding => let! (c, w1) := pop_frame w in run c w1
  | Unwinding => UB
  end.

Fixpoint exec (fuel : nat) (c : comp) (w : world H) : outcome (Z * world H) :=
  match fuel with
  | O => NoFuel
  | S n =>
      match c with
      | Return v => Ok (v, w)
      | CallYield a k =>
          let! (r, w1) := fiber_yield a w in
          match asyncify_state w1 with
          | Unwinding => let! w2 := push_frame c w1 in Ok (0, w2)
          | _ => exec n (k r) w1
          end
      | CallResume p a k =>
          let! (r, st, w1) := fiber_resume (enter (exec n)) p a w in
          exec n (k r st) w1
      | Crash => Trap
      end
  end.

Definition resume (fuel : nat) (p a : Z) (w : world H) :=
  fiber_resume (enter (exec fuel)) p a w.

End Ops.
End Fiber.
