(* ===== verification/FiberSpec.v ===== *)
(** What the fiber interface promises, and that fiber_asyncify.c keeps it.

    The specification is one-shot coroutines without any stack copying: a fiber
    is fresh, running, suspended at a yield with the continuation of its body,
    or finished.  [aresume] and [aexec] give its big-step behaviour. The
    refinement theorem says that the unwinding and rewinding implementation
    computes the same results, statuses and fiber states, nested resumes
    included, as long as every frame fits its Asyncify stack. *)

From S2P Require Import Prelude Fiber.

Module FiberSpec.
Import Fiber.

(** ** The specification *)

Inductive afiber :=
| AFresh (body : Z -> comp)
| ARunning
| ASuspended (v : Z) (k : Z -> comp)
| AFinished.

Inductive aoutcome :=
| OReturn (v : Z)
| OYield (v : Z) (k : Z -> comp).

(** The state a fiber is left in, and what [fiber_resume] reports. *)
Definition after (o : aoutcome) : afiber :=
  match o with OReturn _ => AFinished | OYield v k => ASuspended v k end.
Definition value_of (o : aoutcome) : Z :=
  match o with OReturn v => v | OYield v _ => v end.
Definition status_of (o : aoutcome) : fiber_result_t :=
  match o with OReturn _ => FIBER_OK | OYield _ _ => FIBER_YIELD end.

(** What a fiber that may be resumed does next with the argument. *)
Definition next_comp (s : afiber) (a : Z) : option comp :=
  match s with
  | AFresh b => Some (b a)
  | ASuspended _ k => Some (k a)
  | _ => None
  end.

Inductive aexec : gmap Z afiber -> comp -> aoutcome -> gmap Z afiber -> Prop :=
| aexec_return m v : aexec m (Return v) (OReturn v) m
| aexec_yield m a k : aexec m (CallYield a k) (OYield a k) m
| aexec_resume m p a k r st m1 o m2 :
    aresume m p a r st m1 ->
    aexec m1 (k r st) o m2 ->
    aexec m (CallResume p a k) o m2
with aresume : gmap Z afiber -> Z -> Z -> Z -> fiber_result_t -> gmap Z afiber -> Prop :=
| aresume_finished m p a :
    m !! p = Some AFinished ->
    aresume m p a 0 FIBER_ERROR m
| aresume_run m p a s c o m1 :
    m !! p = Some s ->
    next_comp s a = Some c ->
    aexec (<[p := ARunning]> m) c o m1 ->
    aresume m p a (value_of o) (status_of o) (<[p := after o]> m1).

Scheme aexec_ind2 := Induction for aexec Sort Prop
  with aresume_ind2 := Induction for aresume Sort Prop.
Combined Scheme aexec_aresume_ind from aexec_ind2, aresume_ind2.

(** ** The refinement *)

Section Refinement.
Context {H : Type} `{Allocator H}.
Variable frame_size : comp -> Z.

(** An empty Asyncify stack, and one that holds exactly the frame [c]. *)
Definition idle_stack (s : fiber_stack) : Prop :=
  top s = buffer s /\ saved s = [].
Definition holds_frame (c : comp) (s : fiber_stack) : Prop :=
  top s = buffer s + frame_size c /\ saved s = [c] /\ top s <= end_ s.

(** Every frame Asyncify may have to save fits the stack. *)
Definition roomy (s : fiber_stack) : Prop :=
  buffer s <> 0 /\ forall c, 0 <= frame_size c <= end_ s - buffer s.

Definition fiber_rel (a : afiber) (f : fiber) : Prop :=
  roomy (stack f) /\
  match a with
  | AFresh b => state f = ACTIVE /\ entry f = b /\ idle_stack (stack f)
  | ARunning => state f = ACTIVE /\ idle_stack (stack f)
  | ASuspended v k =>
      state f = YIELDING /\ arg f = v /\ holds_frame (CallYield v k) (stack f)
  | AFinished => state f = DONE /\ idle_stack (stack f)
  end.

(** The abstract fibers are exactly the live objects, each in the related
    state, and the pointer Asyncify checks is null or one of them. *)
Definition fibers_rel (m : gmap Z afiber) (w : world H) : Prop :=
  forall p, option_Forall2 fiber_rel (m !! p) (fibers w !! p).
Definition world_rel (m : gmap Z afiber) (w : world H) : Prop :=
  fibers_rel m w /\
  (asyncify_data w = 0 \/ is_Some (fibers w !! asyncify_data w)).

Lemma fibers_rel_lookup m w p a :
  fibers_rel m w -> m !! p = Some a ->
  exists f, fibers w !! p = Some f /\ fiber_rel a f.
Proof.
  intros Hr Hp. specialize (Hr p). rewrite Hp in Hr. inversion Hr; eauto.
Qed.

Lemma fiber_rel_in_bounds a f : fiber_rel a f -> top (stack f) <= end_ (stack f).
Proof.
  intros [[_ Hroom] Ha]. pose proof (Hroom (Return 0)).
  unfold idle_stack, holds_frame in Ha. destruct a; destruct_and!; lia.
Qed.

Lemma check_data_at (w : world H) f :
  fibers w !! asyncify_data w = Some f -> top (stack f) <= end_ (stack f) ->
  check_data w = Ok w.
Proof.
  intros Hf Hle. unfold check_data. rewrite Hf. cbn.
  case_cmp; [done|]. case_cmp; [lia|done].
Qed.

(** Asyncify's validity check never fires on related states. *)
Lemma check_data_ok m w : world_rel m w -> check_data w = Ok w.
Proof.
  intros [Hr [Hd|[f Hf]]]; [by unfold check_data; rewrite Hd|].
  specialize (Hr (asyncify_data w)). rewrite Hf in Hr. inversion Hr as [a ? Ha|]; subst.
  eauto using check_data_at, fiber_rel_in_bounds.
Qed.

Lemma fibers_rel_data m w s d :
  fibers_rel m w -> is_Some (m !! d) -> world_rel m (set_asyncify s d w).
Proof.
  intros Hr [a Ha]. split; [exact Hr|]. right. cbn.
  destruct (fibers_rel_lookup _ _ _ _ Hr Ha) as (f & -> & _). eauto.
Qed.

Lemma world_rel_mode m w s :
  world_rel m w -> world_rel m (set_asyncify s (asyncify_data w) w).
Proof. done. Qed.

Lemma world_rel_active m w p : world_rel m w -> world_rel m (set_active p w).
Proof. done. Qed.

Lemma fibers_rel_set m w p a f :
  fibers_rel m w -> fiber_rel a f ->
  fibers_rel (<[p := a]> m) (set_fiber p f w).
Proof.
  intros Hr Hf q. cbn. destruct (decide (p = q)) as [->|].
  - rewrite !lookup_insert_eq. by constructor.
  - by rewrite !lookup_insert_ne.
Qed.

Lemma world_rel_set m w p a f :
  world_rel m w -> fiber_rel a f ->
  world_rel (<[p := a]> m) (set_fiber p f w).
Proof.
  intros [Hr Hd] Hf. split; [by apply fibers_rel_set|]. cbn.
  destruct Hd as [|Hd]; [by left|right].
  rewrite lookup_insert. case_decide; eauto.
Qed.

(** The Asyncify buffer of every live fiber. *)
Definition bufs (w : world H) : gmap Z Z := (fun f => buffer (stack f)) <$> fibers w.

Lemma bufs_set (w : world H) p f f' :
  fibers w !! p = Some f -> buffer (stack f') = buffer (stack f) ->
  bufs (set_fiber p f' w) = bufs w.
Proof.
  intros Hf Hb. unfold bufs. cbn. rewrite fmap_insert, Hb.
  apply insert_id. by rewrite lookup_fmap, Hf.
Qed.

(** Running fibers stay running while others are resumed. *)
Lemma running_preserved :
  (forall m c o m', aexec m c o m' ->
     forall p, m !! p = Some ARunning -> m' !! p = Some ARunning) /\
  (forall m q a r st m', aresume m q a r st m' ->
     forall p, m !! p = Some ARunning -> m' !! p = Some ARunning).
Proof.
  apply aexec_aresume_ind; intros; eauto.
  destruct (decide (p = p0)) as [->|]; [by simplify_eq|].
  rewrite lookup_insert_ne by done. apply H1. by rewrite lookup_insert_ne.
Qed.

(** *** The steps of the implementation *)

Lemma push_frame_at c (w : world H) f :
  fibers w !! asyncify_data w = Some f -> buffer (stack f) <> 0 ->
  top (stack f) + frame_size c <= end_ (stack f) ->
  push_frame frame_size c w =
    Ok (set_fiber (asyncify_data w)
          (with_stack (mk_stack (top (stack f) + frame_size c) (end_ (stack f))
             (buffer (stack f)) (c :: saved (stack f))) f) w).
Proof. intros Hf Hb Hfit. unfold push_frame. rewrite Hf. cbn. case_cmp; [done|]. case_cmp; [lia|done]. Qed.

(** [fiber_yield] in a running fiber suspends it and saves its frame. *)
Lemma exec_yield m w a k :
  fibers_rel m w -> asyncify_state w = Normal ->
  m !! active_fiber w = Some ARunning ->
  exists w', (forall n, exec frame_size (S n) (CallYield a k) w = Ok (0, w')) /\
    asyncify_state w' = Unwinding /\ active_fiber w' = active_fiber w /\
    heap w' = heap w /\ bufs w' = bufs w /\
    world_rel (<[active_fiber w := ASuspended a k]> m) w'.
Proof.
  intros Hr Hs Hm. destruct (fibers_rel_lookup _ _ _ _ Hr Hm) as (f & Hf & Hrel).
  pose proof Hrel as [Hroom [Hst [Htop Hsv]]]. pose proof Hroom as [Hnn Hfit].
  pose proof (Hfit (Return 0)) as Hz. pose proof (Hfit (CallYield a k)) as Hk.
  eexists. split. { intros n.
  cbn [exec]. unfold fiber_yield at 1. rewrite Hf. cbn [deref obind].
  rewrite decide_False by (rewrite Hst; done).
  unfold asyncify_start_unwind.
  rewrite (check_data_at _ (with_state YIELDING (with_arg a f)))
    by (try apply lookup_insert_eq; cbn; lia).
  cbn [obind asyncify_state set_asyncify].
  rewrite (push_frame_at _ _ (with_state YIELDING (with_arg a f)))
    by (try apply lookup_insert_eq; cbn; (done || lia)).
  cbn [obind]. reflexivity. }
  split_and!; try done.
  { unfold set_fiber, set_asyncify; cbn. rewrite insert_insert_eq. by eapply bufs_set. }
  unfold set_fiber, set_asyncify; cbn. rewrite insert_insert_eq.
  apply (fibers_rel_data _ (set_fiber (active_fiber w) _ w)).
  - apply fibers_rel_set; [done|]. split; [done|].
    unfold holds_frame; cbn. rewrite Htop, Hsv. split_and!; try done; lia.
  - rewrite lookup_insert_eq. eauto.
Qed.

(** Starting a fresh fiber enters its body. *)
Lemma enter_fresh run m w p a b f :
  fibers_rel m w -> asyncify_state w = Normal ->
  fibers w !! p = Some f -> fiber_rel (AFresh b) f ->
  fibers_rel (<[p := ARunning]> m) (set_active p w) /\
  enter frame_size run (entry f) a (set_active p w) = run (b a) (set_active p w).
Proof.
  intros Hr Hs Hf [Hroom (Hst & <- & Hid)]. split.
  - intros q. cbn. destruct (decide (p = q)) as [<-|]; [|by rewrite lookup_insert_ne].
    rewrite lookup_insert_eq, Hf. constructor. by split.
  - unfold enter. cbn. by rewrite Hs.
Qed.

(** Rewinding a suspended fiber reaches the [fiber_yield] it was suspended in,
    which returns the new argument in normal mode with an empty stack. *)
Lemma rewind_suspended m w p a v k f :
  fibers_rel m w -> fibers w !! p = Some f -> fiber_rel (ASuspended v k) f ->
  let w1 := set_asyncify Rewinding p (set_fiber p (with_arg a f) (set_active p w)) in
  exists w2,
    asyncify_start_rewind p (set_fiber p (with_arg a f) (set_active p w)) = Ok w1 /\
    (forall n, enter frame_size (exec frame_size (S n)) (entry f) a w1 =
       exec frame_size n (k a) w2) /\
    world_rel (<[p := ARunning]> m) w2 /\ asyncify_state w2 = Normal /\
    active_fiber w2 = p /\ heap w2 = heap w /\ bufs w2 = bufs w.
Proof.
  intros Hr Hf Hrel. pose proof (fiber_rel_in_bounds _ _ Hrel) as Hle.
  destruct Hrel as [Hroom (Hst & Harg & Htop & Hsv & _)].
  pose proof Hroom as [Hnn Hfit]. pose proof (Hfit (CallYield v k)) as Hk. intros w1.
  assert (asyncify_start_rewind p (set_fiber p (with_arg a f) (set_active p w)) = Ok w1) as E1.
  { apply (check_data_at _ (with_arg a f)); [apply lookup_insert_eq|done]. }
  eexists. split; [exact E1|]. split.
  { intros n. unfold enter, pop_frame. cbn [w1 asyncify_state asyncify_data set_asyncify fibers set_fiber].
  rewrite lookup_insert_eq. cbn [deref obind with_arg stack]. rewrite Hsv. cbn [obind].
  set (s := mk_stack _ _ _ []). set (f1 := with_stack s (with_arg a f)).
  cbn [exec]. unfold fiber_yield at 1. cbn [fibers set_fiber active_fiber set_active set_asyncify w1].
  rewrite lookup_insert_eq. cbn [deref obind f1 with_stack with_arg state].
  rewrite decide_True by done. unfold asyncify_stop_rewind.
  rewrite (check_data_at _ f1) by (try apply lookup_insert_eq; cbn; lia).
  cbn [obind set_asyncify fibers set_fiber active_fiber set_active].
  rewrite lookup_insert_eq. cbn [deref obind set_fiber asyncify_state arg with_arg].
  reflexivity. }
  assert (bufs (set_fiber p (with_state ACTIVE (with_stack
    (mk_stack (top (stack f) - frame_size (CallYield v k)) (end_ (stack f)) (buffer (stack f)) [])
    (with_arg a f))) (set_active p w)) = bufs w) as Hbufs by (by eapply (bufs_set w)).
  split_and!; try done.
  2: { rewrite <- Hbufs. unfold set_fiber, set_asyncify, set_active; cbn.
       by rewrite !insert_insert_eq. }
  unfold set_fiber, set_asyncify, set_active; cbn. rewrite !insert_insert_eq.
  apply (fibers_rel_data _ (set_fiber p _ (set_active p w))).
  - apply fibers_rel_set; [done|]. split; [done|]. split; [done|].
    unfold idle_stack; cbn. split; [lia|done].
  - rewrite lookup_insert_eq. eauto.
Qed.

(** The state a body leaves its fiber [p] in: finished in normal mode, or
    suspended while unwinding. *)
Definition left_by (o : aoutcome) (m : gmap Z afiber) (p : Z) (w : world H) : Prop :=
  match o with
  | OReturn _ => asyncify_state w = Normal /\ world_rel m w
  | OYield v k => asyncify_state w = Unwinding /\ world_rel (<[p := ASuspended v k]> m) w
  end.

(** What a call of the entry point evaluates to in C: a dummy after an unwind. *)
Definition raw_value (o : aoutcome) : Z :=
  match o with OReturn v => v | OYield _ _ => 0 end.

(** The tail of [fiber_resume], from the return of the entry point on. *)
Lemma resume_tail o m p prev (w3 : world H) :
  left_by o m p w3 -> m !! p = Some ARunning ->
  exists w6,
    (let! w4 := asyncify_stop_unwind w3 in
     let! f4 := deref (fibers w4 !! p) in
     let f5 := if decide (state f4 = YIELDING) then f4 else with_state DONE f4 in
     let w6 := set_active prev (set_fiber p f5 w4) in
     Ok (if decide (state f5 = YIELDING) then arg f5 else raw_value o,
         if decide (state f5 = YIELDING) then FIBER_YIELD else FIBER_OK, w6))
    = Ok (value_of o, status_of o, w6) /\
    active_fiber w6 = prev /\ asyncify_state w6 = Normal /\ heap w6 = heap w3 /\
    bufs w6 = bufs w3 /\
    world_rel (<[p := after o]> m) w6.
Proof.
  intros Hl Hm.
  assert (world_rel (match o with OReturn _ => m | OYield v k => <[p := ASuspended v k]> m end) w3)
    as Hr by (destruct o; apply Hl).
  unfold asyncify_stop_unwind. rewrite (check_data_ok _ _ (world_rel_mode _ _ Normal Hr)).
  cbn [obind set_asyncify fibers].
  destruct o as [v|v k]; cbn in Hr.
  - destruct (fibers_rel_lookup _ _ _ _ (proj1 Hr) Hm) as (f & Hf & Hroom & Hst & Hid).
    rewrite Hf. cbn [deref obind]. rewrite Hst. cbn.
    eexists. split; [reflexivity|]. split_and!; try done; [by eapply (bufs_set w3)|].
    apply world_rel_active, world_rel_set; [|done].
    by apply world_rel_mode.
  - destruct (fibers_rel_lookup _ _ p (ASuspended v k) (proj1 Hr)) as (f & Hf & Hroom & Hst & Harg & Hfr).
    { apply lookup_insert_eq. }
    rewrite Hf. cbn [deref obind]. rewrite (decide_True (A:=fiber) _ _ Hst), !(decide_True _ _ Hst), Harg.
    eexists. split; [reflexivity|]. split_and!; try done; [by eapply (bufs_set w3)|].
    cbn [after]. rewrite <- (insert_insert_eq m p (ASuspended v k) (ASuspended v k)).
    apply world_rel_active, world_rel_set; [|done].
    by apply world_rel_mode.
Qed.

Definition exec_ok (m : gmap Z afiber) (c : comp) (o : aoutcome) (m' : gmap Z afiber) : Prop :=
  forall w, world_rel m w -> asyncify_state w = Normal ->
    m !! active_fiber w = Some ARunning ->
    exists N w', left_by o m' (active_fiber w) w' /\
      active_fiber w' = active_fiber w /\ heap w' = heap w /\ bufs w' = bufs w /\
      forall n, (N <= n)%nat -> exec frame_size n c w = Ok (raw_value o, w').

Definition resume_ok (m : gmap Z afiber) (p a r : Z) (st : fiber_result_t)
    (m' : gmap Z afiber) : Prop :=
  forall w, world_rel m w -> asyncify_state w = Normal ->
    exists N w', world_rel m' w' /\ asyncify_state w' = Normal /\
      active_fiber w' = active_fiber w /\ heap w' = heap w /\ bufs w' = bufs w /\
      forall n, (N <= n)%nat -> resume frame_size n p a w = Ok (r, st, w').

Lemma resume_run_ok m p a s c o m1 :
  m !! p = Some s -> next_comp s a = Some c ->
  aexec (<[p := ARunning]> m) c o m1 -> exec_ok (<[p := ARunning]> m) c o m1 ->
  resume_ok m p a (value_of o) (status_of o) (<[p := after o]> m1).
Proof.
  intros Hp Hc Hex IH w Hr Hs.
  destruct (fibers_rel_lookup _ _ _ _ (proj1 Hr) Hp) as (f & Hf & Hrel).
  assert (m1 !! p = Some ARunning) as Hm1
    by (eapply (proj1 running_preserved); [done|apply lookup_insert_eq]).
  unfold resume, fiber_resume. rewrite Hf. cbn [deref obind].
  destruct s as [b| |v k|]; try discriminate; injection Hc as <-.
  - destruct (enter_fresh (fun _ _ => NoFuel) _ _ p a b f (proj1 Hr) Hs Hf Hrel) as [Hr1 _].
    destruct (IH (set_active p w)) as (N & w3 & Hleft & Hact & Hh & Hb & Hrun);
      [by split; [|apply Hr]|done|apply lookup_insert_eq|].
    destruct (resume_tail _ _ _ (active_fiber w) _ Hleft Hm1) as (w6 & Ht & Ha & Hn & Hh6 & Hb6 & Hr6).
    exists N, w6. split_and!; try done; [cbn in Hh; congruence|rewrite Hb6; exact Hb|].
    intros n Hn'. rewrite decide_False, decide_False by (rewrite (proj1 (proj2 Hrel)); done).
    cbn [obind]. destruct (enter_fresh (exec frame_size n) _ _ p a b f (proj1 Hr) Hs Hf Hrel) as [_ ->].
    rewrite Hrun by done. exact Ht.
  - destruct (rewind_suspended _ _ p a v k f (proj1 Hr) Hf Hrel) as (w2 & Hsr & He & Hr2 & Hs2 & Ha2 & Hh2 & Hb2).
    destruct (IH w2) as (N & w3 & Hleft & Hact & Hh & Hb & Hrun);
      [done|done|rewrite Ha2; apply lookup_insert_eq|]. rewrite Ha2 in Hleft.
    destruct (resume_tail _ _ _ (active_fiber w) _ Hleft Hm1) as (w6 & Ht & Ha & Hn & Hh6 & Hb6 & Hr6).
    exists (S N), w6. split_and!; try done; [congruence..|].
    intros n Hn'. destruct n as [|n]; [lia|].
    rewrite decide_False, decide_True by (rewrite (proj1 (proj2 Hrel)); done).
    rewrite Hsr. cbn [obind]. rewrite He, Hrun by lia. exact Ht.
Qed.

Lemma fiber_refinement :
  (forall m c o m', aexec m c o m' -> exec_ok m c o m') /\
  (forall m p a r st m', aresume m p a r st m' -> resume_ok m p a r st m').
Proof.
  apply aexec_aresume_ind.
  - intros m v w Hr Hs Hm. exists 1%nat, w. split_and!; try done.
    intros [|n] Hn; [lia|done].
  - intros m a k w Hr Hs Hm. destruct (exec_yield _ _ a k (proj1 Hr) Hs Hm) as (w' & He & Hu & Ha & Hh & Hb & Hr').
    exists 1%nat, w'. split_and!; try done.
    intros [|n] Hn; [lia|]. apply He.
  - intros m p a k r st m1 o m2 Hres IHr Hex IHe w Hr Hs Hm.
    destruct (IHr w Hr Hs) as (N1 & w1 & Hr1 & Hs1 & Ha1 & Hh1 & Hb1 & Hrun1).
    destruct (IHe w1 Hr1 Hs1) as (N2 & w2 & Hl2 & Ha2 & Hh2 & Hb2 & Hrun2).
    { rewrite Ha1. eapply (proj2 running_preserved); eauto. }
    exists (S (max N1 N2)), w2. rewrite <- Ha1. split_and!; try done; [congruence..|].
    intros [|n] Hn; [lia|]. cbn [exec].
    change (fiber_resume (enter frame_size (exec frame_size n)) p a w)
      with (resume frame_size n p a w).
    rewrite Hrun1 by lia. cbn [obind]. apply Hrun2. lia.
  - intros m p a Hp w Hr Hs. destruct (fibers_rel_lookup _ _ _ _ (proj1 Hr) Hp) as (f & Hf & _ & Hst & _).
    exists 0%nat, w. split_and!; try done. intros n _.
    unfold resume, fiber_resume. rewrite Hf. cbn [deref obind]. by rewrite decide_True.
  - intros m p a s c o m1 Hp Hc Hex IH. eapply resume_run_ok; eauto.
Qed.

(** [fiber_sized_alloc] gives a new fresh fiber at an address that was not
    live, and takes two blocks from the heap. *)
Lemma alloc_rel cap `{!AllocatorLaws H cap} m w ss ent :
  fibers_rel m w -> dom (fibers w) ⊆ live (heap w) ->
  (S (size (live (heap w))) < cap)%nat ->
  0 <= ss <= 4096 -> (forall c, 0 <= frame_size c <= ss) ->
  exists p b w', fiber_sized_alloc ss ent w = Ok (p, w') /\
    m !! p = None /\ p <> b /\ p <> 0 /\ (p ∉ live (heap w)) /\ (b ∉ live (heap w)) /\
    live (heap w') = {[b]} ∪ ({[p]} ∪ live (heap w)) /\
    fibers w' = <[p := mk_fiber (mk_stack b (b + ss) b []) ACTIVE ent 0]> (fibers w) /\
    asyncify_state w' = asyncify_state w /\ active_fiber w' = active_fiber w /\
    asyncify_data w' = asyncify_data w /\
    fibers_rel (<[p := AFresh ent]> m) w'.
Proof.
  intros Hr Hdom Hsz Hss Hfs. unfold fiber_sized_alloc, fiber_stack_alloc, sizeof_fiber.
  destruct (malloc_fresh 24 (heap w)) as (Hp0 & Hpe & Hpl & Hl1); [lia|lia|].
  destruct (malloc 24 (heap w)) as [p h1]; cbn [fst snd] in *.
  destruct (Z.eqb_spec p 0); [lia|]. cbn [heap fibers active_fiber asyncify_state asyncify_data].
  assert (u32 ss = ss) as Hu by (apply u32_id; bounds; lia).
  destruct (malloc_fresh ss h1) as (Hb0 & Hbe & Hbl & Hl2); [lia| |].
  { rewrite Hl1, size_union, size_singleton by (clear -Hpl; set_solver). lia. }
  rewrite Hu. destruct (malloc ss h1) as [b h2]; cbn [fst snd] in *.
  assert (u32 (b + ss) = b + ss) as -> by (apply u32_id; bounds; lia).
  rewrite Hl1 in Hbl, Hl2. apply not_elem_of_union in Hbl as [Hbp%not_elem_of_singleton Hbl].
  eexists p, b, _. split; [reflexivity|].
  assert (m !! p = None) as Hmp.
  { specialize (Hr p).
    destruct (m !! p) as [s|]; [|done]. exfalso. apply Hpl, Hdom, elem_of_dom.
    inversion Hr; eauto. }
  split_and!; try done; try lia.
  apply (fibers_rel_set m (mk_world h2 (fibers w) (active_fiber w) _ _)); [done|].
  split; [split|]; [cbn; lia|cbn; intros c; specialize (Hfs c); lia|]. done.
Qed.

(** [fiber_free] gives both blocks back. *)
Lemma free_rel m w p f :
  fibers_rel m w -> fibers w !! p = Some f ->
  exists w', fiber_free p w = Ok w' /\
    heap w' = free p (free (buffer (stack f)) (heap w)) /\
    fibers w' = delete p (fibers w) /\
    asyncify_state w' = asyncify_state w /\ active_fiber w' = active_fiber w /\
    asyncify_data w' = asyncify_data w /\
    fibers_rel (delete p m) w'.
Proof.
  intros Hr Hf. unfold fiber_free. rewrite Hf. cbn [deref obind].
  eexists. split; [reflexivity|]. split_and!; try done.
  intros q. cbn. rewrite !lookup_delete. case_decide; [constructor|done].
Qed.

End Refinement.

(** ** An allocator

    A first-fit allocator over [n] fixed slots, an instance of the allocator
    interface for the concrete runs of the witnesses. *)

Record slots := mk_slots { in_use : gset Z }.

Definition slot_addrs (n : nat) : list Z := (fun i : nat => 8192 * (Z.of_nat i + 1)) <$> seq 0 n.

Definition first_free (n : nat) (h : slots) : option Z :=
  head (filter (fun p => p ∉ in_use h) (slot_addrs n)).

#[export] Instance slots_alloc (n : nat) : Allocator slots := {
  malloc _ h := match first_free n h with
                | Some p => (p, mk_slots ({[p]} ∪ in_use h))
                | None => (0, h)
                end;
  free p h := mk_slots (in_use h ∖ {[p]});
  live := in_use;
}.

Lemma slot_addrs_NoDup n : NoDup (slot_addrs n).
Proof. apply NoDup_fmap; [intros x y; lia|apply NoDup_seq]. Qed.

Lemma first_free_ok n h :
  (size (in_use h) < n)%nat ->
  exists p, first_free n h = Some p /\ (p ∉ in_use h) /\ 0 < p <= 8192 * Z.of_nat n.
Proof.
  intros Hn. unfold first_free.
  destruct (filter (fun p => p ∉ in_use h) (slot_addrs n)) as [|p l] eqn:E.
  - exfalso. assert (list_to_set (slot_addrs n) ⊆ in_use h) as Hsub.
    { intros x Hx%elem_of_list_to_set. destruct (decide (x ∈ in_use h)) as [|Hni]; [done|].
      assert (x ∈ filter (fun p => p ∉ in_use h) (slot_addrs n)) by (by apply list_elem_of_filter).
      rewrite E in *. set_solver. }
    apply subseteq_size in Hsub. rewrite size_list_to_set in Hsub by apply slot_addrs_NoDup.
    unfold slot_addrs in Hsub. rewrite length_fmap, length_seq in Hsub. lia.
  - exists p. assert (p ∈ filter (fun p => p ∉ in_use h) (slot_addrs n)) as [Hni Hin]%list_elem_of_filter
      by (rewrite E; left).
    split; [done|]. split; [done|].
    apply list_elem_of_fmap in Hin as (i & -> & Hi%elem_of_seq). lia.
Qed.

#[export] Instance slots_laws n : Z.of_nat n <= 2 ^ 18 -> @AllocatorLaws slots (slots_alloc n) n.
Proof.
  intros Hn. split; [|done]. intros k h Hk Hsz. cbn [malloc live slots_alloc].
  destruct (first_free_ok n h Hsz) as (p & -> & Hp & Hb). cbn. bounds. split_and!; try done; lia.
Qed.

(** ** Theorems *)

Section Theorems.
Context {H : Type} `{Allocator H}.
Variable frame_size : comp -> Z.

(** C1: whatever the coroutine specification says of resuming a fiber, with
    all the fibers its body resumes in turn, [fiber_resume] computes: the same
    value and status, and related fiber states, with Asyncify back in normal
    mode, the previously active fiber restored and no block allocated, freed or
    moved.  The fuel needed is finite. *)
Theorem fiber_resume_refines m p a r st m' (w : world H) :
  aresume m p a r st m' ->
  world_rel frame_size m w -> asyncify_state w = Normal ->
  exists N w',
    (forall n, (N <= n)%nat -> resume frame_size n p a w = Ok (r, st, w')) /\
    world_rel frame_size m' w' /\ asyncify_state w' = Normal /\
    active_fiber w' = active_fiber w /\ heap w' = heap w /\ bufs w' = bufs w.
Proof.
  intros Hres Hr Hs.
  destruct (proj2 (fiber_refinement frame_size) _ _ _ _ _ _ Hres w Hr Hs)
    as (N & w' & Hr' & Hs' & Ha' & Hh' & Hb' & Hrun). eauto 10.
Qed.

(** A frame that does not fit the Asyncify stack is written all the same: a
    yield in a running fiber whose frame is too large is undefined, in whatever resume
    it happens. *)
Theorem yield_overflow (w : world H) f v k n :
  fibers w !! active_fiber w = Some f -> state f = ACTIVE -> buffer (stack f) <> 0 ->
  top (stack f) <= end_ (stack f) ->
  end_ (stack f) < top (stack f) + frame_size (CallYield v k) ->
  exec frame_size (S n) (CallYield v k) w = UB.
Proof.
  intros Hf Hst Hb Hle Hov. cbn [exec]. unfold fiber_yield. rewrite Hf. cbn [deref obind].
  rewrite decide_False by (rewrite Hst; done). unfold asyncify_start_unwind.
  rewrite (check_data_at _ (with_state YIELDING (with_arg v f))) by (try apply lookup_insert_eq; cbn; lia).
  cbn [obind set_asyncify asyncify_state]. unfold push_frame. cbn [asyncify_data set_asyncify fibers set_fiber].
  rewrite lookup_insert_eq. cbn [deref obind stack with_state with_arg]. case_cmp; [done|]. case_cmp; [done|lia].
Qed.

(** [fiber_alloc] on a heap with room for two more blocks gives a non-null
    fiber at an address no live fiber has, ready to run its entry point, and
    takes exactly a block for the object and one for the stack. *)
Theorem fiber_alloc_fresh cap `{!AllocatorLaws H cap} m (w : world H) ent :
  fibers_rel frame_size m w -> dom (fibers w) ⊆ live (heap w) ->
  (S (size (live (heap w))) < cap)%nat ->
  (forall c, 0 <= frame_size c <= FIBER_DEFAULT_STACK_SIZE) ->
  exists p b w', fiber_alloc ent w = Ok (p, w') /\ p <> 0 /\ m !! p = None /\
    fibers_rel frame_size (<[p := AFresh ent]> m) w' /\
    live (heap w') = {[b]} ∪ ({[p]} ∪ live (heap w)) /\
    size (live (heap w')) = (2 + size (live (heap w)))%nat.
Proof.
  intros Hr Hd Hsz Hfs.
  destruct (alloc_rel frame_size cap m w FIBER_DEFAULT_STACK_SIZE ent)
    as (p & b & w' & Ha & Hmp & Hpb & Hp0 & Hpl & Hbl & Hl & _ & _ & _ & _ & Hr'); try done.
  exists p, b, w'. split_and!; try done. rewrite Hl.
  rewrite !size_union, !size_singleton; [lia|clear -Hpl; set_solver|clear -Hpb Hbl; set_solver].
Qed.

(** A fiber that returns without ever having yielded makes
    [fiber_resume] check the Asyncify stack that was installed last; when
    that fiber has been freed, the check reads freed memory. *)
Theorem resume_checks_freed_stack (w : world H) p a f v n :
  fibers w !! p = Some f -> state f = ACTIVE -> asyncify_state w = Normal ->
  entry f a = Return v ->
  asyncify_data w <> 0 -> fibers w !! asyncify_data w = None ->
  resume frame_size (S n) p a w = UB.
Proof.
  intros Hf Hst Hs He Hd Hgone. unfold resume, fiber_resume.
  rewrite Hf. cbn [deref obind]. rewrite !decide_False by (rewrite Hst; done).
  cbn [obind]. unfold enter. cbn [asyncify_state set_active]. rewrite Hs, He. cbn [exec obind].
  unfold asyncify_stop_unwind, check_data. cbn. case_cmp; [done|]. by rewrite Hgone.
Qed.

End Theorems.

(** *** Concrete runs

    A body that yields its argument and returns what it is resumed with, and
    one that resumes it and yields its value in turn. *)

Definition echo_body (a : Z) : comp := CallYield a (fun x => Return x).
Definition outer_body (inner a : Z) : comp :=
  CallResume inner a (fun v _ => CallYield (v + 1) (fun x => Return x)).

Definition run_state (s : world slots) (p : Z) : option fiber_state_t := state <$> fibers s !! p.

Definition demo_fiber (b : Z) (ent : Z -> comp) : fiber :=
  mk_fiber (mk_stack b (b + 4096) b []) ACTIVE ent 0.
Definition demo_world : world slots :=
  mk_world (mk_slots {[8192; 16384; 24576; 32768]})
    (<[8192 := demo_fiber 16384 echo_body]>
      (<[24576 := demo_fiber 32768 (outer_body 8192)]> ∅)) 0 Normal 0.
Definition demo_map : gmap Z afiber :=
  <[8192 := AFresh echo_body]> (<[24576 := AFresh (outer_body 8192)]> ∅).

Lemma demo_rel : world_rel (fun _ => 64) demo_map demo_world.
Proof.
  split; [|by left]. intros p. unfold demo_map, demo_world. cbn [fibers].
  rewrite !lookup_insert, !lookup_empty.
  repeat case_decide; constructor; (split; [split; [done|cbn; lia]|done]).
Qed.

Lemma fiber_resume_refines_witness :
  exists N w', (forall n, (N <= n)%nat ->
      resume (fun _ => 64) n 24576 5 demo_world = Ok (6, FIBER_YIELD, w')) /\
    run_state w' 8192 = Some YIELDING /\ run_state w' 24576 = Some YIELDING.
Proof.
  destruct (fiber_resume_refines (H:=slots) (fun _ => 64) demo_map 24576 5 6 FIBER_YIELD
    (<[24576 := ASuspended 6 (fun x => Return x)]>
      (<[8192 := ASuspended 5 (fun x => Return x)]>
        (<[8192 := ARunning]> (<[24576 := ARunning]> demo_map))))
    demo_world) as (N & w' & Hrun & [Hr _] & _).
  - eapply (aresume_run demo_map 24576 5 _ _ (OYield 6 (fun x => Return x))); [reflexivity|reflexivity|].
    eapply aexec_resume; [|exact (aexec_yield _ (5 + 1) (fun x => Return x))].
    eapply (aresume_run _ 8192 5 _ _ (OYield 5 (fun x => Return x))); [reflexivity|reflexivity|].
    apply aexec_yield.
  - apply demo_rel.
  - done.
  - exists N, w'. split; [done|]. unfold run_state.
    destruct (fibers_rel_lookup _ _ _ 8192 (ASuspended 5 (fun x => Return x)) Hr eq_refl) as (f1 & E1 & _ & S1 & _).
    destruct (fibers_rel_lookup _ _ _ 24576 (ASuspended 6 (fun x => Return x)) Hr eq_refl) as (f2 & E2 & _ & S2 & _).
    rewrite E1, E2. cbn. by rewrite S1, S2.
Defined.

(** A stack of 16 bytes does not hold the frame of 64. *)
Lemma yield_overflow_witness :
  let f := mk_fiber (mk_stack 16384 16400 16384 []) ACTIVE echo_body 0 in
  exec (fun _ => 64) 5 (echo_body 7)
    (mk_world (mk_slots {[8192; 16384]}) (<[8192 := f]> ∅) 8192 Normal 0) = UB.
Proof.
  intros f. apply (yield_overflow (H:=slots) (fun _ => 64) _ f 7 (fun x => Return x) 4);
    try done; try (cbn; lia).
Defined.

Lemma fiber_alloc_fresh_witness :
  exists p b w', @fiber_alloc slots (slots_alloc 8) echo_body demo_world = Ok (p, w') /\ p <> 0 /\
    demo_map !! p = None /\ in_use (heap w') = {[b]} ∪ ({[p]} ∪ in_use (heap demo_world)).
Proof.
  destruct (@fiber_alloc_fresh slots (slots_alloc 8) (fun _ => 64) 8
    (slots_laws 8 ltac:(done)) demo_map demo_world echo_body) as (p & b & w' & H1 & H2 & H3 & _ & H5 & _).
  - apply demo_rel.
  - by apply (bool_decide_unpack _).
  - vm_compute. lia.
  - intros _. unfold FIBER_DEFAULT_STACK_SIZE. lia.
  - exists p, b, w'. done.
Defined.

(** Two fibers are allocated; the first one runs to its end and is freed; the
    second one returns at once. *)
Definition stale_world : outcome (world slots) :=
  let! (p1, w1) := @fiber_alloc slots (slots_alloc 8) echo_body (init_world (mk_slots ∅)) in
  let! (p2, w2) := @fiber_alloc slots (slots_alloc 8) (fun a => Return a) w1 in
  let! (_, _, w3) := resume (fun _ => 64) 5 p1 1 w2 in
  let! (_, _, w4) := resume (fun _ => 64) 5 p1 2 w3 in
  @fiber_free slots (slots_alloc 8) p1 w4.

Lemma resume_checks_freed_stack_witness :
  exists w, stale_world = Ok w /\ resume (fun _ => 64) 5 24576 9 w = UB.
Proof.
  eexists. split; [vm_compute; reflexivity|].
  eapply (resume_checks_freed_stack (H:=slots) (fun _ => 64) _ 24576 9 _ 9 4); try reflexivity.
  done.
Defined.

End FiberSpec.
