(* ===== verification/Workload.v ===== *)
(** The c10m workload (benchmarks/c10m/c10m.c, parameters.h): many short-lived
    workers, a bounded number of them alive at a time, each resumed twice.

    c10m.c imports its three worker operations from the environment; here they
    are the class [AsyncWorker], and [AsyncWorkerSpec] is what the workload
    relies on.  The result of the workload is proved against the interface, once
    for all of its implementations. *)

From S2P Require Import Prelude.

(** ** parameters.h *)

Definition modifier : Z := 10.
Definition total_conn : Z := u32 (modifier * 1000000).
Definition active_conn : Z := 10000.
Definition stack_kb : Z := 32.
Definition reference : Z := 10010000.

Definition verify (my_count reference : Z) : Z :=
  if my_count =? reference then 0 else 1.

(** ** The worker interface *)

Class AsyncWorker (S : Type) := {
  alloc_async_worker : Z -> S -> outcome S;
  resume_async_worker : Z -> Z -> S -> outcome (Z * S);
  free_async_worker : Z -> S -> outcome S;
}.

(** A slot of the worker table: no worker, one that has not run, one that waits
    for its second resume, one that has returned. *)
Inductive slot := Ready | Waiting | Finished.

(** What the workload relies on: a new worker echoes the first argument it is
    resumed with, the second resume gives 1, then it can be freed.  [kb] is the
    argument of the resumes, which decides how much stack a worker reads.  [rep s m]
    says that the implementation's state [s] holds the workers [m]. *)
Class AsyncWorkerSpec (S : Type) {W : AsyncWorker S} (n kb : Z) := {
  rep : S -> gmap Z slot -> Prop;
  alloc_vacant : forall s m k, rep s m -> 0 <= k < n -> m !! k = None ->
    exists s', alloc_async_worker k s = Ok s' /\ rep s' (<[k := Ready]> m);
  resume_ready : forall s m k, rep s m -> 0 <= k < n -> in_u 32 kb -> m !! k = Some Ready ->
    exists s', resume_async_worker k kb s = Ok (kb, s') /\ rep s' (<[k := Waiting]> m);
  resume_waiting : forall s m k, rep s m -> 0 <= k < n -> in_u 32 kb -> m !! k = Some Waiting ->
    exists s', resume_async_worker k kb s = Ok (1, s') /\ rep s' (<[k := Finished]> m);
  free_finished : forall s m k, rep s m -> 0 <= k < n -> m !! k = Some Finished ->
    exists s', free_async_worker k s = Ok s' /\ rep s' (delete k m);
}.

(** ** c10m.c *)

(** The addresses [stack_use] reads, from the top of the stack downwards, one
    per page; [long] and [size_t] have 32 bits. *)
Definition stack_use_pages (totalkb : Z) : Z :=
  let page_size := 4096 in
  u32 (u32 (u32 totalkb * 1024) + page_size - 1) / page_size.

Definition stack_use_addresses (sp totalkb : Z) : list Z :=
  (fun i : nat => u32 (sp - u32 (Z.of_nat i * 4096))) <$>
    seq 0 (Z.to_nat (stack_use_pages totalkb)).

(** The loads, in a memory of [memsize] bytes: one outside of it traps. *)
Fixpoint load_all (memsize : Z) (addresses : list Z) : outcome unit :=
  match addresses with
  | [] => Ok tt
  | a :: rest => if a <? memsize then load_all memsize rest else Trap
  end.
Definition stack_use (memsize sp totalkb : Z) : outcome unit :=
  load_all memsize (stack_use_addresses sp totalkb).

Section AsyncWl.
Context {S : Type} `{AsyncWorker S}.

(** The two resumes that drive one worker, the addition to [count], and the
    release. *)
Definition serve (kb j : Z) (sc : S * Z) : outcome (S * Z) :=
  let! (_, s1) := resume_async_worker j kb (fst sc) in
  let! (r, s2) := resume_async_worker j kb s1 in
  let count := u32 (snd sc + r) in
  let! s3 := free_async_worker j s2 in
  Ok (s3, count).

(** The body of the main loop: serve slot [i % active_conn], then refill it. *)
Definition turn (active kb i : Z) (sc : S * Z) : outcome (S * Z) :=
  let j := i mod active in
  let! (s, count) := serve kb j sc in
  let! s' := alloc_async_worker j s in
  Ok (s', count).

Definition async_wl_with (active total kb : Z) (s0 : S) : outcome (S * Z) :=
  let! s1 := for_up (Z.to_nat active) 0 (fun i s => alloc_async_worker (u32 i) s) s0 in
  let! sc2 := for_up (Z.to_nat total) 0 (turn active kb) (s1, 0) in
  for_up (Z.to_nat active) 0 (serve kb) sc2.

Definition async_wl (s0 : S) : outcome (S * Z) :=
  async_wl_with active_conn total_conn stack_kb s0.

Definition main (s0 : S) : outcome Z :=
  let! (_, count) := async_wl s0 in
  Ok (verify count reference).

End AsyncWl.

(** ** Proofs against the interface *)

Section AsyncWlSpec.
Context {S : Type} `{AsyncWorker S}.
Variables active kb : Z.
Context `{!AsyncWorkerSpec S active kb}.

(** Exactly the slots below [i] hold a new worker. *)
Definition ready_below (i : Z) (m : gmap Z slot) : Prop :=
  forall k, m !! k = if (0 <=? k) && (k <? i) then Some Ready else None.

(** Exactly the slots from [i] to [active] do. *)
Definition ready_from (i : Z) (m : gmap Z slot) : Prop :=
  forall k, m !! k = if (i <=? k) && (k <? active) then Some Ready else None.

Lemma serve_ok j s m c :
  rep s m -> 0 <= j < active -> in_u 32 kb -> m !! j = Some Ready ->
  exists s', serve kb j (s, c) = Ok (s', u32 (c + 1)) /\ rep s' (delete j m).
Proof.
  intros Hr Hj Hkb Hm. unfold serve. cbn [fst snd].
  destruct (resume_ready s m j) as (s1 & -> & H1); try done. cbn [obind].
  destruct (resume_waiting s1 _ j H1) as (s2 & -> & H2); try done.
  { apply lookup_insert_eq. }
  cbn [obind].
  destruct (free_finished s2 _ j H2) as (s3 & -> & H3); [done|apply lookup_insert_eq|].
  cbn [obind]. exists s3. split; [done|].
  by rewrite !delete_insert_eq in H3.
Qed.

Lemma alloc_all_ok s : 0 < active <= 2 ^ 32 -> rep s ∅ ->
  exists s' m, for_up (Z.to_nat active) 0 (fun i s => alloc_async_worker (u32 i) s) s = Ok s' /\
    rep s' m /\ ready_below active m.
Proof.
  intros Ha Hr.
  destruct (for_up_ind (fun i s => exists m, rep s m /\ ready_below i m)
    (Z.to_nat active) 0 (fun i s => alloc_async_worker (u32 i) s) s) as (s' & Hs & m & Hm & Hb).
  - exists ∅. split; [done|]. intros k. rewrite lookup_empty.
    destruct (Z.leb_spec 0 k), (Z.ltb_spec k 0); try done; lia.
  - intros i t Hi (m & Hm & Hb). rewrite u32_id by (bounds; lia).
    destruct (alloc_vacant t m i) as (t' & Ht & Hm'); [done|lia| |].
    { rewrite Hb. destruct (Z.ltb_spec i i); [lia|by rewrite andb_false_r]. }
    exists t'. split; [done|]. eexists. split; [done|]. intros k.
    rewrite lookup_insert. case_decide as Hk; [subst|rewrite Hb];
      repeat (case_cmp; try lia; try done).
  - exists s', m. split_and!; try done. by replace active with (0 + Z.of_nat (Z.to_nat active)) by lia.
Qed.

Lemma main_loop_ok total s m :
  0 < active -> 0 <= total -> in_u 32 kb -> rep s m -> ready_below active m ->
  exists s' m', for_up (Z.to_nat total) 0 (turn active kb) (s, 0) = Ok (s', u32 total) /\
    rep s' m' /\ ready_below active m'.
Proof.
  intros Ha Ht Hkb Hr Hm.
  destruct (for_up_ind (fun i sc => snd sc = u32 i /\
    exists m, rep (fst sc) m /\ ready_below active m) (Z.to_nat total) 0 (turn active kb) (s, 0))
    as ([s' c'] & Hs & Hc & m' & Hr' & Hm').
  - split; [done|]. eauto.
  - intros i [t c] Hi (Hc & mi & Hri & Hmi). cbn [fst snd] in *.
    pose proof (Z.mod_pos_bound i active Ha) as Hj.
    assert (mi !! (i mod active) = Some Ready) as Hlk.
    { rewrite Hmi. repeat (case_cmp; try lia). done. }
    unfold turn. destruct (serve_ok (i mod active) t mi c Hri Hj Hkb Hlk) as (t1 & -> & Hr1).
    cbn [obind].
    destruct (alloc_vacant t1 _ (i mod active) Hr1 Hj) as (t2 & -> & Hr2).
    { apply lookup_delete_eq. }
    cbn [obind]. eexists. split; [done|]. cbn [fst snd]. split.
    { subst c. unfold u32. by rewrite Zplus_mod_idemp_l. }
    eexists. split; [done|]. rewrite insert_delete_eq, insert_id by done. done.
  - cbn [fst snd] in *. rewrite Z2Nat.id, Z.add_0_l in Hc by lia. subst c'. eauto.
Qed.

Lemma drain_ok s m c0 :
  0 < active -> in_u 32 kb -> rep s m -> ready_below active m ->
  exists s', for_up (Z.to_nat active) 0 (serve kb) (s, u32 c0)
    = Ok (s', u32 (c0 + active)) /\ rep s' ∅.
Proof.
  intros Ha Hkb Hr Hm.
  destruct (for_up_ind (fun i sc => snd sc = u32 (c0 + i) /\
      exists m, rep (fst sc) m /\ (0 <= i -> ready_from i m)) (Z.to_nat active) 0
      (serve kb) (s, u32 c0)) as ([s' c'] & Hs & Hc & m' & Hr' & Hm').
  - cbn. rewrite Z.add_0_r. split; [done|]. eauto.
  - intros i [t c] Hi (Hc & mi & Hri & Hmi). cbn [fst snd] in *.
    specialize (Hmi ltac:(lia)).
    destruct (serve_ok i t mi c Hri) as (t1 & -> & Hr1); [lia|done| |].
    { rewrite Hmi. repeat (case_cmp; try lia). done. }
    eexists. split; [done|]. cbn [fst snd]. split.
    { subst c. unfold u32. rewrite Zplus_mod_idemp_l. f_equal. lia. }
    eexists. split; [done|]. intros _ k. rewrite lookup_delete.
    case_decide as Hk; [subst|rewrite Hmi]; repeat (case_cmp; try lia; try done).
  - cbn [fst snd] in *. rewrite Z2Nat.id, Z.add_0_l in Hc, Hm' by lia. subst c'.
    exists s'. split; [done|]. specialize (Hm' ltac:(lia)).
    replace ∅ with m'; [done|]. apply map_eq. intros k. rewrite Hm', lookup_empty.
    repeat (case_cmp; try lia; try done).
Qed.

Lemma async_wl_count total s :
  0 < active <= 2 ^ 32 -> 0 <= total -> in_u 32 kb -> rep s ∅ ->
  exists s', async_wl_with active total kb s = Ok (s', u32 (total + active)) /\ rep s' ∅.
Proof.
  intros Ha Ht Hkb Hr. unfold async_wl_with.
  destruct (alloc_all_ok s Ha Hr) as (s1 & m1 & -> & Hr1 & Hm1). cbn [obind].
  destruct (main_loop_ok total s1 m1) as (s2 & m2 & -> & Hr2 & Hm2); try done; [lia|].
  cbn [obind]. apply (drain_ok s2 m2); try done. lia.
Qed.

End AsyncWlSpec.

(** For the parameters of parameters.h, the count is the reference value. *)
Lemma main_returns_0 {S} `{AsyncWorker S} `{!AsyncWorkerSpec S active_conn stack_kb} (s : S) :
  rep s ∅ -> main s = Ok 0.
Proof.
  intros Hr. unfold main, async_wl.
  destruct (async_wl_count active_conn stack_kb total_conn s) as (s' & -> & _);
    try done; try (unfold active_conn, total_conn, stack_kb, modifier, u32; bounds; lia).
Qed.
