(* ===== verification/Backends.v ===== *)
(** The three implementations of the worker interface of benchmarks/c10m:

    - [AsyncifyBackend]: asyncify.c, on the fiber library;
    - [Bespoke]: c10m_bespoke.c, a hand-written state machine;
    - [WasmFX]: c10m_wasmfx.wast, on typed continuations.

    Each is an instance of [AsyncWorker] and is shown to satisfy
    [AsyncWorkerSpec], so that the workload gives the reference count on all of
    them. *)

From S2P Require Import Prelude Fiber FiberSpec Workload.

(** ** asyncify.c *)

Module AsyncifyBackend.
Import Fiber FiberSpec.

Section Backend.
Context {H : Type} `{Allocator H}.
Variable frame_size : comp -> Z.
(** The size of the memory, and the stack pointer of [stack_use]. *)
Variables memsize sp : Z.

(** [async_worker] of c10m.c as a fiber body, and its part behind the yield. *)
Definition async_worker_rest (kb : Z) : comp :=
  match stack_use memsize sp (u32 kb) with Ok _ => Return 1 | _ => Crash end.
Definition async_worker (a : Z) : comp := CallYield (u32 a) async_worker_rest.

(** The module's memory with the table [store]. *)
Record astate := mk_astate { wd : world H; store : list Z }.

Definition alloc (key : Z) (s : astate) : outcome astate :=
  let! (p, w) := fiber_alloc async_worker (wd s) in
  let! st := zset (store s) key p in
  Ok (mk_astate w st).

(** The worker body makes one call, so three steps of [exec] always suffice:
    one to reach the call, or one to rewind to it and one to return. *)
Definition resume_fuel : nat := 3.

Definition resume_key (key a : Z) (s : astate) : outcome (Z * astate) :=
  let! p := zget (store s) key in
  let! (r, _, w) := resume frame_size resume_fuel p (u32 a) (wd s) in
  Ok (u32 r, mk_astate w (store s)).

Definition free_key (key : Z) (s : astate) : outcome astate :=
  let! p := zget (store s) key in
  let! w := fiber_free p (wd s) in
  Ok (mk_astate w (store s)).

#[export] Instance asyncify_worker : AsyncWorker astate := {
  alloc_async_worker := alloc;
  resume_async_worker := resume_key;
  free_async_worker := free_key;
}.

(** *** The representation *)

Definition slot_rel (sl : slot) (a : afiber) : Prop :=
  match sl with
  | Ready => a = AFresh async_worker
  | Waiting => exists v, a = ASuspended v async_worker_rest
  | Finished => a = AFinished
  end.

(** Every fiber object and every Asyncify buffer is a block of its own. *)
Definition owned (w : world H) : Prop :=
  (forall p b, bufs w !! p = Some b ->
     p ∈ live (heap w) /\ b ∈ live (heap w) /\ bufs w !! b = None) /\
  (forall p q b, bufs w !! p = Some b -> bufs w !! q = Some b -> p = q).

Variable n : Z.
Variable base : nat.

Lemma size_le_range (m : gmap Z slot) :
  (forall k sl, m !! k = Some sl -> 0 <= k < n) -> (size m <= Z.to_nat n)%nat.
Proof.
  intros Hm. rewrite <- size_dom.
  assert (dom m ⊆ list_to_set (seqZ 0 n)) as Hs%subseteq_size.
  { intros k [sl Hk]%elem_of_dom. rewrite elem_of_list_to_set, elem_of_seqZ.
    apply Hm in Hk. lia. }
  rewrite size_list_to_set, length_seqZ in Hs by apply NoDup_seqZ. lia.
Qed.

(** Storing a pointer in one slot keeps what the others hold. *)
Lemma store_lookup (st : list Z) k j p :
  0 <= k < zlen st -> 0 <= j ->
  <[Z.to_nat k := p]> st !! Z.to_nat j = if decide (k = j) then Some p else st !! Z.to_nat j.
Proof.
  intros Hk Hj. unfold zlen in Hk. case_decide as Hkj; [subst|].
  - apply list_lookup_insert_eq. lia.
  - apply list_lookup_insert_ne. lia.
Qed.

Lemma fibers_rel_bufs am (w : world H) p :
  fibers_rel frame_size am w -> is_Some (am !! p) <-> is_Some (bufs w !! p).
Proof.
  intros Hr. specialize (Hr p). unfold bufs. rewrite lookup_fmap.
  inversion Hr; subst; cbn; split; intros [? ?]; eauto; discriminate.
Qed.

Lemma owned_dom (w : world H) : owned w -> dom (fibers w) ⊆ live (heap w).
Proof.
  intros [Ho _] p [f Hf]%elem_of_dom.
  apply (Ho p (buffer (stack f))). unfold bufs. by rewrite lookup_fmap, Hf.
Qed.

(** A new fiber and its buffer are blocks no other fiber owns. *)
Lemma owned_alloc (w w' : world H) p b :
  owned w -> bufs w' = <[p := b]> (bufs w) -> bufs w !! p = None -> p <> b ->
  p ∉ live (heap w) -> b ∉ live (heap w) ->
  live (heap w') = {[b]} ∪ ({[p]} ∪ live (heap w)) -> owned w'.
Proof.
  intros [Ho1 Ho2] Hb' Hbp Hpb Hpl Hbl Hlive.
  split; rewrite Hb', ?Hlive.
  - intros q c. rewrite !lookup_insert. case_decide as Eq; [intros [= <-]; subst|].
    + split; [set_solver|]. split; [set_solver|]. rewrite decide_False by done.
      destruct (bufs w !! b) as [x|] eqn:E; [|done]. by apply Ho1 in E as [? _].
    + intros Hq. destruct (Ho1 _ _ Hq) as (? & ? & ?). split; [set_solver|]. split; [set_solver|].
      case_decide; [subst; done|done].
  - intros q1 q2 c. rewrite !lookup_insert.
    repeat case_decide; intros; simplify_eq; try done; eauto;
      exfalso; apply Hbl; naive_solver.
Qed.

(** Freeing a fiber leaves the blocks of the others. *)
Lemma owned_free (w w' : world H) p b :
  owned w -> bufs w !! p = Some b -> bufs w' = delete p (bufs w) ->
  live (heap w') = live (heap w) ∖ {[b]} ∖ {[p]} -> owned w'.
Proof.
  intros [Ho1 Ho2] Hp Hb' Hlive. destruct (Ho1 _ _ Hp) as (_ & _ & Hb).
  split; rewrite Hb', ?Hlive.
  - intros q c. rewrite !lookup_delete. case_decide as Eq; [done|]. intros Hq.
    destruct (Ho1 _ _ Hq) as (? & ? & Hc).
    assert (q <> b) by congruence. assert (c <> p) by congruence.
    assert (c <> b) by (intros ->; eauto).
    split; [set_solver|]. split; [set_solver|]. case_decide; done.
  - intros q1 q2 c. rewrite !lookup_delete. repeat case_decide; try done. apply Ho2.
Qed.

Lemma size_add_le (x : Z) (X : gset Z) : (size ({[x]} ∪ X) <= S (size X))%nat.
Proof.
  rewrite size_union_alt, size_singleton.
  pose proof (subseteq_size (X ∖ {[x]}) X ltac:(set_solver)). lia.
Qed.

(** The table without its allocator: every occupied slot points to a fiber in
    the state the slot says, and no two slots share one. *)
Definition slots_rel (st : list Z) (am : gmap Z afiber) (m : gmap Z slot) : Prop :=
  (forall k sl, m !! k = Some sl -> 0 <= k < n /\
     exists p a, st !! Z.to_nat k = Some p /\ am !! p = Some a /\ slot_rel sl a) /\
  (forall k1 k2 p, is_Some (m !! k1) -> is_Some (m !! k2) ->
     st !! Z.to_nat k1 = Some p -> st !! Z.to_nat k2 = Some p -> k1 = k2).

Lemma slots_rel_alloc st am m k p :
  slots_rel st am m -> 0 <= k < n -> zlen st = n -> am !! p = None ->
  slots_rel (<[Z.to_nat k := p]> st) (<[p := AFresh async_worker]> am) (<[k := Ready]> m).
Proof.
  intros [Hslots Hinj] Hk Hlen Hmp. split.
  - intros j sl. rewrite lookup_insert. case_decide as Ej; [intros [= <-]; subst j|].
    + split; [lia|]. exists p, (AFresh async_worker).
      rewrite store_lookup, decide_True, lookup_insert_eq by (done || lia). done.
    + intros Hj. destruct (Hslots _ _ Hj) as (Hjn & q & a & Hq & Ha' & Hsl). split; [done|].
      exists q, a. rewrite store_lookup, decide_False by (done || lia). split_and!; try done.
      rewrite lookup_insert_ne; [done|]. intros ->. congruence.
  - assert (forall j, is_Some (m !! j) -> 0 <= j /\ st !! Z.to_nat j <> Some p) as Hno.
    { intros j [sl Hj]. destruct (Hslots _ _ Hj) as (? & q & a & Hq & Ha' & _).
      split; [lia|]. intros E. rewrite E in Hq. injection Hq as <-. congruence. }
    assert (forall j, is_Some (<[k := Ready]> m !! j) -> k = j \/ k <> j /\ is_Some (m !! j)) as Hcase.
    { intros j. rewrite lookup_insert. case_decide; eauto. }
    intros k1 k2 q [<-|[N1 Hm1]]%Hcase [<-|[N2 Hm2]]%Hcase; [done|..];
      try apply Hno in Hm1 as Hn1; try apply Hno in Hm2 as Hn2;
      rewrite !store_lookup by lia; repeat case_decide; try done; intros; simplify_eq; naive_solver.
Qed.

Lemma slots_rel_set st am m k p sl a :
  slots_rel st am m -> is_Some (m !! k) -> st !! Z.to_nat k = Some p -> slot_rel sl a ->
  slots_rel st (<[p := a]> am) (<[k := sl]> m).
Proof.
  intros [Hslots Hinj] [sl0 Hk] Hp Hsl. split.
  - intros j sl'. rewrite lookup_insert. case_decide as Ej; [intros [= <-]; subst j|].
    + split; [by destruct (Hslots _ _ Hk)|]. exists p, a. by rewrite lookup_insert_eq.
    + intros Hj. destruct (Hslots _ _ Hj) as (Hjn & q & a' & Hq & Ha' & Hsl'). split; [done|].
      exists q, a'. split_and!; try done. rewrite lookup_insert_ne; [done|].
      intros ->. apply Ej. eapply Hinj; eauto.
  - intros k1 k2 q. rewrite !lookup_insert_is_Some.
    intros [->|[_ Hm1]] [->|[_ Hm2]]; eauto.
Qed.

Lemma slots_rel_free st am m k p :
  slots_rel st am m -> is_Some (m !! k) -> st !! Z.to_nat k = Some p ->
  slots_rel st (delete p am) (delete k m).
Proof.
  intros [Hslots Hinj] [sl0 Hk] Hp. split.
  - intros j sl'. rewrite lookup_delete. case_decide as Ej; [done|].
    intros Hj. destruct (Hslots _ _ Hj) as (Hjn & q & a' & Hq & Ha' & Hsl'). split; [done|].
    exists q, a'. split_and!; try done. rewrite lookup_delete_ne; [done|].
    intros ->. apply Ej. eapply Hinj; eauto.
  - intros k1 k2 q. rewrite !lookup_delete_is_Some. intros [? Hm1] [? Hm2]. by apply Hinj.
Qed.

Definition arep (s : astate) (m : gmap Z slot) : Prop :=
  exists am,
    fibers_rel frame_size am (wd s) /\ asyncify_state (wd s) = Normal /\
    owned (wd s) /\ zlen (store s) = n /\
    (size (live (heap (wd s))) <= base + 2 * size m)%nat /\
    slots_rel (store s) am m.

Section Laws.
Variable cap : nat.
Context `{!AllocatorLaws H cap}.
Hypothesis enough : (base + 2 * Z.to_nat n < cap)%nat.
Hypothesis frames_fit : forall c, 0 <= frame_size c <= FIBER_DEFAULT_STACK_SIZE.

Lemma alloc_arep s m k :
  arep s m -> 0 <= k < n -> m !! k = None ->
  exists s', alloc k s = Ok s' /\ arep s' (<[k := Ready]> m).
Proof.
  intros (am & Hr & Hs & Ho & Hlen & Hsz & Hslots) Hk Hm.
  assert (size (<[k:=Ready]> m) <= Z.to_nat n)%nat as Hbound.
  { apply size_le_range. intros j sl. rewrite lookup_insert. case_decide; [naive_solver|].
    intros Hj. by apply Hslots in Hj as [? _]. }
  rewrite map_size_insert_None in Hbound by done.
  destruct (alloc_rel frame_size cap am (wd s) FIBER_DEFAULT_STACK_SIZE async_worker)
    as (p & b & w' & Ha & Hmp & Hpb & Hp0 & Hpl & Hbl & Hlive & Hf' & Hs' & _ & _ & Hr');
    try done; [by apply owned_dom|lia|].
  unfold alloc, fiber_alloc. rewrite Ha. cbn [obind]. rewrite zset_in_range by lia. cbn [obind].
  eexists. split; [done|]. exists (<[p := AFresh async_worker]> am). cbn [wd store].
  assert (bufs (wd s) !! p = None) as Hbp.
  { apply eq_None_not_Some. rewrite <- (fibers_rel_bufs am) by done. rewrite Hmp. by intros []. }
  split_and!; [done|congruence| |by rewrite zlen_insert| |by apply slots_rel_alloc].
  - apply (owned_alloc (wd s) w' p b); try done. unfold bufs. by rewrite Hf', fmap_insert.
  - rewrite Hlive, map_size_insert_None by done.
    pose proof (size_add_le b ({[p]} ∪ live (heap (wd s)))).
    pose proof (size_add_le p (live (heap (wd s)))). lia.
Qed.

Lemma free_arep s m k :
  arep s m -> 0 <= k < n -> m !! k = Some Finished ->
  exists s', free_key k s = Ok s' /\ arep s' (delete k m).
Proof.
  intros (am & Hr & Hs & Ho & Hlen & Hsz & Hslots) Hk Hm.
  destruct (proj1 Hslots _ _ Hm) as (_ & p & a & Hp & Ha & Hsl).
  destruct (fibers_rel_lookup _ _ _ _ _ Hr Ha) as (f & Hf & _).
  destruct (free_rel frame_size _ _ _ _ Hr Hf) as (w' & Hfree & Hh & Hf' & Hs' & _ & _ & Hr').
  assert (bufs (wd s) !! p = Some (buffer (stack f))) as Hb by (unfold bufs; by rewrite lookup_fmap, Hf).
  destruct (proj1 Ho _ _ Hb) as (Hpl & Hbl & Hbn).
  assert (live (heap w') = live (heap (wd s)) ∖ {[buffer (stack f)]} ∖ {[p]}) as Hlive
    by (by rewrite Hh, !free_live).
  unfold free_key. rewrite (proj2 (zget_lookup _ _ p)) by (split; [lia|done]). cbn [obind].
  rewrite Hfree. cbn [obind]. eexists. split; [done|]. exists (delete p am). cbn [wd store].
  split_and!; [done|congruence| |done| |by apply slots_rel_free].
  - apply (owned_free (wd s) w' p (buffer (stack f))); try done.
    unfold bufs. by rewrite Hf', fmap_delete.
  - rewrite Hlive, map_size_delete_Some by done.
    assert (size m <> 0)%nat by (apply map_size_ne_0_lookup; eauto).
    rewrite !size_difference by (rewrite ?singleton_subseteq_l; set_solver).
    rewrite !size_singleton. lia.
Qed.

(** A fresh worker runs to its yield: the pointer Asyncify was left with may
    dangle, because the unwind installs the worker's own stack first. *)
Lemma resume_fresh_worker am (w : world H) p v :
  fibers_rel frame_size am w -> asyncify_state w = Normal ->
  am !! p = Some (AFresh async_worker) ->
  exists w', resume frame_size resume_fuel p v w = Ok (u32 v, FIBER_YIELD, w') /\
    asyncify_state w' = Normal /\ heap w' = heap w /\ bufs w' = bufs w /\
    fibers_rel frame_size (<[p := ASuspended (u32 v) async_worker_rest]> am) w'.
Proof.
  intros Hr Hs Hp. destruct (fibers_rel_lookup _ _ _ _ _ Hr Hp) as (f & Hf & Hrel).
  destruct (enter_fresh frame_size (exec frame_size resume_fuel) _ _ p v _ f Hr Hs Hf Hrel) as [Hr1 He].
  destruct (exec_yield frame_size _ (set_active p w) (u32 v) async_worker_rest Hr1)
    as (w3 & Hy & Hs3 & Ha3 & Hh3 & Hb3 & Hr3); [done|apply lookup_insert_eq|].
  destruct (resume_tail frame_size (OYield (u32 v) async_worker_rest) (<[p := ARunning]> am) p
    (active_fiber w) w3) as (w6 & Ht & Ha & Hn & Hh6 & Hb6 & Hr6); [done|apply lookup_insert_eq|].
  exists w6. split_and!; try done; [|by rewrite Hh6, Hh3|by rewrite Hb6, Hb3|].
  - unfold resume, fiber_resume. rewrite Hf. cbn [deref obind].
    rewrite decide_False, decide_False by (rewrite (proj1 (proj2 Hrel)); done).
    cbn [obind]. rewrite He. unfold async_worker, resume_fuel. rewrite Hy. exact Ht.
  - cbn [after] in Hr6. rewrite insert_insert_eq in Hr6. apply Hr6.
Qed.

(** The second resume rewinds to the yield and runs the rest of the body. *)
Lemma resume_waiting_worker am (w : world H) p v x :
  fibers_rel frame_size am w -> asyncify_state w = Normal ->
  am !! p = Some (ASuspended x async_worker_rest) -> async_worker_rest v = Return 1 ->
  exists w', resume frame_size resume_fuel p v w = Ok (1, FIBER_OK, w') /\
    asyncify_state w' = Normal /\ heap w' = heap w /\ bufs w' = bufs w /\
    fibers_rel frame_size (<[p := AFinished]> am) w'.
Proof.
  intros Hr Hs Hp Hrest. destruct (fibers_rel_lookup _ _ _ _ _ Hr Hp) as (f & Hf & Hrel).
  destruct (rewind_suspended frame_size _ _ p v _ _ f Hr Hf Hrel)
    as (w2 & Hsr & He & Hr2 & Hs2 & Ha2 & Hh2 & Hb2).
  destruct (resume_tail frame_size (OReturn 1) (<[p := ARunning]> am) p (active_fiber w) w2)
    as (w6 & Ht & Ha & Hn & Hh6 & Hb6 & Hr6); [done|apply lookup_insert_eq|].
  exists w6. split_and!; try done; [|by rewrite Hh6, Hh2|by rewrite Hb6, Hb2|].
  - unfold resume, fiber_resume. rewrite Hf. cbn [deref obind].
    rewrite decide_False, decide_True by (rewrite (proj1 (proj2 Hrel)); done).
    rewrite Hsr. cbn [obind]. unfold resume_fuel. rewrite He, Hrest. exact Ht.
  - cbn [after] in Hr6. rewrite insert_insert_eq in Hr6. apply Hr6.
Qed.

(** Common to both resumes: only the state of the worker's fiber changes. *)
Lemma resume_arep s m k v r sl sl' :
  arep s m -> 0 <= k < n -> in_u 32 v -> in_u 32 r -> m !! k = Some sl ->
  (forall am p a, fibers_rel frame_size am (wd s) -> asyncify_state (wd s) = Normal ->
     am !! p = Some a -> slot_rel sl a ->
     exists a' st w', resume frame_size resume_fuel p v (wd s) = Ok (r, st, w') /\
       slot_rel sl' a' /\ asyncify_state w' = Normal /\ heap w' = heap (wd s) /\
       bufs w' = bufs (wd s) /\ fibers_rel frame_size (<[p := a']> am) w') ->
  exists s', resume_key k v s = Ok (r, s') /\ arep s' (<[k := sl']> m).
Proof.
  intros (am & Hr & Hs & Ho & Hlen & Hsz & Hslots) Hk Hv Hr32 Hm Hstep.
  destruct (proj1 Hslots _ _ Hm) as (_ & p & a & Hp & Ha & Hsl).
  destruct (Hstep am p a) as (a' & st & w' & Hres & Hsl' & Hs' & Hh & Hb & Hr'); try done.
  unfold resume_key. rewrite (proj2 (zget_lookup _ _ p)) by (split; [lia|done]). cbn [obind].
  rewrite (u32_id v), Hres by done. cbn [obind]. rewrite u32_id by done.
  eexists. split; [done|]. exists (<[p := a']> am). cbn [wd store].
  split_and!; try done.
  - unfold owned. rewrite Hb, Hh. exact Ho.
  - rewrite Hh, map_size_insert, Hm. cbn. exact Hsz.
  - eapply slots_rel_set; eauto.
Qed.

Lemma resume_ready_arep s m k v :
  arep s m -> 0 <= k < n -> in_u 32 v -> m !! k = Some Ready ->
  exists s', resume_key k v s = Ok (v, s') /\ arep s' (<[k := Waiting]> m).
Proof.
  intros Hrep Hk Hv Hm. eapply resume_arep; try done. intros am p a Hr Hs Ha ->.
  destruct (resume_fresh_worker am (wd s) p v Hr Hs Ha) as (w' & Hres & Hw).
  rewrite u32_id in Hres, Hw by done. do 3 eexists. split; [exact Hres|].
  split; [by eexists|]. naive_solver.
Qed.

(** The pages that a worker reads are in memory. *)
Variable kb : Z.
Hypothesis stack_fits : stack_use memsize sp kb = Ok tt.

Lemma rest_returns : in_u 32 kb -> async_worker_rest kb = Return 1.
Proof. intros Hkb. unfold async_worker_rest. by rewrite u32_id, stack_fits by done. Qed.

Lemma resume_waiting_arep s m k :
  arep s m -> 0 <= k < n -> in_u 32 kb -> m !! k = Some Waiting ->
  exists s', resume_key k kb s = Ok (1, s') /\ arep s' (<[k := Finished]> m).
Proof.
  intros Hrep Hk Hv Hm. eapply resume_arep; try done. intros am p a Hr Hs Ha [x ->].
  destruct (resume_waiting_worker am (wd s) p kb x Hr Hs Ha (rest_returns Hv)) as (w' & Hres & Hw).
  do 3 eexists. split; [exact Hres|]. split; [done|]. naive_solver.
Qed.

#[export] Instance asyncify_spec : AsyncWorkerSpec astate n kb := {
  rep := arep;
  alloc_vacant := alloc_arep;
  resume_ready s m k := resume_ready_arep s m k kb;
  resume_waiting := resume_waiting_arep;
  free_finished := free_arep;
}.

End Laws.
End Backend.
End AsyncifyBackend.

(** ** c10m_bespoke.c *)

Module Bespoke.

Inductive sm_state := NORMAL | YIELDING.

Record sm := mk_sm { state : sm_state; arg : Z; value : Z }.

(** [workers] and the pointer [active_worker] into it ([None] is [NULL]). *)
Record bstate := mk_bstate { workers : list sm; active_worker : option Z }.

(** The same text as in c10m.c. *)
Definition bespoke_stack_use (memsize sp totalkb : Z) : outcome unit := stack_use memsize sp totalkb.

Section Bespoke.
Variables memsize sp : Z.

Definition get_active (s : bstate) : outcome sm :=
  let! k := deref (active_worker s) in zget (workers s) k.

Definition set_active (w : sm) (s : bstate) : outcome bstate :=
  let! k := deref (active_worker s) in
  let! ws := zset (workers s) k w in
  Ok (mk_bstate ws (active_worker s)).

Definition async_worker_yield (a : Z) (s : bstate) : outcome (Z * bstate) :=
  let! w := get_active s in
  match state w with
  | NORMAL =>
      let! s1 := set_active (mk_sm YIELDING (arg w) a) s in Ok (0, s1)
  | YIELDING =>
      let! s1 := set_active (mk_sm NORMAL (arg w) (value w)) s in Ok (value w, s1)
  end.

(** The [case 1] arm of [async_worker], which [case 0] falls into. *)
Definition async_worker_case1 (a : Z) (s : bstate) : outcome (Z * bstate) :=
  let! (kb, s1) := async_worker_yield (u32 a) s in
  let! w := get_active s1 in
  match state w with
  | NORMAL => let! _ := bespoke_stack_use memsize sp kb in Ok (1, s1)
  | YIELDING => Ok (0, s1)
  end.

Definition async_worker (a : Z) (s : bstate) : outcome (Z * bstate) :=
  let! w := get_active s in
  match state w with
  | NORMAL =>
      let! (_, s1) := async_worker_yield (u32 a) s in
      let! w1 := get_active s1 in
      match state w1 with
      | YIELDING => Ok (0, s1)
      | NORMAL => async_worker_case1 a s1
      end
  | YIELDING => async_worker_case1 a s
  end.

Definition alloc (key : Z) (s : bstate) : outcome bstate :=
  let! ws := zset (workers s) key (mk_sm NORMAL 0 0) in
  Ok (mk_bstate ws (active_worker s)).

Definition resume_key (key v : Z) (s : bstate) : outcome (Z * bstate) :=
  let s0 := mk_bstate (workers s) (Some key) in
  let! w := get_active s0 in
  let! s1 :=
    match state w with
    | YIELDING => set_active (mk_sm (state w) (arg w) v) s0
    | NORMAL => set_active (mk_sm (state w) v (value w)) s0
    end in
  let! w1 := get_active s1 in
  let! (result, s2) := async_worker (arg w1) s1 in
  let! w2 := get_active s2 in
  Ok (match state w2 with NORMAL => u32 result | YIELDING => value w2 end, s2).

Definition free_key (key : Z) (s : bstate) : outcome bstate := Ok s.

#[export] Instance bespoke_worker : AsyncWorker bstate := {
  alloc_async_worker := alloc;
  resume_async_worker := resume_key;
  free_async_worker := free_key;
}.

(** *** The representation *)

Definition slot_rel (sl : slot) (w : sm) : Prop :=
  match sl with Waiting => state w = YIELDING | _ => state w = NORMAL end.

Variable n : Z.

Definition brep (s : bstate) (m : gmap Z slot) : Prop :=
  zlen (workers s) = n /\
  forall k sl, m !! k = Some sl -> exists w, zget (workers s) k = Ok w /\ slot_rel sl w.

(** One entry of the table replaced, whatever the active worker is now. *)
Lemma brep_insert ws act act' m k w sl :
  brep (mk_bstate ws act) m -> 0 <= k < n -> slot_rel sl w ->
  brep (mk_bstate (<[Z.to_nat k := w]> ws) act') (<[k := sl]> m).
Proof.
  intros [Hlen Hm] Hk Hsl. cbn in *. split; cbn; [by rewrite zlen_insert|].
  intros j sl'. rewrite lookup_insert, zget_zset by lia.
  case_decide; [intros [= <-]; eauto|apply Hm].
Qed.

Lemma get_active_at ws k : get_active (mk_bstate ws (Some k)) = zget ws k.
Proof. done. Qed.

Lemma set_active_at ws k w :
  0 <= k < zlen ws ->
  set_active w (mk_bstate ws (Some k)) = Ok (mk_bstate (<[Z.to_nat k := w]> ws) (Some k)).
Proof. intros Hk. unfold set_active. cbn. by rewrite zset_in_range. Qed.

(** Reads and writes of the active worker, which stays the same. *)
Ltac run_active :=
  repeat first
    [ rewrite get_active_at | rewrite zget_zset by (rewrite ?zlen_insert; lia)
    | rewrite decide_True by done
    | rewrite set_active_at by (rewrite ?zlen_insert; lia)
    | progress cbn [obind state arg value] ].

Lemma resume_ready_brep s m k v :
  brep s m -> 0 <= k < n -> in_u 32 v -> m !! k = Some Ready ->
  exists s', resume_key k v s = Ok (v, s') /\ brep s' (<[k := Waiting]> m).
Proof.
  intros Hrep Hk Hv Hm. destruct s as [ws act]. pose proof Hrep as [Hlen Hws]. cbn in Hlen, Hws.
  destruct (Hws _ _ Hm) as (w & Hw & Hst). cbn in Hst.
  unfold resume_key, async_worker, async_worker_yield. cbn [workers].
  rewrite get_active_at, Hw. cbn [obind]. rewrite Hst. run_active.
  rewrite u32_id by done. eexists. split; [done|]. rewrite list_insert_insert_eq.
  by apply (brep_insert _ act).
Qed.

Variable kb : Z.
Hypothesis stack_fits : bespoke_stack_use memsize sp kb = Ok tt.

Lemma resume_waiting_brep s m k :
  brep s m -> 0 <= k < n -> in_u 32 kb -> m !! k = Some Waiting ->
  exists s', resume_key k kb s = Ok (1, s') /\ brep s' (<[k := Finished]> m).
Proof.
  intros Hrep Hk Hv Hm. destruct s as [ws act]. pose proof Hrep as [Hlen Hws]. cbn in Hlen, Hws.
  destruct (Hws _ _ Hm) as (w & Hw & Hst). cbn in Hst.
  unfold resume_key, async_worker, async_worker_case1, async_worker_yield. cbn [workers].
  rewrite get_active_at, Hw. cbn [obind]. rewrite Hst. run_active. rewrite stack_fits. run_active.
  eexists. split; [done|]. rewrite list_insert_insert_eq. by apply (brep_insert _ act).
Qed.

Lemma alloc_brep s m k :
  brep s m -> 0 <= k < n -> m !! k = None ->
  exists s', alloc k s = Ok s' /\ brep s' (<[k := Ready]> m).
Proof.
  intros Hrep Hk _. destruct s as [ws act]. pose proof Hrep as [Hlen _]. cbn in Hlen.
  unfold alloc. cbn [workers active_worker]. rewrite zset_in_range by lia. cbn [obind].
  eexists. split; [done|]. by apply (brep_insert _ act).
Qed.

Lemma free_brep s m k :
  brep s m -> 0 <= k < n -> m !! k = Some Finished ->
  exists s', free_key k s = Ok s' /\ brep s' (delete k m).
Proof.
  intros [Hlen Hm] _ _. exists s. split; [done|]. split; [done|].
  intros j sl. rewrite lookup_delete. case_decide; [done|apply Hm].
Qed.

#[export] Instance bespoke_spec : AsyncWorkerSpec bstate n kb := {
  rep := brep;
  alloc_vacant := alloc_brep;
  resume_ready s m k := resume_ready_brep s m k kb;
  resume_waiting := resume_waiting_brep;
  free_finished := free_brep;
}.

(** The zero-initialised static table. *)
Definition initial : bstate := mk_bstate (replicate (Z.to_nat n) (mk_sm NORMAL 0 0)) None.

Lemma bespoke_initial_rep : 0 <= n -> brep initial ∅.
Proof. intros Hn. split; cbn; [unfold zlen; rewrite length_replicate; lia|done]. Qed.

End Bespoke.

(** c10m_bespoke.c repeats the text of the workload of c10m.c, linked to the
    operations above. *)
Definition bespoke_async_wl (memsize sp : Z) (s : bstate) : outcome (bstate * Z) :=
  @async_wl _ (bespoke_worker memsize sp) s.
Definition bespoke_main (memsize sp : Z) (s : bstate) : outcome Z :=
  @main _ (bespoke_worker memsize sp) s.

End Bespoke.

(** ** c10m_wasmfx.wast *)

Module WasmFX.
Import Fiber.

(** A continuation reference is one-shot: resuming it consumes it. The bodies
    are again [comp]s, with [suspend $yield] for [CallYield]. *)
Inductive cont := Fresh (body : Z -> comp) | Consumed.

Record wstate := mk_wstate {
  conts : gmap Z cont;
  next_cont : Z;
  table : list (option Z);
}.

Section WasmFX.
Variables memsize sp : Z.

(** [table.get] and [table.set] trap out of range. *)
Definition table_get (k : Z) (s : wstate) : outcome (option Z) :=
  if (0 <=? k) && (k <? zlen (table s)) then zget (table s) k else Trap.

Definition table_set (k : Z) (r : option Z) (s : wstate) : outcome wstate :=
  if (0 <=? k) && (k <? zlen (table s))
  then Ok (mk_wstate (conts s) (next_cont s) (<[Z.to_nat k := r]> (table s)))
  else Trap.

Definition cont_new (body : Z -> comp) (s : wstate) : Z * wstate :=
  (next_cont s, mk_wstate (<[next_cont s := Fresh body]> (conts s)) (next_cont s + 1) (table s)).

(** Function 6 of the module, the compiled [async_worker]: it suspends, reads
    the stack (the unrolled [stack_use]) and returns 1. *)
Definition async_worker_rest (kb : Z) : comp :=
  match stack_use memsize sp kb with Ok _ => Return 1 | _ => Crash end.
Definition async_worker (a : Z) : comp := CallYield a async_worker_rest.

(** [resume] with the handler [(tag $yield $on_yield)]: the value returned, or
    the payload of the suspension with its continuation. *)
Definition resume_cont (r : option Z) (v : Z) (s : wstate)
  : outcome ((Z + Z * Z) * wstate) :=
  match r with
  | None => Trap
  | Some i =>
      match conts s !! i with
      | Some (Fresh body) =>
          let s1 := mk_wstate (<[i := Consumed]> (conts s)) (next_cont s) (table s) in
          match body v with
          | Return x => Ok (inl x, s1)
          | CallYield x k => let '(j, s2) := cont_new k s1 in Ok (inr (x, j), s2)
          | CallResume _ _ _ | Crash => Trap
          end
      | _ => Trap
      end
  end.

Definition alloc (key : Z) (s : wstate) : outcome wstate :=
  let '(i, s1) := cont_new async_worker s in table_set key (Some i) s1.

Definition resume_key (key v : Z) (s : wstate) : outcome (Z * wstate) :=
  let! r := table_get key s in
  let! (res, s1) := resume_cont r v s in
  match res with
  | inl x => Ok (x, s1)
  | inr (x, k) => let! s2 := table_set key (Some k) s1 in Ok (x, s2)
  end.

Definition free_key (key : Z) (s : wstate) : outcome wstate := table_set key None s.

#[export] Instance wasmfx_worker : AsyncWorker wstate := {
  alloc_async_worker := alloc;
  resume_async_worker := resume_key;
  free_async_worker := free_key;
}.

Definition slot_rel (sl : slot) (c : cont) : Prop :=
  match sl with
  | Ready => c = Fresh async_worker
  | Waiting => c = Fresh async_worker_rest
  | Finished => c = Consumed
  end.

Variable n : Z.

(** References are numbered below [next_cont], and no two slots share one. *)
Definition wrep (s : wstate) (m : gmap Z slot) : Prop :=
  zlen (table s) = n /\
  (forall k sl, m !! k = Some sl -> exists i c,
     zget (table s) k = Ok (Some i) /\ i < next_cont s /\
     conts s !! i = Some c /\ slot_rel sl c) /\
  (forall k1 k2 i, is_Some (m !! k1) -> is_Some (m !! k2) ->
     zget (table s) k1 = Ok (Some i) -> zget (table s) k2 = Ok (Some i) -> k1 = k2).

Lemma table_get_ok k s : 0 <= k < zlen (table s) -> table_get k s = zget (table s) k.
Proof. intros Hk. unfold table_get. repeat (case_cmp; try lia). done. Qed.

Lemma table_set_ok k r s : 0 <= k < zlen (table s) ->
  table_set k r s = Ok (mk_wstate (conts s) (next_cont s) (<[Z.to_nat k := r]> (table s))).
Proof. intros Hk. unfold table_set. repeat (case_cmp; try lia). done. Qed.

(** A slot is given the newest reference. *)
Lemma wrep_new cs nx tb m k body sl :
  wrep (mk_wstate cs nx tb) m -> 0 <= k < n -> slot_rel sl (Fresh body) ->
  wrep (mk_wstate (<[nx := Fresh body]> cs) (nx + 1) (<[Z.to_nat k := Some nx]> tb)) (<[k := sl]> m).
Proof.
  intros (Hlen & Hm & Hinj) Hk Hsl. cbn in *. split; [|split]; cbn.
  - by rewrite zlen_insert.
  - intros j sl'. rewrite zget_zset, lookup_insert by lia. case_decide as E.
    + intros [= <-]. exists nx, (Fresh body). rewrite lookup_insert_eq. split_and!; (done || lia).
    + intros Hj. destruct (Hm _ _ Hj) as (i & c & Hi & Hlt & Hc & Hs). exists i, c.
      rewrite lookup_insert_ne by lia. split_and!; (done || lia).
  - assert (forall j, k <> j -> is_Some (<[k := sl]> m !! j) ->
      exists i, zget tb j = Ok (Some i) /\ i < nx) as Hold.
    { intros j Hj [sl' Hs]. rewrite lookup_insert_ne in Hs by done.
      destruct (Hm _ _ Hs) as (i & c & Hi & Hlt & _). eauto. }
    intros k1 k2 i H1 H2. rewrite !zget_zset by lia. repeat case_decide; subst; try done.
    + intros [= <-] Hz. destruct (Hold k2) as (i & Hi & Hlt); [done..|]. rewrite Hz in Hi. naive_solver lia.
    + intros Hz [= <-]. destruct (Hold k1) as (i & Hi & Hlt); [done..|]. rewrite Hz in Hi. naive_solver lia.
    + rewrite lookup_insert_ne in H1, H2 by done. by apply Hinj.
Qed.

(** The reference of a slot is consumed. *)
Lemma wrep_consume cs nx tb m k i :
  wrep (mk_wstate cs nx tb) m -> is_Some (m !! k) -> zget tb k = Ok (Some i) ->
  wrep (mk_wstate (<[i := Consumed]> cs) nx tb) (<[k := Finished]> m).
Proof.
  intros (Hlen & Hm & Hinj) [sl0 Hk] Hi. cbn in *. split; [done|]. split; cbn.
  - intros j sl. rewrite lookup_insert. case_decide as E; [subst j; intros [= <-]|].
    + destruct (Hm _ _ Hk) as (i' & c & Hi' & Hlt & _). rewrite Hi in Hi'. injection Hi' as <-.
      exists i, Consumed. rewrite lookup_insert_eq. done.
    + intros Hj. destruct (Hm _ _ Hj) as (i' & c & Hi' & Hlt & Hc & Hs). exists i', c.
      rewrite lookup_insert_ne; [done|]. intros ->. apply E. eapply Hinj; eauto.
  - intros k1 k2 x. rewrite !lookup_insert_is_Some. intros H1 H2. apply Hinj; destruct_or!; destruct_and?; subst; eauto.
Qed.

Lemma alloc_wrep s m k :
  wrep s m -> 0 <= k < n -> m !! k = None ->
  exists s', alloc k s = Ok s' /\ wrep s' (<[k := Ready]> m).
Proof.
  intros Hrep Hk _. destruct s as [cs nx tb]. pose proof Hrep as [Hlen _]. cbn in Hlen.
  unfold alloc. cbn. rewrite table_set_ok by (cbn; lia). eexists. split; [done|]. by apply wrep_new.
Qed.

Lemma resume_ready_wrep s m k v :
  wrep s m -> 0 <= k < n -> in_u 32 v -> m !! k = Some Ready ->
  exists s', resume_key k v s = Ok (v, s') /\ wrep s' (<[k := Waiting]> m).
Proof.
  intros Hrep Hk _ Hm. destruct s as [cs nx tb]. pose proof Hrep as [Hlen [Hs _]]. cbn in Hlen.
  destruct (Hs _ _ Hm) as (i & c & Hi & Hlt & Hc & ->). cbn in Hi, Hlt, Hc.
  unfold resume_key. rewrite table_get_ok by (cbn; lia). cbn [table]. rewrite Hi. cbn [obind resume_cont conts].
  rewrite Hc. cbn [async_worker cont_new conts next_cont table obind]. rewrite table_set_ok by (cbn; lia).
  cbn [obind]. eexists. split; [done|].
  pose proof (wrep_consume _ _ _ _ _ _ Hrep (ex_intro _ _ Hm) Hi) as Hrep'.
  pose proof (wrep_new _ _ _ _ k async_worker_rest Waiting Hrep' Hk eq_refl) as H2.
  by rewrite insert_insert_eq in H2.
Qed.

Variable kb : Z.
Hypothesis stack_fits : stack_use memsize sp kb = Ok tt.

Lemma resume_waiting_wrep s m k :
  wrep s m -> 0 <= k < n -> in_u 32 kb -> m !! k = Some Waiting ->
  exists s', resume_key k kb s = Ok (1, s') /\ wrep s' (<[k := Finished]> m).
Proof.
  intros Hrep Hk _ Hm. destruct s as [cs nx tb]. pose proof Hrep as [Hlen [Hs _]]. cbn in Hlen.
  destruct (Hs _ _ Hm) as (i & c & Hi & Hlt & Hc & ->). cbn in Hi, Hlt, Hc.
  unfold resume_key. rewrite table_get_ok by (cbn; lia). cbn [table]. rewrite Hi. cbn [obind resume_cont conts].
  rewrite Hc. unfold async_worker_rest. rewrite stack_fits. cbn [obind]. eexists. split; [done|]. eapply wrep_consume; eauto.
Qed.

Lemma free_wrep s m k :
  wrep s m -> 0 <= k < n -> m !! k = Some Finished ->
  exists s', free_key k s = Ok s' /\ wrep s' (delete k m).
Proof.
  intros (Hlen & Hm & Hinj) Hk _. unfold free_key. rewrite table_set_ok by lia.
  eexists. split; [done|]. split; [|split]; cbn.
  - by rewrite zlen_insert.
  - intros j sl. rewrite zget_zset, lookup_delete by lia. case_decide; [done|apply Hm].
  - intros k1 k2 i. rewrite !lookup_delete_is_Some, !zget_zset by lia.
    intros [? ?] [? ?]. rewrite !decide_False by done. by apply Hinj.
Qed.

#[export] Instance wasmfx_spec : AsyncWorkerSpec wstate n kb := {
  rep := wrep;
  alloc_vacant := alloc_wrep;
  resume_ready s m k := resume_ready_wrep s m k kb;
  resume_waiting := resume_waiting_wrep;
  free_finished := free_wrep;
}.

(** The table of null references the module starts with. *)
Definition initial : wstate := mk_wstate ∅ 0 (replicate (Z.to_nat n) None).

Lemma wasmfx_initial_rep : 0 <= n -> wrep initial ∅.
Proof.
  intros Hn. split; [|split]; cbn; [unfold zlen; rewrite length_replicate; lia|done|].
  intros k1 k2 i [? H1]. done.
Qed.

End WasmFX.
End WasmFX.
