(* ===== verification/C10M.v ===== *)
(** The c10m benchmark end to end: what the workload computes on any
    implementation of the worker interface, and the exit status of the program
    built with each of the three. *)

From S2P Require Import Prelude Fiber FiberSpec Workload Backends.

(** C2: on every implementation of the worker interface the workload finishes,
    counts every worker it served exactly once (modulo 2^32), and leaves no
    worker behind. *)
Theorem workload_counts_workers {S} `{AsyncWorker S} active kb `{!AsyncWorkerSpec S active kb}
    total (s : S) :
  0 < active <= 2 ^ 32 -> 0 <= total -> in_u 32 kb -> rep s ∅ ->
  exists s', async_wl_with active total kb s = Ok (s', u32 (total + active)) /\ rep s' ∅.
Proof. intros. by apply async_wl_count. Qed.

(** The eight pages that a worker reads are in a memory of [memsize] bytes. *)
Definition stack_in_memory (memsize sp : Z) : Prop := 7 * 4096 <= sp < memsize /\ memsize <= 2 ^ 32.

Lemma stack_use_ok memsize sp : stack_in_memory memsize sp -> stack_use memsize sp stack_kb = Ok tt.
Proof.
  intros [[Hlo Hhi] Hmax]. unfold stack_use, stack_use_addresses.
  change (Z.to_nat (stack_use_pages stack_kb)) with 8%nat. cbn [seq fmap list_fmap load_all].
  rewrite !(u32_id (_ * 4096)) by (by bounds). rewrite !u32_id by (bounds; lia). decide_cmp. done.
Qed.

Lemma two_pages : stack_in_memory 131072 66560.
Proof. by bounds. Qed.

(** Where a page is not in memory, the worker traps. *)
Example stack_use_outside : stack_use 65536 4096 stack_kb = Trap.
Proof. by vm_compute. Qed.

(** The state of the Asyncify build before [main]. *)
Definition asyncify_initial {H} (h : H) : AsyncifyBackend.astate :=
  AsyncifyBackend.mk_astate (Fiber.init_world h) (replicate (Z.to_nat active_conn) 0).

Lemma asyncify_initial_rep {H} `{Allocator H} frame_size memsize sp (h : H) base :
  (size (live h) <= base)%nat ->
  AsyncifyBackend.arep frame_size memsize sp active_conn base (asyncify_initial h) ∅.
Proof.
  intros Hb. exists ∅.
  split_and!; try done.
  - intros p. cbn. rewrite !lookup_empty. constructor.
  - cbn. rewrite map_size_empty. lia.
  - split; intros *; [done|]. rewrite lookup_empty. intros [? [=]].
Qed.

(** C3: the Asyncify build exits with status 0: on a heap that can hold two
    more blocks for each of the 10000 simultaneous fibers, with frames that
    fit the default stack, and with the eight pages each worker reads below its
    stack pointer in memory, all 10,010,000 workers are served, no access is
    undefined, nothing traps, and at the end no block is leaked. *)
Theorem asyncify_main_exits_0 {H} `{Allocator H} cap `{!AllocatorLaws H cap}
    frame_size memsize sp (h : H) :
  stack_in_memory memsize sp ->
  (size (live h) + 2 * Z.to_nat active_conn < cap)%nat ->
  (forall c, 0 <= frame_size c <= Fiber.FIBER_DEFAULT_STACK_SIZE) ->
  let W := AsyncifyBackend.asyncify_worker frame_size memsize sp in
  main (asyncify_initial h) = Ok 0 /\
  exists s' c, async_wl (asyncify_initial h) = Ok (s', c) /\
    (size (live (Fiber.heap (AsyncifyBackend.wd s'))) <= size (live h))%nat.
Proof.
  intros Hstack Hcap Hfit W.
  set (Sp := AsyncifyBackend.asyncify_spec frame_size memsize sp active_conn (size (live h)) cap Hcap Hfit stack_kb (stack_use_ok _ _ Hstack)).
  pose proof (asyncify_initial_rep frame_size memsize sp h _ (Nat.le_refl _)) as Hinit.
  split.
  - apply (@main_returns_0 _ W Sp). exact Hinit.
  - destruct (@async_wl_count _ W active_conn stack_kb Sp total_conn (asyncify_initial h)) as (s' & Hrun & Hrep);
      [done|done|done|exact Hinit|].
    exists s', (u32 (total_conn + active_conn)). split; [exact Hrun|].
    destruct Hrep as (am & _ & _ & _ & _ & Hsz & _). rewrite map_size_empty in Hsz. lia.
Qed.

(** An instance: a heap of 20001 slots, frames of 64 bytes. *)
Lemma asyncify_main_exits_0_witness :
  @main _ (@AsyncifyBackend.asyncify_worker _ (FiberSpec.slots_alloc (Z.to_nat 20001)) (fun _ => 64) 131072 66560)
    (asyncify_initial (FiberSpec.mk_slots ∅)) = Ok 0.
Proof.
  apply (@asyncify_main_exits_0 _ (FiberSpec.slots_alloc (Z.to_nat 20001)) (Z.to_nat 20001)
    (FiberSpec.slots_laws (Z.to_nat 20001) ltac:(bounds; lia)) (fun _ => 64) 131072 66560 (FiberSpec.mk_slots ∅)).
  - by bounds.
  - change (live (FiberSpec.mk_slots ∅)) with (∅ : gset Z). rewrite size_empty. unfold active_conn. lia.
  - intros _. unfold Fiber.FIBER_DEFAULT_STACK_SIZE. lia.
Defined.

(** The bespoke build exits with status 0. *)
Theorem bespoke_main_exits_0 memsize sp : stack_in_memory memsize sp ->
  Bespoke.bespoke_main memsize sp (Bespoke.initial active_conn) = Ok 0.
Proof.
  intros Hs. apply (@main_returns_0 _ _ (Bespoke.bespoke_spec memsize sp active_conn stack_kb (stack_use_ok _ _ Hs))).
  by apply Bespoke.bespoke_initial_rep.
Qed.
Lemma bespoke_main_exits_0_witness : Bespoke.bespoke_main 131072 66560 (Bespoke.initial active_conn) = Ok 0.
Proof. apply bespoke_main_exits_0. by bounds. Defined.

(** C4: with the pages each worker reads in memory, the WasmFX build gives the
    reference count: no one-shot continuation is resumed twice, no null reference is
    resumed and no load traps. *)
Theorem wasmfx_main_exits_0 memsize sp : stack_in_memory memsize sp ->
  @main _ (WasmFX.wasmfx_worker memsize sp) (WasmFX.initial active_conn) = Ok 0.
Proof.
  intros Hs. apply (@main_returns_0 _ _ (WasmFX.wasmfx_spec memsize sp active_conn stack_kb (stack_use_ok _ _ Hs))).
  by apply WasmFX.wasmfx_initial_rep.
Qed.
Lemma wasmfx_main_exits_0_witness : @main _ (WasmFX.wasmfx_worker 131072 66560) (WasmFX.initial active_conn) = Ok 0.
Proof. apply wasmfx_main_exits_0. by bounds. Defined.

(** A small workload on the bespoke state machine. *)
Lemma workload_counts_workers_witness :
  exists s', @async_wl_with _ (Bespoke.bespoke_worker 131072 66560) 3 7 32 (Bespoke.initial 3) = Ok (s', 10).
Proof.
  destruct (@workload_counts_workers _ _ 3 32 (Bespoke.bespoke_spec 131072 66560 3 32 (stack_use_ok 131072 66560 two_pages)) 7 (Bespoke.initial 3))
    as (s' & Hs & _); [by bounds|lia|by bounds|by apply Bespoke.bespoke_initial_rep|].
  exists s'. exact Hs.
Defined.

(** The value the model computes for it, and for the two others. *)
Example small_runs :
  (let! (_, c) := @async_wl_with _ (Bespoke.bespoke_worker 131072 66560) 3 7 32 (Bespoke.initial 3) in Ok c) = Ok 10 /\
  (let! (_, c) := @async_wl_with _ (WasmFX.wasmfx_worker 131072 66560) 3 7 32 (WasmFX.initial 3) in Ok c) = Ok 10 /\
  (let! (_, c) := @async_wl_with _
     (@AsyncifyBackend.asyncify_worker _ (FiberSpec.slots_alloc 8) (fun _ => 64) 131072 66560) 3 7 32
     (AsyncifyBackend.mk_astate (Fiber.init_world (FiberSpec.mk_slots ∅)) [0; 0; 0]) in Ok c) = Ok 10.
Proof. split_and!; vm_compute; reflexivity. Qed.

(** [stack_use] reads one address in each of the [ceil(kb * 1024 / 4096)]
    pages from the stack pointer down, all of them in the [kb] kilobytes it was
    asked for, as long as that many are below the stack pointer. *)
Theorem stack_use_reads sp kb :
  0 <= kb -> kb * 1024 <= sp < 2 ^ 32 -> kb * 1024 + 4096 < 2 ^ 32 ->
  stack_use_addresses sp kb = (fun i : nat => sp - Z.of_nat i * 4096) <$> seq 0 (Z.to_nat ((kb + 3) / 4)) /\
  Forall (fun a => sp - kb * 1024 < a <= sp) (stack_use_addresses sp kb).
Proof.
  intros Hkb Hsp Hov.
  assert (stack_use_pages kb = (kb + 3) / 4) as Hp.
  { unfold stack_use_pages, u32. bounds.
    rewrite (Z.mod_small kb), (Z.mod_small (kb * 1024)), Z.mod_small by lia.
    Z.div_mod_to_equations. lia. }
  assert (stack_use_addresses sp kb =
    (fun i : nat => sp - Z.of_nat i * 4096) <$> seq 0 (Z.to_nat ((kb + 3) / 4))) as E.
  { unfold stack_use_addresses. rewrite Hp. apply list_fmap_ext. intros j i Hi.
    apply lookup_seq in Hi as [-> Hj]. unfold u32. bounds.
    rewrite (Z.mod_small (_ * 4096)) by (Z.div_mod_to_equations; lia).
    apply Z.mod_small. Z.div_mod_to_equations. lia. }
  split; [exact E|]. rewrite E. apply Forall_fmap, Forall_forall. cbn.
  intros i Hi%elem_of_seq. Z.div_mod_to_equations. lia.
Qed.

Lemma stack_use_reads_witness :
  stack_use_addresses 66560 stack_kb =
    [66560; 62464; 58368; 54272; 50176; 46080; 41984; 37888].
Proof.
  destruct (stack_use_reads 66560 stack_kb) as [-> _]; unfold stack_kb; try lia; [by bounds..|].
  reflexivity.
Defined.
