(* ===== verification/Calendar.v ===== *)
(** Calendar time in the C library (libc-top-half/musl/src/time): conversions
    between seconds since the epoch and broken-down time, [gmtime_r], [timegm],
    [mktime] and [localtime_r], with WASI's fixed UTC zone.

    The reference is the proleptic Gregorian calendar, [civil_days]. *)

From S2P Require Import Prelude.

Module Calendar.

Record tm := mk_tm {
  tm_sec : Z; tm_min : Z; tm_hour : Z;
  tm_mday : Z; tm_mon : Z; tm_year : Z;
  tm_wday : Z; tm_yday : Z; tm_isdst : Z;
  tm_gmtoff : Z; tm_zone : Z;
}.

(** The address of the string [__utc]. *)
Definition utc : Z := 1024.

(** ** __secs_to_tm.c *)

Definition LEAPOCH : Z := 946684800 + 86400 * (31 + 29).
Definition DAYS_PER_400Y : Z := 365 * 400 + 97.
Definition DAYS_PER_100Y : Z := 365 * 100 + 24.
Definition DAYS_PER_4Y : Z := 365 * 4 + 1.

Definition days_in_month : list Z := [31; 30; 31; 30; 31; 31; 30; 31; 30; 31; 31; 29].

(** [for (months=0; days_in_month[months] <= remdays; months++)]: reading past
    the table is undefined. *)
Fixpoint months_loop (table : list Z) (months remdays : Z) : outcome (Z * Z) :=
  match table with
  | [] => UB
  | d :: table' =>
      if d <=? remdays then months_loop table' (months + 1) (remdays - d)
      else Ok (months, remdays)
  end.

(** The second half of [__secs_to_tm], from the computation of [leap] on. *)
Definition fields_to_tm (qc_cycles c_cycles q_cycles remyears remdays remsecs wday : Z) (tm0 : tm)
  : outcome (option tm) :=
  let leap := cbool ((remyears =? 0) && (negb (q_cycles =? 0) || (c_cycles =? 0))) in
  let yday := remdays + 31 + 28 + leap in
  let yday := if 365 + leap <=? yday then yday - (365 + leap) else yday in
  let years := remyears + 4 * q_cycles + 100 * c_cycles + 400 * qc_cycles in
  let! (months, remdays) := months_loop days_in_month 0 remdays in
  let '(months, years) :=
    if 10 <=? months then (months - 12, years + 1) else (months, years) in
  if (INT_MAX <? years + 100) || (years + 100 <? INT_MIN) then Ok None else
  Ok (Some (mk_tm (Z.rem remsecs 60) (Z.rem (Z.quot remsecs 60) 60) (Z.quot remsecs 3600)
              (remdays + 1) (months + 2) (years + 100) wday yday
              (tm_isdst tm0) (tm_gmtoff tm0) (tm_zone tm0))).

(** [None] is the result -1; [tm] keeps its time zone fields. *)
Definition secs_to_tm (t : Z) (tm0 : tm) : outcome (option tm) :=
  if (t <? INT_MIN * 31622400) || (INT_MAX * 31622400 <? t) then Ok None else
  let secs := t - LEAPOCH in
  let days := Z.quot secs 86400 in
  let remsecs := s32 (Z.rem secs 86400) in
  let '(remsecs, days) :=
    if remsecs <? 0 then (remsecs + 86400, days - 1) else (remsecs, days) in
  let wday := s32 (Z.rem (3 + days) 7) in
  let wday := if wday <? 0 then wday + 7 else wday in
  let qc_cycles := s32 (Z.quot days DAYS_PER_400Y) in
  let remdays := s32 (Z.rem days DAYS_PER_400Y) in
  let '(remdays, qc_cycles) :=
    if remdays <? 0 then (remdays + DAYS_PER_400Y, qc_cycles - 1)
    else (remdays, qc_cycles) in
  let c_cycles := Z.quot remdays DAYS_PER_100Y in
  let c_cycles := if c_cycles =? 4 then c_cycles - 1 else c_cycles in
  let remdays := remdays - c_cycles * DAYS_PER_100Y in
  let q_cycles := Z.quot remdays DAYS_PER_4Y in
  let q_cycles := if q_cycles =? 25 then q_cycles - 1 else q_cycles in
  let remdays := remdays - q_cycles * DAYS_PER_4Y in
  let remyears := Z.quot remdays 365 in
  let remyears := if remyears =? 4 then remyears - 1 else remyears in
  let remdays := remdays - remyears * 365 in
  fields_to_tm qc_cycles c_cycles q_cycles remyears remdays remsecs wday tm0.

(** ** __year_to_secs.c, __month_to_secs.c, __tm_to_secs.c *)

(** The seconds and [*is_leap]; a null [is_leap] only discards the flag. *)
Definition year_to_secs (year : Z) : Z * Z :=
  if u64 (year - 2) <=? 136 then
    let y := s32 year in
    let leaps := Z.shiftr (y - 68) 2 in
    let '(leaps, is_leap) :=
      if Z.land (y - 68) 3 =? 0 then (leaps - 1, 1) else (leaps, 0) in
    (s32 (31536000 * (y - 70) + 86400 * leaps), is_leap)
  else
    let cycles := s32 (Z.quot (year - 100) 400) in
    let rem := s32 (Z.rem (year - 100) 400) in
    let '(cycles, rem) := if rem <? 0 then (cycles - 1, rem + 400) else (cycles, rem) in
    let '(is_leap, centuries, leaps) :=
      if rem =? 0 then (1, 0, 0) else
      let '(centuries, rem) :=
        if 200 <=? rem then
          if 300 <=? rem then (3, rem - 300) else (2, rem - 200)
        else
          if 100 <=? rem then (1, rem - 100) else (0, rem) in
      if rem =? 0 then (0, centuries, 0)
      else (cbool (u32 rem mod 4 =? 0), centuries, u32 rem / 4) in
    let leaps := leaps + (97 * cycles + 24 * centuries - is_leap) in
    ((year - 100) * 31536000 + leaps * 86400 + 946684800 + 86400, is_leap).

Definition secs_through_month : list Z :=
  [0; 31*86400; 59*86400; 90*86400; 120*86400; 151*86400; 181*86400; 212*86400;
   243*86400; 273*86400; 304*86400; 334*86400].

Definition month_to_secs (month is_leap : Z) : outcome Z :=
  let! t := zget secs_through_month month in
  Ok (if ctrue is_leap && (2 <=? month) then t + 86400 else t).

Definition tm_to_secs (t : tm) : outcome Z :=
  let year := tm_year t in
  let month := tm_mon t in
  let '(year, month) :=
    if (12 <=? month) || (month <? 0) then
      let adj := Z.quot month 12 in
      let month := Z.rem month 12 in
      let '(adj, month) := if month <? 0 then (adj - 1, month + 12) else (adj, month) in
      (year + adj, month)
    else (year, month) in
  let '(s, is_leap) := year_to_secs year in
  let! ms := month_to_secs month is_leap in
  let! days := int_ (tm_mday t - 1) in
  Ok (s + ms + 86400 * days + 3600 * tm_hour t + 60 * tm_min t + tm_sec t).

(** ** The callers *)

Definition in_utc (t : tm) : tm :=
  mk_tm (tm_sec t) (tm_min t) (tm_hour t) (tm_mday t) (tm_mon t) (tm_year t)
    (tm_wday t) (tm_yday t) 0 0 utc.

Definition gmtime_r (t : Z) (tm0 : tm) : outcome (res tm) :=
  let! o := secs_to_tm t tm0 in
  Ok (match o with None => Err EOVERFLOW | Some new => Val (in_utc new) end).

Definition timegm (t : tm) : outcome (res (Z * tm)) :=
  let! s := tm_to_secs t in
  let! o := secs_to_tm s t in
  Ok (match o with None => Err EOVERFLOW | Some new => Val (s, in_utc new) end).

(** [__secs_to_zone] as built for WASI stores a fixed zone through its four
    pointer arguments; [oppoff] is the one a caller may pass as null. *)
Definition secs_to_zone (oppoff : Z) : outcome (Z * Z * Z * Z) :=
  if oppoff =? 0 then UB else Ok (0, 0, 0, utc).

Definition mktime (t : tm) : outcome (res (Z * tm)) :=
  let! s := tm_to_secs t in
  let! (isdst, gmtoff, opp, zone) := secs_to_zone 1 in
  let s := if (0 <=? tm_isdst t) && negb (isdst =? tm_isdst t) then s - (opp - gmtoff) else s in
  let s := s - gmtoff in
  if negb (s64 s =? s) then Ok (Err EOVERFLOW) else
  let! (isdst, gmtoff, opp, zone) := secs_to_zone 1 in
  let new := mk_tm 0 0 0 0 0 0 0 0 isdst gmtoff zone in
  let! o := secs_to_tm (s + gmtoff) new in
  Ok (match o with None => Err EOVERFLOW | Some new => Val (s, new) end).

(** [localtime_r] passes 0 for [oppoff]. *)
Definition localtime_r (t : Z) (tm0 : tm) : outcome (res tm) :=
  if (t <? INT_MIN * 31622400) || (INT_MAX * 31622400 <? t) then Ok (Err EOVERFLOW) else
  let! (isdst, gmtoff, _, zone) := secs_to_zone 0 in
  let tm1 := mk_tm (tm_sec tm0) (tm_min tm0) (tm_hour tm0) (tm_mday tm0) (tm_mon tm0)
    (tm_year tm0) (tm_wday tm0) (tm_yday tm0) isdst gmtoff zone in
  let! o := secs_to_tm (t + gmtoff) tm1 in
  Ok (match o with None => Err EOVERFLOW | Some new => Val new end).

(** ** The calendar *)

Definition is_leap_year (y : Z) : bool :=
  (y mod 4 =? 0) && (negb (y mod 100 =? 0) || (y mod 400 =? 0)).

(** Days from 1970-01-01 to January 1 of year [y]. *)
Definition year_days (y : Z) : Z :=
  365 * (y - 1970) + ((y - 1) / 4 - (y - 1) / 100 + (y - 1) / 400) - 477.

Definition month_starts : list Z := [0; 31; 59; 90; 120; 151; 181; 212; 243; 273; 304; 334].

(** Days from January 1 to the first of the month [m] (0 to 11). *)
Definition month_days (y m : Z) : Z :=
  nth (Z.to_nat m) month_starts 0 + (if is_leap_year y && (2 <=? m) then 1 else 0).

Definition civil_days (y m d : Z) : Z := year_days y + month_days y m + (d - 1).

Definition month_length (y m : Z) : Z :=
  if m =? 11 then 31 else month_days y (m + 1) - month_days y m.

Example epoch_is_zero : civil_days 1970 0 1 = 0.
Proof. reflexivity. Qed.
Example y2k_mar_1 : civil_days 2000 2 1 * 86400 = LEAPOCH.
Proof. reflexivity. Qed.

Definition zero_tm : tm := mk_tm 0 0 0 0 0 0 0 0 0 0 0.
Example secs_ex : secs_to_tm 1698400000 zero_tm =
  Ok (Some (mk_tm 40 46 9 27 9 123 5 299 0 0 0)).
Proof. vm_compute. reflexivity. Qed.

(** ** Lemmas on the calendar *)

Lemma leap_cases y : is_leap_year y = true \/ is_leap_year y = false.
Proof. destruct (is_leap_year y); auto. Qed.

Lemma year_days_succ y :
  year_days (y + 1) = year_days y + 365 + cbool (is_leap_year y).
Proof.
  unfold year_days, is_leap_year.
  destruct (Z.eqb_spec (y mod 4) 0), (Z.eqb_spec (y mod 100) 0), (Z.eqb_spec (y mod 400) 0);
    cbn [andb orb negb cbool]; Z.div_mod_to_equations; lia.
Qed.

Section Cycle.
Variables qc c q y : Z.
Hypothesis Hc : 0 <= c <= 3.
Hypothesis Hq : 0 <= q <= 24.
Hypothesis Hy : 0 <= y <= 3.

(** A year of the 400-year cycle that starts in 2000. *)
Definition cycle_year : Z := 2000 + 400 * qc + 100 * c + 4 * q + y.

Lemma cycle_leap :
  is_leap_year cycle_year = (y =? 0) && (negb (q =? 0) || (c =? 0)).
Proof.
  unfold is_leap_year, cycle_year.
  replace ((2000 + 400 * qc + 100 * c + 4 * q + y) mod 4) with y
    by (Z.div_mod_to_equations; lia).
  replace ((2000 + 400 * qc + 100 * c + 4 * q + y) mod 100) with (4 * q + y)
    by (Z.div_mod_to_equations; lia).
  replace ((2000 + 400 * qc + 100 * c + 4 * q + y) mod 400) with (100 * c + 4 * q + y)
    by (Z.div_mod_to_equations; lia).
  repeat (case_cmp; try lia); done.
Qed.

Lemma cycle_days :
  year_days (cycle_year + 1) =
    11323 + 146097 * qc + 36524 * c + 1461 * q + 365 * y.
Proof. unfold year_days, cycle_year. Z.div_mod_to_equations. lia. Qed.

End Cycle.

(** The day of the March-based year a month starts on. *)
Definition march_starts : list Z := [0; 31; 61; 92; 122; 153; 184; 214; 245; 275; 306; 337].

Definition zsum (l : list Z) : Z := fold_right Z.add 0 l.

Lemma months_loop_gen table : forall k rem, 0 <= rem < zsum table ->
  exists j, (j < length table)%nat /\
    months_loop table k rem = Ok (k + Z.of_nat j, rem - zsum (take j table)) /\
    0 <= rem - zsum (take j table) < nth j table 0.
Proof.
  induction table as [|d table IH]; intros k rem Hr; cbn in Hr; [lia|]. fold (zsum table) in Hr.
  cbn [months_loop]. destruct (Z.leb_spec d rem).
  - destruct (IH (k + 1) (rem - d)) as (j & Hj & Hrun & Hb); [lia|].
    exists (S j). cbn [take length zsum fold_right nth]. fold (zsum (take j table)).
    split; [lia|]. rewrite Hrun. split; [do 2 f_equal; lia|lia].
  - exists 0%nat. cbn. split; [lia|]. rewrite Z.add_0_r, Z.sub_0_r. split; [done|lia].
Qed.

Lemma months_loop_ok rem : 0 <= rem <= 365 ->
  exists m r, months_loop days_in_month 0 rem = Ok (m, r) /\ 0 <= m <= 11 /\
    rem = nth (Z.to_nat m) march_starts 0 + r /\ 0 <= r < nth (Z.to_nat m) days_in_month 0.
Proof.
  intros Hr. destruct (months_loop_gen days_in_month 0 rem) as (j & Hj & -> & Hb); [cbn; lia|].
  do 2 eexists. split; [reflexivity|]. cbn [length days_in_month] in Hj.
  rewrite Z.add_0_l, Nat2Z.id. split; [lia|]. split; [|exact Hb].
  do 12 (destruct j as [|j]; [cbn; lia|]). lia.
Qed.

(** ** Seconds to broken-down time *)

(** What a correct broken-down time is. *)
Definition valid_tm (t : tm) : Prop :=
  0 <= tm_sec t < 60 /\ 0 <= tm_min t < 60 /\ 0 <= tm_hour t < 24 /\
  0 <= tm_mon t < 12 /\ 1 <= tm_mday t <= month_length (1900 + tm_year t) (tm_mon t) /\
  in_s 32 (tm_year t).

Definition tm_seconds (t : tm) : Z :=
  86400 * civil_days (1900 + tm_year t) (tm_mon t) (tm_mday t)
  + 3600 * tm_hour t + 60 * tm_min t + tm_sec t.

(** The split of a day count of the 400-year cycle. *)
Lemma split_days r1 : 0 <= r1 < 146097 ->
  let c := if Z.quot r1 DAYS_PER_100Y =? 4 then Z.quot r1 DAYS_PER_100Y - 1 else Z.quot r1 DAYS_PER_100Y in
  let r2 := r1 - c * DAYS_PER_100Y in
  let q := if Z.quot r2 DAYS_PER_4Y =? 25 then Z.quot r2 DAYS_PER_4Y - 1 else Z.quot r2 DAYS_PER_4Y in
  let r3 := r2 - q * DAYS_PER_4Y in
  let y := if Z.quot r3 365 =? 4 then Z.quot r3 365 - 1 else Z.quot r3 365 in
  let r4 := r3 - y * 365 in
  0 <= c <= 3 /\ 0 <= q <= 24 /\ 0 <= y <= 3 /\ 0 <= r4 <= 365 /\
  (r4 = 365 -> y = 3 /\ (q < 24 \/ c = 3)).
Proof.
  intros Hr c r2 q r3 y r4.
  assert (0 <= c <= 3 /\ (c < 3 -> 0 <= r2 < 36524) /\ 0 <= r2 <= 36524) as (Hc & Hr2 & Hr2').
  { subst r2 c. unfold DAYS_PER_100Y. rewrite Z.quot_div_nonneg by lia.
    case_cmp; Z.div_mod_to_equations; lia. }
  assert (0 <= q <= 24 /\ (q < 24 -> 0 <= r3 < 1461) /\ 0 <= r3 <= 1460 /\
    (q = 24 -> r2 < 36524 -> r3 < 1460)) as (Hq & Hr3 & Hr3' & Hr3'').
  { subst r3 q. clearbody r2. unfold DAYS_PER_4Y. rewrite Z.quot_div_nonneg by lia.
    case_cmp; Z.div_mod_to_equations; lia. }
  assert (0 <= y <= 3 /\ 0 <= r4 <= 365 /\ (r4 = 365 -> y = 3 /\ r3 = 1460)) as (Hy & Hr4 & Hr4').
  { subst r4 y. clearbody r3. rewrite Z.quot_div_nonneg by lia.
    case_cmp; Z.div_mod_to_equations; lia. }
  clearbody c r2 q r3 y r4. lia.
Qed.

Lemma rem_fixup x n : 0 < n ->
  (if Z.rem x n <? 0 then Z.rem x n + n else Z.rem x n) = x mod n.
Proof.
  intros Hn. pose proof (floor_fixup x n Hn) as E. destruct (Z.rem x n <? 0); congruence.
Qed.

Lemma s32_rem x n : 0 < n < 2 ^ 31 -> s32 (Z.rem x n) = Z.rem x n.
Proof.
  intros Hn. apply s32_id. pose proof (Z.rem_bound_abs x n ltac:(lia)). bounds. lia.
Qed.

(** Month [m] of the March-based year, in the civil calendar. *)
Definition civil_year (qc c q y m : Z) : Z :=
  if 10 <=? m then cycle_year qc c q y + 1 else cycle_year qc c q y.
Definition civil_month (m : Z) : Z := if 10 <=? m then m - 10 else m + 2.

(** Case analysis on a month of the March-based year. *)
Lemma month_cases (P : Z -> Prop) :
  P 0 -> P 1 -> P 2 -> P 3 -> P 4 -> P 5 -> P 6 -> P 7 -> P 8 -> P 9 -> P 10 -> P 11 ->
  forall m, 0 <= m <= 11 -> P m.
Proof.
  intros ? ? ? ? ? ? ? ? ? ? ? ? m Hm.
  assert (m = 0 \/ m = 1 \/ m = 2 \/ m = 3 \/ m = 4 \/ m = 5 \/ m = 6 \/ m = 7 \/
    m = 8 \/ m = 9 \/ m = 10 \/ m = 11) as E by lia.
  destruct_or! E; subst; done.
Qed.

(** The first of that month, in days since 2000-03-01 and since the epoch. *)
Lemma civil_month_start qc c q y m :
  0 <= c <= 3 -> 0 <= q <= 24 -> 0 <= y <= 3 -> 0 <= m <= 11 ->
  civil_days (civil_year qc c q y m) (civil_month m) 1 =
    11017 + 146097 * qc + 36524 * c + 1461 * q + 365 * y + nth (Z.to_nat m) march_starts 0.
Proof.
  intros Hc Hq Hy Hm. pose proof (cycle_days qc c q y Hc Hq Hy) as Hd.
  pose proof (year_days_succ (cycle_year qc c q y)) as Hs.
  unfold civil_days, civil_year, civil_month, month_days, cbool in *.
  revert m Hm. apply month_cases; unfold march_starts, month_starts; lits;
    destruct (is_leap_year (cycle_year qc c q y)), (is_leap_year (cycle_year qc c q y + 1));
    lits; lia.
Qed.

(** A day of the cycle is a day of its civil month. *)
Lemma civil_month_length qc c q y m r :
  0 <= c <= 3 -> 0 <= q <= 24 -> 0 <= y <= 3 -> 0 <= m <= 11 ->
  0 <= r < nth (Z.to_nat m) days_in_month 0 ->
  (nth (Z.to_nat m) march_starts 0 + r = 365 -> y = 3 /\ (q < 24 \/ c = 3)) ->
  r + 1 <= month_length (civil_year qc c q y m) (civil_month m).
Proof.
  intros Hc Hq Hy Hm Hr H365.
  assert (is_leap_year (cycle_year qc c q y + 1) = (y =? 3) && ((q <? 24) || (c =? 3))) as Hl.
  { unfold is_leap_year, cycle_year.
    repeat case_cmp; try lia; cbn; try done; exfalso; Z.div_mod_to_equations; lia. }
  unfold month_length, civil_year, civil_month, month_days.
  revert Hr H365. pattern m. revert m Hm. apply month_cases; intros Hr H365;
    unfold march_starts, month_starts, days_in_month in *; lits;
    destruct (is_leap_year (cycle_year qc c q y)); lits; try lia;
    rewrite ?Hl; repeat case_cmp; lits; lia.
Qed.

(** The years a broken-down time can hold, as seconds. *)
Definition min_secs : Z := 86400 * year_days (1900 + INT_MIN).
Definition max_secs : Z := 86400 * year_days (1900 + INT_MAX + 1).

(** What [__secs_to_tm] promises of its result. *)
Definition tm_spec (t : Z) (tm0 : tm) (o : option tm) : Prop :=
  match o with
  | None => t < min_secs \/ max_secs <= t
  | Some new => valid_tm new /\ tm_seconds new = t /\
      tm_wday new = (t / 86400 + 4) mod 7 /\
      tm_yday new = month_days (1900 + tm_year new) (tm_mon new) + tm_mday new - 1 /\
      tm_isdst new = tm_isdst tm0 /\ tm_gmtoff new = tm_gmtoff tm0 /\ tm_zone new = tm_zone tm0
  end.

Lemma year_days_mono y1 y2 : y1 <= y2 -> year_days y1 <= year_days y2.
Proof. intros Hy. unfold year_days. Z.div_mod_to_equations. lia. Qed.

(** A date lies in its year. *)
Lemma civil_days_in_year y m d :
  0 <= m < 12 -> 1 <= d <= month_length y m ->
  year_days y <= civil_days y m d < year_days (y + 1).
Proof.
  intros Hm Hd. rewrite year_days_succ. revert Hd. unfold civil_days, month_length, month_days, cbool.
  pattern m. assert (0 <= m <= 11) as Hm' by lia. revert m Hm' Hm. intros m Hm' _. revert m Hm'.
  apply month_cases; unfold month_starts; lits; destruct (is_leap_year y); lits; lia.
Qed.

Lemma yday_ok qc c q y m r :
  0 <= c <= 3 -> 0 <= q <= 24 -> 0 <= y <= 3 -> 0 <= m <= 11 ->
  0 <= r < nth (Z.to_nat m) days_in_month 0 ->
  let leap := cbool ((y =? 0) && (negb (q =? 0) || (c =? 0))) in
  let yd := nth (Z.to_nat m) march_starts 0 + r + 31 + 28 + leap in
  (if 365 + leap <=? yd then yd - (365 + leap) else yd) =
    month_days (civil_year qc c q y m) (civil_month m) + (r + 1) - 1.
Proof.
  intros Hc Hq Hy Hm Hr. pose proof (cycle_leap qc c q y Hc Hq Hy) as <-.
  unfold civil_year, civil_month, month_days, cbool.
  destruct (Z.leb_spec 10 m) as [H10|H10];
    [generalize (is_leap_year (cycle_year qc c q y + 1)) as b2|];
    generalize (is_leap_year (cycle_year qc c q y)) as b1;
    revert Hr H10; pattern m; revert m Hm; apply month_cases; intros Hr H10; try lia;
    unfold march_starts, month_starts, days_in_month in *; intros; repeat match goal with b : bool |- _ => destruct b end;
    lits; case_cmp; lia.
Qed.

Lemma fields_to_tm_spec qc c q y rd rs t days tm0 :
  0 <= c <= 3 -> 0 <= q <= 24 -> 0 <= y <= 3 -> 0 <= rd <= 365 ->
  (rd = 365 -> y = 3 /\ (q < 24 \/ c = 3)) -> 0 <= rs < 86400 ->
  days = 146097 * qc + 36524 * c + 1461 * q + 365 * y + rd ->
  t = 86400 * (11017 + days) + rs ->
  exists o, fields_to_tm qc c q y rd rs ((3 + days) mod 7) tm0 = Ok o /\ tm_spec t tm0 o.
Proof.
  intros Hc Hq Hy Hrd H365 Hrs Hdays Ht. unfold fields_to_tm.
  destruct (months_loop_ok rd Hrd) as (m & r & Hml & Hm & Hrdm & Hr).
  pose proof (civil_month_start qc c q y m Hc Hq Hy Hm) as Hstart.
  pose proof (civil_month_length qc c q y m r Hc Hq Hy Hm Hr ltac:(by rewrite <- Hrdm)) as Hlen.
  pose proof (yday_ok qc c q y m r Hc Hq Hy Hm Hr) as Hyd. rewrite <- Hrdm in Hyd.
  assert (0 <= civil_month m < 12) as Hmon by (unfold civil_month; case_cmp; lia).
  pose proof (civil_days_in_year (civil_year qc c q y m) (civil_month m) (r + 1) Hmon ltac:(lia)) as Hin.
  assert (civil_days (civil_year qc c q y m) (civil_month m) (r + 1) = 11017 + days) as Hcd
    by (unfold civil_days in *; lia).
  rewrite Hml. cbn [obind]. cbv zeta in Hyd. rewrite Hyd.
  replace (if 10 <=? m then (m - 12, y + 4 * q + 100 * c + 400 * qc + 1)
           else (m, y + 4 * q + 100 * c + 400 * qc))
    with (civil_month m - 2, civil_year qc c q y m - 2000)
    by (unfold civil_month, civil_year, cycle_year; case_cmp; f_equal; lia).
  set (Y := civil_year qc c q y m) in *. set (M := civil_month m) in *. clearbody Y M.
  replace (Y - 2000 + 100) with (Y - 1900) by lia. replace (M - 2 + 2) with M by lia.
  destruct (Z.ltb_spec INT_MAX (Y - 1900)); [|destruct (Z.ltb_spec (Y - 1900) INT_MIN)]; cbn [orb];
    eexists; (split; [reflexivity|]); unfold tm_spec.
  - right. unfold max_secs. pose proof (year_days_mono (1900 + INT_MAX + 1) Y). lia.
  - left. unfold min_secs. pose proof (year_days_mono (Y + 1) (1900 + INT_MIN)). lia.
  - unfold valid_tm, tm_seconds. cbn [tm_sec tm_min tm_hour tm_mday tm_mon tm_year tm_wday tm_yday tm_isdst tm_gmtoff tm_zone].
    replace (1900 + (Y - 1900)) with Y by lia. rewrite Hcd.
    rewrite !Z.quot_div_nonneg, !Z.rem_mod_nonneg by (try lia; apply Z.div_pos; lia).
    split_and!; try done; bounds; Z.div_mod_to_equations; lia.
Qed.

Lemma secs_to_tm_spec t tm0 : in_s 64 t ->
  exists o, secs_to_tm t tm0 = Ok o /\ tm_spec t tm0 o.
Proof.
  intros Ht. unfold secs_to_tm.
  assert (min_secs = -67768040609740800) as Hmin by reflexivity.
  assert (max_secs = 67768036191676800) as Hmax by reflexivity.
  destruct (Z.ltb_spec t (INT_MIN * 31622400)); [exists None; cbn; bounds; split; [done|lia]|].
  destruct (Z.ltb_spec (INT_MAX * 31622400) t); [exists None; cbn; bounds; split; [done|lia]|].
  cbn [orb]. rewrite s32_rem, floor_fixup by lia.
  set (days := (t - LEAPOCH) / 86400). set (rs := (t - LEAPOCH) mod 86400).
  assert (t - LEAPOCH = 86400 * days + rs /\ 0 <= rs < 86400) as [Hd Hrs]
    by (subst days rs; Z.div_mod_to_equations; lia).
  clearbody days rs. unfold LEAPOCH in Hd.
  rewrite (s32_rem (3 + days) 7), rem_fixup by lia.
  rewrite (s32_id (Z.quot days DAYS_PER_400Y))
    by (unfold DAYS_PER_400Y; bounds; Z.to_euclidean_division_equations; lia).
  rewrite (s32_rem days DAYS_PER_400Y), floor_fixup by (unfold DAYS_PER_400Y; lia).
  assert (days = 146097 * (days / DAYS_PER_400Y) + days mod DAYS_PER_400Y /\
    0 <= days mod DAYS_PER_400Y < 146097) as [Hqc Hr1]
    by (unfold DAYS_PER_400Y; Z.div_mod_to_equations; lia).
  pose proof (split_days _ Hr1) as (Hc & Hq & Hy & Hr4 & H365).
  cbv zeta. eapply fields_to_tm_spec; try eassumption;
    unfold DAYS_PER_100Y, DAYS_PER_4Y in *; lia.
Qed.

(** ** Broken-down time to seconds *)

Lemma floor_fixup' x n : 0 < n ->
  (if Z.rem x n <? 0 then (Z.quot x n - 1, Z.rem x n + n) else (Z.quot x n, Z.rem x n))
  = (x / n, x mod n).
Proof.
  intros Hn. pose proof (floor_fixup x n Hn) as E. destruct (Z.rem x n <? 0); congruence.
Qed.

(** The slow path, on a year of the 400-year cycle. *)
Lemma cycle_year_parts qc c q y : 0 <= c <= 3 -> 0 <= q <= 24 -> 0 <= y <= 3 ->
  year_days (cycle_year qc c q y) =
    10957 + 365 * (400 * qc + 100 * c + 4 * q + y) + 97 * qc + 24 * c + q + 1
    - cbool (is_leap_year (cycle_year qc c q y)) /\
  is_leap_year (cycle_year qc c q y) = (y =? 0) && (negb (q =? 0) || (c =? 0)).
Proof.
  intros Hc Hq Hy. split; [|by apply cycle_leap].
  pose proof (cycle_days qc c q y Hc Hq Hy). pose proof (year_days_succ (cycle_year qc c q y)). lia.
Qed.

Lemma year_to_secs_slow year : - 2 ^ 33 <= year <= 2 ^ 33 ->
  let cycles := (year - 100) / 400 in
  let rem := (year - 100) mod 400 in
  (let '(is_leap, centuries, leaps) :=
      if rem =? 0 then (1, 0, 0) else
      let '(centuries, rem) :=
        if 200 <=? rem then
          if 300 <=? rem then (3, rem - 300) else (2, rem - 200)
        else
          if 100 <=? rem then (1, rem - 100) else (0, rem) in
      if rem =? 0 then (0, centuries, 0)
      else (cbool (u32 rem mod 4 =? 0), centuries, u32 rem / 4) in
    let leaps := leaps + (97 * cycles + 24 * centuries - is_leap) in
    ((year - 100) * 31536000 + leaps * 86400 + 946684800 + 86400, is_leap))
  = (86400 * year_days (1900 + year), cbool (is_leap_year (1900 + year))).
Proof.
  intros Hyear cycles rem.
  assert (year - 100 = 400 * cycles + rem /\ 0 <= rem < 400) as [He Hr]
    by (subst cycles rem; Z.div_mod_to_equations; lia).
  clearbody cycles rem.
  set (c := rem / 100). set (q := (rem mod 100) / 4). set (y := rem mod 4).
  assert (0 <= c <= 3 /\ 0 <= q <= 24 /\ 0 <= y <= 3 /\ rem = 100 * c + 4 * q + y) as (Hc & Hq & Hy & Hrem)
    by (subst c q y; Z.div_mod_to_equations; lia).
  clearbody c q y.
  assert (1900 + year = cycle_year cycles c q y) as -> by (unfold cycle_year; lia).
  destruct (cycle_year_parts cycles c q y Hc Hq Hy) as [-> ->].
  set (r := 4 * q + y).
  assert ((if rem =? 0 then (1, 0, 0) else
      let '(centuries, rem) :=
        if 200 <=? rem then
          if 300 <=? rem then (3, rem - 300) else (2, rem - 200)
        else
          if 100 <=? rem then (1, rem - 100) else (0, rem) in
      if rem =? 0 then (0, centuries, 0)
      else (cbool (u32 rem mod 4 =? 0), centuries, u32 rem / 4))
    = (cbool ((y =? 0) && (negb (q =? 0) || (c =? 0))), c, q)) as ->.
  { replace (if 200 <=? rem then if 300 <=? rem then (3, rem - 300) else (2, rem - 200)
             else if 100 <=? rem then (1, rem - 100) else (0, rem)) with (c, r)
      by (repeat case_cmp; f_equal; lia).
    assert (u32 r = r) as -> by (apply u32_id; bounds; lia).
    replace (r mod 4) with y by (subst r; Z.div_mod_to_equations; lia).
    replace (r / 4) with q by (subst r; Z.div_mod_to_equations; lia).
    destruct (Z.eqb_spec rem 0), (Z.eqb_spec r 0), (Z.eqb_spec y 0), (Z.eqb_spec q 0), (Z.eqb_spec c 0);
      try lia; cbn; repeat f_equal; lia. }
  f_equal. lia.
Qed.

Lemma year_to_secs_spec year : - 2 ^ 33 <= year <= 2 ^ 33 ->
  year_to_secs year = (86400 * year_days (1900 + year), cbool (is_leap_year (1900 + year))).
Proof.
  intros Hy. unfold year_to_secs. destruct (Z.leb_spec (u64 (year - 2)) 136) as [Hf|Hf].
  - assert (2 <= year <= 138) as Hyr.
    { unfold u64 in Hf. bounds. Z.div_mod_to_equations. lia. }
    rewrite (s32_id year) by (bounds; lia).
    rewrite Z.shiftr_div_pow2, (Z.land_ones _ 2) by lia. change (2 ^ 2) with 4.
    assert (is_leap_year (1900 + year) = ((year - 68) mod 4 =? 0) && negb (year =? 0)) as Hl.
    { unfold is_leap_year. repeat case_cmp; cbn; try done; Z.div_mod_to_equations; lia. }
    rewrite Hl. destruct (Z.eqb_spec ((year - 68) mod 4) 0), (Z.eqb_spec year 0); try lia; cbn [andb negb cbool];
      rewrite s32_id by (bounds; Z.div_mod_to_equations; lia);
      f_equal; unfold year_days; Z.div_mod_to_equations; lia.
  - rewrite (s32_rem _ 400) by lia.
    rewrite (s32_id (Z.quot _ 400)) by (bounds; Z.to_euclidean_division_equations; lia).
    rewrite floor_fixup' by lia. apply year_to_secs_slow. done.
Qed.

Lemma month_to_secs_spec y m : 0 <= m <= 11 ->
  month_to_secs m (cbool (is_leap_year y)) = Ok (86400 * month_days y m).
Proof.
  intros Hm. unfold month_to_secs, month_days. generalize (is_leap_year y) as b. intros b.
  pattern m. revert m Hm. apply month_cases; destruct b; reflexivity.
Qed.

(** A broken-down time whose fields are any [int]s, except that [tm_mday - 1] must not
    overflow; months are carried into years. *)
Definition int_fields (t : tm) : Prop :=
  in_s 32 (tm_sec t) /\ in_s 32 (tm_min t) /\ in_s 32 (tm_hour t) /\
  INT_MIN < tm_mday t <= INT_MAX /\ in_s 32 (tm_mon t) /\ in_s 32 (tm_year t).

Definition carried_seconds (t : tm) : Z :=
  86400 * civil_days (1900 + tm_year t + tm_mon t / 12) (tm_mon t mod 12) (tm_mday t)
  + 3600 * tm_hour t + 60 * tm_min t + tm_sec t.

Lemma tm_to_secs_spec t : int_fields t -> tm_to_secs t = Ok (carried_seconds t).
Proof.
  intros (_ & _ & _ & Hday & Hmon & Hyear). unfold tm_to_secs, carried_seconds.
  replace (if (12 <=? tm_mon t) || (tm_mon t <? 0)
           then let '(adj, month) :=
                  if Z.rem (tm_mon t) 12 <? 0 then (Z.quot (tm_mon t) 12 - 1, Z.rem (tm_mon t) 12 + 12)
                  else (Z.quot (tm_mon t) 12, Z.rem (tm_mon t) 12) in (tm_year t + adj, month)
           else (tm_year t, tm_mon t))
    with (tm_year t + tm_mon t / 12, tm_mon t mod 12).
  2: { rewrite floor_fixup' by lia.
       repeat case_cmp; cbn [orb]; f_equal; Z.div_mod_to_equations; lia. }
  rewrite year_to_secs_spec by (bounds; Z.div_mod_to_equations; lia).
  rewrite month_to_secs_spec by (pose proof (Z.mod_pos_bound (tm_mon t) 12); lia).
  cbn [obind]. rewrite int_Ok by (unfold INT_MIN, INT_MAX in Hday; bounds; lia).
  cbn [obind]. rewrite Z.add_assoc. f_equal. unfold civil_days. lia.
Qed.

Lemma valid_int_fields t : valid_tm t -> int_fields t.
Proof.
  intros (? & ? & ? & ? & Hd & ?). unfold int_fields. unfold month_length, month_days in Hd.
  assert (tm_mday t <= 400).
  { assert (0 <= tm_mon t <= 11) as Hm by lia. clear -Hm Hd. revert Hd.
    generalize (is_leap_year (1900 + tm_year t)) as b. revert Hm. generalize (tm_mon t) as m.
    intros m Hm b. pattern m. revert m Hm. apply month_cases; destruct b; unfold month_starts; lits; lia. }
  bounds. lia.
Qed.

Lemma valid_carried t : valid_tm t -> carried_seconds t = tm_seconds t.
Proof.
  intros (_ & _ & _ & Hm & _). unfold carried_seconds, tm_seconds.
  rewrite Z.div_small, Z.mod_small, Z.add_0_r by lia. done.
Qed.

Lemma carried_bound t : int_fields t -> - 2 ^ 62 < carried_seconds t < 2 ^ 62.
Proof.
  intros (? & ? & ? & Hd & ? & ?). unfold carried_seconds, civil_days.
  assert (0 <= month_days (1900 + tm_year t + tm_mon t / 12) (tm_mon t mod 12) <= 400).
  { unfold month_days. generalize (is_leap_year (1900 + tm_year t + tm_mon t / 12)) as b. intros b.
    pose proof (Z.mod_pos_bound (tm_mon t) 12 ltac:(lia)) as Hb. revert Hb.
    generalize (tm_mon t mod 12) as m. intros m Hb. assert (0 <= m <= 11) as Hm by lia. clear Hb.
    pattern m. revert m Hm. apply month_cases; destruct b; unfold month_starts; lits; lia. }
  pose proof (year_days_mono (- 2 ^ 33) (1900 + tm_year t + tm_mon t / 12)).
  pose proof (year_days_mono (1900 + tm_year t + tm_mon t / 12) (2 ^ 33)).
  assert (- 2 ^ 33 <= 1900 + tm_year t + tm_mon t / 12 <= 2 ^ 33)
    by (bounds; Z.div_mod_to_equations; lia).
  assert (- 2 ^ 45 <= year_days (- 2 ^ 33)) by (vm_compute; done).
  assert (year_days (2 ^ 33) <= 2 ^ 45) by (vm_compute; done).
  bounds. lia.
Qed.
Lemma valid_seconds_s64 t : int_fields t -> in_s 64 (carried_seconds t).
Proof. intros H. pose proof (carried_bound t H). bounds. lia. Qed.

(** A valid broken-down time has a year that fits. *)
Lemma valid_in_range t : valid_tm t -> min_secs <= tm_seconds t < max_secs.
Proof.
  intros (? & ? & ? & Hm & Hd & Hy). pose proof (civil_days_in_year _ _ _ Hm Hd).
  pose proof (year_days_mono (1900 + INT_MIN) (1900 + tm_year t)) as M1.
  pose proof (year_days_mono (1900 + tm_year t + 1) (1900 + INT_MAX + 1)) as M2.
  assert (1900 + INT_MIN <= 1900 + tm_year t /\ 1900 + tm_year t + 1 <= 1900 + INT_MAX + 1) as [? ?]
    by (bounds; lia).
  unfold tm_seconds, min_secs, max_secs. revert M1 M2.
  generalize (year_days (1900 + INT_MIN)) (year_days (1900 + INT_MAX + 1)). lia.
Qed.

(** The time zone fields are copied, nothing else depends on them. *)
Definition with_zone (z t : tm) : tm :=
  mk_tm (tm_sec t) (tm_min t) (tm_hour t) (tm_mday t) (tm_mon t) (tm_year t)
    (tm_wday t) (tm_yday t) (tm_isdst z) (tm_gmtoff z) (tm_zone z).

Lemma secs_to_tm_zone t tm0 tm1 :
  secs_to_tm t tm1 = (let! o := secs_to_tm t tm0 in Ok (with_zone tm1 <$> o)).
Proof.
  unfold secs_to_tm. destruct (_ || _); [done|]. cbv zeta.
  match goal with |- context [let '(_, _) := ?e in _] => destruct e as [rs d] end.
  match goal with |- context [let '(_, _) := ?e in _] => destruct e as [rd qc] end.
  unfold fields_to_tm.
  match goal with |- context [months_loop ?a ?b ?c] => destruct (months_loop a b c) as [[m r]| | |] end;
    cbn [obind]; try done.
  match goal with |- context [let '(_, _) := ?e in _] => destruct e as [mm yy] end.
  by destruct (_ || _).
Qed.

(** With the fixed zone, [mktime] is [timegm]. *)
Lemma mktime_as_timegm t : int_fields t -> mktime t = timegm t.
Proof.
  intros Hf. pose proof (valid_seconds_s64 t Hf) as H64.
  unfold timegm, mktime. rewrite tm_to_secs_spec by exact Hf.
  change (secs_to_zone 1) with (Ok (0, 0, 0, utc)). cbn [obind].
  replace (if (0 <=? tm_isdst t) && negb (0 =? tm_isdst t) then carried_seconds t - (0 - 0)
           else carried_seconds t) with (carried_seconds t) by (destruct (_ && _); lia).
  rewrite Z.sub_0_r, s64_id, Z.eqb_refl, Z.add_0_r by exact H64. cbn [negb].
  rewrite (secs_to_tm_zone _ t (mk_tm _ _ _ _ _ _ _ _ _ _ _)).
  by destruct (secs_to_tm (carried_seconds t) t) as [[?|]| | |].
Qed.

(** ** Theorems *)

(** C5: for every 64-bit time, [__secs_to_tm] returns (its month search never
    leaves the table).  It fails exactly when the Gregorian year does not fit
    [tm_year]; otherwise the fields are in range, denote the given second in the
    proleptic Gregorian calendar, and give the weekday and the day of the year. *)
Theorem secs_to_tm_correct t tm0 : in_s 64 t ->
  exists o, secs_to_tm t tm0 = Ok o /\
  (o = None <-> t < min_secs \/ max_secs <= t) /\
  forall new, o = Some new ->
    valid_tm new /\ tm_seconds new = t /\ tm_wday new = (t / 86400 + 4) mod 7 /\
    tm_yday new = month_days (1900 + tm_year new) (tm_mon new) + tm_mday new - 1.
Proof.
  intros Ht. destruct (secs_to_tm_spec t tm0 Ht) as (o & Ho & Hs). exists o. split; [done|].
  unfold tm_spec in Hs. destruct o as [new|].
  - destruct Hs as (Hv & Hsec & Hw & Hyd & _). split; [|naive_solver].
    split; [done|]. intros Hout. exfalso. apply valid_in_range in Hv. lia.
  - split; [done|]. naive_solver.
Qed.

(** C6: [timegm] inverts [gmtime_r] on every time [gmtime_r] accepts, and finds
    the broken-down time already normalised. *)
Theorem gmtime_timegm_roundtrip t tm0 new : in_s 64 t ->
  gmtime_r t tm0 = Ok (Val new) -> timegm new = Ok (Val (t, new)).
Proof.
  intros Ht Hg. unfold gmtime_r in Hg. inv_ok.
  destruct (secs_to_tm_spec t tm0 Ht) as (o & Ho & Hs). rewrite Ho in E. injection E as <-.
  destruct o as [n|]; [|discriminate]. injection Hg as <-. destruct Hs as (Hv & Hsec & _).
  assert (valid_tm (in_utc n)) as Hv' by exact Hv.
  unfold timegm. rewrite tm_to_secs_spec, valid_carried by (by try apply valid_int_fields).
  change (tm_seconds (in_utc n)) with (tm_seconds n). rewrite Hsec. cbn [obind].
  rewrite (secs_to_tm_zone t tm0), Ho. done.
Qed.

Lemma gmtime_timegm_roundtrip_witness :
  exists new, gmtime_r 951868800 zero_tm = Ok (Val new) /\
    tm_mon new = 2 /\ tm_mday new = 1 /\ timegm new = Ok (Val (951868800, new)).
Proof.
  eexists. split; [vm_compute; reflexivity|]. split; [done|]. split; [done|].
  apply (gmtime_timegm_roundtrip 951868800 zero_tm); [by bounds|vm_compute; reflexivity].
Defined.

Lemma secs_to_tm_correct_witness :
  exists new, secs_to_tm (-1) zero_tm = Ok (Some new) /\ valid_tm new /\ tm_seconds new = -1.
Proof.
  destruct (secs_to_tm_correct (-1) zero_tm) as (o & Ho & Hn & Hs); [by bounds|].
  destruct o as [new|].
  - exists new. destruct (Hs new eq_refl) as (Hv & Ht & _). exact (conj Ho (conj Hv Ht)).
  - exfalso. assert (min_secs <= -1 < max_secs) by (vm_compute; split; [discriminate|reflexivity]).
    destruct (proj1 Hn eq_refl); lia.
Defined.

(** [timegm] and [mktime] carry out-of-range fields: for any [int] fields
    (the day of the month above [INT_MIN]),
    months beyond the year move into years (towards minus infinity), the other
    fields add up, the intermediate sums fit 64 bits, and the result is that
    second or [EOVERFLOW] when its year does not fit. *)
Theorem timegm_carries t : int_fields t ->
  in_s 64 (carried_seconds t) /\
  ((exists new, timegm t = Ok (Val (carried_seconds t, new)) /\
      mktime t = Ok (Val (carried_seconds t, new)) /\
      valid_tm new /\ tm_seconds new = carried_seconds t) \/
   (timegm t = Ok (Err EOVERFLOW) /\ mktime t = Ok (Err EOVERFLOW) /\
      (carried_seconds t < min_secs \/ max_secs <= carried_seconds t))).
Proof.
  intros Hf. pose proof (valid_seconds_s64 t Hf) as H64. split; [done|].
  rewrite mktime_as_timegm by exact Hf. unfold timegm.
  rewrite tm_to_secs_spec by exact Hf. cbn [obind].
  destruct (secs_to_tm_spec (carried_seconds t) t H64) as ([new|] & Ho & Hs); rewrite Ho; cbn [obind].
  - left. exists (in_utc new). destruct Hs as (Hv & Hsec & _). split_and!; done.
  - right. done.
Qed.

(** December 31 of year 70 plus one month and 40 days. *)
Lemma timegm_carries_witness :
  exists new, timegm (mk_tm 0 0 0 71 12 70 0 0 0 0 0) = Ok (Val (37584000, new)) /\ valid_tm new.
Proof.
  destruct (timegm_carries (mk_tm 0 0 0 71 12 70 0 0 0 0 0)) as [_ [(new & H1 & _ & H3 & _)|(_ & _ & H)]].
  - unfold int_fields. cbn. bounds. lia.
  - exists new. split; [exact H1|exact H3].
  - exfalso. revert H. vm_compute. intros [[=]|H]. by apply H.
Defined.

(** [localtime_r] stores through a null pointer on every time it does not
    reject: it passes 0 for the last-but-one argument of [__secs_to_zone], whose
    WASI build does not test it. *)
Theorem localtime_r_null_store t tm0 :
  INT_MIN * 31622400 <= t <= INT_MAX * 31622400 -> localtime_r t tm0 = UB.
Proof.
  intros Ht. unfold localtime_r.
  destruct (Z.ltb_spec t (INT_MIN * 31622400)), (Z.ltb_spec (INT_MAX * 31622400) t); try lia. done.
Qed.

Lemma localtime_r_null_store_witness : localtime_r 0 zero_tm = UB.
Proof. apply (localtime_r_null_store 0 zero_tm). by bounds. Defined.

End Calendar.
