(* ===== verification/Preopens.v ===== *)
(** The sandbox's view of the file system in wasi-libc: the table of preopened
    directories (libc-bottom-half/sources/preopens.c), which turns a path into
    a directory file descriptor and a path relative to it.

    A path is the list of its bytes.  [alloc_ok n] says whether an allocation of
    [n] bytes succeeds. *)

From S2P Require Import Prelude.

Definition SLASH : Z := 47.
Definition DOT : Z := 46.

(** A C string: no byte is NUL. *)
Definition cstring (s : list Z) : Prop := Forall (fun c => c <> 0) s.

Module Preopens.

Record preopen := mk_preopen { prefix : list Z; fd : Z }.

(** [preopens[0 .. num_preopens)] and [preopen_capacity]. *)
Record table := mk_table { entries : list preopen; capacity : Z }.

Definition num_preopens (t : table) : Z := zlen (entries t).
Definition sizeof_preopen : Z := 8.
Definition empty_table : table := mk_table [] 0.

Definition AT_FDCWD : Z := -2.

Section WithAlloc.
Variable alloc_ok : Z -> bool.

(** The conditions [assert_invariants] checks; those on the [prefix] pointers
    hold by the representation. *)
Definition assert_invariants (t : table) : bool :=
  (num_preopens t <=? capacity t) &&
  ((capacity t =? 0) || (capacity t <? u32 (capacity t * sizeof_preopen))) &&
  forallb (fun p => negb (fd p =? -1)) (entries t).

(** [assert]: a failed assertion aborts. *)
Definition assert (b : bool) {A} (k : outcome A) : outcome A := if b then k else Trap.

(** [None] is the result -1. *)
Definition resize (t : table) : outcome (option table) :=
  let start_capacity := 4 in
  let old_capacity := capacity t in
  let new_capacity := if old_capacity =? 0 then start_capacity else u32 (old_capacity * 2) in
  if alloc_ok (sizeof_preopen * new_capacity) then
    let t' := mk_table (entries t) new_capacity in
    assert (assert_invariants t') (Ok (Some t'))
  else Ok None.

Fixpoint strip_prefixes (path : list Z) : list Z :=
  match path with
  | c :: rest =>
      if c =? SLASH then strip_prefixes rest
      else if c =? DOT then
        match rest with
        | [] => []
        | d :: rest' => if d =? SLASH then strip_prefixes rest' else path
        end
      else path
  | [] => []
  end.

Definition internal_register_preopened_fd (f : Z) (relprefix : list Z) (t : table)
  : outcome (option table) :=
  assert (assert_invariants t) (
  assert (negb (f =? AT_FDCWD)) (
  assert (negb (f =? -1)) (
  let! ot := if num_preopens t =? capacity t then resize t else Ok (Some t) in
  match ot with
  | None => Ok None
  | Some t1 =>
      let p := strip_prefixes relprefix in
      if alloc_ok (zlen p + 1) then
        let t2 := mk_table (entries t1 ++ [mk_preopen p f]) (capacity t1) in
        assert (assert_invariants t2) (Ok (Some t2))
      else Ok None
  end))).

Definition register_preopened_fd (f : Z) (p : list Z) (t : table) : outcome (option table) :=
  internal_register_preopened_fd f p t.

(** *** Matching *)

(** [memcmp(path, prefix, n) == 0] for strings: a NUL never matches. *)
Definition memcmp_eq (path pre : list Z) (n : nat) : bool :=
  bool_decide (take n path = take n pre).

(** [while (i > 0 && prefix[i - 1] == '/') --i;] *)
Fixpoint trim_slashes (pre : list Z) (i : nat) : nat :=
  match i with
  | O => O
  | S j => if schar pre (Z.of_nat j) =? SLASH then trim_slashes pre j else i
  end.

Definition prefix_matches (pre : list Z) (prefix_len : nat) (path : list Z) : bool :=
  if negb (schar path 0 =? SLASH) && (prefix_len =? 0)%nat then true
  else if negb (memcmp_eq path pre prefix_len) then false
  else
    let i := trim_slashes pre prefix_len in
    let last := schar path (Z.of_nat i) in
    (last =? SLASH) || (last =? 0).

Fixpoint skip_slashes (path : list Z) : list Z :=
  match path with
  | c :: rest => if c =? SLASH then skip_slashes rest else path
  | [] => []
  end.

(** The loop over the table, the most recent entry first: [fd], [match_len] and
    [*abs_prefix]. *)
Fixpoint find_loop (es : list preopen) (path : list Z) (f : Z) (match_len : nat) (abs : list Z)
  : Z * nat * list Z :=
  match es with
  | [] => (f, match_len, abs)
  | pre :: es' =>
      let len := length (prefix pre) in
      if ((f =? -1) || (match_len <? len)%nat) && prefix_matches (prefix pre) len path
      then find_loop es' path (fd pre) len (prefix pre)
      else find_loop es' path f match_len abs
  end.

(** The file descriptor, [*abs_prefix] and [*relative_path]. *)
Definition find_abspath (t : table) (path : list Z) : res (Z * list Z * list Z) :=
  let path := skip_slashes path in
  let '(f, match_len, abs) := find_loop (reverse (entries t)) path (-1) 0 [] in
  if f =? -1 then Err ENOENT else
  let computed := skip_slashes (drop match_len path) in
  let computed := match computed with [] => [DOT] | _ => computed end in
  Val (f, abs, computed).

(** *** Start-up *)

(** What the host answers about a file descriptor: an errno, a preopened
    directory with the length of its name and the name (or the errno of asking
    for it), or another kind. *)
Inductive prestat := PErr (errno : Z) | PDir (name_len : Z) (name : res (list Z)) | POther.

(** The string in a buffer that a NUL ends. *)
Fixpoint until_nul (buf : list Z) : list Z :=
  match buf with
  | [] => []
  | c :: rest => if c =? 0 then [] else c :: until_nul rest
  end.

Definition EX_SOFTWARE : Z := 70.
Definition EX_OSERR : Z := 71.

Variable fd_prestat : Z -> prestat.

(** [Err] is the exit status of [_Exit]. *)
Fixpoint populate_preopens (fuel : nat) (f : Z) (t : table) : outcome (res table) :=
  match fuel with
  | O => NoFuel
  | S n =>
      if f =? 0 then Ok (Val t) else
      match fd_prestat f with
      | PErr e => if e =? EBADF then Ok (Val t) else Ok (Err EX_OSERR)
      | POther => populate_preopens n (s32 (f + 1)) t
      | PDir name_len name =>
          if negb (alloc_ok (name_len + 1)) then Ok (Err EX_SOFTWARE) else
          match name with
          | Err _ => Ok (Err EX_OSERR)
          | Val buf =>
              let! ot := internal_register_preopened_fd f (until_nul buf) t in
              match ot with
              | None => Ok (Err EX_SOFTWARE)
              | Some t' => populate_preopens n (s32 (f + 1)) t'
              end
          end
      end
  end.

End WithAlloc.

(** ** Proofs *)

(** [pre] is a prefix of [path] made of complete path components. *)
Definition component_prefix (pre path : list Z) : Prop :=
  pre = [] \/
  exists rest, path = pre ++ rest /\
    (rest = [] \/ head rest = Some SLASH \/ last pre = Some SLASH).

Lemma schar_lookup s i : schar s (Z.of_nat i) = default 0 (s !! i).
Proof. unfold schar. rewrite Nat2Z.id. revert i. induction s; intros [|i]; cbn; auto. Qed.

Lemma trim_slashes_spec pre : forall i,
  let j := trim_slashes pre i in
  (j <= i)%nat /\ (forall k, (j <= k < i)%nat -> schar pre (Z.of_nat k) = SLASH).
Proof.
  induction i as [|i IH]; cbn [trim_slashes]; [split; [lia|intros; lia]|].
  destruct (Z.eqb_spec (schar pre (Z.of_nat i)) SLASH) as [E|E]; [|split; [lia|intros; lia]].
  destruct IH as [Hle Hk]. split; [lia|]. intros k Hk'.
  destruct (decide (k = i)) as [->|]; [done|]. apply Hk. lia.
Qed.

Lemma last_schar pre j : length pre = S j -> last pre = Some (schar pre (Z.of_nat j)).
Proof.
  intros Hl. rewrite schar_lookup, last_lookup, Hl. cbn.
  destruct (pre !! j) eqn:E; [done|]. apply lookup_ge_None in E. lia.
Qed.

Lemma prefix_matches_spec pre path :
  cstring path -> head path <> Some SLASH ->
  prefix_matches pre (length pre) path = true <-> component_prefix pre path.
Proof.
  intros Hp Hh. unfold prefix_matches, component_prefix.
  assert (schar path 0 <> SLASH) as H0.
  { destruct path as [|c path]; [done|]. change (schar (c :: path) 0) with c. cbn in Hh. congruence. }
  destruct (Z.eqb_spec (schar path 0) SLASH); [done|]. cbn [negb andb].
  destruct (Nat.eqb_spec (length pre) 0) as [E|E].
  { apply length_zero_iff_nil in E. split; auto. }
  assert (pre <> []) as Hne by (intros ->; done).
  unfold memcmp_eq. rewrite (take_ge pre) by lia.
  case_bool_decide as Htake; cbn [negb].
  2: { split; [done|]. intros [|(rest & -> & _)]; [done|]. by rewrite take_app_length in Htake. }
  assert (path = pre ++ drop (length pre) path) as Hpath.
  { rewrite <- Htake at 1. by rewrite take_drop. }
  set (rest := drop (length pre) path) in *. clearbody rest. subst path.
  rewrite schar_lookup, orb_true_iff, !Z.eqb_eq.
  destruct (length pre) as [|j] eqn:Hlen; [done|].
  pose proof (last_schar pre j Hlen) as Hlast.
  pose proof (trim_slashes_spec pre (S j)) as [Hle Hsl]. revert Hle Hsl. cbn [trim_slashes].
  destruct (Z.eqb_spec (schar pre (Z.of_nat j)) SLASH) as [Hs|Hs]; intros Hle Hsl.
  - pose proof (trim_slashes_spec pre j) as [Hlt _].
    specialize (Hsl (trim_slashes pre j) ltac:(lia)). rewrite schar_lookup in Hsl.
    rewrite lookup_app_l by lia. split; [|by left].
    intros _. right. exists rest. rewrite Hlast, Hs. auto.
  - rewrite lookup_app_r, Hlen, Nat.sub_diag by lia.
    apply Forall_app in Hp as [_ Hr].
    split; [|intros [|(rest' & Heq & Hor)]; [done|]].
    + intros Hc. right. exists rest. split; [done|]. destruct rest as [|c rest]; [by left|].
      cbn in Hc. destruct Hc as [->|Hc]; [by right; left|]. by apply Forall_cons in Hr as [? _].
    + apply app_inv_head in Heq as <-. destruct rest as [|c rest]; [by right|].
      destruct Hor as [|[Hc|Hl]]; [done|cbn in *; left; congruence|congruence].
Qed.

(** *** The loop *)

(** The first of the longest matching entries of [es], if any matches. *)
Definition best (es : list preopen) (path : list Z) (e : preopen) : Prop :=
  exists l1 l2, es = l1 ++ e :: l2 /\ component_prefix (prefix e) path /\
    (forall e', e' ∈ l1 -> component_prefix (prefix e') path ->
       (length (prefix e') < length (prefix e))%nat) /\
    (forall e', e' ∈ l2 -> component_prefix (prefix e') path ->
       (length (prefix e') <= length (prefix e))%nat).

Definition good_fds (es : list preopen) : Prop := Forall (fun e => fd e <> -1) es.

Section Loop.
Variable path : list Z.
Hypothesis path_ok : cstring path.
Hypothesis path_rel : head path <> Some SLASH.

Lemma best_skip e0 x es e :
  best (e0 :: es) path e -> component_prefix (prefix e0) path ->
  (component_prefix (prefix x) path -> (length (prefix x) <= length (prefix e0))%nat) ->
  best (e0 :: x :: es) path e.
Proof.
  intros (l1 & l2 & Heq & Hme & H1 & H2) H0 Hx. destruct l1 as [|y l1]; injection Heq as -> ->.
  - exists [], (x :: l2). split_and!; try done. intros e' [->|He']%elem_of_cons Hc; eauto.
  - exists (y :: x :: l1), l2. split_and!; try done.
    intros e' [->|[->|He']%elem_of_cons]%elem_of_cons Hc; [apply H1; [left|done]| |apply H1; [by right|done]].
    specialize (H1 y ltac:(left) H0). specialize (Hx Hc). lia.
Qed.

(** With a match [e0] already found, only a longer one replaces it. *)
Lemma find_loop_from e0 es :
  fd e0 <> -1 -> good_fds es -> component_prefix (prefix e0) path ->
  exists e, find_loop es path (fd e0) (length (prefix e0)) (prefix e0)
    = (fd e, length (prefix e), prefix e) /\ best (e0 :: es) path e.
Proof.
  intros H0 Hg. revert e0 H0. induction Hg as [|x es Hx Hg IH]; intros e0 H0 Hm; cbn [find_loop].
  - exists e0. split; [done|]. exists [], []. split_and!; try done; intros e' He'; by apply not_elem_of_nil in He'.
  - destruct (Z.eqb_spec (fd e0) (-1)); [done|]. cbn [orb].
    destruct (Nat.ltb_spec (length (prefix e0)) (length (prefix x))) as [Hlt|Hge]; cbn [andb].
    + destruct (prefix_matches (prefix x) (length (prefix x)) path) eqn:Hpm.
      * apply prefix_matches_spec in Hpm; [|done..].
        destruct (IH x Hx Hpm) as (e & -> & l1 & l2 & Heq & Hme & H1 & H2).
        exists e. split; [done|]. exists (e0 :: l1), l2. rewrite Heq. split_and!; try done.
        intros e' [->|He']%elem_of_cons Hc; [|eauto].
        destruct l1 as [|y l1]; injection Heq as -> ->; [lia|].
        specialize (H1 y ltac:(left) Hpm). lia.
      * destruct (IH e0 H0 Hm) as (e & -> & Hb). exists e. split; [done|]. apply best_skip; try done.
        intros Hc. apply prefix_matches_spec in Hc; [congruence|done..].
    + destruct (IH e0 H0 Hm) as (e & -> & Hb). exists e. split; [done|]. by apply best_skip.
Qed.

Lemma find_loop_spec es : good_fds es ->
  (find_loop es path (-1) 0 [] = (-1, 0%nat, []) /\
     forall e, e ∈ es -> ~ component_prefix (prefix e) path) \/
  (exists e, find_loop es path (-1) 0 [] = (fd e, length (prefix e), prefix e) /\
     fd e <> -1 /\ best es path e).
Proof.
  induction 1 as [|x es Hx Hg IH]; cbn [find_loop].
  - left. split; [done|]. intros e He. by apply not_elem_of_nil in He.
  - cbn [Z.eqb orb andb Pos.eqb].
    destruct (prefix_matches (prefix x) (length (prefix x)) path) eqn:Hpm.
    + apply prefix_matches_spec in Hpm; [|done..]. right.
      destruct (find_loop_from x es Hx Hg Hpm) as (e & -> & Hb). exists e. split_and!; try done.
      destruct Hb as (l1 & l2 & Heq & _).
      assert (e ∈ x :: es) as [->|He]%elem_of_cons by (rewrite Heq; set_solver); [done|].
      eapply Forall_forall in Hg; eauto.
    + assert (~ component_prefix (prefix x) path) as Hno
        by (intros Hc; apply prefix_matches_spec in Hc; [congruence|done..]).
      destruct IH as [[-> Hall]|(e & -> & He & l1 & l2 & -> & Hme & H1 & H2)]; [left|right].
      * split; [done|]. intros e [->|He]%elem_of_cons; auto.
      * exists e. split_and!; try done. exists (x :: l1), l2. split_and!; try done.
        intros e' [->|He']%elem_of_cons Hc; [done|eauto].
Qed.

End Loop.

(** *** The relative path *)

Lemma skip_slashes_split p : exists k, p = replicate k SLASH ++ skip_slashes p.
Proof.
  induction p as [|c p [k IH]]; cbn [skip_slashes]; [by exists 0%nat|].
  destruct (Z.eqb_spec c SLASH) as [->|]; [|by exists 0%nat].
  exists (S k). cbn. by f_equal.
Qed.

Lemma skip_slashes_head p : head (skip_slashes p) <> Some SLASH.
Proof.
  induction p as [|c p IH]; cbn [skip_slashes]; [done|].
  destruct (Z.eqb_spec c SLASH); [done|cbn; congruence].
Qed.

Lemma skip_slashes_cstring p : cstring p -> cstring (skip_slashes p).
Proof.
  intros Hp. destruct (skip_slashes_split p) as [k E]. rewrite E in Hp. by apply Forall_app in Hp as [_ ?].
Qed.

Lemma component_prefix_split pre path : component_prefix pre path ->
  path = pre ++ drop (length pre) path.
Proof. intros [->|(rest & -> & _)]; [done|]. by rewrite drop_app_length. Qed.

(** What resolving a path promises: the directory is the most recent of the
    longest matching entries, the relative path is not absolute and not empty,
    and the two together are the path up to slashes. *)
Definition resolved (t : table) (path : list Z) (f : Z) (abs rel : list Z) : Prop :=
  let p := skip_slashes path in
  exists e, best (reverse (entries t)) p e /\ fd e = f /\ prefix e = abs /\
    rel <> [] /\ head rel <> Some SLASH /\
    exists k, (p = abs ++ replicate k SLASH ++ rel) \/
              (rel = [DOT] /\ p = abs ++ replicate k SLASH).

Lemma find_abspath_spec t path : good_fds (entries t) -> cstring path ->
  match find_abspath t path with
  | Val (f, abs, rel) => resolved t path f abs rel
  | Err e => e = ENOENT /\
      forall x, x ∈ entries t -> ~ component_prefix (prefix x) (skip_slashes path)
  end.
Proof.
  intros Hg Hp. unfold find_abspath. set (p := skip_slashes path).
  assert (cstring p) as Hcp by (by apply skip_slashes_cstring).
  assert (head p <> Some SLASH) as Hhp by apply skip_slashes_head.
  destruct (find_loop_spec p Hcp Hhp (reverse (entries t))) as [[-> Hno]|(e & -> & He & Hb)].
  { by apply Forall_reverse. }
  - rewrite Z.eqb_refl. split; [done|]. intros x Hx. apply Hno. by apply elem_of_reverse.
  - destruct (Z.eqb_spec (fd e) (-1)); [done|].
    pose proof Hb as (l1 & l2 & _ & Hm & _).
    pose proof (component_prefix_split _ _ Hm) as Hsplit.
    destruct (skip_slashes_split (drop (length (prefix e)) p)) as [k Hk].
    pose proof (skip_slashes_head (drop (length (prefix e)) p)) as Hh.
    exists e. fold p.
    destruct (skip_slashes (drop (length (prefix e)) p)) as [|c r] eqn:Er.
    + split_and!; try done. exists k. right. split; [done|].
      rewrite Hsplit at 1. by rewrite Hk, app_nil_r.
    + split_and!; try done. exists k. left. rewrite Hsplit at 1. by rewrite Hk.
Qed.

(** *** The invariant of the table *)

Definition table_inv (t : table) : Prop :=
  0 <= capacity t /\ capacity t * sizeof_preopen < 2 ^ 32 /\
  num_preopens t <= capacity t /\ good_fds (entries t).

Lemma table_inv_asserts t : table_inv t -> assert_invariants t = true.
Proof.
  intros (H0 & Hc & Hn & Hf). unfold assert_invariants. rewrite !andb_true_iff. split_and!.
  - by apply Z.leb_le.
  - unfold sizeof_preopen in *. rewrite u32_id by (bounds; lia).
    destruct (Z.eqb_spec (capacity t) 0); [done|]. cbn. apply Z.ltb_lt. lia.
  - apply forallb_forall. intros e He%list_elem_of_In.
    eapply Forall_forall in Hf; [|exact He]. by destruct (Z.eqb_spec (fd e) (-1)).
Qed.

Section Register.
Variable alloc_ok : Z -> bool.
(** No block is larger than the 32-bit address space. *)
Hypothesis alloc_bound : forall n, alloc_ok n = true -> n < 2 ^ 32.

Lemma resize_spec t : table_inv t -> num_preopens t = capacity t ->
  resize alloc_ok t = Ok None \/
  exists t', resize alloc_ok t = Ok (Some t') /\ table_inv t' /\
    entries t' = entries t /\ num_preopens t' < capacity t'.
Proof.
  intros Hinv Hfull. pose proof Hinv as (H0 & Hc & Hn & Hf). unfold resize, sizeof_preopen in *.
  set (nc := if capacity t =? 0 then 4 else u32 (capacity t * 2)).
  assert (0 <= nc /\ capacity t < nc) as [Hnc0 Hnc].
  { subst nc. case_cmp; [lia|]. rewrite u32_id by (bounds; lia). lia. }
  destruct (alloc_ok (8 * nc)) eqn:Ha; [right|by left]. apply alloc_bound in Ha.
  assert (table_inv (mk_table (entries t) nc)) as Hinv'.
  { unfold table_inv, num_preopens, sizeof_preopen in *. cbn. split_and!; try done; lia. }
  rewrite (table_inv_asserts _ Hinv'). eexists. split; [done|].
  split_and!; try done. unfold num_preopens in *. cbn. lia.
Qed.

Lemma register_spec f name t : table_inv t -> f <> -1 -> f <> AT_FDCWD ->
  internal_register_preopened_fd alloc_ok f name t = Ok None \/
  exists t', internal_register_preopened_fd alloc_ok f name t = Ok (Some t') /\ table_inv t' /\
    entries t' = entries t ++ [mk_preopen (strip_prefixes name) f].
Proof.
  intros Hinv Hf1 Hf2. unfold internal_register_preopened_fd.
  rewrite (table_inv_asserts t Hinv). unfold AT_FDCWD in *.
  destruct (Z.eqb_spec f (-2)), (Z.eqb_spec f (-1)); try done. cbn [negb assert].
  assert (forall t1, table_inv t1 -> entries t1 = entries t -> num_preopens t1 < capacity t1 ->
    table_inv (mk_table (entries t1 ++ [mk_preopen (strip_prefixes name) f]) (capacity t1))) as Hadd.
  { intros t1 (H0 & Hc & Hn & Hg) He Hlt. unfold table_inv, num_preopens in *. cbn.
    rewrite zlen_app, zlen_cons. change (zlen []) with 0. split_and!; try done; [lia|].
    apply Forall_app. split; [done|]. by apply Forall_singleton. }
  pose proof Hinv as (_ & _ & Hle & _).
  destruct (Z.eqb_spec (num_preopens t) (capacity t)) as [E|E].
  - destruct (resize_spec t Hinv E) as [->|(t1 & -> & Hi1 & He1 & Hl1)]; [by left|].
    cbn [obind]. destruct (alloc_ok _); [right|by left].
    specialize (Hadd t1 Hi1 He1 Hl1). rewrite (table_inv_asserts _ Hadd).
    eexists. split; [done|]. split; [exact Hadd|]. cbn. by rewrite He1.
  - cbn [obind]. destruct (alloc_ok _); [right|by left].
    specialize (Hadd t Hinv eq_refl ltac:(lia)). rewrite (table_inv_asserts _ Hadd). eauto.
Qed.

Lemma strip_prefixes_clean p :
  match strip_prefixes p with
  | [] => True
  | [c] => c <> SLASH /\ c <> DOT
  | c :: d :: _ => c <> SLASH /\ ~ (c = DOT /\ d = SLASH)
  end.
Proof.
  induction p as [p IH] using (induction_ltof1 _ (@length Z)). unfold ltof in IH.
  destruct p as [|c p]; cbn [strip_prefixes]; [done|].
  destruct (Z.eqb_spec c SLASH); [apply IH; cbn; lia|].
  destruct (Z.eqb_spec c DOT) as [->|].
  - destruct p as [|d p]; [done|]. destruct (Z.eqb_spec d SLASH); [apply IH; cbn; lia|].
    split; [done|]. naive_solver.
  - destruct p; [done|]. naive_solver.
Qed.

(** The directories the host reports from [f] up to the first invalid file
    descriptor, in order. *)
Variable fd_prestat : Z -> prestat.

Fixpoint preopened (n : nat) (f : Z) : list preopen :=
  match n with
  | O => []
  | S n' =>
      match fd_prestat f with
      | PDir _ (Val name) => mk_preopen (strip_prefixes (until_nul name)) f :: preopened n' (f + 1)
      | _ => preopened n' (f + 1)
      end
  end.

Lemma populate_spec n : forall f t,
  3 <= f -> f + Z.of_nat n < 2 ^ 31 -> table_inv t ->
  fd_prestat (f + Z.of_nat n) = PErr EBADF ->
  (forall g, f <= g < f + Z.of_nat n -> match fd_prestat g with PErr _ | PDir _ (Err _) => False | _ => True end) ->
  populate_preopens alloc_ok fd_prestat (S n) f t = Ok (Err EX_SOFTWARE) \/
  exists t', populate_preopens alloc_ok fd_prestat (S n) f t = Ok (Val t') /\ table_inv t' /\
    entries t' = entries t ++ preopened n f.
Proof.
  induction n as [|n IH]; intros f t Hf Hmax Hinv Hend Hall.
  - replace (f + Z.of_nat 0) with f in * by lia. right. exists t.
    cbn [populate_preopens preopened]. destruct (Z.eqb_spec f 0); [lia|]. rewrite Hend.
    by rewrite app_nil_r.
  - assert (s32 (f + 1) = f + 1) as Hs by (apply s32_id; bounds; lia).
    remember (S n) as m. cbn [populate_preopens]. subst m.
    destruct (Z.eqb_spec f 0); [lia|].
    pose proof (Hall f ltac:(lia)) as Hhere.
    assert (forall t1, table_inv t1 ->
      populate_preopens alloc_ok fd_prestat (S n) (f + 1) t1 = Ok (Err EX_SOFTWARE) \/
      exists t', populate_preopens alloc_ok fd_prestat (S n) (f + 1) t1 = Ok (Val t') /\ table_inv t' /\
        entries t' = entries t1 ++ preopened n (f + 1)) as Hrec.
    { intros t1 Hi. apply IH; [lia|lia|done| |].
      - by replace (f + 1 + Z.of_nat n) with (f + Z.of_nat (S n)) by lia.
      - intros g Hg. apply Hall. lia. }
    cbn [preopened].
    destruct (fd_prestat f) as [e|nl [name|e]|]; try done; rewrite Hs; [|by apply Hrec].
    destruct (alloc_ok (nl + 1)); [|by left]. cbn [negb].
    destruct (register_spec f (until_nul name) t Hinv) as [->|(t1 & -> & Hi1 & He1)];
      [lia|unfold AT_FDCWD; lia|by left|]. cbn [obind].
    destruct (Hrec t1 Hi1) as [->|(t' & -> & Hi' & He')]; [by left|right].
    exists t'. split_and!; try done. rewrite He', He1, <- app_assoc. done.
Qed.

End Register.

(** ** Theorems *)

(** C7: resolving an absolute path finds the most recently registered of the
    preopened directories with the longest prefix that consists of whole path
    components, and a relative path that is neither absolute nor empty and
    completes that prefix; it fails with [ENOENT] exactly when no preopened
    directory contains the path. *)
Theorem find_abspath_longest_prefix t path :
  table_inv t -> cstring path ->
  match find_abspath t path with
  | Val (f, abs, rel) => resolved t path f abs rel /\ f <> -1
  | Err e => e = ENOENT /\
      forall x, x ∈ entries t -> ~ component_prefix (prefix x) (skip_slashes path)
  end.
Proof.
  intros (_ & _ & _ & Hg) Hp. pose proof (find_abspath_spec t path Hg Hp) as Hs.
  destruct (find_abspath t path) as [[[f abs] rel]|e]; [|done]. split; [done|].
  destruct Hs as (e & (l1 & l2 & Heq & _) & <- & _).
  assert (e ∈ entries t) as He by (apply elem_of_reverse; rewrite Heq; set_solver).
  by eapply Forall_forall in Hg.
Qed.

(** "a" and "a/b" are preopened; "/a/b/c" belongs to the second one, "/a/bc" to
    the first one. *)
Definition demo_table : table :=
  mk_table [mk_preopen [97] 3; mk_preopen [97; 47; 98] 4] 4.

Example demo_resolve :
  find_abspath demo_table [47; 97; 47; 98; 47; 99] = Val (4, [97; 47; 98], [99]) /\
  find_abspath demo_table [47; 97; 47; 98; 99] = Val (3, [97], [98; 99]) /\
  find_abspath demo_table [47; 97; 47] = Val (3, [97], [46]) /\
  find_abspath demo_table [120] = Err ENOENT.
Proof. split_and!; reflexivity. Qed.

Lemma demo_table_inv : table_inv demo_table.
Proof. split_and!; try (by vm_compute). repeat constructor; by vm_compute. Qed.

Lemma find_abspath_longest_prefix_witness :
  resolved demo_table [47; 97; 47; 98; 47; 99] 4 [97; 47; 98] [99].
Proof.
  apply (find_abspath_longest_prefix demo_table [47; 97; 47; 98; 47; 99]).
  - apply demo_table_inv.
  - by repeat constructor.
Defined.

(** Start-up registers exactly the directories the host reports from file
    descriptor 3 up to the first invalid one, in order and with their leading
    "/" and "./" removed, keeping every assertion of the table true; the only
    other result is the exit with [EX_SOFTWARE] when memory runs out. *)
Theorem populate_registers_preopens alloc_ok fd_prestat n :
  (forall k, alloc_ok k = true -> k < 2 ^ 32) ->
  3 + Z.of_nat n < 2 ^ 31 -> fd_prestat (3 + Z.of_nat n) = PErr EBADF ->
  (forall g, 3 <= g < 3 + Z.of_nat n ->
     match fd_prestat g with PErr _ | PDir _ (Err _) => False | _ => True end) ->
  populate_preopens alloc_ok fd_prestat (S n) 3 empty_table = Ok (Err EX_SOFTWARE) \/
  exists t, populate_preopens alloc_ok fd_prestat (S n) 3 empty_table = Ok (Val t) /\
    table_inv t /\ entries t = preopened fd_prestat n 3.
Proof.
  intros Ha Hn He Hall. apply (populate_spec alloc_ok Ha fd_prestat n 3 empty_table); try done.
  unfold table_inv. cbn. split_and!; try done. constructor.
Qed.

Definition demo_prestat (f : Z) : prestat :=
  if f =? 3 then PDir 2 (Val [47; 97]) else if f =? 4 then POther
  else if f =? 5 then PDir 1 (Val [46]) else PErr EBADF.

Lemma populate_registers_preopens_witness :
  exists t, populate_preopens (fun n => n <? 1000) demo_prestat 4 3 empty_table = Ok (Val t) /\
    entries t = [mk_preopen [97] 3; mk_preopen [] 5].
Proof.
  destruct (populate_registers_preopens (fun n => n <? 1000) demo_prestat 3) as [H|(t & Ht & _ & He)].
  - intros k Hk%Z.ltb_lt. bounds. lia.
  - bounds. lia.
  - reflexivity.
  - intros g Hg. assert (g = 3 \/ g = 4 \/ g = 5) as [-> | [-> | ->]] by lia; exact I.
  - discriminate H.
  - exists t. split; [exact Ht|exact He].
Defined.

End Preopens.
