(* ===== verification/Posix.v ===== *)
(** The POSIX path functions of wasi-libc (libc-bottom-half/sources/posix.c,
    at_fdcwd.c, chdir.c, getcwd.c): each resolves its path arguments with the
    preopen table and the current directory and calls an [*at] function with a
    directory descriptor and a relative path.

    [has_chdir] says whether chdir.c is linked into the program, which posix.c
    tests with a weak symbol; [alloc_ok n] whether an allocation of [n] bytes
    succeeds; [host] is what the [__wasilibc_nocwd_*at] layer answers to a call
    after the calls made so far. *)

From S2P Require Import Prelude Preopens.

Module Posix.
Import Preopens.

Definition AT_SYMLINK_NOFOLLOW : Z := 1.
Definition S_IFMT : Z := 61440.
Definition S_IFDIR : Z := 16384.
Definition S_ISDIR (m : Z) : bool := Z.land m S_IFMT =? S_IFDIR.

Record timespec := mk_timespec { tv_sec : Z; tv_nsec : Z }.

(** The calls into the [__wasilibc_nocwd_*at] layer. *)
Inductive at_call :=
| OpenatNomode (dirfd : Z) (path : list Z) (oflag : Z)
| Faccessat (dirfd : Z) (path : list Z) (amode flags : Z)
| Readlinkat (dirfd : Z) (path : list Z) (buf bufsize : Z)
| Fstatat (dirfd : Z) (path : list Z) (buf flags : Z)
| Utimensat (dirfd : Z) (path : list Z) (times : option (timespec * timespec)) (flags : Z)
| Unlinkat (dirfd : Z) (path : list Z)
| Rmdirat (dirfd : Z) (path : list Z)
| MkdiratNomode (dirfd : Z) (path : list Z)
| Opendirat (dirfd : Z) (path : list Z)
| Scandirat (dirfd : Z) (path : list Z) (namelist filter compar : Z)
| Symlinkat (target : list Z) (dirfd : Z) (path : list Z)
| Linkat (olddirfd : Z) (oldpath : list Z) (newdirfd : Z) (newpath : list Z) (flags : Z)
| Renameat (olddirfd : Z) (oldpath : list Z) (newdirfd : Z) (newpath : list Z).

(** The result, the errno it sets if any, and [st_mode] for [Fstatat]. *)
Record answer := mk_answer { a_ret : Z; a_errno : option Z; a_mode : Z }.

(** A static [char *relative_buf] with its [relative_buf_len].  Without chdir.c
    it points into the caller's path; with it, to a heap block, whose identity
    [sgen] changes with every [realloc]. *)
Inductive cptr := PNull | PCaller (s : list Z) | PHeap (s : list Z).
Record svar := mk_svar { sptr : cptr; slen : Z; sgen : nat }.

(** The static variables of [find_relpath], [find_relpath_alt] and [chdir]. *)
Inductive static := RelBuf | AltBuf | ChdirBuf.

#[global] Instance static_eq_dec : EqDecision static.
Proof. solve_decision. Defined.

(** A copy of such a pointer. *)
Inductive relptr := RNull | RCaller (s : list Z) | RStatic (w : static) (g : nat).

Record process := mk_process {
  preopens : table;
  cwd : list Z;
  cwd_mallocd : bool;
  make_absolute_len : Z;
  rel_buf : svar;
  alt_buf : svar;
  chdir_buf : svar;
  errno : Z;
  log : list at_call }.

Definition set_errno (e : Z) (s : process) : process :=
  mk_process (preopens s) (cwd s) (cwd_mallocd s) (make_absolute_len s) (rel_buf s) (alt_buf s)
    (chdir_buf s) e (log s).
Definition set_cwd (c : list Z) (s : process) : process :=
  mk_process (preopens s) c true (make_absolute_len s) (rel_buf s) (alt_buf s)
    (chdir_buf s) (errno s) (log s).
Definition set_make_absolute_len (n : Z) (s : process) : process :=
  mk_process (preopens s) (cwd s) (cwd_mallocd s) n (rel_buf s) (alt_buf s)
    (chdir_buf s) (errno s) (log s).
Definition static_of (w : static) (s : process) : svar :=
  match w with RelBuf => rel_buf s | AltBuf => alt_buf s | ChdirBuf => chdir_buf s end.
Definition set_static (w : static) (v : svar) (s : process) : process :=
  match w with
  | RelBuf => mk_process (preopens s) (cwd s) (cwd_mallocd s) (make_absolute_len s) v (alt_buf s)
                (chdir_buf s) (errno s) (log s)
  | AltBuf => mk_process (preopens s) (cwd s) (cwd_mallocd s) (make_absolute_len s) (rel_buf s) v
                (chdir_buf s) (errno s) (log s)
  | ChdirBuf => mk_process (preopens s) (cwd s) (cwd_mallocd s) (make_absolute_len s) (rel_buf s)
                (alt_buf s) v (errno s) (log s)
  end.
Definition add_call (c : at_call) (e : option Z) (s : process) : process :=
  mk_process (preopens s) (cwd s) (cwd_mallocd s) (make_absolute_len s) (rel_buf s) (alt_buf s)
    (chdir_buf s) (default (errno s) e) (log s ++ [c]).

Definition null_svar : svar := mk_svar PNull 0 0.
Definition initial (t : table) : process :=
  mk_process t [SLASH] false 0 null_svar null_svar null_svar 0 [].

Section Ops.
Variable has_chdir : bool.
Variable alloc_ok : Z -> bool.
Variable host : list at_call -> at_call -> answer.

Definition call (c : at_call) : M process answer :=
  fun s => let a := host (log s) c in Ok (a, add_call c (a_errno a) s).

(** A function that fails: sets errno and returns -1. *)
Definition fail (e : Z) : M process Z := do* sput (set_errno e) in sret (-1).

(** [strcpy] into the block [v] points to. *)
Definition strcpy (v : svar) (str : list Z) : M process svar :=
  match sptr v with
  | PHeap _ => if zlen str + 1 <=? slen v then sret (mk_svar (PHeap str) (slen v) (sgen v)) else sfail
  | _ => sfail
  end.

(** *** chdir.c *)

(** [None] is a null pointer. *)
Definition make_absolute (path : list Z) : M process (option (list Z)) :=
  if schar path 0 =? SLASH then sret (Some path) else
  let* c := sget cwd in
  if (schar path 0 =? 0) || bool_decide (path = [DOT]) || bool_decide (path = [DOT; SLASH])
  then sret (Some c) else
  let path := if (schar path 0 =? DOT) && (schar path 1 =? SLASH) then drop 2 path else path in
  let need_slash := if schar c (u32 (zlen c - 1)) =? SLASH then 0 else 1 in
  let alloc_len := u32 (zlen c + zlen path + 1 + need_slash) in
  let* len := sget make_absolute_len in
  let result := c ++ (if need_slash =? 1 then [SLASH] else []) ++ path in
  if len <? alloc_len then
    if alloc_ok alloc_len then
      do* sput (set_make_absolute_len alloc_len) in
      if zlen result + 1 <=? alloc_len then sret (Some result) else sfail
    else sret None
  else if zlen result + 1 <=? len then sret (Some result) else sfail.

(** The file descriptor or -1, [*abs_prefix], and the variable the pointers
    [relative_buf] and [relative_buf_len] designate. *)
Definition find_relpath_alloc (path : list Z) (v : svar) (can_realloc : bool)
  : M process (Z * list Z * svar) :=
  let* abspath := make_absolute path in
  match abspath with
  | None => let* r := fail ENOMEM in sret (r, [], v)
  | Some abspath =>
      let* t := sget preopens in
      match find_abspath t abspath with
      | Err e => let* r := fail e in sret (r, [], v)
      | Val (f, abs, rel) =>
          let rel_len := zlen rel in
          if slen v <? u32 (rel_len + 1) then
            if negb can_realloc then let* r := fail ERANGE in sret (r, abs, v) else
            if alloc_ok (u32 (rel_len + 1)) then
              let* v' := strcpy (mk_svar (PHeap []) (u32 (rel_len + 1)) (S (sgen v))) rel in
              sret (f, abs, v')
            else let* r := fail ENOMEM in sret (r, abs, v)
          else let* v' := strcpy v rel in sret (f, abs, v')
      end
  end.

(** [__wasilibc_find_abspath] storing the pointer it computes in [v]. *)
Definition find_abspath_into (path : list Z) (v : svar) : M process (Z * list Z * svar) :=
  let* t := sget preopens in
  match find_abspath t path with
  | Err e => let* r := fail e in sret (r, [], v)
  | Val (f, abs, rel) => sret (f, abs, mk_svar (PCaller rel) (slen v) (sgen v))
  end.

(** [__wasilibc_find_relpath] of preopens.c. *)
Definition wasilibc_find_relpath (path : list Z) (v : svar) : M process (Z * list Z * svar) :=
  if has_chdir then find_relpath_alloc path v false else find_abspath_into path v.

(** *** posix.c *)

Definition find_relpath2 (path : list Z) (v : svar) : M process (Z * svar) :=
  let* r := (if has_chdir then find_relpath_alloc path v true else wasilibc_find_relpath path v) in
  let '(f, _, v') := r in sret (f, v').

Definition copy_ptr (w : static) (v : svar) : relptr :=
  match sptr v with
  | PNull => RNull
  | PCaller s => RCaller s
  | PHeap _ => RStatic w (sgen v)
  end.

Definition find_relpath_in (w : static) (path : list Z) : M process (Z * relptr) :=
  let* v := sget (static_of w) in
  let* r := find_relpath2 path v in
  let '(f, v') := r in
  do* sput (set_static w v') in
  sret (f, copy_ptr w v').

Definition find_relpath (path : list Z) : M process (Z * relptr) := find_relpath_in RelBuf path.
Definition find_relpath_alt (path : list Z) : M process (Z * relptr) := find_relpath_in AltBuf path.

(** The string a copied pointer designates when it is used. *)
Definition read_rel (r : relptr) : M process (list Z) :=
  match r with
  | RNull => sfail
  | RCaller s => sret s
  | RStatic w g =>
      let* v := sget (static_of w) in
      match sptr v with
      | PHeap s => if (g =? sgen v)%nat then sret s else sfail
      | _ => sfail
      end
  end.

Definition open_nomode (path : list Z) (oflag : Z) : M process Z :=
  let* r := find_relpath path in
  let '(dirfd, relative_path) := r in
  if dirfd =? -1 then fail ENOTCAPABLE else
  let* rel := read_rel relative_path in
  let* a := call (OpenatNomode dirfd rel oflag) in sret (a_ret a).

Definition open (path : list Z) (oflag : Z) : M process Z := open_nomode path oflag.

Definition access (path : list Z) (amode : Z) : M process Z :=
  let* r := find_relpath path in
  let '(dirfd, relative_path) := r in
  if dirfd =? -1 then fail ENOTCAPABLE else
  let* rel := read_rel relative_path in
  let* a := call (Faccessat dirfd rel amode 0) in sret (a_ret a).

Definition readlink (path : list Z) (buf bufsize : Z) : M process Z :=
  let* r := find_relpath path in
  let '(dirfd, relative_path) := r in
  if dirfd =? -1 then fail ENOTCAPABLE else
  let* rel := read_rel relative_path in
  let* a := call (Readlinkat dirfd rel buf bufsize) in sret (a_ret a).

Definition stat (path : list Z) (buf : Z) : M process Z :=
  let* r := find_relpath path in
  let '(dirfd, relative_path) := r in
  if dirfd =? -1 then fail ENOTCAPABLE else
  let* rel := read_rel relative_path in
  let* a := call (Fstatat dirfd rel buf 0) in sret (a_ret a).

Definition lstat (path : list Z) (buf : Z) : M process Z :=
  let* r := find_relpath path in
  let '(dirfd, relative_path) := r in
  if dirfd =? -1 then fail ENOTCAPABLE else
  let* rel := read_rel relative_path in
  let* a := call (Fstatat dirfd rel buf AT_SYMLINK_NOFOLLOW) in sret (a_ret a).

(** [times]: [actime] and [modtime]. *)
Definition utime (path : list Z) (times : option (Z * Z)) : M process Z :=
  let* r := find_relpath path in
  let '(dirfd, relative_path) := r in
  if dirfd =? -1 then fail ENOTCAPABLE else
  let* rel := read_rel relative_path in
  let ts := match times with
            | Some (actime, modtime) => Some (mk_timespec actime 0, mk_timespec modtime 0)
            | None => None
            end in
  let* a := call (Utimensat dirfd rel ts 0) in sret (a_ret a).

(** [tv_usec * 1000] is computed in 64 bits and stored in the 32-bit [tv_nsec];
    a signed overflow of the product is undefined. *)
Definition usec_to_nsec (usec : Z) : outcome Z :=
  let x := usec * 1000 in
  if (LLONG_MIN <=? x) && (x <=? LLONG_MAX) then Ok (s32 x) else UB.

Definition of_timeval (tv : Z * Z) : M process timespec :=
  fun s => let! n := usec_to_nsec (snd tv) in Ok (mk_timespec (fst tv) n, s).

Definition utimes (path : list Z) (times : option ((Z * Z) * (Z * Z))) : M process Z :=
  let* r := find_relpath path in
  let '(dirfd, relative_path) := r in
  if dirfd =? -1 then fail ENOTCAPABLE else
  let* rel := read_rel relative_path in
  let* ts := match times with
             | Some (t0, t1) => let* x := of_timeval t0 in let* y := of_timeval t1 in sret (Some (x, y))
             | None => sret None
             end in
  let* a := call (Utimensat dirfd rel ts 0) in sret (a_ret a).

Definition unlink (path : list Z) : M process Z :=
  let* r := find_relpath path in
  let '(dirfd, relative_path) := r in
  if dirfd =? -1 then fail ENOTCAPABLE else
  let* rel := read_rel relative_path in
  let* a := call (Unlinkat dirfd rel) in sret (a_ret a).

Definition rmdir (path : list Z) : M process Z :=
  let* r := find_relpath path in
  let '(dirfd, relative_path) := r in
  if dirfd =? -1 then fail ENOTCAPABLE else
  let* rel := read_rel relative_path in
  let* a := call (Rmdirat dirfd rel) in sret (a_ret a).

Definition remove (path : list Z) : M process Z :=
  let* r := find_relpath path in
  let '(dirfd, relative_path) := r in
  if dirfd =? -1 then fail ENOTCAPABLE else
  let* rel := read_rel relative_path in
  let* a := call (Unlinkat dirfd rel) in
  let* e := sget errno in
  if ctrue (a_ret a) && ((e =? EISDIR) || (e =? ENOTCAPABLE)) then
    let* rel := read_rel relative_path in
    let* b := call (Rmdirat dirfd rel) in
    let* e := sget errno in
    do* (if e =? ENOTDIR then sput (set_errno ENOTCAPABLE) else sret tt) in
    sret (a_ret b)
  else sret (a_ret a).

Definition mkdir (path : list Z) (mode : Z) : M process Z :=
  let* r := find_relpath path in
  let '(dirfd, relative_path) := r in
  if dirfd =? -1 then fail ENOTCAPABLE else
  let* rel := read_rel relative_path in
  let* a := call (MkdiratNomode dirfd rel) in sret (a_ret a).

(** The result is the [DIR] pointer; 0 is [NULL]. *)
Definition opendir (dirname : list Z) : M process Z :=
  let* r := find_relpath dirname in
  let '(dirfd, relative_path) := r in
  if dirfd =? -1 then do* sput (set_errno ENOTCAPABLE) in sret 0 else
  let* rel := read_rel relative_path in
  let* a := call (Opendirat dirfd rel) in sret (a_ret a).

Definition scandir (dir : list Z) (namelist filter compar : Z) : M process Z :=
  let* r := find_relpath dir in
  let '(dirfd, relative_path) := r in
  if dirfd =? -1 then fail ENOTCAPABLE else
  let* rel := read_rel relative_path in
  let* a := call (Scandirat dirfd rel namelist filter compar) in sret (a_ret a).

Definition symlink (target linkpath : list Z) : M process Z :=
  let* r := find_relpath linkpath in
  let '(dirfd, relative_path) := r in
  if dirfd =? -1 then fail ENOTCAPABLE else
  let* rel := read_rel relative_path in
  let* a := call (Symlinkat target dirfd rel) in sret (a_ret a).

Definition link (old new : list Z) : M process Z :=
  let* r := find_relpath_alt old in
  let '(old_dirfd, old_relative_path) := r in
  if negb (old_dirfd =? -1) then
    let* r := find_relpath new in
    let '(new_dirfd, new_relative_path) := r in
    if negb (new_dirfd =? -1) then
      let* o := read_rel old_relative_path in
      let* n := read_rel new_relative_path in
      let* a := call (Linkat old_dirfd o new_dirfd n 0) in sret (a_ret a)
    else fail ENOTCAPABLE
  else fail ENOTCAPABLE.

Definition rename (old new : list Z) : M process Z :=
  let* r := find_relpath_alt old in
  let '(old_dirfd, old_relative_path) := r in
  if negb (old_dirfd =? -1) then
    let* r := find_relpath new in
    let '(new_dirfd, new_relative_path) := r in
    if negb (new_dirfd =? -1) then
      let* o := read_rel old_relative_path in
      let* n := read_rel new_relative_path in
      let* a := call (Renameat old_dirfd o new_dirfd n) in sret (a_ret a)
    else fail ENOTCAPABLE
  else fail ENOTCAPABLE.

Definition wasilibc_access (path : list Z) (mode flags : Z) : M process Z :=
  let* r := find_relpath path in
  let '(dirfd, relative_path) := r in
  if dirfd =? -1 then fail ENOTCAPABLE else
  let* rel := read_rel relative_path in
  let* a := call (Faccessat dirfd rel mode flags) in sret (a_ret a).

Definition wasilibc_utimens (path : list Z) (times : option (timespec * timespec)) (flags : Z)
  : M process Z :=
  let* r := find_relpath path in
  let '(dirfd, relative_path) := r in
  if dirfd =? -1 then fail ENOTCAPABLE else
  let* rel := read_rel relative_path in
  let* a := call (Utimensat dirfd rel times flags) in sret (a_ret a).

(** The whole answer, for [chdir], which reads [st_mode]. *)
Definition wasilibc_stat (path : list Z) (st flags : Z) : M process (Z * Z) :=
  let* r := find_relpath path in
  let '(dirfd, relative_path) := r in
  if dirfd =? -1 then let* r := fail ENOTCAPABLE in sret (r, 0) else
  let* rel := read_rel relative_path in
  let* a := call (Fstatat dirfd rel st flags) in sret (a_ret a, a_mode a).

Definition wasilibc_link (oldpath newpath : list Z) (flags : Z) : M process Z :=
  let* r := find_relpath oldpath in
  let '(old_dirfd, old_relative_path) := r in
  let* r := find_relpath newpath in
  let '(new_dirfd, new_relative_path) := r in
  if (old_dirfd =? -1) || (new_dirfd =? -1) then fail ENOTCAPABLE else
  let* o := read_rel old_relative_path in
  let* n := read_rel new_relative_path in
  let* a := call (Linkat old_dirfd o new_dirfd n flags) in sret (a_ret a).

Definition wasilibc_link_oldat (olddirfd : Z) (oldpath newpath : list Z) (flags : Z) : M process Z :=
  let* r := find_relpath newpath in
  let '(new_dirfd, new_relative_path) := r in
  if new_dirfd =? -1 then fail ENOTCAPABLE else
  let* n := read_rel new_relative_path in
  let* a := call (Linkat olddirfd oldpath new_dirfd n flags) in sret (a_ret a).

Definition wasilibc_link_newat (oldpath : list Z) (newdirfd : Z) (newpath : list Z) (flags : Z)
  : M process Z :=
  let* r := find_relpath oldpath in
  let '(old_dirfd, old_relative_path) := r in
  if old_dirfd =? -1 then fail ENOTCAPABLE else
  let* o := read_rel old_relative_path in
  let* a := call (Linkat old_dirfd o newdirfd newpath flags) in sret (a_ret a).

Definition wasilibc_rename_oldat (fromdirfd : Z) (from to : list Z) : M process Z :=
  let* r := find_relpath to in
  let '(to_dirfd, to_relative_path) := r in
  if to_dirfd =? -1 then fail ENOTCAPABLE else
  let* n := read_rel to_relative_path in
  let* a := call (Renameat fromdirfd from to_dirfd n) in sret (a_ret a).

Definition wasilibc_rename_newat (from : list Z) (todirfd : Z) (to : list Z) : M process Z :=
  let* r := find_relpath from in
  let '(from_dirfd, from_relative_path) := r in
  if from_dirfd =? -1 then fail ENOTCAPABLE else
  let* o := read_rel from_relative_path in
  let* a := call (Renameat from_dirfd o todirfd to) in sret (a_ret a).

(** *** at_fdcwd.c *)

(** [dirfd == AT_FDCWD || path[0] == '/'] *)
Definition cwd_or_abs (dirfd : Z) (path : list Z) : bool :=
  (dirfd =? AT_FDCWD) || (schar path 0 =? SLASH).

Definition openat (dirfd : Z) (pathname : list Z) (flags : Z) : M process Z :=
  if cwd_or_abs dirfd pathname then open pathname flags
  else let* a := call (OpenatNomode dirfd pathname flags) in sret (a_ret a).

Definition symlinkat (target : list Z) (dirfd : Z) (linkpath : list Z) : M process Z :=
  if cwd_or_abs dirfd linkpath then symlink target linkpath
  else let* a := call (Symlinkat target dirfd linkpath) in sret (a_ret a).

Definition readlinkat (dirfd : Z) (pathname : list Z) (buf bufsiz : Z) : M process Z :=
  if cwd_or_abs dirfd pathname then readlink pathname buf bufsiz
  else let* a := call (Readlinkat dirfd pathname buf bufsiz) in sret (a_ret a).

Definition mkdirat (dirfd : Z) (pathname : list Z) (mode : Z) : M process Z :=
  if cwd_or_abs dirfd pathname then mkdir pathname mode
  else let* a := call (MkdiratNomode dirfd pathname) in sret (a_ret a).

Definition opendirat (dirfd : Z) (path : list Z) : M process Z :=
  if cwd_or_abs dirfd path then opendir path
  else let* a := call (Opendirat dirfd path) in sret (a_ret a).

Definition scandirat (dirfd : Z) (dirp : list Z) (namelist filter compar : Z) : M process Z :=
  if cwd_or_abs dirfd dirp then scandir dirp namelist filter compar
  else let* a := call (Scandirat dirfd dirp namelist filter compar) in sret (a_ret a).

Definition faccessat (dirfd : Z) (pathname : list Z) (mode flags : Z) : M process Z :=
  if cwd_or_abs dirfd pathname then wasilibc_access pathname mode flags
  else let* a := call (Faccessat dirfd pathname mode flags) in sret (a_ret a).

Definition fstatat (dirfd : Z) (pathname : list Z) (statbuf flags : Z) : M process (Z * Z) :=
  if cwd_or_abs dirfd pathname then wasilibc_stat pathname statbuf flags
  else let* a := call (Fstatat dirfd pathname statbuf flags) in sret (a_ret a, a_mode a).

Definition utimensat (dirfd : Z) (pathname : list Z) (times : option (timespec * timespec))
    (flags : Z) : M process Z :=
  if cwd_or_abs dirfd pathname then wasilibc_utimens pathname times flags
  else let* a := call (Utimensat dirfd pathname times flags) in sret (a_ret a).

Definition linkat (olddirfd : Z) (oldpath : list Z) (newdirfd : Z) (newpath : list Z) (flags : Z)
  : M process Z :=
  if cwd_or_abs olddirfd oldpath && cwd_or_abs newdirfd newpath
  then wasilibc_link oldpath newpath flags
  else if cwd_or_abs olddirfd oldpath then wasilibc_link_newat oldpath newdirfd newpath flags
  else if cwd_or_abs newdirfd newpath then wasilibc_link_oldat olddirfd oldpath newpath flags
  else let* a := call (Linkat olddirfd oldpath newdirfd newpath flags) in sret (a_ret a).

Definition renameat (olddirfd : Z) (oldpath : list Z) (newdirfd : Z) (newpath : list Z)
  : M process Z :=
  if cwd_or_abs olddirfd oldpath && cwd_or_abs newdirfd newpath then rename oldpath newpath
  else if cwd_or_abs olddirfd oldpath then wasilibc_rename_newat oldpath newdirfd newpath
  else if cwd_or_abs newdirfd newpath then wasilibc_rename_oldat olddirfd oldpath newpath
  else let* a := call (Renameat olddirfd oldpath newdirfd newpath) in sret (a_ret a).

Definition wasilibc_unlinkat (dirfd : Z) (path : list Z) : M process Z :=
  if cwd_or_abs dirfd path then unlink path
  else let* a := call (Unlinkat dirfd path) in sret (a_ret a).

Definition wasilibc_rmdirat (dirfd : Z) (path : list Z) : M process Z :=
  if cwd_or_abs dirfd path then rmdir path
  else let* a := call (Rmdirat dirfd path) in sret (a_ret a).

(** *** chdir and getcwd *)

(** [dirinfo]: the address of the local [struct stat]. *)
Definition chdir (dirinfo : Z) (path : list Z) : M process Z :=
  let* v := sget chdir_buf in
  let* r := find_relpath_alloc path v true in
  let '(parent_fd, abs, v') := r in
  do* sput (set_static ChdirBuf v') in
  if parent_fd =? -1 then sret (-1) else
  let* relative_buf := read_rel (copy_ptr ChdirBuf v') in
  let* r := fstatat parent_fd relative_buf dirinfo 0 in
  let '(ret, st_mode) := r in
  if ret =? -1 then sret (-1) else
  if negb (S_ISDIR st_mode) then fail ENOTDIR else
  let copy_relative := negb (bool_decide (relative_buf = [DOT])) in
  let mid := copy_relative && negb (schar abs 0 =? 0) in
  let size := u32 (1 + zlen abs + cbool mid + (if copy_relative then zlen relative_buf else 0) + 1) in
  if alloc_ok size then
    let new_cwd := [SLASH] ++ abs ++ (if mid then [SLASH] else []) ++
                   (if copy_relative then relative_buf else []) in
    if zlen new_cwd + 1 <=? size then do* sput (set_cwd new_cwd) in sret 0 else sfail
  else fail ENOMEM.

(** [getcwd(buf, size)]: [None] for a null [buf].  The result is [None] for
    [NULL], or the string in the buffer. *)
Definition getcwd (size : option Z) : M process (option (list Z)) :=
  let* c := sget cwd in
  match size with
  | None => if alloc_ok (zlen c + 1) then sret (Some c)
            else do* sput (set_errno ENOMEM) in sret None
  | Some n => if n <? u32 (zlen c + 1) then do* sput (set_errno ERANGE) in sret None
              else sret (Some c)
  end.

(** ** Specification

    What the functions promise: the path is taken relative to the current
    directory, the longest preopened prefix gives the directory, and one [*at]
    call is made on it. *)

Definition absolute (c path : list Z) : list Z :=
  if bool_decide (head path = Some SLASH) then path
  else if bool_decide (path = [] \/ path = [DOT] \/ path = [DOT; SLASH]) then c
  else c ++ (if bool_decide (last c = Some SLASH) then [] else [SLASH]) ++
       (if bool_decide (take 2 path = [DOT; SLASH]) then drop 2 path else path).

(** What of a process the callers can observe. *)
Record view := mk_view { v_table : table; v_cwd : list Z; v_errno : Z; v_log : list at_call }.
Definition view_of (s : process) : view := mk_view (preopens s) (cwd s) (errno s) (log s).
Definition v_fail (v : view) : view := mk_view (v_table v) (v_cwd v) ENOTCAPABLE (v_log v).

(** The directory and the relative path a path designates. *)
Definition resolve (v : view) (path : list Z) : option (Z * list Z) :=
  match find_abspath (v_table v) (if has_chdir then absolute (v_cwd v) path else path) with
  | Val (f, _, rel) => Some (f, rel)
  | Err _ => None
  end.

(** The same for a path of an [*at] function. *)
Definition resolve_at (v : view) (dirfd : Z) (path : list Z) : option (Z * list Z) :=
  if cwd_or_abs dirfd path then resolve v path else Some (dirfd, path).

Definition v_call (c : at_call) (v : view) : Z * view :=
  let a := host (v_log v) c in
  (a_ret a, mk_view (v_table v) (v_cwd v) (default (v_errno v) (a_errno a)) (v_log v ++ [c])).

Inductive op :=
| OOpen (path : list Z) (oflag : Z) | OAccess (path : list Z) (amode : Z)
| OReadlink (path : list Z) (buf bufsize : Z) | OStat (path : list Z) (buf : Z)
| OLstat (path : list Z) (buf : Z) | OUtime (path : list Z) (times : option (Z * Z))
| OUtimes (path : list Z) (times : option ((Z * Z) * (Z * Z)))
| OUnlink (path : list Z) | ORmdir (path : list Z) | ORemove (path : list Z)
| OMkdir (path : list Z) (mode : Z) | OOpendir (path : list Z)
| OScandir (path : list Z) (namelist filter compar : Z)
| OSymlink (target linkpath : list Z) | OLink (old new : list Z) | ORename (old new : list Z)
| OOpenat (dirfd : Z) (path : list Z) (flags : Z)
| OSymlinkat (target : list Z) (dirfd : Z) (path : list Z)
| OReadlinkat (dirfd : Z) (path : list Z) (buf bufsize : Z)
| OMkdirat (dirfd : Z) (path : list Z) (mode : Z) | OOpendirat (dirfd : Z) (path : list Z)
| OScandirat (dirfd : Z) (path : list Z) (namelist filter compar : Z)
| OFaccessat (dirfd : Z) (path : list Z) (mode flags : Z)
| OFstatat (dirfd : Z) (path : list Z) (buf flags : Z)
| OUtimensat (dirfd : Z) (path : list Z) (times : option (timespec * timespec)) (flags : Z)
| OLinkat (olddirfd : Z) (old : list Z) (newdirfd : Z) (new : list Z) (flags : Z)
| ORenameat (olddirfd : Z) (old : list Z) (newdirfd : Z) (new : list Z)
| OUnlinkat (dirfd : Z) (path : list Z) | ORmdirat (dirfd : Z) (path : list Z).

Definition run (o : op) : M process Z :=
  match o with
  | OOpen p f => open p f | OAccess p m => access p m | OReadlink p b n => readlink p b n
  | OStat p b => stat p b | OLstat p b => lstat p b | OUtime p t => utime p t
  | OUtimes p t => utimes p t | OUnlink p => unlink p | ORmdir p => rmdir p
  | ORemove p => remove p | OMkdir p m => mkdir p m | OOpendir p => opendir p
  | OScandir p n f c => scandir p n f c | OSymlink t p => symlink t p
  | OLink o n => link o n | ORename o n => rename o n
  | OOpenat d p f => openat d p f | OSymlinkat t d p => symlinkat t d p
  | OReadlinkat d p b n => readlinkat d p b n | OMkdirat d p m => mkdirat d p m
  | OOpendirat d p => opendirat d p | OScandirat d p n f c => scandirat d p n f c
  | OFaccessat d p m f => faccessat d p m f
  | OFstatat d p b f => let* r := fstatat d p b f in sret (fst r)
  | OUtimensat d p t f => utimensat d p t f
  | OLinkat d o e n f => linkat d o e n f | ORenameat d o e n => renameat d o e n
  | OUnlinkat d p => wasilibc_unlinkat d p | ORmdirat d p => wasilibc_rmdirat d p
  end.

Definition one (t : option (Z * list Z)) (k : Z -> list Z -> at_call) : option at_call :=
  match t with Some (f, rel) => Some (k f rel) | None => None end.
Definition two (t u : option (Z * list Z)) (k : Z -> list Z -> Z -> list Z -> at_call)
  : option at_call :=
  match t, u with Some (f, r), Some (g, q) => Some (k f r g q) | _, _ => None end.

Definition timeval_spec (tv : Z * Z) : timespec := mk_timespec (fst tv) (s32 (snd tv * 1000)).

(** The call an operation makes; [None] when a path has no preopened prefix. *)
Definition intended (v : view) (o : op) : option at_call :=
  match o with
  | OOpen p f => one (resolve v p) (fun d r => OpenatNomode d r f)
  | OAccess p m => one (resolve v p) (fun d r => Faccessat d r m 0)
  | OReadlink p b n => one (resolve v p) (fun d r => Readlinkat d r b n)
  | OStat p b => one (resolve v p) (fun d r => Fstatat d r b 0)
  | OLstat p b => one (resolve v p) (fun d r => Fstatat d r b AT_SYMLINK_NOFOLLOW)
  | OUtime p t => one (resolve v p) (fun d r =>
      Utimensat d r (prod_map (fun x => mk_timespec x 0) (fun x => mk_timespec x 0) <$> t) 0)
  | OUtimes p t => one (resolve v p) (fun d r =>
      Utimensat d r (prod_map timeval_spec timeval_spec <$> t) 0)
  | OUnlink p => one (resolve v p) Unlinkat
  | ORmdir p => one (resolve v p) Rmdirat
  | ORemove p => one (resolve v p) Unlinkat
  | OMkdir p _ => one (resolve v p) MkdiratNomode
  | OOpendir p => one (resolve v p) Opendirat
  | OScandir p n f c => one (resolve v p) (fun d r => Scandirat d r n f c)
  | OSymlink t p => one (resolve v p) (Symlinkat t)
  | OLink o n => two (resolve v o) (resolve v n) (fun d r e q => Linkat d r e q 0)
  | ORename o n => two (resolve v o) (resolve v n) Renameat
  | OOpenat d p f => one (resolve_at v d p) (fun d r => OpenatNomode d r f)
  | OSymlinkat t d p => one (resolve_at v d p) (Symlinkat t)
  | OReadlinkat d p b n => one (resolve_at v d p) (fun d r => Readlinkat d r b n)
  | OMkdirat d p _ => one (resolve_at v d p) MkdiratNomode
  | OOpendirat d p => one (resolve_at v d p) Opendirat
  | OScandirat d p n f c => one (resolve_at v d p) (fun d r => Scandirat d r n f c)
  | OFaccessat d p m f => one (resolve_at v d p) (fun d r => Faccessat d r m f)
  | OFstatat d p b f => one (resolve_at v d p) (fun d r => Fstatat d r b f)
  | OUtimensat d p t f => one (resolve_at v d p) (fun d r => Utimensat d r t f)
  | OLinkat d o e n f => two (resolve_at v d o) (resolve_at v e n) (fun d r e q => Linkat d r e q f)
  | ORenameat d o e n => two (resolve_at v d o) (resolve_at v e n) Renameat
  | OUnlinkat d p => one (resolve_at v d p) Unlinkat
  | ORmdirat d p => one (resolve_at v d p) Rmdirat
  end.

(** The result that reports failure: -1, or [NULL] for the functions that give a
    pointer. *)
Definition failure (o : op) : Z :=
  match o with OOpendir _ | OOpendirat _ _ => 0 | _ => -1 end.

(** [remove] tries to remove a directory when removing a file failed with
    [EISDIR] or [ENOTCAPABLE]. *)
Definition retry (o : op) (c : at_call) (x : Z * view) : Z * view :=
  let '(r, v) := x in
  match o, c with
  | ORemove _, Unlinkat d rel =>
      if ctrue r && ((v_errno v =? EISDIR) || (v_errno v =? ENOTCAPABLE)) then
        let '(r', v') := v_call (Rmdirat d rel) v in
        (r', if v_errno v' =? ENOTDIR then v_fail v' else v')
      else x
  | _, _ => x
  end.

Definition abs_run (o : op) (v : view) : Z * view :=
  match intended v o with
  | None => (failure o, v_fail v)
  | Some c => retry o c (v_call c v)
  end.

(** The paths an operation resolves. *)
Definition paths (o : op) : list (list Z) :=
  match o with
  | OOpen p _ | OAccess p _ | OReadlink p _ _ | OStat p _ | OLstat p _ | OUtime p _ | OUtimes p _
  | OUnlink p | ORmdir p | ORemove p | OMkdir p _ | OOpendir p | OScandir p _ _ _ | OSymlink _ p
  | OOpenat _ p _ | OSymlinkat _ _ p | OReadlinkat _ p _ _ | OMkdirat _ p _ | OOpendirat _ p
  | OScandirat _ p _ _ _ | OFaccessat _ p _ _ | OFstatat _ p _ _ | OUtimensat _ p _ _
  | OUnlinkat _ p | ORmdirat _ p => [p]
  | OLink p q | ORename p q | OLinkat _ p _ q _ | ORenameat _ p _ q => [p; q]
  end.

(** A string in memory beside the current directory. *)
Definition path_ok (c path : list Z) : Prop := cstring path /\ zlen c + zlen path + 2 < 2 ^ 32.

Definition usec_ok (tv : Z * Z) : Prop := LLONG_MIN <= snd tv * 1000 <= LLONG_MAX.

Definition op_ok (c : list Z) (o : op) : Prop :=
  Forall (path_ok c) (paths o) /\
  match o with
  | OUtimes _ (Some (x, y)) => usec_ok x /\ usec_ok y
  | _ => True
  end.

(** [linkat] of two paths that both need resolving. *)
Definition links_twice (o : op) : bool :=
  match o with OLinkat d p e q _ => cwd_or_abs d p && cwd_or_abs e q | _ => false end.

Definition svar_ok (v : svar) : Prop :=
  0 <= slen v /\
  match sptr v with
  | PNull => slen v = 0
  | PCaller _ => has_chdir = false
  | PHeap _ => True
  end.

Definition inv (s : process) : Prop :=
  head (cwd s) = Some SLASH /\ cstring (cwd s) /\ 0 <= make_absolute_len s /\
  good_fds (entries (preopens s)) /\
  Forall (fun e => fd e <> AT_FDCWD) (entries (preopens s)) /\
  forall w, svar_ok (static_of w s).

(** ** Resolution *)

Lemma schar_0 p : schar p 0 = default 0 (head p).
Proof. by destruct p. Qed.

Lemma schar_last c : c <> [] -> zlen c < 2 ^ 32 -> schar c (u32 (zlen c - 1)) = default 0 (last c).
Proof.
  intros Hc Hlen. destruct (exists_last Hc) as (l & x & ->).
  rewrite last_snoc. rewrite zlen_app in *. change (zlen [x]) with 1 in *.
  pose proof (zlen_nonneg l). replace (zlen l + 1 - 1) with (zlen l) by lia.
  rewrite u32_id by (bounds; lia). unfold schar, zlen. rewrite Nat2Z.id.
  apply (nth_middle l []).
Qed.

Lemma set_len_id s : set_make_absolute_len (make_absolute_len s) s = s.
Proof. by destruct s. Qed.

Lemma absolute_cases c path :
  cstring path -> c <> [] -> zlen c < 2 ^ 32 ->
  (schar path 0 =? SLASH) = bool_decide (head path = Some SLASH) /\
  (schar path 0 =? 0) = bool_decide (path = []) /\
  ((schar path 0 =? DOT) && (schar path 1 =? SLASH)) = bool_decide (take 2 path = [DOT; SLASH]) /\
  (schar c (u32 (zlen c - 1)) =? SLASH) = bool_decide (last c = Some SLASH).
Proof.
  intros Hp Hc Hlen. rewrite (schar_last c Hc Hlen), schar_0.
  destruct (last c) as [x|] eqn:El; [|by apply last_None in El].
  split_and!; last by (cbn; case_bool_decide; bool_hyps; simplify_eq; case_cmp; congruence).
  all: destruct path as [|a [|b path]]; inversion Hp as [|? ? Ha Hb]; subst; unfold schar; lits; cbn;
    rewrite ?take_0; repeat case_bool_decide; repeat case_cmp; simplify_eq; try congruence; try done.
Qed.

(** A failed allocation. *)
Definition refused : Prop := exists n, alloc_ok n = false.

Lemma make_absolute_spec s path : inv s -> path_ok (cwd s) path ->
  (refused /\ make_absolute path s = Ok (None, s)) \/
  (exists n, 0 <= n /\
     make_absolute path s = Ok (Some (absolute (cwd s) path), set_make_absolute_len n s)).
Proof.
  intros (Hh & Hcs & Hlen & _) [Hp Hmax]. set (c := cwd s) in *.
  assert (c <> []) as Hc by (by intros E; rewrite E in Hh).
  pose proof (zlen_nonneg path). pose proof (zlen_nonneg c).
  destruct (absolute_cases c path Hp Hc) as (Q1 & Q2 & Q3 & Q4); [bounds; lia|].
  unfold make_absolute, absolute, sbind, sget, sret, sput. rewrite Q1. cbn [obind fst snd].
  destruct (bool_decide_reflect (head path = Some SLASH)).
  { right. exists (make_absolute_len s). by rewrite set_len_id. }
  cbn [obind fst snd]. fold c. rewrite Q2, Q3, Q4, <- !bool_decide_or.
  rewrite (bool_decide_ext _ (path = [] \/ path = [DOT] \/ path = [DOT; SLASH])) by tauto.
  clear Q1 Q2 Q3 Q4.
  case_bool_decide as Hd; [right; exists (make_absolute_len s); by rewrite set_len_id|].
  set (rel := if bool_decide (take 2 path = _) then _ else _).
  assert (0 <= zlen rel <= zlen path) as Hrel.
  { split; [apply zlen_nonneg|]. subst rel. case_bool_decide; [|lia].
    unfold zlen. rewrite length_drop. lia. }
  set (sl := if bool_decide (last c = Some SLASH) then [] else [SLASH]).
  set (need := if bool_decide (last c = Some SLASH) then 0 else 1).
  assert ((if need =? 1 then [SLASH] else []) = sl) as -> by (subst need sl; by case_bool_decide).
  assert (zlen (c ++ sl ++ rel) = zlen c + zlen rel + need) as Hz.
  { rewrite !zlen_app. subst sl need. case_bool_decide; rewrite ?zlen_cons;
      change (zlen (@nil Z)) with 0; lia. }
  assert (0 <= need <= 1) by (subst need; case_bool_decide; lia).
  rewrite u32_id by (bounds; lia). rewrite Hz.
  destruct (Z.ltb_spec (make_absolute_len s) (zlen c + zlen rel + 1 + need)).
  - destruct (alloc_ok _) eqn:Ea; [|left; split; [by eexists|done]].
    cbn [obind fst snd]. destruct (Z.leb_spec (zlen c + zlen rel + need + 1) (zlen c + zlen rel + 1 + need)); [|lia].
    right. eexists. split; [|done]. lia.
  - destruct (Z.leb_spec (zlen c + zlen rel + need + 1) (make_absolute_len s)); [|lia].
    right. exists (make_absolute_len s). by rewrite set_len_id.
Qed.

(** A pointer copied from variable [w] still designates [str]. *)
Definition points (s : process) (w : static) (r : relptr) (str : list Z) : Prop :=
  match r with
  | RNull => False
  | RCaller x => x = str
  | RStatic w' g => w' = w /\ g = sgen (static_of w s) /\ sptr (static_of w s) = PHeap str
  end.

Lemma points_read s w r str : points s w r str -> read_rel r s = Ok (str, s).
Proof.
  destruct r as [|x|w' g]; cbn; [done|by intros ->|]. intros (-> & -> & Hp).
  unfold sbind, sget. cbn. by rewrite Hp, Nat.eqb_refl.
Qed.

Lemma points_frame s s' w r str :
  static_of w s' = static_of w s -> points s w r str -> points s' w r str.
Proof. intros E. destruct r; cbn; by rewrite ?E. Qed.

(** Everything but errno, the lengths of the buffers and variable [w] is kept. *)
Definition same (w : static) (s s' : process) : Prop :=
  preopens s' = preopens s /\ cwd s' = cwd s /\ cwd_mallocd s' = cwd_mallocd s /\
  log s' = log s /\ forall w', w' <> w -> static_of w' s' = static_of w' s.

Lemma find_abspath_rel t p f abs rel : find_abspath t p = Val (f, abs, rel) ->
  f <> -1 /\ 0 < zlen rel <= Z.max 1 (zlen p) /\ head rel <> Some SLASH.
Proof.
  unfold find_abspath. set (q := skip_slashes p).
  assert (forall l, zlen (skip_slashes l) <= zlen l) as Hskip.
  { intros l. destruct (skip_slashes_split l) as [k Hk]. rewrite Hk at 2. rewrite zlen_app.
    pose proof (zlen_nonneg (replicate k SLASH)). lia. }
  pose proof (Hskip p). fold q in H.
  destruct (find_loop _ _ _ _ _) as [[g n] a]. destruct (Z.eqb_spec g (-1)); [done|].
  intros [= <- <- <-]. split; [done|].
  pose proof (Hskip (drop n q)) as H2. pose proof (skip_slashes_head (drop n q)) as H3.
  assert (zlen (drop n q) <= zlen q) by (unfold zlen; rewrite length_drop; lia).
  pose proof (zlen_nonneg q).
  destruct (skip_slashes (drop n q)) as [|c r]; rewrite ?zlen_cons in *.
  - change (zlen (@nil Z)) with 0. split; [lia|done].
  - pose proof (zlen_nonneg r). split; [lia|done].
Qed.

Lemma absolute_len c path : zlen (absolute c path) <= zlen c + zlen path + 1.
Proof.
  pose proof (zlen_nonneg c). pose proof (zlen_nonneg path). unfold absolute.
  repeat case_bool_decide; rewrite ?zlen_app, ?zlen_cons; change (zlen (@nil Z)) with 0; try lia.
  all: unfold zlen; rewrite length_drop; lia.
Qed.

Lemma set_errno_id s : set_errno (errno s) s = s.
Proof. by destruct s. Qed.

(** How looking a path up can end: no preopened prefix, a refused allocation,
    or the directory and the relative path, copied to the variable. *)
Definition copied (v : svar) (rel : list Z) : svar :=
  if slen v <? zlen rel + 1 then mk_svar (PHeap rel) (zlen rel + 1) (S (sgen v))
  else mk_svar (PHeap rel) (slen v) (sgen v).

Inductive lookup (s : process) (path : list Z) (v : svar) : Z -> list Z -> svar -> Z -> Prop :=
| lookup_none abs v' : find_abspath (preopens s) (absolute (cwd s) path) = Err ENOENT ->
    lookup s path v (-1) abs v' ENOENT
| lookup_nomem abs v' : refused -> lookup s path v (-1) abs v' ENOMEM
| lookup_found f abs rel : find_abspath (preopens s) (absolute (cwd s) path) = Val (f, abs, rel) ->
    lookup s path v f abs (copied v rel) (errno s).

Lemma copied_ptr v rel : sptr (copied v rel) = PHeap rel.
Proof. unfold copied. by destruct (slen v <? zlen rel + 1). Qed.

Lemma find_relpath_alloc_spec s path v :
  inv s -> path_ok (cwd s) path -> svar_ok v -> has_chdir = true ->
  exists f abs v' n e,
    find_relpath_alloc path v true s = Ok (f, abs, v', set_errno e (set_make_absolute_len n s)) /\
    0 <= n /\ svar_ok v' /\ lookup s path v f abs v' e.
Proof.
  intros Hi Hp Hv Hch. unfold find_relpath_alloc, sbind at 1.
  destruct (make_absolute_spec s path Hi Hp) as [[Hr ->]|(n & Hn & ->)]; cbn [obind fst snd].
  { exists (-1), [], v, (make_absolute_len s), ENOMEM. rewrite set_len_id.
    split_and!; [done|apply Hi|done|by constructor]. }
  unfold sbind at 1, sget at 1. cbn [obind fst snd preopens set_make_absolute_len].
  destruct (find_abspath _ _) as [[[f abs] rel]|e] eqn:Ef.
  2:{ assert (e = ENOENT) as ->.
      { revert Ef. unfold find_abspath. destruct (find_loop _ _ _ _ _) as [[g k] a].
        destruct (g =? -1); congruence. }
      exists (-1), [], v, n, ENOENT. split_and!; [done..|by constructor]. }
  destruct (find_abspath_rel _ _ _ _ _ Ef) as (Hf & Hrel & _).
  pose proof (absolute_len (cwd s) path). destruct Hp as [_ Hp].
  rewrite u32_id by (pose proof (zlen_nonneg (cwd s)); pose proof (zlen_nonneg path); bounds; lia).
  pose proof Hv as [Hv0 Hv1].
  assert (forall e, set_errno (errno s) (set_make_absolute_len e s) = set_make_absolute_len e s) as Hid
    by (by intros; destruct s).
  pose proof (lookup_found s path v f abs rel Ef) as Hfound. unfold copied in Hfound.
  destruct (Z.ltb_spec (slen v) (zlen rel + 1)).
  - cbn [negb]. destruct (alloc_ok (zlen rel + 1)) eqn:Ea.
    + unfold strcpy, sbind. cbn [sptr slen sgen]. rewrite Z.leb_refl. cbn [obind fst snd sret].
      eexists f, abs, _, n, (errno s). rewrite Hid. split_and!; [reflexivity|done| |exact Hfound].
      split; cbn; [lia|done].
    + exists (-1), abs, v, n, ENOMEM. split_and!; [done..|]. constructor. by eexists.
  - unfold strcpy, sbind. destruct (sptr v) as [|x|x] eqn:Ep; [lia|congruence|].
    rewrite (proj2 (Z.leb_le _ _)) by lia. cbn [obind fst snd sret].
    eexists f, abs, _, n, (errno s). rewrite Hid. split_and!; [reflexivity|done|done|exact Hfound].
Qed.

Lemma static_set w w' v s :
  static_of w' (set_static w v s) = if decide (w' = w) then v else static_of w' s.
Proof. destruct w, w'; case_decide; try done; congruence. Qed.

Lemma set_static_fields w v s : let s' := set_static w v s in
  preopens s' = preopens s /\ cwd s' = cwd s /\ cwd_mallocd s' = cwd_mallocd s /\ log s' = log s /\
  errno s' = errno s /\ make_absolute_len s' = make_absolute_len s.
Proof. by destruct w. Qed.

Lemma inv_set_static w v e n s :
  inv s -> 0 <= n -> svar_ok v -> inv (set_static w v (set_errno e (set_make_absolute_len n s))).
Proof.
  intros (I1 & I2 & I3 & I4 & I5 & I6) Hn Hv.
  destruct (set_static_fields w v (set_errno e (set_make_absolute_len n s)))
    as (E1 & E2 & _ & _ & _ & E6).
  unfold inv. rewrite E1, E2, E6. split_and!; try done.
  intros w'. rewrite static_set. case_decide; [done|]. specialize (I6 w'). by destruct w'.
Qed.

Lemma same_set_static w v e n s : same w s (set_static w v (set_errno e (set_make_absolute_len n s))).
Proof.
  unfold same. destruct (set_static_fields w v (set_errno e (set_make_absolute_len n s)))
    as (-> & -> & -> & -> & _). split_and!; try done.
  intros w' Hw. rewrite static_set. case_decide; [done|]. by destruct w'.
Qed.

Lemma find_relpath_in_spec w s path : inv s -> path_ok (cwd s) path ->
  exists f r s', find_relpath_in w path s = Ok (f, r, s') /\ inv s' /\ same w s s' /\
    ((f = -1 /\ (resolve (view_of s) path = None \/ refused)) \/
     (f <> -1 /\ errno s' = errno s /\
      exists rel, resolve (view_of s) path = Some (f, rel) /\ points s' w r rel)).
Proof.
  intros Hi Hp. unfold find_relpath_in, find_relpath2, wasilibc_find_relpath, resolve.
  pose proof (proj2 (proj2 (proj2 (proj2 (proj2 Hi)))) w) as Hv.
  destruct has_chdir eqn:Hch; unfold sbind, sget; cbn [obind fst snd view_of v_table v_cwd].
  -
    destruct (find_relpath_alloc_spec s path (static_of w s) Hi Hp) as (f & abs & v' & n & e & -> & Hn & Hv' & Hl);
      [done|done|]. cbn [obind fst snd sret sput].
    eexists f, _, _. split; [reflexivity|]. split; [by apply inv_set_static|].
    split; [apply same_set_static|].
    destruct Hl as [abs v' Ha|abs v' Hr|f abs rel Ha]; rewrite ?Ha; eauto.
    right. destruct (find_abspath_rel _ _ _ _ _ Ha) as (Hf & _). split; [done|].
    split; [by destruct w|]. exists rel. split; [done|].
    unfold copy_ptr. rewrite copied_ptr. cbn. rewrite static_set, decide_True by done.
    by rewrite copied_ptr.
  - unfold find_abspath_into, sbind, sget. cbn [obind fst snd].
    assert (set_make_absolute_len (make_absolute_len s) s = s) as Hs by apply set_len_id.
    pose proof (set_errno_id s) as Hse. pose proof Hi as (_ & _ & Hlen & _).
    destruct (find_abspath (preopens s) path) as [[[f abs] rel]|e] eqn:Ha; cbn [obind fst snd sret sput fail sbind].
    + destruct (find_abspath_rel _ _ _ _ _ Ha) as (Hf & _).
      set (v := mk_svar (PCaller rel) _ _).
      exists f, (copy_ptr w v), (set_static w v (set_errno (errno s) (set_make_absolute_len (make_absolute_len s) s))).
      split; [by rewrite Hs, Hse|]. split; [apply inv_set_static; try done; split; [apply Hv|done]|].
      split; [apply same_set_static|]. right. split; [done|]. split; [by destruct w|]. by exists rel.
    + set (v := static_of w s) in *.
      exists (-1), (copy_ptr w v), (set_static w v (set_errno e (set_make_absolute_len (make_absolute_len s) s))).
      split; [by rewrite Hs|]. split; [by apply inv_set_static|]. split; [apply same_set_static|]. auto.
Qed.

(** *** The shapes of the functions *)

(** Look [path] up with variable [w], fail with [F] or continue with [K]. *)
Definition with_relpath {A} (w : static) (path : list Z) (F : M process A)
    (K : Z -> relptr -> M process A) : M process A :=
  let* r := find_relpath_in w path in
  let '(dirfd, relative_path) := r in
  if dirfd =? -1 then F else K dirfd relative_path.

Lemma view_same w s s' : same w s s' -> errno s' = errno s -> view_of s' = view_of s.
Proof. unfold view_of. by intros (-> & -> & _ & -> & _) ->. Qed.

Lemma view_same_fail w s s' : same w s s' -> view_of (set_errno ENOTCAPABLE s') = v_fail (view_of s).
Proof. unfold view_of, v_fail. cbn. by intros (-> & -> & _ & -> & _). Qed.

Lemma inv_errno e s : inv s -> inv (set_errno e s).
Proof. intros (? & ? & ? & ? & ? & Hs). split_and!; try done; intros w; specialize (Hs w); by destruct w. Qed.

Lemma inv_call c e s : inv s -> inv (add_call c e s).
Proof. intros (? & ? & ? & ? & ? & Hs). split_and!; try done; intros w; specialize (Hs w); by destruct w. Qed.

Lemma with_relpath_spec {A} w s path (F : M process A) K : inv s -> path_ok (cwd s) path ->
  (exists s', with_relpath w path F K s = F s' /\ inv s' /\ same w s s' /\
     (resolve (view_of s) path = None \/ refused)) \/
  (exists f r rel s', with_relpath w path F K s = K f r s' /\ inv s' /\ same w s s' /\
     view_of s' = view_of s /\ resolve (view_of s) path = Some (f, rel) /\ points s' w r rel).
Proof.
  intros Hi Hp. unfold with_relpath, sbind.
  destruct (find_relpath_in_spec w s path Hi Hp) as (f & r & s' & -> & Hi' & Hs & Hc).
  cbn [obind fst snd]. destruct Hc as [[-> Hc]|(Hf & He & rel & Hr & Hpt)].
  - left. exists s'. by rewrite Z.eqb_refl.
  - right. exists f, r, rel, s'. rewrite (proj2 (Z.eqb_neq _ _) Hf).
    split_and!; try done. by eapply view_same.
Qed.

(** A function that makes the call [c] of its specification, or fails. *)
Definition makes (fv : Z) (c : option at_call) (m : M process Z) (s : process) : Prop :=
  exists r s', m s = Ok (r, s') /\ inv s' /\
    ((r, view_of s') = match c with
                       | Some c => v_call c (view_of s)
                       | None => (fv, v_fail (view_of s))
                       end \/
     refused /\ r = fv /\ view_of s' = v_fail (view_of s)).

Lemma makes_direct fv c s : inv s -> makes fv (Some c) (let* a := call c in sret (a_ret a)) s.
Proof.
  intros Hi. unfold makes, sbind, call. cbn. do 2 eexists. split; [reflexivity|].
  split; [by apply inv_call|]. by left.
Qed.

Lemma makes_fail fv c F s s' w :
  (forall s, F s = Ok (fv, set_errno ENOTCAPABLE s)) -> inv s' -> same w s s' ->
  c = None \/ refused -> forall m, m s = F s' -> makes fv c m s.
Proof.
  intros HF Hi Hs Hc m Hm. exists fv, (set_errno ENOTCAPABLE s'). rewrite Hm.
  split; [apply HF|]. split; [by apply inv_errno|]. rewrite (view_same_fail w s s' Hs).
  destruct Hc as [-> | Hr]; auto.
Qed.

Lemma makes_continue fv c m s n s' :
  m s = n s' -> view_of s' = view_of s -> makes fv c n s' -> makes fv c m s.
Proof.
  intros Hm Hv (r & s1 & Hr & Hi & Hc). exists r, s1. rewrite Hm. split; [done|]. split; [done|].
  by rewrite Hv in Hc.
Qed.

Lemma makes_one fv F w path k s :
  (forall s, F s = Ok (fv, set_errno ENOTCAPABLE s)) -> inv s -> path_ok (cwd s) path ->
  makes fv (one (resolve (view_of s) path) k)
    (with_relpath w path F (fun d r =>
       let* rel := read_rel r in let* a := call (k d rel) in sret (a_ret a))) s.
Proof.
  intros HF Hi Hp. edestruct (with_relpath_spec w s path F) as
    [(s' & Hm & Hi' & Hs & Hc)|(f & r & rel & s' & Hm & Hi' & Hs & Hv & Hr & Hpt)]; [done..| |].
  - eapply makes_fail; eauto. destruct Hc as [-> |]; auto.
  - rewrite Hr. eapply makes_continue; [exact Hm|done|].
    apply (makes_continue _ _ _ _ (let* a := call (k f rel) in sret (a_ret a)) s'); [|done|by apply makes_direct].
    unfold sbind at 1. by rewrite (points_read _ _ _ _ Hpt).
Qed.

Lemma makes_two fv F old new k s :
  (forall s, F s = Ok (fv, set_errno ENOTCAPABLE s)) -> inv s ->
  path_ok (cwd s) old -> path_ok (cwd s) new ->
  makes fv (two (resolve (view_of s) old) (resolve (view_of s) new) k)
    (with_relpath AltBuf old F (fun d r =>
       with_relpath RelBuf new F (fun e q =>
         let* o := read_rel r in let* n := read_rel q in
         let* a := call (k d o e n) in sret (a_ret a)))) s.
Proof.
  intros HF Hi Hp Hq. edestruct (with_relpath_spec AltBuf s old F) as
    [(s' & Hm & Hi' & Hs & Hc)|(f & r & rel & s' & Hm & Hi' & Hs & Hv & Hr & Hpt)]; [done..| |].
  { eapply makes_fail; eauto. destruct Hc as [-> |]; auto. }
  rewrite Hr. eapply makes_continue; [exact Hm|done|]. clear Hm.
  assert (cwd s' = cwd s) as Hcw by apply Hs. rewrite <- Hcw in Hq. rewrite <- Hv.
  edestruct (with_relpath_spec RelBuf s' new F) as
    [(s2 & Hm & Hi2 & Hs2 & Hc)|(g & q & rel2 & s2 & Hm & Hi2 & Hs2 & Hv2 & Hr2 & Hpt2)]; [done..| |].
  { eapply makes_fail; eauto. destruct Hc as [-> |]; auto. }
  rewrite Hr2. eapply makes_continue; [exact Hm|done|].
  eapply (points_frame _ s2) in Hpt; [|by apply Hs2].
  apply (makes_continue _ _ _ _ (let* a := call (k f rel g rel2) in sret (a_ret a)) s2);
    [|done|by apply makes_direct].
  unfold sbind at 1. rewrite (points_read _ _ _ _ Hpt). cbn [obind fst snd].
  unfold sbind at 1. by rewrite (points_read _ _ _ _ Hpt2).
Qed.

(** Without chdir.c the pointer goes into the caller's path. *)
Lemma find_relpath_caller w s path f r s' : has_chdir = false ->
  find_relpath_in w path s = Ok (f, r, s') -> f <> -1 -> exists rel, r = RCaller rel.
Proof.
  intros Hch. unfold find_relpath_in, find_relpath2, wasilibc_find_relpath. rewrite Hch.
  unfold sbind, sget, find_abspath_into, sbind, sget. cbn [obind fst snd].
  destruct (find_abspath (preopens s) path) as [[[g abs] rel]|e]; cbn.
  - intros [= <- <- <-] _. by exists rel.
  - intros [= <- <- <-]. done.
Qed.

Lemma makes_link old new flags s : has_chdir = false -> inv s ->
  path_ok (cwd s) old -> path_ok (cwd s) new ->
  makes (-1) (two (resolve (view_of s) old) (resolve (view_of s) new)
               (fun d r e q => Linkat d r e q flags)) (wasilibc_link old new flags) s.
Proof.
  intros Hch Hi Hp Hq. unfold makes, wasilibc_link, find_relpath, sbind.
  destruct (find_relpath_in_spec RelBuf s old Hi Hp) as (f & r & s1 & Hf1 & Hi1 & Hs1 & Hc1).
  assert (cwd s1 = cwd s) as Hcw by apply Hs1. rewrite <- Hcw in Hq.
  destruct (find_relpath_in_spec RelBuf s1 new Hi1 Hq) as (g & q & s2 & Hf2 & Hi2 & Hs2 & Hc2).
  assert (same RelBuf s s2) as Hs.
  { destruct Hs1 as (? & ? & ? & ? & W1), Hs2 as (? & ? & ? & ? & W2).
    split_and!; try congruence. intros w Hw. by rewrite W2, W1. }
  rewrite Hf1. cbn [obind fst snd]. rewrite Hf2. cbn [obind fst snd].
  assert (resolve (view_of s1) new = resolve (view_of s) new) as Hrn.
  { unfold resolve, view_of. cbn. by destruct Hs1 as (-> & -> & _). }
  rewrite Hrn in Hc2.
  destruct Hc1 as [[-> Hc1]|(Hf & He1 & rel & Hr & Hpt)].
  { rewrite Z.eqb_refl. cbn. do 2 eexists. split; [reflexivity|]. split; [by apply inv_errno|].
    rewrite (view_same_fail _ _ _ Hs). destruct Hc1 as [-> |]; auto. }
  destruct Hc2 as [[-> Hc2]|(Hg & He2 & rel2 & Hr2 & Hpt2)].
  { rewrite Z.eqb_refl, orb_true_r. cbn. do 2 eexists. split; [reflexivity|].
    split; [by apply inv_errno|]. rewrite (view_same_fail _ _ _ Hs), Hr.
    destruct Hc2 as [-> |]; auto. }
  rewrite (proj2 (Z.eqb_neq _ _) Hf), (proj2 (Z.eqb_neq _ _) Hg). cbn [orb].
  destruct (find_relpath_caller _ _ _ _ _ _ Hch Hf1 Hf) as [x ->].
  destruct (find_relpath_caller _ _ _ _ _ _ Hch Hf2 Hg) as [y ->].
  cbn in Hpt, Hpt2. subst x y. rewrite Hr, Hr2. cbn [read_rel sret obind fst snd].
  edestruct (makes_direct (-1) (Linkat f rel g rel2 flags) s2 Hi2) as (a & s3 & Ha & Hi3 & Hc).
  exists a, s3. split; [exact Ha|]. split; [done|].
  rewrite <- (view_same RelBuf s s2) by (done || congruence). exact Hc.
Qed.

Lemma fail_Ok s : fail ENOTCAPABLE s = Ok (-1, set_errno ENOTCAPABLE s).
Proof. reflexivity. Qed.

Lemma makes_utimes path times s : inv s -> op_ok (cwd s) (OUtimes path times) ->
  makes (-1) (intended (view_of s) (OUtimes path times)) (utimes path times) s.
Proof.
  intros Hi [[Hp _]%Forall_cons Hu]. cbn [intended].
  set (ts := prod_map timeval_spec timeval_spec <$> times).
  assert (forall s, match times with
    | Some (t0, t1) => let* x := of_timeval t0 in let* y := of_timeval t1 in sret (Some (x, y))
    | None => sret None end s = Ok (ts, s)) as Hts.
  { intros s0. subst ts. destruct times as [[[a b] [c d]]|]; [|done]. destruct Hu as [U1 U2].
    unfold usec_ok in *. cbn [fst snd] in *. unfold sbind, of_timeval, usec_to_nsec. cbn [fst snd].
    rewrite !(proj2 (Z.leb_le _ _)) by lia. cbn. done. }
  destruct (makes_one (-1) (fail ENOTCAPABLE) RelBuf path (fun d r => Utimensat d r ts 0) s)
    as (r & s' & Hr & Hc); [apply fail_Ok|done|apply Hp|].
  exists r, s'. split; [|done]. rewrite <- Hr. apply sbind_cong. intros [f q] s1.
  destruct (f =? -1); [done|]. apply sbind_cong. intros rel s2. by rewrite (sbind_Ok _ _ _ _ _ (Hts s2)).
Qed.

Lemma makes_fstatat dirfd path buf flags s : inv s -> path_ok (cwd s) path ->
  makes (-1) (intended (view_of s) (OFstatat dirfd path buf flags)) (run (OFstatat dirfd path buf flags)) s.
Proof.
  intros Hi Hp. cbn [intended run]. unfold resolve_at, fstatat.
  destruct (cwd_or_abs dirfd path); [|by apply makes_direct].
  destruct (makes_one (-1) (fail ENOTCAPABLE) RelBuf path (fun d r => Fstatat d r buf flags) s)
    as (r & s' & Hr & Hc); [apply fail_Ok|done|done|].
  exists r, s'. split; [|done]. rewrite <- Hr. unfold wasilibc_stat, with_relpath, find_relpath, sbind.
  destruct (find_relpath_in RelBuf path s) as [[[f q] s1]| | |]; cbn [obind fst snd]; try done.
  destruct (f =? -1); [done|]. by destruct (read_rel q s1) as [[rel s2]| | |].
Qed.

Lemma makes_ext fv c m n s : m s = n s -> makes fv c n s -> makes fv c m s.
Proof. intros Hm (r & s' & ?). exists r, s'. by rewrite Hm. Qed.

(** [link] and [rename] test for success where the other functions test for failure. *)
Lemma two_negated old new k s :
  (let* r := find_relpath_alt old in
   let '(old_dirfd, old_relative_path) := r in
   if negb (old_dirfd =? -1) then
     let* r := find_relpath new in
     let '(new_dirfd, new_relative_path) := r in
     if negb (new_dirfd =? -1) then
       let* o := read_rel old_relative_path in
       let* n := read_rel new_relative_path in
       let* a := call (k old_dirfd o new_dirfd n) in sret (a_ret a)
     else fail ENOTCAPABLE
   else fail ENOTCAPABLE) s =
  with_relpath AltBuf old (fail ENOTCAPABLE) (fun d r =>
    with_relpath RelBuf new (fail ENOTCAPABLE) (fun e q =>
      let* o := read_rel r in let* n := read_rel q in
      let* a := call (k d o e n) in sret (a_ret a))) s.
Proof.
  apply sbind_cong. intros [d r] s1. destruct (d =? -1); [done|].
  apply sbind_cong. intros [e q] s2. by destruct (e =? -1).
Qed.

(** Every operation but [remove] makes the call of its specification. *)
Lemma run_makes o s :
  inv s -> op_ok (cwd s) o -> has_chdir = false \/ links_twice o = false ->
  match o with ORemove _ => True | _ => makes (failure o) (intended (view_of s) o) (run o) s end.
Proof.
  intros Hi Ho Hl. destruct o; try done.
  all: try (by apply makes_utimes).
  all: destruct Ho as [Hp _]; cbn [paths] in Hp; rewrite ?Forall_cons in Hp;
       repeat match goal with H : _ /\ _ |- _ => destruct H end.
  all: try (by apply makes_fstatat).
  all: cbn [intended failure run]; unfold resolve_at.
  all: try (apply (makes_one (-1) (fail ENOTCAPABLE) RelBuf); [apply fail_Ok|done|done]).
  all: try (apply (makes_one 0 (do* sput (set_errno ENOTCAPABLE) in sret 0) RelBuf); [reflexivity|done|done]).
  all: try (destruct (cwd_or_abs _ _) eqn:Ec;
    unfold openat, symlinkat, readlinkat, mkdirat, opendirat, scandirat, faccessat, utimensat,
      wasilibc_unlinkat, wasilibc_rmdirat; rewrite Ec;
    [first [apply (makes_one (-1) (fail ENOTCAPABLE) RelBuf); [apply fail_Ok|done|done]
           |apply (makes_one 0 (do* sput (set_errno ENOTCAPABLE) in sret 0) RelBuf); [reflexivity|done|done]]
    |by apply makes_direct]).
  - destruct times as [[a m]|]; apply (makes_one (-1) (fail ENOTCAPABLE) RelBuf); done || apply fail_Ok.
  - eapply makes_ext; [apply (two_negated _ _ (fun d r e q => Linkat d r e q 0))|].
    apply makes_two; done || apply fail_Ok.
  - eapply makes_ext; [apply two_negated|]. apply makes_two; done || apply fail_Ok.
  - cbn [links_twice] in Hl. unfold linkat.
    destruct (cwd_or_abs olddirfd old), (cwd_or_abs newdirfd new); cbn [andb] in *.
    + destruct Hl as [Hl|]; [|done]. by apply makes_link.
    + by apply (makes_one (-1) (fail ENOTCAPABLE) RelBuf old (fun d r => Linkat d r newdirfd new flags)).
    + by apply (makes_one (-1) (fail ENOTCAPABLE) RelBuf new (fun e q => Linkat olddirfd old e q flags)).
    + by apply makes_direct.
  - unfold renameat. destruct (cwd_or_abs olddirfd old), (cwd_or_abs newdirfd new); cbn [andb] in *.
    + eapply makes_ext; [apply two_negated|]. apply makes_two; done || apply fail_Ok.
    + by apply (makes_one (-1) (fail ENOTCAPABLE) RelBuf old (fun d r => Renameat d r newdirfd new)).
    + by apply (makes_one (-1) (fail ENOTCAPABLE) RelBuf new (fun e q => Renameat olddirfd old e q)).
    + by apply makes_direct.
Qed.

Lemma run_remove path s : inv s -> path_ok (cwd s) path ->
  exists r s', run (ORemove path) s = Ok (r, s') /\ inv s' /\
    ((r, view_of s') = abs_run (ORemove path) (view_of s) \/
     refused /\ r = -1 /\ view_of s' = v_fail (view_of s)).
Proof.
  intros Hi Hp. unfold abs_run. cbn [run intended].
  edestruct (with_relpath_spec RelBuf s path (fail ENOTCAPABLE)) as
    [(s' & Hm & Hi' & Hs & Hc)|(f & r & rel & s' & Hm & Hi' & Hs & Hv & Hr & Hpt)]; [done..| |].
  - exists (-1), (set_errno ENOTCAPABLE s'). split; [exact Hm|]. split; [by apply inv_errno|].
    rewrite (view_same_fail _ _ _ Hs). destruct Hc as [-> |]; auto.
  - assert (remove path s = _) as -> by exact Hm. clear Hm. rewrite Hr. cbn [one retry].
    rewrite (sbind_Ok _ _ _ _ _ (points_read _ _ _ _ Hpt)).
    set (a := host (log s') (Unlinkat f rel)).
    set (s1 := add_call (Unlinkat f rel) (a_errno a) s').
    assert (v_call (Unlinkat f rel) (view_of s) = (a_ret a, view_of s1)) as ->
      by (rewrite <- Hv; reflexivity).
    assert (points s1 RelBuf r rel) as Hpt1 by (by eapply points_frame; [|exact Hpt]).
    assert (inv s1) as Hi1 by (by apply inv_call).
    rewrite (sbind_Ok _ _ _ a s1) by done. rewrite (sbind_Ok _ _ _ (errno s1) s1) by done.
    cbn [retry v_errno view_of]. destruct (ctrue (a_ret a) && _).
    2:{ exists (a_ret a), s1. split; [done|]. split; [done|]. by left. }
    rewrite (sbind_Ok _ _ _ _ _ (points_read _ _ _ _ Hpt1)).
    set (b := host (log s1) (Rmdirat f rel)).
    set (s2 := add_call (Rmdirat f rel) (a_errno b) s1).
    assert (inv s2) as Hi2 by (by apply inv_call).
    assert (v_call (Rmdirat f rel) (view_of s1) = (a_ret b, view_of s2)) as -> by reflexivity.
    rewrite (sbind_Ok _ _ _ b s2) by done. rewrite (sbind_Ok _ _ _ (errno s2) s2) by done.
    cbn [v_errno view_of]. destruct (errno s2 =? ENOTDIR).
    + exists (a_ret b), (set_errno ENOTCAPABLE s2). split; [done|]. split; [by apply inv_errno|]. by left.
    + exists (a_ret b), s2. split; [done|]. split; [done|]. by left.
Qed.

(** *** The current directory *)

Definition directory (abs rel : list Z) : list Z :=
  [SLASH] ++ abs ++
  (if bool_decide (rel = [DOT]) then []
   else (if bool_decide (abs = []) then [] else [SLASH]) ++ rel).

(** The prefixes of the table are strings in memory beside the path. *)
Definition prefixes_ok (s : process) (path : list Z) : Prop :=
  Forall (fun e => cstring (prefix e) /\ zlen (prefix e) + zlen (cwd s) + zlen path + 4 < 2 ^ 32)
    (entries (preopens s)).

Lemma cstring_app a b : cstring (a ++ b) <-> cstring a /\ cstring b.
Proof. apply Forall_app. Qed.

Lemma absolute_cstring c path : cstring c -> cstring path -> cstring (absolute c path).
Proof.
  intros Hc Hp. unfold absolute. repeat case_bool_decide; rewrite ?cstring_app; try done.
  all: split_and!; try done; try (by apply Forall_drop); by repeat constructor.
Qed.

Lemma find_abspath_cstring t p f abs rel :
  cstring p -> find_abspath t p = Val (f, abs, rel) -> cstring rel.
Proof.
  intros Hp. unfold find_abspath. destruct (find_loop _ _ _ _ _) as [[g n] a].
  destruct (g =? -1); [done|]. intros [= <- <- <-].
  assert (cstring (skip_slashes (drop n (skip_slashes p)))) as H.
  { apply skip_slashes_cstring, Forall_drop. by apply skip_slashes_cstring. }
  destruct (skip_slashes _); [by repeat constructor|done].
Qed.

Lemma find_abspath_entry t p f abs rel : good_fds (entries t) -> cstring p ->
  find_abspath t p = Val (f, abs, rel) -> exists e, e ∈ entries t /\ fd e = f /\ prefix e = abs.
Proof.
  intros Hg Hp Hf. pose proof (find_abspath_spec t p Hg Hp) as Hs. rewrite Hf in Hs.
  destruct Hs as (e & (l1 & l2 & Hb & _) & He & Ha & _). exists e. split; [|done].
  apply elem_of_reverse. rewrite Hb. set_solver.
Qed.

Lemma inv_cwd c s : inv s -> head c = Some SLASH -> cstring c -> inv (set_cwd c s).
Proof. intros (? & ? & ? & ? & ? & Hs) Hh Hc. split_and!; try done; intros w; specialize (Hs w); by destruct w. Qed.

Lemma chdir_stat dirinfo path s s1 f abs rel v :
  (let* r := find_relpath_alloc path (chdir_buf s) true in
   let '(parent_fd, abs, v') := r in
   do* sput (set_static ChdirBuf v') in sret (parent_fd, abs, v')) s = Ok (f, abs, v, s1) ->
  sptr v = PHeap rel -> chdir_buf s1 = v -> f <> -1 -> f <> AT_FDCWD -> head rel <> Some SLASH ->
  let a := host (log s1) (Fstatat f rel dirinfo 0) in
  let s2 := add_call (Fstatat f rel dirinfo 0) (a_errno a) s1 in
  let copy_relative := negb (bool_decide (rel = [DOT])) in
  let mid := copy_relative && negb (schar abs 0 =? 0) in
  chdir dirinfo path s =
    (if a_ret a =? -1 then Ok (-1, s2)
     else if negb (S_ISDIR (a_mode a)) then Ok (-1, set_errno ENOTDIR s2)
     else
       let size := u32 (1 + zlen abs + cbool mid + (if copy_relative then zlen rel else 0) + 1) in
       if alloc_ok size then
         let new_cwd := [SLASH] ++ abs ++ (if mid then [SLASH] else []) ++
                        (if copy_relative then rel else []) in
         if zlen new_cwd + 1 <=? size then Ok (0, set_cwd new_cwd s2) else UB
       else Ok (-1, set_errno ENOMEM s2)).
Proof.
  intros Hfind Hv Hb Hf1 Hf2 Hh a s2 cr mid. unfold chdir. unfold sbind at 1, sget at 1. cbn [obind fst snd].
  unfold sbind in Hfind |- * at 1.
  destruct (find_relpath_alloc _ _ _ s) as [[[[f' abs'] v'] s0]| | |]; try done.
  cbn [obind fst snd] in Hfind |- *. injection Hfind as -> -> -> Hs1.
  rewrite (sbind_Ok _ _ _ tt s1) by (rewrite <- Hs1; reflexivity). rewrite (proj2 (Z.eqb_neq _ _) Hf1).
  erewrite sbind_Ok; [|apply points_read with (w := ChdirBuf) (str := rel)].
  2:{ unfold copy_ptr. rewrite Hv. cbn. by rewrite Hb. }
  unfold fstatat, cwd_or_abs. rewrite (proj2 (Z.eqb_neq _ _) Hf2), schar_0.
  assert ((default 0 (head rel) =? SLASH) = false) as ->.
  { destruct (head rel) as [x|]; [|done]. cbn. apply Z.eqb_neq. congruence. }
  cbn [orb]. rewrite (sbind_Ok _ _ _ (a_ret a, a_mode a) s2) by done.
  destruct (a_ret a =? -1); [done|]. destruct (negb (S_ISDIR (a_mode a))); [done|].
  fold cr. fold mid. cbv zeta. destruct (alloc_ok _); [|done]. by destruct (_ <=? _).
Qed.

Lemma find_relpath_linked w path s f rel :
  has_chdir = true -> inv s -> path_ok (cwd s) path -> (forall n, alloc_ok n = true) ->
  resolve (view_of s) path = Some (f, rel) -> f <> -1 /\
  exists n, 0 <= n /\ let v := copied (static_of w s) rel in
    find_relpath_in w path s =
      Ok (f, RStatic w (sgen v), set_static w v (set_errno (errno s) (set_make_absolute_len n s))).
Proof.
  intros Hch Hi Hp Ha. unfold resolve, find_relpath_in, find_relpath2. rewrite Hch.
  cbn [view_of v_table v_cwd].
  pose proof (proj2 (proj2 (proj2 (proj2 (proj2 Hi)))) w) as Hv.
  destruct (find_relpath_alloc_spec s path (static_of w s) Hi Hp Hv Hch)
    as (g & abs & v' & n & e & Hf & Hn & _ & Hl).
  destruct Hl as [abs v' E|abs v' [k Hk]|g abs r E]; [by rewrite E|by rewrite Ha in Hk|].
  rewrite E. intros [= -> ->]. destruct (find_abspath_rel _ _ _ _ _ E) as [? _]. split; [done|].
  exists n. split; [done|]. cbv zeta. unfold sbind, sget. cbn [obind fst snd]. rewrite Hf.
  cbn [obind fst snd sret sput]. unfold copy_ptr. by rewrite copied_ptr.
Qed.

Lemma copied_ok v rel : svar_ok v -> svar_ok (copied v rel).
Proof.
  intros [Hl _]. pose proof (zlen_nonneg rel). unfold copied.
  destruct (_ <? _); split; cbn; lia || done.
Qed.

Lemma copied_len v rel : slen (copied v rel) = Z.max (zlen rel + 1) (slen v).
Proof. unfold copied. destruct (Z.ltb_spec (slen v) (zlen rel + 1)); cbn; lia. Qed.

(** With chdir.c linked, [__wasilibc_link], to which [linkat] sends two
    paths that need resolving, looks both up in the same static buffer: when the
    second relative path fits in the block of the first one, the link is made
    from the relative path of the new name, not of the old one; when it does
    not, the first pointer dangles. *)
Theorem link_reads_wrong_path old new flags s f r g q :
  has_chdir = true -> inv s -> path_ok (cwd s) old -> path_ok (cwd s) new ->
  (forall n, alloc_ok n = true) ->
  resolve (view_of s) old = Some (f, r) -> resolve (view_of s) new = Some (g, q) ->
  if zlen q <=? Z.max (zlen r) (slen (rel_buf s) - 1)
  then exists a s', wasilibc_link old new flags s = Ok (a, s') /\
         log s' = log s ++ [Linkat f q g q flags]
  else wasilibc_link old new flags s = UB.
Proof.
  intros Hch Hi Hp Hq Ha Hr Hr2.
  destruct (find_relpath_linked RelBuf old s f r) as (Hf & n & Hn & Hf1); try done.
  cbv zeta in Hf1. set (v1 := copied _ _) in Hf1. set (s1 := set_static RelBuf v1 _) in Hf1.
  destruct (find_relpath_linked RelBuf new s1 g q) as (Hg & m & Hm & Hf2); try done.
  { apply inv_set_static; try done. apply copied_ok, Hi. }
  cbv zeta in Hf2. change (static_of RelBuf s1) with v1 in Hf2.
  set (v2 := copied v1 q) in Hf2. set (s2 := set_static RelBuf v2 _) in Hf2.
  assert (forall k, read_rel (RStatic RelBuf k) s2 =
    if (k =? sgen v2)%nat then Ok (q, s2) else UB) as Hread.
  { intros k. unfold read_rel, sbind, sget. cbn [obind fst snd]. change (static_of RelBuf s2) with v2.
    unfold v2 at 1. rewrite copied_ptr. by destruct (k =? sgen v2)%nat. }
  unfold wasilibc_link, find_relpath. rewrite (sbind_Ok _ _ _ _ _ Hf1), (sbind_Ok _ _ _ _ _ Hf2).
  rewrite (proj2 (Z.eqb_neq _ _) Hf), (proj2 (Z.eqb_neq _ _) Hg). cbn [orb].
  pose proof (copied_len (rel_buf s) r) as Hlen1. fold v1 in Hlen1.
  destruct (Z.leb_spec (zlen q) (Z.max (zlen r) (slen (rel_buf s) - 1))).
  - assert (sgen v1 = sgen v2) as Heq.
    { unfold v2, copied. destruct (Z.ltb_spec (slen v1) (zlen q + 1)); [|done].
      cbn [static_of] in *. unfold v1 in *. cbn [static_of] in *. lia. }
    rewrite (sbind_Ok _ _ _ q s2) by (rewrite Hread, Heq, Nat.eqb_refl; done).
    rewrite (sbind_Ok _ _ _ q s2) by (rewrite Hread, Nat.eqb_refl; done).
    cbn. eauto.
  - unfold sbind. rewrite Hread.
    assert ((sgen v1 =? sgen v2)%nat = false) as ->; [|done]. apply Nat.eqb_neq.
    unfold v2, copied. destruct (Z.ltb_spec (slen v1) (zlen q + 1)); cbn; [lia|].
    unfold v1 in *. cbn [static_of] in *. lia.
Qed.

(** C8: every path function but one keeps its promise: it makes exactly the [*at] call
    that the longest preopened prefix of the path (taken relative to the current
    directory when chdir.c is linked) prescribes and returns its result, and
    with no such prefix it fails with [ENOTCAPABLE] without a call; the only
    other result is the same failure when an allocation is refused.  It never
    reads a stale or null relative path.  The exception is [linkat] of two paths to
    resolve when chdir.c is linked, which looks both up in one static buffer: it links
    the relative path of the new name to itself, or, when that one did not fit into the
    buffer, reads a stale path. *)
Theorem posix_refines o s :
  inv s -> op_ok (cwd s) o ->
  (has_chdir = false \/ links_twice o = false ->
   exists r s', run o s = Ok (r, s') /\ inv s' /\
     ((r, view_of s') = abs_run o (view_of s) \/
      refused /\ r = failure o /\ view_of s' = v_fail (view_of s))) /\
  (forall d old e new flags f r g q, has_chdir = true -> o = OLinkat d old e new flags -> links_twice o = true ->
   (forall n, alloc_ok n = true) -> resolve (view_of s) old = Some (f, r) -> resolve (view_of s) new = Some (g, q) ->
   if zlen q <=? Z.max (zlen r) (slen (rel_buf s) - 1)
   then exists a s', run o s = Ok (a, s') /\ log s' = log s ++ [Linkat f q g q flags]
   else run o s = UB).
Proof.
  intros Hi Ho. split.
  - intros Hl. destruct o as [| | | | | | | | |path| | | | | | | | | | | | | | | | | | |].
    10:{ destruct Ho as [[Hp _]%Forall_cons _]. by apply run_remove. }
    all: pose proof (run_makes _ s Hi Ho Hl) as (r & s' & Hr & Hi' & Hc); exists r, s';
      split_and!; [done..|]; unfold abs_run; destruct (intended _ _) as [c|]; [|exact Hc];
      cbn [retry]; destruct Hc as [Hc|Hc]; [left; rewrite Hc; by destruct (v_call c _)|by right].
  - intros d old e new flags f r g q Hch -> Hl Ha Hr Hq. destruct Ho as [[Hp1 [Hp2 _]%Forall_cons]%Forall_cons _].
    cbn [run links_twice] in *. unfold linkat. rewrite Hl. by apply link_reads_wrong_path.
Qed.

Lemma getcwd_fits n s : zlen (cwd s) + 1 <= n -> zlen (cwd s) + 1 < 2 ^ 32 ->
  getcwd (Some n) s = Ok (Some (cwd s), s).
Proof.
  intros Hn Hm. pose proof (zlen_nonneg (cwd s)). unfold getcwd, sbind, sget. cbn [obind fst snd].
  rewrite u32_id by (bounds; lia). destruct (Z.ltb_spec n (zlen (cwd s) + 1)); [lia|done].
Qed.

Lemma new_cwd_directory abs rel : cstring abs ->
  let copy_relative := negb (bool_decide (rel = [DOT])) in
  let mid := copy_relative && negb (schar abs 0 =? 0) in
  let new_cwd := [SLASH] ++ abs ++ (if mid then [SLASH] else []) ++
                 (if copy_relative then rel else []) in
  new_cwd = directory abs rel /\
  zlen new_cwd = 1 + zlen abs + cbool mid + (if copy_relative then zlen rel else 0).
Proof.
  intros Ha. cbv zeta. split.
  - unfold directory. do 2 f_equal. destruct (bool_decide_reflect (rel = [DOT])); [done|]. cbn [negb andb].
    f_equal. destruct abs as [|x abs]; [done|]. inversion Ha; subst.
    change (schar (x :: abs) 0) with x. rewrite (proj2 (Z.eqb_neq x 0)) by done.
    by rewrite bool_decide_eq_false_2.
  - rewrite !zlen_app. change (zlen [SLASH]) with 1.
    destruct (bool_decide (rel = [DOT])), (schar abs 0 =? 0); cbn [negb andb cbool];
      rewrite ?zlen_cons; change (zlen (@nil Z)) with 0; lia.
Qed.

Lemma directory_cstring abs rel : cstring abs -> cstring rel -> cstring (directory abs rel).
Proof.
  intros Ha Hr. unfold directory. rewrite !cstring_app. split_and!; [by repeat constructor|done|].
  case_bool_decide; [constructor|]. rewrite cstring_app. split; [|done].
  case_bool_decide; by repeat constructor.
Qed.

(** What [chdir] has done when it returns [ret] in [s'] : the current directory
    is unchanged, for one of four reasons, or it is the directory the path
    designates, which the host has confirmed to be one. *)
Definition chdir_unchanged (dirinfo : Z) (path : list Z) (s s' : process) : Prop :=
  cwd s' = cwd s /\
  (errno s' = ENOMEM /\ refused \/
   errno s' = ENOENT /\ log s' = log s /\ resolve (view_of s) path = None \/
   exists f rel, resolve (view_of s) path = Some (f, rel) /\
     log s' = log s ++ [Fstatat f rel dirinfo 0] /\
     let a := host (log s) (Fstatat f rel dirinfo 0) in
     a_ret a = -1 \/ S_ISDIR (a_mode a) = false /\ errno s' = ENOTDIR).

Definition chdir_moved (dirinfo : Z) (path : list Z) (s s' : process) : Prop :=
  exists f abs rel,
    find_abspath (preopens s) (absolute (cwd s) path) = Val (f, abs, rel) /\
    log s' = log s ++ [Fstatat f rel dirinfo 0] /\
    S_ISDIR (a_mode (host (log s) (Fstatat f rel dirinfo 0))) = true /\
    cwd s' = directory abs rel.

Lemma chdir_found dirinfo path s n f abs rel :
  has_chdir = true -> inv s -> path_ok (cwd s) path -> prefixes_ok s path -> 0 <= n ->
  find_relpath_alloc path (chdir_buf s) true s =
    Ok (f, abs, copied (chdir_buf s) rel, set_errno (errno s) (set_make_absolute_len n s)) ->
  find_abspath (preopens s) (absolute (cwd s) path) = Val (f, abs, rel) ->
  exists ret s', chdir dirinfo path s = Ok (ret, s') /\ inv s' /\
    (ret = -1 /\ chdir_unchanged dirinfo path s s' \/ ret = 0 /\ chdir_moved dirinfo path s s').
Proof.
  intros Hch Hi [Hcp Hlp] Hpre Hn Hf E. pose proof Hi as (_ & Hcs & _ & Hg & Hat & Hst).
  set (s1 := set_static ChdirBuf (copied (chdir_buf s) rel) (set_errno (errno s) (set_make_absolute_len n s))).
  assert (inv s1) as Hi1 by (apply inv_set_static, copied_ok, (Hst ChdirBuf); done).
  pose proof (absolute_cstring _ _ Hcs Hcp) as Hcabs.
  destruct (find_abspath_rel _ _ _ _ _ E) as (Hf1 & Hrl & Hhd).
  destruct (find_abspath_entry _ _ _ _ _ Hg Hcabs E) as (en & Hen & <- & <-).
  eapply Forall_forall in Hat; [|exact Hen]. eapply Forall_forall in Hpre as [Hcpre Hlpre]; [|exact Hen].
  pose proof (find_abspath_cstring _ _ _ _ _ Hcabs E) as Hcrel.
  pose proof (absolute_len (cwd s) path) as Habs.
  destruct (new_cwd_directory (prefix en) rel Hcpre) as [Hdir Hzl].
  unfold chdir_unchanged, resolve. rewrite Hch. cbn [view_of v_table v_cwd]. rewrite E.
  rewrite (chdir_stat dirinfo path s s1 (fd en) (prefix en) rel (copied (chdir_buf s) rel));
    [|by rewrite (sbind_Ok _ _ _ _ _ Hf)|apply copied_ptr|done..].
  cbv zeta. change (log s1) with (log s). set (a := host (log s) _).
  set (s2 := add_call _ (a_errno a) s1). assert (inv s2) as Hi2 by (by apply inv_call).
  rewrite Hzl, Hdir. set (size := 1 + zlen (prefix en) + _ + _) in *.
  assert (0 <= size + 1 < 2 ^ 32) as Hsize.
  { pose proof (zlen_nonneg (cwd s)). pose proof (zlen_nonneg path). pose proof (zlen_nonneg (prefix en)).
    subst size. destruct (bool_decide _), (schar _ _ =? 0); cbn [negb andb cbool]; bounds; lia. }
  rewrite u32_id by (exact Hsize). rewrite Z.leb_refl.
  destruct (Z.eqb_spec (a_ret a) (-1)).
  { exists (-1), s2. split_and!; [done|done|]. left. split_and!; try done.
    right. right. exists (fd en), rel. split_and!; try done. by left. }
  destruct (S_ISDIR (a_mode a)) eqn:Ed; cbn [negb].
  2:{ exists (-1), (set_errno ENOTDIR s2). split_and!; [done|by apply inv_errno|].
    left. split_and!; try done. right. right. exists (fd en), rel. split_and!; try done. by right. }
  destruct (alloc_ok _) eqn:Ea.
  - exists 0, (set_cwd (directory (prefix en) rel) s2).
    split_and!; [done|apply inv_cwd; [done|done|by apply directory_cstring]|].
    right. split; [done|]. exists (fd en), (prefix en), rel. split_and!; done.
  - exists (-1), (set_errno ENOMEM s2). split_and!; [done|by apply inv_errno|].
    left. split_and!; try done. left. split; [done|]. by eexists.
Qed.

(** [chdir] asks the host about exactly the directory the path designates;
    when it is one, the current directory becomes its absolute name, which
    [getcwd] then gives to every caller with a large enough buffer; in every
    other case (no memory, no preopened prefix, a failed query, not a directory)
    it stays as it was.  The current directory is always an absolute path. *)
Theorem chdir_getcwd dirinfo path s :
  has_chdir = true -> inv s -> path_ok (cwd s) path -> prefixes_ok s path ->
  exists ret s', chdir dirinfo path s = Ok (ret, s') /\ inv s' /\ head (cwd s') = Some SLASH /\
    (forall n, zlen (cwd s') + 1 <= n -> zlen (cwd s') + 1 < 2 ^ 32 ->
       getcwd (Some n) s' = Ok (Some (cwd s'), s')) /\
    (ret = -1 /\ chdir_unchanged dirinfo path s s' \/ ret = 0 /\ chdir_moved dirinfo path s s').
Proof.
  intros Hch Hi Hp Hpre.
  assert (exists ret s', chdir dirinfo path s = Ok (ret, s') /\ inv s' /\
    (ret = -1 /\ chdir_unchanged dirinfo path s s' \/ ret = 0 /\ chdir_moved dirinfo path s s'))
    as (ret & s' & Hr & Hi' & Hc).
  { pose proof (proj2 (proj2 (proj2 (proj2 (proj2 Hi)))) ChdirBuf) as Hv. cbn [static_of] in Hv.
    destruct (find_relpath_alloc_spec s path (chdir_buf s) Hi Hp Hv Hch)
      as (f & abs & v & n & e & Hf & Hn & Hv' & Hl).
    destruct Hl as [abs v' E|abs v' Hr|f abs rel E]; [| |by eapply chdir_found].
    all: eexists (-1), _; split_and!;
      [unfold chdir; unfold sbind at 1, sget; cbn [obind fst snd]; by rewrite (sbind_Ok _ _ _ _ _ Hf)
      |by apply inv_set_static|]; left; split; [done|]; split; [done|].
    - right. left. unfold resolve. rewrite Hch. cbn. by rewrite E.
    - by left. }
  exists ret, s'. split_and!; [done..|apply Hi'|intros n; apply getcwd_fits|done].
Qed.

End Ops.

(** One preopened directory "a" (descriptor 3); the host says that everything is
    a directory and that every call succeeds. *)
Definition demo_process : process := initial (mk_table [mk_preopen [97] 3] 4).
Definition demo_host (_ : list at_call) (_ : at_call) : answer := mk_answer 0 None S_IFDIR.

Lemma demo_inv b : inv b demo_process.
Proof.
  split_and!; try done; try (by repeat constructor). intros w; by destruct w.
Qed.

Lemma demo_path b : b <> 0 -> path_ok (cwd demo_process) [47; 97; 47; b].
Proof. intros Hb. split; [by repeat constructor|done]. Qed.

Lemma posix_refines_witness :
  exists s', run true (fun _ => true) demo_host (ORename [47; 97; 47; 98] [47; 97; 47; 99]) demo_process
    = Ok (0, s') /\ log s' = [Renameat 3 [98] 3 [99]].
Proof.
  destruct (posix_refines true (fun _ => true) demo_host (ORename [47; 97; 47; 98] [47; 97; 47; 99])
    demo_process) as [(r & s' & Hr & _ & [Hc|[[n Hn] _]]) _].
  - apply demo_inv.
  - split; [|done]. cbn [paths].
    apply Forall_cons_2; [by apply demo_path|]. apply Forall_cons_2; [by apply demo_path|apply Forall_nil_2].
  - by right.
  - exists s'. injection Hc as -> _ _ _ Hlog. split; [exact Hr|exact Hlog].
  - discriminate Hn.
Defined.

Lemma link_reads_wrong_path_witness :
  exists a s', wasilibc_link true (fun _ => true) demo_host [47; 97; 47; 98] [47; 97; 47; 99] 0 demo_process
    = Ok (a, s') /\ log s' = [Linkat 3 [99] 3 [99] 0].
Proof.
  apply (link_reads_wrong_path true (fun _ => true) demo_host [47; 97; 47; 98] [47; 97; 47; 99] 0
    demo_process 3 [98] 3 [99]); try reflexivity; try (by apply demo_path). apply demo_inv.
Defined.

Lemma chdir_getcwd_witness :
  exists s', chdir true (fun _ => true) demo_host 1000 [47; 97; 47; 98] demo_process = Ok (0, s') /\
    getcwd (fun _ => true) (Some 5) s' = Ok (Some [47; 97; 47; 98], s').
Proof.
  destruct (chdir_getcwd true (fun _ => true) demo_host 1000 [47; 97; 47; 98] demo_process)
    as (ret & s' & Hr & _ & _ & Hg & _); try done.
  - apply demo_inv.
  - by apply demo_path.
  - by repeat constructor.
  - assert (Ok (ret, s') = chdir true (fun _ => true) demo_host 1000 [47; 97; 47; 98] demo_process) as E
      by (by rewrite Hr). vm_compute in E. injection E as -> ->. eexists. split; [exact Hr|].
    apply Hg; vm_compute; done.
Defined.

End Posix.
