(* ===== verification/Multibyte.v ===== *)
(** Character encodings: the UTF-8 conversion functions of wasi-libc's top half
    (libc-top-half/musl/src/multibyte/).

    A byte string is the list of the bytes from the pointer on, and reading past
    its end is undefined.  [utf8] is [CURRENT_UTF8]: [MB_CUR_MAX] is 4 or 1. *)

From S2P Require Import Prelude.

Module Multibyte.

(** *** internal.h and internal.c *)

Definition SA : Z := 194.
Definition SB : Z := 244.
Definition EOF : Z := -1.
Definition WEOF : Z := 4294967295.

(** [R(a,b)]: the state bits that make the next byte lie in [[a, b)]. *)
Definition R (a b : Z) : Z := u32 (u32 (if a =? 128 then 64 - b else 0 - a) * 2 ^ 23).

Definition C (x : Z) : Z := if x <? 2 then u32 (-1) else Z.lor (R 128 192) x.
Definition D (x : Z) : Z := C (x + 16).
Definition E (x : Z) : Z :=
  Z.lor (Z.lor (if x =? 0 then R 160 192 else if x =? 13 then R 128 160 else R 128 192)
               (Z.shiftr (R 128 192) 6)) x.
Definition F (x : Z) : Z :=
  Z.lor (Z.lor (Z.lor (if 5 <=? x then 0 else if x =? 0 then R 144 192
                       else if x =? 4 then R 128 144 else R 128 192)
                      (Z.shiftr (R 128 192) 6)) (Z.shiftr (R 128 192) 12)) x.

Definition digits : list Z := [0; 1; 2; 3; 4; 5; 6; 7; 8; 9; 10; 11; 12; 13; 14; 15].
Definition bittab : list Z :=
  Eval vm_compute in
  map C (drop 2 digits) ++ map D digits ++ map E digits ++ map F (take 5 digits).

Definition OOB (c b : Z) : bool :=
  ctrue (Z.land (Z.lor (Z.shiftr b 3 - 16) (Z.shiftr b 3 + Z.shiftr (s32 c) 26)) (-8)).

Definition CODEUNIT (c : Z) : Z := Z.land 57343 (s8 c).
Definition IS_CODEUNIT (c : Z) : bool := u32 (u32 c - 57216) <? 128.

(** [c & (1U<<31)] *)
Definition high (c : Z) : bool := Z.testbit c 31.
(** [c<<6 | b-0x80] *)
Definition shift_in (c b : Z) : Z := Z.lor (u32 (c * 64)) (u32 (b - 128)).
(** [b-0x80u >= 0x40] *)
Definition not_cont (b : Z) : bool := 64 <=? u32 (b - 128).

(** The value returned, the conversion state, the wide character stored if any
    and whether errno is set to [EILSEQ]. *)
Record mb := mk_mb { ret : Z; st : Z; wc : option Z; err : bool }.
Definition ilseq : mb := mk_mb (u32 (-1)) 0 None true.

Section Locale.
Variable utf8 : bool.

(** *** mbrtowc *)

(** From [loop:]; [N - n] bytes have been read. *)
Fixpoint mbrtowc_loop (s : list Z) (N n c : Z) : outcome mb :=
  match s with
  | [] => UB
  | b :: s =>
      let c := shift_in c b in
      let n := n - 1 in
      if negb (high c) then Ok (mk_mb (N - n) 0 (Some c) false)
      else if ctrue n then
        match s with
        | [] => UB
        | b' :: _ => if not_cont b' then Ok ilseq else mbrtowc_loop s N n c
        end
      else Ok (mk_mb (u32 (-2)) c None false)
  end.

(** From [if (n) {]. *)
Definition mbrtowc_cont (s : list Z) (N n c : Z) : outcome mb :=
  if ctrue n then
    let! b := zget s 0 in
    if OOB c b then Ok ilseq else mbrtowc_loop s N n c
  else Ok (mk_mb (u32 (-2)) c None false).

(** [src] is [None] for a null pointer; [c] the value of the state. *)
Definition mbrtowc (src : option (list Z)) (n c : Z) : outcome mb :=
  match src with
  | None => if ctrue c then Ok ilseq else Ok (mk_mb 0 c None false)
  | Some s =>
      if negb (ctrue n) then Ok (mk_mb (u32 (-2)) c None false) else
      if negb (ctrue c) then
        let! b := zget s 0 in
        if b <? 128 then Ok (mk_mb (cbool (ctrue b)) c (Some b) false)
        else if negb utf8 then Ok (mk_mb 1 c (Some (CODEUNIT b)) false)
        else if SB - SA <? u32 (b - SA) then Ok ilseq
        else let! c := zget bittab (b - SA) in mbrtowc_cont (drop 1 s) n (n - 1) c
      else mbrtowc_cont s n n c
  end.

Definition mbrlen (s : option (list Z)) (n c : Z) : outcome mb := mbrtowc s n c.

Definition mbsinit (st : option Z) : Z :=
  match st with None => 1 | Some c => cbool (negb (ctrue c)) end.

(** *** mbtowc: the value returned, what is stored and errno. *)

Definition mbtowc (src : option (list Z)) (n : Z) : outcome mb :=
  let ilseq := mk_mb (-1) 0 None true in
  match src with
  | None => Ok (mk_mb 0 0 None false)
  | Some s =>
      if negb (ctrue n) then Ok ilseq else
      let! b := zget s 0 in
      if b <? 128 then Ok (mk_mb (cbool (ctrue b)) 0 (Some b) false)
      else if negb utf8 then Ok (mk_mb 1 0 (Some (CODEUNIT b)) false)
      else if SB - SA <? u32 (b - SA) then Ok ilseq
      else
      let! c := zget bittab (b - SA) in
      if (n <? 4) && high (u32 (Z.shiftl c (6 * n - 6))) then Ok ilseq else
      let! b := zget s 1 in
      if OOB c b then Ok ilseq else
      let c := shift_in c b in
      if negb (high c) then Ok (mk_mb 2 0 (Some c) false) else
      let! b := zget s 2 in
      if not_cont b then Ok ilseq else
      let c := shift_in c b in
      if negb (high c) then Ok (mk_mb 3 0 (Some c) false) else
      let! b := zget s 3 in
      if not_cont b then Ok ilseq else
      Ok (mk_mb 4 0 (Some (shift_in c b)) false)
  end.

Definition mblen (s : option (list Z)) (n : Z) : outcome mb := mbtowc s n.

(** *** wcrtomb, of a non-null buffer: the bytes stored, whose number is the
    value returned, or [EILSEQ]. *)

Definition wcrtomb (wc : Z) : res (list Z) :=
  let w := u32 wc in
  if w <? 128 then Val [u8 wc]
  else if negb utf8 then if negb (IS_CODEUNIT wc) then Err EILSEQ else Val [u8 wc]
  else if w <? 2048 then Val [u8 (Z.lor 192 (Z.shiftr wc 6)); u8 (Z.lor 128 (Z.land wc 63))]
  else if (w <? 55296) || (u32 (w - 57344) <? 8192) then
    Val [u8 (Z.lor 224 (Z.shiftr wc 12)); u8 (Z.lor 128 (Z.land (Z.shiftr wc 6) 63));
         u8 (Z.lor 128 (Z.land wc 63))]
  else if u32 (w - 65536) <? 1048576 then
    Val [u8 (Z.lor 240 (Z.shiftr wc 18)); u8 (Z.lor 128 (Z.land (Z.shiftr wc 12) 63));
         u8 (Z.lor 128 (Z.land (Z.shiftr wc 6) 63)); u8 (Z.lor 128 (Z.land wc 63))]
  else Err EILSEQ.

(** [wctomb] of a non-null buffer; a null one gives 0. *)
Definition wctomb (s : bool) (wc : Z) : res (list Z) := if negb s then Val [] else wcrtomb wc.
Definition c32rtomb (c32 : Z) : res (list Z) := wcrtomb (s32 c32).

Definition btowc (c : Z) : Z :=
  let b := u8 c in
  if b <? 128 then b
  else if negb utf8 && negb (c =? EOF) then u32 (CODEUNIT c) else WEOF.

Definition wctob (c : Z) : Z :=
  if c <? 128 then c else if negb utf8 && IS_CODEUNIT c then u8 c else EOF.

(** *** char16_t and char32_t *)

(** The value returned with the bytes stored, or [EILSEQ], and the state; [s] is
    false for a null buffer. *)
Definition with_len (r : res (list Z)) : res (Z * list Z) :=
  match r with Val bs => Val (zlen bs, bs) | Err e => Err e end.

Definition c16rtomb (s : bool) (c16 x : Z) : res (Z * list Z) * Z :=
  if negb s then if ctrue x then (Err EILSEQ, 0) else (Val (1, []), x)
  else if negb (ctrue x) && (u32 (c16 - 55296) <? 1024)
  then (Val (0, []), u32 ((c16 - 55232) * 1024))
  else if ctrue x then
    if 1024 <=? u32 (c16 - 56320) then (Err EILSEQ, 0)
    else (with_len (wcrtomb (s32 (u32 (x + c16 - 56320)))), 0)
  else (with_len (wcrtomb c16), x).

(** [wc] is the code unit stored.  A null [s] stands for the empty string. *)
Definition mbrtoc16 (src : option (list Z)) (n pending : Z) : outcome mb :=
  let '(s, n) := match src with None => ([0], 1) | Some s => (s, n) end in
  if 0 <? s32 pending then Ok (mk_mb (u32 (-3)) 0 (Some (u16 pending)) false) else
  let! r := mbrtowc (Some s) n pending in
  if ret r <=? 4 then
    let! w := deref (wc r) in
    if 65536 <=? w then
      Ok (mk_mb (ret r) (Z.land w 1023 + 56320) (Some (u16 (55232 + Z.shiftr w 10))) (err r))
    else Ok (mk_mb (ret r) (st r) (Some (u16 w)) (err r))
  else Ok r.

Definition mbrtoc32 (src : option (list Z)) (n c : Z) : outcome mb :=
  let '(s, n) := match src with None => ([0], 1) | Some s => (s, n) end in
  mbrtowc (Some s) n c.

(** *** Strings: wcsrtombs *)

(** The value returned, the bytes stored, and the wide string left in [*ws]
    ([None] when it is set to a null pointer). *)
Record wcs := mk_wcs { w_ret : Z; w_out : list Z; w_src : option (list Z); w_err : bool }.

Fixpoint wcsrtombs_count (ws : list Z) (n : Z) : outcome Z :=
  match ws with
  | [] => UB
  | w :: ws =>
      if w =? 0 then Ok n
      else if 128 <=? u32 w then
        match wcrtomb w with
        | Err _ => Ok (u32 (-1))
        | Val bs => wcsrtombs_count ws (u32 (n + zlen bs))
        end
      else wcsrtombs_count ws (u32 (n + 1))
  end.

(** Both loops: the second one, for [n < 4], tries the character in [buf] first. *)
Fixpoint wcsrtombs_loop (ws : list Z) (N n : Z) (out : list Z) : outcome wcs :=
  if n =? 0 then Ok (mk_wcs N out (Some ws) false) else
  match ws with
  | [] => UB
  | w :: ws' =>
      if 127 <=? u32 (w - 1) then
        if w =? 0 then Ok (mk_wcs (N - n) (out ++ [0]) None false)
        else match wcrtomb w with
             | Err _ => Ok (mk_wcs (u32 (-1)) out (Some ws) true)
             | Val bs =>
                 if (n <? 4) && (n <? zlen bs) then Ok (mk_wcs (N - n) out (Some ws) false)
                 else wcsrtombs_loop ws' N (n - zlen bs) (out ++ bs)
             end
      else wcsrtombs_loop ws' N (n - 1) (out ++ [u8 w])
  end.

(** [s] is false for a null buffer, which leaves [*ws] alone. *)
Definition wcsrtombs (s : bool) (ws : list Z) (n : Z) : outcome wcs :=
  if negb s then
    let! r := wcsrtombs_count ws 0 in
    Ok (mk_wcs r [] (Some ws) (r =? u32 (-1)))
  else wcsrtombs_loop ws n n [].

Definition wcstombs (s : bool) (ws : list Z) (n : Z) : outcome wcs := wcsrtombs s ws n.

(** *** Strings: mbsrtowcs

    [mem] is the readable memory from [*src] on, at address [addr]; a position
    is an offset into it.  The result: the value returned, the wide characters
    stored, the position left in [*src] ([None] for a null pointer), the state
    and whether errno is set. *)
Record mbs := mk_mbs { s_ret : Z; s_out : list Z; s_src : option Z; s_st : Z; s_err : bool }.

(** Memory is little-endian. *)
Definition load32 (mem : list Z) (i : Z) : outcome Z :=
  let! b0 := zget mem i in let! b1 := zget mem (i + 1) in
  let! b2 := zget mem (i + 2) in let! b3 := zget mem (i + 3) in
  Ok (b0 + b1 * 2 ^ 8 + b2 * 2 ^ 16 + b3 * 2 ^ 24).

(** [!(( w | w-0x01010101) & 0x80808080)] *)
Definition ascii4 (w : Z) : bool :=
  negb (ctrue (Z.land (Z.lor w (u32 (w - 16843009))) 2155905152)).

Section Mbsrtowcs.
Variable mem : list Z.
Variable addr : Z.

(** The four-characters-at-a-time loop, with a buffer: position, [wn], output. *)
Fixpoint ascii_store (fuel : nat) (i wn : Z) (out : list Z) : outcome (Z * Z * list Z) :=
  match fuel with
  | O => NoFuel
  | S f =>
      if wn <? 5 then Ok (i, wn, out) else
      let! w := load32 mem i in
      if ascii4 w then
        let! b0 := zget mem i in let! b1 := zget mem (i + 1) in
        let! b2 := zget mem (i + 2) in let! b3 := zget mem (i + 3) in
        ascii_store f (i + 4) (wn - 4) (out ++ [b0; b1; b2; b3])
      else Ok (i, wn, out)
  end.

(** The same loop without a buffer, counting. *)
Fixpoint ascii_count (fuel : nat) (i wn : Z) : outcome (Z * Z) :=
  match fuel with
  | O => NoFuel
  | S f =>
      let! w := load32 mem i in
      if ascii4 w then ascii_count f (i + 4) (u32 (wn - 4)) else Ok (i, wn)
  end.

(** From [resume:]: the character and the position after it, or the position of
    the error. *)
Definition resume (c i : Z) : outcome (Z * Z + Z) :=
  let! b := zget mem i in
  if OOB c b then Ok (inr (i - 1)) else
  let c := shift_in c b in
  if high c then
    let! b := zget mem (i + 1) in
    if not_cont b then Ok (inr (i + 1 - 2)) else
    let c := shift_in c b in
    if high c then
      let! b := zget mem (i + 2) in
      if not_cont b then Ok (inr (i + 2 - 3)) else Ok (inl (shift_in c b, i + 3))
    else Ok (inl (c, i + 2))
  else Ok (inl (c, i + 1)).

(** From [resume0:]: the position after the character or of the error. *)
Definition resume0 (c i : Z) : outcome (Z + Z) :=
  let! b := zget mem i in
  if OOB c b then Ok (inr (i - 1)) else
  if Z.testbit c 25 then
    let! b := zget mem (i + 1) in
    if not_cont b then Ok (inr (i + 1 - 2)) else
    if Z.testbit c 19 then
      let! b := zget mem (i + 2) in
      if not_cont b then Ok (inr (i + 2 - 3)) else Ok (inl (i + 3))
    else Ok (inl (i + 2))
  else Ok (inl (i + 1)).

Definition mbs_error (out : list Z) (src : option Z) (st : Z) : mbs :=
  mk_mbs (u32 (-1)) out src st true.

Fixpoint mbs_store (fuel : nat) (i wn0 wn : Z) (out : list Z) : outcome mbs :=
  match fuel with
  | O => NoFuel
  | S f =>
      if wn =? 0 then Ok (mk_mbs wn0 out (Some i) 0 false) else
      let! b := zget mem i in
      let! r := if (u32 (b - 1) <? 127) && ((addr + i) mod 4 =? 0)
                then ascii_store (length mem) i wn out else Ok (i, wn, out) in
      let '(i, wn, out) := r in
      let! b := zget mem i in
      if u32 (b - 1) <? 127 then mbs_store f (i + 1) wn0 (wn - 1) (out ++ [b])
      else if SB - SA <? u32 (b - SA) then
        if b =? 0 then Ok (mk_mbs (u32 (wn0 - wn)) (out ++ [0]) None 0 false)
        else Ok (mbs_error out (Some i) 0)
      else
        let! c := zget bittab (b - SA) in
        let! r := resume c (i + 1) in
        match r with
        | inr j => Ok (mbs_error out (Some j) 0)
        | inl (w, j) => mbs_store f j wn0 (wn - 1) (out ++ [w])
        end
  end.

(** Without a buffer [*src] and [*st] are left alone: position 0, state [st]. *)
Fixpoint mbs_count (fuel : nat) (st i wn0 wn : Z) : outcome mbs :=
  match fuel with
  | O => NoFuel
  | S f =>
      let! b := zget mem i in
      let! r := if (u32 (b - 1) <? 127) && ((addr + i) mod 4 =? 0)
                then ascii_count (length mem) i wn else Ok (i, wn) in
      let '(i, wn) := r in
      let! b := zget mem i in
      if u32 (b - 1) <? 127 then mbs_count f st (i + 1) wn0 (u32 (wn - 1))
      else if SB - SA <? u32 (b - SA) then
        if b =? 0 then Ok (mk_mbs (u32 (wn0 - wn)) [] (Some 0) st false)
        else Ok (mbs_error [] (Some 0) st)
      else
        let! c := zget bittab (b - SA) in
        let! r := resume0 c (i + 1) in
        match r with
        | inr j => Ok (mbs_error [] (Some 0) st)
        | inl j => mbs_count f st j wn0 (u32 (wn - 1))
        end
  end.

(** The single-byte locale. *)
Fixpoint codeunits (fuel : nat) (i wn0 wn : Z) (out : list Z) : outcome mbs :=
  match fuel with
  | O => NoFuel
  | S f =>
      if wn =? 0 then Ok (mk_mbs wn0 out (Some i) 0 false) else
      let! b := zget mem i in
      if b =? 0 then Ok (mk_mbs (wn0 - wn) (out ++ [0]) None 0 false)
      else codeunits f (i + 1) wn0 (wn - 1) (out ++ [CODEUNIT b])
  end.

Fixpoint strlen_from (fuel : nat) (i : Z) : outcome Z :=
  match fuel with
  | O => NoFuel
  | S f => let! b := zget mem i in if b =? 0 then Ok i else strlen_from f (i + 1)
  end.

(** [ws] is false for a null buffer; [st] is the state, 0 for a null [st]. *)
Definition mbsrtowcs (ws : bool) (wn st : Z) : outcome mbs :=
  let fuel := S (length mem) in
  if ctrue st then
    if ws then
      let! r := resume st 0 in
      match r with
      | inr j => Ok (mbs_error [] (Some j) 0)
      | inl (w, j) => mbs_store fuel j wn (u32 (wn - 1)) [w]
      end
    else
      let! r := resume0 st 0 in
      match r with
      | inr j => Ok (mbs_error [] (Some 0) st)
      | inl j => mbs_count fuel st j wn (u32 (wn - 1))
      end
  else if negb utf8 then
    if negb ws then let! l := strlen_from fuel 0 in Ok (mk_mbs l [] (Some 0) st false)
    else codeunits fuel 0 wn wn []
  else if negb ws then mbs_count fuel st 0 wn wn
  else mbs_store fuel 0 wn wn [].

Definition mbstowcs (ws : bool) (wn : Z) : outcome mbs := mbsrtowcs ws wn 0.

End Mbsrtowcs.

End Locale.

(** ** Specification *)

Definition scalar (w : Z) : Prop := 0 <= w < 55296 \/ 57344 <= w < 1114112.

(** The UTF-8 encoding of a scalar value. *)
Definition encode (w : Z) : list Z :=
  if w <? 128 then [w]
  else if w <? 2048 then [192 + w / 64; 128 + w mod 64]
  else if w <? 65536 then [224 + w / 4096; 128 + w / 64 mod 64; 128 + w mod 64]
  else [240 + w / 262144; 128 + w / 4096 mod 64; 128 + w / 64 mod 64; 128 + w mod 64].

(** An incremental decoder: between characters, after a lead byte, or with [k]
    bytes to come after the value [v]. *)
Inductive pst := Start | Lead (l : Z) | More (k : nat) (v : Z).
#[global] Instance pst_eq_dec : EqDecision pst.
Proof. solve_decision. Defined.
Inductive step := Reject | Done (w : Z) | Next (p : pst).

Definition second_ok (l b : Z) : bool :=
  ((if l =? 224 then 160 else if l =? 240 then 144 else 128) <=? b) &&
  (b <? (if l =? 237 then 160 else if l =? 244 then 144 else 192)).
Definition lead_more (l : Z) : nat := if l <? 224 then 0 else if l <? 240 then 1 else 2.
Definition lead_bits (l : Z) : Z := if l <? 224 then l - 192 else if l <? 240 then l - 224 else l - 240.
Definition advance (k : nat) (v : Z) : step := match k with O => Done v | S _ => Next (More k v) end.

Definition feed (p : pst) (b : Z) : step :=
  match p with
  | Start => if b <? 128 then Done b else if (194 <=? b) && (b <=? 244) then Next (Lead b) else Reject
  | Lead l => if second_ok l b then advance (lead_more l) (lead_bits l * 64 + (b - 128)) else Reject
  | More k v => if (128 <=? b) && (b <? 192) then advance (Nat.pred k) (v * 64 + (b - 128)) else Reject
  end.

Inductive decoded := Invalid | Partial (p : pst) | Char (w : Z) (read : Z).

Fixpoint decode (p : pst) (s : list Z) (read : Z) : decoded :=
  match s with
  | [] => Partial p
  | b :: s => match feed p b with
              | Reject => Invalid
              | Done w => Char w (read + 1)
              | Next p => decode p s (read + 1)
              end
  end.

(** The representation of the decoder in an [mbstate_t]. *)
Definition word (p : pst) : Z :=
  match p with
  | Start => 0
  | Lead l => default 0 (bittab !! Z.to_nat (l - SA))
  | More 1 v => 3221225472 + v
  | More _ v => 3271557120 + v
  end.

Definition valid_pst (p : pst) : Prop :=
  match p with
  | Start => True
  | Lead l => 194 <= l <= 244
  | More k v => k = 1%nat /\ 0 < v < 2 ^ 15 \/ k = 2%nat /\ 0 < v < 2 ^ 9
  end.

Definition bytes (s : list Z) : Prop := Forall (fun b => 0 <= b < 256) s.

(** ** The decoder *)

Lemma forall_range (f : Z -> bool) a n :
  forallb f (seqZ a n) = true -> forall x, a <= x < a + n -> f x = true.
Proof. rewrite forallb_forall. intros H x Hx. apply H, list_elem_of_In, elem_of_seqZ. lia. Qed.

Definition lead_step_ok (l b : Z) : bool :=
  let c := word (Lead l) in
  let c' := shift_in c b in
  negb (c =? 0) &&
  match feed (Lead l) b with
  | Reject => OOB c b
  | Done w => negb (OOB c b) && (c' =? w) && negb (high c') && (0 <? w)
  | Next p => negb (OOB c b) && (c' =? word p) && high c' &&
              match p with
              | More 1 v => (0 <? v) && (v <? 2 ^ 15)
              | More 2 v => (0 <? v) && (v <? 2 ^ 9)
              | _ => false
              end
  end.

Lemma lead_steps l b : 194 <= l <= 244 -> 0 <= b < 256 -> lead_step_ok l b = true.
Proof.
  intros Hl Hb.
  assert (forallb (fun l => forallb (lead_step_ok l) (seqZ 0 256)) (seqZ 194 51) = true) as H
    by (vm_compute; reflexivity).
  apply (forall_range (lead_step_ok l) 0 256); [|lia].
  apply (forall_range (fun l => forallb (lead_step_ok l) (seqZ 0 256)) 194 51); [done|lia].
Qed.

Lemma lead_word b : 194 <= b <= 244 -> zget bittab (b - 194) = Ok (word (Lead b)).
Proof.
  intros Hb. destruct (zget_in_range bittab (b - 194)) as [x Hx]; [change (zlen bittab) with 51; lia|].
  rewrite Hx. apply zget_lookup in Hx as [_ Hx]. cbn [word]. unfold SA. by rewrite Hx.
Qed.

(** [*s-SA > SB-SA] *)
Lemma bad_lead b : 128 <= b < 256 -> (SB - SA <? u32 (b - SA)) = negb ((194 <=? b) && (b <=? 244)).
Proof.
  intros Hb. apply eqb_true_iff.
  apply (forall_range (fun b => eqb (SB - SA <? u32 (b - SA)) (negb ((194 <=? b) && (b <=? 244)))) 128 128);
    [vm_compute; reflexivity|lia].
Qed.

Lemma not_cont_range b : 0 <= b < 256 -> not_cont b = negb ((128 <=? b) && (b <? 192)).
Proof.
  intros Hb. apply eqb_true_iff.
  apply (forall_range (fun b => eqb (not_cont b) (negb ((128 <=? b) && (b <? 192)))) 0 256);
    [vm_compute; reflexivity|lia].
Qed.

Lemma OOB_more c b : Z.shiftr (s32 c) 26 = -16 -> 0 <= b < 256 -> OOB c b = not_cont b.
Proof.
  intros Hc Hb. unfold OOB. rewrite Hc. apply eqb_true_iff.
  apply (forall_range (fun b => eqb (ctrue (Z.land (Z.lor (Z.shiftr b 3 - 16) (Z.shiftr b 3 + -16)) (-8)))
    (not_cont b)) 0 256); [vm_compute; reflexivity|lia].
Qed.

Lemma shift_in_add c b : 128 <= b < 192 -> shift_in c b = u32 (c * 64) + (b - 128).
Proof.
  intros Hb. unfold shift_in. rewrite (u32_id (b - 128)) by (bounds; lia).
  replace (u32 (c * 64)) with (c mod 2 ^ 26 * 2 ^ 6); [apply lor_add; lia|].
  unfold u32. change (2 ^ 32) with (2 ^ 26 * 64). rewrite Z.mul_mod_distr_r by lia. done.
Qed.

Lemma more_word k v : valid_pst (More k v) ->
  Z.shiftr (s32 (word (More k v))) 26 = -16 /\ high (word (More k v)) = true.
Proof.
  intros Hv. assert (3221225472 <= word (More k v) < 3221225472 + 2 ^ 26) as Hw.
  { destruct Hv as [[-> Hv]|[-> Hv]]; cbn [word]; bounds; lia. }
  revert Hw. generalize (word (More k v)). intros x Hx. split.
  - unfold s32, swrap. rewrite Z.mod_small by (bounds; lia).
    destruct (Z.ltb_spec x (2 ^ (32 - 1))); [bounds; lia|].
    rewrite Z.shiftr_div_pow2 by lia. symmetry. apply Z.div_unique with (x - 3221225472); bounds; lia.
  - apply testbit_set; [lia|]. bounds. lia.
Qed.

Definition feed_spec (p : pst) (b : Z) : Prop :=
  match feed p b with
  | Reject => OOB (word p) b = true
  | Done w => OOB (word p) b = false /\ shift_in (word p) b = w /\ high w = false /\ 0 < w
  | Next p' => OOB (word p) b = false /\ shift_in (word p) b = word p' /\ high (word p') = true /\
               valid_pst p' /\ exists k v, p' = More k v
  end.

Lemma feed_lead l b : valid_pst (Lead l) -> 0 <= b < 256 -> feed_spec (Lead l) b.
Proof.
  intros Hl Hb. pose proof (lead_steps l b Hl Hb) as H. unfold lead_step_ok, feed_spec in *.
  apply andb_true_iff in H as [_ H].
  destruct (feed (Lead l) b) as [|w|p]; [done| |].
  - rewrite !andb_true_iff, !negb_true_iff, Z.eqb_eq, Z.ltb_lt in H. by destruct H as [[[? <-] ?] ?].
  - rewrite !andb_true_iff, !negb_true_iff, Z.eqb_eq in H. destruct H as [[[? <-] ?] Hp].
    split_and!; try done; destruct p as [|l'|[|[|[|k]]] v]; try done; eauto.
    + bool_hyps. by left.
    + bool_hyps. by right.
Qed.

Lemma feed_more k v b : valid_pst (More k v) -> 0 <= b < 256 -> feed_spec (More k v) b.
Proof.
  intros Hv Hb. destruct (more_word k v Hv) as [Hs _]. unfold feed_spec.
  rewrite (OOB_more _ _ Hs Hb), (not_cont_range b Hb). cbn [feed].
  destruct (Z.leb_spec 128 b), (Z.ltb_spec b 192); cbn [andb negb]; try done.
  rewrite shift_in_add by lia. destruct Hv as [[-> Hv]|[-> Hv]]; cbn [Nat.pred advance word].
  - assert (u32 ((3221225472 + v) * 64) = v * 64) as ->.
    { unfold u32. replace ((3221225472 + v) * 64) with (v * 64 + 48 * 2 ^ 32) by lia.
      rewrite Z.mod_add by lia. apply Z.mod_small. bounds. lia. }
    split_and!; [done|done| |lia]. apply testbit_top; [lia|]. bounds. lia.
  - assert (u32 ((3271557120 + v) * 64) = 3221225472 + v * 64) as ->.
    { unfold u32. replace ((3271557120 + v) * 64) with (3221225472 + v * 64 + 48 * 2 ^ 32) by lia.
      rewrite Z.mod_add by lia. apply Z.mod_small. bounds. lia. }
    split_and!; [done|lia| | |by eauto].
    + apply testbit_set; [lia|]. bounds. lia.
    + left. split; [done|]. bounds. lia.
Qed.

Lemma feed_inside p b : valid_pst p -> p <> Start -> 0 <= b < 256 -> feed_spec p b.
Proof. destruct p; [done|auto using feed_lead|auto using feed_more]. Qed.

Lemma word_nonzero p : valid_pst p -> p <> Start -> ctrue (word p) = true.
Proof.
  destruct p as [|l|k v]; [done| |]; intros Hv _; apply negb_true_iff.
  - pose proof (lead_steps l 0 Hv) as H. apply andb_true_iff in H as [H _]; [|lia].
    by apply negb_true_iff in H.
  - destruct (more_word k v Hv) as [_ Hh]. apply Z.eqb_neq. intros E. by rewrite E in Hh.
Qed.

(** What [mbrtowc] returns for what the decoder finds. *)
Definition result (d : decoded) : mb :=
  match d with
  | Invalid => ilseq
  | Partial p => mk_mb (u32 (-2)) (word p) None false
  | Char w k => mk_mb (if w =? 0 then 0 else k) 0 (Some w) false
  end.

Lemma mbrtowc_loop_cons b s N n c : mbrtowc_loop (b :: s) N n c =
  let c := shift_in c b in
  if negb (high c) then Ok (mk_mb (N - (n - 1)) 0 (Some c) false)
  else if ctrue (n - 1) then
    match s with
    | [] => UB
    | b' :: _ => if not_cont b' then Ok ilseq else mbrtowc_loop s N (n - 1) c
    end
  else Ok (mk_mb (u32 (-2)) c None false).
Proof. reflexivity. Qed.

Lemma loop_decodes s : forall p b N n, bytes (b :: s) -> valid_pst p -> p <> Start ->
  1 <= n <= 1 + zlen s -> feed p b <> Reject ->
  mbrtowc_loop (b :: s) N n (word p) = Ok (result (decode p (take (Z.to_nat n) (b :: s)) (N - n))).
Proof.
  induction s as [|b' s IH]; intros p b N n Hs Hp Hp0 Hn Hf.
  all: inversion Hs as [|? ? Hb Hs']; subst; rewrite ?zlen_cons in Hn.
  all: pose proof (feed_inside p b Hp Hp0 Hb) as Hspec; unfold feed_spec in Hspec.
  all: destruct (Z.to_nat n) as [|m] eqn:Em; [lia|]; cbn [take decode].
  all: rewrite mbrtowc_loop_cons; cbv zeta; destruct (feed p b) as [|w|p'] eqn:Ef; [done| |];
    destruct Hspec as (_ & -> & Hrest).
  1,3: destruct Hrest as (-> & Hw); cbn [negb result]; rewrite (proj2 (Z.eqb_neq w 0)) by lia;
    do 2 f_equal; lia.
  all: destruct Hrest as (-> & Hp' & k & v & ->); cbn [negb].
  - change (zlen (@nil Z)) with 0 in Hn. assert (n = 1) as -> by lia. cbn.
    by destruct m.
  - inversion Hs' as [|? ? Hb' _]; subst. unfold ctrue.
    destruct (Z.eqb_spec (n - 1) 0); cbn [negb].
    { assert (m = 0%nat) as -> by lia. done. }
    replace m with (Z.to_nat (n - 1)) by lia.
    rewrite (not_cont_range b' Hb'). destruct ((128 <=? b') && (b' <? 192)) eqn:Ec; cbn [negb].
    + rewrite IH; [do 3 f_equal; lia|done|done|done|lia|].
      cbn [feed]. rewrite Ec. destruct Hp' as [[-> _]|[-> _]]; done.
    + destruct (Z.to_nat (n - 1)) as [|m'] eqn:Em'; [lia|]. cbn [take decode feed]. by rewrite Ec.
Qed.

Lemma cont_decodes s p N n : bytes s -> valid_pst p -> p <> Start -> 0 <= n <= zlen s ->
  mbrtowc_cont s N n (word p) = Ok (result (decode p (take (Z.to_nat n) s) (N - n))).
Proof.
  intros Hs Hp Hp0 Hn. unfold mbrtowc_cont, ctrue.
  destruct (Z.eqb_spec n 0) as [-> |]; cbn [negb]; [done|].
  destruct s as [|b s]; [change (zlen (@nil Z)) with 0 in Hn; lia|]. rewrite zlen_cons in Hn.
  inversion Hs; subst. change (zget (b :: s) 0) with (Ok b). cbn [obind].
  pose proof (feed_inside p b Hp Hp0) as Hspec. unfold feed_spec in Hspec.
  destruct (feed p b) as [|w|p'] eqn:Ef; [rewrite Hspec by done|..].
  - destruct (Z.to_nat n) eqn:En; [lia|]. cbn [take decode]. by rewrite Ef.
  - rewrite (proj1 (Hspec ltac:(done))). apply loop_decodes; try done; [lia|by rewrite Ef].
  - rewrite (proj1 (Hspec ltac:(done))). apply loop_decodes; try done; [lia|by rewrite Ef].
Qed.

Lemma mbrtowc_decode s p n : bytes s -> valid_pst p -> 0 <= n <= zlen s ->
  mbrtowc true (Some s) n (word p) = Ok (result (decode p (take (Z.to_nat n) s) 0)).
Proof.
  intros Hs Hp Hn. unfold mbrtowc, ctrue at 1.
  destruct (Z.eqb_spec n 0) as [-> |]; cbn [negb]; [done|].
  destruct (decide (p = Start)) as [-> |Hp0].
  2:{ rewrite (word_nonzero p Hp Hp0). cbn [negb].
      rewrite cont_decodes by done. by rewrite Z.sub_diag. }
  cbn [word]. change (ctrue 0) with false. cbn [negb].
  destruct s as [|b s]; [change (zlen (@nil Z)) with 0 in Hn; lia|]. rewrite zlen_cons in Hn.
  inversion Hs as [|? ? Hb Hs']; subst. change (zget (b :: s) 0) with (Ok b). cbn [obind].
  destruct (Z.to_nat n) as [|m] eqn:Em; [lia|]. cbn [take decode feed].
  destruct (Z.ltb_spec b 128).
  { cbn [result]. unfold ctrue. by destruct (Z.eqb_spec b 0) as [-> |]. }
  cbn [negb]. rewrite bad_lead by lia.
  destruct (Z.leb_spec 194 b), (Z.leb_spec b 244); cbn [andb negb]; try done.
  unfold SA. rewrite lead_word by lia.
  cbn [obind]. change (drop 1 (b :: s)) with s.
  rewrite cont_decodes; [|done|done|done|lia]. do 3 f_equal; [|lia]. f_equal. lia.
Qed.

(** ** Encoding *)

Lemma land_63 x : Z.land x 63 = x mod 64.
Proof. change 63 with (Z.ones 6). by rewrite Z.land_ones by lia. Qed.

Lemma u8_lor n a b : 0 <= n -> 0 <= b < 2 ^ n -> 0 <= a -> a * 2 ^ n + b < 256 ->
  u8 (Z.lor (a * 2 ^ n) b) = a * 2 ^ n + b.
Proof. intros. rewrite lor_add by lia. apply u8_id. unfold in_u. change (2 ^ 8) with 256. lia. Qed.

Lemma cont_byte x : u8 (Z.lor 128 (Z.land x 63)) = 128 + x mod 64.
Proof.
  rewrite land_63. change 128 with (2 * 2 ^ 6). pose proof (Z.mod_pos_bound x 64 ltac:(lia)).
  rewrite u8_lor; lia.
Qed.

(** The quotients a character is cut into. *)
Lemma cut w : 0 <= w < 2 ^ 21 ->
  exists a b c d, w = 262144 * a + 4096 * b + 64 * c + d /\ w mod 64 = d /\ w / 64 mod 64 = c /\
    w / 4096 mod 64 = b /\ w / 262144 = a /\ w / 64 = 4096 * a + 64 * b + c /\
    w / 4096 = 64 * a + b /\
    0 <= d < 64 /\ 0 <= c < 64 /\ 0 <= b < 64 /\ 0 <= a < 8.
Proof.
  intros Hw. exists (w / 262144), (w / 4096 mod 64), (w / 64 mod 64), (w mod 64).
  pose proof (Z.mod_pos_bound w 64 ltac:(lia)). pose proof (Z.mod_pos_bound (w / 64) 64 ltac:(lia)).
  pose proof (Z.mod_pos_bound (w / 4096) 64 ltac:(lia)).
  pose proof (Z.div_mod w 64 ltac:(lia)). pose proof (Z.div_mod (w / 64) 64 ltac:(lia)) as Q1.
  pose proof (Z.div_mod (w / 4096) 64 ltac:(lia)) as Q2.
  rewrite Z.div_div in Q1, Q2 by lia. change (64 * 64) with 4096 in Q1. change (4096 * 64) with 262144 in Q2.
  split_and!; bounds; lia.
Qed.

Lemma wcrtomb_encode w : in_s 32 w ->
  (scalar w -> wcrtomb true w = Val (encode w)) /\ (~ scalar w -> wcrtomb true w = Err EILSEQ).
Proof.
  intros Hw. unfold wcrtomb, encode. cbn [negb].
  rewrite !cont_byte, !Z.shiftr_div_pow2 by lia.
  change (2 ^ 6) with 64; change (2 ^ 12) with 4096; change (2 ^ 18) with 262144.
  destruct (Z.ltb_spec w 0).
  { split; [intros [|]; lia|]. intros _.
    assert (u32 w = w + 2 ^ 32) as ->.
    { unfold u32. rewrite <- (Z.mod_add w 1) by lia. rewrite Z.mod_small; bounds; lia. }
    rewrite !u32_id by (bounds; lia). by bounds; decide_cmp. }
  rewrite (u32_id w) by (bounds; lia).
  assert (u8 (Z.lor 192 (w / 64)) = 192 + w / 64 \/ 2048 <= w) as Q1.
  { destruct (Z.ltb_spec w 2048); [left|by right]. change 192 with (3 * 2 ^ 6).
    pose proof (Z.div_lt_upper_bound w 64 32). pose proof (Z.div_pos w 64).
    rewrite u8_lor; lia. }
  assert (u8 (Z.lor 224 (w / 4096)) = 224 + w / 4096 \/ 65536 <= w) as Q2.
  { destruct (Z.ltb_spec w 65536); [left|by right]. change 224 with (7 * 2 ^ 5).
    pose proof (Z.div_lt_upper_bound w 4096 16). pose proof (Z.div_pos w 4096).
    rewrite u8_lor; lia. }
  assert (u8 (Z.lor 240 (w / 262144)) = 240 + w / 262144 \/ 1114112 <= w) as Q3.
  { destruct (Z.ltb_spec w 1114112); [left|by right]. change 240 with (15 * 2 ^ 4).
    pose proof (Z.div_lt_upper_bound w 262144 5). pose proof (Z.div_pos w 262144).
    rewrite u8_lor; lia. }
  unfold scalar. bounds.
  destruct (Z.ltb_spec w 128); [rewrite u8_id by (bounds; lia); split; [done|lia]|].
  destruct (Z.ltb_spec w 2048); [split; [intros _; destruct Q1 as [->|]; [done|lia]|lia]|].
  assert (forall k, 0 <= k <= 1114112 -> u32 (w - k) = if w <? k then w - k + 4294967296 else w - k) as Hu.
  { intros k Hk. destruct (Z.ltb_spec w k); [|apply u32_id; bounds; lia].
    unfold u32. rewrite <- (Z.mod_add _ 1) by lia. rewrite Z.mod_small; bounds; lia. }
  rewrite !Hu by lia.
  destruct (Z.ltb_spec w 57344), (Z.ltb_spec w 65536), (Z.ltb_spec w 55296),
    (Z.ltb_spec w 1114112); try lia; decide_cmp; cbn [orb]; (split; intros ?; try (exfalso; lia); try done).
  all: first [destruct Q2 as [->|]; [done|lia]|destruct Q3 as [->|]; [done|lia]].
Qed.

Lemma decode_encode w rest r : scalar w ->
  decode Start (encode w ++ rest) r = Char w (r + zlen (encode w)).
Proof.
  intros Hw. destruct (cut w) as (a & b & c & d & Hw' & Hd & Hc & Hb & Ha & Hc' & Hb' & Bd & Bc & Bb & Ba).
  { destruct Hw; bounds; lia. }
  unfold encode. rewrite Hd, Hc, Hb, Ha, Hc', Hb'. unfold scalar in Hw.
  destruct (Z.ltb_spec w 128); [cbn; by decide_cmp|].
  destruct (Z.ltb_spec w 2048); [|destruct (Z.ltb_spec w 65536)].
  2: destruct (Z.eqb_spec b 0), (Z.eqb_spec b 13); try lia.
  5: destruct (Z.eqb_spec a 0), (Z.eqb_spec a 4); try lia.
  all: cbn [app decode]; unfold feed at 1; decide_cmp; cbn [andb];
    cbn [app decode]; unfold feed at 1, second_ok, lead_more, lead_bits; decide_cmp; cbn [andb advance].
  all: repeat (unfold feed at 1; decide_cmp; cbn [andb advance Nat.pred]).
  all: rewrite !zlen_cons; change (zlen (@nil Z)) with 0; f_equal; lia.
Qed.

(** [w] is scalar and [s] starts with its encoding, of length [n]. *)
Definition starts_with (s : list Z) (w n : Z) : Prop :=
  scalar w /\ zlen (encode w) = n /\ exists rest, s = encode w ++ rest.

Lemma decode_more_1 v s r w k : decode (More 1 v) s r = Char w k -> exists b s',
  s = b :: s' /\ 128 <= b < 192 /\ w = v * 64 + (b - 128) /\ k = r + 1.
Proof.
  destruct s as [|b s]; [done|]. cbn. destruct (Z.leb_spec 128 b), (Z.ltb_spec b 192); cbn; try done.
  intros [= <- <-]. exists b, s. split_and!; lia || done.
Qed.

Lemma decode_more_2 v s r w k : decode (More 2 v) s r = Char w k -> exists b s',
  s = b :: s' /\ 128 <= b < 192 /\ decode (More 1 (v * 64 + (b - 128))) s' (r + 1) = Char w k.
Proof.
  destruct s as [|b s]; [done|]. cbn [decode]. unfold feed at 1.
  destruct (Z.leb_spec 128 b), (Z.ltb_spec b 192); cbn [andb]; try done.
  intros Hd. exists b, s. split_and!; lia || done.
Qed.

Lemma encode_3 x y z : 0 <= x < 16 -> 0 <= y < 64 -> 0 <= z < 64 -> 2048 <= (x * 64 + y) * 64 + z ->
  encode ((x * 64 + y) * 64 + z) = [224 + x; 128 + y; 128 + z].
Proof.
  intros Hx Hy Hz. set (w := _ + z). intros Hw.
  destruct (cut w) as (a & b & c & d & Hw' & Hd & Hc & Hb & Ha & Hc' & Hb' & Bd & Bc & Bb & Ba);
    [subst w; bounds; lia|].
  assert (a = 0 /\ b = x /\ c = y /\ d = z) as (-> & -> & -> & ->) by (subst w; lia).
  unfold encode. rewrite Hd, Hc, Hb'. subst w. decide_cmp. do 2 f_equal; lia.
Qed.

Lemma encode_4 u x y z : 0 <= u < 8 -> 0 <= x < 64 -> 0 <= y < 64 -> 0 <= z < 64 -> 16 <= u * 64 + x ->
  encode (((u * 64 + x) * 64 + y) * 64 + z) = [240 + u; 128 + x; 128 + y; 128 + z].
Proof.
  intros Hu Hx Hy Hz Hmin. set (w := _ + z).
  destruct (cut w) as (a & b & c & d & Hw' & Hd & Hc & Hb & Ha & Hc' & Hb' & Bd & Bc & Bb & Ba);
    [subst w; bounds; lia|].
  assert (a = u /\ b = x /\ c = y /\ d = z) as (-> & -> & -> & ->) by (subst w; lia).
  unfold encode. rewrite Hd, Hc, Hb, Ha. subst w. by decide_cmp.
Qed.

Lemma encode_2 x y : 2 <= x < 32 -> 0 <= y < 64 -> encode (x * 64 + y) = [192 + x; 128 + y].
Proof.
  intros Hx Hy. unfold encode. decide_cmp.
  rewrite <- (Z.mod_unique (x * 64 + y) 64 x y) by lia.
  rewrite <- (Z.div_unique (x * 64 + y) 64 x y) by lia. done.
Qed.

Lemma decode_sound s w k : bytes s -> decode Start s 0 = Char w k -> starts_with s w k.
Proof.
  destruct s as [|b0 s]; [done|]. intros Hs. inversion Hs as [|? ? B0 Hs1]; subst. cbn [decode].
  unfold feed at 1. destruct (Z.ltb_spec b0 128).
  { intros [= <- <-]. split_and!; [left; lia|unfold encode; by decide_cmp|].
    exists s. unfold encode. by decide_cmp. }
  destruct (Z.leb_spec 194 b0), (Z.leb_spec b0 244); cbn [andb]; try done.
  destruct s as [|b1 s]; [done|]. inversion Hs1 as [|? ? B1 Hs2]; subst. cbn [decode].
  unfold feed at 1. destruct (second_ok b0 b1) eqn:E1; [|done].
  unfold second_ok in E1. apply andb_true_iff in E1 as [E1 E2].
  assert (128 <= b1 < 192) as B1'.
  { apply Z.leb_le in E1. apply Z.ltb_lt in E2. revert E1 E2. repeat case_cmp; lia. }
  unfold lead_more, lead_bits.
  destruct (Z.ltb_spec b0 224); cbn [advance].
  { intros [= <- <-]. pose proof (encode_2 (b0 - 192) (b1 - 128) ltac:(lia) ltac:(lia)) as He.
    unfold starts_with. rewrite He. split_and!; [left; lia|done|].
    exists s. cbn. do 2 f_equal; [lia|f_equal; lia]. }
  destruct (Z.ltb_spec b0 240); cbn [advance].
  - intros (b2 & s' & -> & B2 & -> & ->)%decode_more_1.
    assert (2048 <= ((b0 - 224) * 64 + (b1 - 128)) * 64 + (b2 - 128) /\
      scalar (((b0 - 224) * 64 + (b1 - 128)) * 64 + (b2 - 128))) as [Hmin Hsc].
    { apply Z.leb_le in E1. apply Z.ltb_lt in E2. unfold scalar. revert E1 E2. repeat case_cmp; lia. }
    pose proof (encode_3 (b0 - 224) (b1 - 128) (b2 - 128) ltac:(lia) ltac:(lia) ltac:(lia) Hmin) as He.
    unfold starts_with. rewrite He. split_and!; [done|done|]. exists s'. cbn. repeat f_equal; lia.
  - intros (b2 & s' & -> & B2 & (b3 & s2 & -> & B3 & -> & ->)%decode_more_1)%decode_more_2.
    assert (16 <= (b0 - 240) * 64 + (b1 - 128) /\
      scalar ((((b0 - 240) * 64 + (b1 - 128)) * 64 + (b2 - 128)) * 64 + (b3 - 128))) as [Hmin Hsc].
    { apply Z.leb_le in E1. apply Z.ltb_lt in E2. unfold scalar. revert E1 E2. repeat case_cmp; lia. }
    pose proof (encode_4 (b0 - 240) (b1 - 128) (b2 - 128) (b3 - 128) ltac:(lia) ltac:(lia) ltac:(lia)
      ltac:(lia) Hmin) as He.
    unfold starts_with. rewrite He. split_and!; [done|done|]. exists s2. cbn. repeat f_equal; lia.
Qed.

(** ** mbtowc *)

Definition result' (d : decoded) : mb :=
  match d with
  | Char w k => mk_mb (if w =? 0 then 0 else k) 0 (Some w) false
  | _ => mk_mb (-1) 0 None true
  end.

Lemma enough l n : 194 <= l <= 244 -> 1 <= n ->
  ((n <? 4) && high (u32 (Z.shiftl (word (Lead l)) (6 * n - 6)))) = (n <? 2 + Z.of_nat (lead_more l)).
Proof.
  intros Hl Hn. destruct (Z.ltb_spec n 4); cbn [andb].
  - apply eqb_true_iff.
    apply (forall_range (fun n => eqb (high (u32 (Z.shiftl (word (Lead l)) (6 * n - 6))))
      (n <? 2 + Z.of_nat (lead_more l))) 1 3); [|lia].
    apply (forall_range (fun l => forallb (fun n => eqb (high (u32 (Z.shiftl (word (Lead l)) (6 * n - 6))))
      (n <? 2 + Z.of_nat (lead_more l))) (seqZ 1 3)) 194 51); [vm_compute; reflexivity|lia].
  - symmetry. apply Z.ltb_ge. unfold lead_more. repeat case_cmp; lia.
Qed.

Lemma short_partial p s r : (match p with Start => 1 | Lead l => 1 + lead_more l | More k _ => k end > length s)%nat ->
  match decode p s r with Char _ _ => False | _ => True end.
Proof.
  revert p r. induction s as [|b s IH]; intros p r; [done|]. cbn [length decode]. intros Hp.
  destruct p as [|l|k v]; [lia| |]; unfold feed at 1.
  - destruct (second_ok l b); [|done]. destruct (lead_more l) eqn:E; [lia|]. cbn [advance].
    apply IH. lia.
  - destruct ((128 <=? b) && (b <? 192)); [|done]. destruct k as [|[|k]]; cbn [Nat.pred advance]; try lia.
    apply IH. lia.
Qed.

(** The bytes after the lead byte, as [mbtowc] reads them. *)
Lemma more_step k v b : valid_pst (More k v) -> 0 <= b < 256 ->
  match feed (More k v) b with
  | Reject => not_cont b = true
  | Done w => not_cont b = false /\ shift_in (word (More k v)) b = w /\ high w = false /\ 0 < w /\ k = 1%nat
  | Next p => not_cont b = false /\ shift_in (word (More k v)) b = word p /\ high (word p) = true /\
              valid_pst p /\ k = 2%nat /\ exists v', p = More 1 v'
  end.
Proof.
  intros Hv Hb. pose proof (feed_more k v b Hv Hb) as H. unfold feed_spec in H.
  rewrite (OOB_more _ _ (proj1 (more_word k v Hv)) Hb) in H.
  destruct Hv as [[-> _]|[-> _]]; cbn [feed Nat.pred advance] in *;
    destruct ((128 <=? b) && (b <? 192)); naive_solver.
Qed.

Lemma mbtowc_decode s n : bytes s -> 0 <= n <= zlen s ->
  mbtowc true (Some s) n = Ok (result' (decode Start (take (Z.to_nat n) s) 0)).
Proof.
  intros Hs Hn. unfold mbtowc, ctrue at 1.
  destruct (Z.eqb_spec n 0) as [-> |]; cbn [negb]; [done|].
  destruct s as [|b0 s]; [change (zlen (@nil Z)) with 0 in Hn; lia|]. rewrite zlen_cons in Hn.
  inversion Hs as [|? ? Hb Hs1]; subst. change (zget (b0 :: s) 0) with (Ok b0). cbn [obind].
  destruct (Z.to_nat n) as [|m] eqn:Em; [lia|]. cbn [take decode feed].
  destruct (Z.ltb_spec b0 128).
  { cbn [result']. unfold ctrue. by destruct (Z.eqb_spec b0 0) as [-> |]. }
  rewrite bad_lead by lia.
  destruct (Z.leb_spec 194 b0), (Z.leb_spec b0 244); cbn [andb negb]; try done.
  unfold SA. rewrite lead_word by lia. cbn [obind]. rewrite enough by lia.
  destruct (Z.ltb_spec n (2 + Z.of_nat (lead_more b0))) as [|Hmore].
  { pose proof (short_partial (Lead b0) (take m s) (0 + 1)) as Hsh.
    rewrite length_take in Hsh. destruct (decode _ _ _); [done..|]. destruct Hsh. lia. }
  unfold zlen in Hn. destruct s as [|b1 s]; [cbn in Hn; lia|]. destruct m as [|m]; [lia|].
  inversion Hs1 as [|? ? B1 Hs2]; subst. change (zget (b0 :: b1 :: s) 1) with (Ok b1). cbn [obind take decode].
  pose proof (feed_lead b0 b1 ltac:(cbn; lia) B1) as St. unfold feed_spec in St.
  destruct (feed (Lead b0) b1) as [|w|p] eqn:Ef.
  { by rewrite St. }
  { destruct St as (-> & -> & -> & Hw). cbn. by decide_cmp. }
  destruct St as (-> & -> & -> & Hp & k & v & ->). cbn [negb].
  assert (k = lead_more b0) as Hk.
  { cbn [feed] in Ef. destruct (second_ok b0 b1); [|done]. by destruct (lead_more b0); inversion Ef. }
  assert (1 <= k)%nat by (destruct Hp as [[-> _]|[-> _]]; lia).
  cbn [length] in Hn. destruct s as [|b2 s]; [cbn in Hn; lia|]. destruct m as [|m]; [lia|].
  inversion Hs2 as [|? ? B2 Hs3]; subst. change (zget (b0 :: b1 :: b2 :: s) 2) with (Ok b2).
  cbn [obind take decode]. pose proof (more_step _ _ b2 Hp B2) as St.
  destruct (feed (More (lead_more b0) v) b2) as [|w|p] eqn:Ef2.
  { by rewrite St. }
  { destruct St as (-> & -> & -> & Hw & _). cbn. by decide_cmp. }
  destruct St as (-> & -> & -> & Hp2 & Hk & v' & ->). cbn [negb].
  cbn [length] in Hn. destruct s as [|b3 s]; [cbn in Hn; lia|]. destruct m as [|m]; [lia|].
  inversion Hs3 as [|? ? B3 _]; subst. change (zget (b0 :: b1 :: b2 :: b3 :: s) 3) with (Ok b3).
  cbn [obind take decode]. pose proof (more_step _ _ b3 Hp2 B3) as St.
  destruct (feed (More 1 v') b3) as [|w|p] eqn:Ef3.
  { by rewrite St. }
  { destruct St as (-> & -> & _ & Hw & _). cbn. by decide_cmp. }
  by destruct St as (_ & _ & _ & _ & ? & _).
Qed.

(** ** Strings *)

(** The encoding of a string. *)
Definition encodes (ws : list Z) : list Z := concat (map encode ws).
Definition text (ws : list Z) : Prop := Forall (fun w => scalar w /\ w <> 0) ws.

(** How many characters of [ws] fit in [n] bytes. *)
Fixpoint fit (ws : list Z) (n : Z) : nat :=
  match ws with
  | [] => O
  | w :: ws => if n <? zlen (encode w) then O else S (fit ws (n - zlen (encode w)))
  end.

Lemma encode_len w : 1 <= zlen (encode w) <= 4.
Proof. unfold encode. repeat case_cmp; unfold zlen; cbn [length]; lia. Qed.

Lemma wcrtomb_scalar w : scalar w -> wcrtomb true w = Val (encode w).
Proof. intros Hw. apply wcrtomb_encode; [|done]. destruct Hw; bounds; lia. Qed.

Lemma ascii_encode w : 0 <= w < 128 -> encode w = [w].
Proof. intros. unfold encode. by decide_cmp. Qed.

(** [*ws-1u >= 0x7fu] *)
Lemma below_ascii w : scalar w -> w <> 0 -> (127 <=? u32 (w - 1)) = negb (w <? 128).
Proof.
  intros Hw H0. rewrite u32_id by (destruct Hw; bounds; lia).
  destruct (Z.ltb_spec w 128); cbn [negb]; by decide_cmp.
Qed.

Lemma wcsrtombs_fits ws : forall N n out junk, text ws -> 0 <= n ->
  let k := fit ws n in
  let sent := encodes (take k ws) in
  wcsrtombs_loop true (ws ++ 0 :: junk) N n out =
    Ok (if (length ws =? k)%nat && (zlen sent <? n)
        then mk_wcs (N - n + zlen sent) (out ++ sent ++ [0]) None false
        else mk_wcs (N - n + zlen sent) (out ++ sent) (Some (drop k ws ++ 0 :: junk)) false).
Proof.
  induction ws as [|w ws IH]; intros N n out junk Ht Hn; cbv zeta.
  - cbn. change (zlen (@nil Z)) with 0. rewrite Z.add_0_r, app_nil_r.
    destruct (Z.eqb_spec n 0) as [-> |]; decide_cmp; [by rewrite Z.sub_0_r|done].
  - inversion Ht as [|? ? [Hw H0] Ht']; subst. cbn [app wcsrtombs_loop fit].
    pose proof (encode_len w) as Hlen.
    destruct (Z.eqb_spec n 0) as [-> |Hn0].
    { decide_cmp. cbn. change (zlen (@nil Z)) with 0. rewrite app_nil_r. do 2 f_equal. lia. }
    rewrite below_ascii by done.
    assert ((if negb (w <? 128)
      then if w =? 0 then Ok (mk_wcs (N - n) (out ++ [0]) None false)
        else match wcrtomb true w with
             | Err _ => Ok (mk_wcs (u32 (-1)) out (Some (w :: ws ++ 0 :: junk)) true)
             | Val bs => if (n <? 4) && (n <? zlen bs)
                 then Ok (mk_wcs (N - n) out (Some (w :: ws ++ 0 :: junk)) false)
                 else wcsrtombs_loop true (ws ++ 0 :: junk) N (n - zlen bs) (out ++ bs) end
      else wcsrtombs_loop true (ws ++ 0 :: junk) N (n - 1) (out ++ [u8 w])) =
      if n <? zlen (encode w) then Ok (mk_wcs (N - n) out (Some (w :: ws ++ 0 :: junk)) false)
      else wcsrtombs_loop true (ws ++ 0 :: junk) N (n - zlen (encode w)) (out ++ encode w)) as ->.
    { destruct (Z.ltb_spec w 128); cbn [negb].
      - assert (0 <= w) by (destruct Hw; lia). rewrite ascii_encode, u8_id by (bounds; lia).
        change (zlen [w]) with 1. by decide_cmp.
      - decide_cmp. rewrite wcrtomb_scalar by done.
        destruct (Z.ltb_spec n (zlen (encode w))); decide_cmp; [done|]. by rewrite andb_false_r. }
    destruct (Z.ltb_spec n (zlen (encode w))).
    { cbn. change (zlen (@nil Z)) with 0. rewrite app_nil_r. do 2 f_equal. lia. }
    rewrite IH by (done || lia). cbv zeta. cbn [length take drop Nat.eqb].
    unfold encodes. cbn [map concat]. set (sent := concat _). rewrite zlen_app.
    replace (zlen (encode w) + zlen sent <? n) with (zlen sent <? n - zlen (encode w))
      by (repeat case_cmp; lia).
    destruct ((length ws =? _)%nat && _); do 2 f_equal; try lia; by rewrite <- ?app_assoc.
Qed.

(** *** Decoding in memory *)

Lemma zget_drop {A} (mem : list A) i k : 0 <= i -> 0 <= k ->
  zget mem (i + k) = zget (drop (Z.to_nat i) mem) k.
Proof.
  intros Hi Hk. unfold zget. rewrite !(proj2 (Z.leb_le _ _)) by lia.
  rewrite lookup_drop. by rewrite Z2Nat.inj_add by lia.
Qed.

Lemma zget_0 {A} (mem : list A) i : 0 <= i -> zget mem i = zget (drop (Z.to_nat i) mem) 0.
Proof. intros Hi. rewrite <- (zget_drop mem i 0) by lia. by rewrite Z.add_0_r. Qed.

(** Where a character decodes, [resume] finds it and [resume0] skips it. *)
Lemma resume_char mem i p w k s : 0 <= i -> drop (Z.to_nat i) mem = s -> bytes s ->
  valid_pst p -> p <> Start -> decode p s 0 = Char w k -> resume mem (word p) i = Ok (inl (w, i + k)).
Proof.
  intros Hi Hs Hb Hp Hp0. unfold resume. rewrite (zget_0 mem i Hi), !zget_drop, Hs by lia.
  destruct s as [|b0 s]; [done|]. inversion Hb as [|? ? B0 Hb1]; subst. change (zget (b0 :: s) 0) with (Ok b0).
  cbn [obind decode]. pose proof (feed_inside p b0 Hp Hp0 B0) as St. unfold feed_spec in St.
  destruct (feed p b0) as [|w0|p1]; [done| |].
  { destruct St as (-> & -> & -> & _). intros [= -> <-]. done. }
  destruct St as (-> & -> & -> & Hp1 & k1 & v1 & ->).
  destruct s as [|b1 s]; [done|]. inversion Hb1 as [|? ? B1 Hb2]; subst.
  change (zget (b0 :: b1 :: s) 1) with (Ok b1). cbn [obind decode].
  pose proof (more_step _ _ b1 Hp1 B1) as St. destruct (feed (More k1 v1) b1) as [|w1|p2]; [done| |].
  { destruct St as (-> & -> & -> & _). intros [= -> <-]. done. }
  destruct St as (-> & -> & -> & Hp2 & _ & v2 & ->).
  destruct s as [|b2 s]; [done|]. inversion Hb2 as [|? ? B2 Hb3]; subst.
  change (zget (b0 :: b1 :: b2 :: s) 2) with (Ok b2). cbn [obind decode].
  pose proof (more_step _ _ b2 Hp2 B2) as St. destruct (feed (More 1 v2) b2) as [|w2|p3]; [done| |].
  { destruct St as (-> & -> & _). intros [= -> <-]. done. }
  by destruct St as (_ & _ & _ & _ & ? & _).
Qed.

Lemma lead_count l : 194 <= l <= 244 ->
  Z.testbit (word (Lead l)) 25 = (0 <? lead_more l)%nat /\
  Z.testbit (word (Lead l)) 19 = (1 <? lead_more l)%nat.
Proof.
  intros Hl.
  set (f := fun l => eqb (Z.testbit (word (Lead l)) 25) (0 <? lead_more l)%nat &&
                     eqb (Z.testbit (word (Lead l)) 19) (1 <? lead_more l)%nat).
  assert (f l = true) as H by (apply (forall_range f 194 51); [vm_compute; reflexivity|lia]).
  apply andb_true_iff in H as [H1 H2]. split; by apply eqb_true_iff.
Qed.

Lemma resume0_char mem i l w k s : 0 <= i -> drop (Z.to_nat i) mem = s -> bytes s ->
  194 <= l <= 244 -> decode (Lead l) s 0 = Char w k -> resume0 mem (word (Lead l)) i = Ok (inl (i + k)).
Proof.
  intros Hi Hs Hb Hl. unfold resume0. rewrite (zget_0 mem i Hi), !zget_drop, Hs by lia.
  destruct (lead_count l Hl) as [-> ->].
  destruct s as [|b0 s]; [done|]. inversion Hb as [|? ? B0 Hb1]; subst. change (zget (b0 :: s) 0) with (Ok b0).
  cbn [obind decode]. pose proof (feed_lead l b0 Hl B0) as St. unfold feed_spec in St.
  destruct (feed (Lead l) b0) as [|w0|p1] eqn:Ef; [done| |]; destruct St as (-> & St).
  all: unfold feed in Ef; destruct (second_ok l b0); [|done];
    destruct (lead_more l) as [|[|[|m]]] eqn:Em; inversion Ef; subst; cbn [Nat.ltb Nat.leb].
  - intros [= _ <-]. done.
  - intros (b1 & s' & -> & B1 & _ & ->)%decode_more_1.
    change (zget (b0 :: b1 :: s') 1) with (Ok b1). cbn [obind].
    rewrite not_cont_range by lia. by decide_cmp.
  - intros (b1 & s' & -> & B1 & (b2 & s2 & -> & B2 & _ & ->)%decode_more_1)%decode_more_2.
    change (zget (b0 :: b1 :: b2 :: s2) 1) with (Ok b1). change (zget (b0 :: b1 :: b2 :: s2) 2) with (Ok b2).
    cbn [obind]. rewrite !not_cont_range by lia. by decide_cmp.
  - destruct St as (_ & _ & Hv & _). destruct Hv as [[? _]|[? _]]; lia.
Qed.

(** *** Four ASCII characters at a time *)

Lemma clear_bit x k : 0 <= k -> Z.testbit x k = false ->
  exists m r, x = 2 * 2 ^ k * m + r /\ 0 <= r < 2 ^ k.
Proof.
  intros Hk Hb. apply Z.testbit_false in Hb; [|done].
  exists (x / 2 ^ k / 2), (x mod 2 ^ k). pose proof (Z.pow_pos_nonneg 2 k ltac:(lia) Hk).
  split; [|apply Z.mod_pos_bound; lia].
  pose proof (Z.div_mod x (2 ^ k) ltac:(lia)). pose proof (Z.div_mod (x / 2 ^ k) 2 ltac:(lia)). lia.
Qed.

Lemma ascii4_bytes b0 b1 b2 b3 : bytes [b0; b1; b2; b3] ->
  ascii4 (b0 + b1 * 2 ^ 8 + b2 * 2 ^ 16 + b3 * 2 ^ 24) = true ->
  1 <= b0 < 128 /\ 1 <= b1 < 128 /\ 1 <= b2 < 128 /\ 1 <= b3 < 128.
Proof.
  unfold bytes, ascii4. rewrite !Forall_cons. intros (B0 & B1 & B2 & B3 & _).
  set (w := b0 + _ + _ + _). set (x := u32 (w - 16843009)).
  rewrite negb_true_iff. unfold ctrue. rewrite negb_false_iff, Z.eqb_eq. intros H.
  assert (forall k, Z.testbit 2155905152 k = true -> Z.testbit w k = false /\ Z.testbit x k = false) as Hk.
  { intros k Hk. assert (Z.testbit (Z.land (Z.lor w x) 2155905152) k = false) as Hl
      by (rewrite H; apply Z.bits_0).
    rewrite Z.land_spec, Hk, andb_true_r, Z.lor_spec in Hl. by apply orb_false_iff. }
  assert (exists t, x = w - 16843009 + t * 4294967296 /\ 0 <= x < 4294967296) as (t & Hx & Rx).
  { exists (- ((w - 16843009) / 4294967296)). split; [|apply u32_range].
    unfold x, u32. change (2 ^ 32) with 4294967296. rewrite Z.mod_eq by lia. lia. }
  destruct (Hk 7 eq_refl) as [(m & r & E1 & R1)%clear_bit (m' & r' & E2 & R2)%clear_bit]; [|lia..].
  destruct (Hk 15 eq_refl) as [(n & q & E3 & R3)%clear_bit (n' & q' & E4 & R4)%clear_bit]; [|lia..].
  destruct (Hk 23 eq_refl) as [(o & p & E5 & R5)%clear_bit (o' & p' & E6 & R6)%clear_bit]; [|lia..].
  destruct (Hk 31 eq_refl) as [(u & v & E7 & R7)%clear_bit (u' & v' & E8 & R8)%clear_bit]; [|lia..].
  subst w. bounds. clear H Hk. clearbody x. subst x.
  assert (1 <= b0 < 128) by lia. assert (1 <= b1 < 128) by lia. assert (1 <= b2 < 128) by lia. lia.
Qed.

Section InMemory.
Variables mem pad : list Z.
Hypothesis mem_bytes : bytes mem.
(** The word loops read up to three bytes past the string. *)
Hypothesis pad_len : 3 <= zlen pad.

(** The string [ws] is at offset [i]. *)
Definition at_offset (i : Z) (ws : list Z) : Prop :=
  0 <= i /\ drop (Z.to_nat i) mem = encodes ws ++ 0 :: pad.

Lemma at_step i w ws : at_offset i (w :: ws) -> at_offset (i + zlen (encode w)) ws.
Proof.
  intros [Hi Hd]. pose proof (encode_len w). split; [lia|].
  rewrite Z2Nat.inj_add, <- drop_drop, Hd by lia. unfold encodes. cbn [map concat].
  rewrite <- app_assoc. unfold zlen. rewrite Nat2Z.id. apply drop_app_length.
Qed.

Lemma at_bytes i ws : at_offset i ws -> bytes (encodes ws ++ 0 :: pad).
Proof. intros [_ <-]. by apply Forall_drop. Qed.

Lemma encode_head w : scalar w -> exists b t, encode w = b :: t /\ (b < 128 <-> w < 128).
Proof.
  intros Hw. unfold encode. pose proof (Z.div_pos w 64). pose proof (Z.div_pos w 4096).
  pose proof (Z.div_pos w 262144). assert (0 <= w) by (destruct Hw; lia).
  repeat case_cmp; eexists _, _; (split; [reflexivity|lia]).
Qed.

Lemma at_ascii i ws b : at_offset i ws -> text ws -> zget mem i = Ok b -> 1 <= b < 128 ->
  exists ws', ws = b :: ws' /\ at_offset (i + 1) ws'.
Proof.
  intros Hat Ht Hg Hb. pose proof Hat as [Hi Hd]. rewrite (zget_0 mem i Hi), Hd in Hg.
  destruct ws as [|w ws]; [injection Hg as <-; lia|].
  inversion Ht as [|? ? [Hw Hw0] Ht']; subst. destruct (encode_head w Hw) as (b' & t & He & Hlt).
  unfold encodes in Hg. cbn [map concat] in Hg. rewrite He in Hg. injection Hg as Hbb.
  assert (w < 128) as Hw1 by (apply Hlt; lia).
  pose proof (ascii_encode w ltac:(destruct Hw; lia)) as He'.
  apply at_step in Hat. rewrite He' in Hat, He.
  injection He as -> _. subst b'. by exists ws.
Qed.

Lemma at_word i ws w : at_offset i ws -> text ws -> load32 mem i = Ok w -> ascii4 w = true ->
  exists b0 b1 b2 b3 ws', ws = b0 :: b1 :: b2 :: b3 :: ws' /\ at_offset (i + 4) ws' /\
    zget mem i = Ok b0 /\ zget mem (i + 1) = Ok b1 /\ zget mem (i + 2) = Ok b2 /\ zget mem (i + 3) = Ok b3.
Proof.
  intros Hat Ht Hl Ha. unfold load32 in Hl.
  apply obind_Ok in Hl as (b0 & G0 & Hl). apply obind_Ok in Hl as (b1 & G1 & Hl).
  apply obind_Ok in Hl as (b2 & G2 & Hl). apply obind_Ok in Hl as (b3 & G3 & Hl). injection Hl as <-.
  assert (forall j b, zget mem j = Ok b -> 0 <= b < 256) as Hby.
  { intros j b [_ Hj]%zget_lookup. exact (Forall_lookup_1 _ _ _ _ mem_bytes Hj). }
  destruct (ascii4_bytes b0 b1 b2 b3) as (A0 & A1 & A2 & A3); [unfold bytes; rewrite !Forall_cons; split_and!; [by eapply Hby..|constructor]|done|].
  destruct (at_ascii i ws b0 Hat Ht G0 A0) as (ws1 & -> & At1). inversion Ht as [|? ? _ Ht1]; subst.
  destruct (at_ascii (i + 1) ws1 b1 At1 Ht1 G1 A1) as (ws2 & -> & At2). inversion Ht1 as [|? ? _ Ht2]; subst.
  replace (i + 1 + 1) with (i + 2) in At2 by lia.
  destruct (at_ascii (i + 2) ws2 b2 At2 Ht2 G2 A2) as (ws3 & -> & At3). inversion Ht2 as [|? ? _ Ht3]; subst.
  replace (i + 2 + 1) with (i + 3) in At3 by lia.
  destruct (at_ascii (i + 3) ws3 b3 At3 Ht3 G3 A3) as (ws4 & -> & At4).
  replace (i + 3 + 1) with (i + 4) in At4 by lia. by exists b0, b1, b2, b3, ws4.
Qed.

Lemma load32_Ok i ws : at_offset i ws -> exists w, load32 mem i = Ok w.
Proof.
  intros [Hi Hd]. assert (4 <= zlen (drop (Z.to_nat i) mem)) as Hlen.
  { rewrite Hd, zlen_app, zlen_cons. pose proof (zlen_nonneg (encodes ws)). lia. }
  unfold load32. rewrite (zget_0 mem i Hi), !zget_drop by lia.
  destruct (zget_in_range (drop (Z.to_nat i) mem) 0) as [b0 ->]; [lia|].
  destruct (zget_in_range (drop (Z.to_nat i) mem) 1) as [b1 ->]; [lia|].
  destruct (zget_in_range (drop (Z.to_nat i) mem) 2) as [b2 ->]; [lia|].
  destruct (zget_in_range (drop (Z.to_nat i) mem) 3) as [b3 ->]; [lia|]. cbn. eauto.
Qed.

Lemma ascii_store_spec fuel : forall i wn out ws,
  at_offset i ws -> text ws -> (length ws < fuel)%nat -> 0 < wn ->
  exists k, (k <= length ws)%nat /\ at_offset (i + Z.of_nat k) (drop k ws) /\ Z.of_nat k < wn /\
    ascii_store mem fuel i wn out = Ok (i + Z.of_nat k, wn - Z.of_nat k, out ++ take k ws).
Proof.
  assert (forall i wn out ws, at_offset i ws -> 0 < wn ->
    exists k, (k <= length ws)%nat /\ at_offset (i + Z.of_nat k) (drop k ws) /\ Z.of_nat k < wn /\
      Ok (i, wn, out) = Ok (i + Z.of_nat k, wn - Z.of_nat k, out ++ take k ws)) as Hstop.
  { intros i wn out ws Hat Hwn. exists O. cbn [drop take]. rewrite app_nil_r.
    change (Z.of_nat 0) with 0. rewrite Z.add_0_r, Z.sub_0_r. split_and!; [lia|done|lia|done]. }
  induction fuel as [|f IH]; intros i wn out ws Hat Ht Hf Hwn; [lia|]. cbn [ascii_store].
  destruct (Z.ltb_spec wn 5); [by apply Hstop|].
  destruct (load32_Ok i ws Hat) as [w Hw]. rewrite Hw. cbn [obind].
  destruct (ascii4 w) eqn:Ea; [|by apply Hstop].
  destruct (at_word i ws w Hat Ht Hw Ea) as (b0 & b1 & b2 & b3 & ws' & -> & Hat' & -> & -> & -> & ->).
  cbn [obind]. destruct (IH (i + 4) (wn - 4) (out ++ [b0; b1; b2; b3]) ws') as (k & Hk & Hat2 & Hwk & ->);
    [done|by do 4 apply Forall_inv_tail in Ht|cbn in Hf; lia|lia|].
  exists (S (S (S (S k)))). cbn [length drop take].
  replace (Z.of_nat (S (S (S (S k))))) with (4 + Z.of_nat k) by lia.
  rewrite Z.add_assoc, Z.sub_add_distr. split_and!; [lia|done|lia|]. by rewrite <- app_assoc.
Qed.

Lemma ascii_count_spec fuel : forall i wn ws, at_offset i ws -> text ws -> (length ws < fuel)%nat ->
  exists k, (k <= length ws)%nat /\ at_offset (i + Z.of_nat k) (drop k ws) /\
    exists wn', ascii_count mem fuel i wn = Ok (i + Z.of_nat k, wn') /\ u32 wn' = u32 (wn - Z.of_nat k).
Proof.
  induction fuel as [|f IH]; intros i wn ws Hat Ht Hf; [lia|]. cbn [ascii_count].
  destruct (load32_Ok i ws Hat) as [w Hw]. rewrite Hw. cbn [obind].
  destruct (ascii4 w) eqn:Ea.
  2:{ exists O. change (Z.of_nat 0) with 0. rewrite Z.add_0_r, Z.sub_0_r. split_and!; [lia|done|eauto]. }
  destruct (at_word i ws w Hat Ht Hw Ea) as (b0 & b1 & b2 & b3 & ws' & -> & Hat' & _).
  destruct (IH (i + 4) (u32 (wn - 4)) ws') as (k & Hk & Hat2 & wn' & -> & Hwn);
    [done|by do 4 apply Forall_inv_tail in Ht|cbn in Hf; lia|].
  exists (S (S (S (S k)))). cbn [length drop].
  replace (Z.of_nat (S (S (S (S k))))) with (4 + Z.of_nat k) by lia.
  rewrite Z.add_assoc, Z.sub_add_distr. split_and!; [lia|done|]. exists wn'. split; [done|].
  rewrite Hwn. unfold u32. by rewrite Zminus_mod_idemp_l.
Qed.

Lemma decode_read p s r : decode p s r = match decode p s 0 with Char w k => Char w (r + k) | d => d end.
Proof.
  revert p r. induction s as [|b s IH]; intros p r; [done|]. cbn [decode].
  destruct (feed p b) as [|w|q]; [done|done|]. rewrite (IH q (r + 1)), (IH q (0 + 1)).
  destruct (decode q s 0); [done|done|]. f_equal. lia.
Qed.

(** What the conversion loops see of the character [w] at offset [i]. *)
Lemma char_at i w ws : at_offset i (w :: ws) -> scalar w -> w <> 0 ->
  exists b, zget mem i = Ok b /\
    ((u32 (b - 1) <? 127) = true /\ b = w /\ zlen (encode w) = 1 \/
     (u32 (b - 1) <? 127) = false /\ (SB - SA <? u32 (b - SA)) = false /\
     exists c, zget bittab (b - SA) = Ok c /\
       resume mem c (i + 1) = Ok (inl (w, i + zlen (encode w))) /\
       resume0 mem c (i + 1) = Ok (inl (i + zlen (encode w)))).
Proof.
  intros Hat Hw Hw0. pose proof Hat as [Hi Hd]. pose proof (at_bytes i _ Hat) as Hby.
  destruct (encode_head w Hw) as (b & t & He & Hlt).
  unfold encodes in Hd, Hby. cbn [map concat] in Hd, Hby. rewrite He in Hd, Hby.
  exists b. split; [by rewrite (zget_0 mem i Hi), Hd|].
  pose proof (decode_encode w (encodes ws ++ 0 :: pad) 0 Hw) as Hdec.
  rewrite He in Hdec. inversion Hby as [|? ? Hb Hby']; subst.
  destruct (Z.ltb_spec w 128) as [Hs|Hl].
  { left. pose proof (ascii_encode w ltac:(destruct Hw; lia)) as He'. rewrite He' in He |- *.
    injection He as <- <-. split_and!; [|done|done]. rewrite u32_id by (destruct Hw; bounds; lia).
    by apply Z.ltb_lt; destruct Hw; lia. }
  right. rewrite u32_id by (bounds; lia). rewrite bad_lead by lia.
  cbn [app decode] in Hdec. unfold feed in Hdec. decide_cmp.
  destruct (Z.ltb_spec b 128); [lia|].
  destruct ((194 <=? b) && (b <=? 244)) eqn:El; [|done].
  assert (194 <= b <= 244) as Hlead by (bool_hyps; lia).
  rewrite decode_read in Hdec. destruct (decode (Lead b) _ 0) as [| |w' k] eqn:Hd1; [done..|].
  injection Hdec as -> Hk. split_and!; [done..|]. exists (word (Lead b)). unfold SA. split; [by apply lead_word|].
  assert (drop (Z.to_nat (i + 1)) mem = t ++ encodes ws ++ 0 :: pad) as Hd2.
  { rewrite Z2Nat.inj_add, <- drop_drop, Hd by lia. cbn. by rewrite <- app_assoc. }
  assert (bytes (t ++ encodes ws ++ 0 :: pad)) as Hby2 by (by rewrite <- app_assoc in Hby').
  rewrite (resume_char mem (i + 1) (Lead b) w k _ ltac:(lia) Hd2 Hby2 Hlead ltac:(done) Hd1).
  rewrite (resume0_char mem (i + 1) b w k _ ltac:(lia) Hd2 Hby2 Hlead Hd1).
  split; do 2 f_equal; rewrite ?He; [f_equal|]; lia.
Qed.

Lemma encodes_take k ws : encodes ws = encodes (take k ws) ++ encodes (drop k ws).
Proof. unfold encodes. rewrite <- concat_app, <- map_app. by rewrite take_drop. Qed.

Lemma at_take i k ws : at_offset i ws -> at_offset (i + Z.of_nat k) (drop k ws) ->
  zlen (encodes (take k ws)) = Z.of_nat k.
Proof.
  intros [Hi Hd] [_ Hd']. rewrite Z2Nat.inj_add, <- drop_drop, Nat2Z.id, Hd in Hd' by lia.
  apply (f_equal zlen) in Hd, Hd'. rewrite (encodes_take k ws) in Hd'. unfold zlen in *.
  rewrite length_drop, !length_app in Hd'. cbn [length] in Hd'. lia.
Qed.

(** What storing the string at [i] gives. *)
Definition stored (i wn0 wn : Z) (out ws : list Z) : mbs :=
  if Z.of_nat (length ws) <? wn
  then mk_mbs (u32 (wn0 - (wn - Z.of_nat (length ws)))) (out ++ ws ++ [0]) None 0 false
  else mk_mbs wn0 (out ++ take (Z.to_nat wn) ws)
         (Some (i + zlen (encodes (take (Z.to_nat wn) ws)))) 0 false.

Lemma stored_skip i wn0 wn out ws k : (k <= length ws)%nat -> Z.of_nat k <= wn ->
  stored i wn0 wn out ws =
  stored (i + zlen (encodes (take k ws))) wn0 (wn - Z.of_nat k) (out ++ take k ws) (drop k ws).
Proof.
  intros Hk Hwn. unfold stored. rewrite length_drop.
  replace (Z.of_nat (length ws - k) <? wn - Z.of_nat k) with (Z.of_nat (length ws) <? wn)
    by (repeat case_cmp; lia).
  destruct (Z.ltb_spec (Z.of_nat (length ws)) wn).
  - f_equal; [f_equal; lia|]. rewrite <- app_assoc. f_equal. rewrite app_assoc. by rewrite take_drop.
  - assert (take (Z.to_nat wn) ws = take k ws ++ take (Z.to_nat (wn - Z.of_nat k)) (drop k ws)) as ->.
    { rewrite take_take_drop. f_equal. lia. }
    rewrite <- app_assoc. do 2 f_equal. unfold encodes. rewrite map_app, concat_app, zlen_app. lia.
Qed.

Variable addr : Z.

Lemma ascii_prefix fuel i wn out ws b : at_offset i ws -> text ws -> (length ws < fuel)%nat -> 0 < wn ->
  exists k, (k <= length ws)%nat /\ at_offset (i + Z.of_nat k) (drop k ws) /\ Z.of_nat k < wn /\
    (if (u32 (b - 1) <? 127) && ((addr + i) mod 4 =? 0)
     then ascii_store mem fuel i wn out else Ok (i, wn, out)) =
    Ok (i + Z.of_nat k, wn - Z.of_nat k, out ++ take k ws).
Proof.
  intros. destruct (_ && _); [by apply ascii_store_spec|].
  exists O. change (Z.of_nat 0) with 0. rewrite Z.add_0_r, Z.sub_0_r, app_nil_r.
  split_and!; [lia|done|lia|done].
Qed.

Lemma at_length i ws : at_offset i ws -> (length ws < length mem)%nat.
Proof.
  intros [_ Hd]. apply (f_equal length) in Hd. rewrite length_drop, length_app in Hd. cbn in Hd.
  assert (length ws <= length (encodes ws))%nat; [|lia]. clear. induction ws as [|w ws IH]; [done|].
  unfold encodes in *. cbn [map concat length]. rewrite length_app. pose proof (encode_len w).
  unfold zlen in *. lia.
Qed.

Lemma mbs_store_spec fuel : forall i wn0 wn out ws,
  at_offset i ws -> text ws -> (length ws < fuel)%nat -> 0 <= wn ->
  mbs_store mem addr fuel i wn0 wn out = Ok (stored i wn0 wn out ws).
Proof.
  induction fuel as [|f IH]; intros i wn0 wn out ws Hat Ht Hf Hwn; [lia|]. cbn [mbs_store].
  destruct (Z.eqb_spec wn 0) as [-> |].
  { unfold stored. decide_cmp. cbn. change (zlen (@nil Z)) with 0. by rewrite app_nil_r, Z.add_0_r. }
  assert (exists b, zget mem i = Ok b) as [b ->].
  { destruct Hat as [Hi Hd]. rewrite (zget_0 mem i Hi), Hd. destruct (encodes ws); cbn; eauto. }
  cbn [obind].
  destruct (ascii_prefix (length mem) i wn out ws b Hat Ht (at_length i ws Hat) ltac:(lia))
    as (k & Hk & Hat' & Hwk & ->). cbn [obind].
  rewrite (stored_skip i wn0 wn out ws k Hk) by lia.
  rewrite (at_take i k ws Hat Hat').
  assert (text (drop k ws)) as Ht' by (by apply Forall_drop).
  assert (length (drop k ws) < S f)%nat as Hf' by (rewrite length_drop; lia).
  revert Hat' Ht' Hf' Hwk. generalize (i + Z.of_nat k), (drop k ws), (out ++ take k ws).
  generalize (Z.of_nat k). clear i out ws Hat Ht Hf Hk b n k. intros k i ws out Hat Ht Hf Hwk.
  destruct ws as [|w ws].
  - destruct Hat as [Hi Hd]. rewrite (zget_0 mem i Hi), Hd. cbn [obind encodes map concat app zget].
    change (zget (0 :: pad) 0) with (Ok 0). cbn [obind].
    change (u32 (0 - 1) <? 127) with false. change (SB - SA <? u32 (0 - SA)) with true. cbn [Z.eqb].
    unfold stored. cbn [length]. change (Z.of_nat 0) with 0. decide_cmp. by rewrite Z.sub_0_r.
  - inversion Ht as [|? ? [Hw Hw0] Ht']; subst. cbn [length] in Hf.
    pose proof (stored_skip i wn0 (wn - k) out (w :: ws) 1 ltac:(cbn; lia) ltac:(lia)) as Hsk.
    cbn [take drop] in Hsk. rewrite take_0, drop_0 in Hsk. change (Z.of_nat 1) with 1 in Hsk.
    unfold encodes in Hsk. cbn [map concat] in Hsk. rewrite app_nil_r in Hsk. rewrite Hsk.
    pose proof (at_step i w ws Hat) as Hat'.
    destruct (char_at i w ws Hat Hw Hw0) as (b & Hg & Hc). rewrite Hg. cbn [obind].
    destruct Hc as [(-> & -> & Hl)|(-> & -> & c & -> & Hr & _)]; cbn [obind].
    + rewrite Hl in Hat' |- *. apply IH; try done; lia.
    + rewrite Hr. cbn [obind]. apply IH; try done; lia.
Qed.

Lemma mbs_count_spec fuel : forall i wn0 wn ws st,
  at_offset i ws -> text ws -> (length ws < fuel)%nat ->
  mbs_count mem addr fuel st i wn0 wn =
    Ok (mk_mbs (u32 (wn0 - wn + Z.of_nat (length ws))) [] (Some 0) st false).
Proof.
  induction fuel as [|f IH]; intros i wn0 wn ws st Hat Ht Hf; [lia|]. cbn [mbs_count].
  assert (exists b, zget mem i = Ok b) as [b ->].
  { destruct Hat as [Hi Hd]. rewrite (zget_0 mem i Hi), Hd. destruct (encodes ws); cbn; eauto. }
  cbn [obind].
  assert (exists k wn', (k <= length ws)%nat /\ at_offset (i + Z.of_nat k) (drop k ws) /\
    (if (u32 (b - 1) <? 127) && ((addr + i) mod 4 =? 0)
     then ascii_count mem (length mem) i wn else Ok (i, wn)) = Ok (i + Z.of_nat k, wn') /\
    u32 wn' = u32 (wn - Z.of_nat k)) as (k & wn' & Hk & Hat' & -> & Hwn).
  { destruct (_ && _).
    - destruct (ascii_count_spec (length mem) i wn ws Hat Ht (at_length i ws Hat)) as (k & ? & ? & wn' & ? & ?).
      by exists k, wn'.
    - exists O, wn. change (Z.of_nat 0) with 0. rewrite Z.add_0_r, Z.sub_0_r. split_and!; done || lia. }
  cbn [obind].
  assert (forall d, u32 (wn0 - wn' + d) = u32 (wn0 - wn + Z.of_nat k + d)) as Hu.
  { intros d. replace (wn0 - wn' + d) with (wn0 + d - wn') by lia.
    replace (wn0 - wn + Z.of_nat k + d) with (wn0 + d - (wn - Z.of_nat k)) by lia.
    unfold u32 in *. by rewrite <- Zminus_mod_idemp_r, Hwn, Zminus_mod_idemp_r. }
  assert (text (drop k ws)) as Ht' by (by apply Forall_drop).
  assert (length ws = k + length (drop k ws))%nat as Hlen by (rewrite length_drop; lia).
  destruct (drop k ws) as [|w ws'].
  - destruct Hat' as [Hi Hd]. rewrite (zget_0 mem _ Hi), Hd.
    change (zget (encodes [] ++ 0 :: pad) 0) with (Ok 0). cbn [obind].
    change (u32 (0 - 1) <? 127) with false. change (SB - SA <? u32 (0 - SA)) with true. cbn [Z.eqb].
    do 2 f_equal. rewrite <- (Z.add_0_r (wn0 - wn')), Hu. f_equal. cbn [length] in Hlen. lia.
  - inversion Ht' as [|? ? [Hw Hw0] Ht2]; subst. cbn [length] in Hlen.
    pose proof (at_step _ w ws' Hat') as Hat2.
    assert (forall d, u32 (wn0 - u32 (wn' - 1) + d) = u32 (wn0 - wn' + (1 + d))) as Hu2.
    { intros d. replace (wn0 - u32 (wn' - 1) + d) with (wn0 + d - u32 (wn' - 1)) by lia.
      unfold u32. rewrite Zminus_mod_idemp_r. f_equal. lia. }
    destruct (char_at _ w ws' Hat' Hw Hw0) as (b' & Hg & Hc). rewrite Hg. cbn [obind].
    destruct Hc as [(-> & -> & Hl)|(-> & -> & c & -> & _ & Hr)]; cbn [obind].
    + rewrite Hl in Hat2. rewrite (IH _ _ _ ws'), Hu2, Hu; [|done..|lia]. do 3 f_equal. lia.
    + rewrite Hr. cbn [obind]. rewrite (IH _ _ _ ws'), Hu2, Hu; [|done..|lia]. do 3 f_equal. lia.
Qed.
End InMemory.

(** ** Properties *)

Lemma encode_bytes w : scalar w -> bytes (encode w).
Proof.
  intros Hw. destruct (cut w) as (a & b & c & d & Hw' & Hd & Hc & Hb & Ha & Hc' & Hb' & Bd & Bc & Bb & Ba).
  { destruct Hw; bounds; lia. }
  unfold encode, bytes. rewrite Hd, Hc, Hb, Ha, Hc', Hb'.
  repeat case_cmp; repeat (apply Forall_cons_2; [destruct Hw; lia|]); constructor.
Qed.

Lemma encodes_bytes ws : text ws -> bytes (encodes ws).
Proof.
  induction 1 as [|w ws [Hw _] _ IH]; [constructor|]. apply Forall_app. split; [by apply encode_bytes|done].
Qed.

(** C9: [mbrtowc] is the incremental UTF-8 decoder: whatever the bytes and the
    state an earlier call left, it returns the character the bytes complete with
    the number of bytes read (0 for the null character), or -2 and the state to
    continue from when the [n] bytes end inside a character, or -1 and the
    initial state at the first byte that no valid sequence continues with.  It
    never reads past the [n] bytes. *)
Theorem mbrtowc_refines_decoder s p n :
  bytes s -> valid_pst p -> 0 <= n <= zlen s ->
  mbrtowc true (Some s) n (word p) = Ok (result (decode p (take (Z.to_nat n) s) 0)).
Proof. apply mbrtowc_decode. Qed.

Lemma mbrtowc_refines_decoder_witness :
  mbrtowc true (Some [130; 172]) 2 (word (Lead 226)) = Ok (mk_mb 2 0 (Some 8364) false).
Proof.
  apply (mbrtowc_refines_decoder [130; 172] (Lead 226) 2); [by repeat constructor|done|done].
Defined.

(** C10: [wcrtomb] and [mbrtowc] are inverse: every Unicode scalar value is
    encoded and read back, and [mbrtowc] reads a character only from its
    [wcrtomb] encoding, so that overlong forms, surrogates and values past
    U+10FFFF are rejected; [wcrtomb] rejects everything but scalar values. *)
Theorem utf8_roundtrip w s n : in_s 32 w -> bytes s -> 0 <= n <= zlen s ->
  (scalar w <-> wcrtomb true w <> Err EILSEQ) /\
  forall k, 1 <= k ->
    (mbrtowc true (Some s) n 0 = Ok (mk_mb k 0 (Some w) false) <->
     w <> 0 /\ k <= n /\ wcrtomb true w = Val (take (Z.to_nat k) s) /\ zlen (encode w) = k).
Proof.
  intros Hw Hs Hn. destruct (wcrtomb_encode w Hw) as [Henc Hrej].
  assert (scalar w \/ ~ scalar w) as Hdec by (unfold scalar; lia).
  split.
  { split; [intros Hsc; by rewrite (Henc Hsc)|]. intros Hne. destruct Hdec as [|Hns]; [done|].
    by rewrite (Hrej Hns) in Hne. }
  intros k Hk. pose proof (mbrtowc_decode s Start n Hs I Hn) as Hm. cbn [word] in Hm. rewrite Hm.
  assert (bytes (take (Z.to_nat n) s)) as Hst by (by apply Forall_take). split.
  - destruct (decode Start _ 0) as [|p|w' k'] eqn:Hd; [done|done|]. intros [= Hk' ->].
    destruct (decode_sound _ _ _ Hst Hd) as (Hsc & Hlen & rest & Htake).
    destruct (Z.eqb_spec w 0); [lia|]. subst k'.
    assert (k <= n) as Hkn.
    { apply (f_equal zlen) in Htake. rewrite zlen_app in Htake. pose proof (zlen_nonneg rest).
      unfold zlen in Htake at 1. rewrite length_take in Htake. unfold zlen in *. lia. }
    split_and!; [done|done| |done]. rewrite Henc by done. f_equal.
    rewrite <- (take_app_length (encode w) rest), <- Htake, take_take. f_equal. unfold zlen in *. lia.
  - intros (Hw0 & Hkn & Hval & Hlen). destruct Hdec as [Hsc|Hns]; [|by rewrite Hrej in Hval].
    rewrite Henc in Hval by done. injection Hval as Hval.
    assert (take (Z.to_nat n) s = encode w ++ drop (Z.to_nat k) (take (Z.to_nat n) s)) as ->.
    { rewrite <- (take_drop (Z.to_nat k) (take (Z.to_nat n) s)) at 1. f_equal.
      rewrite take_take, Hval. f_equal. lia. }
    rewrite decode_encode by done. cbn [result]. decide_cmp. by rewrite Z.add_0_l, Hlen.
Qed.

Lemma utf8_roundtrip_witness :
  mbrtowc true (Some [226; 130; 172; 33]) 4 0 = Ok (mk_mb 3 0 (Some 8364) false).
Proof.
  destruct (utf8_roundtrip 8364 [226; 130; 172; 33] 4) as [_ H]; [by vm_compute|by repeat constructor|done|].
  by apply (H 3).
Defined.

(** [mbtowc] decodes what [mbrtowc] decodes from the initial state and gives
    -1 for a character cut short; the check of the state against [n] that
    replaces tests before every read is enough to never read past [n] bytes. *)
Theorem mbtowc_agrees s n : bytes s -> 0 <= n <= zlen s ->
  exists r, mbrtowc true (Some s) n 0 = Ok r /\
    mbtowc true (Some s) n = Ok (match wc r with
                                 | Some w => mk_mb (ret r) 0 (Some w) false
                                 | None => mk_mb (-1) 0 None true
                                 end).
Proof.
  intros Hs Hn. pose proof (mbrtowc_decode s Start n Hs I Hn) as Hm. cbn [word] in Hm.
  rewrite Hm, mbtowc_decode by done.
  eexists. split; [reflexivity|]. by destruct (decode _ _ _).
Qed.

Lemma mbtowc_agrees_witness : mbtowc true (Some [226; 130]) 2 = Ok (mk_mb (-1) 0 None true).
Proof.
  destruct (mbtowc_agrees [226; 130] 2) as (r & Hr & H); [by repeat constructor|done|].
  vm_compute in Hr. injection Hr as <-. exact H.
Defined.

(** Converting a wide string to UTF-8 and back gives it again: [wcsrtombs]
    stores the encoding of the string with its terminator, [mbsrtowcs] reads the
    string back from it at any alignment, four ASCII characters at a time where
    it can, and both report the lengths a call without a buffer computes.  With
    a short buffer [mbsrtowcs] stores the first [wn] characters and leaves
    [*src] after them. *)
Theorem string_roundtrip ws addr wn n pad :
  text ws -> bytes pad -> 3 <= zlen pad -> 0 <= wn < 2 ^ 32 -> zlen (encodes ws) < n < 2 ^ 32 ->
  let mem := encodes ws ++ 0 :: pad in
  wcsrtombs true true (ws ++ [0]) n = Ok (mk_wcs (zlen (encodes ws)) (encodes ws ++ [0]) None false) /\
  mbsrtowcs true mem addr false wn 0 = Ok (mk_mbs (zlen ws) [] (Some 0) 0 false) /\
  mbsrtowcs true mem addr true wn 0 = Ok
    (if zlen ws <? wn then mk_mbs (zlen ws) (ws ++ [0]) None 0 false
     else mk_mbs wn (take (Z.to_nat wn) ws) (Some (zlen (encodes (take (Z.to_nat wn) ws)))) 0 false).
Proof.
  intros Ht Hpad Hplen Hwn Hn mem.
  assert (bytes mem) as Hmem.
  { apply Forall_app. split; [by apply encodes_bytes|]. by constructor. }
  assert (at_offset mem pad 0 ws) as Hat by (split; [lia|done]).
  assert (length ws < S (length mem))%nat as Hfuel by (pose proof (at_length mem pad 0 ws Hat); lia).
  assert (zlen ws <= zlen (encodes ws)) as Hle.
  { clear. induction ws as [|w ws IH]; [done|]. unfold encodes in *. cbn [map concat].
    rewrite zlen_cons, zlen_app. pose proof (encode_len w). lia. }
  pose proof (zlen_nonneg ws). split_and!.
  - cbn [wcsrtombs negb]. rewrite wcsrtombs_fits by (done || lia). cbv zeta.
    assert (fit ws n = length ws) as ->.
    { clear - Hn. revert n Hn. induction ws as [|w ws IH]; intros n Hn; [done|]. unfold encodes in *.
      cbn [map concat fit length] in *. rewrite zlen_app in Hn. pose proof (zlen_nonneg (concat (map encode ws))).
      pose proof (encode_len w). decide_cmp. f_equal. apply IH. lia. }
    rewrite firstn_all, Nat.eqb_refl. decide_cmp. cbn [andb app]. do 2 f_equal. lia.
  - unfold mbsrtowcs. change (ctrue 0) with false. cbn [negb].
    rewrite (mbs_count_spec mem pad Hmem Hplen addr _ 0 wn wn ws 0 Hat Ht Hfuel).
    rewrite Z.sub_diag, Z.add_0_l, u32_id by (unfold zlen in *; bounds; lia). done.
  - unfold mbsrtowcs. change (ctrue 0) with false. cbn [negb].
    rewrite (mbs_store_spec mem pad Hmem Hplen addr _ 0 wn wn [] ws Hat Ht Hfuel) by lia.
    unfold stored. fold (zlen ws). cbn [app]. destruct (Z.ltb_spec (zlen ws) wn); [|done].
    rewrite u32_id by (bounds; lia). do 2 f_equal. lia.
Qed.

Lemma string_roundtrip_witness :
  mbsrtowcs true [97; 98; 99; 100; 101; 102; 226; 130; 172; 0; 7; 7; 7] 4 true 100 0 =
    Ok (mk_mbs 7 [97; 98; 99; 100; 101; 102; 8364; 0] None 0 false).
Proof.
  apply (string_roundtrip [97; 98; 99; 100; 101; 102; 8364] 4 100 100 [7; 7; 7]).
  - repeat (apply Forall_cons_2; [split; [left|]; lia|]). constructor.
  - by repeat constructor.
  - done.
  - bounds; lia.
  - by vm_compute.
Defined.

(** UTF-16: [mbrtoc16] reads every character as the code unit or the
    surrogate pair that denotes it, delivering the second half with the result
    -3, and [c16rtomb] writes these code units back as the same bytes. *)
Theorem utf16_roundtrip w rest n : scalar w -> bytes rest -> zlen (encode w) <= n <= zlen (encode w ++ rest) ->
  let s := encode w ++ rest in
  let k := if w =? 0 then 0 else zlen (encode w) in
  if w <? 65536 then
    mbrtoc16 true (Some s) n 0 = Ok (mk_mb k 0 (Some w) false) /\
    c16rtomb true true w 0 = (Val (zlen (encode w), encode w), 0)
  else
    let hi := 55296 + (w - 65536) / 1024 in
    let lo := 56320 + w mod 1024 in
    mbrtoc16 true (Some s) n 0 = Ok (mk_mb k lo (Some hi) false) /\
    (forall s' n', mbrtoc16 true (Some s') n' lo = Ok (mk_mb (u32 (-3)) 0 (Some lo) false)) /\
    exists x, c16rtomb true true hi 0 = (Val (0, []), x) /\
      c16rtomb true true lo x = (Val (zlen (encode w), encode w), 0).
Proof.
  intros Hw Hrest Hn s k.
  assert (bytes s) as Hs by (apply Forall_app; split; [by apply encode_bytes|done]).
  pose proof (encode_len w) as Hlen.
  assert (mbrtowc true (Some s) n 0 = Ok (mk_mb k 0 (Some w) false)) as Hm.
  { assert (0 <= n <= zlen s) as Hns by (unfold s; lia).
    pose proof (mbrtowc_decode s Start n Hs I Hns) as Hm. cbn [word] in Hm. rewrite Hm.
    replace (take (Z.to_nat n) s) with (encode w ++ take (Z.to_nat n - length (encode w)) rest).
    - rewrite decode_encode by done. reflexivity.
    - unfold s. rewrite take_app. f_equal. rewrite take_ge; [done|]. unfold zlen in *. lia. }
  unfold mbrtoc16. change (0 <? s32 0) with false. cbv iota. rewrite Hm. cbn [obind ret wc st err deref].
  assert (k <= 4) by (subst k; case_cmp; lia). rewrite (proj2 (Z.leb_le k 4)) by lia.
  assert (wcrtomb true w = Val (encode w)) as Hwc by (by apply wcrtomb_scalar).
  assert (0 <= w < 1114112) by (destruct Hw; lia).
  destruct (Z.ltb_spec w 65536).
  - rewrite (proj2 (Z.leb_gt 65536 w)) by lia. unfold u16. rewrite Z.mod_small by (bounds; lia).
    split; [done|]. unfold c16rtomb. cbn [negb ctrue Z.eqb andb].
    assert ((u32 (w - 55296) <? 1024) = false) as ->; [|by rewrite Hwc].
    destruct (Z.ltb_spec w 55296); [|rewrite u32_id by (bounds; lia); apply Z.ltb_ge; destruct Hw; lia].
    unfold u32. rewrite <- (Z.mod_add _ 1) by lia. rewrite Z.mod_small by (bounds; lia).
    apply Z.ltb_ge. bounds. lia.
  - rewrite (proj2 (Z.leb_le 65536 w)) by lia. cbv zeta.
    set (q := (w - 65536) / 1024). set (r := w mod 1024).
    assert (w = 65536 + 1024 * q + r /\ 0 <= r < 1024 /\ 0 <= q < 1024) as (Hw' & Hr & Hq).
    { pose proof (Z.mod_pos_bound w 1024 ltac:(lia)). fold r in H2.
      assert (q = w / 1024 - 64) as Hq'.
      { unfold q. replace (w - 65536) with (w + (-64) * 1024) by lia. rewrite Z.div_add; lia. }
      pose proof (Z.div_mod w 1024 ltac:(lia)). fold r in H3. lia. }
    assert (Z.land w 1023 = r) as ->.
    { change 1023 with (Z.ones 10). rewrite Z.land_ones by lia. done. }
    assert (Z.shiftr w 10 = 64 + q) as ->.
    { rewrite Z.shiftr_div_pow2 by lia. change (2 ^ 10) with 1024. symmetry.
      apply Z.div_unique with r; [left|]; lia. }
    split_and!.
    + unfold u16. rewrite Z.mod_small by (bounds; lia). rewrite (Z.add_comm r).
      by replace (55232 + (64 + q)) with (55296 + q) by lia.
    + intros s' n'. assert ((0 <? s32 (56320 + r)) = true) as ->.
      { rewrite s32_id by (bounds; lia). apply Z.ltb_lt. lia. }
      unfold u16. rewrite Z.mod_small by (bounds; lia). done.
    + exists (u32 ((55296 + q - 55232) * 1024)). unfold c16rtomb. cbn [negb ctrue Z.eqb andb].
      rewrite (u32_id (55296 + q - 55296)) by (bounds; lia).
      rewrite (proj2 (Z.ltb_lt (55296 + q - 55296) 1024)) by lia. split; [done|].
      rewrite (u32_id ((55296 + q - 55232) * 1024)) by (bounds; lia).
      assert (ctrue ((55296 + q - 55232) * 1024) = true) as -> by (apply negb_true_iff, Z.eqb_neq; lia).
      cbn [negb andb]. rewrite (u32_id (56320 + r - 56320)) by (bounds; lia).
      rewrite (proj2 (Z.leb_gt 1024 (56320 + r - 56320))) by lia.
      replace ((55296 + q - 55232) * 1024 + (56320 + r) - 56320) with w by lia.
      rewrite u32_id, s32_id by (bounds; lia). by rewrite Hwc.
Qed.

Lemma utf16_roundtrip_witness :
  mbrtoc16 true (Some [240; 159; 152; 128]) 4 0 = Ok (mk_mb 4 56832 (Some 55357) false).
Proof.
  apply (utf16_roundtrip 128512 [] 4); [right; lia|constructor|by vm_compute].
Defined.

(** [mbsrtowcs] does not test [wn] when it resumes inside a character: with
    [wn] 0 and a state left by a partial [mbrtowc] it stores the whole rest of the
    string, although the buffer has room for nothing. *)
Theorem mbsrtowcs_resume_overruns p s w k ws pad addr :
  valid_pst p -> p <> Start -> bytes (s ++ encodes ws ++ 0 :: pad) -> text ws -> 3 <= zlen pad ->
  zlen ws < 2 ^ 32 - 1 -> decode p s 0 = Char w k -> zlen s = k ->
  mbsrtowcs true (s ++ encodes ws ++ 0 :: pad) addr true 0 (word p) =
    Ok (mk_mbs (1 + zlen ws) (w :: ws ++ [0]) None 0 false).
Proof.
  intros Hp Hp0 Hb Ht Hpad Hlen Hd Hk. set (mem := s ++ _) in *. unfold mbsrtowcs.
  rewrite (word_nonzero p Hp Hp0).
  assert (decode p mem 0 = Char w k) as Hd'.
  { unfold mem. clear - Hd. revert p Hd. generalize (encodes ws ++ 0 :: pad). intros t. generalize 0. induction s as [|b s IH]; intros r p; [done|].
    cbn [app decode]. destruct (feed p b) as [| |q]; [done|done|apply IH]. }
  rewrite (resume_char mem 0 p w k mem) by (done || lia). cbn [obind]. rewrite Z.add_0_l.
  assert (at_offset mem pad k ws) as Hat.
  { split; [subst k; apply zlen_nonneg|]. unfold mem. subst k. unfold zlen. rewrite Nat2Z.id.
    apply drop_app_length. }
  pose proof (at_length mem pad k ws Hat).
  rewrite (mbs_store_spec mem pad Hb Hpad addr _ k 0 (u32 (0 - 1)) [w] ws Hat Ht); [|lia|done].
  unfold stored. fold (zlen ws). change (u32 (0 - 1)) with 4294967295. bounds.
  rewrite (proj2 (Z.ltb_lt (zlen ws) 4294967295)) by lia. do 2 f_equal.
  pose proof (zlen_nonneg ws). unfold u32. rewrite <- (Z.mod_add _ 1) by lia.
  rewrite Z.mod_small; bounds; lia.
Qed.

Lemma mbsrtowcs_resume_overruns_witness :
  mbsrtowcs true [172; 97; 98; 0; 7; 7; 7] 0 true 0 (word (More 1 130)) =
    Ok (mk_mbs 3 [8364; 97; 98; 0] None 0 false).
Proof.
  apply (mbsrtowcs_resume_overruns (More 1 130) [172] 8364 1 [97; 98] [7; 7; 7] 0).
  - left. done.
  - done.
  - by repeat constructor.
  - repeat (apply Forall_cons_2; [split; [left|]; lia|]). constructor.
  - done.
  - by vm_compute.
  - reflexivity.
  - reflexivity.
Defined.

End Multibyte.
