(* ===== verification/Events.v ===== *)
(** Waiting for events and time in wasi-libc's bottom half
    (libc-bottom-half/cloudlibc/src): [poll], [pselect] and [select], the sleep
    functions and the clocks, all on the host's [poll_oneoff],
    [clock_time_get] and [clock_res_get].

    The host functions are parameters.  A [struct pollfd *] in the [userdata] of
    a subscription is the index of the element. *)

From S2P Require Import Prelude.

Module Events.

Definition NSEC_PER_SEC : Z := 1000000000.

(** ** common/time.h *)

Record timespec := mk_timespec { tv_sec : Z; tv_nsec : Z }.
Record timeval := mk_timeval { tv_sec' : Z; tv_usec : Z }.

(** [__builtin_mul_overflow] and [__builtin_add_overflow] into a
    [__wasi_timestamp_t]: whether it overflows, and what is stored. *)
Definition to_u64 (x : Z) : bool * Z := (negb (x =? u64 x), u64 x).

(** The Boolean result and [*timestamp]. *)
Definition timespec_to_timestamp_exact (t : timespec) (timestamp : Z) : bool * Z :=
  if (tv_nsec t <? 0) || (NSEC_PER_SEC <=? tv_nsec t) then (false, timestamp)
  else if tv_sec t <? 0 then (false, timestamp)
  else
    let '(o1, ts) := to_u64 (tv_sec t * NSEC_PER_SEC) in
    if o1 then (false, ts) else
    let '(o2, ts) := to_u64 (ts + tv_nsec t) in
    (negb o2, ts).

Definition timespec_to_timestamp_clamp (t : timespec) (timestamp : Z) : bool * Z :=
  if (tv_nsec t <? 0) || (NSEC_PER_SEC <=? tv_nsec t) then (false, timestamp)
  else if tv_sec t <? 0 then (true, 0)
  else
    let '(o1, ts) := to_u64 (tv_sec t * NSEC_PER_SEC) in
    if o1 then (true, 2 ^ 64 - 1) else
    let '(o2, ts) := to_u64 (ts + tv_nsec t) in
    (true, if o2 then 2 ^ 64 - 1 else ts).

Definition timestamp_to_timespec (timestamp : Z) : timespec :=
  mk_timespec (timestamp / NSEC_PER_SEC) (timestamp mod NSEC_PER_SEC).

Definition timestamp_to_timeval (timestamp : Z) : timeval :=
  let ts := timestamp_to_timespec timestamp in
  mk_timeval (tv_sec ts) (tv_nsec ts / 1000).

(** ** The host *)

Definition EVENTTYPE_CLOCK : Z := 0.
Definition EVENTTYPE_FD_READ : Z := 1.
Definition EVENTTYPE_FD_WRITE : Z := 2.
Definition ERRNO_PIPE : Z := 64.
Definition FD_READWRITE_HANGUP : Z := 1.
Definition CLOCKID_REALTIME : Z := 0.
Definition CLOCKID_MONOTONIC : Z := 1.
Definition TIMER_ABSTIME : Z := 1.

Inductive subscription :=
| SubRead (userdata file_descriptor : Z)
| SubWrite (userdata file_descriptor : Z)
| SubClock (id timeout flags : Z).

Record event := mk_event { userdata : Z; error : Z; type : Z; flags : Z }.

(** What a failed or successful call returns and sets errno to. *)
Record answer := mk_answer { a_ret : Z; a_errno : option Z }.

Section Host.
(** [poll_oneoff]: an error, or the events that occurred. *)
Variable poll_oneoff : list subscription -> res (list event).
(** [clock_time_get id precision] and [clock_res_get id]. *)
Variable clock_time_get : Z -> Z -> res Z.
Variable clock_res_get : Z -> res Z.

(** ** poll *)

Definition POLLRDNORM : Z := 1.
Definition POLLWRNORM : Z := 2.
Definition POLLERR : Z := 4096.
Definition POLLHUP : Z := 8192.
Definition POLLNVAL : Z := 16384.

Record pollfd := mk_pollfd { fd : Z; events : Z; revents : Z }.
Definition set_revents (r : Z) (p : pollfd) : pollfd := mk_pollfd (fd p) (events p) r.
Definition has (x bit : Z) : bool := ctrue (Z.land x bit).

(** [subscriptions[nsubscriptions++] = s] in an array of [maxevents]. *)
Definition push (subs : list subscription) (maxevents : Z) (s : subscription)
  : outcome (list subscription) :=
  if zlen subs <? maxevents then Ok (subs ++ [s]) else UB.

(** The loop that builds the subscriptions; [Err] is the early return. *)
Fixpoint poll_subs (fds : list pollfd) (i maxevents : Z) (subs : list subscription)
  : outcome (res (list subscription)) :=
  match fds with
  | [] => Ok (Val subs)
  | p :: fds =>
      if fd p <? 0 then poll_subs fds (i + 1) maxevents subs else
      let! subs' := if has (events p) POLLRDNORM then push subs maxevents (SubRead i (fd p)) else Ok subs in
      let! subs' := if has (events p) POLLWRNORM then push subs' maxevents (SubWrite i (fd p)) else Ok subs' in
      if negb (has (events p) POLLRDNORM) && negb (has (events p) POLLWRNORM) then Ok (Err ENOSYS)
      else poll_subs fds (i + 1) maxevents subs'
  end.

(** The bits an event adds to [revents]. *)
Definition event_bits (e : event) : Z :=
  if error e =? EBADF then POLLNVAL
  else if error e =? ERRNO_PIPE then POLLHUP
  else if ctrue (error e) then POLLERR
  else if type e =? EVENTTYPE_FD_READ then
    if has (flags e) FD_READWRITE_HANGUP then Z.lor POLLRDNORM POLLHUP else POLLRDNORM
  else if type e =? EVENTTYPE_FD_WRITE then
    if has (flags e) FD_READWRITE_HANGUP then Z.lor POLLWRNORM POLLHUP else POLLWRNORM
  else 0.

Definition is_fd_event (e : event) : bool :=
  (type e =? EVENTTYPE_FD_READ) || (type e =? EVENTTYPE_FD_WRITE).

Fixpoint set_events (evs : list event) (fds : list pollfd) : outcome (list pollfd) :=
  match evs with
  | [] => Ok fds
  | e :: evs =>
      if is_fd_event e then
        let! p := zget fds (userdata e) in
        set_events evs (<[Z.to_nat (userdata e) := set_revents (Z.lor (revents p) (event_bits e)) p]> fds)
      else set_events evs fds
  end.

(** The last loop: [POLLHUP] contradicts [POLLWRNORM]; counts the results. *)
Fixpoint poll_count (fds : list pollfd) : Z * list pollfd :=
  match fds with
  | [] => (0, [])
  | p :: fds =>
      let r := if has (revents p) POLLHUP then Z.land (revents p) (-3) else revents p in
      let '(n, fds) := poll_count fds in
      (n + cbool (ctrue r), set_revents r p :: fds)
  end.

(** The result, errno, the array afterwards and the subscriptions passed to the
    host, if it was called. *)
Record poll_result := mk_poll {
  p_ret : Z; p_errno : option Z; p_fds : list pollfd; p_call : option (list subscription) }.

Definition poll (fds : list pollfd) (timeout : Z) : outcome poll_result :=
  let nfds := zlen fds in
  let maxevents := u32 (2 * nfds + 1) in
  let! r := poll_subs fds 0 maxevents [] in
  match r with
  | Err e => Ok (mk_poll (-1) (Some e) fds None)
  | Val subs =>
      let! subs := if 0 <=? timeout
                   then push subs maxevents (SubClock CLOCKID_REALTIME (u64 (timeout * 1000000)) 0)
                   else Ok subs in
      match poll_oneoff subs with
      | Err e => Ok (mk_poll (-1) (Some (if zlen subs =? 0 then ENOTSUP else e)) fds (Some subs))
      | Val evs =>
          let! fds := set_events evs (map (set_revents 0) fds) in
          let '(retval, fds) := poll_count fds in
          Ok (mk_poll retval None fds (Some subs))
      end
  end.

(** ** pselect and select *)

Definition FD_SETSIZE : Z := 1024.

(** An [fd_set] is its first [__nfds] elements. *)
Fixpoint pselect_subs (set : list Z) (nfds maxevents : Z) (mk : Z -> Z -> subscription)
    (subs : list subscription) : outcome (list subscription) :=
  match set with
  | [] => Ok subs
  | f :: set =>
      let! subs := if f <? nfds then push subs maxevents (mk (u64 f) (u32 f)) else Ok subs in
      pselect_subs set nfds maxevents mk subs
  end.

(** [set->__fds[set->__nfds++] = x] *)
Definition fd_add (set : list Z) (x : Z) : outcome (list Z) :=
  if zlen set <? FD_SETSIZE then Ok (set ++ [s32 x]) else UB.

Fixpoint pselect_sets (evs : list event) (readfds writefds : list Z) : outcome (list Z * list Z) :=
  match evs with
  | [] => Ok (readfds, writefds)
  | e :: evs =>
      if type e =? EVENTTYPE_FD_READ then
        let! readfds := fd_add readfds (userdata e) in pselect_sets evs readfds writefds
      else if type e =? EVENTTYPE_FD_WRITE then
        let! writefds := fd_add writefds (userdata e) in pselect_sets evs readfds writefds
      else pselect_sets evs readfds writefds
  end.

Record select_result := mk_select {
  s_ret : Z; s_errno : option Z; s_read : list Z; s_write : list Z;
  s_call : option (list subscription) }.

(** The sets are [None] for null pointers, which stand for the empty set. *)
Definition pselect (nfds : Z) (readfds writefds errorfds : option (list Z)) (timeout : option timespec)
  : outcome select_result :=
  let rd := default [] readfds in
  let wr := default [] writefds in
  let fails e := Ok (mk_select (-1) (Some e) rd wr None) in
  if nfds <? 0 then fails EINVAL else
  if match errorfds with Some s => 0 <? zlen s | None => false end then fails ENOSYS else
  let maxevents := u32 (zlen rd + zlen wr + 1) in
  let! subs := pselect_subs rd nfds maxevents SubRead [] in
  let! subs := pselect_subs wr nfds maxevents SubWrite subs in
  let! r :=
    match timeout with
    | None => Ok (Val subs)
    | Some t =>
        let '(ok, ts) := timespec_to_timestamp_clamp t 0 in
        let! subs := push subs maxevents (SubClock CLOCKID_REALTIME ts 0) in
        if ok then Ok (Val subs) else Ok (Err EINVAL)
    end in
  match r with
  | Err e => fails e
  | Val subs =>
      match poll_oneoff subs with
      | Err e => Ok (mk_select (-1) (Some (if zlen subs =? 0 then ENOTSUP else e)) rd wr (Some subs))
      | Val evs =>
          if existsb (fun e => is_fd_event e && (error e =? EBADF)) evs
          then Ok (mk_select (-1) (Some EBADF) rd wr (Some subs))
          else
            let! r := pselect_sets evs [] [] in
            let '(rd, wr) := r in
            Ok (mk_select (zlen rd + zlen wr) None rd wr (Some subs))
      end
  end.

Definition select (nfds : Z) (readfds writefds errorfds : option (list Z)) (timeout : option timeval)
  : outcome select_result :=
  match timeout with
  | Some t =>
      if (tv_usec t <? 0) || (1000000 <=? tv_usec t)
      then Ok (mk_select (-1) (Some EINVAL) (default [] readfds) (default [] writefds) None)
      else pselect nfds readfds writefds errorfds
             (Some (mk_timespec (tv_sec' t) (s32 (tv_usec t) * 1000)))
  | None => pselect nfds readfds writefds errorfds None
  end.

(** ** Sleeping *)

(** The error number returned, and the call made to the host.  [ev] is read
    although the host may have stored nothing in it. *)
Definition clock_nanosleep (id flags : Z) (rqtp : timespec) : outcome (Z * option (list subscription)) :=
  if ctrue (Z.land flags (-2)) then Ok (EINVAL, None) else
  let '(ok, ts) := timespec_to_timestamp_clamp rqtp 0 in
  if negb ok then Ok (EINVAL, None) else
  let sub := [SubClock id ts flags] in
  match poll_oneoff sub with
  | Err _ => Ok (ENOTSUP, Some sub)
  | Val [] => UB
  | Val (ev :: _) => Ok (if error ev =? 0 then 0 else ENOTSUP, Some sub)
  end.

(** [errno = error; return -1] unless [error] is 0. *)
Definition errno_result (e : Z) : answer :=
  if ctrue e then mk_answer (-1) (Some e) else mk_answer 0 None.

Definition nanosleep (rqtp : timespec) : outcome answer :=
  let! r := clock_nanosleep CLOCKID_REALTIME 0 rqtp in Ok (errno_result (fst r)).

Definition usleep (useconds : Z) : outcome answer :=
  let! r := clock_nanosleep CLOCKID_REALTIME 0
              (mk_timespec (useconds / 1000000) (useconds mod 1000000 * 1000)) in
  Ok (errno_result (fst r)).

Definition sleep (seconds : Z) : outcome Z :=
  let! r := clock_nanosleep CLOCKID_REALTIME 0 (mk_timespec seconds 0) in
  Ok (if ctrue (fst r) then seconds else 0).

(** ** Clocks *)

Definition clock_gettime (id : Z) : res timespec :=
  match clock_time_get id 1 with
  | Err e => Err e
  | Val ts => Val (timestamp_to_timespec ts)
  end.

Definition clock_getres (id : Z) : res timespec :=
  match clock_res_get id with
  | Err e => Err e
  | Val ts => Val (timestamp_to_timespec ts)
  end.

(** A failed [clock_time_get] leaves the time at 0. *)
Definition time_get (id precision : Z) : Z :=
  match clock_time_get id precision with Val ts => ts | Err _ => 0 end.

Definition time : Z := time_get CLOCKID_REALTIME NSEC_PER_SEC / NSEC_PER_SEC.
Definition gettimeofday : timeval := timestamp_to_timeval (time_get CLOCKID_REALTIME 1000).

(** [start] is the time the constructor [init] recorded. *)
Definition clock (start : Z) : Z := s64 (time_get CLOCKID_MONOTONIC 0 - start).

End Host.

(** ** Specification and proofs *)

(** *** Timestamps *)

Definition total_ns (t : timespec) : Z := tv_sec t * NSEC_PER_SEC + tv_nsec t.
Definition valid_ns (t : timespec) : Prop := 0 <= tv_nsec t < NSEC_PER_SEC.

Lemma to_u64_spec x : 0 <= x -> to_u64 x = (2 ^ 64 <=? x, x mod 2 ^ 64).
Proof.
  intros Hx. unfold to_u64, u64. f_equal. destruct (Z.leb_spec (2 ^ 64) x).
  - apply negb_true_iff, Z.eqb_neq. pose proof (Z.mod_pos_bound x (2 ^ 64) ltac:(lia)). lia.
  - rewrite Z.mod_small by lia. by rewrite Z.eqb_refl.
Qed.

Lemma exact_spec t ts : - 2 ^ 63 <= tv_sec t < 2 ^ 63 ->
  (valid_ns t /\ 0 <= tv_sec t /\ total_ns t < 2 ^ 64 /\
     timespec_to_timestamp_exact t ts = (true, total_ns t)) \/
  (~ (valid_ns t /\ 0 <= tv_sec t /\ total_ns t < 2 ^ 64) /\
     fst (timespec_to_timestamp_exact t ts) = false).
Proof.
  intros Hs. unfold timespec_to_timestamp_exact, valid_ns, total_ns, NSEC_PER_SEC in *.
  destruct (Z.ltb_spec (tv_nsec t) 0); cbn [orb]; [right; split; [lia|done]|].
  destruct (Z.leb_spec 1000000000 (tv_nsec t)); [right; split; [lia|done]|].
  destruct (Z.ltb_spec (tv_sec t) 0); [right; split; [lia|done]|].
  rewrite to_u64_spec by lia. destruct (Z.leb_spec (2 ^ 64) (tv_sec t * 1000000000)).
  { right. split; [lia|done]. }
  rewrite Z.mod_small, to_u64_spec by lia.
  destruct (Z.leb_spec (2 ^ 64) (tv_sec t * 1000000000 + tv_nsec t)); [right; split; [lia|done]|].
  rewrite Z.mod_small by lia. left. split_and!; try lia. done.
Qed.

Lemma clamp_spec t ts : valid_ns t ->
  timespec_to_timestamp_clamp t ts = (true, if tv_sec t <? 0 then 0 else Z.min (total_ns t) (2 ^ 64 - 1)).
Proof.
  unfold timespec_to_timestamp_clamp, valid_ns, total_ns, NSEC_PER_SEC. intros Hv. decide_cmp. cbn [orb].
  destruct (Z.ltb_spec (tv_sec t) 0); [done|].
  rewrite to_u64_spec by lia. destruct (Z.leb_spec (2 ^ 64) (tv_sec t * 1000000000)).
  { by rewrite Z.min_r by lia. }
  rewrite Z.mod_small, to_u64_spec by lia.
  destruct (Z.leb_spec (2 ^ 64) (tv_sec t * 1000000000 + tv_nsec t)); [by rewrite Z.min_r by lia|].
  rewrite Z.mod_small, Z.min_l by lia. done.
Qed.

(** *** The subscriptions of [poll] *)

Definition fd_subs (i : Z) (p : pollfd) : list subscription :=
  if fd p <? 0 then []
  else (if has (events p) POLLRDNORM then [SubRead i (fd p)] else []) ++
       (if has (events p) POLLWRNORM then [SubWrite i (fd p)] else []).

Fixpoint subs_from (fds : list pollfd) (i : Z) : list subscription :=
  match fds with [] => [] | p :: fds => fd_subs i p ++ subs_from fds (i + 1) end.

(** A descriptor to wait for, with nothing to wait for. *)
Definition asks_nothing (p : pollfd) : bool :=
  negb (fd p <? 0) && negb (has (events p) POLLRDNORM) && negb (has (events p) POLLWRNORM).

Lemma poll_subs_spec fds : forall i m subs, zlen subs + 2 * zlen fds <= m ->
  poll_subs fds i m subs =
    Ok (if existsb asks_nothing fds then Err ENOSYS else Val (subs ++ subs_from fds i)).
Proof.
  induction fds as [|p fds IH]; intros i m subs Hm; cbn [poll_subs existsb subs_from].
  { by rewrite app_nil_r. }
  rewrite zlen_cons in Hm. pose proof (zlen_nonneg fds). unfold asks_nothing at 1, fd_subs.
  destruct (fd p <? 0); cbn [negb andb orb app]; [apply IH; lia|].
  unfold push. destruct (has (events p) POLLRDNORM), (has (events p) POLLWRNORM); cbn [negb andb orb app].
  all: cbn [obind]; rewrite ?(proj2 (Z.ltb_lt (zlen subs) m)) by lia; cbn [obind].
  all: rewrite ?zlen_app; change (zlen [_]) with 1; rewrite ?(proj2 (Z.ltb_lt (zlen subs + 1) m)) by lia; cbn [obind].
  all: rewrite ?IH by (rewrite ?zlen_app; change (zlen [_]) with 1; lia); try done.
  all: by rewrite <- ?app_assoc.
Qed.

(** *** The results of [poll] *)

(** Documented of [poll_oneoff]: every event answers a subscription, at most one
    event per subscription. *)
Definition answers (e : event) (s : subscription) : Prop :=
  match s with
  | SubRead u _ => type e = EVENTTYPE_FD_READ /\ userdata e = u
  | SubWrite u _ => type e = EVENTTYPE_FD_WRITE /\ userdata e = u
  | SubClock _ _ _ => type e = EVENTTYPE_CLOCK
  end.
Definition contract (subs : list subscription) (evs : list event) : Prop :=
  exists answered, answered ⊆+ subs /\ Forall2 answers evs answered.

(** When an event on a descriptor is reported by which bit: an invalid
    descriptor, a closed pipe or a hang-up, any other error, and readable or
    writable data. *)
Definition tells (e : event) (bit : Z) : bool :=
  if bit =? POLLNVAL then error e =? EBADF
  else if bit =? POLLHUP then
    (error e =? ERRNO_PIPE) || (error e =? 0) && has (flags e) FD_READWRITE_HANGUP
  else if bit =? POLLERR then
    negb (error e =? 0) && negb (error e =? EBADF) && negb (error e =? ERRNO_PIPE)
  else if bit =? POLLRDNORM then (error e =? 0) && (type e =? EVENTTYPE_FD_READ)
  else (error e =? 0) && (type e =? EVENTTYPE_FD_WRITE).

Definition told (e : event) : Z :=
  fold_left Z.lor (filter (fun bit => tells e bit = true)
    [POLLRDNORM; POLLWRNORM; POLLERR; POLLHUP; POLLNVAL]) 0.

Lemma event_bits_told e : is_fd_event e = true -> event_bits e = told e.
Proof.
  destruct e as [u er ty fl]. unfold is_fd_event, event_bits, told, tells, ctrue.
  cbn [error type flags]. intros Ht.
  destruct (Z.eqb_spec er EBADF) as [E|]; [subst er; done|].
  destruct (Z.eqb_spec er ERRNO_PIPE) as [E|]; [subst er; done|].
  destruct (Z.eqb_spec er 0) as [E|]; [|done]. subst er.
  destruct (Z.eqb_spec ty EVENTTYPE_FD_READ) as [E|]; [subst ty; by destruct (has _ _)|].
  destruct (Z.eqb_spec ty EVENTTYPE_FD_WRITE) as [E|]; [subst ty; by destruct (has _ _)|done].
Qed.

Definition bits_for (evs : list event) (i r : Z) : Z :=
  fold_left (fun r e => if is_fd_event e && (userdata e =? i) then Z.lor r (told e) else r) evs r.

Definition clean (r : Z) : Z := if has r POLLHUP then Z.land r (-3) else r.

Definition polled (evs : list event) (fds : list pollfd) : list pollfd :=
  imap (fun i p => set_revents (clean (bits_for evs (Z.of_nat i) 0)) p) fds.

Definition ready (fds : list pollfd) : Z := zlen (filter (fun p => revents p <> 0) fds).

Lemma set_events_spec evs : forall fds,
  Forall (fun e => is_fd_event e = true -> 0 <= userdata e < zlen fds) evs ->
  set_events evs fds =
    Ok (imap (fun i p => set_revents (bits_for evs (Z.of_nat i) (revents p)) p) fds).
Proof.
  induction evs as [|e evs IH]; intros fds Hr; cbn [set_events].
  { f_equal. apply list_eq. intros i. rewrite list_lookup_imap. by destruct (fds !! i) as [[]|]. }
  inversion Hr as [|? ? He Hr']; subst. unfold bits_for. cbn [fold_left].
  destruct (is_fd_event e) eqn:Ee; cbn [andb].
  2:{ by rewrite IH. }
  rewrite (event_bits_told e Ee). specialize (He eq_refl). destruct (zget_in_range fds (userdata e) He) as [p Hp]. rewrite Hp. cbn [obind].
  apply zget_lookup in Hp as [_ Hp]. rewrite IH by (by rewrite zlen_insert).
  f_equal. apply list_eq. intros i. rewrite !list_lookup_imap.
  destruct (decide (i = Z.to_nat (userdata e))) as [-> |Hi].
  - rewrite list_lookup_insert_eq by (unfold zlen in He; lia). rewrite Hp. cbn.
    rewrite (proj2 (Z.eqb_eq (userdata e) (Z.of_nat (Z.to_nat (userdata e))))) by lia. done.
  - rewrite list_lookup_insert_ne by done. destruct (fds !! i); [|done]. cbn.
    by rewrite (proj2 (Z.eqb_neq (userdata e) (Z.of_nat i))) by lia.
Qed.

Lemma poll_count_spec fds :
  poll_count fds = (ready (map (fun p => set_revents (clean (revents p)) p) fds),
                    map (fun p => set_revents (clean (revents p)) p) fds).
Proof.
  induction fds as [|p fds IH]; [done|]. cbn [poll_count map]. rewrite IH. fold (clean (revents p)).
  f_equal. unfold ready. rewrite filter_cons. cbn [revents set_revents].
  unfold ctrue. case_decide; destruct (Z.eqb_spec (clean (revents p)) 0); try done; cbn [negb cbool].
  - rewrite zlen_cons. lia.
  - lia.
Qed.

Lemma contract_each subs evs : contract subs evs -> Forall (fun e => exists s, s ∈ subs /\ answers e s) evs.
Proof.
  intros (l & Hl & Ha). apply Forall_forall. intros e He.
  apply list_elem_of_lookup in He as [i Hi]. destruct (Forall2_lookup_l _ _ _ _ _ Ha Hi) as (s & Hs & Hes).
  exists s. split; [|done]. eapply elem_of_submseteq; [|exact Hl]. by eapply list_elem_of_lookup_2.
Qed.

Lemma subs_from_range fds : forall i s, s ∈ subs_from fds i ->
  match s with
  | SubRead u _ | SubWrite u _ => i <= u < i + zlen fds
  | SubClock _ _ _ => False
  end.
Proof.
  induction fds as [|p fds IH]; intros i s; cbn [subs_from]; [by intros ?%not_elem_of_nil|].
  rewrite zlen_cons. pose proof (zlen_nonneg fds). intros [Hs|Hs]%elem_of_app.
  - unfold fd_subs in Hs. destruct (fd p <? 0); [by apply not_elem_of_nil in Hs|].
    destruct (has _ _), (has _ _); cbn [app] in Hs; rewrite ?elem_of_cons, ?elem_of_nil in Hs;
      naive_solver lia.
  - specialize (IH (i + 1) s Hs). destruct s; lia.
Qed.

Lemma polled_events evs fds :
  map (fun p => set_revents (clean (revents p)) p)
    (imap (fun i p => set_revents (bits_for evs (Z.of_nat i) 0) p) fds) = polled evs fds.
Proof.
  apply list_eq. intros i. unfold polled. rewrite list_lookup_fmap, !list_lookup_imap.
  by destruct (fds !! i).
Qed.

Lemma imap_reset evs fds :
  imap (fun i p => set_revents (bits_for evs (Z.of_nat i) (revents p)) p) (map (set_revents 0) fds) =
  imap (fun i p => set_revents (bits_for evs (Z.of_nat i) 0) p) fds.
Proof.
  apply list_eq. intros i. rewrite !list_lookup_imap, list_lookup_fmap. by destruct (fds !! i).
Qed.

(** C11: [poll] asks the host for exactly the events the array requests and the
    timeout, without overrunning its subscription array, and reports what the
    host answered: each element gets the bits that tell the events on its own
    descriptor ([tells]), [POLLHUP] excluding [POLLWRNORM], and the result is the number of
    elements with bits.  With nothing to ask of some descriptor it fails with
    [ENOSYS] before any call, with nothing to wait for at all with [ENOTSUP];
    when it fails the array is unchanged. *)
Theorem poll_correct poll_oneoff fds timeout :
  (forall subs evs, poll_oneoff subs = Val evs -> contract subs evs) ->
  zlen fds < 2 ^ 30 -> in_s 32 timeout ->
  poll poll_oneoff fds timeout = Ok (
    if existsb asks_nothing fds then mk_poll (-1) (Some ENOSYS) fds None else
    let subs := subs_from fds 0 ++
                (if 0 <=? timeout then [SubClock CLOCKID_REALTIME (timeout * 1000000) 0] else []) in
    match poll_oneoff subs with
    | Err e => mk_poll (-1) (Some (match subs with [] => ENOTSUP | _ => e end)) fds (Some subs)
    | Val evs => mk_poll (ready (polled evs fds)) None (polled evs fds) (Some subs)
    end) /\
  forall r, has (clean r) POLLHUP = true -> has (clean r) POLLWRNORM = false.
Proof.
  intros Hhost Hlen Ht. split.
  2:{ intros r. unfold clean, has. destruct (ctrue (Z.land r POLLHUP)) eqn:E; [|congruence].
      intros _. rewrite <- Z.land_assoc. cbn. by rewrite Z.land_0_r. }
  unfold poll. pose proof (zlen_nonneg fds). rewrite u32_id by (bounds; lia).
  rewrite poll_subs_spec by (change (zlen (@nil subscription)) with 0; lia). cbn [obind app].
  destruct (existsb asks_nothing fds); [done|].
  assert (zlen (subs_from fds 0) <= 2 * zlen fds) as Hs.
  { generalize 0. clear. induction fds as [|p fds IH]; intros i; [done|].
    cbn [subs_from]. rewrite zlen_app, zlen_cons. specialize (IH (i + 1)). unfold fd_subs.
    destruct (fd p <? 0), (has (events p) POLLRDNORM), (has (events p) POLLWRNORM); cbn [app]; rewrite ?zlen_cons;
      change (zlen (@nil subscription)) with 0; lia. }
  set (clk := if 0 <=? timeout then _ else []).
  assert ((if 0 <=? timeout then push (subs_from fds 0) (2 * zlen fds + 1)
     (SubClock CLOCKID_REALTIME (u64 (timeout * 1000000)) 0) else Ok (subs_from fds 0)) =
     Ok (subs_from fds 0 ++ clk)) as ->.
  { subst clk. destruct (Z.leb_spec 0 timeout); [|by rewrite app_nil_r]. unfold push.
    rewrite (proj2 (Z.ltb_lt _ _)) by lia. by rewrite u64_id by (bounds; lia). }
  cbn [obind]. set (subs := subs_from fds 0 ++ clk). cbv zeta.
  destruct (poll_oneoff subs) as [evs|e] eqn:Eh.
  - rewrite set_events_spec.
    + cbn [obind]. by rewrite poll_count_spec, imap_reset, polled_events.
    + pose proof (contract_each subs evs (Hhost subs evs Eh)) as Hc.
      eapply Forall_impl; [exact Hc|]. cbn. intros e (s & [Hin|Hin]%elem_of_app & Ha) Hfd.
      * pose proof (subs_from_range fds 0 s Hin) as Hr. unfold zlen. rewrite length_map. fold (zlen fds).
        destruct s; [destruct Ha as [_ ->]; lia..|done].
      * subst clk. destruct (0 <=? timeout); [|by apply not_elem_of_nil in Hin].
        apply list_elem_of_singleton in Hin as ->. cbn in Ha. unfold is_fd_event in Hfd. by rewrite Ha in Hfd.
  - do 4 f_equal. destruct subs; [done|]. rewrite zlen_cons. pose proof (zlen_nonneg subs). by decide_cmp.
Qed.

(** A host on which everything is ready at once. *)
Definition all_ready (subs : list subscription) : res (list event) :=
  Val (map (fun s => match s with
                     | SubRead u _ => mk_event u 0 EVENTTYPE_FD_READ 0
                     | SubWrite u _ => mk_event u 0 EVENTTYPE_FD_WRITE 0
                     | SubClock _ _ _ => mk_event 0 0 EVENTTYPE_CLOCK 0
                     end) subs).

Lemma all_ready_contract subs evs : all_ready subs = Val evs -> contract subs evs.
Proof.
  intros [= <-]. exists subs. split; [done|]. induction subs as [|s subs IH]; constructor; [|done].
  by destruct s.
Qed.

Lemma poll_correct_witness :
  poll all_ready [mk_pollfd 5 3 0; mk_pollfd (-1) 0 7; mk_pollfd 6 1 0] 10 =
    Ok (mk_poll 2 None [mk_pollfd 5 3 3; mk_pollfd (-1) 0 0; mk_pollfd 6 1 1]
          (Some [SubRead 0 5; SubWrite 0 5; SubRead 2 6; SubClock 0 10000000 0])).
Proof.
  apply (poll_correct all_ready [mk_pollfd 5 3 0; mk_pollfd (-1) 0 7; mk_pollfd 6 1 0] 10);
    [exact all_ready_contract|by vm_compute|by vm_compute].
Defined.

(** *** pselect *)

Definition sel_subs (mk : Z -> Z -> subscription) (set : list Z) (nfds : Z) : list subscription :=
  map (fun f => mk (u64 f) (u32 f)) (filter (fun f => f < nfds) set).

Lemma sel_subs_len mk set nfds : zlen (sel_subs mk set nfds) <= zlen set.
Proof. unfold sel_subs, zlen. rewrite length_map. pose proof (length_filter (fun f => f < nfds) set). lia. Qed.

Lemma pselect_subs_spec set nfds mk : forall m subs, zlen subs + zlen set <= m ->
  pselect_subs set nfds m mk subs = Ok (subs ++ sel_subs mk set nfds).
Proof.
  induction set as [|f set IH]; intros m subs Hm; cbn [pselect_subs]; [by rewrite app_nil_r|].
  rewrite zlen_cons in Hm. pose proof (zlen_nonneg set). unfold sel_subs. rewrite filter_cons.
  destruct (Z.ltb_spec f nfds).
  - unfold push. rewrite (proj2 (Z.ltb_lt _ _)) by lia. cbn [obind].
    rewrite IH by (rewrite zlen_app; change (zlen [_]) with 1; lia).
    rewrite decide_True by done. cbn [map]. by rewrite <- app_assoc.
  - cbn [obind]. rewrite IH by lia. by rewrite decide_False by lia.
Qed.

Definition fds_of (ty : Z) (evs : list event) : list Z :=
  map (fun e => s32 (userdata e)) (filter (fun e => type e = ty) evs).

Lemma fds_of_cons ty e evs : fds_of ty (e :: evs) =
  if type e =? ty then s32 (userdata e) :: fds_of ty evs else fds_of ty evs.
Proof. unfold fds_of. rewrite filter_cons. case_decide; case_cmp; done. Qed.

Lemma pselect_sets_spec evs : forall rd wr,
  zlen rd + zlen (fds_of EVENTTYPE_FD_READ evs) <= FD_SETSIZE ->
  zlen wr + zlen (fds_of EVENTTYPE_FD_WRITE evs) <= FD_SETSIZE ->
  pselect_sets evs rd wr = Ok (rd ++ fds_of EVENTTYPE_FD_READ evs, wr ++ fds_of EVENTTYPE_FD_WRITE evs).
Proof.
  induction evs as [|e evs IH]; intros rd wr Hr Hw; cbn [pselect_sets].
  { unfold fds_of. cbn. by rewrite !app_nil_r. }
  rewrite !fds_of_cons in *.
  pose proof (zlen_nonneg (fds_of EVENTTYPE_FD_READ evs)). pose proof (zlen_nonneg (fds_of EVENTTYPE_FD_WRITE evs)).
  unfold fd_add. destruct (Z.eqb_spec (type e) EVENTTYPE_FD_READ) as [E1|].
  - rewrite E1 in *. cbn [Z.eqb EVENTTYPE_FD_READ EVENTTYPE_FD_WRITE Pos.eqb] in *. rewrite zlen_cons in Hr.
    rewrite (proj2 (Z.ltb_lt _ _)) by lia. cbn [obind].
    rewrite IH by (rewrite ?zlen_app; change (zlen [_]) with 1; lia). by rewrite <- app_assoc.
  - destruct (Z.eqb_spec (type e) EVENTTYPE_FD_WRITE); [|by apply IH].
    rewrite zlen_cons in Hw. rewrite (proj2 (Z.ltb_lt _ _)) by lia. cbn [obind].
    rewrite IH by (rewrite ?zlen_app; change (zlen [_]) with 1; lia). by rewrite <- app_assoc.
Qed.

Lemma omap_submseteq {A B} (f : A -> option B) l k : l ⊆+ k -> omap f l ⊆+ omap f k.
Proof.
  induction 1 as [|x l k _ IH|x y l|x l k _ IH|l k m _ IH1 _ IH2]; cbn; try done.
  - destruct (f x); [by apply submseteq_skip|done].
  - destruct (f x), (f y); try done. apply submseteq_swap.
  - destruct (f x); [by apply submseteq_cons|done].
  - by etrans.
Qed.

Lemma s32_u64 f : in_s 32 f -> s32 (u64 f) = f.
Proof.
  intros Hf. rewrite <- (s32_id f Hf) at 2. unfold s32, swrap, u64. cbv zeta.
  assert ((f mod 2 ^ 64) mod 2 ^ 32 = f mod 2 ^ 32) as ->; [|done].
  symmetry. apply Znumtheory.Zmod_div_mod; [lia..|]. by exists (2 ^ 32).
Qed.

Definition sub_fd (ty : Z) (s : subscription) : option Z :=
  match s with
  | SubRead u _ => if ty =? EVENTTYPE_FD_READ then Some (s32 u) else None
  | SubWrite u _ => if ty =? EVENTTYPE_FD_WRITE then Some (s32 u) else None
  | SubClock _ _ _ => None
  end.

Lemma fds_of_answered ty evs l : ty <> EVENTTYPE_CLOCK -> Forall2 answers evs l ->
  fds_of ty evs = omap (sub_fd ty) l.
Proof.
  intros Hty. induction 1 as [|e s evs l Ha _ IH]; [done|]. rewrite fds_of_cons, IH.
  destruct s as [u f|u f|id t fl]; cbn in Ha |- *.
  - destruct Ha as [-> ->]. rewrite (Z.eqb_sym EVENTTYPE_FD_READ). by destruct (ty =? EVENTTYPE_FD_READ).
  - destruct Ha as [-> ->]. rewrite (Z.eqb_sym EVENTTYPE_FD_WRITE). by destruct (ty =? EVENTTYPE_FD_WRITE).
  - rewrite Ha. by rewrite (proj2 (Z.eqb_neq EVENTTYPE_CLOCK ty)) by done.
Qed.

Lemma sel_subs_fds ty mk set nfds : Forall (in_s 32) set ->
  (forall u f, sub_fd ty (mk u f) = Some (s32 u)) -> omap (sub_fd ty) (sel_subs mk set nfds) = filter (fun f => f < nfds) set.
Proof.
  intros Hs Hmk. induction Hs as [|f set Hf _ IH]; [done|]. unfold sel_subs in *. rewrite filter_cons.
  case_decide; [|done]. cbn. rewrite Hmk, s32_u64 by done. f_equal. exact IH.
Qed.

Lemma sel_subs_none ty mk set nfds : (forall u f, sub_fd ty (mk u f) = None) ->
  omap (sub_fd ty) (sel_subs mk set nfds) = [].
Proof.
  intros Hmk. unfold sel_subs. induction (filter _ set) as [|f l IH]; [done|]. cbn. by rewrite Hmk.
Qed.

Lemma clock_none ty clk : Forall (fun s => match s with SubClock _ _ _ => True | _ => False end) clk ->
  omap (sub_fd ty) clk = [].
Proof. induction 1 as [|s clk Hs _ IH]; [done|]. by destruct s. Qed.

(** The descriptors reported ready are among those asked for. *)
Lemma fds_of_asked rd wr nfds clk evs :
  Forall (in_s 32) rd -> Forall (in_s 32) wr ->
  Forall (fun s => match s with SubClock _ _ _ => True | _ => False end) clk ->
  contract (sel_subs SubRead rd nfds ++ sel_subs SubWrite wr nfds ++ clk) evs ->
  fds_of EVENTTYPE_FD_READ evs ⊆+ filter (fun f => f < nfds) rd /\
  fds_of EVENTTYPE_FD_WRITE evs ⊆+ filter (fun f => f < nfds) wr.
Proof.
  intros Hr Hw Hc (l & Hl & Ha). rewrite !(fds_of_answered _ evs l) by done.
  split; (etrans; [exact (omap_submseteq _ _ _ Hl)|]); rewrite !omap_app, (clock_none _ clk Hc), app_nil_r.
  - rewrite (sel_subs_fds _ SubRead), (sel_subs_none _ SubWrite), app_nil_r; done.
  - rewrite (sel_subs_none _ SubRead), (sel_subs_fds _ SubWrite); done.
Qed.

(** [pselect] asks the host for exactly the descriptors below [nfds] of the
    two sets and the timeout, and replaces the sets by those of them that the
    host reports, returning how many they are; the sets never grow past what the
    caller passed, so that no element is written outside of them.  It fails,
    leaving the sets alone, for a negative [nfds], a set of exceptional
    conditions, an invalid timeout, or when a descriptor is bad. *)
Theorem pselect_correct poll_oneoff nfds rd wr errorfds timeout :
  (forall subs evs, poll_oneoff subs = Val evs -> contract subs evs) ->
  Forall (in_s 32) (default [] rd) -> Forall (in_s 32) (default [] wr) ->
  zlen (default [] rd) <= FD_SETSIZE -> zlen (default [] wr) <= FD_SETSIZE ->
  let r := default [] rd in
  let w := default [] wr in
  let fails e c := Ok (mk_select (-1) (Some e) r w c) in
  let invalid := match timeout with Some t => (tv_nsec t <? 0) || (NSEC_PER_SEC <=? tv_nsec t) | None => false end in
  let clk := match timeout with
             | Some t => [SubClock CLOCKID_REALTIME
                            (if tv_sec t <? 0 then 0 else Z.min (total_ns t) (2 ^ 64 - 1)) 0]
             | None => [] end in
  let subs := sel_subs SubRead r nfds ++ sel_subs SubWrite w nfds ++ clk in
  pselect poll_oneoff nfds rd wr errorfds timeout =
    (if nfds <? 0 then fails EINVAL None
     else if 0 <? zlen (default [] errorfds) then fails ENOSYS None
     else if invalid then fails EINVAL None
     else match poll_oneoff subs with
          | Err e => fails (match subs with [] => ENOTSUP | _ => e end) (Some subs)
          | Val evs =>
              if existsb (fun e => is_fd_event e && (error e =? EBADF)) evs then fails EBADF (Some subs)
              else
                let r' := fds_of EVENTTYPE_FD_READ evs in
                let w' := fds_of EVENTTYPE_FD_WRITE evs in
                Ok (mk_select (zlen r' + zlen w') None r' w' (Some subs))
          end) /\
  forall evs, poll_oneoff subs = Val evs ->
    fds_of EVENTTYPE_FD_READ evs ⊆+ filter (fun f => f < nfds) r /\
    fds_of EVENTTYPE_FD_WRITE evs ⊆+ filter (fun f => f < nfds) w.
Proof.
  intros Hhost Hr Hw Lr Lw r w fails invalid clk subs. fold r in Hr, Lr. fold w in Hw, Lw.
  assert (Forall (fun s => match s with SubClock _ _ _ => True | _ => False end) clk) as Hclk
    by (subst clk; destruct timeout; by repeat constructor).
  assert (forall evs, poll_oneoff subs = Val evs ->
    fds_of EVENTTYPE_FD_READ evs ⊆+ filter (fun f => f < nfds) r /\
    fds_of EVENTTYPE_FD_WRITE evs ⊆+ filter (fun f => f < nfds) w) as Hasked
    by (intros evs He; apply fds_of_asked with clk; auto; by apply Hhost).
  split; [|exact Hasked]. unfold pselect. fold r w.
  replace (match errorfds with Some s => 0 <? zlen s | None => false end)
    with (0 <? zlen (default [] errorfds)) by (by destruct errorfds).
  destruct (nfds <? 0); [done|]. destruct (0 <? zlen (default [] errorfds)); [done|].
  pose proof (zlen_nonneg r). pose proof (zlen_nonneg w). unfold FD_SETSIZE in Lr, Lw.
  pose proof (sel_subs_len SubRead r nfds). pose proof (sel_subs_len SubWrite w nfds).
  rewrite u32_id by (bounds; lia).
  rewrite pselect_subs_spec by (change (zlen (@nil subscription)) with 0; lia). cbn [obind app].
  rewrite pselect_subs_spec by lia. cbn [obind].
  set (s0 := sel_subs SubRead r nfds ++ sel_subs SubWrite w nfds).
  assert (zlen s0 <= zlen r + zlen w) as Hs0 by (subst s0; rewrite zlen_app; lia).
  assert (subs = s0 ++ clk) as Hsubs by (subst subs s0; by rewrite app_assoc).
  assert (match timeout with
    | None => Ok (Val s0)
    | Some t => let '(ok, ts) := timespec_to_timestamp_clamp t 0 in
        let! subs := push s0 (zlen r + zlen w + 1) (SubClock CLOCKID_REALTIME ts 0) in
        if ok then Ok (Val subs) else Ok (Err EINVAL)
    end = Ok (if invalid then Err EINVAL else Val subs)) as ->.
  { rewrite Hsubs. subst clk invalid. destruct timeout as [t|]; [|by rewrite app_nil_r].
    unfold push. rewrite (proj2 (Z.ltb_lt (zlen s0) (zlen r + zlen w + 1))) by lia.
    destruct ((tv_nsec t <? 0) || (NSEC_PER_SEC <=? tv_nsec t)) eqn:Ev.
    - unfold timespec_to_timestamp_clamp. by rewrite Ev.
    - apply orb_false_iff in Ev as [E1 E2]. rewrite clamp_spec; [done|]. split; lia. }
  cbn [obind]. destruct invalid; [done|].
  destruct (poll_oneoff subs) as [evs|e] eqn:Eh.
  - destruct (existsb _ evs); [done|]. destruct (Hasked evs eq_refl) as [A1%submseteq_length A2%submseteq_length].
    pose proof (length_filter (fun f => f < nfds) r). pose proof (length_filter (fun f => f < nfds) w).
    rewrite pselect_sets_spec by (unfold FD_SETSIZE, zlen in *; cbn [length]; lia). done.
  - subst fails. cbv beta. do 3 f_equal. destruct subs as [|x l]; [done|]. rewrite zlen_cons.
    pose proof (zlen_nonneg l). by decide_cmp.
Qed.

Lemma pselect_correct_witness :
  pselect all_ready 10 (Some [3; 12; 4]) None (Some []) (Some (mk_timespec 1 5)) =
    Ok (mk_select 2 None [3; 4] [] (Some [SubRead 3 3; SubRead 4 4; SubClock 0 1000000005 0])).
Proof.
  apply (pselect_correct all_ready 10 (Some [3; 12; 4]) None (Some []) (Some (mk_timespec 1 5))).
  - exact all_ready_contract.
  - repeat (apply Forall_cons_2; [by vm_compute|]). constructor.
  - constructor.
  - by vm_compute.
  - by vm_compute.
Defined.

(** Time conversions are exact: a host timestamp becomes the broken-down
    seconds and nanoseconds that denote it and back, the exact conversion
    succeeds exactly for the representable times from the epoch on, and the
    clamping one, which every timeout goes through, gives the nearest
    representable time. *)
Theorem timestamp_conversions t ts0 x :
  - 2 ^ 63 <= tv_sec t < 2 ^ 63 -> in_u 64 x ->
  timespec_to_timestamp_exact (timestamp_to_timespec x) ts0 = (true, x) /\
  (forall y, timespec_to_timestamp_exact t ts0 = (true, y) <->
     valid_ns t /\ 0 <= tv_sec t /\ y = total_ns t /\ in_u 64 y) /\
  (valid_ns t -> timespec_to_timestamp_clamp t ts0 = (true, Z.max 0 (Z.min (total_ns t) (2 ^ 64 - 1)))).
Proof.
  intros Ht Hx. split_and!.
  - set (t' := timestamp_to_timespec x).
    assert (total_ns t' = x /\ valid_ns t' /\ 0 <= tv_sec t' < 2 ^ 63) as (E1 & E2 & E3).
    { unfold t', total_ns, valid_ns, timestamp_to_timespec, NSEC_PER_SEC. cbn.
      pose proof (Z.div_mod x 1000000000 ltac:(lia)). pose proof (Z.mod_pos_bound x 1000000000 ltac:(lia)).
      bounds. split_and!; lia. }
    destruct (exact_spec t' ts0) as [(_ & _ & _ & ->)|[Hn _]]; [lia|by rewrite E1|].
    exfalso. apply Hn. rewrite E1. split_and!; [done|lia|bounds; lia].
  - intros y. destruct (exact_spec t ts0 Ht) as [(H1 & H2 & H3 & ->)|[Hn Hf]].
    + unfold total_ns, valid_ns, NSEC_PER_SEC in *. split; [intros [= <-]|intros (_ & _ & -> & _); done].
      bounds. split_and!; lia.
    + split.
      * intros E. rewrite E in Hf. done.
      * intros (H1 & H2 & -> & H3). exfalso. apply Hn. bounds. split_and!; lia || done.
  - intros Hv. rewrite clamp_spec by done. f_equal. unfold total_ns, valid_ns, NSEC_PER_SEC in *.
    destruct (Z.ltb_spec (tv_sec t) 0); lia.
Qed.

Lemma timestamp_conversions_witness :
  timespec_to_timestamp_exact (timestamp_to_timespec 1234567890123) 7 = (true, 1234567890123).
Proof.
  apply (timestamp_conversions (mk_timespec 0 0) 7 1234567890123); by vm_compute.
Defined.

End Events.
