(* ===== verification/Dirent.v ===== *)
(** Directory streams of wasi-libc's bottom half
    (libc-bottom-half/cloudlibc/src/libc/dirent/): [fdopendir], [readdir],
    [scandirat] and the functions around them, on the host's [fd_readdir].

    [fd_readdir fd len cookie] is the host: the bytes it stores in a buffer of
    [len] bytes, or an error; [alloc_ok n] says whether an allocation of [n]
    bytes succeeds. *)

From S2P Require Import Prelude.

Module Dirent.

Definition sizeof_dirent : Z := 24.
Definition offsetof_d_name : Z := 9.
Definition DIRENT_DEFAULT_BUFFER_SIZE : Z := 4096.
Definition DIRCOOKIE_START : Z := 0.
(** [O_RDONLY | O_NONBLOCK | O_DIRECTORY] *)
Definition OPENDIR_FLAGS : Z := 67117060.

(** [__wasi_dirent_t], and the [struct dirent] handed to the caller. *)
Record header := mk_header { d_next : Z; h_ino : Z; d_namlen : Z; h_type : Z }.
Record dirent := mk_dirent { d_ino : Z; d_type : Z; d_name : list Z }.

(** [buffer]: the bytes the host stored last; [dirp->dirent] is only known by
    its size. *)
Record DIR := mk_DIR {
  dir_fd : Z; cookie : Z;
  buffer : list Z; buffer_processed : Z; buffer_size : Z; buffer_used : Z;
  dirent_size : Z }.

Definition set_processed (n : Z) (d : DIR) : DIR :=
  mk_DIR (dir_fd d) (cookie d) (buffer d) n (buffer_size d) (buffer_used d) (dirent_size d).
Definition set_size (n : Z) (d : DIR) : DIR :=
  mk_DIR (dir_fd d) (cookie d) (buffer d) (buffer_processed d) n (buffer_used d) (dirent_size d).

(** A little-endian number. *)
Fixpoint le (bs : list Z) : Z := match bs with [] => 0 | b :: bs => b + 256 * le bs end.

(** [memcpy(&entry, p, sizeof(entry))]: undefined outside of the stored bytes. *)
Definition read_header (p : list Z) : outcome header :=
  if zlen p <? sizeof_dirent then UB
  else Ok (mk_header (le (take 8 p)) (le (take 8 (drop 8 p))) (le (take 4 (drop 16 p)))
             (nth 20 p 0)).

Section Host.
Variable fd_readdir : Z -> Z -> Z -> res (list Z).
Variable alloc_ok : Z -> bool.

(** [while (new_size < target_size) new_size *= 2;] *)
Fixpoint double (fuel : nat) (size target : Z) : outcome Z :=
  match fuel with
  | O => NoFuel
  | S f => if size <? target then double f (u32 (size * 2)) target else Ok size
  end.

(** [GROW]: the new size, or [None] for the early return. *)
Definition GROW (size target : Z) : outcome (option Z) :=
  if size <? target then
    let! new_size := double 33 size target in
    Ok (if alloc_ok new_size then Some new_size else None)
  else Ok (Some size).

(** The result ([None] for [NULL]), the errno it sets, and the stream. *)
Definition read_result : Type := option dirent * option Z * DIR.

(** [read_entries:] *)
Definition read_entries (d : DIR) : res DIR :=
  let size := buffer_size d in
  match fd_readdir (dir_fd d) size (cookie d) with
  | Err e => Err e
  | Val bs => Val (mk_DIR (dir_fd d) (cookie d) bs 0 size (zlen bs) (dirent_size d))
  end.

Fixpoint readdir (fuel : nat) (d : DIR) : outcome read_result :=
  match fuel with
  | O => NoFuel
  | S f =>
      let reload (d : DIR) :=
        match read_entries d with
        | Err e =>
            Ok (None, Some e, mk_DIR (dir_fd d) (cookie d) (buffer d) (buffer_size d) (buffer_size d)
                                (buffer_size d) (dirent_size d))
        | Val d' => readdir f d'
        end in
      let buffer_left := u32 (buffer_used d - buffer_processed d) in
      if buffer_left <? sizeof_dirent then
        if buffer_used d <? buffer_size d then Ok (None, None, d) else reload d
      else
      let p := drop (Z.to_nat (buffer_processed d)) (buffer d) in
      let! entry := read_header p in
      let entry_size := u32 (sizeof_dirent + d_namlen entry) in
      let skip := set_processed (u32 (buffer_processed d + entry_size)) d in
      if d_namlen entry =? 0 then readdir f skip
      else if buffer_left <? entry_size then
        let! g := GROW (buffer_size d) entry_size in
        match g with
        | None => Ok (None, None, d)
        | Some size => reload (set_size size d)
        end
      else
      let name := take (Z.to_nat (d_namlen entry)) (drop (Z.to_nat sizeof_dirent) p) in
      if zlen name <? d_namlen entry then UB
      else if existsb (fun b => b =? 0) name then readdir f skip
      else
        let! g := GROW (dirent_size d) (u32 (offsetof_d_name + d_namlen entry + 1)) in
        match g with
        | None => Ok (None, None, d)
        | Some size =>
            Ok (Some (mk_dirent (h_ino entry) (h_type entry) name), None,
                mk_DIR (dir_fd d) (d_next entry) (buffer d) (u32 (buffer_processed d + entry_size))
                  (buffer_size d) (buffer_used d) size)
        end
  end.

(** [sizeof(DIR)] is 40 on wasm32.  The stream, or the errno set if any. *)
Definition fdopendir (fd : Z) : DIR + option Z :=
  if negb (alloc_ok 40) then inr None
  else if negb (alloc_ok DIRENT_DEFAULT_BUFFER_SIZE) then inr None
  else match fd_readdir fd DIRENT_DEFAULT_BUFFER_SIZE DIRCOOKIE_START with
       | Err e => inr (Some e)
       | Val bs => inl (mk_DIR fd DIRCOOKIE_START bs 0 DIRENT_DEFAULT_BUFFER_SIZE (zlen bs) 1)
       end.

Definition rewinddir (d : DIR) : DIR :=
  mk_DIR (dir_fd d) DIRCOOKIE_START (buffer d) (buffer_size d) (buffer_size d) (buffer_size d)
    (dirent_size d).

(** [long] has 32 bits. *)
Definition seekdir (d : DIR) (loc : Z) : DIR :=
  mk_DIR (dir_fd d) (u32 loc) (buffer d) (buffer_size d) (buffer_size d) (buffer_size d) (dirent_size d).
Definition telldir (d : DIR) : Z := s32 (cookie d).
Definition dirfd (d : DIR) : Z := dir_fd d.
Definition fdclosedir (d : DIR) : Z := dir_fd d.

(** [close] and [__wasilibc_nocwd_openat_nomode] give a result and the errno. *)
Variable close : Z -> Z.
Variable openat_nomode : Z -> list Z -> Z -> res Z.

Definition closedir (d : DIR) : Z := close (fdclosedir d).

(** The stream, or the errno set if any and the descriptors closed. *)
Definition opendirat (dir : Z) (dirname : list Z) : DIR + (option Z * list Z) :=
  match openat_nomode dir dirname OPENDIR_FLAGS with
  | Err e => inr (Some e, [])
  | Val fd => match fdopendir fd with
              | inl d => inl d
              | inr e => inr (e, [fd])
              end
  end.

(** *** scandirat *)

Variable sel : dirent -> bool.
(** The array sorted by [qsort] with the caller's comparison. *)
Variable sorted : list dirent -> list dirent.

(** [if (dirents_used == dirents_size)]: the new size of the array of 4-byte
    pointers, or [None]. *)
Definition dirents_room (used size : Z) : option Z :=
  if used =? size then
    let size := if size <? 8 then 8 else u32 (size * 2) in
    if alloc_ok (u32 (size * 4)) then Some size else None
  else Some size.

(** [Err] is [goto bad] with the errno set if any. *)
Fixpoint scandir_loop (fuel : nat) (d : DIR) (dirents : list dirent) (dirents_size : Z)
  : outcome (list dirent + option Z) :=
  match fuel with
  | O => NoFuel
  | S f =>
      let reload (d : DIR) :=
        match read_entries d with
        | Err e => Ok (inr (Some e))
        | Val d' => scandir_loop f d' dirents dirents_size
        end in
      let buffer_left := u32 (buffer_used d - buffer_processed d) in
      if buffer_left <? sizeof_dirent then
        if buffer_used d <? buffer_size d then Ok (inl dirents) else reload d
      else
      let p := drop (Z.to_nat (buffer_processed d)) (buffer d) in
      let! entry := read_header p in
      let entry_size := u32 (sizeof_dirent + d_namlen entry) in
      let skip := set_processed (u32 (buffer_processed d + entry_size)) d in
      if d_namlen entry =? 0 then scandir_loop f skip dirents dirents_size
      else if buffer_left <? entry_size then
        let! size := double 33 (buffer_size d) entry_size in
        if alloc_ok size then reload (set_size size d) else Ok (inr None)
      else
      let name := take (Z.to_nat (d_namlen entry)) (drop (Z.to_nat sizeof_dirent) p) in
      if zlen name <? d_namlen entry then UB
      else if existsb (fun b => b =? 0) name then scandir_loop f skip dirents dirents_size
      else if negb (alloc_ok (u32 (offsetof_d_name + d_namlen entry + 1))) then Ok (inr None)
      else
        let de := mk_dirent (h_ino entry) (h_type entry) name in
        let d' := mk_DIR (dir_fd d) (d_next entry) (buffer d) (u32 (buffer_processed d + entry_size))
                    (buffer_size d) (buffer_used d) (dirent_size d) in
        if sel de then
          match dirents_room (zlen dirents) dirents_size with
          | None => Ok (inr None)
          | Some size =>
              if 4 * (zlen dirents + 1) <=? u32 (size * 4) then scandir_loop f d' (dirents ++ [de]) size
              else UB
          end
        else scandir_loop f d' dirents dirents_size
  end.

(** The result, the array stored in [*namelist], and errno. *)
Definition scandirat (fuel : nat) (dirfd : Z) (dir : list Z)
  : outcome (Z * list dirent * option Z) :=
  match openat_nomode dirfd dir OPENDIR_FLAGS with
  | Err e => Ok (-1, [], Some e)
  | Val fd =>
      let size := DIRENT_DEFAULT_BUFFER_SIZE in
      if negb (alloc_ok size) then Ok (-1, [], None) else
      let! r := scandir_loop fuel (mk_DIR fd DIRCOOKIE_START [] size size size 1) [] 0 in
      match r with
      | inr e => Ok (-1, [], e)
      | inl l => Ok (zlen l, sorted l, None)
      end
  end.

End Host.

(** ** The host's directories *)

Record entry := mk_entry { e_next : Z; e_ino : Z; e_type : Z; e_name : list Z }.

Fixpoint le_bytes (n : nat) (x : Z) : list Z :=
  match n with O => [] | S n => x mod 256 :: le_bytes n (x / 256) end.

Definition header_bytes (e : entry) : list Z :=
  le_bytes 8 (e_next e) ++ le_bytes 8 (e_ino e) ++ le_bytes 4 (zlen (e_name e)) ++ [e_type e; 0; 0; 0].
Definition entry_bytes (e : entry) : list Z := header_bytes e ++ e_name e.
Definition stream (es : list entry) : list Z := concat (map entry_bytes es).

Definition entry_ok (e : entry) : Prop :=
  in_u 64 (e_next e) /\ in_u 64 (e_ino e) /\ in_u 8 (e_type e) /\ 1 <= zlen (e_name e) < 2 ^ 30 /\
  Forall (fun b => b <> 0) (e_name e).
Definition dirent_of (e : entry) : dirent := mk_dirent (e_ino e) (e_type e) (e_name e).

(** Documented of [fd_readdir]: a cookie designates a position of the directory,
    0 the first one and [d_next] the one after an entry; the entries from there
    on are stored one after the other and cut off at the end of the buffer. *)
Definition serves (fd_readdir : Z -> Z -> Z -> res (list Z)) (fd : Z) (es : list entry)
    (cookie_at : nat -> Z) : Prop :=
  cookie_at O = DIRCOOKIE_START /\
  (forall k e, es !! k = Some e -> e_next e = cookie_at (S k)) /\
  forall k len, (k <= length es)%nat -> 0 <= len ->
    fd_readdir fd len (cookie_at k) = Val (take (Z.to_nat len) (stream (drop k es))).

(** ** Proofs *)

Lemma le_le_bytes n : forall x, 0 <= x < 256 ^ Z.of_nat n -> le (le_bytes n x) = x.
Proof.
  induction n as [|n IH]; intros x Hx; cbn [le_bytes le]; [change (256 ^ Z.of_nat 0) with 1 in Hx; lia|].
  rewrite Nat2Z.inj_succ, Z.pow_succ_r in Hx by lia. rewrite IH.
  - pose proof (Z.div_mod x 256 ltac:(lia)). lia.
  - split; [apply Z.div_pos; lia|]. apply Z.div_lt_upper_bound; lia.
Qed.

Lemma length_le_bytes n : forall x, length (le_bytes n x) = n.
Proof. induction n as [|n IH]; intros x; cbn; [done|]. by rewrite IH. Qed.

Lemma header_len e : length (header_bytes e) = 24%nat.
Proof. unfold header_bytes. rewrite !length_app, !length_le_bytes. done. Qed.

Lemma entry_len e : zlen (entry_bytes e) = 24 + zlen (e_name e).
Proof. unfold entry_bytes. rewrite zlen_app. unfold zlen at 1. by rewrite header_len. Qed.

Lemma read_header_fields e rest : in_u 64 (e_next e) -> in_u 64 (e_ino e) -> zlen (e_name e) < 2 ^ 32 ->
  read_header (header_bytes e ++ rest) =
    Ok (mk_header (e_next e) (e_ino e) (zlen (e_name e)) (e_type e)).
Proof.
  intros Hn Hi Hl. pose proof (zlen_nonneg (e_name e)). unfold read_header, sizeof_dirent.
  rewrite zlen_app. unfold zlen at 1. rewrite header_len. pose proof (zlen_nonneg rest).
  rewrite (proj2 (Z.ltb_ge _ _)) by lia. unfold header_bytes.
  pose proof (length_le_bytes 8 (e_next e)) as L1. pose proof (length_le_bytes 8 (e_ino e)) as L2.
  pose proof (length_le_bytes 4 (zlen (e_name e))) as L3.
  rewrite <- !app_assoc. f_equal. f_equal.
  - rewrite take_app_le, take_ge by lia. apply le_le_bytes. exact Hn.
  - rewrite drop_app_ge, L1, drop_0 by lia. rewrite take_app_le, take_ge by lia. apply le_le_bytes. exact Hi.
  - rewrite !drop_app_ge, L1, L2 by (rewrite ?L1; lia). change (16 - 8 - 8)%nat with 0%nat. rewrite drop_0.
    rewrite take_app_le, take_ge by lia. apply le_le_bytes. change (256 ^ Z.of_nat 4) with (2 ^ 32).
    bounds. lia.
Qed.

Lemma read_header_ok e rest : entry_ok e ->
  read_header (header_bytes e ++ rest) =
    Ok (mk_header (e_next e) (e_ino e) (zlen (e_name e)) (e_type e)).
Proof. intros (Hn & Hi & _ & Hl & _). apply read_header_fields; [done|done|lia]. Qed.

Lemma stream_cons e es : stream (e :: es) = header_bytes e ++ e_name e ++ stream es.
Proof. unfold stream. cbn [map concat]. unfold entry_bytes at 1. by rewrite <- app_assoc. Qed.

Lemma double_spec n : forall size target, 1 <= size < 2 ^ 32 -> target <= 2 ^ 31 ->
  target <= size * 2 ^ Z.of_nat n -> exists r, double (S n) size target = Ok r /\ target <= r < 2 ^ 32 /\ size <= r.
Proof.
  induction n as [|n IH]; intros size target Hs Ht Hb; cbn [double].
  - change (2 ^ Z.of_nat 0) with 1 in Hb. rewrite (proj2 (Z.ltb_ge _ _)) by lia. exists size. split; [done|lia].
  - destruct (Z.ltb_spec size target); [|exists size; split; [done|lia]].
    rewrite u32_id by (bounds; lia). rewrite Nat2Z.inj_succ, Z.pow_succ_r in Hb by lia.
    destruct (IH (size * 2) target) as (r & Hr & ?); [lia..|].
    exists r. split; [exact Hr|lia].
Qed.

Lemma GROW_spec alloc_ok size target : (forall n, n < 2 ^ 32 -> alloc_ok n = true) ->
  1 <= size < 2 ^ 32 -> target <= 2 ^ 31 ->
  exists r, GROW alloc_ok size target = Ok (Some r) /\ target <= r < 2 ^ 32 /\ size <= r.
Proof.
  intros Ha Hs Ht. unfold GROW. destruct (Z.ltb_spec size target); [|exists size; split; [done|lia]].
  destruct (double_spec 32 size target) as (r & -> & Hr & Hsr); [lia..| |].
  - change (2 ^ Z.of_nat 32) with (2 ^ 32). lia.
  - exists r. cbn [obind]. rewrite Ha by lia. split; [done|lia].
Qed.

Section Serving.
Variable fd_readdir : Z -> Z -> Z -> res (list Z).
Variable alloc_ok : Z -> bool.
Variable fd : Z.
Variable es : list entry.
Variable cookie_at : nat -> Z.
Hypothesis host : serves fd_readdir fd es cookie_at.
Hypothesis memory : forall n, n < 2 ^ 32 -> alloc_ok n = true.
Hypothesis entries : Forall entry_ok es.

Definition rest (d : DIR) : list Z := drop (Z.to_nat (buffer_processed d)) (buffer d).

(** The stream [d] will deliver the entries from position [k] on: the unread
    bytes of the buffer are those of these entries, all of them when the buffer
    is not full. *)
Definition dir_at (k : nat) (d : DIR) : Prop :=
  (k <= length es)%nat /\ dir_fd d = fd /\ cookie d = cookie_at k /\
  0 <= buffer_processed d <= buffer_used d /\ buffer_used d <= buffer_size d /\
  4096 <= buffer_size d < 2 ^ 32 /\ 1 <= dirent_size d < 2 ^ 32 /\
  zlen (rest d) = buffer_used d - buffer_processed d /\
  rest d = take (length (rest d)) (stream (drop k es)) /\
  (buffer_used d < buffer_size d -> rest d = stream (drop k es)).

Lemma left_ok k d : dir_at k d -> u32 (buffer_used d - buffer_processed d) = zlen (rest d).
Proof. intros (_ & _ & _ & ? & ? & ? & _ & -> & _). apply u32_id. bounds. lia. Qed.

Lemma drop_entry k e : es !! k = Some e -> drop k es = e :: drop (S k) es.
Proof. apply drop_S. Qed.

(** The part of it that a new read depends on. *)
Definition reloadable (k : nat) (d : DIR) : Prop :=
  (k <= length es)%nat /\ dir_fd d = fd /\ cookie d = cookie_at k /\
  4096 <= buffer_size d < 2 ^ 32 /\ 1 <= dirent_size d < 2 ^ 32.

Lemma dir_reloadable k d : dir_at k d -> reloadable k d.
Proof. unfold dir_at, reloadable. tauto. Qed.

(** Reading from the host again keeps the position and fills the buffer. *)
Lemma reload_ok k d : reloadable k d -> exists d', read_entries fd_readdir d = Val d' /\ dir_at k d' /\
  buffer_size d' = buffer_size d /\ rest d' = take (Z.to_nat (buffer_size d)) (stream (drop k es)).
Proof.
  intros (Hk & Hfd & Hc & Hs & Hd). destruct host as (_ & _ & Hhost).
  unfold read_entries. rewrite Hfd, Hc, Hhost by lia. eexists. split; [reflexivity|].
  set (bs := take _ _).
  assert (zlen bs <= buffer_size d) as Hbs by (unfold bs, zlen; rewrite length_take; lia).
  assert (length bs = Nat.min (Z.to_nat (buffer_size d)) (length (stream (drop k es)))) as Hlen
    by (unfold bs; apply length_take).
  pose proof (zlen_nonneg bs).
  unfold dir_at, rest. cbn. rewrite drop_0. split_and!; try done; try lia.
  - unfold bs at 1. rewrite Hlen. rewrite <- take_take. f_equal. symmetry. by apply take_ge.
  - intros Hlt. unfold bs. apply take_ge. unfold zlen in *. lia.
Qed.

(** The unread bytes, when they hold the next entry. *)
Lemma rest_split k e d : dir_at k d -> es !! k = Some e -> zlen (entry_bytes e) <= zlen (rest d) ->
  let tl := drop (Z.to_nat (24 + zlen (e_name e))) (rest d) in
  rest d = header_bytes e ++ e_name e ++ tl /\ tl = take (length tl) (stream (drop (S k) es)) /\
  (buffer_used d < buffer_size d -> tl = stream (drop (S k) es)).
Proof.
  intros Hat He Hlen.
  rewrite entry_len in Hlen. pose proof (zlen_nonneg (e_name e)).
  pose proof Hat as (Hk & Hfd & Hc & Hp & Hu & Hs & Hd & Hl & Hr & Hf).
  rewrite (drop_entry k e He), stream_cons in Hr, Hf.
  assert (rest d = header_bytes e ++ e_name e ++ drop (Z.to_nat (24 + zlen (e_name e))) (rest d)) as Hsplit.
  { rewrite Hr at 1. unfold zlen in *. rewrite take_app_ge, header_len by (rewrite header_len; lia). f_equal.
    rewrite take_app_ge by lia. f_equal. rewrite Hr at 2.
    rewrite take_app_ge, drop_app_ge, header_len by (rewrite header_len; lia).
    rewrite take_app_ge, drop_app_ge by lia.
    replace (Z.to_nat (24 + Z.of_nat (length (e_name e))) - 24 - length (e_name e))%nat with 0%nat by lia.
    by rewrite drop_0. }
  cbv zeta. set (tl := drop _ (rest d)) in *.
  assert (tl = take (length tl) (stream (drop (S k) es))) as Htl.
  { assert (length (rest d) = 24 + (length (e_name e) + length tl))%nat as Hlen'.
    { rewrite Hsplit at 1. rewrite !length_app, header_len. done. }
    rewrite Hlen', take_app_add', take_app_add' in Hr by (done || apply header_len).
    rewrite Hsplit in Hr at 1. apply app_inv_head, app_inv_head in Hr. exact Hr. }
  split_and!; [done|done|]. intros Hlt. specialize (Hf Hlt). rewrite Hsplit in Hf at 1.
  by apply app_inv_head, app_inv_head in Hf.
Qed.

Lemma rest_header k e d : dir_at k d -> es !! k = Some e -> 24 <= zlen (rest d) ->
  read_header (rest d) = Ok (mk_header (e_next e) (e_ino e) (zlen (e_name e)) (e_type e)).
Proof.
  intros (_ & _ & _ & _ & _ & _ & _ & _ & Hr & _) He Hge.
  rewrite Hr, (drop_entry k e He), stream_cons, take_app_ge, header_len
    by (rewrite header_len; unfold zlen in *; lia).
  apply read_header_ok. by eapply Forall_lookup_1.
Qed.

Lemma rest_name k e d : dir_at k d -> es !! k = Some e -> zlen (entry_bytes e) <= zlen (rest d) ->
  take (Z.to_nat (zlen (e_name e))) (drop (Z.to_nat 24) (rest d)) = e_name e.
Proof.
  intros Hat He Hlen. destruct (rest_split k e d Hat He Hlen) as (Hsplit & _).
  rewrite Hsplit, drop_app_ge, header_len by (rewrite header_len; lia).
  change (Z.to_nat 24 - 24)%nat with 0%nat. rewrite drop_0. unfold zlen. rewrite Nat2Z.id.
  apply take_app_length.
Qed.

Lemma no_nul name : Forall (fun b => b <> 0) name -> existsb (fun b => b =? 0) name = false.
Proof.
  induction 1 as [|b name Hb _ IH]; [done|]. cbn. by rewrite (proj2 (Z.eqb_neq b 0) Hb).
Qed.

(** After an entry is consumed. *)
Lemma dir_next k e d size : dir_at k d -> es !! k = Some e -> zlen (entry_bytes e) <= zlen (rest d) ->
  1 <= size < 2 ^ 32 ->
  dir_at (S k) (mk_DIR (dir_fd d) (e_next e) (buffer d) (u32 (buffer_processed d + (24 + zlen (e_name e))))
    (buffer_size d) (buffer_used d) size).
Proof.
  intros Hat He Hlen Hsize. destruct (rest_split k e d Hat He Hlen) as (Hsplit & Htl & Hall).
  pose proof Hat as (Hk & Hfd & Hc & Hp & Hu & Hs & Hd & Hl & _). rewrite entry_len in Hlen.
  pose proof (zlen_nonneg (e_name e)). rewrite u32_id by (bounds; lia).
  destruct host as (_ & Hnext & _).
  assert (rest (mk_DIR (dir_fd d) (e_next e) (buffer d) (buffer_processed d + (24 + zlen (e_name e)))
    (buffer_size d) (buffer_used d) size) = drop (Z.to_nat (24 + zlen (e_name e))) (rest d)) as Hrest.
  { unfold rest. cbn. rewrite drop_drop. f_equal. lia. }
  unfold dir_at. rewrite Hrest. cbn [dir_fd cookie buffer_processed buffer_size buffer_used dirent_size].
  apply lookup_lt_Some in He as Hlt. split_and!; try lia; try done.
  - by apply Hnext.
  - unfold zlen in *. rewrite length_drop. lia.
Qed.

Lemma serve_ready f k e d : dir_at k d -> es !! k = Some e -> zlen (entry_bytes e) <= zlen (rest d) ->
  exists d', readdir fd_readdir alloc_ok (S f) d = Ok (Some (dirent_of e), None, d') /\ dir_at (S k) d'.
Proof.
  intros Hat He Hlen. pose proof (left_ok k d Hat) as Hleft.
  assert (entry_ok e) as Hok by (by eapply Forall_lookup_1).
  pose proof Hok as (_ & _ & _ & Hname & Hnz).
  rewrite entry_len in Hlen. pose proof Hat as (_ & _ & _ & Hp & Hu & Hs & Hd & Hl & _).
  destruct (GROW_spec alloc_ok (dirent_size d) (9 + zlen (e_name e) + 1) memory Hd) as (size & Hg & Hsz & Hsz');
    [bounds; lia|].
  exists (mk_DIR (dir_fd d) (e_next e) (buffer d) (u32 (buffer_processed d + (24 + zlen (e_name e))))
    (buffer_size d) (buffer_used d) size).
  split; [|by apply dir_next; [..|rewrite entry_len|lia]].
  cbn [readdir]. rewrite Hleft. unfold sizeof_dirent. fold (rest d).
  rewrite (proj2 (Z.ltb_ge (zlen (rest d)) 24)) by lia.
  rewrite (rest_header k e d Hat He) by lia.
  cbn [obind d_namlen d_next h_ino h_type].
  rewrite (rest_name k e d Hat He) by (rewrite entry_len; lia).
  rewrite (u32_id (24 + zlen (e_name e))) by (bounds; lia).
  rewrite !u32_id by (unfold offsetof_d_name; bounds; lia).
  rewrite (proj2 (Z.eqb_neq (zlen (e_name e)) 0)), (proj2 (Z.ltb_ge (zlen (rest d)) _)), Z.ltb_irrefl by lia.
  rewrite no_nul by done. unfold offsetof_d_name. rewrite Hg. reflexivity.
Qed.

(** Where the buffer does not hold the next entry, one more read from the host
    brings it. *)
Lemma reload_ready f k e d : reloadable k d -> es !! k = Some e -> zlen (entry_bytes e) <= buffer_size d ->
  exists d0 d', read_entries fd_readdir d = Val d0 /\
    readdir fd_readdir alloc_ok (S f) d0 = Ok (Some (dirent_of e), None, d') /\ dir_at (S k) d'.
Proof.
  intros Hat He Hsz. destruct (reload_ok k d Hat) as (d0 & Hd0 & Hat0 & _ & Hr).
  destruct (serve_ready f k e d0 Hat0 He) as (d' & Hd' & Hat').
  - rewrite Hr, (drop_entry k e He), stream_cons. rewrite entry_len in Hsz |- *.
    unfold zlen in *. rewrite length_take, !length_app, header_len. lia.
  - by exists d0, d'.
Qed.

(** A buffer that is not full holds all the remaining entries. *)
Lemma short_full k e d : dir_at k d -> es !! k = Some e -> zlen (rest d) < zlen (entry_bytes e) ->
  buffer_used d = buffer_size d.
Proof.
  intros Hat He Hlt. pose proof Hat as (Hk & _ & _ & Hp & Hu & Hs & _ & Hl & Hr & Hf).
  destruct (Z.ltb_spec (buffer_used d) (buffer_size d)) as [Hb|]; [|lia]. exfalso.
  specialize (Hf Hb). rewrite (drop_entry k e He), stream_cons in Hf. rewrite Hf, entry_len in Hlt.
  rewrite !zlen_app in Hlt. unfold zlen at 1 in Hlt. rewrite header_len in Hlt.
  pose proof (zlen_nonneg (stream (drop (S k) es))). lia.
Qed.

(** With the header of the next entry in the buffer. *)
Lemma readdir_header k e d f : dir_at k d -> es !! k = Some e -> 24 <= zlen (rest d) ->
  exists d', readdir fd_readdir alloc_ok (S (S f)) d = Ok (Some (dirent_of e), None, d') /\ dir_at (S k) d'.
Proof.
  intros Hat He Hge. destruct (Z.leb_spec (zlen (entry_bytes e)) (zlen (rest d))) as [|Hlt]; [by eapply serve_ready|].
  assert (entry_ok e) as Hok by (by eapply Forall_lookup_1). pose proof Hok as (_ & _ & _ & Hname & _).
  pose proof (left_ok k d Hat) as Hleft. pose proof (short_full k e d Hat He Hlt) as Hfull.
  pose proof Hat as (Hk & Hfd & Hc & Hp & Hu & Hs & Hd & Hl & Hr & _). rewrite entry_len in Hlt.
  destruct (GROW_spec alloc_ok (buffer_size d) (24 + zlen (e_name e)) memory) as (size & Hg & Hsz & Hsz');
    [lia|bounds; lia|].
  destruct (reload_ready f k e (set_size size d)) as (d0 & d' & Hd0 & Hd' & Hat'); [|done|rewrite entry_len; cbn [buffer_size set_size]; lia|].
  { unfold reloadable. cbn. split_and!; done || lia. }
  exists d'. split; [|done]. rewrite <- Hd'. remember (S f) as g eqn:Eg.
  cbn [readdir]. rewrite Hleft. unfold sizeof_dirent. fold (rest d).
  rewrite (proj2 (Z.ltb_ge (zlen (rest d)) 24)) by lia.
  rewrite (rest_header k e d Hat He) by lia.
  cbn [obind d_namlen d_next h_ino h_type].
  rewrite (u32_id (24 + zlen (e_name e))) by (bounds; lia).
  rewrite (proj2 (Z.eqb_neq (zlen (e_name e)) 0)), (proj2 (Z.ltb_lt (zlen (rest d)) _)) by lia.
  rewrite Hg. cbn [obind]. by rewrite Hd0.
Qed.

Lemma readdir_next k e d f : dir_at k d -> es !! k = Some e ->
  exists d', readdir fd_readdir alloc_ok (S (S (S f))) d = Ok (Some (dirent_of e), None, d') /\ dir_at (S k) d'.
Proof.
  intros Hat He. destruct (Z.leb_spec 24 (zlen (rest d))) as [|Hlt]; [by apply readdir_header with (f := S f)|].
  assert (zlen (rest d) < zlen (entry_bytes e)) as Hshort
    by (rewrite entry_len; pose proof (zlen_nonneg (e_name e)); lia).
  pose proof (short_full k e d Hat He Hshort) as Hfull.
  destruct (reload_ok k d (dir_reloadable k d Hat)) as (d0 & Hd0 & Hat0 & _ & Hr0).
  pose proof Hat as (_ & _ & _ & _ & _ & Hs & _).
  destruct (readdir_header k e d0 f Hat0 He) as (d' & Hd' & Hat').
  { rewrite Hr0, (drop_entry k e He), stream_cons. unfold zlen.
    rewrite length_take, !length_app, header_len. lia. }
  exists d'. split; [|done]. rewrite <- Hd'. remember (S (S f)) as g eqn:Eg. cbn [readdir].
  rewrite (left_ok k d Hat). unfold sizeof_dirent. rewrite (proj2 (Z.ltb_lt _ _)) by lia.
  by rewrite Hfull, Z.ltb_irrefl, Hd0.
Qed.

Lemma readdir_end d f : dir_at (length es) d ->
  exists d', readdir fd_readdir alloc_ok (S (S f)) d = Ok (None, None, d') /\ dir_at (length es) d'.
Proof.
  intros Hat. assert (forall d f, dir_at (length es) d -> buffer_used d < buffer_size d ->
    readdir fd_readdir alloc_ok (S f) d = Ok (None, None, d)) as Hend.
  { clear d Hat f. intros d f Hat Hlt. pose proof Hat as (_ & _ & _ & _ & _ & _ & _ & _ & _ & Hf).
    specialize (Hf Hlt). rewrite drop_all in Hf. cbn [readdir]. rewrite (left_ok _ d Hat), Hf.
    change (zlen (stream []) <? sizeof_dirent) with true. by rewrite (proj2 (Z.ltb_lt _ _) Hlt). }
  destruct (Z.ltb_spec (buffer_used d) (buffer_size d)) as [|Hge]; [eauto|].
  destruct (reload_ok _ d (dir_reloadable _ d Hat)) as (d0 & Hd0 & Hat0 & Hs0 & Hr0).
  pose proof Hat as (_ & _ & _ & _ & _ & Hs & _ & Hl & Hr & _). rewrite drop_all in Hr, Hr0.
  change (stream []) with (@nil Z) in Hr, Hr0. rewrite take_nil in Hr, Hr0.
  exists d0. split; [|done]. rewrite <- (Hend d0 f Hat0).
  - remember (S f) as g eqn:Eg. cbn [readdir]. rewrite (left_ok _ d Hat), Hr.
    change (zlen (@nil Z) <? sizeof_dirent) with true. rewrite (proj2 (Z.ltb_ge _ _) Hge). by rewrite Hd0.
  - unfold read_entries in Hd0. destruct (fd_readdir _ _ _) as [bs|]; [|done]. injection Hd0 as <-.
    unfold rest in Hr0. cbn in Hr0 |- *. rewrite drop_0 in Hr0. subst bs. cbn. change (zlen (@nil Z)) with 0. lia.
Qed.

(** *** scandirat *)

Variable sel : dirent -> bool.

(** The array with [used] elements has room for [size], less than twice as many. *)
Definition room_ok (used size : Z) : Prop := used <= size /\ size <= Z.max 8 (2 * used).

Definition selected (e : entry) : list dirent := if sel (dirent_of e) then [dirent_of e] else [].

Lemma room_spec used size : 0 <= used < 2 ^ 28 -> 0 <= size -> room_ok used size ->
  exists size', dirents_room alloc_ok used size = Some size' /\ 0 <= size' /\ room_ok (used + 1) size' /\
    4 * (used + 1) <= u32 (size' * 4).
Proof.
  intros Hu Hs [H1 H2]. unfold dirents_room, room_ok. destruct (Z.eqb_spec used size) as [<-|].
  - assert (forall n, alloc_ok (u32 n) = true) as Ha by (intros n; apply memory, u32_range).
    rewrite Ha. destruct (Z.ltb_spec used 8).
    + eexists. split; [reflexivity|]. change (u32 (8 * 4)) with 32. lia.
    + rewrite (u32_id (used * 2)) by (bounds; lia). eexists. split; [reflexivity|].
      rewrite u32_id by (bounds; lia). lia.
  - eexists. split; [reflexivity|]. rewrite u32_id by (bounds; lia). lia.
Qed.

Lemma scan_ready f k e d acc size : dir_at k d -> es !! k = Some e -> zlen (entry_bytes e) <= zlen (rest d) ->
  zlen acc < 2 ^ 28 -> 0 <= size -> room_ok (zlen acc) size ->
  exists d' size', scandir_loop fd_readdir alloc_ok sel (S f) d acc size =
      scandir_loop fd_readdir alloc_ok sel f d' (acc ++ selected e) size' /\
    dir_at (S k) d' /\ 0 <= size' /\ room_ok (zlen (acc ++ selected e)) size'.
Proof.
  intros Hat He Hlen Hacc Hsz Hroom. pose proof (left_ok k d Hat) as Hleft.
  assert (entry_ok e) as Hok by (by eapply Forall_lookup_1).
  pose proof Hok as (_ & _ & _ & Hname & Hnz). pose proof (zlen_nonneg acc).
  rewrite entry_len in Hlen. pose proof Hat as (_ & _ & _ & Hp & Hu & Hs & Hd & Hl & _).
  destruct (room_spec (zlen acc) size) as (size' & Hroom' & Hsz' & Hok' & Hcap); [lia|done|done|].
  exists (mk_DIR (dir_fd d) (e_next e) (buffer d) (u32 (buffer_processed d + (24 + zlen (e_name e))))
    (buffer_size d) (buffer_used d) (dirent_size d)), (if sel (dirent_of e) then size' else size).
  split; [|split_and!; [by apply dir_next; [..|rewrite entry_len|lia]|by destruct (sel _)|]].
  2:{ unfold selected. destruct (sel (dirent_of e)); [by rewrite zlen_app|by rewrite app_nil_r]. }
  cbn [scandir_loop]. rewrite Hleft. unfold sizeof_dirent. fold (rest d).
  rewrite (proj2 (Z.ltb_ge (zlen (rest d)) 24)) by lia.
  rewrite (rest_header k e d Hat He) by lia.
  cbn [obind d_namlen d_next h_ino h_type].
  rewrite (rest_name k e d Hat He) by (rewrite entry_len; lia).
  rewrite (u32_id (24 + zlen (e_name e))) by (bounds; lia).
  rewrite (proj2 (Z.eqb_neq (zlen (e_name e)) 0)), (proj2 (Z.ltb_ge (zlen (rest d)) _)), Z.ltb_irrefl by lia.
  rewrite no_nul, memory by (done || apply u32_range). cbn [negb]. fold (dirent_of e). unfold selected.
  destruct (sel (dirent_of e)); [|by rewrite app_nil_r].
  by rewrite Hroom', (proj2 (Z.leb_le _ _) Hcap).
Qed.

Lemma scan_header k e d f acc size : dir_at k d -> es !! k = Some e -> 24 <= zlen (rest d) ->
  zlen acc < 2 ^ 28 -> 0 <= size -> room_ok (zlen acc) size ->
  exists d' size' g, (f <= g)%nat /\ scandir_loop fd_readdir alloc_ok sel (S (S f)) d acc size =
      scandir_loop fd_readdir alloc_ok sel g d' (acc ++ selected e) size' /\
    dir_at (S k) d' /\ 0 <= size' /\ room_ok (zlen (acc ++ selected e)) size'.
Proof.
  intros Hat He Hge Hacc Hsz Hroom.
  destruct (Z.leb_spec (zlen (entry_bytes e)) (zlen (rest d))) as [|Hlt].
  { edestruct (scan_ready (S f)) as (d' & size' & ? & ? & ? & ?); [done..|]. exists d', size', (S f).
    split_and!; done || lia. }
  assert (entry_ok e) as Hok by (by eapply Forall_lookup_1). pose proof Hok as (_ & _ & _ & Hname & _).
  pose proof (left_ok k d Hat) as Hleft. pose proof (short_full k e d Hat He Hlt) as Hfull.
  pose proof Hat as (Hk & Hfd & Hc & Hp & Hu & Hs & Hd & Hl & Hr & _). rewrite entry_len in Hlt.
  destruct (double_spec 32 (buffer_size d) (24 + zlen (e_name e))) as (bsize & Hg & Hbs & Hbs');
    [lia|bounds; lia|change (2 ^ Z.of_nat 32) with (2 ^ 32); bounds; lia|].
  destruct (reload_ok k (set_size bsize d)) as (d0 & Hd0 & Hat0 & _ & Hr0).
  { unfold reloadable. cbn. split_and!; done || lia. }
  destruct (scan_ready f k e d0 acc size) as (d' & size' & Hd' & ?); [done|done| |done..|].
  { rewrite Hr0, (drop_entry k e He), stream_cons, entry_len. cbn [buffer_size set_size]. unfold zlen in *.
    rewrite length_take, !length_app, header_len. lia. }
  exists d', size', f. split; [done|]. split; [|done]. rewrite <- Hd'. remember (S f) as g eqn:Eg.
  cbn [scandir_loop]. rewrite Hleft. unfold sizeof_dirent. fold (rest d).
  rewrite (proj2 (Z.ltb_ge (zlen (rest d)) 24)) by lia.
  rewrite (rest_header k e d Hat He) by lia.
  cbn [obind d_namlen d_next h_ino h_type].
  rewrite (u32_id (24 + zlen (e_name e))) by (bounds; lia).
  rewrite (proj2 (Z.eqb_neq (zlen (e_name e)) 0)), (proj2 (Z.ltb_lt (zlen (rest d)) _)) by lia.
  rewrite Hg. cbn [obind]. rewrite memory by lia. by rewrite Hd0.
Qed.

Lemma scan_next k e d f acc size : dir_at k d -> es !! k = Some e ->
  zlen acc < 2 ^ 28 -> 0 <= size -> room_ok (zlen acc) size ->
  exists d' size' g, (f <= g)%nat /\ scandir_loop fd_readdir alloc_ok sel (S (S (S f))) d acc size =
      scandir_loop fd_readdir alloc_ok sel g d' (acc ++ selected e) size' /\
    dir_at (S k) d' /\ 0 <= size' /\ room_ok (zlen (acc ++ selected e)) size'.
Proof.
  intros Hat He Hacc Hsz Hroom. destruct (Z.leb_spec 24 (zlen (rest d))) as [|Hlt].
  { edestruct (scan_header k e d (S f)) as (d' & size' & g & ? & ?); [done..|]. exists d', size', g.
    split; [lia|done]. }
  assert (zlen (rest d) < zlen (entry_bytes e)) as Hshort
    by (rewrite entry_len; pose proof (zlen_nonneg (e_name e)); lia).
  pose proof (short_full k e d Hat He Hshort) as Hfull.
  destruct (reload_ok k d (dir_reloadable k d Hat)) as (d0 & Hd0 & Hat0 & _ & Hr0).
  pose proof Hat as (_ & _ & _ & _ & _ & Hs & _).
  destruct (scan_header k e d0 f acc size Hat0 He) as (d' & size' & g & Hg & Hd' & ?); [|done..|].
  { rewrite Hr0, (drop_entry k e He), stream_cons. unfold zlen.
    rewrite length_take, !length_app, header_len. lia. }
  exists d', size', g. split; [done|]. split; [|done]. rewrite <- Hd'. remember (S (S f)) as g' eqn:Eg.
  cbn [scandir_loop]. rewrite (left_ok k d Hat). unfold sizeof_dirent. rewrite (proj2 (Z.ltb_lt _ _)) by lia.
  by rewrite Hfull, Z.ltb_irrefl, Hd0.
Qed.

Lemma scan_end d f acc size : dir_at (length es) d ->
  scandir_loop fd_readdir alloc_ok sel (S (S f)) d acc size = Ok (inl acc).
Proof.
  intros Hat. pose proof Hat as (_ & _ & _ & _ & _ & Hs & _ & Hl & Hr & _). rewrite drop_all in Hr.
  change (stream []) with (@nil Z) in Hr. rewrite take_nil in Hr.
  remember (S f) as g eqn:Eg. cbn [scandir_loop]. rewrite (left_ok _ d Hat), Hr.
  change (zlen (@nil Z) <? sizeof_dirent) with true.
  destruct (Z.ltb_spec (buffer_used d) (buffer_size d)); [done|].
  destruct (reload_ok _ d (dir_reloadable _ d Hat)) as (d0 & Hd0 & Hat0 & Hs0 & Hr0). rewrite Hd0. subst g.
  rewrite drop_all in Hr0. change (stream []) with (@nil Z) in Hr0. rewrite take_nil in Hr0.
  cbn [scandir_loop]. rewrite (left_ok _ d0 Hat0), Hr0. change (zlen (@nil Z) <? sizeof_dirent) with true.
  unfold read_entries in Hd0. destruct (fd_readdir _ _ _) as [bs|]; [|done]. injection Hd0 as <-.
  unfold rest in Hr0. cbn in Hr0 |- *. rewrite drop_0 in Hr0. subst bs. change (zlen (@nil Z)) with 0.
  by rewrite (proj2 (Z.ltb_lt _ _)) by lia.
Qed.

Lemma scan_all n : forall k d f acc size, (length es - k = n)%nat -> dir_at k d ->
  (3 * n + 2 <= f)%nat -> zlen acc + Z.of_nat n < 2 ^ 28 -> 0 <= size -> room_ok (zlen acc) size ->
  scandir_loop fd_readdir alloc_ok sel f d acc size = Ok (inl (acc ++ concat (map selected (drop k es)))).
Proof.
  induction n as [|n IH]; intros k d f acc size Hn Hat Hf Hacc Hsz Hroom.
  - assert (k = length es) as -> by (destruct Hat; lia). rewrite drop_all. cbn. rewrite app_nil_r.
    destruct f as [|[|f]]; [lia..|]. by apply scan_end.
  - destruct (lookup_lt_is_Some_2 es k) as [e He]; [lia|].
    destruct f as [|[|[|f]]]; [lia..|].
    destruct (scan_next k e d f acc size Hat He) as (d' & size' & g & Hg & -> & Hat' & Hsz' & Hroom'); [lia..|done|done|].
    rewrite (drop_entry k e He). cbn [map concat]. rewrite (app_assoc acc).
    apply (IH (S k) d' g (acc ++ selected e) size'); try done; [lia|lia|].
    rewrite zlen_app. assert (zlen (selected e) <= 1); [|lia].
    unfold selected. destruct (sel _); done.
Qed.

(** A caller that reads until [NULL]: what it got, the errno, the stream. *)
Fixpoint read_all (n : nat) (d : DIR) : outcome (list dirent * option Z * DIR) :=
  match n with
  | O => NoFuel
  | S n =>
      let! r := readdir fd_readdir alloc_ok 3 d in
      match r with
      | (Some de, _, d) => let! t := read_all n d in let '(l, e, d) := t in Ok (de :: l, e, d)
      | (None, e, d) => Ok ([], e, d)
      end
  end.

Lemma read_all_spec n : forall k d, (length es - k = n)%nat -> dir_at k d ->
  exists d', read_all (S n) d = Ok (map dirent_of (drop k es), None, d') /\ dir_at (length es) d'.
Proof.
  induction n as [|n IH]; intros k d Hn Hat.
  - assert (k = length es) as -> by (destruct Hat; lia). rewrite drop_all.
    destruct (readdir_end d 1 Hat) as (d' & Hr & Hat'). exists d'. cbn [read_all]. by rewrite Hr.
  - destruct (lookup_lt_is_Some_2 es k) as [e He]; [lia|].
    destruct (readdir_next k e d 0 Hat He) as (d1 & Hr & Hat1).
    destruct (IH (S k) d1) as (d' & Hd' & Hat'); [lia|done|].
    exists d'. remember (S n) as m eqn:Em. cbn [read_all]. rewrite Hr. cbn [obind]. rewrite Hd'.
    rewrite (drop_entry k e He). done.
Qed.

Lemma rewind_at k d : dir_at k d -> zlen (buffer d) <= buffer_size d -> dir_at 0 (rewinddir d).
Proof.
  intros (_ & Hfd & _ & _ & _ & Hs & Hd & _) Hb. unfold dir_at, rest. cbn.
  rewrite drop_ge by (unfold zlen in Hb; lia). destruct host as (Hc & _).
  split_and!; try done; try lia. change (zlen (@nil Z)) with 0. lia.
Qed.

Lemma fdopendir_at : exists d, fdopendir fd_readdir alloc_ok fd = inl d /\ dir_at 0 d.
Proof.
  unfold fdopendir, DIRENT_DEFAULT_BUFFER_SIZE. rewrite !memory by lia. cbn [negb].
  destruct (reload_ok 0 (mk_DIR fd DIRCOOKIE_START [] 0 4096 0 1)) as (d & Hd & Hat & _).
  { destruct host as (Hc & _). unfold reloadable. cbn. split_and!; done || lia. }
  unfold read_entries in Hd. cbn in Hd. destruct (fd_readdir fd 4096 DIRCOOKIE_START) as [bs|]; [|done].
  injection Hd as <-. eexists. split; [reflexivity|done].
Qed.

(** C12: reading an opened directory to its end gives every entry of the host's
    directory once and in order, whatever its size and however the entries fall
    on the end of the buffer: an entry cut off is read again, in a larger buffer
    if need be.  [readdir] takes at most three turns of its loop per entry, and
    at the end it returns [NULL] without setting errno, then and ever after. *)
Theorem readdir_enumerates :
  exists d d', fdopendir fd_readdir alloc_ok fd = inl d /\
    read_all (S (length es)) d = Ok (map dirent_of es, None, d') /\
    exists d'', readdir fd_readdir alloc_ok 3 d' = Ok (None, None, d'') /\ dir_at (length es) d''.
Proof.
  destruct fdopendir_at as (d & Hd & Hat). destruct (read_all_spec (length es) 0 d) as (d' & Hr & Hat'); [lia|done|].
  destruct (readdir_end d' 1 Hat') as (d'' & He & Hat''). exists d, d'. split_and!; [done|exact Hr|].
  by exists d''.
Qed.

Variable openat_nomode : Z -> list Z -> Z -> res Z.
Variable sorted : list dirent -> list dirent.

(** [scandirat] returns the number of the entries of the directory that the
    selection function accepts and stores them in the order of the caller's
    comparison; its array never overflows. *)
Theorem scandirat_collects dirfd dir fuel :
  openat_nomode dirfd dir OPENDIR_FLAGS = Val fd ->
  zlen es < 2 ^ 28 -> (3 * length es + 2 <= fuel)%nat ->
  let l := filter (fun de => sel de = true) (map dirent_of es) in
  scandirat fd_readdir alloc_ok openat_nomode sel sorted fuel dirfd dir = Ok (zlen l, sorted l, None).
Proof.
  intros Ho Hlen Hf l. unfold scandirat, DIRENT_DEFAULT_BUFFER_SIZE. rewrite Ho, memory by lia. cbn [negb].
  assert (dir_at 0 (mk_DIR fd DIRCOOKIE_START [] 4096 4096 4096 1)) as Hat.
  { destruct host as (Hc & _). unfold dir_at, rest. cbn. rewrite drop_nil.
    split_and!; try done; try lia. }
  rewrite (scan_all (length es) 0 _ fuel [] 0); [|lia|done|done|unfold zlen in *; cbn; lia|done|].
  2:{ unfold room_ok. change (zlen (@nil dirent)) with 0. lia. }
  cbn [obind app]. rewrite drop_0.
  assert (concat (map selected es) = l) as ->; [|done].
  subst l. clear. induction es as [|e es' IH]; [done|]. cbn [map concat]. rewrite filter_cons, IH.
  unfold selected. case_decide as H; destruct (sel (dirent_of e)); try done.
Qed.

End Serving.

(** A directory with two entries, one of them with a name of 5,000 bytes, longer
    than the initial buffer. *)
Definition demo_entries : list entry :=
  [mk_entry 1 10 3 (replicate 5000 97); mk_entry 2 11 4 [98; 99]].

Definition demo_readdir (_ len cookie : Z) : res (list Z) :=
  Val (take (Z.to_nat len) (stream (drop (Z.to_nat cookie) demo_entries))).

Lemma demo_serves : serves demo_readdir 3 demo_entries Z.of_nat.
Proof.
  split_and!; [done| |].
  - intros [|[|k]] e [= <-]; done.
  - intros k len _ _. unfold demo_readdir. by rewrite Nat2Z.id.
Qed.

Lemma demo_entries_ok : Forall entry_ok demo_entries.
Proof.
  repeat apply Forall_cons_2; [| |constructor]; split_and!; cbn [e_next e_ino e_type e_name]; try (by vm_compute).
  - by apply Forall_replicate.
  - by repeat constructor.
Qed.

Lemma readdir_enumerates_witness :
  exists d d', fdopendir demo_readdir (fun _ => true) 3 = inl d /\
    read_all demo_readdir (fun _ => true) 3 d =
      Ok ([mk_dirent 10 3 (replicate 5000 97); mk_dirent 11 4 [98; 99]], None, d').
Proof.
  destruct (readdir_enumerates demo_readdir (fun _ => true) 3 demo_entries Z.of_nat demo_serves
    (fun _ _ => eq_refl) demo_entries_ok) as (d & d' & Hd & Hr & _).
  exists d, d'. split; [exact Hd|exact Hr].
Defined.

Lemma scandirat_collects_witness :
  scandirat demo_readdir (fun _ => true) (fun _ _ _ => Val 3) (fun de => d_type de =? 4) id 8 5 [46] =
    Ok (1, [mk_dirent 11 4 [98; 99]], None).
Proof.
  apply (scandirat_collects demo_readdir (fun _ => true) 3 demo_entries Z.of_nat demo_serves
    (fun _ _ => eq_refl) demo_entries_ok (fun de => d_type de =? 4) (fun _ _ _ => Val 3) id 5 [46] 8).
  - reflexivity.
  - by vm_compute.
  - cbn. lia.
Defined.

(** *** Entries that are skipped *)

Lemma stream_length es : 24 * zlen es <= zlen (stream es).
Proof.
  induction es as [|e es IH]; [done|]. change (stream (e :: es)) with (entry_bytes e ++ stream es).
  rewrite zlen_app, entry_len, zlen_cons. pose proof (zlen_nonneg (e_name e)). lia.
Qed.

Section Skipping.
Variable fd_readdir : Z -> Z -> Z -> res (list Z).
Variable alloc_ok : Z -> bool.
Variable fd : Z.
Variable es : list entry.
Variable cookie_at : nat -> Z.
Hypothesis host : serves fd_readdir fd es cookie_at.
(** The entries that fill the first buffer have no names, and there are more. *)
Hypothesis skipped : Forall (fun e => in_u 64 (e_next e) /\ in_u 64 (e_ino e) /\ e_name e = []) (take 170 es).
Hypothesis more : (170 < length es)%nat.

Lemma skipped_stream i : (i <= 170)%nat -> drop (24 * i) (stream es) = stream (drop i es).
Proof.
  induction i as [|i IH]; intros Hi; [by rewrite !drop_0|]. replace (24 * S i)%nat with (24 * i + 24)%nat by lia.
  rewrite <- drop_drop, IH by lia. destruct (lookup_lt_is_Some_2 es i ltac:(lia)) as [e He]. rewrite (drop_S _ e i) by done.
  assert (take 170 es !! i = Some e) as Ht by (rewrite lookup_take_lt by lia; done). pose proof (Forall_lookup_1 _ _ _ _ skipped Ht) as (_ & _ & Hn).
  rewrite stream_cons, Hn. cbn [app]. rewrite drop_app_length' by (by rewrite header_len). done.
Qed.

Lemma skipping_loop n : forall i d, (i <= 170)%nat -> dir_fd d = fd -> cookie d = cookie_at 0 ->
  buffer d = take 4096 (stream es) -> buffer_processed d = 24 * Z.of_nat i -> buffer_size d = 4096 ->
  buffer_used d = 4096 -> readdir fd_readdir alloc_ok n d = NoFuel.
Proof.
  induction n as [|n IH]; intros i d Hi Hfd Hck Hb Hp Hs Hu; [done|]. cbn [readdir].
  rewrite Hu, Hp, Hs, Hb, u32_id by (bounds; lia). unfold sizeof_dirent.
  assert (zlen (take 4096 (stream es)) = 4096) as Hfull.
  { pose proof (stream_length es). unfold zlen in *. rewrite length_take. lia. }
  destruct (Z.ltb_spec (4096 - 24 * Z.of_nat i) 24).
  - rewrite Z.ltb_irrefl. unfold read_entries. destruct host as (_ & _ & Hserve). rewrite Hs, Hfd, Hck, (Hserve 0%nat) by lia. rewrite drop_0.
    change (Z.to_nat 4096) with 4096%nat. apply (IH 0%nat); cbn [dir_fd cookie buffer buffer_processed buffer_size buffer_used]; try done; lia.
  - assert (i < 170)%nat as Hi' by lia. destruct (lookup_lt_is_Some_2 es i ltac:(lia)) as [e He].
    assert (take 170 es !! i = Some e) as Ht by (rewrite lookup_take_lt by lia; done). pose proof (Forall_lookup_1 _ _ _ _ skipped Ht) as (Hn & Hino & Hnm).
    replace (Z.to_nat (24 * Z.of_nat i)) with (24 * i)%nat by lia. rewrite skipn_firstn_comm, skipped_stream by lia. rewrite (drop_S _ e i) by done. rewrite stream_cons, Hnm. cbn [app].
    rewrite take_app_ge by (rewrite header_len; lia). rewrite read_header_fields by (rewrite ?Hnm; done). cbn [obind d_namlen]. rewrite Hnm. change (zlen []) with 0. rewrite Z.eqb_refl. change (u32 (24 + 0)) with 24.
    apply (IH (S i)); cbn [dir_fd cookie buffer buffer_processed buffer_size buffer_used set_processed]; try done.
    rewrite u32_id by (bounds; lia). lia.
Qed.
End Skipping.

(** C13: [readdir] does not advance its cookie over entries that it skips: when
    a directory begins with as many nameless entries as fill the buffer, on a host that
    serves every cookie as documented, it asks for the same entries again and again and
    never returns, although there are more entries behind them. *)
Theorem readdir_skips_forever fd_readdir alloc_ok fd es cookie_at d n :
  serves fd_readdir fd es cookie_at -> (170 < length es)%nat ->
  Forall (fun e => in_u 64 (e_next e) /\ in_u 64 (e_ino e) /\ e_name e = []) (take 170 es) ->
  fdopendir fd_readdir alloc_ok fd = inl d -> readdir fd_readdir alloc_ok n d = NoFuel.
Proof.
  intros Hh Hm Hsk. unfold fdopendir. destruct (alloc_ok 40), (alloc_ok DIRENT_DEFAULT_BUFFER_SIZE); cbn [negb]; try done.
  pose proof Hh as (Hc & _ & Hserve). rewrite <- Hc, (Hserve 0%nat) by (unfold DIRENT_DEFAULT_BUFFER_SIZE; lia).
  rewrite drop_0. intros [= <-]. apply (skipping_loop _ _ _ _ _ Hh Hsk Hm n 0%nat); try done; [lia|].
  cbn [buffer_used]. pose proof (stream_length es). unfold zlen in *. rewrite length_take. unfold DIRENT_DEFAULT_BUFFER_SIZE. lia.
Qed.

(** Two hundred nameless entries and a file "a" behind them, whose cookies are positions. *)
Definition long_directory : list entry :=
  map (fun i => mk_entry (Z.of_nat i + 1) 7 4 (if (i =? 200)%nat then [97] else [])) (seq 0 201).
Definition long_host (_ len cookie : Z) : res (list Z) := Val (take (Z.to_nat len) (stream (drop (Z.to_nat cookie) long_directory))).

Lemma readdir_skips_forever_witness :
  exists d, fdopendir long_host (fun _ => true) 3 = inl d /\ readdir long_host (fun _ => true) 1000 d = NoFuel.
Proof.
  eexists. split; [reflexivity|]. apply (readdir_skips_forever long_host (fun _ => true) 3 long_directory Z.of_nat).
  - split; [done|]. split; [|intros k len Hk Hl; unfold long_host; by rewrite Nat2Z.id].
    intros k e He. unfold long_directory in He. rewrite (list_lookup_fmap _ (seq 0 201)) in He. apply fmap_Some in He as (i & Hi & ->). apply lookup_seq in Hi as [-> _]. cbn [e_next]. lia.
  - cbn. lia.
  - match goal with |- ?P => by apply (bool_decide_eq_true_1 P); vm_compute end.
  - reflexivity.
Defined.

End Dirent.
