(* ===== verification/Tsearch.v ===== *)
(** musl's binary search trees ([libc-top-half/musl/src/search/]: tsearch.c,
    tdelete.c, tfind.c, twalk.c, tdestroy.c).

    The nodes live in a store indexed by their addresses and the code works
    on it in place, with the C code's array of pointers to the links it has
    followed.  A functional AVL tree whose constructors carry the addresses is
    the specification: [rep] says that the store holds such a tree, and the
    theorems say which tree it holds after each operation.  The array has
    [MAXH] entries and writing past its end is undefined behaviour in the
    model; the theorems show that no tree that fits the address space of
    wasm32 is deep enough for that. *)

From S2P Require Import Prelude.

(** * The store *)

Definition MAXH : Z := 4 * 8 * 3 / 2.

(** [struct node]; [a0] and [a1] are the array [a]. *)
Record node := Node { key : Z; a0 : Z; a1 : Z; nh : Z }.

Definition child (n : node) (dir : bool) : Z := if dir then a1 n else a0 n.
Definition with_child (n : node) (dir : bool) (v : Z) : node :=
  if dir then Node (key n) (a0 n) v (nh n) else Node (key n) v (a1 n) (nh n).
Definition with_h (v : Z) (n : node) : node := Node (key n) (a0 n) (a1 n) v.
Definition with_key (v : Z) (n : node) : node := Node v (a0 n) (a1 n) (nh n).

(** A [void **] of the code: the address of the root pointer or of a child
    link of a node. *)
Inductive slot := Root | Link (p : Z) (dir : bool).

Record tstate := TS { root : Z; nodes : gmap Z node }.

Definition ld (p : Z) : M tstate node := fun s =>
  let! n := deref (nodes s !! p) in Ok (n, s).
Definition upd (p : Z) (f : node -> node) : M tstate unit := fun s =>
  let! n := deref (nodes s !! p) in Ok (tt, TS (root s) (<[p := f n]> (nodes s))).
Definition get_child (p : Z) (dir : bool) : M tstate Z :=
  let* n := ld p in sret (child n dir).
Definition set_child (p : Z) (dir : bool) (v : Z) : M tstate unit :=
  upd p (fun n => with_child n dir v).
Definition read (p : slot) : M tstate Z :=
  match p with Root => sget root | Link q dir => get_child q dir end.
Definition write (p : slot) (v : Z) : M tstate unit :=
  match p with
  | Root => sput (fun s => TS v (nodes s))
  | Link q dir => set_child q dir v
  end.
Definition free (p : Z) : M tstate unit := fun s =>
  let! _ := deref (nodes s !! p) in Ok (tt, TS (root s) (delete p (nodes s))).

(** [a[i++] = p] on an array of [max] entries of which the first [i] are the
    stack [a], the last of them first. *)
Definition push (max : Z) (a : list slot) (p : slot) : M tstate (list slot) :=
  if zlen a <? max then sret (p :: a) else sfail.

(** * Balancing *)

Definition height (n : Z) : M tstate Z :=
  if n =? 0 then sret 0 else let* x := ld n in sret (nh x).

Definition rot (p : slot) (x : Z) (dir : bool) : M tstate Z :=
  let* y := get_child x dir in
  let* z := get_child y (negb dir) in
  let* nx := ld x in
  let hx := nh nx in
  let* hz := height z in
  let* yd := get_child y dir in
  let* hd := height yd in
  if hd <? hz then
    let* b := get_child z (negb dir) in
    do* set_child x dir b in
    let* c := get_child z dir in
    do* set_child y (negb dir) c in
    do* set_child z (negb dir) x in
    do* set_child z dir y in
    do* upd x (with_h hz) in
    do* upd y (with_h hz) in
    do* upd z (with_h (s32 (hz + 1))) in
    do* write p z in
    let* nz := ld z in
    sret (s32 (nh nz - hx))
  else
    do* set_child x dir z in
    do* set_child y (negb dir) x in
    do* upd x (with_h (s32 (hz + 1))) in
    do* upd y (with_h (s32 (hz + 2))) in
    do* write p y in
    let* ny := ld y in
    sret (s32 (nh ny - hx)).

Definition tsearch_balance (p : slot) : M tstate Z :=
  let* n := read p in
  let* l := get_child n false in
  let* h0 := height l in
  let* r := get_child n true in
  let* h1 := height r in
  if u32 (h0 - h1 + 1) <? 3 then
    let* old := ld n in
    let h := if h0 <? h1 then s32 (h1 + 1) else s32 (h0 + 1) in
    do* upd n (with_h h) in
    sret (s32 (h - nh old))
  else rot p n (h0 <? h1).

(** [while (i && __tsearch_balance(a[--i]));] *)
Fixpoint rebalance (a : list slot) : M tstate unit :=
  match a with
  | [] => sret tt
  | p :: a' => let* d := tsearch_balance p in if ctrue d then rebalance a' else sret tt
  end.

(** [while (--i && __tsearch_balance(a[i]));], where [a] is the array without
    the entry just used: its entry 0 is not balanced. *)
Fixpoint rebalance_above (a : list slot) : M tstate unit :=
  match a with
  | [] | [_] => sret tt
  | p :: a' => let* d := tsearch_balance p in if ctrue d then rebalance_above a' else sret tt
  end.

(** * The operations *)

Section Operations.
(** The caller's comparison function. *)
Variable cmp : Z -> Z -> Z.

(** The search loop of [tsearch]: the node with the key, or the stack of
    followed links.  The array bounds the loop. *)
Fixpoint descend (fuel : nat) (max : Z) (k : Z) (n : Z) (a : list slot)
  : M tstate (Z * list slot) :=
  match fuel with
  | O => fun _ => NoFuel
  | S fuel' =>
      if n =? 0 then sret (0, a)
      else
        let* x := ld n in
        let c := cmp k (key x) in
        if c =? 0 then sret (n, a)
        else
          let* a' := push max a (Link n (0 <? c)) in
          descend fuel' max k (child x (0 <? c)) a'
  end.

(** [rootp] says whether the pointer to the root is not null; [malloc] is
    what the allocator returns, 0 for failure. *)
Definition tsearch (rootp : bool) (malloc : Z) (k : Z) : M tstate Z :=
  if negb rootp then sret 0 else
  let* n := sget root in
  let* a := push MAXH [] Root in
  let* r := descend (Z.to_nat MAXH + 1) MAXH k n a in
  let (n, a) := r in
  if negb (n =? 0) then sret n
  else if malloc =? 0 then sret 0
  else
    do* sput (fun s => TS (root s) (<[malloc := Node k 0 0 1]> (nodes s))) in
    match a with
    | p :: a' =>
        do* write p malloc in
        do* rebalance a' in
        sret malloc
    | [] => sfail
    end.

Fixpoint tfind_loop (fuel : nat) (k : Z) (n : Z) : M tstate Z :=
  match fuel with
  | O => fun _ => NoFuel
  | S fuel' =>
      if n =? 0 then sret n
      else
        let* x := ld n in
        let c := cmp k (key x) in
        if c =? 0 then sret n
        else tfind_loop fuel' k (child x (0 <? c))
  end.

Definition tfind (fuel : nat) (rootp : bool) (k : Z) : M tstate Z :=
  if negb rootp then sret 0 else
  let* n := sget root in tfind_loop fuel k n.

(** [while (n->a[1]) { a[i++] = &n->a[1]; n = n->a[1]; }] *)
Fixpoint rightmost (fuel : nat) (n : Z) (a : list slot) : M tstate (Z * list slot) :=
  match fuel with
  | O => fun _ => NoFuel
  | S fuel' =>
      let* r := get_child n true in
      if r =? 0 then sret (n, a)
      else
        let* a' := push (MAXH + 1) a (Link n true) in
        rightmost fuel' r a'
  end.

Definition tdelete (rootp : bool) (k : Z) : M tstate Z :=
  if negb rootp then sret 0 else
  let* n := sget root in
  let* a := push (MAXH + 1) [] Root in
  let* a := push (MAXH + 1) a Root in
  let* r := descend (Z.to_nat MAXH + 2) (MAXH + 1) k n a in
  let (n, a) := r in
  if n =? 0 then sret 0
  else
    match a with
    | _ :: up :: _ =>
        let* parent := read up in
        let* n0 := get_child n false in
        let* r :=
          if negb (n0 =? 0) then
            let deleted := n in
            let* a := push (MAXH + 1) a (Link n false) in
            let* r := rightmost (Z.to_nat MAXH + 2) n0 a in
            let (n, a) := r in
            let* x := ld n in
            do* upd deleted (with_key (key x)) in
            let* c := get_child n false in
            sret (n, a, c)
          else
            let* c := get_child n true in
            sret (n, a, c) in
        let '(n, a, c) := r in
        do* free n in
        match a with
        | p :: a' =>
            do* write p c in
            do* rebalance_above a' in
            sret parent
        | [] => sfail
        end
    | _ => sfail
    end.
End Operations.

(** [VISIT] of search.h. *)
Inductive visit := preorder | postorder | endorder | leaf.

Record action_call := Call { call_node : Z; call_visit : visit; call_depth : Z }.

(** The calls of [action] that [walk] makes, in their order. *)
Fixpoint walk (fuel : nat) (r : Z) (d : Z) : M tstate (list action_call) :=
  match fuel with
  | O => fun _ => NoFuel
  | S fuel' =>
      if r =? 0 then sret []
      else
        let* x := ld r in
        if nh x =? 1 then sret [Call r leaf d]
        else
          let* l := get_child r false in
          let* cl := walk fuel' l (s32 (d + 1)) in
          let* rr := get_child r true in
          let* cr := walk fuel' rr (s32 (d + 1)) in
          sret ([Call r preorder d] ++ cl ++ [Call r postorder d] ++ cr
                ++ [Call r endorder d])
  end.

Definition twalk (fuel : nat) (r : Z) : M tstate (list action_call) := walk fuel r 0.

(** The keys [tdestroy] passes to [freekey], in their order, when the caller
    gives it one; every node is freed. *)
Fixpoint tdestroy (fuel : nat) (freekey : bool) (r : Z) : M tstate (list Z) :=
  match fuel with
  | O => fun _ => NoFuel
  | S fuel' =>
      if r =? 0 then sret []
      else
        let* l := get_child r false in
        let* kl := tdestroy fuel' freekey l in
        let* rr := get_child r true in
        let* kr := tdestroy fuel' freekey rr in
        let* x := ld r in
        do* free r in
        sret (kl ++ kr ++ if freekey then [key x] else [])
  end.

(** * Trees

    [Nd p k h l r] is the node at address [p]. *)
Inductive tree := Lf | Nd (p k h : Z) (l r : tree).

Definition ptr (t : tree) : Z := match t with Lf => 0 | Nd p _ _ _ _ => p end.
Definition hgt (t : tree) : Z := match t with Lf => 0 | Nd _ _ h _ _ => h end.

(** A node whose child on side [d] is [s] and whose other child is [o]. *)
Definition nd (p k h : Z) (d : bool) (s o : tree) : tree :=
  if d then Nd p k h o s else Nd p k h s o.

(** The nodes in order, with their keys. *)
Fixpoint flat (t : tree) : list (Z * Z) :=
  match t with Lf => [] | Nd p k _ l r => flat l ++ (p, k) :: flat r end.
Definition addrs (t : tree) : list Z := (flat t).*1.
Definition keys (t : tree) : list Z := (flat t).*2.

(** The AVL invariant: every node stores its height and the heights of its
    children differ by at most one. *)
Fixpoint avl (t : tree) : Prop :=
  match t with
  | Lf => True
  | Nd _ _ h l r => avl l /\ avl r /\ h = 1 + Z.max (hgt l) (hgt r) /\ Z.abs (hgt l - hgt r) <= 1
  end.

(** The store holds the tree. *)
Fixpoint rep (m : gmap Z node) (t : tree) : Prop :=
  match t with
  | Lf => True
  | Nd p k h l r => m !! p = Some (Node k (ptr l) (ptr r) h) /\ rep m l /\ rep m r
  end.

(** ** Balancing, functionally *)

Definition rot_tree (d : bool) (t : tree) : tree :=
  match t with
  | Lf => Lf
  | Nd x kx hx l r =>
      match (if d then r else l) with
      | Lf => t
      | Nd y ky hy yl yr =>
          let A := if d then l else r in
          let D := if d then yr else yl in
          let z := if d then yl else yr in
          if hgt D <? hgt z then
            match z with
            | Lf => t
            | Nd zp kz hz zl zr =>
                let B := if d then zl else zr in
                let C := if d then zr else zl in
                nd zp kz (hz + 1) d (nd y ky hz d D C) (nd x kx hz d B A)
            end
          else nd y ky (hgt z + 2) d D (nd x kx (hgt z + 1) d z A)
      end
  end.

Definition bal (t : tree) : tree :=
  match t with
  | Lf => Lf
  | Nd p k h l r =>
      if Z.abs (hgt l - hgt r) <=? 1 then Nd p k (1 + Z.max (hgt l) (hgt r)) l r
      else rot_tree (hgt l <? hgt r) t
  end.

(** What balancing a node needs: balanced children whose heights differ by at
    most two. *)
Definition pre_avl (t : tree) : Prop :=
  match t with
  | Lf => True
  | Nd _ _ _ l r => avl l /\ avl r /\ Z.abs (hgt l - hgt r) <= 2
  end.

Lemma avl_hgt t : avl t -> 0 <= hgt t.
Proof. induction t as [|p k h l IHl r IHr]; simpl; [lia|].
  intros (Hl & _ & -> & _). specialize (IHl Hl). lia.
Qed.

Lemma avl_ptr t : avl t -> 0 < hgt t -> exists p k h l r, t = Nd p k h l r.
Proof. destruct t; simpl; [lia|eauto 10]. Qed.

Lemma rot_flat d t : flat (rot_tree d t) = flat t.
Proof.
  destruct t as [|x kx hx l r]; [done|]. unfold rot_tree, nd.
  destruct d; repeat (case_match; subst; try done); 
    simpl; repeat (rewrite <- ?app_assoc; simpl); done.
Qed.

Lemma bal_flat t : flat (bal t) = flat t.
Proof. destruct t as [|p k h l r]; [done|]. unfold bal. case_match; [done|]. by rewrite rot_flat. Qed.

Ltac avl_arith :=
  simpl in *; destruct_and?; subst;
  repeat match goal with H : avl ?t |- _ =>
    lazymatch goal with _ : 0 <= hgt t |- _ => fail | _ => pose proof (avl_hgt t H) end end;
  repeat split; auto; lia.

(** Balancing restores the invariant, and the new height is that of the
    higher child or one more. *)
Lemma bal_avl p k h l r :
  pre_avl (Nd p k h l r) ->
  avl (bal (Nd p k h l r)) /\
  Z.max (hgt l) (hgt r) <= hgt (bal (Nd p k h l r)) <= 1 + Z.max (hgt l) (hgt r) /\
  (Z.abs (hgt l - hgt r) <= 1 -> hgt (bal (Nd p k h l r)) = 1 + Z.max (hgt l) (hgt r)).
Proof.
  intros (Hl & Hr & Hd). unfold bal.
  destruct (Z.leb_spec (Z.abs (hgt l - hgt r)) 1); [avl_arith|].
  unfold rot_tree, nd. destruct (Z.ltb_spec (hgt l) (hgt r)).
  - destruct r as [|y ky hy yl yr]; [avl_arith|]. case_cmp; [|avl_arith].
    destruct yl as [|z kz hz zl zr]; avl_arith.
  - destruct l as [|y ky hy yl yr]; [avl_arith|]. case_cmp; [|avl_arith].
    destruct yr as [|z kz hz zl zr]; avl_arith.
Qed.

(** ** Contexts

    A frame is a node with a hole on side [d]; a context is the path from the
    hole to the root, innermost frame first. *)
Record frame := F { fp : Z; fk : Z; fh : Z; fd : bool; fo : tree }.
Notation ctx := (list frame).

Definition fill (f : frame) (t : tree) : tree := nd (fp f) (fk f) (fh f) (fd f) t (fo f).
Fixpoint plug (c : ctx) (t : tree) : tree :=
  match c with [] => t | f :: c' => plug c' (fill f t) end.

(** What precedes and what follows the hole, in order. *)
Fixpoint lflat (c : ctx) : list (Z * Z) :=
  match c with
  | [] => []
  | f :: c' => lflat c' ++ if fd f then flat (fo f) ++ [(fp f, fk f)] else []
  end.
Fixpoint rflat (c : ctx) : list (Z * Z) :=
  match c with
  | [] => []
  | f :: c' => (if fd f then [] else (fp f, fk f) :: flat (fo f)) ++ rflat c'
  end.

(** Balancing from the hole upwards, stopping at the first node that keeps its
    height. *)
Fixpoint up (c : ctx) (t : tree) : tree :=
  match c with
  | [] => t
  | f :: c' =>
      let t' := bal (fill f t) in
      if hgt t' =? fh f then plug c' t' else up c' t'
  end.

Lemma flat_fill f t :
  flat (fill f t) = (if fd f then flat (fo f) ++ [(fp f, fk f)] else []) ++ flat t
                    ++ (if fd f then [] else (fp f, fk f) :: flat (fo f)).
Proof. unfold fill, nd. destruct (fd f); simpl; by rewrite ?app_nil_r, <- ?app_assoc. Qed.

Lemma flat_plug c : forall t, flat (plug c t) = lflat c ++ flat t ++ rflat c.
Proof.
  induction c as [|f c IH]; intros t; simpl; [by rewrite app_nil_r|].
  by rewrite IH, flat_fill, <- !app_assoc.
Qed.

Lemma hgt_fill f t : hgt (fill f t) = fh f.
Proof. unfold fill, nd. by destruct (fd f). Qed.

Lemma avl_fill f t :
  avl (fill f t) <-> avl t /\ avl (fo f) /\ fh f = 1 + Z.max (hgt t) (hgt (fo f)) /\
                     Z.abs (hgt t - hgt (fo f)) <= 1.
Proof.
  unfold fill, nd. destruct (fd f); simpl; split; intros (? & ? & ? & ?); repeat split; auto; lia.
Qed.

Lemma plug_avl_inv c : forall t, avl (plug c t) -> avl t.
Proof.
  induction c as [|f c IH]; intros t; simpl; [done|]. intros H%IH%avl_fill. tauto.
Qed.

Lemma plug_avl c : forall t t',
  avl (plug c t) -> avl t' -> hgt t' = hgt t -> avl (plug c t').
Proof.
  induction c as [|f c IH]; intros t t' Ht Ht' Hh; simpl in *; [done|].
  apply (IH (fill f t)); [done| |by rewrite !hgt_fill].
  apply plug_avl_inv, avl_fill in Ht. apply avl_fill. rewrite Hh. tauto.
Qed.

Lemma bal_fill f t :
  avl t -> avl (fo f) -> Z.abs (hgt t - hgt (fo f)) <= 2 ->
  pre_avl (fill f t) /\ avl (bal (fill f t)) /\
  Z.max (hgt t) (hgt (fo f)) <= hgt (bal (fill f t)) <= 1 + Z.max (hgt t) (hgt (fo f)) /\
  (Z.abs (hgt t - hgt (fo f)) <= 1 -> hgt (bal (fill f t)) = 1 + Z.max (hgt t) (hgt (fo f))).
Proof.
  intros Ht Ho Hd. unfold fill, nd. destruct (fd f).
  - assert (pre_avl (Nd (fp f) (fk f) (fh f) (fo f) t)) as Hp by (repeat split; auto; lia).
    destruct (bal_avl _ _ _ _ _ Hp) as (? & ? & He). repeat split; auto; lia.
  - assert (pre_avl (Nd (fp f) (fk f) (fh f) t (fo f))) as Hp by (repeat split; auto; lia).
    destruct (bal_avl _ _ _ _ _ Hp) as (? & ? & He). repeat split; auto; lia.
Qed.

(** One step upwards: when the subtree in the hole grew ([e = 0]) or shrank
    ([e = 1]) by at most one, so did the balanced node above it. *)
Lemma bal_step e f t0 t :
  0 <= e <= 1 -> avl (fill f t0) -> avl t -> hgt t0 - e <= hgt t <= hgt t0 + 1 - e ->
  pre_avl (fill f t) /\ avl (bal (fill f t)) /\
  fh f - e <= hgt (bal (fill f t)) <= fh f + 1 - e.
Proof.
  intros He (Ht0 & Ho & Hh & Hd)%avl_fill Ht Hr.
  destruct (bal_fill f t) as (Hp & Ha & Hb & Hc); [done|done|lia|].
  split; [done|]. split; [done|].
  destruct (Z.le_gt_cases (Z.abs (hgt t - hgt (fo f))) 1) as [Hs|Hs]; [rewrite Hc by done|]; lia.
Qed.

Lemma up_avl c : forall e t0 t,
  0 <= e <= 1 -> avl (plug c t0) -> avl t -> hgt t0 - e <= hgt t <= hgt t0 + 1 - e ->
  avl (up c t).
Proof.
  induction c as [|f c IH]; intros e t0 t He H0 Ht Hr; simpl in *; [done|].
  destruct (bal_step e f t0 t) as (_ & Ha & Hb); eauto using plug_avl_inv.
  case_cmp; [eapply plug_avl; [exact H0|done|by rewrite hgt_fill]|].
  apply (IH e (fill f t0)); rewrite ?hgt_fill; auto.
Qed.

Lemma up_flat c : forall t, flat (up c t) = lflat c ++ flat t ++ rflat c.
Proof.
  induction c as [|f c IH]; intros t; simpl; [by rewrite app_nil_r|].
  case_match; rewrite ?flat_plug, ?IH, bal_flat, flat_fill, <- !app_assoc; done.
Qed.

(** ** Trees and contexts in the store *)

Fixpoint caddrs (c : ctx) : list Z :=
  match c with [] => [] | f :: c' => fp f :: addrs (fo f) ++ caddrs c' end.

Definition fnode (f : frame) (q : Z) : node :=
  if fd f then Node (fk f) (ptr (fo f)) q (fh f) else Node (fk f) q (ptr (fo f)) (fh f).

(** The store holds the context, with [q] in its hole. *)
Fixpoint crep (m : gmap Z node) (c : ctx) (q : Z) : Prop :=
  match c with
  | [] => True
  | f :: c' => m !! fp f = Some (fnode f q) /\ rep m (fo f) /\ crep m c' (fp f)
  end.

Fixpoint croot (c : ctx) (q : Z) : Z :=
  match c with [] => q | f :: c' => croot c' (fp f) end.

(** The link that leads to the hole, and all the links on the way to it. *)
Definition cslot (c : ctx) : slot :=
  match c with [] => Root | f :: _ => Link (fp f) (fd f) end.
Fixpoint slots (c : ctx) : list slot :=
  cslot c :: match c with [] => [] | _ :: c' => slots c' end.

Lemma addrs_Nd p k h l r : addrs (Nd p k h l r) = addrs l ++ p :: addrs r.
Proof. unfold addrs. simpl. by rewrite fmap_app. Qed.

Lemma addrs_fill f t : addrs (fill f t) ≡ₚ fp f :: addrs (fo f) ++ addrs t.
Proof. unfold fill, nd. destruct (fd f); rewrite addrs_Nd; solve_Permutation. Qed.

Lemma addrs_plug c : forall t, addrs (plug c t) ≡ₚ caddrs c ++ addrs t.
Proof.
  induction c as [|f c IH]; intros t; simpl; [done|].
  rewrite IH, addrs_fill. solve_Permutation.
Qed.

Lemma ptr_plug c : forall t, ptr (plug c t) = croot c (ptr t).
Proof.
  induction c as [|f c IH]; intros t; simpl; [done|].
  rewrite IH. unfold fill, nd. by destruct (fd f).
Qed.

Lemma rep_fill m f t :
  rep m (fill f t) <-> m !! fp f = Some (fnode f (ptr t)) /\ rep m (fo f) /\ rep m t.
Proof. unfold fill, nd, fnode. destruct (fd f); simpl; tauto. Qed.

Lemma rep_plug m c : forall t, rep m (plug c t) <-> crep m c (ptr t) /\ rep m t.
Proof.
  induction c as [|f c IH]; intros t; simpl; [tauto|].
  rewrite IH, rep_fill. unfold fill, nd. destruct (fd f); simpl; tauto.
Qed.

Lemma rep_frame m m' t :
  (forall q, q ∈ addrs t -> m' !! q = m !! q) -> rep m t -> rep m' t.
Proof.
  induction t as [|p k h l IHl r IHr]; simpl; [done|].
  rewrite addrs_Nd. intros Hf (Hp & Hl & Hr).
  split; [rewrite Hf by set_solver; done|]. split; [apply IHl|apply IHr]; set_solver.
Qed.

Lemma crep_frame m m' c : forall q,
  (forall p, p ∈ caddrs c -> m' !! p = m !! p) -> crep m c q -> crep m' c q.
Proof.
  induction c as [|f c IH]; intros q Hf; simpl in *; [done|]. intros (Hp & Ho & Hc).
  split; [rewrite Hf by set_solver; done|].
  split; [eapply rep_frame; [|done]; set_solver|]. apply IH; [set_solver|done].
Qed.

(** The state holds the tree, on distinct non-null addresses. *)
Definition held (s : tstate) (t : tree) : Prop :=
  root s = ptr t /\ rep (nodes s) t /\ NoDup (addrs t) /\ 0 ∉ addrs t.

(** Two stores that agree outside some addresses. *)
Definition same_outside (l : list Z) (m m' : gmap Z node) : Prop :=
  forall q, q ∉ l -> m' !! q = m !! q.

(** Storing a new subtree into the link that led to the old one. *)
Lemma write_plug s m' c t t' :
  held s (plug c t) ->
  (forall q, q ∈ caddrs c -> m' !! q = nodes s !! q) -> rep m' t' ->
  NoDup (addrs (plug c t')) -> 0 ∉ addrs (plug c t') ->
  exists s', write (cslot c) (ptr t') (TS (root s) m') = Ok (tt, s') /\
    held s' (plug c t') /\ same_outside (caddrs c) m' (nodes s') /\
    (forall q, q ∈ addrs t' -> nodes s' !! q = m' !! q).
Proof.
  intros (Hr & Hs & _) Hf Ht Hn H0. rewrite ptr_plug in Hr. apply rep_plug in Hs as [Hc _].
  apply (crep_frame _ m') in Hc; [|done]. unfold held. rewrite ptr_plug.
  destruct c as [|f c]; simpl in *.
  { eexists. split; [reflexivity|]. done. }
  destruct Hc as (Hp & Ho & Hc). unfold set_child, upd. cbn [nodes]. rewrite Hp. cbn [deref obind].
  eexists. split; [reflexivity|]. cbn [root nodes].
  rewrite addrs_plug, addrs_fill in Hn. rewrite addrs_plug, addrs_fill in H0.
  assert (fp f ∉ addrs (fo f) /\ fp f ∉ caddrs c /\ fp f ∉ addrs t') as (? & ? & ?).
  { apply NoDup_app in Hn as (_ & Hd & (Hn & _)%NoDup_cons). set_solver. }
  split; [split; [done|]; split; [|by rewrite addrs_plug, addrs_fill]|].
  - apply rep_plug. unfold fill. split.
    + eapply crep_frame; [|unfold nd; by destruct (fd f)].
      intros q Hq. rewrite lookup_insert_ne by set_solver. done.
    + apply rep_fill. split; [rewrite lookup_insert_eq; unfold fnode, with_child; by destruct (fd f)|].
      split; (eapply rep_frame; [|done]); intros q Hq; rewrite lookup_insert_ne by set_solver; done.
  - split; intros q Hq; rewrite lookup_insert_ne by set_solver; done.
Qed.

Lemma read_plug s c t : held s (plug c t) -> read (cslot c) s = Ok (ptr t, s).
Proof.
  intros (Hr & Hs & _). rewrite ptr_plug in Hr. apply rep_plug in Hs as [Hc _].
  destruct c as [|f c]; simpl in *; [unfold sget; by rewrite Hr|].
  destruct Hc as (Hp & _ & _). unfold get_child, sbind, ld. rewrite Hp.
  unfold fnode, child. by destruct (fd f).
Qed.

Lemma height_spec s t : rep (nodes s) t -> 0 ∉ addrs t -> height (ptr t) s = Ok (hgt t, s).
Proof.
  intros Hs H0. unfold height. destruct t as [|p k h l r]; simpl in *; [done|].
  rewrite addrs_Nd in H0. rewrite (proj2 (Z.eqb_neq p 0)) by set_solver.
  unfold sbind, ld. destruct Hs as [-> _]. done.
Qed.

(** ** The rotations in the store *)

Definition mkn (k : Z) (d : bool) (s o h : Z) : node :=
  if d then Node k o s h else Node k s o h.

Lemma rep_nd m p k h d s o :
  rep m (nd p k h d s o) <-> m !! p = Some (mkn k d (ptr s) (ptr o) h) /\ rep m s /\ rep m o.
Proof. unfold nd, mkn. destruct d; simpl; tauto. Qed.
Lemma addrs_nd p k h d s o : addrs (nd p k h d s o) ≡ₚ p :: addrs s ++ addrs o.
Proof. unfold nd. destruct d; rewrite addrs_Nd; solve_Permutation. Qed.
Lemma ptr_nd p k h d s o : ptr (nd p k h d s o) = p.
Proof. by destruct d. Qed.
Lemma hgt_nd p k h d s o : hgt (nd p k h d s o) = h.
Proof. by destruct d. Qed.
Lemma child_mkn k d s o h : child (mkn k d s o h) d = s.
Proof. by destruct d. Qed.
Lemma child_mkn_other k d s o h : child (mkn k d s o h) (negb d) = o.
Proof. by destruct d. Qed.
Lemma with_child_mkn k d s o h v : with_child (mkn k d s o h) d v = mkn k d v o h.
Proof. by destruct d. Qed.
Lemma with_child_mkn_other k d s o h v : with_child (mkn k d s o h) (negb d) v = mkn k d s v h.
Proof. by destruct d. Qed.
Lemma with_h_mkn k d s o h v : with_h v (mkn k d s o h) = mkn k d s o v.
Proof. by destruct d. Qed.
Lemma nh_mkn k d s o h : nh (mkn k d s o h) = h.
Proof. by destruct d. Qed.

Create Rewrite HintDb nodes.
#[export] Hint Rewrite ptr_nd hgt_nd child_mkn child_mkn_other with_child_mkn
  with_child_mkn_other with_h_mkn nh_mkn : nodes.

Lemma ld_ok s p n : nodes s !! p = Some n -> ld p s = Ok (n, s).
Proof. unfold ld. by intros ->. Qed.
Lemma get_child_ok s p d n : nodes s !! p = Some n -> get_child p d s = Ok (child n d, s).
Proof. intros H. unfold get_child. by rewrite (sbind_Ok _ _ _ _ _ (ld_ok _ _ _ H)). Qed.
Lemma upd_ok s p f n :
  nodes s !! p = Some n -> upd p f s = Ok (tt, TS (root s) (<[p := f n]> (nodes s))).
Proof. unfold upd. by intros ->. Qed.
Lemma set_child_ok s p d v n :
  nodes s !! p = Some n ->
  set_child p d v s = Ok (tt, TS (root s) (<[p := with_child n d v]> (nodes s))).
Proof. apply upd_ok. Qed.

(** Read through the stores made so far. *)
Ltac lookups :=
  cbn [nodes root];
  repeat first [rewrite lookup_insert_eq | rewrite lookup_insert_ne by congruence];
  first [reflexivity | eassumption].

(** Run one access of the code. *)
Ltac access :=
  erewrite sbind_Ok;
  [| first [eapply get_child_ok | eapply set_child_ok | eapply ld_ok | eapply upd_ok]; lookups];
  autorewrite with nodes.

(** Turn the distinctness of the addresses into facts that [set_solver] uses. *)
Ltac distinct H :=
  rewrite addrs_plug, !addrs_nd in H;
  repeat match goal with
    | H : NoDup (_ :: _) |- _ => apply NoDup_cons in H as [? H]
    | H : NoDup (_ ++ _) |- _ => apply NoDup_app in H as (? & ? & H)
    end.

(** A subtree none of whose nodes was written. *)
Ltac framed :=
  eapply rep_frame; [|eassumption]; intros ? ?; rewrite ?lookup_insert_ne by set_solver; done.

Lemma rot_single s c d x kx hx y ky hy D z A :
  held s (plug c (nd x kx hx d (nd y ky hy d D z) A)) ->
  hgt z <= hgt D -> 0 <= hgt z <= 100 -> 0 <= hx <= 100 ->
  exists s', rot (cslot c) x d s = Ok (hgt z + 2 - hx, s') /\
    held s' (plug c (nd y ky (hgt z + 2) d D (nd x kx (hgt z + 1) d z A))) /\
    same_outside (addrs (plug c (nd x kx hx d (nd y ky hy d D z) A))) (nodes s) (nodes s').
Proof.
  intros Hh Hzd Hz Hx. pose proof Hh as (_ & Hr & Hn & H0).
  apply rep_plug in Hr as (_ & (Hlx & (Hly & HD & HrZ)%rep_nd & HA)%rep_nd).
  rewrite ptr_nd in Hlx. set (t' := nd y ky _ _ _ _).
  assert (addrs (plug c t') ≡ₚ addrs (plug c (nd x kx hx d (nd y ky hy d D z) A))) as Hperm.
  { subst t'. rewrite !addrs_plug, !addrs_nd. solve_Permutation. }
  pose proof Hn as Hn'. distinct Hn'.
  pose proof H0 as H0'. rewrite addrs_plug, !addrs_nd in H0'.
  assert (x <> y) by set_solver.
  unfold rot. access. access. access.
  erewrite sbind_Ok; [|apply height_spec; [done|set_solver]].
  access. erewrite sbind_Ok; [|apply height_spec; [done|set_solver]].
  destruct (Z.ltb_spec (hgt D) (hgt z)) as [?|_]; [lia|].
  rewrite !(s32_id (hgt z + _)) by (bounds; lia).
  access. access. access. access. cbn [root nodes].
  set (m' := <[y:=_]> _).
  destruct (write_plug s m' c _ t' Hh) as (s' & Hw & Hs' & Ho & Hi).
  - intros q Hq. subst m'. rewrite !lookup_insert_ne by set_solver. done.
  - subst t' m'. rewrite !rep_nd, ptr_nd.
    split_and!; [lookups|framed|lookups|framed|framed].
  - by rewrite Hperm.
  - by rewrite Hperm.
  - subst t'. rewrite ptr_nd in Hw. rewrite (sbind_Ok _ _ _ _ _ Hw).
    erewrite sbind_Ok; [|apply ld_ok; rewrite Hi by (rewrite addrs_nd; set_solver); subst m'; lookups].
    autorewrite with nodes. rewrite s32_id by (bounds; lia).
    eexists. split; [reflexivity|]. split; [done|].
    intros q Hq. rewrite addrs_plug, !addrs_nd in Hq.
    rewrite Ho by set_solver. subst m'. rewrite !lookup_insert_ne by set_solver. done.
Qed.

Lemma rot_double s c d x kx hx y ky hy D z kz hz C B A :
  held s (plug c (nd x kx hx d (nd y ky hy d D (nd z kz hz d C B)) A)) ->
  hgt D < hz -> 0 <= hz <= 100 -> 0 <= hx <= 100 ->
  exists s', rot (cslot c) x d s = Ok (hz + 1 - hx, s') /\
    held s' (plug c (nd z kz (hz + 1) d (nd y ky hz d D C) (nd x kx hz d B A))) /\
    same_outside (addrs (plug c (nd x kx hx d (nd y ky hy d D (nd z kz hz d C B)) A)))
      (nodes s) (nodes s').
Proof.
  intros Hh Hzd Hz Hx. pose proof Hh as (_ & Hr & Hn & H0).
  apply rep_plug in Hr as
    (_ & (Hlx & (Hly & HD & (Hlz & HC & HB)%rep_nd)%rep_nd & HA)%rep_nd).
  rewrite ptr_nd in Hlx, Hly. set (t' := nd z kz _ _ _ _).
  assert (addrs (plug c t')
    ≡ₚ addrs (plug c (nd x kx hx d (nd y ky hy d D (nd z kz hz d C B)) A))) as Hperm.
  { subst t'. rewrite !addrs_plug, !addrs_nd. solve_Permutation. }
  pose proof Hn as Hn'. distinct Hn'.
  pose proof H0 as H0'. rewrite addrs_plug, !addrs_nd in H0'.
  assert (x <> y) by set_solver. assert (x <> z) by set_solver. assert (y <> z) by set_solver.
  unfold rot. access. access. access.
  pose proof (height_spec s (nd z kz hz d C B)) as Hhz. rewrite ptr_nd, hgt_nd in Hhz.
  erewrite sbind_Ok; [|apply Hhz; [by apply rep_nd|rewrite addrs_nd; set_solver]].
  access. erewrite sbind_Ok; [|apply height_spec; [done|set_solver]].
  destruct (Z.ltb_spec (hgt D) hz) as [_|?]; [|lia].
  rewrite !(s32_id (hz + _)) by (bounds; lia).
  do 9 access. cbn [root nodes].
  set (m' := <[z:=_]> _).
  assert (forall q, q ∈ caddrs c ++ addrs D ++ addrs C ++ addrs B ++ addrs A ->
            m' !! q = nodes s !! q) as Hm.
  { intros q Hq. assert (q <> x /\ q <> y /\ q <> z) as (? & ? & ?) by set_solver.
    subst m'. by rewrite !lookup_insert_ne by congruence. }
  destruct (write_plug s m' c _ t' Hh) as (s' & Hw & Hs' & Ho & Hi).
  - intros q Hq. apply Hm. set_unfold; auto.
  - subst t'. rewrite !rep_nd, !ptr_nd.
    split_and!; first [subst m'; lookups
      |eapply rep_frame; [|eassumption]; intros ? ?; apply Hm; set_unfold; auto].
  - by rewrite Hperm.
  - by rewrite Hperm.
  - subst t'. rewrite ptr_nd in Hw. rewrite (sbind_Ok _ _ _ _ _ Hw).
    erewrite sbind_Ok; [|apply ld_ok; rewrite Hi by (rewrite addrs_nd; set_solver); subst m'; lookups].
    autorewrite with nodes. rewrite s32_id by (bounds; lia).
    eexists. split; [reflexivity|]. split; [done|].
    intros q Hq. rewrite addrs_plug, !addrs_nd in Hq.
    assert (q ∉ caddrs c /\ q <> x /\ q <> y /\ q <> z) as (? & ? & ? & ?) by set_solver.
    rewrite Ho by done. subst m'. by rewrite !lookup_insert_ne by congruence.
Qed.

Lemma rot_spec s c d x kx hx sub A :
  held s (plug c (nd x kx hx d sub A)) ->
  avl sub -> avl A -> hgt sub = hgt A + 2 -> hgt sub <= 100 -> 0 <= hx <= 100 ->
  exists s', rot (cslot c) x d s = Ok (hgt (rot_tree d (nd x kx hx d sub A)) - hx, s') /\
    held s' (plug c (rot_tree d (nd x kx hx d sub A))) /\
    same_outside (addrs (plug c (nd x kx hx d sub A))) (nodes s) (nodes s').
Proof.
  intros Hh Hs HA Hd Hb Hx. pose proof (avl_hgt _ HA).
  destruct sub as [|y ky hy yl yr]; [simpl in *; lia|].
  set (D := if d then yr else yl). set (z := if d then yl else yr).
  assert (Nd y ky hy yl yr = nd y ky hy d D z) as E by (subst D z; by destruct d).
  assert (rot_tree d (nd x kx hx d (Nd y ky hy yl yr) A) =
    if hgt D <? hgt z then
      match z with
      | Lf => nd x kx hx d (Nd y ky hy yl yr) A
      | Nd zp kz hz zl zr =>
          nd zp kz (hz + 1) d (nd y ky hz d D (if d then zr else zl))
            (nd x kx hz d (if d then zl else zr) A)
      end
    else nd y ky (hgt z + 2) d D (nd x kx (hgt z + 1) d z A)) as -> by (subst D z; by destruct d).
  assert (0 <= hgt D /\ 0 <= hgt z < hy) as [HhD Hhz].
  { subst D z. destruct Hs as (Hl & Hr & -> & _). apply avl_hgt in Hl, Hr. destruct d; lia. }
  rewrite E in *. rewrite hgt_nd in Hb. destruct (Z.ltb_spec (hgt D) (hgt z)) as [Hlt|Hge].
  - clearbody z. destruct z as [|zp kz hz zl zr]; [simpl in *; lia|].
    assert (Nd zp kz hz zl zr = nd zp kz hz d (if d then zr else zl) (if d then zl else zr))
      as Ez by (by destruct d).
    rewrite Ez in *. rewrite hgt_nd in *. apply rot_double; [done|lia..].
  - rewrite hgt_nd. apply rot_single; [done|lia..].
Qed.

(** [__tsearch_balance] on a link of the tree balances the subtree behind it,
    and returns the change of its height. *)
Lemma balance_spec s c p k h l r :
  held s (plug c (Nd p k h l r)) -> pre_avl (Nd p k h l r) ->
  hgt l <= 100 -> hgt r <= 100 -> 0 <= h <= 100 ->
  exists s', tsearch_balance (cslot c) s = Ok (hgt (bal (Nd p k h l r)) - h, s') /\
    held s' (plug c (bal (Nd p k h l r))) /\
    same_outside (addrs (plug c (Nd p k h l r))) (nodes s) (nodes s').
Proof.
  intros Hh (Hl & Hr & Hd) Hbl Hbr Hb. pose proof (avl_hgt _ Hl) as Hl0. pose proof (avl_hgt _ Hr) as Hr0.
  pose proof Hh as (Hroot & Hs & Hn & H0).
  apply rep_plug in Hs as (Hc & Hlp & Hsl & Hsr).
  rewrite addrs_plug, addrs_Nd in Hn, H0.
  unfold tsearch_balance. rewrite (sbind_Ok _ _ _ _ _ (read_plug _ _ _ Hh)). cbn [ptr].
  access. cbn [child a0 a1]. erewrite sbind_Ok; [|apply height_spec; [done|set_solver]].
  access. cbn [child a0 a1]. erewrite sbind_Ok; [|apply height_spec; [done|set_solver]].
  assert ((u32 (hgt l - hgt r + 1) <? 3) = (Z.abs (hgt l - hgt r) <=? 1)) as ->.
  { unfold u32. destruct (Z.leb_spec (Z.abs (hgt l - hgt r)) 1) as [Ha|Ha].
    - apply Z.ltb_lt. rewrite Z.mod_small by lia. lia.
    - apply Z.ltb_ge. destruct (Z.lt_ge_cases (hgt l - hgt r + 1) 0).
      + replace (_ mod _) with (hgt l - hgt r + 1 + 2 ^ 32); [lia|].
        apply Z.mod_unique with (-1); lia.
      + rewrite Z.mod_small by lia. lia. }
  unfold bal. destruct (Z.leb_spec (Z.abs (hgt l - hgt r)) 1) as [Ha|Ha].
  - access. rewrite !(s32_id (_ + 1)) by (bounds; lia).
    replace (if hgt l <? hgt r then hgt r + 1 else hgt l + 1) with (1 + Z.max (hgt l) (hgt r))
      by (case_cmp; lia).
    access. cbn [nh]. rewrite s32_id by (bounds; lia).
    eexists. split; [reflexivity|]. split.
    + split; [cbn [root]; by rewrite Hroot, !ptr_plug|]. split; [|by rewrite addrs_plug, addrs_Nd].
      apply NoDup_app in Hn as (_ & Hdis & (_ & Hdl & (Hp & _)%NoDup_cons)%NoDup_app).
      apply rep_plug. cbn [nodes ptr rep]. split.
      { eapply crep_frame; [|done]. intros q Hq. rewrite lookup_insert_ne by set_solver. done. }
      split; [by rewrite lookup_insert_eq|]. split; framed.
    + intros q Hq. rewrite addrs_plug, addrs_Nd in Hq. cbn [nodes].
      rewrite lookup_insert_ne by set_solver. done.
  - destruct (Z.ltb_spec (hgt l) (hgt r)).
    + apply (rot_spec s c true p k h r l); auto; lia.
    + apply (rot_spec s c false p k h l r); auto; lia.
Qed.
