(* ===== verification/TsearchSpec.v ===== *)
(** The search trees of musl, operation by operation: what [tsearch],
    [tdelete], [tfind], [twalk] and [tdestroy] do on a store that holds a
    balanced and ordered tree, and why the array of [MAXH] links is long
    enough for every tree that fits the address space. *)

From stdpp Require Import sorting.
From S2P Require Import Prelude Tsearch.

(** * The size of a balanced tree *)

(** The least number of nodes of a tree of height [n], and of height [n+1]. *)
Fixpoint minsz (n : nat) : Z * Z :=
  match n with
  | O => (0, 1)
  | S n' => let (a, b) := minsz n' in (b, 1 + a + b)
  end.

Lemma minsz_pair n : snd (minsz n) = fst (minsz (S n)).
Proof. simpl. by destruct (minsz n). Qed.

Lemma minsz_SS n : fst (minsz (S (S n))) = 1 + fst (minsz n) + fst (minsz (S n)).
Proof. simpl. by destruct (minsz n). Qed.

Lemma minsz_step n : 0 <= fst (minsz n) <= fst (minsz (S n)).
Proof.
  induction n as [|n IH]; [simpl; lia|]. rewrite minsz_SS. lia.
Qed.

Lemma minsz_mono n m : (n <= m)%nat -> fst (minsz n) <= fst (minsz m).
Proof.
  induction 1 as [|m _ IH]; [done|]. pose proof (minsz_step m). lia.
Qed.

Lemma flat_Nd_len p k h l r :
  zlen (flat (Nd p k h l r)) = 1 + zlen (flat l) + zlen (flat r).
Proof. simpl. autorewrite with lens. lia. Qed.

Lemma avl_size t : avl t -> fst (minsz (Z.to_nat (hgt t))) <= zlen (flat t).
Proof.
  induction t as [|p k h l IHl r IHr]; [done|]. intros (Hl & Hr & Hh & Hb).
  specialize (IHl Hl). specialize (IHr Hr). rewrite flat_Nd_len. simpl hgt.
  pose proof (avl_hgt _ Hl). pose proof (avl_hgt _ Hr).
  destruct (Z.to_nat h) as [|[|n]] eqn:En; [lia| |].
  { pose proof (zlen_nonneg (flat l)). pose proof (zlen_nonneg (flat r)). simpl. lia. }
  rewrite minsz_SS.
  assert (fst (minsz n) <= fst (minsz (Z.to_nat (hgt l))) /\
          fst (minsz n) <= fst (minsz (Z.to_nat (hgt r)))) as [? ?].
  { split; apply minsz_mono; lia. }
  assert (hgt l = Z.of_nat (S n) \/ hgt r = Z.of_nat (S n)) as [E|E] by lia;
    rewrite E, Nat2Z.id in *; lia.
Qed.

(** An address [malloc] can return for a node: not null, inside the memory of
    wasm32, and aligned for every type. *)
Definition valid_addr (p : Z) : Prop := 0 < p < 2 ^ 32 /\ p mod 16 = 0.

(** Distinct aligned addresses of a 4 GiB memory. *)
Lemma addrs_bound (l : list Z) : NoDup l -> Forall valid_addr l -> zlen l < 2 ^ 28.
Proof.
  intros Hn Hv. rewrite Forall_forall in Hv.
  assert (NoDup ((fun p => p / 16) <$> l)) as Hn'.
  { apply NoDup_fmap_2_strong; [|done]. intros x y Hx Hy E.
    apply Hv in Hx as [_ Hx], Hy as [_ Hy].
    rewrite (Z.div_mod x 16), (Z.div_mod y 16), Hx, Hy by lia. lia. }
  assert (((fun p => p / 16) <$> l) ⊆+ seqZ 1 (2 ^ 28 - 1)) as Hs%submseteq_length.
  { apply NoDup_submseteq; [done|]. intros x (p & -> & Hp)%list_elem_of_fmap.
    apply elem_of_seqZ. apply Hv in Hp as [Hp Hm].
    pose proof (Z.div_mod p 16 ltac:(lia)) as E. rewrite Hm in E. lia. }
  rewrite length_fmap, length_seqZ in Hs. unfold zlen. lia.
Qed.

(** The comment at [MAXH], for the address space of wasm32. *)
Lemma height_bound t : avl t -> NoDup (addrs t) -> Forall valid_addr (addrs t) -> hgt t <= 40.
Proof.
  intros Ha Hn Hv. pose proof (addrs_bound _ Hn Hv) as Hb.
  pose proof (avl_size t Ha) as Hs. unfold addrs, zlen in *. rewrite length_fmap in Hb.
  destruct (Z.le_gt_cases (hgt t) 40) as [|Hgt]; [done|].
  pose proof (minsz_mono 41 (Z.to_nat (hgt t)) ltac:(lia)) as Hm.
  assert (fst (minsz 41) = 433494436) as E by (vm_compute; reflexivity). lia.
Qed.

(** * Order *)

(** A comparison function as POSIX asks for it. *)
Class Comparator (cmp : Z -> Z -> Z) : Prop := {
  cmp_antisym x y : Z.sgn (cmp x y) = - Z.sgn (cmp y x);
  cmp_trans x y z : cmp x y < 0 -> cmp y z < 0 -> cmp x z < 0
}.

Section Order.
Context (cmp : Z -> Z -> Z) {Hcmp : Comparator cmp}.

Definition ordered (l : list (Z * Z)) : Prop :=
  StronglySorted (fun a b => cmp (snd a) (snd b) < 0) l.

Lemma cmp_flip x y : 0 < cmp x y -> cmp y x < 0.
Proof. intros H. pose proof (cmp_antisym x y). lia. Qed.

Lemma ordered_app l l' :
  ordered (l ++ l') <->
  ordered l /\ ordered l' /\ (forall a b, a ∈ l -> b ∈ l' -> cmp (snd a) (snd b) < 0).
Proof. unfold ordered. rewrite StronglySorted_app. naive_solver. Qed.

Lemma ordered_cons a l :
  ordered (a :: l) <-> ordered l /\ (forall b, b ∈ l -> cmp (snd a) (snd b) < 0).
Proof.
  unfold ordered. split.
  - intros H. inversion H; subst. rewrite Forall_forall in *. auto.
  - intros [? ?]. constructor; [done|]. by apply Forall_forall.
Qed.

(** The place where the descent for [k] ends. *)
Fixpoint path (k : Z) (t : tree) (c : ctx) : ctx * tree :=
  match t with
  | Lf => (c, Lf)
  | Nd p kp h l r =>
      if cmp k kp =? 0 then (c, t)
      else if 0 <? cmp k kp then path k r (F p kp h true l :: c)
      else path k l (F p kp h false r :: c)
  end.

(** The context separates the keys below [k] from those above it. *)
Definition splits (k : Z) (c : ctx) : Prop :=
  (forall a, a ∈ lflat c -> cmp (snd a) k < 0) /\ (forall a, a ∈ rflat c -> cmp k (snd a) < 0).

Lemma path_spec k t : forall c,
  ordered (flat (plug c t)) -> splits k c ->
  let (c', t') := path k t c in
  plug c' t' = plug c t /\ splits k c' /\
  (t' = Lf \/ exists p kp h l r, t' = Nd p kp h l r /\ cmp k kp = 0).
Proof.
  induction t as [|p kp h l IHl r IHr]; intros c Ho Hs; simpl; [eauto|].
  destruct (Z.eqb_spec (cmp k kp) 0) as [E|Ne]; [eauto 12|].
  pose proof Ho as Ho'. rewrite flat_plug in Ho'.
  apply ordered_app in Ho' as (_ & (Ht & _)%ordered_app & _). simpl in Ht.
  apply ordered_app in Ht as (_ & (_ & Hpr)%ordered_cons & Hlp).
  destruct (Z.ltb_spec 0 (cmp k kp)) as [Hgt|Hle]; [apply IHr; [done|]|apply IHl; [done|]];
    split; simpl; intros a; rewrite ?elem_of_app, ?elem_of_cons, ?elem_of_app, ?elem_of_nil; intros Ha;
    destruct_or? Ha; try done; subst; simpl.
  - by apply Hs.
  - apply cmp_trans with kp; [|by apply cmp_flip]. apply (Hlp a (p, kp)); set_solver.
  - by apply cmp_flip.
  - by apply Hs.
  - by apply Hs.
  - simpl; lia.
  - apply cmp_trans with kp; [lia|]. by apply Hpr.
  - by apply Hs.
Qed.

Lemma splits_absent k c : splits k c -> forall a, a ∈ lflat c ++ rflat c -> cmp k (snd a) <> 0.
Proof.
  intros [Hl Hr] a [Ha|Ha]%elem_of_app.
  - apply Hl in Ha. pose proof (cmp_antisym k (snd a)). lia.
  - apply Hr in Ha. lia.
Qed.

(** * The descent in the store *)

Lemma length_slots c : zlen (slots c) = 1 + zlen c.
Proof.
  induction c as [|f c IH]; [done|]. change (slots (f :: c)) with (cslot (f :: c) :: slots c).
  rewrite !zlen_cons, IH. lia.
Qed.

Lemma descend_spec k max rest s t : forall fuel c,
  held s (plug c t) -> avl t -> hgt t < Z.of_nat fuel ->
  zlen (slots c ++ rest) + hgt t <= max ->
  descend cmp fuel max k (ptr t) (slots c ++ rest) s =
  Ok (ptr (snd (path k t c)), slots (fst (path k t c)) ++ rest, s).
Proof.
  induction t as [|p kp h l IHl r IHr]; intros fuel c Hh Ha Hf Hm;
    (destruct fuel as [|fuel]; [apply avl_hgt in Ha; lia|]); [done|].
  pose proof Hh as (_ & Hr & _ & H0). apply rep_plug in Hr as (_ & Hlp & _).
  rewrite addrs_plug, addrs_Nd in H0. destruct Ha as (Hl & Har & Hhh & _).
  cbn [descend ptr path]. rewrite (proj2 (Z.eqb_neq p 0)) by set_solver.
  rewrite (sbind_Ok _ _ _ _ _ (ld_ok _ _ _ Hlp)). cbn [key].
  destruct (Z.eqb_spec (cmp k kp) 0); [done|].
  simpl hgt in *. pose proof (avl_hgt _ Hl). pose proof (avl_hgt _ Har).
  unfold push. rewrite (proj2 (Z.ltb_lt _ _)) by lia. rewrite (sbind_Ok _ _ s _ s eq_refl).
  destruct (0 <? cmp k kp); cbn [child a0 a1].
  - apply (IHr fuel (F p kp h true l :: c)); [done|done|lia|].
    change (slots (F p kp h true l :: c)) with (Link p true :: slots c).
    rewrite <- app_comm_cons, zlen_cons. lia.
  - apply (IHl fuel (F p kp h false r :: c)); [done|done|lia|].
    change (slots (F p kp h false r :: c)) with (Link p false :: slots c).
    rewrite <- app_comm_cons, zlen_cons. lia.
Qed.

Lemma plug_hgt c : forall t, avl (plug c t) -> hgt t + zlen c <= hgt (plug c t).
Proof.
  induction c as [|f c IH]; intros t Ha; [unfold zlen; simpl; lia|].
  rewrite zlen_cons. simpl in *. specialize (IH _ Ha).
  apply plug_avl_inv, avl_fill in Ha. rewrite hgt_fill in IH. lia.
Qed.

(** Walking back up the links and balancing. *)
Lemma rebalance_spec c : forall e s t0 t,
  0 <= e <= 1 -> held s (plug c t) -> avl (plug c t0) -> avl t ->
  hgt t0 - e <= hgt t <= hgt t0 + 1 - e -> hgt (plug c t0) <= 90 ->
  exists s', rebalance (tail (slots c)) s = Ok (tt, s') /\ held s' (up c t) /\
    same_outside (addrs (plug c t)) (nodes s) (nodes s').
Proof.
  induction c as [|f c IH]; intros e s t0 t He Hh H0 Ht Hr Hb; cbn [up].
  { exists s. split; [done|]. split; [done|]. by intros ? ?. }
  change (tail (slots (f :: c))) with (slots c).
  replace (slots c) with (cslot c :: tail (slots c)) by (by destruct c). cbn [rebalance].
  simpl plug in Hh, H0, Hb. pose proof (plug_hgt _ _ H0) as Hph. rewrite hgt_fill in Hph.
  pose proof (zlen_nonneg c). pose proof (plug_avl_inv _ _ H0) as Hf.
  destruct (bal_step e f t0 t) as (Hp & Ha & Hb'); auto.
  pose proof Hf as (Ht0 & Ho & Hfh & _)%avl_fill.
  pose proof (avl_hgt _ Ht0). pose proof (avl_hgt _ Ho). pose proof (avl_hgt _ Ht).
  destruct (fill f t) as [|p k h l r] eqn:Ef; [unfold fill, nd in Ef; by destruct (fd f)|].
  assert (h = fh f /\ hgt l <= 100 /\ hgt r <= 100) as (-> & Hbl & Hbr).
  { unfold fill, nd in Ef. destruct (fd f); injection Ef as <- <- <- <- <-; lia. }
  destruct (balance_spec s c p k (fh f) l r) as (s1 & Hs1 & Hh1 & Ho1); auto; [lia|].
  rewrite (sbind_Ok _ _ _ _ _ Hs1). cbn [plug]. rewrite Ef.
  unfold ctrue. destruct (Z.eqb_spec (hgt (bal (Nd p k (fh f) l r))) (fh f)) as [E|Ne].
  { rewrite E, Z.sub_diag. exists s1. done. }
  rewrite (proj2 (Z.eqb_neq _ 0)) by lia. cbn [negb].
  destruct (IH e s1 (fill f t0) (bal (Nd p k (fh f) l r))) as (s2 & Hs2 & Hh2 & Ho2);
    rewrite ?hgt_fill; auto.
  exists s2. split; [done|]. split; [done|].
  intros q Hq. rewrite Ho2, Ho1; [done|done|].
  unfold addrs in *. by rewrite flat_plug, bal_flat, <- flat_plug.
Qed.

(** * What the state promises *)

(** The store holds a balanced and ordered tree at addresses of [malloc]. *)
Record tree_ok (s : tstate) (t : tree) : Prop := {
  ok_held : held s t;
  ok_avl : avl t;
  ok_valid : Forall valid_addr (addrs t);
  ok_ordered : ordered (flat t)
}.

Lemma ok_height s t : tree_ok s t -> 0 <= hgt t <= 40.
Proof.
  intros [(_ & _ & Hn & _) Ha Hv _]. split; [by apply avl_hgt|]. by apply height_bound.
Qed.

(** The descent from the root of such a tree, with room for it in the array. *)
Lemma descend_root s t k max rest fuel :
  tree_ok s t -> zlen rest + 41 <= max -> (40 < fuel)%nat ->
  exists c t', descend cmp fuel max k (root s) (Root :: rest) s =
      Ok (ptr t', slots c ++ rest, s) /\
    t = plug c t' /\ splits k c /\
    (t' = Lf \/ exists p kp h l r, t' = Nd p kp h l r /\ cmp k kp = 0).
Proof.
  intros Hok Hm Hf. pose proof (ok_height _ _ Hok) as Hh. destruct Hok as [Hheld Ha _ Ho].
  pose proof (descend_spec k max rest s t fuel [] Hheld Ha ltac:(lia)) as Hd.
  pose proof (path_spec k t [] Ho) as Hp.
  destruct (path k t []) as [c t']. exists c, t'. simpl in Hd.
  destruct Hheld as [-> _]. rewrite Hd by (rewrite zlen_cons; lia).
  destruct Hp as (E & ? & ?); [split; intros ? ?%elem_of_nil; done|]. done.
Qed.

(** The new leaf at the end of the descent. *)
Lemma insert_spec s c m k :
  tree_ok s (plug c Lf) -> splits k c -> valid_addr m -> nodes s !! m = None ->
  exists s', (do* write (cslot c) m in rebalance (tail (slots c)))
      (TS (root s) (<[m := Node k 0 0 1]> (nodes s))) = Ok (tt, s') /\
    tree_ok s' (up c (Nd m k 1 Lf Lf)) /\
    same_outside (m :: addrs (plug c Lf)) (nodes s) (nodes s').
Proof.
  intros Hok [HL HR] Hv Hm. pose proof (ok_height _ _ Hok) as Hb.
  destruct Hok as [Hh Ha Hva Ho]. pose proof Hh as (_ & Hr & Hn & H0).
  set (t' := Nd m k 1 Lf Lf).
  assert (m ∉ addrs (plug c Lf)) as Hfr.
  { clear -Hr Hm. induction (plug c Lf) as [|p kp h l IHl r IHr]; [by intros ?%elem_of_nil|].
    destruct Hr as (Hp & Hl & Hr). rewrite addrs_Nd. set_solver by congruence. }
  assert (addrs (plug c t') ≡ₚ m :: addrs (plug c Lf)) as Hperm.
  { rewrite !addrs_plug. subst t'. rewrite addrs_Nd. solve_Permutation. }
  assert (NoDup (addrs (plug c t'))) as Hn' by (rewrite Hperm; by constructor).
  assert (0 ∉ addrs (plug c t')) as H0'.
  { rewrite Hperm. destruct Hv. apply not_elem_of_cons. split; [lia|done]. }
  destruct (write_plug s (<[m := Node k 0 0 1]> (nodes s)) c Lf t') as (s1 & Hw & Hh1 & Ho1 & _);
    [done| | |done|done|].
  { intros q Hq. rewrite lookup_insert_ne; [done|]. intros <-. apply Hfr.
    rewrite addrs_plug. set_solver. }
  { subst t'. simpl. by rewrite lookup_insert_eq. }
  destruct (rebalance_spec c 0 s1 Lf t') as (s2 & Hs2 & Hh2 & Ho2);
    [lia|done|done|by subst t'|simpl; lia|lia|].
  exists s2. rewrite (sbind_Ok _ _ _ _ _ Hw). split; [done|]. split.
  - assert (flat (up c t') = flat (plug c t')) as Ef by (by rewrite up_flat, flat_plug).
    split; [done| | |].
    + apply (up_avl c 0 Lf); [lia|done|by subst t'|simpl; lia].
    + unfold addrs. rewrite Ef. fold (addrs (plug c t')). rewrite Hperm. by constructor.
    + rewrite Ef, flat_plug. rewrite flat_plug in Ho. subst t'. simpl in *.
      apply ordered_app in Ho as (Hl & Hr' & Hlr).
      apply ordered_app. split; [done|]. split; [apply ordered_cons; auto|].
      intros a b Ha' [-> |Hb']%elem_of_cons; auto.
  - intros q Hq. apply not_elem_of_cons in Hq as [Hq1 Hq2].
    rewrite Ho2 by (rewrite Hperm; set_solver).
    rewrite Ho1 by (rewrite addrs_plug in Hq2; set_solver).
    by rewrite lookup_insert_ne.
Qed.

Lemma slots_cons c : slots c = cslot c :: tail (slots c).
Proof. by destruct c. Qed.

(** No key of the tree compares equal to [k]. *)
Definition absent (k : Z) (t : tree) : Prop := forall a, a ∈ flat t -> cmp k (snd a) <> 0.

(** C14: [tsearch] on a balanced ordered tree in the store returns the node
    whose key compares equal to the given one when there is one, and changes
    nothing; otherwise it returns null and changes nothing when the allocator
    fails, and else it inserts the new node at its place in the order, leaves
    the tree balanced and ordered and the rest of the store alone, and returns
    the new node.  In no case does the descent overrun the array of [MAXH]
    links. *)
Theorem tsearch_correct s t m k :
  tree_ok s t -> (m = 0 \/ valid_addr m /\ nodes s !! m = None) ->
  exists r s' t', tsearch cmp true m k s = Ok (r, s') /\ tree_ok s' t' /\
    ((exists kp, (r, kp) ∈ flat t /\ cmp k kp = 0 /\ s' = s /\ t' = t)
     \/ (absent k t /\ m = 0 /\ r = 0 /\ s' = s /\ t' = t)
     \/ (absent k t /\ m <> 0 /\ r = m /\ same_outside (m :: addrs t) (nodes s) (nodes s') /\
         exists L R, flat t = L ++ R /\ flat t' = L ++ (m, k) :: R)).
Proof.
  intros Hok Hm. unfold tsearch. cbn [negb].
  destruct (descend_root s t k MAXH [] (Z.to_nat MAXH + 1) Hok) as (c & t' & Hd & Ht & Hs & Hc);
    [by vm_compute|vm_compute; lia|].
  rewrite (sbind_Ok _ _ s (root s) s eq_refl). rewrite (sbind_Ok _ _ s [Root] s eq_refl).
  rewrite (sbind_Ok _ _ _ _ _ Hd). rewrite app_nil_r.
  destruct Hc as [-> |(p & kp & h & l & r & -> & E)]; cbn [ptr].
  - assert (absent k t) as Hab.
    { subst t. intros a. rewrite flat_plug. by apply splits_absent. }
    cbn [negb Z.eqb]. destruct (Z.eqb_spec m 0) as [-> |Hm0]; [by exists 0, s, t; auto 10|].
    destruct Hm as [?|[Hv Hfr]]; [done|]. subst t.
    destruct (insert_spec s c m k Hok Hs Hv Hfr) as (s' & Hrun & Hok' & Ho).
    exists m, s', (up c (Nd m k 1 Lf Lf)).
    rewrite (sbind_Ok _ _ _ tt (TS (root s) (<[m := Node k 0 0 1]> (nodes s))) eq_refl).
    rewrite slots_cons. split; [|split; [done|right; right]].
    + unfold sbind in Hrun |- *. cbn [obind] in *.
      destruct (write (cslot c) m _) as [[? ?]| | |]; cbn in *; try done. by rewrite Hrun.
    + split_and!; try done. exists (lflat c), (rflat c). by rewrite flat_plug, up_flat.
  - assert ((p, kp) ∈ flat t) as Hin by (subst t; rewrite flat_plug; set_solver).
    assert (p <> 0) as Hp.
    { destruct Hok as [(_ & _ & _ & H0) _ _ _]. intros ->. apply H0.
      unfold addrs. apply list_elem_of_fmap. by exists (0, kp). }
    rewrite (proj2 (Z.eqb_neq p 0)) by done. exists p, s, t. eauto 10.
Qed.

(** * Deletion *)

Lemma rebalance_above_spec a s : rebalance_above (a ++ [Root]) s = rebalance a s.
Proof.
  revert s. induction a as [|p a IH]; intros s; [done|].
  assert (rebalance_above ((p :: a) ++ [Root]) =
    let* d := tsearch_balance p in if ctrue d then rebalance_above (a ++ [Root]) else sret tt) as ->
    by (by destruct a).
  cbn [rebalance]. apply sbind_cong. intros d s'. by destruct (ctrue d).
Qed.

(** The path to the last node of a tree, below a context. *)
Fixpoint last_path (t : tree) (c : ctx) : ctx * tree :=
  match t with
  | Nd p k h l (Nd _ _ _ _ _ as r) => last_path r (F p k h true l :: c)
  | _ => (c, t)
  end.

Lemma last_path_spec t : t <> Lf -> forall c,
  exists c2 q kq hq ql, last_path t c = (c2 ++ c, Nd q kq hq ql Lf) /\
    t = plug c2 (Nd q kq hq ql Lf) /\ rflat c2 = [].
Proof.
  induction t as [|p k h l _ r IHr]; intros Hne c; [done|].
  destruct r as [|p' k' h' l' r']; simpl; [by exists [], p, k, h, l|].
  destruct (IHr ltac:(done) (F p k h true l :: c)) as (c2 & q & kq & hq & ql & E & Ep & Er).
  exists (c2 ++ [F p k h true l]), q, kq, hq, ql. rewrite <- app_assoc. split; [exact E|].
  clear -Ep Er. split.
  - transitivity (plug [F p k h true l] (plug c2 (Nd q kq hq ql Lf))); [by rewrite <- Ep|].
    clear. generalize (Nd q kq hq ql Lf). induction c2 as [|f c2 IH]; intros t; [done|]. apply IH.
  - clear -Er. induction c2 as [|f c2 IH]; [done|]. simpl in *.
    apply app_nil in Er as [-> Er]. by rewrite IH.
Qed.

Lemma rightmost_spec s t rest : forall fuel c,
  t <> Lf -> held s (plug c t) -> avl t -> hgt t <= Z.of_nat fuel ->
  zlen (slots c ++ rest) + hgt t <= MAXH + 2 ->
  rightmost fuel (ptr t) (slots c ++ rest) s =
  Ok (ptr (snd (last_path t c)), slots (fst (last_path t c)) ++ rest, s).
Proof.
  induction t as [|p k h l _ r IHr]; intros fuel c Hne Hh Ha Hf Hm; [done|].
  pose proof Ha as (Hl & Hr & Hhh & _). pose proof (avl_hgt _ Hl) as Hl0. pose proof (avl_hgt _ Hr) as Hr0.
  simpl hgt in Hf, Hm. destruct fuel as [|fuel]; [lia|].
  pose proof Hh as (_ & Hrp & _ & H0). apply rep_plug in Hrp as (_ & Hlp & _).
  rewrite addrs_plug, addrs_Nd in H0. cbn [rightmost ptr].
  rewrite (sbind_Ok _ _ _ _ _ (get_child_ok _ _ true _ Hlp)). cbn [child a1].
  destruct r as [|p' k' h' l' r']; [done|]. cbn [ptr].
  rewrite (proj2 (Z.eqb_neq p' 0)) by (rewrite addrs_Nd in H0; set_solver).
  pose proof Hr as (Hl' & _ & Hh' & _). apply avl_hgt in Hl'.
  unfold push. simpl hgt in *. rewrite (proj2 (Z.ltb_lt _ _)) by lia.
  rewrite (sbind_Ok _ _ s _ s eq_refl).
  apply (IHr fuel (F p k h true l :: c)); [done|done|done|simpl; lia|].
  change (slots (F p k h true l :: c)) with (Link p true :: slots c).
  rewrite <- app_comm_cons, zlen_cons. simpl. lia.
Qed.

(** Unlinking a node that has no right child or no left child: its subtree is
    replaced by its only child. *)
Lemma unlink_spec s c q kq hq ql qr :
  held s (plug c (Nd q kq hq ql qr)) -> avl (plug c (Nd q kq hq ql qr)) ->
  hgt (plug c (Nd q kq hq ql qr)) <= 90 -> (ql = Lf \/ qr = Lf) ->
  let u := match ql with Lf => qr | Nd _ _ _ _ _ => ql end in
  exists s', (do* free q in do* write (cslot c) (ptr u) in rebalance (tail (slots c))) s
      = Ok (tt, s') /\
    held s' (up c u) /\ avl (up c u) /\ nodes s' !! q = None /\
    same_outside (addrs (plug c (Nd q kq hq ql qr))) (nodes s) (nodes s').
Proof.
  intros Hh Ha Hb Hq u. pose proof Hh as (_ & Hr & Hn & H0).
  apply rep_plug in Hr as (_ & Hlq & Hql & Hqr).
  assert (addrs (plug c (Nd q kq hq ql qr)) ≡ₚ q :: addrs (plug c u)) as Hperm.
  { rewrite !addrs_plug, addrs_Nd. subst u. destruct Hq as [-> | ->]; [|destruct ql];
      solve_Permutation. }
  rewrite Hperm in Hn, H0. apply NoDup_cons in Hn as [Hqn Hn]. apply not_elem_of_cons in H0 as [_ H0].
  assert (rep (nodes s) u) as Hru by (subst u; by destruct ql).
  assert (q ∉ addrs u /\ q ∉ caddrs c) as [Hqu Hqc] by (rewrite addrs_plug in Hqn; set_solver).
  destruct (write_plug s (delete q (nodes s)) c (Nd q kq hq ql qr) u)
    as (s1 & Hw & Hh1 & Ho1 & Hi1); [done| | |done|done|].
  { intros p Hp. rewrite lookup_delete_ne; [done|]. by intros ->. }
  { eapply rep_frame; [|done]. intros p Hp. rewrite lookup_delete_ne; [done|]. by intros ->. }
  pose proof (plug_avl_inv _ _ Ha) as (Hal & Har & Hhq & Hbal).
  assert (avl u /\ hgt u = hq - 1) as [Hu Hhu].
  { pose proof (avl_hgt _ Hal). pose proof (avl_hgt _ Har).
    subst u. destruct Hq as [-> | ->]; [|destruct ql]; simpl in *; split; auto; lia. }
  destruct (rebalance_spec c 1 s1 (Nd q kq hq ql qr) u) as (s2 & Hs2 & Hh2 & Ho2);
    [lia|done|done|done|simpl; lia|done|].
  exists s2. split_and!.
  - erewrite sbind_Ok; [|unfold free; rewrite Hlq; reflexivity].
    by rewrite (sbind_Ok _ _ _ _ _ Hw).
  - done.
  - apply (up_avl c 1 (Nd q kq hq ql qr)); [lia|done|done|simpl; lia].
  - rewrite Ho2 by done. rewrite Ho1 by done. by rewrite lookup_delete_eq.
  - intros p Hp. rewrite Hperm in Hp. apply not_elem_of_cons in Hp as [Hpq Hp].
    rewrite Ho2 by done. rewrite Ho1 by (rewrite addrs_plug in Hp; set_solver).
    by rewrite lookup_delete_ne.
Qed.

(** Replacing the key of a node. *)
Lemma upd_key s c p k h l r v :
  held s (plug c (Nd p k h l r)) ->
  exists s', upd p (with_key v) s = Ok (tt, s') /\ held s' (plug c (Nd p v h l r)) /\
    same_outside (addrs (plug c (Nd p k h l r))) (nodes s) (nodes s').
Proof.
  intros (Hroot & Hr & Hn & H0). apply rep_plug in Hr as (Hc & Hp & Hl & Hr).
  eexists. split; [by apply upd_ok|]. unfold held. rewrite ptr_plug in Hroot |- *.
  rewrite addrs_plug, addrs_Nd in Hn, H0. cbn [root nodes].
  split; [split_and!|]; [done| |by rewrite addrs_plug, addrs_Nd..|].
  - apply NoDup_app in Hn as (_ & Hdis & (_ & Hdl & (Hpr & _)%NoDup_cons)%NoDup_app).
    apply rep_plug. cbn [rep]. split_and!; [|by rewrite lookup_insert_eq|framed|framed].
    eapply crep_frame; [|done]. intros q Hq. rewrite lookup_insert_ne by set_solver. done.
  - intros q Hq. rewrite addrs_plug, addrs_Nd in Hq. rewrite lookup_insert_ne by set_solver. done.
Qed.

(** The end of [tdelete], in terms of [rebalance]. *)
Lemma unlink_run c q u (parent : Z) s s' :
  (do* free q in do* write (cslot c) u in rebalance (tail (slots c))) s = Ok (tt, s') ->
  (do* free q in
   match slots c ++ [Root] with
   | p :: a' => do* write p u in do* rebalance_above a' in sret parent
   | [] => sfail
   end) s = Ok (parent, s').
Proof.
  intros Hrun. rewrite slots_cons. cbn [app]. revert Hrun. unfold sbind.
  destruct (free q s) as [[[] s1]| | |]; cbn [obind fst snd]; [|done..].
  destruct (write (cslot c) u s1) as [[[] s2]| | |]; cbn [obind fst snd]; [|done..].
  rewrite rebalance_above_spec. by intros ->.
Qed.

Lemma ordered_keys l : ordered l <-> StronglySorted (fun a b => cmp a b < 0) l.*2.
Proof.
  induction l as [|a l IH]; [split; constructor|]. rewrite ordered_cons, IH. simpl. split.
  - intros [? H]. constructor; [done|]. rewrite Forall_fmap, Forall_forall. auto.
  - intros H. inversion H as [|? ? ? Hf]; subst. rewrite Forall_fmap, Forall_forall in Hf. auto.
Qed.

(** Taking one key out of a tree keeps it a tree. *)
Lemma tree_ok_remove s s' t t' L kd R fr :
  tree_ok s t -> held s' t' -> avl t' -> addrs t ≡ₚ fr :: addrs t' ->
  keys t = L ++ kd :: R -> keys t' = L ++ R -> tree_ok s' t'.
Proof.
  intros [_ _ Hv Ho] Hh Ha Hp Hk Hk'. split; [done|done| |].
  - rewrite Hp in Hv. by apply Forall_cons in Hv as [_ Hv].
  - rewrite ordered_keys in *. fold (keys t') (keys t) in *. rewrite Hk in Ho. rewrite Hk'.
    apply StronglySorted_app in Ho as (H1 & H2 & H3). inversion H3; subst.
    apply StronglySorted_app. split_and!; [|done|done].
    intros x y Hx Hy. apply H1; [done|]. by apply list_elem_of_further.
Qed.

Definition parent_of (c : ctx) (q : Z) : Z := match c with [] => q | f :: _ => fp f end.

Lemma read_parent s c t :
  held s (plug c t) ->
  exists up rest, slots c ++ [Root] = cslot c :: up :: rest /\
    read up s = Ok (parent_of c (ptr t), s).
Proof.
  intros Hh. destruct c as [|f c].
  - exists Root, []. split; [done|]. by apply (read_plug s []).
  - exists (cslot c), (tail (slots c) ++ [Root]). split.
    + change (slots (f :: c)) with (cslot (f :: c) :: slots c). by rewrite (slots_cons c) at 1.
    + rewrite (read_plug s c (fill f t) Hh). unfold fill, nd. by destruct (fd f).
Qed.

Lemma plug_app c2 : forall c t, plug (c2 ++ c) t = plug c (plug c2 t).
Proof. induction c2 as [|f c2 IH]; intros c t; [done|]. apply IH. Qed.

(** What [tdelete] leaves behind, for the tree [t] with the node of key [kd]. *)
Definition deleted (s : tstate) (t : tree) (kd : Z) (s' : tstate) (t' : tree) : Prop :=
  exists L R fr, keys t = L ++ kd :: R /\ keys t' = L ++ R /\
    addrs t ≡ₚ fr :: addrs t' /\ nodes s' !! fr = None /\
    same_outside (addrs t) (nodes s) (nodes s').

(** The node has no left child. *)
Lemma delete_here s c p kp h r :
  tree_ok s (plug c (Nd p kp h Lf r)) ->
  exists s', (do* free p in do* write (cslot c) (ptr r) in rebalance (tail (slots c))) s = Ok (tt, s') /\
    tree_ok s' (up c r) /\ deleted s (plug c (Nd p kp h Lf r)) kp s' (up c r).
Proof.
  intros Hok. pose proof (ok_height _ _ Hok) as Hb. pose proof Hok as [Hh Ha _ _].
  destruct (unlink_spec s c p kp h Lf r Hh Ha ltac:(lia) ltac:(auto)) as (s' & Hrun & Hh' & Ha' & Hfr & Ho).
  exists s'. split; [done|].
  assert (keys (plug c (Nd p kp h Lf r)) = (lflat c).*2 ++ kp :: (flat r).*2 ++ (rflat c).*2) as Ek.
  { unfold keys. rewrite flat_plug. simpl. by rewrite !fmap_app, fmap_cons, fmap_app. }
  assert (keys (up c r) = (lflat c).*2 ++ (flat r).*2 ++ (rflat c).*2) as Ek'.
  { unfold keys. by rewrite up_flat, !fmap_app. }
  assert (addrs (plug c (Nd p kp h Lf r)) ≡ₚ p :: addrs (up c r)) as Ep.
  { unfold addrs. rewrite flat_plug, up_flat. simpl. rewrite !fmap_app. simpl.
    rewrite !fmap_app. solve_Permutation. }
  split; [by eapply tree_ok_remove|]. by eexists _, _, _.
Qed.

Lemma slots_rekey c2 p k k' h d o c :
  slots (c2 ++ F p k h d o :: c) = slots (c2 ++ F p k' h d o :: c).
Proof.
  induction c2 as [|f c2 IH]; [done|]. change (slots ((f :: c2) ++ F p k h d o :: c))
    with (cslot (f :: c2) :: slots (c2 ++ F p k h d o :: c)). by rewrite IH.
Qed.

Lemma lflat_app c2 c : lflat (c2 ++ c) = lflat c ++ lflat c2.
Proof. induction c2 as [|f c2 IH]; simpl; [by rewrite app_nil_r|]. by rewrite IH, app_assoc. Qed.
Lemma rflat_app c2 c : rflat (c2 ++ c) = rflat c2 ++ rflat c.
Proof. induction c2 as [|f c2 IH]; simpl; [done|]. by rewrite IH, app_assoc. Qed.

(** The node has a left child: the last node of the left subtree gives its
    key to it and is unlinked. *)
Lemma delete_pred s c p kp h l r :
  tree_ok s (plug c (Nd p kp h l r)) -> l <> Lf ->
  exists c2 q kq hq ql s1 s',
    last_path l (F p kp h false r :: c) = (c2 ++ F p kp h false r :: c, Nd q kq hq ql Lf) /\
    nodes s !! q = Some (Node kq (ptr ql) 0 hq) /\
    upd p (with_key kq) s = Ok (tt, s1) /\ nodes s1 !! q = Some (Node kq (ptr ql) 0 hq) /\
    (let c' := c2 ++ F p kq h false r :: c in
     (do* free q in do* write (cslot c') (ptr ql) in rebalance (tail (slots c'))) s1 = Ok (tt, s') /\
     tree_ok s' (up c' ql) /\ deleted s (plug c (Nd p kp h l r)) kp s' (up c' ql) /\
     (forall x, x ∈ caddrs c -> x ∈ addrs (up c' ql))).
Proof.
  intros Hok Hne. pose proof (ok_height _ _ Hok) as Hb. pose proof Hok as [Hh Ha _ _].
  destruct (last_path_spec l Hne (F p kp h false r :: c)) as (c2 & q & kq & hq & ql & El & Epl & Er).
  destruct (upd_key s c p kp h l r kq Hh) as (s1 & Hu & Hh1 & Ho1).
  set (c' := c2 ++ F p kq h false r :: c).
  assert (plug c (Nd p kq h l r) = plug c' (Nd q kq hq ql Lf)) as Ep1.
  { subst c'. rewrite plug_app, <- Epl. done. }
  assert (avl (plug c (Nd p kq h l r)) /\ hgt (plug c (Nd p kq h l r)) <= 90) as [Ha1 Hb1].
  { assert (avl (plug c (Nd p kq h l r))) as Ha1.
    { eapply plug_avl; [exact Ha| |done]. apply plug_avl_inv in Ha. done. }
    split; [done|]. destruct Hh1 as (_ & _ & Hn & _).
    assert (addrs (plug c (Nd p kq h l r)) = addrs (plug c (Nd p kp h l r))) as Eadd.
    { unfold addrs. rewrite !flat_plug. simpl. by rewrite !fmap_app. }
    rewrite (height_bound _ Ha1 Hn); [lia|]. rewrite Eadd. apply Hok. }
  rewrite Ep1 in Ha1, Hb1, Hh1.
  destruct (unlink_spec s1 c' q kq hq ql Lf Hh1 Ha1 Hb1 ltac:(auto)) as (s' & Hrun & Hh' & Ha' & Hfr & Ho').
  replace (match ql with Lf => Lf | Nd _ _ _ _ _ => ql end) with ql in * by (by destruct ql).
  assert (forall m, rep m (plug c (Nd p kp h l r)) -> m !! q = Some (Node kq (ptr ql) 0 hq)) as Hq.
  { intros m (_ & _ & Hm & _)%rep_plug. rewrite Epl in Hm. by apply rep_plug in Hm as (_ & Hq & _). }
  exists c2, q, kq, hq, ql, s1, s'. split; [done|]. split; [apply Hq, Hh|]. split; [done|].
  split; [destruct Hh1 as (_ & (_ & Hq1 & _)%rep_plug & _); exact Hq1|]. split; [done|].
  assert (flat (up c' ql) = lflat c ++ lflat c2 ++ flat ql ++ (p, kq) :: flat r ++ rflat c) as Ef'.
  { rewrite up_flat. subst c'. rewrite lflat_app, rflat_app, Er. simpl.
    by rewrite !app_nil_r, <- !app_assoc. }
  assert (flat (plug c (Nd p kp h l r)) =
    lflat c ++ lflat c2 ++ flat ql ++ (q, kq) :: (p, kp) :: flat r ++ rflat c) as Ef.
  { rewrite flat_plug. simpl. rewrite Epl, flat_plug, Er, app_nil_r. simpl.
    by rewrite <- !app_assoc. }
  assert (keys (plug c (Nd p kp h l r)) =
    ((lflat c).*2 ++ (lflat c2).*2 ++ (flat ql).*2 ++ [kq]) ++ kp :: (flat r).*2 ++ (rflat c).*2) as Ek.
  { unfold keys. rewrite Ef, !fmap_app. simpl. by rewrite fmap_app, <- !app_assoc. }
  assert (keys (up c' ql) =
    ((lflat c).*2 ++ (lflat c2).*2 ++ (flat ql).*2 ++ [kq]) ++ (flat r).*2 ++ (rflat c).*2) as Ek'.
  { unfold keys. rewrite Ef', !fmap_app. simpl. by rewrite fmap_app, <- !app_assoc. }
  assert (addrs (plug c (Nd p kp h l r)) ≡ₚ q :: addrs (up c' ql)) as Ead.
  { unfold addrs. rewrite Ef, Ef', !fmap_app. simpl. solve_Permutation. }
  split; [by eapply tree_ok_remove|]. split.
  - eexists _, _, q. split_and!; try done. intros x Hx.
    rewrite Ho', Ho1; [done|done|]. rewrite <- Ep1. unfold addrs in *.
    rewrite flat_plug in Hx |- *. simpl in *. by rewrite !fmap_app in *.
  - intros x Hx. assert (x ∈ addrs (plug c' ql)) as Hx'.
    { rewrite addrs_plug. subst c'. clear -Hx. apply elem_of_app. left.
      induction c2; simpl; set_solver. }
    unfold addrs in *. by rewrite up_flat, <- flat_plug.
Qed.

(** The body of [tdelete] once the node has been found. *)
Definition tdelete_at (n parent : Z) (a : list slot) : M tstate Z :=
  let* n0 := get_child n false in
  let* r :=
    if negb (n0 =? 0) then
      let* a := push (MAXH + 1) a (Link n false) in
      let* r := rightmost (Z.to_nat MAXH + 2) n0 a in
      let (n', a) := r in
      let* x := ld n' in
      do* upd n (with_key (key x)) in
      let* c := get_child n' false in
      sret (n', a, c)
    else
      let* c := get_child n true in
      sret (n, a, c) in
  let '(n, a, c) := r in
  do* free n in
  match a with
  | p :: a' => do* write p c in do* rebalance_above a' in sret parent
  | [] => sfail
  end.

Lemma tdelete_at_spec s c p kp h l r parent :
  tree_ok s (plug c (Nd p kp h l r)) ->
  exists s' t', tdelete_at p parent (slots c ++ [Root]) s = Ok (parent, s') /\
    tree_ok s' t' /\ deleted s (plug c (Nd p kp h l r)) kp s' t' /\
    (forall x, x ∈ caddrs c -> x ∈ addrs t').
Proof.
  intros Hok. pose proof (ok_height _ _ Hok) as Hb. pose proof Hok as [Hh Ha _ _].
  pose proof (plug_hgt _ _ Ha) as Hph. simpl in Hph.
  pose proof (avl_hgt _ (plug_avl_inv _ _ Ha)) as Hh0. simpl in Hh0. pose proof (zlen_nonneg c) as Hc0.
  pose proof (plug_avl_inv _ _ Ha) as (Hal & _ & Hhh & _).
  pose proof Hh as (_ & (_ & Hlp & _)%rep_plug & _ & H0). rewrite addrs_plug, addrs_Nd in H0.
  unfold tdelete_at. rewrite (sbind_Ok _ _ _ _ _ (get_child_ok _ _ false _ Hlp)). cbn [child a0].
  destruct l as [|p' k' h' l' r'] eqn:El.
  - cbn [ptr Z.eqb negb]. destruct (delete_here s c p kp h r Hok) as (s' & Hrun & Hok' & Hdel).
    exists s', (up c r). split; [|split; [done|split; [done|]]].
    + erewrite sbind_Ok; [|rewrite (sbind_Ok _ _ _ _ _ (get_child_ok _ _ true _ Hlp)); reflexivity].
      cbn [child a1]. by apply unlink_run.
    + intros x Hx. unfold addrs. rewrite up_flat, <- flat_plug. fold (addrs (plug c r)).
      rewrite addrs_plug. set_solver.
  - cbn [ptr]. rewrite (proj2 (Z.eqb_neq p' 0)) by (rewrite addrs_Nd in H0; set_solver). cbn [negb].
    rewrite <- El in *.
    destruct (delete_pred s c p kp h l r Hok) as
      (c2 & q & kq & hq & ql & s1 & s' & Elp & Hq & Hu & Hq1 & Hrun & Hok' & Hdel & Hc);
      [by rewrite El|].
    eexists s', _. split; [|split; [exact Hok'|split; [done|done]]].
    assert (zlen (slots c ++ [Root]) = 2 + zlen c) as Hz.
    { rewrite zlen_app, length_slots. unfold zlen. simpl. lia. }
    pose proof (rightmost_spec s l [Root] (Z.to_nat MAXH + 2) (F p kp h false r :: c)) as Hrm.
    rewrite Elp in Hrm. cbn [fst snd ptr] in Hrm.
    replace (ptr l) with p' in Hrm by (by rewrite El).
    change (slots (F p kp h false r :: c)) with (Link p false :: slots c) in Hrm.
    rewrite <- app_comm_cons, zlen_cons, Hz in Hrm.
    erewrite sbind_Ok.
    2:{ unfold push. rewrite Hz. rewrite (proj2 (Z.ltb_lt _ _)) by (change MAXH with 48; lia).
        rewrite (sbind_Ok _ _ s _ s eq_refl).
        rewrite (sbind_Ok _ _ _ _ _ (Hrm ltac:(by rewrite El) Hh Hal
          ltac:(change MAXH with 48; lia) ltac:(change MAXH with 48; lia))).
        rewrite (sbind_Ok _ _ _ _ _ (ld_ok _ _ _ Hq)). cbn [key].
        rewrite (sbind_Ok _ _ _ _ _ Hu).
        rewrite (sbind_Ok _ _ _ _ _ (get_child_ok _ _ false _ Hq1)). reflexivity. }
    cbn [child a0]. rewrite (slots_rekey c2 p kp kq). by apply unlink_run.
Qed.

Lemma tdelete_unfold s k n a :
  descend cmp (Z.to_nat MAXH + 2) (MAXH + 1) k (root s) [Root; Root] s = Ok (n, a, s) ->
  tdelete cmp true k s =
    if n =? 0 then Ok (0, s)
    else match a with
         | _ :: up :: _ => (let* parent := read up in tdelete_at n parent a) s
         | _ => UB
         end.
Proof.
  intros Hd. unfold tdelete. cbn [negb]. rewrite (sbind_Ok _ _ s (root s) s eq_refl).
  rewrite (sbind_Ok _ _ s [Root] s eq_refl). rewrite (sbind_Ok _ _ s [Root; Root] s eq_refl).
  rewrite (sbind_Ok _ _ _ _ _ Hd). case_match; [done|]. by destruct a as [|? [|? ?]].
Qed.

(** C15: [tdelete] on a balanced ordered tree returns null and changes nothing
    when no key compares equal to the given one; otherwise it takes exactly
    that key out of the order, frees exactly one node, leaves the tree
    balanced and ordered and the rest of the store alone, and returns a
    non-null pointer: the root when the root was deleted, and else a node that
    is still in the tree.  The descent and the search for the predecessor stay
    within the array of [MAXH+1] links. *)
Theorem tdelete_correct s t k :
  tree_ok s t ->
  exists r s' t', tdelete cmp true k s = Ok (r, s') /\ tree_ok s' t' /\
    ((absent k t /\ r = 0 /\ s' = s /\ t' = t)
     \/ (r <> 0 /\ (r = root s \/ r ∈ addrs t') /\
         exists kd, cmp k kd = 0 /\ deleted s t kd s' t')).
Proof.
  intros Hok.
  destruct (descend_root s t k (MAXH + 1) [Root] (Z.to_nat MAXH + 2) Hok)
    as (c & t' & Hd & Ht & Hs & Hc); [by vm_compute|vm_compute; lia|].
  rewrite (tdelete_unfold _ _ _ _ Hd).
  destruct Hc as [-> |(p & kp & h & l & r & -> & E)]; cbn [ptr].
  - exists 0, s, t. split; [done|]. split; [done|]. left. split; [|done].
    subst t. intros a. rewrite flat_plug. by apply splits_absent.
  - subst t. pose proof Hok as [Hh _ _ _]. pose proof Hh as (Hroot & _ & _ & H0).
    rewrite addrs_plug, addrs_Nd in H0.
    rewrite (proj2 (Z.eqb_neq p 0)) by set_solver.
    destruct (read_parent s c _ Hh) as (up & rest & Esl & Hup). rewrite Esl.
    rewrite (sbind_Ok _ _ _ _ _ Hup), <- Esl. cbn [ptr].
    destruct (tdelete_at_spec s c p kp h l r (parent_of c p) Hok) as (s' & t' & Hrun & Hok' & Hdel & Hc).
    exists (parent_of c p), s', t'. split; [done|]. split; [done|]. right.
    destruct c as [|f c]; cbn [parent_of caddrs] in *.
    + split; [set_solver|]. split; [by left|]. by exists kp.
    + split; [set_solver|]. split; [right; apply Hc; set_solver|]. by exists kp.
Qed.

(** * Lookup *)

Lemma tfind_loop_spec k s t : forall fuel c,
  held s (plug c t) -> avl t -> hgt t < Z.of_nat fuel ->
  tfind_loop cmp fuel k (ptr t) s = Ok (ptr (snd (path k t c)), s).
Proof.
  induction t as [|p kp h l IHl r IHr]; intros fuel c Hh Ha Hf;
    (destruct fuel as [|fuel]; [apply avl_hgt in Ha; lia|]); [done|].
  pose proof Hh as (_ & (_ & Hlp & _)%rep_plug & _ & H0).
  rewrite addrs_plug, addrs_Nd in H0. destruct Ha as (Hl & Har & Hhh & _).
  cbn [tfind_loop ptr path]. rewrite (proj2 (Z.eqb_neq p 0)) by set_solver.
  rewrite (sbind_Ok _ _ _ _ _ (ld_ok _ _ _ Hlp)). cbn [key].
  destruct (Z.eqb_spec (cmp k kp) 0); [done|]. simpl hgt in *.
  destruct (0 <? cmp k kp); cbn [child a0 a1];
    [apply (IHr fuel (F p kp h true l :: c))|apply (IHl fuel (F p kp h false r :: c))];
    first [done|lia].
Qed.

End Order.

(** * Traversals *)

Fixpoint pre_addrs (t : tree) : list Z :=
  match t with Lf => [] | Nd p _ _ l r => p :: pre_addrs l ++ pre_addrs r end.
Fixpoint post_addrs (t : tree) : list Z :=
  match t with Lf => [] | Nd p _ _ l r => post_addrs l ++ post_addrs r ++ [p] end.
Fixpoint post_keys (t : tree) : list Z :=
  match t with Lf => [] | Nd _ k _ l r => post_keys l ++ post_keys r ++ [k] end.

#[export] Instance visit_eq_dec : EqDecision visit.
Proof. solve_decision. Defined.

(** The nodes of the calls of one kind, a leaf counting as every kind. *)
Definition visited (v : visit) (l : list action_call) : list Z :=
  call_node <$> filter (fun c => call_visit c = v \/ call_visit c = leaf) l.

Lemma visited_app v l l' : visited v (l ++ l') = visited v l ++ visited v l'.
Proof. unfold visited. by rewrite filter_app, fmap_app. Qed.

Lemma visited_one v w p d :
  w <> leaf -> visited v [Call p w d] = if decide (w = v) then [p] else [].
Proof. intros Hw. unfold visited. by destruct v, w. Qed.

Lemma avl_leaf h p k l r : avl (Nd p k h l r) -> h = 1 -> l = Lf /\ r = Lf.
Proof.
  intros (Hl & Hr & -> & _) E. pose proof (avl_hgt _ Hl). pose proof (avl_hgt _ Hr).
  assert (forall t, avl t -> hgt t = 0 -> t = Lf) as Hz.
  { intros [|p' k' h' l' r'] Ht; [done|]. destruct Ht as (Hl' & _ & -> & _).
    apply avl_hgt in Hl'. simpl. lia. }
  split; apply Hz; auto; lia.
Qed.

Lemma walk_spec s t : forall fuel d,
  rep (nodes s) t -> 0 ∉ addrs t -> avl t -> hgt t < Z.of_nat fuel -> 0 <= d -> d + hgt t <= 100 ->
  exists cs, walk fuel (ptr t) d s = Ok (cs, s) /\
    visited preorder cs = pre_addrs t /\ visited postorder cs = addrs t /\
    visited endorder cs = post_addrs t /\
    Forall (fun c => d <= call_depth c < d + hgt t) cs.
Proof.
  induction t as [|p k h l IHl r IHr]; intros fuel d Hr H0 Ha Hf Hd Hb;
    (destruct fuel as [|fuel]; [apply avl_hgt in Ha; lia|]); [by exists []|].
  rewrite addrs_Nd in H0 |- *. destruct Hr as (Hp & Hl & Hr).
  cbn [walk ptr]. rewrite (proj2 (Z.eqb_neq p 0)) by set_solver.
  rewrite (sbind_Ok _ _ _ _ _ (ld_ok _ _ _ Hp)). cbn [nh].
  destruct (Z.eqb_spec h 1) as [Eh|Nh].
  { destruct (avl_leaf h p k l r Ha Eh) as [-> ->]. exists [Call p leaf d].
    split_and!; try done. constructor; [simpl; lia|done]. }
  destruct Ha as (Hal & Har & Hh & _). simpl hgt in *.
  pose proof (avl_hgt _ Hal). pose proof (avl_hgt _ Har).
  rewrite s32_id by (bounds; lia).
  rewrite (sbind_Ok _ _ _ _ _ (get_child_ok _ _ false _ Hp)). cbn [child a0].
  destruct (IHl fuel (d + 1)) as (cl & Hcl & Hl1 & Hl2 & Hl3 & Hl4); [done|set_solver|done|lia..|].
  rewrite (sbind_Ok _ _ _ _ _ Hcl).
  rewrite (sbind_Ok _ _ _ _ _ (get_child_ok _ _ true _ Hp)). cbn [child a1].
  destruct (IHr fuel (d + 1)) as (cr & Hcr & Hr1 & Hr2 & Hr3 & Hr4); [done|set_solver|done|lia..|].
  rewrite (sbind_Ok _ _ _ _ _ Hcr). eexists. split; [reflexivity|].
  rewrite !visited_app, Hl1, Hl2, Hl3, Hr1, Hr2, Hr3.
  rewrite !visited_one by done. split_and!; [simpl; by rewrite ?app_nil_r..|].
  repeat (apply Forall_app; split); repeat constructor; simpl; try lia;
    (eapply Forall_impl; [eassumption|]); simpl; lia.
Qed.

Lemma tdestroy_spec fk t : forall fuel s,
  rep (nodes s) t -> 0 ∉ addrs t -> NoDup (addrs t) -> avl t -> hgt t < Z.of_nat fuel ->
  exists ks s', tdestroy fuel fk (ptr t) s = Ok (ks, s') /\
    ks = (if fk then post_keys t else []) /\
    (forall q, q ∈ addrs t -> nodes s' !! q = None) /\
    same_outside (addrs t) (nodes s) (nodes s').
Proof.
  induction t as [|p k h l IHl r IHr]; intros fuel s Hr H0 Hn Ha Hf;
    (destruct fuel as [|fuel]; [apply avl_hgt in Ha; lia|]).
  { exists [], s. split_and!; [done|by destruct fk|by intros q ?%elem_of_nil|by intros q _]. }
  rewrite addrs_Nd in H0, Hn |- *. destruct Hr as (Hp & Hl & Hr).
  destruct Ha as (Hal & Har & Hh & _). simpl hgt in *.
  apply NoDup_app in Hn as (Hnl & Hdis & (Hpr & Hnr)%NoDup_cons).
  cbn [tdestroy ptr]. rewrite (proj2 (Z.eqb_neq p 0)) by set_solver.
  rewrite (sbind_Ok _ _ _ _ _ (get_child_ok _ _ false _ Hp)). cbn [child a0].
  destruct (IHl fuel s) as (kl & s1 & Hs1 & -> & Hd1 & Ho1); [done|set_solver|done|done|lia|].
  rewrite (sbind_Ok _ _ _ _ _ Hs1).
  assert (nodes s1 !! p = nodes s !! p) as Hp1 by (apply Ho1; set_solver).
  rewrite Hp in Hp1. rewrite (sbind_Ok _ _ _ _ _ (get_child_ok _ _ true _ Hp1)). cbn [child a1].
  destruct (IHr fuel s1) as (kr & s2 & Hs2 & -> & Hd2 & Ho2); [|set_solver|done|done|lia|].
  { eapply rep_frame; [|done]. intros q Hq. apply Ho1. set_solver. }
  rewrite (sbind_Ok _ _ _ _ _ Hs2).
  assert (nodes s2 !! p = nodes s1 !! p) as Hp2 by (apply Ho2; set_solver).
  rewrite Hp1 in Hp2. rewrite (sbind_Ok _ _ _ _ _ (ld_ok _ _ _ Hp2)).
  erewrite sbind_Ok; [|unfold free; rewrite Hp2; reflexivity]. cbn [key].
  eexists _, _. split; [reflexivity|]. split; [by destruct fk|]. cbn [nodes]. split.
  - intros q Hq. destruct (decide (q = p)) as [-> |Hqp]; [by rewrite lookup_delete_eq|].
    rewrite lookup_delete_ne by done.
    destruct (decide (q ∈ addrs r)) as [Hqr|Hqr]; [by apply Hd2|].
    rewrite Ho2 by done. apply Hd1. set_solver.
  - intros q Hq. rewrite lookup_delete_ne by set_solver.
    rewrite Ho2, Ho1 by set_solver. done.
Qed.

Lemma post_keys_perm t : post_keys t ≡ₚ keys t.
Proof.
  induction t as [|p k h l IHl r IHr]; [done|]. unfold keys in *. simpl.
  rewrite fmap_app, IHl, IHr. simpl. solve_Permutation.
Qed.

(** On a balanced ordered tree, [tfind] finds the node whose key compares
    equal to the given one exactly when there is one; [twalk] visits every
    node, a node with children in preorder, postorder and endorder and one
    without as a leaf, so that the postorder and leaf calls enumerate the nodes
    in the order of their keys; and [tdestroy] frees every node of the tree and
    nothing else and passes every key to [freekey] once.  All three need no
    more recursion or iterations than the 40 levels a tree can have. *)
Theorem tree_queries cmp `{Comparator cmp} s t k fuel :
  tree_ok cmp s t -> (40 < fuel)%nat ->
  (exists r, tfind cmp fuel true k s = Ok (r, s) /\
     ((exists kp, (r, kp) ∈ flat t /\ cmp k kp = 0) \/ (r = 0 /\ absent cmp k t))) /\
  (exists cs, twalk fuel (root s) s = Ok (cs, s) /\
     visited preorder cs = pre_addrs t /\ visited postorder cs = addrs t /\
     visited endorder cs = post_addrs t /\ Forall (fun c => 0 <= call_depth c < 40) cs) /\
  (exists ks s', tdestroy fuel true (root s) s = Ok (ks, s') /\ ks ≡ₚ keys t /\
     (forall q, q ∈ addrs t -> nodes s' !! q = None) /\
     same_outside (addrs t) (nodes s) (nodes s')).
Proof.
  intros Hok Hf. pose proof (ok_height _ _ _ Hok) as Hh.
  destruct Hok as [Hheld Ha _ Ho]. pose proof Hheld as (Hroot & Hr & Hn & H0). split_and!.
  - pose proof (tfind_loop_spec cmp k s t fuel [] Hheld Ha ltac:(lia)) as Hfind.
    pose proof (path_spec cmp k t [] Ho) as Hp. destruct (path cmp k t []) as [c t'].
    destruct Hp as (Et & Hs & Hc); [split; intros ? ?%elem_of_nil; done|].
    exists (ptr t'). split; [unfold tfind; cbn [negb];
      by rewrite (sbind_Ok _ _ s _ s eq_refl), Hroot, Hfind|].
    cbn [plug] in Et. subst t. destruct Hc as [-> |(p & kp & h & l & r & -> & E)].
    + right. split; [done|]. intros a. rewrite flat_plug. by apply splits_absent.
    + left. exists kp. split; [|done]. rewrite flat_plug. set_solver.
  - destruct (walk_spec s t fuel 0 Hr H0 Ha) as (cs & Hw & ? & ? & ? & Hd); [lia..|].
    exists cs. rewrite Hroot. split_and!; try done.
    eapply Forall_impl; [exact Hd|]. simpl. lia.
  - destruct (tdestroy_spec true t fuel s Hr H0 Hn Ha) as (ks & s' & Hrun & -> & ? & ?); [lia|].
    exists (post_keys t), s'. rewrite Hroot. split_and!; try done. apply post_keys_perm.
Qed.

(** * A concrete tree *)

#[export] Instance sub_comparator : Comparator Z.sub.
Proof. split; lia. Qed.

Definition ex_tree : tree := Nd 32 20 3 (Nd 16 10 1 Lf Lf) (Nd 48 30 2 Lf (Nd 64 40 1 Lf Lf)).
Definition ex_state : tstate :=
  TS 32 (<[32 := Node 20 16 48 3]> (<[16 := Node 10 0 0 1]>
    (<[48 := Node 30 0 64 2]> (<[64 := Node 40 0 0 1]> ∅)))).

Lemma ex_tree_ok : tree_ok Z.sub ex_state ex_tree.
Proof.
  split.
  - split; [done|]. split; [vm_compute; done|].
    split; [apply (bool_decide_unpack _); by vm_compute|].
    apply (bool_decide_unpack _); by vm_compute.
  - simpl. lia.
  - repeat constructor; by vm_compute.
  - repeat constructor; by vm_compute.
Qed.

(** Inserting the key 50 rotates at the node of key 30. *)
Example tsearch_rotates :
  match tsearch Z.sub true 80 50 ex_state with
  | Ok (r, s') => r = 80 /\ nodes s' !! 32 = Some (Node 20 16 64 3)
                  /\ nodes s' !! 64 = Some (Node 40 48 80 2)
  | _ => False
  end.
Proof. by vm_compute. Qed.

Lemma tsearch_correct_witness :
  exists r s' t', tsearch Z.sub true 80 50 ex_state = Ok (r, s') /\ tree_ok Z.sub s' t' /\
    ((exists kp, (r, kp) ∈ flat ex_tree /\ 50 - kp = 0 /\ s' = ex_state /\ t' = ex_tree)
     \/ (absent Z.sub 50 ex_tree /\ 80 = 0 /\ r = 0 /\ s' = ex_state /\ t' = ex_tree)
     \/ (absent Z.sub 50 ex_tree /\ 80 <> 0 /\ r = 80 /\
         same_outside (80 :: addrs ex_tree) (nodes ex_state) (nodes s') /\
         exists L R, flat ex_tree = L ++ R /\ flat t' = L ++ (80, 50) :: R)).
Proof.
  apply (tsearch_correct Z.sub ex_state ex_tree 80 50 ex_tree_ok).
  right. split; [by vm_compute|by vm_compute].
Defined.

Lemma tdelete_correct_witness :
  exists r s' t', tdelete Z.sub true 20 ex_state = Ok (r, s') /\ tree_ok Z.sub s' t' /\
    ((absent Z.sub 20 ex_tree /\ r = 0 /\ s' = ex_state /\ t' = ex_tree)
     \/ (r <> 0 /\ (r = root ex_state \/ r ∈ addrs t') /\
         exists kd, 20 - kd = 0 /\ deleted ex_state ex_tree kd s' t')).
Proof. exact (tdelete_correct Z.sub ex_state ex_tree 20 ex_tree_ok). Defined.

Lemma tree_queries_witness :
  (exists r, tfind Z.sub 41 true 40 ex_state = Ok (r, ex_state) /\
     ((exists kp, (r, kp) ∈ flat ex_tree /\ 40 - kp = 0) \/ (r = 0 /\ absent Z.sub 40 ex_tree))) /\
  (exists cs, twalk 41 32 ex_state = Ok (cs, ex_state) /\
     visited preorder cs = [32; 16; 48; 64] /\ visited postorder cs = [16; 32; 48; 64] /\
     visited endorder cs = [16; 64; 48; 32] /\ Forall (fun c => 0 <= call_depth c < 40) cs) /\
  (exists ks s', tdestroy 41 true 32 ex_state = Ok (ks, s') /\ ks ≡ₚ [10; 20; 30; 40] /\
     (forall q, q ∈ addrs ex_tree -> nodes s' !! q = None) /\
     same_outside (addrs ex_tree) (nodes ex_state) (nodes s')).
Proof. apply (tree_queries Z.sub ex_state ex_tree 40 41 ex_tree_ok). lia. Defined.
