(* ===== verification/Hsearch.v ===== *)
(** musl's hash table ([libc-top-half/musl/src/search/hsearch.c]).

    The hash table is an open-addressing table whose size is a power of two,
    probed at the distances 0, 1, 3, 6, ... (the triangular numbers).  Its
    specification is a finite map from keys to data.  Every theorem about
    [hsearch_r] rests on [probe_covers]: the first [2^n] probes of a table of
    size [2^n] are all different, so a table that is not full is always
    searched in finitely many steps. *)

From S2P Require Import Prelude.

(** * Hash tables *)

Definition MINSIZE : Z := 8.
Definition MAXSIZE : Z := u32 (SIZE_MAX / 2 + 1).

(** A key is the string a non-null [char *] points to. *)
Notation hkey := (list Z).

(** [ENTRY]: a null [key] marks a free slot. *)
Record entry := Entry { ekey : option hkey; edata : Z }.

(** [struct __tab]; [entries] is [None] for the null pointer. *)
Record tab := Tab { entries : option (list entry); mask : Z; used : Z }.

Inductive action := FIND | ENTER.

Fixpoint keyhash_from (h : Z) (k : hkey) : Z :=
  match k with [] => h | c :: k' => keyhash_from (u32 (31 * h + c)) k' end.
Definition keyhash (k : hkey) : Z := keyhash_from 0 k.

(** The loop [for (i=hash,j=1; ; i+=j++)] over the slots [i & mask], up to the
    first one that satisfies [stop]; it gives the index of the slot. *)
Fixpoint probe (fuel : nat) (stop : entry -> bool) (es : list entry) (msk i j : Z) : outcome Z :=
  match fuel with
  | O => NoFuel
  | S fuel' =>
      let p := Z.land i msk in
      let! e := zget es p in
      if stop e then Ok p else probe fuel' stop es msk (u32 (i + j)) (u32 (j + 1))
  end.

(** As many probes as there are slots; [probe_covers] shows that more would
    find nothing new. *)
Definition probes (msk : Z) : nat := Z.to_nat (msk + 1).

Definition is_free (e : entry) : bool := match ekey e with None => true | Some _ => false end.
Definition stops_at (k : hkey) (e : entry) : bool :=
  match ekey e with None => true | Some k' => bool_decide (k' = k) end.

Definition lookup (k : hkey) (hash : Z) (t : tab) : outcome Z :=
  let! es := deref (entries t) in probe (probes (mask t)) (stops_at k) es (mask t) hash 1.

(** [for (newsize = MINSIZE; newsize < nel; newsize *= 2);] *)
Fixpoint grow (fuel : nat) (newsize nel : Z) : outcome Z :=
  match fuel with
  | O => NoFuel
  | S fuel' => if newsize <? nel then grow fuel' (u32 (newsize * 2)) nel else Ok newsize
  end.

(** One entry of the old table, moved to the new one. *)
Definition rehash (msk : Z) (e : entry) (new : list entry) : outcome (list entry) :=
  match ekey e with
  | None => Ok new
  | Some k =>
      let! p := probe (probes msk) is_free new msk (keyhash k) 1 in
      zset new p e
  end.

Section Alloc.
(** Whether [calloc(n, size)] succeeds. *)
Variable calloc : Z -> Z -> bool.

Definition resize (nel : Z) (t : tab) : outcome (Z * tab) :=
  let oldtab := entries t in
  let oldend := u32 (mask t + 1) in
  let nel := if MAXSIZE <? nel then MAXSIZE else nel in
  let! newsize := grow 33 MINSIZE nel in
  if negb (calloc newsize 8) then Ok (0, t)
  else
    let new := repeat (Entry None 0) (Z.to_nat newsize) in
    let msk := u32 (newsize - 1) in
    match oldtab with
    | None => Ok (1, Tab (Some new) msk (used t))
    | Some old =>
        let! new' := for_up (Z.to_nat oldend) 0 (fun i new =>
                       let! e := zget old i in rehash msk e new) new in
        Ok (1, Tab (Some new') msk (used t))
    end.

(** [struct hsearch_data] is its pointer [__tab]. *)
Definition hcreate_r (nel : Z) : outcome (Z * option tab) :=
  if negb (calloc 1 12) then Ok (0, None)
  else
    let! r := resize nel (Tab None 0 0) in
    let (r, t) := r in
    if r =? 0 then Ok (r, None) else Ok (r, Some t).

(** The result, [*retval] as the index of a slot, and the table. *)
Definition hsearch_r (k : hkey) (data : Z) (act : action) (htab : option tab)
  : outcome (Z * option Z * option tab) :=
  let! t := deref htab in
  let hash := keyhash k in
  let! e := lookup k hash t in
  let! es := deref (entries t) in
  let! x := zget es e in
  match ekey x, act with
  | Some _, _ => Ok (1, Some e, Some t)
  | None, FIND => Ok (0, None, Some t)
  | None, ENTER =>
      let! es1 := zset es e (Entry (Some k) data) in
      let used1 := u32 (used t + 1) in
      let t1 := Tab (Some es1) (mask t) used1 in
      if u32 (mask t - mask t / 4) <? used1 then
        let! r := resize (u32 (2 * used1)) t1 in
        let (ok, t2) := r in
        if ok =? 0 then
          let! es2 := deref (entries t2) in
          let! es3 := zset es2 e (Entry None data) in
          Ok (0, None, Some (Tab (Some es3) (mask t2) (u32 (used t2 - 1))))
        else
          let! e' := lookup k hash t2 in
          Ok (1, Some e', Some t2)
      else Ok (1, Some e, Some t1)
  end.
End Alloc.

(** Both blocks are freed and the pointer is reset, whatever it was. *)
Definition hdestroy_r (htab : option tab) : option tab := None.

(** The versions on the library's own table [htab]. *)
Definition hcreate (calloc : Z -> Z -> bool) (nel : Z) : outcome (Z * option tab) :=
  hcreate_r calloc nel.
Definition hsearch (calloc : Z -> Z -> bool) (k : hkey) (data : Z) (act : action)
  (htab : option tab) : outcome (option Z * option tab) :=
  let! r := hsearch_r calloc k data act htab in
  let '(_, e, htab') := r in Ok (e, htab').
Definition hdestroy (htab : option tab) : option tab := hdestroy_r htab.

(** * Triangular probing *)

Definition tri (j : Z) : Z := j * (j + 1) / 2.

(** The slot of the [j]th probe for the hash [h] in a table of size [2^n]. *)
Definition pos (n h j : Z) : Z := (h + tri j) mod 2 ^ n.

Lemma tri_double j : 2 * tri j = j * (j + 1).
Proof.
  unfold tri. destruct (Z.Even_or_Odd j) as [[a ->]|[a ->]].
  - replace (2 * a * (2 * a + 1)) with (a * (2 * a + 1) * 2) by lia. rewrite Z.div_mul; lia.
  - replace ((2 * a + 1) * (2 * a + 1 + 1)) with ((2 * a + 1) * (a + 1) * 2) by lia.
    rewrite Z.div_mul; lia.
Qed.

Lemma tri_succ j : tri (j + 1) = tri j + (j + 1).
Proof. pose proof (tri_double j). pose proof (tri_double (j + 1)). lia. Qed.

(** An odd factor does not help to be divisible by a power of two. *)
Lemma odd_cancel (n : nat) a : Z.Odd a -> forall b, (2 ^ Z.of_nat n | a * b) -> (2 ^ Z.of_nat n | b).
Proof.
  intros [c ->]. induction n as [|n IH]; intros b Hd; [simpl; apply Z.divide_1_l|].
  rewrite Nat2Z.inj_succ, Z.pow_succ_r in * by lia.
  destruct (Z.Even_or_Odd b) as [[d ->]|[d ->]].
  - apply Z.mul_divide_mono_l, IH. destruct Hd as [e He]. exists e. lia.
  - exfalso. destruct Hd as [e He]. lia.
Qed.

(** Different probes of a table hit different slots. *)
Lemma pos_inj n h i j : 0 <= n -> 0 <= i < 2 ^ n -> 0 <= j < 2 ^ n -> pos n h i = pos n h j -> i = j.
Proof.
  intros Hn. revert i j.
  assert (forall i j, 0 <= i < j -> j < 2 ^ n -> pos n h i = pos n h j -> False) as Hlt.
  { intros i j Hij Hj E. unfold pos in E.
    assert (2 ^ n | tri j - tri i) as [e He].
    { apply Z.mod_divide; [lia|]. replace (tri j - tri i) with (h + tri j - (h + tri i)) by lia.
      rewrite Zminus_mod, E, Z.sub_diag. apply Zmod_0_l. }
    assert (2 ^ Z.of_nat (S (Z.to_nat n)) = 2 * 2 ^ n) as Ep.
    { rewrite Nat2Z.inj_succ, Z2Nat.id, Z.pow_succ_r; lia. }
    assert (2 ^ Z.of_nat (S (Z.to_nat n)) | (j - i) * (j + i + 1)) as Hd.
    { rewrite Ep. exists e. pose proof (tri_double i). pose proof (tri_double j). lia. }
    destruct (Z.Even_or_Odd (j - i)) as [[a Ha]|Ho].
    - rewrite Z.mul_comm in Hd. apply odd_cancel in Hd; [|exists (i + a); lia].
      apply Z.divide_pos_le in Hd; lia.
    - apply odd_cancel in Hd; [|done]. apply Z.divide_pos_le in Hd; lia. }
  intros i j Hi Hj E. destruct (Z.lt_trichotomy i j) as [|[|]]; [|done|]; exfalso.
  - apply (Hlt i j); [lia|lia|done].
  - apply (Hlt j i); [lia|lia|done].
Qed.

Lemma pos_range n h j : 0 <= n -> 0 <= pos n h j < 2 ^ n.
Proof. intros Hn. apply Z.mod_pos_bound. lia. Qed.

(** The first [2^n] probes reach every slot. *)
Lemma probe_covers n h p : 0 <= n -> 0 <= p < 2 ^ n -> exists t, 0 <= t < 2 ^ n /\ pos n h t = p.
Proof.
  intros Hn Hp.
  assert (pos n h <$> seqZ 0 (2 ^ n) ≡ₚ seqZ 0 (2 ^ n)) as Hperm.
  { apply submseteq_length_Permutation; [|by rewrite length_fmap].
    apply NoDup_submseteq.
    - apply NoDup_fmap_2_strong; [|apply NoDup_seqZ].
      intros x y Hx%elem_of_seqZ Hy%elem_of_seqZ E. eapply (pos_inj n h); lia || done.
    - intros x (t & -> & _)%list_elem_of_fmap. apply elem_of_seqZ.
      pose proof (pos_range n h t Hn). lia. }
  assert (p ∈ seqZ 0 (2 ^ n)) as Hin by (apply elem_of_seqZ; lia).
  rewrite <- Hperm in Hin. apply list_elem_of_fmap in Hin as (t & -> & Ht%elem_of_seqZ).
  exists t. split; [lia|done].
Qed.

(** * Probing a table *)

Lemma least (P : Z -> bool) t :
  0 <= t -> P t = true ->
  exists t0, 0 <= t0 <= t /\ P t0 = true /\ (forall u, 0 <= u < t0 -> P u = false).
Proof.
  intros Ht. revert t Ht. apply (Zlt_0_ind (fun t => P t = true -> _)). intros t IH Ht HP.
  destruct (decide (Exists (fun u => P u = true) (seqZ 0 t)))
    as [(u & Hu%elem_of_seqZ & Pu)%Exists_exists|Hno].
  - destruct (IH u ltac:(lia) Pu) as (t0 & ? & ? & ?). exists t0. split; [lia|done].
  - exists t. split; [lia|]. split; [done|]. intros u Hu. destruct (P u) eqn:E; [|done].
    exfalso. apply Hno, Exists_exists. exists u. split; [apply elem_of_seqZ; lia|done].
Qed.

Definition slot_at (es : list entry) (p : Z) : entry :=
  default (Entry None 0) (es !! Z.to_nat p).

Lemma zget_slot es p : 0 <= p < zlen es -> zget es p = Ok (slot_at es p).
Proof.
  intros Hp. destruct (zget_in_range es p Hp) as [x Hx]. rewrite Hx.
  apply zget_lookup in Hx as [_ Hx]. unfold slot_at. by rewrite Hx.
Qed.

Lemma slot_at_insert es p q x :
  0 <= p < zlen es -> 0 <= q ->
  slot_at (<[Z.to_nat p := x]> es) q = if decide (p = q) then x else slot_at es q.
Proof.
  intros Hp Hq. unfold slot_at, zlen in *. case_decide as E.
  - subst. by rewrite list_lookup_insert_eq by lia.
  - by rewrite list_lookup_insert_ne by lia.
Qed.

Lemma land_mask i n : 0 <= n -> Z.land i (2 ^ n - 1) = i mod 2 ^ n.
Proof. intros Hn. rewrite <- Z.land_ones by done. by rewrite Z.ones_equiv. Qed.

Lemma u32_mod i n : 0 <= n <= 32 -> u32 i mod 2 ^ n = i mod 2 ^ n.
Proof.
  intros Hn. unfold u32. apply Z.mod_mod_divide.
  exists (2 ^ (32 - n)). rewrite <- Z.pow_add_r by lia. f_equal. lia.
Qed.

(** The loop stops at the first probe that satisfies the test. *)
Lemma probe_run stop es n h t0 : forall fuel t,
  0 <= n <= 31 -> zlen es = 2 ^ n -> 0 <= t <= t0 -> t0 < 2 ^ n ->
  t0 - t < Z.of_nat fuel ->
  stop (slot_at es (pos n h t0)) = true ->
  (forall u, t <= u < t0 -> stop (slot_at es (pos n h u)) = false) ->
  probe fuel stop es (2 ^ n - 1) (u32 (h + tri t)) (t + 1) = Ok (pos n h t0).
Proof.
  induction fuel as [|fuel IH]; intros t Hn Hl Ht Ht0 Hf Hs Hno; [lia|].
  cbn [probe]. rewrite land_mask, u32_mod by lia. fold (pos n h t).
  pose proof (pos_range n h t ltac:(lia)). rewrite zget_slot by lia. cbn [obind].
  destruct (Z.eq_dec t t0) as [-> |Hne]; [by rewrite Hs|].
  rewrite (Hno t) by lia.
  assert (2 ^ n <= 2 ^ 31) by (apply Z.pow_le_mono_r; lia).
  rewrite (u32_id (t + 1 + 1)) by (bounds; lia).
  replace (u32 (u32 (h + tri t) + (t + 1))) with (u32 (h + tri (t + 1))).
  - apply (IH (t + 1)); try done; [lia|lia|]. intros u Hu. apply Hno. lia.
  - rewrite tri_succ. unfold u32. rewrite Zplus_mod_idemp_l. f_equal. lia.
Qed.

Lemma probe_first stop es n h t :
  0 <= n <= 31 -> zlen es = 2 ^ n -> 0 <= h < 2 ^ 32 -> 0 <= t < 2 ^ n ->
  stop (slot_at es (pos n h t)) = true ->
  exists t0, 0 <= t0 <= t /\ probe (probes (2 ^ n - 1)) stop es (2 ^ n - 1) h 1 = Ok (pos n h t0) /\
    stop (slot_at es (pos n h t0)) = true /\
    (forall u, 0 <= u < t0 -> stop (slot_at es (pos n h u)) = false).
Proof.
  intros Hn Hl Hh Ht Hs.
  destruct (least (fun u => stop (slot_at es (pos n h u))) t) as (t0 & Ht0 & Hs0 & Hno); [lia|done|].
  exists t0. split; [done|]. split; [|done].
  pose proof (probe_run stop es n h t0 (probes (2 ^ n - 1)) 0) as Hr.
  change (tri 0) with 0 in Hr. rewrite Z.add_0_r, u32_id in Hr by done.
  apply Hr; unfold probes; first [done|lia].
Qed.

(** * The table as a map *)

Lemma keyhash_range k : 0 <= keyhash k < 2 ^ 32.
Proof.
  unfold keyhash. assert (forall h, 0 <= h < 2 ^ 32 -> 0 <= keyhash_from h k < 2 ^ 32) as H.
  { induction k as [|c k IH]; intros h Hh; simpl; [done|]. apply IH, u32_range. }
  apply H. lia.
Qed.

Definition occupied (es : list entry) (p : Z) (k : hkey) (d : Z) : Prop :=
  slot_at es p = Entry (Some k) d.

(** The probes for [k] before the [t]th one all hit other keys. *)
Definition displaced (es : list entry) (n : Z) (k : hkey) (t : Z) : Prop :=
  forall u, 0 <= u < t -> exists k' d', occupied es (pos n (keyhash k) u) k' d' /\ k' <> k.

Record table_ok (es : list entry) (n : Z) (m : gmap hkey Z) : Prop := {
  tok_n : 3 <= n <= 28;
  tok_len : zlen es = 2 ^ n;
  tok_sound p k d : 0 <= p < 2 ^ n -> occupied es p k d -> m !! k = Some d;
  tok_unique p q k d d' : 0 <= p < 2 ^ n -> 0 <= q < 2 ^ n ->
    occupied es p k d -> occupied es q k d' -> p = q;
  tok_found k d : m !! k = Some d ->
    exists t, 0 <= t < 2 ^ n /\ occupied es (pos n (keyhash k) t) k d /\ displaced es n k t
}.

Lemma slot_cases e : is_free e = true \/ exists k d, e = Entry (Some k) d.
Proof. destruct e as [[k|] d]; [right; eauto|by left]. Qed.

(** A table with fewer keys than slots has a free slot. *)
Lemma free_exists es n m :
  table_ok es n m -> Z.of_nat (size m) < 2 ^ n ->
  exists p, 0 <= p < 2 ^ n /\ is_free (slot_at es p) = true.
Proof.
  intros Hok Hsz. destruct Hok as [Hn Hl Hs Hu _].
  destruct (decide (Exists (fun p => is_free (slot_at es p) = true) (seqZ 0 (2 ^ n))))
    as [(p & Hp%elem_of_seqZ & Hf)%Exists_exists|Hno].
  { exists p. split; [lia|done]. }
  exfalso.
  assert (forall p, 0 <= p < 2 ^ n -> exists k d, occupied es p k d) as Hall.
  { intros p Hp. destruct (slot_cases (slot_at es p)) as [Hf|(k & d & E)]; [|by exists k, d].
    exfalso. apply Hno, Exists_exists. exists p. split; [apply elem_of_seqZ; lia|done]. }
  set (kat := fun p => default [] (ekey (slot_at es p))).
  assert ((kat <$> seqZ 0 (2 ^ n)) ⊆+ elements (dom m)) as Hsub%submseteq_length.
  { apply NoDup_submseteq.
    - apply NoDup_fmap_2_strong; [|apply NoDup_seqZ].
      intros p q Hp%elem_of_seqZ Hq%elem_of_seqZ E.
      destruct (Hall p ltac:(lia)) as (k & d & Ek), (Hall q ltac:(lia)) as (k' & d' & Ek').
      subst kat. cbn beta in E. unfold occupied in *. rewrite Ek, Ek' in E. simpl in E. subst k'.
      eapply Hu; eauto; lia.
    - intros k (p & -> & Hp%elem_of_seqZ)%list_elem_of_fmap.
      destruct (Hall p ltac:(lia)) as (k & d & Ek). apply elem_of_elements, elem_of_dom.
      exists d. eapply Hs; [|]; [|unfold occupied in *; subst kat; cbn beta; rewrite Ek; done]. lia. }
  rewrite length_fmap, length_seqZ in Hsub.
  change (length (elements (dom m))) with (size (dom m)) in Hsub. rewrite size_dom in Hsub. lia.
Qed.

(** The slot where the search for [k] ends. *)
Lemma stops_probe es n m k :
  table_ok es n m -> Z.of_nat (size m) < 2 ^ n ->
  exists t, 0 <= t < 2 ^ n /\ displaced es n k t /\
    probe (probes (2 ^ n - 1)) (stops_at k) es (2 ^ n - 1) (keyhash k) 1 = Ok (pos n (keyhash k) t) /\
    match m !! k with
    | Some d => occupied es (pos n (keyhash k) t) k d
    | None => is_free (slot_at es (pos n (keyhash k) t)) = true
    end.
Proof.
  intros Hok Hsz. pose proof (keyhash_range k) as Hh. set (h := keyhash k) in *.
  destruct (free_exists _ _ _ Hok Hsz) as (p & Hp & Hf).
  pose proof Hok as [Hn Hl Hs Hu Hfd].
  destruct (probe_covers n h p ltac:(lia) Hp) as (t & Ht & <-).
  destruct (probe_first (stops_at k) es n h t) as (t0 & Ht0 & Hrun & Hst & Hno);
    [lia|done|done|done|unfold stops_at, is_free in *; by case_match|].
  assert (displaced es n k t0) as Hdis.
  { intros u Hu0. specialize (Hno u Hu0). subst h. unfold occupied, stops_at in *.
    destruct (slot_at es (pos n (keyhash k) u)) as [[k'|] d']; simpl in Hno; [|done].
    apply bool_decide_eq_false in Hno. by exists k', d'. }
  exists t0. split; [lia|]. split; [done|]. split; [done|].
  pose proof (pos_range n h t0 ltac:(lia)) as Hpos.
  destruct (slot_cases (slot_at es (pos n h t0))) as [Hfr|(k' & d' & E)].
  - destruct (m !! k) as [d|] eqn:Em; [|done]. exfalso.
    destruct (Hfd k d Em) as (t1 & Ht1 & Ho1 & Hd1). fold h in Ho1, Hd1.
    destruct (Z.lt_trichotomy t0 t1) as [Hlt|[-> |Hgt]].
    + destruct (Hd1 t0 ltac:(lia)) as (k' & d' & E & _). fold h in E.
      unfold occupied, is_free in *. by rewrite E in Hfr.
    + unfold occupied, is_free in *. by rewrite Ho1 in Hfr.
    + destruct (Hdis t1 ltac:(lia)) as (k' & d' & E & Hne). fold h in E.
      unfold occupied in *. rewrite Ho1 in E. by injection E as <- <-.
  - assert (k' = k) as ->. { unfold stops_at in Hst. rewrite E in Hst. by apply bool_decide_eq_true in Hst. }
    rewrite (Hs _ k d' Hpos E). done.
Qed.

(** Filling the free slot where the search for a new key ends. *)
Lemma insert_ok es n m k d t :
  table_ok es n m -> m !! k = None -> 0 <= t < 2 ^ n -> displaced es n k t ->
  is_free (slot_at es (pos n (keyhash k) t)) = true ->
  table_ok (<[Z.to_nat (pos n (keyhash k) t) := Entry (Some k) d]> es) n (<[k := d]> m).
Proof.
  intros [Hn Hl Hs Hu Hfd] Hk Ht Hdis Hfree. set (p := pos n (keyhash k) t) in *.
  pose proof (pos_range n (keyhash k) t ltac:(lia)) as Hp. fold p in Hp.
  assert (forall q x, 0 <= q < 2 ^ n ->
    slot_at (<[Z.to_nat p := x]> es) q = if decide (p = q) then x else slot_at es q) as Hget.
  { intros q x Hq. apply slot_at_insert; lia. }
  assert (forall q k' d', 0 <= q < 2 ^ n -> occupied es q k' d' ->
    occupied (<[Z.to_nat p := Entry (Some k) d]> es) q k' d') as Hkeep.
  { intros q k' d' Hq Ho. unfold occupied in *. rewrite Hget by done.
    case_decide; [|done]. subst q. by rewrite Ho in Hfree. }
  assert (forall q d', 0 <= q < 2 ^ n -> ~ occupied es q k d') as Hnew.
  { intros q d' Hq Ho. apply Hs in Ho; [|done]. congruence. }
  split; [done|by rewrite zlen_insert| | |].
  - intros q k' d' Hq. unfold occupied. rewrite Hget by done. case_decide as E.
    + intros [= <- <-]. by rewrite lookup_insert_eq.
    + intros Ho. rewrite lookup_insert_ne; [by eapply Hs|]. intros <-. by eapply Hnew.
  - intros q q' k' d' d'' Hq Hq'. unfold occupied. rewrite !Hget by done.
    repeat case_decide; subst; intros Ho Ho'; try congruence; try (by eapply Hu).
    + injection Ho as <- <-. exfalso. by apply (Hnew q' d'').
    + injection Ho' as <- <-. exfalso. by apply (Hnew q d').
  - intros k' d' Hm. destruct (decide (k = k')) as [<-|Hne].
    + rewrite lookup_insert_eq in Hm. injection Hm as <-. exists t. split; [done|].
      split; [unfold occupied; fold p; rewrite Hget by lia; by case_decide|].
      intros u Hut. destruct (Hdis u Hut) as (k' & d'' & Ho & ?). exists k', d''. split; [|done].
      apply Hkeep; [apply pos_range; lia|done].
    + rewrite lookup_insert_ne in Hm by done. destruct (Hfd k' d' Hm) as (t' & Ht' & Ho & Hdis').
      exists t'. split; [done|]. split; [apply Hkeep; [apply pos_range; lia|done]|].
      intros u Hut. destruct (Hdis' u Hut) as (k'' & d'' & Ho' & ?). exists k'', d''. split; [|done].
      apply Hkeep; [apply pos_range; lia|done].
Qed.

(** Tables that agree on the occupied slots. *)
Lemma table_ok_ext es es' n m :
  table_ok es n m -> zlen es' = zlen es ->
  (forall p k d, 0 <= p < 2 ^ n -> occupied es' p k d <-> occupied es p k d) -> table_ok es' n m.
Proof.
  intros [Hn Hl Hs Hu Hfd] Hlen Hiff. split; [done|congruence| | |].
  - intros p k d Hp Ho. apply (Hs p); [done|]. by apply Hiff.
  - intros p q k d d' Hp Hq Ho Ho'. eapply Hu; [done|done|by apply Hiff|by apply Hiff].
  - intros k d Hm. destruct (Hfd k d Hm) as (t & Ht & Ho & Hdis). exists t. split; [done|].
    split; [apply Hiff; [apply pos_range; lia|done]|].
    intros u Hut. destruct (Hdis u Hut) as (k' & d' & Ho' & ?). exists k', d'. split; [|done].
    apply Hiff; [apply pos_range; lia|done].
Qed.

Lemma table_ok_empty n : 3 <= n <= 28 -> table_ok (repeat (Entry None 0) (Z.to_nat (2 ^ n))) n ∅.
Proof.
  intros Hn. set (es := repeat _ _).
  assert (forall p k d, ~ occupied es p k d) as Hno.
  { intros p k d. unfold occupied, slot_at. subst es.
    destruct (repeat (Entry None 0) (Z.to_nat (2 ^ n)) !! Z.to_nat p) as [e|] eqn:E; [|done].
    apply list_elem_of_lookup_2, list_elem_of_In, repeat_spec in E. by subst e. }
  split; [done| |naive_solver|naive_solver|naive_solver].
  subst es. unfold zlen. rewrite repeat_length. lia.
Qed.

(** Moving one entry to a table that does not have its key. *)
Lemma rehash_ok new n m k d :
  table_ok new n m -> Z.of_nat (size m) < 2 ^ n -> m !! k = None ->
  exists new', rehash (2 ^ n - 1) (Entry (Some k) d) new = Ok new' /\ table_ok new' n (<[k := d]> m).
Proof.
  intros Hok Hsz Hk. pose proof Hok as [Hn Hl Hs _ _]. pose proof (keyhash_range k) as Hh.
  destruct (free_exists _ _ _ Hok Hsz) as (p & Hp & Hf).
  destruct (probe_covers n (keyhash k) p ltac:(lia) Hp) as (t & Ht & <-).
  destruct (probe_first is_free new n (keyhash k) t) as (t0 & Ht0 & Hrun & Hst & Hno);
    [lia|done|done|done|done|].
  pose proof (pos_range n (keyhash k) t0 ltac:(lia)) as Hpos.
  unfold rehash. cbn [ekey]. rewrite Hrun. cbn [obind]. rewrite zset_in_range by lia.
  eexists. split; [reflexivity|]. apply insert_ok; [done|done|lia| |done].
  intros u Hut. destruct (slot_cases (slot_at new (pos n (keyhash k) u))) as [Hfr|(k' & d' & E)].
  - by rewrite Hno in Hfr.
  - exists k', d'. split; [done|]. intros ->. apply Hs in E; [congruence|]. apply pos_range. lia.
Qed.

(** * Resizing *)

Lemma grow_ok nel : forall fuel a,
  nel <= 2 ^ 31 -> 3 <= a <= 31 -> 31 - a < Z.of_nat fuel ->
  exists n, 3 <= n <= 31 /\ grow fuel (2 ^ a) nel = Ok (2 ^ n) /\ nel <= 2 ^ n.
Proof.
  induction fuel as [|fuel IH]; intros a Hnel Ha Hf; [lia|]. cbn [grow].
  destruct (Z.ltb_spec (2 ^ a) nel) as [Hlt|Hge]; [|by exists a].
  assert (a < 31) as Ha'. { apply (Z.pow_lt_mono_r_iff 2); lia. }
  assert (2 ^ (a + 1) = 2 ^ a * 2) as Ep by (rewrite Z.pow_add_r; lia).
  rewrite u32_id, <- Ep; [apply IH; lia|].
  rewrite <- Ep. split; [lia|]. apply Z.pow_lt_mono_r; lia.
Qed.

Section Resize.
Context (calloc : Z -> Z -> bool).
(** [calloc] does not return a block that does not fit the memory. *)
Hypothesis calloc_fits : forall n size, calloc n size = true -> n * size < 2 ^ 32.

Lemma calloc_size n : calloc (2 ^ n) 8 = true -> n <= 28.
Proof.
  intros Hc%calloc_fits. destruct (Z.le_gt_cases n 28) as [|Hgt]; [done|].
  assert (2 ^ 29 <= 2 ^ n) by (apply Z.pow_le_mono_r; lia). lia.
Qed.

(** Moving all the entries. *)
Lemma rehash_all old n m n' :
  table_ok old n m -> 3 <= n' <= 28 -> Z.of_nat (size m) < 2 ^ n' ->
  exists new, for_up (Z.to_nat (2 ^ n)) 0 (fun i new =>
      let! e := zget old i in rehash (2 ^ n' - 1) e new)
      (repeat (Entry None 0) (Z.to_nat (2 ^ n'))) = Ok new /\ table_ok new n' m.
Proof.
  intros [Hn Hl Hs Hu Hfd] Hn' Hsz.
  set (part := fun (i : Z) (mi : gmap hkey Z) =>
    forall k d, mi !! k = Some d <-> exists p, 0 <= p < i /\ occupied old p k d).
  destruct (for_up_ind (fun i new => 0 <= i /\ exists mi, table_ok new n' mi /\ part i mi)
    (Z.to_nat (2 ^ n)) 0 (fun i new => let! e := zget old i in rehash (2 ^ n' - 1) e new)
    (repeat (Entry None 0) (Z.to_nat (2 ^ n')))) as (new & Hrun & _ & mi & Hok & Hmi).
  - split; [done|]. exists ∅. split; [by apply table_ok_empty|]. intros k d.
    rewrite lookup_empty. split; [done|]. intros (p & ? & _). lia.
  - intros j new Hj (Hj0 & mi & Hok & Hmi). rewrite zget_slot by lia. cbn [obind].
    destruct (slot_cases (slot_at old j)) as [Hf|(k & d & E)].
    + exists new. unfold rehash, is_free in *. destruct (ekey (slot_at old j)) eqn:Ee; [done|].
      split; [done|]. split; [lia|]. exists mi. split; [done|]. intros k d. rewrite (Hmi k d).
      split; intros (p & Hp & Ho); exists p; (split; [|done]); [lia|].
      destruct (Z.eq_dec p j) as [-> |]; [|lia]. unfold occupied in Ho. by rewrite Ho in Ee.
    + assert (mi !! k = None) as Hk.
      { destruct (mi !! k) as [d'|] eqn:Ek; [|done]. apply Hmi in Ek as (p & Hp & Ho).
        assert (p = j) by (eapply Hu; eauto; lia). lia. }
      assert (mi ⊆ m) as Hsub.
      { apply map_subseteq_spec. intros k' d' (p & Hp & Ho)%Hmi. apply (Hs p); [lia|done]. }
      apply map_subseteq_size in Hsub.
      destruct (rehash_ok new n' mi k d Hok ltac:(lia) Hk) as (new' & Hr & Hok').
      exists new'. rewrite E. split; [done|]. split; [lia|]. exists (<[k := d]> mi). split; [done|].
      intros k' d'. destruct (decide (k = k')) as [<-|Hne].
      * rewrite lookup_insert_eq. split; [intros [= <-]; exists j; split; [lia|done]|].
        intros (p & Hp & Ho). assert (p = j) as -> by (eapply Hu; eauto; lia).
        unfold occupied in Ho. rewrite E in Ho. by injection Ho as <-.
      * rewrite lookup_insert_ne, (Hmi k' d') by done.
        split; intros (p & Hp & Ho); exists p; (split; [|done]); [lia|].
        destruct (Z.eq_dec p j) as [-> |]; [|lia].
        unfold occupied in Ho. rewrite E in Ho. congruence.
  - exists new. split; [done|]. replace m with mi; [done|]. apply map_eq. intros k.
    apply option_eq. intros d. rewrite (Hmi k d). split.
    + intros (p & Hp & Ho). apply (Hs p); [lia|done].
    + intros (t & Ht & Ho & _)%Hfd. pose proof (pos_range n (keyhash k) t ltac:(lia)).
      eexists. split; [|exact Ho]. lia.
Qed.

Lemma resize_ok old n m u nel :
  table_ok old n m -> 0 <= nel <= 2 ^ 31 -> Z.of_nat (size m) < nel ->
  let t := Tab (Some old) (2 ^ n - 1) u in
  (resize calloc nel t = Ok (0, t) /\ exists sz, calloc sz 8 = false) \/
  (exists new n', resize calloc nel t = Ok (1, Tab (Some new) (2 ^ n' - 1) u) /\
     table_ok new n' m /\ nel <= 2 ^ n').
Proof.
  intros Hok Hnel Hsz t. unfold resize. cbn [entries mask used t].
  change MAXSIZE with (2 ^ 31). rewrite (proj2 (Z.ltb_ge (2 ^ 31) nel)) by lia.
  destruct (grow_ok nel 33 3) as (n' & Hn' & Hg & Hge); [lia..|].
  change (2 ^ 3) with MINSIZE in Hg. rewrite Hg. cbn [obind].
  destruct (calloc (2 ^ n') 8) eqn:Hc; cbn [negb]; [right|by left; eauto].
  pose proof (calloc_size _ Hc). pose proof (tok_n _ _ _ Hok) as Hn.
  assert (2 ^ n <= 2 ^ 28 /\ 2 ^ n' <= 2 ^ 28) as [? ?] by (split; apply Z.pow_le_mono_r; lia).
  replace (2 ^ n - 1 + 1) with (2 ^ n) by lia.
  rewrite (u32_id (2 ^ n)), (u32_id (2 ^ n' - 1)) by (split; lia).
  destruct (rehash_all old n m n' Hok ltac:(lia) ltac:(lia)) as (new & Hrun & Hnew).
  rewrite Hrun. cbn [obind]. by exists new, n'.
Qed.
End Resize.

(** * The table as its clients see it *)

(** The table holds the map [m], and a quarter of its slots is free. *)
Definition htab_ok (h : option tab) (m : gmap hkey Z) : Prop :=
  exists es n u, h = Some (Tab (Some es) (2 ^ n - 1) u) /\ table_ok es n m /\
    u = Z.of_nat (size m) /\ u <= (2 ^ n - 1) - (2 ^ n - 1) / 4.

(** The entry [*retval] points to. *)
Definition entry_at (h : option tab) (p : Z) : option entry :=
  t ← h; es ← entries t; Some (slot_at es p).

Lemma room n u : 3 <= n -> u <= (2 ^ n - 1) - (2 ^ n - 1) / 4 -> u + 1 < 2 ^ n.
Proof.
  intros Hn Hu. assert (2 ^ 3 <= 2 ^ n) by (apply Z.pow_le_mono_r; lia).
  assert (1 <= (2 ^ n - 1) / 4) by (apply Z.div_le_lower_bound; lia).
  destruct (Z.le_gt_cases (2 ^ n) 8); [|lia]. assert (2 ^ n = 8) as E by lia.
  rewrite E in *. change ((8 - 1) / 4) with 1 in *. lia.
Qed.

Section Clients.
Context (calloc : Z -> Z -> bool).
Hypothesis calloc_fits : forall n size, calloc n size = true -> n * size < 2 ^ 32.

(** What a call returns that finds or makes the entry of [k]. *)
Definition returns_entry (h : option tab) (k : hkey) (d r : Z) (v : option Z) : Prop :=
  r = 1 /\ exists p, v = Some p /\ entry_at h p = Some (Entry (Some k) d).

(** Undoing an insertion. *)
Lemma erase_ok es n m p k d :
  table_ok es n m -> 0 <= p < 2 ^ n -> is_free (slot_at es p) = true ->
  table_ok (<[Z.to_nat p := Entry None d]> (<[Z.to_nat p := Entry (Some k) d]> es)) n m.
Proof.
  intros Hok Hp Hf. pose proof (tok_len _ _ _ Hok) as Hl. rewrite list_insert_insert_eq.
  eapply table_ok_ext; [exact Hok|by rewrite zlen_insert|].
  intros q k' d' Hq. unfold occupied. rewrite slot_at_insert by lia. case_decide; [|done]. subst q.
  split; [done|]. intros E. by rewrite E in Hf.
Qed.

(** A new key, its slot found. *)
Lemma enter_new es n m k d t :
  htab_ok (Some (Tab (Some es) (2 ^ n - 1) (Z.of_nat (size m)))) m -> table_ok es n m ->
  m !! k = None -> 0 <= t < 2 ^ n -> displaced es n k t ->
  probe (probes (2 ^ n - 1)) (stops_at k) es (2 ^ n - 1) (keyhash k) 1 = Ok (pos n (keyhash k) t) ->
  is_free (slot_at es (pos n (keyhash k) t)) = true ->
  Z.of_nat (size m) <= (2 ^ n - 1) - (2 ^ n - 1) / 4 ->
  exists r v h',
    hsearch_r calloc k d ENTER (Some (Tab (Some es) (2 ^ n - 1) (Z.of_nat (size m)))) = Ok (r, v, h') /\
    ((htab_ok h' (<[k := d]> m) /\ returns_entry h' k d r v) \/
     (r = 0 /\ v = None /\ htab_ok h' m /\ exists sz, calloc sz 8 = false)).
Proof.
  intros Hh Hok Hk Ht Hdis Hrun Hf Hu. set (u := Z.of_nat (size m)) in *.
  pose proof (tok_n _ _ _ Hok) as Hn. pose proof (tok_len _ _ _ Hok) as Hl.
  pose proof (room n u ltac:(lia) Hu) as Hroom.
  assert (2 ^ n <= 2 ^ 28) as Hn28 by (apply Z.pow_le_mono_r; lia).
  pose proof (insert_ok es n m k d t Hok Hk Ht Hdis Hf) as Hok1.
  set (p := pos n (keyhash k) t) in *.
  pose proof (pos_range n (keyhash k) t ltac:(lia)) as Hp. fold p in Hp.
  assert (Z.of_nat (size (<[k := d]> m)) = u + 1) as Hsz1 by (rewrite map_size_insert_None by done; lia).
  assert (0 <= (2 ^ n - 1) / 4 <= 2 ^ n - 1) as Hdiv.
  { split; [apply Z.div_pos; lia|]. apply Z.div_le_upper_bound; lia. }
  unfold hsearch_r. cbn [deref obind]. unfold lookup. cbn [entries mask deref obind used].
  rewrite Hrun. cbn [obind]. rewrite zget_slot by lia. cbn [obind].
  destruct (slot_at es p) as [[k0|] d0] eqn:Esl; [done|]. cbn [ekey].
  rewrite zset_in_range by lia. cbn [obind].
  rewrite (u32_id (u + 1)), (u32_id (2 ^ n - 1 - _)) by (split; lia).
  set (es1 := <[Z.to_nat p := Entry (Some k) d]> es) in *.
  destruct (Z.ltb_spec (2 ^ n - 1 - (2 ^ n - 1) / 4) (u + 1)) as [Hfull|Hroomy].
  - rewrite (u32_id (2 * (u + 1))) by (split; lia).
    destruct (resize_ok calloc calloc_fits es1 n (<[k := d]> m) (u + 1) (2 * (u + 1)))
      as [[-> Hfail]|(new & n' & -> & Hnew & Hge)]; [done|lia|lia| |]; cbn [obind].
    + cbn [Z.eqb entries deref obind mask used].
      rewrite zset_in_range by (subst es1; rewrite zlen_insert; lia). cbn [obind].
      replace (u + 1 - 1) with u by lia. rewrite u32_id by (split; lia).
      eexists _, _, _. split; [reflexivity|]. right. split_and!; [done|done| |done].
      eexists _, n, u. split; [reflexivity|]. split; [|done]. apply erase_ok; [done|done|].
      by rewrite Esl.
    + pose proof (tok_n _ _ _ Hnew) as Hn'. change (1 =? 0) with false. cbn iota.
      destruct (stops_probe new n' (<[k := d]> m) k Hnew ltac:(lia)) as (t' & Ht' & _ & Hrun' & Hm').
      cbn [entries mask deref obind]. rewrite Hrun'. cbn [obind].
      rewrite lookup_insert_eq in Hm'. eexists _, _, _. split; [reflexivity|]. left. split.
      * eexists new, n', (u + 1). split_and!; [done|done|done|].
        assert ((2 ^ n' - 1) / 4 <= 2 ^ n' / 4) by (apply Z.div_le_mono; lia).
        assert (2 ^ 3 <= 2 ^ n') by (apply Z.pow_le_mono_r; lia).
        pose proof (Z.mul_div_le (2 ^ n') 4 ltac:(lia)). lia.
      * split; [done|]. eexists. split; [reflexivity|]. simpl. by rewrite Hm'.
  - eexists _, _, _. split; [reflexivity|]. left. split.
    + eexists es1, n, (u + 1). split_and!; done || lia.
    + split; [done|]. eexists. split; [reflexivity|]. simpl. subst es1.
      rewrite slot_at_insert by lia. by case_decide.
Qed.

(** C16: [hsearch_r] on a table that holds a finite map refines it.  A [FIND]
    changes nothing and returns the entry of the key when the map has it and
    null otherwise; an [ENTER] of a present key returns its entry and changes
    nothing, one of a new key gives a table that holds the map with the new
    binding and returns its entry, or, when the table has to grow and
    [calloc] fails, fails and leaves the map as it was.  The probing always
    ends. *)
Theorem hsearch_refines_map h m k d :
  htab_ok h m ->
  (exists r v, hsearch_r calloc k d FIND h = Ok (r, v, h) /\
     match m !! k with
     | Some d' => returns_entry h k d' r v
     | None => r = 0 /\ v = None
     end) /\
  (exists r v h', hsearch_r calloc k d ENTER h = Ok (r, v, h') /\
     match m !! k with
     | Some d' => h' = h /\ returns_entry h k d' r v
     | None =>
         (htab_ok h' (<[k := d]> m) /\ returns_entry h' k d r v) \/
         (r = 0 /\ v = None /\ htab_ok h' m /\ exists sz, calloc sz 8 = false)
     end).
Proof.
  intros Hh. pose proof Hh as (es & n & u & -> & Hok & -> & Hu).
  pose proof (tok_n _ _ _ Hok) as Hn. pose proof (tok_len _ _ _ Hok) as Hl.
  pose proof (room n _ ltac:(lia) Hu) as Hroom.
  destruct (stops_probe es n m k Hok ltac:(lia)) as (t & Ht & Hdis & Hrun & Hm).
  pose proof (pos_range n (keyhash k) t ltac:(lia)) as Hp.
  destruct (m !! k) as [d'|] eqn:Ek.
  - assert (forall act, hsearch_r calloc k d act
        (Some (Tab (Some es) (2 ^ n - 1) (Z.of_nat (size m)))) =
      Ok (1, Some (pos n (keyhash k) t), Some (Tab (Some es) (2 ^ n - 1) (Z.of_nat (size m))))) as Hr.
    { intros act. unfold hsearch_r, lookup. cbn [deref obind entries mask]. rewrite Hrun. cbn [obind].
      rewrite zget_slot by lia. cbn [obind]. by rewrite Hm. }
    split.
    + eexists _, _. split; [apply Hr|]. split; [done|]. eexists. split; [done|]. simpl. by rewrite Hm.
    + eexists _, _, _. split; [apply Hr|]. split; [done|]. split; [done|].
      eexists. split; [done|]. simpl. by rewrite Hm.
  - split; [|by apply (enter_new es n m k d t)].
    exists 0, None. split; [|done]. unfold hsearch_r, lookup. cbn [deref obind entries mask].
    rewrite Hrun. cbn [obind]. rewrite zget_slot by lia. cbn [obind].
    unfold is_free in Hm. by destruct (ekey _).
Qed.

(** [hcreate_r] makes an empty table, or fails when [calloc] does. *)
Lemma hcreate_ok nel :
  exists r h, hcreate_r calloc nel = Ok (r, h) /\
    ((r = 1 /\ htab_ok h ∅) \/ (r = 0 /\ h = None /\ exists n sz, calloc n sz = false)).
Proof.
  unfold hcreate_r. destruct (calloc 1 12) eqn:Hc1; cbn [negb]; [|by exists 0, None; eauto 10].
  unfold resize. cbn [entries mask used]. change MAXSIZE with (2 ^ 31).
  set (nel' := if 2 ^ 31 <? nel then 2 ^ 31 else nel).
  destruct (grow_ok nel' 33 3) as (n & Hn & Hg & _); [subst nel'; case_cmp; lia|lia|lia|].
  change (2 ^ 3) with MINSIZE in Hg. rewrite Hg. cbn [obind].
  destruct (calloc (2 ^ n) 8) eqn:Hc; cbn [negb obind]; [|by exists 0, None; eauto 10].
  pose proof (calloc_size calloc calloc_fits _ Hc).
  assert (2 ^ 3 <= 2 ^ n <= 2 ^ 28) by (split; apply Z.pow_le_mono_r; lia).
  rewrite u32_id by (split; lia). eexists _, _. split; [reflexivity|]. left. split; [done|].
  eexists _, n, 0. split; [reflexivity|]. split; [apply table_ok_empty; lia|]. split; [done|].
  pose proof (Z.mul_div_le (2 ^ n - 1) 4 ltac:(lia)). lia.
Qed.
End Clients.

(** * A concrete table *)

(** An allocator that gives blocks of less than 64 KiB. *)
Definition small_calloc (n size : Z) : bool := n * size <? 2 ^ 16.

Definition new_table : option tab := Some (Tab (Some (repeat (Entry None 0) 8)) 7 0).

(** Seven keys in a table of eight slots: the seventh makes it grow. *)
Example seven_keys :
  match foldl (fun h k => let! h := h in let! r := hsearch_r small_calloc k 5 ENTER h in
                 Ok (snd r)) (Ok new_table) [[97]; [98]; [105]; [113]; [99]; [100]; [121]] with
  | Ok (Some t) => mask t = 15 /\ used t = 7
  | _ => False
  end.
Proof. by vm_compute. Qed.

Lemma hsearch_refines_map_witness :
  (exists r v, hsearch_r small_calloc [97; 98] 7 FIND new_table = Ok (r, v, new_table) /\
     r = 0 /\ v = None) /\
  (exists r v h', hsearch_r small_calloc [97; 98] 7 ENTER new_table = Ok (r, v, h') /\
     ((htab_ok h' (<[[97; 98] := 7]> ∅) /\ returns_entry h' [97; 98] 7 r v) \/
      (r = 0 /\ v = None /\ htab_ok h' ∅ /\ exists sz, small_calloc sz 8 = false))).
Proof.
  refine (hsearch_refines_map small_calloc _ new_table ∅ [97; 98] 7 _).
  - intros n size. unfold small_calloc. intros Hlt%Z.ltb_lt. lia.
  - exists (repeat (Entry None 0) 8), 3, 0. split; [reflexivity|].
    split; [apply (table_ok_empty 3); lia|]. split; [reflexivity|by vm_compute].
Defined.
