(* ===== verification/Queue.v ===== *)
(** musl's linear search and doubly linked queues
    ([libc-top-half/musl/src/search/]: lsearch.c, insque.c). *)

From S2P Require Import Prelude.

(** * Linear search *)

Section Linear.
Context {A : Type} (compar : A -> A -> Z).

(** The loop over the first [n] elements, from index [i]: where it returns. *)
Fixpoint scan (fuel : nat) (k : A) (p : list A) (i n : Z) : outcome (option Z) :=
  match fuel with
  | O => NoFuel
  | S fuel' =>
      if i <? n then
        let! x := zget p i in
        if compar k x =? 0 then Ok (Some i) else scan fuel' k p (u32 (i + 1)) n
      else Ok None
  end.

Definition lfind (k : A) (p : list A) (nelp : Z) : outcome (option Z) :=
  scan (S (Z.to_nat nelp)) k p 0 nelp.

(** The index of the returned element, the array and [*nelp]. *)
Definition lsearch (k : A) (p : list A) (nelp : Z) : outcome (Z * list A * Z) :=
  let n := nelp in
  let! r := scan (S (Z.to_nat n)) k p 0 n in
  match r with
  | Some i => Ok (i, p, nelp)
  | None => let! p' := zset p n k in Ok (n, p', u32 (n + 1))
  end.

Definition matches (k x : A) : Prop := compar k x = 0.

(** The scan returns the first match. *)
Lemma scan_spec k p n : 0 <= n <= zlen p -> n < 2 ^ 32 -> forall fuel i,
  0 <= i <= n -> n - i < Z.of_nat fuel ->
  (forall j x, 0 <= j < i -> p !! Z.to_nat j = Some x -> ~ matches k x) ->
  exists r, scan fuel k p i n = Ok r /\
    match r with
    | Some i => 0 <= i < n /\ (exists x, p !! Z.to_nat i = Some x /\ matches k x) /\
        (forall j x, 0 <= j < i -> p !! Z.to_nat j = Some x -> ~ matches k x)
    | None => forall j x, 0 <= j < n -> p !! Z.to_nat j = Some x -> ~ matches k x
    end.
Proof.
  intros Hn Hn32. induction fuel as [|fuel IH]; intros i Hi Hf Hno; [lia|]. cbn [scan].
  destruct (Z.ltb_spec i n) as [Hlt|Hge].
  2:{ exists None. split; [done|]. replace n with i by lia. done. }
  destruct (zget_in_range p i ltac:(lia)) as [x Hx]. rewrite Hx. cbn [obind].
  apply zget_lookup in Hx as [_ Hx].
  destruct (Z.eqb_spec (compar k x) 0) as [E|Ne].
  { exists (Some i). split; [done|]. split; [lia|]. split; [by exists x|done]. }
  rewrite u32_id by (split; lia). apply IH; [lia|lia|].
  intros j y Hj Hy. destruct (Z.eq_dec j i) as [-> |]; [|apply (Hno j y); [lia|done]].
  rewrite Hx in Hy. by injection Hy as <-.
Qed.
End Linear.

(** * Queues *)

(** [struct node] of insque.c. *)
Record qnode := QNode { qnext : Z; qprev : Z }.
Notation qstore := (gmap Z qnode).

Definition qld (p : Z) : M qstore qnode := fun m => let! n := deref (m !! p) in Ok (n, m).
Definition set_next (p v : Z) : M qstore unit := fun m =>
  let! n := deref (m !! p) in Ok (tt, <[p := QNode v (qprev n)]> m).
Definition set_prev (p v : Z) : M qstore unit := fun m =>
  let! n := deref (m !! p) in Ok (tt, <[p := QNode (qnext n) v]> m).

Definition insque (e p : Z) : M qstore unit :=
  if p =? 0 then
    do* set_prev e 0 in set_next e 0
  else
    let* n := qld p in
    do* set_next e (qnext n) in
    do* set_prev e p in
    do* set_next p e in
    let* x := qld e in
    if negb (qnext x =? 0) then set_prev (qnext x) e else sret tt.

Definition remque (e : Z) : M qstore unit :=
  let* x := qld e in
  do* (if negb (qnext x =? 0) then let* x := qld e in set_prev (qnext x) (qprev x) else sret tt) in
  let* x := qld e in
  if negb (qprev x =? 0) then let* x := qld e in set_next (qprev x) (qnext x) else sret tt.

(** The store links the nodes [l], between [q] and [nxt]. *)
Fixpoint seg (m : qstore) (q : Z) (l : list Z) (nxt : Z) : Prop :=
  match l with
  | [] => True
  | x :: l' => m !! x = Some (QNode (hd nxt l') q) /\ seg m x l' nxt
  end.

(** A queue: a list that starts and ends with null links. *)
Definition queue (m : qstore) (l : list Z) : Prop := seg m 0 l 0 /\ NoDup l /\ 0 ∉ l.

Lemma seg_app m l1 : forall q l2 nxt,
  seg m q (l1 ++ l2) nxt <->
  seg m q l1 (hd nxt l2) /\ seg m (List.last l1 q) l2 nxt.
Proof.
  induction l1 as [|x l1 IH]; intros q l2 nxt; [simpl; tauto|]. cbn [app seg]. rewrite IH.
  replace (hd nxt (l1 ++ l2)) with (hd (hd nxt l2) l1) by (by destruct l1).
  replace (List.last (x :: l1) q) with (List.last l1 x); [tauto|].
  clear. revert x q. induction l1 as [|y l1 IH]; intros x q; [done|]. simpl in *. destruct l1; [done|].
  apply IH.
Qed.

Lemma seg_frame m m' l : forall q nxt,
  (forall x, x ∈ l -> m' !! x = m !! x) -> seg m q l nxt -> seg m' q l nxt.
Proof.
  induction l as [|x l IH]; intros q nxt Hf; cbn [seg]; [done|]. intros [Hx Hl].
  split; [rewrite Hf by set_solver; done|]. apply IH; [set_solver|done].
Qed.

Lemma qld_ok m p n : m !! p = Some n -> qld p m = Ok (n, m).
Proof. unfold qld. by intros ->. Qed.
Lemma set_next_ok m p v n :
  m !! p = Some n -> set_next p v m = Ok (tt, <[p := QNode v (qprev n)]> m).
Proof. unfold set_next. by intros ->. Qed.
Lemma set_prev_ok m p v n :
  m !! p = Some n -> set_prev p v m = Ok (tt, <[p := QNode (qnext n) v]> m).
Proof. unfold set_prev. by intros ->. Qed.

Ltac qlook :=
  repeat first [rewrite lookup_insert_eq | rewrite lookup_insert_ne by congruence];
  first [reflexivity | eassumption].
Ltac qstep :=
  erewrite sbind_Ok;
  [| first [eapply qld_ok | eapply set_next_ok | eapply set_prev_ok]; qlook];
  cbn [qnext qprev].
(** A segment none of whose nodes was written. *)
Ltac qframe :=
  eapply seg_frame; [|eassumption]; intros ? ?; rewrite ?lookup_insert_ne by set_solver; done.

(** Linking [e] after [p]. *)
Lemma insque_spec m l1 p l2 e n0 :
  queue m (l1 ++ p :: l2) -> m !! e = Some n0 -> e <> 0 -> e ∉ l1 ++ p :: l2 ->
  exists m', insque e p m = Ok (tt, m') /\ queue m' (l1 ++ p :: e :: l2) /\
    (forall x, x ∉ l1 ++ p :: e :: l2 -> m' !! x = m !! x).
Proof.
  intros (Hs & Hn & H0) He He0 Hfr. pose proof Hs as (H1 & Hp & H2)%seg_app. fold seg in H2.
  assert (NoDup (l1 ++ p :: e :: l2) /\ 0 ∉ l1 ++ p :: e :: l2) as [Hn' H0'].
  { split; [|set_solver]. replace (l1 ++ p :: e :: l2) with ((l1 ++ [p]) ++ e :: l2)
      by (by rewrite <- app_assoc).
    rewrite <- Permutation_middle, <- app_assoc. by constructor. }
  assert (p <> 0 /\ e <> p) as [Hp0 Hep] by set_solver.
  pose proof Hn as (_ & Hd1 & (Hp2 & Hn2)%NoDup_cons)%NoDup_app.
  unfold insque. rewrite (proj2 (Z.eqb_neq p 0)) by done.
  do 5 qstep.
  destruct l2 as [|y l2]; cbn [hd].
  - cbn [Z.eqb negb]. eexists. split; [reflexivity|]. split; [split; [|done]|].
    + apply seg_app. cbn [seg hd]. split; [qframe|]. split_and!; [qlook|qlook|done].
    + intros x Hx. rewrite !lookup_insert_ne by set_solver. done.
  - assert (y <> 0 /\ y <> e /\ y <> p /\ y ∉ l1) as (Hy0 & Hye & Hyp & Hy1) by set_solver.
    cbn [seg] in H2. destruct H2 as [Hy H2]. apply NoDup_cons in Hn2 as [Hy2 _].
    rewrite (proj2 (Z.eqb_neq y 0)) by done. cbn [negb].
    erewrite set_prev_ok by qlook. eexists. split; [reflexivity|]. cbn [qnext].
    split; [split; [|done]|].
    + apply seg_app. cbn [seg hd]. split; [qframe|]. split_and!; [qlook|qlook|qlook|qframe].
    + intros x Hx. rewrite !lookup_insert_ne by set_solver. done.
Qed.

(** Unlinking [e]. *)
Lemma remque_spec m l1 e l2 :
  queue m (l1 ++ e :: l2) ->
  exists m', remque e m = Ok (tt, m') /\ queue m' (l1 ++ l2) /\
    (forall x, x ∉ l1 ++ l2 -> m' !! x = m !! x).
Proof.
  intros (Hs & Hn & H0). pose proof Hs as (H1 & He & H2)%seg_app. fold seg in H2.
  assert (NoDup (l1 ++ l2) /\ 0 ∉ l1 ++ l2 /\ e ∉ l1 ++ l2) as (Hn' & H0' & Hen).
  { rewrite <- Permutation_middle in Hn. apply NoDup_cons in Hn as [? ?]. set_solver. }
  unfold remque. qstep.
  assert (exists m1,
    (if negb (hd 0 l2 =? 0) then let* x := qld e in set_prev (qnext x) (qprev x) else sret tt) m
      = Ok (tt, m1) /\ seg m1 (List.last l1 0) l2 0 /\
    (forall x, x ∉ l2 -> m1 !! x = m !! x)) as (m1 & Hm1 & Hs2 & Ho1).
  { destruct l2 as [|y l2]; cbn [hd]; [by exists m|].
    rewrite (proj2 (Z.eqb_neq y 0)) by set_solver. cbn [negb]. qstep.
    cbn [seg] in H2. destruct H2 as [Hy H2].
    apply NoDup_app in Hn' as (_ & _ & (Hy2 & _)%NoDup_cons).
    eexists. split; [apply set_prev_ok; done|]. cbn [qnext seg]. split.
    - split; [by rewrite lookup_insert_eq|]. qframe.
    - intros x Hx. rewrite lookup_insert_ne by set_solver. done. }
  rewrite (sbind_Ok _ _ _ _ _ Hm1).
  rewrite <- (Ho1 e) in He by set_solver. qstep.
  destruct l1 as [|z l1 _] using rev_ind.
  { simpl in *. exists m1. split; [done|]. split; [split; [|done]; done|]. set_solver. }
  rewrite last_last in *. rewrite (proj2 (Z.eqb_neq z 0)) by set_solver. cbn [negb]. qstep.
  apply seg_app in H1 as (H1 & Hz & _). cbn [hd] in *.
  pose proof Hn' as ((_ & Hdz & _)%NoDup_app & Hd & _)%NoDup_app.
  assert (m1 !! z = Some (QNode e (List.last l1 0))) as Hz1 by (rewrite Ho1 by set_solver; done).
  assert (z ∉ l1 /\ z ∉ l2) as [Hzl1 Hzl2] by set_solver.
  eexists. split; [by apply set_next_ok|]. cbn [qprev]. split; [split; [|done]|].
  - apply seg_app. split; [apply seg_app; cbn [seg hd]; split; [|by rewrite lookup_insert_eq]|].
    + eapply seg_frame; [|exact H1]. intros x Hx. rewrite lookup_insert_ne by set_solver.
      apply Ho1. set_solver.
    + rewrite last_last. qframe.
  - intros x Hx. rewrite lookup_insert_ne by set_solver. apply Ho1. set_solver.
Qed.

(** On a doubly linked queue, [insque] of a node that is not in it links
    the node right after its predecessor and [remque] takes a node out, each
    keeping every link in both directions right and touching no other node;
    removing a node that was just inserted gives back the queue there was. *)
Theorem queue_insert_remove m l1 p l2 e n0 :
  queue m (l1 ++ p :: l2) -> m !! e = Some n0 -> e <> 0 -> e ∉ l1 ++ p :: l2 ->
  exists m1 m2,
    insque e p m = Ok (tt, m1) /\ queue m1 (l1 ++ p :: e :: l2) /\
    (forall x, x ∉ l1 ++ p :: e :: l2 -> m1 !! x = m !! x) /\
    remque e m1 = Ok (tt, m2) /\ queue m2 (l1 ++ p :: l2) /\
    (forall x, x ∉ l1 ++ p :: l2 -> m2 !! x = m1 !! x).
Proof.
  intros Hq He He0 Hfr. destruct (insque_spec m l1 p l2 e n0 Hq He He0 Hfr) as (m1 & Hi & Hq1 & Ho1).
  pose proof (remque_spec m1 (l1 ++ [p]) e l2) as Hr. rewrite <- !app_assoc in Hr.
  destruct (Hr Hq1) as (m2 & Hr2 & Hq2 & Ho2). by exists m1, m2.
Qed.

(** Node 3 between 1 and 2. *)
Definition ex_queue : qstore :=
  <[1 := QNode 2 0]> (<[2 := QNode 0 1]> (<[3 := QNode 77 78]> ∅)).

Lemma queue_insert_remove_witness :
  exists m1 m2,
    insque 3 1 ex_queue = Ok (tt, m1) /\ queue m1 [1; 3; 2] /\
    (forall x, x ∉ [1; 3; 2] -> m1 !! x = ex_queue !! x) /\
    remque 3 m1 = Ok (tt, m2) /\ queue m2 [1; 2] /\
    (forall x, x ∉ [1; 2] -> m2 !! x = m1 !! x).
Proof.
  apply (queue_insert_remove ex_queue [] 1 [2] 3 (QNode 77 78)).
  - split; [vm_compute; done|]. split; apply (bool_decide_unpack _); by vm_compute.
  - reflexivity.
  - lia.
  - apply (bool_decide_unpack _); by vm_compute.
Defined.

(** [lfind] returns the first element that compares equal to the key, or
    null when there is none; [lsearch] does the same and otherwise stores the
    key in the slot after the last element and counts it, so that a search for
    the key finds it there. *)
Theorem lsearch_correct {A} (compar : A -> A -> Z) k p n :
  0 <= n < zlen p -> zlen p < 2 ^ 32 ->
  exists r, lfind compar k p n = Ok r /\
    match r with
    | Some i => 0 <= i < n /\ (exists x, p !! Z.to_nat i = Some x /\ matches compar k x) /\
        (forall j x, 0 <= j < i -> p !! Z.to_nat j = Some x -> ~ matches compar k x) /\
        lsearch compar k p n = Ok (i, p, n)
    | None => (forall j x, 0 <= j < n -> p !! Z.to_nat j = Some x -> ~ matches compar k x) /\
        exists p', lsearch compar k p n = Ok (n, p', n + 1) /\ zlen p' = zlen p /\
          p' !! Z.to_nat n = Some k /\ (forall j, j <> Z.to_nat n -> p' !! j = p !! j) /\
          (matches compar k k -> lfind compar k p' (n + 1) = Ok (Some n))
    end.
Proof.
  intros Hn Hp. unfold lfind, lsearch.
  destruct (scan_spec compar k p n ltac:(lia) ltac:(lia) (S (Z.to_nat n)) 0) as (r & -> & Hr); [lia..|].
  exists r. split; [done|]. cbn [obind]. destruct r as [i|]; [naive_solver|]. split; [done|].
  rewrite zset_in_range by lia. cbn [obind]. rewrite u32_id by (split; lia).
  set (p' := <[Z.to_nat n := k]> p). assert (zlen p' = zlen p) as Hl by apply zlen_insert.
  assert (p' !! Z.to_nat n = Some k) as Hk by (apply list_lookup_insert_eq; unfold zlen in *; lia).
  assert (forall j, j <> Z.to_nat n -> p' !! j = p !! j) as Ho.
  { intros j Hj. by apply list_lookup_insert_ne. }
  exists p'. split_and!; try done. intros Hkk.
  destruct (scan_spec compar k p' (n + 1) ltac:(lia) ltac:(lia) (S (Z.to_nat (n + 1))) 0)
    as (r & -> & Hr'); [lia..|].
  destruct r as [i|]; [|exfalso; by apply (Hr' n k); [lia|..]].
  destruct Hr' as (Hi & (x & Hx & Hm) & _). destruct (Z.eq_dec i n) as [-> |Hne]; [done|].
  exfalso. rewrite Ho in Hx by lia. by apply (Hr i x); [lia|..].
Qed.

Lemma lsearch_correct_witness :
  exists r, lfind Z.sub 9 [4; 5; 0] 2 = Ok r /\
    match r with
    | Some i => 0 <= i < 2 /\ (exists x, [4; 5; 0] !! Z.to_nat i = Some x /\ matches Z.sub 9 x) /\
        (forall j x, 0 <= j < i -> [4; 5; 0] !! Z.to_nat j = Some x -> ~ matches Z.sub 9 x) /\
        lsearch Z.sub 9 [4; 5; 0] 2 = Ok (i, [4; 5; 0], 2)
    | None => (forall j x, 0 <= j < 2 -> [4; 5; 0] !! Z.to_nat j = Some x -> ~ matches Z.sub 9 x) /\
        exists p', lsearch Z.sub 9 [4; 5; 0] 2 = Ok (2, p', 2 + 1) /\ zlen p' = zlen [4; 5; 0] /\
          p' !! Z.to_nat 2 = Some 9 /\ (forall j, j <> Z.to_nat 2 -> p' !! j = [4; 5; 0] !! j) /\
          (matches Z.sub 9 9 -> lfind Z.sub 9 p' (2 + 1) = Ok (Some 2))
    end.
Proof. apply (lsearch_correct Z.sub 9 [4; 5; 0] 2); unfold zlen; simpl; lia. Defined.
