(* ===== verification/Syscalls.v ===== *)
(** The calls of wasi-libc's bottom half that go to the host directly
    (libc-bottom-half/cloudlibc/src/libc: fcntl/, sys/stat/, unistd/, sys/uio/,
    stdio/renameat.c, sys/socket/, sys/ioctl/; sources/isatty.c, getentropy.c,
    __wasilibc_unlinkat.c, __wasilibc_rmdirat.c).

    A function of the library is a program that asks the host: [prog A] is a
    tree of host calls that ends in a result, and [run] plays it against a
    host.  The host is a parameter; what the theorems need of it, the
    documented behaviour of WASI's rights and timestamps, is the class
    [WasiFiles].  They show that the two agree with POSIX: the access mode
    asked of [openat] is the one [fcntl] reports and [read] and [write] obey,
    and the times given to [futimens] are the ones [fstat] reports. *)

From S2P Require Import Prelude Events.

(** * Constants of wasi/api.h and the public headers *)

Definition right (n : Z) : Z := Z.shiftl 1 n.
Definition RIGHTS_FD_DATASYNC : Z := right 0.
Definition RIGHTS_FD_READ : Z := right 1.
Definition RIGHTS_FD_SEEK : Z := right 2.
Definition RIGHTS_FD_TELL : Z := right 5.
Definition RIGHTS_FD_WRITE : Z := right 6.
Definition RIGHTS_FD_ALLOCATE : Z := right 8.
Definition RIGHTS_FD_READDIR : Z := right 14.
Definition RIGHTS_FD_FILESTAT_SET_SIZE : Z := right 22.

Definition O_NOFOLLOW : Z := 0x01000000.
Definition O_EXEC : Z := 0x02000000.
Definition O_RDONLY : Z := 0x04000000.
Definition O_SEARCH : Z := 0x08000000.
Definition O_WRONLY : Z := 0x10000000.
Definition O_RDWR : Z := Z.lor O_RDONLY O_WRONLY.
Definition O_ACCMODE : Z := Z.lor (Z.lor O_EXEC O_RDWR) O_SEARCH.
Definition F_GETFD : Z := 1.
Definition F_SETFD : Z := 2.
Definition F_GETFL : Z := 3.
Definition F_SETFL : Z := 4.
Definition FD_CLOEXEC : Z := 1.
Definition AT_EACCESS : Z := 0.
Definition AT_SYMLINK_NOFOLLOW : Z := 1.
Definition AT_SYMLINK_FOLLOW : Z := 2.
Definition AT_REMOVEDIR : Z := 4.
Definition X_OK : Z := 1.
Definition W_OK : Z := 2.
Definition R_OK : Z := 4.
Definition LOOKUPFLAGS_SYMLINK_FOLLOW : Z := 1.
Definition FDFLAGS_NONBLOCK : Z := 4.
Definition FSTFLAGS_ATIM : Z := 1.
Definition FSTFLAGS_ATIM_NOW : Z := 2.
Definition FSTFLAGS_MTIM : Z := 4.
Definition FSTFLAGS_MTIM_NOW : Z := 8.
Definition UTIME_NOW : Z := -1.
Definition UTIME_OMIT : Z := -2.
Definition FILETYPE_BLOCK_DEVICE : Z := 1.
Definition FILETYPE_CHARACTER_DEVICE : Z := 2.
Definition FILETYPE_DIRECTORY : Z := 3.
Definition FILETYPE_REGULAR_FILE : Z := 4.
Definition FILETYPE_SOCKET_DGRAM : Z := 5.
Definition FILETYPE_SOCKET_STREAM : Z := 6.
Definition FILETYPE_SYMBOLIC_LINK : Z := 7.
Definition S_IFCHR : Z := 0x2000.
Definition S_IFDIR : Z := 0x4000.
Definition S_IFBLK : Z := 0x6000.
Definition S_IFREG : Z := 0x8000.
Definition S_IFLNK : Z := 0xa000.
Definition S_IFSOCK : Z := 0xc000.
Definition EIO : Z := 29.
Definition ENOPROTOOPT : Z := 50.
Definition ENOTSOCK : Z := 57.
Definition EOPNOTSUPP : Z := ENOTSUP.
Definition ENOTTY : Z := 59.
Definition ESPIPE : Z := 70.
Definition MSG_PEEK : Z := 1.
Definition MSG_WAITALL : Z := 2.
Definition SHUT_RD : Z := 1.
Definition SHUT_WR : Z := 2.
Definition SHUT_RDWR : Z := Z.lor SHUT_RD SHUT_WR.
Definition SOL_SOCKET : Z := 0x7fffffff.
Definition SO_TYPE : Z := 3.
Definition FIONREAD : Z := 1.
Definition FIONBIO : Z := 2.

(** * The host's calls *)

(** [__wasi_fdstat_t] and [__wasi_filestat_t]. *)
Record fdstat := Fdstat {
  fs_filetype : Z; fs_flags : Z; fs_rights_base : Z; fs_rights_inheriting : Z }.
Record filestat := Filestat {
  dev : Z; ino : Z; filetype : Z; nlink : Z; size : Z; atim : Z; mtim : Z; ctim : Z }.

(** The event of a poll for readable bytes. *)
Record read_event := ReadEvent { ev_error : Z; ev_type : Z; ev_nbytes : Z }.

Notation path := (list Z).

(** A call and what it gives on success.  Buffers are byte lists: a read is
    given the lengths of the buffers and gives the bytes it stored. *)
Inductive wasi : Type -> Type :=
| fd_fdstat_get (fd : Z) : wasi fdstat
| fd_fdstat_set_flags (fd flags : Z) : wasi unit
| path_open (fd lookup : Z) (p : path) (oflags base inheriting fdflags : Z) : wasi Z
| fd_filestat_get (fd : Z) : wasi filestat
| path_filestat_get (fd lookup : Z) (p : path) : wasi filestat
| fd_filestat_set_times (fd atim mtim fstflags : Z) : wasi unit
| path_filestat_set_times (fd lookup : Z) (p : path) (atim mtim fstflags : Z) : wasi unit
| fd_filestat_set_size (fd size : Z) : wasi unit
| fd_seek (fd offset whence : Z) : wasi Z
| fd_read (fd : Z) (lens : list Z) : wasi (list Z)
| fd_write (fd : Z) (bufs : list (list Z)) : wasi Z
| fd_pread (fd : Z) (lens : list Z) (offset : Z) : wasi (list Z)
| fd_pwrite (fd : Z) (bufs : list (list Z)) (offset : Z) : wasi Z
| fd_close (fd : Z) : wasi unit
| fd_sync (fd : Z) : wasi unit
| fd_datasync (fd : Z) : wasi unit
| fd_advise (fd offset len advice : Z) : wasi unit
| fd_allocate (fd offset len : Z) : wasi unit
| path_create_directory (fd : Z) (p : path) : wasi unit
| path_readlink (fd : Z) (p : path) (bufsize : Z) : wasi (list Z)
| path_link (fd1 lookup : Z) (p1 : path) (fd2 : Z) (p2 : path) : wasi unit
| path_symlink (p1 : path) (fd : Z) (p2 : path) : wasi unit
| path_rename (fd1 : Z) (p1 : path) (fd2 : Z) (p2 : path) : wasi unit
| path_unlink_file (fd : Z) (p : path) : wasi unit
| path_remove_directory (fd : Z) (p : path) : wasi unit
| sock_recv (fd : Z) (lens : list Z) (riflags : Z) : wasi (list Z)
| sock_send (fd : Z) (bufs : list (list Z)) (siflags : Z) : wasi Z
| sock_shutdown (fd how : Z) : wasi unit
| random_get (len : Z) : wasi (list Z)
| poll_oneoff (subs : list Events.subscription) : wasi (list read_event).

(** A program: host calls whose answers, an error number or a value, decide
    how it goes on. *)
Inductive prog (A : Type) : Type :=
| Ret (a : A)
| Ask {X} (c : wasi X) (k : res X -> prog A).
Arguments Ret {A} a.
Arguments Ask {A X} c k.

(** [ask x <- c; k]: the call, failing with its error number; [ask_or] first
    maps the error number. *)
Definition ask_or {X A} (fix_errno : Z -> Z) (c : wasi X) (k : X -> prog (res A)) : prog (res A) :=
  Ask c (fun r => match r with Err e => Ret (Err (fix_errno e)) | Val x => k x end).
Notation "'ask' x '<-' c ';' k" := (ask_or id c (fun x => k))
  (at level 20, x pattern, c at level 100, k at level 200) : c_scope.

Definition set_bit (flag x : Z) : bool := ctrue (Z.land x flag).

(** common/errno.h *)
Definition errno_fixup_directory (fd error : Z) : Z := error.
Definition errno_fixup_socket (fd error : Z) : Z := error.

(** * Opening files *)

Definition openat_nomode (fd : Z) (p : path) (oflag : Z) : prog (res Z) :=
  let max := u64 (Z.lnot (Z.lor (Z.lor (Z.lor (Z.lor (Z.lor
    RIGHTS_FD_DATASYNC RIGHTS_FD_READ) RIGHTS_FD_WRITE) RIGHTS_FD_ALLOCATE)
    RIGHTS_FD_READDIR) RIGHTS_FD_FILESTAT_SET_SIZE)) in
  let mode := Z.land oflag O_ACCMODE in
  let max' :=
    if (mode =? O_RDONLY) || (mode =? O_RDWR) || (mode =? O_WRONLY) then
      let max := if set_bit O_RDONLY oflag
                 then Z.lor max (Z.lor RIGHTS_FD_READ RIGHTS_FD_READDIR) else max in
      let max := if set_bit O_WRONLY oflag
                 then Z.lor max (Z.lor (Z.lor (Z.lor RIGHTS_FD_DATASYNC RIGHTS_FD_WRITE)
                        RIGHTS_FD_ALLOCATE) RIGHTS_FD_FILESTAT_SET_SIZE) else max in
      Some max
    else if (mode =? O_EXEC) || (mode =? O_SEARCH) then Some max
    else None in
  match max' with
  | None => Ret (Err EINVAL)
  | Some max =>
      ask fsb_cur <- fd_fdstat_get fd;
      let lookup_flags := if set_bit O_NOFOLLOW oflag then 0 else LOOKUPFLAGS_SYMLINK_FOLLOW in
      let fs_flags := Z.land oflag 0xfff in
      let fs_rights_base := Z.land max (fs_rights_inheriting fsb_cur) in
      ask_or (errno_fixup_directory fd)
        (path_open fd lookup_flags p (Z.land (Z.shiftr oflag 12) 0xfff)
           fs_rights_base (fs_rights_inheriting fsb_cur) fs_flags)
        (fun newfd => Ret (Val newfd))
  end.

(** [arg] is the variable argument. *)
Definition fcntl (fildes cmd arg : Z) : prog (res Z) :=
  if cmd =? F_GETFD then Ret (Val FD_CLOEXEC)
  else if cmd =? F_SETFD then Ret (Val 0)
  else if cmd =? F_GETFL then
    ask fds <- fd_fdstat_get fildes;
    let oflags := fs_flags fds in
    Ret (Val (
      if ctrue (Z.land (fs_rights_base fds) (Z.lor RIGHTS_FD_READ RIGHTS_FD_READDIR)) then
        if ctrue (Z.land (fs_rights_base fds) RIGHTS_FD_WRITE) then Z.lor oflags O_RDWR
        else Z.lor oflags O_RDONLY
      else if ctrue (Z.land (fs_rights_base fds) RIGHTS_FD_WRITE) then Z.lor oflags O_WRONLY
      else Z.lor oflags O_SEARCH))
  else if cmd =? F_SETFL then
    ask _ <- fd_fdstat_set_flags fildes (Z.land arg 0xfff);
    Ret (Val 0)
  else Ret (Err EINVAL).

Definition faccessat (fd : Z) (p : path) (amode flag : Z) : prog (res Z) :=
  if ctrue (Z.land amode (Z.lnot (Z.lor (Z.lor R_OK W_OK) X_OK)))
     || ctrue (Z.land flag (Z.lnot AT_EACCESS)) then Ret (Err EINVAL)
  else
    ask_or (errno_fixup_directory fd) (path_filestat_get fd LOOKUPFLAGS_SYMLINK_FOLLOW p) (fun file =>
    if negb (amode =? 0) then
      ask directory <- fd_fdstat_get fd;
      let min := if set_bit R_OK amode
                 then (if filetype file =? FILETYPE_DIRECTORY then RIGHTS_FD_READDIR
                       else RIGHTS_FD_READ) else 0 in
      let min := if set_bit W_OK amode then Z.lor min RIGHTS_FD_WRITE else min in
      if negb (Z.land min (fs_rights_inheriting directory) =? min) then Ret (Err EACCES)
      else Ret (Val 0)
    else Ret (Val 0)).

(** * File status *)

(** The fields of [struct stat] the library fills. *)
Record stat := Stat {
  st_dev : Z; st_ino : Z; st_nlink : Z; st_mode : Z; st_size : Z;
  st_atim : Events.timespec; st_mtim : Events.timespec; st_ctim : Events.timespec }.

Definition to_public_stat (i : filestat) : stat :=
  let mode :=
    if filetype i =? FILETYPE_BLOCK_DEVICE then S_IFBLK
    else if filetype i =? FILETYPE_CHARACTER_DEVICE then S_IFCHR
    else if filetype i =? FILETYPE_DIRECTORY then S_IFDIR
    else if filetype i =? FILETYPE_REGULAR_FILE then S_IFREG
    else if (filetype i =? FILETYPE_SOCKET_DGRAM) || (filetype i =? FILETYPE_SOCKET_STREAM) then S_IFSOCK
    else if filetype i =? FILETYPE_SYMBOLIC_LINK then S_IFLNK
    else 0 in
  Stat (dev i) (ino i) (nlink i) mode (s64 (size i))
    (Events.timestamp_to_timespec (atim i)) (Events.timestamp_to_timespec (mtim i))
    (Events.timestamp_to_timespec (ctim i)).

Definition fstat (fildes : Z) : prog (res stat) :=
  ask internal_stat <- fd_filestat_get fildes;
  Ret (Val (to_public_stat internal_stat)).

Definition fstatat (fd : Z) (p : path) (flag : Z) : prog (res stat) :=
  let lookup_flags := if set_bit AT_SYMLINK_NOFOLLOW flag then 0 else LOOKUPFLAGS_SYMLINK_FOLLOW in
  ask_or (errno_fixup_directory fd) (path_filestat_get fd lookup_flags p)
    (fun internal_stat => Ret (Val (to_public_stat internal_stat))).

(** One of the two switches of [utimens_get_timestamps]: the flags and the
    timestamp, or the failure of the conversion. *)
Definition utimens_one (t : Events.timespec) (flag_set flag_now : Z) : option (Z * Z) :=
  if Events.tv_nsec t =? UTIME_NOW then Some (flag_now, 0)
  else if Events.tv_nsec t =? UTIME_OMIT then Some (0, 0)
  else match Events.timespec_to_timestamp_exact t 0 with
       | (true, ts) => Some (flag_set, ts)
       | (false, _) => None
       end.

(** The two timestamps and the flags, for a null [times] or the array. *)
Definition utimens_get_timestamps (times : option (Events.timespec * Events.timespec))
  : option (Z * Z * Z) :=
  match times with
  | None => Some (0, 0, Z.lor FSTFLAGS_ATIM_NOW FSTFLAGS_MTIM_NOW)
  | Some (t0, t1) =>
      match utimens_one t0 FSTFLAGS_ATIM FSTFLAGS_ATIM_NOW with
      | None => None
      | Some (f0, a) =>
          match utimens_one t1 FSTFLAGS_MTIM FSTFLAGS_MTIM_NOW with
          | None => None
          | Some (f1, m) => Some (a, m, Z.lor f0 f1)
          end
      end
  end.

Definition futimens (fd : Z) (times : option (Events.timespec * Events.timespec)) : prog (res Z) :=
  match utimens_get_timestamps times with
  | None => Ret (Err EINVAL)
  | Some (a, m, flags) => ask _ <- fd_filestat_set_times fd a m flags; Ret (Val 0)
  end.

Definition utimensat (fd : Z) (p : path) (times : option (Events.timespec * Events.timespec))
  (flag : Z) : prog (res Z) :=
  match utimens_get_timestamps times with
  | None => Ret (Err EINVAL)
  | Some (a, m, flags) =>
      let lookup_flags := if set_bit AT_SYMLINK_NOFOLLOW flag then 0 else LOOKUPFLAGS_SYMLINK_FOLLOW in
      ask_or (errno_fixup_directory fd) (path_filestat_set_times fd lookup_flags p a m flags)
        (fun _ => Ret (Val 0))
  end.

(** * Input and output *)

(** [error == ENOTCAPABLE ? e : error] *)
Definition notcapable (e error : Z) : Z := if error =? ENOTCAPABLE then e else error.

(** The result of a read is the count, as an [ssize_t], and the bytes stored. *)
Definition got (data : list Z) : prog (res (Z * list Z)) := Ret (Val (s32 (zlen data), data)).

Definition read (fildes nbyte : Z) : prog (res (Z * list Z)) :=
  ask_or (notcapable EBADF) (fd_read fildes [nbyte]) got.

Definition write (fildes : Z) (buf : list Z) : prog (res Z) :=
  ask_or (notcapable EBADF) (fd_write fildes [buf]) (fun n => Ret (Val (s32 n))).

(** Why a positioned call got [ENOTCAPABLE]: the descriptor does not have the
    right [need], or it cannot seek. *)
Definition why_notcapable {A} (fildes need error : Z) : prog (res A) :=
  if error =? ENOTCAPABLE then
    Ask (fd_fdstat_get fildes) (fun r =>
      match r with
      | Val fds => if Z.land (fs_rights_base fds) need =? 0 then Ret (Err EBADF) else Ret (Err ESPIPE)
      | Err _ => Ret (Err error)
      end)
  else Ret (Err error).

Definition pread (fildes nbyte offset : Z) : prog (res (Z * list Z)) :=
  if offset <? 0 then Ret (Err EINVAL)
  else Ask (fd_pread fildes [nbyte] offset) (fun r =>
    match r with
    | Err error => why_notcapable fildes RIGHTS_FD_READ error
    | Val data => got data
    end).

Definition pwrite (fildes : Z) (buf : list Z) (offset : Z) : prog (res Z) :=
  if offset <? 0 then Ret (Err EINVAL)
  else Ask (fd_pwrite fildes [buf] offset) (fun r =>
    match r with
    | Err error => why_notcapable fildes RIGHTS_FD_WRITE error
    | Val n => Ret (Val (s32 n))
    end).

(** [iovcnt] buffers of the array: its lengths, or its contents. *)
Definition readv (fildes : Z) (lens : list Z) (iovcnt : Z) : prog (res (Z * list Z)) :=
  if iovcnt <? 0 then Ret (Err EINVAL)
  else ask data <- fd_read fildes (take (Z.to_nat iovcnt) lens); got data.

Definition writev (fildes : Z) (bufs : list (list Z)) (iovcnt : Z) : prog (res Z) :=
  if iovcnt <? 0 then Ret (Err EINVAL)
  else ask n <- fd_write fildes (take (Z.to_nat iovcnt) bufs); Ret (Val (s32 n)).

Definition preadv (fildes : Z) (lens : list Z) (iovcnt offset : Z) : prog (res (Z * list Z)) :=
  if (iovcnt <? 0) || (offset <? 0) then Ret (Err EINVAL)
  else ask data <- fd_pread fildes (take (Z.to_nat iovcnt) lens) offset; got data.

Definition pwritev (fildes : Z) (bufs : list (list Z)) (iovcnt offset : Z) : prog (res Z) :=
  if (iovcnt <? 0) || (offset <? 0) then Ret (Err EINVAL)
  else ask n <- fd_pwrite fildes (take (Z.to_nat iovcnt) bufs) offset; Ret (Val (s32 n)).

Definition lseek (fildes offset whence : Z) : prog (res Z) :=
  ask_or (notcapable ESPIPE) (fd_seek fildes offset whence) (fun new_offset => Ret (Val (s64 new_offset))).

Definition ftruncate (fildes length : Z) : prog (res Z) :=
  if length <? 0 then Ret (Err EINVAL)
  else ask _ <- fd_filestat_set_size fildes length; Ret (Val 0).

Definition close (fildes : Z) : prog (res Z) := ask _ <- fd_close fildes; Ret (Val 0).
Definition fsync (fildes : Z) : prog (res Z) :=
  ask_or (notcapable EINVAL) (fd_sync fildes) (fun _ => Ret (Val 0)).
Definition fdatasync (fildes : Z) : prog (res Z) :=
  ask_or (notcapable EBADF) (fd_datasync fildes) (fun _ => Ret (Val 0)).

(** These two return the error number. *)
Definition posix_fadvise (fd offset len advice : Z) : prog Z :=
  if (offset <? 0) || (len <? 0) then Ret EINVAL
  else Ask (fd_advise fd offset len advice)
    (fun r => Ret (match r with Err e => e | Val _ => 0 end)).
Definition posix_fallocate (fd offset len : Z) : prog Z :=
  if (offset <? 0) || (len <? 0) then Ret EINVAL
  else Ask (fd_allocate fd offset len) (fun r => Ret (match r with Err e => e | Val _ => 0 end)).

(** * Directories and links *)

Definition mkdirat_nomode (fd : Z) (p : path) : prog (res Z) :=
  ask_or (errno_fixup_directory fd) (path_create_directory fd p) (fun _ => Ret (Val 0)).

(** The bytes of the link and their count. *)
Definition readlinkat (fd : Z) (p : path) (bufsize : Z) : prog (res (Z * list Z)) :=
  ask_or (errno_fixup_directory fd) (path_readlink fd p bufsize) got.

Definition linkat (fd1 : Z) (p1 : path) (fd2 : Z) (p2 : path) (flag : Z) : prog (res Z) :=
  let lookup1_flags := if set_bit AT_SYMLINK_FOLLOW flag then LOOKUPFLAGS_SYMLINK_FOLLOW else 0 in
  ask_or (fun error => errno_fixup_directory fd1 (errno_fixup_directory fd2 error))
    (path_link fd1 lookup1_flags p1 fd2 p2) (fun _ => Ret (Val 0)).

Definition symlinkat (p1 : path) (fd : Z) (p2 : path) : prog (res Z) :=
  ask_or (errno_fixup_directory fd) (path_symlink p1 fd p2) (fun _ => Ret (Val 0)).

Definition renameat (oldfd : Z) (old : path) (newfd : Z) (new : path) : prog (res Z) :=
  ask_or (fun error => errno_fixup_directory oldfd (errno_fixup_directory newfd error))
    (path_rename oldfd old newfd new) (fun _ => Ret (Val 0)).

Definition wasilibc_unlinkat (fd : Z) (p : path) : prog (res Z) :=
  ask _ <- path_unlink_file fd p; Ret (Val 0).
Definition wasilibc_rmdirat (fd : Z) (p : path) : prog (res Z) :=
  ask_or (errno_fixup_directory fd) (path_remove_directory fd p) (fun _ => Ret (Val 0)).
Definition unlinkat (fd : Z) (p : path) (flag : Z) : prog (res Z) :=
  if set_bit AT_REMOVEDIR flag then wasilibc_rmdirat fd p else wasilibc_unlinkat fd p.

(** * Sockets, terminals and devices *)

Definition recv (socket length flags : Z) : prog (res (Z * list Z)) :=
  if ctrue (Z.land flags (Z.lnot (Z.lor MSG_PEEK MSG_WAITALL))) then Ret (Err EOPNOTSUPP)
  else ask_or (errno_fixup_socket socket) (sock_recv socket [length] flags) got.

Definition send (socket : Z) (buffer : list Z) (flags : Z) : prog (res Z) :=
  if negb (flags =? 0) then Ret (Err EOPNOTSUPP)
  else ask_or (errno_fixup_socket socket) (sock_send socket [buffer] 0) (fun n => Ret (Val (s32 n))).

Definition shutdown (socket how : Z) : prog (res Z) :=
  if negb (how =? SHUT_RD) && negb (how =? SHUT_WR) && negb (how =? SHUT_RDWR) then Ret (Err EINVAL)
  else ask_or (errno_fixup_socket socket) (sock_shutdown socket how) (fun _ => Ret (Val 0)).

(** The bytes of an [int], and how many of them [getsockopt] copies out; it
    sets [*option_len] to [sizeof(int)]. *)
Definition int_bytes (v : Z) : list Z :=
  [Z.land v 0xff; Z.land (Z.shiftr v 8) 0xff; Z.land (Z.shiftr v 16) 0xff; Z.land (Z.shiftr v 24) 0xff].

Definition getsockopt (socket level option_name option_len : Z) : prog (res (list Z * Z)) :=
  if negb (level =? SOL_SOCKET) then Ret (Err ENOPROTOOPT)
  else if option_name =? SO_TYPE then
    ask_or (fun _ => EBADF) (fd_fdstat_get socket) (fun fsb =>
    if negb (fs_filetype fsb =? FILETYPE_SOCKET_DGRAM)
       && negb (fs_filetype fsb =? FILETYPE_SOCKET_STREAM) then Ret (Err ENOTSOCK)
    else
      let value := fs_filetype fsb in
      Ret (Val (take (Z.to_nat (if option_len <? 4 then option_len else 4)) (int_bytes value), 4)))
  else Ret (Err ENOPROTOOPT).

(** The loop over the events of [FIONREAD]. *)
Fixpoint fionread_events (evs : list read_event) : res Z :=
  match evs with
  | [] => Val 0
  | event :: evs' =>
      if negb (ev_error event =? 0) then Err (ev_error event)
      else if ev_type event =? Events.EVENTTYPE_FD_READ then Val (s32 (ev_nbytes event))
      else fionread_events evs'
  end.

(** [arg] is what the pointer argument points to; [FIONREAD] gives the value it
    stores there, [FIONBIO] gives 0. *)
Definition ioctl (fildes request arg : Z) : prog (res Z) :=
  if request =? FIONREAD then
    ask events <- poll_oneoff [Events.SubRead 0 fildes; Events.SubClock Events.CLOCKID_MONOTONIC 0 0];
    Ret (fionread_events events)
  else if request =? FIONBIO then
    ask fds <- fd_fdstat_get fildes;
    let flags := if negb (arg =? 0) then Z.lor (fs_flags fds) FDFLAGS_NONBLOCK
                 else Z.land (fs_flags fds) (Z.lnot FDFLAGS_NONBLOCK) in
    ask _ <- fd_fdstat_set_flags fildes flags;
    Ret (Val 0)
  else Ret (Err EINVAL).

(** A failure returns 0. *)
Definition isatty (fd : Z) : prog (res Z) :=
  ask statbuf <- fd_fdstat_get fd;
  if negb (fs_filetype statbuf =? FILETYPE_CHARACTER_DEVICE)
     || ctrue (Z.land (fs_rights_base statbuf) (Z.lor RIGHTS_FD_SEEK RIGHTS_FD_TELL))
  then Ret (Err ENOTTY) else Ret (Val 1).

(** The bytes stored. *)
Definition getentropy (len : Z) : prog (res (list Z)) :=
  if 256 <? len then Ret (Err EIO)
  else ask bytes <- random_get len; Ret (Val bytes).

(** * Playing a program against a host *)

Section Run.
Context {S : Type} (host : forall X, wasi X -> S -> res X * S).

Fixpoint run {A} (p : prog A) (s : S) : A * S :=
  match p with
  | Ret a => (a, s)
  | Ask c k => let (r, s') := host _ c s in run (k r) s'
  end.

Lemma run_ask_or {X A} f (c : wasi X) (k : X -> prog (res A)) s :
  run (ask_or f c k) s =
  match host _ c s with
  | (Err e, s') => (Err (f e), s')
  | (Val x, s') => run (k x) s'
  end.
Proof. simpl. by destruct (host X c s) as [[x|e] s']. Qed.
End Run.

(** The right to seek, or the right to tell for a call that leaves the offset as it is. *)
Definition WHENCE_CUR : Z := 1.
Definition may_seek (st : fdstat) (off wh : Z) : bool :=
  Z.testbit (fs_rights_base st) 2 || (Z.testbit (fs_rights_base st) 5 && (wh =? WHENCE_CUR) && (off =? 0)).

(** What WASI documents of a host with files: a descriptor has a status with
    the rights it was opened with, a call that a descriptor lacks the right for
    fails with [ENOTCAPABLE] and only such a call does, a file opened on a
    regular file keeps the rights to read and to write, and setting timestamps
    sets those its flags name. *)
Class WasiFiles {S : Type} (host : forall X, wasi X -> S -> res X * S)
    (fdstat_of : S -> Z -> option fdstat) (filestat_of : S -> Z -> option filestat)
    (now : S -> Z) : Prop := {
  w_fdstat fd s : host _ (fd_fdstat_get fd) s =
    (match fdstat_of s fd with Some st => Val st | None => Err EBADF end, s);
  w_open dirfd lk p ofl base inh fl s newfd s' :
    host _ (path_open dirfd lk p ofl base inh fl) s = (Val newfd, s') ->
    exists st, fdstat_of s' newfd = Some st /\ fs_flags st = fl /\
      (forall n, 0 <= n -> Z.testbit (fs_rights_base st) n = true -> Z.testbit base n = true) /\
      (fs_filetype st = FILETYPE_REGULAR_FILE -> forall n, n = 1 \/ n = 6 ->
         Z.testbit (fs_rights_base st) n = Z.testbit base n);
  w_read fd lens s st : fdstat_of s fd = Some st ->
    if Z.testbit (fs_rights_base st) 1
    then fst (host _ (fd_read fd lens) s) <> Err ENOTCAPABLE
    else host _ (fd_read fd lens) s = (Err ENOTCAPABLE, s);
  w_write fd bufs s st : fdstat_of s fd = Some st ->
    if Z.testbit (fs_rights_base st) 6
    then fst (host _ (fd_write fd bufs) s) <> Err ENOTCAPABLE
    else host _ (fd_write fd bufs) s = (Err ENOTCAPABLE, s);
  w_pread fd lens off s st : fdstat_of s fd = Some st ->
    if Z.testbit (fs_rights_base st) 1 && Z.testbit (fs_rights_base st) 2
    then fst (host _ (fd_pread fd lens off) s) <> Err ENOTCAPABLE
    else host _ (fd_pread fd lens off) s = (Err ENOTCAPABLE, s);
  w_pwrite fd bufs off s st : fdstat_of s fd = Some st ->
    if Z.testbit (fs_rights_base st) 6 && Z.testbit (fs_rights_base st) 2
    then fst (host _ (fd_pwrite fd bufs off) s) <> Err ENOTCAPABLE
    else host _ (fd_pwrite fd bufs off) s = (Err ENOTCAPABLE, s);
  w_seek fd off wh s st : fdstat_of s fd = Some st ->
    if may_seek st off wh
    then fst (host _ (fd_seek fd off wh) s) <> Err ENOTCAPABLE
    else host _ (fd_seek fd off wh) s = (Err ENOTCAPABLE, s);
  w_filestat fd s : host _ (fd_filestat_get fd) s =
    (match filestat_of s fd with Some f => Val f | None => Err EBADF end, s);
  w_set_times fd a m fl s s' :
    host _ (fd_filestat_set_times fd a m fl) s = (Val tt, s') ->
    exists f f', filestat_of s fd = Some f /\ filestat_of s' fd = Some f' /\
      atim f' = (if Z.testbit fl 0 then a else if Z.testbit fl 1 then now s else atim f) /\
      mtim f' = (if Z.testbit fl 2 then m else if Z.testbit fl 3 then now s else mtim f)
}.

(** * Access modes *)

Lemma land_right x n : 0 <= n -> ctrue (Z.land x (right n)) = Z.testbit x n.
Proof.
  intros Hn. unfold ctrue, right. destruct (Z.testbit x n) eqn:E.
  - apply negb_true_iff, Z.eqb_neq. intros Hz.
    assert (Z.testbit (Z.land x (Z.shiftl 1 n)) n = true) as H.
    { rewrite Z.land_spec, E, Z.shiftl_spec, Z.sub_diag by lia. done. }
    rewrite Hz, Z.bits_0 in H. done.
  - apply negb_false_iff, Z.eqb_eq, Z.bits_inj'. intros i Hi.
    rewrite Z.land_spec, Z.bits_0, Z.shiftl_1_l. destruct (Z.eq_dec i n) as [-> |Hne].
    + by rewrite E.
    + rewrite Z.pow2_bits_false by lia. by rewrite andb_false_r.
Qed.

Lemma land_lor_right x n m : 0 <= n -> 0 <= m ->
  ctrue (Z.land x (Z.lor (right n) (right m))) = Z.testbit x n || Z.testbit x m.
Proof.
  intros Hn Hm. rewrite <- !land_right by done. rewrite Z.land_lor_distr_r. unfold ctrue.
  destruct (Z.eqb_spec (Z.land x (right n)) 0) as [-> |H1]; [by rewrite Z.lor_0_l|].
  cbn [negb orb]. apply negb_true_iff, Z.eqb_neq. intros H%Z.lor_eq_0_iff. lia.
Qed.

(** The rights [openat] may ask for, by the access mode. *)
Definition mode_rights (mode : Z) : option Z :=
  if mode =? O_RDONLY then Some 0xffffffffffbffebe
  else if mode =? O_WRONLY then Some 0xffffffffffffbffd
  else if mode =? O_RDWR then Some 0xffffffffffffffff
  else if (mode =? O_EXEC) || (mode =? O_SEARCH) then Some 0xffffffffffbfbebc
  else None.

Lemma set_bit_mode oflag b : Z.land O_ACCMODE b = b ->
  set_bit b oflag = set_bit b (Z.land oflag O_ACCMODE).
Proof. intros E. unfold set_bit. by rewrite <- Z.land_assoc, E. Qed.

(** What [openat] asks the host for. *)
Lemma openat_asks fd p oflag :
  openat_nomode fd p oflag =
  match mode_rights (Z.land oflag O_ACCMODE) with
  | None => Ret (Err EINVAL)
  | Some max =>
      ask st <- fd_fdstat_get fd;
      ask_or (errno_fixup_directory fd)
        (path_open fd (if set_bit O_NOFOLLOW oflag then 0 else LOOKUPFLAGS_SYMLINK_FOLLOW) p
           (Z.land (Z.shiftr oflag 12) 0xfff) (Z.land max (fs_rights_inheriting st))
           (fs_rights_inheriting st) (Z.land oflag 0xfff))
        (fun newfd => Ret (Val newfd))
  end.
Proof.
  unfold openat_nomode. rewrite (set_bit_mode oflag O_RDONLY), (set_bit_mode oflag O_WRONLY) by done.
  set (mode := Z.land oflag O_ACCMODE). unfold mode_rights.
  destruct (Z.eqb_spec mode O_RDONLY) as [-> |]; [done|].
  destruct (Z.eqb_spec mode O_RDWR) as [-> |]; [done|].
  destruct (Z.eqb_spec mode O_WRONLY) as [-> |]; [done|].
  cbn [orb]. by destruct ((mode =? O_EXEC) || (mode =? O_SEARCH)).
Qed.

(** The access mode [fcntl] can tell apart: it reports [O_SEARCH] for
    [O_EXEC]. *)
Definition reported (mode : Z) : Z := if mode =? O_EXEC then O_SEARCH else mode.

Lemma flags_mode oflag x :
  Z.land x O_ACCMODE = x -> Z.land x 0xfff = 0 ->
  Z.land (Z.lor (Z.land oflag 0xfff) x) O_ACCMODE = x /\
  Z.land (Z.lor (Z.land oflag 0xfff) x) 0xfff = Z.land oflag 0xfff.
Proof.
  intros Hx Hf. rewrite !Z.land_lor_distr_l, Hx, Hf, <- !Z.land_assoc.
  change (Z.land 0xfff O_ACCMODE) with 0. change (Z.land 0xfff 0xfff) with 0xfff.
  by rewrite Z.land_0_r, Z.lor_0_r.
Qed.

Section Files.
Context {S : Type} (host : forall X, wasi X -> S -> res X * S)
  (fdstat_of : S -> Z -> option fdstat) (filestat_of : S -> Z -> option filestat) (now : S -> Z)
  {Hw : WasiFiles host fdstat_of filestat_of now}.

Lemma run_getfl fd s st :
  fdstat_of s fd = Some st ->
  run host (fcntl fd F_GETFL 0) s =
  (Val (Z.lor (fs_flags st)
     (if Z.testbit (fs_rights_base st) 1 || Z.testbit (fs_rights_base st) 14
      then if Z.testbit (fs_rights_base st) 6 then O_RDWR else O_RDONLY
      else if Z.testbit (fs_rights_base st) 6 then O_WRONLY else O_SEARCH)), s).
Proof.
  intros Hst. unfold fcntl. change (F_GETFL =? F_GETFD) with false.
  change (F_GETFL =? F_SETFD) with false. change (F_GETFL =? F_GETFL) with true. cbn iota.
  rewrite run_ask_or, w_fdstat, Hst.
  cbn [run]. rewrite !(land_right _ 6), !(land_lor_right _ 1 14) by lia.
  by destruct (Z.testbit _ 1 || _), (Z.testbit _ 6).
Qed.

(** A descriptor that [openat] returns has the access mode it was asked
    for.  The mode is one of the five of POSIX (any other fails with [EINVAL]
    and asks the host nothing); without [O_RDONLY] reading fails with [EBADF]
    and without [O_WRONLY] writing does; the rights never exceed what the
    directory lets its files inherit; and for a regular file below a directory
    that passes on the rights to read and write, [fcntl] reports the same mode
    and the same status flags. *)
Theorem openat_access_mode dirfd p oflag s newfd s' :
  run host (openat_nomode dirfd p oflag) s = (Val newfd, s') ->
  let mode := Z.land oflag O_ACCMODE in
  (mode = O_RDONLY \/ mode = O_RDWR \/ mode = O_WRONLY \/ mode = O_EXEC \/ mode = O_SEARCH) /\
  exists dst st, fdstat_of s dirfd = Some dst /\ fdstat_of s' newfd = Some st /\
    (forall n, 0 <= n -> Z.testbit (fs_rights_base st) n = true ->
       Z.testbit (fs_rights_inheriting dst) n = true) /\
    (set_bit O_RDONLY oflag = false -> forall n, run host (read newfd n) s' = (Err EBADF, s')) /\
    (set_bit O_WRONLY oflag = false -> forall buf, run host (write newfd buf) s' = (Err EBADF, s')) /\
    (fs_filetype st = FILETYPE_REGULAR_FILE ->
     Z.testbit (fs_rights_inheriting dst) 1 = true -> Z.testbit (fs_rights_inheriting dst) 6 = true ->
     exists fl, run host (fcntl newfd F_GETFL 0) s' = (Val fl, s') /\
       Z.land fl O_ACCMODE = reported mode /\ Z.land fl 0xfff = Z.land oflag 0xfff).
Proof.
  rewrite openat_asks. set (mode := Z.land oflag O_ACCMODE). intros Hrun.
  assert (exists max, mode_rights mode = Some max /\
    (mode = O_RDONLY \/ mode = O_RDWR \/ mode = O_WRONLY \/ mode = O_EXEC \/ mode = O_SEARCH))
    as (max & Emax & Hmode).
  { revert Hrun. unfold mode_rights.
    repeat (case_cmp; [intros _; eexists; split; [reflexivity|tauto]|]). done. }
  rewrite Emax, run_ask_or, w_fdstat in Hrun. destruct (fdstat_of s dirfd) as [dst|] eqn:Edst; [|done].
  rewrite run_ask_or in Hrun. destruct (host _ _ s) as [[nf|e] s1] eqn:Ho in Hrun; [|done].
  cbn [run] in Hrun. injection Hrun as -> ->.
  apply w_open in Ho as (st & Est & Efl & Hsub & Hreg).
  split; [done|]. exists dst, st. split; [done|]. split; [done|].
  assert (forall n, 0 <= n -> Z.testbit (fs_rights_base st) n = true ->
    Z.testbit max n = true /\ Z.testbit (fs_rights_inheriting dst) n = true) as Hbits.
  { intros n Hn Hb. apply Hsub in Hb; [|done]. by rewrite Z.land_spec, andb_true_iff in Hb. }
  split; [intros n Hn Hb; by apply Hbits|].
  rewrite (set_bit_mode oflag O_RDONLY), (set_bit_mode oflag O_WRONLY) by done. fold mode.
  split_and!.
  - intros Hr n. unfold read. rewrite run_ask_or. pose proof (w_read newfd [n] s' st Est) as Hread.
    destruct (Z.testbit (fs_rights_base st) 1) eqn:E1; [|by rewrite Hread].
    exfalso. apply Hbits in E1 as [E1 _]; [|lia]. clear -Hr Emax E1 Hmode.
    destruct Hmode as [E|[E|[E|[E|E]]]]; rewrite E in *; try discriminate;
      injection Emax as <-; discriminate.
  - intros Hr buf. unfold write. rewrite run_ask_or. pose proof (w_write newfd [buf] s' st Est) as Hwrite.
    destruct (Z.testbit (fs_rights_base st) 6) eqn:E6; [|by rewrite Hwrite].
    exfalso. apply Hbits in E6 as [E6 _]; [|lia]. clear -Hr Emax E6 Hmode.
    destruct Hmode as [E|[E|[E|[E|E]]]]; rewrite E in *; try discriminate;
      injection Emax as <-; discriminate.
  - intros Hft Hi1 Hi6. rewrite (run_getfl _ _ st Est), Efl. eexists. split; [reflexivity|].
    pose proof (Hreg Hft 1 ltac:(auto)) as E1. pose proof (Hreg Hft 6 ltac:(auto)) as E6.
    rewrite Z.land_spec, Hi1, andb_true_r in E1. rewrite Z.land_spec, Hi6, andb_true_r in E6.
    assert (Z.testbit max 14 = false -> Z.testbit (fs_rights_base st) 14 = false) as E14.
    { intros Hf. destruct (Z.testbit (fs_rights_base st) 14) eqn:E; [|done].
      apply Hbits in E as [E _]; [|lia]. congruence. }
    rewrite E1, E6. clear -Emax Hmode E14.
    destruct Hmode as [E|[E|[E|[E|E]]]]; rewrite E in *; injection Emax as <-;
      try (rewrite E14 by reflexivity); by apply flags_mode.
Qed.

(** * Timestamps *)

(** A time that [futimens] accepts. *)
Definition time_ok (t : Events.timespec) : Prop :=
  Events.tv_nsec t = UTIME_NOW \/ Events.tv_nsec t = UTIME_OMIT \/
  (Events.valid_ns t /\ 0 <= Events.tv_sec t /\ Events.total_ns t < 2 ^ 64).

(** The time a file has after it was asked for [t], which is null for the
    current time. *)
Definition wanted (t : option Events.timespec) (now_ old : Z) : Events.timespec :=
  match t with
  | None => Events.timestamp_to_timespec now_
  | Some t =>
      if Events.tv_nsec t =? UTIME_NOW then Events.timestamp_to_timespec now_
      else if Events.tv_nsec t =? UTIME_OMIT then Events.timestamp_to_timespec old
      else t
  end.

Lemma timespec_back t :
  Events.valid_ns t -> Events.timestamp_to_timespec (Events.total_ns t) = t.
Proof.
  unfold Events.valid_ns, Events.timestamp_to_timespec, Events.total_ns, Events.NSEC_PER_SEC.
  destruct t as [sec ns]. cbn [Events.tv_sec Events.tv_nsec]. intros Hns. f_equal.
  - rewrite Z.div_add_l, Z.div_small by lia. lia.
  - rewrite Z.add_comm, Z.mod_add, Z.mod_small by lia. done.
Qed.

(** One of the two times: its flags are those of the field, and say what was
    asked for. *)
Lemma utimens_one_spec t fs fn :
  in_s 64 (Events.tv_sec t) ->
  match utimens_one t fs fn with
  | Some (f, ts) => time_ok t /\
      ((f = fn /\ Events.tv_nsec t = UTIME_NOW) \/ (f = 0 /\ Events.tv_nsec t = UTIME_OMIT) \/
       (f = fs /\ Events.tv_nsec t <> UTIME_NOW /\ Events.tv_nsec t <> UTIME_OMIT /\
        Events.timestamp_to_timespec ts = t))
  | None => ~ time_ok t
  end.
Proof.
  intros Hs. unfold utimens_one, time_ok.
  destruct (Z.eqb_spec (Events.tv_nsec t) UTIME_NOW) as [E|Ne]; [auto|].
  destruct (Z.eqb_spec (Events.tv_nsec t) UTIME_OMIT) as [E|Ne']; [auto 10|].
  destruct (Events.exact_spec t 0) as [(Hv & H0 & H64 & ->)|[Hn Hf]]; [exact Hs| |].
  - split; [tauto|]. right; right. split_and!; try done. by apply timespec_back.
  - destruct (Events.timespec_to_timestamp_exact t 0) as [b ts]. cbn [fst] in Hf. subst b. tauto.
Qed.

Lemma flag_bits f0 f1 :
  (f0 = 0 \/ f0 = 1 \/ f0 = 2) -> (f1 = 0 \/ f1 = 4 \/ f1 = 8) ->
  Z.testbit (Z.lor f0 f1) 0 = (f0 =? 1) /\ Z.testbit (Z.lor f0 f1) 1 = (f0 =? 2) /\
  Z.testbit (Z.lor f0 f1) 2 = (f1 =? 4) /\ Z.testbit (Z.lor f0 f1) 3 = (f1 =? 8).
Proof. intros [-> |[-> | ->]] [-> |[-> | ->]]; done. Qed.

(** [futimens] fails with [EINVAL], asking the host nothing, when
    one of its times is neither [UTIME_NOW] nor [UTIME_OMIT] nor representable;
    and after it succeeded, [fstat] reports for each of the two times exactly
    the time asked for, the current time for [UTIME_NOW] and for a null
    argument, and the time the file had for [UTIME_OMIT]. *)
Theorem futimens_fstat fd times s :
  (match times with
   | Some (t0, t1) => in_s 64 (Events.tv_sec t0) /\ in_s 64 (Events.tv_sec t1)
   | None => True
   end) ->
  (match times with
   | Some (t0, t1) => ~ (time_ok t0 /\ time_ok t1) -> run host (futimens fd times) s = (Err EINVAL, s)
   | None => True
   end) /\
  (forall s', run host (futimens fd times) s = (Val 0, s') ->
     exists f st, filestat_of s fd = Some f /\ run host (fstat fd) s' = (Val st, s') /\
       st_atim st = wanted (fst <$> times) (now s) (atim f) /\
       st_mtim st = wanted (snd <$> times) (now s) (mtim f)).
Proof.
  intros Hr. unfold futimens. destruct times as [[t0 t1]|]; cbn [utimens_get_timestamps].
  - destruct Hr as [Hr0 Hr1].
    pose proof (utimens_one_spec t0 FSTFLAGS_ATIM FSTFLAGS_ATIM_NOW Hr0) as H0.
    pose proof (utimens_one_spec t1 FSTFLAGS_MTIM FSTFLAGS_MTIM_NOW Hr1) as H1.
    destruct (utimens_one t0 _ _) as [[f0 a]|]; [|split; [done|tauto || (intros s' [=])]].
    destruct (utimens_one t1 _ _) as [[f1 m]|]; [|split; [done|tauto || (intros s' [=])]].
    destruct H0 as [Hok0 H0], H1 as [Hok1 H1]. split; [tauto|]. intros s'. rewrite run_ask_or.
    destruct (host _ (fd_filestat_set_times fd a m (Z.lor f0 f1)) s) as [[[]|e] s1] eqn:Hh; [|done].
    cbn [run]. intros [= ->]. apply w_set_times in Hh as (f & f' & Ef & Ef' & Ea & Em).
    exists f, (to_public_stat f'). split; [done|].
    split; [unfold fstat; by rewrite run_ask_or, w_filestat, Ef'|].
    destruct (flag_bits f0 f1) as (B0 & B1 & B2 & B3);
      [unfold FSTFLAGS_ATIM, FSTFLAGS_ATIM_NOW in *; tauto
      |unfold FSTFLAGS_MTIM, FSTFLAGS_MTIM_NOW in *; tauto|].
    rewrite B0, B1 in Ea. rewrite B2, B3 in Em. cbn [to_public_stat st_atim st_mtim]. rewrite Ea, Em.
    cbn [fmap option_fmap option_map fst snd wanted]. split.
    + clear -H0. destruct H0 as [[-> ->]|[[-> ->]|(-> & Hn & Ho & Et)]]; [done|done|].
      by rewrite (proj2 (Z.eqb_neq _ _) Hn), (proj2 (Z.eqb_neq _ _) Ho).
    + clear -H1. destruct H1 as [[-> ->]|[[-> ->]|(-> & Hn & Ho & Et)]]; [done|done|].
      by rewrite (proj2 (Z.eqb_neq _ _) Hn), (proj2 (Z.eqb_neq _ _) Ho).
  - split; [done|]. intros s'. rewrite run_ask_or.
    destruct (host _ (fd_filestat_set_times fd 0 0 _) s) as [[[]|e] s1] eqn:Hh; [|done].
    cbn [run]. intros [= ->]. apply w_set_times in Hh as (f & f' & Ef & Ef' & Ea & Em).
    exists f, (to_public_stat f'). split; [done|].
    split; [unfold fstat; by rewrite run_ask_or, w_filestat, Ef'|].
    cbn [to_public_stat st_atim st_mtim]. by rewrite Ea, Em.
Qed.

(** * Errors of input and output *)

(** A call that needs a right, as the host answers it. *)
Definition guarded {X} (b : bool) (c : wasi X) (s : S) : Prop :=
  if b then fst (host _ c s) <> Err ENOTCAPABLE else host _ c s = (Err ENOTCAPABLE, s).

(** Translating the error of a guarded call. *)
Lemma run_translated {X A} (c : wasi X) (k : X -> prog (res A)) e b s :
  guarded b c s -> e <> ENOTCAPABLE ->
  (forall x s', fst (run host (k x) s') <> Err ENOTCAPABLE) ->
  fst (run host (ask_or (notcapable e) c k) s) <> Err ENOTCAPABLE /\
  (b = false -> run host (ask_or (notcapable e) c k) s = (Err e, s)).
Proof.
  intros Hg He Hk. rewrite run_ask_or. unfold guarded in Hg. destruct b.
  - split; [|done]. destruct (host _ c s) as [[x|e'] s']; [apply Hk|].
    cbn [fst]. unfold notcapable. destruct (Z.eqb_spec e' ENOTCAPABLE) as [E|E]; intros [= E']; congruence.
  - rewrite Hg. split; [|done]. cbn [fst]. by intros [= E'].
Qed.

(** A call that needs the right [n] and the right to seek. *)
Lemma run_positioned {X A} (c : wasi X) (k : X -> prog (res A)) fd n s st :
  fdstat_of s fd = Some st -> 0 <= n ->
  guarded (Z.testbit (fs_rights_base st) n && Z.testbit (fs_rights_base st) 2) c s ->
  (forall x s', fst (run host (k x) s') <> Err ENOTCAPABLE) ->
  let p := Ask c (fun r => match r with
                           | Err error => why_notcapable fd (right n) error
                           | Val x => k x
                           end) in
  fst (run host p s) <> Err ENOTCAPABLE /\
  (Z.testbit (fs_rights_base st) n = false -> run host p s = (Err EBADF, s)) /\
  (Z.testbit (fs_rights_base st) n = true -> Z.testbit (fs_rights_base st) 2 = false ->
   run host p s = (Err ESPIPE, s)).
Proof.
  intros Hst Hn Hg Hk p. subst p. cbn [run]. unfold guarded in Hg.
  destruct (Z.testbit (fs_rights_base st) n && Z.testbit (fs_rights_base st) 2) eqn:E.
  - apply andb_true_iff in E as [-> ->]. split_and!; [|done..].
    destruct (host _ c s) as [[x|e] s']; [apply Hk|]. simpl in Hg. unfold why_notcapable.
    case_cmp; [by subst e|]. simpl. congruence.
  - rewrite Hg. unfold why_notcapable. rewrite Z.eqb_refl. cbn [run]. rewrite w_fdstat, Hst.
    pose proof (land_right (fs_rights_base st) n Hn) as Hl. unfold ctrue in Hl.
    destruct (Z.land (fs_rights_base st) (right n) =? 0); cbn [negb] in Hl; rewrite <- Hl; by split_and!.
Qed.

(** C17: what a missing right looks like to the caller.  [read], [write],
    [pread], [pwrite] and [lseek] never fail with the host's [ENOTCAPABLE]:
    without the right to read or write they fail with [EBADF] as POSIX asks,
    a positioned call on a descriptor that cannot seek with [ESPIPE], and so
    does a seek unless it only asks for the offset and the right to tell is there.  The vectored calls do not translate the error: [readv] and
    [writev] fail with [ENOTCAPABLE] where [read] and [write] fail with
    [EBADF]. *)
Theorem missing_right_errors fd s st :
  fdstat_of s fd = Some st ->
  let can_read := Z.testbit (fs_rights_base st) 1 in
  let can_write := Z.testbit (fs_rights_base st) 6 in
  let can_seek := Z.testbit (fs_rights_base st) 2 in
  (forall n, fst (run host (read fd n) s) <> Err ENOTCAPABLE /\
     (can_read = false -> run host (read fd n) s = (Err EBADF, s))) /\
  (forall buf, fst (run host (write fd buf) s) <> Err ENOTCAPABLE /\
     (can_write = false -> run host (write fd buf) s = (Err EBADF, s))) /\
  (forall n off, fst (run host (pread fd n off) s) <> Err ENOTCAPABLE /\
     (0 <= off -> can_read = false -> run host (pread fd n off) s = (Err EBADF, s)) /\
     (0 <= off -> can_read = true -> can_seek = false -> run host (pread fd n off) s = (Err ESPIPE, s))) /\
  (forall buf off, fst (run host (pwrite fd buf off) s) <> Err ENOTCAPABLE /\
     (0 <= off -> can_write = false -> run host (pwrite fd buf off) s = (Err EBADF, s)) /\
     (0 <= off -> can_write = true -> can_seek = false -> run host (pwrite fd buf off) s = (Err ESPIPE, s))) /\
  (forall off wh, fst (run host (lseek fd off wh) s) <> Err ENOTCAPABLE /\
     (may_seek st off wh = false -> run host (lseek fd off wh) s = (Err ESPIPE, s))) /\
  (can_read = false -> forall lens cnt, 0 <= cnt -> run host (readv fd lens cnt) s = (Err ENOTCAPABLE, s)) /\
  (can_write = false -> forall bufs cnt, 0 <= cnt -> run host (writev fd bufs cnt) s = (Err ENOTCAPABLE, s)).
Proof.
  intros Hst can_read can_write can_seek. split_and!.
  - intros n. by apply run_translated; [apply w_read|..].
  - intros buf. by apply run_translated; [apply w_write|..].
  - intros n off. unfold pread. destruct (Z.ltb_spec off 0); [by split_and!; [|lia..]|].
    destruct (run_positioned (fd_pread fd [n] off) got fd 1 s st Hst) as (? & ? & ?);
      [done|by apply w_pread|done|]. by split_and!; auto.
  - intros buf off. unfold pwrite. destruct (Z.ltb_spec off 0); [by split_and!; [|lia..]|].
    destruct (run_positioned (fd_pwrite fd [buf] off) (fun n => Ret (Val (s32 n))) fd 6 s st Hst)
      as (? & ? & ?); [done|by apply w_pwrite|done|]. by split_and!; auto.
  - intros off wh. by apply run_translated; [apply w_seek|..].
  - intros Hc lens cnt Hcnt. unfold readv. rewrite (proj2 (Z.ltb_ge cnt 0)) by done. rewrite run_ask_or.
    pose proof (w_read fd (take (Z.to_nat cnt) lens) s st Hst) as Hr. fold can_read in Hr.
    rewrite Hc in Hr. by rewrite Hr.
  - intros Hc bufs cnt Hcnt. unfold writev. rewrite (proj2 (Z.ltb_ge cnt 0)) by done. rewrite run_ask_or.
    pose proof (w_write fd (take (Z.to_nat cnt) bufs) s st Hst) as Hr. fold can_write in Hr.
    rewrite Hc in Hr. by rewrite Hr.
Qed.
End Files.

(** * A concrete host *)

(** Descriptors with their status and file; opening anything makes the regular
    file 7 with the rights asked for. *)
Notation demo := (gmap Z (fdstat * filestat)).

Definition demo_guard {X} (s : demo) (fd : Z) (bits : list Z) (x : X) : res X * demo :=
  match s !! fd with
  | None => (Err EBADF, s)
  | Some (st, _) =>
      if forallb (Z.testbit (fs_rights_base st)) bits then (Val x, s) else (Err ENOTCAPABLE, s)
  end.

Definition demo_host (X : Type) (c : wasi X) (s : demo) : res X * demo :=
  match c in wasi X return res X * demo with
  | fd_fdstat_get fd => (match s !! fd with Some (st, _) => Val st | None => Err EBADF end, s)
  | path_open _ _ _ _ base inh fl =>
      (Val 7, <[7 := (Fdstat FILETYPE_REGULAR_FILE fl base inh, Filestat 1 1 4 1 0 0 0 0)]> s)
  | fd_filestat_get fd => (match s !! fd with Some (_, f) => Val f | None => Err EBADF end, s)
  | fd_filestat_set_times fd a m fl =>
      match s !! fd with
      | None => (Err EBADF, s)
      | Some (st, f) =>
          (Val tt, <[fd := (st, Filestat (dev f) (ino f) (filetype f) (nlink f) (size f)
             (if Z.testbit fl 0 then a else if Z.testbit fl 1 then 99 else atim f)
             (if Z.testbit fl 2 then m else if Z.testbit fl 3 then 99 else mtim f) (ctim f))]> s)
      end
  | fd_read fd _ => demo_guard s fd [1] []
  | fd_write fd _ => demo_guard s fd [6] 0
  | fd_pread fd _ _ => demo_guard s fd [1; 2] []
  | fd_pwrite fd _ _ => demo_guard s fd [6; 2] 0
  | fd_seek fd off wh =>
      match s !! fd with
      | None => (Err EBADF, s)
      | Some (st, _) => if may_seek st off wh then (Val 0, s) else (Err ENOTCAPABLE, s)
      end
  | _ => (Err ENOSYS, s)
  end.

#[export] Instance demo_files :
  WasiFiles demo_host (fun s fd => fst <$> s !! fd) (fun s fd => snd <$> s !! fd) (fun _ => 99).
Proof.
  split; intros *; cbn [demo_host]; unfold demo_guard; cbn [forallb].
  - by destruct (s !! fd) as [[st f]|].
  - intros [= <- <-]. rewrite lookup_insert_eq. eexists. by split_and!.
  - destruct (s !! fd) as [[st' f]|]; [|done]. intros [= ->]. by destruct (Z.testbit _ 1).
  - destruct (s !! fd) as [[st' f]|]; [|done]. intros [= ->]. by destruct (Z.testbit _ 6).
  - destruct (s !! fd) as [[st' f]|]; [|done]. intros [= ->]. by destruct (Z.testbit _ 1), (Z.testbit _ 2).
  - destruct (s !! fd) as [[st' f]|]; [|done]. intros [= ->]. by destruct (Z.testbit _ 6), (Z.testbit _ 2).
  - destruct (s !! fd) as [[st' f]|]; [|done]. intros [= ->]. by destruct (may_seek st off wh).
  - by destruct (s !! fd) as [[st f]|].
  - destruct (s !! fd) as [[st f]|]; [|done]. intros [= <-]. rewrite lookup_insert_eq.
    eexists _, _. by split_and!.
Qed.

(** The directory 3, whose files may be read and written. *)
Definition demo_state : demo :=
  <[3 := (Fdstat FILETYPE_DIRECTORY 0 0 0x42, Filestat 1 1 3 1 0 0 0 0)]> ∅.
Definition demo_open : demo := snd (run demo_host (openat_nomode 3 [97] O_RDONLY) demo_state).

Lemma openat_access_mode_witness :
  let mode := Z.land O_RDONLY O_ACCMODE in
  (mode = O_RDONLY \/ mode = O_RDWR \/ mode = O_WRONLY \/ mode = O_EXEC \/ mode = O_SEARCH) /\
  exists dst st, fst <$> demo_state !! 3 = Some dst /\ fst <$> demo_open !! 7 = Some st /\
    (forall n, 0 <= n -> Z.testbit (fs_rights_base st) n = true ->
       Z.testbit (fs_rights_inheriting dst) n = true) /\
    (set_bit O_RDONLY O_RDONLY = false ->
     forall n, run demo_host (read 7 n) demo_open = (Err EBADF, demo_open)) /\
    (set_bit O_WRONLY O_RDONLY = false ->
     forall buf, run demo_host (write 7 buf) demo_open = (Err EBADF, demo_open)) /\
    (fs_filetype st = FILETYPE_REGULAR_FILE ->
     Z.testbit (fs_rights_inheriting dst) 1 = true -> Z.testbit (fs_rights_inheriting dst) 6 = true ->
     exists fl, run demo_host (fcntl 7 F_GETFL 0) demo_open = (Val fl, demo_open) /\
       Z.land fl O_ACCMODE = reported mode /\ Z.land fl 0xfff = Z.land O_RDONLY 0xfff).
Proof.
  apply (openat_access_mode demo_host (fun s fd => fst <$> s !! fd) (fun s fd => snd <$> s !! fd)
    (fun _ => 99) 3 [97] O_RDONLY demo_state 7 demo_open).
  reflexivity.
Defined.

Lemma futimens_fstat_witness :
  let times := Some (Events.mk_timespec 5 7, Events.mk_timespec 0 UTIME_NOW) in
  (~ (time_ok (Events.mk_timespec 5 7) /\ time_ok (Events.mk_timespec 0 UTIME_NOW)) ->
   run demo_host (futimens 3 times) demo_state = (Err EINVAL, demo_state)) /\
  (forall s', run demo_host (futimens 3 times) demo_state = (Val 0, s') ->
     exists f st, snd <$> demo_state !! 3 = Some f /\ run demo_host (fstat 3) s' = (Val st, s') /\
       st_atim st = wanted (fst <$> times) 99 (atim f) /\
       st_mtim st = wanted (snd <$> times) 99 (mtim f)).
Proof.
  apply (futimens_fstat demo_host (fun s fd => fst <$> s !! fd) (fun s fd => snd <$> s !! fd)
    (fun _ => 99) 3 (Some (Events.mk_timespec 5 7, Events.mk_timespec 0 UTIME_NOW)) demo_state).
  split; split; vm_compute; congruence.
Defined.

Lemma missing_right_errors_witness :
  (forall n, fst (run demo_host (read 7 n) demo_open) <> Err ENOTCAPABLE) /\
  (forall buf, run demo_host (write 7 buf) demo_open = (Err EBADF, demo_open)) /\
  (forall n, run demo_host (pread 7 n 0) demo_open = (Err ESPIPE, demo_open)) /\
  run demo_host (writev 7 [] 0) demo_open = (Err ENOTCAPABLE, demo_open).
Proof.
  destruct (missing_right_errors demo_host (fun s fd => fst <$> s !! fd) (fun s fd => snd <$> s !! fd)
    (fun _ => 99) 7 demo_open (Fdstat FILETYPE_REGULAR_FILE 0 2 0x42) eq_refl)
    as (H1 & H2 & H3 & _ & _ & _ & H7).
  split; [apply H1|]. split; [by intros buf; apply (H2 buf)|].
  split; [intros n; by apply (H3 n 0)|]. by apply H7.
Defined.
