(* ===== verification/Sort.v ===== *)
(** musl's [qsort] and [bsearch]
    ([libc-top-half/musl/src/stdlib/]: qsort.c, qsort_nr.c, bsearch.c).

    [qsort_r] is a smoothsort: the array is kept as a row of Leonardo trees,
    whose orders are the set bits of the two-word vector [p] shifted by
    [pshift].  The model keeps the code's representation: memory is a list of
    bytes, [head] and the pointers of [ar] are byte offsets, [lp] is the table
    of Leonardo numbers scaled by the element width, and the elements are moved
    through the 256-byte buffer of [cycle].  Reads and writes outside the array,
    past the ends of [lp] and [ar], and shifts by the word size are undefined
    behaviour in the model, and so is [__builtin_ctz(0)], which [a_ctz_32] is on
    wasm32. *)

From S2P Require Import Prelude.

(** * Bits *)

Definition ctz (x : Z) : Z := Z.log2 (Z.land x (- x)).

(** [ntz], which is [a_ctz_l]: arch/wasm32/atomic_arch.h makes it
    [__builtin_ctz]. *)
Definition ntz (x : Z) : outcome Z := if x =? 0 then UB else Ok (ctz x).

(** [size_t p[2]] *)
Notation pvec := (Z * Z)%type.

Definition pntz (p : pvec) : outcome Z :=
  let! r := ntz (u32 (fst p - 1)) in
  if negb (r =? 0) then Ok r
  else
    let! r1 := ntz (snd p) in
    let r := 32 + r1 in
    if negb (r =? 32) then Ok r else Ok 0.

(** [x << n] and [x >> n] of a [size_t]. *)
Definition shift_left (x n : Z) : outcome Z :=
  if (0 <=? n) && (n <? 32) then Ok (u32 (Z.shiftl x n)) else UB.
Definition shift_right (x n : Z) : outcome Z :=
  if (0 <=? n) && (n <? 32) then Ok (Z.shiftr x n) else UB.

Definition shl (p : pvec) (n : Z) : outcome pvec :=
  let '(p0, p1, n) := if 32 <=? n then (0, fst p, n - 32) else (fst p, snd p, n) in
  let! p1 := shift_left p1 n in
  let! c := shift_right p0 (32 - n) in
  let! p0 := shift_left p0 n in
  Ok (p0, Z.lor p1 c).

Definition shr (p : pvec) (n : Z) : outcome pvec :=
  let '(p0, p1, n) := if 32 <=? n then (snd p, 0, n - 32) else (fst p, snd p, n) in
  let! p0 := shift_right p0 n in
  let! c := shift_left p1 (32 - n) in
  let! p1 := shift_right p1 n in
  Ok (Z.lor p0 c, p1).

(** * Memory *)

Notation bytes := (list Z).

(** [l] bytes at the offset [p]. *)
Definition load (mem : bytes) (p l : Z) : outcome bytes :=
  if (0 <=? p) && (0 <=? l) && (p + l <=? zlen mem)
  then Ok (take (Z.to_nat l) (drop (Z.to_nat p) mem)) else UB.

Definition store (mem : bytes) (p : Z) (src : bytes) : outcome bytes :=
  if (0 <=? p) && (p + zlen src <=? zlen mem)
  then Ok (take (Z.to_nat p) mem ++ src ++ drop (Z.to_nat (p + zlen src)) mem) else UB.

(** The size of the arrays [ar] and [lp]. *)
Definition AR : Z := 14 * 4 + 1.
Definition LP : Z := 12 * 4.

(** [for(i = 0; i < n; i++) memcpy(ar[i], ar[i + 1], l);], where [ar[n]] is
    [tmp]. *)
Fixpoint cycle_chunk (ar : list Z) (l : Z) (tmp mem : bytes) : outcome bytes :=
  match ar with
  | [] => Ok mem
  | p :: ar' =>
      let! src := match ar' with [] => Ok tmp | q :: _ => load mem q l end in
      let! mem' := store mem p src in
      cycle_chunk ar' l tmp mem'
  end.

(** [while(width)] *)
Fixpoint cycle_loop (fuel : nat) (width : Z) (ar : list Z) (mem : bytes) : outcome bytes :=
  match fuel with
  | O => NoFuel
  | S fuel' =>
      if width =? 0 then Ok mem
      else
        let l := if 256 <? width then 256 else width in
        let! tmp := match ar with [] => UB | p :: _ => load mem p l end in
        let! mem' := cycle_chunk ar l tmp mem in
        cycle_loop fuel' (width - l) (map (fun p => p + l) ar) mem'
  end.

Definition cycle (width : Z) (ar : list Z) (mem : bytes) : outcome bytes :=
  if zlen ar <? 2 then Ok mem
  else if zlen ar <? AR then cycle_loop (Z.to_nat width + 1) width ar mem
  else UB.

(** [ar[i++] = x] *)
Definition ar_push (ar : list Z) (x : Z) : outcome (list Z) :=
  if zlen ar <? AR then Ok (ar ++ [x]) else UB.

Section Sort.
(** The comparison function, on the bytes of two elements. *)
Variable cmp : bytes -> bytes -> Z.
Variable width : Z.

Definition cmp_at (mem : bytes) (x y : Z) : outcome Z :=
  let! a := load mem x width in
  let! b := load mem y width in
  Ok (cmp a b).

(** The loop of [sift], from the path so far: the whole path. *)
Fixpoint sift_loop (fuel : nat) (mem : bytes) (head pshift : Z) (lp ar : list Z)
  : outcome (list Z) :=
  match fuel with
  | O => NoFuel
  | S fuel' =>
      if pshift <=? 1 then Ok ar
      else
        let rt := head - width in
        let! l2 := zget lp (pshift - 2) in
        let lf := head - width - l2 in
        let! ar0 := zget ar 0 in
        let! c1 := cmp_at mem ar0 lf in
        let! c2 := cmp_at mem ar0 rt in
        if (0 <=? c1) && (0 <=? c2) then Ok ar
        else
          let! c := cmp_at mem lf rt in
          if 0 <=? c then
            let! ar' := ar_push ar lf in
            sift_loop fuel' mem lf (pshift - 1) lp ar'
          else
            let! ar' := ar_push ar rt in
            sift_loop fuel' mem rt (pshift - 2) lp ar'
  end.

Definition sift (mem : bytes) (head pshift : Z) (lp : list Z) : outcome bytes :=
  let! ar := sift_loop (Z.to_nat pshift + 1) mem head pshift lp [head] in
  cycle width ar mem.

(** The loop of [trinkle]: [head], [pshift], [trusty] and the path at its end. *)
Fixpoint trinkle_loop (fuel : nat) (mem : bytes) (head : Z) (p : pvec) (pshift : Z) (trusty : bool)
  (lp ar : list Z) : outcome (Z * Z * bool * list Z) :=
  match fuel with
  | O => NoFuel
  | S fuel' =>
      if negb (fst p =? 1) || negb (snd p =? 0) then
        let! l := zget lp pshift in
        let stepson := head - l in
        let! ar0 := zget ar 0 in
        let! c := cmp_at mem stepson ar0 in
        if c <=? 0 then Ok (head, pshift, trusty, ar)
        else
          let! stop :=
            if negb trusty && (1 <? pshift) then
              let rt := head - width in
              let! l2 := zget lp (pshift - 2) in
              let lf := head - width - l2 in
              let! c1 := cmp_at mem rt stepson in
              let! c2 := cmp_at mem lf stepson in
              Ok ((0 <=? c1) || (0 <=? c2))
            else Ok false in
          if stop : bool then Ok (head, pshift, trusty, ar)
          else
            let! ar' := ar_push ar stepson in
            let! trail := pntz p in
            let! p' := shr p trail in
            trinkle_loop fuel' mem stepson p' (pshift + trail) false lp ar'
      else Ok (head, pshift, trusty, ar)
  end.

Definition trinkle (mem : bytes) (head : Z) (pp : pvec) (pshift : Z) (trusty : bool) (lp : list Z)
  : outcome bytes :=
  let! r := trinkle_loop 65 mem head pp pshift trusty lp [head] in
  let '(head, pshift, trusty, ar) := r in
  if negb trusty then
    let! mem' := cycle width ar mem in
    sift mem' head pshift lp
  else Ok mem.

(** The table of Leonardo numbers: [lp] holds the entries before [i]. *)
Fixpoint leonardo (fuel : nat) (size : Z) (lp : list Z) (i : Z) : outcome (list Z) :=
  match fuel with
  | O => NoFuel
  | S fuel' =>
      let! a := zget lp (i - 2) in
      let! b := zget lp (i - 1) in
      if i <? LP then
        let v := u32 (u32 (a + b) + width) in
        let lp' := lp ++ [v] in
        if v <? size then leonardo fuel' size lp' (i + 1) else Ok lp'
      else UB
  end.

(** The loop that builds the trees. *)
Fixpoint build (fuel : nat) (mem : bytes) (head high : Z) (p : pvec) (pshift : Z) (lp : list Z)
  : outcome (bytes * Z * pvec * Z) :=
  match fuel with
  | O => NoFuel
  | S fuel' =>
      if head <? high then
        let! r :=
          if Z.land (fst p) 3 =? 3 then
            let! mem' := sift mem head pshift lp in
            let! p' := shr p 2 in
            Ok (mem', p', pshift + 2)
          else
            let! l := zget lp (pshift - 1) in
            let! mem' := if high - head <=? l then trinkle mem head p pshift false lp
                         else sift mem head pshift lp in
            if pshift =? 1 then
              let! p' := shl p 1 in Ok (mem', p', 0)
            else
              let! p' := shl p (pshift - 1) in Ok (mem', p', 1) in
        let '(mem', p', pshift') := r in
        build fuel' mem' (head + width) high (Z.lor (fst p') 1, snd p') pshift' lp
      else Ok (mem, head, p, pshift)
  end.

(** The loop that takes the greatest element out, tree by tree. *)
Fixpoint dequeue (fuel : nat) (mem : bytes) (head : Z) (p : pvec) (pshift : Z) (lp : list Z)
  : outcome bytes :=
  match fuel with
  | O => NoFuel
  | S fuel' =>
      if negb (pshift =? 1) || negb (fst p =? 1) || negb (snd p =? 0) then
        let! r :=
          if pshift <=? 1 then
            let! trail := pntz p in
            let! p' := shr p trail in
            Ok (mem, p', pshift + trail)
          else
            let! p1 := shl p 2 in
            let pshift := pshift - 2 in
            let p1 := (Z.lxor (fst p1) 7, snd p1) in
            let! p1 := shr p1 1 in
            let! l := zget lp pshift in
            let! mem1 := trinkle mem (head - l - width) p1 (pshift + 1) true lp in
            let! p2 := shl p1 1 in
            let p2 := (Z.lor (fst p2) 1, snd p2) in
            let! mem2 := trinkle mem1 (head - width) p2 pshift true lp in
            Ok (mem2, p2, pshift) in
        let '(mem', p', pshift') := r in
        dequeue fuel' mem' (head - width) p' pshift' lp
      else Ok mem
  end.

Definition qsort_r (mem : bytes) (nel : Z) : outcome bytes :=
  let size := u32 (width * nel) in
  if size =? 0 then Ok mem
  else
    let head := 0 in
    let high := head + size - width in
    let! lp := leonardo (Z.to_nat LP) size [width; width] 2 in
    let! r := build (Z.to_nat nel + 1) mem head high (1, 0) 1 lp in
    let '(mem, head, p, pshift) := r in
    let! mem := trinkle mem head p pshift false lp in
    dequeue (Z.to_nat nel + 1) mem head p pshift lp.
End Sort.

(** [qsort] passes the comparison function on. *)
Definition qsort (mem : bytes) (nel width : Z) (cmp : bytes -> bytes -> Z) : outcome bytes :=
  qsort_r cmp width mem nel.

(** * Binary search *)

Section Search.
(** [cmp] compares the key with the element of the given offset. *)
Variable mem : bytes.
Variable width : Z.
Variable cmp : bytes -> bytes -> Z.

Fixpoint bsearch_loop (fuel : nat) (key : bytes) (base nel : Z) : outcome (option Z) :=
  match fuel with
  | O => NoFuel
  | S fuel' =>
      if 0 <? nel then
        let try_ := base + width * (nel / 2) in
        let! x := load mem try_ width in
        let sign := cmp key x in
        if sign <? 0 then bsearch_loop fuel' key base (nel / 2)
        else if 0 <? sign then bsearch_loop fuel' key (try_ + width) (nel - (nel / 2 + 1))
        else Ok (Some try_)
      else Ok None
  end.

Definition bsearch (key : bytes) (base nel : Z) : outcome (option Z) :=
  bsearch_loop (Z.to_nat nel + 1) key base nel.
End Search.

(** A small array of two-byte elements, sorted by their first byte. *)
Example sort_ten :
  qsort [9;0; 3;1; 7;2; 1;3; 8;4; 2;5; 6;6; 0;7; 5;8; 4;9; 3;10] 11 2
    (fun a b => nth 0 a 0 - nth 0 b 0) =
  Ok [0;7; 1;3; 2;5; 3;1; 3;10; 4;9; 5;8; 6;6; 7;2; 8;4; 9;0].
Proof. vm_compute. reflexivity. Qed.
