(* ===== verification/SortCycle.v ===== *)
(** The array of [qsort] as a list of elements: what [load] and [store] do to
    it, and that [cycle], which moves the elements along a path in pieces of at
    most 256 bytes, is the cyclic shift of the elements of the path. *)

From S2P Require Import Prelude Sort.

(** * Elements in memory *)

Section Elements.
Context (w : Z) (Hw : 0 < w).

(** The memory is the array of the elements [els]. *)
Definition array (els : list bytes) (mem : bytes) : Prop :=
  mem = concat els /\ Forall (fun e : bytes => zlen e = w) els.

Lemma array_length els mem : array els mem -> zlen mem = w * zlen els.
Proof.
  intros [-> Hf]. induction Hf as [|e els He Hf IH]; [unfold zlen; simpl; lia|].
  simpl. rewrite zlen_app, zlen_cons, IH. lia.
Qed.

Lemma concat_split els i e :
  Forall (fun e : bytes => zlen e = w) els -> els !! i = Some e ->
  exists l1 l2, els = l1 ++ e :: l2 /\ length l1 = i /\
    zlen (concat l1) = w * Z.of_nat i /\ zlen e = w.
Proof.
  intros Hf Hi. exists (take i els), (drop (S i) els).
  pose proof (lookup_lt_Some _ _ _ Hi) as Hlt. split_and!.
  - symmetry. by apply take_drop_middle.
  - rewrite length_take. lia.
  - rewrite (array_length (take i els)).
    + unfold zlen. rewrite length_take. f_equal. lia.
    + split; [done|]. by apply Forall_take.
  - exact (Forall_lookup_1 _ _ _ _ Hf Hi).
Qed.

Lemma load_part els mem i e c l :
  array els mem -> els !! i = Some e -> 0 <= c -> 0 <= l -> c + l <= w ->
  load mem (w * Z.of_nat i + c) l = Ok (take (Z.to_nat l) (drop (Z.to_nat c) e)).
Proof.
  intros [-> Hf] Hi Hc Hl Hcl. destruct (concat_split _ _ _ Hf Hi) as (l1 & l2 & -> & Hl1 & Hz & He).
  rewrite concat_app. simpl. unfold load. rewrite !zlen_app, Hz, He.
  pose proof (zlen_nonneg (concat l2)).
  rewrite !(proj2 (Z.leb_le _ _)) by lia. cbn [andb]. f_equal.
  unfold zlen in Hz, He. rewrite drop_app_ge by lia.
  replace (Z.to_nat (w * Z.of_nat i + c) - length (concat l1))%nat with (Z.to_nat c) by lia.
  rewrite drop_app_le by lia. rewrite take_app_le; [done|]. rewrite length_drop. lia.
Qed.

Lemma load_element els mem i e :
  array els mem -> els !! i = Some e -> load mem (w * Z.of_nat i) w = Ok e.
Proof.
  intros Ha Hi. pose proof (load_part els mem i e 0 w Ha Hi) as H.
  rewrite Z.add_0_r in H. rewrite H by lia. f_equal. rewrite drop_0, take_ge; [done|].
  destruct Ha as [_ Hf]. pose proof (Forall_lookup_1 _ _ _ _ Hf Hi) as He. unfold zlen in He.
  cbn in He. lia.
Qed.

Lemma store_part els mem i e c src :
  array els mem -> els !! i = Some e -> 0 <= c -> c + zlen src <= w ->
  exists mem', store mem (w * Z.of_nat i + c) src = Ok mem' /\
    array (<[i := take (Z.to_nat c) e ++ src ++ drop (Z.to_nat (c + zlen src)) e]> els) mem'.
Proof.
  intros [-> Hf] Hi Hc Hcl. pose proof (zlen_nonneg src).
  destruct (concat_split _ _ _ Hf Hi) as (l1 & l2 & -> & Hl1 & Hz & He).
  rewrite concat_app. simpl. unfold store. rewrite !zlen_app, Hz, He.
  pose proof (zlen_nonneg (concat l2)).
  rewrite !(proj2 (Z.leb_le _ _)) by lia. cbn [andb]. eexists. split; [reflexivity|].
  rewrite insert_app_r_alt by lia. rewrite Hl1, Nat.sub_diag. simpl. split.
  - rewrite concat_app. simpl. unfold zlen in *.
    rewrite take_app_ge by lia. rewrite <- !app_assoc. f_equal.
    replace (Z.to_nat (w * Z.of_nat i + c) - length (concat l1))%nat with (Z.to_nat c) by lia.
    rewrite take_app_le by lia. f_equal. f_equal.
    rewrite drop_app_ge by lia.
    replace (Z.to_nat (w * Z.of_nat i + c + Z.of_nat (length src)) - length (concat l1))%nat
      with (Z.to_nat (c + Z.of_nat (length src))) by lia.
    by rewrite drop_app_le by lia.
  - apply Forall_app in Hf as [Hf1 [_ Hf2]%Forall_cons]. apply Forall_app. split; [done|].
    apply Forall_cons. split; [|done]. rewrite !zlen_app. unfold zlen in *.
    rewrite length_take, length_drop. lia.
Qed.

(** ** Cycling elements *)

Definition swap (i j : nat) (els : list bytes) : list bytes :=
  <[i := els !!! j]> (<[j := els !!! i]> els).

(** The element at [p0] moves to the end of the path, all others one step
    forward. *)
Fixpoint cyc (ps : list nat) (els : list bytes) : list bytes :=
  match ps with
  | [] => els
  | p :: ps' => match ps' with [] => els | q :: _ => cyc ps' (swap p q els) end
  end.

Definition inside (els : list bytes) (ps : list nat) : Prop := Forall (fun p => (p < length els)%nat) ps.

Lemma length_swap i j els : length (swap i j els) = length els.
Proof. unfold swap. by rewrite !length_insert. Qed.

Lemma length_cyc ps : forall els, length (cyc ps els) = length els.
Proof.
  induction ps as [|p [|q ps] IH]; intros els; [done..|].
  change (cyc (p :: q :: ps) els) with (cyc (q :: ps) (swap p q els)). by rewrite IH, length_swap.
Qed.

Lemma swap_lookup i j k els : (i < length els)%nat -> (j < length els)%nat ->
  swap i j els !!! k = if decide (k = i) then els !!! j else if decide (k = j) then els !!! i else els !!! k.
Proof.
  intros Hi Hj. unfold swap. repeat case_decide; subst.
  - by rewrite list_lookup_total_insert_eq by (by rewrite length_insert).
  - rewrite list_lookup_total_insert_ne by done. by rewrite list_lookup_total_insert_eq.
  - by rewrite !list_lookup_total_insert_ne.
Qed.

(** The position whose element a position gets. *)
Fixpoint source (ps : list nat) (d i : nat) : nat :=
  match ps with
  | [] => i
  | p :: ps' => if decide (i = p) then hd d ps' else source ps' d i
  end.

Lemma source_notin ps d i : i ∉ ps -> source ps d i = i.
Proof.
  induction ps as [|p ps IH]; [done|]. rewrite not_elem_of_cons. intros [Hi Hps]. simpl.
  case_decide; [done|]. by apply IH.
Qed.

Lemma source_in ps d i : i ∈ ps -> source ps d i = d \/ source ps d i ∈ tail ps.
Proof.
  induction ps as [|p ps IH]; [by intros ?%elem_of_nil|]. intros [-> |Hi]%elem_of_cons; simpl.
  - rewrite decide_True by done. destruct ps; simpl; [by left|right; by left].
  - case_decide; [destruct ps; simpl; [by left|right; by left]|].
    destruct (IH Hi) as [E|E]; [by left|right]. destruct ps; [done|]. by right.
Qed.

Lemma cyc_lookup ps : forall els k, NoDup ps -> inside els ps ->
  cyc ps els !!! k = els !!! source ps (hd 0%nat ps) k.
Proof.
  induction ps as [|p [|q ps] IH]; intros els k Hn Hin; [done|simpl; by case_decide; subst|].
  change (cyc (p :: q :: ps) els) with (cyc (q :: ps) (swap p q els)).
  apply NoDup_cons in Hn as [Hp Hn]. apply Forall_cons in Hin as [Hpl Hin].
  pose proof Hin as [Hql _]%Forall_cons.
  rewrite IH by (try done; unfold inside; by rewrite length_swap). rewrite swap_lookup by done.
  change (hd 0%nat (q :: ps)) with q. change (hd 0%nat (p :: q :: ps)) with p.
  change (source (p :: q :: ps) p k) with (if decide (k = p) then q else source (q :: ps) p k).
  destruct (decide (k = p)) as [-> |Hkp].
  { rewrite source_notin by done. by rewrite decide_True. }
  destruct (decide (k ∈ q :: ps)) as [Hk|Hk].
  2:{ rewrite !source_notin by done. rewrite decide_False by done.
      rewrite decide_False; [done|]. intros ->. apply Hk. by left. }
  assert (forall d, source (q :: ps) d k = d \/
    (source (q :: ps) d k ∈ ps /\ forall d', source (q :: ps) d' k = source (q :: ps) d k)) as Hsrc.
  { clear -Hk Hn. revert q Hk Hn. induction ps as [|r ps IH]; intros q Hk Hn d.
    - apply list_elem_of_singleton in Hk as ->. simpl. rewrite decide_True by done. by left.
    - simpl source. apply NoDup_cons in Hn as [Hq Hn]. destruct (decide (k = q)) as [-> |Hkq].
      + right. split; [by left|done].
      + apply elem_of_cons in Hk as [?|Hk]; [done|].
        destruct (IH r Hk Hn d) as [E|[E E']]; [by left|right]. split; [by right|exact E']. }
  destruct (Hsrc q) as [E|[E E']].
  - rewrite E. rewrite decide_False by (by intros ->; apply Hp; left). rewrite decide_True by done.
    destruct (Hsrc p) as [E2|[E2 E2']]; [by rewrite E2|].
    exfalso. specialize (E2' q). rewrite E in E2'. rewrite <- E2' in E2.
    apply NoDup_cons in Hn as [Hq _]. done.
  - rewrite (E' p). apply NoDup_cons in Hn as [Hq _].
    rewrite decide_False by (intros Ex; apply Hp; right; by rewrite <- Ex).
    rewrite decide_False by (intros Ex; apply Hq; by rewrite <- Ex). done.
Qed.

(** ** [cycle] moves the elements *)

Definition chunk (c l : Z) (e : bytes) : bytes := take (Z.to_nat l) (drop (Z.to_nat c) e).
Definition patch (c : Z) (src e : bytes) : bytes :=
  take (Z.to_nat c) e ++ src ++ drop (Z.to_nat (c + zlen src)) e.

(** One pass over the path, on elements. *)
Fixpoint pass (ps : list nat) (c l : Z) (tmp : bytes) (els : list bytes) : list bytes :=
  match ps with
  | [] => els
  | p :: ps' =>
      let src := match ps' with [] => tmp | q :: _ => chunk c l (els !!! q) end in
      pass ps' c l tmp (<[p := patch c src (els !!! p)]> els)
  end.

Lemma lookup_total_lookup (els : list bytes) p : (p < length els)%nat -> els !! p = Some (els !!! p).
Proof.
  intros Hp. apply lookup_lt_is_Some_2 in Hp as [e He]. by rewrite (list_lookup_total_correct _ _ _ He).
Qed.

Lemma zlen_chunk els mem p c l :
  array els mem -> (p < length els)%nat -> 0 <= c -> 0 <= l -> c + l <= w ->
  zlen (chunk c l (els !!! p)) = l.
Proof.
  intros [_ Hf] Hp Hc Hl Hcl. pose proof (Forall_lookup_1 _ _ _ _ Hf (lookup_total_lookup _ _ Hp)) as He.
  cbn in He. unfold zlen, chunk in *. rewrite length_take, length_drop. lia.
Qed.

Definition offs (c : Z) (ps : list nat) : list Z := map (fun p => w * Z.of_nat p + c) ps.

Lemma cycle_chunk_pass ps : forall els mem c l tmp,
  array els mem -> inside els ps -> 0 <= c -> 0 <= l -> c + l <= w -> zlen tmp = l ->
  exists mem', cycle_chunk (offs c ps) l tmp mem = Ok mem' /\ array (pass ps c l tmp els) mem'.
Proof.
  induction ps as [|p ps IH]; intros els mem c l tmp Ha Hin Hc Hl Hcl Ht; [by exists mem|].
  apply Forall_cons in Hin as [Hp Hin]. cbn [offs map cycle_chunk pass].
  set (src := match ps with [] => tmp | q :: _ => chunk c l (els !!! q) end).
  assert (match offs c ps with [] => Ok tmp | q :: _ => load mem q l end = Ok src) as Hsrc.
  { subst src. destruct ps as [|q ps]; [done|]. cbn [offs map]. apply Forall_cons in Hin as [Hq _].
    by apply (load_part els); [|apply lookup_total_lookup|..]. }
  unfold offs in Hsrc. rewrite Hsrc. cbn [obind].
  assert (zlen src = l) as Hz.
  { subst src. destruct ps as [|q ps]; [done|]. apply Forall_cons in Hin as [Hq _].
    by apply (zlen_chunk els mem). }
  destruct (store_part els mem p (els !!! p) c src Ha (lookup_total_lookup _ _ Hp) Hc ltac:(lia))
    as (mem1 & Hs & Ha1). rewrite Hs. cbn [obind].
  apply IH; try done. unfold inside. by rewrite length_insert.
Qed.

Lemma length_pass ps : forall c l tmp els, length (pass ps c l tmp els) = length els.
Proof. induction ps as [|p ps IH]; intros c l tmp els; [done|]. cbn [pass]. by rewrite IH, length_insert. Qed.

Lemma pass_outside ps : forall c l tmp els k, k ∉ ps -> pass ps c l tmp els !!! k = els !!! k.
Proof.
  induction ps as [|p ps IH]; intros c l tmp els k Hk; [done|]. apply not_elem_of_cons in Hk as [Hkp Hk].
  cbn [pass]. rewrite IH by done. by rewrite list_lookup_total_insert_ne.
Qed.

(** What a pass leaves at each position, when the path still holds the
    elements of [els0] and [tmp] that of [d]. *)
Lemma pass_lookup (els0 : list bytes) d c l ps : forall els k,
  NoDup ps -> inside els ps -> (forall q, q ∈ ps -> els !!! q = els0 !!! q) -> k ∈ ps ->
  pass ps c l (chunk c l (els0 !!! d)) els !!! k =
  patch c (chunk c l (els0 !!! source ps d k)) (els0 !!! k).
Proof.
  induction ps as [|p ps IH]; intros els k Hn Hin He Hk; [by apply elem_of_nil in Hk|].
  apply NoDup_cons in Hn as [Hp Hn]. apply Forall_cons in Hin as [Hpl Hin]. cbn [pass source].
  destruct (decide (k = p)) as [-> |Hkp].
  - rewrite pass_outside by done. rewrite list_lookup_total_insert_eq by done.
    rewrite (He p) by (by left). f_equal. destruct ps as [|q ps]; [done|].
    rewrite (He q) by (by right; left). done.
  - apply elem_of_cons in Hk as [?|Hk]; [done|]. apply IH; [done| | |done].
    + unfold inside. by rewrite length_insert.
    + intros q Hq. rewrite list_lookup_total_insert_ne by (by intros ->). apply He. by right.
Qed.

(** The columns before [c] are moved, the others not yet. *)
Definition mixed (ps : list nat) (c : Z) (els els' : list bytes) : Prop :=
  length els' = length els /\
  forall k, (k < length els)%nat -> els' !!! k =
    take (Z.to_nat c) (els !!! source ps (hd 0%nat ps) k) ++ drop (Z.to_nat c) (els !!! k).

Lemma source_inside ps els k : ps <> [] -> inside els ps -> (k < length els)%nat ->
  (source ps (hd 0%nat ps) k < length els)%nat.
Proof.
  intros Hne Hin Hk. destruct (decide (k ∈ ps)) as [Hkp|Hkp]; [|by rewrite source_notin].
  unfold inside in Hin. rewrite Forall_forall in Hin. apply Hin.
  destruct ps as [|p ps]; [done|]. destruct (source_in _ (hd 0%nat (p :: ps)) k Hkp) as [E|E].
  - rewrite E. by left.
  - by right.
Qed.

Lemma pass_mixed ps els els' mem c l :
  array els mem -> array els' (concat els') -> NoDup ps -> ps <> [] -> inside els ps ->
  0 <= c -> 0 <= l -> c + l <= w -> mixed ps c els els' ->
  mixed ps (c + l) els (pass ps c l (chunk c l (els' !!! hd 0%nat ps)) els').
Proof.
  intros Ha Ha' Hn Hne Hin Hc Hl Hcl [Hlen Hm]. split; [by rewrite length_pass|]. intros k Hk.
  assert (forall j, (j < length els)%nat -> length (els !!! j) = Z.to_nat w) as Hw'.
  { intros j Hj. destruct Ha as [_ Hf].
    pose proof (Forall_lookup_1 _ _ _ _ Hf (lookup_total_lookup _ _ Hj)) as He. cbn in He.
    unfold zlen in He. lia. }
  pose proof (source_inside ps els k Hne Hin Hk) as Hs.
  assert (pass ps c l (chunk c l (els' !!! hd 0%nat ps)) els' !!! k =
    patch c (chunk c l (els' !!! source ps (hd 0%nat ps) k)) (els' !!! k)) as ->.
  { destruct (decide (k ∈ ps)) as [Hkp|Hkp].
    - apply pass_lookup; [done|unfold inside; by rewrite Hlen|done|done].
    - rewrite pass_outside, source_notin by done. unfold patch.
      rewrite (zlen_chunk els' (concat els')) by (try done; by rewrite Hlen).
      unfold chunk. rewrite Z2Nat.inj_add by lia. rewrite <- drop_drop.
      by rewrite (take_drop (Z.to_nat l)), take_drop. }
  unfold patch. rewrite (zlen_chunk els' (concat els')) by (try done; by rewrite Hlen).
  unfold chunk. rewrite (Hm k Hk), (Hm _ Hs). set (t := source ps (hd 0%nat ps) k) in *.
  rewrite !Z2Nat.inj_add by lia. set (nc := Z.to_nat c). set (nl := Z.to_nat l).
  assert (forall j e, (j < length els)%nat ->
    take nc (take nc (els !!! j) ++ e) = take nc (els !!! j) /\
    (forall m, drop (nc + m) (take nc (els !!! j) ++ e) = drop m e)) as Hcut.
  { intros j e Hj. assert (length (take nc (els !!! j)) = nc) as Hl'.
    { rewrite length_take, Hw' by done. subst nc. lia. }
    split; [by rewrite take_app_length'|]. intros m. by rewrite drop_app_add'. }
  destruct (Hcut t (drop nc (els !!! k)) Hs) as [-> ->].
  assert (source ps (hd 0%nat ps) t < length els)%nat as Hst by (by apply source_inside).
  destruct (Hcut (source ps (hd 0%nat ps) t) (drop nc (els !!! t)) Hst) as [_ Hd].
  specialize (Hd 0%nat). rewrite Nat.add_0_r in Hd. rewrite Hd, drop_0.
  rewrite app_assoc, take_take_drop, drop_drop. done.
Qed.

Lemma cycle_loop_spec els mem0 ps : forall fuel c els' mem,
  array els mem0 -> NoDup ps -> ps <> [] -> inside els ps ->
  0 <= c <= w -> w - c < Z.of_nat fuel -> array els' mem -> mixed ps c els els' ->
  exists mem' els'', cycle_loop fuel (w - c) (offs c ps) mem = Ok mem' /\ array els'' mem' /\
    mixed ps w els els''.
Proof.
  induction fuel as [|fuel IH]; intros c els' mem Ha Hn Hne Hin Hc Hf Ha' Hm; [lia|].
  cbn [cycle_loop]. destruct (Z.eqb_spec (w - c) 0) as [E|Ne].
  { exists mem, els'. split; [done|]. split; [done|]. by replace w with c by lia. }
  set (l := if 256 <? w - c then 256 else w - c).
  assert (1 <= l <= w - c) as Hl by (subst l; case_cmp; lia).
  pose proof Hm as [Hlen _]. destruct ps as [|p ps]; [done|].
  pose proof Hin as [Hp _]%Forall_cons.
  assert (match offs c (p :: ps) with [] => UB | q :: _ => load mem q l end =
    Ok (chunk c l (els' !!! p))) as ->.
  { cbn [offs map].
    by rewrite (load_part els' mem p (els' !!! p)); [|done|apply lookup_total_lookup; rewrite Hlen|lia..]. }
  cbn [obind].
  destruct (cycle_chunk_pass (p :: ps) els' mem c l (chunk c l (els' !!! p))) as (mem1 & Hr & Ha1);
    [done|unfold inside; by rewrite Hlen|lia|lia|lia| |].
  { apply (zlen_chunk els' mem); [done|by rewrite Hlen|lia..]. }
  rewrite Hr. cbn [obind].
  replace (map (fun p0 => p0 + l) (offs c (p :: ps))) with (offs (c + l) (p :: ps)).
  2:{ unfold offs. rewrite map_map. apply map_ext. intros q. lia. }
  replace (w - c - l) with (w - (c + l)) by lia.
  apply (IH (c + l) (pass (p :: ps) c l (chunk c l (els' !!! p)) els') mem1); try done; [lia|lia|].
  apply (pass_mixed (p :: ps) els els' mem0); try done; [|lia..].
  destruct Ha' as [_ Hf']. by split.
Qed.

(** [cycle] on the offsets of a path is [cyc] on its elements. *)
Lemma cycle_spec els mem ps :
  array els mem -> NoDup ps -> inside els ps -> zlen ps < AR ->
  exists mem', cycle w (offs 0 ps) mem = Ok mem' /\ array (cyc ps els) mem'.
Proof.
  intros Ha Hn Hin Hz. unfold cycle. assert (zlen (offs 0 ps) = zlen ps) as ->.
  { unfold zlen, offs. by rewrite length_map. }
  destruct (Z.ltb_spec (zlen ps) 2) as [Hs|Hs].
  { exists mem. split; [done|]. destruct ps as [|p [|q ps]]; [done..|]. rewrite !zlen_cons in Hs.
    pose proof (zlen_nonneg ps). lia. }
  rewrite (proj2 (Z.ltb_lt _ _)) by done.
  assert (ps <> []) as Hne by (by intros ->).
  destruct (cycle_loop_spec els mem ps (Z.to_nat w + 1) 0 els mem) as (mem' & els'' & Hr & Ha' & Hlen & Hm);
    [done|done|done|done|lia|lia|done| |].
  { split; [done|]. intros k Hk. by rewrite Z2Nat.inj_0, take_0, drop_0. }
  rewrite Z.sub_0_r in Hr. exists mem'. split; [done|]. replace (cyc ps els) with els''; [done|].
  apply list_eq. intros k. destruct (decide (k < length els)%nat) as [Hk|Hk].
  - rewrite !lookup_total_lookup by (rewrite ?length_cyc, ?Hlen; done). f_equal.
    rewrite cyc_lookup, Hm by done.
    assert (forall j, (j < length els)%nat -> length (els !!! j) = Z.to_nat w) as Hw'.
    { intros j Hj. destruct Ha as [_ Hf].
      pose proof (Forall_lookup_1 _ _ _ _ Hf (lookup_total_lookup _ _ Hj)) as He. cbn in He.
      unfold zlen in He. lia. }
    rewrite take_ge by (rewrite Hw'; [done|by apply source_inside]).
    rewrite drop_ge by (by rewrite Hw'). by rewrite app_nil_r.
  - rewrite !lookup_ge_None_2; [done|rewrite length_cyc; lia|lia].
Qed.
End Elements.

Lemma cyc_snoc ps h x : forall els, cyc ((ps ++ [h]) ++ [x]) els = swap h x (cyc (ps ++ [h]) els).
Proof.
  induction ps as [|p ps IH]; intros els; [done|].
  destruct ps as [|q ps]; [done|].
  change (cyc (((p :: q :: ps) ++ [h]) ++ [x]) els)
    with (cyc (((q :: ps) ++ [h]) ++ [x]) (swap p q els)).
  change (cyc ((p :: q :: ps) ++ [h]) els) with (cyc ((q :: ps) ++ [h]) (swap p q els)). apply IH.
Qed.

Lemma cyc_outside ps els k : NoDup ps -> inside els ps -> k ∉ ps -> cyc ps els !!! k = els !!! k.
Proof. intros Hn Hin Hk. by rewrite cyc_lookup, source_notin. Qed.

Lemma cyc_last ps h els : NoDup (ps ++ [h]) -> inside els (ps ++ [h]) ->
  cyc (ps ++ [h]) els !!! h = els !!! hd 0%nat (ps ++ [h]).
Proof.
  intros Hn Hin. rewrite cyc_lookup by done. f_equal. generalize (hd 0%nat (ps ++ [h])). intros d.
  clear Hin. induction ps as [|p ps IH]; simpl; [by rewrite decide_True|].
  apply NoDup_cons in Hn as [Hp Hn]. rewrite decide_False; [by apply IH|]. intros ->. set_solver.
Qed.

Lemma swap_perm i j els : (i < length els)%nat -> (j < length els)%nat -> swap i j els ≡ₚ els.
Proof. intros Hi Hj. apply Permutation_insert_swap; by apply lookup_total_lookup. Qed.

Lemma cyc_perm ps : forall els, inside els ps -> cyc ps els ≡ₚ els.
Proof.
  induction ps as [|p [|q ps] IH]; intros els Hin; [done..|].
  change (cyc (p :: q :: ps) els) with (cyc (q :: ps) (swap p q els)).
  apply Forall_cons in Hin as [Hp Hin]. pose proof Hin as [Hq _]%Forall_cons.
  rewrite IH by (unfold inside; by rewrite length_swap). by apply swap_perm.
Qed.
