(* ===== verification/SortBits.v ===== *)
(** The bit vector of [qsort]: the two words of [p] as one number of 64 bits,
    and as the set of the orders of the trees. *)

From S2P Require Import Prelude Sort.

(** * Two words *)

Definition pv (P : Z) : pvec := (P mod 2 ^ 32, P / 2 ^ 32).

Lemma pv_value P : P = P / 2 ^ 32 * 2 ^ 32 + P mod 2 ^ 32.
Proof. pose proof (Z.div_mod P (2 ^ 32)). lia. Qed.

Lemma pv_range P : 0 <= P < 2 ^ 64 -> 0 <= P / 2 ^ 32 < 2 ^ 32 /\ 0 <= P mod 2 ^ 32 < 2 ^ 32.
Proof.
  intros HP. split; [|by apply Z.mod_pos_bound].
  split; [apply Z.div_pos; lia|]. apply Z.div_lt_upper_bound; [done|]. change (2 ^ 32 * 2 ^ 32) with (2 ^ 64). lia.
Qed.

Lemma pv_pair a b : 0 <= b < 2 ^ 32 -> pv (a * 2 ^ 32 + b) = (b, a).
Proof.
  intros Hb. unfold pv. rewrite Z.add_comm. by rewrite Z.mod_add, Z.div_add, Z.mod_small, Z.div_small.
Qed.

Lemma pow_split n : 0 <= n <= 32 -> 2 ^ 32 = 2 ^ (32 - n) * 2 ^ n.
Proof. intros Hn. rewrite <- Z.pow_add_r by lia. f_equal. lia. Qed.

Lemma shl_spec P n : 0 < n < 32 -> 0 <= P -> P * 2 ^ n < 2 ^ 64 ->
  shl (pv P) n = Ok (pv (P * 2 ^ n)).
Proof.
  intros Hn HP HP2. unfold shl, shift_left, shift_right. decide_cmp. cbn [fst snd pv andb obind].
  decide_cmp. cbn [andb obind]. f_equal.
  assert (0 < 2 ^ n) as Hpn by (apply Z.pow_pos_nonneg; lia).
  pose proof (pow_split n ltac:(lia)) as E.
  assert (0 < 2 ^ (32 - n)) as Hqn by (apply Z.pow_pos_nonneg; lia).
  rewrite !Z.shiftl_mul_pow2, Z.shiftr_div_pow2 by lia. pose proof (pv_value P) as EP.
  set (a := P / 2 ^ 32) in *. set (b := P mod 2 ^ 32) in *.
  assert (0 <= b < 2 ^ 32) as Hb by (by apply Z.mod_pos_bound).
  assert (0 <= a) as Ha by (by apply Z.div_pos).
  set (c := b / 2 ^ (32 - n)) in *.
  assert (0 <= c < 2 ^ n) as Hc.
  { split; [apply Z.div_pos; lia|]. apply Z.div_lt_upper_bound; lia. }
  assert (b * 2 ^ n = c * 2 ^ 32 + u32 (b * 2 ^ n)) as Eb.
  { unfold u32. rewrite E at 1 2. rewrite Z.mul_mod_distr_r by lia.
    pose proof (Z.div_mod b (2 ^ (32 - n))). fold c in H. nia. }
  assert (a * 2 ^ n < 2 ^ 32) as Ha32.
  { assert (a * 2 ^ n * 2 ^ 32 < 2 ^ 32 * 2 ^ 32); [|lia]. change (2 ^ 32 * 2 ^ 32) with (2 ^ 64). nia. }
  rewrite (u32_id (a * 2 ^ n)) by (unfold in_u; nia). rewrite lor_add by lia.
  replace (P * 2 ^ n) with ((a * 2 ^ n + c) * 2 ^ 32 + u32 (b * 2 ^ n)) by nia.
  rewrite pv_pair; [done|]. apply u32_range.
Qed.

Lemma shr_spec P n : 0 < n < 32 -> 0 <= P < 2 ^ 64 -> shr (pv P) n = Ok (pv (P / 2 ^ n)).
Proof.
  intros Hn HP. unfold shr, shift_left, shift_right. decide_cmp. cbn [fst snd pv andb obind].
  decide_cmp. cbn [andb obind]. f_equal.
  assert (0 < 2 ^ n) as Hpn by (apply Z.pow_pos_nonneg; lia).
  pose proof (pow_split n ltac:(lia)) as E.
  assert (0 < 2 ^ (32 - n)) as Hqn by (apply Z.pow_pos_nonneg; lia).
  rewrite !Z.shiftl_mul_pow2, !Z.shiftr_div_pow2 by lia. pose proof (pv_value P) as EP.
  destruct (pv_range P HP) as [Ha Hb].
  set (a := P / 2 ^ 32) in *. set (b := P mod 2 ^ 32) in *.
  assert (u32 (a * 2 ^ (32 - n)) = a mod 2 ^ n * 2 ^ (32 - n)) as ->.
  { unfold u32. rewrite E, (Z.mul_comm a), Z.mul_mod_distr_l by lia. lia. }
  assert (0 <= b / 2 ^ n < 2 ^ (32 - n)) as Hbn.
  { split; [apply Z.div_pos; lia|]. apply Z.div_lt_upper_bound; lia. }
  rewrite Z.lor_comm, lor_add by lia. pose proof (Z.mod_pos_bound a (2 ^ n) Hpn) as Ham.
  assert (P / 2 ^ n = a / 2 ^ n * 2 ^ 32 + (a mod 2 ^ n * 2 ^ (32 - n) + b / 2 ^ n)) as ->.
  { pose proof (Z.div_mod a (2 ^ n) ltac:(lia)) as Da. pose proof (Z.div_mod b (2 ^ n) ltac:(lia)) as Db.
    pose proof (Z.mod_pos_bound b (2 ^ n) Hpn). symmetry. apply Z.div_unique_pos with (b mod 2 ^ n); [done|].
    rewrite EP. rewrite Db at 1. rewrite Da at 1. rewrite E. ring. }
  rewrite pv_pair; [done|]. rewrite E. nia.
Qed.

Lemma land_odd a b : Z.land (2 * a + 1) (2 * b + 1) = 2 * Z.land a b + 1.
Proof.
  apply Z.bits_inj'. intros i Hi. rewrite Z.land_spec. destruct (decide (i = 0)) as [-> |Hi0].
  - by rewrite !Z.testbit_odd_0.
  - replace i with (Z.succ (i - 1)) by lia. rewrite !Z.testbit_odd_succ by lia. by rewrite Z.land_spec.
Qed.

Lemma ctz_spec t m : 0 <= t -> ctz (2 ^ t * (2 * m + 1)) = t.
Proof.
  intros Ht. unfold ctz. rewrite (Z.mul_comm (2 ^ t)), <- Z.mul_opp_l.
  rewrite <- !Z.shiftl_mul_pow2, <- Z.shiftl_land by lia.
  replace (- (2 * m + 1)) with (2 * Z.lnot m + 1) by (unfold Z.lnot; lia).
  rewrite land_odd, Z.land_lnot_diag. rewrite Z.shiftl_mul_pow2, Z.mul_0_r, Z.add_0_l, Z.mul_1_l by lia.
  by apply Z.log2_pow2.
Qed.

Lemma pntz_spec t m : 0 < t < 32 -> 0 <= m ->
  pntz (pv (2 ^ t * (2 * m + 1) + 1)) = Ok t.
Proof.
  intros Ht Hm. assert (2 ^ 32 = 2 * 2 ^ (31 - t) * 2 ^ t) as E.
  { rewrite <- Z.pow_succ_r, <- Z.pow_add_r by lia. f_equal. lia. }
  assert (0 < 2 ^ (31 - t)) as Hq by (apply Z.pow_pos_nonneg; lia).
  assert (2 <= 2 ^ t) as Hp by (apply (Z.pow_le_mono_r 2 1 t); lia).
  pose proof (Z.div_mod m (2 ^ (31 - t)) ltac:(lia)) as Em.
  pose proof (Z.mod_pos_bound m (2 ^ (31 - t)) Hq) as Hmod.
  set (m' := m mod 2 ^ (31 - t)) in *. set (q := m / 2 ^ (31 - t)) in *.
  replace (2 ^ t * (2 * m + 1) + 1) with (q * 2 ^ 32 + (2 ^ t * (2 * m' + 1) + 1))
    by (rewrite E, Em; ring).
  rewrite pv_pair by (rewrite E; nia). unfold pntz. cbn [fst snd].
  replace (2 ^ t * (2 * m' + 1) + 1 - 1) with (2 ^ t * (2 * m' + 1)) by lia.
  rewrite u32_id by (unfold in_u; rewrite E; nia). unfold ntz.
  rewrite (proj2 (Z.eqb_neq _ _)) by nia. cbn [obind]. rewrite ctz_spec by lia.
  by rewrite (proj2 (Z.eqb_neq _ _)) by lia.
Qed.

Lemma pv_one P : 0 <= P -> (fst (pv P) =? 1) && (snd (pv P) =? 0) = (P =? 1).
Proof.
  intros HP. pose proof (pv_value P) as E. cbn [pv fst snd].
  set (a := P / 2 ^ 32) in *. set (b := P mod 2 ^ 32) in *.
  assert (0 <= b < 2 ^ 32) by (by apply Z.mod_pos_bound). bounds.
  repeat case_cmp; try done; lia.
Qed.

Lemma land3_spec P : Z.land (fst (pv P)) 3 = P mod 4.
Proof.
  change 3 with (Z.ones 2). rewrite Z.land_ones by lia. cbn [pv fst].
  change (2 ^ 2) with 4. apply Z.mod_mod_divide. by exists (2 ^ 30).
Qed.

(** A vector whose low [n] bits are [r]. *)
Lemma pv_low X n r : 0 <= n <= 32 -> 0 <= r < 2 ^ n ->
  exists a b, 0 <= b < 2 ^ (32 - n) /\ forall r', 0 <= r' < 2 ^ n -> pv (X * 2 ^ n + r') = (b * 2 ^ n + r', a).
Proof.
  intros Hn Hr. assert (0 < 2 ^ (32 - n)) as Hq by (apply Z.pow_pos_nonneg; lia).
  pose proof (pow_split n Hn) as E. pose proof (Z.mod_pos_bound X (2 ^ (32 - n)) Hq).
  exists (X / 2 ^ (32 - n)), (X mod 2 ^ (32 - n)). split; [done|]. intros r' Hr'.
  rewrite <- pv_pair by (rewrite E; nia). f_equal. rewrite E.
  rewrite (Z.div_mod X (2 ^ (32 - n))) at 1 by lia. ring.
Qed.

Lemma or1_spec X : (Z.lor (fst (pv (2 * X))) 1, snd (pv (2 * X))) = pv (2 * X + 1).
Proof.
  destruct (pv_low X 1 0) as (a & b & Hb & H); [lia..|].
  pose proof (H 0 ltac:(lia)) as H0. pose proof (H 1 ltac:(lia)) as H1. change (2 ^ 1) with 2 in *.
  replace (2 * X) with (X * 2 + 0) by lia. rewrite H0. replace (X * 2 + 0 + 1) with (X * 2 + 1) by lia.
  rewrite H1. cbn [fst snd]. f_equal. rewrite Z.add_0_r. by apply (lor_add 1 b 1).
Qed.

Lemma xor7_spec X : (Z.lxor (fst (pv (8 * X + 4))) 7, snd (pv (8 * X + 4))) = pv (8 * X + 3).
Proof.
  destruct (pv_low X 3 0) as (a & b & Hb & H); [lia..|].
  pose proof (H 4 ltac:(lia)) as H4. pose proof (H 3 ltac:(lia)) as H3.
  change (2 ^ 3) with 8 in *. rewrite (Z.mul_comm 8 X), H4, H3. cbn [fst snd]. f_equal.
  rewrite (Z.add_nocarry_lxor (b * 8) 4) by (by apply (land_low 3 b 4)).
  rewrite (Z.add_nocarry_lxor (b * 8) 3) by (by apply (land_low 3 b 3)).
  by rewrite Z.lxor_assoc.
Qed.

(** * Orders

    The vector has a bit for the order of each tree, relative to [s]. *)
Fixpoint bits (s : nat) (ks : list nat) : Z :=
  match ks with [] => 0 | k :: ks' => 2 ^ (Z.of_nat k - Z.of_nat s) + bits s ks' end.

(** Ascending orders from [s] on. *)
Fixpoint asc (s : nat) (ks : list nat) : Prop :=
  match ks with [] => True | k :: ks' => (s <= k)%nat /\ asc (S k) ks' end.

Lemma asc_weak s s' ks : (s' <= s)%nat -> asc s ks -> asc s' ks.
Proof. destruct ks as [|k ks]; [done|]. simpl. intros Hs [Hk Ha]. split; [lia|done]. Qed.

Lemma bits_shift d ks : forall s, asc (s + d) ks -> bits s ks = 2 ^ Z.of_nat d * bits (s + d) ks.
Proof.
  intros s. assert (forall s', (s + d <= s')%nat -> asc s' ks ->
    bits s ks = 2 ^ Z.of_nat d * bits (s + d) ks) as H; [|by apply H].
  induction ks as [|k ks IH]; simpl; [lia|]. intros s' Hs [Hk Ha].
  rewrite (IH (S k)) by (done || lia). rewrite Z.mul_add_distr_l. f_equal.
  rewrite <- Z.pow_add_r by lia. f_equal. lia.
Qed.

Lemma bits_bound s K ks : asc s ks -> Forall (fun k => (k < K)%nat) ks -> (s <= K)%nat ->
  0 <= bits s ks <= 2 ^ (Z.of_nat K - Z.of_nat s) - 1.
Proof.
  revert s. induction ks as [|k ks IH]; intros s Ha Hf HK.
  { simpl. pose proof (Z.pow_pos_nonneg 2 (Z.of_nat K - Z.of_nat s)). lia. }
  destruct Ha as [Hk Ha]. apply Forall_cons in Hf as [HkK Hf].
  specialize (IH (S k) Ha Hf ltac:(lia)). cbn [bits].
  assert (bits s ks = 2 ^ Z.of_nat (S k - s) * bits (S k) ks) as ->.
  { rewrite (bits_shift (S k - s)); replace (s + (S k - s))%nat with (S k) by lia; done. }
  assert (2 ^ (Z.of_nat K - Z.of_nat s) = 2 ^ (Z.of_nat K - Z.of_nat (S k)) * 2 ^ Z.of_nat (S k - s)) as ->.
  { rewrite <- Z.pow_add_r by lia. f_equal. lia. }
  assert (2 ^ Z.of_nat (S k - s) = 2 * 2 ^ (Z.of_nat k - Z.of_nat s)) as ->.
  { rewrite <- Z.pow_succ_r by lia. f_equal. lia. }
  pose proof (Z.pow_pos_nonneg 2 (Z.of_nat k - Z.of_nat s) ltac:(lia) ltac:(lia)). nia.
Qed.

Definition vec (s : nat) (ks : list nat) : pvec := pv (bits s ks).

(** The orders that occur. *)
Definition small (ks : list nat) : Prop := Forall (fun k => (k < 40)%nat) ks.

Lemma bits_first k ks : bits k (k :: ks) = bits k ks + 1.
Proof. cbn [bits]. rewrite Z.sub_diag. lia. Qed.

Lemma bits_even k ks : asc (S k) ks -> bits k ks = 2 * bits (S k) ks.
Proof. intros Ha. rewrite (bits_shift 1 ks k); replace (k + 1)%nat with (S k) by lia; done. Qed.

Lemma bits_far d k ks : asc (k + d) ks -> bits k ks = 2 ^ Z.of_nat d * bits (k + d) ks.
Proof. apply bits_shift. Qed.

Lemma bits_small s ks : asc s ks -> small ks -> (s < 40)%nat -> 0 <= bits s ks < 2 ^ 40.
Proof.
  intros Ha Hs Hs40. pose proof (bits_bound s 40 ks Ha Hs ltac:(lia)) as H.
  assert (2 ^ (Z.of_nat 40 - Z.of_nat s) <= 2 ^ 40) by (apply Z.pow_le_mono_r; lia). lia.
Qed.

(** There is another tree. *)
Lemma vec_more k ks : asc (S k) ks -> small (k :: ks) ->
  negb (fst (vec k (k :: ks)) =? 1) || negb (snd (vec k (k :: ks)) =? 0) = negb (bool_decide (ks = [])).
Proof.
  intros Ha [Hk Hs]%Forall_cons. rewrite <- negb_andb. f_equal. unfold vec.
  assert (0 <= bits k ks < 2 ^ 40) as Hb.
  { apply bits_small; [|done|lia]. eapply asc_weak; [|done]. lia. }
  rewrite pv_one by (rewrite bits_first; lia). rewrite bits_first.
  destruct ks as [|k1 ks]; [done|]. rewrite bool_decide_eq_false_2 by done. apply Z.eqb_neq.
  cbn [bits]. destruct Ha as [Hk1 Ha]. apply Forall_cons in Hs as [Hk1s Hs].
  pose proof (Z.pow_pos_nonneg 2 (Z.of_nat k1 - Z.of_nat k) ltac:(lia) ltac:(lia)).
  assert (0 <= bits k ks); [|lia]. apply bits_small; [|done|lia]. eapply asc_weak; [|done]. lia.
Qed.

Lemma bits_next k k1 ks : asc (S k) (k1 :: ks) ->
  bits k (k :: k1 :: ks) = 2 ^ (Z.of_nat k1 - Z.of_nat k) * (2 * bits (S k1) ks + 1) + 1.
Proof.
  intros [Hk Ha]. rewrite bits_first. f_equal. rewrite (bits_far (k1 - k)).
  - replace (k + (k1 - k))%nat with k1 by lia. rewrite bits_first, bits_even by done. f_equal. f_equal. lia.
  - split; [lia|done].
Qed.

(** The next tree. *)
Lemma vec_next k k1 ks : asc (S k) (k1 :: ks) -> small (k :: k1 :: ks) -> (k1 - k < 32)%nat ->
  pntz (vec k (k :: k1 :: ks)) = Ok (Z.of_nat k1 - Z.of_nat k) /\
  shr (vec k (k :: k1 :: ks)) (Z.of_nat k1 - Z.of_nat k) = Ok (vec k1 (k1 :: ks)).
Proof.
  intros Ha Hs Hd. pose proof Ha as [Hk Ha']. unfold vec.
  assert (0 <= bits k (k :: k1 :: ks) < 2 ^ 40) as Hb.
  { apply bits_small; [|done|]; [split; [lia|done]|]. by apply Forall_cons in Hs as [? _]. }
  apply Forall_cons in Hs as [_ [Hk1 Hs]%Forall_cons].
  assert (0 <= bits (S k1) ks) as Hb1.
  { destruct ks; [done|]. destruct Ha' as [? Ha']. apply bits_small; [done|done|].
    apply Forall_cons in Hs as [? _]. lia. }
  rewrite bits_next in * by done. split; [by apply pntz_spec; [lia|]|].
  rewrite shr_spec by lia. do 2 f_equal. rewrite bits_first, (bits_even k1) by done.
  assert (2 <= 2 ^ (Z.of_nat k1 - Z.of_nat k)) by (apply (Z.pow_le_mono_r 2 1); lia).
  symmetry. apply Z.div_unique_pos with 1; lia.
Qed.

(** The two smallest trees have neighbouring orders. *)
Lemma vec_land3 k ks : asc (S k) ks ->
  (Z.land (fst (vec k (k :: ks))) 3 =? 3) = match ks with [] => false | k1 :: _ => (k1 =? S k)%nat end.
Proof.
  intros Ha. unfold vec. rewrite land3_spec. destruct ks as [|k1 ks].
  { by rewrite bits_first. }
  rewrite bits_next by done. destruct Ha as [Hk Ha]. set (m := bits (S k1) ks).
  destruct (Nat.eqb_spec k1 (S k)) as [-> |Hne].
  - replace (Z.of_nat (S k) - Z.of_nat k) with 1 by lia. apply Z.eqb_eq.
    replace (2 ^ 1 * (2 * m + 1) + 1) with (3 + m * 4) by lia. by rewrite Z.mod_add.
  - apply Z.eqb_neq. replace (Z.of_nat k1 - Z.of_nat k) with (2 + Z.of_nat (k1 - k - 2)) by lia.
    rewrite Z.pow_add_r by lia. set (q := 2 ^ Z.of_nat _).
    replace (2 ^ 2 * q * (2 * m + 1) + 1) with (1 + (q * (2 * m + 1)) * 4) by lia. by rewrite Z.mod_add.
Qed.

Lemma or1_vec k ks : asc (S k) ks -> (Z.lor (fst (vec k ks)) 1, snd (vec k ks)) = vec k (k :: ks).
Proof. intros Ha. unfold vec. by rewrite bits_first, bits_even, or1_spec. Qed.

(** Two trees become one. *)
Lemma vec_merge k ks : asc (k + 3) ks -> small (k :: S k :: ks) ->
  shr (vec k (k :: S k :: ks)) 2 = Ok (vec (k + 2) ks).
Proof.
  intros Ha Hs. unfold vec.
  assert (0 <= bits k (k :: S k :: ks) < 2 ^ 40) as Hb.
  { apply bits_small; [|done|]; [split; [lia|split; [lia|]]|]; [eapply asc_weak; [|done]; lia|].
    by apply Forall_cons in Hs as [? _]. }
  rewrite shr_spec by lia. do 2 f_equal. rewrite bits_first. cbn [bits].
  replace (Z.of_nat (S k) - Z.of_nat k) with 1 by lia. rewrite (bits_far 2) by (eapply asc_weak; [|done]; lia).
  symmetry. apply Z.div_unique_pos with 3; lia.
Qed.

(** A smaller order is made room for. *)
Lemma vec_room s k ks : (s < k)%nat -> (k - s < 32)%nat -> asc k ks -> small ks -> (k < 40)%nat ->
  shl (vec k ks) (Z.of_nat k - Z.of_nat s) = Ok (vec s ks).
Proof.
  intros Hs Hd Ha Hsm Hk. unfold vec.
  pose proof (bits_small k ks Ha Hsm Hk).
  assert (0 <= bits s ks < 2 ^ 40).
  { apply bits_small; [|done|lia]. eapply asc_weak; [|done]. lia. }
  assert (bits s ks = bits k ks * 2 ^ (Z.of_nat k - Z.of_nat s)) as E.
  { rewrite (bits_far (k - s)) by (by replace (s + (k - s))%nat with k by lia).
    replace (s + (k - s))%nat with k by lia. rewrite Z.mul_comm. f_equal. f_equal. lia. }
  rewrite shl_spec by lia. by rewrite E.
Qed.

(** The smallest tree of order [k + 2] loses its root: the vector of its
    greater child. *)
Lemma vec_split k ks : asc (k + 3) ks -> small (S (S k) :: ks) ->
  exists p1, shl (vec (S (S k)) (S (S k) :: ks)) 2 = Ok p1 /\
    shr (Z.lxor (fst p1) 7, snd p1) 1 = Ok (vec (S k) (S k :: ks)).
Proof.
  intros Ha [Hk Hs]%Forall_cons. unfold vec. set (X := bits (k + 3) ks).
  assert (0 <= X < 2 ^ 40) as HX.
  { destruct ks as [|k1 ks]; [done|]. apply bits_small; [done|done|]. destruct Ha as [? _].
    apply Forall_cons in Hs as [? _]. lia. }
  rewrite !bits_first.
  rewrite (bits_far 1 (S (S k))) by (by replace (S (S k) + 1)%nat with (k + 3)%nat by lia).
  rewrite (bits_far 2 (S k)) by (by replace (S k + 2)%nat with (k + 3)%nat by lia).
  replace (S (S k) + 1)%nat with (k + 3)%nat by lia. replace (S k + 2)%nat with (k + 3)%nat by lia.
  fold X. rewrite shl_spec by lia. eexists. split; [reflexivity|].
  replace ((2 ^ Z.of_nat 1 * X + 1) * 2 ^ 2) with (8 * X + 4) by lia. rewrite xor7_spec.
  rewrite shr_spec by lia. do 2 f_equal. symmetry. apply Z.div_unique_pos with 1; lia.
Qed.
