(* ===== verification/SortHeap.v ===== *)
(** Leonardo heaps: the order on elements, the trees behind the array, and the
    specifications of [sift] and [trinkle] on them. *)

From S2P Require Import Prelude Sort SortCycle SortBits.

(** * Leonardo numbers *)

Fixpoint leo2 (n : nat) : Z * Z :=
  match n with O => (1, 1) | S n' => let (a, b) := leo2 n' in (b, a + b + 1) end.
Definition leo (n : nat) : Z := fst (leo2 n).

Lemma leo_SS n : leo (S (S n)) = leo n + leo (S n) + 1.
Proof. unfold leo. simpl. destruct (leo2 n). simpl. lia. Qed.

Lemma leo_pos n : 1 <= leo n <= leo (S n).
Proof.
  induction n as [|n IH]; [done|]. rewrite leo_SS. lia.
Qed.

Lemma leo_mono n m : (n <= m)%nat -> leo n <= leo m.
Proof. induction 1 as [|m _ IH]; [done|]. pose proof (leo_pos m). lia. Qed.

(** The largest number of elements for which the gap between two trees never
    reaches the word size. *)
Definition MAXNEL : Z := leo 33.

Lemma leo_lt n m : leo n < leo m -> (n < m)%nat.
Proof. intros H. destruct (decide (m <= n)%nat) as [Hm|Hm]; [|lia]. pose proof (leo_mono m n Hm). lia. Qed.

Lemma leo_strict n m : (1 <= n)%nat -> (n < m)%nat -> leo n < leo m.
Proof.
  intros Hn Hm. destruct m as [|m]; [lia|]. pose proof (leo_mono n m ltac:(lia)).
  destruct m as [|m]; [lia|]. rewrite leo_SS. pose proof (leo_pos m). lia.
Qed.

(** Induction over the two children of a tree. *)
Lemma tree_ind (P : nat -> Prop) :
  P 0%nat -> P 1%nat -> (forall k, P k -> P (S k) -> P (S (S k))) -> forall k, P k.
Proof. intros H0 H1 HS k. enough (P k /\ P (S k)) by tauto. induction k as [|k [IH IH']]; auto. Qed.

(** * The order

    What [qsort] asks of the comparison function: the sign of a comparison
    flips with its arguments, and "not greater" is transitive. *)

Class TotalPreorder (cmp : bytes -> bytes -> Z) : Prop := {
  cmp_flip : forall x y, cmp x y <= 0 <-> 0 <= cmp y x;
  cmp_trans : forall x y z, cmp x y <= 0 -> cmp y z <= 0 -> cmp x z <= 0;
}.

(** The element at a position. *)
Definition elt (els : list bytes) (z : Z) : bytes := els !!! Z.to_nat z.

Section Heaps.
Context (cmp : bytes -> bytes -> Z) {Hcmp : TotalPreorder cmp}.

Definition le (x y : bytes) : Prop := cmp x y <= 0.

#[local] Instance le_trans : Transitive le.
Proof. intros x y z. apply cmp_trans. Qed.

#[local] Instance le_refl : Reflexive le.
Proof. intros x. unfold le. pose proof (cmp_flip x x). lia. Qed.

Lemma le_flip x y : 0 <= cmp x y -> le y x.
Proof. unfold le. by rewrite cmp_flip. Qed.

Lemma le_gt x y : 0 < cmp x y -> le y x.
Proof. intros H. apply le_flip. lia. Qed.

(** The tree of order [k] with its root at [h] covers the positions from
    [h - leo k + 1] to [h]; its children are the trees of order [k - 2] at
    [h - 1] and of order [k - 1] before that. *)
Fixpoint heap (k : nat) (g : Z -> bytes) (h : Z) : Prop :=
  match k with
  | S k1 =>
      match k1 with
      | S k2 =>
          le (g (h - 1)) (g h) /\ le (g (h - 1 - leo k2)) (g h) /\
          heap k2 g (h - 1) /\ heap k1 g (h - 1 - leo k2)
      | O => True
      end
  | O => True
  end.

Definition kids (k : nat) (g : Z -> bytes) (h : Z) : Prop :=
  match k with
  | S (S k2 as k1) => heap k2 g (h - 1) /\ heap k1 g (h - 1 - leo k2)
  | _ => True
  end.

Lemma heap_SS k g h : heap (S (S k)) g h <->
  le (g (h - 1)) (g h) /\ le (g (h - 1 - leo k)) (g h) /\ kids (S (S k)) g h.
Proof. done. Qed.

Lemma heap_kids k g h : heap k g h -> kids k g h.
Proof. destruct k as [|[|k]]; [done..|]. rewrite heap_SS. tauto. Qed.

Lemma heap_frame k : forall g g' h,
  (forall z, h - leo k < z <= h -> g z = g' z) -> heap k g h -> heap k g' h.
Proof.
  induction k as [| |k IH1 IH2] using tree_ind; [done..|]. intros g g' h E (L1 & L2 & H1 & H2).
  pose proof (leo_pos k). pose proof (leo_pos (S k)). rewrite leo_SS in E.
  split_and!.
  - by rewrite <- !E by lia.
  - by rewrite <- !E by lia.
  - apply (IH1 g); [|done]. intros z Hz. apply E. lia.
  - apply (IH2 g); [|done]. intros z Hz. apply E. lia.
Qed.

Lemma kids_frame k g g' h :
  (forall z, h - leo k < z < h -> g z = g' z) -> kids k g h -> kids k g' h.
Proof.
  destruct k as [|[|k]]; [done..|]. intros E [H1 H2]. rewrite leo_SS in E.
  pose proof (leo_pos k). pose proof (leo_pos (S k)).
  split; [apply (heap_frame k g)|apply (heap_frame (S k) g)]; try done; intros z Hz; apply E; lia.
Qed.

(** The root of a heap is its greatest element. *)
Lemma heap_max k : forall g h z, heap k g h -> h - leo k < z <= h -> le (g z) (g h).
Proof.
  induction k as [| |k IH1 IH2] using tree_ind; intros g h z.
  1,2: intros _ Hz; change (leo _) with 1 in Hz; by replace z with h by lia.
  intros (L1 & L2 & H1 & H2) Hz. rewrite leo_SS in Hz.
  destruct (decide (z = h)) as [-> |]; [done|].
  destruct (decide (h - 1 - leo k < z)).
  - etrans; [apply (IH1 g (h - 1))|]; [done|lia|done].
  - etrans; [apply (IH2 g (h - 1 - leo k))|]; [done|lia|done].
Qed.

(** * Paths

    A path goes down through distinct positions; its last position is [h]. *)

Definition down (n : Z) (ps : list Z) (h : Z) : Prop :=
  0 <= h < n /\ Forall (fun p => h < p < n) ps /\ NoDup ps.

(** The array after [cycle] has moved the elements of a path. *)
Definition mv (qs : list Z) (els : list bytes) : list bytes := cyc (map Z.to_nat qs) els.

Lemma down_step n ps h x : down n ps h -> 0 <= x < h -> down n (ps ++ [h]) x.
Proof.
  intros (Hh & Hf & Hn) Hx. split_and!; [lia|lia| |].
  - apply Forall_app. split; [|by constructor; [lia|]]. eapply Forall_impl; [exact Hf|]. simpl. lia.
  - apply NoDup_app. split; [done|]. split; [|apply NoDup_singleton]. intros y Hy ->%list_elem_of_singleton.
    rewrite Forall_forall in Hf. specialize (Hf h Hy). lia.
Qed.

Lemma down_nodup n ps h : down n ps h -> NoDup (ps ++ [h]).
Proof.
  intros (Hh & Hf & Hn). apply NoDup_app. split; [done|]. split; [|apply NoDup_singleton].
  intros y Hy ->%list_elem_of_singleton. rewrite Forall_forall in Hf. specialize (Hf h Hy). lia.
Qed.

Lemma down_range n ps h : down n ps h -> Forall (fun p => h <= p < n) (ps ++ [h]).
Proof.
  intros (Hh & Hf & Hn). apply Forall_app. split; [|by constructor; [lia|]].
  eapply Forall_impl; [exact Hf|]. simpl. lia.
Qed.

Lemma down_first n ps h : down n ps h -> h <= hd 0 (ps ++ [h]) < n.
Proof. intros Hd%down_range. by destruct ps; apply Forall_cons in Hd as [? _]. Qed.

Lemma down_nats n ps h : down n ps h -> NoDup (map Z.to_nat (ps ++ [h])).
Proof.
  intros Hd. pose proof (down_nodup _ _ _ Hd) as Hn. pose proof (down_range _ _ _ Hd) as Hr.
  destruct Hd as [Hh _]. induction (ps ++ [h]) as [|p qs IH]; [constructor|].
  apply NoDup_cons in Hn as [Hp Hn]. apply Forall_cons in Hr as [Hp' Hr]. simpl. apply NoDup_cons.
  split; [|by apply IH]. intros (q & E & Hq)%list_elem_of_fmap. apply Hp.
  rewrite Forall_forall in Hr. specialize (Hr q Hq). by replace p with q by lia.
Qed.

Lemma down_inside els ps h : down (zlen els) ps h -> inside els (map Z.to_nat (ps ++ [h])).
Proof.
  intros Hd. pose proof (down_range _ _ _ Hd) as Hr. destruct Hd as [Hh _].
  apply Forall_fmap. eapply Forall_impl; [exact Hr|]. unfold zlen. simpl. lia.
Qed.

Lemma down_notin n ps h z : down n ps h -> 0 <= z < h -> Z.to_nat z ∉ map Z.to_nat (ps ++ [h]).
Proof.
  intros Hd Hz (q & E & Hq)%list_elem_of_fmap. apply down_range in Hd.
  rewrite Forall_forall in Hd. specialize (Hd q Hq). lia.
Qed.

Lemma length_mv qs els : length (mv qs els) = length els.
Proof. apply length_cyc. Qed.

Lemma zlen_mv qs els : zlen (mv qs els) = zlen els.
Proof. unfold zlen. by rewrite length_mv. Qed.

Lemma mv_perm els ps h : down (zlen els) ps h -> mv (ps ++ [h]) els ≡ₚ els.
Proof. intros Hd. by apply cyc_perm, down_inside. Qed.

Lemma mv_below els ps h z : down (zlen els) ps h -> 0 <= z < h ->
  elt (mv (ps ++ [h]) els) z = elt els z.
Proof.
  intros Hd Hz. apply cyc_outside; [by eapply down_nats|by apply down_inside|by eapply down_notin].
Qed.

(** The first element of the path is at its end. *)
Lemma mv_last els ps h : down (zlen els) ps h ->
  elt (mv (ps ++ [h]) els) h = elt els (hd 0 (ps ++ [h])).
Proof.
  intros Hd. pose proof (down_nats _ _ _ Hd) as Hn. pose proof (down_inside _ _ _ Hd) as Hi.
  unfold elt, mv. rewrite map_app in *. cbn [map] in *. rewrite cyc_last by done.
  by destruct ps.
Qed.

(** One more step swaps two elements. *)
Lemma mv_step els ps h x z : down (zlen els) ps h -> 0 <= x < h -> 0 <= z ->
  elt (mv ((ps ++ [h]) ++ [x]) els) z =
  let b := elt (mv (ps ++ [h]) els) in
  if decide (z = h) then b x else if decide (z = x) then b h else b z.
Proof.
  intros Hd Hx Hz. destruct Hd as [Hh _]. unfold elt, mv. rewrite !map_app. cbn [map].
  rewrite cyc_snoc. rewrite swap_lookup by (rewrite length_cyc; unfold zlen in Hh; lia).
  repeat case_decide; try done; lia.
Qed.

(** * [sift]

    [g] is the array [f] with the tree of order [k] at [h] made a heap. *)
Definition sifted (k : nat) (f g : Z -> bytes) (h : Z) : Prop :=
  heap k g h /\
  (forall z, 0 <= z -> z <= h - leo k \/ h < z -> g z = f z) /\
  (exists z, h - leo k < z <= h /\ g h = f z) /\
  (forall z, h - leo k < z <= h -> le (f z) (g h)).

(** A tree whose root is not less than its children needs no work. *)
Lemma sifted_done k f h : heap k f h -> sifted k f f h.
Proof.
  intros Hh. pose proof (leo_pos k). split_and!; [done|done| |].
  - exists h. split; [lia|done].
  - intros z Hz. by apply (heap_max k).
Qed.

(** The greatest element moves up from the child [x], and the child is
    sifted. *)
Lemma sifted_child k f f1 g h x kx y ky :
  x = h - 1 - leo k /\ kx = S k /\ y = h - 1 /\ ky = k \/
  x = h - 1 /\ kx = k /\ y = h - 1 - leo k /\ ky = S k ->
  leo (S (S k)) <= h + 1 ->
  kids (S (S k)) f h -> le (f y) (f x) -> le (f h) (f x) ->
  (forall z, 0 <= z -> f1 z = if decide (z = h) then f x else if decide (z = x) then f h else f z) ->
  sifted kx f1 g x -> sifted (S (S k)) f g h.
Proof.
  intros Hxy Hn Hk Hyx Hhx Hf1 (Hg & Ho & (zx & Hzx & Ez) & Hm).
  pose proof (leo_pos k). pose proof (leo_pos (S k)). rewrite leo_SS in Hn.
  assert (heap kx f x /\ heap ky f y) as [Hx Hy] by (destruct Hk; naive_solver).
  assert (g h = f x) as Egh.
  { rewrite Ho by (destruct Hxy; lia). rewrite Hf1 by lia. by rewrite decide_True. }
  assert (forall z, y - leo ky < z <= y -> g z = f z) as Egy.
  { intros z Hz. rewrite Ho, Hf1 by (destruct Hxy; destruct_and!; subst; lia).
    rewrite !decide_False by (destruct Hxy; destruct_and!; subst; lia). done. }
  assert (heap ky g y) as Hgy by (eapply heap_frame; [|exact Hy]; intros z Hz; by rewrite Egy).
  assert (le (g y) (g h)) as Ly.
  { rewrite Egh, Egy; [done|]. destruct Hxy; destruct_and!; subst; lia. }
  assert (le (g x) (g h)) as Lx.
  { rewrite Egh, Ez, Hf1 by (destruct Hxy; destruct_and!; subst; lia).
    repeat case_decide; [done|done|]. apply (heap_max kx); done. }
  split_and!.
  - rewrite heap_SS. unfold kids. destruct Hxy; destruct_and!; subst; done.
  - intros z Hz Hz'. rewrite leo_SS in Hz'.
    rewrite Ho, Hf1 by (destruct Hxy; destruct_and!; subst; lia).
    rewrite !decide_False by (destruct Hxy; destruct_and!; subst; lia). done.
  - exists x. rewrite leo_SS. split; [destruct Hxy; lia|done].
  - intros z Hz. rewrite leo_SS in Hz. rewrite Egh. destruct (decide (z = h)) as [-> |]; [done|].
    destruct (decide (x - leo kx < z <= x)); [by apply (heap_max kx)|].
    etrans; [apply (heap_max ky f y)|]; [done| |done]. destruct Hxy; destruct_and!; subst; lia.
Qed.

Context (w : Z) (Hw : 0 < w).

Definition ptrs (qs : list Z) : list Z := map (fun p => w * p) qs.

(** The table of scaled Leonardo numbers is long enough for [n] elements. *)
Definition table (n : Z) (lp : list Z) : Prop :=
  forall i : nat, (i <= 2)%nat \/ leo (i - 1) < n -> zget lp (Z.of_nat i) = Ok (w * leo i).

Lemma cmp_at_spec els mem x y :
  array w els mem -> 0 <= x < zlen els -> 0 <= y < zlen els ->
  cmp_at cmp w mem (w * x) (w * y) = Ok (cmp (elt els x) (elt els y)).
Proof.
  intros Ha Hx Hy. unfold cmp_at, elt, zlen in *.
  assert (forall z, 0 <= z < Z.of_nat (length els) -> load mem (w * z) w = Ok (els !!! Z.to_nat z)) as Hl.
  { intros z Hz. rewrite <- (Z2Nat.id z) at 1 by lia. eapply load_element; [done..|].
    apply lookup_total_lookup. lia. }
  by rewrite !Hl.
Qed.

Lemma cycle_mv els mem ps h :
  array w els mem -> down (zlen els) ps h -> zlen (ps ++ [h]) < AR ->
  exists mem', cycle w (ptrs (ps ++ [h])) mem = Ok mem' /\ array w (mv (ps ++ [h]) els) mem'.
Proof.
  intros Ha Hd Hz.
  destruct (cycle_spec w Hw els mem (map Z.to_nat (ps ++ [h]))) as (mem' & Hc & Ha'); try done.
  - by eapply down_nats.
  - by apply down_inside.
  - unfold zlen in *. by rewrite length_map.
  - exists mem'. split; [|done]. rewrite <- Hc. f_equal. unfold ptrs, offs. rewrite map_map.
    apply map_ext_in. intros q Hq%list_elem_of_In. pose proof (down_range _ _ _ Hd) as Hr.
    rewrite Forall_forall in Hr. specialize (Hr q Hq). destruct Hd as [Hh _].
    rewrite Z2Nat.id; lia.
Qed.

Lemma ptrs_push qs x : zlen qs < AR -> ar_push (ptrs qs) (w * x) = Ok (ptrs (qs ++ [x])).
Proof.
  intros Hz. unfold ar_push, ptrs. rewrite map_app. unfold zlen in *. rewrite length_map.
  by rewrite (proj2 (Z.ltb_lt _ _)).
Qed.

Lemma ptrs_first qs : qs <> [] -> zget (ptrs qs) 0 = Ok (w * hd 0 qs).
Proof. by destruct qs. Qed.

Lemma table_get n lp k i : table n lp -> leo k <= n -> (i < k)%nat ->
  zget lp (Z.of_nat i) = Ok (w * leo i).
Proof.
  intros Ht Hn Hi. apply Ht. destruct (decide (i <= 2)%nat); [by left|right].
  pose proof (leo_strict (i - 1) k ltac:(lia) ltac:(lia)). lia.
Qed.

Lemma zlen_snoc {A} (l : list A) x : zlen (l ++ [x]) = zlen l + 1.
Proof. by rewrite zlen_app. Qed.

(** What the loop of [sift] gives from the path [ps ++ [h]]. *)
Definition sift_path (k : nat) (els : list bytes) (ps : list Z) (h : Z) (r : outcome (list Z)) : Prop :=
  exists qs h', r = Ok (ptrs (qs ++ [h'])) /\ down (zlen els) qs h' /\
    zlen (qs ++ [h']) <= zlen (ps ++ [h]) + Z.of_nat k /\
    sifted k (elt (mv (ps ++ [h]) els)) (elt (mv (qs ++ [h']) els)) h.

Definition sift_loop_ok (lp : list Z) (k : nat) : Prop := forall fuel els mem ps h,
  array w els mem -> table (zlen els) lp -> down (zlen els) ps h -> leo k <= h + 1 ->
  kids k (elt (mv (ps ++ [h]) els)) h -> (k < fuel)%nat -> zlen (ps ++ [h]) + Z.of_nat k < AR ->
  sift_path k els ps h (sift_loop cmp w fuel mem (w * h) (Z.of_nat k) lp (ptrs (ps ++ [h]))).

(** The step of the loop to the greater child [x]. *)
Lemma sift_step lp k fuel els mem ps h x kx y ky :
  let b := elt (mv (ps ++ [h]) els) in
  x = h - 1 - leo k /\ kx = S k /\ y = h - 1 /\ ky = k \/
  x = h - 1 /\ kx = k /\ y = h - 1 - leo k /\ ky = S k ->
  sift_loop_ok lp kx ->
  array w els mem -> table (zlen els) lp -> down (zlen els) ps h -> leo (S (S k)) <= h + 1 ->
  kids (S (S k)) b h -> (S k < fuel)%nat -> zlen (ps ++ [h]) + Z.of_nat (S (S k)) < AR ->
  le (b y) (b x) -> le (b h) (b x) ->
  sift_path (S (S k)) els ps h
    (let! ar' := ar_push (ptrs (ps ++ [h])) (w * x) in
     sift_loop cmp w fuel mem (w * x) (Z.of_nat kx) lp ar').
Proof.
  intros b Hxy IH Ha Ht Hd Hn Hk Hf Hz Lyx Lhx. rewrite ptrs_push by lia. cbn [obind].
  pose proof (leo_pos k). pose proof (leo_pos (S k)). rewrite leo_SS in Hn.
  assert (forall z, 0 <= z -> elt (mv ((ps ++ [h]) ++ [x]) els) z =
    if decide (z = h) then b x else if decide (z = x) then b h else b z) as Hb.
  { intros z Hz0. apply mv_step; [done|destruct Hxy; lia|done]. }
  assert (kids kx (elt (mv ((ps ++ [h]) ++ [x]) els)) x) as Hkids.
  { assert (heap kx b x) as Hx%heap_kids by (destruct Hk; naive_solver).
    eapply kids_frame; [|exact Hx]. intros z Hz'.
    rewrite Hb by (destruct Hxy; destruct_and!; subst; lia).
    by rewrite !decide_False by (destruct Hxy; lia). }
  destruct (IH fuel els mem (ps ++ [h]) x) as (qs & h' & Hr & Hd' & Hz' & Hs); try done.
  { apply down_step; [done|]. destruct Hxy; lia. }
  { destruct Hxy; destruct_and!; subst; lia. }
  { destruct Hxy; lia. }
  { rewrite zlen_snoc. destruct Hxy; lia. }
  exists qs, h'. split_and!; try done.
  - rewrite !zlen_snoc in *. destruct Hxy; lia.
  - eapply sifted_child; try done. rewrite leo_SS. lia.
Qed.

Lemma sift_loop_spec lp k : sift_loop_ok lp k.
Proof.
  induction k as [k IH] using lt_wf_ind. intros fuel els mem ps h Ha Ht Hd Hn Hk Hf Hz.
  destruct fuel as [|fuel]; [lia|]. cbn [sift_loop].
  destruct k as [|[|k]].
  1,2: exists ps, h; rewrite (proj2 (Z.leb_le _ _)) by lia; split_and!; [done|done|lia|]; by apply sifted_done.
  rewrite (proj2 (Z.leb_gt _ _)) by lia. pose proof Hd as [Hh _].
  replace (Z.of_nat (S (S k)) - 2) with (Z.of_nat k) by lia.
  rewrite (table_get (zlen els) lp (S (S k)) k) by (done || lia). cbn [obind].
  pose proof (leo_pos k). pose proof (leo_pos (S k)). pose proof (leo_SS k) as ES.
  rewrite ptrs_first by (by destruct ps). cbn [obind].
  replace (w * h - w - w * leo k) with (w * (h - 1 - leo k)) by lia.
  replace (w * h - w) with (w * (h - 1)) by lia.
  pose proof (down_first _ _ _ Hd).
  rewrite !(cmp_at_spec els) by (done || lia). cbn [obind].
  rewrite <- mv_last by done.
  rewrite <- !(mv_below els ps h (h - 1)), <- !(mv_below els ps h (h - 1 - leo k)) by (done || lia).
  set (b := elt (mv (ps ++ [h]) els)) in *. set (lf := h - 1 - leo k) in *. set (rt := h - 1) in *.
  destruct ((0 <=? cmp (b h) (b lf)) && (0 <=? cmp (b h) (b rt))) eqn:Ec.
  { bool_hyps. exists ps, h. split_and!; [done|done|lia|]. apply sifted_done. rewrite heap_SS.
    split_and!; [by apply le_flip..|done]. }
  assert (le (b h) (b lf) \/ le (b h) (b rt)) as Hle.
  { unfold le. apply andb_false_iff in Ec as [Ec|Ec]; bool_hyps; lia. }
  destruct (Z.leb_spec 0 (cmp (b lf) (b rt))) as [Hc%le_flip|Hc].
  - replace (Z.of_nat (S (S k)) - 1) with (Z.of_nat (S k)) by lia.
    eapply (sift_step lp k fuel els mem ps h lf (S k) rt k); try done; [by left|apply IH; lia|lia|].
    destruct Hle; [done|]. by etrans.
  - assert (le (b lf) (b rt)) by (unfold le; lia).
    eapply (sift_step lp k fuel els mem ps h rt k lf (S k)); try done; [by right|apply IH; lia|lia|].
    destruct Hle; [|done]. by etrans.
Qed.

(** [sift] makes a heap of a tree whose children are heaps. *)
Lemma sift_spec lp k els mem h :
  array w els mem -> table (zlen els) lp -> 0 <= h < zlen els -> leo k <= h + 1 ->
  kids k (elt els) h -> Z.of_nat k < AR - 1 ->
  exists mem' els', sift cmp w mem (w * h) (Z.of_nat k) lp = Ok mem' /\ array w els' mem' /\
    els' ≡ₚ els /\ sifted k (elt els) (elt els') h.
Proof.
  intros Ha Ht Hh Hn Hk Hz.
  assert (down (zlen els) [] h) as Hd by (split_and!; [lia|lia|constructor|constructor]).
  destruct (sift_loop_spec lp k (Z.to_nat (Z.of_nat k) + 1)%nat els mem [] h)
    as (qs & h' & Hr & Hd' & Hz' & Hs); try done; [lia|by rewrite zlen_snoc; unfold zlen; simpl; lia|].
  unfold sift. change [w * h] with (ptrs ([] ++ [h])). rewrite Hr. cbn [obind].
  destruct (cycle_mv els mem qs h') as (mem' & Hc & Ha'); [done|done| |].
  { change (zlen ([] ++ [h])) with 1 in Hz'. lia. }
  exists mem', (mv (qs ++ [h']) els). split_and!; [done|done|by apply mv_perm|exact Hs].
Qed.

(** * Rows of trees

    The trees of the orders [ks], the smallest one with its root at [h]. *)

Fixpoint total (ks : list nat) : Z :=
  match ks with [] => 0 | k :: ks' => leo k + total ks' end.

Fixpoint heaps (ks : list nat) (g : Z -> bytes) (h : Z) : Prop :=
  match ks with [] => True | k :: ks' => heap k g h /\ heaps ks' g (h - leo k) end.

(** The roots ascend to the right. *)
Fixpoint chain (ks : list nat) (g : Z -> bytes) (h : Z) : Prop :=
  match ks with
  | [] => True
  | k :: ks' => (ks' <> [] -> le (g (h - leo k)) (g h)) /\ chain ks' g (h - leo k)
  end.

Lemma total_nonneg ks : 0 <= total ks.
Proof. induction ks as [|k ks IH]; simpl; [done|]. pose proof (leo_pos k). lia. Qed.

Lemma total_pos k ks : 1 <= total (k :: ks).
Proof. simpl. pose proof (leo_pos k). pose proof (total_nonneg ks). lia. Qed.

Lemma heaps_frame ks : forall g g' h, total ks = h + 1 ->
  (forall z, 0 <= z <= h -> g z = g' z) -> heaps ks g h -> heaps ks g' h.
Proof.
  induction ks as [|k ks IH]; intros g g' h Ht E; [done|]. intros [Hh Hs].
  cbn [total] in Ht. pose proof (total_nonneg ks). pose proof (leo_pos k). split.
  - eapply heap_frame; [|exact Hh]. intros z Hz. apply E. lia.
  - apply (IH g); [lia| |done]. intros z Hz. apply E. lia.
Qed.

Lemma chain_frame ks : forall g g' h, total ks = h + 1 ->
  (forall z, 0 <= z <= h -> g z = g' z) -> chain ks g h -> chain ks g' h.
Proof.
  induction ks as [|k ks IH]; intros g g' h Ht E; [done|]. intros [Hh Hs].
  cbn [total] in Ht. pose proof (leo_pos k). split.
  - intros Hne. destruct ks as [|k1 ks]; [done|]. pose proof (total_pos k1 ks).
    rewrite <- !E by lia. by apply Hh.
  - apply (IH g); [lia| |done]. intros z Hz. apply E. pose proof (total_nonneg ks). lia.
Qed.

(** The last root is the greatest element of the row. *)
Lemma row_max ks : forall g h z, total ks = h + 1 -> heaps ks g h -> chain ks g h -> 0 <= z <= h ->
  le (g z) (g h).
Proof.
  induction ks as [|k ks IH]; intros g h z Ht; [simpl in Ht; lia|]. intros [Hh Hs] [Hc Hcs] Hz.
  cbn [total] in Ht. destruct (decide (h - leo k < z)); [apply (heap_max k); [done|lia]|].
  destruct ks as [|k1 ks]; [simpl in Ht; lia|].
  etrans; [apply (IH g (h - leo k))|by apply Hc]; try done; lia.
Qed.

(** * [trinkle]

    [g] is the array [f] with the row put in order. *)
Definition settled (ks : list nat) (f g : Z -> bytes) (h : Z) : Prop :=
  heaps ks g h /\ chain ks g h /\
  (forall z, h < z -> g z = f z) /\
  (exists z, 0 <= z <= h /\ g h = f z).

(** The element has found its tree: it is not less than the root before it, or
    a child of its tree is not. *)
Lemma settled_stop k ks f g h :
  total (k :: ks) = h + 1 -> heaps ks f (h - leo k) -> chain ks f (h - leo k) ->
  (ks <> [] -> exists z, h - leo k < z <= h /\ le (f (h - leo k)) (f z)) ->
  sifted k f g h -> settled (k :: ks) f g h.
Proof.
  intros Ht Hh Hc Hz (Hg & Ho & (zx & Hzx & Ez) & Hm). cbn [total] in Ht.
  pose proof (total_nonneg ks). pose proof (leo_pos k).
  assert (forall z, 0 <= z <= h - leo k -> f z = g z) as E by (intros z Hz'; rewrite Ho; [done|lia|lia]).
  split_and!.
  - split; [done|]. apply (heaps_frame ks f); [lia|done|done].
  - split; [|apply (chain_frame ks f); [lia|done|done]]. intros Hne.
    destruct (Hz Hne) as (z & Hzr & Hle). destruct ks as [|k1 ks]; [done|]. pose proof (total_pos k1 ks).
    rewrite <- E by lia. etrans; [exact Hle|]. by apply Hm.
  - intros z Hz'. apply Ho; lia.
  - exists zx. split; [lia|done].
Qed.

(** The root of the tree before moves up, and the element takes its place. *)
Lemma settled_step k ks f f1 g h x :
  x = h - leo k -> ks <> [] -> total (k :: ks) = h + 1 -> kids k f h ->
  heaps ks f x -> chain ks f x -> le (f h) (f x) ->
  (forall k2, k = S (S k2) -> le (f (h - 1)) (f x) /\ le (f (h - 1 - leo k2)) (f x)) ->
  (forall z, 0 <= z -> f1 z = if decide (z = h) then f x else if decide (z = x) then f h else f z) ->
  settled ks f1 g x -> settled (k :: ks) f g h.
Proof.
  intros Ex Hne Ht Hk Hh Hc Lhx Hkids Hf1 (Hg & Hgc & Ho & (zx & Hzx & Ez)). cbn [total] in Ht.
  destruct ks as [|k1 ks]; [done|]. pose proof (total_pos k1 ks). pose proof (leo_pos k).
  assert (g h = f x) as Egh by (rewrite Ho, Hf1 by lia; by rewrite decide_True).
  assert (forall z, x < z < h -> g z = f z) as Eg.
  { intros z Hz. rewrite Ho, Hf1 by lia. by rewrite !decide_False by lia. }
  split_and!.
  - split; [|by subst x]. destruct k as [|[|k]]; [done..|]. rewrite leo_SS in *.
    pose proof (leo_pos k). pose proof (leo_pos (S k)). destruct (Hkids k eq_refl) as [L1 L2].
    rewrite heap_SS, Egh, !Eg by lia. split_and!; [done|done|].
    eapply kids_frame; [|exact Hk]. intros z Hz. rewrite leo_SS in Hz. rewrite Eg by lia. done.
  - split; [|by subst x]. intros _. subst x. rewrite Egh, Ez, Hf1 by lia.
    repeat case_decide; [done|done|]. apply (row_max (k1 :: ks) f); (done || lia).
  - intros z Hz. rewrite Ho, Hf1 by lia. by rewrite !decide_False by lia.
  - exists x. split; [lia|done].
Qed.

(** No gap between two orders reaches the word size. *)
Fixpoint gaps (ks : list nat) : Prop :=
  match ks with
  | [] => True
  | k :: ks' => match ks' with [] => True | k1 :: _ => (k1 - k < 32)%nat end /\ gaps ks'
  end.

(** What the loop of [trinkle] gives from the path [ps ++ [h]]: the tree that
    the element ends in, which is left to be sifted unless nothing had to
    move. *)
Definition trinkle_path (ks : list nat) (els : list bytes) (ps : list Z) (h : Z)
    (r : outcome (Z * Z * bool * list Z)) : Prop :=
  let b := elt (mv (ps ++ [h]) els) in
  exists h' k' t' qs, r = Ok (w * h', Z.of_nat k', t', ptrs (qs ++ [h'])) /\
    down (zlen els) qs h' /\ zlen (qs ++ [h']) < zlen (ps ++ [h]) + zlen ks /\
    k' ∈ ks /\ leo k' <= h' + 1 /\
    (t' = true -> settled ks b b h) /\
    (t' = false -> let b' := elt (mv (qs ++ [h']) els) in
       kids k' b' h' /\ forall g, sifted k' b' g h' -> settled ks b g h).

Lemma trinkle_stop k ks els ps h (trusty : bool) :
  let b := elt (mv (ps ++ [h]) els) in
  down (zlen els) ps h -> total (k :: ks) = h + 1 ->
  kids k b h -> (trusty = true -> heap k b h) -> heaps ks b (h - leo k) -> chain ks b (h - leo k) ->
  (ks <> [] -> exists z, h - leo k < z <= h /\ le (b (h - leo k)) (b z)) ->
  trinkle_path (k :: ks) els ps h (Ok (w * h, Z.of_nat k, trusty, ptrs (ps ++ [h]))).
Proof.
  intros b Hd Ht Hk Htr Hh Hc Hz. pose proof (total_nonneg ks). cbn [total] in Ht.
  exists h, k, trusty, ps. split_and!; try done.
  - rewrite zlen_cons. pose proof (zlen_nonneg ks). lia.
  - by left.
  - lia.
  - intros ->. apply settled_stop; try done. apply sifted_done. auto.
  - intros _. split; [done|]. intros g Hg. by apply settled_stop.
Qed.

(** The children are compared with the root before them. *)
Definition kids_stop (k : nat) (h : Z) (b : Z -> bytes) (s : bytes) : bool :=
  match k with
  | S (S k2) => (0 <=? cmp (b (h - 1)) s) || (0 <=? cmp (b (h - 1 - leo k2)) s)
  | _ => false
  end.

Lemma trinkle_kids lp els mem ps h k (trusty : bool) x :
  array w els mem -> table (zlen els) lp -> down (zlen els) ps h -> leo k <= h + 1 ->
  0 <= x < h ->
  (if negb trusty && (1 <? Z.of_nat k) then
     let rt := w * h - w in
     let! l2 := zget lp (Z.of_nat k - 2) in
     let lf := w * h - w - l2 in
     let! c1 := cmp_at cmp w mem rt (w * x) in
     let! c2 := cmp_at cmp w mem lf (w * x) in
     Ok ((0 <=? c1) || (0 <=? c2))
   else Ok false) =
  let b := elt (mv (ps ++ [h]) els) in Ok (negb trusty && kids_stop k h b (b x)).
Proof.
  intros Ha Ht Hd Hn Hx. pose proof Hd as [Hh _]. destruct trusty; [done|]. cbn [negb andb].
  destruct k as [|[|k]]; [done..|]. rewrite (proj2 (Z.ltb_lt _ _)) by lia. cbv zeta.
  replace (Z.of_nat (S (S k)) - 2) with (Z.of_nat k) by lia.
  rewrite (table_get (zlen els) lp (S (S k)) k) by (done || lia). cbn [obind].
  rewrite leo_SS in Hn. pose proof (leo_pos k). pose proof (leo_pos (S k)).
  replace (w * h - w - w * leo k) with (w * (h - 1 - leo k)) by lia.
  replace (w * h - w) with (w * (h - 1)) by lia.
  rewrite !(cmp_at_spec els) by (done || lia). cbn [obind kids_stop].
  by rewrite !mv_below by (done || lia).
Qed.

Lemma trinkle_untrusted fuel : forall mem head p pshift lp ar h k t r,
  trinkle_loop cmp w fuel mem head p pshift false lp ar = Ok (h, k, t, r) -> t = false.
Proof.
  induction fuel as [|fuel IH]; intros mem head p pshift lp ar h k t r; cbn [trinkle_loop]; [done|].
  destruct (negb _ || negb _); [|by intros [= <- <- <- <-]]. intros E. inv_ok.
  destruct (_ <=? 0); [by injection E as <- <- <- <-|]. inv_ok.
  destruct a2; [by injection E as <- <- <- <-|]. inv_ok. by apply IH in E.
Qed.

Lemma kids_below k h b (trusty : bool) s :
  (trusty = true -> heap k b h) -> le (b h) s -> negb trusty && kids_stop k h b s = false ->
  forall k2, k = S (S k2) -> le (b (h - 1)) s /\ le (b (h - 1 - leo k2)) s.
Proof.
  intros Ht Hs Es k2 ->. destruct trusty; cbn [negb andb] in Es.
  - destruct (Ht eq_refl) as (L1 & L2 & _). split; etrans; done.
  - cbn [kids_stop] in Es. bool_hyps. unfold le. lia.
Qed.

Lemma trinkle_loop_spec lp ks : forall k fuel els mem ps h trusty,
  let b := elt (mv (ps ++ [h]) els) in
  array w els mem -> table (zlen els) lp -> down (zlen els) ps h ->
  asc (S k) ks -> small (k :: ks) -> gaps (k :: ks) -> total (k :: ks) = h + 1 ->
  kids k b h -> (trusty = true -> heap k b h) -> heaps ks b (h - leo k) -> chain ks b (h - leo k) ->
  (length ks < fuel)%nat -> zlen (ps ++ [h]) + zlen ks < AR ->
  trinkle_path (k :: ks) els ps h
    (trinkle_loop cmp w fuel mem (w * h) (vec k (k :: ks)) (Z.of_nat k) trusty lp (ptrs (ps ++ [h]))).
Proof.
  induction ks as [|k1 ks IH];
    intros k fuel els mem ps h trusty b Ha Ht Hd Hasc Hsm Hgap Htot Hk Htr Hh Hc Hf Hz;
    (destruct fuel as [|fuel]; [simpl in Hf; lia|]); cbn [trinkle_loop]; rewrite vec_more by done.
  { by apply trinkle_stop. }
  cbn [negb bool_decide]. rewrite bool_decide_eq_false_2 by done. cbn [negb].
  pose proof Hd as [Hhr _]. pose proof (total_pos k1 ks). pose proof (leo_pos k). cbn [total] in Htot, H.
  rewrite (Ht k). 2:{ destruct (decide (k <= 2)%nat); [by left|right].
    pose proof (leo_mono (k - 1) k ltac:(lia)). lia. }
  cbn [obind]. rewrite ptrs_first by (by destruct ps). cbn [obind].
  replace (w * h - w * leo k) with (w * (h - leo k)) by lia. set (x := h - leo k) in *.
  pose proof (down_first _ _ _ Hd).
  rewrite (cmp_at_spec els) by (done || lia). cbn [obind]. rewrite <- mv_last by done.
  rewrite <- (mv_below els ps h x) by (done || lia). fold b.
  destruct (Z.leb_spec (cmp (b x) (b h)) 0) as [Hcx|Hcx%le_gt].
  { apply trinkle_stop; try done. intros _. exists h. split; [lia|done]. }
  rewrite (trinkle_kids lp els mem ps) by (done || lia). cbv zeta. cbn [obind]. fold b.
  destruct (negb trusty && kids_stop k h b (b x)) eqn:Es.
  { apply trinkle_stop; try done. intros _. apply andb_true_iff in Es as [_ Es].
    destruct k as [|[|k]]; [done..|]. cbn [kids_stop] in Es. pose proof (leo_SS k).
    pose proof (leo_pos k). pose proof (leo_pos (S k)).
    apply orb_true_iff in Es as [Es|Es]; bool_hyps; [exists (h - 1)|exists (h - 1 - leo k)];
      (split; [lia|]; by apply le_flip). }
  rewrite ptrs_push by (rewrite zlen_cons in Hz; pose proof (zlen_nonneg ks); lia). cbn [obind].
  destruct (vec_next k k1 ks) as [-> Hshr]; [done|done|by destruct Hgap|]. cbn [obind].
  rewrite Hshr. cbn [obind].
  replace (Z.of_nat k + (Z.of_nat k1 - Z.of_nat k)) with (Z.of_nat k1) by lia.
  assert (forall z, 0 <= z -> elt (mv ((ps ++ [h]) ++ [x]) els) z =
    if decide (z = h) then b x else if decide (z = x) then b h else b z) as Hb.
  { intros z Hz0. apply mv_step; [done|lia|done]. }
  assert (forall z, 0 <= z < x -> b z = elt (mv ((ps ++ [h]) ++ [x]) els) z) as Hb0.
  { intros z Hz0. rewrite Hb by lia. by rewrite !decide_False by lia. }
  pose proof Hh as [Hh1 Hhs]. pose proof Hc as [Hc1 Hcs]. pose proof (leo_pos k1).
  pose proof (total_nonneg ks).
  destruct (IH k1 fuel els mem (ps ++ [h]) x false) as (h' & k' & t' & qs & Hr & Hd' & Hz' & Hk' & Hl & _ & Hfalse);
    try done.
  - apply down_step; [done|lia].
  - by destruct Hasc.
  - by apply Forall_cons in Hsm as [_ ?].
  - by destruct Hgap.
  - cbn [total]. lia.
  - eapply kids_frame; [|apply heap_kids; exact Hh1]. intros z Hz0. apply Hb0. lia.
  - eapply heaps_frame; [|intros z Hz0; apply Hb0|exact Hhs]; lia.
  - eapply chain_frame; [|intros z Hz0; apply Hb0|exact Hcs]; lia.
  - simpl in Hf. lia.
  - rewrite zlen_snoc. rewrite zlen_cons in Hz. lia.
  - pose proof (trinkle_untrusted _ _ _ _ _ _ _ _ _ _ _ Hr) as ->. destruct (Hfalse eq_refl) as [Hkf Hgf].
    exists h', k', false, qs. split_and!; try done.
    + rewrite (zlen_snoc (ps ++ [h])) in Hz'. rewrite !zlen_cons in *. lia.
    + by right.
    + intros _. split; [done|]. intros g Hg. eapply settled_step; try done; [by eapply kids_below|by apply Hgf].
Qed.

Lemma asc_length ks : forall s, asc s ks -> small ks -> (s <= 40)%nat -> (s + length ks <= 40)%nat.
Proof.
  induction ks as [|k ks IH]; intros s; simpl; [lia|]. intros [Hk Ha] [Hk40 Hs]%Forall_cons Hs40.
  specialize (IH (S k) Ha Hs ltac:(lia)). lia.
Qed.

(** [trinkle] puts a row in order of which only the last root may be out of
    place. *)
Lemma trinkle_spec lp k ks els mem h (trusty : bool) :
  array w els mem -> table (zlen els) lp -> 0 <= h < zlen els ->
  asc (S k) ks -> small (k :: ks) -> gaps (k :: ks) -> total (k :: ks) = h + 1 ->
  kids k (elt els) h -> (trusty = true -> heap k (elt els) h) ->
  heaps ks (elt els) (h - leo k) -> chain ks (elt els) (h - leo k) ->
  exists mem' els', trinkle cmp w mem (w * h) (vec k (k :: ks)) (Z.of_nat k) trusty lp = Ok mem' /\
    array w els' mem' /\ els' ≡ₚ els /\ settled (k :: ks) (elt els) (elt els') h.
Proof.
  intros Ha Ht Hh Hasc Hsm Hgap Htot Hk Htr Hhs Hc.
  assert (down (zlen els) [] h) as Hd by (split_and!; [lia|lia|constructor|constructor]).
  pose proof Hsm as [Hk40 Hsm']%Forall_cons. pose proof (asc_length ks (S k) Hasc Hsm' ltac:(lia)) as Hlen.
  destruct (trinkle_loop_spec lp ks k 65 els mem [] h trusty)
    as (h' & k' & t' & qs & Hr & Hd' & Hz' & Hk' & Hl & Hyes & Hno); try done; [lia| |].
  { rewrite zlen_snoc. unfold zlen, AR. simpl. lia. }
  unfold trinkle. change [w * h] with (ptrs ([] ++ [h])). rewrite Hr. cbn [obind].
  destruct t'; cbn [negb].
  { exists mem, els. split_and!; [done|done|done|by apply Hyes]. }
  destruct (Hno eq_refl) as [Hkf Hgf].
  destruct (cycle_mv els mem qs h') as (mem1 & Hc1 & Ha1); [done|done| |].
  { rewrite zlen_cons in Hz'. change (zlen ([] ++ [h])) with 1 in Hz'. unfold zlen in *. unfold AR. lia. }
  rewrite Hc1. cbn [obind]. unfold small in Hsm. rewrite Forall_forall in Hsm. specialize (Hsm k' Hk').
  destruct (sift_spec lp k' (mv (qs ++ [h']) els) mem1 h') as (mem2 & els2 & Hs & Ha2 & Hp & Hsf);
    rewrite ?zlen_mv; try done.
  { destruct Hd' as [? _]. done. }
  { unfold AR. cbn in Hsm. lia. }
  exists mem2, els2. split_and!; [done|done| |by apply Hgf].
  etrans; [exact Hp|]. by apply mv_perm.
Qed.
End Heaps.
