(* ===== verification/SortSpec.v ===== *)
(** Why [qsort] sorts: the table of Leonardo numbers, the invariants of the
    loop that builds the trees and of the loop that takes them apart, and
    [bsearch] on the sorted array. *)

From Stdlib Require Import Sorting.Sorted.
From S2P Require Import Prelude Sort SortCycle SortBits SortHeap.

(** * Rows of orders

    Apart from the two smallest ones, the orders of a row differ by at least
    two; a tree of order 0 stands next to one of order 1. *)

Fixpoint wide (ks : list nat) : Prop :=
  match ks with [] => True | k :: ks' => asc (k + 2) ks' /\ wide ks' end.

Definition orders (ks : list nat) : Prop :=
  match ks with
  | [] => False
  | k :: ks' => asc (S k) ks' /\ wide ks' /\ (k = 0%nat -> exists r, ks' = 1%nat :: r)
  end.

Lemma below_MAXNEL k : leo k < MAXNEL -> (k < 33)%nat.
Proof. apply leo_lt. Qed.

Lemma upto_MAXNEL k : leo k <= MAXNEL -> (k < 34)%nat.
Proof.
  intros Hk. apply leo_lt. eapply Z.le_lt_trans; [exact Hk|]. apply leo_strict; lia.
Qed.

Lemma total_small ks : total ks <= MAXNEL -> small ks.
Proof.
  induction ks as [|k ks IH]; intros Ht; [constructor|]. cbn [total] in Ht.
  pose proof (total_nonneg ks). pose proof (leo_pos k). constructor; [|apply IH; lia].
  pose proof (upto_MAXNEL k). lia.
Qed.

Lemma gaps_pos ks : forall s, asc (S s) ks -> total ks <= MAXNEL -> gaps ks.
Proof.
  induction ks as [|k ks IH]; intros s Ha Ht; [done|]. destruct Ha as [Hk Ha]. cbn [total] in Ht.
  pose proof (leo_pos k). split; [|apply (IH k); [done|lia]].
  destruct ks as [|k1 ks]; [done|]. cbn [total] in Ht. pose proof (total_nonneg ks).
  pose proof (below_MAXNEL k1). lia.
Qed.

Lemma orders_gaps k ks : orders (k :: ks) -> total (k :: ks) <= MAXNEL -> gaps (k :: ks).
Proof.
  intros (Ha & Hw & H0) Ht. destruct k as [|k].
  - destruct (H0 eq_refl) as [r ->]. split; [lia|]. cbn [total] in Ht. pose proof (leo_pos 0).
    apply (gaps_pos _ 0); [done|]. cbn [total]. lia.
  - apply (gaps_pos _ k); [split; [lia|done]|done].
Qed.

(** * The table *)

Definition lp_upto (w : Z) (i : nat) : list Z := map (fun j => w * leo j) (seq 0 i).

Lemma lp_upto_get w i j : (j < i)%nat -> zget (lp_upto w i) (Z.of_nat j) = Ok (w * leo j).
Proof.
  intros Hj. apply zget_lookup. split; [lia|]. rewrite Nat2Z.id. unfold lp_upto.
  rewrite list_lookup_fmap, lookup_seq_lt by done. done.
Qed.

Lemma lp_upto_S w i : lp_upto w (S i) = lp_upto w i ++ [w * leo i].
Proof. unfold lp_upto. rewrite seq_S, map_app. done. Qed.

Lemma lp_upto_table w i n : leo i >= n -> (2 <= i)%nat -> table w n (lp_upto w (S i)).
Proof.
  intros Hi H2 j Hj. apply lp_upto_get. destruct Hj as [Hj|Hj]; [lia|].
  assert (leo (j - 1) < leo i) as ?%leo_lt by lia. lia.
Qed.

Lemma leonardo_spec w n : 0 < w -> 3 * w < 2 ^ 32 -> 0 < n -> w * n < 2 ^ 31 -> n <= MAXNEL ->
  forall fuel i, (2 <= i)%nat -> i = 2%nat \/ leo (i - 1) < n -> 48 <= Z.of_nat fuel + Z.of_nat i ->
  exists lp, leonardo w fuel (w * n) (lp_upto w i) (Z.of_nat i) = Ok lp /\ table w n lp.
Proof.
  intros Hw Hw3 Hn0 Hn HM. induction fuel as [|fuel IH]; intros i Hi Hprev Hf.
  { exfalso. destruct Hprev as [-> |Hprev]; [lia|].
    pose proof (below_MAXNEL (i - 1)). lia. }
  assert (i <= 33)%nat as Hi33.
  { destruct Hprev as [-> |Hprev]; [lia|].
    pose proof (below_MAXNEL (i - 1)). lia. }
  cbn [leonardo]. replace (Z.of_nat i - 2) with (Z.of_nat (i - 2)) by lia.
  replace (Z.of_nat i - 1) with (Z.of_nat (i - 1)) by lia.
  rewrite !lp_upto_get by lia. cbn [obind]. rewrite (proj2 (Z.ltb_lt _ _)) by (unfold LP; lia).
  assert (leo i = leo (i - 2) + leo (i - 1) + 1) as Ei.
  { replace i with (S (S (i - 2))) at 1 by lia. rewrite leo_SS. do 3 f_equal. lia. }
  pose proof (leo_pos (i - 2)). replace (S (i - 2)) with (i - 1)%nat in * by lia.
  assert (0 <= w * leo i < 2 ^ 32) as Hv.
  { split; [nia|]. destruct Hprev as [-> |Hprev]; [change (leo 2) with 3; lia|].
    assert (leo i <= 2 * n) by lia. nia. }
  assert (u32 (u32 (w * leo (i - 2) + w * leo (i - 1)) + w) = w * leo i) as ->.
  { rewrite (u32_id (w * leo (i - 2) + _)) by (unfold in_u; nia).
    rewrite u32_id by (unfold in_u; nia). lia. }
  rewrite <- lp_upto_S. destruct (Z.ltb_spec (w * leo i) (w * n)) as [Hlt|Hge].
  - replace (Z.of_nat i + 1) with (Z.of_nat (S i)) by lia. apply IH; [lia| |lia].
    right. replace (S i - 1)%nat with i by lia. nia.
  - eexists. split; [reflexivity|]. apply lp_upto_table; [nia|lia].
Qed.

Section Loops.
Context (cmp : bytes -> bytes -> Z) {Hcmp : TotalPreorder cmp}.
Context (w : Z) (Hw : 0 < w) (lp : list Z) (n : Z) (Htab : table w n lp) (Hn : n <= MAXNEL).

(** * Building the trees

    A tree that cannot become a child any more, because too few elements
    follow, is final: its root is not less than the root before it. *)
Fixpoint final (high : Z) (ks : list nat) (g : Z -> bytes) (h : Z) : Prop :=
  match ks with
  | [] => True
  | k :: ks' =>
      (ks' <> [] -> high - h <= leo (k - 1) -> le cmp (g (h - leo k)) (g h)) /\
      final high ks' g (h - leo k)
  end.

Lemma final_frame high ks : forall g g' h, total ks = h + 1 ->
  (forall z, 0 <= z <= h -> g z = g' z) -> final high ks g h -> final high ks g' h.
Proof.
  induction ks as [|k ks IH]; intros g g' h Ht E; [done|]. intros [Hh Hs].
  cbn [total] in Ht. pose proof (leo_pos k). split.
  - intros Hne Hf. destruct ks as [|k1 ks]; [done|]. pose proof (total_pos k1 ks).
    rewrite <- !E by lia. by apply Hh.
  - apply (IH g); [lia| |done]. intros z Hz. apply E. pose proof (total_nonneg ks). lia.
Qed.

Lemma chain_final high ks : forall g h, chain cmp ks g h -> final high ks g h.
Proof. induction ks as [|k ks IH]; intros g h; [done|]. intros [Hc Hs]. split; auto. Qed.

(** When the last tree is final, so are the ones before. *)
Lemma final_chain high ks : forall g h s, asc (S s) ks -> wide ks ->
  match ks with [] => True | k :: _ => high - h <= leo (k - 1) end ->
  final high ks g h -> chain cmp ks g h.
Proof.
  induction ks as [|k ks IH]; intros g h s Ha Hwd Hf; [done|]. intros [Hc Hs].
  destruct Ha as [Hk Ha], Hwd as [Hkw Hwd]. split; [by intros ?; apply Hc|].
  apply (IH g _ k); [done|done| |done]. destruct ks as [|k1 ks]; [done|]. destruct Hkw as [Hk1 _].
  destruct k as [|k]; [lia|]. replace (S k - 1)%nat with k in Hf by lia.
  pose proof (leo_mono (S (S k)) (k1 - 1) ltac:(lia)). rewrite leo_SS in *. lia.
Qed.

(** The state of the loop that builds the trees, before the element at [h] has
    been put in its tree. *)
Definition built (els : list bytes) (ks : list nat) (h : Z) : Prop :=
  match ks with
  | [] => False
  | k :: ks' =>
      orders (k :: ks') /\ total (k :: ks') = h + 1 /\ kids cmp k (elt els) h /\
      heaps cmp ks' (elt els) (h - leo k) /\ final (n - 1) ks' (elt els) (h - leo k)
  end.

Definition first (ks : list nat) : nat := hd 0%nat ks.

(** One turn: [r] is the memory, the vector without the new tree, and its
    order. *)
Definition build_turn (els : list bytes) (h : Z) (r : outcome (bytes * pvec * Z)) : Prop :=
  exists mem' els' k ks', r = Ok (mem', vec k ks', Z.of_nat k) /\ asc (S k) ks' /\
    array w els' mem' /\ els' ≡ₚ els /\ built els' (k :: ks') (h + 1).

Lemma build_merge els mem k ks h :
  array w els mem -> zlen els = n -> 0 <= h < n - 1 -> built els (k :: S k :: ks) h ->
  build_turn els h
    (let! mem' := sift cmp w mem (w * h) (Z.of_nat k) lp in
     let! p' := shr (vec k (k :: S k :: ks)) 2 in
     Ok (mem', p', Z.of_nat k + 2)).
Proof.
  intros Ha Hz Hh (Hord & Ht & Hk & [Hh1 Hhs] & [_ Hf]).
  pose proof (total_small (k :: S k :: ks) ltac:(lia)) as Hsm. pose proof Hsm as [Hk40 _]%Forall_cons.
  destruct Hord as (Hasc & [Hw1 Hwd] & H0). cbn [total] in Ht.
  pose proof (leo_pos k). pose proof (leo_pos (S k)). pose proof (total_nonneg ks).
  destruct (sift_spec cmp w Hw lp k els mem h) as (mem' & els' & -> & Ha' & Hp & (Hg & Ho & _));
    rewrite ?Hz; try done; [lia|lia|unfold AR; lia|]. cbn [obind].
  replace (S k + 2)%nat with (k + 3)%nat in Hw1 by lia. rewrite vec_merge by done. cbn [obind].
  assert (forall z, 0 <= z <= h - leo k -> elt els z = elt els' z) as E.
  { intros z Hz'. rewrite Ho by lia. done. }
  exists mem', els', (k + 2)%nat, ks. replace (k + 2)%nat with (S (S k)) in * by lia.
  replace (k + 3)%nat with (S (S (S k))) in * by lia.
  split_and!; try done.
  { by replace (Z.of_nat k + 2) with (Z.of_nat (S (S k))) by lia. }
  unfold built. replace (h + 1 - leo (S (S k))) with (h - leo k - leo (S k)) by (rewrite leo_SS; lia).
  split_and!; try done.
  - cbn [total]. rewrite leo_SS. lia.
  - cbn [kids]. replace (h + 1 - 1) with h by lia. split; [done|].
    eapply heap_frame; [|exact Hh1]. intros z Hz'. apply E. lia.
  - apply (heaps_frame cmp ks (elt els)); [lia|intros z Hz'; apply E; lia|done].
  - apply (final_frame _ ks (elt els)); [lia|intros z Hz'; apply E; lia|done].
Qed.

(** The last tree, when it is not to be merged: sifted, or put in order with
    the trees before it. *)
Lemma build_last els mem k ks h :
  array w els mem -> zlen els = n -> 0 <= h < n - 1 -> built els (k :: ks) h ->
  (1 <= k)%nat -> asc (k + 2) ks ->
  exists mem' els', (let! l := zget lp (Z.of_nat k - 1) in
      if w * (n - 1) - w * h <=? l then trinkle cmp w mem (w * h) (vec k (k :: ks)) (Z.of_nat k) false lp
      else sift cmp w mem (w * h) (Z.of_nat k) lp) = Ok mem' /\
    array w els' mem' /\ els' ≡ₚ els /\
    heaps cmp (k :: ks) (elt els') h /\ final (n - 1) (k :: ks) (elt els') h.
Proof.
  intros Ha Hz Hh (Hord & Ht & Hk & Hhs & Hf) Hk1 Hk2.
  pose proof (total_small (k :: ks) ltac:(lia)) as Hsm. pose proof Hsm as [Hk40 _]%Forall_cons.
  pose proof (orders_gaps k ks Hord ltac:(lia)) as Hgap. pose proof Hord as (Hasc & Hwd & _).
  pose proof Ht as Ht'. cbn [total] in Ht. pose proof (leo_pos k). pose proof (total_nonneg ks).
  replace (Z.of_nat k - 1) with (Z.of_nat (k - 1)) by lia.
  rewrite (table_get w n lp k (k - 1)) by (done || lia). cbn [obind].
  destruct (Z.leb_spec (w * (n - 1) - w * h) (w * leo (k - 1))) as [Hle|Hgt].
  - assert (n - 1 - h <= leo (k - 1)) as Hfin by nia.
    destruct (trinkle_spec cmp w Hw lp k ks els mem h false) as (mem' & els' & Hr & Ha' & Hp & Hs & Hc & _);
      rewrite ?Hz; try done; [lia| |].
    { apply (final_chain (n - 1) ks _ _ k); try done. destruct ks as [|k1 ks]; [done|].
      destruct Hk2 as [Hk2 _]. destruct k as [|k]; [lia|]. replace (S k - 1)%nat with k in * by lia.
      pose proof (leo_mono (S (S k)) (k1 - 1) ltac:(lia)). rewrite leo_SS in *. lia. }
    exists mem', els'. split_and!; try done. by apply chain_final.
  - destruct (sift_spec cmp w Hw lp k els mem h) as (mem' & els' & Hr & Ha' & Hp & (Hg & Ho & _));
      rewrite ?Hz; try done; [lia|lia|unfold AR; lia|].
    assert (forall z, 0 <= z <= h - leo k -> elt els z = elt els' z) as E.
    { intros z Hz'. rewrite Ho by lia. done. }
    exists mem', els'. split_and!; try done.
    + split; [done|]. apply (heaps_frame cmp ks (elt els)); [lia|done|done].
    + split; [|apply (final_frame _ ks (elt els)); [lia|done|done]]. intros _ Hc. nia.
Qed.

(** The next element is a tree of its own. *)
Lemma build_single els mem k ks h :
  array w els mem -> zlen els = n -> 0 <= h < n - 1 -> built els (k :: ks) h ->
  match ks with [] => false | k1 :: _ => (k1 =? S k)%nat end = false ->
  build_turn els h
    (let! l := zget lp (Z.of_nat k - 1) in
     let! mem' := if w * (n - 1) - w * h <=? l
       then trinkle cmp w mem (w * h) (vec k (k :: ks)) (Z.of_nat k) false lp
       else sift cmp w mem (w * h) (Z.of_nat k) lp in
     if Z.of_nat k =? 1 then let! p' := shl (vec k (k :: ks)) 1 in Ok (mem', p', 0)
     else let! p' := shl (vec k (k :: ks)) (Z.of_nat k - 1) in Ok (mem', p', 1)).
Proof.
  intros Ha Hz Hh Hb Hne. pose proof Hb as (Hord & Ht & _).
  pose proof (total_small (k :: ks) ltac:(lia)) as Hsm. pose proof Hsm as [Hk40 _]%Forall_cons.
  pose proof Hord as (Hasc & Hwd & H0). pose proof Ht as Ht'. cbn [total] in Ht'.
  pose proof (total_nonneg ks).
  assert (1 <= k)%nat as Hk1.
  { destruct k as [|k]; [|lia]. destruct (H0 eq_refl) as [r ->]. done. }
  assert (asc (k + 2) ks) as Hk2.
  { destruct ks as [|k1 ks]; [done|]. destruct Hasc as [Hk Hasc]. split; [|done].
    apply Nat.eqb_neq in Hne. lia. }
  assert (k < 33)%nat as Hk33 by (apply below_MAXNEL; lia).
  destruct (build_last els mem k ks h) as (mem' & els' & Hr & Ha' & Hp & Hhs & Hf); try done.
  apply obind_Ok in Hr as (l & -> & Hr). cbn [obind]. rewrite Hr. cbn [obind].
  set (s := if decide (k = 1%nat) then 0%nat else 1%nat).
  assert (asc (S s) (k :: ks)) as Has.
  { split; [subst s; case_decide; lia|done]. }
  exists mem', els', s, (k :: ks). split_and!; try done.
  - subst s. case_decide as Hk.
    + subst k. change (Z.of_nat 1 =? 1) with true. cbv iota.
      change (shl (vec 1 (1%nat :: ks)) 1) with (shl (vec 1 (1%nat :: ks)) (Z.of_nat 1 - Z.of_nat 0)).
      rewrite vec_room; [done|lia|lia|by split|done|lia].
    + rewrite (proj2 (Z.eqb_neq _ _)) by lia. change (Z.of_nat k - 1) with (Z.of_nat k - Z.of_nat 1).
      rewrite vec_room; [done|lia|lia|by split|done|lia].
  - unfold built. assert (leo s = 1) as -> by (subst s; by case_decide).
    replace (h + 1 - 1) with h by lia. split_and!; try done.
    + split_and!; [done|done|]. intros Hs. exists ks. subst s. case_decide; [by subst|done].
    + cbn [total]. assert (leo s = 1) as -> by (subst s; by case_decide). lia.
    + subst s. by case_decide.
Qed.

Lemma build_spec fuel : forall els mem ks h,
  array w els mem -> zlen els = n -> 0 <= h <= n - 1 -> built els ks h -> n - 1 - h < Z.of_nat fuel ->
  exists mem' els' ks',
    build cmp w fuel mem (w * h) (w * (n - 1)) (vec (first ks) ks) (Z.of_nat (first ks)) lp =
      Ok (mem', w * (n - 1), vec (first ks') ks', Z.of_nat (first ks')) /\
    array w els' mem' /\ els' ≡ₚ els /\ built els' ks' (n - 1).
Proof.
  induction fuel as [|fuel IH]; intros els mem ks h Ha Hz Hh Hb Hf; [lia|]. cbn [build].
  destruct (Z.ltb_spec (w * h) (w * (n - 1))) as [Hlt|Hge].
  2:{ exists mem, els, ks. replace h with (n - 1) in * by nia. done. }
  destruct ks as [|k ks]; [done|]. cbn [first hd]. pose proof Hb as ((Hasc & _) & _).
  match goal with |- context [obind ?r _] => assert (build_turn els h r) as Hturn end.
  { rewrite vec_land3 by done. destruct (match ks with [] => false | _ => _ end) eqn:E.
    - destruct ks as [|k1 ks]; [done|]. apply Nat.eqb_eq in E as ->. apply build_merge; try done. nia.
    - apply build_single; try done. nia. }
  destruct Hturn as (mem1 & els1 & k1 & ks1 & -> & Ha1s & Ha1 & Hp1 & Hb1). cbn [obind].
  rewrite or1_vec by done. replace (w * h + w) with (w * (h + 1)) by lia.
  destruct (IH els1 mem1 (k1 :: ks1) (h + 1)) as (mem' & els' & ks' & Hr & Ha' & Hp' & Hb');
    try done; [|nia|lia|].
  { rewrite <- Hz. unfold zlen. by rewrite Hp1. }
  exists mem', els', ks'. split_and!; try done. by etrans.
Qed.

(** * Taking the trees apart

    The elements after [h] are in place. *)
Definition above (els : list bytes) (h : Z) : Prop :=
  forall i j, 0 <= i <= j -> h < j < zlen els -> le cmp (elt els i) (elt els j).

Lemma elt_take els h i : 0 <= i <= h -> h < zlen els -> elt els i ∈ take (Z.to_nat (h + 1)) els.
Proof.
  intros Hi Hh. apply list_elem_of_lookup. exists (Z.to_nat i). unfold zlen in Hh.
  rewrite lookup_take_lt by lia. apply lookup_total_lookup. lia.
Qed.

Lemma take_elt els h e : 0 <= h -> e ∈ take (Z.to_nat (h + 1)) els ->
  exists i, 0 <= i <= h /\ elt els i = e.
Proof.
  intros Hh [i Hi]%list_elem_of_lookup. pose proof (lookup_lt_Some _ _ _ Hi) as Hlt.
  rewrite length_take in Hlt. rewrite lookup_take_lt in Hi by lia. exists (Z.of_nat i). split; [lia|].
  unfold elt. rewrite Nat2Z.id. by apply list_lookup_total_correct.
Qed.

Lemma above_perm els els' h : els' ≡ₚ els -> -1 <= h < zlen els ->
  (forall z, h < z -> elt els' z = elt els z) -> above els h -> above els' h.
Proof.
  intros Hp Hh E Ha i j Hi Hj.
  assert (length els' = length els) as Hl by (by rewrite Hp).
  assert (zlen els' = zlen els) as Hz by (unfold zlen; by rewrite Hl).
  rewrite (E j) by lia. destruct (decide (h < i)); [rewrite (E i) by lia; apply Ha; lia|].
  assert (drop (Z.to_nat (h + 1)) els' = drop (Z.to_nat (h + 1)) els) as Ed.
  { apply list_eq. intros k. rewrite !lookup_drop. unfold zlen in *.
    destruct (decide (Z.to_nat (h + 1) + k < length els)%nat) as [Hk|Hk].
    - rewrite !lookup_total_lookup by lia. f_equal.
      specialize (E (Z.of_nat (Z.to_nat (h + 1) + k)) ltac:(lia)). unfold elt in E. by rewrite !Nat2Z.id in E.
    - by rewrite !lookup_ge_None_2 by lia. }
  assert (take (Z.to_nat (h + 1)) els' ≡ₚ take (Z.to_nat (h + 1)) els) as Hpt.
  { apply (Permutation_app_inv_r (drop (Z.to_nat (h + 1)) els)). rewrite <- Ed at 1.
    by rewrite (take_drop (Z.to_nat (h + 1)) els'), (take_drop (Z.to_nat (h + 1)) els). }
  pose proof (elt_take els' h i ltac:(lia) ltac:(lia)) as Hin. rewrite Hpt in Hin.
  apply take_elt in Hin as (i' & Hi' & <-); [|lia]. apply Ha; lia.
Qed.

(** The state of the loop that takes the trees apart. *)
Definition ordered (els : list bytes) (ks : list nat) (h : Z) : Prop :=
  orders ks /\ total ks = h + 1 /\ heaps cmp ks (elt els) h /\ chain cmp ks (elt els) h /\ above els h.

(** The greatest element of the row is in place. *)
Lemma ordered_above els ks h : ordered els ks h -> above els (h - 1).
Proof.
  intros (Hord & Ht & Hh & Hc & Ha) i j Hi Hj. destruct (decide (j = h)) as [-> |].
  - apply (row_max cmp ks); (done || lia).
  - apply Ha; lia.
Qed.

Definition dequeue_turn (els : list bytes) (h : Z) (r : outcome (bytes * pvec * Z)) : Prop :=
  exists mem' els' ks', r = Ok (mem', vec (first ks') ks', Z.of_nat (first ks')) /\
    array w els' mem' /\ els' ≡ₚ els /\ ordered els' ks' (h - 1).

(** A tree of one element is gone. *)
Lemma dequeue_one els mem k k1 ks h :
  array w els mem -> zlen els = n -> h < n -> (k <= 1)%nat -> ordered els (k :: k1 :: ks) h ->
  dequeue_turn els h
    (let! trail := pntz (vec k (k :: k1 :: ks)) in
     let! p' := shr (vec k (k :: k1 :: ks)) trail in
     Ok (mem, p', Z.of_nat k + trail)).
Proof.
  intros Ha Hz Hhn Hk1 Ho. pose proof (ordered_above _ _ _ Ho) as Hab.
  destruct Ho as (Hord & Ht & Hh & Hc & _).
  pose proof (total_small (k :: k1 :: ks) ltac:(lia)) as Hsm.
  pose proof (orders_gaps k (k1 :: ks) Hord ltac:(lia)) as [Hgap _].
  destruct Hord as (Hasc & Hwd & H0).
  destruct (vec_next k k1 ks) as [-> Hshr]; [done..|]. cbn [obind]. rewrite Hshr. cbn [obind].
  assert (leo k = 1) as E by (by destruct k as [|[|k]]; [..|lia]).
  exists mem, els, (k1 :: ks). split_and!; try done.
  { by replace (Z.of_nat k + (Z.of_nat k1 - Z.of_nat k)) with (Z.of_nat k1) by lia. }
  cbn [total heaps chain] in Ht, Hh, Hc. rewrite E in *. destruct Hh as [_ Hh], Hc as [_ Hc].
  destruct Hasc as [Hk Hasc], Hwd as [_ Hwd]. split_and!; try done.
  - split_and!; [done|done|lia].
  - cbn [total]. lia.
Qed.

(** The root of a tree is gone, and its children join the row. *)
Lemma dequeue_two els mem k ks h :
  array w els mem -> zlen els = n -> h < n -> ordered els (S (S k) :: ks) h ->
  dequeue_turn els h
    (let! p1 := shl (vec (S (S k)) (S (S k) :: ks)) 2 in
     let pshift := Z.of_nat (S (S k)) - 2 in
     let p1 := (Z.lxor (fst p1) 7, snd p1) in
     let! p1 := shr p1 1 in
     let! l := zget lp pshift in
     let! mem1 := trinkle cmp w mem (w * h - l - w) p1 (pshift + 1) true lp in
     let! p2 := shl p1 1 in
     let p2 := (Z.lor (fst p2) 1, snd p2) in
     let! mem2 := trinkle cmp w mem1 (w * h - w) p2 pshift true lp in
     Ok (mem2, p2, pshift)).
Proof.
  intros Ha Hz Hhn Ho. pose proof (ordered_above _ _ _ Ho) as Hab.
  destruct Ho as (Hord & Ht & Hh & Hc & _).
  pose proof (total_small (S (S k) :: ks) ltac:(lia)) as Hsm. pose proof Hsm as [Hk40 Hsm']%Forall_cons.
  destruct Hord as (Hasc & Hwd & _). cbn [total heaps chain] in Ht, Hh, Hc.
  destruct Hh as [Hh0 Hhs], Hc as [_ Hcs]. pose proof (leo_pos k). pose proof (leo_pos (S k)).
  rewrite leo_SS in Ht. pose proof (total_nonneg ks). apply heap_kids in Hh0 as [Hrt Hlf].
  destruct (vec_split k ks) as (p1 & -> & Hp1); [by replace (k + 3)%nat with (S (S (S k))) by lia|done|].
  cbn [obind]. cbv zeta. rewrite Hp1. cbn [obind].
  replace (Z.of_nat (S (S k)) - 2) with (Z.of_nat k) by lia.
  rewrite (table_get w n lp (S (S k)) k) by (done || rewrite ?leo_SS; lia). cbn [obind].
  replace (Z.of_nat k + 1) with (Z.of_nat (S k)) by lia.
  replace (w * h - w * leo k - w) with (w * (h - 1 - leo k)) by lia.
  replace (w * h - w) with (w * (h - 1)) by lia.
  assert (asc (S (S k)) ks) as Ha1 by (eapply asc_weak; [|exact Hasc]; lia).
  assert (small (S k :: ks)) as Hs1 by (constructor; [lia|done]).
  assert (h - 1 - leo k - leo (S k) = h - leo (S (S k))) as Ex by (rewrite leo_SS; lia).
  destruct (trinkle_spec cmp w Hw lp (S k) ks els mem (h - 1 - leo k) true)
    as (mem1 & els1 & -> & Ha1' & Hp & (Hh1 & Hc1 & Ho1 & _)); rewrite ?Hz, ?Ex; try done.
  { lia. }
  { apply (gaps_pos _ k); [split; [lia|done]|cbn [total]; lia]. }
  { cbn [total]. lia. }
  { by apply heap_kids. }
  cbn [obind]. replace (shl (vec (S k) (S k :: ks)) 1)
    with (shl (vec (S k) (S k :: ks)) (Z.of_nat (S k) - Z.of_nat k)) by (f_equal; lia).
  rewrite vec_room by (done || lia || by split). cbn [obind]. rewrite or1_vec by (by split).
  assert (zlen els1 = n) as Hz1 by (rewrite <- Hz; unfold zlen; by rewrite Hp).
  assert (orders (k :: S k :: ks)) as Hord.
  { split_and!; [by split|split; [|done]|].
    - by replace (S k + 2)%nat with (S (S (S k))) by lia.
    - intros ->. by exists ks. }
  assert (total (k :: S k :: ks) = h - 1 + 1) as Ht2 by (cbn [total]; lia).
  assert (heap cmp k (elt els1) (h - 1)) as Hrt1.
  { eapply heap_frame; [|exact Hrt]. intros z Hz'. by rewrite Ho1 by lia. }
  destruct (trinkle_spec cmp w Hw lp k (S k :: ks) els1 mem1 (h - 1) true)
    as (mem2 & els2 & -> & Ha2 & Hp2 & (Hh2 & Hc2 & Ho2 & _)); rewrite ?Hz1; try done.
  { lia. }
  { constructor; [lia|done]. }
  { apply orders_gaps; [done|lia]. }
  { by apply heap_kids. }
  cbn [obind]. exists mem2, els2, (k :: S k :: ks). split_and!; try done; [by etrans|].
  split_and!; try done. apply (above_perm els).
  - by etrans.
  - lia.
  - intros z Hz'. rewrite Ho2 by lia. apply Ho1. lia.
  - done.
Qed.

Lemma dequeue_spec fuel : forall els mem ks h,
  array w els mem -> zlen els = n -> 0 <= h < n -> ordered els ks h -> h < Z.of_nat fuel ->
  exists mem' els', dequeue cmp w fuel mem (w * h) (vec (first ks) ks) (Z.of_nat (first ks)) lp = Ok mem' /\
    array w els' mem' /\ els' ≡ₚ els /\ above els' 0.
Proof.
  induction fuel as [|fuel IH]; intros els mem ks h Ha Hz Hh Ho Hf; [lia|]. cbn [dequeue].
  pose proof Ho as (Hord & Ht & _ & _ & Hab). destruct ks as [|k ks]; [done|]. cbn [first hd].
  pose proof (total_small (k :: ks) ltac:(lia)) as Hsm. pose proof Hord as (Hasc & _ & H0).
  rewrite <- orb_assoc, vec_more by done.
  destruct (negb (Z.of_nat k =? 1) || negb (bool_decide (ks = []))) eqn:E.
  2:{ bool_hyps. assert (k = 1%nat) as -> by lia. apply bool_decide_eq_true in H1 as ->.
      cbn in Ht. exists mem, els. split_and!; try done. by replace h with 0 in Hab by lia. }
  match goal with |- context [obind ?r _] => assert (dequeue_turn els h r) as Hturn end.
  { destruct (Z.leb_spec (Z.of_nat k) 1).
    - destruct ks as [|k1 ks]; [|apply dequeue_one; try done; lia]. exfalso.
      destruct k as [|[|k]]; [|done|lia]. by destruct (H0 eq_refl).
    - destruct k as [|[|k]]; [lia..|]. apply dequeue_two; try done. lia. }
  destruct Hturn as (mem1 & els1 & ks1 & -> & Ha1 & Hp1 & Ho1). cbn [obind].
  replace (w * h - w) with (w * (h - 1)) by lia.
  assert (0 <= h - 1) as Hh1.
  { destruct Ho1 as (Hord1 & Ht1 & _). destruct ks1 as [|k1 ks1]; [done|].
    pose proof (total_pos k1 ks1). lia. }
  destruct (IH els1 mem1 ks1 (h - 1)) as (mem' & els' & Hr & Ha' & Hp' & Hab'); try done; [|lia|lia|].
  { rewrite <- Hz. unfold zlen. by rewrite Hp1. }
  exists mem', els'. split_and!; try done. by etrans.
Qed.
End Loops.

(** * [qsort] *)

Lemma above_sorted cmp `{!TotalPreorder cmp} els : above cmp els 0 ->
  StronglySorted (fun x y => cmp x y <= 0) els.
Proof.
  intros Ha. assert (forall i j x y, (i < j)%nat -> els !! i = Some x -> els !! j = Some y -> cmp x y <= 0) as H.
  { intros i j x y Hij Hx Hy. pose proof (lookup_lt_Some _ _ _ Hy).
    specialize (Ha (Z.of_nat i) (Z.of_nat j)). unfold elt, zlen in Ha. rewrite !Nat2Z.id in Ha.
    rewrite (list_lookup_total_correct _ _ _ Hx), (list_lookup_total_correct _ _ _ Hy) in Ha.
    apply Ha; lia. }
  clear Ha. induction els as [|e els IH]; constructor.
  - apply IH. intros i j x y Hij Hx Hy. apply (H (S i) (S j)); [lia|done|done].
  - apply Forall_forall. intros y [j Hy]%list_elem_of_lookup. apply (H 0%nat (S j)); [lia|done|done].
Qed.

Lemma built_one cmp n els : built cmp n els [1%nat] 0.
Proof.
  unfold built. split_and!; [|done..]. split_and!; [done..|]. by intros ?.
Qed.

Lemma qsort_total cmp `{!TotalPreorder cmp} w els mem :
  0 < w -> 3 * w < 2 ^ 32 -> w * zlen els < 2 ^ 31 -> zlen els <= MAXNEL -> array w els mem ->
  exists mem' els', qsort mem (zlen els) w cmp = Ok mem' /\ array w els' mem' /\
    els' ≡ₚ els /\ StronglySorted (fun x y => cmp x y <= 0) els'.
Proof.
  intros Hw Hw3 Hsz Hn Ha. unfold qsort, qsort_r. pose proof (zlen_nonneg els).
  rewrite u32_id by (unfold in_u; nia). destruct (Z.eqb_spec (w * zlen els) 0) as [E|Ne].
  { exists mem, els. split_and!; try done. assert (zlen els = 0) as Hz by nia.
    destruct els; [constructor|]. rewrite zlen_cons in Hz. pose proof (zlen_nonneg els). lia. }
  assert (0 < zlen els) as Hpos by nia.
  destruct (leonardo_spec w (zlen els) Hw Hw3 Hpos Hsz Hn (Z.to_nat LP) 2) as (lp & Hlp & Htab);
    [lia|by left|unfold LP; lia|].
  change [w; w] with (map (fun x => x) [w; w]).
  replace (map (fun x => x) [w; w]) with (lp_upto w 2)
    by (unfold lp_upto; cbn [seq map]; change (leo 0) with 1; change (leo 1) with 1; by rewrite Z.mul_1_r).
  change 2 with (Z.of_nat 2) at 1. rewrite Hlp. cbn [obind].
  replace (0 + w * zlen els - w) with (w * (zlen els - 1)) by lia.
  destruct (build_spec cmp w Hw lp (zlen els) Htab Hn (Z.to_nat (zlen els) + 1) els mem [1%nat] 0)
    as (mem1 & els1 & ks & Hb & Ha1 & Hp1 & Hb1); [done|done|lia|apply built_one|lia|].
  rewrite Z.mul_0_r in Hb. change (vec (first [1%nat]) [1%nat]) with (1, 0) in Hb.
  change (Z.of_nat (first [1%nat])) with 1 in Hb. rewrite Hb. cbn [obind].
  assert (zlen els1 = zlen els) as Hz1 by (unfold zlen; by rewrite Hp1).
  destruct ks as [|k ks]; [done|]. cbn [first hd]. destruct Hb1 as (Hord & Ht & Hk & Hhs & Hf).
  pose proof (total_small (k :: ks) ltac:(lia)) as Hsm. pose proof Hord as (Hasc & Hwd & _).
  destruct (trinkle_spec cmp w Hw lp k ks els1 mem1 (zlen els - 1) false)
    as (mem2 & els2 & -> & Ha2 & Hp2 & (Hh2 & Hc2 & _)); rewrite ?Hz1; try done.
  { lia. }
  { apply orders_gaps; [done|lia]. }
  { apply (final_chain cmp (zlen els - 1) ks _ _ k); try done. destruct ks as [|k1 ks]; [done|].
    destruct Hasc as [Hk1 _]. pose proof (leo_mono k (k1 - 1) ltac:(lia)). lia. }
  cbn [obind].
  destruct (dequeue_spec cmp w Hw lp (zlen els) Htab Hn (Z.to_nat (zlen els) + 1) els2 mem2 (k :: ks) (zlen els - 1))
    as (mem3 & els3 & Hr & Ha3 & Hp3 & Hab).
  - done.
  - rewrite <- Hz1. unfold zlen. by rewrite Hp2.
  - lia.
  - split_and!; try done. intros i j Hi Hj. unfold zlen in Hj. rewrite Hp2, Hp1 in Hj. unfold zlen in Hj. lia.
  - lia.
  - exists mem3, els3. split_and!; [exact Hr|done| |by apply above_sorted].
    etrans; [exact Hp3|]. by etrans.
Qed.

(** C18: for a comparison function that is a total preorder, any array of up to
    11405773 elements whose bytes fit in half of the address space, and any
    element width below a third of it, [qsort] returns (every loop ends, no read
    or write leaves the array, the table of Leonardo numbers or the path buffer,
    no shift reaches the word size), and the array holds the same elements in
    ascending order. *)
Theorem qsort_sorts cmp `{!TotalPreorder cmp} w els mem :
  0 < w -> 3 * w < 2 ^ 32 -> w * zlen els < 2 ^ 31 -> zlen els <= MAXNEL -> array w els mem ->
  exists mem' els', qsort mem (zlen els) w cmp = Ok mem' /\ array w els' mem' /\
    els' ≡ₚ els /\ StronglySorted (fun x y => cmp x y <= 0) els'.
Proof. exact (qsort_total cmp w els mem). Qed.

(** Three two-byte elements, compared by their first byte. *)
Definition by_first (a b : bytes) : Z := nth 0 a 0 - nth 0 b 0.

#[local] Instance by_first_preorder : TotalPreorder by_first.
Proof. split; unfold by_first; lia. Qed.

Lemma qsort_sorts_witness :
  exists mem' els', qsort [7; 1; 3; 2; 5; 3] 3 2 by_first = Ok mem' /\ array 2 els' mem' /\
    els' ≡ₚ [[7; 1]; [3; 2]; [5; 3]] /\ StronglySorted (fun x y => by_first x y <= 0) els'.
Proof.
  apply (qsort_sorts by_first 2 [[7; 1]; [3; 2]; [5; 3]]); [lia|lia|vm_compute; done|vm_compute; done|].
  split; [done|]. repeat constructor.
Defined.

(** A gap of a word or more between two orders, which needs more than [MAXNEL]
    elements, takes [pntz] to [__builtin_ctz(0)]. *)
Lemma pntz_word_gap k k1 ks : asc (S k) (k1 :: ks) -> (32 < k1 - k)%nat ->
  pntz (vec k (k :: k1 :: ks)) = UB.
Proof.
  intros Ha Hd. unfold vec. rewrite bits_next by done.
  replace (Z.of_nat k1 - Z.of_nat k) with (Z.of_nat (k1 - k - 32) + 32) by lia.
  rewrite Z.pow_add_r by lia. rewrite Z.mul_shuffle0.
  by rewrite pv_pair by lia.
Qed.

(** * [bsearch] *)

(** The elements less than the key come first, the greater ones last. *)
Definition searchable (cmp : bytes -> bytes -> Z) (key : bytes) (els : list bytes) : Prop :=
  forall i j, 0 <= i <= j -> j < zlen els ->
    (cmp key (elt els i) < 0 -> cmp key (elt els j) < 0) /\
    (0 < cmp key (elt els j) -> 0 < cmp key (elt els i)).

Section Bsearch.
Context (cmp : bytes -> bytes -> Z) (w : Z) (Hw : 0 < w) (els : list bytes) (mem : bytes).
Context (Ha : array w els mem) (key : bytes) (Hs : searchable cmp key els).

Definition bsearch_result (r : outcome (option Z)) : Prop :=
  match r with
  | Ok (Some p) => exists i, 0 <= i < zlen els /\ p = w * i /\ cmp key (elt els i) = 0
  | Ok None => forall i, 0 <= i < zlen els -> cmp key (elt els i) <> 0
  | _ => False
  end.

Lemma bsearch_loop_spec fuel : forall lo nel,
  0 <= lo -> 0 <= nel -> lo + nel <= zlen els -> nel < Z.of_nat fuel ->
  (forall i, 0 <= i < lo -> 0 < cmp key (elt els i)) ->
  (forall i, lo + nel <= i < zlen els -> cmp key (elt els i) < 0) ->
  bsearch_result (bsearch_loop mem w cmp fuel key (w * lo) nel).
Proof.
  induction fuel as [|fuel IH]; intros lo nel Hlo Hnel Hin Hf Hl Hr; [lia|]. cbn [bsearch_loop].
  destruct (Z.ltb_spec 0 nel) as [Hpos|Hz].
  2:{ intros i Hi. destruct (decide (i < lo)); [pose proof (Hl i)|pose proof (Hr i)]; lia. }
  pose proof (Z.div_mod nel 2). pose proof (Z.mod_pos_bound nel 2).
  set (m := lo + nel / 2). replace (w * lo + w * (nel / 2)) with (w * m) by lia.
  assert (lo <= m < lo + nel) as Hm by lia. unfold zlen in *.
  assert (load mem (w * m) w = Ok (elt els m)) as ->.
  { rewrite <- (Z2Nat.id m) at 1 by lia. apply (load_element w Hw els); [done|].
    apply lookup_total_lookup. lia. }
  cbn [obind]. destruct (Z.ltb_spec (cmp key (elt els m)) 0) as [Hneg|Hnn].
  - apply IH; try lia; [done|]. intros i Hi. apply (Hs m i); unfold zlen; (done || lia).
  - destruct (Z.ltb_spec 0 (cmp key (elt els m))) as [Hp|Hnp].
    + replace (w * m + w) with (w * (m + 1)) by lia. apply IH; try lia.
      * intros i Hi. apply (Hs i m); unfold zlen; (done || lia).
      * intros i Hi. apply Hr. lia.
    + exists m. unfold zlen. split_and!; lia.
Qed.
End Bsearch.

Lemma sorted_elt cmp els : StronglySorted (fun x y => cmp x y <= 0) els ->
  forall i j, 0 <= i < j -> j < zlen els -> cmp (elt els i) (elt els j) <= 0.
Proof.
  unfold elt. induction 1 as [|e els _ IH He]; intros i j Hij Hj; [unfold zlen in Hj; simpl in Hj; lia|].
  rewrite zlen_cons in Hj. assert (exists j', Z.to_nat j = S j' /\ Z.of_nat j' = j - 1) as (j' & -> & Ej).
  { exists (Z.to_nat (j - 1)). lia. }
  destruct (decide (i = 0)) as [-> |].
  - simpl. rewrite Forall_forall in He. apply He. apply list_elem_of_lookup. exists j'.
    apply lookup_total_lookup. unfold zlen in Hj. lia.
  - assert (Z.to_nat i = S (Z.to_nat (i - 1))) as -> by lia. replace j' with (Z.to_nat (j - 1)) by lia.
    apply IH; lia.
Qed.

Lemma sorted_searchable cmp `{!TotalPreorder cmp} key els :
  StronglySorted (fun x y => cmp x y <= 0) els -> searchable cmp key els.
Proof.
  intros Hst i j Hi Hj. destruct (decide (i = j)) as [-> |Hne]; [done|].
  pose proof (sorted_elt cmp els Hst i j ltac:(lia) Hj) as Hle.
  pose proof (cmp_flip (elt els i) key). pose proof (cmp_flip (elt els j) key).
  pose proof (cmp_flip key (elt els i)). pose proof (cmp_flip key (elt els j)).
  pose proof (cmp_trans (elt els i) (elt els j) key Hle).
  pose proof (cmp_trans key (elt els i) (elt els j)). lia.
Qed.

(** Searching what [qsort] sorted: [bsearch] returns, never reads outside
    the array, and gives the address of an element equal to the key exactly when
    the array that was sorted holds one. *)
Theorem qsort_bsearch cmp `{!TotalPreorder cmp} w els mem key :
  0 < w -> 3 * w < 2 ^ 32 -> w * zlen els < 2 ^ 31 -> zlen els <= MAXNEL -> array w els mem ->
  exists mem' els' r, qsort mem (zlen els) w cmp = Ok mem' /\ array w els' mem' /\
    bsearch mem' w cmp key 0 (zlen els) = Ok r /\
    match r with
    | Some p => exists i e, p = w * Z.of_nat i /\ els' !! i = Some e /\ cmp key e = 0 /\ e ∈ els
    | None => forall e, e ∈ els -> cmp key e <> 0
    end.
Proof.
  intros Hw Hw3 Hsz Hn Ha.
  destruct (qsort_total cmp w els mem Hw Hw3 Hsz Hn Ha) as (mem' & els' & Hr & Ha' & Hp & Hst).
  assert (zlen els' = zlen els) as Hz by (unfold zlen; by rewrite Hp).
  pose proof (bsearch_loop_spec cmp w Hw els' mem' Ha' key (sorted_searchable cmp key els' Hst)
    (Z.to_nat (zlen els) + 1) 0 (zlen els)) as Hb.
  rewrite Z.mul_0_r in Hb. fold (bsearch mem' w cmp key 0 (zlen els)) in Hb.
  assert (bsearch_result cmp w els' key (bsearch mem' w cmp key 0 (zlen els))) as Hres.
  { pose proof (zlen_nonneg els). apply Hb; lia. }
  destruct (bsearch mem' w cmp key 0 (zlen els)) as [r| | |] eqn:Eb; try done. clear Hb.
  exists mem', els', r. split_and!; try done. unfold zlen in *. destruct r as [p|]; cbn [bsearch_result] in Hres.
  - destruct Hres as (i & Hi & -> & Hc). unfold elt in Hc.
    pose proof (lookup_total_lookup els' (Z.to_nat i)) as Hl. exists (Z.to_nat i), (els' !!! Z.to_nat i).
    specialize (Hl ltac:(unfold zlen in Hi; lia)). split_and!; [f_equal; lia|done|done|].
    rewrite <- Hp. by eapply list_elem_of_lookup_2.
  - intros e He. rewrite <- Hp in He. apply list_elem_of_lookup in He as [i Hi].
    pose proof (lookup_lt_Some _ _ _ Hi). specialize (Hres (Z.of_nat i) ltac:(unfold zlen; lia)).
    unfold elt in Hres. rewrite Nat2Z.id in Hres. by rewrite (list_lookup_total_correct _ _ _ Hi) in Hres.
Qed.

Lemma qsort_bsearch_witness :
  exists mem' els' r, qsort [7; 1; 3; 2; 5; 3] 3 2 by_first = Ok mem' /\ array 2 els' mem' /\
    bsearch mem' 2 by_first [5; 0] 0 3 = Ok r /\
    match r with
    | Some p => exists i e, p = 2 * Z.of_nat i /\ els' !! i = Some e /\ by_first [5; 0] e = 0 /\
        e ∈ [[7; 1]; [3; 2]; [5; 3]]
    | None => forall e, e ∈ [[7; 1]; [3; 2]; [5; 3]] -> by_first [5; 0] e <> 0
    end.
Proof.
  apply (qsort_bsearch by_first 2 [[7; 1]; [3; 2]; [5; 3]] _ [5; 0]);
    [lia|lia|vm_compute; done|vm_compute; done|].
  split; [done|]. repeat constructor.
Defined.
