(* ===== verification/Stdio.v ===== *)
(** Buffered streams ([libc-top-half/musl/src/stdio/]): the buffer of a [FILE],
    the functions that fill and empty it, and the reading, writing and
    positioning functions of the standard library.

    A [FILE] is the record of the fields of [struct _IO_FILE] that single-threaded
    WASI builds use.  The buffer is the [UNGET] bytes of pushback before [buf] and
    the bytes from [buf] on; a pointer into it is an offset from [buf], and a null
    pointer is [None].  Reads and stores outside the buffer are undefined
    behaviour.  Below is the host of [Syscalls], reached through [readv], [read],
    [writev] and [lseek]. *)

From S2P Require Import Prelude Syscalls.

Definition EOF : Z := -1.
Definition UNGET : Z := 8.
Definition BUFSIZ : Z := 1024.
Definition SEEK_SET : Z := 0.
Definition SEEK_CUR : Z := 1.
Definition SEEK_END : Z := 2.
Definition _IOFBF : Z := 0.
Definition _IOLBF : Z := 1.
Definition _IONBF : Z := 2.
Definition F_PERM : Z := 1.
Definition F_NORD : Z := 4.
Definition F_NOWR : Z := 8.
Definition F_EOF : Z := 16.
Definition F_ERR : Z := 32.
Definition F_SVB : Z := 64.
Definition F_APP : Z := 128.

(** What [f->write] points to. *)
Inductive write_fn := __stdio_write_fn | __stdout_write_fn.

Record FILE := File {
  flags : Z;
  rpos : option Z; rend : option Z;
  wpos : option Z; wbase : option Z; wend : option Z;
  write_ : write_fn;
  mem : list Z; buf_size : Z;
  fd : Z;
  mode : Z;
  lbf : Z
}.

Definition with_flags (x : Z) (f : FILE) : FILE :=
  File x (rpos f) (rend f) (wpos f) (wbase f) (wend f) (write_ f) (mem f) (buf_size f) (fd f) (mode f) (lbf f).
Definition with_rd (p e : option Z) (f : FILE) : FILE :=
  File (flags f) p e (wpos f) (wbase f) (wend f) (write_ f) (mem f) (buf_size f) (fd f) (mode f) (lbf f).
Definition with_wr (p b e : option Z) (f : FILE) : FILE :=
  File (flags f) (rpos f) (rend f) p b e (write_ f) (mem f) (buf_size f) (fd f) (mode f) (lbf f).
Definition with_mem (m : list Z) (f : FILE) : FILE :=
  File (flags f) (rpos f) (rend f) (wpos f) (wbase f) (wend f) (write_ f) m (buf_size f) (fd f) (mode f) (lbf f).
Definition with_mode (x : Z) (f : FILE) : FILE :=
  File (flags f) (rpos f) (rend f) (wpos f) (wbase f) (wend f) (write_ f) (mem f) (buf_size f) (fd f) x (lbf f).
Definition with_write (w : write_fn) (l : Z) (f : FILE) : FILE :=
  File (flags f) (rpos f) (rend f) (wpos f) (wbase f) (wend f) w (mem f) (buf_size f) (fd f) (mode f) l.
Definition with_buf (m : list Z) (n l : Z) (f : FILE) : FILE :=
  File (flags f) (rpos f) (rend f) (wpos f) (wbase f) (wend f) (write_ f) m n (fd f) (mode f) l.

Definition has_flag (b : Z) (f : FILE) : bool := ctrue (Z.land (flags f) b).
Definition or_flag (b : Z) (f : FILE) : FILE := with_flags (Z.lor (flags f) b) f.
Definition clear_flag (b : Z) (f : FILE) : FILE := with_flags (Z.land (flags f) (Z.lnot b)) f.

(** [f->mode |= f->mode-1] *)
Definition byte_mode (f : FILE) : FILE := with_mode (Z.lor (mode f) (mode f - 1)) f.

(** The distance between two pointers of the buffer. *)
Definition diff (a b : option Z) : Z := match a, b with Some x, Some y => x - y | _, _ => 0 end.

(** [n] bytes of the buffer from the offset [o], and stores. *)
Definition fetch (f : FILE) (o n : Z) : outcome (list Z) :=
  if (0 <=? UNGET + o) && (0 <=? n) && (UNGET + o + n <=? zlen (mem f))
  then Ok (take (Z.to_nat n) (drop (Z.to_nat (UNGET + o)) (mem f))) else UB.
Definition blit (f : FILE) (o : Z) (src : list Z) : outcome FILE :=
  if (0 <=? UNGET + o) && (UNGET + o + zlen src <=? zlen (mem f))
  then Ok (with_mem (take (Z.to_nat (UNGET + o)) (mem f) ++ src ++
                     drop (Z.to_nat (UNGET + o + zlen src)) (mem f)) f)
  else UB.

Section Stdio.
Context {S : Type} (host : forall X, wasi X -> S -> res X * S).

(** A stream operation changes the [FILE] and the host's state. *)
Notation io := (M (FILE * S)).

Definition get_file : io FILE := fun st => Ok (fst st, st).
Definition upd (g : FILE -> FILE) : io unit := fun st => Ok (tt, (g (fst st), snd st)).
Definition try_upd (g : FILE -> outcome FILE) : io unit :=
  fun st => let! f := g (fst st) in Ok (tt, (f, snd st)).
Definition sys {A} (p : prog A) : io A :=
  fun st => let (a, s) := run host p (snd st) in Ok (a, (fst st, s)).

(** A pointer that is dereferenced or moved. *)
Definition ptr (p : option Z) : io Z := lift (deref p).

(** [*f->rpos++] *)
Definition next_byte : io Z :=
  let* f := get_file in
  let* p := ptr (rpos f) in
  let* b := lift (fetch f p 1) in
  do* upd (with_rd (Some (p + 1)) (rend f)) in
  lift (zget b 0).

(** * The functions behind [f->read], [f->write] and [f->seek] *)

(** What [readv] or [read] returned: the bytes for [buf] and the count. *)
Definition __stdio_read (len : Z) : io (Z * list Z) :=
  let* f := get_file in
  let iov0 := u32 (len - cbool (ctrue (buf_size f))) in
  let* r := sys (if ctrue iov0 then readv (fd f) [iov0; buf_size f] 2 else read (fd f) (buf_size f)) in
  let '(cnt, data) := match r with Val (n, data) => (n, data) | Err _ => (-1, []) end in
  let direct := take (Z.to_nat iov0) data in
  let rest := drop (Z.to_nat iov0) data in
  do* lift (if zlen rest <=? buf_size f then Ok tt else UB) in
  do* try_upd (fun f => blit f 0 rest) in
  if cnt <=? 0 then
    do* upd (or_flag (if ctrue cnt then F_ERR else F_EOF)) in
    sret (0, direct)
  else if cnt <=? iov0 then sret (cnt, direct)
  else
    let cnt := cnt - iov0 in
    do* upd (with_rd (Some 0) (Some cnt)) in
    if ctrue (buf_size f) then
      let* b := next_byte in
      sret (len, direct ++ [b])
    else sret (len, direct).

(** The loop of [__stdio_write]: [iov] is the rest of the array of buffers. *)
Fixpoint write_loop (fuel : nat) (iov : list (list Z)) (rem len : Z) : io Z :=
  match fuel with
  | O => fun _ => NoFuel
  | Datatypes.S fuel' =>
      let* f := get_file in
      let* r := sys (writev (fd f) iov (zlen iov)) in
      let cnt := match r with Val n => n | Err _ => -1 end in
      if u32 cnt =? rem then
        do* upd (with_wr (Some 0) (Some 0) (Some (buf_size f))) in
        sret len
      else if cnt <? 0 then
        do* upd (fun f => or_flag F_ERR (with_wr None None None f)) in
        let* iov0 := lift (zget iov 0) in
        sret (if zlen iov =? 2 then 0 else u32 (len - zlen iov0))
      else
        let rem := u32 (rem - cnt) in
        let* iov0 := lift (zget iov 0) in
        let '(cnt, iov) := if zlen iov0 <? cnt then (cnt - zlen iov0, tail iov) else (cnt, iov) in
        let* iov0 := lift (zget iov 0) in
        do* lift (if cnt <=? zlen iov0 then Ok tt else UB) in
        write_loop fuel' (drop (Z.to_nat cnt) iov0 :: tail iov) rem len
  end.

(** The bytes between [wbase] and [wpos]. *)
Definition pending : io (list Z) :=
  let* f := get_file in
  match wbase f with
  | None => sret []
  | Some b => lift (fetch f b (diff (wpos f) (wbase f)))
  end.

Definition __stdio_write (buf : list Z) : io Z :=
  let* w := pending in
  let rem := u32 (zlen w + zlen buf) in
  write_loop (Z.to_nat rem + 1) [w; buf] rem (zlen buf).

Definition __stdout_write (buf : list Z) : io Z :=
  let* f := get_file in
  do* upd (fun f => with_write __stdio_write_fn (lbf f) f) in
  do* (if negb (has_flag F_SVB f) then
         let* r := sys (isatty (fd f)) in
         match r with
         | Val 1 => sret tt
         | _ => upd (fun f => with_write (write_ f) (-1) f)
         end
       else sret tt) in
  __stdio_write buf.

(** [f->write(f, buf, len)] *)
Definition write_call (buf : list Z) : io Z :=
  let* f := get_file in
  match write_ f with
  | __stdio_write_fn => __stdio_write buf
  | __stdout_write_fn => __stdout_write buf
  end.

Definition __stdio_seek (off whence : Z) : io Z :=
  let* f := get_file in
  let* r := sys (lseek (fd f) off whence) in
  sret (match r with Val n => n | Err _ => -1 end).

(** * Reading *)

Definition __toread : io Z :=
  do* upd byte_mode in
  let* f := get_file in
  do* (if decide (wpos f = wbase f) then sret 0 else write_call []) in
  do* upd (with_wr None None None) in
  let* f := get_file in
  if has_flag F_NORD f then
    do* upd (or_flag F_ERR) in
    sret EOF
  else
    do* upd (with_rd (Some (buf_size f)) (Some (buf_size f))) in
    sret (if has_flag F_EOF f then EOF else 0).

Definition __uflow : io Z :=
  let* r := __toread in
  if negb (ctrue r) then
    let* (n, b) := __stdio_read 1 in
    if n =? 1 then lift (zget b 0) else sret EOF
  else sret EOF.

Definition getc_unlocked : io Z :=
  let* f := get_file in
  if decide (rpos f = rend f) then __uflow else next_byte.

(** [memcpy(dest, f->rpos, k); f->rpos += k] *)
Definition take_buffer (k : Z) : io (list Z) :=
  let* f := get_file in
  let* p := ptr (rpos f) in
  let* b := lift (fetch f p k) in
  do* upd (with_rd (Some (p + k)) (rend f)) in
  sret b.

(** The loop of [fread] that reads the remainder: the bytes and what is left
    of [l]. *)
Fixpoint fread_loop (fuel : nat) (l : Z) (dest : list Z) : io (Z * list Z) :=
  match fuel with
  | O => fun _ => NoFuel
  | Datatypes.S fuel' =>
      if l =? 0 then sret (l, dest)
      else
        let* r := __toread in
        let* (k, b) := if ctrue r then sret (0, []) else __stdio_read l in
        if k =? 0 then sret (l, dest)
        else fread_loop fuel' (l - k) (dest ++ b)
  end.

(** The number of elements and the bytes stored. *)
Definition fread (size nmemb : Z) : io (Z * list Z) :=
  let len := u32 (size * nmemb) in
  let nmemb := if size =? 0 then 0 else nmemb in
  do* upd byte_mode in
  let* f := get_file in
  let* b := if decide (rpos f = rend f) then sret []
            else take_buffer (Z.min (diff (rend f) (rpos f)) len) in
  let* (l, dest) := fread_loop (Z.to_nat len + 1) (len - zlen b) b in
  sret (if l =? 0 then nmemb else (len - l) / size, dest).

(** [memchr(f->rpos, c, f->rend - f->rpos)]: the distance of the first [c]. *)
Fixpoint memchr (b : list Z) (c : Z) : option Z :=
  match b with
  | [] => None
  | x :: b' => if x =? u8 c then Some 0 else option_map (Z.add 1) (memchr b' c)
  end.

Definition unread : io (list Z) :=
  let* f := get_file in
  let* p := ptr (rpos f) in
  lift (fetch f p (diff (rend f) (rpos f))).

(** The loop of [fgets]: the bytes stored, and whether [s] is returned. *)
Fixpoint fgets_loop (fuel : nat) (n : Z) (p : list Z) : io (list Z * bool) :=
  match fuel with
  | O => fun _ => NoFuel
  | Datatypes.S fuel' =>
      if n =? 0 then sret (p, true)
      else
        let* f := get_file in
        let* (p, n, stop) :=
          if decide (rpos f = rend f) then sret (p, n, false)
          else
            let* b := unread in
            let z := memchr b 10 in
            let k := match z with Some z => z + 1 | None => zlen b end in
            let k := Z.min k n in
            let* d := take_buffer k in
            sret (p ++ d, n - k, match z with Some _ => true | None => n - k =? 0 end) in
        if stop : bool then sret (p, true)
        else
          let* c := getc_unlocked in
          if c <? 0 then
            let* f := get_file in
            sret (p, negb ((zlen p =? 0) || negb (has_flag F_EOF f)))
          else
            let p := p ++ [c] in
            if c =? 10 then sret (p, true) else fgets_loop fuel' (n - 1) p
  end.

(** The string stored in [s], without its terminator, or a null pointer. *)
Definition fgets (n : Z) : io (option (list Z)) :=
  if n <=? 1 then
    do* upd byte_mode in
    if ctrue (n - 1) then sret None else sret (Some [])
  else
    let* (p, ok) := fgets_loop (Z.to_nat n) (n - 1) [] in
    sret (if ok : bool then Some p else None).

Definition ungetc (c : Z) : io Z :=
  if c =? EOF then sret c
  else
    let* f := get_file in
    let* _ := match rpos f with None => __toread | Some _ => sret 0 end in
    let* f := get_file in
    match rpos f with
    | None => sret EOF
    | Some p =>
        if p <=? - UNGET then sret EOF
        else
          do* try_upd (fun f => blit f (p - 1) [u8 c]) in
          do* upd (with_rd (Some (p - 1)) (rend f)) in
          do* upd (clear_flag F_EOF) in
          sret (u8 c)
    end.

(** * Writing *)

Definition __towrite : io Z :=
  do* upd byte_mode in
  let* f := get_file in
  if has_flag F_NOWR f then
    do* upd (or_flag F_ERR) in
    sret EOF
  else
    do* upd (with_rd None None) in
    do* upd (with_wr (Some 0) (Some 0) (Some (buf_size f))) in
    sret 0.

(** [!f->wend && __towrite(f)] *)
Definition no_write : io bool :=
  let* f := get_file in
  match wend f with
  | Some _ => sret false
  | None => let* r := __towrite in sret (ctrue r)
  end.

(** [*f->wpos++ = c] *)
Definition put_byte (c : Z) : io Z :=
  let* f := get_file in
  let* p := ptr (wpos f) in
  do* try_upd (fun f => blit f p [c]) in
  do* upd (with_wr (Some (p + 1)) (wbase f) (wend f)) in
  sret c.

Definition __overflow (_c : Z) : io Z :=
  let c := u8 _c in
  let* no := no_write in
  if no : bool then sret EOF
  else
    let* f := get_file in
    if bool_decide (wpos f <> wend f) && negb (c =? lbf f) then put_byte c
    else
      let* n := write_call [c] in
      sret (if negb (n =? 1) then EOF else c).

Definition putc_unlocked (c : Z) : io Z :=
  let* f := get_file in
  if negb (u8 c =? lbf f) && bool_decide (wpos f <> wend f) then put_byte (u8 c) else __overflow (u8 c).

(** The length of the longest prefix that ends in a newline. *)
Fixpoint last_line (s : list Z) : Z :=
  match s with
  | [] => 0
  | c :: s' => let i := last_line s' in if 0 <? i then 1 + i else if c =? 10 then 1 else 0
  end.

Definition __fwritex (s : list Z) : io Z :=
  let l := zlen s in
  let* no := no_write in
  if no : bool then sret 0
  else
    let* f := get_file in
    if diff (wend f) (wpos f) <? l then write_call s
    else
      let i := if 0 <=? lbf f then last_line s else 0 in
      let* short :=
        if 0 <? i then
          let* n := write_call (take (Z.to_nat i) s) in
          sret (if n <? i then Some n else None)
        else sret None in
      match short with
      | Some n => sret n
      | None =>
          let s := drop (Z.to_nat i) s in
          let* f := get_file in
          match wpos f with
          | Some p =>
              do* try_upd (fun f => blit f p s) in
              do* upd (with_wr (Some (p + zlen s)) (wbase f) (wend f)) in
              sret (zlen s + i)
          | None => lift UB
          end
      end.

Definition fwrite (src : list Z) (size nmemb : Z) : io Z :=
  let l := u32 (size * nmemb) in
  let nmemb := if size =? 0 then 0 else nmemb in
  do* lift (if l <=? zlen src then Ok tt else UB) in
  let* k := __fwritex (take (Z.to_nat l) src) in
  sret (if k =? l then nmemb else k / size).

Definition fputs (s : list Z) : io Z :=
  let l := zlen s in
  let* n := fwrite s 1 l in
  sret (cbool (n =? l) - 1).

(** [puts], on [stdout]. *)
Definition puts (s : list Z) : io Z :=
  let* r := fputs s in
  if r <? 0 then sret (-1)
  else
    let* c := putc_unlocked 10 in
    sret (- cbool (c <? 0)).

(** * Positioning *)

(** [fflush] of a stream. *)
Definition fflush : io Z :=
  let* f := get_file in
  let* failed :=
    if decide (wpos f = wbase f) then sret false
    else
      do* write_call [] in
      let* f := get_file in
      sret (bool_decide (wpos f = None)) in
  if failed : bool then sret EOF
  else
    let* f := get_file in
    do* (if decide (rpos f = rend f) then sret 0
         else __stdio_seek (diff (rpos f) (rend f)) SEEK_CUR) in
    do* upd (with_wr None None None) in
    do* upd (with_rd None None) in
    sret 0.

(** [-1] stands for any failure; [errno] is [EINVAL] for a bad [whence]. *)
Definition __fseeko_unlocked (off whence : Z) : io Z :=
  if negb (whence =? SEEK_CUR) && negb (whence =? SEEK_SET) && negb (whence =? SEEK_END) then sret (-1)
  else
    let* f := get_file in
    let off := if (whence =? SEEK_CUR) && bool_decide (rend f <> None)
               then s64 (off - diff (rend f) (rpos f)) else off in
    let* failed :=
      if decide (wpos f = wbase f) then sret false
      else
        do* write_call [] in
        let* f := get_file in
        sret (bool_decide (wpos f = None)) in
    if failed : bool then sret (-1)
    else
      do* upd (with_wr None None None) in
      let* r := __stdio_seek off whence in
      if r <? 0 then sret (-1)
      else
        do* upd (with_rd None None) in
        do* upd (clear_flag F_EOF) in
        sret 0.

(** [fseek], whose offset is a [long]; [fseeko] is [__fseeko_unlocked]. *)
Definition fseek (off whence : Z) : io Z := __fseeko_unlocked off whence.

Definition __ftello_unlocked : io Z :=
  let* f := get_file in
  let* pos := __stdio_seek 0
    (if has_flag F_APP f && bool_decide (wpos f <> wbase f) then SEEK_END else SEEK_CUR) in
  if pos <? 0 then sret pos
  else
    let* f := get_file in
    match rend f, wbase f with
    | Some _, _ => sret (s64 (pos + diff (rpos f) (rend f)))
    | None, Some _ => sret (s64 (pos + diff (wpos f) (wbase f)))
    | None, None => sret pos
    end.

Definition LONG_MAX : Z := 2 ^ 31 - 1.

(** The position, or -1 with [EOVERFLOW]. *)
Definition ftell : io Z :=
  let* pos := __ftello_unlocked in
  if LONG_MAX <? pos then sret (-1) else sret (s32 pos).

Definition rewind : io unit :=
  do* __fseeko_unlocked 0 SEEK_SET in
  upd (clear_flag F_ERR).

Definition fgetpos : io (Z * option Z) :=
  let* off := __ftello_unlocked in
  if off <? 0 then sret (-1, None) else sret (0, Some off).

Definition fsetpos (pos : Z) : io Z := __fseeko_unlocked pos SEEK_SET.

(** * State of the stream *)

Definition feof : io Z := let* f := get_file in sret (cbool (has_flag F_EOF f)).
Definition ferror : io Z := let* f := get_file in sret (cbool (has_flag F_ERR f)).
Definition clearerr : io unit := upd (clear_flag (Z.lor F_EOF F_ERR)).

(** [setvbuf], with the caller's buffer. *)
Definition setvbuf (b : option (list Z)) (type size : Z) : io Z :=
  do* upd (fun f => with_write (write_ f) EOF f) in
  if type =? _IONBF then
    do* upd (fun f => with_buf (mem f) 0 (lbf f) f) in
    do* upd (or_flag F_SVB) in
    sret 0
  else if (type =? _IOLBF) || (type =? _IOFBF) then
    do* (match b with
         | Some b => if UNGET <=? size then upd (fun f => with_buf b (size - UNGET) (lbf f) f) else sret tt
         | None => sret tt
         end) in
    let* f := get_file in
    do* (if (type =? _IOLBF) && ctrue (buf_size f) then upd (with_write (write_ f) 10) else sret tt) in
    do* upd (or_flag F_SVB) in
    sret 0
  else sret (-1).

Definition setbuf (b : option (list Z)) : io Z :=
  setvbuf b (match b with Some _ => _IOFBF | None => _IONBF end) BUFSIZ.
Definition setbuffer (b : option (list Z)) (size : Z) : io Z :=
  setvbuf b (match b with Some _ => _IOFBF | None => _IONBF end) size.
Definition setlinebuf : io Z := setvbuf None _IOLBF 0.

Definition is_some {A} (o : option A) : bool := match o with Some _ => true | None => false end.

(** [stdio_ext.h] *)
Definition __fwriting : io bool := let* f := get_file in sret (has_flag F_NORD f || is_some (wend f)).
Definition __freading : io bool := let* f := get_file in sret (has_flag F_NOWR f || is_some (rend f)).
Definition __freadable : io bool := let* f := get_file in sret (negb (has_flag F_NORD f)).
Definition __fwritable : io bool := let* f := get_file in sret (negb (has_flag F_NOWR f)).
Definition __flbf : io bool := let* f := get_file in sret (0 <=? lbf f).
Definition __fbufsize : io Z := let* f := get_file in sret (buf_size f).
Definition __fpending : io Z :=
  let* f := get_file in sret (if is_some (wend f) then diff (wpos f) (wbase f) else 0).
Definition __fpurge : io Z :=
  do* upd (with_wr None None None) in
  do* upd (with_rd None None) in
  sret 0.
Definition __freadahead : io Z :=
  let* f := get_file in sret (if is_some (rend f) then diff (rend f) (rpos f) else 0).
Definition __fseterr : io unit := upd (or_flag F_ERR).

(** [close_file] of [__stdio_exit]. *)
Definition close_file : io unit :=
  let* f := get_file in
  do* (if decide (wpos f = wbase f) then sret 0 else write_call []) in
  let* f := get_file in
  do* (if decide (rpos f = rend f) then sret 0
       else __stdio_seek (diff (rpos f) (rend f)) SEEK_CUR) in
  sret tt.

(** [fclose] up to the point where the stream is taken off the list. *)
Definition fclose : io Z :=
  let* r := fflush in
  let* f := get_file in
  let* c := sys (close (fd f)) in
  sret (Z.lor r (match c with Val n => n | Err _ => -1 end)).

(** * [getdelim]

    [room k] says whether [realloc] finds [k] bytes.  The state is the line
    buffer, its size [n], and the number [i] of bytes in it.  The byte that
    [getc_unlocked] gave is compared with [delim] as a [char], which is signed
    on wasm32. *)
Fixpoint getdelim_loop (fuel : nat) (room : Z -> bool) (delim : Z) (s : list Z) (n i : Z)
  : io (Z * list Z * Z) :=
  match fuel with
  | O => fun _ => NoFuel
  | Datatypes.S fuel' =>
      let* f := get_file in
      let* (z, k) :=
        if decide (rpos f = rend f) then sret (None, 0)
        else
          let* b := unread in
          let z := memchr b delim in
          sret (z, match z with Some z => z + 1 | None => zlen b end) in
      let fits := negb (n <=? u32 (i + k)) in
      let m := u32 (i + k + 2) in
      let m1 := if negb (is_some z) && (m <? SIZE_MAX / 4) then u32 (m + m / 2) else m in
      let grown := if fits then Some n else if room m1 then Some m1 else if room m then Some m else None in
      match grown with
      | None =>
          let k := u32 (n - i) in
          let* d := if k =? 0 then sret [] else take_buffer k in
          do* upd byte_mode in
          do* upd (or_flag F_ERR) in
          sret (-1, s ++ d, n)
      | Some n =>
          let* d := if k =? 0 then sret [] else take_buffer k in
          let s := s ++ d in
          let i := i + k in
          if is_some z then sret (i, s, n)
          else
            let* c := getc_unlocked in
            if c =? EOF then
              let* f := get_file in
              if (i =? 0) || negb (has_flag F_EOF f) then sret (-1, s, n) else sret (i, s, n)
            else if n <=? i + 1 then
              let* f := get_file in
              let* p := ptr (rpos f) in
              do* try_upd (fun f => blit f (p - 1) [u8 c]) in
              do* upd (with_rd (Some (p - 1)) (rend f)) in
              getdelim_loop fuel' room delim s n i
            else
              let s := s ++ [c] in
              let i := i + 1 in
              if s8 c =? delim then sret (i, s, n) else getdelim_loop fuel' room delim s n i
      end
  end.

(** [args] is the size of the caller's buffer, 0 when [*s] is null, or [None]
    when [n] or [s] is.  The result is the length, or -1, the bytes of the
    buffer, and its size. *)
Definition getdelim (fuel : nat) (room : Z -> bool) (delim : Z) (args : option Z) : io (Z * list Z * Z) :=
  match args with
  | None =>
      do* upd byte_mode in
      do* upd (or_flag F_ERR) in
      sret (-1, [], 0)
  | Some n => getdelim_loop fuel room delim [] n 0
  end.
End Stdio.

(** * Opening *)

Definition O_APPEND : Z := 1.
Definition O_CREAT : Z := Z.shiftl 1 12.
Definition O_EXCL : Z := Z.shiftl 4 12.
Definition O_TRUNC : Z := Z.shiftl 8 12.
Definition O_CLOEXEC : Z := 0.

(** [strchr(s, c)] of a character other than the terminator. *)
Definition has_char (s : list Z) (c : Z) : bool := existsb (Z.eqb c) s.

(** [strchr("rwa", *mode)], which also finds the terminator of an empty mode. *)
Definition mode_ok (mode : list Z) : bool :=
  has_char [114; 119; 97] (schar mode 0) || (schar mode 0 =? 0).

Definition __fmodeflags (mode : list Z) : Z :=
  let m := schar mode 0 in
  let flags := if has_char mode 43 then O_RDWR else if m =? 114 then O_RDONLY else O_WRONLY in
  let flags := if has_char mode 120 then Z.lor flags O_EXCL else flags in
  let flags := if has_char mode 101 then Z.lor flags O_CLOEXEC else flags in
  let flags := if negb (m =? 114) then Z.lor flags O_CREAT else flags in
  let flags := if m =? 119 then Z.lor flags O_TRUNC else flags in
  if m =? 97 then Z.lor flags O_APPEND else flags.

(** One program after another. *)
Fixpoint pbind {A B} (p : prog A) (k : A -> prog B) : prog B :=
  match p with
  | Ret a => k a
  | Ask c h => Ask c (fun r => pbind (h r) k)
  end.

(** [room] says whether [malloc] finds the memory; the [UNGET] bytes and the
    buffer hold whatever was there, here zeros. *)
Definition __fdopen (room : bool) (fd : Z) (mode : list Z) : prog (res FILE) :=
  if negb (mode_ok mode) then Ret (Err EINVAL)
  else if negb room then Ret (Err ENOMEM)
  else
    let m := schar mode 0 in
    let fl := if negb (has_char mode 43) then (if m =? 114 then F_NOWR else F_NORD) else 0 in
    pbind (if has_char mode 101 then fcntl fd F_SETFD FD_CLOEXEC else Ret (Val 0)) (fun _ =>
    pbind (if m =? 97 then
             pbind (fcntl fd F_GETFL 0) (fun r =>
               let flags := match r with Val n => n | Err _ => -1 end in
               if ctrue (Z.land flags O_APPEND) then Ret (Val 0)
               else fcntl fd F_SETFL (Z.lor flags O_APPEND))
           else Ret (Val 0)) (fun _ =>
    let fl := if m =? 97 then Z.lor fl F_APP else fl in
    pbind (if negb (ctrue (Z.land fl F_NOWR)) then isatty fd else Ret (Val 0)) (fun r =>
    let lbf := match r with Val 1 => 10 | _ => EOF end in
    Ret (Val (File fl None None None None None __stdio_write_fn
      (replicate (Z.to_nat (UNGET + BUFSIZ)) 0) BUFSIZ fd 0 lbf))))).

(** [open] is the path function of the preopened directories. *)
Definition fopen (open_nomode : list Z -> Z -> prog (res Z)) (room : bool)
    (filename mode : list Z) : prog (res FILE) :=
  if negb (mode_ok mode) then Ret (Err EINVAL)
  else
    pbind (open_nomode filename (__fmodeflags mode)) (fun r =>
    match r with
    | Err e => Ret (Err e)
    | Val fd =>
        pbind (__fdopen room fd mode) (fun f =>
        match f with
        | Val f => Ret (Val f)
        | Err e => pbind (close fd) (fun c => Ret (Err (match c with Err e' => e' | Val _ => e end)))
        end)
    end).

(** The three standard streams. *)
Definition stdin : FILE :=
  File (Z.lor F_PERM F_NOWR) None None None None None __stdio_write_fn
    (replicate (Z.to_nat (UNGET + BUFSIZ)) 0) BUFSIZ 0 0 0.
Definition stdout : FILE :=
  File (Z.lor F_PERM F_NORD) None None None None None __stdout_write_fn
    (replicate (Z.to_nat (UNGET + BUFSIZ)) 0) BUFSIZ 1 0 10.
Definition stderr : FILE :=
  File (Z.lor F_PERM F_NORD) None None None None None __stdio_write_fn
    (replicate (Z.to_nat UNGET) 0) 0 2 0 (-1).
