(* ===== verification/StdioBuffer.v ===== *)
(** The ground of the proofs about streams: what WASI documents of a regular
    file, and the buffer of a [FILE] as lists of bytes. *)

From S2P Require Import Prelude Syscalls Stdio.

(** * Files

    What WASI documents of a regular file that only this program uses: a read
    gives bytes from the current position, none only at the end of the file; a
    write stores a prefix of the bytes at the position, or in append mode at the end
    of the file, none only when there are none; both move the position; a seek sets it.
    Any of them may fail, and then changes nothing.  [appends] is the append flag of the
    descriptor, which these calls leave alone. *)

Definition splice (c : list Z) (p : Z) (b : list Z) : list Z :=
  match b with
  | [] => c
  | _ => take (Z.to_nat p) c ++ replicate (Z.to_nat p - length c) 0 ++ b ++ drop (Z.to_nat p + length b) c
  end.

Definition seek_base (whence p n : Z) : Z :=
  if whence =? SEEK_SET then 0 else if whence =? SEEK_CUR then p else n.

Definition zsum (l : list Z) : Z := fold_right Z.add 0 l.

Class RegularFile {S : Type} (host : forall X, wasi X -> S -> res X * S) (fdn : Z)
    (contents : S -> list Z) (pos : S -> Z) (appends : S -> bool) : Prop := {
  rf_pos s : 0 <= pos s;
  rf_read lens s r s' : 0 <= zsum lens -> host _ (fd_read fdn lens) s = (r, s') ->
    contents s' = contents s /\ appends s' = appends s /\
    match r with
    | Err _ => pos s' = pos s
    | Val data =>
        data = take (length data) (drop (Z.to_nat (pos s)) (contents s)) /\
        zlen data <= zsum lens /\
        (data = [] -> zsum lens = 0 \/ zlen (contents s) <= pos s) /\
        pos s' = pos s + zlen data
    end;
  rf_write bufs s r s' : host _ (fd_write fdn bufs) s = (r, s') ->
    appends s' = appends s /\
    match r with
    | Err _ => contents s' = contents s /\ pos s' = pos s
    | Val n =>
        let p := if appends s then zlen (contents s) else pos s in
        0 <= n <= zlen (concat bufs) /\ (n = 0 -> concat bufs = []) /\
        contents s' = splice (contents s) p (take (Z.to_nat n) (concat bufs)) /\
        pos s' = if n =? 0 then pos s else p + n
    end;
  rf_seek off whence s r s' : host _ (fd_seek fdn off whence) s = (r, s') ->
    contents s' = contents s /\ appends s' = appends s /\
    match r with
    | Err _ => pos s' = pos s
    | Val n => n = seek_base whence (pos s) (zlen (contents s)) + off /\ pos s' = n /\ n < 2 ^ 63
    end;
  rf_stat s r s' : host _ (fd_fdstat_get fdn) s = (r, s') ->
    contents s' = contents s /\ pos s' = pos s /\ appends s' = appends s;
}.

(** * The buffer *)

Definition slice (l : list Z) (a b : Z) : list Z := take (Z.to_nat (b - a)) (drop (Z.to_nat a) l).

(** The bytes read ahead and not yet delivered. *)
Definition buffered (f : FILE) : list Z :=
  match rpos f, rend f with
  | Some p, Some e => slice (mem f) (UNGET + p) (UNGET + e)
  | _, _ => []
  end.

(** The bytes accepted and not yet written. *)
Definition pend (f : FILE) : list Z :=
  match wbase f, wpos f with
  | Some b, Some p => slice (mem f) (UNGET + b) (UNGET + p)
  | _, _ => []
  end.

Definition sized (f : FILE) : Prop := UNGET + buf_size f <= zlen (mem f) /\ 0 <= buf_size f < 2 ^ 30.

(** A stream that is not writing: the pointers are null, or delimit the bytes
    read ahead. *)
Definition not_writing (f : FILE) : Prop :=
  sized f /\ wpos f = None /\ wbase f = None /\ wend f = None /\
  match rpos f, rend f with
  | None, None => True
  | Some p, Some e => - UNGET <= p <= e /\ e <= buf_size f
  | _, _ => False
  end.

Definition writing (f : FILE) : Prop :=
  sized f /\ rpos f = None /\ rend f = None /\
  wbase f = Some 0 /\ wend f = Some (buf_size f) /\
  exists p, wpos f = Some p /\ 0 <= p <= buf_size f.

Lemma zlen_slice l a b : 0 <= a <= b -> b <= zlen l -> zlen (slice l a b) = b - a.
Proof. unfold zlen, slice. intros. rewrite length_take, length_drop. lia. Qed.

Lemma slice_nil l a : slice l a a = [].
Proof. unfold slice. by rewrite Z.sub_diag. Qed.

Lemma slice_split l a b c : 0 <= a <= b -> b <= c -> slice l a c = slice l a b ++ slice l b c.
Proof.
  intros Hab Hbc. unfold slice.
  replace (Z.to_nat (c - a)) with (Z.to_nat (b - a) + Z.to_nat (c - b))%nat by lia.
  rewrite <- take_take_drop. f_equal. rewrite drop_drop. do 2 f_equal. lia.
Qed.

Lemma fetch_slice f o n : 0 <= UNGET + o -> 0 <= n -> UNGET + o + n <= zlen (mem f) ->
  fetch f o n = Ok (slice (mem f) (UNGET + o) (UNGET + o + n)).
Proof.
  intros H1 H2 H3. unfold fetch, slice. decide_cmp. cbn [andb].
  by replace (UNGET + o + n - (UNGET + o)) with n by lia.
Qed.

(** Storing changes the stored bytes only. *)
Definition stored (m : list Z) (a : Z) (b : list Z) : list Z :=
  take (Z.to_nat a) m ++ b ++ drop (Z.to_nat (a + zlen b)) m.

Lemma blit_stored f o b : 0 <= UNGET + o -> UNGET + o + zlen b <= zlen (mem f) ->
  blit f o b = Ok (with_mem (stored (mem f) (UNGET + o) b) f).
Proof. intros H1 H2. unfold blit. decide_cmp. done. Qed.

Lemma zlen_stored m a b : 0 <= a -> a + zlen b <= zlen m -> zlen (stored m a b) = zlen m.
Proof.
  intros H1 H2. unfold stored. rewrite !zlen_app. unfold zlen in *. rewrite length_take, length_drop. lia.
Qed.

Lemma slice_stored m a b : 0 <= a -> a + zlen b <= zlen m -> slice (stored m a b) a (a + zlen b) = b.
Proof.
  intros H1 H2. unfold slice, stored, zlen in *.
  rewrite drop_app_length' by (rewrite length_take; lia).
  rewrite take_app_length' by lia. done.
Qed.

Lemma slice_stored_before m a b x y : 0 <= x <= y -> y <= a -> a + zlen b <= zlen m ->
  slice (stored m a b) x y = slice m x y.
Proof.
  intros H1 H2 H3. unfold slice, stored, zlen in *.
  rewrite drop_app_le by (rewrite length_take; lia).
  rewrite take_app_le by (rewrite length_drop, length_take; lia).
  rewrite skipn_firstn_comm, take_take. f_equal. lia.
Qed.

Lemma slice_stored_after m a b x y : 0 <= a -> a + zlen b <= x -> x <= y -> a + zlen b <= zlen m ->
  slice (stored m a b) x y = slice m x y.
Proof.
  intros H1 H2 H3 H4. unfold slice, stored. f_equal. unfold zlen in *.
  rewrite drop_app_ge by (rewrite length_take; lia). rewrite length_take.
  rewrite drop_app_ge by lia. rewrite drop_drop. f_equal. lia.
Qed.

Section Spec.
Context {S : Type} (host : forall X, wasi X -> S -> res X * S).
Context (contents : S -> list Z) (pos : S -> Z).
Implicit Types (f : FILE) (s : S).
Notation io := (M (FILE * S)).

Lemma wp_get (Q : FILE -> FILE * S -> Prop) st : Q (fst st) st -> wp get_file Q st.
Proof. intros H. by exists (fst st), st. Qed.

Lemma wp_upd g (Q : unit -> FILE * S -> Prop) st : Q tt (g (fst st), snd st) -> wp (upd g) Q st.
Proof. intros H. by exists tt, (g (fst st), snd st). Qed.

Lemma wp_try_upd g f' (Q : unit -> FILE * S -> Prop) st :
  g (fst st) = Ok f' -> Q tt (f', snd st) -> wp (try_upd g) Q st.
Proof. intros E H. exists tt, (f', snd st). unfold try_upd. by rewrite E. Qed.

Lemma wp_sys {A} (p : prog A) a s' (Q : A -> FILE * S -> Prop) f s :
  run host p s = (a, s') -> Q a (f, s') -> wp (sys host p) Q (f, s).
Proof. intros E H. exists a, (f, s'). unfold sys. cbn [snd fst]. by rewrite E. Qed.

Lemma wp_ptr p x (Q : Z -> FILE * S -> Prop) st : p = Some x -> Q x st -> wp (ptr p) Q st.
Proof. intros -> H. by apply (wp_lift _ x). Qed.
End Spec.

(** Run the next primitive of the program. *)
Ltac wp_step :=
  lazymatch goal with
  | |- wp (sbind _ _) _ _ => apply wp_bind
  | |- wp (sret _) _ _ => apply wp_ret
  | |- wp get_file _ _ => apply wp_get; cbn [fst snd]
  | |- wp (upd _) _ _ => apply wp_upd; cbn [fst snd]
  end.
Ltac wp_steps := repeat (wp_step; cbv beta iota zeta).

(** * Flags *)

Lemma flag_EOF f : has_flag F_EOF f = Z.testbit (flags f) 4.
Proof. by apply (land_right _ 4). Qed.
Lemma flag_ERR f : has_flag F_ERR f = Z.testbit (flags f) 5.
Proof. by apply (land_right _ 5). Qed.
Lemma flag_NORD f : has_flag F_NORD f = Z.testbit (flags f) 2.
Proof. by apply (land_right _ 2). Qed.
Lemma flag_NOWR f : has_flag F_NOWR f = Z.testbit (flags f) 3.
Proof. by apply (land_right _ 3). Qed.
Lemma flag_APP f : has_flag F_APP f = Z.testbit (flags f) 7.
Proof. by apply (land_right _ 7). Qed.

Create Rewrite HintDb flags.
#[export] Hint Rewrite flag_EOF flag_ERR flag_NORD flag_NOWR flag_APP Z.lor_spec Z.land_spec : flags.

(** Read the flags of a stream bit by bit. *)
Ltac flag_simp :=
  autorewrite with flags in *;
  cbn [flags with_flags with_rd with_wr with_mem with_mode with_write or_flag clear_flag byte_mode] in *;
  autorewrite with flags in *;
  repeat match goal with
    | |- context [Z.testbit (Z.lnot ?b) ?n] =>
        change (Z.testbit (Z.lnot b) n) with (negb (Z.testbit b n)) || rewrite (Z.lnot_spec b n) by lia
    | H : context [Z.testbit (Z.lnot ?b) ?n] |- _ => rewrite (Z.lnot_spec b n) in H by lia
    end;
  repeat match goal with
    | |- context [Z.testbit ?b (Zpos ?n)] =>
        let v := eval vm_compute in (Z.testbit b (Zpos n)) in
        match v with true => idtac | false => idtac end; change (Z.testbit b (Zpos n)) with v
    | H : context [Z.testbit ?b (Zpos ?n)] |- _ =>
        let v := eval vm_compute in (Z.testbit b (Zpos n)) in
        match v with true => idtac | false => idtac end; change (Z.testbit b (Zpos n)) with v in H
    end;
  cbn [negb] in *;
  rewrite ?orb_false_r, ?orb_true_r, ?andb_false_r, ?andb_true_r in *.

