(* ===== verification/StdioRead.v ===== *)
(** The reading functions of a stream deliver the bytes of the file, whatever
    the buffer and the sizes of the host's reads. *)

From S2P Require Import Prelude Syscalls Stdio StdioBuffer.

(** * Reading *)

Section Reading.
Context {S : Type} (host : forall X, wasi X -> S -> res X * S).
Context (fdn : Z) (contents : S -> list Z) (pos : S -> Z) (appends : S -> bool).
Context {Hrf : RegularFile host fdn contents pos appends}.
Implicit Types (f : FILE) (s : S).

(** The bytes of the file from its position on, and the bytes the stream will
    deliver. *)
Definition rest (s : S) : list Z := drop (Z.to_nat (pos s)) (contents s).
Definition ahead (f : FILE) (s : S) : list Z := buffered f ++ rest s.

(** A stream open for reading that has nothing left to write. *)
Definition rinv (f : FILE) (s : S) : Prop :=
  not_writing f /\ has_flag F_NORD f = false /\ fd f = fdn /\
  (has_flag F_EOF f = true -> rest s = []) /\ Forall (in_u 8) (ahead f s).

Lemma buffered_nil f : rpos f = rend f -> buffered f = [].
Proof.
  unfold buffered. intros ->. destruct (rend f) as [e|]; [|done]. apply slice_nil.
Qed.

(** What [readv] or [read] gives. *)
Lemma run_read (c : bool) fd0 iov0 bs s :
  run host (if c then readv fd0 [iov0; bs] 2 else read fd0 bs) s =
  let (r, s') := host _ (fd_read fd0 (if c then [iov0; bs] else [bs])) s in
  (match r with
   | Val data => Val (s32 (zlen data), data)
   | Err e => Err (if c then e else notcapable EBADF e)
   end, s').
Proof. destruct c; simpl; by destruct (host _ _ s) as [[data|e] s']. Qed.

Lemma wp_next_byte f s p c (Q : Z -> FILE * S -> Prop) :
  rpos f = Some p -> 0 <= UNGET + p -> mem f !! Z.to_nat (UNGET + p) = Some c ->
  Q c (with_rd (Some (p + 1)) (rend f) f, s) -> wp next_byte Q (f, s).
Proof.
  intros Hp H0 Hc HQ. unfold next_byte. wp_steps. eapply wp_ptr; [done|]. wp_steps.
  pose proof (lookup_lt_Some _ _ _ Hc) as Hl.
  eapply wp_lift; [apply fetch_slice; unfold zlen; lia|]. wp_steps.
  assert (slice (mem f) (UNGET + p) (UNGET + p + 1) = [c]) as ->.
  { unfold slice. replace (Z.to_nat (UNGET + p + 1 - (UNGET + p))) with 1%nat by lia.
    rewrite <- (take_drop_middle (mem f) _ _ Hc). rewrite drop_app_length' by (rewrite length_take; lia). done. }
  by eapply wp_lift.
Qed.

(** The bytes read ahead, as a list. *)
Lemma buffered_cons f p e : not_writing f -> rpos f = Some p -> rend f = Some e -> p < e ->
  exists c, mem f !! Z.to_nat (UNGET + p) = Some c /\ 0 <= UNGET + p /\
    buffered f = c :: buffered (with_rd (Some (p + 1)) (Some e) f).
Proof.
  intros (Hs & _ & _ & _ & Hr) Hp He Hlt. rewrite Hp, He in Hr. destruct Hs as [Hs1 Hs2].
  unfold UNGET, zlen in *.
  destruct (lookup_lt_is_Some_2 (mem f) (Z.to_nat (8 + p))) as [c Hc]; [lia|].
  exists c. split_and!; [done|lia|]. unfold buffered. cbn [rpos rend with_rd mem]. rewrite Hp, He.
  rewrite (slice_split _ _ (8 + (p + 1))) by (unfold UNGET; lia).
  replace (slice (mem f) (UNGET + p) (8 + (p + 1))) with [c]; [done|].
  unfold slice, UNGET. replace (Z.to_nat (8 + (p + 1) - (8 + p))) with 1%nat by lia.
  rewrite <- (take_drop_middle (mem f) _ _ Hc). rewrite drop_app_length' by (rewrite length_take; lia). done.
Qed.

(** [k] of at most [len] bytes were delivered; none when the end was reached or
    an error occurred, which the flags tell. *)
Definition delivered (len : Z) (f : FILE) (s : S) (kb : Z * list Z) (st' : FILE * S) : Prop :=
  let '(k, b) := kb in let '(f', s') := st' in
  rinv f' s' /\ zlen b = k /\ 0 <= k <= len /\ ahead f s = b ++ ahead f' s' /\
  contents s' = contents s /\ (k < len -> rpos f' = rend f') /\
  (k = 0 -> has_flag F_ERR f' = true \/ has_flag F_EOF f' = true /\ ahead f' s' = []).

(** The bytes of a successful read. *)
Lemma rest_read s s' data :
  data = take (length data) (rest s) -> contents s' = contents s -> pos s' = pos s + zlen data ->
  rest s = data ++ rest s'.
Proof.
  intros Hd Hc Hp. pose proof (rf_pos s : 0 <= pos s). unfold rest. rewrite Hc, Hp.
  rewrite Z2Nat.inj_add by (done || apply zlen_nonneg). unfold zlen. rewrite Nat2Z.id.
  rewrite <- drop_drop. rewrite Hd at 1. by rewrite take_drop.
Qed.

Lemma stored_nil m a : 0 <= a -> stored m a [] = m.
Proof. intros Ha. unfold stored. rewrite Z.add_0_r. cbn [app]. apply take_drop. Qed.

Lemma blit_nil f o : 0 <= UNGET + o -> UNGET + o <= zlen (mem f) -> blit f o [] = Ok f.
Proof.
  intros H1 H2. rewrite blit_stored by (unfold zlen in *; simpl length; lia). rewrite stored_nil by done. by destruct f.
Qed.

(** The outcome of the host's read, when [iov0] bytes go to the caller and the
    others to the buffer. *)
Lemma read_call fd0 iov0 bs s : fd0 = fdn -> 0 <= iov0 -> 0 <= bs -> 1 <= iov0 + bs < 2 ^ 31 ->
  exists r s', run host (if ctrue iov0 then readv fd0 [iov0; bs] 2 else read fd0 bs) s = (r, s') /\
    contents s' = contents s /\
    match r with
    | Err _ => rest s' = rest s
    | Val (n, data) =>
        n = zlen data /\ n <= iov0 + bs /\ rest s = data ++ rest s' /\ (data = [] -> rest s = [])
    end.
Proof.
  intros -> H0 H1 Hsum. rewrite run_read.
  assert (zsum (if ctrue iov0 then [iov0; bs] else [bs]) = iov0 + bs) as Es.
  { unfold ctrue. destruct (Z.eqb_spec iov0 0); cbn [negb zsum fold_right]; lia. }
  destruct (host _ _ s) as [r s'] eqn:Eh. apply rf_read in Eh as (Hc & _ & Hd); [|lia].
  rewrite Es in Hd. eexists _, s'. split; [reflexivity|]. split; [done|].
  destruct r as [data|e]; [|unfold rest; by rewrite Hc, Hd].
  destruct Hd as (Hd1 & Hd2 & Hd3 & Hd4). pose proof (zlen_nonneg data).
  rewrite s32_id by (bounds; lia). split_and!; [done|done|by apply rest_read|].
  intros ->. unfold rest. destruct (Hd3 eq_refl) as [|Hz]; [lia|]. apply drop_ge. unfold zlen in Hz. lia.
Qed.

(** No bytes came. *)
Lemma delivered_none f s s' len b : rinv f s -> rpos f = rend f -> 0 <= len ->
  contents s' = contents s -> rest s' = rest s -> b = F_ERR \/ b = F_EOF /\ rest s = [] ->
  delivered len f s (0, []) (or_flag b f, s').
Proof.
  intros (Hnw & Hnord & Hfd & Heof & Hby) Hre Hlen Hc Hr Hb.
  assert (ahead (or_flag b f) s' = ahead f s) as Ea by (unfold ahead; by rewrite Hr).
  split_and!; try done.
  - split_and!; try done.
    + destruct Hb as [-> |[-> _]]; flag_simp; done.
    + intros He. rewrite Hr. destruct Hb as [-> |[-> E]]; [|done]. flag_simp. auto.
    + by rewrite Ea.
  - intros _. destruct Hb as [-> |[-> E]]; [left; by flag_simp|right].
    split; [by flag_simp|]. rewrite Ea. unfold ahead. by rewrite (buffered_nil f Hre), E.
Qed.

Lemma rinv_step f f' s s' :
  rinv f s -> not_writing f' -> fd f' = fd f -> flags f' = flags f ->
  (exists b, ahead f s = b ++ ahead f' s') -> (rest s = [] -> rest s' = []) -> rinv f' s'.
Proof.
  intros (Hnw & Hnord & Hfd & Heof & Hby) Hnw' Hfd' Hfl [b Hb] Hr. split_and!.
  - done.
  - unfold has_flag in *. by rewrite Hfl.
  - by rewrite Hfd'.
  - unfold has_flag in *. rewrite Hfl. auto.
  - rewrite Hb in Hby. by apply Forall_app in Hby as [_ ?].
Qed.

(** The buffer after the host stored [b] into it. *)
Lemma filled f b p e : sized f -> wpos f = None -> wbase f = None -> wend f = None ->
  zlen b <= buf_size f -> 0 <= p <= e -> e = zlen b ->
  let f' := with_rd (Some p) (Some e) (with_mem (stored (mem f) UNGET b) f) in
  not_writing f' /\ buffered f' = drop (Z.to_nat p) b.
Proof.
  intros [Hs1 Hs2] Hw1 Hw2 Hw3 Hb Hp -> f'. pose proof (zlen_nonneg b). split.
  - unfold not_writing, sized. cbn [mem buf_size with_rd with_mem rpos rend wpos wbase wend f'].
    rewrite zlen_stored by (unfold UNGET in *; lia). split_and!; try done; unfold UNGET in *; lia.
  - unfold buffered, f'. cbn [mem rpos rend with_rd with_mem].
    transitivity (slice (slice (stored (mem f) UNGET b) UNGET (UNGET + zlen b)) p (zlen b)).
    + unfold slice. rewrite skipn_firstn_comm, take_take, drop_drop. unfold UNGET. f_equal; [lia|f_equal; lia].
    + rewrite slice_stored by (unfold UNGET in *; lia). unfold slice. apply take_ge.
      unfold zlen. rewrite length_drop. lia.
Qed.

Lemma wp_stdio_read f s len : rinv f s -> rpos f = rend f -> 1 <= len < 2 ^ 30 ->
  wp (__stdio_read host len) (delivered len f s) (f, s).
Proof.
  intros Hinv Hre Hlen. pose proof Hinv as (Hnw & _ & Hfd & _ & _).
  pose proof Hnw as (Hsz & Hw1 & Hw2 & Hw3 & _). pose proof Hsz as [Hs1 Hs2].
  unfold __stdio_read. wp_steps. set (b1 := cbool (ctrue (buf_size f))).
  assert (b1 = 0 /\ buf_size f = 0 \/ b1 = 1 /\ 1 <= buf_size f) as Hb1.
  { subst b1. unfold cbool, ctrue. destruct (Z.eqb_spec (buf_size f) 0); cbn [negb]; lia. }
  rewrite u32_id by (unfold in_u; lia). set (iov0 := len - b1).
  destruct (read_call (fd f) iov0 (buf_size f) s) as (r & s' & Hrun & Hc & Hr); [done|lia..|].
  eapply wp_sys; [exact Hrun|].
  destruct r as [[n data]|e]; cbv beta iota zeta.
  2:{ wp_steps. eapply wp_lift; [rewrite drop_nil; by rewrite (proj2 (Z.leb_le _ _)) by (unfold zlen; simpl; lia)|].
      wp_steps. rewrite drop_nil, take_nil. eapply wp_try_upd; cbn [fst snd]; [apply blit_nil; unfold UNGET in *; lia|].
      change (-1 <=? 0) with true. change (ctrue (-1)) with true. cbv iota. wp_steps.
      apply delivered_none; try done; [lia|by left]. }
  destruct Hr as (-> & Hn & Hrest & Hnil). set (dir := take (Z.to_nat iov0) data).
  set (rst := drop (Z.to_nat iov0) data).
  assert (zlen rst = Z.max 0 (zlen data - iov0)) as Hzr.
  { subst rst. unfold zlen. rewrite length_drop. lia. }
  wp_steps. eapply wp_lift; [by rewrite (proj2 (Z.leb_le _ _)) by lia|]. wp_steps.
  eapply wp_try_upd; cbn [fst snd]; [apply blit_stored; unfold UNGET in *; lia|]. cbn [fst snd].
  rewrite Z.add_0_r. pose proof (zlen_nonneg data).
  assert (ahead f s = data ++ rest s') as Ea by (unfold ahead; by rewrite (buffered_nil f Hre)).
  destruct (Z.leb_spec (zlen data) 0) as [Hz|Hz].
  { assert (data = []) as -> by (destruct data; [done|rewrite zlen_cons in Hz; pose proof (zlen_nonneg data); lia]).
    subst dir rst. rewrite drop_nil, take_nil, stored_nil by done. cbv beta iota. wp_steps.
    replace (with_mem (mem f) f) with f by (by destruct f).
    apply delivered_none; try done; [lia|]. right. auto. }
  destruct (Z.leb_spec (zlen data) iov0) as [Hle|Hgt].
  { assert (rst = []) as -> by (subst rst; apply drop_ge; unfold zlen in Hle; lia).
    assert (dir = data) as -> by (subst dir; apply take_ge; unfold zlen in Hle; lia).
    rewrite stored_nil by done. replace (with_mem (mem f) f) with f by (by destruct f). wp_steps.
    assert (ahead f s' = rest s') as Ea' by (unfold ahead; by rewrite (buffered_nil f Hre)).
    split_and!; try done; [|lia|by rewrite Ea'|lia].
    eapply rinv_step; [exact Hinv|done|done|done|exists data; by rewrite Ea'|].
    intros Hn0. rewrite Hrest in Hn0. by apply app_eq_nil in Hn0 as [_ ?]. }
  wp_steps.
  destruct (filled f rst 0 (zlen data - iov0)) as [Hnw1 Hbuf1]; try done; [lia..|].
  set (f1 := with_rd (Some 0) (Some (zlen data - iov0)) (with_mem (stored (mem f) UNGET rst) f)) in *.
  destruct (buffered_cons f1 0 (zlen data - iov0)) as (c & Hc1 & _ & Hcons); [done|done|done|lia|].
  destruct (filled f rst 1 (zlen data - iov0)) as [Hnw2 Hbuf2]; try done; [lia..|].
  unfold ctrue. rewrite (proj2 (Z.eqb_neq _ _)) by lia. cbn [negb]. wp_steps.
  eapply (wp_next_byte f1 s' 0 c); [done|done|done|]. wp_steps.
  change (with_rd (Some (0 + 1)) (rend f1) f1) with
    (with_rd (Some 1) (Some (zlen data - iov0)) (with_mem (stored (mem f) UNGET rst) f)).
  set (f2 := with_rd (Some 1) (Some (zlen data - iov0)) (with_mem (stored (mem f) UNGET rst) f)) in *.
  assert (ahead f s = (dir ++ [c]) ++ ahead f2 s') as Ea2.
  { rewrite Ea. unfold ahead. rewrite Hbuf2. rewrite Hbuf1 in Hcons. change (drop (Z.to_nat 0) rst) with rst in Hcons.
    change (buffered (with_rd (Some (0 + 1)) (Some (zlen data - iov0)) f1)) with (buffered f2) in Hcons.
    rewrite Hbuf2 in Hcons. rewrite <- !app_assoc. cbn [app]. rewrite app_comm_cons, <- Hcons.
    rewrite app_assoc. subst dir rst. by rewrite take_drop. }
  split_and!; try done.
  - eapply rinv_step; [exact Hinv|done|done|done|by exists (dir ++ [c])|].
    intros Hn0. rewrite Hrest in Hn0. by apply app_eq_nil in Hn0 as [_ ?].
  - rewrite zlen_app. subst dir. unfold zlen in *. rewrite length_take. simpl. lia.
  - lia.
  - lia.
  - lia.
Qed.

(** The flags tell why no byte came. *)
Definition told (f : FILE) (s : S) : Prop :=
  has_flag F_ERR f = true \/ has_flag F_EOF f = true /\ ahead f s = [].

Lemma rinv_byte_mode f s : rinv f s -> rinv (byte_mode f) s.
Proof. done. Qed.

Lemma wp_toread f s (Q : Z -> FILE * S -> Prop) : rinv f s -> rpos f = rend f ->
  (forall f', rinv f' s -> rpos f' = rend f' -> rpos f' = Some (buf_size f) -> ahead f' s = ahead f s ->
     flags f' = flags f -> buf_size f' = buf_size f ->
     Q (if has_flag F_EOF f then EOF else 0) (f', s)) ->
  wp (__toread host) Q (f, s).
Proof.
  intros Hinv Hre HQ. pose proof Hinv as (Hnw & Hnord & Hfd & Heof & Hby).
  pose proof Hnw as ([Hs1 Hs2] & Hw1 & Hw2 & Hw3 & _).
  unfold __toread. wp_steps. cbn [wpos wbase byte_mode with_mode]. rewrite Hw1, Hw2.
  rewrite decide_True by done. wp_steps.
  change (has_flag F_NORD (with_wr None None None (byte_mode f))) with (has_flag F_NORD f).
  rewrite Hnord. wp_steps.
  change (has_flag F_EOF (with_wr None None None (byte_mode f))) with (has_flag F_EOF f).
  cbn [buf_size with_wr byte_mode with_mode].
  set (f' := with_rd (Some (buf_size f)) (Some (buf_size f)) (with_wr None None None (byte_mode f))).
  assert (ahead f' s = ahead f s) as Ea.
  { unfold ahead. by rewrite !buffered_nil. }
  apply HQ; try done. eapply rinv_step; [exact Hinv| |done|done|by exists []|done].
  split_and!; try done; cbn; unfold UNGET; lia.
Qed.

(** A character, or [EOF] with the reason in the flags. *)
Definition got_char (f : FILE) (s : S) (c : Z) (st' : FILE * S) : Prop :=
  let '(f', s') := st' in
  rinv f' s' /\ contents s' = contents s /\
  (in_u 8 c /\ ahead f s = c :: ahead f' s' \/
   c = EOF /\ ahead f' s' = ahead f s /\ rpos f' = rend f' /\ told f' s').

Lemma rinv_head f s c l : rinv f s -> ahead f s = c :: l -> in_u 8 c.
Proof. intros (_ & _ & _ & _ & Hby) E. rewrite E in Hby. by apply Forall_cons in Hby as [? _]. Qed.

Lemma wp_uflow f s : rinv f s -> rpos f = rend f -> wp (__uflow host) (got_char f s) (f, s).
Proof.
  intros Hinv Hre. unfold __uflow. wp_steps. apply wp_toread; [done|done|].
  intros f1 Hinv1 Hre1 _ Ha1 Hfl1 _. destruct (has_flag F_EOF f) eqn:He.
  { change (ctrue EOF) with true. cbn [negb]. wp_steps. split_and!; try done. right.
    split_and!; try done. right. unfold has_flag in *. rewrite Hfl1. split; [done|].
    rewrite Ha1. unfold ahead. rewrite (buffered_nil f Hre). by apply Hinv. }
  change (ctrue 0) with false. cbn [negb]. wp_steps.
  eapply wp_mono; [apply wp_stdio_read; [done|done|lia]|].
  intros [k b] [f2 s2] (Hinv2 & Hk & Hlen & Ha2 & Hc2 & Hshort & Hz). cbv beta iota.
  destruct (Z.eqb_spec k 1) as [-> |Hne].
  - destruct b as [|c [|c' b]]; [done| |rewrite !zlen_cons in Hk; pose proof (zlen_nonneg b); lia].
    eapply wp_lift; [reflexivity|]. split_and!; try done. left.
    rewrite <- Ha1. split; [|done]. by eapply (rinv_head f1).
  - assert (k = 0) as -> by lia. assert (b = []) as -> by (destruct b; [done|rewrite zlen_cons in Hk; pose proof (zlen_nonneg b); lia]).
    wp_steps. split_and!; try done. right. rewrite <- Ha1, Ha2. split_and!; try done; [by apply Hshort|by apply Hz].
Qed.

(** The next byte of a stream that has read ahead. *)
Lemma wp_next f s (Q : Z -> FILE * S -> Prop) : rinv f s -> rpos f <> rend f ->
  (forall c f', in_u 8 c -> rinv f' s -> buffered f = c :: buffered f' -> rend f' = rend f ->
     Q c (f', s)) ->
  wp next_byte Q (f, s).
Proof.
  intros Hinv Hne HQ. pose proof Hinv as (Hnw & _). pose proof Hnw as (Hsz & Hw1 & Hw2 & Hw3 & Hr).
  destruct (rpos f) as [p|] eqn:Ep, (rend f) as [e|] eqn:Ee; try done.
  assert (p < e) as Hlt by (destruct (decide (p = e)); [congruence|lia]).
  destruct (buffered_cons f p e) as (c & Hc & H0 & Hb); [done..|].
  eapply wp_next_byte; [done|done|done|]. rewrite Ee.
  set (f' := with_rd (Some (p + 1)) (Some e) f) in *.
  assert (ahead f s = [c] ++ ahead f' s) as Ea by (unfold ahead; by rewrite Hb).
  apply HQ; try done.
  - by eapply (rinv_head f s).
  - eapply rinv_step; [exact Hinv| |done|done|by exists [c]|done]. split_and!; try done; cbn; lia.
Qed.

Lemma wp_getc f s : rinv f s -> wp (getc_unlocked host) (got_char f s) (f, s).
Proof.
  intros Hinv. unfold getc_unlocked. wp_steps. destruct (decide (rpos f = rend f)).
  - by apply wp_uflow.
  - apply wp_next; [done|done|]. intros c f' Hc Hinv' Hb _. split_and!; try done. left.
    split; [done|]. unfold ahead. by rewrite Hb.
Qed.

Lemma wp_take_buffer f s k (Q : list Z -> FILE * S -> Prop) :
  rinv f s -> rpos f <> rend f -> 0 <= k <= zlen (buffered f) ->
  (forall f', rinv f' s -> buffered f' = drop (Z.to_nat k) (buffered f) -> flags f' = flags f ->
     (k = zlen (buffered f) -> rpos f' = rend f') ->
     Q (take (Z.to_nat k) (buffered f)) (f', s)) ->
  wp (take_buffer k) Q (f, s).
Proof.
  intros Hinv Hne Hk HQ. pose proof Hinv as (Hnw & _). pose proof Hnw as ([Hs1 Hs2] & Hw1 & Hw2 & Hw3 & Hr).
  unfold take_buffer. wp_steps. unfold buffered in Hk, HQ |- *.
  destruct (rpos f) as [p|] eqn:Ep, (rend f) as [e|] eqn:Ee; try done.
  rewrite zlen_slice in Hk by (unfold UNGET in *; lia).
  eapply wp_ptr; [done|]. wp_steps.
  eapply wp_lift; [apply fetch_slice; unfold UNGET in *; lia|]. wp_steps.
  assert (slice (mem f) (UNGET + p) (UNGET + p + k) =
    take (Z.to_nat k) (slice (mem f) (UNGET + p) (UNGET + e))) as ->.
  { unfold slice. rewrite take_take. f_equal. lia. }
  set (f' := with_rd (Some (p + k)) (Some e) f).
  assert (buffered f' = drop (Z.to_nat k) (slice (mem f) (UNGET + p) (UNGET + e))) as Hb.
  { unfold buffered, f'. cbn [rpos rend with_rd mem]. unfold slice.
    rewrite skipn_firstn_comm, drop_drop. f_equal; [lia|f_equal; unfold UNGET in *; lia]. }
  apply HQ; try done.
  - eapply rinv_step; [exact Hinv|split_and!; try done; cbn; lia|done|done| |done].
    exists (take (Z.to_nat k) (buffered f)). unfold ahead. rewrite app_assoc. f_equal.
    rewrite Hb. unfold buffered. rewrite Ep, Ee. by rewrite take_drop.
  - intros ->. cbn. do 2 f_equal. rewrite zlen_slice by (unfold UNGET in *; lia). lia.
Qed.

Lemma zlen_0 {A} (l : list A) : zlen l = 0 -> l = [].
Proof. destruct l; [done|]. rewrite zlen_cons. pose proof (zlen_nonneg l). lia. Qed.

(** The bytes the loop of [fread] appends. *)
Lemma wp_fread_loop fuel : forall f s l dest,
  rinv f s -> l = 0 \/ rpos f = rend f -> 0 <= l < 2 ^ 30 -> l < Z.of_nat fuel ->
  wp (fread_loop host fuel l dest) (fun r st' =>
    let '(l', dest') := r in let '(f', s') := st' in
    rinv f' s' /\ contents s' = contents s /\ 0 <= l' <= l /\
    (exists b, dest' = dest ++ b /\ zlen b = l - l' /\ ahead f s = b ++ ahead f' s') /\
    (l' <> 0 -> told f' s')) (f, s).
Proof.
  induction fuel as [|fuel IH]; intros f s l dest Hinv Hre Hl Hf; [lia|]. cbn [fread_loop].
  destruct (Z.eqb_spec l 0) as [-> |Hl0].
  { wp_steps. split_and!; try done. exists []. by rewrite app_nil_r. }
  destruct Hre as [?|Hre]; [lia|]. wp_steps. apply wp_toread; [done|done|].
  intros f1 Hinv1 Hre1 _ Ha1 Hfl1 _. apply wp_bind.
  destruct (has_flag F_EOF f) eqn:He.
  { change (ctrue EOF) with true. cbv iota. wp_steps. cbn [Z.eqb]. wp_steps. split_and!; try done; [lia| |].
    - exists []. rewrite app_nil_r. split_and!; [done|unfold zlen; simpl; lia|done].
    - intros _. right. unfold has_flag in *. rewrite Hfl1. split; [done|].
      rewrite Ha1. unfold ahead. rewrite (buffered_nil f Hre). by apply Hinv. }
  change (ctrue 0) with false. cbv iota. eapply wp_mono; [apply wp_stdio_read; [done|done|lia]|].
  intros [k b] [f2 s2] (Hinv2 & Hk & Hlen & Ha2 & Hc2 & Hshort & Hz). cbv beta iota.
  destruct (Z.eqb_spec k 0) as [-> |Hk0].
  { apply zlen_0 in Hk as ->. wp_steps. split_and!; try done; [lia| |intros _; by apply Hz].
    exists []. rewrite app_nil_r. split_and!; [done|unfold zlen; simpl; lia|by rewrite <- Ha1]. }
  eapply wp_mono; [apply IH; [done| |lia|lia]|].
  { destruct (decide (k < l)); [right; auto|left; lia]. }
  intros [l' dest'] [f3 s3] (Hinv3 & Hc3 & Hl' & (b' & -> & Hb' & Ha3) & Ht). cbv beta iota.
  split_and!; try done; [congruence|lia|lia|]. exists (b ++ b'). split_and!.
  - by rewrite app_assoc.
  - rewrite zlen_app. lia.
  - rewrite <- app_assoc, <- Ha3, <- Ha1. done.
Qed.

Lemma wp_fread f s size nmemb : rinv f s -> 0 <= size -> 0 <= nmemb -> size * nmemb < 2 ^ 30 ->
  wp (fread host size nmemb) (fun r st' =>
    let '(n, b) := r in let '(f', s') := st' in
    rinv f' s' /\ contents s' = contents s /\ ahead f s = b ++ ahead f' s' /\
    zlen b <= size * nmemb /\ (zlen b < size * nmemb -> told f' s') /\
    n = if size =? 0 then 0 else zlen b / size) (f, s).
Proof.
  intros Hinv Hs Hn Hlen. unfold fread. rewrite u32_id by (unfold in_u; nia). wp_steps.
  set (len := size * nmemb) in *. cbn [rpos rend byte_mode with_mode].
  assert (forall b f1, rinv f1 s -> ahead f s = b ++ ahead f1 s -> zlen b <= len ->
    len = zlen b \/ rpos f1 = rend f1 ->
    wp (let* (l, dest) := fread_loop host (Z.to_nat len + 1) (len - zlen b) b in
        sret (if l =? 0 then if size =? 0 then 0 else nmemb else (len - l) / size, dest))
      (fun r st' => let '(n, b) := r in let '(f', s') := st' in
        rinv f' s' /\ contents s' = contents s /\ ahead f s = b ++ ahead f' s' /\
        zlen b <= len /\ (zlen b < len -> told f' s') /\
        n = if size =? 0 then 0 else zlen b / size) (f1, s)) as Hgo.
  { intros b f1 Hinv1 Ha Hb Hre. pose proof (zlen_nonneg b). wp_steps.
    eapply wp_mono; [apply wp_fread_loop; [done| |lia|lia]|].
    { destruct Hre; [left; lia|by right]. }
    intros [l dest] [f' s'] (Hinv' & Hc & Hl & (b' & -> & Hb' & Ha') & Ht). cbv beta iota. wp_steps.
    assert (zlen (b ++ b') = len - l) as El by (rewrite zlen_app; lia).
    split_and!; try done; [by rewrite <- app_assoc, <- Ha'|lia|intros ?; apply Ht; lia|].
    rewrite El. destruct (Z.eqb_spec size 0) as [E0|Ne]; destruct (Z.eqb_spec l 0) as [-> |]; try done.
    - assert (len = 0) by (subst len; nia). lia.
    - rewrite Z.sub_0_r. subst len. rewrite Z.mul_comm. by rewrite Z.div_mul. }
  destruct (decide (rpos f = rend f)) as [Hre|Hne].
  - apply wp_ret. apply (Hgo []); [done|done|change (zlen []) with 0; nia|by right].
  - pose proof (zlen_nonneg (buffered f)). assert (0 <= len) by (subst len; nia).
    assert (diff (rend f) (rpos f) = zlen (buffered f)) as Ed.
    { destruct Hinv as (([Hs1 Hs2] & _ & _ & _ & Hr) & _). unfold buffered, diff.
      destruct (rpos f), (rend f); try done. rewrite zlen_slice by (unfold UNGET in *; lia). lia. }
    apply wp_take_buffer; [done|done|change (buffered (byte_mode f)) with (buffered f); lia|].
    change (buffered (byte_mode f)) with (buffered f). rewrite Ed. intros f1 Hinv1 Hb1 _ Hfull.
    set (k := Z.min (zlen (buffered f)) len) in *.
    assert (zlen (take (Z.to_nat k) (buffered f)) = k) as Ek by (unfold zlen in *; rewrite length_take; lia).
    apply Hgo; [done| |lia|].
    + unfold ahead. rewrite Hb1, app_assoc, take_drop. done.
    + rewrite Ek. destruct (decide (len <= zlen (buffered f))); [left; lia|right; apply Hfull; lia].
Qed.

(** A line of at most [n] bytes. *)
Fixpoint line (n : nat) (a : list Z) : list Z :=
  match n, a with
  | Datatypes.S n', c :: a' => c :: (if c =? 10 then [] else line n' a')
  | _, _ => []
  end.

Lemma line_app b : forall n r, memchr b 10 = None -> (length b <= n)%nat ->
  line n (b ++ r) = b ++ line (n - length b) r.
Proof.
  induction b as [|c b IH]; intros n r Hm Hn; [by rewrite Nat.sub_0_r|].
  destruct n as [|n]; [simpl in Hn; lia|]. simpl in *. change (u8 10) with 10 in Hm.
  destruct (c =? 10); [done|]. f_equal. apply IH; [|lia]. by destruct (memchr b 10).
Qed.

Lemma line_take b : forall n r, memchr b 10 = None -> (n <= length b)%nat -> line n (b ++ r) = take n b.
Proof.
  induction b as [|c b IH]; intros n r Hm Hn; destruct n as [|n]; simpl in *; try done; [lia|].
  change (u8 10) with 10 in Hm. destruct (c =? 10); [done|]. f_equal. apply IH; [|lia]. by destruct (memchr b 10).
Qed.

Lemma line_found b : forall n r z, memchr b 10 = Some z ->
  0 <= z < zlen b /\ line n (b ++ r) = take (Nat.min (Z.to_nat z + 1) n) b.
Proof.
  induction b as [|c b IH]; intros n r z Hm; [done|]. simpl in Hm. change (u8 10) with 10 in Hm.
  rewrite zlen_cons. pose proof (zlen_nonneg b). destruct (Z.eqb_spec c 10) as [E|E].
  - injection Hm as <-. split; [lia|]. destruct n; simpl; [done|].
    by rewrite (proj2 (Z.eqb_eq c 10)).
  - destruct (memchr b 10) as [z'|] eqn:Em; [|done]. injection Hm as <-.
    destruct (IH (pred n) r z' eq_refl) as [Hz Hl]. split; [lia|].
    destruct n as [|n]; simpl; [by rewrite Nat.min_0_r|]. rewrite (proj2 (Z.eqb_neq c 10)) by done.
    simpl in Hl. rewrite Hl. replace (Z.to_nat (1 + z')) with (Datatypes.S (Z.to_nat z')) by lia. done.
Qed.

Lemma wp_unread f s (Q : list Z -> FILE * S -> Prop) : rinv f s -> rpos f <> rend f ->
  Q (buffered f) (f, s) -> wp unread Q (f, s).
Proof.
  intros (([Hs1 Hs2] & _ & _ & _ & Hr) & _) Hne HQ. unfold unread. wp_steps. unfold buffered in HQ.
  destruct (rpos f) as [p|] eqn:Ep, (rend f) as [e|] eqn:Ee; try done.
  eapply wp_ptr; [done|]. cbn [diff].
  eapply wp_lift; [apply fetch_slice; unfold UNGET in *; lia|].
  by replace (UNGET + p + (e - p)) with (UNGET + e) by lia.
Qed.

(** What [fgets] took off the stream: all of the line, unless the host
    failed. *)
Definition got_line (n : nat) (a p : list Z) (f : FILE) (s : S) (q : list Z) (ok : bool) : Prop :=
  a = q ++ ahead f s /\ q `prefix_of` line n a /\
  (if ok then q = line n a /\ (n <> 0%nat -> p ++ q <> [])
   else has_flag F_ERR f = true \/ p ++ q = [] /\ a = []).

(** The part of a turn that takes bytes from the buffer. *)
Lemma wp_fgets_buffer f s n p (Q : list Z * Z * bool -> FILE * S -> Prop) : rinv f s -> 1 <= n ->
  (forall f' q (stop : bool), rinv f' s -> ahead f s = q ++ ahead f' s ->
     (if stop then q = line (Z.to_nat n) (ahead f s) /\ q <> []
      else rpos f' = rend f' /\ zlen q < n /\ memchr q 10 = None) ->
     Q (p ++ q, n - zlen q, stop) (f', s)) ->
  wp (if decide (rpos f = rend f) then sret (p, n, false)
      else
        let* b := unread in
        let z := memchr b 10 in
        let k := match z with Some z => z + 1 | None => zlen b end in
        let k := Z.min k n in
        let* d := take_buffer k in
        sret (p ++ d, n - k, match z with Some _ => true | None => n - k =? 0 end)) Q (f, s).
Proof.
  intros Hinv Hn HQ. destruct (decide (rpos f = rend f)) as [Hre|Hne].
  { apply wp_ret. specialize (HQ f [] false). change (zlen []) with 0 in HQ.
    rewrite app_nil_r, Z.sub_0_r in HQ. apply HQ; try done. split_and!; [done|lia|done]. }
  apply wp_bind. apply wp_unread; [done|done|]. cbv zeta. apply wp_bind.
  set (b := buffered f) in *. set (k := match memchr b 10 with Some z => z + 1 | None => zlen b end).
  assert (0 < zlen b) as Hpos.
  { destruct Hinv as ((Hs & _ & _ & _ & Hr) & _). destruct Hs as [Hs1 Hs2]. subst b. unfold buffered.
    destruct (rpos f) as [p0|] eqn:Ep, (rend f) as [e|] eqn:Ee; try done.
    rewrite zlen_slice by (unfold UNGET in *; lia). assert (p0 <> e) by congruence. lia. }
  assert (1 <= k <= zlen b) as Hk.
  { subst k. destruct (memchr b 10) as [z|] eqn:Em; [|lia].
    destruct (line_found b 1 [] z Em) as [? _]. lia. }
  apply wp_take_buffer; [done|done|fold b; lia|]. fold b. intros f' Hinv' Hb' _ Hfull. apply wp_ret.
  set (m := Z.min k n) in *.
  assert (zlen (take (Z.to_nat m) b) = m) as Em by (unfold zlen in *; rewrite length_take; lia).
  rewrite <- Em at 2. rewrite <- Em in Hfull.
  assert (ahead f s = take (Z.to_nat m) b ++ ahead f' s) as Ea.
  { unfold ahead. rewrite Hb', app_assoc, take_drop. done. }
  apply HQ; [done|done|]. destruct (memchr b 10) as [z|] eqn:Ez.
  - destruct (line_found b (Z.to_nat n) (rest s) z Ez) as [Hz Hl]. fold (ahead f s) in Hl. split.
    + change (ahead f s) with (b ++ rest s). rewrite Hl. f_equal. subst m k. lia.
    + intros E. rewrite E in Em. change (zlen []) with 0 in Em. lia.
  - subst k. destruct (Z.eqb_spec (n - m) 0) as [E|E].
    + split; [|intros E'; rewrite E' in Em; change (zlen []) with 0 in Em; lia].
      change (ahead f s) with (b ++ rest s).
      rewrite line_take by (done || unfold zlen in *; lia). f_equal. lia.
    + assert (m = zlen b) as Emb by lia. split_and!; [apply Hfull; lia|lia|].
      rewrite take_ge; [done|]. unfold zlen in *. lia.
Qed.

Lemma line_step q c a n : memchr q 10 = None -> (length q < n)%nat ->
  line n (q ++ c :: a) = q ++ c :: (if c =? 10 then [] else line (n - length q - 1) a).
Proof.
  intros Hm Hn. rewrite line_app by (done || lia).
  destruct (n - length q)%nat as [|m] eqn:E; [lia|]. simpl. by rewrite Nat.sub_0_r.
Qed.

(** The end of the file or an error after [q]. *)
Lemma got_line_end n f1 s1 f s p q : rinv f1 s1 -> rpos f1 = rend f1 -> told f1 s1 ->
  ahead f s = q ++ ahead f1 s1 -> zlen q < n -> memchr q 10 = None ->
  got_line (Z.to_nat n) (ahead f s) p f1 s1 q
    (negb ((zlen (p ++ q) =? 0) || negb (has_flag F_EOF f1))).
Proof.
  intros Hinv Hre Ht Ea Hn Hm. unfold zlen in Hn. split_and!; [done| |].
  - rewrite Ea, line_app by (done || lia). by eexists.
  - destruct (has_flag F_EOF f1) eqn:He; cbn [negb orb].
    + assert (ahead f1 s1 = []) as E0.
      { unfold ahead. rewrite buffered_nil by done. by apply Hinv. }
      rewrite E0, app_nil_r in Ea. rewrite Ea, orb_false_r.
      destruct (Z.eqb_spec (zlen (p ++ q)) 0) as [Ez|Ez]; cbn [negb].
      * right. apply zlen_0 in Ez. split; [done|]. by apply app_eq_nil in Ez as [_ ?].
      * split; [|by intros _ E; rewrite E in Ez].
        rewrite <- (app_nil_r q) at 2. rewrite line_app by (done || lia).
        destruct (Z.to_nat n - length q)%nat; by rewrite app_nil_r.
    + rewrite orb_true_r. cbn [negb]. left. by destruct Ht as [?|[He' _]]; [|rewrite He in He'].
Qed.

Lemma wp_fgets_loop fuel : forall f s n p, rinv f s -> 0 <= n < Z.of_nat fuel ->
  wp (fgets_loop host fuel n p) (fun r st' =>
    let '(p', ok) := r in let '(f', s') := st' in
    rinv f' s' /\ contents s' = contents s /\
    exists q, p' = p ++ q /\ got_line (Z.to_nat n) (ahead f s) p f' s' q ok) (f, s).
Proof.
  induction fuel as [|fuel IH]; intros f s n p Hinv Hn; [lia|]. cbn [fgets_loop].
  destruct (Z.eqb_spec n 0) as [-> |Hn0].
  { apply wp_ret. split_and!; try done. exists []. rewrite app_nil_r. split; [done|]. by split_and!. }
  apply wp_bind, wp_get. cbn [fst snd]. apply wp_bind. apply wp_fgets_buffer; [done|lia|].
  intros f1 q1 stop Hinv1 Ea1 Hstop. cbv beta iota. destruct stop.
  { destruct Hstop as [Hq Hne]. apply wp_ret. split_and!; try done. exists q1. split; [done|].
    split_and!; [done|by rewrite Hq|done|]. intros _ [_ E]%app_eq_nil. done. }
  destruct Hstop as (Hre1 & Hlt & Hm). apply wp_bind.
  eapply wp_mono; [apply wp_getc; exact Hinv1|].
  intros c [f2 s2] (Hinv2 & Hc2 & [[Hc Ea2]|(-> & Ea2 & Hre2 & Ht)]); cbv beta iota.
  2:{ change (EOF <? 0) with true. cbv iota. wp_steps. split_and!; try done. exists q1. split; [done|].
      apply got_line_end; try done. by rewrite Ea2. }
  rewrite (proj2 (Z.ltb_ge _ _)) by (unfold in_u in Hc; lia). rewrite Ea2 in Ea1.
  unfold zlen in Hlt |- *.
  assert (line (Z.to_nat n) (ahead f s) =
    q1 ++ c :: (if c =? 10 then [] else line (Z.to_nat (n - zlen q1 - 1)) (ahead f2 s2))) as El.
  { rewrite Ea1, line_step by (done || lia).
    replace (Z.to_nat n - length q1 - 1)%nat with (Z.to_nat (n - zlen q1 - 1)); [done|].
    unfold zlen. lia. }
  destruct (c =? 10) eqn:Ec.
  { wp_steps. split_and!; try done. exists (q1 ++ [c]). split; [by rewrite app_assoc|]. split_and!.
    - by rewrite <- app_assoc.
    - rewrite El. done.
    - by rewrite El.
    - intros _ E. apply app_eq_nil in E as [_ E]. by apply app_eq_nil in E as [_ ?]. }
  eapply wp_mono; [apply IH; [done|unfold zlen in *; lia]|].
  intros [p' ok] [f3 s3] (Hinv3 & Hc3 & q & -> & Ha3 & Hpre & Hok). cbv beta iota.
  split_and!; try done; [congruence|]. exists (q1 ++ c :: q).
  assert (((p ++ q1) ++ [c]) ++ q = p ++ q1 ++ c :: q) as Ep by (by rewrite <- !app_assoc).
  rewrite Ep in Hok. split; [done|]. unfold zlen in *. split_and!.
  - rewrite Ea1, Ha3. by rewrite <- app_assoc.
  - rewrite El. by apply prefix_app, prefix_cons.
  - rewrite El. destruct ok.
    + destruct Hok as [-> Hne]. split; [done|]. intros _ E.
      apply app_eq_nil in E as [_ E]. by apply app_eq_nil in E as [_ ?].
    + destruct Hok as [Hok|[E _]]; [by left|].
      apply app_eq_nil in E as [_ E]. by apply app_eq_nil in E as [_ ?].
Qed.

Lemma wp_fgets f s n : rinv f s -> n <= INT_MAX ->
  wp (fgets host n) (fun r st' =>
    let '(f', s') := st' in rinv f' s' /\ contents s' = contents s /\
    if 1 <? n then
      exists q, got_line (Z.to_nat (n - 1)) (ahead f s) [] f' s' q (is_some r) /\ (r = None \/ r = Some q)
    else ahead f' s' = ahead f s /\ r = if n =? 1 then Some [] else None) (f, s).
Proof.
  intros Hinv Hn. unfold fgets. destruct (Z.leb_spec n 1) as [Hle|Hgt].
  - wp_steps. rewrite (proj2 (Z.ltb_ge _ _)) by lia. unfold ctrue.
    destruct (Z.eqb_spec n 1) as [-> |Hne].
    + cbn. apply wp_ret. done.
    + rewrite (proj2 (Z.eqb_neq _ _)) by lia. cbn [negb]. apply wp_ret. done.
  - apply wp_bind. eapply wp_mono; [apply wp_fgets_loop; [done|lia]|].
    intros [p ok] [f' s'] (Hinv' & Hc & q & -> & Hl). cbv beta iota. apply wp_ret.
    rewrite (proj2 (Z.ltb_lt _ _)) by lia. split_and!; try done. exists q. cbn [app].
    by destruct ok; split; [|right| |left].
Qed.

(** The pushback area has no room left. *)
Definition full (f : FILE) : Prop := exists p, rpos f = Some p /\ p <= - UNGET.

Lemma wp_ungetc f s c : rinv f s ->
  wp (ungetc host c) (fun r st' => let '(f', s') := st' in
    s' = s /\ rinv f' s /\
    (r = u8 c /\ c <> EOF /\ ahead f' s = u8 c :: ahead f s \/
     r = EOF /\ ahead f' s = ahead f s /\ (c = EOF \/ full f))) (f, s).
Proof.
  intros Hinv. unfold ungetc. destruct (Z.eqb_spec c EOF) as [-> |Hc].
  { apply wp_ret. split_and!; try done. right. by split_and!; [..|left]. }
  wp_steps.
  assert (forall f1 p, rinv f1 s -> ahead f1 s = ahead f s -> rpos f1 = Some p ->
    (p <= - UNGET -> full f) ->
    wp (if p <=? - UNGET then sret EOF
        else do* try_upd (fun f => blit f (p - 1) [u8 c]) in
             do* upd (with_rd (Some (p - 1)) (rend f1)) in
             do* upd (clear_flag F_EOF) in
             sret (u8 c))
      (fun r st' => let '(f', s') := st' in s' = s /\ rinv f' s /\
        (r = u8 c /\ c <> EOF /\ ahead f' s = u8 c :: ahead f s \/
         r = EOF /\ ahead f' s = ahead f s /\ (c = EOF \/ full f))) (f1, s)) as Hgo.
  { intros f1 p Hinv1 Ha Hp Hfull. pose proof Hinv1 as (([Hs1 Hs2] & Hw1 & Hw2 & Hw3 & Hr) & Hnord & Hfd & Heof & Hby).
    rewrite Hp in Hr. destruct (rend f1) as [e|] eqn:Ee; [|done].
    destruct (Z.leb_spec p (- UNGET)) as [Hle|Hgt].
    { apply wp_ret. split_and!; try done. right. split_and!; [done|done|right; auto]. }
    wp_steps. unfold UNGET in *.
    eapply wp_try_upd; cbn [fst snd]; [apply blit_stored; unfold UNGET, zlen in *; simpl length; lia|].
    wp_steps. set (f' := clear_flag F_EOF _).
    assert (buffered f' = u8 c :: buffered f1) as Hb.
    { unfold buffered, f'. cbn [rpos rend mem clear_flag with_flags with_rd with_mem]. rewrite Hp, Ee. unfold UNGET.
      rewrite (slice_split _ _ (8 + p)) by lia.
      pose proof (slice_stored (mem f1) (8 + (p - 1)) [u8 c] ltac:(lia) ltac:(unfold zlen in *; simpl length; lia)) as E1.
      change (zlen [u8 c]) with 1 in E1. replace (8 + (p - 1) + 1) with (8 + p) in E1 by lia. rewrite E1.
      rewrite slice_stored_after by (unfold zlen in *; simpl length; lia). done. }
    assert (ahead f' s = u8 c :: ahead f1 s) as Ea by (unfold ahead; by rewrite Hb).
    split_and!; [done| |left; by rewrite Ea, Ha]. split_and!; try done.
    - split_and!; try done; unfold f', sized; cbn [mem buf_size rpos rend clear_flag with_flags with_rd with_mem].
      + rewrite zlen_stored by (unfold UNGET, zlen in *; simpl length; lia). done.
      + unfold UNGET. lia.
    - unfold f'. flag_simp. done.
    - unfold f'. intros He. flag_simp. done.
    - rewrite Ea. constructor; [apply u8_range|done]. }
  destruct (rpos f) as [p|] eqn:Ep.
  - wp_steps. rewrite Ep. apply Hgo; try done. intros Hle. by exists p.
  - assert (rpos f = rend f) as Hre.
    { rewrite Ep. destruct Hinv as ((_ & _ & _ & _ & Hr) & _). rewrite Ep in Hr. by destruct (rend f). }
    apply wp_toread; [done|done|]. intros f1 Hinv1 Hre1 Hp1 Ha1 _ _. wp_steps.
    rewrite Hp1. apply Hgo; try done. intros Hle. destruct Hinv as (([_ Hs2] & _) & _). unfold UNGET in Hle. lia.
Qed.

(** ** The reading functions refine a list of bytes *)

Inductive in_op := Fgetc | Fread (size nmemb : Z) | Fgets (n : Z) | Ungetc (c : Z).
Inductive in_res := Rchar (c : Z) | Relems (n : Z) (b : list Z) | Rline (r : option (list Z)).

Definition in_op_ok (op : in_op) : Prop :=
  match op with
  | Fgetc | Ungetc _ => True
  | Fread size nmemb => 0 <= size /\ 0 <= nmemb /\ size * nmemb < 2 ^ 30
  | Fgets n => n <= INT_MAX
  end.

(** An operation, and the indicators after it. *)
Definition exec (op : in_op) : M (FILE * S) (in_res * Z * Z) :=
  let* r := match op with
    | Fgetc => let* c := getc_unlocked host in sret (Rchar c)
    | Fread size nmemb => let* (n, b) := fread host size nmemb in sret (Relems n b)
    | Fgets n => let* l := fgets host n in sret (Rline l)
    | Ungetc c => let* c := ungetc host c in sret (Rchar c)
    end in
  let* e := feof in
  let* x := ferror in
  sret (r, e, x).

Fixpoint exec_all (ops : list in_op) : M (FILE * S) (list (in_res * Z * Z)) :=
  match ops with
  | [] => sret []
  | op :: ops' =>
      let* r := exec op in
      let* rs := exec_all ops' in
      sret (r :: rs)
  end.

(** What the operations may do to the bytes to come: [stop eof err a] says why an
    operation delivered less than asked for. *)
Definition stop (eof err : Z) (a : list Z) : Prop := err = 1 \/ eof = 1 /\ a = [].

Inductive in_step : in_op -> list Z -> in_res * Z * Z -> list Z -> Prop :=
| step_getc c a eof err : in_step Fgetc (c :: a) (Rchar c, eof, err) a
| step_getc_end a eof err : stop eof err a -> in_step Fgetc a (Rchar EOF, eof, err) a
| step_fread size nmemb b a eof err :
    zlen b <= size * nmemb -> (zlen b < size * nmemb -> stop eof err a) ->
    in_step (Fread size nmemb) (b ++ a)
      (Relems (if size =? 0 then 0 else zlen b / size) b, eof, err) a
| step_fgets n q a eof err : 1 < n -> q = line (Z.to_nat (n - 1)) (q ++ a) -> q <> [] ->
    in_step (Fgets n) (q ++ a) (Rline (Some q), eof, err) a
| step_fgets_end n q a eof err : 1 < n -> q `prefix_of` line (Z.to_nat (n - 1)) (q ++ a) ->
    err = 1 \/ q ++ a = [] ->
    in_step (Fgets n) (q ++ a) (Rline None, eof, err) a
| step_fgets_small n a eof err : n <= 1 ->
    in_step (Fgets n) a (Rline (if n =? 1 then Some [] else None), eof, err) a
| step_ungetc c a eof err : c <> EOF -> in_step (Ungetc c) a (Rchar (u8 c), eof, err) (u8 c :: a)
| step_ungetc_no c a eof err : in_step (Ungetc c) a (Rchar EOF, eof, err) a.

Inductive in_steps : list in_op -> list Z -> list (in_res * Z * Z) -> list Z -> Prop :=
| steps_nil a : in_steps [] a [] a
| steps_cons op ops a r a' rs a'' :
    in_step op a r a' -> in_steps ops a' rs a'' -> in_steps (op :: ops) a (r :: rs) a''.

Lemma told_stop f s : told f s -> stop (cbool (has_flag F_EOF f)) (cbool (has_flag F_ERR f)) (ahead f s).
Proof. intros [-> |[-> H]]; [by left|by right]. Qed.

Lemma wp_exec op f s : rinv f s -> in_op_ok op ->
  wp (exec op) (fun r st' => let '(f', s') := st' in
    rinv f' s' /\ contents s' = contents s /\ in_step op (ahead f s) r (ahead f' s')) (f, s).
Proof.
  intros Hinv Hok. unfold exec, feof, ferror. apply wp_bind. destruct op as [|size nmemb|n|c].
  - apply wp_bind. eapply wp_mono; [by apply wp_getc|].
    intros c [f' s'] (Hinv' & Hc & [[_ Ea]|(-> & Ea & _ & Ht)]); wp_steps; split_and!; try done.
    + rewrite Ea. constructor.
    + rewrite Ea. constructor. rewrite <- Ea. by apply told_stop.
  - destruct Hok as (H1 & H2 & H3). apply wp_bind. eapply wp_mono; [by apply wp_fread|].
    intros [n b] [f' s'] (Hinv' & Hc & Ea & Hle & Ht & ->). wp_steps. split_and!; try done.
    rewrite Ea. constructor; [done|]. intros Hlt. by apply told_stop, Ht.
  - apply wp_bind. eapply wp_mono; [by apply wp_fgets|].
    intros r [f' s'] (Hinv' & Hc & Hr). wp_steps. split_and!; try done.
    destruct (Z.ltb_spec 1 n) as [Hn|Hn].
    + destruct Hr as (q & (Ea & Hpre & Hq) & Hr). rewrite Ea in Hpre, Hq |- *.
      destruct r as [l|]; cbn [is_some] in Hq.
      * destruct Hr as [|[= ->]]; [done|]. destruct Hq as [Hq Hne]. constructor; [done|done|].
        apply Hne. lia.
      * constructor; [done|done|]. destruct Hq as [-> |[_ ?]]; [by left|by right].
    + destruct Hr as [-> ->]. by constructor.
  - apply wp_bind. eapply wp_mono; [by apply wp_ungetc|].
    intros r [f' s'] (-> & Hinv' & [(-> & Hc & Ea)|(-> & Ea & _)]); wp_steps; split_and!; try done;
      rewrite Ea; by constructor.
Qed.

Lemma wp_exec_all ops : forall f s, rinv f s -> Forall in_op_ok ops ->
  wp (exec_all ops) (fun rs st' => let '(f', s') := st' in
    rinv f' s' /\ contents s' = contents s /\ in_steps ops (ahead f s) rs (ahead f' s')) (f, s).
Proof.
  induction ops as [|op ops IH]; intros f s Hinv Hok; cbn [exec_all].
  { apply wp_ret. split_and!; try done. constructor. }
  apply Forall_cons in Hok as [Hop Hok]. apply wp_bind. eapply wp_mono; [by apply wp_exec|].
  intros r [f1 s1] (Hinv1 & Hc1 & Hs1). apply wp_bind. eapply wp_mono; [by apply IH|].
  intros rs [f2 s2] (Hinv2 & Hc2 & Hs2). apply wp_ret. split_and!; try done; [congruence|].
  by econstructor.
Qed.
End Reading.

