(* ===== verification/StdioWrite.v ===== *)
(** The writing functions of a stream: the bytes written reach the file in
    order, complete lines at once in line-buffered mode, and a failure of the
    host is reported. *)

From S2P Require Import Prelude Syscalls Stdio StdioBuffer StdioRead.

(** * Writing *)

Lemma splice_app c p a b : 0 <= p -> splice (splice c p a) (p + zlen a) b = splice c p (a ++ b).
Proof.
  intros Hp. destruct a as [|x a]; [change (zlen []) with 0; by rewrite Z.add_0_r|].
  destruct b as [|y b]; [by rewrite app_nil_r|].
  set (a' := x :: a). set (b' := y :: b). unfold splice. fold a' b'.
  change (match a' ++ b' with [] => c | _ => _ end) with
    (take (Z.to_nat p) c ++ replicate (Z.to_nat p - length c) 0 ++ (a' ++ b') ++
     drop (Z.to_nat p + length (a' ++ b')) c).
  change (match b' with [] => _ | _ => ?x end) with x.
  change (match a' with [] => c | _ => _ end) with
    (take (Z.to_nat p) c ++ replicate (Z.to_nat p - length c) 0 ++ a' ++ drop (Z.to_nat p + length a') c).
  set (h := take (Z.to_nat p) c ++ replicate (Z.to_nat p - length c) 0).
  assert (length h = Z.to_nat p) as Hh by (subst h; rewrite length_app, length_take, length_replicate; lia).
  replace (Z.to_nat (p + zlen a')) with (length (h ++ a')) by (rewrite length_app, Hh; unfold zlen; lia).
  replace (take (Z.to_nat p) c ++ replicate (Z.to_nat p - length c) 0 ++ a' ++ drop (Z.to_nat p + length a') c)
    with ((h ++ a') ++ drop (Z.to_nat p + length a') c) by (subst h; by rewrite <- !app_assoc).
  rewrite take_app_length.
  replace (length (h ++ a') - length ((h ++ a') ++ drop (Z.to_nat p + length a') c))%nat with 0%nat
    by (rewrite !length_app; lia).
  rewrite drop_app_ge by lia. rewrite drop_drop. cbn [replicate app].
  replace (take (Z.to_nat p) c ++ replicate (Z.to_nat p - length c) 0 ++ (a' ++ b') ++
     drop (Z.to_nat p + length (a' ++ b')) c) with
    ((h ++ a') ++ b' ++ drop (Z.to_nat p + length (a' ++ b')) c) by (subst h; by rewrite <- !app_assoc).
  do 3 f_equal. rewrite !length_app. lia.
Qed.

Section Writing.
Context {S : Type} (host : forall X, wasi X -> S -> res X * S).
Context (fdn : Z) (contents : S -> list Z) (pos : S -> Z) (appends : S -> bool).
Context {Hrf : RegularFile host fdn contents pos appends}.
Context (nord : bool).
Implicit Types (f : FILE) (s : S).

(** Where the next write goes: the position, or in append mode the end. *)
Definition target (s : S) : Z := if appends s then zlen (contents s) else pos s.

(** The bytes [b] are in the file, from the target of [s] on. *)
Definition wrote (s : S) (b : list Z) (s' : S) : Prop :=
  contents s' = splice (contents s) (target s) b /\
  pos s' = (match b with [] => pos s | _ => target s + zlen b end) /\ appends s' = appends s.

Lemma target_nonneg s : 0 <= target s.
Proof. unfold target. destruct (appends s); [apply zlen_nonneg|apply rf_pos]. Qed.

Lemma wrote_nil s : wrote s [] s.
Proof. done. Qed.

Lemma wrote_target s a s1 : wrote s a s1 -> target s1 = target s + zlen a.
Proof.
  intros (Hc & Hp & Ha). unfold target at 1. rewrite Ha, Hc, Hp. unfold target. destruct a as [|x a].
  - change (zlen []) with 0. cbn [splice]. destruct (appends s); lia.
  - destruct (appends s); [|done]. unfold splice, zlen. rewrite !length_app, length_replicate, length_take, length_drop. lia.
Qed.

Lemma wrote_app s a s1 b s2 : wrote s a s1 -> wrote s1 b s2 -> wrote s (a ++ b) s2.
Proof.
  intros H (H3 & H4 & H5). pose proof (wrote_target s a s1 H) as Ht. destruct H as (H1 & H2 & H6). pose proof (target_nonneg s). split_and!; [|..|congruence].
  - rewrite H3, H1, Ht. by apply splice_app.
  - rewrite H4, Ht. destruct b as [|y b]; [by rewrite app_nil_r|]. destruct (a ++ y :: b) eqn:E; [by destruct a|]. rewrite <- E, zlen_app. lia.
Qed.

(** The host's answer to [writev]. *)
Lemma writev_call fd0 iov s : fd0 = fdn -> zlen (concat iov) < 2 ^ 31 ->
  exists r s', run host (writev fd0 iov (zlen iov)) s = (r, s') /\
    match r with
    | Err _ => wrote s [] s'
    | Val n => 0 <= n <= zlen (concat iov) /\ (n = 0 -> concat iov = []) /\
        wrote s (take (Z.to_nat n) (concat iov)) s'
    end.
Proof.
  intros -> Hz. unfold writev. rewrite (proj2 (Z.ltb_ge _ _)) by apply zlen_nonneg.
  assert (take (Z.to_nat (zlen iov)) iov = iov) as -> by (apply take_ge; unfold zlen; lia).
  simpl. destruct (host _ (fd_write fdn iov) s) as [[n|e] s'] eqn:Eh; apply rf_write in Eh; cbn.
  - destruct Eh as (Ha & Hn & H0 & Hc & Hp). eexists _, s'. split; [reflexivity|].
    rewrite s32_id by (bounds; lia). split_and!; [lia|lia|done|]. split; [done|]. split; [|done]. fold (target s) in Hp.
    rewrite Hp. destruct (Z.eqb_spec n 0) as [-> |Hne]; [done|]. destruct (take (Z.to_nat n) (concat iov)) as [|y l] eqn:E.
    + apply (f_equal length) in E. rewrite length_take in E. unfold zlen in *. cbn [length] in E. lia.
    + rewrite <- E. f_equal. unfold zlen in *. rewrite length_take. lia.
  - eexists _, s'. split; [reflexivity|]. by destruct Eh as (Ha & Hc & Hp).
Qed.

(** Everything was written and the buffer is empty, or an error stopped after
    [k] bytes. *)
Definition write_done (f : FILE) (s : S) (b : list Z) (ret : Z -> Z) (r : Z) (st' : FILE * S) : Prop :=
  let '(f', s') := st' in
  (r = ret (zlen b) /\ wrote s b s' /\ f' = with_wr (Some 0) (Some 0) (Some (buf_size f)) f) \/
  (exists k, 0 <= k <= zlen b /\ (zlen b = 0 \/ k < zlen b) /\ r = ret k /\ wrote s (take (Z.to_nat k) b) s' /\
     f' = or_flag F_ERR (with_wr None None None f)).

Lemma wrote_trans s a s1 s2 n : 0 <= n -> wrote s (take (Z.to_nat n) a) s1 ->
  wrote s1 (drop (Z.to_nat n) a) s2 -> wrote s a s2.
Proof. intros Hn H1 H2. rewrite <- (take_drop (Z.to_nat n) a). by eapply wrote_app. Qed.

Lemma wrote_take s a s1 s2 n k : 0 <= n <= zlen a -> 0 <= k -> wrote s (take (Z.to_nat n) a) s1 ->
  wrote s1 (take (Z.to_nat k) (drop (Z.to_nat n) a)) s2 -> wrote s (take (Z.to_nat (n + k)) a) s2.
Proof.
  intros Hn Hk H1 H2. rewrite Z2Nat.inj_add by lia. rewrite <- take_take_drop. by eapply wrote_app.
Qed.

(** The rest of a write, after the host took [n] of the bytes. *)
Lemma write_done_step f s s1 b n (ret ret' : Z -> Z) r st' :
  0 <= n < zlen b -> wrote s (take (Z.to_nat n) b) s1 ->
  (forall k, 0 <= k <= zlen b - n -> ret' k = ret (n + k)) ->
  write_done f s1 (drop (Z.to_nat n) b) ret' r st' -> write_done f s b ret r st'.
Proof.
  intros Hn Hw Hret. destruct st' as [f' s'].
  assert (zlen (drop (Z.to_nat n) b) = zlen b - n) as Hz by (unfold zlen in *; rewrite length_drop; lia).
  intros [(-> & Hw' & ->)|(k & Hk & Hk' & -> & Hw' & ->)].
  - left. split_and!; try done; [rewrite Hz, Hret by lia; f_equal; lia|by eapply wrote_trans; [|exact Hw|]; [lia|]].
  - right. exists (n + k). rewrite Hz in Hk, Hk'. rewrite Hret by lia. split_and!; try done; try lia.
    eapply wrote_take; [| |exact Hw|exact Hw']; lia.
Qed.

Lemma u32_m1 : u32 (-1) = 2 ^ 32 - 1.
Proof. done. Qed.

Lemma wp_write_one fuel : forall f s y len, fd f = fdn -> zlen y <= len < 2 ^ 30 -> zlen y < Z.of_nat fuel ->
  wp (write_loop host fuel [y] (zlen y) len) (write_done f s y (fun k => len - (zlen y - k))) (f, s).
Proof.
  induction fuel as [|fuel IH]; intros f s y len Hfd Hlen Hf; [pose proof (zlen_nonneg y); lia|].
  cbn [write_loop]. pose proof (zlen_nonneg y). wp_steps.
  destruct (writev_call (fd f) [y] s) as (r & s1 & Hrun & Hr); [done|simpl; rewrite app_nil_r; lia|].
  eapply wp_sys; [exact Hrun|]. cbn [concat] in Hr. rewrite app_nil_r in Hr. destruct r as [n|e].
  - destruct Hr as (Hn & H0 & Hw). rewrite u32_id by (unfold in_u; lia).
    destruct (Z.eqb_spec n (zlen y)) as [-> |Hne].
    { wp_steps. left. split_and!; try done; [lia|]. rewrite take_ge in Hw by (unfold zlen; lia). done. }
    rewrite (proj2 (Z.ltb_ge _ _)) by lia. wp_steps. eapply wp_lift; [reflexivity|]. wp_steps.
    rewrite (proj2 (Z.ltb_ge _ _)) by lia. cbv beta iota. wp_steps. eapply wp_lift; [reflexivity|].
    wp_steps. eapply wp_lift; [by rewrite (proj2 (Z.leb_le _ _)) by lia|]. cbn [tail].
    assert (zlen (drop (Z.to_nat n) y) = zlen y - n) as Hz by (unfold zlen in *; rewrite length_drop; lia).
    rewrite u32_id by (unfold in_u; lia). rewrite <- Hz.
    assert (n <> 0) by (intros ->; rewrite H0 in Hne by done; by apply Hne).
    eapply wp_mono; [apply IH; [done|lia|lia]|]. intros r st' Hd.
    eapply write_done_step; [|exact Hw| |exact Hd]; [lia|]. intros k Hk. cbv beta. rewrite Hz. lia.
  - cbv beta iota zeta. rewrite u32_m1. rewrite (proj2 (Z.eqb_neq _ _)) by lia. change (-1 <? 0) with true. cbv iota.
    wp_steps. eapply wp_lift; [reflexivity|]. change (zlen [y] =? 2) with false. cbv iota. wp_steps.
    right. exists 0. split_and!; try done; try lia. rewrite u32_id by (unfold in_u; lia). lia.
Qed.

Lemma wp_write_two fuel : forall f s x buf, fd f = fdn -> zlen x + zlen buf < 2 ^ 30 ->
  zlen x + zlen buf < Z.of_nat fuel ->
  wp (write_loop host fuel [x; buf] (zlen x + zlen buf) (zlen buf))
    (write_done f s (x ++ buf) (fun k => Z.max 0 (k - zlen x))) (f, s).
Proof.
  induction fuel as [|fuel IH]; intros f s x buf Hfd Hlen Hf; pose proof (zlen_nonneg x);
    pose proof (zlen_nonneg buf); [lia|].
  cbn [write_loop]. wp_steps.
  assert (concat [x; buf] = x ++ buf) as Ec by (simpl; by rewrite app_nil_r).
  destruct (writev_call (fd f) [x; buf] s) as (r & s1 & Hrun & Hr); [done|rewrite Ec, zlen_app; lia|].
  eapply wp_sys; [exact Hrun|]. rewrite Ec, zlen_app in Hr. destruct r as [n|e].
  - destruct Hr as (Hn & Hzero & Hw). rewrite u32_id by (unfold in_u; lia).
    destruct (Z.eqb_spec n (zlen x + zlen buf)) as [E|Hne].
    { wp_steps. left. split_and!; try done; [rewrite zlen_app; lia|].
      rewrite take_ge in Hw by (rewrite length_app; unfold zlen in *; lia). done. }
    rewrite (proj2 (Z.ltb_ge _ _)) by lia. wp_steps. eapply wp_lift; [reflexivity|]. wp_steps.
    assert (n <> 0) as Hn0.
    { intros ->. specialize (Hzero eq_refl). apply (f_equal zlen) in Hzero. rewrite zlen_app in Hzero.
      change (zlen []) with 0 in Hzero. lia. }
    rewrite u32_id by (unfold in_u; lia).
    destruct (Z.ltb_spec (zlen x) n) as [Hlt|Hge]; cbv beta iota; cbn [tail].
    + wp_steps. eapply wp_lift; [reflexivity|]. wp_steps.
      eapply wp_lift; [by rewrite (proj2 (Z.leb_le _ _)) by lia|].
      set (m := n - zlen x). assert (zlen (drop (Z.to_nat m) buf) = zlen buf - m) as Hz
        by (unfold zlen in *; rewrite length_drop; lia).
      replace (zlen x + zlen buf - n) with (zlen (drop (Z.to_nat m) buf)) by lia.
      eapply wp_mono; [apply wp_write_one; [done|lia|lia]|]. intros r st' Hd.
      eapply write_done_step; [|exact Hw| |].
      * rewrite zlen_app. lia.
      * intros k Hk. instantiate (1 := fun k => zlen buf - (zlen (drop (Z.to_nat m) buf) - k)). cbv beta.
        rewrite Hz. lia.
      * rewrite drop_app_ge by (unfold zlen in *; lia).
        replace (Z.to_nat n - length x)%nat with (Z.to_nat m) by (unfold zlen in *; lia). exact Hd.
    + wp_steps. eapply wp_lift; [reflexivity|]. wp_steps.
      eapply wp_lift; [by rewrite (proj2 (Z.leb_le _ _)) by lia|]. cbn [tail].
      assert (zlen (drop (Z.to_nat n) x) = zlen x - n) as Hz by (unfold zlen in *; rewrite length_drop; lia).
      replace (zlen x + zlen buf - n) with (zlen (drop (Z.to_nat n) x) + zlen buf) by lia.
      eapply wp_mono; [apply IH; [done|lia|lia]|]. intros r st' Hd.
      eapply write_done_step; [|exact Hw| |].
      * rewrite zlen_app. lia.
      * intros k Hk. instantiate (1 := fun k => Z.max 0 (k - zlen (drop (Z.to_nat n) x))). cbv beta. rewrite Hz. lia.
      * rewrite drop_app_le by (unfold zlen in *; lia). exact Hd.
  - cbv beta iota zeta. rewrite u32_m1. rewrite (proj2 (Z.eqb_neq _ _)) by lia. change (-1 <? 0) with true. cbv iota.
    wp_steps. eapply wp_lift; [reflexivity|]. change (zlen [x; buf] =? 2) with true. cbv iota. wp_steps.
    right. exists 0. split_and!; try done; try (rewrite zlen_app; lia). lia.
Qed.

(** [f] up to the choices [__stdout_write] makes on its first call. *)
Definition chosen (f f1 : FILE) : Prop :=
  exists w l, f1 = with_write w l f /\ (l = lbf f \/ l = -1).

Lemma chosen_refl f : chosen f f.
Proof. exists (write_ f), (lbf f). split; [by destruct f|by left]. Qed.

(** A stream whose write pointers are null or delimit pending bytes. *)
Definition wptrs (f : FILE) : Prop :=
  sized f /\
  (wpos f = None /\ wbase f = None /\ wend f = None \/
   wbase f = Some 0 /\ wend f = Some (buf_size f) /\ exists p, wpos f = Some p /\ 0 <= p <= buf_size f).

Lemma zlen_pend f : wptrs f -> zlen (pend f) = diff (wpos f) (wbase f) /\ 0 <= zlen (pend f) <= buf_size f.
Proof.
  intros ([Hs1 Hs2] & [(H1 & H2 & _)|(H1 & _ & p & H2 & Hp)]); unfold pend, diff; rewrite H1, H2.
  - change (zlen []) with 0. lia.
  - rewrite zlen_slice by (unfold UNGET in *; lia). lia.
Qed.

Lemma wp_pending f s (Q : list Z -> FILE * S -> Prop) : wptrs f -> Q (pend f) (f, s) -> wp pending Q (f, s).
Proof.
  intros ([Hs1 Hs2] & [(H1 & H2 & _)|(H1 & _ & p & H2 & Hp)]) HQ; unfold pending, pend in *; wp_steps; rewrite H1, ?H2 in *.
  - by apply wp_ret.
  - eapply wp_lift; [apply fetch_slice; cbn [diff]; unfold UNGET in *; lia|]. cbn [diff].
    by replace (UNGET + 0 + (p - 0)) with (UNGET + p) by lia.
Qed.

Definition wret (f : FILE) (k : Z) : Z := Z.max 0 (k - zlen (pend f)).

Lemma wp_stdio_write f s buf : fd f = fdn -> wptrs f -> zlen buf < 2 ^ 29 -> buf_size f < 2 ^ 29 ->
  wp (__stdio_write host buf) (write_done f s (pend f ++ buf) (wret f)) (f, s).
Proof.
  intros Hfd Hw Hb Hbs. pose proof (zlen_pend f Hw) as [_ Hz]. pose proof (zlen_nonneg buf).
  unfold __stdio_write. apply wp_bind, wp_pending; [done|]. cbv zeta.
  rewrite u32_id by (unfold in_u; lia). apply wp_write_two; [done|lia|lia].
Qed.

(** [f->write] *)
Lemma wp_write_call f s buf : fd f = fdn -> wptrs f -> zlen buf < 2 ^ 29 -> buf_size f < 2 ^ 29 ->
  wp (write_call host buf) (fun r st' =>
    exists f1, chosen f f1 /\ write_done f1 s (pend f ++ buf) (wret f) r st') (f, s).
Proof.
  intros Hfd Hw Hb Hbs. unfold write_call. wp_steps. destruct (write_ f).
  { eapply wp_mono; [by apply wp_stdio_write|]. intros r st' Hd. exists f. split; [apply chosen_refl|done]. }
  unfold __stdout_write. wp_steps.
  assert (forall l s1, l = lbf f \/ l = -1 -> contents s1 = contents s -> pos s1 = pos s -> appends s1 = appends s ->
    wp (__stdio_write host buf) (fun r st' =>
      exists f1, chosen f f1 /\ write_done f1 s (pend f ++ buf) (wret f) r st')
      (with_write __stdio_write_fn l f, s1)) as Hgo.
  { intros l s1 Hl Hc Hp Ha. eapply wp_mono; [by apply wp_stdio_write|]. intros r [f' s'] Hd.
    change (write_done (with_write __stdio_write_fn l f) s1 (pend f ++ buf) (wret f) r (f', s')) in Hd.
    exists (with_write __stdio_write_fn l f). split; [by eexists _, _|].
    assert (forall b, wrote s1 b s' -> wrote s b s') as Hwr by (intros b; unfold wrote, target; by rewrite Hc, Hp, Ha).
    destruct Hd as [(? & ? & ?)|(k & ? & ? & ? & ? & ?)]; [left|right; exists k]; split_and!; try done; try lia; by apply Hwr. }
  destruct (has_flag F_SVB f); cbn [negb].
  { apply wp_ret. apply Hgo; [by left|done..]. }
  apply wp_bind. destruct (run host (isatty (fd f)) s) as [r s1] eqn:Er.
  eapply wp_sys; [exact Er|].
  assert (contents s1 = contents s /\ pos s1 = pos s /\ appends s1 = appends s) as (Hc & Hp & Ha).
  { unfold isatty in Er. simpl in Er. destruct (host _ (fd_fdstat_get (fd f)) s) as [[st|e] s2] eqn:Eh;
      rewrite Hfd in Eh; apply rf_stat in Eh; cbn in Er; [case_match|]; by injection Er as <- <-. }
  destruct r as [[|[]|]|e]; wp_steps; (apply Hgo; [by left + by right|done..]).
Qed.

(** ** Accepting bytes *)

(** In line-buffered mode no complete line waits in the buffer. *)
Definition lines (f : FILE) : Prop := lbf f = 10 -> 10 ∉ pend f.

(** A stream open for writing that has no bytes read ahead; [nord] says whether
    it is write-only. *)
Definition winv (f : FILE) : Prop :=
  (writing f \/ not_writing f /\ rpos f = rend f) /\
  (has_flag F_NOWR f = false /\ has_flag F_NORD f = nord) /\ fd f = fdn /\
  buf_size f < 2 ^ 29 /\ lines f.

(** The bytes [b] follow the pending ones; those not written yet are
    pending. *)
Definition accepted (f : FILE) (s : S) (b : list Z) (f' : FILE) (s' : S) : Prop :=
  exists x, pend f ++ b = x ++ pend f' /\ wrote s x s'.

(** The host failed: a part of the bytes was written, the rest is lost. *)
Definition lost (f : FILE) (s : S) (b : list Z) (f' : FILE) (s' : S) : Prop :=
  pend f' = [] /\ has_flag F_ERR f' = true /\
  exists x, x `prefix_of` pend f ++ b /\ wrote s x s'.

Lemma winv_ptrs f : winv f -> wptrs f.
Proof.
  intros ([(Hs & _ & _ & H1 & H2 & H3)|((Hs & H1 & H2 & H3 & _) & _)] & _); split; auto.
Qed.

Lemma pend_idle f : wbase f = None -> pend f = [].
Proof. unfold pend. by intros ->. Qed.

Lemma pend_with_wr0 f x : pend (with_wr (Some 0) (Some 0) x f) = [].
Proof. unfold pend. cbn. apply slice_nil. Qed.

Lemma wp_no_write f s (Q : bool -> FILE * S -> Prop) : winv f ->
  (forall f', winv f' -> writing f' -> pend f' = pend f -> lbf f' = lbf f -> buf_size f' = buf_size f ->
     flags f' = flags f -> Q false (f', s)) ->
  wp no_write Q (f, s).
Proof.
  intros Hinv HQ. pose proof Hinv as (Hst & [Hnw Hnord] & Hfd & Hbs & Hl). unfold no_write. wp_steps.
  destruct Hst as [Hwr|[(Hs & H1 & H2 & H3 & _) Hre]].
  { pose proof Hwr as (_ & _ & _ & _ & -> & _). wp_steps. by apply HQ. }
  rewrite H3. unfold __towrite. wp_steps.
  change (has_flag F_NOWR (byte_mode f)) with (has_flag F_NOWR f). rewrite Hnw. wp_steps.
  change (ctrue 0) with false. cbn [buf_size byte_mode with_mode].
  set (f' := with_wr _ _ _ _).
  assert (pend f' = []) as Hp by apply pend_with_wr0.
  assert (writing f') as Hwr.
  { split_and!; try done. exists 0. split; [done|]. destruct Hs as [? ?]. cbn. lia. }
  apply HQ; try done.
  - split_and!; try done; [by left|]. intros _. rewrite Hp. apply not_elem_of_nil.
  - rewrite Hp. by rewrite pend_idle.
Qed.

(** The stream after [f->write] has been called. *)
Lemma write_done_winv f s b n f1 r f' s' : winv f -> writing f -> chosen f f1 -> zlen b = n ->
  write_done f1 s (pend f ++ b) (wret f) r (f', s') ->
  winv f' /\ (r = n /\ writing f' /\ pend f' = [] /\ wrote s (pend f ++ b) s' /\
      buf_size f' = buf_size f /\ flags f' = flags f /\ (lbf f' = lbf f \/ lbf f' = -1) \/
    0 <= r <= n /\ (0 < n -> r < n) /\ lost f s b f' s' /\ wpos f' = None /\
    exists k, r = wret f k /\ wrote s (take (Z.to_nat k) (pend f ++ b)) s').
Proof.
  intros (_ & [Hnw Hnord] & Hfd & Hbs & Hl) Hwr (w & l & -> & Hlb) Hz Hd.
  pose proof Hwr as (Hs & Hr1 & Hr2 & Hb1 & Hb2 & p & Hp1 & Hp2).
  assert (wptrs f) as Hwp by (split; [done|right; split_and!; eauto]).
  pose proof (zlen_pend f Hwp) as [_ Hzp]. pose proof (zlen_nonneg b). unfold wret in *.
  destruct Hd as [(-> & Hw & ->)|(k & Hk & Hk' & -> & Hw & ->)]; rewrite zlen_app in *.
  - split.
    + split_and!; try done.
      * left. split_and!; try done. exists 0. cbn. destruct Hs. split; [done|lia].
      * intros _. rewrite pend_with_wr0. apply not_elem_of_nil.
    + left. split_and!; try done; [lia|].
      split_and!; try done. exists 0. cbn. destruct Hs. split; [done|lia].
  - split.
    + split_and!; try done.
      * right. split; [split_and!; try done; cbn; by rewrite Hr1, Hr2|cbn; congruence].
      * flag_simp. done.
      * flag_simp. done.
      * intros _. rewrite pend_idle by done. apply not_elem_of_nil.
    + right. split_and!; try lia; try done.
      * split_and!; [by apply pend_idle|by flag_simp|]. exists (take (Z.to_nat k) (pend f ++ b)).
        split; [apply prefix_take|done].
      * exists k. split; [lia|done].
Qed.

(** Bytes put into the buffer. *)
Lemma blit_accept f p b : winv f -> writing f -> wpos f = Some p ->
  zlen b <= buf_size f - p -> (lbf f = 10 -> 10 ∉ b) ->
  exists f1, blit f p b = Ok f1 /\
    let f' := with_wr (Some (p + zlen b)) (wbase f) (wend f) f1 in
    winv f' /\ pend f' = pend f ++ b.
Proof.
  intros (_ & [Hnw Hnord] & Hfd & Hbs & Hl) Hwr Hp Hb Hlb.
  pose proof Hwr as ([Hs1 Hs2] & Hr1 & Hr2 & Hb1 & Hb2 & p' & Hp1 & Hp2).
  rewrite Hp in Hp1. injection Hp1 as <-. pose proof (zlen_nonneg b).
  eexists. split; [apply blit_stored; unfold UNGET in *; lia|]. intros f'.
  assert (pend f' = pend f ++ b) as Hpe.
  { unfold pend, f'. cbn [wbase wpos mem with_wr with_mem]. rewrite Hb1, Hp. unfold UNGET.
    rewrite (slice_split _ _ (8 + p)) by lia. rewrite slice_stored_before by (unfold UNGET in *; lia). f_equal.
    replace (8 + (p + zlen b)) with (8 + p + zlen b) by lia. apply slice_stored; unfold UNGET in *; lia. }
  assert (writing f') as Hwr'.
  { unfold f'. split_and!; try done; unfold sized; cbn [mem buf_size with_wr with_mem].
    - rewrite zlen_stored by (unfold UNGET in *; lia). done.
    - exists (p + zlen b). cbn. split; [done|lia]. }
  split; [|done]. split_and!; try done; [by left|]. intros E. rewrite Hpe. apply not_elem_of_app. auto.
Qed.

Lemma accepted_pending f s b f' : pend f' = pend f ++ b -> accepted f s b f' s.
Proof. intros E. exists []. split; [by rewrite E|apply wrote_nil]. Qed.

(** [b] was taken, or the host failed. *)
Definition took (f : FILE) (s : S) (b : list Z) (ok : bool) (st' : FILE * S) : Prop :=
  let '(f', s') := st' in
  winv f' /\ if ok then accepted f s b f' s' else lost f s b f' s'.

Lemma wp_put_byte f s c : winv f -> writing f -> wpos f <> wend f -> c <> lbf f ->
  wp (put_byte c) (fun r st' => r = c /\ took f s [c] true st') (f, s).
Proof.
  intros Hinv Hwr Hne Hc. pose proof Hwr as ([Hs1 Hs2] & Hr1 & Hr2 & Hb1 & Hb2 & p & Hp1 & Hp2).
  unfold put_byte. wp_steps. eapply wp_ptr; [done|]. wp_steps.
  assert (p < buf_size f) as Hlt by (rewrite Hp1, Hb2 in Hne; destruct (decide (p = buf_size f)); [congruence|lia]).
  destruct (blit_accept f p [c]) as (f1 & Hbl & Hinv' & Hpe); try done.
  { change (zlen [c]) with 1. lia. }
  { intros E. apply not_elem_of_cons. split; [congruence|apply not_elem_of_nil]. }
  eapply wp_try_upd; cbn [fst snd]; [exact Hbl|]. wp_steps. split; [done|]. split; [done|]. by apply accepted_pending.
Qed.

(** The answer of [f->write] for new bytes [b]. *)
Lemma wp_write_new f s b : winv f -> writing f -> zlen b < 2 ^ 29 ->
  wp (write_call host b) (fun r st' =>
    r = zlen b /\ took f s b true st' /\ writing (fst st') /\ pend (fst st') = [] /\
      wrote s (pend f ++ b) (snd st') /\
      buf_size (fst st') = buf_size f /\ flags (fst st') = flags f /\ (lbf (fst st') = lbf f \/ lbf (fst st') = -1) \/
    0 <= r <= zlen b /\ (0 < zlen b -> r < zlen b) /\ took f s b false st' /\ wpos (fst st') = None) (f, s).
Proof.
  intros Hinv Hwr Hb. pose proof Hinv as (_ & _ & Hfd & Hbs & _).
  eapply wp_mono; [apply wp_write_call; [done|by apply winv_ptrs|done|done]|].
  intros r [f' s'] (f1 & Hch & Hd). cbn [fst snd].
  destruct (write_done_winv f s b (zlen b) f1 r f' s') as [Hinv' [(-> & Hw' & Hp & Hw & Hbs' & Hfl & Hl)|(Hr & Hr' & Hl & Hn & _)]];
    try done.
  - left. split_and!; try done. split; [done|]. exists (pend f ++ b). rewrite Hp, app_nil_r. done.
  - right. split_and!; try done; lia.
Qed.

Lemma wp_putc f s c : winv f ->
  wp (putc_unlocked host c) (fun r st' =>
    r = u8 c /\ took f s [u8 c] true st' \/ r = EOF /\ took f s [u8 c] false st') (f, s).
Proof.
  intros Hinv. unfold putc_unlocked. wp_steps.
  destruct (negb (u8 c =? lbf f) && bool_decide (wpos f <> wend f)) eqn:Ec.
  { bool_hyps. apply bool_decide_eq_true in H0.
    assert (writing f) as Hwr.
    { destruct Hinv as ([Hwr|[(_ & E1 & _ & E2 & _) _]] & _); [done|congruence]. }
    eapply wp_mono; [by apply wp_put_byte|]. intros r st' [-> H']. by left. }
  unfold __overflow. cbv zeta. rewrite (u8_id (u8 c)) by apply u8_range. clear Ec. set (d := u8 c).
  apply wp_bind, wp_no_write; [done|]. intros f1 Hinv1 Hwr1 Hp1 _ _ _.
  assert (forall ok st', took f1 s [d] ok st' -> took f s [d] ok st') as Htook.
  { intros ok [f' s'] [? H']. split; [done|]. unfold accepted, lost in *. by rewrite <- Hp1. }
  wp_steps.
  destruct (bool_decide (wpos f1 <> wend f1) && negb (d =? lbf f1)) eqn:Ec.
  { bool_hyps. apply bool_decide_eq_true in H.
    eapply wp_mono; [by apply wp_put_byte|]. intros r st' [-> H']. left. auto. }
  apply wp_bind. eapply wp_mono; [by apply wp_write_new|].
  intros r st' [(-> & Ht & _)|(Hr & Hr' & Ht & _)]; apply wp_ret.
  - left. change (zlen [d]) with 1. rewrite Z.eqb_refl. cbn [negb]. auto.
  - right. change (zlen [d]) with 1 in *. rewrite (proj2 (Z.eqb_neq _ _)) by lia. cbn [negb]. auto.
Qed.

Lemma last_line_spec l : 0 <= last_line l <= zlen l /\ 10 ∉ drop (Z.to_nat (last_line l)) l.
Proof.
  induction l as [|c l [IH1 IH2]]; [split; [done|apply not_elem_of_nil]|]. cbn [last_line].
  rewrite zlen_cons. pose proof (zlen_nonneg l). destruct (Z.ltb_spec 0 (last_line l)) as [Hp|Hz].
  - split; [lia|]. by replace (Z.to_nat (1 + last_line l)) with (Datatypes.S (Z.to_nat (last_line l))) by lia.
  - assert (last_line l = 0) as E by lia. rewrite E in IH2. destruct (Z.eqb_spec c 10) as [-> |Hc].
    + split; [lia|done].
    + split; [lia|]. apply not_elem_of_cons. split; [congruence|done].
Qed.

Lemma took_prefix f s b1 b2 f' s' : lost f s b1 f' s' -> lost f s (b1 ++ b2) f' s'.
Proof.
  intros (Hp & He & x & Hx & Hw). split_and!; try done. exists x. split; [|done].
  rewrite app_assoc. by apply prefix_app_r.
Qed.

Lemma wp_fwritex f s b : winv f -> zlen b < 2 ^ 29 ->
  wp (__fwritex host b) (fun r st' =>
    r = zlen b /\ took f s b true st' \/ 0 <= r < zlen b /\ took f s b false st') (f, s).
Proof.
  intros Hinv Hb. unfold __fwritex. cbv zeta. apply wp_bind, wp_no_write; [done|].
  intros f1 Hinv1 Hwr1 Hp1 Hl1 Hbs1 _.
  assert (forall ok st', took f1 s b ok st' -> took f s b ok st') as Htook.
  { intros ok [f' s'] [? H']. split; [done|]. unfold accepted, lost in *. by rewrite <- Hp1. }
  clear Hp1 Hl1 Hbs1. pose proof Hwr1 as ([Hs1 Hs2] & Hr1 & Hr2 & Hb1 & Hb2 & p & Hp1 & Hp2).
  pose proof (zlen_nonneg b). wp_steps. rewrite Hb2, Hp1. cbn [diff].
  destruct (Z.ltb_spec (buf_size f1 - p) (zlen b)) as [Hbig|Hfit].
  { eapply wp_mono; [by apply wp_write_new|].
    intros r st' [(-> & Ht & _)|(Hr & Hr' & Ht & _)]; [left; auto|right]. split; [lia|auto]. }
  set (i := if 0 <=? lbf f1 then last_line b else 0).
  destruct (last_line_spec b) as [Hll Hnl].
  assert (0 <= i <= zlen b) as Hi by (subst i; case_match; lia).
  assert (lbf f1 = 10 -> 10 ∉ drop (Z.to_nat i) b) as Hrest by (intros E; subst i; by rewrite E).
  destruct (Z.ltb_spec 0 i) as [Hi0|Hi0].
  - apply wp_bind, wp_bind.
    assert (zlen (take (Z.to_nat i) b) = i) as Hzi by (unfold zlen in *; rewrite length_take; lia).
    assert (zlen (drop (Z.to_nat i) b) = zlen b - i) as Hzd by (unfold zlen in *; rewrite length_drop; lia).
    eapply wp_mono; [apply wp_write_new; [done|done|lia]|]. rewrite Hzi.
    intros r [f2 s2] [(-> & [Hinv2 _] & Hwr2 & Hpe2 & Hw2 & Hbs2 & _ & Hl2)|(Hr & Hr' & [Hinv2 Ht2] & _)];
      apply wp_ret; cbn [fst snd] in *.
    + rewrite Z.ltb_irrefl. apply wp_bind, wp_get. cbn [fst snd].
      pose proof Hwr2 as (_ & _ & _ & Hb1' & _ & p2 & Hp2' & Hp2'').
      assert (p2 = 0) as ->.
      { assert (wptrs f2) as Hwp by (by apply winv_ptrs). apply zlen_pend in Hwp as [Hz _].
        rewrite Hpe2, Hb1', Hp2' in Hz. cbn [diff] in Hz. change (zlen []) with 0 in Hz. lia. }
      rewrite Hp2'. destruct (blit_accept f2 0 (drop (Z.to_nat i) b)) as (f3 & Hbl & Hinv3 & Hpe3); try done.
      { lia. }
      { intros E. destruct Hl2 as [Hl2|Hl2]; rewrite Hl2 in E; [auto|done]. }
      apply wp_bind. eapply wp_try_upd; cbn [fst snd]; [exact Hbl|]. wp_steps.
      left. split; [lia|]. apply Htook. split; [done|]. exists (pend f1 ++ take (Z.to_nat i) b).
      rewrite Hpe3, Hpe2. cbn [app]. rewrite <- app_assoc, take_drop. done.
    + rewrite (proj2 (Z.ltb_lt _ _)) by lia. apply wp_ret. right. split; [lia|]. apply Htook. split; [done|].
      rewrite <- (take_drop (Z.to_nat i) b). by apply took_prefix.
  - assert (i = 0) as E0 by lia. rewrite E0 in *. apply wp_bind, wp_ret. change (Z.to_nat 0) with 0%nat in *.
    rewrite drop_0 in *. apply wp_bind, wp_get. cbn [fst snd]. rewrite Hp1.
    destruct (blit_accept f1 p b) as (f3 & Hbl & Hinv3 & Hpe3); try done.
    apply wp_bind. eapply wp_try_upd; cbn [fst snd]; [exact Hbl|]. wp_steps.
    left. split; [lia|]. apply Htook. split; [done|]. by apply accepted_pending.
Qed.

(** [fwrite] counts whole elements. *)
Lemma wp_fwrite f s src size nmemb : winv f -> 0 <= size -> 0 <= nmemb -> size * nmemb < 2 ^ 29 ->
  size * nmemb <= zlen src ->
  wp (fwrite host src size nmemb) (fun r st' =>
    let b := take (Z.to_nat (size * nmemb)) src in
    r = (if size =? 0 then 0 else nmemb) /\ took f s b true st' \/
    0 <= r < nmemb /\ took f s b false st') (f, s).
Proof.
  intros Hinv Hs Hn Hl Hsrc. unfold fwrite. cbv zeta. rewrite u32_id by (unfold in_u; nia).
  apply wp_bind. eapply wp_lift; [by rewrite (proj2 (Z.leb_le _ _)) by lia|]. apply wp_bind.
  assert (zlen (take (Z.to_nat (size * nmemb)) src) = size * nmemb) as Hz
    by (unfold zlen in *; rewrite length_take; nia).
  eapply wp_mono; [apply wp_fwritex; [done|lia]|]. rewrite Hz.
  intros k st' [[-> Ht]|[Hk Ht]]; apply wp_ret.
  - left. by rewrite Z.eqb_refl.
  - right. rewrite (proj2 (Z.eqb_neq _ _)) by lia. split; [|done].
    split; [apply Z.div_pos; nia|]. apply Z.div_lt_upper_bound; nia.
Qed.

Lemma wp_fputs f s str : winv f -> zlen str < 2 ^ 29 ->
  wp (fputs host str) (fun r st' =>
    r = 0 /\ took f s str true st' \/ r = EOF /\ took f s str false st') (f, s).
Proof.
  intros Hinv Hz. pose proof (zlen_nonneg str). unfold fputs. apply wp_bind.
  eapply wp_mono; [apply wp_fwrite; [done|lia..]|]. cbv zeta. rewrite Z.mul_1_l.
  rewrite take_ge by (unfold zlen; lia). intros r st' [[-> Ht]|[Hr Ht]]; apply wp_ret.
  - left. change (1 =? 0) with false. cbv iota. rewrite Z.eqb_refl. done.
  - right. rewrite (proj2 (Z.eqb_neq _ _)) by lia. done.
Qed.

(** A stream at rest: nothing buffered in either direction. *)
Definition at_rest (f : FILE) : Prop :=
  rpos f = None /\ rend f = None /\ wpos f = None /\ wbase f = None /\ wend f = None.

Lemma wp_fflush f s : winv f ->
  wp (fflush host) (fun r st' => let '(f', s') := st' in
    winv f' /\ (r = 0 /\ at_rest f' /\ wrote s (pend f) s' \/ r = EOF /\ lost f s [] f' s')) (f, s).
Proof.
  intros Hinv. pose proof (winv_ptrs f Hinv) as Hwp. pose proof (zlen_pend f Hwp) as [Hz _].
  assert (forall f1 s1, winv f1 -> wrote s (pend f) s1 -> rpos f1 = rend f1 ->
    wp (let* f := get_file in
        do* (if decide (rpos f = rend f) then sret 0 else __stdio_seek host (diff (rpos f) (rend f)) SEEK_CUR) in
        do* upd (with_wr None None None) in
        do* upd (with_rd None None) in
        sret 0)
      (fun r st' => let '(f', s') := st' in
        winv f' /\ (r = 0 /\ at_rest f' /\ wrote s (pend f) s' \/ r = EOF /\ lost f s [] f' s')) (f1, s1)) as Hgo.
  { intros f1 s1 Hinv1 Hw Hre. wp_steps. rewrite decide_True by done. wp_steps.
    split; [|left; by split_and!]. destruct Hinv1 as (Hst & [Hnw Hnord] & Hfd & Hbs & _). split_and!; try done.
    - right. split_and!; try done; destruct Hst as [(Hs & _)|[(Hs & _) _]]; by destruct Hs.
    - intros _. rewrite pend_idle by done. apply not_elem_of_nil. }
  unfold fflush. apply wp_bind, wp_get. cbn [fst snd]. apply wp_bind.
  destruct (decide (wpos f = wbase f)) as [E|Ne].
  { apply wp_ret. apply Hgo; [done| |].
    - assert (pend f = []) as ->; [|apply wrote_nil]. apply zlen_0. rewrite Hz, E.
      destruct (wbase f); simpl; lia.
    - destruct Hinv as ([(_ & -> & -> & _)|[_ ?]] & _); done. }
  assert (writing f) as Hwr.
  { destruct Hinv as ([Hwr|[(_ & E1 & E2 & _) _]] & _); [done|congruence]. }
  apply wp_bind. eapply wp_mono; [apply (wp_write_new f s []); [done|done|done]|].
  intros r [f1 s1] [(_ & [Hinv1 _] & Hwr1 & _ & Hw & _)|(_ & _ & [Hinv1 Ht] & Hn)]; cbn [fst snd] in *; wp_steps.
  - pose proof Hwr1 as (_ & Hr1 & Hr2 & _ & _ & p & -> & _). rewrite bool_decide_eq_false_2 by done.
    rewrite app_nil_r in Hw. apply Hgo; [done|done|congruence].
  - rewrite bool_decide_eq_true_2 by done. apply wp_ret. split; [done|]. by right.
Qed.

(** ** Sequences of writes *)

Inductive out_op := Fputc (c : Z) | Fwrite (src : list Z) (size nmemb : Z) | Fputs (str : list Z).

Definition out_op_ok (op : out_op) : Prop :=
  match op with
  | Fputc _ => True
  | Fwrite src size nmemb => 0 < size /\ 0 <= nmemb /\ size * nmemb < 2 ^ 29 /\ size * nmemb <= zlen src
  | Fputs str => zlen str < 2 ^ 29
  end.

Definition out_bytes (op : out_op) : list Z :=
  match op with
  | Fputc c => [u8 c]
  | Fwrite src size nmemb => take (Z.to_nat (size * nmemb)) src
  | Fputs str => str
  end.

(** What the operation returns when it succeeds. *)
Definition out_success (op : out_op) : Z :=
  match op with Fputc c => u8 c | Fwrite _ _ nmemb => nmemb | Fputs _ => 0 end.

Definition exec_out (op : out_op) : M (FILE * S) Z :=
  match op with
  | Fputc c => putc_unlocked host c
  | Fwrite src size nmemb => fwrite host src size nmemb
  | Fputs str => fputs host str
  end.

Fixpoint exec_outs (ops : list out_op) : M (FILE * S) (list Z) :=
  match ops with
  | [] => sret []
  | op :: ops' => let* r := exec_out op in let* rs := exec_outs ops' in sret (r :: rs)
  end.

Lemma wp_exec_out op f s : winv f -> out_op_ok op ->
  wp (exec_out op) (fun r st' => exists ok : bool, (r = out_success op <-> ok = true) /\
    took f s (out_bytes op) ok st') (f, s).
Proof.
  intros Hinv Hok. destruct op as [c|src size nmemb|str]; cbn [exec_out out_success out_bytes].
  - eapply wp_mono; [by apply wp_putc|]. pose proof (u8_range c).
    intros r st' [[-> Ht]|[-> Ht]]; [exists true|exists false]; split; try done.
    split; [|done]. unfold EOF, in_u in *. lia.
  - destruct Hok as (H1 & H2 & H3 & H4). eapply wp_mono; [apply wp_fwrite; (done || lia)|].
    cbv zeta. rewrite (proj2 (Z.eqb_neq _ _)) by lia.
    intros r st' [[-> Ht]|[Hr Ht]]; [exists true|exists false]; split; try done. split; [lia|done].
  - eapply wp_mono; [by apply wp_fputs|].
    intros r st' [[-> Ht]|[-> Ht]]; [exists true|exists false]; by split.
Qed.

Lemma accepted_trans f s a f1 s1 b f2 s2 :
  accepted f s a f1 s1 -> accepted f1 s1 b f2 s2 -> accepted f s (a ++ b) f2 s2.
Proof.
  intros (x & Ex & Hx) (y & Ey & Hy). exists (x ++ y). split; [|by eapply wrote_app].
  by rewrite app_assoc, Ex, <- !app_assoc, Ey.
Qed.

Lemma wp_exec_outs ops : forall f s, winv f -> Forall out_op_ok ops ->
  wp (exec_outs ops) (fun rs st' => let '(f', s') := st' in
    winv f' /\ (rs = map out_success ops -> accepted f s (concat (map out_bytes ops)) f' s')) (f, s).
Proof.
  induction ops as [|op ops IH]; intros f s Hinv Hok; cbn [exec_outs].
  { apply wp_ret. split; [done|]. intros _. apply accepted_pending. by rewrite app_nil_r. }
  apply Forall_cons in Hok as [Hop Hok]. apply wp_bind. eapply wp_mono; [by apply wp_exec_out|].
  intros r [f1 s1] (ok & Hr & Hinv1 & Ht). apply wp_bind. eapply wp_mono; [by apply IH|].
  intros rs [f2 s2] [Hinv2 Ha]. apply wp_ret. split; [done|]. cbn [map concat]. intros [= E ->].
  apply Hr in E as ->. eapply accepted_trans; [exact Ht|]. by apply Ha.
Qed.
End Writing.

