(* ===== verification/StdioSpec.v ===== *)
(** Positions of a stream, reading back what was written, and the theorems about
    streams. *)

From S2P Require Import Prelude Syscalls Stdio StdioBuffer StdioRead StdioWrite.

(** * Positions *)

Section Positions.
Context {S : Type} (host : forall X, wasi X -> S -> res X * S).
Context (fdn : Z) (contents : S -> list Z) (pos : S -> Z) (appends : S -> bool).
Context {Hrf : RegularFile host fdn contents pos appends}.
Context (nord : bool).
Implicit Types (f : FILE) (s : S).
Notation wrote := (wrote contents pos appends).
Notation target := (target contents pos appends).

(** A stream in either direction. *)
Definition sinv (f : FILE) : Prop :=
  (writing f \/ not_writing f) /\ fd f = fdn /\ buf_size f < 2 ^ 29.

(** The position of the next byte to be read or written; pending bytes of a
    descriptor that appends will be at the end of the file. *)
Definition base (f : FILE) (s : S) : Z := match pend f with [] => pos s | _ => target s end.
Definition lpos (f : FILE) (s : S) : Z := base f s - zlen (buffered f) + zlen (pend f).

Lemma run_lseek off whence s : exists r s', run host (lseek fdn off whence) s = (r, s') /\
  contents s' = contents s /\ appends s' = appends s /\
  match r with
  | Err _ => pos s' = pos s
  | Val n => n = seek_base whence (pos s) (zlen (contents s)) + off /\ pos s' = n /\ 0 <= n
  end.
Proof.
  unfold lseek. rewrite run_ask_or. destruct (host _ (fd_seek fdn off whence) s) as [[n|e] s'] eqn:Eh;
    apply rf_seek in Eh as (Hc & Ha & Hr).
  - destruct Hr as (Hn & Hp & Hlt). pose proof (rf_pos s' : 0 <= pos s').
    eexists _, s'. split; [reflexivity|]. rewrite s64_id by (bounds; lia). split_and!; try done; lia.
  - eexists _, s'. by split.
Qed.

Lemma diff_rd f : not_writing f -> diff (rend f) (rpos f) = zlen (buffered f).
Proof.
  intros ([Hs1 Hs2] & _ & _ & _ & Hr). unfold buffered, diff.
  destruct (rpos f), (rend f); try done. rewrite zlen_slice by (unfold UNGET in *; lia). lia.
Qed.

Lemma diff_anti a b : diff a b = - diff b a.
Proof. destruct a, b; simpl; lia. Qed.

Lemma sinv_wptrs f : sinv f -> wptrs f.
Proof.
  intros ([(Hs & _ & _ & H1 & H2 & H3)|(Hs & H1 & H2 & H3 & _)] & _); split; auto.
Qed.

Lemma base_seek f s : wptrs f -> has_flag F_APP f = appends s ->
  seek_base (if has_flag F_APP f && bool_decide (wpos f <> wbase f) then SEEK_END else SEEK_CUR)
    (pos s) (zlen (contents s)) = base f s.
Proof.
  intros Hw ->. pose proof (zlen_pend f Hw) as [Hz _]. destruct Hw as (_ & [(H1 & H2 & _)|(H1 & _ & p & H3 & Hp)]);
    unfold base, StdioWrite.target.
  - rewrite H1, H2 in *. cbn [diff] in Hz. rewrite (zlen_0 (pend f)) by lia.
    rewrite bool_decide_eq_false_2 by naive_solver. by rewrite andb_false_r.
  - rewrite H1, H3 in *. cbn [diff] in Hz. destruct (decide (p = 0)) as [-> |Hne].
    + rewrite (zlen_0 (pend f)) by lia. rewrite bool_decide_eq_false_2 by naive_solver. by rewrite andb_false_r.
    + rewrite bool_decide_eq_true_2 by congruence. destruct (pend f); [change (zlen []) with 0 in Hz; lia|]. by destruct (appends s).
Qed.

Lemma wp_ftello f s : sinv f -> has_flag F_APP f = appends s -> base f s < 2 ^ 62 ->
  wp (__ftello_unlocked host) (fun r st' => fst st' = f /\ contents (snd st') = contents s /\
    (r = -1 \/ r = lpos f s)) (f, s).
Proof.
  intros Hinv Happ Hpos. pose proof Hinv as (Hst & Hfd & Hbs). pose proof (base_seek f s (sinv_wptrs f Hinv) Happ) as Hseek.
  change (lpos f s) with (base f s - zlen (buffered f) + zlen (pend f)).
  unfold __ftello_unlocked. wp_steps. unfold __stdio_seek. wp_steps. rewrite Hfd.
  destruct (run_lseek 0 (if has_flag F_APP f && bool_decide (wpos f <> wbase f) then SEEK_END else SEEK_CUR) s)
    as (r & s' & Hrun & Hc & _ & Hr). eapply wp_sys; [exact Hrun|]. wp_steps.
  destruct r as [n|e]; [|change (-1 <? 0) with true; cbv iota; wp_steps; split_and!; try done; by left].
  destruct Hr as (Hn & _ & H0). rewrite Hseek, Z.add_0_r in Hn. rewrite (proj2 (Z.ltb_ge _ _)) by lia. wp_steps.
  pose proof (zlen_pend f (sinv_wptrs f Hinv)) as [Hzp Hzb].
  destruct Hst as [(Hs & Hr1 & Hr2 & Hb1 & _)|Hnw].
  - rewrite Hr2, Hb1. wp_steps. cbn [fst snd]. split_and!; try done. right.
    assert (buffered f = []) as -> by (unfold buffered; by rewrite Hr1). change (zlen []) with 0.
    rewrite <- Hb1, <- Hzp. rewrite s64_id by (bounds; lia). lia.
  - pose proof Hnw as (Hs & Hw1 & Hw2 & Hw3 & Hrd). pose proof (diff_rd f Hnw) as Hd.
    assert (zlen (pend f) = 0) as Hz0 by (unfold pend; by rewrite Hw2). rewrite Hz0.
    destruct (rend f) as [e|] eqn:Ee.
    + rewrite diff_anti, Hd. wp_steps. cbn [fst snd]. split_and!; try done. right.
      assert (0 <= zlen (buffered f) <= 2 ^ 29 + 8).
      { split; [apply zlen_nonneg|]. rewrite <- Hd. destruct (rpos f); [|done]. cbn [diff]. unfold UNGET in Hrd. lia. }
      rewrite s64_id by (bounds; lia). lia.
    + rewrite Hw2. wp_steps. cbn [fst snd]. split_and!; try done. right.
      assert (buffered f = []) as -> by (unfold buffered; rewrite Ee; by destruct (rpos f)).
      change (zlen []) with 0. lia.
Qed.

(** The contents of the file once the pending bytes are written. *)
Definition flushed (f : FILE) (s : S) : list Z := splice (contents s) (target s) (pend f).

(** After a successful seek nothing is buffered, the file is up to date and its
    position is the one asked for. *)
Definition sought (f : FILE) (s : S) (target : Z) (st' : FILE * S) : Prop :=
  let '(f', s') := st' in
  at_rest f' /\ sized f' /\ fd f' = fd f /\ buf_size f' = buf_size f /\
  has_flag F_EOF f' = false /\ has_flag F_NORD f' = has_flag F_NORD f /\
  has_flag F_NOWR f' = has_flag F_NOWR f /\
  contents s' = flushed f s /\ pos s' = target.

Lemma wp_seek_end f f1 s s1 off whence target :
  sized f1 -> fd f = fdn -> fd f1 = fd f -> buf_size f1 = buf_size f ->
  has_flag F_NORD f1 = has_flag F_NORD f -> has_flag F_NOWR f1 = has_flag F_NOWR f ->
  contents s1 = flushed f s -> seek_base whence (pos s1) (zlen (contents s1)) + off = target ->
  wp (do* upd (with_wr None None None) in
      let* r := __stdio_seek host off whence in
      if r <? 0 then sret (-1)
      else
        do* upd (with_rd None None) in
        do* upd (clear_flag F_EOF) in
        sret 0) (fun r st' => r = -1 \/ r = 0 /\ sought f s target st') (f1, s1).
Proof.
  intros Hsz Hfd Hfd1 Hbs Hrd Hwr Hc Htg. wp_steps. unfold __stdio_seek. wp_steps.
  cbn [fd with_wr]. rewrite Hfd1, Hfd.
  destruct (run_lseek off whence s1) as (r & s2 & Hrun & Hc2 & _ & Hr). eapply wp_sys; [exact Hrun|]. wp_steps.
  destruct r as [n|e]; [|change (-1 <? 0) with true; cbv iota; wp_steps; by left].
  destruct Hr as (Hn & Hp & H0). rewrite (proj2 (Z.ltb_ge _ _)) by lia. wp_steps.
  right. split; [done|]. split_and!; try done.
  - by flag_simp.
  - rewrite <- Hrd. flag_simp. done.
  - rewrite <- Hwr. flag_simp. done.
  - congruence.
  - congruence.
Qed.

Lemma wp_fseeko f s off whence : sinv f -> (writing f -> winv fdn nord f) ->
  whence = SEEK_SET \/ whence = SEEK_CUR \/ whence = SEEK_END ->
  in_s 63 off ->
  wp (__fseeko_unlocked host off whence) (fun r st' => r = -1 \/
    r = 0 /\ sought f s (seek_base whence (lpos f s) (zlen (flushed f s)) + off) st') (f, s).
Proof.
  intros Hinv Hw Hwh Hoff. pose proof Hinv as (Hst & Hfd & Hbs). unfold __fseeko_unlocked.
  assert (negb (whence =? SEEK_CUR) && negb (whence =? SEEK_SET) && negb (whence =? SEEK_END) = false) as ->
    by (by destruct Hwh as [-> |[-> | ->]]).
  wp_steps. destruct Hst as [Hwr|Hnw].
  - specialize (Hw Hwr). pose proof Hwr as (Hs & Hr1 & Hr2 & Hb1 & Hb2 & p & Hp1 & Hp2).
    assert (buffered f = []) as Hb0 by (unfold buffered; by rewrite Hr1).
    rewrite Hr2. rewrite (bool_decide_eq_false_2 (None <> None)) by naive_solver. rewrite andb_false_r.
    unfold lpos, base. rewrite Hb0. change (zlen []) with 0. rewrite Z.sub_0_r.
    destruct (decide (wpos f = wbase f)) as [E|Ne].
    + assert (pend f = []) as Hpe.
      { unfold pend. rewrite Hb1. rewrite Hp1. rewrite Hp1, Hb1 in E. injection E as ->. apply slice_nil. }
      apply wp_ret. eapply wp_seek_end; try done.
      * unfold flushed. by rewrite Hpe.
      * unfold flushed. rewrite Hpe. cbn [splice]. change (zlen []) with 0. by rewrite Z.add_0_r.
    + apply wp_bind. eapply wp_mono; [apply (wp_write_new host fdn contents pos appends nord f s []); done|].
      intros r [f1 s1] [(_ & [Hinv1 _] & Hwr1 & _ & (Hc1 & Hp1' & _) & Hbs1 & Hfl1 & _)|(_ & _ & _ & Hn)]; cbn [fst snd] in *; wp_steps.
      * pose proof Hwr1 as (Hs1 & _ & _ & _ & _ & p1 & -> & _). rewrite bool_decide_eq_false_2 by done.
        rewrite app_nil_r in *. eapply wp_seek_end; try done.
        -- destruct Hinv1 as (_ & _ & -> & _). done.
        -- unfold has_flag. by rewrite Hfl1.
        -- unfold has_flag. by rewrite Hfl1.
        -- rewrite Hc1, Hp1'. fold (flushed f s). destruct (pend f) eqn:Epe; [|done].
           exfalso. apply Ne. rewrite Hp1, Hb1. unfold pend in Epe. rewrite Hb1, Hp1 in Epe. apply (f_equal zlen) in Epe.
           destruct Hs. rewrite zlen_slice in Epe by (unfold UNGET in *; lia). change (zlen []) with 0 in Epe. f_equal. lia.
      * rewrite bool_decide_eq_true_2 by done. apply wp_ret. by left.
  - pose proof Hnw as (Hs & Hw1 & Hw2 & Hw3 & Hrd). pose proof (diff_rd f Hnw) as Hd.
    assert (pend f = []) as Hpe by (unfold pend; by rewrite Hw2).
    rewrite Hw1, Hw2, decide_True by done. apply wp_ret. eapply wp_seek_end; try done.
    + unfold flushed. by rewrite Hpe.
    + unfold flushed, lpos, base. rewrite Hpe, Hd. cbn [splice]. change (zlen []) with 0.
      pose proof (zlen_nonneg (buffered f)).
      assert (zlen (buffered f) <= 2 ^ 29 + 8).
      { rewrite <- Hd. destruct (rpos f), (rend f); try done. cbn [diff]. unfold UNGET in Hrd. lia. }
      unfold seek_base. destruct Hwh as [-> |[-> | ->]]; [done| |done].
      change (SEEK_CUR =? SEEK_CUR) with true. change (SEEK_CUR =? SEEK_SET) with false. cbn [andb]. cbv iota.
      destruct (rend f) as [e|] eqn:Ee.
      * rewrite bool_decide_eq_true_2 by done. rewrite s64_id by (bounds; lia). lia.
      * rewrite bool_decide_eq_false_2 by naive_solver.
        assert (buffered f = []) as E by (unfold buffered; rewrite Ee; by destruct (rpos f)).
        rewrite E. change (zlen []) with 0. lia.
Qed.

(** ** Reading back *)

Lemma drop_splice c p a b : 0 <= p -> b <> [] ->
  take (length b) (drop (Z.to_nat (p + zlen a)) (splice c p (a ++ b))) = b.
Proof.
  intros Hp Hb. unfold splice. destruct (a ++ b) as [|x l] eqn:E; [by apply app_eq_nil in E as [_ ?]|].
  rewrite <- E. rewrite (app_assoc (take _ c)).
  set (h := take (Z.to_nat p) c ++ replicate (Z.to_nat p - length c) 0).
  assert (length h = Z.to_nat p) as Hh by (subst h; rewrite length_app, length_take, length_replicate; lia).
  rewrite Z2Nat.inj_add by (done || apply zlen_nonneg). unfold zlen. rewrite Nat2Z.id.
  rewrite <- Hh, <- length_app, app_assoc, app_assoc. rewrite <- (app_assoc (h ++ a)).
  by rewrite drop_app_length, take_app_length.
Qed.

Lemma splice_bytes c p b : Forall (in_u 8) c -> Forall (in_u 8) b -> Forall (in_u 8) (splice c p b).
Proof.
  intros Hc Hb. unfold splice. destruct b; [done|].
  repeat apply Forall_app_2; [by apply Forall_take|apply Forall_replicate; unfold in_u; lia|done|by apply Forall_drop].
Qed.

(** A stream at the position a seek gave, ready to be read. *)
Lemma sought_rinv f s target f' s' : fd f = fdn -> has_flag F_NORD f = false ->
  Forall (in_u 8) (flushed f s) -> sought f s target (f', s') ->
  rinv fdn contents pos f' s' /\ ahead contents pos f' s' = drop (Z.to_nat target) (flushed f s).
Proof.
  intros Hfd Hrd Hby ((Hr1 & Hr2 & Hw1 & Hw2 & Hw3) & Hs & Hfd' & Hbs & He & Hrd' & _ & Hc & Hp).
  assert (ahead contents pos f' s' = drop (Z.to_nat target) (flushed f s)) as Ea.
  { unfold ahead, buffered, rest. rewrite Hr1. cbn [app]. congruence. }
  split; [|done]. split_and!.
  - split_and!; try done; [by destruct Hs..|]. by rewrite Hr1, Hr2.
  - congruence.
  - congruence.
  - intros E. congruence.
  - rewrite Ea. by apply Forall_drop.
Qed.

(** What is written and then read from the same place, each step only when the
    one before reported success. *)
Definition write_seek_read (b : list Z) (off : Z) : M (FILE * S) (option (Z * list Z)) :=
  let* n := fwrite host b 1 (zlen b) in
  if n =? zlen b then
    let* r := __fseeko_unlocked host off SEEK_SET in
    if r =? 0 then let* c := fread host 1 (zlen b) in sret (Some c) else sret None
  else sret None.

Lemma winv_sinv f : winv fdn nord f -> sinv f.
Proof. intros ([Hw|[Hw _]] & _ & Hfd & Hbs & _); split_and!; auto. Qed.

Lemma winv_buffered f : winv fdn nord f -> buffered f = [].
Proof.
  intros ([(_ & H1 & _)|[_ Hre]] & _); [unfold buffered; by rewrite H1|by apply buffered_nil].
Qed.

(** The file after an accepted write, once flushed. *)
Lemma accepted_flushed f s b f1 s1 : accepted contents pos appends f s b f1 s1 ->
  flushed f1 s1 = splice (contents s) (target s) (pend f ++ b).
Proof.
  intros (x & Ex & Hw). unfold flushed. rewrite Ex, (wrote_target contents pos appends s x s1 Hw).
  destruct Hw as (-> & _). apply splice_app. by apply (target_nonneg host fdn).
Qed.

(** Where the next byte written will be. *)
Definition place (f : FILE) (s : S) : Z := target s + zlen (pend f).

Lemma wp_write_seek_read f s b : winv fdn nord f -> nord = false ->
  zlen b < 2 ^ 29 -> place f s < 2 ^ 62 ->
  Forall (in_u 8) (contents s) -> Forall (in_u 8) (pend f) -> Forall (in_u 8) b ->
  wp (write_seek_read b (place f s)) (fun res st' => match res with
    | Some (m, c) => c `prefix_of` b /\ m = zlen c /\ (m < zlen b -> has_flag F_ERR (fst st') = true)
    | None => True
    end) (f, s).
Proof.
  intros Hinv Hrd Hb Hpos Hbc Hbp Hbb. pose proof (zlen_nonneg b). unfold write_seek_read.
  pose proof (target_nonneg host fdn contents pos appends s) as Ht0. pose proof (zlen_nonneg (pend f)).
  assert (0 <= place f s) as Hpl by (unfold place; lia).
  apply wp_bind. eapply wp_mono; [apply (wp_fwrite host fdn contents pos appends nord); (done || lia)|]. cbv zeta.
  rewrite Z.mul_1_l, take_ge by (unfold zlen; lia). change (1 =? 0) with false. cbv iota.
  intros n [f1 s1] [[-> [Hinv1 Hacc]]|[Hn _]].
  2:{ rewrite (proj2 (Z.eqb_neq _ _)) by lia. by apply wp_ret. }
  rewrite Z.eqb_refl. pose proof (accepted_flushed f s b f1 s1 Hacc) as Hfl.
  apply wp_bind. eapply wp_mono; [apply wp_fseeko; [by apply winv_sinv|done|by left|bounds; lia]|].
  intros r [f2 s2] [-> |[-> Hso]]; [by apply wp_ret|]. rewrite Z.eqb_refl.
  change (seek_base SEEK_SET ?a ?b) with 0 in Hso. rewrite Z.add_0_l in Hso.
  destruct (sought_rinv f1 s1 (place f s) f2 s2) as [Hinv2 Ha2]; try done.
  { by destruct Hinv1 as (_ & _ & ? & _). }
  { destruct Hinv1 as (_ & [_ ->] & _). done. }
  { rewrite Hfl. apply splice_bytes; [done|by apply Forall_app_2]. }
  apply wp_bind. eapply wp_mono; [apply (wp_fread host fdn contents pos appends); (done || lia)|].
  intros [m c] [f3 s3] (Hinv3 & _ & Ha3 & Hz & Ht & ->). rewrite Z.mul_1_l in *. change (1 =? 0) with false. cbv iota.
  apply wp_ret. rewrite Z.div_1_r. cbn [fst].
  rewrite Ha2, Hfl in Ha3. unfold place in Ha3.
  assert (c `prefix_of` b) as Hpre.
  { destruct (decide (b = [])) as [-> |Hne].
    { change (zlen []) with 0 in Hz. rewrite (zlen_0 c) by (pose proof (zlen_nonneg c); lia). done. }
    exists (drop (length c) b). rewrite <- (drop_splice (contents s) (target s) (pend f) b) at 1 2 by done.
    rewrite Ha3. unfold zlen in Hz. rewrite take_app_ge by lia. rewrite drop_app_length. done. }
  split_and!; [done|done|]. intros Hlt. destruct (Ht Hlt) as [He|[_ E0]]; [done|]. exfalso.
  rewrite E0, app_nil_r in Ha3. destruct (decide (b = [])) as [-> |Hne].
  { change (zlen []) with 0 in Hlt. pose proof (zlen_nonneg c). lia. }
  pose proof (drop_splice (contents s) (target s) (pend f) b ltac:(done) Hne) as E. rewrite Ha3 in E.
  apply (f_equal length) in E. rewrite length_take in E. unfold zlen in Hlt. lia.
Qed.
End Positions.

(** * Opened streams *)

(** The descriptor and the indicators of a stream that was just opened. *)
Definition opened (f : FILE) (fdn : Z) (nord nowr : bool) : Prop :=
  at_rest f /\ sized f /\ fd f = fdn /\ buf_size f = BUFSIZ /\
  has_flag F_NORD f = nord /\ has_flag F_NOWR f = nowr /\
  has_flag F_EOF f = false /\ has_flag F_ERR f = false.

Lemma run_pbind {S : Type} (host : forall X, wasi X -> S -> res X * S) {A B} (p : prog A) (k : A -> prog B) :
  forall s, run host (pbind p k) s = let (a, s') := run host p s in run host (k a) s'.
Proof.
  induction p as [a|X c h IH]; intros s; [done|]. simpl. destruct (host X c s) as [r s']. apply IH.
Qed.

(** A stream can be read unless its mode is [w] or [a] alone, and written unless
    it is [r] alone; nothing is buffered yet. *)
Lemma fdopen_opened {S : Type} (host : forall X, wasi X -> S -> res X * S) fdn mode s f s' :
  run host (__fdopen true fdn mode) s = (Val f, s') ->
  opened f fdn (negb (has_char mode 43) && negb (schar mode 0 =? 114))
    (negb (has_char mode 43) && (schar mode 0 =? 114)).
Proof.
  unfold __fdopen. destruct (mode_ok mode); [|done]. cbn [negb]. cbv zeta. rewrite run_pbind.
  destruct (run host (if has_char mode 101 then _ else _) s) as [r1 s1]. rewrite run_pbind.
  destruct (run host (if schar mode 0 =? 97 then _ else _) s1) as [r2 s2]. rewrite run_pbind.
  destruct (run host _ s2) as [r3 s3]. cbn [run]. intros [= <- <-].
  destruct (has_char mode 43), (Z.eqb_spec (schar mode 0) 114) as [E|E], (Z.eqb_spec (schar mode 0) 97) as [E'|E'];
    cbn [negb andb]; try congruence; repeat split; vm_compute; done.
Qed.

Lemma opened_rinv {S : Type} (contents : S -> list Z) (pos : S -> Z) f fdn nowr s :
  opened f fdn false nowr -> Forall (in_u 8) (contents s) ->
  rinv fdn contents pos f s /\ ahead contents pos f s = drop (Z.to_nat (pos s)) (contents s).
Proof.
  intros ((H1 & H2 & H3 & H4 & H5) & Hs & Hfd & Hbs & Hrd & _ & He & _) Hby.
  assert (ahead contents pos f s = drop (Z.to_nat (pos s)) (contents s)) as Ea.
  { unfold ahead, buffered. by rewrite H1. }
  split; [|done]. split_and!.
  - split_and!; try done; [by destruct Hs..|]. by rewrite H1, H2.
  - done.
  - done.
  - intros E. congruence.
  - rewrite Ea. by apply Forall_drop.
Qed.

Lemma opened_winv f fdn nord : opened f fdn nord false -> winv fdn nord f /\ pend f = [].
Proof.
  intros ((H1 & H2 & H3 & H4 & H5) & Hs & Hfd & Hbs & Hrd & Hwr & He & _).
  assert (pend f = []) as Hp by (unfold pend; by rewrite H4).
  split; [|done]. split_and!; try done.
  - right. split; [split_and!; try done; [by destruct Hs..|by rewrite H1, H2]|congruence].
  - by rewrite Hbs.
  - intros _. rewrite Hp. apply not_elem_of_nil.
Qed.

(** * The theorems *)

(** C19: reading a stream: after [fdopen] on a regular file, any sequence of
    [fgetc], [fread], [fgets] and [ungetc] returns, and together they deliver the
    bytes of the file from the descriptor's position on, each byte once and in
    order, whatever the lengths of the host's reads and the buffer boundaries;
    [fgets] gives the longest line that fits; fewer bytes come only at the end of
    the file, with the end-of-file indicator, or after a host error, with the
    error indicator; pushed-back bytes are read first. *)
Theorem stdio_input {S : Type} (host : forall X, wasi X -> S -> res X * S) fdn contents pos appends
    `{!RegularFile host fdn contents pos appends} mode s0 f s ops :
  has_char mode 43 = true \/ schar mode 0 = 114 ->
  run host (__fdopen true fdn mode) s0 = (Val f, s) ->
  Forall (in_u 8) (contents s) -> Forall in_op_ok ops ->
  exists rs f' s', exec_all host ops (f, s) = Ok (rs, (f', s')) /\ contents s' = contents s /\
    in_steps ops (drop (Z.to_nat (pos s)) (contents s)) rs (ahead contents pos f' s').
Proof.
  intros Hm Hf Hby Hok. apply fdopen_opened in Hf.
  assert (negb (has_char mode 43) && negb (schar mode 0 =? 114) = false) as E by (by destruct Hm as [-> | ->]; rewrite ?andb_false_r).
  rewrite E in Hf. destruct (opened_rinv contents pos f fdn _ s Hf Hby) as [Hinv Ha].
  destruct (wp_exec_all host fdn contents pos appends ops f s Hinv Hok) as (rs & [f' s'] & Hr & Hinv' & Hc & Hs).
  rewrite Ha in Hs. eauto 10.
Qed.

(** Writing a stream: after [fdopen] on a regular file, any sequence of
    [fputc], [fwrite] and [fputs] that all report success has put a prefix of the
    bytes into the file, at the descriptor's position, or at the end of the file when the
    descriptor appends; the rest, without a newline
    if the stream is line-buffered, is pending; and when [fflush] then reports
    success the file holds exactly the bytes written, in order, and is otherwise
    unchanged. *)
Theorem stdio_output {S : Type} (host : forall X, wasi X -> S -> res X * S) fdn contents pos appends
    `{!RegularFile host fdn contents pos appends} mode s0 f s ops :
  has_char mode 43 = true \/ schar mode 0 <> 114 ->
  run host (__fdopen true fdn mode) s0 = (Val f, s) -> Forall out_op_ok ops ->
  let bytes := concat (map out_bytes ops) in
  exists rs f1 s1 r f2 s2, exec_outs host ops (f, s) = Ok (rs, (f1, s1)) /\
    fflush host (f1, s1) = Ok (r, (f2, s2)) /\
    (rs = map out_success ops ->
       (exists x, bytes = x ++ pend f1 /\ wrote contents pos appends s x s1 /\
          (lbf f1 = 10 -> 10 ∉ pend f1)) /\
       (r = 0 -> at_rest f2 /\ wrote contents pos appends s bytes s2)).
Proof.
  intros Hm Hf Hok bytes. apply fdopen_opened in Hf.
  assert (negb (has_char mode 43) && (schar mode 0 =? 114) = false) as E.
  { destruct Hm as [-> |Hm]; [done|]. rewrite (proj2 (Z.eqb_neq _ _)) by done. by rewrite andb_false_r. }
  rewrite E in Hf. destruct (opened_winv f fdn _ Hf) as [Hinv Hp].
  destruct (wp_exec_outs host fdn contents pos appends _ ops f s Hinv Hok) as (rs & [f1 s1] & Hr & Hinv1 & Ha).
  destruct (wp_fflush host fdn contents pos appends _ f1 s1 Hinv1) as (r & [f2 s2] & Hr2 & _ & Hfl).
  exists rs, f1, s1, r, f2, s2. split_and!; try done. intros Hrs.
  destruct (Ha Hrs) as (x & Ex & Hw). rewrite Hp in Ex. cbn [app] in Ex. fold bytes in Ex. split.
  - exists x. split_and!; try done. by destruct Hinv1 as (_ & _ & _ & _ & Hl).
  - intros ->. destruct Hfl as [(_ & Hrest & Hw2)|[? _]]; [|done].
    split; [done|]. rewrite Ex. by apply (wrote_app host fdn contents pos appends s x s1).
Qed.

(** C20: reading back: on a stream opened for update, writing bytes, seeking back
    to where they were written (after the pending bytes, which go to the descriptor's
    position, or to the end of the file when the descriptor appends, as [a+] makes it) and reading as
    many gives the bytes written, when no call reports an error; a short read
    always comes with the error indicator. *)
Theorem stdio_write_read {S : Type} (host : forall X, wasi X -> S -> res X * S) fdn contents pos appends
    `{!RegularFile host fdn contents pos appends} mode s0 f s ops rs f1 s1 b :
  has_char mode 43 = true ->
  run host (__fdopen true fdn mode) s0 = (Val f, s) -> Forall out_op_ok ops ->
  exec_outs host ops (f, s) = Ok (rs, (f1, s1)) ->
  Forall (in_u 8) (contents s1) -> Forall (in_u 8) (pend f1) -> Forall (in_u 8) b ->
  zlen b < 2 ^ 29 -> place contents pos appends f1 s1 < 2 ^ 62 ->
  exists res st', write_seek_read host b (place contents pos appends f1 s1) (f1, s1) = Ok (res, st') /\
    match res with
    | Some (m, c) => c `prefix_of` b /\ m = zlen c /\ (m < zlen b -> has_flag F_ERR (fst st') = true)
    | None => True
    end.
Proof.
  intros Hm Hf Hok Hex Hb1 Hb2 Hb3 Hz Hl. apply fdopen_opened in Hf. rewrite Hm in Hf. cbn [negb andb] in Hf.
  destruct (opened_winv f fdn _ Hf) as [Hinv Hp].
  destruct (wp_exec_outs host fdn contents pos appends false ops f s Hinv Hok) as (rs' & [f1' s1'] & Hr & Hinv1 & _).
  rewrite Hex in Hr. injection Hr as <- <- <-.
  by apply (wp_write_seek_read host fdn contents pos appends false).
Qed.

(** ** A host with one file, which reads and writes at most three bytes at a time *)

Definition disk_state : Type := list Z * nat.

Definition disk (X : Type) (c : wasi X) : disk_state -> res X * disk_state :=
  match c in wasi X return disk_state -> res X * disk_state with
  | fd_read _ lens => fun s =>
      let d := take (Nat.min 3 (Z.to_nat (zsum lens))) (drop (snd s) (fst s)) in
      (Val d, (fst s, snd s + length d)%nat)
  | fd_write _ bufs => fun s =>
      let b := take 3 (concat bufs) in
      (Val (zlen b), (splice (fst s) (Z.of_nat (snd s)) b, snd s + length b)%nat)
  | fd_seek _ off whence => fun s =>
      let n := seek_base whence (Z.of_nat (snd s)) (zlen (fst s)) + off in
      if (0 <=? n) && (n <? 2 ^ 63) then (Val n, (fst s, Z.to_nat n)) else (Err EINVAL, s)
  | _ => fun s => (Err ENOSYS, s)
  end.

Definition disk_pos (s : disk_state) : Z := Z.of_nat (snd s).

Lemma pair_split {A B} (a a' : A) (b b' : B) : (a, b) = (a', b') -> a = a' /\ b = b'.
Proof. by intros [= -> ->]. Qed.

#[local] Instance disk_file fdn : RegularFile disk fdn fst disk_pos (fun _ => false).
Proof.
  split; unfold disk_pos.
  - intros s. lia.
  - intros lens [c p] r s' Hl. cbn [disk fst snd]. cbv zeta. intros [<- <-]%pair_split. cbn [fst snd].
    set (d := take _ _). assert (length d = Nat.min (Nat.min 3 (Z.to_nat (zsum lens))) (length c - p)) as Hd.
    { subst d. by rewrite length_take, length_drop. }
    split_and!; [done|done| | | |unfold zlen; lia].
    + rewrite Nat2Z.id. subst d. rewrite length_take. destruct (Nat.min_spec (Nat.min 3 (Z.to_nat (zsum lens))) (length (drop p c))) as [[? ->]|[? ->]];
        [done|]. by rewrite !take_ge by lia.
    + unfold zlen. lia.
    + intros E. rewrite E in Hd. change (length []) with 0%nat in Hd. unfold zlen. lia.
  - intros bufs [c p] r s'. cbn [disk fst snd]. cbv zeta. intros [<- <-]%pair_split. cbn [fst snd].
    unfold zlen. rewrite length_take. split_and!; [done|lia|lia| | |destruct (Z.eqb_spec (Z.of_nat (Nat.min 3 (length (concat bufs)))) 0); lia].
    + intros E. destruct (concat bufs); [done|simpl in E; lia].
    + rewrite Nat2Z.id. destruct (Nat.min_spec 3 (length (concat bufs))) as [[? ->]|[? ->]]; [done|].
      by rewrite !take_ge by lia.
  - intros off whence [c p] r s'. cbn [disk fst snd]. cbv zeta.
    destruct ((0 <=? _) && _) eqn:E; intros [<- <-]%pair_split; cbn [fst snd]; (split; [done|]; split; [done|]; try done).
    bool_hyps. split_and!; [done|lia|done].
  - intros [c p] r s'. cbn [disk]. by intros [<- <-]%pair_split.
Qed.

(** The file [ab\ncd] opened for reading. *)
Definition demo_file : disk_state := ([97; 98; 10; 99; 100], 0%nat).
Definition demo_stream : FILE :=
  match run disk (__fdopen true 3 [114]) demo_file with (Val f, _) => f | _ => stdin end.

Lemma stdio_input_witness :
  exists rs f' s', exec_all disk [Fgetc; Ungetc 120; Fgets 10; Fread 1 9] (demo_stream, demo_file) = Ok (rs, (f', s')) /\
    fst s' = [97; 98; 10; 99; 100] /\
    in_steps [Fgetc; Ungetc 120; Fgets 10; Fread 1 9] [97; 98; 10; 99; 100] rs (ahead fst disk_pos f' s').
Proof.
  apply (stdio_input disk 3 fst disk_pos (fun _ => false) [114] demo_file demo_stream demo_file).
  - by right.
  - vm_compute. reflexivity.
  - repeat constructor; vm_compute; done.
  - repeat constructor; vm_compute; done.
Defined.

(** An empty file opened for update. *)
Definition new_file : disk_state := ([], 0%nat).
Definition new_stream : FILE :=
  match run disk (__fdopen true 3 [119; 43]) new_file with (Val f, _) => f | _ => stdin end.
Definition demo_writes : list out_op := [Fputs [104; 105]; Fputc 10; Fwrite [1; 2; 3; 4] 2 2].

Lemma stdio_output_witness :
  exists rs f1 s1 r f2 s2, exec_outs disk demo_writes (new_stream, new_file) = Ok (rs, (f1, s1)) /\
    fflush disk (f1, s1) = Ok (r, (f2, s2)) /\
    (rs = map out_success demo_writes ->
       (exists x, concat (map out_bytes demo_writes) = x ++ pend f1 /\ wrote fst disk_pos (fun _ => false) new_file x s1 /\
          (lbf f1 = 10 -> 10 ∉ pend f1)) /\
       (r = 0 -> at_rest f2 /\ wrote fst disk_pos (fun _ => false) new_file (concat (map out_bytes demo_writes)) s2)).
Proof.
  apply (stdio_output disk 3 fst disk_pos (fun _ => false) [119; 43] new_file new_stream new_file demo_writes).
  - by left.
  - vm_compute. reflexivity.
  - repeat constructor; vm_compute; done.
Defined.

(** The bytes of [demo_writes] are in the file. *)
Example demo_flush :
  match exec_outs disk demo_writes (new_stream, new_file) with
  | Ok (_, st) => match fflush disk st with Ok (r, (_, s)) => Some (r, fst s) | _ => None end
  | _ => None
  end = Some (0, [104; 105; 10; 1; 2; 3; 4]).
Proof. vm_compute. reflexivity. Qed.

(** The same host with the append flag of the descriptor: [fd_fdstat_set_flags]
    sets it, and writes then go to the end of the file. *)
Definition flag_disk (X : Type) (c : wasi X) : disk_state * bool -> res X * (disk_state * bool) :=
  match c in wasi X return disk_state * bool -> res X * (disk_state * bool) with
  | fd_write fd bufs => fun s =>
      let '((c, p), app) := s in
      let st := if app && negb (zlen (take 3 (concat bufs)) =? 0) then (c, length c) else (c, p) in
      let '(r, st') := disk _ (fd_write fd bufs) st in (r, (st', app))
  | fd_fdstat_get _ => fun s => (Val (Fdstat FILETYPE_REGULAR_FILE (if snd s then O_APPEND else 0) (2 ^ 30 - 1) 0), s)
  | fd_fdstat_set_flags _ fl => fun s => (Val tt, (fst s, Z.testbit fl 0))
  | c => fun s => let '(r, st') := disk _ c (fst s) in (r, (st', snd s))
  end.

#[local] Instance flag_disk_file fdn : RegularFile flag_disk fdn (fun s => fst (fst s)) (fun s => disk_pos (fst s)) snd.
Proof.
  split.
  - intros s. apply (rf_pos (RegularFile := disk_file fdn) (fst s)).
  - intros lens [st app] r s' Hl. cbn [flag_disk fst snd]. destruct (disk _ _ st) as [r1 st1] eqn:E.
    intros [<- <-]%pair_split. cbn [fst snd]. apply (rf_read (RegularFile := disk_file fdn)) in E as (-> & _ & H); done.
  - intros bufs [[c p] app] r s'. cbn [flag_disk]. cbv zeta.
    destruct (disk _ (fd_write fdn bufs) _) as [r1 st1] eqn:E. intros [<- <-]%pair_split. cbn [fst snd]. split; [done|].
    cbn [disk fst snd] in E. cbv zeta in E. apply pair_split in E as [<- <-]. cbn [fst snd].
    pose proof (rf_write (RegularFile := disk_file fdn) bufs (c, if app then length c else p) _ _ eq_refl) as (_ & H1 & H2 & H3 & H4).
    cbn [fst snd] in H3, H4. destruct app; cbn [andb].
    + set (b := take 3 (concat bufs)) in *. destruct (Z.eqb_spec (zlen b) 0) as [Hz|Hz]; cbn [negb fst snd];
        (split; [exact H1|]; split; [exact H2|]); unfold disk_pos in *; cbn [fst snd] in *.
      * rewrite (H2 Hz), (zlen_0 b Hz), Nat.add_0_r. done.
      * split; [done|]. unfold zlen. lia.
    + (split; [exact H1|]; split; [exact H2|]); done.
  - intros off whence [st app] r s'. cbn [flag_disk fst snd]. destruct (disk _ _ st) as [r1 st1] eqn:E.
    intros [<- <-]%pair_split. cbn [fst snd]. apply (rf_seek (RegularFile := disk_file fdn)) in E as (-> & _ & H); done.
  - intros [st app] r s'. cbn [flag_disk]. by intros [<- <-]%pair_split.
Qed.

(** The file [abc], its position at the start, opened with [a+]. *)
Definition log_file : disk_state * bool := (([97; 98; 99], 0%nat), false).
Definition log_stream : FILE * (disk_state * bool) :=
  match run flag_disk (__fdopen true 3 [97; 43]) log_file with (Val f, s) => (f, s) | (_, s) => (stdin, s) end.

Lemma stdio_write_read_witness :
  exists res st', write_seek_read flag_disk [7; 8; 9; 10] 3 log_stream = Ok (res, st') /\
    match res with
    | Some (m, c) => c `prefix_of` [7; 8; 9; 10] /\ m = zlen c /\ (m < 4 -> has_flag F_ERR (fst st') = true)
    | None => True
    end.
Proof.
  apply (stdio_write_read flag_disk 3 (fun s => fst (fst s)) (fun s => disk_pos (fst s)) snd [97; 43] log_file
    (fst log_stream) (snd log_stream) [] [] (fst log_stream) (snd log_stream) [7; 8; 9; 10]).
  - done.
  - vm_compute. reflexivity.
  - constructor.
  - reflexivity.
  - repeat constructor; vm_compute; done.
  - constructor.
  - repeat constructor; vm_compute; done.
  - vm_compute. done.
  - vm_compute. done.
Defined.

(** The bytes are behind those of the file. *)
Example append_read :
  match write_seek_read flag_disk [7; 8; 9; 10] 3 log_stream with
  | Ok (res, (_, s)) => Some (res, fst (fst s))
  | _ => None
  end = Some (Some (4, [7; 8; 9; 10]), [97; 98; 99; 7; 8; 9; 10]).
Proof. vm_compute. reflexivity. Qed.

(** [getdelim] compares the byte that refilled the buffer as a signed [char]: a
    delimiter of 200 at the start of the file is not found. *)
Lemma getdelim_high_delimiter :
  let s0 : disk_state := ([200; 65; 200; 66], 0%nat) in
  match getdelim disk 9 (fun _ => true) 200 (Some 0) (demo_stream, s0) with
  | Ok ((len, line, _), _) => len = 3 /\ line = [200; 65; 200]
  | _ => False
  end.
Proof. vm_compute. done. Qed.
