(* ===== verification/Intscan.v ===== *)
(** Reading integers ([libc-top-half/musl/src/]: internal/intscan.c,
    internal/shgetc.h, stdlib/strtol.c, atoi.c, atol.c, atoll.c, ctype/isspace.c,
    isdigit.c).

    [__intscan] reads characters from a source with one character of pushback;
    the source is a record of operations, and the [strtol] family uses it on a
    string. *)

From S2P Require Import Prelude.

Definition ULLONG_MAX : Z := 2 ^ 64 - 1.
Definition ULONG_MAX : Z := 2 ^ 32 - 1.

Definition isspace (c : Z) : bool := (c =? 32) || (u32 (c - 9) <? 5).
Definition isdigit (c : Z) : bool := u32 (c - 48) <? 10.

(** The values of the digits; [table[0]] is that of [EOF]. *)
Definition table : list Z :=
  replicate 49 255 ++ seqZ 0 10 ++ replicate 7 255 ++ seqZ 10 26 ++ replicate 6 255 ++
  seqZ 10 26 ++ replicate 133 255.

(** [val[c]], for [c] from -1 to 255. *)
Definition val (c : Z) : Z := nth (Z.to_nat (c + 1)) table 255.

(** The operations of shgetc.h: the next character, one step back, and
    [shlim(f, 0)], which starts the count anew. *)
Record source (T : Type) := Source {
  shgetc : M T Z;
  shunget : M T unit;
  shlim0 : M T unit
}.
Arguments shgetc {T} s.
Arguments shunget {T} s.
Arguments shlim0 {T} s.

Section Intscan.
Context {T : Type} (src : source T).

(** [while (isspace((c=shgetc(f))));] *)
Fixpoint skip_spaces (fuel : nat) : M T Z :=
  match fuel with
  | O => fun _ => NoFuel
  | S fuel' => let* c := shgetc src in if isspace c then skip_spaces fuel' else sret c
  end.

(** [for (; cond(acc, c); c=shgetc(f)) acc = step(acc, c);] *)
Fixpoint scan (fuel : nat) (cond : Z -> Z -> bool) (step : Z -> Z -> Z) (acc c : Z) : M T (Z * Z) :=
  match fuel with
  | O => fun _ => NoFuel
  | S fuel' =>
      if cond acc c then let* c' := shgetc src in scan fuel' cond step (step acc c) c'
      else sret (acc, c)
  end.

(** The digits in base 10; the flag says that the [goto done] was taken. *)
Definition scan10 (fuel : nat) (c : Z) : M T (Z * Z * bool) :=
  let* (x, c) := scan fuel (fun x c => (u32 (c - 48) <? 10) && (x <=? UINT_MAX / 10 - 1))
                   (fun x c => u32 (u32 (x * 10) + u32 (c - 48))) 0 c in
  let* (y, c) := scan fuel (fun y c => (u32 (c - 48) <? 10) && (y <=? ULLONG_MAX / 10) &&
                                       (u64 (10 * y) <=? u64 (ULLONG_MAX - (c - 48))))
                   (fun y c => u64 (u64 (y * 10) + u64 (c - 48))) x c in
  sret (y, c, 10 <=? u32 (c - 48)).

(** The character of ["\0\1\2\4\7\3\6\5"]. *)
Definition log_table : list Z := [0; 1; 2; 4; 7; 3; 6; 5].

(** In a base that is a power of two. *)
Definition scan_pow2 (fuel : nat) (base c : Z) : M T (Z * Z * bool) :=
  let bs := nth (Z.to_nat (Z.land (Z.shiftr (u32 (0x17 * base)) 5) 7)) log_table 0 in
  let* (x, c) := scan fuel (fun x c => (val c <? base) && (x <=? UINT_MAX / 32))
                   (fun x c => Z.lor (u32 (Z.shiftl x bs)) (val c)) 0 c in
  let* (y, c) := scan fuel (fun y c => (val c <? base) && (y <=? Z.shiftr ULLONG_MAX bs))
                   (fun y c => Z.lor (u64 (Z.shiftl y bs)) (val c)) x c in
  sret (y, c, false).

(** In any other base. *)
Definition scan_any (fuel : nat) (base c : Z) : M T (Z * Z * bool) :=
  let* (x, c) := scan fuel (fun x c => (val c <? base) && (x <=? UINT_MAX / 36 - 1))
                   (fun x c => u32 (u32 (x * base) + val c)) 0 c in
  let* (y, c) := scan fuel (fun y c => (val c <? base) && (y <=? ULLONG_MAX / base) &&
                                       (u64 (base * y) <=? ULLONG_MAX - val c))
                   (fun y c => u64 (u64 (y * base) + val c)) x c in
  sret (y, c, false).

(** What follows the digits: [neg] is 0 or -1. *)
Definition finish (y neg lim : Z) (errno : option Z) : Z * option Z :=
  if lim <=? y then
    if negb (ctrue (Z.land lim 1)) && negb (ctrue neg) then (u64 (lim - 1), Some ERANGE)
    else if lim <? y then (lim, Some ERANGE)
    else (u64 (Z.lxor y (u64 neg) - u64 neg), errno)
  else (u64 (Z.lxor y (u64 neg) - u64 neg), errno).

(** The digits and the result, [c] being the first one. *)
Definition digits (fuel : nat) (base c neg lim : Z) : M T (Z * option Z) :=
  let* (y, c, fin) := if base =? 10 then scan10 fuel c
                      else if Z.land base (base - 1) =? 0 then scan_pow2 fuel base c
                      else scan_any fuel base c in
  let* (y, neg, errno) :=
    if negb fin && (val c <? base) then
      do* scan fuel (fun _ c => val c <? base) (fun _ _ => 0) 0 c in
      sret (lim, if ctrue (Z.land lim 1) then 0 else neg, Some ERANGE)
    else sret (y, neg, None) in
  do* shunget src in
  sret (finish y neg lim errno).

(** The value, as an [unsigned long long], and what [errno] is set to. *)
Definition __intscan (fuel : nat) (base : Z) (pok : bool) (lim : Z) : M T (Z * option Z) :=
  if (36 <? base) || (base =? 1) then sret (0, Some EINVAL)
  else
    let* c := skip_spaces fuel in
    let* (neg, c) := if (c =? 43) || (c =? 45) then
                       let* c' := shgetc src in sret (- cbool (c =? 45), c')
                     else sret (0, c) in
    if ((base =? 0) || (base =? 16)) && (c =? 48) then
      let* c := shgetc src in
      if Z.lor c 32 =? 120 then
        let* c := shgetc src in
        if 16 <=? val c then
          do* shunget src in
          do* (if pok then shunget src else shlim0 src) in
          sret (0, None)
        else digits fuel 16 c neg lim
      else digits fuel (if base =? 0 then 8 else base) c neg lim
    else
      let base := if base =? 0 then 10 else base in
      if base <=? val c then
        do* shunget src in
        do* shlim0 src in
        sret (0, Some EINVAL)
      else digits fuel base c neg lim.
End Intscan.

(** * Strings *)

(** A string as a source: the position and the position the count starts
    from. *)
Definition string_source (s : list Z) : source (Z * Z) := {|
  shgetc := fun st : Z * Z => let (i, i0) := st in
    if (0 <=? i) && (i <=? zlen s) then Ok (schar s i, (i + 1, i0)) else UB;
  shunget := fun st : Z * Z => let (i, i0) := st in Ok (tt, (i - 1, i0));
  shlim0 := fun st : Z * Z => let (i, i0) := st in Ok (tt, (i, i))
|}.

(** The value, [errno] and the index of the end pointer. *)
Definition strtox (s : list Z) (base lim : Z) : outcome (Z * option Z * Z) :=
  let! r := __intscan (string_source s) (length s + 2) base true lim (0, 0) in
  let '((y, errno), (i, i0)) := r in
  Ok (y, errno, i - i0).

Definition strtoull (s : list Z) (base : Z) : outcome (Z * option Z * Z) := strtox s (u32 base) ULLONG_MAX.
Definition strtoll (s : list Z) (base : Z) : outcome (Z * option Z * Z) :=
  let! r := strtox s (u32 base) (u64 LLONG_MIN) in let '(y, e, i) := r in Ok (s64 y, e, i).
Definition strtoul (s : list Z) (base : Z) : outcome (Z * option Z * Z) :=
  let! r := strtox s (u32 base) ULONG_MAX in let '(y, e, i) := r in Ok (u32 y, e, i).
Definition strtol (s : list Z) (base : Z) : outcome (Z * option Z * Z) :=
  let! r := strtox s (u32 base) (u32 (- 2 ^ 31)) in let '(y, e, i) := r in Ok (s32 y, e, i).

(** The loop that appends the digits to the negative number [n]; leaving the range of the type is undefined
    behaviour. *)
Fixpoint ato_digits (w : Z) (s : list Z) (n : Z) : outcome Z :=
  match s with
  | c :: s' =>
      if isdigit c then
        let m := 10 * n in
        let n' := m - (c - 48) in
        if (- 2 ^ (w - 1) <=? m) && (m <? 2 ^ (w - 1)) && (- 2 ^ (w - 1) <=? n') && (n' <? 2 ^ (w - 1))
        then ato_digits w s' n' else UB
      else Ok n
  | [] => Ok n
  end.

Fixpoint drop_spaces (s : list Z) : list Z :=
  match s with c :: s' => if isspace c then drop_spaces s' else s | [] => [] end.

(** [atoi], [atol] and [atoll], by the width of their type. *)
Definition ato (w : Z) (s : list Z) : outcome Z :=
  let s := drop_spaces s in
  let neg := schar s 0 =? 45 in
  let s := if (schar s 0 =? 45) || (schar s 0 =? 43) then tail s else s in
  let! n := ato_digits w s 0 in
  if neg then Ok n else if - n <? 2 ^ (w - 1) then Ok (- n) else UB.
Definition atoi (s : list Z) : outcome Z := ato 32 s.
Definition atol (s : list Z) : outcome Z := ato 32 s.
Definition atoll (s : list Z) : outcome Z := ato 64 s.

(** [" -0x1fz"] in base 0. *)
Example strtol_demo : strtol [32; 45; 48; 120; 49; 102; 122] 0 = Ok (-31, None, 6).
Proof. reflexivity. Qed.
Example strtol_high : strtol [50;49;52;55;52;56;51;54;52;56] 10 = Ok (2147483647, Some ERANGE, 10).
Proof. vm_compute. reflexivity. Qed.
