(* ===== verification/IntscanSpec.v ===== *)
(** What the [strtol] family computes: the numeral at the start of the string,
    its exact value clamped to the type, and where it ends; and that [atoi]
    agrees with it. *)

From S2P Require Import Prelude Intscan.

(** * Numerals *)

(** The number that digits denote. *)
Definition num (b : Z) (ds : list Z) : Z := fold_left (fun a c => a * b + val c) ds 0.

Definition is_digit (b c : Z) : bool := val c <? b.

(** The numeral of a string, with the prefixes of base 0 and 16: whether it is
    negative, its magnitude and the index of its end. *)
Definition numeral (base : Z) (s : list Z) : option (bool * Z * Z) :=
  let w := zlen (span isspace s) in
  let c := schar s w in
  let k := if (c =? 43) || (c =? 45) then w + 1 else w in
  let t := drop (Z.to_nat k) s in
  if ((base =? 0) || (base =? 16)) && (schar t 0 =? 48) && (Z.lor (schar t 1) 32 =? 120) && is_digit 16 (schar t 2)
  then
    let d := span (is_digit 16) (drop 2 t) in Some (c =? 45, num 16 d, k + 2 + zlen d)
  else
    let b := if base =? 0 then (if schar t 0 =? 48 then 8 else 10) else base in
    match span (is_digit b) t with
    | [] => None
    | d => Some (c =? 45, num b d, k + zlen d)
    end.

(** A C string: no NUL inside. *)
Definition cstring (s : list Z) : Prop := Forall (fun c => 0 < c < 256) s.

Lemma val_range c : 0 <= c < 256 -> 0 <= val c <= 255.
Proof.
  intros Hc. pose proof (forall_below (fun c => (0 <=? val c) && (val c <=? 255)) 256 ltac:(vm_compute; reflexivity) c Hc).
  cbv beta in *. bool_hyps. lia.
Qed.

Lemma digit10 c : 0 <= c < 256 ->
  (u32 (c - 48) <? 10) = is_digit 10 c /\ (is_digit 10 c = true -> u32 (c - 48) = val c /\ c - 48 = val c).
Proof.
  intros Hc. pose proof (forall_below (fun c => Bool.eqb (u32 (c - 48) <? 10) (is_digit 10 c) &&
    (negb (is_digit 10 c) || (u32 (c - 48) =? val c) && (c - 48 =? val c))) 256 ltac:(vm_compute; reflexivity) c Hc) as H.
  cbv beta in H. apply andb_true_iff in H as [H1 H2]. apply Bool.eqb_prop in H1. split; [done|].
  intros E. rewrite E in H2. cbn [negb orb] in H2. bool_hyps. done.
Qed.

Lemma schar_from s i k : 0 <= i -> 0 <= k -> schar (drop (Z.to_nat i) s) k = schar s (i + k).
Proof. intros Hi Hk. unfold schar. rewrite nth_skipn. f_equal. lia. Qed.

Lemma schar_range s i : cstring s -> 0 <= schar s i < 256.
Proof.
  intros Hs. unfold schar. destruct (nth_in_or_default (Z.to_nat i) s 0) as [H| ->]; [|lia].
  unfold cstring in Hs. rewrite Forall_forall in Hs. apply list_elem_of_In in H. specialize (Hs _ H). cbn in Hs. lia.
Qed.

Lemma schar_cons c l s i : drop (Z.to_nat i) s = c :: l -> schar s i = c.
Proof.
  intros E. unfold schar. rewrite <- (take_drop (Z.to_nat i) s), E.
  assert (Z.to_nat i < length s)%nat as Hl.
  { destruct (decide (Z.to_nat i < length s)%nat); [done|]. rewrite drop_ge in E by lia. done. }
  rewrite app_nth2 by (rewrite length_take; lia).
  by replace (Z.to_nat i - length (take (Z.to_nat i) s))%nat with 0%nat by (rewrite length_take; lia).
Qed.

Lemma schar_past s i : 0 <= i -> drop (Z.to_nat i) s = [] -> schar s i = 0.
Proof.
  intros Hi E. unfold schar. apply nth_overflow. apply (f_equal length) in E. rewrite length_drop in E. simpl in E. lia.
Qed.

Lemma drop_next (s : list Z) i c l : 0 <= i -> drop (Z.to_nat i) s = c :: l -> drop (Z.to_nat (i + 1)) s = l /\ i < zlen s.
Proof.
  intros Hi E. split.
  - replace (Z.to_nat (i + 1)) with (Z.to_nat i + 1)%nat by lia. rewrite <- drop_drop, E. done.
  - apply (f_equal length) in E. rewrite length_drop in E. simpl in E. unfold zlen. lia.
Qed.

(** * The loops on a string *)

Lemma getc_string s i i0 : 0 <= i <= zlen s -> shgetc (string_source s) (i, i0) = Ok (schar s i, (i + 1, i0)).
Proof. intros Hi. simpl. decide_cmp. done. Qed.

Lemma skip_spaces_string s : forall l i i0 fuel, drop (Z.to_nat i) s = l -> 0 <= i <= zlen s -> (length l < fuel)%nat ->
  let j := i + zlen (span isspace l) in
  skip_spaces (string_source s) fuel (i, i0) = Ok (schar s j, (j + 1, i0)) /\ j <= zlen s.
Proof.
  induction l as [|c l IH]; intros i i0 fuel El Hi Hf j; destruct fuel as [|fuel]; try (simpl in Hf; lia);
    cbn [skip_spaces]; rewrite (sbind_Ok _ _ _ _ _ (getc_string s i i0 Hi)).
  - subst j. simpl span. change (zlen (@nil Z)) with 0. rewrite Z.add_0_r, (schar_past s i) by (done || lia). split; [done|lia].
  - rewrite (schar_cons c l s i El). destruct (drop_next s i c l) as [El' Hlt]; [lia|done|].
    subst j. simpl span. destruct (isspace c) eqn:Ec.
    + rewrite zlen_cons. replace (i + (1 + zlen (span isspace l))) with (i + 1 + zlen (span isspace l)) by lia.
      apply IH; [done|lia|simpl in Hf; lia].
    + change (zlen (@nil Z)) with 0. rewrite Z.add_0_r. rewrite (schar_cons c l s i El). split; [done|lia].
Qed.

(** A loop over digits: it takes digits as long as its guard allows, and [P]
    relates the accumulator to the digits taken. *)
Lemma scan_string s (isd : Z -> bool) (guard : Z -> Z -> bool) cond step (P : Z -> list Z -> Prop) :
  isd 0 = false -> (forall a c, 0 <= c < 256 -> cond a c = isd c && guard a c) -> cstring s ->
  (forall a c ds, 0 <= c < 256 -> isd c = true -> guard a c = true -> P a ds -> P (step a c) (ds ++ [c])) ->
  forall l i i0 fuel acc ds, drop (Z.to_nat i) s = l -> 0 <= i <= zlen s -> (length l < fuel)%nat -> P acc ds ->
  exists n acc', scan (string_source s) fuel cond step acc (schar s i) (i + 1, i0) =
      Ok ((acc', schar s (i + n)), (i + n + 1, i0)) /\
    0 <= n <= zlen (span isd l) /\ P acc' (ds ++ take (Z.to_nat n) l) /\
    (n = zlen (span isd l) \/ n < zlen (span isd l) /\ guard acc' (schar s (i + n)) = false).
Proof.
  intros H0 Hcond Hs HP. induction l as [|c l IH]; intros i i0 fuel acc ds El Hi Hf Ha;
    destruct fuel as [|fuel]; try (simpl in Hf; lia); cbn [scan].
  - exists 0, acc. rewrite Hcond by (by apply schar_range). rewrite (schar_past s i) by (done || lia).
    rewrite H0. cbn [andb]. rewrite Z.add_0_r, (schar_past s i) by (done || lia). change (zlen (span isd [])) with 0.
    rewrite take_nil, app_nil_r. split_and!; try done; lia || by left.
  - pose proof (schar_cons c l s i El) as Ec. destruct (drop_next s i c l) as [El' Hlt]; [lia|done|].
    pose proof (schar_range s i Hs) as Hc. rewrite Ec in Hc |- *. rewrite Hcond by done. cbn [span].
    destruct (isd c) eqn:Ed; cbn [andb].
    2:{ exists 0, acc. rewrite Z.add_0_r, Ec. change (zlen (@nil Z)) with 0. change (take (Z.to_nat 0) (c :: l)) with (@nil Z).
        rewrite app_nil_r. split_and!; try done; lia || by left. }
    rewrite zlen_cons. pose proof (zlen_nonneg (span isd l)). destruct (guard acc c) eqn:Eg; cbn [andb].
    + rewrite (sbind_Ok _ _ _ _ _ (getc_string s (i + 1) i0 ltac:(lia))).
      destruct (IH (i + 1) i0 fuel (step acc c) (ds ++ [c])) as (n & acc' & Hr & Hn & HP' & Hstop);
        [done|lia|simpl in Hf; lia|by apply HP|].
      exists (1 + n), acc'. replace (i + (1 + n)) with (i + 1 + n) by lia. rewrite Hr.
      replace (Z.to_nat (1 + n)) with (S (Z.to_nat n)) by lia. simpl take. rewrite <- app_assoc in HP'.
      split_and!; try done; lia || (destruct Hstop as [?|[? ?]]; [left; lia|right; split; [lia|done]]).
    + exists 0, acc. rewrite Z.add_0_r, Ec. change (take (Z.to_nat 0) (c :: l)) with (@nil Z). rewrite app_nil_r.
      split_and!; try done; lia || (right; split; [lia|done]).
Qed.

(** * Digits *)

Lemma num_app b ds c : num b (ds ++ [c]) = num b ds * b + val c.
Proof. unfold num. by rewrite fold_left_app. Qed.

Lemma num_nonneg b ds : 0 <= b -> Forall (fun c => 0 <= c < 256) ds -> 0 <= num b ds.
Proof.
  intros Hb. induction ds as [|c ds IH] using rev_ind; intros H; [done|].
  apply Forall_app in H as [H1 H2]. apply Forall_inv in H2. rewrite num_app. pose proof (val_range c H2). specialize (IH H1). nia.
Qed.

(** More digits make a number that is not smaller. *)
Lemma num_mono b ds es : 1 <= b -> Forall (fun c => 0 <= c < 256) (ds ++ es) -> num b ds <= num b (ds ++ es).
Proof.
  intros Hb. induction es as [|c es IH] using rev_ind; intros H; [rewrite app_nil_r; lia|].
  rewrite app_assoc in H |- *. apply Forall_app in H as [H1 H2]. apply Forall_inv in H2. rewrite num_app.
  pose proof (val_range c H2). specialize (IH H1). pose proof (num_nonneg b (ds ++ es) ltac:(lia) H1). nia.
Qed.

Lemma is_digit_nul b : b <= 36 -> is_digit b 0 = false.
Proof. intros. unfold is_digit. change (val 0) with 255. decide_cmp. done. Qed.

(** The character at the end of a span. *)
Lemma span_next s b i : b <= 36 -> 0 <= i ->
  is_digit b (schar s (i + zlen (span (is_digit b) (drop (Z.to_nat i) s)))) = false.
Proof.
  intros Hb Hi. destruct (span_prefix (is_digit b) (drop (Z.to_nat i) s)) as (r & E & Hr). revert E. set (D := span _ _). intros E.
  assert (drop (Z.to_nat (i + zlen D)) s = r) as Er.
  { unfold zlen. replace (Z.to_nat (i + Z.of_nat (length D))) with (Z.to_nat i + length D)%nat by lia.
    rewrite <- drop_drop, E. apply drop_app_length. }
  destruct r as [|c r]; [|by rewrite (schar_cons _ _ _ _ Er)].
  rewrite schar_past; [by apply is_digit_nul|unfold zlen; lia|done].
Qed.

(** A character of a span. *)
Lemma span_in s p i n : 0 <= i -> 0 <= n -> n < zlen (span p (drop (Z.to_nat i) s)) -> p (schar s (i + n)) = true.
Proof.
  intros Hi Hn Hl. destruct (span_prefix p (drop (Z.to_nat i) s)) as (r & E & _).
  pose proof (span_forall p (drop (Z.to_nat i) s)) as Hall. revert E Hl Hall. set (D := span _ _). intros E Hl Hall.
  apply (Forall_drop _ (Z.to_nat n)) in Hall. destruct (drop (Z.to_nat n) D) as [|c D'] eqn:ED.
  { apply (f_equal length) in ED. rewrite length_drop in ED. unfold zlen in Hl. simpl in ED. lia. }
  apply Forall_inv in Hall. rewrite (schar_cons c (D' ++ r)); [done|].
  replace (Z.to_nat (i + n)) with (Z.to_nat i + Z.to_nat n)%nat by lia.
  rewrite <- drop_drop, E, drop_app_le, ED by (unfold zlen in Hl; lia). done.
Qed.

Lemma cstring_chars s : cstring s -> Forall (fun c => 0 <= c < 256) s.
Proof. intros H. eapply Forall_impl; [exact H|]. intros c. cbv beta. lia. Qed.

Lemma span_chars p s i : cstring s -> Forall (fun c => 0 <= c < 256) (span p (drop i s)).
Proof.
  intros Hs. apply cstring_chars in Hs. destruct (span_prefix p (drop i s)) as (r & E & _).
  apply (Forall_drop _ i) in Hs. rewrite E in Hs. by apply Forall_app in Hs as [? _].
Qed.

(** The two loops of a base, over 32 and then over 64 bits: they take all
    digits unless the number does not fit in 64 bits. *)
Section TwoPhases.
Context (s : list Z) (b : Z) (cond1 cond2 : Z -> Z -> bool) (step1 step2 : Z -> Z -> Z) (g1 g2 : Z -> Z -> bool).
Context (Hs : cstring s) (Hb : 2 <= b <= 36).
Context (Hc1 : forall a c, 0 <= c < 256 -> cond1 a c = is_digit b c && g1 a c).
Context (Hc2 : forall a c, 0 <= c < 256 -> cond2 a c = is_digit b c && g2 a c).
Context (Hs1 : forall a c, 0 <= c < 256 -> is_digit b c = true -> g1 a c = true -> 0 <= a ->
  step1 a c = a * b + val c /\ a * b + val c < 2 ^ 64).
Context (Hs2 : forall a c, 0 <= c < 256 -> is_digit b c = true -> g2 a c = true -> 0 <= a ->
  step2 a c = a * b + val c /\ a * b + val c < 2 ^ 64).
Context (Hg2 : forall a c, 0 <= c < 256 -> is_digit b c = true -> g2 a c = false -> 0 <= a < 2 ^ 64 ->
  2 ^ 64 <= a * b + val c).

Let P (acc : Z) (ds : list Z) : Prop := acc = num b ds /\ 0 <= acc < 2 ^ 64.

Lemma two_phases i i0 fuel : 0 <= i <= zlen s -> (length s < fuel)%nat ->
  let D := span (is_digit b) (drop (Z.to_nat i) s) in
  exists n y, (let* (x, c) := scan (string_source s) fuel cond1 step1 0 (schar s i) in
      scan (string_source s) fuel cond2 step2 x c) (i + 1, i0) = Ok ((y, schar s (i + n)), (i + n + 1, i0)) /\
    0 <= n <= zlen D /\ i + n <= zlen s /\
    (n = zlen D /\ y = num b D /\ y < 2 ^ 64 \/ n < zlen D /\ 2 ^ 64 <= num b D).
Proof.
  intros Hi Hf D. pose proof (is_digit_nul b ltac:(lia)) as H0.
  assert (forall a c ds, 0 <= c < 256 -> is_digit b c = true -> g1 a c = true -> P a ds -> P (step1 a c) (ds ++ [c])) as HP1.
  { intros a c ds Hc Hd Hg [Ha Hr]. destruct (Hs1 a c) as [-> ?]; [done..|lia|]. unfold P. rewrite num_app, <- Ha.
    pose proof (val_range c Hc). split; [done|nia]. }
  assert (forall a c ds, 0 <= c < 256 -> is_digit b c = true -> g2 a c = true -> P a ds -> P (step2 a c) (ds ++ [c])) as HP2.
  { intros a c ds Hc Hd Hg [Ha Hr]. destruct (Hs2 a c) as [-> ?]; [done..|lia|]. unfold P. rewrite num_app, <- Ha.
    pose proof (val_range c Hc). split; [done|nia]. }
  set (l := drop (Z.to_nat i) s) in *.
  assert (Z.of_nat (length l) = zlen s - i) as El by (unfold l; rewrite length_drop; unfold zlen in *; lia).
  pose proof (span_length (is_digit b) l) as HlD. fold D in HlD.
  destruct (scan_string s (is_digit b) g1 cond1 step1 P H0 Hc1 Hs HP1 l i i0 fuel 0 []) as (n1 & x & Hr1 & Hn1 & HPx & _);
    [done|lia|unfold zlen in *; lia|by split|]. fold D in Hn1. unfold zlen in Hn1.
  destruct (scan_string s (is_digit b) g2 cond2 step2 P H0 Hc2 Hs HP2 (drop (Z.to_nat n1) l) (i + n1) i0 fuel x
    (take (Z.to_nat n1) l)) as (n2 & y & Hr2 & Hn2 & HPy & Hstop);
    [unfold l; rewrite drop_drop; f_equal; lia|unfold zlen in *; lia|rewrite length_drop; unfold zlen in *; lia|done|].
  exists (n1 + n2), y. rewrite (sbind_Ok _ _ _ _ _ Hr1), Hr2.
  assert (zlen (span (is_digit b) (drop (Z.to_nat n1) l)) = zlen D - n1) as Es.
  { rewrite span_drop by (fold D; lia). fold D. unfold zlen. rewrite length_drop. lia. }
  rewrite Es in Hn2, Hstop. rewrite take_take_drop in HPy. replace (Z.to_nat n1 + Z.to_nat n2)%nat with (Z.to_nat (n1 + n2)) in HPy by lia.
  rewrite (span_take (is_digit b)) in HPy by (fold D; unfold zlen in *; lia). fold D in HPy.
  rewrite !Z.add_assoc. unfold zlen in *. split_and!; try done; try lia. destruct HPy as [Ey Hy].
  destruct Hstop as [Hn|[Hn Hg]]; [left|right].
  - rewrite take_ge in Ey by lia. split_and!; [lia|done|lia].
  - split; [lia|]. pose proof (span_chars (is_digit b) s (Z.to_nat i) Hs) as HD. fold l D in HD.
    destruct (drop (Z.to_nat (n1 + n2)) D) as [|c D'] eqn:ED.
    { apply (f_equal length) in ED. rewrite length_drop in ED. simpl in ED. lia. }
    assert (schar s (i + n1 + n2) = c) as Ec.
    { destruct (span_prefix (is_digit b) l) as (r & Er & _). fold D in Er. apply (schar_cons _ (D' ++ r)).
      replace (Z.to_nat (i + n1 + n2)) with (Z.to_nat i + Z.to_nat (n1 + n2))%nat by lia.
      rewrite <- drop_drop. fold l. rewrite Er, drop_app_le, ED by lia. done. }
    rewrite Ec in Hg. rewrite <- (take_drop (Z.to_nat (n1 + n2)) D), ED in HD |- *.
    replace (c :: D') with ([c] ++ D') in HD |- * by done. rewrite app_assoc in HD |- *.
    apply Z.le_trans with (num b (take (Z.to_nat (n1 + n2)) D ++ [c])); [|apply num_mono; [lia|done]].
    rewrite num_app, <- Ey. apply Forall_app in HD as [HD _]. apply Forall_app in HD as [_ HD]. apply Forall_inv in HD.
    apply Hg2; try done. pose proof (span_forall (is_digit b) l) as Hall. fold D in Hall.
    apply (Forall_drop _ (Z.to_nat (n1 + n2))) in Hall. rewrite ED in Hall. by apply Forall_inv in Hall.
Qed.
End TwoPhases.

Lemma sbind_assoc {S A B C D} (m : M S (A * B)) (f : A -> B -> M S C) (g : C -> M S D) st :
  (let* (x, y) := m in sbind (f x y) g) st = sbind (let* (x, y) := m in f x y) g st.
Proof. unfold sbind. destruct (m st) as [[[x y] st']| | |]; done. Qed.

Lemma pow2_base b : 2 <= b <= 36 -> Z.land b (b - 1) = 0 ->
  exists k, 1 <= k <= 5 /\ b = 2 ^ k /\ nth (Z.to_nat (Z.land (Z.shiftr (u32 (0x17 * b)) 5) 7)) log_table 0 = k.
Proof.
  intros Hb H. pose proof (forall_below (fun b => negb ((2 <=? b) && (b <=? 36) && (Z.land b (b - 1) =? 0)) ||
    existsb (fun k => (b =? 2 ^ k) && (nth (Z.to_nat (Z.land (Z.shiftr (u32 (0x17 * b)) 5) 7)) log_table 0 =? k))
      (seqZ 1 5)) 256 ltac:(vm_compute; reflexivity) b ltac:(lia)) as Q.
  cbv beta in Q. rewrite H in Q. apply orb_true_iff in Q as [Q|Q].
  { revert Q. decide_cmp. done. }
  apply existsb_exists in Q as (k & Hk & E). apply list_elem_of_In, elem_of_seqZ in Hk. bool_hyps. exists k. split_and!; done || lia.
Qed.

Lemma max_div k : 1 <= k <= 5 -> (2 ^ 64 - 1) / 2 ^ k = 2 ^ (64 - k) - 1 /\ 2 ^ 64 = 2 ^ k * 2 ^ (64 - k).
Proof.
  intros Hk. assert (k = 1 \/ k = 2 \/ k = 3 \/ k = 4 \/ k = 5) as HK by lia.
  by destruct HK as [-> |[-> |[-> |[-> | ->]]]].
Qed.

Lemma is_digit_val b c : 0 <= c < 256 -> is_digit b c = true -> 0 <= val c < b.
Proof. intros Hc H. pose proof (val_range c Hc). unfold is_digit in H. bool_hyps. lia. Qed.

(** All digits of the base, or too many of them. *)
Definition phases_spec (s : list Z) (b i i0 : Z) (r : outcome (Z * Z * bool * (Z * Z))) : Prop :=
  let D := span (is_digit b) (drop (Z.to_nat i) s) in
  exists n y fin, r = Ok ((y, schar s (i + n), fin), (i + n + 1, i0)) /\
    0 <= n <= zlen D /\ i + n <= zlen s /\ (fin = true -> is_digit b (schar s (i + n)) = false) /\
    (n = zlen D /\ y = num b D /\ y < 2 ^ 64 \/ n < zlen D /\ 2 ^ 64 <= num b D).

Section Phases.
Context (s : list Z) (i i0 : Z) (fuel : nat).
Context (Hs : cstring s) (Hi : 0 <= i <= zlen s) (Hf : (length s < fuel)%nat).

Lemma scan10_spec : phases_spec s 10 i i0 (scan10 (string_source s) fuel (schar s i) (i + 1, i0)).
Proof.
  unfold scan10, phases_spec. cbv zeta. rewrite sbind_assoc.
  edestruct (two_phases s 10) with (i := i) (i0 := i0) (fuel := fuel) as (n & y & Hr & Hn & Hl & Hend); cycle -1.
  { exists n, y, (10 <=? u32 (schar s (i + n) - 48)). rewrite (sbind_Ok _ _ _ _ _ Hr). split_and!; try done; try lia.
    intros Hfin. rewrite <- (proj1 (digit10 _ (schar_range s (i + n) Hs))). bool_hyps. decide_cmp. done. }
  all: try done.
  - intros a c Hc. cbv beta. rewrite (proj1 (digit10 c Hc)). done.
  - intros a c Hc. cbv beta. rewrite (proj1 (digit10 c Hc)), <- andb_assoc. done.
  - intros a c Hc Hd Hg Ha. cbv beta in *. destruct (proj2 (digit10 c Hc) Hd) as [-> _].
    pose proof (is_digit_val 10 c Hc Hd). bool_hyps. change (UINT_MAX / 10 - 1) with 429496728 in *.
    rewrite !u32_id; unfold in_u; rewrite ?u32_id; unfold in_u; lia.
  - intros a c Hc Hd Hg Ha. cbv beta in *. destruct (proj2 (digit10 c Hc) Hd) as [_ E]. rewrite E in *.
    pose proof (is_digit_val 10 c Hc Hd). bool_hyps. change (ULLONG_MAX / 10) with 1844674407370955161 in *.
    unfold ULLONG_MAX in *. rewrite !(u64_id (10 * a)), !(u64_id (_ - val c)) in * by (unfold in_u; lia).
    rewrite !u64_id; unfold in_u; rewrite ?u64_id; unfold in_u; lia.
  - intros a c Hc Hd Hg Ha. cbv beta in *. destruct (proj2 (digit10 c Hc) Hd) as [_ E]. rewrite E in *.
    pose proof (is_digit_val 10 c Hc Hd). change (ULLONG_MAX / 10) with 1844674407370955161 in *.
    apply andb_false_iff in Hg as [Hg|Hg]; bool_hyps; [lia|]. unfold ULLONG_MAX in *.
    destruct (Z.leb_spec a 1844674407370955161); [|lia]. rewrite !u64_id in Hg; unfold in_u; lia.
Qed.

Lemma scan_pow2_spec b : 2 <= b <= 36 -> Z.land b (b - 1) = 0 ->
  phases_spec s b i i0 (scan_pow2 (string_source s) fuel b (schar s i) (i + 1, i0)).
Proof.
  intros Hb Hp. destruct (pow2_base b Hb Hp) as (k & Hk & Eb & Ek). unfold scan_pow2, phases_spec. cbv zeta. rewrite Ek, sbind_assoc.
  edestruct (two_phases s b) with (i := i) (i0 := i0) (fuel := fuel) as (n & y & Hr & Hn & Hl & Hend); cycle -1.
  { exists n, y, false. rewrite (sbind_Ok _ _ _ _ _ Hr). split_and!; try done; lia. }
  all: try done.
  - intros a c Hc Hd Hg Ha. cbv beta in *. pose proof (is_digit_val b c Hc Hd). bool_hyps.
    change (UINT_MAX / 32) with 134217727 in *. rewrite Z.shiftl_mul_pow2, Eb by lia.
    assert (2 ^ k <= 32) by (change 32 with (2 ^ 5); apply Z.pow_le_mono_r; lia).
    rewrite u32_id by (unfold in_u; nia). rewrite lor_add by lia. split; [done|nia].
  - intros a c Hc Hd Hg Ha. cbv beta in *. pose proof (is_digit_val b c Hc Hd). bool_hyps.
    rewrite Z.shiftr_div_pow2 in * by lia. rewrite Z.shiftl_mul_pow2, Eb by lia. unfold ULLONG_MAX in *.
    destruct (max_div k Hk) as [Em Eq]. rewrite Em in *. assert (a * 2 ^ k + val c < 2 ^ 64) by nia.
    rewrite u64_id by (unfold in_u; nia). rewrite lor_add by lia. done.
  - intros a c Hc Hd Hg Ha. cbv beta in *. pose proof (is_digit_val b c Hc Hd). bool_hyps.
    rewrite Z.shiftr_div_pow2 in * by lia. rewrite Eb. unfold ULLONG_MAX in *.
    destruct (max_div k Hk) as [Em Eq]. rewrite Em in *. nia.
Qed.

Lemma scan_any_spec b : 2 <= b <= 36 -> phases_spec s b i i0 (scan_any (string_source s) fuel b (schar s i) (i + 1, i0)).
Proof.
  intros Hb. unfold scan_any, phases_spec. cbv zeta. rewrite sbind_assoc.
  edestruct (two_phases s b) with (i := i) (i0 := i0) (fuel := fuel) as (n & y & Hr & Hn & Hl & Hend); cycle -1.
  { exists n, y, false. rewrite (sbind_Ok _ _ _ _ _ Hr). split_and!; try done; lia. }
  all: try done.
  - intros a c Hc. cbv beta. by rewrite <- andb_assoc.
  - intros a c Hc Hd Hg Ha. cbv beta in *. pose proof (is_digit_val b c Hc Hd). bool_hyps.
    change (UINT_MAX / 36 - 1) with 119304646 in *. rewrite !u32_id; unfold in_u; rewrite ?u32_id; unfold in_u; nia.
  - intros a c Hc Hd Hg Ha. cbv beta in *. pose proof (is_digit_val b c Hc Hd). bool_hyps. unfold ULLONG_MAX in *.
    assert (b * a <= 2 ^ 64 - 1) by (pose proof (Z.mul_div_le (2 ^ 64 - 1) b ltac:(lia)); nia).
    rewrite u64_id in * by (unfold in_u; nia). rewrite (u64_id (a * b)) by (unfold in_u; nia).
    rewrite u64_id by (unfold in_u; nia). split; [done|nia].
  - intros a c Hc Hd Hg Ha. cbv beta in *. pose proof (is_digit_val b c Hc Hd). unfold ULLONG_MAX in *.
    pose proof (Z.mul_succ_div_gt (2 ^ 64 - 1) b ltac:(lia)).
    destruct (Z.leb_spec a ((2 ^ 64 - 1) / b)); cbn [andb] in Hg; [|nia].
    assert (b * a <= 2 ^ 64 - 1) by (pose proof (Z.mul_div_le (2 ^ 64 - 1) b ltac:(lia)); nia).
    bool_hyps. rewrite u64_id in * by (unfold in_u; nia). nia.
Qed.

(** What the digits from [i] on amount to. *)
Definition digits_value (b : Z) (ds : list Z) (neg lim : Z) : Z * option Z :=
  if num b ds <? 2 ^ 64 then finish (num b ds) neg lim None
  else finish lim (if ctrue (Z.land lim 1) then 0 else neg) lim (Some ERANGE).

Lemma digits_spec b neg lim : 2 <= b <= 36 ->
  let D := span (is_digit b) (drop (Z.to_nat i) s) in
  digits (string_source s) fuel b (schar s i) neg lim (i + 1, i0) = Ok (digits_value b D neg lim, (i + zlen D, i0)).
Proof.
  intros Hb D. assert (phases_spec s b i i0 ((if b =? 10 then scan10 (string_source s) fuel (schar s i)
    else if Z.land b (b - 1) =? 0 then scan_pow2 (string_source s) fuel b (schar s i)
    else scan_any (string_source s) fuel b (schar s i)) (i + 1, i0))) as (n & y & fin & Hr & Hn & Hl & Hfin & Hend).
  { destruct (Z.eqb_spec b 10) as [-> |]; [apply scan10_spec|].
    destruct (Z.eqb_spec (Z.land b (b - 1)) 0); [by apply scan_pow2_spec|by apply scan_any_spec]. }
  unfold digits. rewrite (sbind_Ok _ _ _ _ _ Hr). fold D in Hn, Hend. fold (is_digit b (schar s (i + n))).
  destruct Hend as [(-> & -> & Hlt)|[Hn' Hge]].
  - unfold D at 1 2. rewrite span_next by lia. rewrite andb_false_r. unfold sbind, sret. cbn [string_source shunget obind fst snd].
    unfold digits_value. rewrite (proj2 (Z.ltb_lt _ _) Hlt). do 3 f_equal. lia.
  - assert (is_digit b (schar s (i + n)) = true) as Hd by (apply span_in; [lia|lia|fold D; lia]).
    destruct fin; [rewrite Hfin in Hd by done; done|]. rewrite Hd. cbn [negb andb].
    destruct (scan_string s (is_digit b) (fun _ _ => true) (fun _ c => val c <? b) (fun _ _ => 0) (fun _ _ => True)
      (is_digit_nul b ltac:(lia)) (fun _ c _ => eq_sym (andb_true_r _)) Hs (fun _ _ _ _ _ _ _ => I) _ (i + n) i0 fuel 0 [] eq_refl)
      as (m & a & Hr2 & Hm & _ & Hstop); [lia|rewrite length_drop; lia|done|].
    assert (zlen (span (is_digit b) (drop (Z.to_nat (i + n)) s)) = zlen D - n) as Es.
    { replace (Z.to_nat (i + n)) with (Z.to_nat i + Z.to_nat n)%nat by lia. rewrite <- drop_drop.
      rewrite span_drop by (fold D; unfold zlen in *; lia). fold D. unfold zlen in *. rewrite length_drop. lia. }
    rewrite Es in Hm, Hstop. destruct Hstop as [-> |[_ ?]]; [|done].
    unfold sbind at 1 2. rewrite Hr2. unfold sbind, sret. cbn [string_source shunget obind fst snd].
    unfold digits_value. rewrite (proj2 (Z.ltb_ge _ _) Hge). do 3 f_equal. lia.
Qed.
End Phases.

(** * The value of a string *)

(** The result for a numeral, as [__intscan] computes it from the limit. *)
Definition limited (neg : bool) (n lim : Z) : Z * option Z :=
  let neg := - cbool neg in
  if n <? 2 ^ 64 then finish n neg lim None
  else finish lim (if ctrue (Z.land lim 1) then 0 else neg) lim (Some ERANGE).

Lemma schar_nonzero s i : 0 <= i -> schar s i <> 0 -> i < zlen s.
Proof.
  intros Hi H. destruct (Z.lt_ge_cases i (zlen s)); [done|]. destruct H. apply schar_past; [done|].
  apply drop_ge. unfold zlen in *. lia.
Qed.

Lemma drop_schar s i : 0 <= i -> schar s i <> 0 ->
  drop (Z.to_nat i) s = schar s i :: drop (Z.to_nat (i + 1)) s.
Proof.
  intros Hi H. pose proof (schar_nonzero s i Hi H) as Hl.
  destruct (drop (Z.to_nat i) s) as [|c l] eqn:E.
  { apply (f_equal length) in E. rewrite length_drop in E. simpl in E. unfold zlen in *. lia. }
  rewrite (schar_cons _ _ _ _ E). f_equal. symmetry. by apply drop_next with c.
Qed.

Lemma span_zero s b i : 2 <= b -> 0 <= i -> schar s i = 48 ->
  let D := span (is_digit b) (drop (Z.to_nat (i + 1)) s) in
  span (is_digit b) (drop (Z.to_nat i) s) = 48 :: D /\ num b (48 :: D) = num b D.
Proof.
  intros Hb Hi H D. rewrite drop_schar, H by (done || lia). cbn [span].
  unfold is_digit at 1. change (val 48) with 0. decide_cmp. done.
Qed.

Lemma span_x s b i : 0 <= i -> b <= 16 -> cstring s -> Z.lor (schar s i) 32 = 120 ->
  span (is_digit b) (drop (Z.to_nat i) s) = [].
Proof.
  intros Hi Hb Hs Hx. pose proof (forall_below (fun c => negb (Z.lor c 32 =? 120) || (16 <=? val c)) 256 ltac:(vm_compute; reflexivity)
    (schar s i) (schar_range s i Hs)) as Q. cbv beta in Q. rewrite Hx in Q. rewrite Z.eqb_refl in Q. cbn [negb orb] in Q. bool_hyps.
  rewrite drop_schar by (done || (intros E; rewrite E in Hx; discriminate Hx)). cbn [span]. unfold is_digit. decide_cmp. done.
Qed.

(** No digit at the start: no numeral. *)
Lemma span_none s b i : b <= 36 -> 0 <= i -> is_digit b (schar s i) = false -> span (is_digit b) (drop (Z.to_nat i) s) = [].
Proof.
  intros Hb Hi Hd. destruct (drop (Z.to_nat i) s) as [|c l] eqn:E; [done|].
  cbn [span]. by rewrite <- (schar_cons _ _ _ _ E), Hd.
Qed.

Section Tail.
Context (s : list Z) (base lim : Z) (fuel : nat) (neg : bool) (k : Z).
Context (Hs : cstring s) (Hb : base = 0 \/ 2 <= base <= 36) (Hlim : 0 < lim) (Hf : (length s < fuel)%nat).
Context (Hk : 0 <= k <= zlen s).

(** The part of [numeral] after the sign. *)
Definition magnitude : option (Z * Z) :=
  let t := drop (Z.to_nat k) s in
  if ((base =? 0) || (base =? 16)) && (schar t 0 =? 48) && (Z.lor (schar t 1) 32 =? 120) && is_digit 16 (schar t 2)
  then let d := span (is_digit 16) (drop 2 t) in Some (num 16 d, k + 2 + zlen d)
  else
    let b := if base =? 0 then (if schar t 0 =? 48 then 8 else 10) else base in
    match span (is_digit b) t with [] => None | d => Some (num b d, k + zlen d) end.

(** The part of [__intscan] after the sign. *)
Definition tail_result : outcome (Z * option Z * (Z * Z)) :=
  (let c := schar s k in
   if ((base =? 0) || (base =? 16)) && (c =? 48) then
      let* c := shgetc (string_source s) in
      if Z.lor c 32 =? 120 then
        let* c := shgetc (string_source s) in
        if 16 <=? val c then
          do* shunget (string_source s) in
          do* (if true then shunget (string_source s) else shlim0 (string_source s)) in
          sret (0, None)
        else digits (string_source s) fuel 16 c (- cbool neg) lim
      else digits (string_source s) fuel (if base =? 0 then 8 else base) c (- cbool neg) lim
    else
      let base := if base =? 0 then 10 else base in
      if base <=? val c then
        do* shunget (string_source s) in
        do* shlim0 (string_source s) in
        sret (0, Some EINVAL)
      else digits (string_source s) fuel base c (- cbool neg) lim) (k + 1, 0).

Lemma limited_digits b D : limited neg (num b D) lim = digits_value b D (- cbool neg) lim.
Proof. done. Qed.

Lemma limited_zero : limited neg 0 lim = (0, None).
Proof. unfold limited, finish. decide_cmp. by destruct neg. Qed.

Lemma scan_tail : exists i i0, i - i0 = match magnitude with None => 0 | Some (_, e) => e end /\
  tail_result = Ok (match magnitude with None => (0, Some EINVAL) | Some (n, _) => limited neg n lim end, (i, i0)).
Proof.
  unfold tail_result, magnitude. cbv zeta. rewrite !schar_from, Z.add_0_r, drop_drop by lia.
  replace (Z.to_nat k + 2)%nat with (Z.to_nat (k + 2)) by lia.
  destruct (((base =? 0) || (base =? 16)) && (schar s k =? 48)) eqn:E0; cbn [andb].
  - bool_hyps. pose proof (schar_nonzero s k ltac:(lia) ltac:(lia)).
    rewrite (sbind_Ok _ _ _ _ _ (getc_string s (k + 1) 0 ltac:(lia))).
    assert (exists b, (if base =? 0 then (if schar s k =? 48 then 8 else 10) else base) = b /\
      (if base =? 0 then 8 else base) = b /\ 2 <= b <= 16) as (b & E1 & -> & Hb').
    { decide_cmp. eexists. split_and!; [done..| |]; destruct (base =? 0) eqn:Eb; cbn [orb] in *; bool_hyps; lia. }
    rewrite E1. destruct (span_zero s b k) as [-> Hnum]; [lia..|]. rewrite Hnum.
    destruct (Z.lor (schar s (k + 1)) 32 =? 120) eqn:Ex; cbn [andb].
    + assert (k + 1 < zlen s) by (apply schar_nonzero; [lia|]; intros E; rewrite E in Ex; done).
      rewrite (sbind_Ok _ _ _ _ _ (getc_string s (k + 1 + 1) 0 ltac:(lia))).
      replace (k + 1 + 1) with (k + 2) by lia. rewrite Z.leb_antisym.
      fold (is_digit 16 (schar s (k + 2))). destruct (is_digit 16 (schar s (k + 2))) eqn:Ed; cbn [negb]; cycle 1.
      * exists (k + 1), 0. bool_hyps. rewrite span_x by (done || lia).
        change (num b []) with 0. rewrite limited_zero. split; [by rewrite Z.sub_0_r|].
        unfold sbind, sret. cbn [string_source shunget obind fst snd]. do 3 f_equal. lia.
      * rewrite digits_spec by (done || lia). do 2 eexists. split; [|done]. lia.
    + rewrite digits_spec by (done || lia). do 2 eexists. split; [|done]. rewrite zlen_cons. lia.
  - assert (exists b, (if base =? 0 then (if schar s k =? 48 then 8 else 10) else base) = b /\
      (if base =? 0 then 10 else base) = b /\ 2 <= b <= 36) as (b & -> & -> & Hb').
    { eexists. split; [done|]. destruct (base =? 0) eqn:Eb; cbn [orb andb] in *; [rewrite E0|]; bool_hyps; lia. }
    rewrite Z.leb_antisym. fold (is_digit b (schar s k)). destruct (is_digit b (schar s k)) eqn:Ed; cbn [negb].
    + rewrite digits_spec by (done || lia). pose proof (drop_schar s k ltac:(lia)) as Ek.
      destruct (span (is_digit b) (drop (Z.to_nat k) s)) as [|c D] eqn:ED; [|do 2 eexists; split; [|done]; lia].
      rewrite Ek in ED by (intros E; rewrite E, is_digit_nul in Ed by lia; done). cbn [span] in ED. by rewrite Ed in ED.
    + exists k, k. rewrite span_none by (done || lia). split; [lia|].
      unfold sbind, sret. cbn [string_source shunget shlim0 obind fst snd]. by replace (k + 1 - 1) with k by lia.
Qed.
End Tail.

(** [strtox] finds the numeral. *)
Lemma strtox_spec s base lim : cstring s -> base = 0 \/ 2 <= base <= 36 -> 0 < lim ->
  strtox s base lim = Ok match numeral base s with
    | None => (0, Some EINVAL, 0)
    | Some (neg, n, e) => (limited neg n lim, e)
    end.
Proof.
  intros Hs Hb Hlim. unfold strtox, __intscan.
  replace ((36 <? base) || (base =? 1)) with false by (symmetry; apply orb_false_iff; split; case_cmp; lia).
  destruct (skip_spaces_string s s 0 0 (length s + 2)) as [Hw Hl]; [done|pose proof (zlen_nonneg s); lia|lia|].
  rewrite Z.add_0_l in Hw, Hl. rewrite (sbind_Ok _ _ _ _ _ Hw). unfold numeral. cbv zeta.
  set (w := zlen (span isspace s)) in *. pose proof (zlen_nonneg (span isspace s)).
  set (sign := (schar s w =? 43) || (schar s w =? 45)).
  assert ((if sign then let* c' := shgetc (string_source s) in sret (- cbool (schar s w =? 45), c') else sret (0, schar s w))
    (w + 1, 0) = Ok ((- cbool (schar s w =? 45), schar s (if sign then w + 1 else w)), ((if sign then w + 1 else w) + 1, 0)) /\
    (if sign then w + 1 else w) <= zlen s) as [Hsign Hk].
  { unfold sign. destruct (Z.eqb_spec (schar s w) 43) as [E|E]; cbn [orb].
    1: pose proof (schar_nonzero s w ltac:(lia) ltac:(lia)); rewrite (sbind_Ok _ _ _ _ _ (getc_string s (w + 1) 0 ltac:(lia))); split; [done|lia].
    destruct (Z.eqb_spec (schar s w) 45) as [E'|E'].
    1: pose proof (schar_nonzero s w ltac:(lia) ltac:(lia)); rewrite (sbind_Ok _ _ _ _ _ (getc_string s (w + 1) 0 ltac:(lia))); split; [done|lia].
    done. }
  rewrite (sbind_Ok _ _ _ _ _ Hsign). set (k := if sign then w + 1 else w) in *.
  destruct (scan_tail s base lim (length s + 2) (schar s w =? 45) k) as (i & i0 & He & Hr); try done; [lia|unfold k; destruct sign; lia|].
  unfold tail_result in Hr. cbv zeta in Hr. rewrite Hr. cbn [obind]. unfold magnitude in *. cbv zeta in *. rewrite He.
  destruct (_ && is_digit 16 _); [by destruct (limited _ _ _)|].
  destruct (span _ (drop (Z.to_nat k) s)); [done|by destruct (limited _ _ _)].
Qed.

(** The value of a signed type of [w] bits. *)
Definition to_signed (w : Z) (neg : bool) (n : Z) : Z * option Z :=
  let v := if neg then - n else n in
  if 2 ^ (w - 1) <=? v then (2 ^ (w - 1) - 1, Some ERANGE)
  else if v <? - 2 ^ (w - 1) then (- 2 ^ (w - 1), Some ERANGE) else (v, None).

(** The value of an unsigned type of [w] bits. *)
Definition to_unsigned (w : Z) (neg : bool) (n : Z) : Z * option Z :=
  if 2 ^ w <=? n then (2 ^ w - 1, Some ERANGE) else ((if neg then - n else n) mod 2 ^ w, None).

(** The numeral of the string, converted. *)
Definition parse (conv : bool -> Z -> Z * option Z) (base : Z) (s : list Z) : Z * option Z * Z :=
  match numeral base s with
  | None => (0, Some EINVAL, 0)
  | Some (neg, n, e) => (conv neg n, e)
  end.

Lemma negate_u64 y neg : in_u 64 y ->
  u64 (Z.lxor y (u64 (- cbool neg)) - u64 (- cbool neg)) = u64 (if neg then - y else y).
Proof.
  intros Hy. destruct neg; cbn [cbool].
  - change (u64 (- (1))) with (Z.ones 64). assert (Z.lxor y (Z.ones 64) = 2 ^ 64 - 1 - y) as ->.
    { pose proof (Z.add_lor_land y (Z.ones 64)) as Q. rewrite <- Z.sub_lor_land. rewrite Z.land_ones in * by lia.
      rewrite Z.mod_small in * by done. rewrite Z.ones_equiv in *. lia. }
    rewrite Z.ones_equiv. unfold u64. rewrite <- (Z.mod_add (- y) 1 (2 ^ 64)) by lia. 
    rewrite <- (Z.mod_add (_ - _) 1 (2 ^ 64)) by lia. f_equal. lia.
  - change (u64 (- 0)) with 0. by rewrite Z.lxor_0_r, Z.sub_0_r.
Qed.

Lemma mod_u64 w x : w = 32 \/ w = 64 -> u64 x mod 2 ^ w = x mod 2 ^ w.
Proof. intros [-> | ->]; unfold u64; [|by rewrite Z.mod_mod by lia]. change (2 ^ 64) with (2 ^ 32 * 2 ^ 32). rewrite Z.rem_mul_r by lia. 
  rewrite Z.add_mod, Z.mod_mod, Z.mul_comm, Z.mod_mul, Z.add_0_r, Z.mod_mod by lia. done. Qed.

Lemma swrap_u64 w x : w = 32 \/ w = 64 -> swrap w (u64 x) = swrap w x.
Proof. intros H. unfold swrap. by rewrite mod_u64. Qed.

Lemma limited_signed w neg n : w = 32 \/ w = 64 -> 0 <= n ->
  (swrap w (fst (limited neg n (2 ^ (w - 1)))), snd (limited neg n (2 ^ (w - 1)))) = to_signed w neg n.
Proof.
  intros Hw Hn.
  assert (ctrue (Z.land (2 ^ (w - 1)) 1) = false) as Hodd by (by destruct Hw as [-> | ->]).
  assert (2 ^ (w - 1) < 2 ^ 64 /\ 0 < 2 ^ (w - 1) /\ 0 < w) as (Hl & Hp & Hw0) by (destruct Hw as [-> | ->]; lia).
  assert (swrap w (2 ^ (w - 1)) = - 2 ^ (w - 1)) as Em by (by destruct Hw as [-> | ->]).
  assert (forall x e, in_s w x -> (swrap w (u64 x), e) = (x, e : option Z)) as Hid
    by (intros; rewrite swrap_u64, swrap_id by done; done).
  unfold limited, to_signed, finish. rewrite Hodd. cbn [negb andb].
  destruct neg.
  - change (ctrue (- cbool true)) with true. cbn [negb andb]. unfold in_s in Hid.
    rewrite (proj2 (Z.leb_gt (2 ^ (w - 1)) (- n))) by lia.
    destruct (Z.ltb_spec n (2 ^ 64)).
    + rewrite (negate_u64 n true) by (unfold in_u; lia).
      destruct (Z.ltb_spec (- n) (- 2 ^ (w - 1))); [decide_cmp; cbn [fst snd]; by rewrite Em|].
      rewrite (proj2 (Z.ltb_ge (2 ^ (w - 1)) n)) by lia.
      destruct (2 ^ (w - 1) <=? n); cbn [fst snd]; apply Hid; lia.
    + rewrite (negate_u64 (2 ^ (w - 1)) true) by (unfold in_u; lia). rewrite Z.leb_refl, Z.ltb_irrefl. cbn [fst snd].
      rewrite (proj2 (Z.ltb_lt (- n) (- 2 ^ (w - 1)))) by lia. apply Hid. lia.
  - change (ctrue (- cbool false)) with false. cbn [negb andb]. unfold in_s in Hid.
    rewrite (proj2 (Z.ltb_ge n (- 2 ^ (w - 1)))) by lia.
    destruct (Z.ltb_spec n (2 ^ 64)).
    + destruct (Z.leb_spec (2 ^ (w - 1)) n); cbn [fst snd]; [apply Hid; lia|].
      rewrite (negate_u64 n false) by (unfold in_u; lia). apply Hid. lia.
    + rewrite Z.leb_refl. cbn [fst snd]. rewrite (proj2 (Z.leb_le (2 ^ (w - 1)) n)) by lia. apply Hid. lia.
Qed.

Lemma limited_unsigned w neg n : w = 32 \/ w = 64 -> 0 <= n ->
  (fst (limited neg n (2 ^ w - 1)) mod 2 ^ w, snd (limited neg n (2 ^ w - 1))) = to_unsigned w neg n.
Proof.
  intros Hw Hn.
  assert (ctrue (Z.land (2 ^ w - 1) 1) = true) as Hodd by (by destruct Hw as [-> | ->]).
  assert (2 ^ w <= 2 ^ 64 /\ 0 < 2 ^ w - 1) as (Hl & Hp) by (destruct Hw as [-> | ->]; lia).
  unfold limited, to_unsigned, finish. rewrite Hodd. cbn [negb andb]. destruct (Z.ltb_spec n (2 ^ 64)).
  - rewrite negate_u64 by (unfold in_u; lia). destruct (Z.leb_spec (2 ^ w) n).
    + decide_cmp. cbn [fst snd]. by rewrite Z.mod_small by lia.
    + rewrite (proj2 (Z.ltb_ge (2 ^ w - 1) n)) by lia. destruct (_ <=? n); cbn [fst snd]; by rewrite mod_u64 by done.
  - rewrite Z.leb_refl, Z.ltb_irrefl. cbn [fst snd]. rewrite (negate_u64 _ false) by (unfold in_u; lia).
    rewrite mod_u64, Z.mod_small by (done || lia). decide_cmp. done.
Qed.

Lemma limited_range neg n lim : 0 <= n -> 0 < lim < 2 ^ 64 -> 0 <= fst (limited neg n lim) < 2 ^ 64.
Proof.
  intros Hn Hl. unfold limited, finish. pose proof (fun x => u64_range x) as Hu. unfold in_u in Hu.
  repeat case_match; cbn [fst]; apply Hu || lia.
Qed.

(** The magnitude of a numeral is not negative. *)
Lemma numeral_nonneg base s neg n e : cstring s -> base = 0 \/ 2 <= base <= 36 -> numeral base s = Some (neg, n, e) -> 0 <= n.
Proof.
  intros Hs Hb. unfold numeral. cbv zeta. destruct (_ && is_digit 16 _).
  - intros [= _ <- _]. apply num_nonneg; [lia|]. rewrite drop_drop. by apply span_chars.
  - set (b := if base =? 0 then _ else base). assert (0 <= b) by (unfold b; repeat case_cmp; lia).
    destruct (span (is_digit b) _) as [|c d] eqn:E; [done|]. intros [= _ <- _]. apply num_nonneg; [done|].
    rewrite <- E. by apply span_chars.
Qed.

Lemma strtol_values s base : cstring s -> base = 0 \/ 2 <= base <= 36 ->
  strtol s base = Ok (parse (to_signed 32) base s) /\ strtoll s base = Ok (parse (to_signed 64) base s) /\
  strtoul s base = Ok (parse (to_unsigned 32) base s) /\ strtoull s base = Ok (parse (to_unsigned 64) base s).
Proof.
  intros Hs Hb. unfold strtol, strtoll, strtoul, strtoull, parse. rewrite (u32_id base) by (unfold in_u; lia).
  rewrite !strtox_spec by done.
  destruct (numeral base s) as [[[neg n] e]|] eqn:E; [|done]. pose proof (numeral_nonneg _ _ _ _ _ Hs Hb E).
  rewrite <- !limited_signed, <- !limited_unsigned by auto. cbn [obind].
  change (u64 LLONG_MIN) with (2 ^ (64 - 1)). change (u32 (- 2 ^ 31)) with (2 ^ (32 - 1)).
  change ULLONG_MAX with (2 ^ 64 - 1). change ULONG_MAX with (2 ^ 32 - 1).
  split_and!; [by destruct (limited neg n _)..|].
  rewrite Z.mod_small by (apply limited_range; lia). by destruct (limited neg n _).
Qed.

(** C21: for every C string and every base that the functions accept, [strtol],
    [strtoll], [strtoul] and [strtoull] return the exact value of the numeral
    at the start of the string (white space, sign, [0x] and [0] prefixes as the
    base says) where its type can hold it, the nearest bound of the type and
    [ERANGE] where it cannot (an unsigned type takes the negation of what it can hold
    modulo its size), and the index of the numeral's end; without a numeral
    they return 0 with [EINVAL] and index 0. They never read past the string. *)
Theorem strtol_correct s base : cstring s -> base = 0 \/ 2 <= base <= 36 ->
  strtol s base = Ok (parse (to_signed 32) base s) /\ strtoll s base = Ok (parse (to_signed 64) base s) /\
  strtoul s base = Ok (parse (to_unsigned 32) base s) /\ strtoull s base = Ok (parse (to_unsigned 64) base s).
Proof. apply strtol_values. Qed.

(** [" -0x1fz"] in base 0. *)
Lemma strtol_correct_witness : let s := [32; 45; 48; 120; 49; 102; 122] in
  cstring s /\ parse (to_signed 32) 0 s = (-31, None, 6) /\ strtol s 0 = Ok (parse (to_signed 32) 0 s).
Proof.
  intros s. assert (cstring s) as Hs by (repeat constructor; lia).
  split; [done|]. split; [reflexivity|]. exact (proj1 (strtol_correct s 0 Hs (or_introl eq_refl))).
Defined.

(** A base that is neither 0 nor from 2 to 36 is refused. *)
Lemma strtol_bad_base s base : in_s 32 base -> base <> 0 -> ~ 2 <= base <= 36 ->
  strtol s base = Ok (0, Some EINVAL, 0) /\ strtoll s base = Ok (0, Some EINVAL, 0) /\
  strtoul s base = Ok (0, Some EINVAL, 0) /\ strtoull s base = Ok (0, Some EINVAL, 0).
Proof.
  unfold in_s. intros Hr H0 Hn. unfold strtol, strtoll, strtoul, strtoull, strtox, __intscan.
  replace ((36 <? u32 base) || (u32 base =? 1)) with true; [done|]. symmetry. apply orb_true_iff.
  destruct (Z.eq_dec base 1) as [-> |]; [by right|left]. apply Z.ltb_lt. unfold u32. change (32 - 1) with 31 in Hr.
  destruct (Z.lt_ge_cases base 0); [|rewrite Z.mod_small by lia; lia].
  rewrite <- (Z.mod_add base 1), Z.mod_small by lia. lia.
Qed.

(** * [atoi] *)

Lemma drop_spaces_span s : drop_spaces s = drop (Z.to_nat (zlen (span isspace s))) s.
Proof.
  induction s as [|c s IH]; [done|]. simpl. destruct (isspace c); [|done].
  rewrite zlen_cons, IH. replace (Z.to_nat (1 + zlen (span isspace s))) with (S (Z.to_nat (zlen (span isspace s)))) by (unfold zlen; lia).
  done.
Qed.

(** Decimal digits from the accumulated number [a] on. *)
Definition num_from (a : Z) (ds : list Z) : Z := fold_left (fun a c => a * 10 + val c) ds a.

Lemma num_from_mono ds : forall a, 0 <= a -> Forall (fun c => 0 <= c < 256) ds -> a <= num_from a ds.
Proof.
  induction ds as [|c ds IH]; intros a Ha H; [simpl; lia|]. apply Forall_cons in H as [Hc H].
  pose proof (val_range c Hc). cbn [num_from fold_left]. specialize (IH (a * 10 + val c) ltac:(lia) H). unfold num_from in IH. lia.
Qed.

Lemma ato_digits_spec w : 1 < w -> forall s a, cstring s -> 0 <= a <= 2 ^ (w - 1) ->
  let v := num_from a (span (is_digit 10) s) in
  ato_digits w s (- a) = if v <=? 2 ^ (w - 1) then Ok (- v) else UB.
Proof.
  intros Hw. assert (0 < 2 ^ (w - 1)) by (apply Z.pow_pos_nonneg; lia).
  induction s as [|c s IH]; intros a Hs Ha v; [by subst v; simpl; decide_cmp|].
  apply Forall_cons in Hs as [Hc Hs]. destruct (digit10 c ltac:(lia)) as [E1 E2]. subst v. cbn [ato_digits span].
  unfold isdigit. rewrite E1. destruct (is_digit 10 c) eqn:Ed; [|simpl; by decide_cmp].
  destruct (E2 eq_refl) as [_ Ev]. pose proof (is_digit_val 10 c ltac:(lia) Ed). rewrite Ev.
  replace (10 * - a - val c) with (- (a * 10 + val c)) by lia.
  assert (a * 10 + val c <= num_from (a * 10 + val c) (span (is_digit 10) s)) as Hm.
  { apply num_from_mono; [lia|]. by apply (span_chars (is_digit 10) s 0). }
  change (num_from a (c :: span (is_digit 10) s)) with (num_from (a * 10 + val c) (span (is_digit 10) s)).
  destruct (Z.leb_spec (a * 10 + val c) (2 ^ (w - 1))).
  - rewrite <- IH by (done || lia). decide_cmp. done.
  - rewrite (proj2 (Z.leb_gt (num_from _ _) _)) by lia.
    rewrite (proj2 (Z.leb_gt _ (- (a * 10 + val c)))) by lia. by rewrite andb_false_r.
Qed.

Lemma tail_drop {A} (l : list A) n : tail (drop n l) = drop (S n) l.
Proof. revert n. induction l as [|x l IH]; intros [|n]; simpl; done. Qed.

Lemma ato_spec w s : w = 32 \/ w = 64 -> cstring s ->
  ato w s = match parse (to_signed w) 10 s with
            | (v, e, _) => if decide (e = Some ERANGE) then UB else Ok v
            end.
Proof.
  intros Hw Hs. assert (0 < 2 ^ (w - 1) /\ 1 < w) as [Hp Hw1] by (destruct Hw as [-> | ->]; lia).
  unfold ato. rewrite drop_spaces_span, !schar_from, Z.add_0_r by (unfold zlen; lia). unfold parse, numeral. cbv zeta.
  set (z := zlen (span isspace s)). assert (0 <= z) by apply zlen_nonneg.
  change ((10 =? 0) || (10 =? 16)) with false. change (if 10 =? 0 then _ else 10) with 10. cbn [andb].
  rewrite (orb_comm (schar s z =? 45)). rewrite tail_drop. replace (S (Z.to_nat z)) with (Z.to_nat (z + 1)) by lia.
  set (sign := (schar s z =? 43) || (schar s z =? 45)). set (k := if sign then z + 1 else z).
  replace (if sign then drop (Z.to_nat (z + 1)) s else drop (Z.to_nat z) s) with (drop (Z.to_nat k) s) by (unfold k; by destruct sign).
  assert (cstring (drop (Z.to_nat k) s)) as Hd by (by apply Forall_drop).
  change (ato_digits w (drop (Z.to_nat k) s) 0) with (ato_digits w (drop (Z.to_nat k) s) (- 0)). rewrite (ato_digits_spec w Hw1 _ 0 Hd) by lia. cbv zeta.
  change (num_from 0) with (num 10). pose proof (num_nonneg 10 _ ltac:(lia) (span_chars (is_digit 10) s (Z.to_nat k) Hs)) as Hn.
  set (n := num 10 (span _ _)) in *.
  destruct (span (is_digit 10) (drop (Z.to_nat k) s)) as [|c D] eqn:ED.
  - assert (n = 0) as -> by done. decide_cmp. cbn [obind]. destruct (schar s z =? 45); [done|]. decide_cmp. done.
  - fold n. unfold to_signed. destruct (schar s z =? 45).
    + rewrite (proj2 (Z.leb_gt (2 ^ (w - 1)) (- n))) by lia. destruct (Z.leb_spec n (2 ^ (w - 1))).
      * rewrite (proj2 (Z.ltb_ge (- n) _)) by lia. done.
      * rewrite (proj2 (Z.ltb_lt (- n) _)) by lia. done.
    + rewrite (proj2 (Z.ltb_ge n (- 2 ^ (w - 1)))) by lia. destruct (Z.leb_spec n (2 ^ (w - 1))); cbn [obind].
      * rewrite Z.opp_involutive. rewrite Z.leb_antisym. by destruct (n <? 2 ^ (w - 1)).
      * decide_cmp. done.
Qed.

(** [atoi] and [atol] give what [strtol] in base 10 gives, and [atoll]
    what [strtoll] gives, exactly when that function reports no [ERANGE];
    otherwise their arithmetic overflows, which is undefined behaviour. *)
Theorem atoi_is_strtol s : cstring s ->
  atoi s = (let! r := strtol s 10 in let '(v, e, _) := r in if decide (e = Some ERANGE) then UB else Ok v) /\
  atol s = atoi s /\
  atoll s = (let! r := strtoll s 10 in let '(v, e, _) := r in if decide (e = Some ERANGE) then UB else Ok v).
Proof.
  intros Hs. destruct (strtol_values s 10 Hs) as (E1 & E2 & _); [lia|]. rewrite E1, E2. cbn [obind].
  split_and!; [apply ato_spec; auto|done|apply ato_spec; auto].
Qed.

(** ["2147483648"] overflows [int]; ["-12x"] does not. *)
Lemma atoi_is_strtol_witness :
  cstring [45; 49; 50; 120] /\ atoi [45; 49; 50; 120] = Ok (-12) /\ atoi [50;49;52;55;52;56;51;54;52;56] = UB.
Proof.
  assert (cstring [45; 49; 50; 120]) as H1 by (repeat constructor; lia).
  assert (cstring [50;49;52;55;52;56;51;54;52;56]) as H2 by (repeat constructor; lia).
  split; [done|]. split.
  - rewrite (proj1 (atoi_is_strtol _ H1)). reflexivity.
  - rewrite (proj1 (atoi_is_strtol _ H2)). vm_compute. reflexivity.
Defined.
