(* ===== verification/Memory.v ===== *)
(** Linear memory, and what the string functions do with machine words.

    The memory of a wasm32 program is a list of bytes, indexed by address; an
    access outside of it, or to a word at an address that is not a multiple of its
    size, is undefined behaviour.  Words are little-endian.  Pointers are
    addresses, [size_t] has 32 bits.

    The second half is the word trick the string functions share: [HASZERO(x)]
    of string/strlen.c, which finds a zero byte in a word. *)

From S2P Require Import Prelude.

(** Linear arithmetic with division and remainder by constants. *)
Ltac divlia := Z.to_euclidean_division_equations; lia.

(** * Memory *)

Notation memory := (list Z) (only parsing).
Definition mem (A : Type) : Type := M memory A.

(** The byte at an address. *)
Definition byte (m : memory) (a : Z) : Z := nth (Z.to_nat a) m 0.

Definition load8 (a : Z) : mem Z := fun m =>
  if (0 <=? a) && (a <? zlen m) then Ok (byte m a, m) else UB.
Definition store8 (a v : Z) : mem unit := fun m =>
  if (0 <=? a) && (a <? zlen m) then Ok (tt, <[Z.to_nat a := u8 v]> m) else UB.

(** Four bytes as a number, the lowest first. *)
Definition le4 (b0 b1 b2 b3 : Z) : Z := b0 + 2 ^ 8 * (b1 + 2 ^ 8 * (b2 + 2 ^ 8 * b3)).
Definition word (m : memory) (a : Z) : Z :=
  le4 (byte m a) (byte m (a + 1)) (byte m (a + 2)) (byte m (a + 3)).

Definition load32 (a : Z) : mem Z := fun m =>
  if (0 <=? a) && (a + 4 <=? zlen m) && (a mod 4 =? 0) then Ok (word m a, m) else UB.
Definition store32 (a v : Z) : mem unit :=
  if a mod 4 =? 0 then
    do* store8 a v in
    do* store8 (a + 1) (Z.shiftr v 8) in
    do* store8 (a + 2) (Z.shiftr v 16) in
    store8 (a + 3) (Z.shiftr v 24)
  else sfail.
Definition store64 (a v : Z) : mem unit :=
  if a mod 8 =? 0 then
    do* store32 a (u32 v) in
    store32 (a + 4) (Z.shiftr v 32)
  else sfail.

(** Fuel for a loop that moves through memory. *)
Definition memsize : mem nat := sget (fun m => S (length m)).

(** A memory: bytes, and a whole number of words (WebAssembly memories are
    whole pages of 64 KiB) below 4 GiB. *)
Record wf_memory (m : memory) : Prop := {
  wf_bytes : Forall (fun b => 0 <= b < 256) m;
  wf_size : zlen m mod 8 = 0;
  wf_limit : zlen m <= 2 ^ 32
}.

(** The C string [l] is at address [s]. *)
Definition cstr (m : memory) (s : Z) (l : list Z) : Prop :=
  0 <= s /\ s + zlen l < zlen m /\ Forall (fun c => 0 < c < 256) l /\
  forall i, 0 <= i <= zlen l -> byte m (s + i) = schar l i.

(** [k] bytes at [a], as a list. *)
Definition bytes_at (m : memory) (a k : Z) : list Z := take (Z.to_nat k) (drop (Z.to_nat a) m).

(** ** Bytes *)

Lemma byte_range m a : Forall (fun b => 0 <= b < 256) m -> 0 <= byte m a < 256.
Proof.
  intros H. unfold byte. destruct (nth_in_or_default (Z.to_nat a) m 0) as [Hi| ->]; [|lia].
  rewrite Forall_forall in H. apply list_elem_of_In in Hi. exact (H _ Hi).
Qed.

Lemma byte_store m a v x : 0 <= a < zlen m -> 0 <= x ->
  byte (<[Z.to_nat a := v]> m) x = if x =? a then v else byte m x.
Proof.
  intros Ha Hx. unfold byte, zlen in *. destruct (Z.eqb_spec x a) as [-> |Hne].
  - apply nth_lookup_Some. apply list_lookup_insert_eq. lia.
  - rewrite !nth_lookup, list_lookup_insert_ne by lia. done.
Qed.

Lemma memory_ext m m' : zlen m = zlen m' -> (forall x, 0 <= x < zlen m -> byte m x = byte m' x) -> m = m'.
Proof.
  intros Hl Hb. unfold zlen in *. apply (nth_ext _ _ 0 0); [lia|]. intros n Hn.
  specialize (Hb (Z.of_nat n) ltac:(lia)). unfold byte in Hb. by rewrite Nat2Z.id in Hb.
Qed.

Lemma byte_at m a k x : 0 <= a -> 0 <= x < k -> nth (Z.to_nat x) (bytes_at m a k) 0 = byte m (a + x).
Proof.
  intros Ha Hx. unfold bytes_at, byte. rewrite !nth_lookup, lookup_take_lt, lookup_drop by lia. do 2 f_equal. lia.
Qed.

Lemma zlen_bytes_at m a k : 0 <= a -> 0 <= k -> a + k <= zlen m -> zlen (bytes_at m a k) = k.
Proof. intros. unfold bytes_at, zlen in *. rewrite length_take, length_drop. lia. Qed.

(** ** Rules *)

Lemma wp_load8 a m Q : 0 <= a < zlen m -> Q (byte m a) m -> wp (load8 a) Q m.
Proof. intros Ha HQ. exists (byte m a), m. split; [|done]. unfold load8. decide_cmp. done. Qed.

Lemma wp_store8 a v m Q : 0 <= a < zlen m -> Q tt (<[Z.to_nat a := u8 v]> m) -> wp (store8 a v) Q m.
Proof. intros Ha HQ. eexists _, _. split; [|exact HQ]. unfold store8. decide_cmp. done. Qed.

Lemma wp_load32 a m Q : 0 <= a -> a + 4 <= zlen m -> a mod 4 = 0 -> Q (word m a) m -> wp (load32 a) Q m.
Proof. intros Ha Hl Hal HQ. exists (word m a), m. split; [|done]. unfold load32. decide_cmp. done. Qed.

(** ** Copies

    [copied m d s k m']: [m'] is [m] with the [k] bytes at [s] copied to [d]. *)
Definition copied (m : memory) (d s k : Z) (m' : memory) : Prop :=
  zlen m' = zlen m /\ forall x, 0 <= x -> byte m' x = if (d <=? x) && (x <? d + k) then byte m (x - d + s) else byte m x.

(** [filled m d k f m']: [m'] is [m] with [f] on the [k] bytes at [d]. *)
Definition filled (m : memory) (d k : Z) (f : Z -> Z) (m' : memory) : Prop :=
  zlen m' = zlen m /\ forall x, 0 <= x -> byte m' x = if (d <=? x) && (x <? d + k) then f (x - d) else byte m x.

(** The memory after a fill, as a list. *)
Definition blit (m : memory) (d : Z) (l : list Z) : memory :=
  take (Z.to_nat d) m ++ l ++ drop (Z.to_nat d + length l) m.

Lemma zlen_blit m d l : 0 <= d -> d + zlen l <= zlen m -> zlen (blit m d l) = zlen m.
Proof. intros. unfold blit, zlen in *. rewrite !length_app, length_take, length_drop. lia. Qed.

Lemma byte_blit m d l x : 0 <= d -> d + zlen l <= zlen m -> 0 <= x ->
  byte (blit m d l) x = if (d <=? x) && (x <? d + zlen l) then nth (Z.to_nat (x - d)) l 0 else byte m x.
Proof.
  intros Hd Hl Hx. unfold byte, blit, zlen in *. rewrite !nth_lookup.
  destruct (Z.leb_spec d x), (Z.ltb_spec x (d + Z.of_nat (length l))); cbn [andb]; try lia.
  - rewrite lookup_app_r by (rewrite length_take; lia). rewrite lookup_app_l by (rewrite length_take; lia).
    do 2 f_equal. rewrite length_take. lia.
  - rewrite !lookup_app_r by (rewrite ?length_take; lia). rewrite lookup_drop. do 2 f_equal. rewrite length_take. lia.
  - rewrite lookup_app_l by (rewrite length_take; lia). by rewrite lookup_take_lt by lia.
Qed.

Lemma filled_blit m d l m' : 0 <= d -> d + zlen l <= zlen m ->
  filled m d (zlen l) (fun i => nth (Z.to_nat i) l 0) m' -> m' = blit m d l.
Proof.
  intros Hd Hl [Hz Hb]. apply memory_ext; [by rewrite zlen_blit|]. intros x Hx. rewrite Hb, byte_blit by lia. done.
Qed.

Lemma copied_blit m d s k m' : 0 <= d -> d + k <= zlen m -> 0 <= s -> 0 <= k -> s + k <= zlen m ->
  copied m d s k m' -> m' = blit m d (bytes_at m s k).
Proof.
  intros Hd Hl Hs Hk Hsl [Hz Hb]. apply filled_blit; rewrite ?zlen_bytes_at by lia; [lia|lia|].
  split; [done|]. intros x Hx. rewrite Hb by done. case_match; [|done]. bool_hyps.
  rewrite byte_at by lia. f_equal. lia.
Qed.

(** * Words *)

Lemma le4_range b0 b1 b2 b3 : 0 <= b0 < 256 -> 0 <= b1 < 256 -> 0 <= b2 < 256 -> 0 <= b3 < 256 ->
  0 <= le4 b0 b1 b2 b3 < 2 ^ 32.
Proof. unfold le4. lia. Qed.

Lemma testbit_small n a i : 0 <= a < 2 ^ n -> n <= i -> Z.testbit a i = false.
Proof.
  intros Ha Hi. destruct (Z.eq_dec a 0) as [-> |]; [apply Z.testbit_0_l|].
  apply Z.bits_above_log2; [lia|]. apply Z.lt_le_trans with n; [|done]. apply Z.log2_lt_pow2; lia.
Qed.

(** A bitwise operation on two numbers split at bit [n]. *)
Lemma testbit_split n a b i : 0 <= n -> 0 <= a < 2 ^ n -> 0 <= i ->
  Z.testbit (a + 2 ^ n * b) i = if i <? n then Z.testbit a i else Z.testbit b (i - n).
Proof.
  intros Hn Ha Hi. rewrite Z.add_comm, Z.mul_comm, <- lor_add, Z.lor_spec by done.
  rewrite Z.mul_pow2_bits by lia. destruct (Z.ltb_spec i n).
  - rewrite Z.testbit_neg_r by lia. done.
  - by rewrite (testbit_small n a i), orb_false_r by lia.
Qed.

Lemma bitop_range (op : Z -> Z -> Z) (f : bool -> bool -> bool) n a b :
  (forall x y i, Z.testbit (op x y) i = f (Z.testbit x i) (Z.testbit y i)) -> f false false = false ->
  (forall x y, 0 <= x -> 0 <= y -> 0 <= op x y) ->
  0 <= n -> 0 <= a < 2 ^ n -> 0 <= b < 2 ^ n -> 0 <= op a b < 2 ^ n.
Proof.
  intros Hop Hf Hnn Hn Ha Hb. assert (0 <= op a b) as H0 by (apply Hnn; lia). split; [done|].
  destruct (Z.lt_ge_cases (op a b) (2 ^ n)) as [|Hge]; [done|]. exfalso.
  assert (0 < op a b) as Hp by (pose proof (Z.pow_pos_nonneg 2 n); lia).
  pose proof (Z.bit_log2 (op a b) Hp) as Hbit. rewrite Hop in Hbit.
  assert (n <= Z.log2 (op a b)) by (apply Z.log2_le_pow2; lia).
  rewrite !(testbit_small n), Hf in Hbit by lia. done.
Qed.

Lemma bitop_split (op : Z -> Z -> Z) (f : bool -> bool -> bool) n a b A B :
  (forall x y i, Z.testbit (op x y) i = f (Z.testbit x i) (Z.testbit y i)) -> f false false = false ->
  (forall x y, 0 <= x -> 0 <= y -> 0 <= op x y) ->
  0 <= n -> 0 <= a < 2 ^ n -> 0 <= b < 2 ^ n ->
  op (a + 2 ^ n * A) (b + 2 ^ n * B) = op a b + 2 ^ n * op A B.
Proof.
  intros Hop Hf Hnn Hn Ha Hb. pose proof (bitop_range op f n a b Hop Hf Hnn Hn Ha Hb) as Hr.
  apply Z.bits_inj'. intros i Hi. rewrite Hop, !testbit_split by done. case_cmp; by rewrite Hop.
Qed.

Section Bytewise.
Context (op : Z -> Z -> Z) (f : bool -> bool -> bool).
Context (Hop : forall x y i, Z.testbit (op x y) i = f (Z.testbit x i) (Z.testbit y i)) (Hf : f false false = false).
Context (Hnn : forall x y, 0 <= x -> 0 <= y -> 0 <= op x y).

(** A bitwise operation on words works byte by byte. *)
Lemma bytewise a0 a1 a2 a3 b0 b1 b2 b3 :
  0 <= a0 < 256 -> 0 <= a1 < 256 -> 0 <= a2 < 256 -> 0 <= b0 < 256 -> 0 <= b1 < 256 -> 0 <= b2 < 256 ->
  op (le4 a0 a1 a2 a3) (le4 b0 b1 b2 b3) = le4 (op a0 b0) (op a1 b1) (op a2 b2) (op a3 b3).
Proof. intros. unfold le4. by rewrite !(bitop_split op f 8) by (done || lia). Qed.
End Bytewise.

Lemma land_nonneg' x y : 0 <= x -> 0 <= y -> 0 <= Z.land x y.
Proof. intros. apply Z.land_nonneg. auto. Qed.
Lemma lxor_nonneg' x y : 0 <= x -> 0 <= y -> 0 <= Z.lxor x y.
Proof. intros. apply Z.lxor_nonneg. tauto. Qed.

Definition ONES : Z := u32 (-1) / 255.
Definition HIGHS : Z := u32 (ONES * (255 / 2 + 1)).

(** [HASZERO(x)] of a [size_t]; [~x] is the complement in 32 bits. *)
Definition HASZERO (x : Z) : bool :=
  ctrue (Z.land (Z.land (u32 (x - ONES)) (u32 (Z.lnot x))) HIGHS).

(** What a byte contributes to [HASZERO], from the byte and the byte of [x - ONES]. *)
Definition zero_mark (c b : Z) : Z := Z.land (Z.land c (255 - b)) 128.

Lemma zero_mark_nonneg c b : 0 <= c -> 0 <= b < 256 -> 0 <= zero_mark c b.
Proof. intros. unfold zero_mark. repeat apply land_nonneg'; lia. Qed.

Lemma zero_mark_pred b : 0 < b < 256 -> zero_mark (b - 1) b = 0.
Proof.
  intros Hb. pose proof (forall_below (fun b => (b =? 0) || (zero_mark (b - 1) b =? 0)) 256 eq_refl b ltac:(lia)) as H.
  cbv beta in H. apply orb_true_iff in H as [H|H]; bool_hyps; lia.
Qed.

Lemma haszero_marks b0 b1 b2 b3 c0 c1 c2 c3 :
  0 <= b0 < 256 -> 0 <= b1 < 256 -> 0 <= b2 < 256 -> 0 <= b3 < 256 ->
  0 <= c0 < 256 -> 0 <= c1 < 256 -> 0 <= c2 < 256 -> 0 <= c3 < 256 ->
  u32 (le4 b0 b1 b2 b3 - ONES) = le4 c0 c1 c2 c3 ->
  HASZERO (le4 b0 b1 b2 b3) = ctrue (le4 (zero_mark c0 b0) (zero_mark c1 b1) (zero_mark c2 b2) (zero_mark c3 b3)).
Proof.
  intros ? ? ? ? ? ? ? ? E. unfold HASZERO. rewrite E.
  assert (u32 (Z.lnot (le4 b0 b1 b2 b3)) = le4 (255 - b0) (255 - b1) (255 - b2) (255 - b3)) as ->.
  { unfold u32, Z.lnot, le4. symmetry. apply Z.mod_unique with (-1); lia. }
  change HIGHS with (le4 128 128 128 128).
  assert (forall c b, 0 <= c < 256 -> 0 <= b < 256 -> 0 <= Z.land c b < 256) as Hland.
  { intros c b Hc Hb. exact (bitop_range Z.land andb 8 c b Z.land_spec eq_refl land_nonneg' ltac:(lia) Hc Hb). }
  rewrite !(bytewise Z.land andb Z.land_spec eq_refl land_nonneg') by (lia || apply Hland; lia). done.
Qed.

Lemma borrow b r : 0 <= b < 256 -> 0 <= r <= 1 -> exists r', 0 <= r' <= 1 /\ 0 <= b - 1 - r + 256 * r' < 256.
Proof. intros. destruct (Z.lt_ge_cases b (1 + r)); [exists 1|exists 0]; lia. Qed.

(** [HASZERO] finds a zero byte. *)
Lemma HASZERO_spec b0 b1 b2 b3 : 0 <= b0 < 256 -> 0 <= b1 < 256 -> 0 <= b2 < 256 -> 0 <= b3 < 256 ->
  HASZERO (le4 b0 b1 b2 b3) = (b0 =? 0) || (b1 =? 0) || (b2 =? 0) || (b3 =? 0).
Proof.
  intros H0 H1 H2 H3. pose proof (u32_range (le4 b0 b1 b2 b3 - ONES)) as Hr. unfold in_u in Hr.
  destruct (borrow b0 0) as (r0 & Hr0 & Hc0); [lia..|]. destruct (borrow b1 r0) as (r1 & Hr1 & Hc1); [lia..|].
  destruct (borrow b2 r1) as (r2 & Hr2 & Hc2); [lia..|]. destruct (borrow b3 r2) as (r3 & Hr3 & Hc3); [lia..|].
  rewrite (haszero_marks b0 b1 b2 b3 _ _ _ _ H0 H1 H2 H3 Hc0 Hc1 Hc2 Hc3);
    [|unfold u32, le4; change ONES with 16843009; symmetry; apply Z.mod_unique with (- r3); lia].
  pose proof (zero_mark_nonneg _ b0 (proj1 Hc0) H0). pose proof (zero_mark_nonneg _ b1 (proj1 Hc1) H1).
  pose proof (zero_mark_nonneg _ b2 (proj1 Hc2) H2). pose proof (zero_mark_nonneg _ b3 (proj1 Hc3) H3).
  assert (forall c, c = 255 -> zero_mark c 0 = 128) as Hz by (by intros ? ->).
  assert (forall c b, c = b - 1 -> 0 < b < 256 -> zero_mark c b = 0) as Hp by (intros ? ? ->; apply zero_mark_pred).
  unfold ctrue. apply Bool.eq_true_iff_eq. rewrite negb_true_iff, Z.eqb_neq, !orb_true_iff, !Z.eqb_eq. unfold le4 in *.
  destruct (Z.eq_dec b0 0) as [-> |]; [rewrite (Hz (0 - 1 - 0 + 256 * r0)) by lia; lia|]. rewrite (Hp _ b0) by lia.
  destruct (Z.eq_dec b1 0) as [-> |]; [rewrite (Hz (0 - 1 - r0 + 256 * r1)) by lia; lia|]. rewrite (Hp _ b1) by lia.
  destruct (Z.eq_dec b2 0) as [-> |]; [rewrite (Hz (0 - 1 - r1 + 256 * r2)) by lia; lia|]. rewrite (Hp _ b2) by lia.
  destruct (Z.eq_dec b3 0) as [-> |]; [rewrite (Hz (0 - 1 - r2 + 256 * r3)) by lia; lia|]. rewrite (Hp _ b3) by lia. lia.
Qed.

(** Of a word of memory, and of one whose bytes are compared with [c]. *)
Definition any4 (p : Z -> bool) (m : memory) (a : Z) : bool :=
  p (byte m a) || p (byte m (a + 1)) || p (byte m (a + 2)) || p (byte m (a + 3)).

Lemma HASZERO_word m a : wf_memory m -> HASZERO (word m a) = any4 (fun b => b =? 0) m a.
Proof. intros Hm. apply HASZERO_spec; apply byte_range, Hm. Qed.

Lemma HASZERO_xor m a c : wf_memory m -> 0 <= c < 256 ->
  HASZERO (Z.lxor (word m a) (u32 (ONES * c))) = any4 (fun b => b =? c) m a.
Proof.
  intros Hm Hc. assert (u32 (ONES * c) = le4 c c c c) as ->.
  { change ONES with 16843009. rewrite u32_id by (unfold in_u; lia). unfold le4. lia. }
  pose proof (fun x => byte_range m x (wf_bytes _ Hm)) as Hb. unfold word.
  rewrite (bytewise Z.lxor xorb Z.lxor_spec eq_refl lxor_nonneg') by auto.
  assert (forall x, 0 <= x < 256 -> 0 <= Z.lxor x c < 256) as Hx.
  { intros x H. exact (bitop_range Z.lxor xorb 8 x c Z.lxor_spec eq_refl lxor_nonneg' ltac:(lia) H Hc). }
  rewrite HASZERO_spec by auto. unfold any4.
  assert (forall x, (Z.lxor x c =? 0) = (x =? c)) as E by (intros x; apply Bool.eq_true_iff_eq; by rewrite !Z.eqb_eq, Z.lxor_eq_0_iff).
  by rewrite !E.
Qed.
