(* ===== verification/Strings.v ===== *)
(** Memory and string functions ([libc-top-half/musl/src/string/]).

    Each function is the code of its file on the linear memory: byte loops up to
    an aligned address, loops over words, and byte loops for the rest.  A
    pointer result that may be null is 0 or an address.  [bulk] is the
    configuration of memcpy.c, memmove.c and memset.c: the threshold above which
    they use the bulk memory instructions, or none. *)

From S2P Require Import Prelude Memory.

Definition NULL : Z := 0.

(** Fuel for a loop that counts [n] down. *)
Definition count (n : Z) : nat := S (Z.to_nat n).

(** [c & bit] as a condition. *)
Definition bit (n b : Z) : bool := ctrue (Z.land n b).

Section Bulk.
Context (bulk : option Z).

(** Whether the size is left to the instruction. *)
Definition over_threshold (n : Z) : bool := match bulk with Some t => t <? n | None => false end.

(** [memory.copy] and [memory.fill]: they check the bounds first, and copy as if through a
    temporary. *)
Definition memory_copy (d s n : Z) : mem unit := fun m =>
  if (0 <=? d) && (d + n <=? zlen m) && (0 <=? s) && (s + n <=? zlen m)
  then Ok (tt, blit m d (bytes_at m s n)) else Trap.
Definition memory_fill (d c n : Z) : mem unit := fun m =>
  if (0 <=? d) && (d + n <=? zlen m) then Ok (tt, blit m d (replicate (Z.to_nat n) (u8 c))) else Trap.

(** * memcpy.c *)

(** [*d = *s;] *)
Definition copy_byte (d s : Z) : mem unit := let* c := load8 s in store8 d c.

(** [*d++ = *s++;], [k] times. *)
Fixpoint copy_bytes (k : nat) (d s : Z) : mem (Z * Z) :=
  match k with
  | O => sret (d, s)
  | S k' => do* copy_byte d s in copy_bytes k' (d + 1) (s + 1)
  end.

(** [*(u32 * )d = *(u32 * )s;] *)
Definition copy_word (d s : Z) : mem unit := let* w := load32 s in store32 d w.

(** The case of two aligned pointers. *)
Definition memcpy_aligned (d s n : Z) : mem unit :=
  let* (d, s, n) := while (count n) (fun '(d, s, n) => sret (16 <=? n)) (fun '(d, s, n) =>
      do* copy_word d s in
      do* copy_word (d + 4) (s + 4) in
      do* copy_word (d + 8) (s + 8) in
      do* copy_word (d + 12) (s + 12) in
      sret (d + 16, s + 16, n - 16)) (d, s, n) in
  let* (d, s) := if bit n 8 then
      do* copy_word d s in
      do* copy_word (d + 4) (s + 4) in
      sret (d + 8, s + 8)
    else sret (d, s) in
  let* (d, s) := if bit n 4 then do* copy_word d s in sret (d + 4, s + 4) else sret (d, s) in
  let* (d, s) := if bit n 2 then copy_bytes 2 d s else sret (d, s) in
  if bit n 1 then copy_byte d s else sret tt.

(** The three cases of the [switch]: [e] bytes (3, 2, 1 where [d % 4] is 1, 2,
    3) align [d]; then words of the source, [4 - e] further on, are put together from
    two parts. *)
Definition memcpy_shifted (e d s n : Z) : mem (Z * Z * Z) :=
  let merge w x := Z.lor (Z.shiftr w (8 * e)) (u32 (Z.shiftl x (32 - 8 * e))) in
  let* w := load32 s in
  let* (d, s) := copy_bytes (Z.to_nat e) d s in
  let n := n - e in
  let o := 4 - e in
  let* (d, s, n, w) := while (count n) (fun '(d, s, n, w) => sret (20 - e <=? n)) (fun '(d, s, n, w) =>
      let* x := load32 (s + o) in
      do* store32 d (merge w x) in
      let* w := load32 (s + (o + 4)) in
      do* store32 (d + 4) (merge x w) in
      let* x := load32 (s + (o + 8)) in
      do* store32 (d + 8) (merge w x) in
      let* w := load32 (s + (o + 12)) in
      do* store32 (d + 12) (merge x w) in
      sret (d + 16, s + 16, n - 16, w)) (d, s, n, w) in
  sret (d, s, n).

(** The end: fewer than 32 bytes. *)
Definition memcpy_tail (d s n : Z) : mem unit :=
  let* (d, s) := if bit n 16 then copy_bytes 16 d s else sret (d, s) in
  let* (d, s) := if bit n 8 then copy_bytes 8 d s else sret (d, s) in
  let* (d, s) := if bit n 4 then copy_bytes 4 d s else sret (d, s) in
  let* (d, s) := if bit n 2 then copy_bytes 2 d s else sret (d, s) in
  if bit n 1 then copy_byte d s else sret tt.

Definition memcpy (dest src n : Z) : mem Z :=
  if over_threshold n then do* memory_copy dest src n in sret dest
  else
    let* (d, s, n) := while (count n) (fun '(d, s, n) => sret (ctrue (s mod 4) && ctrue n)) (fun '(d, s, n) =>
        do* copy_byte d s in sret (d + 1, s + 1, n - 1)) (dest, src, n) in
    if d mod 4 =? 0 then do* memcpy_aligned d s n in sret dest
    else
      let* (d, s, n) := if 32 <=? n then memcpy_shifted (4 - d mod 4) d s n else sret (d, s, n) in
      do* memcpy_tail d s n in
      sret dest.

(** * memmove.c *)

(** [if (!n--) return dest;] leaves the loop with the flag set. *)
Definition memmove_up (d s n : Z) : mem unit :=
  let* (d, s, n, out) := if s mod 4 =? d mod 4 then
      let* (d, s, n, out) := while (count (n + 1)) (fun '(d, s, n, out) => sret (negb out && ctrue (d mod 4)))
        (fun '(d, s, n, out) => if n =? 0 then sret (d, s, n, true)
          else do* copy_byte d s in sret (d + 1, s + 1, n - 1, false)) (d, s, n, false) in
      if out : bool then sret (d, s, n, true)
      else
        let* (d, s, n) := while (count n) (fun '(d, s, n) => sret (4 <=? n)) (fun '(d, s, n) =>
            do* copy_word d s in sret (d + 4, s + 4, n - 4)) (d, s, n) in
        sret (d, s, n, false)
    else sret (d, s, n, false) in
  if out : bool then sret tt
  else
    do* while (count n) (fun '(d, s, n) => sret (ctrue n)) (fun '(d, s, n) =>
          do* copy_byte d s in sret (d + 1, s + 1, n - 1)) (d, s, n) in
    sret tt.

Definition memmove_down (d s n : Z) : mem unit :=
  let* (n, out) := if s mod 4 =? d mod 4 then
      let* (n, out) := while (count (n + 1)) (fun '(n, out) => sret (negb out && ctrue ((d + n) mod 4)))
        (fun '(n, out) => if n =? 0 then sret (n, true)
          else do* copy_byte (d + (n - 1)) (s + (n - 1)) in sret (n - 1, false)) (n, false) in
      if out : bool then sret (n, true)
      else
        let* n := while (count n) (fun n => sret (4 <=? n)) (fun n =>
            do* copy_word (d + (n - 4)) (s + (n - 4)) in sret (n - 4)) n in
        sret (n, false)
    else sret (n, false) in
  if out : bool then sret tt
  else
    do* while (count n) (fun n => sret (ctrue n)) (fun n =>
          do* copy_byte (d + (n - 1)) (s + (n - 1)) in sret (n - 1)) n in
    sret tt.

Definition memmove (dest src n : Z) : mem Z :=
  if over_threshold n then do* memory_copy dest src n in sret dest
  else
    let d := dest in
    let s := src in
    if d =? s then sret d
    else if u32 (u32 (s - d) - n) <=? u32 (- 2 * n) then memcpy d s n
    else if d <? s then do* memmove_up d s n in sret dest
    else do* memmove_down d s n in sret dest.

(** * memset.c *)

(** The stores at the listed offsets. *)
Fixpoint stores8 (s c : Z) (offsets : list Z) : mem unit :=
  match offsets with [] => sret tt | o :: os => do* store8 (s + o) c in stores8 s c os end.
Fixpoint stores32 (s c : Z) (offsets : list Z) : mem unit :=
  match offsets with [] => sret tt | o :: os => do* store32 (s + o) c in stores32 s c os end.

(** The part for more than 8 bytes. *)
Definition memset_words (s c n : Z) : mem unit :=
  let k := Z.land (u32 (- s)) 3 in
  let s := s + k in
  let n := Z.land (n - k) (u32 (-4)) in
  let c32 := u32 (u32 (-1) / 255 * u8 c) in
  do* stores32 s c32 [0; n - 4] in
  if n <=? 8 then sret tt
  else
    do* stores32 s c32 [4; 8; n - 12; n - 8] in
    if n <=? 24 then sret tt
    else
      do* stores32 s c32 [12; 16; 20; 24; n - 28; n - 24; n - 20; n - 16] in
      let k := 24 + Z.land s 4 in
      let s := s + k in
      let n := n - k in
      let c64 := Z.lor c32 (Z.shiftl c32 32) in
      do* while (count n) (fun '(s, n) => sret (32 <=? n)) (fun '(s, n) =>
          do* store64 s c64 in
          do* store64 (s + 8) c64 in
          do* store64 (s + 16) c64 in
          do* store64 (s + 24) c64 in
          sret (s + 32, n - 32)) (s, n) in
      sret tt.

Definition memset (dest c n : Z) : mem Z :=
  if over_threshold n then do* memory_fill dest c n in sret dest
  else
    let s := dest in
    if n =? 0 then sret dest
    else
      do* stores8 s c [0; n - 1] in
      if n <=? 2 then sret dest
      else
        do* stores8 s c [1; 2; n - 2; n - 3] in
        if n <=? 6 then sret dest
        else
          do* stores8 s c [3; n - 4] in
          if n <=? 8 then sret dest
          else do* memset_words s c n in sret dest.

Definition mempcpy (dest src n : Z) : mem Z := let* d := memcpy dest src n in sret (d + n).
Definition bcopy (s1 s2 n : Z) : mem unit := do* memmove s2 s1 n in sret tt.
Definition bzero (s n : Z) : mem unit := do* memset s 0 n in sret tt.
End Bulk.

(** * Searching *)

(** [for (; s % ALIGN; s++) if (stop( *s)) return s;]: the place, and whether the function returns there. *)
Definition align_find (stop : Z -> bool) (s : Z) : mem (Z * bool) :=
  let* fuel := memsize in
  while fuel (fun '(s, out) => sret (negb out && ctrue (s mod 4)))
    (fun '(s, _) => let* c := load8 s in sret (if stop c then (s, true) else (s + 1, false))) (s, false).

(** [for (; !stop( *s); s++);] *)
Definition find (stop : Z -> bool) (s : Z) : mem Z :=
  let* fuel := memsize in
  while fuel (fun s => let* c := load8 s in sret (negb (stop c))) (fun s => sret (s + 1)) s.

(** [for (w = s; !hit( *w); w++);] *)
Definition find_word (hit : Z -> bool) (w : Z) : mem Z :=
  let* fuel := memsize in
  while fuel (fun w => let* x := load32 w in sret (negb (hit x))) (fun w => sret (w + 4)) w.

Definition strlen (s : Z) : mem Z :=
  let a := s in
  let* (s, out) := align_find (fun c => c =? 0) s in
  if out : bool then sret (s - a)
  else
    let* s := find_word HASZERO s in
    let* s := find (fun c => c =? 0) s in
    sret (s - a).

Definition __strchrnul (s c : Z) : mem Z :=
  let c := u8 c in
  if c =? 0 then let* l := strlen s in sret (s + l)
  else
    let* (s, out) := align_find (fun x => (x =? 0) || (x =? c)) s in
    if out : bool then sret s
    else
      let k := u32 (ONES * c) in
      let* s := find_word (fun x => HASZERO x || HASZERO (Z.lxor x k)) s in
      find (fun x => (x =? 0) || (x =? c)) s.

(** [for (; cond(s) && n && *s != c; s++, n--);] *)
Definition memchr_bytes (cond : Z -> bool) (c s n : Z) : mem (Z * Z) :=
  while (count n) (fun '(s, n) => if cond s && ctrue n then let* x := load8 s in sret (negb (x =? c)) else sret false)
    (fun '(s, n) => sret (s + 1, n - 1)) (s, n).

Definition memchr (src c n : Z) : mem Z :=
  let s := src in
  let c := u8 c in
  let* (s, n) := memchr_bytes (fun s => ctrue (Z.land s 3)) c s n in
  let* hit := if ctrue n then let* x := load8 s in sret (negb (x =? c)) else sret false in
  let* (s, n) := if hit : bool then
      let k := u32 (ONES * c) in
      while (count n) (fun '(w, n) => if 4 <=? n then let* x := load32 w in sret (negb (HASZERO (Z.lxor x k))) else sret false)
        (fun '(w, n) => sret (w + 4, n - 4)) (s, n)
    else sret (s, n) in
  let* (s, n) := memchr_bytes (fun _ => true) c s n in
  sret (if ctrue n then s else NULL).

(** [while (n--) if (s[n]==c) return s+n;] *)
Fixpoint memrchr_loop (k : nat) (s c : Z) : mem Z :=
  match k with
  | O => sret NULL
  | S k' =>
      let n := Z.of_nat k' in
      let* x := load8 (s + n) in
      if x =? c then sret (s + n) else memrchr_loop k' s c
  end.
Definition __memrchr (m c n : Z) : mem Z := memrchr_loop (Z.to_nat n) m (u8 c).

Definition strchr (s c : Z) : mem Z :=
  let* r := __strchrnul s c in
  let* x := load8 r in
  sret (if x =? u8 c then r else NULL).

Definition strrchr (s c : Z) : mem Z := let* l := strlen s in __memrchr s c (l + 1).

Definition index (s c : Z) : mem Z := strchr s c.
Definition rindex (s c : Z) : mem Z := strrchr s c.

Definition strnlen (s n : Z) : mem Z :=
  let* p := memchr s 0 n in
  sret (if ctrue p then p - s else n).

(** * Comparing *)

Definition memcmp (l r n : Z) : mem Z :=
  let* (l, r, n) := while (count n) (fun '(l, r, n) =>
      if ctrue n then let* x := load8 l in let* y := load8 r in sret (x =? y) else sret false)
    (fun '(l, r, n) => sret (l + 1, r + 1, n - 1)) (l, r, n) in
  if ctrue n then let* x := load8 l in let* y := load8 r in sret (x - y) else sret 0.

Definition bcmp (s1 s2 n : Z) : mem Z := memcmp s1 s2 n.

Definition strcmp (l r : Z) : mem Z :=
  let* fuel := memsize in
  let* (l, r) := while fuel (fun '(l, r) => let* x := load8 l in let* y := load8 r in sret ((x =? y) && ctrue x))
    (fun '(l, r) => sret (l + 1, r + 1)) (l, r) in
  let* x := load8 l in
  let* y := load8 r in
  sret (x - y).

Definition strncmp (l r n : Z) : mem Z :=
  if n =? 0 then sret 0
  else
    let* (l, r, n) := while (count n) (fun '(l, r, n) =>
        let* x := load8 l in
        if ctrue x then
          let* y := load8 r in
          if ctrue y && ctrue n then sret (x =? y) else sret false
        else sret false)
      (fun '(l, r, n) => sret (l + 1, r + 1, n - 1)) (l, r, n - 1) in
    let* x := load8 l in
    let* y := load8 r in
    sret (x - y).

(** * Byte sets *)

(** [size_t byteset[32/sizeof(size_t)]] and [BITOP]. *)
Definition byteset : Type := list Z.
Definition byteset_empty : byteset := replicate 8 0.
Definition byteset_add (b : byteset) (c : Z) : outcome byteset :=
  let! w := zget b (c / 32) in zset b (c / 32) (Z.lor w (u32 (Z.shiftl 1 (c mod 32)))).
Definition byteset_has (b : byteset) (c : Z) : outcome bool :=
  let! w := zget b (c / 32) in Ok (ctrue (Z.land w (u32 (Z.shiftl 1 (c mod 32))))).


(** [for (; *c && BITOP(byteset, *c, |=); c++);] *)
Definition byteset_of (c : Z) : mem byteset :=
  let* fuel := memsize in
  let* (_, b) := while fuel (fun '(c, _) => let* x := load8 c in sret (ctrue x))
    (fun '(c, b) => let* x := load8 c in let* b' := lift (byteset_add b x) in sret (c + 1, b')) (c, byteset_empty) in
  sret b.

(** [for (; *s && keep( *s in byteset); s++);] *)
Definition byteset_skip (keep : bool) (b : byteset) (s : Z) : mem Z :=
  let* fuel := memsize in
  while fuel (fun s => let* x := load8 s in
      if ctrue x then let* h := lift (byteset_has b x) in sret (Bool.eqb h keep) else sret false)
    (fun s => sret (s + 1)) s.

Definition strcspn (s c : Z) : mem Z :=
  let a := s in
  let* c0 := load8 c in
  let* single := if c0 =? 0 then sret true else let* c1 := load8 (c + 1) in sret (c1 =? 0) in
  if single : bool then let* r := __strchrnul s c0 in sret (r - a)
  else
    let* b := byteset_of c in
    let* s := byteset_skip false b s in
    sret (s - a).

Definition strspn (s c : Z) : mem Z :=
  let a := s in
  let* c0 := load8 c in
  if c0 =? 0 then sret 0
  else
    let* c1 := load8 (c + 1) in
    if c1 =? 0 then let* s := find (fun x => negb (x =? c0)) s in sret (s - a)
    else
      let* b := byteset_of c in
      let* s := byteset_skip true b s in
      sret (s - a).

Definition strpbrk (s b : Z) : mem Z :=
  let* n := strcspn s b in
  let* x := load8 (s + n) in
  sret (if ctrue x then s + n else NULL).

(** * Tokens: the result and the new value of [*p] *)

Definition strtok_r (s sep p : Z) : mem (Z * Z) :=
  let s := if s =? NULL then p else s in
  if s =? NULL then sret (NULL, p)
  else
    let* n := strspn s sep in
    let s := s + n in
    let* x := load8 s in
    if x =? 0 then sret (NULL, NULL)
    else
      let* k := strcspn s sep in
      let p := s + k in
      let* y := load8 p in
      if ctrue y then do* store8 p 0 in sret (s, p + 1) else sret (s, NULL).

Definition strsep (str sep : Z) : mem (Z * Z) :=
  let s := str in
  if s =? NULL then sret (NULL, str)
  else
    let* k := strcspn s sep in
    let end_ := s + k in
    let* x := load8 end_ in
    if ctrue x then do* store8 end_ 0 in sret (s, end_ + 1) else sret (s, NULL).

(** [strtok] is the same code on a [static char *p]: the result and its new value. *)
Definition strtok (p s sep : Z) : mem (Z * Z) := strtok_r s sep p.

(** * Copying strings *)

(** [for (; ( *d= *s); s++, d++);] *)
Definition copy_string (d s : Z) : mem Z :=
  let* fuel := memsize in
  let* (d, _) := while fuel (fun '(d, s) => let* c := load8 s in do* store8 d c in sret (ctrue c))
    (fun '(d, s) => sret (d + 1, s + 1)) (d, s) in
  sret d.

Definition __stpcpy (d s : Z) : mem Z :=
  let* fuel := memsize in
  let* (d, s, out) := if s mod 4 =? d mod 4 then
      let* (d, s, out) := while fuel (fun '(d, s, out) => sret (negb out && ctrue (s mod 4)))
        (fun '(d, s, _) => let* c := load8 s in do* store8 d c in
          sret (if c =? 0 then (d, s, true) else (d + 1, s + 1, false))) (d, s, false) in
      if out : bool then sret (d, s, true)
      else
        let* (d, s) := while fuel (fun '(_, ws) => let* x := load32 ws in sret (negb (HASZERO x)))
          (fun '(wd, ws) => do* copy_word wd ws in sret (wd + 4, ws + 4)) (d, s) in
        sret (d, s, false)
    else sret (d, s, false) in
  if out : bool then sret d else copy_string d s.

Definition strcpy (dest src : Z) : mem Z := do* __stpcpy dest src in sret dest.
Definition strcat (dest src : Z) : mem Z :=
  let* l := strlen dest in
  do* strcpy (dest + l) src in
  sret dest.

(** [for (; cond(s) && n && ( *d= *s)!=c; n--, s++, d++);] *)
Definition copy_until (cond : Z -> bool) (c d s n : Z) : mem (Z * Z * Z) :=
  while (count n) (fun '(d, s, n) => if cond s && ctrue n then let* x := load8 s in do* store8 d x in sret (negb (x =? c)) else sret false)
    (fun '(d, s, n) => sret (d + 1, s + 1, n - 1)) (d, s, n).

(** [for (; n>=sizeof(size_t) && !hit( *ws); n-=sizeof(size_t), ws++, wd++) *wd = *ws;] *)
Definition copy_words_until (hit : Z -> bool) (d s n : Z) : mem (Z * Z * Z) :=
  while (count n) (fun '(_, ws, n) => if 4 <=? n then let* x := load32 ws in sret (negb (hit x)) else sret false)
    (fun '(wd, ws, n) => do* copy_word wd ws in sret (wd + 4, ws + 4, n - 4)) (d, s, n).

Definition misaligned (s : Z) : bool := ctrue (Z.land s 3).
Definition always (_ : Z) : bool := true.

Definition memccpy (dest src c n : Z) : mem Z :=
  let d := dest in
  let s := src in
  let c := u8 c in
  let* (d, s, n, tail) := if Z.land s 3 =? Z.land d 3 then
      let* (d, s, n) := copy_until misaligned c d s n in
      if misaligned s then sret (d, s, n, true)
      else
        let k := u32 (ONES * c) in
        let* (d, s, n) := copy_words_until (fun x => HASZERO (Z.lxor x k)) d s n in
        sret (d, s, n, false)
    else sret (d, s, n, false) in
  let* (d, s, n) := if tail : bool then sret (d, s, n) else copy_until always c d s n in
  sret (if ctrue n then d + 1 else NULL).

Section Bulk.
Context (bulk : option Z).

Definition __stpncpy (d s n : Z) : mem Z :=
  let* (d, s, n, tail) := if Z.land s 3 =? Z.land d 3 then
      let* (d, s, n) := copy_until misaligned 0 d s n in
      let* stop := if n =? 0 then sret true else let* x := load8 s in sret (x =? 0) in
      if stop : bool then sret (d, s, n, true)
      else
        let* (d, s, n) := copy_words_until HASZERO d s n in
        sret (d, s, n, false)
    else sret (d, s, n, false) in
  let* (d, s, n) := if tail : bool then sret (d, s, n) else copy_until always 0 d s n in
  do* memset bulk d 0 n in
  sret d.

Definition strncpy (d s n : Z) : mem Z := do* __stpncpy d s n in sret d.
End Bulk.

Definition strlcpy (d s n : Z) : mem Z :=
  let d0 := d in
  if n =? 0 then let* l := strlen s in sret (d - d0 + l)
  else
    let n := n - 1 in
    let* (d, s, n) := if Z.land s 3 =? Z.land d 3 then
        let* (d, s, n) := copy_until misaligned 0 d s n in
        let* go := if ctrue n then let* x := load8 s in sret (ctrue x) else sret false in
        if go : bool then copy_words_until HASZERO d s n else sret (d, s, n)
      else sret (d, s, n) in
    let* (d, s, n) := copy_until always 0 d s n in
    do* store8 d 0 in
    let* l := strlen s in
    sret (d - d0 + l).

Definition strlcat (d s n : Z) : mem Z :=
  let* l := strnlen d n in
  if l =? n then let* k := strlen s in sret (l + k)
  else let* k := strlcpy (d + l) s (n - l) in sret (l + k).

Definition strncat (d s n : Z) : mem Z :=
  let a := d in
  let* l := strlen d in
  let* (d, s, n) := while (count n) (fun '(d, s, n) => if ctrue n then let* x := load8 s in sret (ctrue x) else sret false)
    (fun '(d, s, n) => do* copy_byte d s in sret (d + 1, s + 1, n - 1)) (d + l, s, n) in
  do* store8 d 0 in
  sret a.

(** A copy across the alignments: 40 bytes from address 1 to address 50. *)
Example memcpy_demo :
  memcpy None 50 1 40 (seqZ 0 50 ++ replicate 46 0) = Ok (50, seqZ 0 50 ++ seqZ 1 40 ++ replicate 6 0).
Proof. vm_compute. reflexivity. Qed.
Example memmove_demo :
  memmove None 5 1 20 (seqZ 0 32) = Ok (5, seqZ 0 5 ++ seqZ 1 20 ++ seqZ 25 7).
Proof. vm_compute. reflexivity. Qed.
Example memset_demo :
  memset None 3 7 60 (seqZ 0 72) = Ok (3, seqZ 0 3 ++ replicate 60 7 ++ seqZ 63 9).
Proof. vm_compute. reflexivity. Qed.
(** "hello" at address 2, and the tokens of "a,b" at address 8. *)
Definition demo_memory : memory := [0; 0; 104; 101; 108; 108; 111; 0; 97; 44; 98; 0; 44; 0; 0; 0].
Example strings_demo :
  strlen 2 demo_memory = Ok (5, demo_memory) /\ strchr 2 108 demo_memory = Ok (4, demo_memory) /\
  strrchr 2 108 demo_memory = Ok (5, demo_memory) /\ memchr 2 111 5 demo_memory = Ok (6, demo_memory) /\
  strcmp 2 8 demo_memory = Ok (7, demo_memory) /\
  strtok_r 8 12 0 demo_memory = Ok ((8, 10), <[9%nat := 0]> demo_memory).
Proof. vm_compute. split_and!; reflexivity. Qed.
