(* ===== verification/StringsCopy.v ===== *)
(** Correctness of memcpy, memmove and memset: whatever the alignments, they
    move and fill exactly the bytes asked for. *)

From S2P Require Import Prelude Memory Strings.

Ltac pair_eq := repeat (match goal with |- (_, _) = (_, _) => apply f_equal2 end); lia.

(** * Bytes of words *)

Lemma le4_shift b0 b1 b2 b3 : 0 <= b0 < 256 -> 0 <= b1 < 256 -> 0 <= b2 < 256 -> 0 <= b3 < 256 ->
  u8 (le4 b0 b1 b2 b3) = b0 /\ u8 (Z.shiftr (le4 b0 b1 b2 b3) 8) = b1 /\
  u8 (Z.shiftr (le4 b0 b1 b2 b3) 16) = b2 /\ u8 (Z.shiftr (le4 b0 b1 b2 b3) 24) = b3.
Proof.
  intros. rewrite !Z.shiftr_div_pow2 by lia. unfold u8, le4.
  change (2 ^ 16) with 65536. change (2 ^ 24) with 16777216. change (2 ^ 8) with 256.
  rewrite <- (Z.div_unique_pos _ 256 (b1 + 256 * (b2 + 256 * b3)) b0) by lia.
  rewrite <- (Z.div_unique_pos _ 65536 (b2 + 256 * b3) (b0 + 256 * b1)) by lia.
  rewrite <- (Z.div_unique_pos _ 16777216 b3 (b0 + 256 * (b1 + 256 * b2))) by lia.
  split_and!; symmetry; [apply Z.mod_unique with (b1 + 256 * (b2 + 256 * b3))|apply Z.mod_unique with (b2 + 256 * b3)|
    apply Z.mod_unique with b3|apply Z.mod_unique with 0]; lia.
Qed.

(** A word put together from two neighbours. *)
Lemma merge_words e a0 a1 a2 a3 b0 b1 b2 b3 : e = 1 \/ e = 2 \/ e = 3 ->
  0 <= a0 < 256 -> 0 <= a1 < 256 -> 0 <= a2 < 256 -> 0 <= a3 < 256 ->
  0 <= b0 < 256 -> 0 <= b1 < 256 -> 0 <= b2 < 256 -> 0 <= b3 < 256 ->
  Z.lor (Z.shiftr (le4 a0 a1 a2 a3) (8 * e)) (u32 (Z.shiftl (le4 b0 b1 b2 b3) (32 - 8 * e))) =
  if e =? 1 then le4 a1 a2 a3 b0 else if e =? 2 then le4 a2 a3 b0 b1 else le4 a3 b0 b1 b2.
Proof.
  intros He ? ? ? ? ? ? ? ?. rewrite Z.shiftr_div_pow2, Z.shiftl_mul_pow2, Z.lor_comm by lia. unfold u32, le4.
  change (2 ^ 8) with 256. change (2 ^ 32) with 4294967296. destruct He as [-> |[-> | ->]];
    [change (2 ^ (32 - 8 * 1)) with (2 ^ 24); change (2 ^ (8 * 1)) with 256
    |change (2 ^ (32 - 8 * 2)) with (2 ^ 16); change (2 ^ (8 * 2)) with 65536
    |change (2 ^ (32 - 8 * 3)) with (2 ^ 8); change (2 ^ (8 * 3)) with 16777216].
  - rewrite <- (Z.div_unique_pos _ 256 (a1 + 256 * (a2 + 256 * a3)) a0) by lia.
    rewrite <- (Z.mod_unique_pos _ 4294967296 (b1 + 256 * (b2 + 256 * b3)) (b0 * 2 ^ 24)) by lia.
    rewrite lor_add by lia. simpl. lia.
  - rewrite <- (Z.div_unique_pos _ 65536 (a2 + 256 * a3) (a0 + 256 * a1)) by lia.
    rewrite <- (Z.mod_unique_pos _ 4294967296 (b2 + 256 * b3) ((b0 + 256 * b1) * 2 ^ 16)) by lia.
    rewrite lor_add by lia. simpl. lia.
  - rewrite <- (Z.div_unique_pos _ 16777216 a3 (a0 + 256 * (a1 + 256 * a2))) by lia.
    rewrite <- (Z.mod_unique_pos _ 4294967296 b3 ((b0 + 256 * (b1 + 256 * b2)) * 2 ^ 8)) by lia.
    rewrite lor_add by lia. simpl. lia.
Qed.

Lemma merge_word m e a : wf_memory m -> e = 1 \/ e = 2 \/ e = 3 ->
  Z.lor (Z.shiftr (word m a) (8 * e)) (u32 (Z.shiftl (word m (a + 4)) (32 - 8 * e))) = word m (a + e).
Proof.
  intros Hm He. pose proof (fun x => byte_range m x (wf_bytes _ Hm)) as Hb. unfold word.
  rewrite merge_words by auto.
  replace (a + 4 + 1) with (a + 5) by lia. replace (a + 4 + 2) with (a + 6) by lia.
  destruct He as [-> |[-> | ->]]; simpl; f_equal; f_equal; lia.
Qed.

(** A store of a word. *)
Lemma wp_store32 a v m Q : 0 <= a -> a + 4 <= zlen m -> a mod 4 = 0 ->
  (forall m', zlen m' = zlen m -> (forall x, 0 <= x -> byte m' x =
     if x =? a then u8 v else if x =? a + 1 then u8 (Z.shiftr v 8) else if x =? a + 2 then u8 (Z.shiftr v 16)
     else if x =? a + 3 then u8 (Z.shiftr v 24) else byte m x) -> Q tt m') ->
  wp (store32 a v) Q m.
Proof.
  intros Ha Hl Hal HQ. unfold store32. rewrite (proj2 (Z.eqb_eq _ _) Hal).
  repeat (apply wp_bind || (apply wp_store8; [rewrite ?zlen_insert; lia|])). apply HQ; [by rewrite !zlen_insert|].
  intros x Hx. rewrite !byte_store by (rewrite ?zlen_insert; lia). repeat case_cmp; try done; lia.
Qed.

(** ** Bits of a count *)

Definition bit_val (n b : Z) : Z := if bit n b then b else 0.

Lemma bit_val_pos n b : 0 <= b -> 0 <= bit_val n b <= b.
Proof. unfold bit_val. case_match; lia. Qed.

Lemma bit_sum n : 0 <= n < 32 -> n = bit_val n 16 + bit_val n 8 + bit_val n 4 + bit_val n 2 + bit_val n 1.
Proof.
  intros Hn. pose proof (forall_below (fun n => n =? bit_val n 16 + bit_val n 8 + bit_val n 4 + bit_val n 2 + bit_val n 1)
    32 eq_refl n Hn) as H. cbv beta in H. by bool_hyps.
Qed.

Lemma bit_small n b : 0 <= n < b -> b = 16 \/ b = 8 \/ b = 4 -> bit_val n b = 0.
Proof.
  intros Hn Hb. pose proof (forall_below (fun n => forallb (fun b => negb (n <? b) || (bit_val n b =? 0)) [16; 8; 4]) 16 eq_refl n ltac:(lia)) as H.
  cbn [forallb] in H. bool_hyps. repeat match goal with H : _ || _ = true |- _ => apply orb_true_iff in H as [?|?] end;
    bool_hyps; destruct Hb as [-> |[-> | ->]]; lia.
Qed.

(** * Copying forward *)

Section Forward.
Context (m0 : memory) (d s n : Z).
Context (Hm : wf_memory m0) (Hn : 0 <= n) (Hd : 0 <= d) (Hs : 0 <= s) (Hdl : d + n <= zlen m0) (Hsl : s + n <= zlen m0).
Context (Hfwd : d <= s \/ s + n <= d).

(** The first [k] bytes are copied. *)
Definition at_ (k : Z) (m : memory) : Prop := 0 <= k <= n /\ copied m0 d s k m.

Lemma at_start : at_ 0 m0.
Proof. split; [lia|]. split; [done|]. intros x Hx. replace ((d <=? x) && (x <? d + 0)) with false; [done|]. symmetry. case_cmp; [case_cmp|]; done || lia. Qed.

(** The bytes of the source that are still to be copied are as they were. *)
Lemma at_source k m x : at_ k m -> s + k <= x < s + n -> byte m x = byte m0 x.
Proof. intros [Hk [_ Hb]] Hx. rewrite Hb by lia. replace ((d <=? x) && (x <? d + k)) with false; [done|]. symmetry. repeat case_cmp; done || lia. Qed.

Lemma at_byte k m : at_ k m -> k < n -> wp (copy_byte (d + k) (s + k)) (fun _ m' => at_ (k + 1) m') m.
Proof.
  intros Hat Hk. pose proof Hat as [Hkn [Hl Hb]]. unfold copy_byte. apply wp_bind, wp_load8; [lia|].
  rewrite (at_source k) by (done || lia). apply wp_store8; [lia|]. split; [lia|]. split; [by rewrite zlen_insert|].
  intros x Hx. rewrite byte_store, Hb by lia. pose proof (byte_range m0 (s + k) (wf_bytes _ Hm)).
  rewrite u8_id by (unfold in_u; lia). repeat case_cmp; cbn [andb]; try done; try lia; try (f_equal; lia).
Qed.

Lemma copied_bytes j : forall k m, at_ k m -> k + Z.of_nat j <= n ->
  wp (copy_bytes j (d + k) (s + k)) (fun r m' => r = (d + (k + Z.of_nat j), s + (k + Z.of_nat j)) /\ at_ (k + Z.of_nat j) m') m.
Proof.
  induction j as [|j IH]; intros k m Hat Hk; cbn [copy_bytes].
  - apply wp_ret. rewrite Z.add_0_r. done.
  - apply wp_bind. eapply wp_mono; [apply at_byte; [done|lia]|]. intros [] m' Hat'. cbn beta.
    rewrite <- !Z.add_assoc. eapply wp_mono; [apply IH; [done|lia]|]. intros r m'' [-> Hat''].
    replace (k + Z.of_nat (S j)) with (k + 1 + Z.of_nat j) by lia. done.
Qed.

Lemma at_load k i m Q : at_ k m -> k <= i -> i + 4 <= n -> (s + i) mod 4 = 0 -> Q (word m0 (s + i)) m -> wp (load32 (s + i)) Q m.
Proof.
  intros Hat Hi Hl Hal HQ. pose proof Hat as [Hkn [Hz _]]. apply wp_load32; [lia..|done|].
  assert (word m (s + i) = word m0 (s + i)) as ->; [|done]. unfold word. by rewrite !(at_source k m) by (done || lia).
Qed.

Lemma at_store k m : at_ k m -> k + 4 <= n -> (d + k) mod 4 = 0 ->
  wp (store32 (d + k) (word m0 (s + k))) (fun _ m' => at_ (k + 4) m') m.
Proof.
  intros Hat Hk Hal. pose proof Hat as [Hkn [Hz Hb]]. apply wp_store32; [lia..|done|].
  intros m' Hz' Hb'. split; [lia|]. split; [lia|]. intros x Hx. rewrite Hb', Hb by done.
  pose proof (fun x => byte_range m0 x (wf_bytes _ Hm)) as Hr.
  destruct (le4_shift (byte m0 (s + k)) (byte m0 (s + k + 1)) (byte m0 (s + k + 2)) (byte m0 (s + k + 3))) as (E0 & E1 & E2 & E3);
    [auto..|]. fold (word m0 (s + k)) in *. rewrite E0, E1, E2, E3.
  repeat case_cmp; cbn [andb]; try done; try lia; try (f_equal; lia).
Qed.

Lemma copied_word k m : at_ k m -> k + 4 <= n -> (d + k) mod 4 = 0 -> (s + k) mod 4 = 0 ->
  wp (copy_word (d + k) (s + k)) (fun _ m' => at_ (k + 4) m') m.
Proof. intros Hat Hk Hal Hsl'. unfold copy_word. apply wp_bind. apply (at_load k k); [done|lia|done|done|]. by apply at_store. Qed.

(** Loops that copy: the state is the two pointers and the count. *)
Definition inv (k : Z) (r : Z * Z * Z) (m : memory) : Prop := r = (d + k, s + k, n - k) /\ at_ k m.

(** The byte loop up to an aligned source. *)
Lemma align_loop : wp (while (count n) (fun '(d, s, n) => sret (ctrue (s mod 4) && ctrue n)) (fun '(d, s, n) =>
        do* copy_byte d s in sret (d + 1, s + 1, n - 1)) (d, s, n))
  (fun r m => exists k, inv k r m /\ (k < n -> (s + k) mod 4 = 0)) m0.
Proof.
  eapply (wp_while (fun r m => exists k, inv k r m) (fun '(_, _, n') => n')).
  - intros [[d' s'] n'] m (k & [= -> -> ->] & Hat). pose proof Hat as [Hk _]. apply wp_ret. unfold ctrue.
    destruct (Z.eqb_spec ((s + k) mod 4) 0) as [Ez|Ez], (Z.eqb_spec (n - k) 0) as [E|E]; cbn [negb andb];
      try (exists k; split; [done|]; done || lia).
    seq; [apply at_byte; [done|lia]|]. intros [] m' Hat'. apply wp_ret. split; [|lia].
    exists (k + 1). split; [|done]. pair_eq.
  - exists 0. split; [pair_eq|apply at_start].
  - unfold count. lia.
  - done.
Qed.

(** A step that a bit of the count asks for. *)
Lemma bit_bytes (j : nat) b r k m : at_ k m -> (b = true -> k + Z.of_nat j <= n) -> r = k + (if b then Z.of_nat j else 0) ->
  wp (if b : bool then copy_bytes j (d + k) (s + k) else sret (d + k, s + k))
    (fun x m' => x = (d + r, s + r) /\ at_ r m') m.
Proof.
  intros Hat Hb ->. destruct b; [by apply copied_bytes; auto|]. apply wp_ret. rewrite Z.add_0_r. done.
Qed.

Lemma bit_last b k m : at_ k m -> n - k = (if b : bool then 1 else 0) ->
  wp (if b : bool then copy_byte (d + k) (s + k) else sret tt) (fun _ m' => at_ n m') m.
Proof.
  intros Hat Hk. destruct b; [|apply wp_ret; by replace n with k by lia].
  eapply wp_mono; [apply at_byte; [done|lia]|]. intros [] m'. by replace (k + 1) with n by lia.
Qed.

Lemma tail_spec k m : at_ k m -> n - k < 32 -> wp (memcpy_tail (d + k) (s + k) (n - k)) (fun _ m' => at_ n m') m.
Proof.
  intros Hat Hlt. pose proof Hat as [Hk _]. unfold memcpy_tail. set (j := n - k) in *.
  assert (j = bit_val j 16 + bit_val j 8 + bit_val j 4 + bit_val j 2 + bit_val j 1) as Hj by (apply bit_sum; lia).
  pose proof (bit_val_pos j). 
  seq; [apply (bit_bytes 16 (bit j 16) (k + bit_val j 16)); [done|unfold bit_val in *; repeat case_match; lia|by unfold bit_val]|].
  intros ? m1 [-> Hat1]. cbn beta iota. seq; [apply (bit_bytes 8 (bit j 8) (k + bit_val j 16 + bit_val j 8)); [done|..]|].
  1-2: unfold bit_val in *; repeat case_match; lia.
  intros ? m2 [-> Hat2]. cbn beta iota. seq; [apply (bit_bytes 4 (bit j 4) (k + bit_val j 16 + bit_val j 8 + bit_val j 4)); [done|..]|].
  1-2: unfold bit_val in *; repeat case_match; lia.
  intros ? m3 [-> Hat3]. cbn beta iota.
  seq; [apply (bit_bytes 2 (bit j 2) (k + bit_val j 16 + bit_val j 8 + bit_val j 4 + bit_val j 2)); [done|..]|].
  1-2: unfold bit_val in *; repeat case_match; lia.
  intros ? m4 [-> Hat4]. cbn beta iota. apply bit_last; [done|]. unfold bit_val in *; repeat case_match; lia.
Qed.

(** The word at offset [i] from an aligned place. *)
Lemma at_word_at k i j m : at_ (k + i) m -> j = i + 4 -> k + j <= n -> (d + k) mod 4 = 0 -> (s + k) mod 4 = 0 -> i mod 4 = 0 ->
  wp (copy_word (d + k + i) (s + k + i)) (fun _ m' => at_ (k + j) m') m.
Proof.
  intros Hat -> Hk Hda Hsa Hi. rewrite <- !Z.add_assoc. eapply wp_mono; [apply copied_word; done || divlia|].
  intros [] m'. by rewrite Z.add_assoc.
Qed.

Lemma aligned_spec k m : at_ k m -> (d + k) mod 4 = 0 -> (k < n -> (s + k) mod 4 = 0) ->
  wp (memcpy_aligned (d + k) (s + k) (n - k)) (fun _ m' => at_ n m') m.
Proof.
  intros Hat Hda Hsa. unfold memcpy_aligned. 
  seq; [eapply (wp_while (fun r m => exists k', inv k' r m /\ (d + k') mod 4 = 0 /\ (k' < n -> (s + k') mod 4 = 0)) (fun '(_, _, n') => n')
          _ _ (fun r m => exists k', inv k' r m /\ (d + k') mod 4 = 0 /\ (k' < n -> (s + k') mod 4 = 0) /\ n - k' < 16))|].
  - intros [[d' s'] n'] m' (k' & ([= -> -> ->] & Hat') & Hda' & Hsa'). pose proof Hat' as [Hk' _]. apply wp_ret.
    destruct (Z.leb_spec 16 (n - k')); [|exists k'; split_and!; done || lia]. specialize (Hsa' ltac:(lia)).
    rewrite <- (Z.add_0_r k') in Hat'. rewrite <- (Z.add_0_r (d + k')) at 1. rewrite <- (Z.add_0_r (s + k')) at 1.
    seq; [apply (at_word_at k' 0 4); done || lia|]. intros [] m1 Hat1.
    seq; [apply (at_word_at k' 4 8); done || lia|]. intros [] m2 Hat2.
    seq; [apply (at_word_at k' 8 12); done || lia|]. intros [] m3 Hat3.
    seq; [apply (at_word_at k' 12 16); done || lia|]. intros [] m4 Hat4.
    apply wp_ret. split; [|lia]. exists (k' + 16).
    split_and!; [|divlia|divlia]. split; [pair_eq|done].
  - exists k. split_and!; [|done..]. by split.
  - unfold count. lia.
  - pose proof Hat as [? _]. lia.
  - intros [[d' s'] n'] m' (k' & ([= -> -> ->] & Hat') & Hda' & Hsa' & Hlt). pose proof Hat' as [Hk' _]. set (j := n - k') in *.
    assert (j = bit_val j 8 + bit_val j 4 + bit_val j 2 + bit_val j 1) as Hj.
    { pose proof (bit_sum j ltac:(lia)). rewrite (bit_small j 16) in * by lia. lia. }
    pose proof (bit_val_pos j 4). pose proof (bit_val_pos j 2). pose proof (bit_val_pos j 1).
    pose proof (bit_val_pos j 8).
    set (k1 := k' + bit_val j 8). set (k2 := k1 + bit_val j 4).
    apply wp_bind, (wp_mono _ (fun r m1 => r = (d + k1, s + k1) /\ at_ k1 m1)).
    { unfold k1, bit_val in *. destruct (bit j 8); [|apply wp_ret; by rewrite Z.add_0_r]. specialize (Hsa' ltac:(lia)).
      rewrite <- (Z.add_0_r k') in Hat'. rewrite <- (Z.add_0_r (d + k')) at 1. rewrite <- (Z.add_0_r (s + k')) at 1.
      seq; [apply (at_word_at k' 0 4); done || lia|]. intros [] m1 Hat1.
      seq; [apply (at_word_at k' 4 8); done || lia|]. intros [] m2 Hat2. apply wp_ret. by rewrite !Z.add_assoc. }
    intros ? m1 [-> Hat1]. apply wp_bind, (wp_mono _ (fun r m2 => r = (d + k2, s + k2) /\ at_ k2 m2)).
    { unfold k2, bit_val in *. destruct (bit j 4); [|apply wp_ret; by rewrite Z.add_0_r]. specialize (Hsa' ltac:(lia)).
      seq; [apply (copied_word k1); try done; unfold k1; destruct (bit j 8); lia || divlia|].
      intros [] m2 Hat2. apply wp_ret. by rewrite !Z.add_assoc. }
    intros ? m2 [-> Hat2]. seq; [apply (bit_bytes 2 (bit j 2) (k2 + bit_val j 2)); [done|..]|].
    1-2: unfold k2, k1, bit_val in *; repeat case_match; lia.
    intros ? m3 [-> Hat3]. cbn beta iota. apply bit_last; [done|]. unfold k2, k1, bit_val in *; repeat case_match; lia.
Qed.

(** One merged word: [w] is the source word before it. *)
Lemma merge_step {A} e k m w a b (K : Z -> mem A) Q :
  at_ k m -> e = 1 \/ e = 2 \/ e = 3 -> e <= k -> (d + k) mod 4 = 0 -> (s + (k - e)) mod 4 = 0 -> k + (8 - e) <= n ->
  w = word m0 (s + (k - e)) -> a = s + (k - e + 4) -> b = d + k ->
  (forall m', at_ (k + 4) m' -> wp (K (word m0 (s + (k + 4 - e)))) Q m') ->
  wp (let* x := load32 a in
      do* store32 b (Z.lor (Z.shiftr w (8 * e)) (u32 (Z.shiftl x (32 - 8 * e)))) in K x) Q m.
Proof.
  intros Hat He Hek Hda Hsa Hk -> -> -> HQ. apply wp_bind. apply (at_load k); [done|lia|lia|divlia|].
  replace (s + (k - e + 4)) with (s + (k - e) + 4) by lia. rewrite merge_word by done.
  replace (s + (k - e) + e) with (s + k) by lia. seq; [apply at_store; done || lia|]. intros [] m' Hat'.
  replace (s + (k - e) + 4) with (s + (k + 4 - e)) by lia. by apply HQ.
Qed.

(** The loop over merged words. *)
Lemma shifted_spec e k m : at_ k m -> e = 1 \/ e = 2 \/ e = 3 -> (d + k + e) mod 4 = 0 -> (s + k) mod 4 = 0 -> 32 <= n - k ->
  wp (memcpy_shifted e (d + k) (s + k) (n - k)) (fun r m' => exists k', inv k' r m' /\ n - k' < 32) m.
Proof.
  intros Hat He Hda Hsa Hk. pose proof Hat as [Hk0 _]. unfold memcpy_shifted. cbv zeta.
  apply wp_bind. apply (at_load k k); try done; [lia..|].
  seq; [apply (copied_bytes (Z.to_nat e)); [done|lia]|]. intros ? m1 [-> Hat1]. cbn beta iota. rewrite Z2Nat.id in * by lia.
  apply wp_bind. apply (wp_mono _ (fun '(d', s', n', w) m' => exists k', inv k' (d', s', n') m' /\ n - k' < 32));
    [|intros [[[d' s'] n'] w] m' (k' & HI & Hlt); apply wp_ret; by exists k'].
  apply (wp_while (fun '(d', s', n', w) m' => exists k', inv k' (d', s', n') m' /\ e <= k' /\ (d + k') mod 4 = 0 /\
      (s + (k' - e)) mod 4 = 0 /\ w = word m0 (s + (k' - e))) (fun '(_, _, n', _) => n')).
  - clear m m1 Hat Hat1. intros [[[d' s'] n'] w] m (k' & ([= -> -> ->] & Hat) & Hek & Hda' & Hsa' & ->).
    pose proof Hat as [Hk' _]. apply wp_ret.
    destruct (Z.leb_spec (20 - e) (n - k')); [|exists k'; split; [by split|lia]].
    apply (merge_step e k'); try done; [lia..|]. intros m1 Hat1.
    apply (merge_step e (k' + 4)); try done; [lia|divlia|divlia|lia..|]. intros m2 Hat2.
    apply (merge_step e (k' + 4 + 4)); try done; [lia|divlia|divlia|lia..|]. intros m3 Hat3.
    apply (merge_step e (k' + 4 + 4 + 4)); try done; [lia|divlia|divlia|lia..|]. intros m4 Hat4.
    apply wp_ret. replace (k' + 4 + 4 + 4 + 4) with (k' + 16) in * by lia.
    split; [|lia]. exists (k' + 16). split_and!; [split; [pair_eq|done]|lia|divlia|divlia|done].
  - exists (k + e). replace (k + e - e) with k by lia. split_and!; try done; [split; [pair_eq|done]|lia|by rewrite Z.add_assoc].
  - unfold count. lia.
  - lia.
Qed.

(** [memcpy] is right when the copy forward is. *)
Lemma memcpy_wp bulk : wp (memcpy bulk d s n) (fun r m => r = d /\ at_ n m) m0.
Proof.
  unfold memcpy. destruct (over_threshold bulk n).
  { apply wp_bind. exists tt, (blit m0 d (bytes_at m0 s n)). split; [unfold memory_copy; decide_cmp; done|].
    apply wp_ret. split; [done|]. split; [lia|]. split; [by rewrite zlen_blit by (rewrite ?zlen_bytes_at; lia)|].
    intros x Hx. rewrite byte_blit; rewrite ?zlen_bytes_at by lia; [|lia..]. case_match; [|done]. bool_hyps.
    rewrite byte_at by lia. f_equal. lia. }
  seq; [apply align_loop|]. intros [[d' s'] n'] m (k & ([= -> -> ->] & Hat) & Hal). pose proof Hat as [Hk _]. cbn beta iota.
  destruct (Z.eqb_spec ((d + k) mod 4) 0) as [Ed|Ed].
  - seq; [by apply aligned_spec|]. intros [] m' Hat'. by apply wp_ret.
  - apply wp_bind, (wp_mono _ (fun r m' => exists k', inv k' r m' /\ n - k' < 32)).
    + destruct (Z.leb_spec 32 (n - k)); [|apply wp_ret; exists k; split; [by split|lia]].
      apply shifted_spec; [done|divlia|divlia|apply Hal; lia|done].
    + intros ? m' (k' & (-> & Hat') & Hlt). cbn beta iota. seq; [by apply tail_spec|]. intros [] m'' Hat''. by apply wp_ret.
Qed.

(** Counting down with bytes, and with words. *)
Lemma up_bytes k m : at_ k m ->
  wp (while (count (n - k)) (fun '(d, s, n) => sret (ctrue n)) (fun '(d, s, n) =>
          do* copy_byte d s in sret (d + 1, s + 1, n - 1)) (d + k, s + k, n - k)) (fun _ m' => at_ n m') m.
Proof.
  intros Hat. pose proof Hat as [Hk _].
  eapply (wp_while (fun r m => exists k, inv k r m) (fun '(_, _, n') => n')); [|by exists k|unfold count; lia|lia].
  intros [[d' s'] n'] m' (k' & [= -> -> ->] & Hat'). pose proof Hat' as [Hk' _]. apply wp_ret. unfold ctrue.
  destruct (Z.eqb_spec (n - k') 0); cbn [negb]; [by replace n with k' by lia|].
  seq; [apply at_byte; [done|lia]|]. intros [] m1 Hat1. apply wp_ret. split; [|lia].
  exists (k' + 1). split; [pair_eq|done].
Qed.

Lemma up_words k m : at_ k m -> (d + k) mod 4 = 0 -> (s + k) mod 4 = 0 ->
  wp (while (count (n - k)) (fun '(d, s, n) => sret (4 <=? n)) (fun '(d, s, n) =>
          do* copy_word d s in sret (d + 4, s + 4, n - 4)) (d + k, s + k, n - k)) (fun r m' => exists k', inv k' r m') m.
Proof.
  intros Hat Hda Hsa. pose proof Hat as [Hk _].
  eapply (wp_while (fun r m => exists k, inv k r m /\ (d + k) mod 4 = 0 /\ (s + k) mod 4 = 0) (fun '(_, _, n') => n'));
    [|by exists k|unfold count; lia|lia].
  intros [[d' s'] n'] m' (k' & ([= -> -> ->] & Hat') & Hda' & Hsa'). pose proof Hat' as [Hk' _]. apply wp_ret.
  destruct (Z.leb_spec 4 (n - k')); [|by exists k'].
  seq; [apply copied_word; done || lia|]. intros [] m1 Hat1. apply wp_ret. split; [|lia].
  exists (k' + 4). split; [split; [pair_eq|done]|]. split; divlia.
Qed.

Lemma memmove_up_wp : wp (memmove_up d s n) (fun _ m => at_ n m) m0.
Proof.
  unfold memmove_up. apply wp_bind, (wp_mono _ (fun '(d', s', n', out) m => exists k, inv k (d', s', n') m /\ (out = true -> k = n))).
  - destruct (Z.eqb_spec (s mod 4) (d mod 4)) as [E|E];
      [|apply wp_ret; exists 0; split; [split; [pair_eq|apply at_start]|done]].
    apply wp_bind. eapply (wp_while (fun '(d', s', n', out) m => exists k, inv k (d', s', n') m /\ (out = true -> k = n))
      (fun '(_, _, n', out) => if out : bool then 0 else n' + 1)).
    + intros [[[d' s'] n'] out] m (k & ([= -> -> ->] & Hat) & Hout). pose proof Hat as [Hk _]. apply wp_ret.
      destruct out; cbn [negb andb]; [apply wp_ret; exists k; split; [by split|done]|]. unfold ctrue.
      destruct (Z.eqb_spec ((d + k) mod 4) 0); cbn [negb].
      * seq; [apply up_words; done || divlia|]. intros [[d' s'] n'] m' (k' & HI). apply wp_ret. by exists k'.
      * destruct (Z.eqb_spec (n - k) 0); [apply wp_ret; split; [exists k; split; [by split|lia]|lia]|].
        seq; [apply at_byte; [done|lia]|]. intros [] m' Hat'. apply wp_ret. split; [|lia].
        exists (k + 1). split; [split; [pair_eq|done]|done].
    + exists 0. split; [split; [pair_eq|apply at_start]|done].
    + unfold count. lia.
    + lia.
  - intros [[[d' s'] n'] out] m (k & ([= -> -> ->] & Hat) & Hout). destruct out; [apply wp_ret; by rewrite <- Hout|].
    seq; [by apply up_bytes|]. intros ? m' Hat'. by apply wp_ret.
Qed.
End Forward.

(** * Copying backward *)

Section Backward.
Context (m0 : memory) (d s n : Z).
Context (Hm : wf_memory m0) (Hn : 0 <= n) (Hd : 0 <= d) (Hs : 0 <= s) (Hdl : d + n <= zlen m0) (Hsl : s + n <= zlen m0).
Context (Hbwd : s <= d).

(** The bytes from [k] on are copied. *)
Definition from_ (k : Z) (m : memory) : Prop := 0 <= k <= n /\ copied m0 (d + k) (s + k) (n - k) m.

Lemma from_source k m x : from_ k m -> 0 <= x < s + k -> byte m x = byte m0 x.
Proof.
  intros [Hk [_ Hb]] Hx. rewrite Hb by lia. replace ((d + k <=? x) && (x <? d + k + (n - k))) with false; [done|].
  symmetry. apply andb_false_iff. left. apply Z.leb_gt. lia.
Qed.

Lemma from_byte k m : from_ k m -> 0 < k -> wp (copy_byte (d + (k - 1)) (s + (k - 1))) (fun _ m' => from_ (k - 1) m') m.
Proof.
  intros Hat Hk. pose proof Hat as [Hkn [Hl Hb]]. unfold copy_byte. apply wp_bind, wp_load8; [lia|].
  rewrite (from_source k) by (done || lia). apply wp_store8; [lia|]. split; [lia|]. split; [by rewrite zlen_insert|].
  intros x Hx. rewrite byte_store, Hb by lia. pose proof (byte_range m0 (s + (k - 1)) (wf_bytes _ Hm)).
  rewrite u8_id by (unfold in_u; lia). repeat case_cmp; cbn [andb]; try done; try lia; try (f_equal; lia).
Qed.

Lemma from_word k m : from_ k m -> 4 <= k -> (d + k) mod 4 = 0 -> (s + k) mod 4 = 0 ->
  wp (copy_word (d + (k - 4)) (s + (k - 4))) (fun _ m' => from_ (k - 4) m') m.
Proof.
  intros Hat Hk Hda Hsa. pose proof Hat as [Hkn [Hl Hb]]. unfold copy_word. apply wp_bind, wp_load32; [lia|lia|divlia|].
  assert (word m (s + (k - 4)) = word m0 (s + (k - 4))) as -> by (unfold word; by rewrite !(from_source k m) by (done || lia)).
  apply wp_store32; [lia|lia|divlia|]. intros m' Hz' Hb'. split; [lia|]. split; [lia|]. intros x Hx. rewrite Hb', Hb by done.
  pose proof (fun x => byte_range m0 x (wf_bytes _ Hm)) as Hr. set (a := s + (k - 4)).
  destruct (le4_shift (byte m0 a) (byte m0 (a + 1)) (byte m0 (a + 2)) (byte m0 (a + 3))) as (E0 & E1 & E2 & E3); [auto..|].
  fold (word m0 a) in *. rewrite E0, E1, E2, E3. unfold a.
  repeat case_cmp; cbn [andb]; try done; try lia; try (f_equal; lia).
Qed.

Lemma from_start : from_ n m0.
Proof. split; [lia|]. split; [done|]. intros x Hx. destruct (Z.leb_spec (d + n) x), (Z.ltb_spec x (d + n + (n - n))); done || lia. Qed.

Lemma memmove_down_wp : wp (memmove_down d s n) (fun _ m => from_ 0 m) m0.
Proof.
  unfold memmove_down. apply wp_bind, (wp_mono _ (fun '(k, out) m => from_ k m /\ (out = true -> k = 0))).
  - destruct (Z.eqb_spec (s mod 4) (d mod 4)) as [E|E]; [|apply wp_ret; split; [apply from_start|done]].
    apply wp_bind. eapply (wp_while (fun '(k, out) m => from_ k m /\ (out = true -> k = 0)) (fun '(k, out) => if out : bool then 0 else k + 1)).
    + intros [k out] m [Hat Hout]. pose proof Hat as [Hk _]. apply wp_ret.
      destruct out; cbn [negb andb]; [by apply wp_ret|]. unfold ctrue.
      destruct (Z.eqb_spec ((d + k) mod 4) 0); cbn [negb].
      * seq; [eapply (wp_while (fun k m => from_ k m /\ (d + k) mod 4 = 0) (fun k => k) _ _ (fun k m => from_ k m));
          [|by split|unfold count; lia|lia]|intros k' m' Hat'; by apply wp_ret].
        intros k' m' [Hat' Hda]. pose proof Hat' as [Hk' _]. apply wp_ret. destruct (Z.leb_spec 4 k'); [|done].
        seq; [apply from_word; done || divlia|]. intros [] m1 Hat1. apply wp_ret. split; [split; [done|divlia]|lia].
      * destruct (Z.eqb_spec k 0); [apply wp_ret; split; [done|lia]|].
        seq; [apply from_byte; [done|lia]|]. intros [] m' Hat'. apply wp_ret. split; [done|lia].
    + split; [apply from_start|done].
    + unfold count. lia.
    + lia.
  - intros [k out] m [Hat Hout]. pose proof Hat as [Hk _]. destruct out; [apply wp_ret; by rewrite <- (Hout eq_refl)|].
    apply wp_bind. eapply (wp_while from_ (fun k => k)); [|done|unfold count; lia|lia].
    intros k' m' Hat'. pose proof Hat' as [Hk' _]. apply wp_ret. unfold ctrue. destruct (Z.eqb_spec k' 0) as [-> |]; cbn [negb].
    { by apply wp_ret. }
    seq; [apply from_byte; [done|lia]|]. intros [] m1 Hat1. apply wp_ret. split; [done|lia].
Qed.
End Backward.

(** * Filling *)

Lemma land_3 x : Z.land x 3 = x mod 4.
Proof. change 3 with (Z.ones 2). by rewrite Z.land_ones by lia. Qed.

Lemma u32_mod4 x : u32 x mod 4 = x mod 4.
Proof. unfold u32. change (2 ^ 32) with (4 * 2 ^ 30). rewrite Z.rem_mul_r by lia. rewrite Z.mul_comm, Z.mod_add by lia. by rewrite Z.mod_mod. Qed.

Lemma land_neg4 x : 0 <= x < 2 ^ 32 -> Z.land x (u32 (-4)) = 4 * (x / 4).
Proof.
  intros Hx. change (u32 (-4)) with (0 + 2 ^ 2 * Z.ones 30).
  replace x with (x mod 4 + 2 ^ 2 * (x / 4)) at 1 by (change (2 ^ 2) with 4; divlia).
  rewrite (bitop_split Z.land andb) by (done || apply land_nonneg' || apply Z.land_spec || (change (2 ^ 2) with 4; divlia)).
  rewrite Z.land_0_r, Z.land_ones, Z.mod_small by (lia || (change (2 ^ 30) with 1073741824; divlia)). done.
Qed.

Lemma land_4 x : x mod 4 = 0 -> Z.land x 4 = 4 * (x / 4 mod 2).
Proof.
  intros Hx. replace x with (0 + 2 ^ 2 * (x / 4)) at 1 by (change (2 ^ 2) with 4; divlia). change 4 with (0 + 2 ^ 2 * 1) at 2.
  rewrite (bitop_split Z.land andb) by (done || apply land_nonneg' || apply Z.land_spec || lia).
  change 1 with (Z.ones 1). rewrite Z.land_ones by lia. change (2 ^ 1) with 2. change (2 ^ 2) with 4. change (Z.land 0 0) with 0. lia.
Qed.

Section Fill.
Context (m0 : memory) (s n c : Z).
Context (Hm : wf_memory m0) (Hn : 0 <= n < 2 ^ 32) (Hs : 0 <= s) (Hsl : s + n <= zlen m0).

(** Outside of the region nothing has changed, and the listed intervals are filled. *)
Definition fill (ivs : list (Z * Z)) (m : memory) : Prop :=
  zlen m = zlen m0 /\ (forall x, 0 <= x -> x < s \/ s + n <= x -> byte m x = byte m0 x) /\
  forall x, s <= x < s + n -> Exists (fun iv => fst iv <= x < snd iv) ivs -> byte m x = u8 c.

Lemma fill_weaken ivs ivs' m : fill ivs m ->
  (forall x, s <= x < s + n -> Exists (fun iv => fst iv <= x < snd iv) ivs' -> Exists (fun iv => fst iv <= x < snd iv) ivs) ->
  fill ivs' m.
Proof. intros (Hl & Ho & Hi) H. split_and!; auto. Qed.

(** A store of filled bytes inside the region. *)
Lemma fill_store ivs m m' a w : fill ivs m -> s <= a -> a + w <= s + n -> zlen m' = zlen m ->
  (forall x, 0 <= x -> byte m' x = if (a <=? x) && (x <? a + w) then u8 c else byte m x) -> fill ((a, a + w) :: ivs) m'.
Proof.
  intros (Hl & Ho & Hi) Ha Haw Hl' Hb. split_and!; [congruence|..].
  - intros x Hx Hout. rewrite Hb by done. replace ((a <=? x) && (x <? a + w)) with false; [by apply Ho|].
    symmetry. repeat case_cmp; done || lia.
  - intros x Hx He. rewrite Hb by lia. apply Exists_cons in He as [He|He]; cbn in He; [decide_cmp; done|].
    case_match; [done|]. by apply Hi.
Qed.

Lemma fill8 ivs m a : fill ivs m -> s <= a < s + n -> wp (store8 a c) (fun _ m' => fill ((a, a + 1) :: ivs) m') m.
Proof.
  intros Hf Ha. pose proof Hf as [Hl _]. apply wp_store8; [lia|]. apply (fill_store ivs m); [done|lia..|by rewrite zlen_insert|].
  intros x Hx. rewrite byte_store by lia. repeat case_cmp; cbn [andb]; done || lia.
Qed.

Definition c32 : Z := u32 (u32 (-1) / 255 * u8 c).

Lemma c32_bytes : u8 c32 = u8 c /\ u8 (Z.shiftr c32 8) = u8 c /\ u8 (Z.shiftr c32 16) = u8 c /\ u8 (Z.shiftr c32 24) = u8 c.
Proof.
  pose proof (u8_range c) as Hr. unfold in_u in Hr. assert (c32 = le4 (u8 c) (u8 c) (u8 c) (u8 c)) as ->.
  { unfold c32. change (u32 (-1) / 255) with 16843009. rewrite u32_id by (unfold in_u; lia). unfold le4. lia. }
  apply le4_shift; lia.
Qed.

Lemma fill32 ivs m a : fill ivs m -> s <= a -> a + 4 <= s + n -> a mod 4 = 0 ->
  wp (store32 a c32) (fun _ m' => fill ((a, a + 4) :: ivs) m') m.
Proof.
  intros Hf Ha Ha' Hal. pose proof Hf as [Hl _]. apply wp_store32; [lia..|done|]. intros m' Hl' Hb.
  apply (fill_store ivs m); [done..|]. intros x Hx. rewrite Hb by done. destruct c32_bytes as (-> & -> & -> & ->).
  repeat case_cmp; cbn [andb]; done || lia.
Qed.

Lemma fill64 ivs m a : fill ivs m -> s <= a -> a + 8 <= s + n -> a mod 8 = 0 ->
  wp (store64 a (Z.lor c32 (Z.shiftl c32 32))) (fun _ m' => fill ((a, a + 8) :: ivs) m') m.
Proof.
  intros Hf Ha Ha' Hal. unfold store64. rewrite (proj2 (Z.eqb_eq _ _) Hal).
  assert (u32 (Z.lor c32 (Z.shiftl c32 32)) = c32 /\ Z.shiftr (Z.lor c32 (Z.shiftl c32 32)) 32 = c32) as [-> ->].
  { pose proof (u32_range (u32 (-1) / 255 * u8 c)) as Hr. fold c32 in Hr. unfold in_u in Hr.
    rewrite Z.lor_comm, Z.shiftl_mul_pow2, Z.shiftr_div_pow2, lor_add by lia. unfold u32. split; symmetry.
    - apply Z.mod_unique with c32; lia.
    - apply Z.div_unique with c32; lia. }
  seq; [apply fill32; done || divlia|]. intros [] m1 Hf1.
  eapply wp_mono; [apply fill32; [done|lia|lia|divlia]|]. intros [] m2 Hf2. eapply fill_weaken; [done|].
  intros x Hx. rewrite !Exists_cons. cbn. intros [H|H]; [|by right; right].
  destruct (Z.lt_ge_cases x (a + 4)); [right; left; lia|left; lia].
Qed.

(** The stores at listed offsets. *)
Lemma fill_stores8 offs : forall ivs m, fill ivs m -> Forall (fun o => 0 <= o < n) offs ->
  wp (stores8 s c offs) (fun _ m' => fill (map (fun o => (s + o, s + o + 1)) (rev offs) ++ ivs) m') m.
Proof.
  induction offs as [|o offs IH]; intros ivs m Hf Ho; [by apply wp_ret|]. apply Forall_cons in Ho as [Ho Hos]. cbn [stores8].
  seq; [apply (fill8 ivs); [done|lia]|]. intros [] m1 Hf1. eapply wp_mono; [by apply (IH _ _ Hf1)|].
  intros [] m2. cbn [rev]. by rewrite map_app, <- app_assoc.
Qed.

Lemma fill_stores32 a offs : forall ivs m, fill ivs m -> a mod 4 = 0 -> Forall (fun o => s <= a + o /\ a + o + 4 <= s + n /\ o mod 4 = 0) offs ->
  wp (stores32 a c32 offs) (fun _ m' => fill (map (fun o => (a + o, a + o + 4)) (rev offs) ++ ivs) m') m.
Proof.
  induction offs as [|o offs IH]; intros ivs m Hf Hal Ho; [by apply wp_ret|]. apply Forall_cons in Ho as [(Ho1 & Ho2 & Ho3) Hos].
  cbn [stores32]. seq; [apply (fill32 ivs); [done|lia|lia|divlia]|]. intros [] m1 Hf1. eapply wp_mono; [by apply (IH _ _ Hf1)|].
  intros [] m2. cbn [rev]. by rewrite map_app, <- app_assoc.
Qed.

(** The whole region is filled. *)
Lemma fill_all ivs m : fill ivs m -> (forall x, s <= x < s + n -> Exists (fun iv => fst iv <= x < snd iv) ivs) -> filled m0 s n (fun _ => u8 c) m.
Proof.
  intros (Hl & Ho & Hi) H. split; [done|]. intros x Hx.
  destruct (Z.leb_spec s x), (Z.ltb_spec x (s + n)); cbn [andb]; try (apply Ho; lia). apply Hi; [lia|apply H; lia].
Qed.

Ltac cover := let x := fresh in let Hx := fresh in intros x Hx; cbn [map rev app fst snd];
  rewrite ?Exists_cons, ?Exists_nil; cbn [fst snd]; lia.

(** Words: the head up to [s1 + 4] and the tail from [e1 - 4] on are filled; the words between [s1] and [e1] are aligned. *)
Lemma memset_words_wp m : fill [(s, s + 4); (s + n - 4, s + n)] m -> 8 < n ->
  wp (memset_words s c n) (fun _ m' => filled m0 s n (fun _ => u8 c) m') m.
Proof.
  intros Hf Hn8. unfold memset_words. pose proof (wf_limit _ Hm) as Hlim.
  set (k := Z.land (u32 (- s)) 3). assert (0 <= k <= 3 /\ (s + k) mod 4 = 0) as [Hk Hka].
  { unfold k. rewrite land_3, u32_mod4. divlia. }
  set (s1 := s + k) in *. set (n1 := Z.land (n - k) (u32 (-4))).
  assert (n1 mod 4 = 0 /\ n - k - 3 <= n1 <= n - k) as [Hn1 Hn1r].
  { unfold n1. rewrite land_neg4 by lia. divlia. }
  cbv zeta. fold c32. unfold s1 in *.
  seq; [apply (fill_stores32 (s + k) [0; n1 - 4]); [done|done|repeat constructor; lia || divlia]|]. intros [] m1 Hf1.
  apply (fill_weaken _ [(s, s + k + 4); (s + k + n1 - 4, s + n)]) in Hf1; [|cover].
  destruct (Z.leb_spec n1 8). { apply wp_ret. apply (fill_all _ _ Hf1). assert (n1 = 4 \/ n1 = 8) by divlia. cover. }
  seq; [apply (fill_stores32 (s + k) [4; 8; n1 - 12; n1 - 8]); [done|done|repeat constructor; lia || divlia]|]. intros [] m2 Hf2.
  apply (fill_weaken _ [(s, s + k + 12); (s + k + n1 - 12, s + n)]) in Hf2; [|cover].
  destruct (Z.leb_spec n1 24). { apply wp_ret. apply (fill_all _ _ Hf2). cover. }
  seq; [apply (fill_stores32 (s + k) [12; 16; 20; 24; n1 - 28; n1 - 24; n1 - 20; n1 - 16]);
    [done|done|repeat constructor; lia || divlia]|]. intros [] m3 Hf3.
  apply (fill_weaken _ [(s, s + k + 28); (s + k + n1 - 28, s + n)]) in Hf3; [|cover].
  assert (28 <= n1) by divlia. set (k2 := Z.land (s + k) 4). assert (k2 = 0 \/ k2 = 4) as Hk2. { unfold k2. rewrite land_4 by done. divlia. }
  assert ((s + k + (24 + k2)) mod 8 = 0) as Hal. { unfold k2. rewrite land_4 by done. divlia. }
  apply wp_bind. eapply (wp_while (fun '(s', n') m' => s + k + 24 <= s' /\ s' mod 8 = 0 /\ s' + n' = s + k + n1 /\ 0 <= n' /\
      fill [(s, s'); (s + k + n1 - 28, s + n)] m') (fun '(_, n') => n')).
  - intros [s' n'] m' (Hs' & Hal' & Hsum & Hn' & Hf'). apply wp_ret. destruct (Z.leb_spec 32 n').
    + seq; [apply (fill64 _ _ _ Hf'); lia|]. intros [] m4 Hf4.
      seq; [apply (fill64 _ _ _ Hf4); lia || divlia|]. intros [] m5 Hf5.
      seq; [apply (fill64 _ _ _ Hf5); lia || divlia|]. intros [] m6 Hf6.
      seq; [apply (fill64 _ _ _ Hf6); lia || divlia|]. intros [] m7 Hf7.
      apply wp_ret. split; [|lia]. split_and!; try lia; [divlia|]. eapply fill_weaken; [exact Hf7|]. cover.
    + apply wp_ret. apply (fill_all _ _ Hf'). assert (n' <= 28) by divlia. cover.
  - split_and!; try lia. eapply fill_weaken; [exact Hf3|]. cover.
  - unfold count. lia.
  - lia.
Qed.

Lemma memset_wp bulk : wp (memset bulk s c n) (fun r m => r = s /\ filled m0 s n (fun _ => u8 c) m) m0.
Proof.
  assert (fill [] m0) as Hf by (split_and!; [done|done|intros x _ H; by apply Exists_nil in H]).
  unfold memset. destruct (over_threshold bulk n).
  { apply wp_bind. exists tt, (blit m0 s (replicate (Z.to_nat n) (u8 c))). split; [unfold memory_fill; decide_cmp; done|].
    assert (zlen (replicate (Z.to_nat n) (u8 c)) = n) as El by (unfold zlen; rewrite length_replicate; lia).
    apply wp_ret. split; [done|]. split; [by rewrite zlen_blit by lia|]. intros x Hx. rewrite byte_blit, El by lia.
    case_match; [|done]. bool_hyps. apply nth_lookup_Some, lookup_replicate. split; [done|lia]. }
  destruct (Z.eqb_spec n 0). { apply wp_ret. split; [done|]. apply (fill_all _ _ Hf). lia. }
  seq; [apply (fill_stores8 [0; n - 1] _ _ Hf); repeat constructor; lia|]. intros [] m1 Hf1.
  destruct (Z.leb_spec n 2). { apply wp_ret. split; [done|]. apply (fill_all _ _ Hf1). cover. }
  seq; [apply (fill_stores8 [1; 2; n - 2; n - 3] _ _ Hf1); repeat constructor; lia|]. intros [] m2 Hf2.
  destruct (Z.leb_spec n 6). { apply wp_ret. split; [done|]. apply (fill_all _ _ Hf2). cover. }
  seq; [apply (fill_stores8 [3; n - 4] _ _ Hf2); repeat constructor; lia|]. intros [] m3 Hf3.
  destruct (Z.leb_spec n 8). { apply wp_ret. split; [done|]. apply (fill_all _ _ Hf3). cover. }
  seq; [apply memset_words_wp; [eapply fill_weaken; [exact Hf3|]; cover|lia]|]. intros [] m4 Hf4. by apply wp_ret.
Qed.
End Fill.

(** * The functions *)

Lemma at_blit m0 d s n m : 0 <= n -> 0 <= d -> 0 <= s -> d + n <= zlen m0 -> s + n <= zlen m0 ->
  copied m0 d s n m -> m = blit m0 d (bytes_at m0 s n).
Proof. intros. by apply copied_blit. Qed.

Lemma memcpy_ok bulk m d s n : wf_memory m -> 0 <= n -> 0 <= d -> 0 <= s -> d + n <= zlen m -> s + n <= zlen m ->
  d <= s \/ s + n <= d -> memcpy bulk d s n m = Ok (d, blit m d (bytes_at m s n)).
Proof.
  intros Hm Hn Hd Hs Hdl Hsl Hf. destruct (memcpy_wp m d s n Hm Hn Hd Hs Hdl Hsl Hf bulk) as (r & m' & E & -> & _ & Hc).
  rewrite E. by rewrite (at_blit m d s n m').
Qed.

(** The test for ranges that do not overlap. *)
Lemma memmove_test d s n lim : 0 < n -> 0 <= d -> 0 <= s -> d + n <= lim -> s + n <= lim -> lim <= 2 ^ 32 -> n < 2 ^ 31 -> d <> s ->
  (u32 (u32 (s - d) - n) <=? u32 (- 2 * n)) = (s + n <=? d) || (d + n <=? s).
Proof.
  intros Hn Hd Hs Hdl Hsl Hlim Hn31 Hne. unfold u32.
  replace (- 2 * n mod 2 ^ 32) with (2 ^ 32 - 2 * n) by (apply Z.mod_unique with (-1); lia).
  rewrite Zminus_mod_idemp_l. destruct (Z.lt_ge_cases (s - d - n) (- 2 ^ 32)) as [|]; [lia|].
  destruct (Z.lt_ge_cases (s - d - n) 0).
  - replace ((s - d - n) mod 2 ^ 32) with (s - d - n + 2 ^ 32) by (apply Z.mod_unique with (-1); lia).
    repeat case_cmp; cbn [orb]; done || lia.
  - rewrite Z.mod_small by lia. repeat case_cmp; cbn [orb]; done || lia.
Qed.

Lemma bytes_at_blit_same m d n : 0 <= d -> 0 <= n -> d + n <= zlen m -> blit m d (bytes_at m d n) = m.
Proof.
  intros. unfold blit, bytes_at, zlen in *. rewrite length_take, length_drop, Nat.min_l by lia.
  rewrite <- drop_drop, take_drop, take_drop. done.
Qed.

Lemma memmove_ok bulk m d s n : wf_memory m -> 0 <= n < 2 ^ 31 \/ over_threshold bulk n = true -> 0 <= n -> 0 <= d -> 0 <= s ->
  d + n <= zlen m -> s + n <= zlen m -> memmove bulk d s n m = Ok (d, blit m d (bytes_at m s n)).
Proof.
  intros Hm Hb Hn Hd Hs Hdl Hsl. unfold memmove. destruct (over_threshold bulk n) eqn:Eb.
  { unfold sbind, memory_copy. decide_cmp. done. }
  destruct Hb as [Hn31|]; [|done]. destruct (Z.eqb_spec d s) as [<- |Hne]; [by rewrite bytes_at_blit_same|].
  assert (wp (if d <? s then do* memmove_up d s n in sret d else do* memmove_down d s n in sret d)
    (fun r m' => r = d /\ copied m d s n m') m) as (r & m' & E & -> & Hc).
  { destruct (Z.ltb_spec d s).
    - seq; [apply memmove_up_wp; done || lia|]. intros [] m' [_ Hat]. by apply wp_ret.
    - seq; [apply memmove_down_wp; done || lia|]. intros [] m' [_ Hat]. apply wp_ret. by rewrite !Z.add_0_r, Z.sub_0_r in Hat. }
  destruct (Z.eq_dec n 0) as [-> |].
  { destruct (_ <=? u32 (- 2 * 0)); [apply memcpy_ok; done || lia|]. destruct (d <? s); rewrite E; by rewrite (at_blit m d s 0 m'). }
  rewrite (memmove_test d s n (zlen m)) by (done || lia || apply Hm).
  destruct (Z.leb_spec (s + n) d); cbn [orb]; [apply memcpy_ok; done || lia|].
  destruct (Z.leb_spec (d + n) s); [apply memcpy_ok; done || lia|].
  destruct (d <? s); rewrite E; by rewrite (at_blit m d s n m').
Qed.

Lemma memset_ok bulk m s c n : wf_memory m -> 0 <= n < 2 ^ 32 -> 0 <= s -> s + n <= zlen m ->
  memset bulk s c n m = Ok (s, blit m s (replicate (Z.to_nat n) (u8 c))).
Proof.
  intros Hm Hn Hs Hsl. destruct (memset_wp m s n c Hm Hn Hs Hsl bulk) as (r & m' & E & -> & Hf). rewrite E. do 2 f_equal.
  assert (zlen (replicate (Z.to_nat n) (u8 c)) = n) as El by (unfold zlen; rewrite length_replicate; lia).
  apply filled_blit; rewrite ?El; [done|done|]. destruct Hf as [Hl Hb]. split; [done|]. intros x Hx. rewrite Hb by done.
  case_match; [|done]. bool_hyps. symmetry. apply nth_lookup_Some, lookup_replicate. split; [done|lia].
Qed.

(** C22: on every memory, for every alignment of the pointers and every size
    below 2^31, with or without the bulk memory instructions: [memcpy] of ranges that do not
    overlap and [memmove] of any ranges copy exactly the bytes that were at the
    source, [memset] fills exactly the region, all three change no other byte,
    return the destination, and access memory only in bounds and aligned.
    ([memmove] compares distances in 32 bits, which is enough for objects up to
    [PTRDIFF_MAX] bytes.) *)
Theorem memory_functions_correct bulk m d s c n :
  wf_memory m -> 0 <= n < 2 ^ 31 -> 0 <= d -> d + n <= zlen m -> 0 <= s -> s + n <= zlen m ->
  (d + n <= s \/ s + n <= d -> memcpy bulk d s n m = Ok (d, blit m d (bytes_at m s n))) /\
  memmove bulk d s n m = Ok (d, blit m d (bytes_at m s n)) /\
  memset bulk d c n m = Ok (d, blit m d (replicate (Z.to_nat n) (u8 c))).
Proof.
  intros Hm Hn Hd Hdl Hs Hsl. split_and!.
  - intros H. apply memcpy_ok; done || lia.
  - apply memmove_ok; try done; [by left|lia].
  - apply memset_ok; done || lia.
Qed.

(** 40 bytes from address 3 to the overlapping address 10. *)
Lemma memory_functions_correct_witness : let m := seqZ 0 64 in
  wf_memory m /\ memmove None 10 3 40 m = Ok (10, seqZ 0 10 ++ seqZ 3 40 ++ seqZ 50 14) /\
  memset (Some 32) 3 7 20 m = Ok (3, seqZ 0 3 ++ replicate 20 7 ++ seqZ 23 41).
Proof.
  intros m. assert (wf_memory m) as Hm.
  { split; [apply (Forall_impl (fun b => 0 <= b < 64)); [apply Forall_seqZ; lia|intros; lia]|reflexivity|vm_compute; discriminate]. }
  split; [done|]. split.
  - exact (proj1 (proj2 (memory_functions_correct None m 10 3 0 40 Hm ltac:(lia) ltac:(lia) ltac:(vm_compute; discriminate) ltac:(lia) ltac:(vm_compute; discriminate)))).
  - exact (proj2 (proj2 (memory_functions_correct (Some 32) m 3 3 7 20 Hm ltac:(lia) ltac:(lia) ltac:(vm_compute; discriminate) ltac:(lia) ltac:(vm_compute; discriminate)))).
Defined.

(** A [memmove] to a higher address that [memmove] takes for disjoint: for more
    than [PTRDIFF_MAX] bytes the test does not see the overlap. *)
Lemma memmove_test_wraps : let d := 1 in let s := 0 in let n := 2 ^ 31 + 1 in
  (u32 (u32 (s - d) - n) <=? u32 (- 2 * n)) = true.
Proof. reflexivity. Qed.
