(* ===== verification/StringsScan.v ===== *)
(** What the searching functions of string/ find: the word loops find the same
    place as a scan of the bytes one by one. *)

From S2P Require Import Prelude Memory Strings.


(** The place where a scan stops: the length of the longest prefix without a stop. *)
Definition upto (stop : Z -> bool) (l : list Z) : Z := zlen (span (fun c => negb (stop c)) l).

Lemma schar_end l i : zlen l <= i -> schar l i = 0.
Proof. intros H. unfold schar, zlen in *. apply nth_overflow. lia. Qed.

(** Nothing stops before [i]. *)
Definition clear (stop : Z -> bool) (l : list Z) (i : Z) : Prop := forall j, 0 <= j < i -> stop (schar l j) = false.

Lemma upto_range stop l : 0 <= upto stop l <= zlen l.
Proof. unfold upto, zlen. pose proof (span_length (fun c => negb (stop c)) l). lia. Qed.

Lemma upto_first stop l i : 0 <= i <= zlen l -> clear stop l i -> stop (schar l i) = true \/ i = zlen l -> upto stop l = i.
Proof.
  unfold upto, clear. revert i. induction l as [|c l IH]; intros i Hi Hc Hs; [unfold zlen in *; simpl in *; lia|].
  rewrite zlen_cons in Hi, Hs. cbn [span]. destruct (Z.eq_dec i 0) as [-> |Hi0].
  - destruct Hs as [Hs|Hs]; [|pose proof (zlen_nonneg l); lia]. change (schar (c :: l) 0) with c in Hs. by rewrite Hs.
  - pose proof (Hc 0 ltac:(lia)) as H0. change (schar (c :: l) 0) with c in H0. rewrite H0. cbn [negb]. rewrite zlen_cons.
    assert (forall j, 0 <= j -> schar (c :: l) (j + 1) = schar l j) as E.
    { intros j Hj. unfold schar. by replace (Z.to_nat (j + 1)) with (S (Z.to_nat j)) by lia. }
    rewrite (IH (i - 1)); [lia|lia|..].
    + intros j Hj. rewrite <- E by lia. apply Hc. lia.
    + destruct Hs as [Hs|Hs]; [left|right; lia]. by rewrite <- E, Z.sub_add by lia.
Qed.

Lemma upto_ext p q l : (forall c, p c = q c) -> upto p l = upto q l.
Proof. intros E. unfold upto. f_equal. induction l as [|c l IH]; simpl; [done|]. by rewrite E, IH. Qed.

Lemma text_char l j : Forall (fun c => 0 < c < 256) l -> 0 <= j < zlen l -> 0 < schar l j < 256.
Proof. intros Hf Hj. unfold schar, zlen in *. rewrite (Forall_nth _ 0) in Hf. apply Hf. lia. Qed.

Lemma upto_nul l : Forall (fun c => 0 < c < 256) l -> upto (fun c => c =? 0) l = zlen l.
Proof.
  intros Hf. apply upto_first; [pose proof (zlen_nonneg l); lia| |by right]. intros j Hj.
  pose proof (text_char l j Hf Hj). apply Z.eqb_neq. lia.
Qed.

(** * Strings *)

Section Scan.
Context (m : memory) (Hm : wf_memory m) (s : Z) (l : list Z) (Hl : cstr m s l).
Context (stop : Z -> bool) (Hstop : stop 0 = true).

Lemma cstr_byte i : 0 <= i <= zlen l -> byte m (s + i) = schar l i.
Proof. apply Hl. Qed.
Lemma cstr_bound i : 0 <= i <= zlen l -> 0 <= s + i < zlen m.
Proof. destruct Hl as (? & ? & _). lia. Qed.

(** No stop before the end of the string means that the end is not reached. *)
Lemma clear_bound i : 0 <= i -> clear stop l i -> i <= zlen l.
Proof.
  intros Hi Hc. destruct (Z.le_gt_cases i (zlen l)); [done|]. specialize (Hc (zlen l) ltac:(unfold zlen in *; lia)).
  rewrite schar_end in Hc by lia. congruence.
Qed.

Lemma clear_step i : clear stop l i -> stop (schar l i) = false -> clear stop l (i + 1).
Proof. intros Hc Hs j Hj. destruct (Z.eq_dec j i) as [-> |]; [done|]. apply Hc. lia. Qed.

Lemma fuel_enough i : 0 <= i <= zlen l -> zlen l - i + 1 < Z.of_nat (S (length m)).
Proof. intros Hi. destruct Hl as (? & ? & _). unfold zlen in *. lia. Qed.

Lemma align_find_wp :
  wp (align_find stop s) (fun '(r, out) m' => m' = m /\ exists i, r = s + i /\ 0 <= i <= zlen l /\ clear stop l i /\
    if out : bool then stop (schar l i) = true else (s + i) mod 4 = 0) m.
Proof.
  unfold align_find. apply wp_bind. exists (S (length m)), m. split; [done|].
  apply (wp_while (fun '(r, out) m' => m' = m /\ exists i, r = s + i /\ 0 <= i <= zlen l /\ clear stop l i /\
    (out = true -> stop (schar l i) = true)) (fun '(r, out) => if out : bool then 0 else s + zlen l - r + 1)).
  - intros [r out] m' (-> & i & -> & Hi & Hc & Ho). apply wp_ret. unfold ctrue.
    destruct out; cbn [negb andb]; [split; [done|]; exists i; by auto|].
    destruct (Z.eqb_spec ((s + i) mod 4) 0); cbn [negb]; [split; [done|]; exists i; by auto|].
    apply wp_bind, wp_load8; [by apply cstr_bound|]. rewrite cstr_byte by done. apply wp_ret.
    destruct (stop (schar l i)) eqn:Es.
    + split; [|lia]. split; [done|]. exists i. auto.
    + assert (clear stop l (i + 1)) as Hc' by (by apply clear_step). pose proof (clear_bound (i + 1) ltac:(lia) Hc').
      split; [|lia]. split; [done|]. exists (i + 1). split_and!; done || lia.
  - split; [done|]. exists 0. pose proof (zlen_nonneg l). split_and!; try done; [lia|]. intros j Hj. lia.
  - pose proof (fuel_enough 0 ltac:(pose proof (zlen_nonneg l); lia)). lia.
  - pose proof (zlen_nonneg l). lia.
Qed.

Lemma find_wp i : 0 <= i <= zlen l -> clear stop l i -> wp (find stop (s + i)) (fun r m' => m' = m /\ r = s + upto stop l) m.
Proof.
  intros Hi Hc. unfold find. apply wp_bind. exists (S (length m)), m. split; [done|].
  apply (wp_while (fun r m' => m' = m /\ exists i, r = s + i /\ 0 <= i <= zlen l /\ clear stop l i) (fun r => s + zlen l - r)).
  - intros r m' (-> & j & -> & Hj & Hcj). apply wp_bind, wp_load8; [by apply cstr_bound|]. rewrite cstr_byte by done. apply wp_ret.
    destruct (stop (schar l j)) eqn:Es; cbn [negb].
    + split; [done|]. f_equal. symmetry. apply upto_first; auto.
    + assert (clear stop l (j + 1)) as Hc' by (by apply clear_step). pose proof (clear_bound (j + 1) ltac:(lia) Hc').
      apply wp_ret. split; [|lia]. split; [done|]. exists (j + 1). split_and!; done || lia.
  - split; [done|]. by exists i.
  - pose proof (fuel_enough i Hi). lia.
  - lia.
Qed.

Lemma word_bound a : 0 <= a < zlen m -> a mod 4 = 0 -> a + 4 <= zlen m.
Proof. intros Ha Hal. pose proof (wf_size _ Hm). divlia. Qed.

(** A word without a stop. *)
Lemma clear_word i : 0 <= i <= zlen l -> clear stop l i -> any4 stop m (s + i) = false -> clear stop l (i + 4) /\ i + 4 <= zlen l.
Proof.
  intros Hi Hc Ha. unfold any4 in Ha. bool_hyps.
  assert (forall j, clear stop l j -> 0 <= j -> stop (byte m (s + j)) = false -> clear stop l (j + 1) /\ j + 1 <= zlen l) as Hone.
  { intros j Hcj Hj Hs. pose proof (clear_bound j Hj Hcj). rewrite cstr_byte in Hs by lia. pose proof (clear_step j Hcj Hs) as H'.
    split; [done|]. apply clear_bound; [lia|done]. }
  rewrite <- !Z.add_assoc in *. destruct (Hone i) as [Hc1 _]; [done|lia|done|]. destruct (Hone (i + 1)) as [Hc2 _]; [done|lia|done|].
  rewrite <- !Z.add_assoc in *. destruct (Hone (i + (1 + 1))) as [Hc3 _]; [done|lia|done|]. rewrite <- !Z.add_assoc in *.
  destruct (Hone (i + (1 + (1 + 1)))) as [Hc4 Hl4]; [done|lia|done|]. rewrite <- !Z.add_assoc in *. done.
Qed.

Lemma find_word_wp hit i : (forall a, hit (word m a) = any4 stop m a) -> 0 <= i <= zlen l -> clear stop l i -> (s + i) mod 4 = 0 ->
  wp (find_word hit (s + i)) (fun r m' => m' = m /\ exists j, r = s + j /\ 0 <= j <= zlen l /\ clear stop l j) m.
Proof.
  intros Hh Hi Hc Hal. unfold find_word. apply wp_bind. exists (S (length m)), m. split; [done|].
  apply (wp_while (fun r m' => m' = m /\ exists i, r = s + i /\ 0 <= i <= zlen l /\ clear stop l i /\ (s + i) mod 4 = 0)
    (fun r => s + zlen l - r)).
  - intros r m' (-> & j & -> & Hj & Hcj & Halj). pose proof (cstr_bound j Hj). pose proof (word_bound (s + j) ltac:(lia) Halj).
    apply wp_bind, wp_load32; [lia..|done|]. apply wp_ret. rewrite Hh. destruct (any4 stop m (s + j)) eqn:Ea; cbn [negb].
    + split; [done|]. by exists j.
    + destruct (clear_word j) as [Hc4 Hl4]; [done..|]. apply wp_ret. split; [|lia]. split; [done|]. exists (j + 4). split_and!; done || divlia.
  - split; [done|]. by exists i.
  - pose proof (fuel_enough i Hi). lia.
  - lia.
Qed.
End Scan.

(** * The functions on strings *)

(** A function that gives [v] and leaves the memory alone. *)
Definition gives {A} (c : mem A) (m : memory) (v : A) : Prop := wp c (fun r m' => m' = m /\ r = v) m.

Lemma gives_ok {A} (c : mem A) m v : gives c m v <-> c m = Ok (v, m).
Proof. split; [by intros (a & m' & E & -> & ->)|intros E; by exists v, m]. Qed.

Lemma gives_bind {A B} (c : mem A) (k : A -> mem B) m v Q : gives c m v -> wp (k v) Q m -> wp (sbind c k) Q m.
Proof. intros Hc Hk. seq; [exact Hc|]. by intros ? ? [-> ->]. Qed.

Lemma strlen_gives m s l : wf_memory m -> cstr m s l -> gives (strlen s) m (zlen l).
Proof.
  intros Hm Hl. unfold strlen. set (stop := fun c => c =? 0).
  assert (upto stop l = zlen l) as Eu by apply upto_nul, Hl.
  seq; [apply (align_find_wp m s l Hl stop eq_refl)|]. intros [r out] m' (-> & i & -> & Hi & Hc & Ho). cbn beta iota.
  destruct out.
  - apply wp_ret. split; [done|]. rewrite <- Eu, (upto_first stop l i) by auto. lia.
  - seq; [apply (find_word_wp m Hm s l Hl stop eq_refl); [by intros; apply HASZERO_word|done..]|].
    intros ? ? (-> & j & -> & Hj & Hcj). seq; [by apply (find_wp m s l Hl stop eq_refl j)|].
    intros ? ? [-> ->]. apply wp_ret. split; [done|lia].
Qed.

Definition stops_at (c x : Z) : bool := (x =? 0) || (x =? c).

(** [strchrnul] finds the character or the end. *)
Lemma strchrnul_gives m s l c : wf_memory m -> cstr m s l -> gives (__strchrnul s c) m (s + upto (stops_at (u8 c)) l).
Proof.
  intros Hm Hl. unfold __strchrnul. pose proof (u8_range c) as Hr. unfold in_u in Hr. change (2 ^ 8) with 256 in Hr.
  destruct (Z.eqb_spec (u8 c) 0) as [Ec|Ec].
  - eapply gives_bind; [by apply strlen_gives|]. apply wp_ret. split; [done|]. rewrite Ec. f_equal.
    rewrite <- (upto_nul l) by apply Hl. apply upto_ext. intros x. unfold stops_at. by rewrite orb_diag.
  - set (stop := stops_at (u8 c)). assert (stop 0 = true) as H0 by done.
    seq; [apply (align_find_wp m s l Hl stop H0)|]. intros [r out] m' (-> & i & -> & Hi & Hc & Ho). cbn beta iota.
    destruct out; [apply wp_ret; split; [done|]; by rewrite (upto_first stop l i) by auto|].
    seq; [apply (find_word_wp m Hm s l Hl stop H0); [|done..]|].
    { intros a. rewrite HASZERO_word, HASZERO_xor by done. unfold any4, stop, stops_at.
      repeat match goal with |- context [byte m ?x =? ?y] => destruct (byte m x =? y) end; done. }
    intros ? ? (-> & j & -> & Hj & Hcj). by apply (find_wp m s l Hl stop H0 j).
Qed.

(** A character of the text, or its end. *)
Lemma upto_char stop l : stop 0 = true -> stop (schar l (upto stop l)) = true.
Proof.
  intros H0. destruct (span_prefix (fun c => negb (stop c)) l) as (r & E & Hr).
  unfold upto, schar, zlen. rewrite Nat2Z.id. rewrite E at 2.
  rewrite app_nth2, Nat.sub_diag by lia. destruct r as [|c r]; [done|]. simpl. by apply negb_false_iff in Hr.
Qed.

Lemma strchr_gives m s l c : wf_memory m -> cstr m s l ->
  gives (strchr s c) m (let i := upto (stops_at (u8 c)) l in if schar l i =? u8 c then s + i else NULL).
Proof.
  intros Hm Hl. unfold strchr. eapply gives_bind; [by apply strchrnul_gives|]. pose proof (upto_range (stops_at (u8 c)) l).
  apply wp_bind, wp_load8; [by apply (cstr_bound m s l Hl)|]. rewrite (cstr_byte m s l Hl) by done. by apply wp_ret.
Qed.

(** * Ranges of bytes *)

Section Range.
Context (m : memory) (Hm : wf_memory m) (s : Z) (n c : Z).
Context (Hs : 0 <= s) (Hn : 0 <= n) (Hc : 0 <= c < 256).

(** The scan of at most [n] bytes stays in the memory. *)
Context (Hreach : forall i, 0 <= i < n -> (forall j, 0 <= j < i -> byte m (s + j) <> c) -> s + i < zlen m).

Definition misses (i : Z) : Prop := forall j, 0 <= j < i -> byte m (s + j) <> c.
Definition range_inv (r : Z * Z) (i : Z) : Prop := r = (s + i, n - i) /\ 0 <= i <= n /\ misses i.

Lemma misses_step i : misses i -> byte m (s + i) <> c -> misses (i + 1).
Proof. intros Hmi Hb j Hj. destruct (Z.eq_dec j i) as [-> |]; [done|]. apply Hmi. lia. Qed.

Lemma memchr_bytes_wp cond i : range_inv (s + i, n - i) i ->
  wp (memchr_bytes cond c (s + i) (n - i)) (fun r m' => m' = m /\ exists i', range_inv r i' /\
    (cond (s + i') = false \/ i' = n \/ i' < n /\ byte m (s + i') = c)) m.
Proof.
  intros Hi. unfold memchr_bytes. eapply (wp_while (fun r m' => m' = m /\ exists i, range_inv r i) (fun '(_, n') => n')).
  - intros [s' n'] m' (-> & j & ([= -> ->] & Hj & Hmj)). destruct (cond (s + j)) eqn:Ec; cbn [andb].
    2:{ apply wp_ret. split; [done|]. exists j. split; [done|]. by left. }
    unfold ctrue. destruct (Z.eqb_spec (n - j) 0); cbn [negb].
    { apply wp_ret. split; [done|]. exists j. split; [done|]. right; left. lia. }
    pose proof (Hreach j ltac:(lia) Hmj). apply wp_bind, wp_load8; [lia|]. apply wp_ret.
    destruct (Z.eqb_spec (byte m (s + j)) c); cbn [negb].
    + split; [done|]. exists j. split; [done|]. right; right. split; [lia|done].
    + apply wp_ret. split; [|lia]. split; [done|]. exists (j + 1). split_and!; [f_equal; lia|lia..|by apply misses_step].
  - split; [done|]. by exists i.
  - unfold count. lia.
  - destruct Hi as (_ & ? & _). lia.
Qed.

(** The loop over words. *)
Lemma memchr_words_wp i : range_inv (s + i, n - i) i -> i < n -> (s + i) mod 4 = 0 ->
  wp (while (count (n - i)) (fun '(w, n) => if 4 <=? n then let* x := load32 w in sret (negb (HASZERO (Z.lxor x (u32 (ONES * c))))) else sret false)
        (fun '(w, n) => sret (w + 4, n - 4)) (s + i, n - i)) (fun r m' => m' = m /\ exists i', range_inv r i') m.
Proof.
  intros Hi Hin Hal. eapply (wp_while (fun r m' => m' = m /\ exists i, range_inv r i /\ (s + i) mod 4 = 0) (fun '(_, n') => n')).
  - intros [s' n'] m' (-> & j & ([= -> ->] & Hj & Hmj) & Halj). destruct (Z.leb_spec 4 (n - j)).
    2:{ apply wp_ret. split; [done|]. by exists j. }
    pose proof (Hreach j ltac:(lia) Hmj). pose proof (word_bound m Hm (s + j) ltac:(lia) Halj).
    apply wp_bind, wp_load32; [lia..|done|]. apply wp_ret. rewrite HASZERO_xor by done.
    destruct (any4 (fun b => b =? c) m (s + j)) eqn:Ea; cbn [negb]; [split; [done|]; by exists j|].
    apply wp_ret. split; [|lia]. split; [done|]. exists (j + 4). split; [|divlia]. split_and!; [f_equal; lia|lia..|].
    unfold any4 in Ea. bool_hyps. intros x Hx. destruct (Z.lt_ge_cases x j); [apply Hmj; lia|].
    assert (x = j \/ x = j + 1 \/ x = j + 2 \/ x = j + 3) as [-> |[-> |[-> | ->]]] by lia; rewrite ?Z.add_assoc; done.
  - split; [done|]. by exists i.
  - unfold count. lia.
  - lia.
Qed.

Lemma memchr_gives : exists i, 0 <= i <= n /\ misses i /\ (i < n -> byte m (s + i) = c) /\
  forall c0, u8 c0 = c -> gives (memchr s c0 n) m (if i <? n then s + i else NULL).
Proof.
  assert (range_inv (s + 0, n - 0) 0) as H0 by (split; [done|]; split; [lia|intros j Hj; lia]).
  assert (wp (memchr s c n) (fun r m' => m' = m /\ exists i, 0 <= i <= n /\ misses i /\ (i < n -> byte m (s + i) = c) /\
    r = if i <? n then s + i else NULL) m) as (r & m' & E & -> & i & Hi & Hmi & Hbi & ->).
  2:{ exists i. do 3 (split; [done|]). intros c0 Hc0. apply gives_ok. rewrite <- E. unfold memchr. by rewrite Hc0, u8_id by done. }
  unfold memchr. rewrite u8_id by done. rewrite <- (Z.add_0_r s) at 1. rewrite <- (Z.sub_0_r n) at 1.
  seq; [by apply memchr_bytes_wp|]. intros ? ? (-> & i & (-> & Hi & Hmi) & Hex). cbn beta iota.
  apply wp_bind, (wp_mono _ (fun hit m' => m' = m /\ hit = (negb (i =? n) && negb (byte m (s + i) =? c)))).
  { unfold ctrue. destruct (Z.eqb_spec (n - i) 0).
    - apply wp_ret. rewrite (proj2 (Z.eqb_eq i n)) by lia. done.
    - pose proof (Hreach i ltac:(lia) Hmi). apply wp_bind, wp_load8; [lia|]. apply wp_ret.
      by rewrite (proj2 (Z.eqb_neq i n)) by lia. }
  intros ? ? [-> ->]. apply wp_bind, (wp_mono _ (fun r m' => m' = m /\ exists i', range_inv r i')).
  { destruct (Z.eqb_spec i n), (Z.eqb_spec (byte m (s + i)) c); cbn [negb andb];
      try (apply wp_ret; split; [done|]; by exists i).
    apply memchr_words_wp; [done|lia|]. destruct Hex as [Hex|[?|[? ?]]]; [|lia|done].
    unfold ctrue in Hex. apply negb_false_iff, Z.eqb_eq in Hex. rewrite <- Hex. change 3 with (Z.ones 2). by rewrite Z.land_ones by lia. }
  intros ? ? (-> & i' & (-> & Hi' & Hmi')). cbn beta iota. seq; [by apply memchr_bytes_wp|].
  intros ? ? (-> & k & (-> & Hk & Hmk) & Hex'). cbn beta iota. apply wp_ret. split; [done|]. exists k. unfold ctrue.
  split; [lia|]. split; [done|]. split.
  - intros Hkn. destruct Hex' as [?|[?|[? ?]]]; [done|lia|done].
  - destruct (Z.eqb_spec (n - k) 0), (Z.ltb_spec k n); done || lia.
Qed.
End Range.

(** The last match in a list. *)
Definition last_index (c : Z) (l : list Z) : option Z :=
  let i := upto (fun x => x =? c) (rev l) in if i <? zlen l then Some (zlen l - 1 - i) else None.

Lemma bytes_at_S m a (k : nat) : 0 <= a -> a + Z.of_nat k < zlen m ->
  bytes_at m a (Z.of_nat (S k)) = bytes_at m a (Z.of_nat k) ++ [byte m (a + Z.of_nat k)].
Proof.
  intros Ha Hk. unfold bytes_at, byte, zlen in *. rewrite !Nat2Z.id.
  destruct (lookup_lt_is_Some_2 m (Z.to_nat a + k)) as [x Hx]; [lia|].
  rewrite (take_S_r _ _ x) by (by rewrite lookup_drop). f_equal. f_equal. symmetry. apply nth_lookup_Some.
  by replace (Z.to_nat (a + Z.of_nat k)) with (Z.to_nat a + k)%nat by lia.
Qed.

Lemma memrchr_gives m a c (k : nat) : 0 <= a -> a + Z.of_nat k <= zlen m ->
  gives (memrchr_loop k a c) m (match last_index c (bytes_at m a (Z.of_nat k)) with Some i => a + i | None => NULL end).
Proof.
  intros Ha. induction k as [|k IH]; intros Hk; cbn [memrchr_loop]; [by apply wp_ret|].
  apply wp_bind, wp_load8; [lia|]. rewrite bytes_at_S by lia. unfold last_index in *. rewrite rev_app_distr. cbn [rev app].
  unfold upto in *. cbn [span]. pose proof (zlen_bytes_at m a (Z.of_nat k) Ha ltac:(lia) ltac:(lia)) as El.
  rewrite zlen_app, El. change (zlen [byte m (a + Z.of_nat k)]) with 1. destruct (byte m (a + Z.of_nat k) =? c) eqn:Eb; cbn [negb].
  - change (zlen (@nil Z)) with 0. rewrite (proj2 (Z.ltb_lt 0 _)) by lia. apply wp_ret. split; [done|lia].
  - eapply wp_mono; [apply IH; lia|]. intros ? ? [-> ->]. split; [done|]. rewrite zlen_cons, El.
    set (i := zlen (span _ _)). destruct (Z.ltb_spec i (Z.of_nat k)), (Z.ltb_spec (1 + i) (Z.of_nat k + 1)); done || lia.
Qed.

Lemma cstr_bytes m s l : cstr m s l -> bytes_at m s (zlen l + 1) = l ++ [0].
Proof.
  intros (Hs & Hl & Hf & Hb). assert (zlen (bytes_at m s (zlen l + 1)) = zlen (l ++ [0])) as El.
  { pose proof (zlen_nonneg l). rewrite zlen_bytes_at by lia. rewrite zlen_app. done. }
  apply Nat2Z.inj in El. apply (nth_ext _ _ 0 0); [done|]. intros i Hi. rewrite El, length_app in Hi. simpl in Hi.
  pose proof (byte_at m s (zlen l + 1) (Z.of_nat i) Hs ltac:(unfold zlen; lia)) as E.
  rewrite Nat2Z.id in E. rewrite E, Hb by (unfold zlen; lia). unfold schar. rewrite Nat2Z.id.
  destruct (decide (i < length l)%nat); [by rewrite app_nth1|]. rewrite app_nth2 by lia. rewrite nth_overflow by lia.
  by replace (i - length l)%nat with 0%nat by lia.
Qed.

Lemma strrchr_gives m s l c : wf_memory m -> cstr m s l ->
  gives (strrchr s c) m (match last_index (u8 c) (l ++ [0]) with Some i => s + i | None => NULL end).
Proof.
  intros Hm Hl. unfold strrchr, __memrchr. eapply gives_bind; [by apply strlen_gives|]. rewrite <- (cstr_bytes m s l Hl).
  pose proof (zlen_nonneg l). destruct Hl as (Hs & Hb & _).
  pose proof (memrchr_gives m s (u8 c) (Z.to_nat (zlen l + 1)) Hs) as H'. rewrite Z2Nat.id in H' by lia. apply H'. lia.
Qed.

Lemma strnlen_gives m s l n : wf_memory m -> cstr m s l -> 0 < s -> 0 <= n -> gives (strnlen s n) m (Z.min n (zlen l)).
Proof.
  intros Hm Hl H0 Hn. pose proof Hl as (Hs & Hb & Hf & Hc). unfold strnlen.
  destruct (memchr_gives m Hm s n 0 Hs Hn ltac:(lia)) as (i & Hi & Hmi & Hbi & Hg).
  { intros i Hi Hmi. destruct (Z.le_gt_cases i (zlen l)); [lia|]. specialize (Hmi (zlen l) ltac:(unfold zlen in *; lia)).
    rewrite Hc, schar_end in Hmi by (unfold zlen; lia). done. }
  eapply gives_bind; [by apply (Hg 0)|]. apply wp_ret. split; [done|].
  assert (i <= zlen l) as Hil.
  { destruct (Z.le_gt_cases i (zlen l)); [done|]. specialize (Hmi (zlen l) ltac:(unfold zlen in *; lia)).
    rewrite Hc, schar_end in Hmi by (unfold zlen; lia). done. }
  destruct (Z.ltb_spec i n) as [Hlt|Hge]; [|change (ctrue NULL) with false; cbn iota; lia].
  unfold ctrue. rewrite (proj2 (Z.eqb_neq (s + i) 0)) by lia. cbn [negb].
  destruct (Z.eq_dec i (zlen l)) as [-> |]; [lia|]. pose proof (text_char l i Hf ltac:(lia)).
  rewrite Hc in Hbi by lia. lia.
Qed.

(** C23: on a C string in memory, at any alignment: [strlen], [strnlen],
    [strchrnul], [strchr] and [strrchr], which look at whole words at a time,
    give the length of the text, its length up to a limit, the first place of
    the character or the end, the first and the last place of the character
    (the terminator included) or null; and [memchr] gives the first place of the byte
    in a range or null.  They change nothing, and read only aligned words
    inside the memory. *)
Theorem string_search_correct m s l c n : wf_memory m -> cstr m s l -> 0 < s -> 0 <= n ->
  gives (strlen s) m (zlen l) /\ gives (strnlen s n) m (Z.min n (zlen l)) /\
  (let i := upto (stops_at (u8 c)) l in
   gives (__strchrnul s c) m (s + i) /\ gives (strchr s c) m (if schar l i =? u8 c then s + i else NULL)) /\
  gives (strrchr s c) m (match last_index (u8 c) (l ++ [0]) with Some i => s + i | None => NULL end) /\
  (s + n <= zlen m -> exists i, 0 <= i <= n /\ (forall j, 0 <= j < i -> byte m (s + j) <> u8 c) /\
    (i < n -> byte m (s + i) = u8 c) /\ gives (memchr s c n) m (if i <? n then s + i else NULL)).
Proof.
  intros Hm Hl H0 Hn. split; [by apply strlen_gives|]. split; [by apply strnlen_gives|].
  split; [split; [by apply strchrnul_gives|by apply strchr_gives]|]. split; [by apply strrchr_gives|].
  intros Hr. pose proof (u8_range c) as Hc. unfold in_u in Hc.
  destruct (memchr_gives m Hm s n (u8 c) ltac:(lia) Hn Hc ltac:(lia)) as (i & Hi & Hmi & Hbi & Hg).
  exists i. split; [done|]. split; [done|]. split; [done|]. by apply Hg.
Qed.

(** "hello" at address 2: the first and the last [l]. *)
Lemma string_search_correct_witness : let l := [104; 101; 108; 108; 111] in
  wf_memory demo_memory /\ cstr demo_memory 2 l /\ upto (stops_at (u8 108)) l = 2 /\ last_index (u8 108) (l ++ [0]) = Some 3 /\
  gives (strlen 2) demo_memory 5 /\ gives (strchr 2 108) demo_memory 4 /\ gives (strrchr 2 108) demo_memory 5.
Proof.
  intros l. assert (wf_memory demo_memory) as Hm by (split; [repeat constructor; lia|reflexivity|vm_compute; discriminate]).
  assert (cstr demo_memory 2 l) as Hl.
  { split; [lia|]. split; [reflexivity|]. split; [repeat constructor; lia|]. intros i Hi. change (zlen l) with 5 in Hi.
    assert (i = 0 \/ i = 1 \/ i = 2 \/ i = 3 \/ i = 4 \/ i = 5) as [-> |[-> |[-> |[-> |[-> | ->]]]]] by lia; reflexivity. }
  destruct (string_search_correct demo_memory 2 l 108 5 Hm Hl) as (H1 & _ & (_ & H2) & H3 & _); [lia..|].
  split_and!; done.
Defined.
