(* ===== verification/StringsSpec.v ===== *)
(** Comparison, byte sets and tokens: what the functions of string/ that work
    byte by byte compute. *)

From S2P Require Import Prelude Memory Strings StringsScan.

(** * Comparison *)

(** The difference at the first place where two texts differ; the end counts as 0. *)
Fixpoint lexdiff (l r : list Z) : Z :=
  match l, r with
  | [], [] => 0
  | [], y :: _ => 0 - y
  | x :: _, [] => x - 0
  | x :: l', y :: r' => if x =? y then lexdiff l' r' else x - y
  end.

Lemma schar_succ x l i : 0 <= i -> schar (x :: l) (i + 1) = schar l i.
Proof. intros Hi. unfold schar. by replace (Z.to_nat (i + 1)) with (S (Z.to_nat i)) by lia. Qed.

Lemma schar_nth l i : 0 <= i -> schar l i = nth 0 (drop (Z.to_nat i) l) 0.
Proof. intros Hi. unfold schar. by rewrite nth_skipn, Nat.add_0_r. Qed.

(** Texts that agree up to [i] and differ there, or both end there. *)
Lemma lexdiff_at l r i : 0 <= i -> (forall j, 0 <= j < i -> schar l j = schar r j /\ schar l j <> 0) ->
  schar l i <> schar r i \/ schar l i = 0 -> Forall (fun c => 0 < c < 256) l -> Forall (fun c => 0 < c < 256) r ->
  lexdiff l r = schar l i - schar r i.
Proof.
  revert r i. induction l as [|x l IH]; intros r i Hi Hj Hs Hl Hr.
  - assert (i = 0) as ->. { destruct (Z.eq_dec i 0); [done|]. specialize (Hj 0 ltac:(lia)). by destruct Hj. }
    by destruct r.
  - destruct (Z.eq_dec i 0) as [-> |Hi0].
    + apply Forall_inv in Hl. destruct r as [|y r]; [done|]. unfold schar in Hs |- *. simpl in *.
      destruct (Z.eqb_spec x y) as [<- |]; [|done]. lia.
    + specialize (Hj 0 ltac:(lia)) as H0. destruct r as [|y r]; [by destruct H0 as [? []]|].
      unfold schar at 1 2 in H0. simpl in H0. destruct H0 as [<- _]. cbn [lexdiff]. rewrite Z.eqb_refl.
      apply Forall_cons in Hl as [_ Hl], Hr as [_ Hr].
      replace i with (i - 1 + 1) in Hs |- * by lia. rewrite !schar_succ in Hs |- * by lia. apply IH; try done; [lia|].
      intros j Hjr. specialize (Hj (j + 1) ltac:(lia)). rewrite !schar_succ in Hj by lia. done.
Qed.

Section Compare.
Context (m : memory) (a b : Z) (l r : list Z) (Hl : cstr m a l) (Hr : cstr m b r).

(** The texts agree up to [i], which is inside both. *)
Definition agree (i : Z) : Prop := 0 <= i <= zlen l /\ i <= zlen r /\ forall j, 0 <= j < i -> schar l j = schar r j /\ schar l j <> 0.

Lemma agree_step i : agree i -> schar l i = schar r i -> schar l i <> 0 -> agree (i + 1).
Proof.
  intros (Hi & Hir & Hj) E H0. assert (i < zlen l /\ i < zlen r) as [? ?].
  { split; [destruct (Z.eq_dec i (zlen l)) as [-> |]|destruct (Z.eq_dec i (zlen r)) as [-> |]]; try lia;
      [rewrite (schar_end l) in H0 by lia|rewrite E, (schar_end r) in H0 by lia]; done. }
  split; [lia|]. split; [lia|]. intros j Hj'. destruct (Z.eq_dec j i) as [-> |]; [done|]. apply Hj. lia.
Qed.

Lemma strcmp_gives : gives (strcmp a b) m (lexdiff l r).
Proof.
  unfold strcmp. apply wp_bind. exists (S (length m)), m. split; [done|].
  apply wp_bind. eapply (wp_while (fun x m' => m' = m /\ exists i, x = (a + i, b + i) /\ agree i) (fun '(x, _) => a + zlen l - x)).
  - intros [x y] m' (-> & i & [= -> ->] & Ha). pose proof Ha as (Hi & Hir & Hj).
    apply wp_bind, wp_load8; [by apply (cstr_bound m a l Hl)|]. apply wp_bind, wp_load8; [apply (cstr_bound m b r Hr); lia|].
    rewrite (cstr_byte m a l Hl), (cstr_byte m b r Hr) by lia. apply wp_ret. unfold ctrue.
    destruct (Z.eqb_spec (schar l i) (schar r i)), (Z.eqb_spec (schar l i) 0); cbn [negb andb].
    2:{ apply wp_ret. pose proof (agree_step i) as Hs. assert (agree (i + 1)) as Ha' by auto. pose proof Ha' as (? & ? & _).
        split; [|lia]. split; [done|]. exists (i + 1). split; [f_equal; lia|done]. }
    all: apply wp_bind, wp_load8; [by apply (cstr_bound m a l Hl)|]; apply wp_bind, wp_load8; [apply (cstr_bound m b r Hr); lia|];
      rewrite (cstr_byte m a l Hl), (cstr_byte m b r Hr) by lia; apply wp_ret; split; [done|]; symmetry; apply lexdiff_at; try done; try lia; auto; apply Hl || apply Hr.
  - split; [done|]. exists 0. split; [f_equal; lia|]. pose proof (zlen_nonneg l). pose proof (zlen_nonneg r). split; [lia|]. split; [lia|]. intros; lia.
  - destruct Hl as (? & ? & _). unfold zlen in *. lia.
  - pose proof (zlen_nonneg l). lia.
Qed.
End Compare.

(** * Byte sets *)

Definition in_set (b : byteset) (x : Z) : bool := Z.testbit (nth (Z.to_nat (x / 32)) b 0) (x mod 32).
Definition memb (x : Z) (l : list Z) : bool := existsb (fun y => x =? y) l.

Lemma bitop_bit w k : 0 <= k < 32 -> ctrue (Z.land w (u32 (Z.shiftl 1 k))) = Z.testbit w k /\
  forall j, 0 <= j < 32 -> Z.testbit (Z.lor w (u32 (Z.shiftl 1 k))) j = (j =? k) || Z.testbit w j.
Proof.
  intros Hk. assert (u32 (Z.shiftl 1 k) = 2 ^ k) as ->.
  { rewrite Z.shiftl_1_l. apply u32_id. split; [apply Z.pow_nonneg; lia|apply Z.pow_lt_mono_r; lia]. }
  split.
  - unfold ctrue. destruct (Z.testbit w k) eqn:E.
    + apply negb_true_iff, Z.eqb_neq. intros H. apply (f_equal (fun x => Z.testbit x k)) in H.
      rewrite Z.land_spec, E, Z.pow2_bits_true, Z.testbit_0_l in H by lia. done.
    + apply negb_false_iff, Z.eqb_eq. apply Z.bits_inj'. intros i Hi. rewrite Z.land_spec, Z.pow2_bits_eqb, Z.testbit_0_l by lia.
      destruct (Z.eqb_spec k i) as [<- |]; [by rewrite E|apply andb_false_r].
  - intros j Hj. rewrite Z.lor_spec, Z.pow2_bits_eqb by lia. rewrite (Z.eqb_sym k). apply orb_comm.
Qed.

Lemma byteset_has_ok b x : length b = 8%nat -> 0 <= x < 256 -> byteset_has b x = Ok (in_set b x).
Proof.
  intros Hb Hx. unfold byteset_has, in_set. assert (0 <= x / 32 < 8 /\ 0 <= x mod 32 < 32) as [? ?] by divlia.
  destruct (zget_in_range b (x / 32)) as [w Hw]; [unfold zlen; lia|]. rewrite Hw. cbn [obind].
  rewrite (proj1 (bitop_bit w (x mod 32) ltac:(lia))). apply zget_lookup in Hw as [_ Hw]. by rewrite (nth_lookup_Some _ _ _ _ Hw).
Qed.

Lemma byteset_add_ok b c : length b = 8%nat -> 0 <= c < 256 ->
  exists b', byteset_add b c = Ok b' /\ length b' = 8%nat /\ forall x, 0 <= x < 256 -> in_set b' x = (x =? c) || in_set b x.
Proof.
  intros Hb Hc. unfold byteset_add. assert (0 <= c / 32 < 8 /\ 0 <= c mod 32 < 32) as [? ?] by divlia.
  destruct (zget_in_range b (c / 32)) as [w Hw]; [unfold zlen; lia|]. rewrite Hw. cbn [obind].
  rewrite zset_in_range by (unfold zlen; lia). eexists. split; [done|]. split; [by rewrite length_insert|].
  intros x Hx. unfold in_set. assert (0 <= x / 32 < 8 /\ 0 <= x mod 32 < 32) as [? ?] by divlia.
  apply zget_lookup in Hw as [_ Hw]. destruct (Z.eq_dec (x / 32) (c / 32)) as [E|E].
  - rewrite E. rewrite (nth_lookup_Some _ _ _ (Z.lor w (u32 (Z.shiftl 1 (c mod 32))))) by (apply list_lookup_insert_eq; lia).
    rewrite (nth_lookup_Some _ _ _ _ Hw). rewrite (proj2 (bitop_bit w (c mod 32) ltac:(lia))) by lia. f_equal.
    apply Bool.eq_true_iff_eq. rewrite !Z.eqb_eq. divlia.
  - rewrite !nth_lookup, list_lookup_insert_ne by lia.
    rewrite (proj2 (Z.eqb_neq x c)); [done|]. intros ->. done.
Qed.

Lemma memb_app x l y : memb x (l ++ [y]) = memb x l || (x =? y).
Proof. unfold memb. rewrite existsb_app. simpl. by rewrite orb_false_r. Qed.

(** The set of the characters of a string. *)
Lemma byteset_of_wp m c l : cstr m c l ->
  wp (byteset_of c) (fun b m' => m' = m /\ length b = 8%nat /\ forall x, 0 <= x < 256 -> in_set b x = memb x l) m.
Proof.
  intros Hl. pose proof Hl as (Hc & Hb & Hf & _). unfold byteset_of. apply wp_bind. exists (S (length m)), m. split; [done|].
  apply wp_bind. eapply (wp_while (fun '(a, b) m' => m' = m /\ exists i, a = c + i /\ 0 <= i <= zlen l /\ length b = 8%nat /\
      forall x, 0 <= x < 256 -> in_set b x = memb x (take (Z.to_nat i) l)) (fun '(a, _) => c + zlen l - a)).
  - intros [a b] m' (-> & i & -> & Hi & Hlb & Hset). apply wp_bind, wp_load8; [by apply (cstr_bound m c l Hl)|].
    rewrite (cstr_byte m c l Hl) by done. apply wp_ret. unfold ctrue. destruct (Z.eqb_spec (schar l i) 0) as [E|E]; cbn [negb].
    + apply wp_ret. split; [done|]. split; [done|]. assert (i = zlen l) as ->.
      { destruct (Z.eq_dec i (zlen l)); [done|]. pose proof (text_char l i Hf ltac:(lia)). lia. }
      unfold zlen in Hset. rewrite Nat2Z.id, take_ge in Hset by done. done.
    + assert (i < zlen l) by (destruct (Z.eq_dec i (zlen l)) as [-> |]; [by rewrite schar_end in E by lia|lia]).
      pose proof (text_char l i Hf ltac:(lia)) as Hx.
      apply wp_bind, wp_load8; [by apply (cstr_bound m c l Hl)|]. rewrite (cstr_byte m c l Hl) by done.
      destruct (byteset_add_ok b (schar l i) Hlb ltac:(lia)) as (b' & Eb & Hlb' & Hset').
      apply wp_bind. apply (wp_lift _ _ _ _ Eb). apply wp_ret. split; [|lia]. split; [done|]. exists (i + 1). split; [lia|].
      split; [lia|]. split; [done|]. intros x Hxr. rewrite Hset', Hset by done.
      replace (Z.to_nat (i + 1)) with (S (Z.to_nat i)) by lia. unfold zlen in *.
      rewrite (take_S_r _ _ (schar l i)); [rewrite memb_app; apply orb_comm|].
      destruct (lookup_lt_is_Some_2 l (Z.to_nat i)) as [y Hy]; [lia|]. unfold schar. by rewrite (nth_lookup_Some _ _ _ _ Hy).
  - split; [done|]. exists 0. pose proof (zlen_nonneg l). split; [lia|]. split; [lia|]. split; [done|]. intros x Hx.
    unfold in_set. assert (forall n, nth n byteset_empty 0 = 0) as E by (intros n; do 9 (destruct n as [|n]; [done|]); done).
    by rewrite E, Z.testbit_0_l.
  - unfold zlen in *. lia.
  - pose proof (zlen_nonneg l). lia.
Qed.

(** The scan over a set, in either sense. *)
Lemma byteset_skip_gives m s l b set keep : cstr m s l -> length b = 8%nat -> (forall x, 0 <= x < 256 -> in_set b x = memb x set) ->
  gives (byteset_skip keep b s) m (s + upto (fun x => negb (Bool.eqb (memb x set) keep)) l).
Proof.
  intros Hl Hlb Hset. pose proof Hl as (Hc & Hb & Hf & _). unfold byteset_skip, gives. apply wp_bind. exists (S (length m)), m. split; [done|].
  eapply (wp_while (fun a m' => m' = m /\ exists i, a = s + i /\ 0 <= i <= zlen l /\ clear (fun x => negb (Bool.eqb (memb x set) keep)) l i)
      (fun a => s + zlen l - a)).
  - intros a m' (-> & i & -> & Hi & Hci). apply wp_bind, wp_load8; [by apply (cstr_bound m s l Hl)|].
    rewrite (cstr_byte m s l Hl) by done. unfold ctrue. destruct (Z.eqb_spec (schar l i) 0) as [E|E]; cbn [negb].
    + apply wp_ret. split; [done|]. f_equal. symmetry. apply upto_first; [done..|]. right.
      destruct (Z.eq_dec i (zlen l)); [done|]. pose proof (text_char l i Hf ltac:(lia)). lia.
    + assert (i < zlen l) by (destruct (Z.eq_dec i (zlen l)) as [-> |]; [by rewrite schar_end in E by lia|lia]).
      pose proof (text_char l i Hf ltac:(lia)) as Hx. apply wp_bind. eapply wp_lift; [apply byteset_has_ok; [done|lia]|].
      rewrite Hset by lia. apply wp_ret. destruct (Bool.eqb (memb (schar l i) set) keep) eqn:Ek.
      * apply wp_ret. split; [|lia]. split; [done|]. exists (i + 1). split; [lia|]. split; [lia|]. intros j Hj.
        destruct (Z.eq_dec j i) as [-> |]; [by rewrite Ek|]. apply Hci. lia.
      * split; [done|]. f_equal. symmetry. apply upto_first; [done..|]. left. by rewrite Ek.
  - split; [done|]. exists 0. pose proof (zlen_nonneg l). split; [lia|]. split; [lia|]. intros j Hj. lia.
  - unfold zlen in *. lia.
  - pose proof (zlen_nonneg l). lia.
Qed.

Lemma upto_ext_in p q l : Forall (fun c => p c = q c) l -> upto p l = upto q l.
Proof. unfold upto. intros H. f_equal. induction H as [|c l E _ IH]; simpl; [done|]. by rewrite E, IH. Qed.

(** The first two characters of a set. *)
Lemma set_heads m c set : cstr m c set -> byte m c = schar set 0 /\ (set <> [] -> byte m (c + 1) = schar set 1 /\ 0 <= c + 1 < zlen m) /\ 0 <= c < zlen m.
Proof.
  intros (Hc & Hb & Hf & Hs). pose proof (zlen_nonneg set). rewrite <- (Z.add_0_r c) at 1. rewrite Hs by lia.
  split; [done|]. split; [|lia]. intros Hne. destruct set as [|x set]; [done|]. rewrite zlen_cons in *. pose proof (zlen_nonneg set).
  rewrite Hs by lia. split; [done|lia].
Qed.

Lemma strcspn_gives m s c l set : wf_memory m -> cstr m s l -> cstr m c set -> gives (strcspn s c) m (upto (fun x => memb x set) l).
Proof.
  intros Hm Hl Hset. pose proof Hl as (_ & _ & Hf & _). pose proof Hset as (_ & _ & Hfs & _).
  destruct (set_heads m c set Hset) as (E0 & E1 & Hc). unfold strcspn.
  apply wp_bind, wp_load8; [done|]. rewrite E0.
  apply wp_bind, (wp_mono _ (fun single m' => m' = m /\ single = match set with [] | [_] => true | _ => false end)).
  { destruct set as [|x set]; [by apply wp_ret|]. apply Forall_cons in Hfs as [Hx Hfs]. change (schar (x :: set) 0) with x.
    rewrite (proj2 (Z.eqb_neq x 0)) by lia. destruct E1 as [E1 Hc1]; [done|]. apply wp_bind, wp_load8; [done|]. rewrite E1. apply wp_ret.
    split; [done|]. destruct set as [|y set]; [done|]. apply Forall_cons in Hfs as [Hy _]. change (schar (x :: y :: set) 1) with y.
    apply Z.eqb_neq. lia. }
  intros ? ? [-> ->]. assert (forall c0, match set with [] => c0 = 0 | [x] => c0 = x | _ => False end ->
    gives (let* r := __strchrnul s c0 in sret (r - s)) m (upto (fun x => memb x set) l)) as Hone.
  { intros c0 Hc0. eapply gives_bind; [by apply strchrnul_gives|]. apply wp_ret. split; [done|].
    assert (u8 c0 = c0) as ->.
    { apply u8_id. unfold in_u. change (2 ^ 8) with 256. destruct set as [|x [|]]; [lia|apply Forall_inv in Hfs; lia|done]. }
    rewrite (upto_ext_in (stops_at c0) (fun x => memb x set)); [lia|]. eapply Forall_impl; [exact Hf|]. intros x Hx. cbv beta in *.
    unfold stops_at. rewrite (proj2 (Z.eqb_neq x 0)) by lia. destruct set as [|y [|]]; simpl; [|by subst; rewrite orb_false_r|done].
    subst. apply Z.eqb_neq. lia. }
  destruct set as [|x [|y set]]; [by apply Hone|by apply Hone|].
  seq; [by apply byteset_of_wp|]. intros b ? (-> & Hlb & Hb). eapply gives_bind; [by apply (byteset_skip_gives m s l b (x :: y :: set) false)|].
  apply wp_ret. split; [done|]. rewrite (upto_ext _ (fun x0 => memb x0 (x :: y :: set))); [lia|].
  intros z. by destruct (memb z (x :: y :: set)).
Qed.

Lemma strspn_gives m s c l set : wf_memory m -> cstr m s l -> cstr m c set -> gives (strspn s c) m (upto (fun x => negb (memb x set)) l).
Proof.
  intros Hm Hl Hset. pose proof Hl as (_ & _ & Hf & _). pose proof Hset as (_ & _ & Hfs & _).
  destruct (set_heads m c set Hset) as (E0 & E1 & Hc). unfold strspn.
  apply wp_bind, wp_load8; [done|]. rewrite E0. destruct set as [|x set].
  { apply wp_ret. split; [done|]. symmetry. apply upto_first; [pose proof (zlen_nonneg l); lia|intros j; lia|by left]. }
  apply Forall_cons in Hfs as [Hx Hfs]. change (schar (x :: set) 0) with x. rewrite (proj2 (Z.eqb_neq x 0)) by lia.
  destruct E1 as [E1 Hc1]; [done|]. apply wp_bind, wp_load8; [done|]. rewrite E1. destruct set as [|y set].
  - change (schar [x] 1 =? 0) with true. cbn iota. set (stop := fun z => negb (z =? x)). assert (stop 0 = true) as H0.
    { unfold stop. by rewrite (proj2 (Z.eqb_neq 0 x)) by lia. }
    pose proof (find_wp m s l Hl stop H0 0 ltac:(pose proof (zlen_nonneg l); lia) ltac:(intros j; lia)) as Hfind. rewrite Z.add_0_r in Hfind.
    seq; [exact Hfind|]. intros ? ? [-> ->]. apply wp_ret. split; [done|].
    rewrite (upto_ext stop (fun z => negb (memb z [x]))); [lia|]. intros z. unfold stop. simpl. by rewrite orb_false_r.
  - apply Forall_inv in Hfs. change (schar (x :: y :: set) 1) with y. rewrite (proj2 (Z.eqb_neq y 0)) by lia.
    seq; [by apply byteset_of_wp|]. intros b ? (-> & Hlb & Hb). eapply gives_bind; [by apply (byteset_skip_gives m s l b (x :: y :: set) true)|].
    apply wp_ret. split; [done|]. rewrite (upto_ext _ (fun x0 => negb (memb x0 (x :: y :: set)))); [lia|].
    intros z. by destruct (memb z (x :: y :: set)).
Qed.

Lemma strpbrk_gives m s b l set : wf_memory m -> cstr m s l -> cstr m b set ->
  gives (strpbrk s b) m (let i := upto (fun x => memb x set) l in if i <? zlen l then s + i else NULL).
Proof.
  intros Hm Hl Hset. unfold strpbrk. eapply gives_bind; [by apply strcspn_gives|]. pose proof (upto_range (fun x => memb x set) l) as Hr.
  apply wp_bind, wp_load8; [by apply (cstr_bound m s l Hl)|]. rewrite (cstr_byte m s l Hl) by done. apply wp_ret. split; [done|]. unfold ctrue.
  destruct (Z.ltb_spec (upto (fun x => memb x set) l) (zlen l)).
  - pose proof (text_char l (upto (fun x => memb x set) l) ltac:(apply Hl) ltac:(lia)). rewrite (proj2 (Z.eqb_neq _ _)) by lia. done.
  - by rewrite schar_end by lia.
Qed.

(** * Tokens *)

(** The non-empty fields between separators; [cur] is the field so far. *)
Definition flush (cur : list Z) : list (list Z) := match cur with [] => [] | _ => [cur] end.
Fixpoint fields (p : Z -> bool) (cur l : list Z) : list (list Z) :=
  match l with
  | [] => flush cur
  | c :: l' => if p c then flush cur ++ fields p [] l' else fields p (cur ++ [c]) l'
  end.
Definition tokens (set l : list Z) : list (list Z) := fields (fun x => memb x set) [] l.

(** A client: all tokens, [strtok_r] being called until it gives null. *)
Fixpoint strtok_all (fuel : nat) (s sep p : Z) : mem (list Z) :=
  match fuel with
  | O => fun _ => NoFuel
  | S fuel' =>
      let* (r, p') := strtok_r s sep p in
      if r =? NULL then sret []
      else let* rs := strtok_all fuel' NULL sep p' in sret (r :: rs)
  end.

Lemma fields_word p t : Forall (fun c => p c = false) t -> forall cur r, fields p cur (t ++ r) = fields p (cur ++ t) r.
Proof.
  induction 1 as [|c t Hc _ IH]; intros cur r; simpl; [by rewrite app_nil_r|]. by rewrite Hc, IH, <- app_assoc.
Qed.

Lemma fields_skip p l : fields p [] (drop (Z.to_nat (upto (fun x => negb (p x)) l)) l) = fields p [] l.
Proof.
  unfold upto. induction l as [|c l IH]; [done|]. cbn [span]. rewrite negb_involutive. destruct (p c) eqn:E; [|done].
  rewrite zlen_cons. set (k := zlen _) in *. assert (0 <= k) by apply zlen_nonneg.
  replace (Z.to_nat (1 + k)) with (S (Z.to_nat k)) by lia. simpl. by rewrite E, IH.
Qed.

Lemma upto_take p l : Forall (fun c => p c = false) (take (Z.to_nat (upto p l)) l).
Proof.
  unfold upto, zlen. rewrite Nat2Z.id. rewrite (span_take _ _ _ (le_n _)), take_ge by done.
  eapply Forall_impl; [apply span_forall|]. intros c Hc. by apply negb_true_iff.
Qed.

(** Strings inside a string. *)
Lemma schar_drop l k i : 0 <= k -> 0 <= i -> schar (drop (Z.to_nat k) l) i = schar l (k + i).
Proof. intros. unfold schar. rewrite nth_skipn. f_equal. lia. Qed.

Lemma zlen_drop {A} (l : list A) k : 0 <= k <= zlen l -> zlen (drop (Z.to_nat k) l) = zlen l - k.
Proof. intros. unfold zlen in *. rewrite length_drop. lia. Qed.
Lemma zlen_take {A} (l : list A) k : 0 <= k <= zlen l -> zlen (take (Z.to_nat k) l) = k.
Proof. intros. unfold zlen in *. rewrite length_take. lia. Qed.

Lemma cstr_drop m s l k : cstr m s l -> 0 <= k <= zlen l -> cstr m (s + k) (drop (Z.to_nat k) l).
Proof.
  intros (Hs & Hb & Hf & Hc) Hk. split; [lia|]. rewrite zlen_drop by done. split; [lia|]. split; [by apply Forall_drop|].
  intros i Hi. rewrite <- Z.add_assoc, Hc, schar_drop by lia. done.
Qed.

Lemma cstr_frame m m' s l : cstr m s l -> zlen m' = zlen m -> (forall x, s <= x <= s + zlen l -> byte m' x = byte m x) -> cstr m' s l.
Proof. intros (Hs & Hb & Hf & Hc) El E. split; [done|]. split; [lia|]. split; [done|]. intros i Hi. rewrite E by lia. by apply Hc. Qed.

(** A terminator stored inside a string cuts it in two. *)
Lemma cstr_cut m s l j : cstr m s l -> 0 <= j < zlen l ->
  let m' := <[Z.to_nat (s + j) := 0]> m in cstr m' s (take (Z.to_nat j) l) /\ cstr m' (s + j + 1) (drop (Z.to_nat (j + 1)) l).
Proof.
  intros (Hs & Hb & Hf & Hc) Hj m'. assert (zlen m' = zlen m) as El by (unfold m'; by rewrite zlen_insert). split.
  - split; [done|]. rewrite zlen_take by lia. split; [lia|]. split; [by apply Forall_take|]. intros i Hi. unfold m'.
    rewrite byte_store by lia. destruct (Z.eqb_spec (s + i) (s + j)).
    + rewrite schar_end; [done|]. rewrite zlen_take by lia. lia.
    + rewrite Hc by lia. unfold schar. rewrite !nth_lookup, lookup_take_lt by lia. done.
  - replace (s + j + 1) with (s + (j + 1)) by lia. apply (cstr_frame m); [|done|].
    + apply cstr_drop; [done|lia].
    + intros x Hx. unfold m'. rewrite byte_store by lia. rewrite (proj2 (Z.eqb_neq x (s + j))) by lia. done.
Qed.

Lemma wf_store m a v : wf_memory m -> 0 <= v < 256 -> wf_memory (<[a := v]> m).
Proof.
  intros [Hb Hs Hl] Hv. split; [|by rewrite zlen_insert..]. by apply Forall_insert.
Qed.

(** One call: no token, the last token, or a token and the rest. *)
Lemma strtok_step m s sep l set p s0 : wf_memory m -> cstr m s l -> cstr m sep set -> 0 < s ->
  (if s0 =? NULL then p else s0) = s ->
  let k := upto (fun x => negb (memb x set)) l in
  let l1 := drop (Z.to_nat k) l in
  let j := upto (fun x => memb x set) l1 in
  strtok_r s0 sep p m =
  if k =? zlen l then Ok ((NULL, NULL), m)
  else if k + j =? zlen l then Ok ((s + k, NULL), m)
  else Ok ((s + k, s + k + j + 1), <[Z.to_nat (s + k + j) := 0]> m).
Proof.
  intros Hm Hl Hset Hs Es k l1 j. unfold strtok_r. rewrite Es. rewrite (proj2 (Z.eqb_neq s NULL)) by (unfold NULL; lia).
  pose proof (upto_range (fun x => negb (memb x set)) l) as Hk. fold k in Hk.
  rewrite (sbind_Ok _ _ _ _ _ (proj1 (gives_ok _ _ _) (strspn_gives m s sep l set Hm Hl Hset))). fold k.
  pose proof (cstr_drop m s l k Hl Hk) as Hl1. fold l1 in Hl1. pose proof (zlen_drop l k Hk) as Ez. fold l1 in Ez.
  pose proof (upto_range (fun x => memb x set) l1) as Hj. fold j in Hj.
  assert (forall a i x, cstr m a x -> 0 <= i <= zlen x -> load8 (a + i) m = Ok (schar x i, m)) as Hload.
  { intros a i x Hx Hi. unfold load8. pose proof (cstr_bound m a x Hx i Hi). rewrite (cstr_byte m a x Hx) by done. decide_cmp. done. }
  rewrite (sbind_Ok _ _ _ _ _ (Hload s k l Hl Hk)).
  destruct (Z.eqb_spec k (zlen l)) as [Ek|Ek]; [by rewrite schar_end by lia|].
  pose proof (text_char l k ltac:(apply Hl) ltac:(lia)). rewrite (proj2 (Z.eqb_neq (schar l k) 0)) by lia.
  rewrite (sbind_Ok _ _ _ _ _ (proj1 (gives_ok _ _ _) (strcspn_gives m (s + k) sep l1 set Hm Hl1 Hset))). fold j.
  rewrite (sbind_Ok _ _ _ _ _ (Hload (s + k) j l1 Hl1 Hj)). unfold ctrue.
  destruct (Z.eqb_spec (k + j) (zlen l)); [by rewrite schar_end by lia|].
  pose proof (text_char l1 j ltac:(apply Hl1) ltac:(lia)). rewrite (proj2 (Z.eqb_neq (schar l1 j) 0)) by lia. cbn [negb].
  pose proof (cstr_bound m (s + k) l1 Hl1 j Hj). unfold sbind, store8. decide_cmp. done.
Qed.

(** The first token, and the text after it. *)
Lemma tokens_step set l :
  let k := upto (fun x => negb (memb x set)) l in
  let l1 := drop (Z.to_nat k) l in
  let j := upto (fun x => memb x set) l1 in
  tokens set l = if k =? zlen l then [] else take (Z.to_nat j) l1 :: if k + j =? zlen l then [] else tokens set (drop (Z.to_nat (j + 1)) l1).
Proof.
  intros k l1 j. unfold tokens. rewrite <- fields_skip. fold k. fold l1.
  pose proof (upto_range (fun x => negb (memb x set)) l) as Hk. fold k in Hk. pose proof (zlen_drop l k Hk) as Ez. fold l1 in Ez.
  pose proof (upto_range (fun x => memb x set) l1) as Hj. fold j in Hj.
  destruct (Z.eqb_spec k (zlen l)) as [Ek|Ek]. { assert (l1 = []) as ->; [|done]. apply length_zero_iff_nil. unfold zlen in *. lia. }
  assert (take (Z.to_nat j) l1 <> []) as Hne.
  { assert (memb (schar l1 0) set = false) as H0.
    { unfold l1. rewrite schar_drop, Z.add_0_r by lia. destruct (memb (schar l k) set) eqn:E; [|done].
      pose proof (span_prefix (fun c => negb (negb (memb c set))) l) as (r & Er & Hr).
      assert (r = l1) as ->.
      { unfold l1, k, upto, zlen. rewrite Nat2Z.id. rewrite Er at 2. by rewrite drop_app_length. }
      destruct l1 as [|c l1'] eqn:E1; [unfold zlen in *; simpl in *; lia|].
      assert (schar l k = c) as Ec. { rewrite <- (Z.add_0_r k), <- schar_drop by lia. fold l1. by rewrite E1. }
      rewrite Ec in E. rewrite E in Hr. done. }
    assert (0 < j) as Hj0.
    { unfold j, upto. destruct l1 as [|c l1']; [unfold zlen in *; simpl in *; lia|]. cbn [span].
      unfold schar in H0. simpl in H0. rewrite H0. cbn [negb]. rewrite zlen_cons. pose proof (zlen_nonneg (span (fun c0 => negb (memb c0 set)) l1')). lia. }
    intros E. apply (f_equal (@length Z)) in E. rewrite length_take in E. unfold zlen in *. simpl in E. lia. }
  rewrite <- (take_drop (Z.to_nat j) l1) at 1. rewrite (fields_word _ _ (upto_take (fun x => memb x set) l1)). cbn [app]. fold j.
  destruct (Z.eqb_spec (k + j) (zlen l)) as [Ej|Ej].
  - rewrite drop_ge by (unfold zlen in *; lia). cbn [fields]. by destruct (take (Z.to_nat j) l1).
  - destruct (drop (Z.to_nat j) l1) as [|d l2] eqn:Ed.
    { apply (f_equal (@length Z)) in Ed. rewrite length_drop in Ed. unfold zlen in *. simpl in Ed. lia. }
    assert (memb d set = true) as Hd.
    { destruct (span_prefix (fun c => negb (memb c set)) l1) as (r & Er & Hr).
      assert (r = d :: l2) as ->. { rewrite <- Ed. unfold j, upto, zlen. rewrite Nat2Z.id. rewrite Er at 2. by rewrite drop_app_length. }
      by apply negb_false_iff in Hr. }
    cbn [fields]. rewrite Hd. replace (Z.to_nat (j + 1)) with (Z.to_nat j + 1)%nat by lia. rewrite <- drop_drop, Ed. simpl.
    by destruct (take (Z.to_nat j) l1).
Qed.

(** The regions of two strings do not overlap. *)
Definition apart (s : Z) (l : list Z) (a : Z) (t : list Z) : Prop := s + zlen l < a \/ a + zlen t < s.

Lemma strtok_all_wp sep set fuel : forall m s l s0 p, wf_memory m -> cstr m s l -> cstr m sep set -> 0 < s -> apart s l sep set ->
  (if s0 =? NULL then p else s0) = s -> (length l + 1 < fuel)%nat ->
  wp (strtok_all fuel s0 sep p) (fun ps m' => Forall2 (cstr m') ps (tokens set l) /\ zlen m' = zlen m /\
    forall x, 0 <= x -> x < s \/ s + zlen l <= x -> byte m' x = byte m x) m.
Proof.
  induction fuel as [|fuel IH]; intros m s l s0 p Hm Hl Hset Hs Hap Es Hf; [lia|]. cbn [strtok_all].
  pose proof (strtok_step m s sep l set p s0 Hm Hl Hset Hs Es) as Hstep. rewrite tokens_step. cbv zeta in Hstep |- *.
  set (k := upto (fun x => negb (memb x set)) l) in *. set (l1 := drop (Z.to_nat k) l) in *. set (j := upto (fun x => memb x set) l1) in *.
  pose proof (upto_range (fun x => negb (memb x set)) l) as Hk. fold k in Hk. pose proof (zlen_drop l k Hk) as Ez. fold l1 in Ez.
  pose proof (upto_range (fun x => memb x set) l1) as Hj. fold j in Hj. pose proof (cstr_drop m s l k Hl Hk) as Hl1. fold l1 in Hl1.
  destruct (k =? zlen l) eqn:Ek. { apply wp_bind. exists (NULL, NULL), m. split; [done|]. apply wp_ret. by split. }
  destruct (Z.eqb_spec (k + j) (zlen l)) as [Ej|Ej].
  - apply wp_bind. exists (s + k, NULL), m. split; [done|]. cbn beta iota. rewrite (proj2 (Z.eqb_neq (s + k) NULL)) by (unfold NULL; lia).
    destruct fuel as [|fuel]; [lia|]. apply wp_bind. exists [], m. split; [reflexivity|]. apply wp_ret. split; [|done].
    constructor; [|constructor]. rewrite take_ge by (unfold zlen in *; lia). done.
  - apply Z.eqb_neq in Ek. destruct (cstr_cut m (s + k) l1 j Hl1 ltac:(lia)) as [Ht Hr]. cbv zeta in Ht, Hr.
    set (m1 := <[Z.to_nat (s + k + j) := 0]> m) in *. assert (zlen m1 = zlen m) as Em1 by (unfold m1; by rewrite zlen_insert).
    pose proof (cstr_bound m (s + k) l1 Hl1 j Hj) as Hjb.
    assert (forall x, 0 <= x -> x <> s + k + j -> byte m1 x = byte m x) as Hb1.
    { intros x Hx Hne. unfold m1. rewrite byte_store by lia. by rewrite (proj2 (Z.eqb_neq x _)). }
    apply wp_bind. exists (s + k, s + k + j + 1), m1. split; [done|]. cbn beta iota.
    rewrite (proj2 (Z.eqb_neq (s + k) NULL)) by (unfold NULL; lia).
    assert (zlen (drop (Z.to_nat (j + 1)) l1) = zlen l - k - j - 1) as Ezr by (rewrite zlen_drop by lia; lia).
    pose proof Hset as (Hsep & _). seq.
    { apply (IH m1 (s + k + j + 1) (drop (Z.to_nat (j + 1)) l1) NULL (s + k + j + 1)); try done; try lia.
      - by apply wf_store.
      - apply (cstr_frame m); [done..|]. intros x Hx. apply Hb1; unfold apart in Hap; lia.
      - unfold apart in *. rewrite Ezr. lia.
      - unfold zlen in *. lia. }
    intros ps m2 (Hps & Em2 & Hb2). apply wp_ret. split; [|split; [congruence|]].
    + constructor; [|done]. apply (cstr_frame m1); [done..|]. intros x Hx. rewrite zlen_take in Hx by lia. apply Hb2; lia.
    + intros x Hx Hout. rewrite Hb2 by lia. apply Hb1; lia.
Qed.

(** Calling [strtok_r] until it gives null yields pointers to exactly the
    fields of the text between separators, in order: at the end each pointer holds its field as a C string,
    and no byte outside of the text has changed. *)
Theorem strtok_tokens m s sep l set p : wf_memory m -> cstr m s l -> cstr m sep set -> 0 < s -> apart s l sep set ->
  exists ps m', strtok_all (length l + 2) s sep p m = Ok (ps, m') /\ Forall2 (cstr m') ps (tokens set l) /\
    zlen m' = zlen m /\ forall x, 0 <= x -> x < s \/ s + zlen l <= x -> byte m' x = byte m x.
Proof.
  intros Hm Hl Hset Hs Hap. apply (strtok_all_wp sep set (length l + 2) m s l s p); try done; [|lia].
  rewrite (proj2 (Z.eqb_neq s NULL)) by (unfold NULL; lia). done.
Qed.

Lemma cstr_check m s l : (0 <=? s) && (s + zlen l <? zlen m) && forallb (fun c => (0 <? c) && (c <? 256)) l &&
  forallb (fun i => byte m (s + i) =? schar l i) (seqZ 0 (zlen l + 1)) = true -> cstr m s l.
Proof.
  intros H. bool_hyps. split; [done|]. split; [done|]. split.
  - apply Forall_forall. intros c Hc. rewrite forallb_forall in *.
    match goal with H : forall x, In x l -> _ |- _ => specialize (H c ltac:(by apply list_elem_of_In)) end. bool_hyps. lia.
  - intros i Hi. match goal with H : forallb _ (seqZ _ _) = true |- _ => pose proof (forall_below _ _ H i ltac:(lia)) as E end.
    cbv beta in E. by bool_hyps.
Qed.

(** ["a,b"] at address 8, separated by [","] at address 12. *)
Lemma strtok_tokens_witness : tokens [44] [97; 44; 98] = [[97]; [98]] /\
  exists ps m', strtok_all 5 8 12 0 demo_memory = Ok (ps, m') /\ Forall2 (cstr m') ps [[97]; [98]].
Proof.
  split; [reflexivity|].
  destruct (strtok_tokens demo_memory 8 12 [97; 44; 98] [44] 0) as (ps & m' & E & H & _).
  - split; [repeat constructor; lia|reflexivity|vm_compute; discriminate].
  - apply cstr_check. reflexivity.
  - apply cstr_check. reflexivity.
  - lia.
  - left. reflexivity.
  - exists ps, m'. split; [exact E|exact H].
Defined.
