(* ===== verification/StringsCat.v ===== *)
(** The functions that copy text: they copy up to a character or a count, and
    terminate or pad as they promise. *)

From S2P Require Import Prelude Memory Strings StringsCopy StringsScan StringsSpec.

(** * Copying up to a character *)

Section Until.
Context (m0 : memory) (d s n c f : Z).
Context (Hm : wf_memory m0) (Hc : 0 <= c < 256).

(** [f] is the first place of [c] among the [n] bytes, or [n]; [T] bytes are stored. *)
Context (Hf : 0 <= f <= n) (Hmiss : forall j, 0 <= j < f -> byte m0 (s + j) <> c) (Hhit : f < n -> byte m0 (s + f) = c).
Let T : Z := Z.min n (f + 1).
Context (Hd : 0 <= d) (Hs : 0 <= s) (Hdl : d + T <= zlen m0) (Hsl : s + T <= zlen m0) (Hdis : d + T <= s \/ s + T <= d).

Notation at_ := (at_ m0 d s T).

(** The source does not change. *)
Lemma intact k m i : at_ k m -> 0 <= i < T -> byte m (s + i) = byte m0 (s + i).
Proof.
  intros [Hk [_ Hb]] Hi. rewrite Hb by lia. replace ((d <=? s + i) && (s + i <? d + k)) with false; [done|].
  symmetry. repeat case_cmp; done || lia.
Qed.

Lemma at_eq k k' m : at_ k m -> k = k' -> at_ k' m.
Proof. by intros H <-. Qed.

Lemma at_wf k m : at_ k m -> wf_memory m.
Proof.
  intros [_ [Hz Hb]]. destruct Hm as [Hby Hsz Hli]. split; [|by rewrite Hz..]. apply Forall_forall. intros x Hx.
  apply list_elem_of_lookup_1 in Hx as [i Hi]. pose proof (lookup_lt_Some _ _ _ Hi).
  assert (byte m (Z.of_nat i) = x) as <- by (unfold byte; rewrite Nat2Z.id; by apply nth_lookup_Some).
  rewrite Hb by lia. case_match; by apply byte_range.
Qed.

(** A byte stored at its place, also if it was there already. *)
Lemma put k m i : at_ k m -> 0 <= i <= k -> i < T -> at_ (Z.max k (i + 1)) (<[Z.to_nat (d + i) := u8 (byte m0 (s + i))]> m).
Proof.
  intros [Hk [Hz Hb]] Hi HiT. split; [lia|]. split; [by rewrite zlen_insert|]. intros x Hx. rewrite byte_store, Hb by lia.
  pose proof (byte_range m0 (s + i) (wf_bytes _ Hm)). rewrite u8_id by (unfold in_u; lia).
  destruct (Z.eqb_spec x (d + i)) as [-> |].
  - rewrite (proj2 (Z.leb_le d (d + i))), (proj2 (Z.ltb_lt (d + i) (d + Z.max k (i + 1)))) by lia. cbn [andb]. f_equal. lia.
  - destruct (Z.leb_spec d x), (Z.ltb_spec x (d + k)), (Z.ltb_spec x (d + Z.max k (i + 1))); cbn [andb]; done || lia.
Qed.

(** [k] bytes are passed; the character they end with may be stored as well. *)
Definition passed (k : Z) (m : memory) : Prop := 0 <= k <= f /\ (at_ k m \/ k = f /\ f < n /\ at_ (f + 1) m).

Lemma passed_at k m : passed k m -> exists k', at_ k' m /\ k <= k'.
Proof. intros [Hk [H|(-> & _ & H)]]; [by exists k|exists (f + 1); split; [done|lia]]. Qed.

Lemma T_end : T = if f <? n then f + 1 else n.
Proof. unfold T. case_cmp; lia. Qed.

(** A byte read, stored and compared. *)
Lemma put_wp k m : passed k m -> k < n ->
  wp (let* x := load8 (s + k) in do* store8 (d + k) x in sret (negb (x =? c)))
    (fun b m' => b = negb (f =? k) /\ (k < f -> passed (k + 1) m') /\ (k = f -> at_ (f + 1) m')) m.
Proof.
  intros Hp Hkn. destruct (passed_at k m Hp) as (k' & Hat & Hk'). pose proof Hp as [Hk _]. pose proof Hat as [HkT [Hz _]].
  assert (k < T) by (unfold T; lia). apply wp_bind, wp_load8; [lia|]. rewrite (intact k') by (done || lia).
  apply wp_bind, wp_store8; [lia|]. apply wp_ret. pose proof (put k' m k Hat ltac:(lia) ltac:(lia)) as Hput. split_and!.
  - destruct (Z.eqb_spec f k) as [<- |]; [by rewrite Hhit, Z.eqb_refl by done|]. f_equal. apply Z.eqb_neq, Hmiss. lia.
  - intros Hlt. split; [lia|]. left. destruct Hp as [_ [Hp|(-> & _)]]; [|lia].
    pose proof (put k m k Hp ltac:(lia) ltac:(lia)) as H'. by rewrite Z.max_r in H' by lia.
  - intros ->. destruct Hp as [_ [Hp|(_ & _ & Hp)]].
    + pose proof (put f m f Hp ltac:(lia) ltac:(lia)) as H'. by rewrite Z.max_r in H' by lia.
    + pose proof (put (f + 1) m f Hp ltac:(lia) ltac:(lia)) as H'. by rewrite Z.max_l in H' by lia.
Qed.

Lemma copy_until_wp cond k m : passed k m ->
  wp (copy_until cond c (d + k) (s + k) (n - k)) (fun r m' => exists k', r = (d + k', s + k', n - k') /\ passed k' m' /\ k <= k' /\
    (cond (s + k') = false \/ k' = n \/ k' = f /\ f < n /\ at_ (f + 1) m')) m.
Proof.
  intros Hp. unfold copy_until.
  eapply (wp_while (fun r m' => exists k', r = (d + k', s + k', n - k') /\ passed k' m' /\ k <= k') (fun '(_, _, n') => n')).
  - intros [[d' s'] n'] m' (k' & [= -> -> ->] & Hp' & Hk'). destruct (cond (s + k')) eqn:Ec; cbn [andb].
    2:{ apply wp_ret. exists k'. auto. }
    unfold ctrue. destruct (Z.eqb_spec (n - k') 0); cbn [negb]; [apply wp_ret; exists k'; split_and!; auto; right; left; lia|].
    pose proof Hp' as [Hkf _]. eapply wp_mono; [apply put_wp; [done|lia]|]. intros b m1 (-> & H1 & H2).
    destruct (Z.eqb_spec f k') as [E|E]; cbn [negb].
    + exists k'. specialize (H2 ltac:(lia)). assert (k' = f /\ f < n /\ at_ (f + 1) m1) as Hend by (split; [lia|]; split; [lia|done]).
      split; [done|]. split; [split; [lia|by right]|]. split; [lia|by right; right].
    + apply wp_ret. split; [|lia]. exists (k' + 1). split; [pair_eq|]. split; [apply H1; lia|lia].
  - exists k. split_and!; done.
  - unfold count. lia.
  - destruct Hp as [? _]. lia.
Qed.

(** Whether the character is in the word at [s + k]. *)
Lemma any4_found k1 k m : at_ k1 m -> 0 <= k <= f -> 4 <= n - k \/ f < n -> any4 (fun b => b =? c) m (s + k) = (f <? k + 4).
Proof.
  intros Hat Hk Hn. unfold any4. rewrite <- !Z.add_assoc. destruct (Z.ltb_spec f (k + 4)).
  - assert (f < n) as Hfn by lia. assert (byte m (s + f) = c) as Eb by (rewrite (intact k1) by (done || (unfold T; lia)); auto).
    assert (f = k \/ f = k + 1 \/ f = k + 2 \/ f = k + 3) as [E|[E|[E|E]]] by lia; rewrite E in Eb; rewrite Eb, Z.eqb_refl, ?orb_true_r; done.
  - rewrite !(intact k1 m) by (done || (unfold T; lia)).
    assert (forall j, 0 <= j < f -> (byte m0 (s + j) =? c) = false) as Hne by (intros j Hj; apply Z.eqb_neq, Hmiss; lia).
    by rewrite !Hne by lia.
Qed.

(** Words, as long as the character is not in them. *)
Lemma copy_words_until_wp hit k m : (forall m' a, wf_memory m' -> hit (word m' a) = any4 (fun b => b =? c) m' a) -> passed k m ->
  (s + k) mod 4 = 0 -> (d + k) mod 4 = 0 ->
  wp (copy_words_until hit (d + k) (s + k) (n - k)) (fun r m' => exists k', r = (d + k', s + k', n - k') /\ passed k' m') m.
Proof.
  intros Hh Hp Hsa Hda. unfold copy_words_until.
  eapply (wp_while (fun r m' => exists k', r = (d + k', s + k', n - k') /\ passed k' m' /\ (s + k') mod 4 = 0 /\ (d + k') mod 4 = 0)
    (fun '(_, _, n') => n')).
  - intros [[d' s'] n'] m' (k' & [= -> -> ->] & Hp' & Hsa' & Hda'). pose proof Hp' as [Hkf _].
    destruct (Z.leb_spec 4 (n - k')); [|apply wp_ret; by exists k'].
    destruct (passed_at k' m' Hp') as (k1 & Hat & Hk1). pose proof Hat as [Hk1T [Hz _]].
    assert (k' < T) by (unfold T; lia). pose proof (at_wf k1 m' Hat) as Hm'.
    pose proof (word_bound m' Hm' (s + k') ltac:(lia) Hsa'). apply wp_bind, wp_load32; [lia..|done|]. apply wp_ret. rewrite Hh by done.
    rewrite (any4_found k1 k') by (done || lia).
    destruct (Z.ltb_spec f (k' + 4)); cbn [negb]; [by exists k'|].
    destruct Hp' as [_ [Hp'|(-> & _)]]; [|lia].
    seq; [apply (copied_word m0 d s T Hm); try done; lia|]. intros [] m1 Hat1. apply wp_ret. split; [|lia].
    exists (k' + 4). split; [pair_eq|]. split; [split; [lia|by left]|]. split; divlia.
  - exists k. by split_and!.
  - unfold count. lia.
  - destruct Hp as [? _]. lia.
Qed.

Lemma passed_start : passed 0 m0.
Proof. split; [lia|]. left. apply at_start; unfold T; lia. Qed.

(** All bytes are stored. *)
Lemma copy_rest_wp k m : passed k m ->
  wp (copy_until always c (d + k) (s + k) (n - k)) (fun r m' => r = (d + f, s + f, n - f) /\ at_ T m') m.
Proof.
  intros Hp. eapply wp_mono; [by apply copy_until_wp|]. intros ? m' (k' & -> & [Hk' Hp'] & _ & Hend).
  assert (k' = f) as Ek by (destruct Hend as [?|[?|(? & _)]]; [done|lia|lia]). split; [pair_eq|].
  destruct Hend as [?|[En|(_ & Hfn & Hat)]]; [done| |apply (at_eq (f + 1)); [done|unfold T; lia]].
  destruct Hp' as [Hp'|(_ & ? & _)]; [|lia]. apply (at_eq k'); [done|unfold T; lia].
Qed.

Lemma misaligned_mod x : misaligned x = ctrue (x mod 4).
Proof. unfold misaligned. by rewrite land_3. Qed.

Lemma passed_end m : passed f m -> f = n -> at_ T m.
Proof. intros [_ [H|(_ & ? & _)]] E; [|lia]. apply (at_eq f); [done|unfold T; lia]. Qed.

Lemma memccpy_wp c0 : u8 c0 = c -> wp (memccpy d s c0 n) (fun r m => r = (if f <? n then d + f + 1 else NULL) /\ at_ T m) m0.
Proof.
  intros Ec. unfold memccpy. rewrite Ec.
  apply wp_bind, (wp_mono _ (fun '(d', s', n', tail) m => exists k, (d', s', n') = (d + k, s + k, n - k) /\ passed k m /\
    (tail = true -> k = f /\ at_ T m))).
  - rewrite !land_3. destruct (Z.eqb_spec (s mod 4) (d mod 4)) as [E|E].
    2:{ apply wp_ret. exists 0. split; [pair_eq|]. split; [apply passed_start|done]. }
    pose proof (copy_until_wp misaligned 0 m0 passed_start) as Hcu. rewrite !Z.add_0_r, Z.sub_0_r in Hcu.
    seq; [exact Hcu|]. intros ? m (k & -> & Hp & _ & Hend). cbn beta iota. destruct (misaligned (s + k)) eqn:Em.
    + apply wp_ret. exists k. split; [done|]. split; [done|]. intros _. pose proof Hp as [Hk _].
      assert (k = f) as Ek by (destruct Hend as [?|[?|(? & _)]]; [done|lia|lia]). split; [done|].
      destruct Hend as [?|[En|(_ & Hfn & Hat)]]; [done| |apply (at_eq (f + 1)); [done|unfold T; lia]].
      apply passed_end; [by rewrite <- Ek|lia].
    + rewrite misaligned_mod in Em. unfold ctrue in Em. apply negb_false_iff, Z.eqb_eq in Em.
      seq; [apply copy_words_until_wp; [|done|done|divlia]|].
      { intros m' a Hm'. by apply HASZERO_xor. }
      intros ? m' (k' & -> & Hp'). apply wp_ret. by exists k'.
  - intros [[[d' s'] n'] tail] m (k & [= -> -> ->] & Hp & Ht).
    apply wp_bind, (wp_mono _ (fun r m' => r = (d + f, s + f, n - f) /\ at_ T m')).
    + destruct tail; [|by apply copy_rest_wp]. destruct (Ht eq_refl) as [-> Hat]. by apply wp_ret.
    + intros ? m' [-> Hat]. apply wp_ret. split; [|done]. unfold ctrue. destruct (Z.eqb_spec (n - f) 0), (Z.ltb_spec f n); cbn [negb]; done || lia.
Qed.

(** The byte loop up to an aligned place: it ends there, or at the terminator. *)
Lemma align_text_wp : c = 0 -> s mod 4 = d mod 4 ->
  wp (copy_until misaligned 0 d s n) (fun r m => exists k, r = (d + k, s + k, n - k) /\ passed k m /\
    (k < f -> (s + k) mod 4 = 0 /\ (d + k) mod 4 = 0)) m0.
Proof.
  intros Ec E. pose proof (copy_until_wp misaligned 0 m0 passed_start) as Hcu. rewrite !Z.add_0_r, Z.sub_0_r, Ec in Hcu.
  eapply wp_mono; [exact Hcu|]. intros ? m (k & -> & Hp & _ & Hend). exists k. split; [done|]. split; [done|]. intros Hk.
  destruct Hend as [Em|[?|(? & _)]]; [|lia|lia]. rewrite misaligned_mod in Em. unfold ctrue in Em.
  apply negb_false_iff, Z.eqb_eq in Em. split; [done|divlia].
Qed.

Lemma peek k m : c = 0 -> passed k m -> k < n -> exists x, load8 (s + k) m = Ok (x, m) /\ (x =? 0) = (k =? f).
Proof.
  intros Ec Hp Hkn. pose proof Hp as [Hk _]. destruct (passed_at k m Hp) as (k' & Hat & Hk'). pose proof Hat as [HkT [Hz _]].
  assert (k < T) by (unfold T; lia). exists (byte m0 (s + k)). unfold load8. rewrite (intact k') by (done || lia).
  decide_cmp. split; [done|]. apply Bool.eq_true_iff_eq. rewrite !Z.eqb_eq. split.
  - intros Eb. destruct (Z.eq_dec k f); [done|]. destruct (Hmiss k); [lia|]. congruence.
  - intros Ekf. rewrite Ekf, Hhit; [done|lia].
Qed.

Lemma words_text_wp k m : c = 0 -> passed k m -> (s + k) mod 4 = 0 -> (d + k) mod 4 = 0 ->
  wp (copy_words_until HASZERO (d + k) (s + k) (n - k)) (fun r m' => exists k', r = (d + k', s + k', n - k') /\ passed k' m') m.
Proof. intros Ec Hp Hsa Hda. apply copy_words_until_wp; [|done..]. intros m' a Hm'. rewrite Ec. by apply HASZERO_word. Qed.

(** The bytes before the terminator, then [z] zero bytes. *)
Definition text_then (z : Z) (m : memory) : Prop :=
  zlen m = zlen m0 /\ forall x, 0 <= x -> byte m x =
    if (d <=? x) && (x <? d + f) then byte m0 (x - d + s) else if (d + f <=? x) && (x <? d + f + z) then 0 else byte m0 x.

Lemma passed_bytes k m x : passed k m -> 0 <= x -> x < d + k \/ d + k < x \/ d + f < x -> 
  byte m x = if (d <=? x) && (x <? d + k) then byte m0 (x - d + s) else byte m0 x.
Proof.
  intros [Hk Hp] Hx Hr. assert (exists k', at_ k' m /\ k <= k' <= k + 1) as (k' & [_ [_ Hb]] & Hk').
  { destruct Hp as [Hp|(-> & ? & Hp)]; [exists k|exists (f + 1)]; split; done || lia. }
  rewrite Hb by done. destruct (Z.leb_spec d x), (Z.ltb_spec x (d + k)), (Z.ltb_spec x (d + k')); cbn [andb]; done || lia.
Qed.

Lemma passed_wf k m : passed k m -> wf_memory m /\ zlen m = zlen m0.
Proof. intros Hp. destruct (passed_at k m Hp) as (k' & Hat & _). split; [by eapply at_wf|apply Hat]. Qed.

(** A character passed means that the terminator has been found. *)
Lemma stpncpy_wp bulk : c = 0 -> n < 2 ^ 32 -> d + n <= zlen m0 -> wp (__stpncpy bulk d s n) (fun r m => r = d + f /\ text_then (n - f) m) m0.
Proof.
  intros Ec Hn32 Hdn. unfold __stpncpy.
  apply wp_bind, (wp_mono _ (fun '(d', s', n', stop) m1 => exists k, (d', s', n') = (d + k, s + k, n - k) /\ passed k m1 /\ (stop = true -> k = f))).
  - rewrite !land_3. destruct (Z.eqb_spec (s mod 4) (d mod 4)) as [E|E].
    2:{ apply wp_ret. exists 0. split; [pair_eq|]. split; [by apply passed_start|done]. }
    seq; [by apply align_text_wp|]. intros ? m1 (k & -> & Hp & Hal). cbn beta iota. pose proof Hp as [Hk _].
    apply wp_bind. destruct (Z.eqb_spec (n - k) 0).
    { apply wp_ret. apply wp_ret. exists k. split; [done|]. split; [done|lia]. }
    destruct (peek k m1 Ec Hp ltac:(lia)) as (x & Ex & Exf).
    apply wp_bind. exists x, m1. split; [done|]. apply wp_ret. rewrite Exf. destruct (Z.eqb_spec k f).
    + apply wp_ret. exists k. split_and!; done.
    + seq; [apply words_text_wp; done || (apply Hal; lia)|]. intros ? m2 (k' & -> & Hp'). apply wp_ret. exists k'. split; [done|]. by split.
  - intros [[[d' s'] n'] stop] m1 (k & [= -> -> ->] & Hp & Hst).
    apply wp_bind, (wp_mono _ (fun r m' => r = (d + f, s + f, n - f) /\ passed f m')).
    + destruct stop; [rewrite (Hst eq_refl) in *; by apply wp_ret|].
      eapply wp_mono; [rewrite <- Ec; by apply copy_rest_wp|]. intros ? m2 [-> Hat]. split; [done|]. split; [lia|].
      destruct (Z.eq_dec f n); [left|right]; [|split; [done|]; split; [lia|]]; (eapply at_eq; [exact Hat|unfold T; lia]).
    + intros ? m2 [-> Hp2]. cbn beta iota. destruct (passed_wf f m2 Hp2) as [Hwf Hz].
      apply wp_bind. eexists _, _. split; [apply memset_ok; done || lia|]. apply wp_ret. split; [done|].
      assert (zlen (replicate (Z.to_nat (n - f)) (u8 0)) = n - f) as Er by (unfold zlen; rewrite length_replicate; lia).
      split; [rewrite zlen_blit by lia; done|]. intros x Hx. rewrite byte_blit, Er by lia.
      destruct (Z.leb_spec (d + f) x), (Z.ltb_spec x (d + f + (n - f))); cbn [andb].
      * rewrite (proj2 (Z.ltb_ge x (d + f))), andb_false_r by lia. apply nth_lookup_Some, lookup_replicate. split; [done|lia].
      * rewrite (proj2 (Z.ltb_ge x (d + f))), andb_false_r by lia.
        destruct (Z.eq_dec x (d + f)) as [Exf|].
        -- assert (f = n) as Efn by lia. destruct Hp2 as [_ [Hp2|(_ & ? & _)]]; [|lia]. destruct Hp2 as [_ [_ Hb2]].
           rewrite Hb2 by done. by rewrite (proj2 (Z.ltb_ge x (d + f))), andb_false_r by lia.
        -- rewrite (passed_bytes f m2) by (done || lia). by rewrite (proj2 (Z.ltb_ge x (d + f))), andb_false_r by lia.
      * rewrite (passed_bytes f m2) by (done || lia). done.
      * rewrite (passed_bytes f m2) by (done || lia). done.
Qed.

(** [strlcpy] with room for [n] characters and the terminator. *)
Lemma strlcpy_wp l : c = 0 -> cstr m0 s l -> f = Z.min n (zlen l) -> d + n < zlen m0 -> d + n < s \/ s + zlen l < d ->
  wp (strlcpy d s (n + 1)) (fun r m => r = zlen l /\ text_then 1 m) m0.
Proof.
  intros Ec Hl Ef Hdn Hap. pose proof (zlen_nonneg l). unfold strlcpy. rewrite (proj2 (Z.eqb_neq (n + 1) 0)) by lia.
  replace (n + 1 - 1) with n by lia. apply wp_bind, (wp_mono _ (fun r m1 => exists k, r = (d + k, s + k, n - k) /\ passed k m1)).
  - rewrite !land_3. destruct (Z.eqb_spec (s mod 4) (d mod 4)) as [E|E].
    2:{ apply wp_ret. exists 0. split; [pair_eq|by apply passed_start]. }
    seq; [by apply align_text_wp|]. intros ? m1 (k & -> & Hp & Hal). cbn beta iota. pose proof Hp as [Hk _]. unfold ctrue at 1.
    apply wp_bind. destruct (Z.eqb_spec (n - k) 0); cbn [negb].
    { apply wp_ret. apply wp_ret. by exists k. }
    destruct (peek k m1 Ec Hp ltac:(lia)) as (x & Ex & Exf). apply wp_bind. exists x, m1. split; [done|]. apply wp_ret.
    unfold ctrue. rewrite Exf. destruct (Z.eqb_spec k f); cbn [negb]; [apply wp_ret; by exists k|].
    apply words_text_wp; done || (apply Hal; lia).
  - intros ? m1 (k & -> & Hp). cbn beta iota. seq; [rewrite <- Ec; by apply copy_rest_wp|]. intros ? m2 [-> Hat]. cbn beta iota.
    pose proof Hat as [_ [Hz Hb]]. apply wp_bind, wp_store8; [lia|]. set (m3 := <[Z.to_nat (d + f) := u8 0]> m2).
    assert (text_then 1 m3) as Ht.
    { split; [unfold m3; by rewrite zlen_insert|]. intros x Hx. unfold m3. rewrite byte_store, Hb by lia. change (u8 0) with 0.
      pose proof T_end as ET. destruct (Z.eqb_spec x (d + f)).
      - rewrite (proj2 (Z.ltb_ge x (d + f))), andb_false_r by lia. decide_cmp. done.
      - destruct (Z.leb_spec d x), (Z.ltb_spec x (d + f)), (Z.leb_spec (d + f) x), (Z.ltb_spec x (d + f + 1)), (Z.ltb_spec x (d + T));
          cbn [andb]; try done; try lia; destruct (Z.ltb_spec f n); lia. }
    assert (wf_memory m3) as Hm3 by (apply wf_store; [by eapply at_wf|change (u8 0) with 0; lia]).
    assert (cstr m3 (s + f) (drop (Z.to_nat f) l)) as Hr.
    { apply cstr_drop; [|lia]. destruct Ht as [Hz3 Hb3]. apply (cstr_frame m0); [done..|]. intros x Hx. rewrite Hb3 by lia.
      destruct (Z.leb_spec d x), (Z.ltb_spec x (d + f)), (Z.leb_spec (d + f) x), (Z.ltb_spec x (d + f + 1)); cbn [andb]; done || lia. }
    eapply gives_bind; [by apply strlen_gives|]. apply wp_ret. rewrite zlen_drop by lia. split; [lia|done].
Qed.

(** [__stpcpy]: the count is the length of the text and its terminator. *)
Lemma at_size k m : at_ k m -> zlen m = zlen m0.
Proof. by intros [_ [? _]]. Qed.

Lemma copy_string_wp k m : c = 0 -> n = f + 1 -> passed k m -> wp (copy_string (d + k) (s + k)) (fun r m' => r = d + f /\ at_ T m') m.
Proof.
  intros Ec En Hp. unfold copy_string. apply wp_bind. exists (S (length m)), m. split; [done|].
  destruct (passed_wf k m Hp) as [_ Hz]. pose proof Hp as [Hk _].
  apply wp_bind. eapply (wp_while (fun r m' => exists k', r = (d + k', s + k') /\ passed k' m') (fun '(d', _) => d + f - d')).
  - intros [d' s'] m' (k' & [= -> ->] & Hp'). pose proof Hp' as [Hk' _].
    assert (forall x, negb (x =? c) = ctrue x) as Ex by (intros; by rewrite Ec).
    eapply wp_mono; [|intros b m1 H; exact H].
    pose proof (put_wp k' m' Hp' ltac:(lia)) as (b & m1 & E & Hb & H1 & H2). exists b, m1. split.
    { rewrite <- E. unfold sbind. destruct (load8 (s + k') m') as [[x m2]| | |]; [|done..]. cbn [obind fst snd].
      destruct (store8 (d + k') x m2) as [[[] m3]| | |]; [|done..]. cbn [obind fst snd]. by rewrite Ex. }
    rewrite Hb. destruct (Z.eqb_spec f k') as [E'|E']; cbn [negb].
    + apply wp_ret. split; [lia|]. apply (at_eq (f + 1)); [apply H2; lia|unfold T; lia].
    + apply wp_ret. split; [|lia]. exists (k' + 1). split; [pair_eq|apply H1; lia].
  - by exists k.
  - unfold zlen in *. lia.
  - lia.
Qed.

Lemma stpcpy_wp : c = 0 -> n = f + 1 -> wp (__stpcpy d s) (fun r m => r = d + f /\ at_ T m) m0.
Proof.
  intros Ec En. unfold __stpcpy. apply wp_bind. exists (S (length m0)), m0. split; [done|].
  apply wp_bind, (wp_mono _ (fun '(d', s', out) m => exists k, (d', s') = (d + k, s + k) /\ passed k m /\ (out = true -> k = f /\ at_ T m))).
  2:{ intros [[d' s'] out] m (k & [= -> ->] & Hp & Ho). destruct out; [destruct (Ho eq_refl) as [-> ?]; by apply wp_ret|].
      by apply copy_string_wp. }
  destruct (Z.eqb_spec (s mod 4) (d mod 4)) as [E|E].
  2:{ apply wp_ret. exists 0. split; [pair_eq|]. split; [apply passed_start|done]. }
  apply wp_bind. eapply (wp_while (fun '(d', s', out) m => exists k, (d', s') = (d + k, s + k) /\ passed k m /\ (out = true -> k = f /\ at_ T m))
    (fun '(d', _, out) => if out : bool then 0 else d + f - d' + 1)).
  - intros [[d' s'] out] m (k & [= -> ->] & Hp & Ho). pose proof Hp as [Hk _]. apply wp_ret. destruct out; cbn [negb andb].
    { apply wp_ret. by exists k. }
    unfold ctrue. destruct (Z.eqb_spec ((s + k) mod 4) 0) as [Ea|Ea]; cbn [negb].
    + apply wp_bind. eapply (wp_while (fun r m => exists k, r = (d + k, s + k) /\ passed k m /\ (s + k) mod 4 = 0) (fun '(d', _) => d + f - d')).
      * intros [d' s'] m' (k' & [= -> ->] & Hp' & Hsa). pose proof Hp' as [Hk' _].
        destruct (passed_at k' m' Hp') as (k1 & Hat & Hk1). pose proof Hat as [Hk1T [Hz _]].
        assert (k' < T) by (unfold T; lia). pose proof (at_wf k1 m' Hat) as Hm'.
        pose proof (word_bound m' Hm' (s + k') ltac:(lia) Hsa). apply wp_bind, wp_load32; [lia..|done|]. apply wp_ret.
        rewrite HASZERO_word by done. rewrite <- Ec. rewrite (any4_found k1 k') by (done || lia).
        destruct (Z.ltb_spec f (k' + 4)); cbn [negb]; [apply wp_ret; exists k'; split; [done|]; by split|].
        destruct Hp' as [_ [Hp'|(Ek' & _)]]; [|lia].
        seq; [apply (copied_word m0 d s T Hm); try done; lia || divlia|]. intros [] m2 Hat2. apply wp_ret. split; [|lia].
        exists (k' + 4). split; [pair_eq|]. split; [split; [lia|by left]|divlia].
      * exists k. by split_and!.
      * unfold zlen in *. lia.
      * lia.
    + pose proof (put_wp k m Hp ltac:(lia)) as (b & m1 & Eb & Hb & H1 & H2). unfold sbind in Eb.
      destruct (load8 (s + k) m) as [[x m2]| | |] eqn:El; [|done..]. cbn [obind fst snd] in Eb.
      destruct (store8 (d + k) x m2) as [[[] m3]| | |] eqn:Es; [|done..]. cbn [obind fst snd] in Eb. injection Eb as <- <-.
      apply wp_bind. exists x, m2. split; [done|]. apply wp_bind. exists tt, m3. split; [done|]. apply wp_ret.
      rewrite Ec in Hb. destruct (Z.eqb_spec x 0), (Z.eqb_spec f k); try done.
      * split; [|lia]. exists k. split; [done|]. specialize (H2 ltac:(lia)). split; [split; [lia|right; split; [lia|]; split; [lia|done]]|].
        intros _. split; [lia|]. apply (at_eq (f + 1)); [done|unfold T; lia].
      * split; [|lia]. exists (k + 1). split; [pair_eq|]. split; [apply H1; lia|done].
  - exists 0. split; [pair_eq|]. split; [apply passed_start|done].
  - assert (f + 1 <= zlen m0) by (unfold T in *; lia). unfold zlen in *. lia.
  - lia.
Qed.
End Until.

(** * The functions *)

(** What is found of a string within [n] characters. *)
Section Text.
Context (m : memory) (d s n : Z) (l : list Z).
Context (Hm : wf_memory m) (Hl : cstr m s l) (Hn : 0 <= n).

(** The terminator as the character to stop at. *)
Lemma text_first : let f := Z.min n (zlen l) in
  0 <= f <= n /\ (forall j, 0 <= j < f -> byte m (s + j) <> 0) /\ (f < n -> byte m (s + f) = 0).
Proof.
  pose proof (zlen_nonneg l). destruct Hl as (Hs & Hb & Hf & Hc). intros f. unfold f. split; [lia|]. split.
  - intros j Hj. rewrite Hc by lia. pose proof (text_char l j Hf ltac:(lia)). lia.
  - intros Hlt. rewrite Z.min_r in * by lia. rewrite Hc by lia. by apply schar_end.
Qed.

(** The stored bytes, as a list. *)
Lemma text_bytes k : 0 <= k <= zlen l -> bytes_at m s k = take (Z.to_nat k) l.
Proof.
  intros Hk. pose proof (cstr_bytes m s l Hl) as E. unfold bytes_at in *. replace (Z.to_nat k) with (Nat.min (Z.to_nat k) (Z.to_nat (zlen l + 1))) by lia.
  rewrite <- take_take, E. unfold zlen in *. rewrite take_app_le by lia. f_equal. lia.
Qed.
End Text.


(** A text and zero bytes, as a list. *)
Lemma text_then_blit m d s l f z m' : cstr m s l -> 0 <= f <= zlen l -> 0 <= d -> 0 <= z -> d + f + z <= zlen m ->
  text_then m d s f z m' -> m' = blit m d (take (Z.to_nat f) l ++ replicate (Z.to_nat z) 0).
Proof.
  intros Hl Hf Hd Hz Hb [Ez Hby]. assert (zlen (take (Z.to_nat f) l ++ replicate (Z.to_nat z) 0) = f + z) as El.
  { rewrite zlen_app, zlen_take by lia. unfold zlen at 1. rewrite length_replicate. lia. }
  apply filled_blit; rewrite ?El; [lia..|]. split; [done|]. intros x Hx. rewrite Hby by done.
  destruct (Z.leb_spec d x); cbn [andb]; [|by rewrite (proj2 (Z.leb_gt (d + f) x)) by lia].
  destruct (Z.ltb_spec x (d + f)).
  - rewrite (proj2 (Z.ltb_lt x (d + (f + z)))) by lia. replace (x - d + s) with (s + (x - d)) by lia.
    rewrite (cstr_byte m s l Hl) by lia. unfold schar. rewrite app_nth1 by (rewrite length_take; unfold zlen in *; lia).
    by rewrite !nth_lookup, lookup_take_lt by lia.
  - rewrite (proj2 (Z.leb_le (d + f) x)) by lia. cbn [andb]. rewrite Z.add_assoc. destruct (Z.ltb_spec x (d + f + z)); [|done].
    symmetry. rewrite app_nth2 by (rewrite length_take; unfold zlen in *; lia). apply nth_lookup_Some, lookup_replicate.
    split; [done|]. rewrite length_take. unfold zlen in *. lia.
Qed.

Section Functions.
Context (m : memory) (s : Z) (l : list Z) (Hm : wf_memory m) (Hl : cstr m s l).

Lemma stpcpy_ok d : 0 <= d -> d + zlen l < zlen m -> d + zlen l < s \/ s + zlen l < d ->
  __stpcpy d s m = Ok (d + zlen l, blit m d (l ++ [0])).
Proof.
  intros Hd Hdl Hap. pose proof Hl as (Hs & Hb & _). pose proof (zlen_nonneg l).
  destruct (text_first m s (zlen l + 1) l Hl ltac:(lia)) as (Hf & Hmiss & Hhit). rewrite Z.min_r in * by lia.
  destruct (stpcpy_wp m d s (zlen l + 1) 0 (zlen l)) as (r & m' & E & -> & _ & Hc); try done; try lia.
  rewrite E. rewrite Z.min_l in Hc by lia. apply copied_blit in Hc; [|lia..]. by rewrite Hc, cstr_bytes.
Qed.

Lemma strcpy_ok d : 0 <= d -> d + zlen l < zlen m -> d + zlen l < s \/ s + zlen l < d -> strcpy d s m = Ok (d, blit m d (l ++ [0])).
Proof. intros. unfold strcpy. by rewrite (sbind_Ok _ _ _ _ _ (stpcpy_ok d ltac:(lia) ltac:(lia) ltac:(lia))). Qed.

Lemma stpncpy_ok bulk d n : 0 <= n < 2 ^ 32 -> 0 <= d -> d + n <= zlen m -> d + n <= s \/ s + zlen l < d ->
  let k := Z.min n (zlen l) in
  __stpncpy bulk d s n m = Ok (d + k, blit m d (take (Z.to_nat k) l ++ replicate (Z.to_nat (n - k)) 0)).
Proof.
  intros Hn Hd Hdl Hap k. pose proof Hl as (Hs & Hb & _). pose proof (zlen_nonneg l).
  destruct (text_first m s n l Hl ltac:(lia)) as (Hf & Hmiss & Hhit).
  destruct (stpncpy_wp m d s n 0 k) with (bulk := bulk) as (r & m' & E & -> & Ht); try done; try (unfold k; lia).
  rewrite E. by rewrite (text_then_blit m d s l k (n - k) m') by (done || (unfold k; lia)).
Qed.

Lemma strlcpy_ok d n : 0 < n < 2 ^ 32 -> 0 <= d -> d + n <= zlen m -> d + n <= s \/ s + zlen l < d ->
  strlcpy d s n m = Ok (zlen l, blit m d (take (Z.to_nat (Z.min (n - 1) (zlen l))) l ++ [0])).
Proof.
  intros Hn Hd Hdl Hap. set (k := Z.min (n - 1) (zlen l)). pose proof Hl as (Hs & Hb & _). pose proof (zlen_nonneg l).
  destruct (text_first m s (n - 1) l Hl ltac:(lia)) as (Hf & Hmiss & Hhit).
  destruct (strlcpy_wp m d s (n - 1) 0 k) with (l := l) as (r & m' & E & -> & Ht); try done; try (unfold k; lia).
  replace (n - 1 + 1) with n in E by lia. rewrite E. by rewrite (text_then_blit m d s l k 1 m') by (done || (unfold k; lia)).
Qed.

Lemma strlcpy_size d n : 0 <= n < 2 ^ 32 -> 0 <= d -> d + n <= zlen m -> d + n <= s \/ s + zlen l < d ->
  strlcpy d s n m = Ok (zlen l, if n =? 0 then m else blit m d (take (Z.to_nat (Z.min (n - 1) (zlen l))) l ++ [0])).
Proof.
  intros Hn Hd Hdl Hap. destruct (Z.eqb_spec n 0) as [-> |Hne]; [|apply strlcpy_ok; lia].
  unfold strlcpy. rewrite Z.eqb_refl, (sbind_Ok _ _ _ _ _ (proj1 (gives_ok _ _ _) (strlen_gives m s l Hm Hl))).
  cbn [sret]. unfold sret. do 2 f_equal. lia.
Qed.

Lemma strlcat_ok d t n : cstr m d t -> 0 < d -> 0 <= n < 2 ^ 32 -> d + n <= zlen m -> d + n <= s \/ s + zlen l < d ->
  strlcat d s n m = Ok (if zlen t <? n then (zlen t + zlen l, blit m (d + zlen t) (take (Z.to_nat (Z.min (n - zlen t - 1) (zlen l))) l ++ [0]))
                        else (n + zlen l, m)).
Proof.
  intros Ht Hd Hn Hdl Hap. pose proof (zlen_nonneg t). unfold strlcat.
  rewrite (sbind_Ok _ _ _ _ _ (proj1 (gives_ok _ _ _) (strnlen_gives m d t n Hm Ht ltac:(lia) ltac:(lia)))).
  destruct (Z.ltb_spec (zlen t) n).
  - rewrite Z.min_r, (proj2 (Z.eqb_neq _ _)) by lia. by rewrite (sbind_Ok _ _ _ _ _ (strlcpy_ok (d + zlen t) (n - zlen t) ltac:(lia) ltac:(lia) ltac:(lia) ltac:(lia))).
  - rewrite Z.min_l, Z.eqb_refl by lia. by rewrite (sbind_Ok _ _ _ _ _ (proj1 (gives_ok _ _ _) (strlen_gives m s l Hm Hl))).
Qed.

(** The loop of [strncat] stops at the end of the text or of the count. *)
Lemma strncat_loop_wp d n : let k := Z.min n (zlen l) in 0 <= n -> 0 <= d -> d + k <= zlen m -> d + k <= s \/ s + zlen l < d ->
  wp (while (count n) (fun '(d, s, n) => if ctrue n then let* x := load8 s in sret (ctrue x) else sret false)
    (fun '(d, s, n) => do* copy_byte d s in sret (d + 1, s + 1, n - 1)) (d, s, n))
    (fun r m' => r = (d + k, s + k, n - k) /\ at_ m d s k k m') m.
Proof.
  intros k Hn Hd Hdl Hap. pose proof Hl as (Hs & Hb & Hf & _). pose proof (zlen_nonneg l).
  eapply (wp_while (fun r m' => exists j, r = (d + j, s + j, n - j) /\ at_ m d s k j m') (fun '(_, _, n') => n')).
  - intros [[d' s'] n'] m' (j & [= -> -> ->] & Hat). pose proof Hat as [Hj [Hz Hby]]. unfold ctrue at 1.
    destruct (Z.eqb_spec (n - j) 0); cbn [negb]; [apply wp_ret; by assert (j = k) as -> by (unfold k; lia)|].
    assert (byte m' (s + j) = schar l j) as E.
    { rewrite Hby by lia. rewrite <- (cstr_byte m s l Hl) by (unfold k in *; lia). repeat case_cmp; cbn [andb]; done || (unfold k in *; lia). }
    apply wp_bind, wp_load8; [unfold k in *; lia|]. apply wp_ret. rewrite E. destruct (Z.eq_dec j (zlen l)) as [Ej|Ej].
    + rewrite schar_end by lia. split; [|by replace j with k in * by (unfold k in *; lia)]. replace k with j by (unfold k in *; lia). done.
    + pose proof (text_char l j Hf ltac:(unfold k in *; lia)). unfold ctrue. rewrite (proj2 (Z.eqb_neq _ 0)) by lia. cbn [negb].
      seq; [apply (at_byte m d s k); done || (unfold k in *; lia)|]. intros [] m2 Hat2. apply wp_ret. split; [|lia]. exists (j + 1). split; [pair_eq|done].
  - exists 0. split; [pair_eq|]. apply at_start; unfold k; lia.
  - unfold count. lia.
  - done.
Qed.

Lemma strncat_ok d t n : let k := Z.min n (zlen l) in cstr m d t -> 0 <= n -> d + zlen t + k < zlen m ->
  d + zlen t + k < s \/ s + zlen l < d + zlen t -> strncat d s n m = Ok (d, blit m (d + zlen t) (take (Z.to_nat k) l ++ [0])).
Proof.
  intros k Ht Hn Hdl Hap. pose proof Ht as (Hd & _). pose proof (zlen_nonneg t). pose proof (zlen_nonneg l). unfold strncat.
  rewrite (sbind_Ok _ _ _ _ _ (proj1 (gives_ok _ _ _) (strlen_gives m d t Hm Ht))).
  destruct (strncat_loop_wp (d + zlen t) n ltac:(lia) ltac:(lia) ltac:(lia) ltac:(lia)) as (r & m1 & E & -> & [_ [Hz Hb]]). fold k in E, Hz, Hb.
  rewrite (sbind_Ok _ _ _ _ _ E). cbn beta iota.
  destruct (wp_store8 (d + zlen t + k) 0 m1 (fun _ m2 => text_then m (d + zlen t) s k 1 m2)) as ([] & m2 & E2 & Ht2); [unfold k in *; lia| |].
  - split; [by rewrite zlen_insert|]. intros x Hx. rewrite byte_store, Hb by (unfold k in *; lia). change (u8 0) with 0.
    repeat case_cmp; cbn [andb]; done || lia.
  - rewrite (sbind_Ok _ _ _ _ _ E2). by rewrite (text_then_blit m (d + zlen t) s l k 1 m2) by (done || (unfold k; lia)).
Qed.

Lemma memccpy_ok d c n : 0 <= n -> 0 <= d -> d + n <= zlen m -> s + n <= zlen m -> d + n <= s \/ s + n <= d ->
  exists f, 0 <= f <= n /\ (forall j, 0 <= j < f -> byte m (s + j) <> u8 c) /\ (f < n -> byte m (s + f) = u8 c) /\
    memccpy d s c n m = if f <? n then Ok (d + f + 1, blit m d (bytes_at m s (f + 1))) else Ok (NULL, blit m d (bytes_at m s n)).
Proof.
  intros Hn Hd Hdl Hsl Hap. pose proof (u8_range c) as Hc. unfold in_u in Hc. pose proof Hl as (Hs & _).
  destruct (memchr_gives m Hm s n (u8 c) Hs Hn Hc ltac:(lia)) as (f & Hf & Hmiss & Hhit & _).
  exists f. split; [done|]. split; [done|]. split; [done|].
  destruct (memccpy_wp m d s n (u8 c) f) with (c0 := c) as (r & m' & E & -> & _ & Hcp); try done; try lia.
  rewrite E. destruct (Z.ltb_spec f n); [rewrite Z.min_r in Hcp by lia|rewrite Z.min_l in Hcp by lia]; apply copied_blit in Hcp; try lia; by rewrite Hcp.
Qed.
End Functions.

(** C24: for a C string [l] and a destination apart from it, at any alignments:
    [stpcpy] and [strcpy] store the text and its terminator, [strcat] appends
    them to the text that is there, [stpncpy] and [strncpy] store at most [n]
    characters and fill up with zeros, [strlcpy] stores at most [n - 1]
    characters and a terminator, nothing for a size of 0, and returns the length of the source, [strlcat] and
    [strncat] append to the text that is there at most what the size or the
    count allows, and a terminator; nothing else changes. *)
Theorem string_copy_correct bulk m d s l t n : wf_memory m -> cstr m s l -> 0 <= d ->
  (d + zlen l < zlen m -> d + zlen l < s \/ s + zlen l < d ->
   __stpcpy d s m = Ok (d + zlen l, blit m d (l ++ [0])) /\ strcpy d s m = Ok (d, blit m d (l ++ [0]))) /\
  (cstr m d t -> d + zlen t + zlen l < zlen m -> d + zlen t + zlen l < s \/ s + zlen l < d + zlen t ->
   strcat d s m = Ok (d, blit m (d + zlen t) (l ++ [0]))) /\
  (0 <= n < 2 ^ 32 -> d + n <= zlen m -> d + n <= s \/ s + zlen l < d ->
   let k := Z.min n (zlen l) in
   let copy := blit m d (take (Z.to_nat k) l ++ replicate (Z.to_nat (n - k)) 0) in
   __stpncpy bulk d s n m = Ok (d + k, copy) /\ strncpy bulk d s n m = Ok (d, copy) /\
   strlcpy d s n m = Ok (zlen l, if n =? 0 then m else blit m d (take (Z.to_nat (Z.min (n - 1) (zlen l))) l ++ [0])) /\
   (cstr m d t -> 0 < d -> strlcat d s n m =
      Ok (if zlen t <? n then (zlen t + zlen l, blit m (d + zlen t) (take (Z.to_nat (Z.min (n - zlen t - 1) (zlen l))) l ++ [0]))
          else (n + zlen l, m)))) /\
  (cstr m d t -> 0 <= n -> let k := Z.min n (zlen l) in d + zlen t + k < zlen m -> d + zlen t + k < s \/ s + zlen l < d + zlen t ->
   strncat d s n m = Ok (d, blit m (d + zlen t) (take (Z.to_nat k) l ++ [0]))).
Proof.
  intros Hm Hl Hd. split; [|split; [|split]].
  - intros Hdl Hap. split; [by apply stpcpy_ok|by apply strcpy_ok].
  - intros Ht Hdl Hap. pose proof (zlen_nonneg t). unfold strcat.
    rewrite (sbind_Ok _ _ _ _ _ (proj1 (gives_ok _ _ _) (strlen_gives m d t Hm Ht))).
    by rewrite (sbind_Ok _ _ _ _ _ (strcpy_ok m s l Hm Hl (d + zlen t) ltac:(lia) ltac:(lia) ltac:(lia))).
  - intros Hn Hdl Hap k copy. pose proof (stpncpy_ok m s l Hm Hl bulk d n ltac:(lia) Hd Hdl Hap) as E. cbv zeta in E. fold k copy in E.
    split; [done|]. split; [unfold strncpy; by rewrite (sbind_Ok _ _ _ _ _ E)|].
    split; [by apply strlcpy_size|]. intros Ht Hd0. apply strlcat_ok; done || lia.
  - intros Ht Hn k Hdl Hap. by apply strncat_ok.
Qed.

(** "hello" at address 2 of a memory of 32 bytes, copied to address 17. *)
Lemma string_copy_correct_witness : let m := demo_memory ++ replicate 16 9 in
  strcpy 17 2 m = Ok (17, blit m 17 ([104; 101; 108; 108; 111] ++ [0])) /\
  strlcpy 17 2 4 m = Ok (5, blit m 17 ([104; 101; 108] ++ [0])) /\ strlcpy 17 2 0 m = Ok (5, m).
Proof.
  intros m. assert (wf_memory m) as Hm by (split; [repeat constructor; lia|reflexivity|vm_compute; discriminate]).
  assert (cstr m 2 [104; 101; 108; 108; 111]) as Hl by (apply cstr_check; reflexivity).
  destruct (string_copy_correct None m 17 2 [104; 101; 108; 108; 111] [] 4 Hm Hl ltac:(lia)) as (H1 & _ & H3 & _).
  destruct (string_copy_correct None m 17 2 [104; 101; 108; 108; 111] [] 0 Hm Hl ltac:(lia)) as (_ & _ & H0 & _). split; [|split].
  - apply H1; [reflexivity|]. right. reflexivity.
  - refine (proj1 (proj2 (proj2 (H3 _ _ _)))); [lia|vm_compute; discriminate|right; reflexivity].
  - refine (proj1 (proj2 (proj2 (H0 _ _ _)))); [lia|vm_compute; discriminate|right; reflexivity].
Defined.
