(* ===== verification/Twoway.v ===== *)
(** The combinatorics of the two-way search (string/memmem.c, strstr.c): the
    loop that finds the maximal suffix of the needle and its period, and why the
    shifts of the search skip no occurrence.

    The needle is [P 0 .. P (l - 1)].  A position stands for the suffix that
    starts there. *)

From S2P Require Import Prelude Memory.

(** * Suffixes *)

Section Suffixes.
Context (P : Z -> Z) (l : Z) (lt : Z -> Z -> Prop).

(** The suffix at [q] is smaller than the one at [r]: by a character, or as a prefix of it. *)
Definition mis (q r : Z) : Prop := exists t, 0 <= t /\ q + t < l /\ r + t < l /\
  (forall i, 0 <= i < t -> P (q + i) = P (r + i)) /\ lt (P (q + t)) (P (r + t)).
Definition pre (q r : Z) : Prop := r < q /\ forall i, 0 <= i -> q + i < l -> P (q + i) = P (r + i).
Definition smaller (q r : Z) : Prop := mis q r \/ pre q r.

(** All other suffixes are smaller. *)
Definition maxsuf (cp : Z) : Prop := 0 <= cp < l /\ forall q, 0 <= q < l -> q <> cp -> smaller q cp.

(** The suffix at [cp] has the period [p], and no smaller one. *)
Definition period_of (cp p : Z) : Prop := 0 < p <= l - cp /\
  (forall i, cp <= i -> i + p < l -> P i = P (i + p)) /\
  forall e, 0 < e < p -> exists i, cp <= i /\ i + e < l /\ P i <> P (i + e).

Context (lt_irrefl : forall a, ~ lt a a) (lt_trans : forall a b c, lt a b -> lt b c -> lt a c).

Lemma mis_trans q r s : mis q r -> mis r s -> mis q s.
Proof.
  intros (t & Ht & Hq & Hr & He & Hl) (t' & Ht' & Hr' & Hs & He' & Hl').
  exists (Z.min t t'). split; [lia|]. split; [lia|]. split; [lia|]. split.
  - intros i Hi. rewrite He, He' by lia. done.
  - destruct (Z.lt_trichotomy t t') as [Hlt|[<- |Hgt]].
    + rewrite Z.min_l by lia. by rewrite <- He' by lia.
    + rewrite Z.min_id. by apply lt_trans with (P (r + t)).
    + rewrite Z.min_r by lia. by rewrite He by lia.
Qed.

(** Two suffixes that agree on [t] characters compare as their rests do. *)
Lemma smaller_cancel q r t : 0 <= t -> (forall i, 0 <= i < t -> P (q + i) = P (r + i)) -> smaller q r -> smaller (q + t) (r + t).
Proof.
  intros Ht He [(t' & Ht' & Hq & Hr & He' & Hl)|[Hqr He']].
  - destruct (Z.lt_ge_cases t' t) as [Hlt|Hge].
    { rewrite He in Hl by lia. by apply lt_irrefl in Hl. }
    left. exists (t' - t). split; [lia|]. replace (q + t + (t' - t)) with (q + t') by lia. replace (r + t + (t' - t)) with (r + t') by lia.
    split; [done|]. split; [done|]. split; [|done]. intros i Hi. rewrite <- !Z.add_assoc. apply He'. lia.
  - right. split; [lia|]. intros i Hi Hl. rewrite <- !Z.add_assoc in *. apply He'; lia.
Qed.

Lemma smaller_asym q r : 0 <= q < l -> 0 <= r < l -> smaller q r -> ~ smaller r q.
Proof.
  intros Hq Hr [(t & Ht & Hqt & Hrt & He & Hl)|[Hqr He]] [(t' & Ht' & Hqt' & Hrt' & He' & Hl')|[Hqr' He']].
  - destruct (Z.lt_trichotomy t t') as [Hlt|[<- |Hgt]].
    + rewrite He' in Hl by lia. by apply lt_irrefl in Hl.
    + apply (lt_irrefl (P (q + t))). by apply lt_trans with (P (r + t)).
    + rewrite He in Hl' by lia. by apply lt_irrefl in Hl'.
  - rewrite He' in Hl by lia. by apply lt_irrefl in Hl.
  - rewrite He in Hl' by lia. by apply lt_irrefl in Hl'.
  - lia.
Qed.

(** ** The loop that finds it

    [I] is the candidate, [J] its competitor, of which [K] characters agree. *)

Record inv (I J K p : Z) : Prop := {
  inv_range : 0 <= I /\ 0 < p /\ 0 <= K < p /\ J + K <= l /\ I < J;
  inv_mult : exists m, J - I = m * p;
  inv_before : forall q, 0 <= q < I -> mis q I;
  inv_period : forall i, I <= i < J + K -> P i = P (I + (i - I) mod p);
  inv_root : forall e, 0 < e < p -> exists t, 0 <= t /\ e + t < p /\
    (forall i, 0 <= i < t -> P (I + e + i) = P (I + i)) /\ lt (P (I + e + t)) (P (I + t))
}.

Lemma mod_shift a m p : 0 <= a < p -> (m * p + a) mod p = a.
Proof. intros. rewrite Z.add_comm, Z.mod_add, Z.mod_small by lia. done. Qed.

(** The competitor agrees with the candidate so far. *)
Lemma inv_agree I J K p i : inv I J K p -> 0 <= i < K -> P (J + i) = P (I + i).
Proof.
  intros Hi Hik. destruct (inv_range _ _ _ _ Hi) as (? & ? & ? & ? & ?). destruct (inv_mult _ _ _ _ Hi) as [m Hm].
  rewrite (inv_period _ _ _ _ Hi) by lia. replace (J + i - I) with (m * p + i) by lia. by rewrite mod_shift by lia.
Qed.

Lemma inv_start : 0 < l -> inv 0 1 0 1.
Proof.
  intros Hl. split; try lia.
  - exists 1. lia.
  - intros i Hi. assert (i = 0) as -> by lia. done.
Qed.

Lemma inv_equal I J K p : inv I J K p -> J + K < l -> P (I + K) = P (J + K) ->
  if K + 1 =? p then inv I (J + p) 0 p else inv I J (K + 1) p.
Proof.
  intros Hi Hl E. destruct (inv_range _ _ _ _ Hi) as (? & ? & ? & ? & ?). destruct (inv_mult _ _ _ _ Hi) as [m Hm].
  assert (forall i, I <= i < J + K + 1 -> P i = P (I + (i - I) mod p)) as Hper.
  { intros i Hir. destruct (Z.eq_dec i (J + K)) as [-> |]; [|apply (inv_period _ _ _ _ Hi); lia].
    replace (J + K - I) with (m * p + K) by lia. by rewrite mod_shift by lia. }
  destruct (Z.eqb_spec (K + 1) p) as [Ep|Ep].
  - split; [lia|exists (m + 1); lia|apply (inv_before _ _ _ _ Hi)| |apply (inv_root _ _ _ _ Hi)].
    intros i Hir. apply Hper. lia.
  - split; [lia|by exists m|apply (inv_before _ _ _ _ Hi)| |apply (inv_root _ _ _ _ Hi)].
    intros i Hir. apply Hper. lia.
Qed.

(** The competitor is smaller: the candidate's period grows. *)
Lemma inv_less I J K p : inv I J K p -> J + K < l -> lt (P (J + K)) (P (I + K)) -> inv I (J + K + 1) 0 (J + K + 1 - I).
Proof.
  intros Hi Hl Hlt. destruct (inv_range _ _ _ _ Hi) as (? & ? & ? & ? & ?). destruct (inv_mult _ _ _ _ Hi) as [m Hm].
  split; [lia|exists 1; lia|apply (inv_before _ _ _ _ Hi)|..].
  - intros i Hir. rewrite Z.mod_small by lia. f_equal. lia.
  - intros e He. destruct (Z.lt_ge_cases (I + e) J) as [HJ|HJ].
    + pose proof (Z.div_mod e p ltac:(lia)) as Ediv. pose proof (Z.mod_pos_bound e p ltac:(lia)) as Hmod.
      set (c := e / p) in *. set (r := e mod p) in *. assert (0 <= c) by (apply Z.div_pos; lia).
      assert (forall i, 0 <= i -> I + e + i < J + K -> 0 <= r + i < p -> P (I + e + i) = P (I + r + i)) as Hsh.
      { intros i Hi0 Hil Hri. rewrite (inv_period _ _ _ _ Hi) by lia. replace (I + e + i - I) with (c * p + (r + i)) by lia.
        rewrite mod_shift by lia. f_equal. lia. }
      destruct (Z.eq_dec r 0) as [Er|Er].
      * exists (J + K - I - e). split; [lia|]. split; [lia|]. split.
        -- intros i Hir. rewrite (inv_period _ _ _ _ Hi (I + e + i)), (inv_period _ _ _ _ Hi (I + i)) by nia.
           do 2 f_equal. replace (I + e + i - I) with (I + i - I + c * p) by lia. by rewrite Z.mod_add by lia.
        -- replace (I + e + (J + K - I - e)) with (J + K) by lia.
           rewrite (inv_period _ _ _ _ Hi (I + (J + K - I - e))) by nia.
           replace (I + (J + K - I - e) - I) with ((m - c) * p + K) by lia. by rewrite mod_shift by lia.
      * destruct (inv_root _ _ _ _ Hi r ltac:(lia)) as (t & Ht & Hrt & Heq & Hl').
        assert (c * p + p <= m * p) as Hcm. { assert (c < m) by nia. nia. }
        exists t. split; [done|]. split; [lia|]. split; [intros i Hir; rewrite Hsh by lia; by apply Heq|].
        by rewrite Hsh by lia.
    + set (r := I + e - J). destruct (Z.eq_dec r 0) as [Er|Er].
      * exists K. split; [lia|]. split; [lia|]. replace (I + e) with J by lia. split; [|done].
        intros i Hik. by apply (inv_agree I J K p).
      * destruct (inv_root _ _ _ _ Hi r ltac:(lia)) as (t & Ht & Hrt & Heq & Hl').
        assert (forall i, 0 <= i -> r + i < K -> P (I + e + i) = P (I + r + i)) as Hsh.
        { intros i Hi0 Hri. replace (I + e + i) with (J + (r + i)) by lia. rewrite (inv_agree I J K p) by (done || lia). f_equal. lia. }
        destruct (Z.lt_ge_cases (r + t) K) as [Hlt'|Hge].
        -- exists t. split; [done|]. split; [lia|]. split; [intros i Hir; rewrite Hsh by lia; by apply Heq|]. by rewrite Hsh by lia.
        -- exists (K - r). split; [lia|]. split; [lia|]. split; [intros i Hir; rewrite Hsh by lia; apply Heq; lia|].
           replace (I + e + (K - r)) with (J + K) by lia.
           destruct (Z.eq_dec (r + t) K) as [Et|Et].
           ++ apply lt_trans with (P (I + K)); [done|]. replace (I + K) with (I + r + t) by lia. by replace (K - r) with t by lia.
           ++ rewrite <- Heq by lia. by replace (I + r + (K - r)) with (I + K) by lia.
Qed.

(** The competitor is greater: it becomes the candidate. *)
Lemma inv_greater I J K p : inv I J K p -> J + K < l -> lt (P (I + K)) (P (J + K)) -> inv J (J + 1) 0 1.
Proof.
  intros Hi Hl Hlt. destruct (inv_range _ _ _ _ Hi) as (? & ? & ? & ? & ?). destruct (inv_mult _ _ _ _ Hi) as [m Hm].
  assert (mis I J) as HIJ.
  { exists K. split; [lia|]. split; [lia|]. split; [lia|]. split; [|done]. intros i Hik. symmetry. by apply (inv_agree I J K p). }
  split; [lia|exists 1; lia| |intros i Hir; assert (i = J) as -> by lia; by rewrite Z.sub_diag, Z.add_0_r|lia].
  intros q Hq. destruct (Z.lt_trichotomy q I) as [HqI|[-> |HqI]]; [|done|].
  { apply mis_trans with I; [apply (inv_before _ _ _ _ Hi); lia|done]. }
  pose proof (Z.div_mod (q - I) p ltac:(lia)) as Ediv. pose proof (Z.mod_pos_bound (q - I) p ltac:(lia)) as Hmod.
  set (c := (q - I) / p) in *. set (r := (q - I) mod p) in *. assert (0 <= c) by (apply Z.div_pos; lia).
  assert (forall i, 0 <= i -> q + i < J + K -> 0 <= r + i < p -> P (q + i) = P (I + r + i)) as Hsh.
  { intros i Hi0 Hil Hri. rewrite (inv_period _ _ _ _ Hi) by lia. replace (q + i - I) with (c * p + (r + i)) by lia.
    rewrite mod_shift by lia. f_equal. lia. }
  destruct (Z.eq_dec r 0) as [Er|Er].
  - exists K. split; [lia|]. split; [lia|]. split; [lia|]. split.
    + intros i Hik. rewrite Hsh by lia. rewrite Er, Z.add_0_r. symmetry. by apply (inv_agree I J K p).
    + rewrite Hsh by lia. by rewrite Er, Z.add_0_r.
  - apply mis_trans with I; [|done]. destruct (inv_root _ _ _ _ Hi r ltac:(lia)) as (t & Ht & Hrt & Heq & Hl').
    assert (c * p + p <= m * p) as Hcm. { assert (c < m) by nia. nia. }
    exists t. split; [done|]. split; [lia|]. split; [lia|]. split; [intros i Hir; rewrite Hsh by lia; by apply Heq|]. by rewrite Hsh by lia.
Qed.

(** At the end the candidate is the maximal suffix, and [p] its period. *)
Lemma inv_end I J K p : inv I J K p -> J + K = l -> maxsuf I /\ period_of I p.
Proof.
  intros Hi Hl. destruct (inv_range _ _ _ _ Hi) as (? & ? & ? & ? & ?). destruct (inv_mult _ _ _ _ Hi) as [m Hm].
  assert (1 <= m) by nia. assert (p <= J - I) as HpJ by nia.
  split; [split; [lia|]|split; [lia|]; split].
  - intros q Hq Hne. destruct (Z.lt_ge_cases q I) as [HqI|HqI]; [left; apply (inv_before _ _ _ _ Hi); lia|].
    pose proof (Z.div_mod (q - I) p ltac:(lia)) as Ediv. pose proof (Z.mod_pos_bound (q - I) p ltac:(lia)) as Hmod.
    set (c := (q - I) / p) in *. set (r := (q - I) mod p) in *. assert (0 <= c) by (apply Z.div_pos; lia).
    assert (forall i, 0 <= i -> q + i < l -> 0 <= r + i < p -> P (q + i) = P (I + r + i)) as Hsh.
    { intros i Hi0 Hil Hri. rewrite (inv_period _ _ _ _ Hi) by lia. replace (q + i - I) with (c * p + (r + i)) by lia.
      rewrite mod_shift by lia. f_equal. lia. }
    destruct (Z.eq_dec r 0) as [Er|Er].
    + right. split; [lia|]. intros i Hi0 Hil. rewrite (inv_period _ _ _ _ Hi (q + i)), (inv_period _ _ _ _ Hi (I + i)) by lia.
      do 2 f_equal. replace (q + i - I) with (I + i - I + c * p) by lia. by rewrite Z.mod_add by lia.
    + destruct (inv_root _ _ _ _ Hi r ltac:(lia)) as (t & Ht & Hrt & Heq & Hl').
      destruct (Z.lt_ge_cases (q + t) l) as [Hqt|Hqt].
      * left. exists t. split; [done|]. split; [done|]. split; [lia|]. split; [intros i Hir; rewrite Hsh by lia; by apply Heq|]. by rewrite Hsh by lia.
      * right. split; [lia|]. intros i Hi0 Hil. rewrite Hsh by lia. apply Heq. lia.
  - intros i HiI Hil. rewrite (inv_period _ _ _ _ Hi i), (inv_period _ _ _ _ Hi (i + p)) by lia.
    do 2 f_equal. replace (i + p - I) with (i - I + 1 * p) by lia. by rewrite Z.mod_add by lia.
  - intros e He. destruct (inv_root _ _ _ _ Hi e He) as (t & Ht & Hrt & Heq & Hl'). exists (I + t). split; [lia|]. split; [lia|].
    replace (I + t + e) with (I + e + t) by lia. intros E. rewrite E in Hl'. by apply lt_irrefl in Hl'.
Qed.
End Suffixes.

(** * The search *)

(** Two opposite orders. *)
Section Search.
Context (P : Z -> Z) (l : Z) (lt gt : Z -> Z -> Prop).
Context (lt_irrefl : forall a, ~ lt a a) (lt_trans : forall a b c, lt a b -> lt b c -> lt a c).
Context (gt_irrefl : forall a, ~ gt a a) (gt_trans : forall a b c, gt a b -> gt b c -> gt a c).
Context (lt_gt : forall a b, lt a b -> gt a b -> False).

(** The later of the two maximal suffixes, [cp], and the other one. *)
Context (cp cp' p : Z) (Hmax : maxsuf P l lt cp) (Hmax' : maxsuf P l gt cp') (Hcp : cp' <= cp) (Hper : period_of P l cp p).

(** The text from the current place on. *)
Context (T : Z -> Z).
Definition occurs (j : Z) : Prop := forall i, 0 <= i < l -> T (j + i) = P i.

(** The needle would agree with itself, shifted by [j], where both match the text. *)
Lemma overlap j i : occurs j -> T i = P i -> j <= i < j + l -> P (i - j) = P i.
Proof. intros Ho Ht Hi. rewrite <- Ht. symmetry. replace i with (j + (i - j)) at 1 by lia. apply Ho. lia. Qed.

(** A mismatch at [k] in the right half: no occurrence up to [k - cp]. *)
Lemma right_shift k : cp <= k < l -> (forall i, cp <= i < k -> T i = P i) -> T k <> P k -> forall j, 0 <= j <= k - cp -> ~ occurs j.
Proof.
  intros Hk Hmatch Hmis j Hj Ho. destruct Hmax as [Hc Hmx], Hmax' as [Hc' Hmx'].
  assert (P (k - j) <> P k) as Hne.
  { intros E. apply Hmis. rewrite <- E. replace k with (j + (k - j)) at 1 by lia. apply Ho. lia. }
  assert (0 < j) by (destruct (Z.eq_dec j 0) as [-> |]; [by rewrite Z.sub_0_r in Hne|lia]).
  assert (forall i, cp <= i < k -> j <= i -> P (i - j) = P i) as Hov by (intros i Hi Hij; apply overlap; auto; lia).
  (* the suffix after [cp] is smaller *)
  assert (lt (P k) (P (k - j))) as Hlt.
  { destruct (Hmx (cp + j) ltac:(lia) ltac:(lia)) as [(t & Ht & H1 & H2 & He & Hl)|[_ He]].
    - destruct (Z.lt_trichotomy (cp + j + t) k) as [Hlt|[E|Hgt]].
      + rewrite <- (Hov (cp + j + t)) in Hl by lia. replace (cp + j + t - j) with (cp + t) in Hl by lia. by apply lt_irrefl in Hl.
      + rewrite E in Hl. by replace (cp + t) with (k - j) in Hl by lia.
      + specialize (He (k - cp - j) ltac:(lia)). replace (cp + j + (k - cp - j)) with k in He by lia.
        replace (cp + (k - cp - j)) with (k - j) in He by lia. congruence.
    - specialize (He (k - cp - j) ltac:(lia) ltac:(lia)). replace (cp + j + (k - cp - j)) with k in He by lia.
      replace (cp + (k - cp - j)) with (k - j) in He by lia. congruence. }
  destruct (Z.le_gt_cases j cp) as [Hjc|Hjc].
  - (* and so is the one before [cp] *)
    destruct (Hmx (cp - j) ltac:(lia) ltac:(lia)) as [(t & Ht & H1 & H2 & He & Hl)|[Hlt' _]]; [|lia].
    destruct (Z.lt_trichotomy (cp + t) k) as [Hlt'|[E|Hgt]].
    + rewrite <- (Hov (cp + t)) in Hl by lia. replace (cp + t - j) with (cp - j + t) in Hl by lia. by apply lt_irrefl in Hl.
    + rewrite E in Hl. replace (cp - j + t) with (k - j) in Hl by lia. apply (lt_irrefl (P k)). by apply lt_trans with (P (k - j)).
    + specialize (He (k - cp) ltac:(lia)). replace (cp - j + (k - cp)) with (k - j) in He by lia.
      replace (cp + (k - cp)) with k in He by lia. congruence.
  - (* the other maximal suffix says the opposite *)
    destruct (Hmx' (cp' + j) ltac:(lia) ltac:(lia)) as [(t & Ht & H1 & H2 & He & Hl)|[_ He]].
    + destruct (Z.lt_trichotomy (cp' + j + t) k) as [Hlt'|[E|Hgt]].
      * rewrite <- (Hov (cp' + j + t)) in Hl by lia. replace (cp' + j + t - j) with (cp' + t) in Hl by lia. by apply gt_irrefl in Hl.
      * rewrite E in Hl. replace (cp' + t) with (k - j) in Hl by lia. by apply (lt_gt (P k) (P (k - j))).
      * specialize (He (k - cp' - j) ltac:(lia)). replace (cp' + j + (k - cp' - j)) with k in He by lia.
        replace (cp' + (k - cp' - j)) with (k - j) in He by lia. congruence.
    + specialize (He (k - cp' - j) ltac:(lia) ltac:(lia)). replace (cp' + j + (k - cp' - j)) with k in He by lia.
      replace (cp' + (k - cp' - j)) with (k - j) in He by lia. congruence.
Qed.

(** The needle has the period [j]. *)
Definition has_period (j : Z) : Prop := forall i, 0 <= i -> i + j < l -> P i = P (i + j).

Section RightMatch.
Context (Hright : forall i, cp <= i < l -> T i = P i).

(** An occurrence where the right half matches here is further than the left half is long,
    and its distance is a period. *)
Lemma match_far j : occurs j -> 0 < j < l -> cp < j /\ has_period j.
Proof.
  intros Ho Hj. destruct Hmax as [Hc Hmx].
  assert (forall i, cp <= i < l -> j <= i -> P (i - j) = P i) as Hov by (intros i Hi Hij; apply overlap; auto; lia).
  assert (cp < j) as Hcj.
  { destruct (Z.lt_ge_cases cp j); [done|]. exfalso.
    destruct (Hmx (cp - j) ltac:(lia) ltac:(lia)) as [(t & Ht & H1 & H2 & He & Hl)|[Hlt' _]]; [|lia].
    rewrite <- (Hov (cp + t)) in Hl by lia. replace (cp + t - j) with (cp - j + t) in Hl by lia. by apply lt_irrefl in Hl. }
  split; [done|]. intros i Hi Hij. replace i with (i + j - j) at 1 by lia. apply Hov; lia.
Qed.

Lemma period_at_least j : has_period j -> 0 < j -> j < p -> False.
Proof.
  intros Hj H0 Hlt. destruct Hper as (Hp & _ & Hmin). destruct (Hmin j ltac:(lia)) as (i & Hi & Hil & Hne).
  apply Hne, Hj; [destruct Hmax; lia|done].
Qed.
End RightMatch.

(** A period of the needle is longer than the left half. *)
Lemma period_long j : has_period j -> 0 < j < l -> cp < j.
Proof.
  intros Hj H0. destruct Hmax as [Hc Hmx]. destruct (Z.lt_ge_cases cp j); [done|]. exfalso.
  destruct (Hmx (cp - j) ltac:(lia) ltac:(lia)) as [(t & Ht & H1 & H2 & He & Hl)|[Hlt' _]]; [|lia].
  rewrite (Hj (cp - j + t)) in Hl by lia. replace (cp - j + t + j) with (cp + t) in Hl by lia. by apply lt_irrefl in Hl.
Qed.

(** A period of the needle up to the length of the right half makes [p] a period. *)
Lemma small_period j : has_period j -> 0 < j <= l - cp -> j < l -> has_period p.
Proof.
  intros Hj H0 Hjl. destruct Hmax as [Hc Hmx], Hmax' as [Hc' Hmx']. destruct Hper as (Hp & Hpv & Hmin).
  assert (cp < j) as Hcj by (apply period_long; [done|lia]).
  assert (p <= j) as Hpj by (destruct (Z.lt_ge_cases j p); [exfalso; by apply (period_at_least j); try lia|done]).
  pose proof (Z.div_mod j p ltac:(lia)) as Ediv. pose proof (Z.mod_pos_bound j p ltac:(lia)) as Hmod.
  set (c := j / p) in *. set (r := j mod p) in *. assert (0 <= c) by (apply Z.div_pos; lia).
  (* inside the right half, multiples of [p] are periods *)
  assert (forall (c : nat) i, cp <= i -> i + Z.of_nat c * p < l -> P i = P (i + Z.of_nat c * p)) as Hmul.
  { clear - Hpv Hp. induction c as [|c IH]; intros i Hi Hil; [by replace (i + Z.of_nat 0 * p) with i by lia|].
    rewrite IH by nia. rewrite Hpv by nia. f_equal. lia. }
  destruct (Z.eq_dec r 0) as [Er|Er].
  - intros i Hi Hip. destruct (Z.le_gt_cases cp i); [by apply Hpv|].
    rewrite (Hj i) by lia. destruct (Z.le_gt_cases cp (i + p)).
    + rewrite (Hmul (Z.to_nat (c - 1)) (i + p)) by nia. f_equal. nia.
    + rewrite (Hj (i + p)) by lia. rewrite (Hpv (i + j)) by lia. f_equal. lia.
  - exfalso. assert (smaller P l lt (cp + r) cp) as Hsm by (apply Hmx; lia).
    destruct (Z.le_gt_cases r cp) as [Hrc|Hrc].
    + (* the characters before [cp] repeat those after it *)
      apply (smaller_asym P l lt lt_irrefl lt_trans (cp + r) cp) in Hsm; [|lia..].
      apply Hsm. replace cp with (cp - r + r) at 1 by lia. apply smaller_cancel; [done|lia| |apply Hmx; lia].
      intros i Hi. rewrite (Hj (cp - r + i)) by lia. rewrite (Hmul (Z.to_nat c) (cp + i)) by nia. f_equal. nia.
    + (* the other maximal suffix *)
      set (dl := cp - cp'). assert (smaller P l gt (cp + r) cp) as Hsm'.
      { replace (cp + r) with (cp + r - dl + dl) by lia. replace cp with (cp' + dl) at 2 by lia.
        apply smaller_cancel; [done|lia| |apply Hmx'; lia].
        intros i Hi. rewrite (Hj (cp' + i)) by lia. rewrite (Hmul (Z.to_nat c) (cp + r - dl + i)) by nia. f_equal. nia. }
      assert (pre P l (cp + r) cp) as [_ Hpre].
      { destruct Hsm as [(t & Ht & H1 & H2 & He & Hl)|?]; [|done]. destruct Hsm' as [(t' & Ht' & H1' & H2' & He' & Hl')|?]; [|done].
        exfalso. destruct (Z.lt_trichotomy t t') as [Hlt|[<- |Hgt]].
        - rewrite He' in Hl by lia. by apply lt_irrefl in Hl.
        - by apply (lt_gt _ _ Hl).
        - rewrite He in Hl' by lia. by apply gt_irrefl in Hl'. }
      destruct (Hmin r ltac:(lia)) as (i & Hi & Hil & Hne). apply Hne.
      specialize (Hpre (i - cp) ltac:(lia) ltac:(lia)). replace (cp + r + (i - cp)) with (i + r) in Hpre by lia.
      by replace (cp + (i - cp)) with i in Hpre by lia.
Qed.

(** The last character differs while the first [l - p] match: no occurrence in between. *)
Lemma memory_shift : has_period p -> (forall i, 0 <= i < l - p -> T i = P i) -> T (l - 1) <> P (l - 1) ->
  forall j, 0 <= j < l - p -> ~ occurs j.
Proof.
  intros Hp Hm Hlast j Hj Ho. destruct Hper as (Hp0 & _). destruct Hmax as [Hc _]. apply Hlast.
  replace (l - 1) with (j + (l - 1 - j)) by lia. rewrite Ho by lia.
  replace (l - 1 - j) with (l - 1 - j - p + p) by lia. rewrite <- Hp by lia. rewrite <- Ho by lia.
  replace (j + (l - 1 - j - p)) with (l - 1 - p) by lia. rewrite Hm by lia. rewrite Hp by lia. f_equal. lia.
Qed.
End Search.
