(* ===== verification/Search.v ===== *)
(** Searching a byte string in another ([libc-top-half/musl/src/string/]:
    memmem.c, strstr.c): short needles with a window in a register, longer ones
    with the two-way algorithm.  Pointers are addresses, [size_t] arithmetic wraps
    at 32 bits (the index before the first byte is [(size_t)-1]). *)

From S2P Require Import Prelude Memory Strings.

(** * Short needles *)

Section Short.
(** The window of the first bytes at [a], and the window moved by the byte [c]. *)
Context (w : Z) (first : Z -> mem Z) (next : Z -> Z -> Z).

(** [for (h+=w, k-=w; k; k--, hw = next(hw, *h++)) if (hw == nw) return h-w; return hw == nw ? h-w : 0;] *)
Definition short_memmem (h k n : Z) : mem Z :=
  let* nw := first n in
  let* hw := first h in
  let* (h, k, hw, out) := while (count k) (fun '(h, k, hw, out) => sret (negb out && ctrue k))
    (fun '(h, k, hw, _) => if hw =? nw then sret (h, k, hw, true)
      else let* c := load8 h in sret (h + 1, k - 1, next hw c, false)) (h + w, k - w, hw, false) in
  sret (if hw =? nw then h - w else NULL).
End Short.

Definition first2 (a : Z) : mem Z :=
  let* b0 := load8 a in let* b1 := load8 (a + 1) in sret (Z.lor (Z.shiftl b0 8) b1 mod 2 ^ 16).
Definition first3 (a : Z) : mem Z :=
  let* b0 := load8 a in let* b1 := load8 (a + 1) in let* b2 := load8 (a + 2) in
  sret (u32 (Z.lor (Z.lor (Z.shiftl b0 24) (Z.shiftl b1 16)) (Z.shiftl b2 8))).
Definition first4 (a : Z) : mem Z :=
  let* b0 := load8 a in let* b1 := load8 (a + 1) in let* b2 := load8 (a + 2) in let* b3 := load8 (a + 3) in
  sret (u32 (Z.lor (Z.lor (Z.lor (Z.shiftl b0 24) (Z.shiftl b1 16)) (Z.shiftl b2 8)) b3)).
Definition next2 (hw c : Z) : Z := Z.lor (Z.shiftl hw 8) c mod 2 ^ 16.
Definition next3 (hw c : Z) : Z := u32 (Z.shiftl (Z.lor hw c) 8).
Definition next4 (hw c : Z) : Z := u32 (Z.lor (u32 (Z.shiftl hw 8)) c).

Definition twobyte_memmem (h k n : Z) : mem Z := short_memmem 2 first2 next2 h k n.
Definition threebyte_memmem (h k n : Z) : mem Z := short_memmem 3 first3 next3 h k n.
Definition fourbyte_memmem (h k n : Z) : mem Z := short_memmem 4 first4 next4 h k n.

(** * The two-way algorithm *)

(** The byte set and the shift table, whose entries are set for bytes of the set only. *)
Record tables : Type := Tables { bytes_ : byteset; shift : list (option Z) }.

Definition no_tables : tables := Tables byteset_empty (replicate 256 None).

(** [BITOP(byteset, n[i], |=), shift[n[i]] = i+1] *)
Definition table_add (n i : Z) (t : tables) : mem tables :=
  let* c := load8 (n + i) in
  let* b := lift (byteset_add (bytes_ t) c) in
  let* s := lift (zset (shift t) c (Some (i + 1))) in
  sret (Tables b s).

(** [for (i=0; i<l; i++) ...], of [twoway_memmem]. *)
Definition fill_tables (n l : Z) : mem tables :=
  let* (_, t) := while (count l) (fun '(i, t) => sret (i <? l))
    (fun '(i, t) => let* t := table_add n i t in sret (i + 1, t)) (0, no_tables) in
  sret t.

(** [for (l=0; n[l] && h[l]; l++) ...], of [twoway_strstr]. *)
Definition measure_needle (n h : Z) : mem (Z * tables) :=
  let* fuel := memsize in
  while fuel (fun '(l, _) => let* a := load8 (n + l) in if ctrue a then let* b := load8 (h + l) in sret (ctrue b) else sret false)
    (fun '(l, t) => let* t := table_add n l t in sret (l + 1, t)) (0, no_tables).

(** The maximal suffix: [ip] (one less than its start) and its period; [less]
    is the comparison of the two loops. *)
Definition maximal_suffix (less : Z -> Z -> bool) (n l : Z) : mem (Z * Z) :=
  let* (ip, jp, k, p) := while (count (2 * l + 2)) (fun '(ip, jp, k, p) => sret (u32 (jp + k) <? l))
    (fun '(ip, jp, k, p) =>
      let* a := load8 (n + u32 (ip + k)) in
      let* b := load8 (n + u32 (jp + k)) in
      if a =? b then
        if k =? p then sret (ip, u32 (jp + p), 1, p) else sret (ip, jp, u32 (k + 1), p)
      else if less b a then
        let jp := u32 (jp + k) in sret (ip, jp, 1, u32 (jp - ip))
      else sret (jp, u32 (jp + 1), 1, 1)) (u32 (-1), 0, 1, 1) in
  sret (ip, p).

(** [ms], [p] and [mem0] from the needle. *)
Definition factorize (n l : Z) : mem (Z * Z * Z) :=
  let* (ip, p) := maximal_suffix Z.ltb n l in
  let ms := ip in
  let p0 := p in
  let* (ip, p) := maximal_suffix Z.gtb n l in
  let '(ms, p) := if u32 (ms + 1) <? u32 (ip + 1) then (ip, p) else (ms, p0) in
  let* d := memcmp n (n + p) (u32 (ms + 1)) in
  sret (if ctrue d then (ms, u32 (Z.max ms (u32 (u32 (l - ms) - 1)) + 1), 0) else (ms, p, u32 (l - p))).

(** What one round of the search loop does. *)
Inductive round : Type :=
| Return (r : Z)
| Continue (h mm : Z).

Section Round.
(** Whether [k] is an index of the needle: [k<l] in memmem.c, [n[k]] in strstr.c. *)
Context (inside : Z -> mem bool).

(** [for (k=MAX(ms+1,mem); inside(k) && n[k] == h[k]; k++);] *)
Definition match_right (n h l k : Z) : mem Z :=
  while (count l) (fun k => let* i := inside k in if i : bool then let* a := load8 (n + k) in let* b := load8 (h + k) in sret (a =? b) else sret false)
    (fun k => sret (k + 1)) k.

(** [for (k=ms+1; k>mem && n[k-1] == h[k-1]; k--);] *)
Definition match_left (n h mm k : Z) : mem Z :=
  while (count k) (fun k => if mm <? k then let* a := load8 (n + (k - 1)) in let* b := load8 (h + (k - 1)) in sret (a =? b) else sret false)
    (fun k => sret (k - 1)) k.

(** The body of the search loop after the check for the end. *)
Definition search_round (t : tables) (n l ms p mem0 h mm : Z) : mem round :=
  let* c := load8 (h + (l - 1)) in
  let* known := lift (byteset_has (bytes_ t) c) in
  if known : bool then
    let* s := lift (zget (shift t) c) in
    let* s := lift (deref s) in
    let k := u32 (l - s) in
    if ctrue k then sret (Continue (h + (if k <? mm then mm else k)) 0)
    else
      let* k := match_right n h l (Z.max (u32 (ms + 1)) mm) in
      let* more := inside k in
      if more : bool then sret (Continue (h + u32 (k - ms)) 0)
      else
        let* k := match_left n h mm (u32 (ms + 1)) in
        if k <=? mm then sret (Return h) else sret (Continue (h + p) mem0)
  else sret (Continue (h + l) 0).
End Round.

Fixpoint search_loop (fuel : nat) (t : tables) (n l ms p mem0 z h mm : Z) : mem Z :=
  match fuel with
  | O => fun _ => NoFuel
  | S fuel' =>
      if u32 (z - h) <? l then sret NULL
      else
        let* r := search_round (fun k => sret (k <? l)) t n l ms p mem0 h mm in
        match r with
        | Return h => sret h
        | Continue h mm => search_loop fuel' t n l ms p mem0 z h mm
        end
  end.

Definition twoway_memmem (h z n l : Z) : mem Z :=
  let* t := fill_tables n l in
  let* (ms, p, mem0) := factorize n l in
  search_loop (count (z - h)) t n l ms p mem0 z h 0.

Definition memmem (h0 k n0 l : Z) : mem Z :=
  let h := h0 in
  let n := n0 in
  if l =? 0 then sret h
  else if k <? l then sret NULL
  else
    let* c := load8 n in
    let* h := memchr h0 c k in
    if (h =? NULL) || (l =? 1) then sret h
    else
      let k := u32 (k - (h - h0)) in
      if k <? l then sret NULL
      else if l =? 2 then twobyte_memmem h k n
      else if l =? 3 then threebyte_memmem h k n
      else if l =? 4 then fourbyte_memmem h k n
      else twoway_memmem h (h + k) n l.

(** * C strings *)

Section ShortString.
Context (w : Z) (first : Z -> mem Z) (next : Z -> Z -> Z).

(** [for (h+=w-1; *h && hw != nw; hw = next(hw, *++h)); return *h ? h-(w-1) : 0;] *)
Definition short_strstr (h n : Z) : mem Z :=
  let* nw := first n in
  let* hw := first h in
  let* fuel := memsize in
  let* (h, hw) := while fuel (fun '(h, hw) => let* c := load8 h in sret (ctrue c && negb (hw =? nw)))
    (fun '(h, hw) => let* c := load8 (h + 1) in sret (h + 1, next hw c)) (h + (w - 1), hw) in
  let* c := load8 h in
  sret (if ctrue c then h - (w - 1) else NULL).
End ShortString.

Definition twobyte_strstr (h n : Z) : mem Z := short_strstr 2 first2 next2 h n.
Definition threebyte_strstr (h n : Z) : mem Z := short_strstr 3 first3 next3 h n.
Definition fourbyte_strstr (h n : Z) : mem Z := short_strstr 4 first4 next4 h n.

(** The incremental end of the haystack; [None]: it is too near. *)
Definition extend_end (z h l : Z) : mem (option Z) :=
  if u32 (z - h) <? l then
    let grow := Z.lor l 63 in
    let* z2 := memchr z 0 grow in
    if ctrue z2 then sret (if u32 (z2 - h) <? l then None else Some z2)
    else sret (Some (z + grow))
  else sret (Some z).

Fixpoint strstr_loop (fuel : nat) (t : tables) (n l ms p mem0 z h mm : Z) : mem Z :=
  match fuel with
  | O => fun _ => NoFuel
  | S fuel' =>
      let* z := extend_end z h l in
      match z with
      | None => sret NULL
      | Some z =>
          let* r := search_round (fun k => let* c := load8 (n + k) in sret (ctrue c)) t n l ms p mem0 h mm in
          match r with
          | Return h => sret h
          | Continue h mm => strstr_loop fuel' t n l ms p mem0 z h mm
          end
      end
  end.

Definition twoway_strstr (h n : Z) : mem Z :=
  let* (l, t) := measure_needle n h in
  let* c := load8 (n + l) in
  if ctrue c then sret NULL
  else
    let* (ms, p, mem0) := factorize n l in
    let* fuel := memsize in
    strstr_loop fuel t n l ms p mem0 h h 0.

(** [strstr] from the first place of the needle's first character: the needle has two characters at least. *)
Definition strstr_at (h n : Z) : mem Z :=
  let* h1 := load8 (h + 1) in
  if negb (ctrue h1) then sret NULL
  else
    let* n2 := load8 (n + 2) in
    if negb (ctrue n2) then twobyte_strstr h n
    else
      let* h2 := load8 (h + 2) in
      if negb (ctrue h2) then sret NULL
      else
        let* n3 := load8 (n + 3) in
        if negb (ctrue n3) then threebyte_strstr h n
        else
          let* h3 := load8 (h + 3) in
          if negb (ctrue h3) then sret NULL
          else
            let* n4 := load8 (n + 4) in
            if negb (ctrue n4) then fourbyte_strstr h n else twoway_strstr h n.

Definition strstr (h n : Z) : mem Z :=
  let* n0 := load8 n in
  if negb (ctrue n0) then sret h
  else
    let* h := strchr h n0 in
    if negb (ctrue h) then sret h
    else
      let* n1 := load8 (n + 1) in
      if negb (ctrue n1) then sret h else strstr_at h n.

(** "babab" and "bab" in "abbababab" at address 1. *)
Definition search_memory : memory :=
  [0; 97; 98; 98; 97; 98; 97; 98; 97; 98; 0; 98; 97; 98; 97; 98; 0; 0; 0; 0; 0; 0; 0; 0].
Example memmem_demo :
  memmem 1 9 11 5 search_memory = Ok (3, search_memory) /\ memmem 1 9 11 3 search_memory = Ok (3, search_memory) /\
  strstr 1 11 search_memory = Ok (3, search_memory) /\
  memmem 1 6 11 5 search_memory = Ok (NULL, search_memory) /\ memmem 1 7 11 2 search_memory = Ok (3, search_memory).
Proof. vm_compute. split_and!; reflexivity. Qed.
