(* ===== verification/SearchSpec.v ===== *)
(** [memmem] finds the first occurrence: equivalence with the naive search. *)

From S2P Require Import Prelude Memory Strings StringsScan StringsSpec Twoway Search.

(** * The tables *)

Section Needle.
Context (m : memory) (Hm : wf_memory m) (n l : Z) (Hn : 0 <= n) (Hl : 0 < l) (Hnl : n + l <= zlen m).

(** The characters of the needle. *)
Definition P (i : Z) : Z := byte m (n + i).

Lemma P_range i : 0 <= P i < 256.
Proof. apply byte_range, Hm. Qed.

(** The tables for the first [i] characters: the bytes, and the place after the last one of each. *)
Definition tables_ok (i : Z) (t : tables) : Prop := length (bytes_ t) = 8%nat /\ length (shift t) = 256%nat /\
  forall x, 0 <= x < 256 -> if in_set (bytes_ t) x
    then exists j, 0 <= j < i /\ P j = x /\ shift t !! Z.to_nat x = Some (Some (j + 1)) /\ forall j', j < j' < i -> P j' <> x
    else forall j, 0 <= j < i -> P j <> x.

Lemma table_add_wp i t : 0 <= i < l -> tables_ok i t ->
  wp (table_add n i t) (fun t' m' => m' = m /\ tables_ok (i + 1) t') m.
Proof.
  intros Hi (Hb & Hs & Ht). unfold table_add. apply wp_bind, wp_load8; [lia|]. fold (P i). pose proof (P_range i) as Hr.
  destruct (byteset_add_ok (bytes_ t) (P i) Hb Hr) as (b' & Eb & Hb' & Hset).
  apply wp_bind. apply (wp_lift _ _ _ _ Eb). apply wp_bind. eapply wp_lift; [apply zset_in_range; unfold zlen; lia|].
  apply wp_ret. split; [done|]. split; [done|]. cbn [bytes_ shift].
  split; [by rewrite length_insert|]. intros x Hx. rewrite Hset by done. destruct (Z.eqb_spec x (P i)) as [-> |Hne]; cbn [orb].
  - exists i. split; [lia|]. split; [done|]. split; [apply list_lookup_insert_eq; lia|lia].
  - specialize (Ht x Hx). destruct (in_set (bytes_ t) x).
    + destruct Ht as (j & Hj & HP & Hsh & Hlast). exists j. split; [lia|]. split; [done|].
      split; [rewrite list_lookup_insert_ne by lia; done|]. intros j' Hj'.
      destruct (Z.eq_dec j' i) as [-> |]; [congruence|]. apply Hlast. lia.
    + intros j Hj. destruct (Z.eq_dec j i) as [-> |]; [congruence|]. apply Ht. lia.
Qed.

Lemma no_tables_ok : tables_ok 0 no_tables.
Proof.
  split; [done|]. split; [reflexivity|]. cbn [no_tables bytes_ shift]. intros x Hx.
  assert (in_set byteset_empty x = false) as ->; [|lia]. unfold in_set.
  assert (forall k, nth k byteset_empty 0 = 0) as E by (intros k; do 9 (destruct k as [|k]; [done|]); done).
  by rewrite E, Z.testbit_0_l.
Qed.

Lemma fill_tables_wp : wp (fill_tables n l) (fun t m' => m' = m /\ tables_ok l t) m.
Proof.
  unfold fill_tables. apply wp_bind.
  eapply (wp_while (fun '(i, t) m' => m' = m /\ 0 <= i <= l /\ tables_ok i t) (fun '(i, _) => l - i)).
  - intros [i t] m' (-> & Hi & Ht). apply wp_ret. destruct (Z.ltb_spec i l).
    + seq; [apply table_add_wp; [lia|exact Ht]|]. intros t' ? [-> Ht']. apply wp_ret. split; [|lia]. split; [done|]. split; [lia|done].
    + apply wp_ret. split; [done|]. by assert (i = l) as -> by lia.
  - split; [done|]. split; [lia|]. apply no_tables_ok.
  - unfold count. lia.
  - lia.
Qed.

(** * The maximal suffix *)

(** The 32-bit index before a position. *)
Lemma before_first I k : 0 <= I -> 1 <= k -> I + k <= 2 ^ 32 -> u32 (u32 (I - 1) + k) = I + (k - 1).
Proof.
  intros HI Hk Hlim. unfold u32. rewrite Zplus_mod_idemp_l. rewrite Z.mod_small by lia. lia.
Qed.

Section Order.
Context (less : Z -> Z -> bool).
Definition lt_of (a b : Z) : Prop := less a b = true.
Context (lt_irrefl : forall a, ~ lt_of a a) (lt_trans : forall a b c, lt_of a b -> lt_of b c -> lt_of a c).
Context (lt_total : forall a b, a <> b -> less a b = false -> less b a = true).

Lemma maximal_suffix_wp : l < 2 ^ 31 ->
  wp (maximal_suffix less n l) (fun r m' => m' = m /\ exists cp p, r = (u32 (cp - 1), p) /\ maxsuf P l lt_of cp /\ period_of P l cp p) m.
Proof.
  intros Hlim. unfold maximal_suffix. apply wp_bind.
  eapply (wp_while (fun '(ip, jp, k, p) m' => m' = m /\ exists I J K, ip = u32 (I - 1) /\ jp = J - 1 /\ k = K + 1 /\ inv P l lt_of I J K p)
    (fun '(ip, jp, k, p) => 2 * l - (u32 (ip + 1) + jp + k))).
  - intros [[[ip jp] k] p] m' (-> & I & J & K & -> & -> & -> & Hinv). destruct (inv_range _ _ _ _ _ _ _ Hinv) as (HI & Hp & HK & HJ & HIJ).
    destruct (inv_mult _ _ _ _ _ _ _ Hinv) as [mu Hmu]. assert (p <= J - I) as HpJ by (assert (1 <= mu) by nia; nia).
    assert (p <= l) as Hpl by lia.
    rewrite (before_first I 1) by lia. apply wp_ret. rewrite (u32_id (J - 1 + (K + 1))) by (unfold in_u; lia).
    replace (J - 1 + (K + 1)) with (J + K) by lia. replace (I + (1 - 1)) with I by lia.
    destruct (Z.ltb_spec (J + K) l) as [HJK|HJK].
    2:{ apply wp_ret. split; [done|]. exists I, p. split; [done|]. apply (inv_end P l lt_of lt_irrefl I J K p Hinv). lia. }
    rewrite (before_first I (K + 1)) by lia. replace (K + 1 - 1) with K by lia.
    apply wp_bind, wp_load8; [lia|]. fold (P (I + K)). apply wp_bind, wp_load8; [lia|]. fold (P (J + K)).
    destruct (Z.eqb_spec (P (I + K)) (P (J + K))) as [E|E].
    + pose proof (inv_equal P l lt_of I J K p Hinv HJK E) as Hnew. destruct (Z.eqb_spec (K + 1) p) as [Ek|Ek].
      * apply wp_ret. rewrite before_first by lia. rewrite (u32_id (J - 1 + p)) by (unfold in_u; lia). split; [|lia].
        split; [done|]. exists I, (J + p), 0. split; [done|]. split; [lia|]. split; [lia|done].
      * apply wp_ret. rewrite before_first by lia. rewrite (u32_id (K + 1 + 1)) by (unfold in_u; lia).
        destruct (inv_range _ _ _ _ _ _ _ Hnew) as (_ & _ & _ & ? & _). split; [|lia].
        split; [done|]. exists I, J, (K + 1). split; [done|]. split; [lia|]. split; [lia|done].
    + destruct (less (P (J + K)) (P (I + K))) eqn:El.
      * apply wp_ret. rewrite before_first by lia. split; [|lia].
        split; [done|]. exists I, (J + K + 1), 0. split; [done|]. split; [lia|]. split; [lia|].
        replace (u32 (J + K - u32 (I - 1))) with (J + K + 1 - I); [by apply (inv_less P l lt_of lt_trans I J K p)|].
        unfold u32. rewrite Zminus_mod_idemp_r, Z.mod_small by lia. lia.
      * apply wp_ret. rewrite (u32_id (J - 1 + 1)) by (unfold in_u; lia). split; [|lia].
        split; [done|]. exists J, (J + 1), 0. split; [rewrite u32_id by (unfold in_u; lia); done|]. split; [lia|]. split; [lia|].
        apply (inv_greater P l lt_of lt_trans I J K p Hinv HJK). apply lt_total; [congruence|done].
  - split; [done|]. exists 0, 1, 0. split; [done|]. split; [done|]. split; [done|]. by apply inv_start.
  - unfold count. change (u32 (u32 (-1) + 1)) with 0. lia.
  - change (u32 (u32 (-1) + 1)) with 0. lia.
Qed.
End Order.

(** * The factorization *)

Lemma memcmp_gives a b k : 0 <= a -> 0 <= b -> 0 <= k -> a + k <= zlen m -> b + k <= zlen m ->
  exists d, gives (memcmp a b k) m d /\ (d = 0 <-> forall i, 0 <= i < k -> byte m (a + i) = byte m (b + i)).
Proof.
  intros Ha Hb Hk Hak Hbk. assert (wp (memcmp a b k) (fun d m' => m' = m /\ (d = 0 <-> forall i, 0 <= i < k -> byte m (a + i) = byte m (b + i))) m)
    as (d & m' & E & -> & H); [|exists d; split; [by apply gives_ok|done]].
  unfold memcmp. apply wp_bind. eapply (wp_while (fun r m' => m' = m /\ exists i, r = (a + i, b + i, k - i) /\ 0 <= i <= k /\
    forall j, 0 <= j < i -> byte m (a + j) = byte m (b + j)) (fun '(_, _, k') => k')).
  - intros [[a' b'] k'] m' (-> & i & [= -> -> ->] & Hi & Hj). unfold ctrue. destruct (Z.eqb_spec (k - i) 0); cbn [negb].
    + apply wp_ret. apply wp_ret. split; [done|]. split; [|done]. intros _ j Hjk. apply Hj. lia.
    + apply wp_bind, wp_load8; [lia|]. apply wp_bind, wp_load8; [lia|]. apply wp_ret. destruct (Z.eqb_spec (byte m (a + i)) (byte m (b + i))).
      * apply wp_ret. split; [|lia]. split; [done|]. exists (i + 1). split; [rewrite !Z.add_assoc; f_equal; lia|]. split; [lia|].
        intros j Hjr. destruct (Z.eq_dec j i) as [-> |]; [done|]. apply Hj. lia.
      * apply wp_bind, wp_load8; [lia|]. apply wp_bind, wp_load8; [lia|].
        apply wp_ret. split; [done|]. split; [lia|]. intros H. specialize (H i ltac:(lia)). congruence.
  - split; [done|]. exists 0. split; [rewrite !Z.add_0_r, Z.sub_0_r; done|]. split; [lia|]. lia.
  - unfold count. lia.
  - lia.
Qed.

(** What the search relies on: shifts that skip no occurrence in any text. *)
Record plan (cp p mm0 : Z) : Prop := {
  plan_range : 0 <= cp < l /\ 0 < p <= l;
  plan_mem : 0 <= mm0 < l;
  plan_right : forall T k, cp <= k < l -> (forall i, cp <= i < k -> T i = P i) -> T k <> P k ->
    forall j, 0 <= j <= k - cp -> ~ occurs P l T j;
  plan_left : forall T, (forall i, cp <= i < l -> T i = P i) -> forall j, 0 < j < p -> ~ occurs P l T j;
  plan_shift : forall T, (forall i, cp <= i < l -> T i = P i) -> forall i, 0 <= i < mm0 -> T (p + i) = P i;
  plan_last : forall T, (forall i, 0 <= i < mm0 -> T i = P i) -> T (l - 1) <> P (l - 1) -> forall j, 0 <= j < mm0 -> ~ occurs P l T j
}.

Section Plan.
Context (lt gt : Z -> Z -> Prop).
Context (lt_irrefl : forall a, ~ lt a a) (lt_trans : forall a b c, lt a b -> lt b c -> lt a c).
Context (gt_irrefl : forall a, ~ gt a a) (gt_trans : forall a b c, gt a b -> gt b c -> gt a c).
Context (lt_gt : forall a b, lt a b -> gt a b -> False).
Context (cp cp' p : Z) (Hmax : maxsuf P l lt cp) (Hmax' : maxsuf P l gt cp') (Hcp : cp' <= cp) (Hper : period_of P l cp p).

Lemma period_prefix : (forall i, 0 <= i < cp -> P i = P (i + p)) -> has_period P l p.
Proof. intros H i Hi Hip. destruct (Z.lt_ge_cases i cp); [apply H; lia|]. apply Hper; lia. Qed.

Lemma plan_periodic : (forall i, 0 <= i < cp -> P i = P (i + p)) -> plan cp p (l - p).
Proof.
  intros Hpre. pose proof (period_prefix Hpre) as Hp. destruct Hmax as [Hc Hmx]. pose proof Hper as (Hp0 & _).
  assert (cp <= p) as Hcpp.
  { destruct (Z.eq_dec p l); [lia|]. pose proof (period_long P l lt lt_irrefl cp Hmax p Hp ltac:(lia)). lia. }
  split; [lia|lia|..].
  - intros T k Hk Hmatch Hmis. by apply (right_shift P l lt gt lt_irrefl lt_trans gt_irrefl lt_gt cp cp').
  - intros T Hright j Hj Ho. destruct (match_far P l lt lt_irrefl cp Hmax T Hright j Ho) as [_ Hpj]; [lia|].
    apply (period_at_least P l lt cp p Hmax Hper j); [done|lia..].
  - intros T Hright i Hi. rewrite Hright by lia. rewrite (Hp i) by lia. f_equal. lia.
  - intros T Hm' Hlast. by apply (memory_shift P l lt cp p Hmax Hper).
Qed.

Lemma plan_aperiodic : ~ (forall i, 0 <= i < cp -> P i = P (i + p)) -> plan cp (Z.max (cp - 1) (l - cp) + 1) 0.
Proof.
  intros Hno. destruct Hmax as [Hc Hmx]. assert (0 < cp) by (destruct (Z.eq_dec cp 0) as [-> |]; [destruct Hno; lia|lia]).
  split; [lia|lia|..|lia].
  - intros T k Hk Hmatch Hmis. by apply (right_shift P l lt gt lt_irrefl lt_trans gt_irrefl lt_gt cp cp').
  - intros T Hright j Hj Ho. destruct (Z.lt_ge_cases j l); [|lia].
    destruct (match_far P l lt lt_irrefl cp Hmax T Hright j Ho) as [Hcj Hpj]; [lia|].
    apply Hno. intros i Hi. pose proof Hper as (Hp0 & _).
    apply (small_period P l lt gt lt_irrefl lt_trans gt_irrefl lt_gt cp cp' p Hmax Hmax' Hcp Hper j Hpj); lia.
  - lia.
Qed.
End Plan.

Lemma factorize_wp : l < 2 ^ 31 ->
  wp (factorize n l) (fun '(ms, p, mm0) m' => m' = m /\ exists cp, ms = u32 (cp - 1) /\ plan cp p mm0) m.
Proof.
  intros Hlim. assert (n + l <= zlen m) by lia.
  assert (forall a b, lt_of Z.ltb a b <-> a < b) as Hlt by (intros; apply Z.ltb_lt).
  assert (forall a b, lt_of Z.gtb a b <-> b < a) as Hgt by (intros a b; unfold lt_of; rewrite Z.gtb_ltb; apply Z.ltb_lt).
  assert (forall a, ~ lt_of Z.ltb a a) as I1 by (intros a; rewrite Hlt; lia).
  assert (forall a, ~ lt_of Z.gtb a a) as I2 by (intros a; rewrite Hgt; lia).
  assert (forall a b c, lt_of Z.ltb a b -> lt_of Z.ltb b c -> lt_of Z.ltb a c) as T1 by (intros a b c; rewrite !Hlt; lia).
  assert (forall a b c, lt_of Z.gtb a b -> lt_of Z.gtb b c -> lt_of Z.gtb a c) as T2 by (intros a b c; rewrite !Hgt; lia).
  assert (forall a b, lt_of Z.ltb a b -> lt_of Z.gtb a b -> False) as E1 by (intros a b; rewrite Hlt, Hgt; lia).
  assert (forall a b, lt_of Z.gtb a b -> lt_of Z.ltb a b -> False) as E2 by (intros a b; rewrite Hlt, Hgt; lia).
  unfold factorize. seq; [apply maximal_suffix_wp; try done; intros a b Hne H'; apply Z.ltb_lt; apply Z.ltb_ge in H'; lia|].
  intros ? ? (-> & c1 & p1 & -> & M1 & Q1). cbn beta iota.
  seq; [apply maximal_suffix_wp; try done; intros a b Hne H'; rewrite Z.gtb_ltb in *; apply Z.ltb_lt; apply Z.ltb_ge in H'; lia|].
  intros ? ? (-> & c2 & p2 & -> & M2 & Q2). cbn beta iota zeta.
  pose proof (proj1 M1) as Hc1. pose proof (proj1 M2) as Hc2. rewrite !(before_first _ 1) by lia.
  replace (c1 + (1 - 1)) with c1 by lia. replace (c2 + (1 - 1)) with c2 by lia.
  assert (exists cp p, (if c1 <? c2 then (u32 (c2 - 1), p2) else (u32 (c1 - 1), p1)) = (u32 (cp - 1), p) /\ 0 <= cp < l /\ 0 < p <= l - cp /\
    ((forall i, 0 <= i < cp -> P i = P (i + p)) -> plan cp p (l - p)) /\
    (~ (forall i, 0 <= i < cp -> P i = P (i + p)) -> plan cp (Z.max (cp - 1) (l - cp) + 1) 0)) as (cp & p & -> & Hcp & Hp & Hyes & Hno).
  { destruct (Z.ltb_spec c1 c2).
    - exists c2, p2. split; [done|]. split; [done|]. split; [apply Q2|]. split.
      + apply (plan_periodic (lt_of Z.gtb) (lt_of Z.ltb)) with c1; done || lia.
      + apply (plan_aperiodic (lt_of Z.gtb) (lt_of Z.ltb)) with c1; done || lia.
    - exists c1, p1. split; [done|]. split; [done|]. split; [apply Q1|]. split.
      + apply (plan_periodic (lt_of Z.ltb) (lt_of Z.gtb)) with c2; done || lia.
      + apply (plan_aperiodic (lt_of Z.ltb) (lt_of Z.gtb)) with c2; done || lia. }
  cbn beta iota. rewrite (before_first _ 1) by lia. replace (cp + (1 - 1)) with cp by lia.
  destruct (memcmp_gives n (n + p) cp) as (d & Hg & Hd); [lia..|]. eapply gives_bind; [exact Hg|]. apply wp_ret. unfold ctrue.
  assert ((forall i, 0 <= i < cp -> byte m (n + i) = byte m (n + p + i)) <-> (forall i, 0 <= i < cp -> P i = P (i + p))) as Heq.
  { unfold P. split; intros H' i Hi; specialize (H' i Hi); [rewrite H'|rewrite H']; f_equal; lia. }
  rewrite Heq in Hd. destruct (Z.eqb_spec d 0) as [Ed|Ed]; cbn [negb].
  - split; [done|]. exists cp. split; [done|]. rewrite (u32_id (l - p)) by (unfold in_u; lia). apply Hyes. by apply Hd.
  - split; [done|]. exists cp. split; [done|]. assert (~ (forall i, 0 <= i < cp -> P i = P (i + p))) as Hn' by tauto.
    assert (0 < cp) by (destruct (Z.eq_dec cp 0) as [-> |]; [destruct Hn'; lia|lia]).
    rewrite (u32_id (cp - 1)) by (unfold in_u; lia). rewrite (u32_id (l - (cp - 1))) by (unfold in_u; lia).
    rewrite (u32_id (l - (cp - 1) - 1)) by (unfold in_u; lia). rewrite u32_id by (unfold in_u; lia).
    replace (l - (cp - 1) - 1) with (l - cp) by lia. by apply Hno.
Qed.

(** * The search loop *)

Section Text.
Context (h k : Z) (Hh : 0 <= h) (Hk : 0 <= k) (Hhk : h + k <= zlen m).

(** The needle is at offset [j] of the text. *)
Definition occ (j : Z) : Prop := forall i, 0 <= i < l -> byte m (h + j + i) = P i.

(** What a search gives: the first place, or null. *)
Definition found (r : Z) : Prop :=
  (exists j, 0 <= j /\ j + l <= k /\ occ j /\ (forall j', 0 <= j' < j -> ~ occ j') /\ r = h + j) \/
  ((forall j, 0 <= j -> j + l <= k -> ~ occ j) /\ r = NULL).

(** The text from [pos] on. *)
Definition T (pos i : Z) : Z := byte m (h + pos + i).

Lemma occ_shift pos j : occ (pos + j) -> occurs P l (T pos) j.
Proof. intros Ho i Hi. unfold T. rewrite <- Ho by done. f_equal. lia. Qed.

(** Places below [pos + d] are excluded when those below [pos] and the shift are. *)
Definition clear_to (pos : Z) : Prop := forall j, 0 <= j < pos -> ~ occ j.
Lemma clear_shift pos d : 0 <= pos -> clear_to pos -> (forall j, 0 <= j < d -> ~ occurs P l (T pos) j) -> clear_to (pos + d).
Proof.
  intros Hp Hc Hd j Hj Ho. destruct (Z.lt_ge_cases j pos); [apply (Hc j); [lia|done]|]. apply (Hd (j - pos)); [lia|].
  apply occ_shift. by replace (pos + (j - pos)) with j by lia.
Qed.

Context (inside : Z -> mem bool) (Hinside : forall i, 0 <= i <= l -> gives (inside i) m (i <? l)).

Lemma match_right_wp pos a : 0 <= pos -> pos + l <= k -> 0 <= a <= l ->
  wp (match_right inside n (h + pos) l a) (fun r m' => m' = m /\ a <= r <= l /\ (forall i, a <= i < r -> T pos i = P i) /\ (r < l -> T pos r <> P r)) m.
Proof.
  intros Hp Hpl Ha. unfold match_right.
  eapply (wp_while (fun r m' => m' = m /\ a <= r <= l /\ forall i, a <= i < r -> T pos i = P i) (fun r => l - r)).
  - intros r m' (-> & Hr & Hi). eapply gives_bind; [apply Hinside; lia|]. destruct (Z.ltb_spec r l).
    + apply wp_bind, wp_load8; [lia|]. apply wp_bind, wp_load8; [lia|]. apply wp_ret. fold (P r). fold (T pos r).
      destruct (Z.eqb_spec (P r) (T pos r)).
      * apply wp_ret. split; [|lia]. split; [done|]. split; [lia|]. intros i Hir. destruct (Z.eq_dec i r) as [-> |]; [done|]. apply Hi. lia.
      * split; [done|]. split; [lia|]. split; [done|]. intros _. congruence.
    + apply wp_ret. split; [done|]. split; [lia|]. split; [done|lia].
  - split; [done|]. split; [lia|]. lia.
  - unfold count. lia.
  - lia.
Qed.

Lemma match_left_wp pos mm a : 0 <= pos -> pos + l <= k -> 0 <= mm -> 0 <= a <= l ->
  wp (match_left n (h + pos) mm a) (fun r m' => m' = m /\ r <= a /\ (forall i, r <= i < a -> T pos i = P i) /\ (mm < r -> T pos (r - 1) <> P (r - 1))) m.
Proof.
  intros Hp Hpl Hmm Ha. unfold match_left.
  eapply (wp_while (fun r m' => m' = m /\ 0 <= r <= a /\ forall i, r <= i < a -> T pos i = P i) (fun r => r)).
  - intros r m' (-> & Hr & Hi). destruct (Z.ltb_spec mm r).
    + apply wp_bind, wp_load8; [lia|]. apply wp_bind, wp_load8; [lia|]. apply wp_ret. fold (P (r - 1)). fold (T pos (r - 1)).
      destruct (Z.eqb_spec (P (r - 1)) (T pos (r - 1))).
      * apply wp_ret. split; [|lia]. split; [done|]. split; [lia|]. intros i Hir. destruct (Z.eq_dec i (r - 1)) as [-> |]; [done|]. apply Hi. lia.
      * split; [done|]. split; [lia|]. split; [done|]. intros _. congruence.
    + apply wp_ret. split; [done|]. split; [lia|]. split; [done|lia].
  - split; [done|]. split; [lia|]. lia.
  - unfold count. lia.
  - lia.
Qed.

Context (t : tables) (Ht : tables_ok l t) (cp p mm0 : Z) (Hplan : plan cp p mm0) (Hlim : l < 2 ^ 31).

(** What is remembered of the current place. *)
Definition remembered (pos mm : Z) : Prop := (mm = 0 \/ mm = mm0) /\ forall i, 0 <= i < mm -> T pos i = P i.

Lemma search_round_wp pos mm : 0 <= pos -> pos + l <= k -> clear_to pos -> remembered pos mm ->
  wp (search_round inside t n l (u32 (cp - 1)) p mm0 (h + pos) mm) (fun r m' => m' = m /\
    match r with
    | Return x => x = h + pos /\ occ pos
    | Continue x mm' => exists pos', x = h + pos' /\ pos < pos' <= k /\ clear_to pos' /\ remembered pos' mm'
    end) m.
Proof.
  intros Hp Hpl Hc [Hmm Hmem]. destruct (plan_range _ _ _ Hplan) as [Hcp Hpr]. pose proof (plan_mem _ _ _ Hplan) as Hm0.
  unfold search_round. apply wp_bind, wp_load8; [lia|]. fold (T pos (l - 1)). set (c := T pos (l - 1)).
  assert (0 <= c < 256) as Hcr by apply byte_range, Hm. destruct Ht as (Hb & Hs & Htab). specialize (Htab c Hcr).
  apply wp_bind. eapply wp_lift; [by apply byteset_has_ok|]. destruct (in_set (bytes_ t) c).
  2:{ apply wp_ret. split; [done|]. exists (pos + l). split; [lia|]. split; [lia|]. split; [|split; [by left|lia]].
      apply clear_shift; [done..|]. intros j Hj Ho. apply (Htab (l - 1 - j)); [lia|]. rewrite <- Ho by lia. unfold c. f_equal. lia. }
  destruct Htab as (j & Hj & Hjc & Hsh & Hlast). apply wp_bind. eapply wp_lift.
  { apply zget_lookup. split; [lia|]. exact Hsh. }
  apply wp_bind. eapply wp_lift; [done|]. rewrite (u32_id (l - (j + 1))) by (unfold in_u; lia). unfold ctrue.
  destruct (Z.eqb_spec (l - (j + 1)) 0) as [Ek|Ek]; cbn [negb].
  2:{ apply wp_ret. split; [done|]. set (d := if l - (j + 1) <? mm then mm else l - (j + 1)).
      assert (l - (j + 1) <= d <= l - 1 /\ mm <= d) as [Hd Hmd] by (unfold d; case_cmp; lia).
      exists (pos + d). split; [lia|]. split; [lia|]. split; [|split; [by left|lia]]. apply clear_shift; [done..|].
      intros x Hx Ho. assert (T pos (l - 1) <> P (l - 1)) as Hne by (fold c; intros E; apply (Hlast (l - 1)); [lia|congruence]).
      destruct (Z.lt_ge_cases x (l - (j + 1))).
      - apply (Hlast (l - 1 - x)); [lia|]. rewrite <- Ho by lia. unfold c. f_equal. lia.
      - assert (mm = mm0) as Emm by (unfold d in Hx; destruct Hmm as [-> |]; [|done]; revert Hx; case_cmp; lia).
        subst mm. apply (plan_last _ _ _ Hplan (T pos) Hmem Hne x); [|done]. unfold d in Hx. revert Hx. case_cmp; lia. }
  rewrite (before_first cp 1) by lia. replace (cp + (1 - 1)) with cp by lia.
  seq; [apply match_right_wp; lia|]. intros r ? (-> & Hr & Hmr & Hmis).
  assert (forall i, cp <= i < r -> T pos i = P i) as Hmr'.
  { intros i Hi. destruct (Z.lt_ge_cases i mm); [apply Hmem; lia|]. apply Hmr. lia. }
  eapply gives_bind; [apply Hinside; lia|]. destruct (Z.ltb_spec r l) as [Hrl|Hrl].
  { apply wp_ret. split; [done|]. assert (u32 (r - u32 (cp - 1)) = r - cp + 1) as ->.
    { unfold u32. rewrite Zminus_mod_idemp_r, Z.mod_small by lia. lia. }
    exists (pos + (r - cp + 1)). split; [lia|]. split; [lia|]. split; [|split; [by left|lia]]. apply clear_shift; [done..|].
    intros x Hx. apply (plan_right _ _ _ Hplan (T pos) r); [lia|done|by apply Hmis|lia]. }
  assert (forall i, cp <= i < l -> T pos i = P i) as Hright by (intros i Hi; apply Hmr'; lia).
  seq; [apply match_left_wp; destruct Hmm as [-> | ->]; lia|]. intros q ? (-> & Hq & Hmq & Hmisq).
  destruct (Z.leb_spec q mm) as [Hqm|Hqm].
  - apply wp_ret. split; [done|]. split; [done|]. intros i Hi. fold (T pos i).
    destruct (Z.lt_ge_cases i mm); [apply Hmem; lia|]. destruct (Z.lt_ge_cases i cp); [apply Hmq; lia|apply Hright; lia].
  - apply wp_ret. split; [done|]. exists (pos + p). split; [lia|]. split; [lia|]. split.
    + apply clear_shift; [done..|]. intros x Hx. destruct (Z.eq_dec x 0) as [-> |].
      * intros Ho. apply (Hmisq ltac:(lia)). rewrite <- (Ho (q - 1)); [f_equal; lia|]. destruct Hmm as [-> | ->]; lia.
      * apply (plan_left _ _ _ Hplan (T pos) Hright). lia.
    + split; [by right|]. intros i Hi. rewrite <- (plan_shift _ _ _ Hplan (T pos) Hright i Hi). unfold T. f_equal. lia.
Qed.

End Text.
End Needle.

Lemma search_loop_wp m (Hm : wf_memory m) n l h k t cp p mm0 : 0 <= n -> 0 < l < 2 ^ 31 -> n + l <= zlen m ->
  0 <= h -> h + k <= zlen m -> tables_ok m n l t -> plan m n l cp p mm0 ->
  k < 2 ^ 32 -> forall fuel pos mm, k - pos < Z.of_nat fuel -> 0 <= pos <= k -> clear_to m n l h pos -> remembered m n h mm0 pos mm ->
  wp (search_loop fuel t n l (u32 (cp - 1)) p mm0 (h + k) (h + pos) mm) (fun r m' => m' = m /\ found m n l h k r) m.
Proof.
  intros Hn Hl Hnl Hh Hhk Ht Hplan H32. induction fuel as [|fuel IH]; intros pos mm Hf Hp Hc Hr; [lia|]. cbn [search_loop].
  replace (h + k - (h + pos)) with (k - pos) by lia. rewrite (u32_id (k - pos)) by (unfold in_u; lia).
  destruct (Z.ltb_spec (k - pos) l).
  - apply wp_ret. split; [done|]. right. split; [|done]. intros j Hj Hjl. apply Hc. lia.
  - seq; [apply (search_round_wp m Hm n l) with (k := k); try done; try lia; intros; by apply wp_ret|]. intros [x|x mm'] ? [-> Hx].
    + destruct Hx as [-> Ho]. apply wp_ret. split; [done|]. left. exists pos. split; [lia|]. split; [lia|]. split; [done|]. by split.
    + destruct Hx as (pos' & -> & Hp' & Hc' & Hr'). apply IH; [lia|lia|done|done].
Qed.

Lemma twoway_wp m n l h k : wf_memory m -> 0 <= n -> 0 < l < 2 ^ 31 -> n + l <= zlen m -> 0 <= h -> 0 <= k < 2 ^ 32 -> h + k <= zlen m ->
  wp (twoway_memmem h (h + k) n l) (fun r m' => m' = m /\ found m n l h k r) m.
Proof.
  intros Hm Hn Hl Hnl Hh Hk Hhk. unfold twoway_memmem. seq; [apply fill_tables_wp; done || lia|]. intros t ? [-> Ht].
  seq; [apply factorize_wp; done || lia|]. intros [[ms p] mm0] ? (-> & cp & -> & Hplan).
  rewrite <- (Z.add_0_r h) at 4. apply search_loop_wp; try done; try lia.
  - unfold count. lia.
  - intros j Hj. lia.
  - split; [by left|lia].
Qed.

(** * Short needles *)

Section Window.
Context (m : memory) (Hm : wf_memory m) (w : Z) (first : Z -> mem Z) (next : Z -> Z -> Z) (win : Z -> Z).
Context (Hw : 0 < w) (Hfirst : forall a, 0 <= a -> a + w <= zlen m -> gives (first a) m (win a)).
Context (Hnext : forall a, next (win a) (byte m (a + w)) = win (a + 1)).
Context (Hwin : forall a b, win a = win b <-> forall i, 0 <= i < w -> byte m (a + i) = byte m (b + i)).

Lemma short_wp h k n : 0 <= h -> w <= k -> h + k <= zlen m -> 0 <= n -> n + w <= zlen m ->
  wp (short_memmem w first next h k n) (fun r m' => m' = m /\ found m n w h k r) m.
Proof.
  intros Hh Hk Hhk Hn Hnw. unfold short_memmem. eapply gives_bind; [apply Hfirst; lia|]. eapply gives_bind; [apply Hfirst; lia|].
  assert (forall pos, win (h + pos) = win n <-> occ m n w h pos) as Hocc by (intros pos; apply Hwin).
  apply wp_bind. eapply (wp_while (fun '(a, k', hw, out) m' => m' = m /\ exists pos, a = h + pos + w /\ k' = k - w - pos /\ hw = win (h + pos) /\
      0 <= pos <= k - w /\ clear_to m n w h pos /\ (out = true -> hw = win n)) (fun '(_, k', _, out) => if out : bool then 0 else k' + 1)).
  - intros [[[a k'] hw] out] m' (-> & pos & -> & -> & -> & Hp & Hc & Ho). apply wp_ret.
    assert (wp (sret (if win (h + pos) =? win n then h + pos + w - w else NULL)) (fun r m' => m' = m /\ (out = true \/ k - w - pos = 0 -> found m n w h k r)) m) as Hend.
    { apply wp_ret. split; [done|]. intros Hx. destruct (Z.eqb_spec (win (h + pos)) (win n)) as [E|E].
      - left. exists pos. split; [lia|]. split; [lia|]. split; [by apply Hocc|]. split; [done|lia].
      - right. split; [|done]. destruct Hx as [Hx|Hx]; [by rewrite Ho in E|]. intros j Hj Hjk.
        destruct (Z.eq_dec j pos) as [-> |]; [by rewrite <- Hocc|]. apply Hc. lia. }
    destruct out; cbn [negb andb]; [eapply wp_mono; [exact Hend|]; intros ? ? [-> H']; split; auto|].
    unfold ctrue. destruct (Z.eqb_spec (k - w - pos) 0); cbn [negb]; [eapply wp_mono; [exact Hend|]; intros ? ? [-> H']; split; auto|].
    destruct (Z.eqb_spec (win (h + pos)) (win n)) as [E|E].
    + apply wp_ret. split; [|lia]. split; [done|]. exists pos. split_and!; done || lia.
    + apply wp_bind, wp_load8; [lia|]. apply wp_ret. split; [|lia]. split; [done|]. exists (pos + 1). split; [lia|]. split; [lia|].
      split; [rewrite Hnext; f_equal; lia|]. split; [lia|]. split; [|done]. intros j Hj.
      destruct (Z.eq_dec j pos) as [-> |]; [by rewrite <- Hocc|]. apply Hc. lia.
  - split; [done|]. exists 0. split; [lia|]. split; [lia|]. split; [by rewrite Z.add_0_r|]. split; [lia|]. split; [intros j; lia|done].
  - unfold count. lia.
  - lia.
Qed.
End Window.

Section Bytes.
Context (m : memory) (Hm : wf_memory m).
Notation b a := (byte m a).

Lemma b_range a : 0 <= b a < 256.
Proof. apply byte_range, Hm. Qed.

Definition win2 (a : Z) : Z := b a * 2 ^ 8 + b (a + 1).
Definition win3 (a : Z) : Z := (b a * 2 ^ 16 + b (a + 1) * 2 ^ 8 + b (a + 2)) * 2 ^ 8.
Definition win4 (a : Z) : Z := b a * 2 ^ 24 + b (a + 1) * 2 ^ 16 + b (a + 2) * 2 ^ 8 + b (a + 3).

Lemma first2_gives a : 0 <= a -> a + 2 <= zlen m -> gives (first2 a) m (win2 a).
Proof.
  intros Ha Hl. unfold first2. do 2 (apply wp_bind, wp_load8; [lia|]). apply wp_ret. split; [done|].
  pose proof (b_range a). pose proof (b_range (a + 1)). rewrite Z.shiftl_mul_pow2, lor_add, Z.mod_small by lia. done.
Qed.

Lemma first3_gives a : 0 <= a -> a + 3 <= zlen m -> gives (first3 a) m (win3 a).
Proof.
  intros Ha Hl. unfold first3. do 3 (apply wp_bind, wp_load8; [lia|]). apply wp_ret. split; [done|].
  pose proof (b_range a). pose proof (b_range (a + 1)). pose proof (b_range (a + 2)). rewrite !Z.shiftl_mul_pow2 by lia.
  rewrite (lor_add 24) by lia. replace (b a * 2 ^ 24 + b (a + 1) * 2 ^ 16) with ((b a * 2 ^ 8 + b (a + 1)) * 2 ^ 16) by lia.
  rewrite (lor_add 16) by lia. rewrite u32_id by (unfold in_u; lia). unfold win3. lia.
Qed.

Lemma first4_gives a : 0 <= a -> a + 4 <= zlen m -> gives (first4 a) m (win4 a).
Proof.
  intros Ha Hl. unfold first4. do 4 (apply wp_bind, wp_load8; [lia|]). apply wp_ret. split; [done|].
  pose proof (b_range a). pose proof (b_range (a + 1)). pose proof (b_range (a + 2)). pose proof (b_range (a + 3)). rewrite !Z.shiftl_mul_pow2 by lia.
  rewrite (lor_add 24) by lia. replace (b a * 2 ^ 24 + b (a + 1) * 2 ^ 16) with ((b a * 2 ^ 8 + b (a + 1)) * 2 ^ 16) by lia.
  rewrite (lor_add 16) by lia.
  replace ((b a * 2 ^ 8 + b (a + 1)) * 2 ^ 16 + b (a + 2) * 2 ^ 8) with ((b a * 2 ^ 16 + b (a + 1) * 2 ^ 8 + b (a + 2)) * 2 ^ 8) by lia.
  rewrite (lor_add 8) by lia. rewrite u32_id by (unfold in_u; lia). unfold win4. lia.
Qed.

Lemma next2_win a : next2 (win2 a) (b (a + 2)) = win2 (a + 1).
Proof.
  pose proof (b_range a). pose proof (b_range (a + 1)). pose proof (b_range (a + 2)). unfold next2, win2.
  rewrite Z.shiftl_mul_pow2, lor_add by lia. symmetry. replace (a + 1 + 1) with (a + 2) by lia. apply Z.mod_unique with (b a); lia.
Qed.

Lemma next3_win a : next3 (win3 a) (b (a + 3)) = win3 (a + 1).
Proof.
  pose proof (b_range a). pose proof (b_range (a + 1)). pose proof (b_range (a + 2)). pose proof (b_range (a + 3)). unfold next3, win3.
  rewrite lor_add, Z.shiftl_mul_pow2 by lia. replace (a + 1 + 1) with (a + 2) by lia. replace (a + 1 + 2) with (a + 3) by lia.
  symmetry. apply Z.mod_unique with (b a); lia.
Qed.

Lemma next4_win a : next4 (win4 a) (b (a + 4)) = win4 (a + 1).
Proof.
  pose proof (b_range a). pose proof (b_range (a + 1)). pose proof (b_range (a + 2)). pose proof (b_range (a + 3)). pose proof (b_range (a + 4)).
  unfold next4. rewrite Z.shiftl_mul_pow2 by lia.
  assert (u32 (win4 a * 2 ^ 8) = (b (a + 1) * 2 ^ 16 + b (a + 2) * 2 ^ 8 + b (a + 3)) * 2 ^ 8) as ->.
  { symmetry. unfold win4. apply Z.mod_unique with (b a); lia. }
  rewrite lor_add by lia. rewrite u32_id by (unfold in_u; lia). unfold win4.
  replace (a + 1 + 1) with (a + 2) by lia. replace (a + 1 + 2) with (a + 3) by lia. replace (a + 1 + 3) with (a + 4) by lia. lia.
Qed.

Lemma win2_eq a c : win2 a = win2 c <-> forall i, 0 <= i < 2 -> b (a + i) = b (c + i).
Proof.
  pose proof (b_range a). pose proof (b_range (a + 1)). pose proof (b_range c). pose proof (b_range (c + 1)). unfold win2. split.
  - intros E i Hi. assert (i = 0 \/ i = 1) as [-> | ->] by lia; rewrite ?Z.add_0_r; lia.
  - intros E. rewrite <- (Z.add_0_r a), <- (Z.add_0_r c), (E 0), !Z.add_0_r, (E 1) by lia. done.
Qed.

Lemma win3_eq a c : win3 a = win3 c <-> forall i, 0 <= i < 3 -> b (a + i) = b (c + i).
Proof.
  pose proof (b_range a). pose proof (b_range (a + 1)). pose proof (b_range (a + 2)). pose proof (b_range c). pose proof (b_range (c + 1)).
  pose proof (b_range (c + 2)). unfold win3. split.
  - intros E i Hi. assert (i = 0 \/ i = 1 \/ i = 2) as [-> |[-> | ->]] by lia; rewrite ?Z.add_0_r; lia.
  - intros E. rewrite <- (Z.add_0_r a), <- (Z.add_0_r c), (E 0), !Z.add_0_r, (E 1), (E 2) by lia. done.
Qed.

Lemma win4_eq a c : win4 a = win4 c <-> forall i, 0 <= i < 4 -> b (a + i) = b (c + i).
Proof.
  pose proof (b_range a). pose proof (b_range (a + 1)). pose proof (b_range (a + 2)). pose proof (b_range (a + 3)).
  pose proof (b_range c). pose proof (b_range (c + 1)). pose proof (b_range (c + 2)). pose proof (b_range (c + 3)). unfold win4. split.
  - intros E i Hi. assert (i = 0 \/ i = 1 \/ i = 2 \/ i = 3) as [-> |[-> |[-> | ->]]] by lia; rewrite ?Z.add_0_r; lia.
  - intros E. rewrite <- (Z.add_0_r a), <- (Z.add_0_r c), (E 0), !Z.add_0_r, (E 1), (E 2), (E 3) by lia. done.
Qed.
End Bytes.

(** * [memmem] *)

(** An occurrence starts with the first character. *)
Lemma found_from m n l h k f r : 0 < l -> 0 <= f -> (forall j, 0 <= j < f -> byte m (h + j) <> byte m n) ->
  found m n l (h + f) (k - f) r -> found m n l h k r.
Proof.
  intros Hl Hf Hmiss. assert (forall j, occ m n l (h + f) j <-> occ m n l h (f + j)) as E.
  { intros j. split; intros H i Hi; rewrite <- H by done; f_equal; lia. }
  assert (forall j, 0 <= j < f -> ~ occ m n l h j) as Hno.
  { intros j Hj Ho. apply (Hmiss j Hj). specialize (Ho 0 ltac:(lia)). unfold P in Ho. by rewrite !Z.add_0_r in Ho. }
  intros [(j & Hj & Hjk & Ho & Hfirst & ->)|[Hnone ->]].
  - left. exists (f + j). split; [lia|]. split; [lia|]. split; [by apply E|]. split; [|lia]. intros j' Hj'.
    destruct (Z.lt_ge_cases j' f); [apply Hno; lia|]. replace j' with (f + (j' - f)) by lia. rewrite <- E. apply Hfirst. lia.
  - right. split; [|done]. intros j Hj Hjk. destruct (Z.lt_ge_cases j f); [apply Hno; lia|].
    replace j with (f + (j - f)) by lia. rewrite <- E. apply Hnone; lia.
Qed.

Lemma memmem_wp m h k n l : wf_memory m -> 0 < h -> 0 <= k < 2 ^ 32 -> h + k <= zlen m -> 0 <= n -> 0 <= l < 2 ^ 31 -> n + l <= zlen m ->
  wp (memmem h k n l) (fun r m' => m' = m /\ found m n l h k r) m.
Proof.
  intros Hm Hh Hk Hhk Hn Hl Hnl. unfold memmem. destruct (Z.eqb_spec l 0) as [-> |Hl0].
  { apply wp_ret. split; [done|]. left. exists 0. split; [lia|]. split; [lia|]. split; [intros i; lia|]. split; [lia|lia]. }
  destruct (Z.ltb_spec k l). { apply wp_ret. split; [done|]. right. split; [lia|done]. }
  apply wp_bind, wp_load8; [lia|]. pose proof (byte_range m n (wf_bytes _ Hm)) as Hc.
  destruct (memchr_gives m Hm h k (byte m n) ltac:(lia) ltac:(lia) Hc ltac:(lia)) as (f & Hf & Hmiss & Hhit & Hg).
  eapply gives_bind; [apply Hg; apply u8_id; done|]. destruct (Z.ltb_spec f k) as [Hfk|Hfk].
  2:{ change (NULL =? NULL) with true. cbn [orb]. apply wp_ret. split; [done|]. apply (found_from m n l h k f); [lia..|done|].
      right. split; [lia|done]. }
  rewrite (proj2 (Z.eqb_neq (h + f) NULL)) by (unfold NULL; lia). cbn [orb]. specialize (Hhit Hfk).
  destruct (Z.eqb_spec l 1) as [-> |].
  { apply wp_ret. split; [done|]. apply (found_from m n 1 h k f); [lia..|done|]. left. exists 0. split; [lia|]. split; [lia|].
    split; [|split; [lia|lia]]. intros i Hi. assert (i = 0) as -> by lia. unfold P. by rewrite !Z.add_0_r. }
  replace (k - (h + f - h)) with (k - f) by lia. rewrite (u32_id (k - f)) by (unfold in_u; lia).
  destruct (Z.ltb_spec (k - f) l). { apply wp_ret. split; [done|]. apply (found_from m n l h k f); [lia..|done|]. right. split; [lia|done]. }
  apply (wp_mono _ (fun r m' => m' = m /\ found m n l (h + f) (k - f) r)).
  2:{ intros r m' [-> Hr]. split; [done|]. by apply (found_from m n l h k f); [lia..|done|]. }
  destruct (Z.eqb_spec l 2) as [-> |].
  { apply (short_wp m 2 first2 next2 (win2 m)); [lia|by apply first2_gives|by apply next2_win|by apply win2_eq|lia..]. }
  destruct (Z.eqb_spec l 3) as [-> |].
  { apply (short_wp m 3 first3 next3 (win3 m)); [lia|by apply first3_gives|by apply next3_win|by apply win3_eq|lia..]. }
  destruct (Z.eqb_spec l 4) as [-> |].
  { apply (short_wp m 4 first4 next4 (win4 m)); [lia|by apply first4_gives|by apply next4_win|by apply win4_eq|lia..]. }
  apply twoway_wp; done || lia.
Qed.

(** The naive search. *)
Fixpoint naive (n h : list Z) {struct h} : option Z :=
  if bool_decide (take (length n) h = n) then Some 0
  else match h with [] => None | _ :: h' => option_map (Z.add 1) (naive n h') end.

Lemma naive_spec n h : match naive n h with
  | Some j => 0 <= j /\ take (length n) (drop (Z.to_nat j) h) = n /\ forall j', 0 <= j' < j -> take (length n) (drop (Z.to_nat j') h) <> n
  | None => forall j, 0 <= j -> take (length n) (drop (Z.to_nat j) h) <> n
  end.
Proof.
  induction h as [|c h IH]; cbn [naive]; case_bool_decide as E.
  - split; [lia|]. split; [done|lia].
  - intros j Hj. by rewrite drop_nil.
  - split; [lia|]. split; [done|lia].
  - assert (forall j, 0 <= j -> drop (Z.to_nat (1 + j)) (c :: h) = drop (Z.to_nat j) h) as Ed.
    { intros j Hj. by replace (Z.to_nat (1 + j)) with (S (Z.to_nat j)) by lia. }
    destruct (naive n h) as [j|]; cbn [option_map].
    + destruct IH as (Hj & Ho & Hno). split; [lia|]. split; [by rewrite Ed|]. intros j' Hj'.
      destruct (Z.eq_dec j' 0) as [-> |]; [done|]. replace j' with (1 + (j' - 1)) by lia. rewrite Ed by lia. apply Hno. lia.
    + intros j Hj. destruct (Z.eq_dec j 0) as [-> |]; [done|]. replace j with (1 + (j - 1)) by lia. rewrite Ed by lia. apply IH. lia.
Qed.

(** Occurrences in memory and in lists. *)
Lemma occ_lists m n l h k j : 0 <= n -> 0 <= l -> n + l <= zlen m -> 0 <= h -> 0 <= k -> h + k <= zlen m -> 0 <= j ->
  take (length (bytes_at m n l)) (drop (Z.to_nat j) (bytes_at m h k)) = bytes_at m n l <-> (l = 0 \/ j + l <= k) /\ occ m n l h j.
Proof.
  intros Hn Hl Hnl Hh Hk Hhk Hj. pose proof (zlen_bytes_at m n l Hn Hl Hnl) as E1. pose proof (zlen_bytes_at m h k Hh Hk Hhk) as E2.
  assert (length (bytes_at m n l) = Z.to_nat l) as L1 by (unfold zlen in E1; lia).
  assert (length (bytes_at m h k) = Z.to_nat k) as L2 by (unfold zlen in E2; lia). rewrite L1.
  destruct (Z.eq_dec l 0) as [-> |Hl0].
  { split; [intros _; split; [by left|intros i; lia]|intros _]. symmetry. apply length_zero_iff_nil. exact L1. }
  split.
  - intros E. pose proof (f_equal (@length Z) E) as El. rewrite length_take, length_drop, L1, L2 in El. split; [right; lia|].
    intros i Hi. pose proof (f_equal (fun x => nth (Z.to_nat i) x 0) E) as Ei. cbv beta in Ei.
    rewrite (byte_at m n l i) in Ei by lia. unfold P. rewrite <- Ei. rewrite nth_lookup, lookup_take_lt, lookup_drop by lia.
    rewrite <- nth_lookup. replace (Z.to_nat j + Z.to_nat i)%nat with (Z.to_nat (j + i)) by lia. rewrite byte_at by lia. f_equal. lia.
  - intros [[?|Hjk] Ho]; [done|]. apply (nth_ext _ _ 0 0).
    { rewrite length_take, length_drop, L1, L2. lia. }
    rewrite length_take, length_drop, L2. intros i Hi. rewrite nth_lookup, lookup_take_lt, lookup_drop, <- nth_lookup by lia.
    replace (Z.to_nat j + i)%nat with (Z.to_nat (j + Z.of_nat i)) by lia. rewrite byte_at by lia.
    replace i with (Z.to_nat (Z.of_nat i)) at 2 by lia. rewrite byte_at by lia. rewrite Z.add_assoc. apply Ho. lia.
Qed.

Lemma found_naive m n l h k r : 0 <= n -> 0 <= l -> n + l <= zlen m -> 0 <= h -> 0 <= k -> h + k <= zlen m -> found m n l h k r ->
  r = match naive (bytes_at m n l) (bytes_at m h k) with Some j => h + j | None => NULL end.
Proof.
  intros Hn Hl Hnl Hh Hk Hhk Hf. pose proof (naive_spec (bytes_at m n l) (bytes_at m h k)) as Hs.
  assert (forall j, 0 <= j -> take (length (bytes_at m n l)) (drop (Z.to_nat j) (bytes_at m h k)) = bytes_at m n l <-> (l = 0 \/ j + l <= k) /\ occ m n l h j) as Ho
    by (intros; by apply occ_lists).
  destruct (naive _ _) as [j|].
  - destruct Hs as (Hj & Hoj & Hfirst). apply Ho in Hoj as [Hjk Hoj]; [|done]. destruct Hf as [(j' & Hj' & Hjk' & Hoj' & Hfirst' & ->)|[Hnone ->]].
    + destruct (Z.lt_trichotomy j j') as [Hlt|[-> |Hgt]]; [exfalso; by apply (Hfirst' j); [lia|]|done|].
      exfalso. apply (Hfirst j'); [lia|]. apply Ho; [done|]. split; [by right|done].
    + exfalso. destruct Hjk as [-> |Hjk]; [|by apply (Hnone j)]. apply (Hnone 0); [lia|lia|intros i; lia].
  - destruct Hf as [(j' & Hj' & Hjk' & Hoj' & _ & ->)|[_ ->]]; [|done]. exfalso. apply (Hs j' Hj'). apply Ho; [done|]. split; [by right|done].
Qed.

(** C25: for every needle and haystack, [memmem] gives exactly what a naive
    search gives: the first place where the needle occurs, or null; the two-way
    algorithm, its critical factorization, its shifts and its memory skip no
    occurrence and end, no load leaves the memory, and nothing is written. *)
Theorem memmem_correct m h k n l : wf_memory m -> 0 < h -> 0 <= k < 2 ^ 32 -> h + k <= zlen m -> 0 <= n -> 0 <= l < 2 ^ 31 -> n + l <= zlen m ->
  memmem h k n l m = Ok (match naive (bytes_at m n l) (bytes_at m h k) with Some j => h + j | None => NULL end, m).
Proof.
  intros Hm Hh Hk Hhk Hn Hl Hnl. destruct (memmem_wp m h k n l Hm Hh Hk Hhk Hn Hl Hnl) as (r & m' & E & -> & Hf).
  rewrite E. by rewrite (found_naive m n l h k r) by (done || lia).
Qed.

(** "babab" in "abbababab". *)
Lemma memmem_correct_witness : wf_memory search_memory /\
  naive (bytes_at search_memory 11 5) (bytes_at search_memory 1 9) = Some 2 /\ memmem 1 9 11 5 search_memory = Ok (3, search_memory).
Proof.
  assert (wf_memory search_memory) as Hm by (split; [repeat constructor; lia|reflexivity|vm_compute; discriminate]).
  split; [done|]. split; [reflexivity|].
  exact (memmem_correct search_memory 1 9 11 5 Hm ltac:(lia) ltac:(lia) ltac:(vm_compute; discriminate) ltac:(lia) ltac:(lia) ltac:(vm_compute; discriminate)).
Defined.
