(* ===== verification/SearchStr.v ===== *)
(** [strstr] finds the first occurrence: equivalence with the naive search. *)

From S2P Require Import Prelude Memory Strings StringsScan StringsSpec Twoway Search SearchSpec.

(** A string of [k] characters at [s]. *)
Record text_at (m : memory) (s k : Z) : Prop := {
  text_start : 0 <= s;
  text_len : 0 <= k;
  text_in : s + k < zlen m;
  text_nul : byte m (s + k) = 0;
  text_full : forall i, 0 <= i < k -> byte m (s + i) <> 0
}.

Lemma cstr_text m s l : cstr m s l -> text_at m s (zlen l).
Proof.
  intros (Hs & Hl & Hf & Hb). pose proof (zlen_nonneg l). split; [lia..| |].
  - rewrite Hb by lia. unfold schar, zlen. apply nth_overflow. lia.
  - intros i Hi. rewrite Hb by lia. pose proof (text_char l i Hf Hi). lia.
Qed.

Lemma text_from m s k f : text_at m s k -> 0 <= f <= k -> text_at m (s + f) (k - f).
Proof.
  intros [] Hf. split; [lia..| |].
  - by replace (s + f + (k - f)) with (s + k) by lia.
  - intros i Hi. rewrite <- Z.add_assoc. apply text_full0. lia.
Qed.

(** A character of a string is zero exactly at its end. *)
Lemma text_char_at m s k i : text_at m s k -> 0 <= i <= k -> gives (let* c := load8 (s + i) in sret (ctrue c)) m (i <? k).
Proof.
  intros [] Hi. apply wp_bind, wp_load8; [lia|]. apply wp_ret. split; [done|]. unfold ctrue. destruct (Z.ltb_spec i k).
  - by rewrite (proj2 (Z.eqb_neq _ 0)) by (apply text_full0; lia).
  - assert (i = k) as -> by lia. by rewrite text_nul0.
Qed.

Lemma text_nonzero m s k i : text_at m s k -> 0 <= i <= k -> ctrue (byte m (s + i)) = (i <? k).
Proof.
  intros Ht Hi. destruct (text_char_at m s k i Ht Hi) as (r & m' & E & _ & ->).
  revert E. unfold sbind, load8, sret. destruct Ht. decide_cmp. by intros [= ].
Qed.

Lemma wp_memsize m Q : Q (S (length m)) m -> wp memsize Q m.
Proof. intros H. exists (S (length m)), m. split; [done|exact H]. Qed.

(** * Short needles *)

Section Window.
Context (m : memory) (Hm : wf_memory m) (w : Z) (first : Z -> mem Z) (next : Z -> Z -> Z) (win : Z -> Z).
Context (Hw : 0 < w) (Hfirst : forall a, 0 <= a -> a + w <= zlen m -> gives (first a) m (win a)).
Context (Hnext : forall a, next (win a) (byte m (a + w)) = win (a + 1)).
Context (Hwin : forall a b, win a = win b <-> forall i, 0 <= i < w -> byte m (a + i) = byte m (b + i)).

Lemma short_str_wp h k n : text_at m h k -> w <= k -> 0 <= n -> n + w <= zlen m ->
  wp (short_strstr w first next h n) (fun r m' => m' = m /\ found m n w h k r) m.
Proof.
  intros Ht Hk Hn Hnw. pose proof Ht as []. unfold short_strstr.
  eapply gives_bind; [apply Hfirst; lia|]. eapply gives_bind; [apply Hfirst; lia|]. apply wp_bind, wp_memsize.
  assert (forall pos, win (h + pos) = win n <-> occ m n w h pos) as Hocc by (intros pos; apply Hwin).
  apply wp_bind. eapply (wp_while (fun '(a, hw) m' => m' = m /\ exists pos, a = h + (pos + (w - 1)) /\ hw = win (h + pos) /\
      0 <= pos <= k - w + 1 /\ clear_to m n w h pos) (fun '(a, _) => h + k - a)).
  - intros [a hw] m' (-> & pos & -> & -> & Hp & Hc). apply wp_bind, wp_load8; [lia|]. apply wp_ret.
    rewrite (text_nonzero m h k) by (done || lia). destruct (Z.ltb_spec (pos + (w - 1)) k); cbn [andb].
    + destruct (Z.eqb_spec (win (h + pos)) (win n)) as [E|E]; cbn [negb].
      * apply wp_bind, wp_load8; [lia|]. apply wp_ret. split; [done|]. rewrite (text_nonzero m h k) by (done || lia).
        rewrite (proj2 (Z.ltb_lt _ _)) by lia. left. exists pos. split; [lia|]. split; [lia|]. split; [by apply Hocc|]. split; [done|lia].
      * apply wp_bind, wp_load8; [lia|]. apply wp_ret. split; [|lia]. split; [done|]. exists (pos + 1). split; [lia|].
        split; [|split; [lia|]].
        -- replace (h + (pos + (w - 1)) + 1) with (h + pos + w) by lia. rewrite Hnext. f_equal. lia.
        -- intros j Hj. destruct (Z.eq_dec j pos) as [-> |]; [by rewrite <- Hocc|]. apply Hc. lia.
    + apply wp_bind, wp_load8; [lia|]. apply wp_ret. split; [done|]. rewrite (text_nonzero m h k) by (done || lia).
      rewrite (proj2 (Z.ltb_ge _ _)) by lia. right. split; [|done]. intros j Hj Hjk. apply Hc. lia.
  - split; [done|]. exists 0. split; [lia|]. split; [by rewrite Z.add_0_r|]. split; [lia|]. intros j; lia.
  - unfold zlen in *. lia.
  - lia.
Qed.
End Window.

(** * The two-way search *)

(** The needle is measured against the haystack. *)
Lemma measure_needle_wp m n l h k : wf_memory m -> text_at m n l -> text_at m h k -> 0 < l ->
  wp (measure_needle n h) (fun '(l', t) m' => m' = m /\ l' = Z.min l k /\ (l <= k -> tables_ok m n l t)) m.
Proof.
  intros Hm Hn Hh Hl. pose proof Hn as []. pose proof Hh as []. unfold measure_needle. apply wp_bind, wp_memsize.
  eapply (wp_while (fun '(i, t) m' => m' = m /\ 0 <= i <= Z.min l k /\ tables_ok m n i t) (fun '(i, _) => l - i)).
  - intros [i t] m' (-> & Hi & Ht). apply wp_bind, wp_load8; [lia|]. rewrite (text_nonzero m n l) by (done || lia).
    destruct (Z.ltb_spec i l) as [Hil|Hil].
    + apply wp_bind, wp_load8; [lia|]. apply wp_ret. rewrite (text_nonzero m h k) by (done || lia). destruct (Z.ltb_spec i k).
      * seq; [apply (table_add_wp m Hm n l); try lia; exact Ht|]. intros t' ? [-> Ht']. apply wp_ret.
        split; [|lia]. split; [done|]. split; [lia|done].
      * split; [done|]. split; lia.
    + apply wp_ret. split; [done|]. split; [lia|]. by assert (i = l) as -> by lia.
  - split; [done|]. split; [lia|]. apply no_tables_ok.
  - unfold zlen in *. lia.
  - lia.
Qed.

(** The estimate of MAX(l,63) is at least [l]. *)
Lemma grow_range l : 0 <= l -> l <= Z.lor l 63 <= l + 63.
Proof.
  intros Hl. pose proof (Z.add_lor_land l 63) as E. change 63 with (Z.ones 6) in E at 2. rewrite Z.land_ones in E by lia.
  pose proof (Z.mod_pos_bound l (2 ^ 6) ltac:(lia)). change (2 ^ 6) with 64 in *. lia.
Qed.

Lemma extend_end_wp m h k l pos zp : wf_memory m -> 0 < h -> text_at m h k -> 0 < l < 2 ^ 31 -> 0 <= pos <= zp -> zp <= k ->
  wp (extend_end (h + zp) (h + pos) l) (fun r m' => m' = m /\
    match r with None => k - pos < l | Some z => exists zp', z = h + zp' /\ zp' <= k /\ pos + l <= zp' end) m.
Proof.
  intros Hm Hh Ht Hl Hp Hz. pose proof Ht as []. pose proof (wf_limit m Hm). unfold extend_end.
  replace (h + zp - (h + pos)) with (zp - pos) by lia. rewrite u32_id by (unfold in_u; lia). destruct (Z.ltb_spec (zp - pos) l).
  2:{ apply wp_ret. split; [done|]. exists zp. lia. }
  pose proof (grow_range l ltac:(lia)) as Hg. set (grow := Z.lor l 63) in *.
  destruct (memchr_gives m Hm (h + zp) grow 0 ltac:(lia) ltac:(lia) ltac:(lia)) as (i & Hi & Hmiss & Hhit & Hgives).
  { intros i Hi Hno. destruct (Z.lt_ge_cases (zp + i) (k + 1)); [lia|]. destruct (Hno (k - zp) ltac:(lia)).
    by replace (h + zp + (k - zp)) with (h + k) by lia. }
  eapply gives_bind; [by apply Hgives|]. assert (zp + i <= k) as Hik.
  { destruct (Z.lt_ge_cases k (zp + i)) as [Hlt|]; [|done]. destruct (Hmiss (k - zp) ltac:(lia)).
    by replace (h + zp + (k - zp)) with (h + k) by lia. }
  destruct (Z.ltb_spec i grow) as [Hlt|Hge].
  - unfold ctrue. rewrite (proj2 (Z.eqb_neq _ 0)) by lia. cbn [negb]. assert (zp + i = k) as Ek.
    { destruct (Z.eq_dec (zp + i) k); [done|]. destruct (text_full0 (zp + i)); [lia|]. rewrite Z.add_assoc. by apply Hhit. }
    replace (h + zp + i - (h + pos)) with (k - pos) by lia. rewrite u32_id by (unfold in_u; lia). apply wp_ret. split; [done|].
    destruct (Z.ltb_spec (k - pos) l); [done|]. exists k. lia.
  - change (ctrue NULL) with false. cbn iota. apply wp_ret. split; [done|]. exists (zp + grow). lia.
Qed.

Lemma strstr_loop_wp m n l h k t cp p mm0 : wf_memory m -> text_at m n l -> 0 < l < 2 ^ 31 -> 0 < h -> text_at m h k ->
  tables_ok m n l t -> plan m n l cp p mm0 -> forall fuel pos zp mm, k - pos < Z.of_nat fuel -> 0 <= pos <= zp -> zp <= k ->
  clear_to m n l h pos -> remembered m n h mm0 pos mm ->
  wp (strstr_loop fuel t n l (u32 (cp - 1)) p mm0 (h + zp) (h + pos) mm) (fun r m' => m' = m /\ found m n l h k r) m.
Proof.
  intros Hm Hn Hl Hh Hk Ht Hplan. pose proof Hn as []. pose proof Hk as [].
  induction fuel as [|fuel IH]; intros pos zp mm Hf Hp Hz Hc Hr; [lia|]. cbn [strstr_loop].
  seq; [by apply (extend_end_wp m h k l pos zp)|]. intros [z|] ? [-> Hx].
  - destruct Hx as (zp' & -> & Hz' & Hpl). seq.
    + apply (search_round_wp m Hm n l) with (k := zp'); try done; try lia. intros i Hi. by apply text_char_at.
    + intros [x|x mm'] ? [-> Hx].
      * destruct Hx as [-> Ho]. apply wp_ret. split; [done|]. left. exists pos. split; [lia|]. split; [lia|]. split; [done|]. by split.
      * destruct Hx as (pos' & -> & Hp' & Hc' & Hr'). apply IH; [lia|lia|lia|done|done].
  - apply wp_ret. split; [done|]. right. split; [|done]. intros j Hj Hjl. apply Hc. lia.
Qed.

Lemma twoway_str_wp m n l h k : wf_memory m -> text_at m n l -> 0 < l < 2 ^ 31 -> 0 < h -> text_at m h k ->
  wp (twoway_strstr h n) (fun r m' => m' = m /\ found m n l h k r) m.
Proof.
  intros Hm Hn Hl Hh Hk. pose proof Hn as []. pose proof Hk as []. unfold twoway_strstr.
  seq; [apply (measure_needle_wp m n l h k); done || lia|]. intros [l' t] ? (-> & -> & Ht). cbn beta iota.
  apply wp_bind, wp_load8; [lia|]. rewrite (text_nonzero m n l) by (done || lia). destruct (Z.ltb_spec (Z.min l k) l).
  { apply wp_ret. split; [done|]. right. split; [lia|done]. }
  replace (Z.min l k) with l by lia. specialize (Ht ltac:(lia)).
  seq; [apply factorize_wp; done || lia|]. intros [[ms p] mm0] ? (-> & cp & -> & Hplan). apply wp_bind, wp_memsize.
  rewrite <- (Z.add_0_r h) at 1 2. apply strstr_loop_wp; try done; try lia.
  - unfold zlen in *. lia.
  - intros j Hj. lia.
  - split; [by left|lia].
Qed.

(** * [strstr] *)

Lemma upto_clear p l j : 0 <= j < upto p l -> p (schar l j) = false.
Proof.
  intros Hj. pose proof (upto_take p l) as Ht. rewrite (Forall_nth _ 0) in Ht. pose proof (upto_range p l).
  specialize (Ht (Z.to_nat j)). rewrite nth_lookup, lookup_take_lt, <- nth_lookup in Ht by lia. apply Ht.
  rewrite length_take. unfold zlen in *. lia.
Qed.

(** The needle is not empty: the search from the first place of its first character. *)
Lemma strstr_from m h k n l : wf_memory m -> 0 < h -> text_at m h k -> text_at m n l -> 1 < l < 2 ^ 31 -> byte m h = byte m n ->
  wp (strstr_at h n) (fun r m' => m' = m /\ found m n l h k r) m.
Proof.
  intros Hm Hh Hk Hn Hl E. pose proof Hn as []. pose proof Hk as [].
  unfold strstr_at. assert (1 <= k) as H1.
  { destruct (Z.eq_dec k 0) as [-> |]; [|lia]. destruct (text_full0 0 ltac:(lia)). by rewrite Z.add_0_r, <- E, <- (Z.add_0_r h). }
  assert (forall j, k < l -> found m n l h k NULL) as Hshort by (intros; right; split; [lia|done]).
  apply wp_bind, wp_load8; [lia|]. rewrite (text_nonzero m h k) by (done || lia).
  destruct (Z.ltb_spec 1 k); cbn [negb]; [|apply wp_ret; split; [done|]; apply Hshort; lia].
  apply wp_bind, wp_load8; [lia|]. rewrite (text_nonzero m n l) by (done || lia). destruct (Z.ltb_spec 2 l); cbn [negb].
  2:{ assert (l = 2) as -> by lia. apply (short_str_wp m 2 first2 next2 (win2 m)); [lia|by apply first2_gives|by apply next2_win|by apply win2_eq|done|lia..]. }
  apply wp_bind, wp_load8; [lia|]. rewrite (text_nonzero m h k) by (done || lia).
  destruct (Z.ltb_spec 2 k); cbn [negb]; [|apply wp_ret; split; [done|]; apply Hshort; lia].
  apply wp_bind, wp_load8; [lia|]. rewrite (text_nonzero m n l) by (done || lia). destruct (Z.ltb_spec 3 l); cbn [negb].
  2:{ assert (l = 3) as -> by lia. apply (short_str_wp m 3 first3 next3 (win3 m)); [lia|by apply first3_gives|by apply next3_win|by apply win3_eq|done|lia..]. }
  apply wp_bind, wp_load8; [lia|]. rewrite (text_nonzero m h k) by (done || lia).
  destruct (Z.ltb_spec 3 k); cbn [negb]; [|apply wp_ret; split; [done|]; apply Hshort; lia].
  apply wp_bind, wp_load8; [lia|]. rewrite (text_nonzero m n l) by (done || lia). destruct (Z.ltb_spec 4 l); cbn [negb].
  2:{ assert (l = 4) as -> by lia. apply (short_str_wp m 4 first4 next4 (win4 m)); [lia|by apply first4_gives|by apply next4_win|by apply win4_eq|done|lia..]. }
  apply twoway_str_wp; done || lia.
Qed.

Lemma strstr_wp m h lh n ln : wf_memory m -> 0 < h -> cstr m h lh -> cstr m n ln -> zlen ln < 2 ^ 31 ->
  wp (strstr h n) (fun r m' => m' = m /\ found m n (zlen ln) h (zlen lh) r) m.
Proof.
  intros Hm Hh Hlh Hln Hlim. pose proof (cstr_text m n ln Hln) as Hn. pose proof (cstr_text m h lh Hlh) as Hk.
  pose proof Hn as []. pose proof Hk as []. pose proof (byte_range m n (wf_bytes m Hm)) as Hc. set (l := zlen ln) in *. set (k := zlen lh) in *.
  pose proof (text_nonzero m n l 0 Hn ltac:(lia)) as Hn0. rewrite Z.add_0_r in Hn0. unfold strstr. apply wp_bind, wp_load8; [lia|]. rewrite Hn0.
  destruct (Z.ltb_spec 0 l) as [Hl|Hl]; cbn [negb].
  2:{ apply wp_ret. split; [done|]. left. exists 0. split; [lia|]. split; [lia|]. split; [intros i; lia|]. split; [lia|lia]. }
  eapply gives_bind; [by apply (strchr_gives m h lh)|]. cbv zeta. rewrite u8_id by done.
  pose proof (upto_range (stops_at (byte m n)) lh) as Hf. pose proof (upto_char (stops_at (byte m n)) lh eq_refl) as Hhit.
  pose proof (upto_clear (stops_at (byte m n)) lh) as Hmiss. set (f := upto _ lh) in *. fold k in Hf.
  assert (forall j, 0 <= j < f -> byte m (h + j) <> byte m n) as Hmiss'.
  { intros j Hj. rewrite (cstr_byte m h lh Hlh) by (fold k; lia). specialize (Hmiss j Hj). unfold stops_at in Hmiss.
    apply orb_false_iff in Hmiss as [_ H]. by apply Z.eqb_neq. }
  destruct (Z.eqb_spec (schar lh f) (byte m n)) as [E|E].
  - unfold ctrue at 1. rewrite (proj2 (Z.eqb_neq _ 0)) by lia. cbn [negb]. assert (byte m (h + f) = byte m n) as Ef by (by rewrite (cstr_byte m h lh Hlh)).
    apply wp_bind, wp_load8; [lia|]. rewrite (text_nonzero m n l) by (done || lia).
    assert (forall r, found m n l (h + f) (k - f) r -> found m n l h k r) as Hfrom by (intros r; apply found_from; done || lia).
    destruct (Z.ltb_spec 1 l); cbn [negb].
    + eapply wp_mono; [apply (strstr_from m (h + f) (k - f) n l); try done; try lia; by apply text_from|].
      intros r ? [-> Hr]. split; [done|]. by apply Hfrom.
    + apply wp_ret. split; [done|]. apply Hfrom. left. exists 0. assert (f < k).
      { destruct (Z.eq_dec f k) as [-> |]; [|lia]. rewrite (text_nul _ _ _ Hk) in Ef. unfold ctrue in Hn0. by rewrite <- Ef in Hn0. }
      split; [lia|]. split; [lia|]. split; [|split; [lia|lia]].
      intros i Hi. assert (i = 0) as -> by lia. unfold P. by rewrite !Z.add_0_r.
  - change (ctrue NULL) with false. cbn [negb]. apply wp_ret. split; [done|]. right. split; [|done]. intros j Hj Hjk Ho.
    assert (f = k) as Efk.
    { destruct (Z.eq_dec f k); [done|]. unfold stops_at in Hhit. apply orb_true_iff in Hhit as [H0|H0]; apply Z.eqb_eq in H0; [|done].
      destruct (text_full _ _ _ Hk f); [lia|]. by rewrite (cstr_byte m h lh Hlh). }
    apply (Hmiss' j); [lia|]. specialize (Ho 0 ltac:(lia)). unfold P in Ho. by rewrite !Z.add_0_r in Ho.
Qed.

Lemma cstr_content m s l : cstr m s l -> bytes_at m s (zlen l) = l.
Proof.
  intros Hl. pose proof (cstr_bytes m s l Hl) as E. pose proof (zlen_nonneg l).
  transitivity (take (length l) (bytes_at m s (zlen l + 1))).
  - unfold bytes_at, zlen. rewrite take_take. f_equal. lia.
  - by rewrite E, take_app_length.
Qed.

(** C26: for every pair of C strings [strstr] gives what a naive search gives,
    the first place of the needle in the haystack or null, on each of its four
    paths; the two-way search ends although the length of the haystack
    is only found bit by bit, 63 characters or a needle length at a time. *)
Theorem strstr_correct m h lh n ln : wf_memory m -> 0 < h -> cstr m h lh -> cstr m n ln -> zlen ln < 2 ^ 31 ->
  strstr h n m = Ok (match naive ln lh with Some j => h + j | None => NULL end, m).
Proof.
  intros Hm Hh Hlh Hln Hlim. destruct (strstr_wp m h lh n ln Hm Hh Hlh Hln Hlim) as (r & m' & E & -> & Hf).
  pose proof (cstr_text m n ln Hln) as []. pose proof (cstr_text m h lh Hlh) as [].
  rewrite E. rewrite (found_naive m n (zlen ln) h (zlen lh) r) by (done || lia). by rewrite !cstr_content.
Qed.

(** "babab" in "abbababab". *)
Lemma strstr_correct_witness : wf_memory search_memory /\
  naive [98; 97; 98; 97; 98] [97; 98; 98; 97; 98; 97; 98; 97; 98] = Some 2 /\ strstr 1 11 search_memory = Ok (3, search_memory).
Proof.
  assert (wf_memory search_memory) as Hm by (split; [repeat constructor; lia|reflexivity|vm_compute; discriminate]).
  split; [done|]. split; [reflexivity|].
  apply (strstr_correct search_memory 1 [97; 98; 98; 97; 98; 97; 98; 97; 98] 11 [98; 97; 98; 97; 98] Hm); [lia|..|reflexivity];
    by apply cstr_check.
Defined.
