(* ===== verification/StringsType.v ===== *)
(** What the memory and string functions leave of the memory's type, for every
    argument, valid or not: the functions that only read give back the
    memory they got, the others keep it a memory of the same size.

    [Keeps R c] says that [c] leads from a memory to one related by [R]; instances
    for the constructs of the model compose, so that a function's instance is
    found by following its code.  Later files use the instances to carry [wf_memory]
    through calls. *)

From S2P Require Import Prelude Memory Strings Search.

Class Keeps (R : relation memory) {A} (c : mem A) : Prop :=
  keeps : forall m a m', c m = Ok (a, m') -> R m m'.

(** Memory of the same size, of bytes if it was. *)
Definition retyped (m m' : memory) : Prop := (wf_memory m -> wf_memory m') /\ zlen m' = zlen m.

#[export] Instance retyped_preorder : PreOrder retyped.
Proof.
  split; [by split|]. intros m1 m2 m3 [H1 E1] [H2 E2]. split; [auto|congruence].
Qed.

(** * The constructs *)

Section Constructs.
Context {R : relation memory} `{!PreOrder R}.

#[global] Instance keeps_ret {A} (a : A) : Keeps R (sret a).
Proof. intros m b m' [= <- <-]. reflexivity. Qed.

#[global] Instance keeps_sget {A} (f : memory -> A) : Keeps R (sget f).
Proof. intros m b m' [= <- <-]. reflexivity. Qed.

#[global] Instance keeps_fail {A} : Keeps R (sfail : mem A).
Proof. by intros m b m' Hf. Qed.

#[global] Instance keeps_nofuel {A} : Keeps R ((fun _ => NoFuel) : mem A).
Proof. by intros m b m' Hf. Qed.

#[global] Instance keeps_lift {A} (o : outcome A) : Keeps R (lift o).
Proof. intros m b m' Ho. unfold lift in Ho. destruct o; simplify_eq/=. reflexivity. Qed.

#[global] Instance keeps_bind {A B} (c : mem A) (k : A -> mem B) :
  Keeps R c -> (forall a, Keeps R (k a)) -> Keeps R (sbind c k).
Proof.
  intros Hc Hk m b m' [[a m1] [E1 E2]]%obind_Ok. transitivity m1; [by eapply Hc|by eapply Hk].
Qed.

#[global] Instance keeps_while {A} fuel (cond : A -> mem bool) (body : A -> mem A) a :
  (forall a, Keeps R (cond a)) -> (forall a, Keeps R (body a)) -> Keeps R (while fuel cond body a).
Proof.
  intros Hc Hb. revert a. induction fuel as [|fuel IH]; intros a; cbn [while]; [apply _|].
  apply keeps_bind; [done|]. intros []; [|apply _]. by apply keeps_bind.
Qed.

#[global] Instance keeps_if {A} (b : bool) (c1 c2 : mem A) : Keeps R c1 -> Keeps R c2 -> Keeps R (if b then c1 else c2).
Proof. by destruct b. Qed.

#[global] Instance keeps_load8 a : Keeps R (load8 a).
Proof. intros m b m'. unfold load8. case_match; [|done]. intros [= _ <-]. reflexivity. Qed.

#[global] Instance keeps_load32 a : Keeps R (load32 a).
Proof. intros m b m'. unfold load32. case_match; [|done]. intros [= _ <-]. reflexivity. Qed.

#[global] Instance keeps_memsize : Keeps R memsize.
Proof. apply _. Qed.
End Constructs.

(** A pattern, a [match] or a [let] is followed into its branches. *)
#[export] Hint Extern 0 (Keeps _ (match ?x with _ => _ end)) => destruct x : typeclass_instances.
#[export] Hint Extern 0 (Keeps _ (let _ := _ in _)) => cbv zeta : typeclass_instances.

Ltac keeps_by f := intros; unfold f; apply _.

(** * Stores *)

Lemma wf_insert m a v : wf_memory m -> wf_memory (<[a := u8 v]> m).
Proof.
  intros [Hb Hs Hl]. split; unfold zlen in *; rewrite ?length_insert; [|done|done].
  apply Forall_insert; [done|]. pose proof (u8_range v). bounds. lia.
Qed.

#[export] Instance keeps_store8 a v : Keeps retyped (store8 a v).
Proof.
  intros m b m'. unfold store8. case_match; [|done]. intros [= _ <-].
  split; [apply wf_insert|]. unfold zlen. by rewrite length_insert.
Qed.
#[export] Instance keeps_store32 a v : Keeps retyped (store32 a v).
Proof. keeps_by store32. Qed.
#[export] Instance keeps_store64 a v : Keeps retyped (store64 a v).
Proof. keeps_by store64. Qed.

(** A block of bytes stored over the memory. *)
Lemma retyped_blit m d l : 0 <= d -> d + zlen l <= zlen m -> (wf_memory m -> Forall (fun b => 0 <= b < 256) l) -> retyped m (blit m d l).
Proof.
  intros Hd Hl Hb. assert (zlen (blit m d l) = zlen m) as E by (by apply zlen_blit). split; [|done].
  intros Hm. split; rewrite ?E; try apply Hm. unfold blit. rewrite !Forall_app. split_and!;
    [apply Forall_take, Hm|by apply Hb|apply Forall_drop, Hm].
Qed.

(** * memcpy.c, memmove.c, memset.c *)

Section Bulk.
Context (bulk : option Z).

#[export] Instance keeps_memory_copy d s n : Keeps retyped (memory_copy d s n).
Proof.
  intros m b m'. unfold memory_copy. destruct (_ && _) eqn:Hb; [|done]. rewrite !andb_true_iff, !Z.leb_le in Hb. intros [= _ <-].
  destruct (Z.le_gt_cases 0 n) as [Hn|Hn].
  - apply retyped_blit; [lia|rewrite zlen_bytes_at; lia|]. intros Hm. apply Forall_take, Forall_drop, Hm.
  - unfold bytes_at. replace (Z.to_nat n) with O by lia. rewrite take_0. unfold blit. cbn [app length]. rewrite Nat.add_0_r, take_drop. reflexivity.
Qed.
#[export] Instance keeps_memory_fill d c n : Keeps retyped (memory_fill d c n).
Proof.
  intros m b m'. unfold memory_fill. destruct (_ && _) eqn:Hb; [|done]. rewrite !andb_true_iff, !Z.leb_le in Hb. intros [= _ <-].
  destruct (Z.le_gt_cases 0 n) as [Hn|Hn].
  - apply retyped_blit; [lia|unfold zlen in *; rewrite length_replicate; lia|]. intros _. apply Forall_replicate.
    pose proof (u8_range c). bounds. lia.
  - replace (Z.to_nat n) with O by lia. unfold blit. cbn [app length replicate]. rewrite Nat.add_0_r, take_drop. reflexivity.
Qed.

#[export] Instance keeps_copy_byte d s : Keeps retyped (copy_byte d s).
Proof. keeps_by copy_byte. Qed.
#[export] Instance keeps_copy_word d s : Keeps retyped (copy_word d s).
Proof. keeps_by copy_word. Qed.
#[export] Instance keeps_copy_bytes k : forall d s, Keeps retyped (copy_bytes k d s).
Proof. induction k as [|k IH]; intros; cbn [copy_bytes]; apply _. Qed.
#[export] Instance keeps_memcpy_aligned d s n : Keeps retyped (memcpy_aligned d s n).
Proof. keeps_by memcpy_aligned. Qed.
#[export] Instance keeps_memcpy_shifted e d s n : Keeps retyped (memcpy_shifted e d s n).
Proof. keeps_by memcpy_shifted. Qed.
#[export] Instance keeps_memcpy_tail d s n : Keeps retyped (memcpy_tail d s n).
Proof. keeps_by memcpy_tail. Qed.
#[export] Instance keeps_memcpy d s n : Keeps retyped (memcpy bulk d s n).
Proof. keeps_by memcpy. Qed.
#[export] Instance keeps_memmove_up d s n : Keeps retyped (memmove_up d s n).
Proof. keeps_by memmove_up. Qed.
#[export] Instance keeps_memmove_down d s n : Keeps retyped (memmove_down d s n).
Proof. keeps_by memmove_down. Qed.
#[export] Instance keeps_memmove d s n : Keeps retyped (memmove bulk d s n).
Proof. keeps_by memmove. Qed.
#[export] Instance keeps_stores8 s c os : Keeps retyped (stores8 s c os).
Proof. induction os; cbn [stores8]; apply _. Qed.
#[export] Instance keeps_stores32 s c os : Keeps retyped (stores32 s c os).
Proof. induction os; cbn [stores32]; apply _. Qed.
#[export] Instance keeps_memset_words s c n : Keeps retyped (memset_words s c n).
Proof. keeps_by memset_words. Qed.
#[export] Instance keeps_memset d c n : Keeps retyped (memset bulk d c n).
Proof. keeps_by memset. Qed.
End Bulk.

(** * Reading *)

Section Read.
Context {R : relation memory} `{!PreOrder R}.

#[export] Instance keeps_align_find stop s : Keeps R (align_find stop s).
Proof. keeps_by align_find. Qed.
#[export] Instance keeps_find stop s : Keeps R (find stop s).
Proof. keeps_by find. Qed.
#[export] Instance keeps_find_word hit w : Keeps R (find_word hit w).
Proof. keeps_by find_word. Qed.
#[export] Instance keeps_strlen s : Keeps R (strlen s).
Proof. keeps_by strlen. Qed.
#[export] Instance keeps_strchrnul s c : Keeps R (__strchrnul s c).
Proof. keeps_by __strchrnul. Qed.
#[export] Instance keeps_memchr_bytes cond c s n : Keeps R (memchr_bytes cond c s n).
Proof. keeps_by memchr_bytes. Qed.
#[export] Instance keeps_memchr s c n : Keeps R (memchr s c n).
Proof. keeps_by memchr. Qed.
#[export] Instance keeps_memrchr s c n : Keeps R (__memrchr s c n).
Proof. intros. unfold __memrchr. induction (Z.to_nat n) as [|k IH]; cbn [memrchr_loop]; apply _. Qed.
#[export] Instance keeps_strchr s c : Keeps R (strchr s c).
Proof. keeps_by strchr. Qed.
#[export] Instance keeps_strrchr s c : Keeps R (strrchr s c).
Proof. keeps_by strrchr. Qed.
#[export] Instance keeps_strnlen s n : Keeps R (strnlen s n).
Proof. keeps_by strnlen. Qed.
#[export] Instance keeps_memcmp l r n : Keeps R (memcmp l r n).
Proof. keeps_by memcmp. Qed.
#[export] Instance keeps_strcmp l r : Keeps R (strcmp l r).
Proof. keeps_by strcmp. Qed.
#[export] Instance keeps_strncmp l r n : Keeps R (strncmp l r n).
Proof. keeps_by strncmp. Qed.
#[export] Instance keeps_byteset_of c : Keeps R (byteset_of c).
Proof. keeps_by byteset_of. Qed.
#[export] Instance keeps_byteset_skip keep b s : Keeps R (byteset_skip keep b s).
Proof. keeps_by byteset_skip. Qed.
#[export] Instance keeps_strcspn s c : Keeps R (strcspn s c).
Proof. keeps_by strcspn. Qed.
#[export] Instance keeps_strspn s c : Keeps R (strspn s c).
Proof. keeps_by strspn. Qed.
#[export] Instance keeps_strpbrk s c : Keeps R (strpbrk s c).
Proof. keeps_by strpbrk. Qed.

(** ** Substring search *)

#[export] Instance keeps_first2 a : Keeps R (first2 a).
Proof. keeps_by first2. Qed.
#[export] Instance keeps_first3 a : Keeps R (first3 a).
Proof. keeps_by first3. Qed.
#[export] Instance keeps_first4 a : Keeps R (first4 a).
Proof. keeps_by first4. Qed.
#[export] Instance keeps_short_memmem w first next h k n : (forall a, Keeps R (first a)) -> Keeps R (short_memmem w first next h k n).
Proof. keeps_by short_memmem. Qed.
#[export] Instance keeps_short_strstr w first next h n : (forall a, Keeps R (first a)) -> Keeps R (short_strstr w first next h n).
Proof. keeps_by short_strstr. Qed.
#[export] Instance keeps_table_add n i t : Keeps R (table_add n i t).
Proof. keeps_by table_add. Qed.
#[export] Instance keeps_fill_tables n l : Keeps R (fill_tables n l).
Proof. keeps_by fill_tables. Qed.
#[export] Instance keeps_measure_needle n h : Keeps R (measure_needle n h).
Proof. keeps_by measure_needle. Qed.
#[export] Instance keeps_maximal_suffix less n l : Keeps R (maximal_suffix less n l).
Proof. keeps_by maximal_suffix. Qed.
#[export] Instance keeps_factorize n l : Keeps R (factorize n l).
Proof. keeps_by factorize. Qed.
#[export] Instance keeps_search_round inside t n l ms p mem0 h mm : (forall k, Keeps R (inside k)) ->
  Keeps R (search_round inside t n l ms p mem0 h mm).
Proof. intros. unfold search_round, match_right, match_left. apply _. Qed.
#[export] Instance keeps_search_loop fuel t n l ms p mem0 z : forall h mm, Keeps R (search_loop fuel t n l ms p mem0 z h mm).
Proof. induction fuel as [|fuel IH]; intros; cbn [search_loop]; apply _. Qed.
#[export] Instance keeps_memmem h k n l : Keeps R (memmem h k n l).
Proof. intros. unfold memmem, twobyte_memmem, threebyte_memmem, fourbyte_memmem, twoway_memmem. apply _. Qed.
#[export] Instance keeps_extend_end z h l : Keeps R (extend_end z h l).
Proof. keeps_by extend_end. Qed.
#[export] Instance keeps_strstr_loop fuel t n l ms p mem0 : forall z h mm, Keeps R (strstr_loop fuel t n l ms p mem0 z h mm).
Proof. induction fuel as [|fuel IH]; intros; cbn [strstr_loop]; apply _. Qed.
#[export] Instance keeps_strstr h n : Keeps R (strstr h n).
Proof. intros. unfold strstr, strstr_at, twobyte_strstr, threebyte_strstr, fourbyte_strstr, twoway_strstr. apply _. Qed.
End Read.

(** * Tokens and copies *)

#[export] Instance keeps_strtok_r s sep p : Keeps retyped (strtok_r s sep p).
Proof. keeps_by strtok_r. Qed.
#[export] Instance keeps_strsep s sep : Keeps retyped (strsep s sep).
Proof. keeps_by strsep. Qed.
#[export] Instance keeps_copy_string d s : Keeps retyped (copy_string d s).
Proof. keeps_by copy_string. Qed.
#[export] Instance keeps_stpcpy d s : Keeps retyped (__stpcpy d s).
Proof. keeps_by __stpcpy. Qed.
#[export] Instance keeps_strcat d s : Keeps retyped (strcat d s).
Proof. intros. unfold strcat, strcpy. apply _. Qed.
#[export] Instance keeps_copy_until cond c d s n : Keeps retyped (copy_until cond c d s n).
Proof. keeps_by copy_until. Qed.
#[export] Instance keeps_copy_words_until hit d s n : Keeps retyped (copy_words_until hit d s n).
Proof. keeps_by copy_words_until. Qed.
#[export] Instance keeps_memccpy d s c n : Keeps retyped (memccpy d s c n).
Proof. keeps_by memccpy. Qed.
#[export] Instance keeps_stpncpy bulk d s n : Keeps retyped (__stpncpy bulk d s n).
Proof. keeps_by __stpncpy. Qed.
#[export] Instance keeps_strlcpy d s n : Keeps retyped (strlcpy d s n).
Proof. keeps_by strlcpy. Qed.
#[export] Instance keeps_strlcat d s n : Keeps retyped (strlcat d s n).
Proof. keeps_by strlcat. Qed.
#[export] Instance keeps_strncat d s n : Keeps retyped (strncat d s n).
Proof. keeps_by strncat. Qed.
