(* ===== verification/Environ.v ===== *)
(** The environment ([libc-top-half/musl/src/env/]: getenv.c, setenv.c, putenv.c,
    unsetenv.c, clearenv.c; [libc-bottom-half/sources/]:
    __wasilibc_initialize_environ.c, __wasilibc_environ.c).

    Memory is a map from blocks to their contents, bytes or an array of
    pointers; a pointer is a block and an offset.  Strings are shared: [putenv]
    stores the caller's pointer, [getenv] returns a pointer into the
    environment, and [setenv] frees the string it replaces, if it made it.  Reading a
    freed block and freeing what the library has not allocated are undefined.

    The allocator and the host are parameters. *)

From S2P Require Import Prelude Preopens.

Definition EQUALS : Z := 61.

(** * Memory *)

Definition ptr : Type := Z * Z.
Inductive block : Type :=
| Bytes (l : list Z)
| Ptrs (l : list (option ptr)).
(** [owned]: the library allocated the block. *)
Record cell : Type := Cell { owned : bool; content : block }.

(** What malloc and realloc answer, from the live blocks and the size. *)
Class Allocator := {
  malloc : gset Z -> Z -> option Z;
  realloc : gset Z -> Z -> Z -> option Z
}.
Class AllocatorSpec `{Allocator} : Prop := {
  malloc_fresh live n b : malloc live n = Some b -> b ∉ live;
  realloc_fresh live p n b : realloc live p n = Some b -> b = p \/ b ∉ live
}.

(** [__wasilibc_environ]: not initialized ([(char ** )-1]), null, or an array. *)
Inductive env_ptr : Type := Uninit | Null | Arr (b : Z).

Record world : Type := World {
  heap : gmap Z cell;
  environ : env_ptr;
  oldenv : option Z;
  env_alloced : option Z;
  env_alloced_n : Z;
  errno : Z
}.
Definition with_heap (h : gmap Z cell) (w : world) : world :=
  World h (environ w) (oldenv w) (env_alloced w) (env_alloced_n w) (errno w).
Definition with_environ (e : env_ptr) (w : world) : world :=
  World (heap w) e (oldenv w) (env_alloced w) (env_alloced_n w) (errno w).
Definition with_oldenv (e : option Z) (w : world) : world :=
  World (heap w) (environ w) e (env_alloced w) (env_alloced_n w) (errno w).
Definition with_alloced (a : option Z) (n : Z) (w : world) : world :=
  World (heap w) (environ w) (oldenv w) a n (errno w).
Definition with_errno (e : Z) (w : world) : world :=
  World (heap w) (environ w) (oldenv w) (env_alloced w) (env_alloced_n w) e.

(** The C string at a pointer. *)
Definition text_of (h : gmap Z cell) (p : ptr) : option (list Z) :=
  match h !! fst p with
  | Some (Cell _ (Bytes l)) =>
      let l := drop (Z.to_nat (snd p)) l in
      if (0 <=? snd p) && existsb (fun c => c =? 0) l then Some (Preopens.until_nul l) else None
  | _ => None
  end.
Definition text (p : ptr) : M world (list Z) := fun w =>
  match text_of (heap w) p with Some t => Ok (t, w) | None => UB end.

(** The array of pointers in a block. *)
Definition slots_of (b : Z) : M world (list (option ptr)) := fun w =>
  match heap w !! b with Some (Cell _ (Ptrs l)) => Ok (l, w) | _ => UB end.
Definition set_slots (b : Z) (l : list (option ptr)) : M world unit := fun w =>
  match heap w !! b with
  | Some (Cell o (Ptrs l0)) =>
      if zlen l =? zlen l0 then Ok (tt, with_heap (<[b := Cell o (Ptrs l)]> (heap w)) w) else UB
  | _ => UB
  end.

Definition free_block (b : Z) : M world unit := fun w =>
  match heap w !! b with
  | Some (Cell true _) => Ok (tt, with_heap (delete b (heap w)) w)
  | _ => UB
  end.
(** [free(p)] *)
Definition free (p : option ptr) : M world unit :=
  match p with
  | None => sret tt
  | Some (b, o) => if o =? 0 then free_block b else sfail
  end.

Section Env.
Context `{Allocator}.

(** [p = malloc(n)], followed by the stores that fill the block with [c]. *)
Definition alloc (n : Z) (c : block) : M world (option Z) := fun w =>
  match malloc (dom (heap w)) n with
  | Some b => Ok (Some b, with_heap (<[b := Cell true c]> (heap w)) w)
  | None => Ok (None, with_errno ENOMEM w)
  end.

(** [t = realloc(p, n)] of a block [p] or null, followed by the stores that complete its contents to [c]. *)
Definition resize (p : option Z) (n : Z) (c : block) : M world (option Z) :=
  match p with
  | None => alloc n c
  | Some p => fun w =>
      match heap w !! p with
      | Some (Cell true _) =>
          match realloc (dom (heap w)) p n with
          | Some b => Ok (Some b, with_heap (<[b := Cell true c]> (delete p (heap w))) w)
          | None => Ok (None, with_errno ENOMEM w)
          end
      | _ => UB
      end
  end.

(** * Initialization *)

(** What the host says: the number of variables and the bytes they take; and for a buffer of that size
    the offset of each variable and the bytes. *)
Context (environ_sizes_get : res (Z * Z)) (environ_get : res (list Z * list Z)).

(** The block of the static [empty_environ]. *)
Definition empty_environ : Z := -1.

(** [Err] is the exit status of [_Exit]. *)
Definition __wasilibc_initialize_environ : M world (res unit) :=
  match environ_sizes_get with
  | Err _ => sret (Err Preopens.EX_OSERR)
  | Val (environ_count, environ_buf_size) =>
      if environ_count =? 0 then do* sput (with_environ (Arr empty_environ)) in sret (Val tt)
      else
        let num_ptrs := u32 (environ_count + 1) in
        if num_ptrs =? 0 then sret (Err Preopens.EX_SOFTWARE)
        else
          let* environ_buf := alloc environ_buf_size (Bytes []) in
          match environ_buf with
          | None => sret (Err Preopens.EX_SOFTWARE)
          | Some buf =>
              let* environ_ptrs := if num_ptrs * 4 <? 2 ^ 32 then alloc (num_ptrs * 4) (Ptrs (replicate (Z.to_nat num_ptrs) None)) else sret None in
              match environ_ptrs with
              | None => do* free_block buf in sret (Err Preopens.EX_SOFTWARE)
              | Some ptrs =>
                  match environ_get with
                  | Err _ => do* free_block buf in do* free_block ptrs in sret (Err Preopens.EX_OSERR)
                  | Val (offsets, bytes) =>
                      let* l := slots_of ptrs in
                      do* set_slots ptrs (map (fun o => Some (buf, o)) offsets ++ drop (length offsets) l) in
                      do* (if zlen bytes <=? environ_buf_size then sput (fun w => with_heap (<[buf := Cell true (Bytes bytes)]> (heap w)) w) else sfail) in
                      do* sput (with_environ (Arr ptrs)) in
                      sret (Val tt)
                  end
              end
          end
  end.

(** The exit of the process is a trap. *)
Definition __wasilibc_ensure_environ : M world unit :=
  let* e := sget environ in
  match e with
  | Uninit => let* r := __wasilibc_initialize_environ in match r with Val _ => sret tt | Err _ => fun _ => Trap end
  | _ => sret tt
  end.

Definition __wasilibc_get_environ : M world env_ptr := do* __wasilibc_ensure_environ in sget environ.

(** * The operations *)

(** [__strchrnul(s, '=') - s] *)
Definition name_len (t : list Z) : Z := zlen (span (fun c => negb (c =? EQUALS)) t).

(** [!strncmp(a, b, n)] of two strings. *)
Definition same_prefix (a b : list Z) (n : Z) : bool := bool_decide (take (Z.to_nat n) a = take (Z.to_nat n) b).

(** [for (e = __environ; *e; e++, i++) if (test( *e)) break;] *)
Fixpoint scan (test : ptr -> M world bool) (i : Z) (slots : list (option ptr)) : M world (Z * option ptr) :=
  match slots with
  | [] => sfail
  | None :: _ => sret (i, None)
  | Some e :: rest =>
      let* hit := test e in
      if hit : bool then sret (i, Some e) else scan test (i + 1) rest
  end.

(** [!strncmp(name, *e, l) && l[*e] == '='] *)
Definition is_entry (name : ptr) (l : Z) (e : ptr) : M world bool :=
  let* n := text name in
  let* t := text e in
  sret (same_prefix n t l && (schar t l =? EQUALS)).

Definition getenv (name : ptr) : M world (option ptr) :=
  do* __wasilibc_ensure_environ in
  let* t := text name in
  let l := name_len t in
  let* e := sget environ in
  match e with
  | Arr b =>
      if ctrue l && (schar t l =? 0) then
        let* slots := slots_of b in
        let* (_, e) := scan (is_entry name l) 0 slots in
        sret (option_map (fun e => (fst e, snd e + l + 1)) e)
      else sret None
  | _ => sret None
  end.

(** The loop of [__env_rm_add] over the slots: the slots, and the value of [new] at its end, or [None] when it returns
    after freeing [old]. *)
Fixpoint rm_add_loop (old new : option ptr) (l : list (option ptr)) : list (option ptr) * option (option ptr) :=
  match l with
  | [] => ([], Some new)
  | x :: l =>
      if bool_decide (x = old) then (new :: l, None)
      else if bool_decide (x = None) && bool_decide (is_Some new) then let (l, r) := rm_add_loop old None l in (new :: l, r)
      else let (l, r) := rm_add_loop old new l in (x :: l, r)
  end.

Definition __env_rm_add (old new : option ptr) : M world unit :=
  let* a := sget env_alloced in
  let* n := sget env_alloced_n in
  let* l := match a with Some b => slots_of b | None => sret [] end in
  do* (if zlen l =? n then sret tt else sfail) in
  let (l, r) := rm_add_loop old new l in
  do* match a with Some b => set_slots b l | None => sret tt end in
  match r with
  | None => free old
  | Some None => sret tt
  | Some new =>
      let* t := resize a (4 * (n + 1)) (Ptrs (l ++ [new])) in
      match t with
      | None => sret tt
      | Some b => sput (with_alloced (Some b) (n + 1))
      end
  end.

Definition same_array (e : env_ptr) (o : option Z) : bool :=
  match e, o with
  | Null, None => true
  | Arr b, Some b' => b =? b'
  | _, _ => false
  end.

(** [r] is [s] when the library has allocated it, or null. *)
Definition __putenv (s : ptr) (l : Z) (r : option ptr) : M world Z :=
  do* __wasilibc_ensure_environ in
  let* e := sget environ in
  let* slots := match e with Arr b => slots_of b | _ => sret [None] end in
  let* (i, hit) := scan (fun e => let* a := text s in let* t := text e in sret (same_prefix a t (l + 1))) 0 slots in
  match hit, e with
  | Some tmp, Arr b =>
      let* slots := lift (zset slots i (Some s)) in
      do* set_slots b slots in
      do* __env_rm_add (Some tmp) r in
      sret 0
  | _, _ =>
      let* old := sget oldenv in
      let c := Ptrs (take (Z.to_nat i) slots ++ [Some s; None]) in
      let* newenv := if same_array e old then resize old (4 * (i + 2)) c
        else
          let* b := alloc (4 * (i + 2)) c in
          match b with
          | None => sret None
          | Some b => do* match old with Some o => free_block o | None => sret tt end in sret (Some b)
          end in
      match newenv with
      | None => do* free r in sret (-1)
      | Some b =>
          do* sput (fun w => with_oldenv (Some b) (with_environ (Arr b) w)) in
          do* match r with Some _ => __env_rm_add None r | None => sret tt end in
          sret 0
      end
  end.

Definition fail_einval : M world Z := do* sput (with_errno EINVAL) in sret (-1).

Definition setenv (var : option ptr) (value : ptr) (overwrite : Z) : M world Z :=
  match var with
  | None => fail_einval
  | Some var =>
      let* t := text var in
      let l1 := name_len t in
      if (l1 =? 0) || ctrue (schar t l1) then fail_einval
      else
        let* present := if overwrite =? 0 then let* p := getenv var in sret (bool_decide (is_Some p)) else sret false in
        if present : bool then sret 0
        else
          let* v := text value in
          let l2 := zlen v in
          let* s := alloc (l1 + l2 + 2) (Bytes (take (Z.to_nat l1) t ++ [EQUALS] ++ v ++ [0])) in
          match s with
          | None => sret (-1)
          | Some s => __putenv (s, 0) l1 (Some (s, 0))
          end
  end.

(** The loop of [unsetenv]: the entries it keeps. *)
Fixpoint unset_loop (name : ptr) (l : Z) (slots : list (option ptr)) : M world (list ptr) :=
  match slots with
  | [] => sfail
  | None :: _ => sret []
  | Some e :: rest =>
      let* hit := is_entry name l e in
      if hit : bool then do* __env_rm_add (Some e) None in unset_loop name l rest
      else let* es := unset_loop name l rest in sret (e :: es)
  end.

Definition unsetenv (name : ptr) : M world Z :=
  let* t := text name in
  let l := name_len t in
  if (l =? 0) || ctrue (schar t l) then fail_einval
  else
    do* __wasilibc_ensure_environ in
    let* e := sget environ in
    match e with
    | Arr b =>
        let* slots := slots_of b in
        let* kept := unset_loop name l slots in
        do* set_slots b (map Some kept ++ None :: drop (S (length kept)) slots) in
        sret 0
    | _ => sret 0
    end.

Definition putenv (s : ptr) : M world Z :=
  let* t := text s in
  let l := name_len t in
  if (l =? 0) || negb (ctrue (schar t l)) then unsetenv s else __putenv s l None.

(** [while ( *e) __env_rm_add( *e++, 0);] *)
Fixpoint clear_loop (slots : list (option ptr)) : M world unit :=
  match slots with
  | [] => sfail
  | None :: _ => sret tt
  | Some e :: rest => do* __env_rm_add (Some e) None in clear_loop rest
  end.

Definition clearenv : M world Z :=
  do* __wasilibc_ensure_environ in
  let* e := sget environ in
  do* sput (with_environ Null) in
  do* match e with Arr b => let* slots := slots_of b in clear_loop slots | _ => sret tt end in
  sret 0.

Definition __wasilibc_deinitialize_environ : M world unit :=
  let* e := sget environ in
  match e with
  | Uninit => sret tt
  | _ => do* clearenv in sput (with_environ Uninit)
  end.
End Env.
