(* ===== verification/EnvironSpec.v ===== *)
(** The environment refines a list of strings: what each operation does to it,
    and that no operation reads a freed string, frees one twice or frees one that
    is the caller's. *)

From S2P Require Import Prelude Preopens Environ.

(** * The abstract environment *)

(** The value, if the string [e] has the form [name=value]. *)
Definition value_of (name e : list Z) : option (list Z) :=
  if bool_decide (take (length name) e = name) then
    match drop (length name) e with c :: v => if c =? EQUALS then Some v else None | [] => None end
  else None.

Fixpoint lookup_env (name : list Z) (es : list (list Z)) : option (list Z) :=
  match es with
  | [] => None
  | e :: es => match value_of name e with Some v => Some v | None => lookup_env name es end
  end.
(** [new] takes the place of the first entry of its name, or comes last. *)
Fixpoint set_env (name new : list Z) (es : list (list Z)) : list (list Z) :=
  match es with
  | [] => [new]
  | e :: es => match value_of name e with Some _ => new :: es | None => e :: set_env name new es end
  end.
Definition unset_env (name : list Z) (es : list (list Z)) : list (list Z) :=
  List.filter (fun e => match value_of name e with Some _ => false | None => true end) es.

(** A name: not empty, and without [=]. *)
Definition good_name (n : list Z) : bool := negb (bool_decide (n = [])) && forallb (fun c => negb (c =? EQUALS)) n.

(** * The slots of [__env_rm_add] *)

Lemma rm_add_loop_spec old : forall new l l' r, rm_add_loop old new l = (l', r) ->
  NoDup (omap id l) -> (forall p, new = Some p -> Some p ∉ l) -> (forall p, new = Some p -> old <> new) ->
  length l' = length l /\ NoDup (omap id l') /\
  (forall p, Some p ∈ l' -> (Some p ∈ l /\ Some p <> old) \/ Some p = new) /\
  match r with
  | None => old ∈ l
  | Some n => old ∉ l /\ forall p, n = Some p -> new = Some p /\ Some p ∉ l'
  end.
Proof.
  intros new l. revert new. induction l as [|x l IH]; intros new l' r E Hnd Hnew Hne; cbn [rm_add_loop] in E.
  { injection E as <- <-. split; [done|]. split; [constructor|]. split; [intros p Hp; by apply elem_of_nil in Hp|].
    split; [apply not_elem_of_nil|]. intros p ->. split; [done|apply not_elem_of_nil]. }
  assert (NoDup (omap id l)) as Hnd' by (destruct x; [by apply NoDup_cons in Hnd as [_ ?]|done]).
  case_bool_decide as Ex.
  { injection E as <- <-. subst x. split; [done|]. split.
    - destruct new as [p|]; [|done]. cbn. apply NoDup_cons. split; [|done]. intros Hp. apply (Hnew p eq_refl).
      apply elem_of_cons. right. by apply list_elem_of_omap in Hp as (? & ? & [= ->]).
    - split; [|apply elem_of_cons; by left]. intros p Hp. apply elem_of_cons in Hp as [Hp|Hp]; [by right|]. left.
      split; [apply elem_of_cons; by right|]. intros <-. cbn in Hnd. apply NoDup_cons in Hnd as [Hn _]. apply Hn.
      apply list_elem_of_omap. by exists (Some p). }
  destruct (bool_decide (x = None) && bool_decide (is_Some new)) eqn:Ec.
  - apply andb_true_iff in Ec as [E1 E2]. apply bool_decide_eq_true in E1 as ->. apply bool_decide_eq_true in E2 as [q ->].
    destruct (rm_add_loop old None l) as [l2 r2] eqn:E2. injection E as <- <-.
    destruct (IH None l2 r2 E2 Hnd' ltac:(done) ltac:(done)) as (Hl & Hn2 & Hin & Hr). split; [cbn; lia|]. split.
    { cbn. apply NoDup_cons. split; [|done]. intros Hq. apply list_elem_of_omap in Hq as (? & Hq & [= ->]).
      destruct (Hin q Hq) as [[Hq' _]|]; [|done]. apply (Hnew q eq_refl). apply elem_of_cons. by right. }
    split.
    { intros p Hp. apply elem_of_cons in Hp as [Hp|Hp]; [by right|]. left. destruct (Hin p Hp) as [[? ?]|]; [|done].
      split; [apply elem_of_cons; by right|done]. }
    destruct r2 as [n|]; [|apply elem_of_cons; by right]. destruct Hr as [Ho Hn]. split.
    { intros H. apply elem_of_cons in H as [H|H]; [by subst|done]. }
    intros p ->. by destruct (Hn p eq_refl).
  - destruct (rm_add_loop old new l) as [l2 r2] eqn:E2. injection E as <- <-.
    assert (forall p, new = Some p -> Some p ∉ l) as Hnew' by (intros p Hp Hi; apply (Hnew p Hp), elem_of_cons; by right).
    destruct (IH new l2 r2 E2 Hnd' Hnew' Hne) as (Hl & Hn2 & Hin & Hr). split; [cbn; lia|]. split.
    { destruct x as [y|]; [|done]. cbn. apply NoDup_cons. split; [|done]. intros Hq. apply list_elem_of_omap in Hq as (? & Hq & [= ->]).
      destruct (Hin y Hq) as [[Hq' _]|Hq'].
      - cbn in Hnd. apply NoDup_cons in Hnd as [Hn _]. apply Hn, list_elem_of_omap. by exists (Some y).
      - apply (Hnew y (eq_sym Hq')), elem_of_cons. by left. }
    split.
    { intros p Hp. apply elem_of_cons in Hp as [Hp|Hp].
      - left. split; [apply elem_of_cons; by left|congruence].
      - destruct (Hin p Hp) as [[? ?]|]; [left|by right]. split; [apply elem_of_cons; by right|done]. }
    destruct r2 as [n|]; [|apply elem_of_cons; by right]. destruct Hr as [Ho Hn]. split.
    { intros H. apply elem_of_cons in H as [H|H]; [by subst|done]. }
    intros p Hp. destruct (Hn p Hp) as [-> Hn']. split; [done|]. intros H. apply elem_of_cons in H as [<-|H]; [|done].
    apply (Hnew p eq_refl), elem_of_cons. by left.
Qed.

(** * The invariant *)

(** [A]: the strings that the library has allocated and will free. *)
Definition alloced_ok (w : world) (A : list ptr) : Prop :=
  (exists l, zlen l = env_alloced_n w /\ A = omap id l /\
     match env_alloced w with None => l = [] | Some b => heap w !! b = Some (Cell true (Ptrs l)) end) /\
  NoDup A /\ forall p, p ∈ A -> snd p = 0 /\ exists c, heap w !! fst p = Some (Cell true (Bytes c)).

(** The blocks of the entries [es] that are allocated strings. *)
Definition claims (A es : list ptr) : list Z := filter (fun b => (b, 0) ∈ A) (map fst es).

(** [es]: the strings of the environment.  An allocated one is there once, so that it can be freed when it goes. *)
Record strings_ok (w : world) (es A : list ptr) : Prop := {
  ok_live : forall e, e ∈ es -> is_Some (text_of (heap w) e);
  ok_alloced : alloced_ok w A;
  ok_unique : NoDup (claims A es);
  ok_whole : forall e, e ∈ es -> (fst e, 0) ∈ A -> snd e = 0;
  ok_environ : forall b, environ w = Arr b -> exists o l, heap w !! b = Some (Cell o (Ptrs l));
  ok_oldenv : forall b, oldenv w = Some b -> exists l, heap w !! b = Some (Cell true (Ptrs l));
  ok_apart : forall a, env_alloced w = Some a -> oldenv w <> Some a /\ environ w <> Arr a
}.
Definition array_ok (w : world) (es : list ptr) : Prop :=
  match environ w with
  | Arr b => exists o rest, heap w !! b = Some (Cell o (Ptrs (map Some es ++ None :: rest)))
  | Null => es = []
  | Uninit => False
  end.

(** The caller's blocks do not change. *)
Definition frame (w w' : world) : Prop := forall b c, heap w !! b = Some (Cell false c) -> environ w <> Arr b -> heap w' !! b = Some (Cell false c).

Lemma text_of_block h h' p : h !! fst p = h' !! fst p -> text_of h p = text_of h' p.
Proof. intros E. unfold text_of. by rewrite E. Qed.

Lemma text_of_bytes h p : is_Some (text_of h p) -> exists o l, h !! fst p = Some (Cell o (Bytes l)).
Proof. unfold text_of. destruct (h !! fst p) as [[o [l|l]]|]; [by eexists _, _|intros [? ?]; done..]. Qed.

Lemma wp_text p t w Q : text_of (heap w) p = Some t -> Q t w -> wp (text p) Q w.
Proof. intros E HQ. exists t, w. split; [|done]. unfold text. by rewrite E. Qed.

Lemma wp_slots b o l w Q : heap w !! b = Some (Cell o (Ptrs l)) -> Q l w -> wp (slots_of b) Q w.
Proof. intros E HQ. exists l, w. split; [|done]. unfold slots_of. by rewrite E. Qed.

Lemma wp_set_slots b o l0 l w Q : heap w !! b = Some (Cell o (Ptrs l0)) -> length l = length l0 ->
  Q tt (with_heap (<[b := Cell o (Ptrs l)]> (heap w)) w) -> wp (set_slots b l) Q w.
Proof.
  intros E El HQ. eexists _, _. split; [|exact HQ]. unfold set_slots. rewrite E. unfold zlen. by rewrite El, Z.eqb_refl.
Qed.

Lemma wp_free_block b c w Q : heap w !! b = Some (Cell true c) -> Q tt (with_heap (delete b (heap w)) w) -> wp (free_block b) Q w.
Proof. intros E HQ. eexists _, _. split; [|exact HQ]. unfold free_block. by rewrite E. Qed.

Lemma NoDup_filter_mono {X} (P Q : X -> Prop) `{forall x, Decision (P x), forall x, Decision (Q x)} (l : list X) :
  (forall x, x ∈ l -> Q x -> P x) -> NoDup (filter P l) -> NoDup (filter Q l).
Proof.
  induction l as [|x l IH]; [done|]. intros HPQ. rewrite !filter_cons. intros Hnd.
  assert (forall x, x ∈ l -> Q x -> P x) as HPQ' by (intros y Hy; apply HPQ; by right).
  assert (NoDup (filter P l)) as Hl by (destruct (decide (P x)); [by apply NoDup_cons in Hnd as [_ ?]|done]).
  destruct (decide (Q x)) as [HQ|]; [|by apply IH]. apply NoDup_cons. split; [|by apply IH].
  rewrite decide_True in Hnd by (apply HPQ; [by left|done]). apply NoDup_cons in Hnd as [Hn _]. rewrite list_elem_of_filter in *. intros [_ Hx]. apply Hn.
  split; [by apply HPQ'|done].
Qed.

Lemma claims_app A es1 es2 : claims A (es1 ++ es2) = claims A es1 ++ claims A es2.
Proof. unfold claims. by rewrite map_app, filter_app. Qed.

Lemma elem_of_claims A es b : b ∈ claims A es <-> (b, 0) ∈ A /\ exists o, (b, o) ∈ es.
Proof.
  unfold claims. rewrite list_elem_of_filter. split; intros [Hb He]; (split; [done|]).
  - apply list_elem_of_fmap in He as ([b' o] & -> & He). by exists o.
  - destruct He as [o He]. apply list_elem_of_fmap. by exists (b, o).
Qed.

(** The block of an allocated entry is used by no other entry. *)
Lemma claim_only A es1 e es2 e' : NoDup (claims A (es1 ++ e :: es2)) -> (fst e, 0) ∈ A -> e' ∈ es1 ++ es2 -> fst e' <> fst e.
Proof.
  intros Hnd He He' E. rewrite claims_app in Hnd. change (e :: es2) with ([e] ++ es2) in Hnd. rewrite claims_app in Hnd.
  apply NoDup_app in Hnd as (_ & Hd & Hnd). apply NoDup_app in Hnd as (_ & Hd2 & _).
  assert (fst e ∈ claims A [e]) as H1 by (apply elem_of_claims; split; [done|]; exists (snd e); apply list_elem_of_singleton; by destruct e).
  assert (forall es, e' ∈ es -> fst e ∈ claims A es) as H2.
  { intros es Hes. apply elem_of_claims. split; [done|]. exists (snd e'). rewrite <- E. by destruct e'. }
  apply elem_of_app in He' as [He'|He'].
  - apply (Hd (fst e)); [by apply H2|]. apply elem_of_app. by left.
  - apply (Hd2 (fst e)); [done|by apply H2].
Qed.

Section Ops.
Context `{AllocatorSpec}.

Lemma wp_alloc n c w Q : (forall b, heap w !! b = None -> Q (Some b) (with_heap (<[b := Cell true c]> (heap w)) w)) ->
  Q None (with_errno ENOMEM w) -> wp (alloc n c) Q w.
Proof.
  intros H1 H2. unfold wp, alloc. destruct (malloc (dom (heap w)) n) as [b|] eqn:E; eexists _, _; (split; [done|]); [|done].
  apply H1, not_elem_of_dom. by apply malloc_fresh in E.
Qed.

(** What [__env_rm_add] does: the allocated strings lose [old] and may gain [new]; only the block of [old], if it was
    allocated, goes away. *)
Definition rm_add_post (w : world) (A : list ptr) (old new : option ptr) (w' : world) (A' : list ptr) : Prop :=
  alloced_ok w' A' /\ environ w' = environ w /\ oldenv w' = oldenv w /\
  (forall p, p ∈ A' -> (p ∈ A /\ Some p <> old) \/ Some p = new) /\
  (forall b c, heap w !! b = Some c -> env_alloced w <> Some b -> (forall p, old = Some p -> p ∈ A -> b <> fst p) -> heap w' !! b = Some c) /\
  (forall a, env_alloced w' = Some a -> env_alloced w = Some a \/ heap w !! a = None).

Lemma resize_wp p n c w Q : (forall b, p = Some b -> exists c0, heap w !! b = Some (Cell true c0)) ->
  (forall b h, Some b = p \/ heap w !! b = None -> h !! b = Some (Cell true c) ->
     (forall b', b' <> b -> Some b' <> p -> h !! b' = heap w !! b') -> Q (Some b) (with_heap h w)) ->
  Q None (with_errno ENOMEM w) -> wp (resize p n c) Q w.
Proof.
  intros Hp H1 H2. unfold resize. destruct p as [p|].
  - destruct (Hp p eq_refl) as [c0 E]. unfold wp. rewrite E. destruct (realloc (dom (heap w)) p n) as [b|] eqn:Er; eexists _, _; (split; [done|]); [|done].
    apply H1; [|apply lookup_insert_eq|].
    + apply realloc_fresh in Er as [-> |Er]; [by left|right]. by apply not_elem_of_dom.
    + intros b' Hb Hb'. rewrite lookup_insert_ne by done. apply lookup_delete_ne. congruence.
  - apply wp_alloc; [|done]. intros b Hb. apply H1; [by right|apply lookup_insert_eq|]. intros b' ? _. by rewrite lookup_insert_ne.
Qed.

Lemma rm_add_wp w A old new : alloced_ok w A -> (old = None -> new <> None) ->
  (forall p, new = Some p -> p ∉ A /\ old <> new /\ snd p = 0 /\ exists c, heap w !! fst p = Some (Cell true (Bytes c))) ->
  wp (__env_rm_add old new) (fun _ w' => exists A', rm_add_post w A old new w' A') w.
Proof.
  intros ((l & Hn & -> & Hl) & Hnd & HA) Hold Hnew. unfold __env_rm_add.
  apply wp_bind, wp_sget. apply wp_bind, wp_sget. apply wp_bind.
  apply (wp_mono _ (fun r w' => r = l /\ w' = w)).
  { destruct (env_alloced w) as [b|]; [by eapply wp_slots|subst l; by apply wp_ret]. }
  intros ? ? [-> ->]. rewrite (proj2 (Z.eqb_eq _ _) Hn). apply wp_bind, wp_ret.
  assert (forall p, Some p ∈ l <-> p ∈ omap id l) as Hin.
  { intros p. rewrite list_elem_of_omap. split; [intros Hp; by exists (Some p)|]. by intros (? & ? & [= ->]). }
  destruct (rm_add_loop old new l) as [l' r] eqn:E.
  destruct (rm_add_loop_spec old new l l' r E Hnd) as (Hlen & Hnd' & Hsub & Hr).
  { intros p Hp. rewrite Hin. by apply Hnew. }
  { intros p Hp. by apply (Hnew p). }
  (* the array is updated *)
  set (w1 := match env_alloced w with Some b => with_heap (<[b := Cell true (Ptrs l')]> (heap w)) w | None => w end).
  apply wp_bind, (wp_mono _ (fun _ w' => w' = w1)).
  { unfold w1. destruct (env_alloced w) as [b|]; [by eapply wp_set_slots|by apply wp_ret]. }
  intros _ ? ->.
  assert (environ w1 = environ w /\ oldenv w1 = oldenv w /\ env_alloced w1 = env_alloced w /\ env_alloced_n w1 = env_alloced_n w) as (E1 & E2 & E3 & E4).
  { unfold w1. destruct (env_alloced w) eqn:Ea; by split_and!. }
  assert (forall b, env_alloced w <> Some b -> heap w1 !! b = heap w !! b) as Hh.
  { intros b Hb. unfold w1. destruct (env_alloced w) as [a|]; [|done]. cbn. apply lookup_insert_ne. congruence. }
  assert (match env_alloced w with None => l' = [] | Some b => heap w1 !! b = Some (Cell true (Ptrs l')) end) as Harr.
  { unfold w1. destruct (env_alloced w) as [a|]; [apply lookup_insert_eq|]. apply nil_length_inv. by rewrite Hlen, Hl. }
  assert (forall b c, heap w !! b = Some (Cell true (Bytes c)) -> env_alloced w <> Some b) as Hbytes.
  { intros b c Hb Ea. rewrite Ea in Hl. congruence. }
  assert (forall p, p ∈ omap id l' -> snd p = 0 /\ exists c, heap w !! fst p = Some (Cell true (Bytes c))) as Hstr.
  { intros p Hp. apply list_elem_of_omap in Hp as (? & Hp & [= ->]). destruct (Hsub p Hp) as [[Hp' _]|Hp'].
    - apply HA. by apply Hin.
    - by destruct (Hnew p (eq_sym Hp')) as (_ & _ & ? & ?). }
  assert (forall p, p ∈ omap id l' -> (p ∈ omap id l /\ Some p <> old) \/ Some p = new) as Hsub'.
  { intros p Hp. apply list_elem_of_omap in Hp as (? & Hp & [= ->]). rewrite <- Hin. by apply Hsub. }
  assert (zlen l' = env_alloced_n w) as Hn' by (unfold zlen in *; lia).
  assert (alloced_ok w1 (omap id l')) as Hok1.
  { split; [exists l'; rewrite E3, E4; by split_and!|]. split; [done|]. intros p Hp. destruct (Hstr p Hp) as (Hz & c & Hc).
    split; [done|]. exists c. rewrite Hh; [done|by eapply Hbytes]. }
  destruct r as [[p|]|].
  - destruct Hr as [Hno Hp]. destruct (Hp p eq_refl) as [Enew Hpl]. destruct (Hnew p Enew) as (HpA & Hpo & Hp0 & c & Hpc).
    apply wp_bind. apply (resize_wp (env_alloced w)).
    + intros b Eb. rewrite Eb in Harr. eauto.
    + intros b h Hb Hhb Hoth. apply wp_sput. exists (omap id (l' ++ [Some p])).
      assert (forall b' c', heap w !! b' = Some c' -> env_alloced w <> Some b' -> h !! b' = Some c') as Hkeep.
      { intros b' c' Hc' Ha. rewrite Hoth; [by rewrite Hh| |congruence]. intros ->. destruct Hb as [Hb|Hb]; [congruence|]. rewrite Hh in Hb by done. congruence. }
      split; [|split; [done|split; [done|split; [|split]]]].
      * split; [exists (l' ++ [Some p]); split; [rewrite zlen_app; cbn; change (zlen [Some p]) with 1; lia|split; done]|]. rewrite omap_app. cbn. split.
        -- apply NoDup_app. split; [done|]. split; [|apply NoDup_singleton]. intros x Hx Hxp. apply list_elem_of_singleton in Hxp as ->.
           apply list_elem_of_omap in Hx as (? & Hx & [= ->]). done.
        -- intros x Hx. apply elem_of_app in Hx as [Hx|Hx].
           ++ destruct (Hstr x Hx) as (? & c' & Hc'). split; [done|]. exists c'. apply Hkeep; [done|by eapply Hbytes].
           ++ apply list_elem_of_singleton in Hx as ->. split; [done|]. exists c. apply Hkeep; [done|by eapply Hbytes].
      * intros x Hx. rewrite omap_app in Hx. apply elem_of_app in Hx as [Hx|Hx]; [by apply Hsub'|]. apply list_elem_of_singleton in Hx as ->. by right.
      * intros b' c' Hc' Ha _. by apply Hkeep.
      * intros a [= <-]. destruct Hb as [Hb|Hb]; [by left|]. destruct (decide (env_alloced w = Some b)); [by left|right]. by rewrite <- Hh.
    + apply wp_ret. exists (omap id l'). split_and!; try done.
      * intros b c' Hc' Ha _. cbn. by rewrite Hh.
      * intros a Ha. left. cbn in Ha. congruence.
  - apply wp_ret. exists (omap id l'). split_and!; try done.
    * intros b c' Hc' Ha _. by rewrite Hh.
    * intros a Ha. left. congruence.
  - destruct old as [o|]; cbn [free].
    + destruct o as [ob oo]. assert ((ob, oo) ∈ omap id l) as Ho by (by apply Hin). destruct (HA _ Ho) as (Ho0 & c & Hoc). cbn in Ho0, Hoc. subst oo.
      change (0 =? 0) with true. cbn iota. pose proof (Hbytes _ _ Hoc) as Hoa. eapply wp_free_block; [by rewrite Hh|].
      assert (forall b c', heap w !! b = Some c' -> env_alloced w <> Some b -> b <> ob -> delete ob (heap w1) !! b = Some c') as Hkeep.
      { intros b c' Hc' Ha Hb. rewrite lookup_delete_ne by done. by rewrite Hh. }
      exists (omap id l'). split; [|split; [done|split; [done|split; [done|split]]]].
      * split; [exists l'; cbn; rewrite E3, E4; split; [done|]; split; [done|]|split; [done|]].
        -- destruct (env_alloced w) as [b|]; [|done]. rewrite lookup_delete_ne; [done|congruence].
        -- intros p Hp. destruct (Hstr p Hp) as (Hp0 & c' & Hc'). split; [done|]. exists c'. apply Hkeep; [done|by eapply Hbytes|].
           intros Epo. assert (p = (ob, 0)) as -> by (destruct p; cbn in *; congruence).
           destruct (Hsub' _ Hp) as [[_ ?]|Hp']; [done|]. by destruct (Hnew (ob, 0) (eq_sym Hp')).
      * intros b c' Hc' Ha Hne. apply Hkeep; [done|done|]. by apply (Hne (ob, 0)).
      * intros a Ha. left. cbn in Ha. congruence.
    + apply wp_ret. exists (omap id l'). split_and!; try done.
      * intros b c' Hc' Ha _. by rewrite Hh.
      * intros a Ha. left. congruence.
Qed.

(** The rest of the invariant follows. *)
Lemma rm_add_strings w es A old new w' A' es' : strings_ok w es A -> rm_add_post w A old new w' A' ->
  (forall e, e ∈ es' -> is_Some (text_of (heap w) e)) ->
  (forall p, old = Some p -> p ∈ A -> forall e, e ∈ es' -> fst e <> fst p) ->
  NoDup (claims A' es') -> (forall e, e ∈ es' -> (fst e, 0) ∈ A' -> snd e = 0) ->
  strings_ok w' es' A' /\ (forall e, e ∈ es' -> text_of (heap w') e = text_of (heap w) e) /\ frame w w' /\
  (forall b o l, environ w = Arr b -> heap w !! b = Some (Cell o (Ptrs l)) -> heap w' !! b = Some (Cell o (Ptrs l))).
Proof.
  intros Hok (Hal & E1 & E2 & Hsub & Hkeep & Hnew) Hlive Hold Hun Hwh.
  pose proof (ok_alloced _ _ _ Hok) as ((l & _ & _ & Hl) & _ & HA).
  assert (forall p, old = Some p -> p ∈ A -> forall b, (exists o l, heap w !! b = Some (Cell o (Ptrs l))) \/ (exists c, heap w !! b = Some (Cell false c)) -> b <> fst p) as Hne.
  { intros p Hp HpA b Hb ->. destruct (HA p HpA) as (_ & c & Hc). destruct Hb as [(? & ? & Hb)|(? & Hb)]; congruence. }
  assert (forall e, e ∈ es' -> heap w' !! fst e = heap w !! fst e) as Hes.
  { intros e He. destruct (text_of_bytes _ _ (Hlive e He)) as (o & t & Ht). rewrite Ht. apply Hkeep; [done| |].
    - intros Ea. rewrite Ea in Hl. congruence.
    - intros p Hp HpA. by apply (Hold p). }
  assert (forall b o l, heap w !! b = Some (Cell o (Ptrs l)) -> env_alloced w <> Some b -> heap w' !! b = Some (Cell o (Ptrs l))) as Hptrs.
  { intros b o l0 Hb Ha. apply Hkeep; [done..|]. intros p Hp HpA. apply (Hne p Hp HpA). left. eauto. }
  split; [split|split; [|split]].
  - intros e He. rewrite (text_of_block _ (heap w)); [by apply Hlive|by apply Hes].
  - done.
  - done.
  - done.
  - intros b Hb. rewrite E1 in Hb. destruct (ok_environ _ _ _ Hok b Hb) as (o & l0 & Hc). exists o, l0. apply Hptrs; [done|].
    intros Ea. by destruct (ok_apart _ _ _ Hok b Ea).
  - intros b Hb. rewrite E2 in Hb. destruct (ok_oldenv _ _ _ Hok b Hb) as (l0 & Hc). exists l0. apply Hptrs; [done|].
    intros Ea. by destruct (ok_apart _ _ _ Hok b Ea).
  - intros a Ha. rewrite E1, E2. destruct (Hnew a Ha) as [Ea|Ea]; [by apply (ok_apart _ _ _ Hok)|]. split.
    + intros Hb. destruct (ok_oldenv _ _ _ Hok a Hb) as (? & ?). congruence.
    + intros Hb. destruct (ok_environ _ _ _ Hok a Hb) as (? & ? & ?). congruence.
  - intros e He. apply text_of_block. by apply Hes.
  - intros b c Hb _. apply Hkeep; [done| |].
    + intros Ea. rewrite Ea in Hl. congruence.
    + intros p Hp HpA. apply (Hne p Hp HpA). right. eauto.
  - intros b o l0 Hb Hc. apply Hptrs; [done|]. intros Ea. by destruct (ok_apart _ _ _ Hok b Ea).
Qed.
End Ops.

(** * Names and entries *)

Definition nonzero (t : list Z) : Prop := Forall (fun c => c <> 0) t.

Lemma until_nul_nonzero l : nonzero (Preopens.until_nul l).
Proof. induction l as [|c l IH]; cbn; [constructor|]. destruct (Z.eqb_spec c 0); [constructor|by constructor]. Qed.

Lemma text_of_nonzero h p t : text_of h p = Some t -> nonzero t.
Proof.
  unfold text_of. destruct (h !! fst p) as [[o [l|l]]|]; [|done..]. case_match; [|done]. intros [= <-]. apply until_nul_nonzero.
Qed.

(** A pointer into a string gives the rest of it. *)
Lemma until_nul_drop k : forall l, (k <= length (Preopens.until_nul l))%nat ->
  Preopens.until_nul (drop k l) = drop k (Preopens.until_nul l) /\ existsb (fun c => c =? 0) (drop k l) = existsb (fun c => c =? 0) l.
Proof.
  induction k as [|k IH]; intros l Hk; [by rewrite !drop_0|]. destruct l as [|c l]; [by cbn in *; lia|]. cbn in *.
  destruct (c =? 0); cbn in *; [lia|]. apply IH. lia.
Qed.

Lemma text_of_drop h e t k : text_of h e = Some t -> 0 <= k <= zlen t -> text_of h (fst e, snd e + k) = Some (drop (Z.to_nat k) t).
Proof.
  unfold text_of. cbn [fst snd]. destruct (h !! fst e) as [[o [l|l]]|]; [|done..]. intros E Hk.
  destruct (0 <=? snd e) eqn:E0; cbn [andb] in E; [|done]. apply Z.leb_le in E0.
  destruct (existsb _ (drop (Z.to_nat (snd e)) l)) eqn:Ex; [|done]. injection E as <-.
  destruct (until_nul_drop (Z.to_nat k) (drop (Z.to_nat (snd e)) l)) as [E1 E2]; [unfold zlen in Hk; lia|].
  rewrite drop_drop in E1, E2. replace (Z.to_nat (snd e + k)) with (Z.to_nat (snd e) + Z.to_nat k)%nat by lia.
  rewrite (proj2 (Z.leb_le _ _)) by lia. cbn [andb]. by rewrite E2, Ex, E1.
Qed.

(** The name in front of the first [=]. *)
Lemma name_split t : nonzero t -> let l := name_len t in 0 <= l <= zlen t /\
  exists n, zlen n = l /\ forallb (fun c => negb (c =? EQUALS)) n = true /\
    ((t = n /\ schar t l = 0) \/ exists v, t = n ++ EQUALS :: v /\ schar t l = EQUALS).
Proof.
  intros Hz l. unfold l, name_len. pose proof (zlen_nonneg (span (fun c => negb (c =? EQUALS)) t)).
  pose proof (span_length (fun c => negb (c =? EQUALS)) t). split; [unfold zlen in *; lia|].
  destruct (span_prefix (fun c => negb (c =? EQUALS)) t) as (r & E & Hr). exists (span (fun c => negb (c =? EQUALS)) t).
  split; [done|]. split.
  { apply forallb_forall. intros c Hc. pose proof (span_forall (fun c => negb (c =? EQUALS)) t) as Hf. rewrite Forall_forall in Hf.
    apply Hf. by apply list_elem_of_In. }
  set (n := span _ t) in *. assert (schar t (zlen n) = nth 0 r 0) as Es.
  { unfold schar, zlen. rewrite Nat2Z.id, E, app_nth2 by lia. by rewrite Nat.sub_diag. }
  destruct r as [|c v]; [left|right].
  - rewrite app_nil_r in E. by split.
  - cbn in Hr. apply negb_false_iff, Z.eqb_eq in Hr as ->. exists v. by split.
Qed.

Lemma good_name_test t : nonzero t -> (name_len t =? 0) || ctrue (schar t (name_len t)) = negb (good_name t) /\ (good_name t = true -> name_len t = zlen t).
Proof.
  intros Hz. destruct (name_split t Hz) as (Hl & n & En & Hn & Hcase). unfold good_name. destruct Hcase as [[-> Es]|(v & -> & Es)]; rewrite Es.
  - change (ctrue 0) with false. rewrite orb_false_r, Hn, andb_true_r, negb_involutive. split; [|done]. rewrite <- En.
    case_bool_decide as E; [by rewrite E|]. apply Z.eqb_neq. destruct n; [done|]. rewrite zlen_cons. pose proof (zlen_nonneg n). lia.
  - change (ctrue EQUALS) with true. rewrite orb_true_r. assert (forallb (fun c => negb (c =? EQUALS)) (n ++ EQUALS :: v) = false) as ->.
    { rewrite forallb_app. cbn. apply andb_false_r. }
    rewrite andb_false_r. done.
Qed.

(** The test for an entry. *)
Lemma entry_test n t : same_prefix n t (zlen n) && (schar t (zlen n) =? EQUALS) = match value_of n t with Some _ => true | None => false end.
Proof.
  unfold same_prefix, value_of, schar, zlen. rewrite Nat2Z.id, take_ge by lia.
  rewrite (bool_decide_ext (n = take (length n) t) (take (length n) t = n)) by done. case_bool_decide; [|done]. cbn [andb].
  rewrite <- (Nat.add_0_r (length n)) at 1. rewrite <- nth_skipn. destruct (drop (length n) t) as [|c v]; [done|]. cbn [nth]. by destruct (c =? EQUALS).
Qed.

Lemma value_of_entry n t v : value_of n t = Some v -> t = n ++ EQUALS :: v.
Proof.
  unfold value_of. case_bool_decide as E; [|done]. destruct (drop (length n) t) as [|c v'] eqn:Ed; [done|].
  destruct (Z.eqb_spec c EQUALS) as [-> |]; [|done]. intros [= <-]. by rewrite <- (take_drop (length n) t), E, Ed.
Qed.

Lemma putenv_test n v t : same_prefix (n ++ EQUALS :: v) t (zlen n + 1) = match value_of n t with Some _ => true | None => false end.
Proof.
  unfold same_prefix. replace (Z.to_nat (zlen n + 1)) with (length n + 1)%nat by (unfold zlen; lia).
  destruct (value_of n t) as [v'|] eqn:E.
  - apply value_of_entry in E as ->. apply bool_decide_eq_true. by rewrite !take_app_add.
  - apply bool_decide_eq_false. intros Et. unfold value_of in E. rewrite take_app_add in Et. change (take 1 (EQUALS :: v)) with [EQUALS] in Et.
    assert (t = (n ++ [EQUALS]) ++ drop (length n + 1) t) as Et' by (rewrite Et; by rewrite take_drop).
    rewrite Et', <- app_assoc in E. rewrite take_app_length, bool_decide_eq_true_2, drop_app_length in E by done. cbn in E. done.
Qed.

(** * Reading *)

(** The strings of the environment. *)
Definition texts (h : gmap Z cell) (es : list ptr) : list (list Z) := map (fun e => default [] (text_of h e)) es.
Definition has_name (h : gmap Z cell) (n : list Z) (e : ptr) : bool :=
  match value_of n (default [] (text_of h e)) with Some _ => true | None => false end.

Lemma wp_live_text w es A e Q : strings_ok w es A -> e ∈ es -> Q (default [] (text_of (heap w) e)) w -> wp (text e) Q w.
Proof. intros Hok He HQ. destruct (ok_live _ _ _ Hok e He) as [t Ht]. rewrite Ht in HQ. by eapply wp_text. Qed.

Lemma is_entry_wp w es A name n e : strings_ok w es A -> text_of (heap w) name = Some n -> e ∈ es ->
  wp (is_entry name (zlen n) e) (fun r w' => w' = w /\ r = has_name (heap w) n e) w.
Proof.
  intros Hok Hn He. unfold is_entry. apply wp_bind. eapply wp_text; [exact Hn|]. apply wp_bind. eapply wp_live_text; [done..|].
  apply wp_ret. split; [done|]. by rewrite entry_test.
Qed.

Lemma scan_wp test pred w es rest : (forall e, e ∈ es -> wp (test e) (fun r w' => w' = w /\ r = pred e) w) -> forall i,
  wp (scan test i (map Some es ++ None :: rest)) (fun '(j, hit) w' => w' = w /\ match hit with
    | Some e => exists es1 es2, es = es1 ++ e :: es2 /\ j = i + zlen es1 /\ pred e = true /\ Forall (fun e => pred e = false) es1
    | None => j = i + zlen es /\ Forall (fun e => pred e = false) es
    end) w.
Proof.
  intros Ht. induction es as [|e es IH]; intros i; cbn [map app scan].
  - apply wp_ret. split; [done|]. split; [unfold zlen; cbn; lia|constructor].
  - seq; [apply Ht; apply elem_of_cons; by left|]. intros r ? [-> ->]. destruct (pred e) eqn:Ee.
    + apply wp_ret. split; [done|]. exists [], es. split; [done|]. split; [unfold zlen; cbn; lia|]. by split.
    + eapply wp_mono; [apply IH; intros e' He'; apply Ht; apply elem_of_cons; by right|].
      intros [j [e'|]] ? [-> Hx]; (split; [done|]).
      * destruct Hx as (es1 & es2 & -> & -> & Hp & Hf). exists (e :: es1), es2. split; [done|]. split; [rewrite zlen_cons; lia|]. split; [done|by constructor].
      * destruct Hx as [-> Hf]. split; [rewrite zlen_cons; lia|by constructor].
Qed.

Lemma texts_cons h e es : texts h (e :: es) = default [] (text_of h e) :: texts h es.
Proof. done. Qed.

Lemma lookup_texts h n es : Forall (fun e => has_name h n e = false) es -> lookup_env n (texts h es) = None.
Proof.
  induction 1 as [|e es He _ IH]; [done|]. cbn. unfold has_name in He. by destruct (value_of n _).
Qed.
Lemma lookup_texts_hit h n es1 e es2 : Forall (fun e => has_name h n e = false) es1 -> has_name h n e = true ->
  lookup_env n (texts h (es1 ++ e :: es2)) = value_of n (default [] (text_of h e)).
Proof.
  induction 1 as [|e1 es1 He1 _ IH]; intros He; cbn; unfold has_name in *.
  - by destruct (value_of n _).
  - destruct (value_of n (default [] (text_of h e1))); [done|]. by apply IH.
Qed.
Lemma set_texts h n s es : Forall (fun e => has_name h n e = false) es -> set_env n s (texts h es) = texts h es ++ [s].
Proof.
  induction 1 as [|e es He _ IH]; [done|]. rewrite texts_cons. cbn [set_env app]. unfold has_name in He. destruct (value_of n _); [done|]. by rewrite IH.
Qed.
Lemma set_texts_hit h n s es1 e es2 : Forall (fun e => has_name h n e = false) es1 -> has_name h n e = true ->
  set_env n s (texts h (es1 ++ e :: es2)) = texts h es1 ++ s :: texts h es2.
Proof.
  induction 1 as [|e1 es1 He1 _ IH]; intros He; cbn [app]; rewrite !texts_cons; cbn [set_env app]; unfold has_name in *.
  - by destruct (value_of n _).
  - destruct (value_of n (default [] (text_of h e1))); [done|]. by rewrite IH.
Qed.
Lemma unset_texts h n es : texts h (List.filter (fun e => negb (has_name h n e)) es) = unset_env n (texts h es).
Proof.
  induction es as [|e es IH]; [done|]. rewrite texts_cons. unfold unset_env in *. cbn [List.filter]. unfold has_name at 1.
  destruct (value_of n _); cbn [negb]; [done|]. by rewrite texts_cons, IH.
Qed.
Lemma texts_same h h' es : (forall e, e ∈ es -> text_of h' e = text_of h e) -> texts h' es = texts h es.
Proof. intros E. apply map_ext_in. intros e He. by rewrite E by (by apply list_elem_of_In). Qed.

(** The whole state. *)
Definition env_ok (w : world) (es A : list ptr) : Prop := array_ok w es /\ strings_ok w es A.

Section Calls.
Context `{AllocatorSpec} (sizes : res (Z * Z)) (get : res (list Z * list Z)).

Lemma ensure_wp w es Q : array_ok w es -> Q tt w -> wp (__wasilibc_ensure_environ sizes get) Q w.
Proof.
  intros Ha HQ. unfold __wasilibc_ensure_environ. apply wp_bind, wp_sget. unfold array_ok in Ha. destruct (environ w); [done|by apply wp_ret..].
Qed.

Lemma getenv_wp w es A name n : env_ok w es A -> text_of (heap w) name = Some n ->
  wp (getenv sizes get name) (fun r w' => w' = w /\
    match (if good_name n then lookup_env n (texts (heap w) es) else None) with
    | Some v => exists p, r = Some p /\ text_of (heap w) p = Some v
    | None => r = None
    end) w.
Proof.
  intros [Ha Hok] Hn. unfold getenv. apply wp_bind. eapply ensure_wp; [done|]. apply wp_bind. eapply wp_text; [exact Hn|].
  destruct (good_name_test n (text_of_nonzero _ _ _ Hn)) as [Eg El]. set (l := name_len n) in *. apply wp_bind, wp_sget.
  assert (ctrue l && (schar n l =? 0) = good_name n) as ->.
  { rewrite <- (negb_involutive (good_name n)), <- Eg, negb_orb. unfold ctrue. by rewrite negb_involutive. }
  unfold array_ok in Ha. destruct (environ w) as [| |b]; [done| |].
  { apply wp_ret. split; [done|]. subst es. by destruct (good_name n). }
  destruct Ha as (o & rest & Ha). destruct (good_name n); [|by apply wp_ret]. specialize (El eq_refl).
  apply wp_bind. eapply wp_slots; [done|]. rewrite El.
  seq; [apply (scan_wp _ (has_name (heap w) n)); intros e He; by apply (is_entry_wp w es A)|].
  intros [j [e|]] ? [-> Hx]; cbn beta iota; apply wp_ret; (split; [done|]).
  - destruct Hx as (es1 & es2 & -> & _ & Hp & Hf). rewrite (lookup_texts_hit _ _ _ _ _ Hf Hp). unfold has_name in Hp.
    destruct (value_of n _) as [v|] eqn:Ev; [|done]. cbn. eexists. split; [done|].
    destruct (ok_live _ _ _ Hok e) as [t Ht]; [apply elem_of_app; right; apply elem_of_cons; by left|]. rewrite Ht in Ev. cbn in Ev.
    apply value_of_entry in Ev as ->. rewrite <- Z.add_assoc. rewrite (text_of_drop _ _ _ (zlen n + 1) Ht).
    + f_equal. replace (Z.to_nat (zlen n + 1)) with (length n + 1)%nat by (unfold zlen; lia). by rewrite <- drop_drop, drop_app_length.
    + rewrite zlen_app, zlen_cons. pose proof (zlen_nonneg v). pose proof (zlen_nonneg n). lia.
  - destruct Hx as [_ Hf]. by rewrite (lookup_texts _ _ _ Hf).
Qed.
End Calls.

(** * Changes that leave the strings alone *)

Lemma strings_move w w' es A : strings_ok w es A -> env_alloced w' = env_alloced w -> env_alloced_n w' = env_alloced_n w ->
  (forall b c, heap w !! b = Some c -> (exists e, e ∈ es /\ fst e = b) \/ (b, 0) ∈ A \/ env_alloced w = Some b -> heap w' !! b = Some c) ->
  (forall b, environ w' = Arr b -> exists o l, heap w' !! b = Some (Cell o (Ptrs l))) ->
  (forall b, oldenv w' = Some b -> exists l, heap w' !! b = Some (Cell true (Ptrs l))) ->
  (forall a, env_alloced w = Some a -> oldenv w' <> Some a /\ environ w' <> Arr a) ->
  strings_ok w' es A /\ forall e, e ∈ es -> text_of (heap w') e = text_of (heap w) e.
Proof.
  intros Hok Ea En Hkeep Henv Hold Hap. pose proof (ok_alloced _ _ _ Hok) as ((l & Hn & HA & Hl) & Hnd & HA').
  assert (forall e, e ∈ es -> text_of (heap w') e = text_of (heap w) e) as Ht.
  { intros e He. destruct (text_of_bytes _ _ (ok_live _ _ _ Hok e He)) as (o & t & Hc). apply text_of_block.
    rewrite Hc. apply Hkeep; [done|]. left. by exists e. }
  split; [|done]. split; try done.
  - intros e He. rewrite Ht by done. by apply (ok_live _ _ _ Hok).
  - split; [exists l; rewrite Ea, En; split; [done|]; split; [done|]|split; [done|]].
    + destruct (env_alloced w) as [a|] eqn:E; [|done]. apply Hkeep; [done|]. right. by right.
    + intros p Hp. destruct (HA' p Hp) as (Hp0 & c & Hc). split; [done|]. exists c. apply Hkeep; [done|]. right. left.
      destruct p; cbn in *; by subst.
  - apply (ok_unique _ _ _ Hok).
  - apply (ok_whole _ _ _ Hok).
  - intros a. rewrite Ea. apply Hap.
Qed.

(** A string added that the library does not free. *)
Lemma strings_add w es1 es2 A s : strings_ok w (es1 ++ es2) A -> is_Some (text_of (heap w) s) -> (fst s, 0) ∉ A ->
  strings_ok w (es1 ++ s :: es2) A.
Proof.
  intros Hok Hs Hn. assert (forall e, e ∈ es1 ++ s :: es2 -> e = s \/ e ∈ es1 ++ es2) as Hin by set_solver.
  split; [|apply Hok| | |apply Hok|apply Hok|apply Hok].
  - intros e He. destruct (Hin e He) as [-> |He']; [done|by apply (ok_live _ _ _ Hok)].
  - pose proof (ok_unique _ _ _ Hok) as Hu. rewrite claims_app in *. change (s :: es2) with ([s] ++ es2). rewrite claims_app.
    assert (claims A [s] = []) as ->; [|done]. unfold claims. cbn. by rewrite decide_False.
  - intros e He HA. destruct (Hin e He) as [-> |He']; [done|by apply (ok_whole _ _ _ Hok)].
Qed.

Lemma claims_mono A A' es : (forall e, e ∈ es -> (fst e, 0) ∈ A' -> (fst e, 0) ∈ A) -> NoDup (claims A es) -> NoDup (claims A' es).
Proof. intros HA. apply NoDup_filter_mono. intros b Hb. apply list_elem_of_fmap in Hb as (e & -> & He). by apply HA. Qed.

Lemma claims_insert A es1 s es2 : NoDup (claims A (es1 ++ es2)) -> ((fst s, 0) ∈ A -> forall e, e ∈ es1 ++ es2 -> fst e <> fst s) ->
  NoDup (claims A (es1 ++ s :: es2)).
Proof.
  intros Hnd Hs. change (s :: es2) with ([s] ++ es2). rewrite !claims_app in *. unfold claims at 2. cbn [map]. rewrite filter_cons, filter_nil.
  case_decide as HA; [|done]. specialize (Hs HA). rewrite Permutation_app_comm, <- app_assoc, (Permutation_app_comm _ (claims A es1)). cbn.
  apply NoDup_cons. split; [|done]. intros Hb. rewrite <- claims_app in Hb. apply elem_of_claims in Hb as (_ & o & He). by apply (Hs (fst s, o)).
Qed.

Lemma claims_remove A es1 e es2 : NoDup (claims A (es1 ++ e :: es2)) -> NoDup (claims A (es1 ++ es2)).
Proof.
  rewrite !claims_app. change (e :: es2) with ([e] ++ es2). rewrite claims_app. intros Hnd.
  apply NoDup_app in Hnd as (H1 & H2 & H3). apply NoDup_app in H3 as (_ & _ & H3). apply NoDup_app. split; [done|]. split; [|done].
  intros b Hb Hb'. apply (H2 b Hb). apply elem_of_app. by right.
Qed.

(** An entry goes. *)
Lemma remove_wp `{AllocatorSpec} w es1 e es2 A : strings_ok w (es1 ++ e :: es2) A ->
  wp (__env_rm_add (Some e) None) (fun _ w' => exists A', strings_ok w' (es1 ++ es2) A' /\ (forall p, p ∈ A' -> p ∈ A) /\
    (forall x, x ∈ es1 ++ es2 -> text_of (heap w') x = text_of (heap w) x) /\
    (forall x t, (fst x, 0) ∉ A -> text_of (heap w) x = Some t -> text_of (heap w') x = Some t) /\ frame w w' /\ environ w' = environ w /\
    (forall b o l, environ w = Arr b -> heap w !! b = Some (Cell o (Ptrs l)) -> heap w' !! b = Some (Cell o (Ptrs l)))) w.
Proof.
  intros Hok. eapply wp_mono; [apply rm_add_wp; [apply (ok_alloced _ _ _ Hok)|done|done]|]. intros _ w' [A' Hpost]. exists A'.
  assert (forall p, p ∈ A' -> p ∈ A) as HA by (intros p Hp; destruct Hpost as (_ & _ & _ & Hsub & _); by destruct (Hsub p Hp) as [[? _]|]).
  assert (forall p, p ∈ A -> snd p = 0) as Hz by (intros p Hp; by apply (ok_alloced _ _ _ Hok)).
  destruct (rm_add_strings w _ A (Some e) None w' A' (es1 ++ es2) Hok Hpost) as (Hok' & Ht & Hfr & Harr).
  - intros x Hx. apply (ok_live _ _ _ Hok). set_solver.
  - intros p [= <-] Hp x Hx. apply (claim_only A es1 e es2); [apply (ok_unique _ _ _ Hok)| |done]. specialize (Hz e Hp). destruct e. cbn in *. by subst.
  - apply (claims_mono A); [intros x _; apply HA|]. apply (claims_remove A es1 e es2), (ok_unique _ _ _ Hok).
  - intros x Hx HxA. apply (ok_whole _ _ _ Hok); [set_solver|by apply HA].
  - split; [done|]. split; [done|]. split; [done|]. split; [|split; [done|]; split; [by destruct Hpost as (_ & ? & _)|done]].
    intros x t HxA Hx. destruct (text_of_bytes _ _ ltac:(by eexists)) as (o & c & Hc). rewrite <- Hx. apply text_of_block. rewrite Hc.
    destruct Hpost as (_ & _ & _ & _ & Hkeep & _). apply Hkeep; [done| |].
    + intros Ea. destruct (ok_alloced _ _ _ Hok) as ((l & _ & _ & Hl) & _). rewrite Ea in Hl. congruence.
    + intros p [= <-] Hp E. apply HxA. rewrite E. specialize (Hz e Hp). destruct e. cbn in *. by subst.
Qed.

(** * Removing *)

(** What an operation keeps: the caller's blocks, and what the strings it keeps say. *)
Definition keeps (w w' : world) (es A A' : list ptr) : Prop :=
  (forall p, p ∈ A' -> p ∈ A) /\ (forall x, x ∈ es -> text_of (heap w') x = text_of (heap w) x) /\ frame w w' /\ environ w' = environ w /\
  (forall b o l, environ w = Arr b -> heap w !! b = Some (Cell o (Ptrs l)) -> heap w' !! b = Some (Cell o (Ptrs l))).

Lemma keeps_trans w w' w'' es es' A A' A'' : keeps w w' es A A' -> keeps w' w'' es' A' A'' -> (forall x, x ∈ es' -> x ∈ es) -> keeps w w'' es' A A''.
Proof.
  intros (H1 & H2 & H3 & H4 & H5) (G1 & G2 & G3 & G4 & G5) Hs. split; [auto|]. split; [|split; [|split; [congruence|]]].
  - intros x Hx. rewrite G2 by done. auto.
  - intros b c Hb He. apply G3; [auto|]. by rewrite H4.
  - intros b o l Hb Hc. apply G5; [by rewrite H4|]. auto.
Qed.

Lemma frame_refl w : frame w w.
Proof. by intros b c Hb _. Qed.
Lemma keeps_refl w es A : keeps w w es A A.
Proof. split; [done|]. split; [done|]. split; [apply frame_refl|]. by split. Qed.

Section Removing.
Context `{AllocatorSpec} (sizes : res (Z * Z)) (get : res (list Z * list Z)).

Lemma unset_loop_wp name n rest : forall es kept w A, strings_ok w (kept ++ es) A -> text_of (heap w) name = Some n -> (fst name, 0) ∉ A ->
  wp (unset_loop name (zlen n) (map Some es ++ None :: rest)) (fun k w' => exists A',
    k = List.filter (fun e => negb (has_name (heap w) n e)) es /\ strings_ok w' (kept ++ k) A' /\ keeps w w' (kept ++ k) A A') w.
Proof.
  induction es as [|e es IH]; intros kept w A Hok Hn HnA; cbn [map app unset_loop].
  { apply wp_ret. exists A. split; [done|]. split; [done|]. apply keeps_refl. }
  seq; [apply (is_entry_wp w (kept ++ e :: es) A); [done..|set_solver]|]. intros hit ? [-> ->]. cbn [List.filter].
  destruct (has_name (heap w) n e) eqn:Eh; cbn [negb].
  - seq; [by apply remove_wp|]. intros _ w1 (A1 & Hok1 & HA1 & Ht1 & Hn1 & Hfr & He & Harr).
    eapply wp_mono; [apply (IH kept w1 A1 Hok1); [by apply Hn1|]; intros Hx; by apply HnA, HA1|].
    intros k w2 (A2 & -> & Hok2 & Hk2). exists A2.
    assert (List.filter (fun e => negb (has_name (heap w1) n e)) es = List.filter (fun e => negb (has_name (heap w) n e)) es) as Ef.
    { apply filter_ext_in. intros x Hx. unfold has_name. rewrite Ht1; [done|]. apply elem_of_app. right. by apply list_elem_of_In. }
    rewrite Ef in *. split; [done|]. split; [done|]. eapply (keeps_trans w w1 w2 (kept ++ es)); [unfold keeps; by split_and!|done|].
    intros x Hx. apply elem_of_app in Hx as [Hx|Hx]; apply elem_of_app; [by left|right].
    apply list_elem_of_In, filter_In in Hx as [Hx _]. by apply list_elem_of_In.
  - seq.
    { apply (IH (kept ++ [e]) w A); [by rewrite <- app_assoc|done..]. }
    intros k w2 (A2 & -> & Hok2 & Hk2). apply wp_ret. exists A2. rewrite <- app_assoc in Hok2, Hk2. by split_and!.
Qed.

Lemma clear_loop_wp rest : forall es w A, strings_ok w es A ->
  wp (clear_loop (map Some es ++ None :: rest)) (fun _ w' => exists A', strings_ok w' [] A' /\ keeps w w' [] A A') w.
Proof.
  induction es as [|e es IH]; intros w A Hok; cbn [map app clear_loop].
  { apply wp_ret. exists A. split; [done|]. apply keeps_refl. }
  seq; [by apply (remove_wp w [] e es A)|]. intros _ w1 (A1 & Hok1 & HA1 & Ht1 & Hn1 & Hfr & He & Harr). cbn [app] in *.
  eapply wp_mono; [by apply (IH w1 A1)|]. intros _ w2 (A2 & Hok2 & Hk2). exists A2. split; [done|].
  eapply (keeps_trans w w1 w2 es []); [unfold keeps; by split_and!|done|]. intros x Hx. by apply elem_of_nil in Hx.
Qed.

(** Replacing the contents of the array of the environment. *)
Lemma set_array w es A b o l l' : strings_ok w es A -> environ w = Arr b -> heap w !! b = Some (Cell o (Ptrs l)) ->
  let w' := with_heap (<[b := Cell o (Ptrs l')]> (heap w)) w in
  strings_ok w' es A /\ (forall e, e ∈ es -> text_of (heap w') e = text_of (heap w) e) /\ frame w w' /\
  (forall x t, text_of (heap w) x = Some t -> text_of (heap w') x = Some t).
Proof.
  intros Hok He Hb w'. assert (forall x t, text_of (heap w) x = Some t -> text_of (heap w') x = Some t) as Ht.
  { intros x t Hx. destruct (text_of_bytes _ _ ltac:(by eexists)) as (o' & c & Hc). rewrite <- Hx. apply text_of_block. cbn.
    rewrite lookup_insert_ne; [done|]. intros ->. congruence. }
  destruct (strings_move w w' es A Hok) as [Hok' Ht']; try done.
  - intros b' c Hc Hrel. cbn. rewrite lookup_insert_ne; [done|]. intros <-. destruct Hrel as [(e & Hes & Ee)|[HA|Ha]].
    + destruct (text_of_bytes _ _ (ok_live _ _ _ Hok e Hes)) as (? & ? & Hx). congruence.
    + destruct (ok_alloced _ _ _ Hok) as (_ & _ & Hx). destruct (Hx _ HA) as (_ & ? & Hx'). cbn in Hx'. congruence.
    + by destruct (ok_apart _ _ _ Hok b Ha).
  - intros b' Hb'. cbn in *. assert (b' = b) as -> by congruence. exists o, l'. apply lookup_insert_eq.
  - intros b' Hb'. cbn in *. destruct (ok_oldenv _ _ _ Hok b' Hb') as [l0 Hl0]. destruct (decide (b' = b)) as [-> |].
    + exists l'. rewrite Hl0 in Hb. injection Hb as <- _. apply lookup_insert_eq.
    + exists l0. by rewrite lookup_insert_ne.
  - intros a Ha. by apply (ok_apart _ _ _ Hok).
  - split; [done|]. split; [done|]. split; [|done]. intros b' c Hc Hb'. cbn. rewrite lookup_insert_ne; [done|]. congruence.
Qed.

Lemma unsetenv_wp w es A name n : env_ok w es A -> text_of (heap w) name = Some n -> (fst name, 0) ∉ A ->
  wp (unsetenv sizes get name) (fun r w' => if good_name n
    then r = 0 /\ exists es' A', env_ok w' es' A' /\ texts (heap w') es' = unset_env n (texts (heap w) es) /\ (forall p, p ∈ A' -> p ∈ A) /\ frame w w' /\ environ w' = environ w
    else r = -1 /\ w' = with_errno EINVAL w) w.
Proof.
  intros [Ha Hok] Hn HnA. unfold unsetenv. apply wp_bind. eapply wp_text; [exact Hn|].
  destruct (good_name_test n (text_of_nonzero _ _ _ Hn)) as [-> El]. destruct (good_name n); cbn [negb].
  2:{ unfold fail_einval. apply wp_bind, wp_sput, wp_ret. done. }
  rewrite (El eq_refl). apply wp_bind. eapply ensure_wp; [done|]. apply wp_bind, wp_sget. unfold array_ok in Ha.
  destruct (environ w) as [| |b] eqn:He; [done| |].
  { apply wp_ret. split; [done|]. exists [], A. subst es. split; [split; [unfold array_ok; by rewrite He|done]|]. split; [done|]. split; [done|]. split; [apply frame_refl|done]. }
  destruct Ha as (o & rest & Hb). apply wp_bind. eapply wp_slots; [done|].
  seq; [by apply (unset_loop_wp name n rest es [] w A)|]. intros k w1 (A1 & -> & Hok1 & HA1 & Ht1 & Hfr1 & He1 & Harr1). cbn [app] in *.
  set (k := List.filter _ es) in *. specialize (Harr1 b o _ He Hb).
  assert (length k <= length es)%nat as Hlk by (unfold k; apply filter_length_le).
  apply wp_bind. eapply wp_set_slots; [exact Harr1| |].
  { rewrite !length_app, !length_map. cbn [length]. rewrite length_drop, !length_app, length_map. cbn [length]. lia. }
  apply wp_ret. split; [done|].
  destruct (set_array w1 k A1 b o _ (map Some k ++ None :: drop (S (length k)) (map Some es ++ None :: rest)) Hok1 ltac:(congruence) Harr1) as (Hok2 & Ht2 & Hfr2 & _).
  set (w2 := with_heap _ w1) in *. exists k, A1. split; [split; [|done]|split; [|split; [done|split; [|by cbn; congruence]]]].
  - unfold array_ok, w2. cbn. rewrite He1, He. eexists o, _. apply lookup_insert_eq.
  - rewrite (texts_same (heap w1)) by done. rewrite (texts_same (heap w)) by done. apply unset_texts.
  - intros b' c Hc Hb'. apply Hfr2; [by apply Hfr1|]. by rewrite He1.
Qed.

Lemma clearenv_wp w es A : env_ok w es A ->
  wp (clearenv sizes get) (fun r w' => r = 0 /\ environ w' = Null /\ exists A', env_ok w' [] A' /\ (forall p, p ∈ A' -> p ∈ A) /\
    forall b c, heap w !! b = Some (Cell false c) -> heap w' !! b = Some (Cell false c)) w.
Proof.
  intros [Ha Hok]. unfold clearenv. apply wp_bind. eapply ensure_wp; [done|]. apply wp_bind, wp_sget. apply wp_bind, wp_sput.
  set (w0 := with_environ Null w). assert (strings_ok w0 es A) as Hok0.
  { apply (strings_move w w0 es A Hok); try done; [apply (ok_oldenv _ _ _ Hok)|]. intros a Haa. by destruct (ok_apart _ _ _ Hok a Haa). }
  apply wp_bind. apply (wp_mono _ (fun _ w' => exists A', strings_ok w' [] A' /\ keeps w0 w' [] A A')).
  - unfold array_ok in Ha. destruct (environ w) as [| |b]; [done| |].
    + subst es. apply wp_ret. exists A. split; [done|]. apply keeps_refl.
    + destruct Ha as (o & rest & Hb). apply wp_bind. eapply (wp_slots b o _ w0); [done|]. by apply clear_loop_wp.
  - intros _ w' (A' & Hok' & HA & _ & Hfr & He & _). apply wp_ret. split; [done|]. split; [done|]. exists A'.
    split; [split; [unfold array_ok; by rewrite He|done]|]. split; [done|]. intros b c Hb. by apply Hfr.
Qed.
End Removing.

(** * Storing *)

(** The environment moves to a new array. *)
Lemma new_array w es A h b c : strings_ok w es A -> Some b = oldenv w \/ heap w !! b = None -> h !! b = Some (Cell true (Ptrs c)) ->
  (forall b', b' <> b -> Some b' <> oldenv w -> h !! b' = heap w !! b') ->
  let w' := with_oldenv (Some b) (with_environ (Arr b) (with_heap h w)) in
  strings_ok w' es A /\ (forall x t, text_of (heap w) x = Some t -> text_of h x = Some t) /\
  (forall b' c', heap w !! b' = Some c' -> (forall l, content c' <> Ptrs l) \/ owned c' = false -> h !! b' = Some c').
Proof.
  intros Hok Hb Hhb Hoth w'. assert (forall b' c', heap w !! b' = Some c' -> Some b' <> oldenv w -> h !! b' = Some c') as Hkeep.
  { intros b' c' Hc' Ho. rewrite Hoth; [done| |done]. intros ->. destruct Hb as [Hb|Hb]; [done|congruence]. }
  assert (forall b' c', heap w !! b' = Some c' -> (forall l, content c' <> Ptrs l) \/ owned c' = false -> h !! b' = Some c') as Hkeep'.
  { intros b' c' Hc' Hne. apply Hkeep; [done|]. intros Ho. destruct (ok_oldenv _ _ _ Hok b' (eq_sym Ho)) as [l Hl].
    rewrite Hl in Hc'. injection Hc' as <-. cbn in Hne. destruct Hne as [Hne|]; [by apply (Hne l)|done]. }
  assert (forall x t, text_of (heap w) x = Some t -> text_of h x = Some t) as Ht.
  { intros x t Hx. destruct (text_of_bytes _ _ ltac:(by eexists)) as (o & l & Hc). rewrite <- Hx. apply text_of_block. rewrite Hc.
    apply Hkeep'; [done|]. left. done. }
  split; [|done]. apply (strings_move w w' es A Hok); try done.
  - intros b' c' Hc' [(e & He & <-)|[HA|Ha]].
    + destruct (text_of_bytes _ _ (ok_live _ _ _ Hok e He)) as (o & l & Hc). apply Hkeep'; [done|]. left. rewrite Hc in Hc'. by injection Hc' as <-.
    + destruct (ok_alloced _ _ _ Hok) as (_ & _ & Hx). destruct (Hx _ HA) as (_ & l & Hc). cbn in Hc. apply Hkeep'; [done|]. left.
      rewrite Hc in Hc'. by injection Hc' as <-.
    + apply Hkeep; [done|]. intros Ho. by destruct (ok_apart _ _ _ Hok b' Ha).
  - intros b' [= <-]. by eexists _, _.
  - intros b' [= <-]. by eexists _.
  - intros a Ha. assert (b <> a) as Hba; [|cbn; split; congruence]. intros ->. destruct Hb as [Hb|Hb]; [by destruct (ok_apart _ _ _ Hok a Ha)|].
    destruct (ok_alloced _ _ _ Hok) as ((l & _ & _ & Hl) & _). rewrite Ha in Hl. congruence.
Qed.

(** The string [s] that an entry is to be, and [r]: the library has just allocated it, or it is the caller's. *)
Definition incoming (w : world) (es A : list ptr) (s : ptr) (r : option ptr) : Prop :=
  is_Some (text_of (heap w) s) /\
  ((r = None /\ (fst s, 0) ∉ A) \/
   (r = Some s /\ snd s = 0 /\ s ∉ A /\ (forall e, e ∈ es -> fst e <> fst s) /\ exists c, heap w !! fst s = Some (Cell true (Bytes c)))).

(** What is stored afterwards. *)
Definition stored (w : world) (es A : list ptr) (r : option ptr) (w' : world) : Prop := exists A',
  strings_ok w' es A' /\ (forall p, p ∈ A' -> p ∈ A \/ r = Some p) /\ (forall x, x ∈ es -> text_of (heap w') x = text_of (heap w) x) /\
  frame w w' /\ environ w' = environ w /\
  (forall b o l, environ w = Arr b -> heap w !! b = Some (Cell o (Ptrs l)) -> heap w' !! b = Some (Cell o (Ptrs l))).

Lemma incoming_block w es A s r : strings_ok w es A -> incoming w es A s r -> forall p, p ∈ A -> fst s <> fst p.
Proof.
  intros Hok [_ Hs] p Hp E. destruct (ok_alloced _ _ _ Hok) as (_ & _ & Hx). destruct (Hx _ Hp) as (Hp0 & _).
  assert ((fst s, 0) = p) as Es by (rewrite E; destruct p; cbn in *; by subst).
  destruct Hs as [(_ & Hs)|(_ & Hs0 & Hs & _)]; [by rewrite Es in Hs|]. apply Hs. rewrite <- Es in Hp. destruct s; cbn in *; by subst.
Qed.

Section Storing.
Context `{AllocatorSpec} (sizes : res (Z * Z)) (get : res (list Z * list Z)).

(** [__env_rm_add] when [s] takes the place of [old], or of nothing. *)
Lemma rm_add_store w es1 old es2 A s r : strings_ok w (es1 ++ old ++ es2) A -> incoming w (es1 ++ old ++ es2) A s r ->
  (exists tmp, old = [tmp]) \/ old = [] /\ r <> None -> wp (__env_rm_add (head old) r) (fun _ w' => stored w (es1 ++ s :: es2) A r w') w.
Proof.
  intros Hok Hin Hold. pose proof (incoming_block _ _ _ _ _ Hok Hin) as Hblk. destruct Hin as [Hlive Hs].
  assert (forall p, p ∈ A -> snd p = 0) as Hz by (intros p Hp; by apply (ok_alloced _ _ _ Hok)).
  assert (forall e, e ∈ es1 ++ s :: es2 -> e = s \/ e ∈ es1 ++ es2) as Hes by set_solver.
  assert (forall e, e ∈ es1 ++ es2 -> e ∈ es1 ++ old ++ es2) as Hes' by set_solver.
  eapply wp_mono; [apply rm_add_wp; [apply (ok_alloced _ _ _ Hok)| |]|].
  - destruct Hold as [[tmp ->]|[-> Hr]]; [done|auto].
  - intros p ->. destruct Hs as [[? _]|(Er & Hs0 & HsA & Hdis & Hc)]; [done|]. injection Er as ->. split; [done|]. split; [|by split].
    destruct Hold as [[tmp ->]|[-> Hr]]; [|done]. cbn. intros [= ->]. apply (Hdis s); [set_solver|done].
  - intros _ w' [A' Hpost]. exists A'.
    assert (forall p, p ∈ A' -> p ∈ A \/ r = Some p) as HA.
    { intros p Hp. destruct Hpost as (_ & _ & _ & Hsub & _). destruct (Hsub p Hp) as [[? _]|]; [by left|by right]. }
    assert (forall e, e ∈ es1 ++ es2 -> (fst e, 0) ∈ A' -> (fst e, 0) ∈ A) as Hkept.
    { intros e He HeA. destruct (HA _ HeA) as [|Er]; [done|]. destruct Hs as [[-> _]|(-> & _ & _ & Hdis & _)]; [done|].
      injection Er as Es. exfalso. apply (Hdis e); [by apply Hes'|]. by rewrite Es. }
    destruct (rm_add_strings w _ A (head old) r w' A' (es1 ++ s :: es2) Hok Hpost) as (Hok' & Ht & Hfr & Harr).
    + intros e He. destruct (Hes e He) as [-> |He']; [done|]. apply (ok_live _ _ _ Hok). by apply Hes'.
    + intros p Hp HpA e He. destruct (Hes e He) as [-> |He']; [by apply Hblk|]. destruct Hold as [[tmp ->]|[-> _]]; [|done].
      injection Hp as <-. apply (claim_only A es1 tmp es2); [apply (ok_unique _ _ _ Hok)| |done]. specialize (Hz tmp HpA). destruct tmp. cbn in *. by subst.
    + apply claims_insert.
      * apply (claims_mono A); [done|]. pose proof (ok_unique _ _ _ Hok) as Hu. destruct Hold as [[tmp ->]|[-> _]]; [by apply claims_remove in Hu|done].
      * intros HsA e He. destruct (HA _ HsA) as [HsA'|Er]; [by destruct (Hblk _ HsA')|].
        destruct Hs as [[-> _]|(_ & _ & _ & Hdis & _)]; [done|]. by apply Hdis, Hes'.
    + intros e He HeA. destruct (Hes e He) as [-> |He'].
      * destruct (HA _ HeA) as [HsA'|Er]; [by destruct (Hblk _ HsA')|]. destruct Hs as [[-> _]|(_ & ? & _)]; done.
      * apply (ok_whole _ _ _ Hok); [by apply Hes'|by apply Hkept].
    + split; [done|]. split; [done|]. split; [done|]. split; [done|]. split; [by destruct Hpost as (_ & ? & _)|done].
Qed.

(** ... and for a string of the caller's that comes last. *)
Lemma append_store w es A s r : strings_ok w es A -> incoming w es A s r ->
  wp (match r with Some _ => __env_rm_add None r | None => sret tt end) (fun _ w' => stored w (es ++ [s]) A r w') w.
Proof.
  intros Hok Hin. destruct r as [r|].
  - apply (rm_add_store w es [] [] A s); cbn; rewrite ?app_nil_r; [done..|]. by right.
  - apply wp_ret. exists A. destruct Hin as [Hs [[_ Hn]|[? _]]]; [|done].
    split; [apply strings_add; rewrite ?app_nil_r; done|]. split; [by left|]. split; [done|]. split; [apply frame_refl|]. by split.
Qed.
End Storing.

Section Putenv.
Context `{AllocatorSpec} (sizes : res (Z * Z)) (get : res (list Z * list Z)).

(** The new array of [__putenv]. *)
Lemma grow_wp w es A (e : env_ptr) n c : strings_ok w es A -> e = environ w ->
  wp (if same_array e (oldenv w) then resize (oldenv w) n (Ptrs c)
      else
        let* b := alloc n (Ptrs c) in
        match b with
        | None => sret None
        | Some b => do* match oldenv w with Some o => free_block o | None => sret tt end in sret (Some b)
        end)
    (fun r w' => match r with
      | None => w' = with_errno ENOMEM w
      | Some b => exists h, w' = with_heap h w /\ (Some b = oldenv w \/ heap w !! b = None) /\ h !! b = Some (Cell true (Ptrs c)) /\
          forall b', b' <> b -> Some b' <> oldenv w -> h !! b' = heap w !! b'
      end) w.
Proof.
  intros Hok ->. destruct (same_array (environ w) (oldenv w)).
  - apply resize_wp; [|by eauto 10|done]. intros b Hb. destruct (ok_oldenv _ _ _ Hok b Hb) as [l ?]. eauto.
  - apply wp_bind, wp_alloc; [|by apply wp_ret]. intros b Hb. destruct (oldenv w) as [o|] eqn:Eo.
    + destruct (ok_oldenv _ _ _ Hok o Eo) as [l Hl]. assert (o <> b) by congruence. apply wp_bind. eapply wp_free_block.
      { cbn. by rewrite lookup_insert_ne. }
      apply wp_ret. eexists. split; [done|]. split; [by right|]. cbn. split; [rewrite lookup_delete_ne by done; apply lookup_insert_eq|].
      intros b' Hb1 Hb2. rewrite lookup_delete_ne by congruence. by rewrite lookup_insert_ne.
    + apply wp_bind, wp_ret, wp_ret. eexists. split; [done|]. split; [by right|]. split; [apply lookup_insert_eq|].
      intros b' Hb1 _. by rewrite lookup_insert_ne.
Qed.

(** What a store gives: the new list of strings, or a failure that changes nothing. *)
Definition put_result (w : world) (es A : list ptr) (n t : list Z) (r : option ptr) (res : Z) (w' : world) : Prop :=
  (res = 0 /\ exists es' A', env_ok w' es' A' /\ texts (heap w') es' = set_env n t (texts (heap w) es) /\
     (forall p, p ∈ A' -> p ∈ A \/ r = Some p) /\ frame w w') \/
  (res = -1 /\ env_ok w' es A /\ texts (heap w') es = texts (heap w) es /\ frame w w').

(** The string is given up when there is no memory for the array. *)
Lemma putenv_oom w es A s r n t : env_ok w es A -> incoming w es A s r ->
  wp (do* free r in sret (-1)) (fun res w' => put_result w es A n t r res w') (with_errno ENOMEM w).
Proof.
  intros [Ha Hok] Hin. set (w0 := with_errno ENOMEM w).
  assert (strings_ok w0 es A) as Hok0.
  { apply (strings_move w w0 es A Hok); try done; [apply (ok_environ _ _ _ Hok)|apply (ok_oldenv _ _ _ Hok)|apply (ok_apart _ _ _ Hok)]. }
  destruct Hin as [_ [[-> _]|(-> & Hs0 & HsA & Hdis & c & Hc)]].
  - apply wp_bind, wp_ret, wp_ret. right. split; [done|]. split; [by split|]. split; [done|by intros b c Hb _].
  - destruct s as [b o]. cbn in Hs0, Hc, Hdis. subst o. cbn [free]. change (0 =? 0) with true. cbn iota. apply wp_bind.
    eapply wp_free_block; [exact Hc|]. apply wp_ret. right. split; [done|].
    set (w1 := with_heap (delete b (heap w0)) w0).
    assert (forall b' o' l, heap w !! b' = Some (Cell o' (Ptrs l)) -> heap w1 !! b' = Some (Cell o' (Ptrs l))) as Hptrs.
    { intros b' o' l Hb'. cbn. rewrite lookup_delete_ne; [done|]. intros ->. congruence. }
    destruct (strings_move w0 w1 es A Hok0) as [Hok1 Ht1]; try done.
    + intros b' c' Hc' Hrel. cbn. rewrite lookup_delete_ne; [done|]. intros <-. destruct Hrel as [(e & He & Ee)|[HA|Hal]].
      * by apply (Hdis e).
      * done.
      * destruct (ok_alloced _ _ _ Hok) as ((l & _ & _ & Hl) & _). cbn in Hal. rewrite Hal in Hl. congruence.
    + intros b' Hb'. destruct (ok_environ _ _ _ Hok b' Hb') as (? & ? & ?). eauto.
    + intros b' Hb'. destruct (ok_oldenv _ _ _ Hok b' Hb') as (? & ?). eauto.
    + apply (ok_apart _ _ _ Hok).
    + split; [split; [|done]|split; [by apply texts_same|]].
      * unfold array_ok in *. cbn. destruct (environ w); [done..|]. destruct Ha as (o' & rest & Ha). exists o', rest. by apply Hptrs.
      * intros b' c' Hc' _. cbn. rewrite lookup_delete_ne; [done|]. intros ->. congruence.
Qed.

Lemma texts_app h es1 es2 : texts h (es1 ++ es2) = texts h es1 ++ texts h es2.
Proof. apply map_app. Qed.

Lemma putenv_hit w es1 tmp es2 A s n v r b o rest : let es := es1 ++ tmp :: es2 in
  strings_ok w es A -> environ w = Arr b -> heap w !! b = Some (Cell o (Ptrs (map Some es ++ None :: rest))) ->
  text_of (heap w) s = Some (n ++ EQUALS :: v) -> incoming w es A s r ->
  Forall (fun e => has_name (heap w) n e = false) es1 -> has_name (heap w) n tmp = true ->
  wp (let* slots := lift (zset (map Some es ++ None :: rest) (0 + zlen es1) (Some s)) in
      do* set_slots b slots in
      do* __env_rm_add (Some tmp) r in
      sret 0) (fun res w' => put_result w es A n (n ++ EQUALS :: v) r res w') w.
Proof.
  intros es Hok He Hb Hs Hin Hf Hp. set (es' := es1 ++ s :: es2). set (l' := map Some es' ++ None :: rest).
  assert (zset (map Some es ++ None :: rest) (0 + zlen es1) (Some s) = Ok l') as Ez.
  { rewrite zset_in_range by (rewrite zlen_app; unfold es, zlen; rewrite length_map, length_app; cbn [length]; lia).
    f_equal. rewrite Z.add_0_l. unfold l', es', es, zlen. rewrite Nat2Z.id, !map_app, <- !app_assoc. cbn [map app].
    rewrite <- (length_map Some es1). by rewrite insert_app_r_alt, Nat.sub_diag by lia. }
  apply wp_bind. eapply wp_lift; [exact Ez|]. apply wp_bind. eapply wp_set_slots; [exact Hb| |].
  { unfold l', es', es. rewrite !length_app, !length_map, !length_app. cbn [length]. lia. }
  destruct (set_array w es A b o _ l' Hok He Hb) as (Hok1 & Ht1 & Hfr1 & Hany). set (w1 := with_heap _ w) in *.
  assert (incoming w1 es A s r) as Hin1.
  { destruct Hin as [Hlive Hcase]. split; [by rewrite (Hany _ _ Hs)|]. destruct Hcase as [?|(? & ? & ? & ? & c & Hc)]; [by left|right].
    split; [done|]. split; [done|]. split; [done|]. split; [done|]. exists c. cbn. rewrite lookup_insert_ne; [done|]. intros ->. congruence. }
  seq; [apply (rm_add_store w1 es1 [tmp] es2 A s r); [done..|]; left; by eexists|].
  intros _ w2 (A2 & Hok2 & HA2 & Ht2 & Hfr2 & He2 & Harr2). apply wp_ret. left. split; [done|]. exists es', A2.
  split; [split; [|done]|split; [|split; [done|]]].
  - unfold array_ok. rewrite He2. cbn. rewrite He. exists o, rest. apply Harr2; [done|]. apply lookup_insert_eq.
  - assert (texts (heap w2) es' = texts (heap w1) es') as -> by (by apply texts_same).
    unfold es, es'. rewrite (set_texts_hit _ _ _ _ _ _ Hf Hp), texts_app, texts_cons, (Hany _ _ Hs). cbn [default].
    by rewrite !(texts_same (heap w) (heap w1)) by (intros x Hx; apply Ht1; unfold es; set_solver).
  - intros b' c Hc Hb'. apply Hfr2; [by apply Hfr1|done].
Qed.
End Putenv.

Section Environment.
Context `{AllocatorSpec} (sizes : res (Z * Z)) (get : res (list Z * list Z)).

Lemma putenv_new w es A s n v r i : env_ok w es A -> text_of (heap w) s = Some (n ++ EQUALS :: v) -> incoming w es A s r ->
  Forall (fun e => has_name (heap w) n e = false) es ->
  wp (let* newenv := if same_array (environ w) (oldenv w) then resize (oldenv w) i (Ptrs (map Some es ++ [Some s; None]))
        else
          let* b := alloc i (Ptrs (map Some es ++ [Some s; None])) in
          match b with
          | None => sret None
          | Some b => do* match oldenv w with Some o => free_block o | None => sret tt end in sret (Some b)
          end in
      match newenv with
      | None => do* free r in sret (-1)
      | Some b =>
          do* sput (fun w => with_oldenv (Some b) (with_environ (Arr b) w)) in
          do* match r with Some _ => __env_rm_add None r | None => sret tt end in
          sret 0
      end) (fun res w' => put_result w es A n (n ++ EQUALS :: v) r res w') w.
Proof.
  intros Hok Hs Hin Hf. seq; [by apply (grow_wp w es A); [apply Hok|]|]. intros [b|] w1 Hw1; [|subst w1; by eapply putenv_oom].
  destruct Hok as [Ha Hok]. destruct Hw1 as (h & -> & Hb & Hhb & Hoth). apply wp_bind, wp_sput.
  destruct (new_array w es A h b _ Hok Hb Hhb Hoth) as (Hok1 & Hany & Hcells). set (w1 := with_oldenv _ _) in *.
  assert (incoming w1 es A s r) as Hin1.
  { destruct Hin as [Hlive Hcase]. split; [cbn; by rewrite (Hany _ _ Hs)|]. destruct Hcase as [?|(? & ? & ? & ? & c & Hc)]; [by left|right].
    split; [done|]. split; [done|]. split; [done|]. split; [done|]. exists c. cbn. apply Hcells; [done|]. left. done. }
  seq; [by apply append_store|]. intros _ w2 (A2 & Hok2 & HA2 & Ht2 & Hfr2 & He2 & Harr2). apply wp_ret. left. split; [done|].
  exists (es ++ [s]), A2. split; [split; [|done]|split; [|split; [done|]]].
  - unfold array_ok. rewrite He2. cbn. exists true, []. rewrite (Harr2 b true _ eq_refl Hhb). rewrite map_app, <- app_assoc. done.
  - assert (texts (heap w2) (es ++ [s]) = texts (heap w1) (es ++ [s])) as -> by (by apply texts_same).
    rewrite (set_texts _ _ _ _ Hf), texts_app, texts_cons. cbn [w1 with_oldenv with_environ with_heap heap]. rewrite (Hany _ _ Hs). cbn [default].
    f_equal. apply texts_same. intros x Hx. destruct (ok_live _ _ _ Hok x Hx) as [t Ht]. rewrite Ht. by apply Hany.
  - intros b' c Hc Hb'. apply Hfr2; [|by intros [= ->]; cbn in *; destruct Hb as [Hb|Hb]; [destruct (ok_oldenv _ _ _ Hok b' (eq_sym Hb)); congruence|congruence]].
    cbn. apply Hcells; [done|]. by right.
Qed.

Lemma putenv_store w es A s n v r : env_ok w es A -> text_of (heap w) s = Some (n ++ EQUALS :: v) -> incoming w es A s r ->
  wp (__putenv sizes get s (zlen n) r) (fun res w' => put_result w es A n (n ++ EQUALS :: v) r res w') w.
Proof.
  intros [Ha Hok] Hs Hin. unfold __putenv. apply wp_bind. eapply ensure_wp; [done|]. apply wp_bind, wp_sget. apply wp_bind.
  apply (wp_mono _ (fun sl w' => w' = w /\ exists rest, sl = map Some es ++ None :: rest /\ forall b, environ w = Arr b -> exists o, heap w !! b = Some (Cell o (Ptrs sl)))).
  { unfold array_ok in Ha. destruct (environ w) as [| |b]; [done| |].
    - apply wp_ret. subst es. split; [done|]. by exists [].
    - destruct Ha as (o & rest & Hb). eapply wp_slots; [exact Hb|]. split; [done|]. exists rest. split; [done|]. intros ? [= <-]. by exists o. }
  intros sl ? (-> & rest & -> & Hb). apply wp_bind. eapply wp_mono.
  { apply (scan_wp _ (has_name (heap w) n)). intros e He. apply wp_bind. eapply wp_text; [exact Hs|]. apply wp_bind. eapply wp_live_text; [done..|].
    apply wp_ret. split; [done|]. by rewrite putenv_test. }
  intros [i [tmp|]] ? [-> Hx]; cbn beta iota.
  - destruct Hx as (es1 & es2 & -> & -> & Hp & Hf). destruct (environ w) as [| |b] eqn:He.
    + unfold array_ok in Ha. by rewrite He in Ha.
    + unfold array_ok in Ha. rewrite He in Ha. by destruct es1.
    + destruct (Hb b eq_refl) as [o Hbo]. by eapply putenv_hit.
  - destruct Hx as [-> Hf]. replace (Z.to_nat (0 + zlen es)) with (length (map Some es)) by (rewrite length_map; unfold zlen; lia).
    apply wp_bind, wp_sget. rewrite take_app_length. by apply putenv_new.
Qed.

(** Allocating a string leaves the environment as it is. *)
Lemma alloc_string w es A b l : env_ok w es A -> heap w !! b = None ->
  let w' := with_heap (<[b := Cell true (Bytes l)]> (heap w)) w in
  env_ok w' es A /\ texts (heap w') es = texts (heap w) es /\ frame w w' /\ (forall e, e ∈ es -> fst e <> b) /\ (b, 0) ∉ A.
Proof.
  intros [Ha Hok] Hb w'. assert (forall b' c, heap w !! b' = Some c -> heap w' !! b' = Some c) as Hkeep.
  { intros b' c Hc. cbn. rewrite lookup_insert_ne; [done|]. congruence. }
  destruct (strings_move w w' es A Hok) as [Hok' Ht]; try done.
  - intros b' c Hc _. by apply Hkeep.
  - intros b' Hb'. destruct (ok_environ _ _ _ Hok b' Hb') as (? & ? & ?). eauto.
  - intros b' Hb'. destruct (ok_oldenv _ _ _ Hok b' Hb') as (? & ?). eauto.
  - apply (ok_apart _ _ _ Hok).
  - split; [split; [|done]|split; [by apply texts_same|split; [|split]]].
    + unfold array_ok in *. destruct (environ w) eqn:Ee; cbn; rewrite Ee; [done..|]. destruct Ha as (o & rest & Ha). exists o, rest. by apply Hkeep.
    + intros b' c Hc _. by apply Hkeep.
    + intros e He <-. destruct (text_of_bytes _ _ (ok_live _ _ _ Hok e He)) as (? & ? & Hx). congruence.
    + intros HA. destruct (ok_alloced _ _ _ Hok) as (_ & _ & Hx). destruct (Hx _ HA) as (_ & c & Hc). cbn in Hc. congruence.
Qed.

Lemma until_nul_text t : nonzero t -> Preopens.until_nul (t ++ [0]) = t /\ existsb (fun c => c =? 0) (t ++ [0]) = true.
Proof.
  intros Ht. split; [|rewrite existsb_app; apply orb_true_r]. induction Ht as [|c t Hc _ IH]; [done|]. cbn. rewrite (proj2 (Z.eqb_neq c 0)) by done. by rewrite IH.
Qed.

Lemma setenv_wp w es A var n value v ow : env_ok w es A -> text_of (heap w) var = Some n -> text_of (heap w) value = Some v ->
  wp (setenv sizes get (Some var) value ow) (fun res w' =>
    if negb (good_name n) then res = -1 /\ w' = with_errno EINVAL w
    else if (ow =? 0) && bool_decide (is_Some (lookup_env n (texts (heap w) es))) then res = 0 /\ w' = w
    else (res = 0 /\ exists es' A', env_ok w' es' A' /\ texts (heap w') es' = set_env n (n ++ EQUALS :: v) (texts (heap w) es) /\ frame w w') \/
         (res = -1 /\ env_ok w' es A /\ texts (heap w') es = texts (heap w) es /\ frame w w')) w.
Proof.
  intros Hok Hn Hv. unfold setenv. apply wp_bind. eapply wp_text; [exact Hn|].
  destruct (good_name_test n (text_of_nonzero _ _ _ Hn)) as [-> El]. destruct (good_name n) eqn:Eg; cbn [negb].
  2:{ unfold fail_einval. apply wp_bind, wp_sput, wp_ret. done. }
  rewrite (El eq_refl). apply wp_bind.
  apply (wp_mono _ (fun r w' => w' = w /\ r = (ow =? 0) && bool_decide (is_Some (lookup_env n (texts (heap w) es))))).
  { destruct (ow =? 0); cbn [andb]; [|by apply wp_ret]. seq; [by apply (getenv_wp sizes get w es A var n)|]. rewrite Eg.
    intros r ? [-> Hr]. apply wp_ret. split; [done|]. apply bool_decide_ext. destruct (lookup_env n _); [destruct Hr as (p & -> & _)|subst r]; split; intros [? ?]; done || by eexists. }
  intros present ? [-> ->]. case_match; [by apply wp_ret|]. apply wp_bind. eapply wp_text; [exact Hv|].
  apply wp_bind, wp_alloc.
  2:{ apply wp_ret. right. split; [done|]. split; [|split; [done|by intros b c Hb _]]. destruct Hok as [Ha Hok]. split; [done|].
      apply (strings_move w (with_errno ENOMEM w) es A Hok); try done; [apply (ok_environ _ _ _ Hok)|apply (ok_oldenv _ _ _ Hok)|apply (ok_apart _ _ _ Hok)]. }
  intros b Hb. rewrite (take_ge n) by (unfold zlen; lia). set (c := n ++ [EQUALS] ++ v ++ [0]).
  destruct (alloc_string w es A b c Hok Hb) as (Hok1 & Ht1 & Hfr1 & Hdis & HbA). set (w1 := with_heap _ w) in *.
  assert (nonzero (n ++ EQUALS :: v)) as Hnz.
  { apply Forall_app. split; [by eapply text_of_nonzero|]. constructor; [done|by eapply text_of_nonzero]. }
  assert (text_of (heap w1) (b, 0) = Some (n ++ EQUALS :: v)) as Hs.
  { unfold text_of. cbn [fst snd w1 with_heap heap]. rewrite lookup_insert_eq. change (Z.to_nat 0) with 0%nat. rewrite drop_0.
    replace c with ((n ++ EQUALS :: v) ++ [0]) by (unfold c; by rewrite <- app_assoc). destruct (until_nul_text _ Hnz) as [-> ->]. done. }
  eapply wp_mono; [apply (putenv_store w1 es A (b, 0) n v (Some (b, 0))); [done..|]|].
  { split; [by eexists|]. right. split; [done|]. split; [done|]. split; [done|]. split; [done|]. exists c. apply lookup_insert_eq. }
  intros res w' [(-> & es' & A' & Hok' & Ht' & _ & Hfr')|(-> & Hok' & Ht' & Hfr')]; [left|right]; (split; [done|]).
  - exists es', A'. split; [done|]. split; [by rewrite Ht', Ht1|]. intros b' c' Hc' He. apply Hfr'; [by apply Hfr1|done].
  - split; [done|]. split; [by rewrite Ht'|]. intros b' c' Hc' He. apply Hfr'; [by apply Hfr1|done].
Qed.

Lemma putenv_wp w es A s t : env_ok w es A -> text_of (heap w) s = Some t -> (fst s, 0) ∉ A ->
  wp (putenv sizes get s) (fun res w' =>
    (forall n v, t = n ++ EQUALS :: v -> good_name n = true -> put_result w es A n t None res w') /\
    (good_name t = true -> res = 0 /\ exists es' A', env_ok w' es' A' /\ texts (heap w') es' = unset_env t (texts (heap w) es) /\ frame w w') /\
    (t = [] \/ head t = Some EQUALS -> res = -1 /\ w' = with_errno EINVAL w)) w.
Proof.
  intros Hok Hs HsA. unfold putenv. apply wp_bind. eapply wp_text; [exact Hs|].
  destruct (name_split t (text_of_nonzero _ _ _ Hs)) as (Hl & n & En & Hn & Hcase). rewrite <- En in *. clear En.
  assert (forall n' v', t = n' ++ EQUALS :: v' -> good_name t = false) as Hbad.
  { intros n' v' ->. unfold good_name. rewrite forallb_app. cbn. by rewrite !andb_false_r. }
  pose proof (unsetenv_wp sizes get w es A s t Hok Hs HsA) as Hun.
  destruct Hcase as [[-> Es]|(v & -> & Es)]; rewrite Es.
  - change (ctrue 0) with false. rewrite orb_true_r. eapply wp_mono; [exact Hun|]. intros res w' Hr. split; [|split].
    + intros n' v' E _. rewrite E, forallb_app in Hn. cbn in Hn. by rewrite andb_false_r in Hn.
    + intros Hg. rewrite Hg in Hr. destruct Hr as (-> & es' & A' & ? & ? & _ & ? & _). split; [done|]. by exists es', A'.
    + intros Ht. destruct (good_name n) eqn:Eg; [|done]. destruct n as [|c n']; [done|]. destruct Ht as [|Ht]; [done|]. injection Ht as ->. done.
  - change (ctrue EQUALS) with true. rewrite orb_false_r. destruct (Z.eqb_spec (zlen n) 0) as [E|E].
    + destruct n as [|c n]; [|rewrite zlen_cons in E; pose proof (zlen_nonneg n); lia]. eapply wp_mono; [exact Hun|]. rewrite (Hbad [] v eq_refl).
      intros res w' Hr. split; [|by split]. intros n' v' E' Hg. destruct n' as [|c n']; [done|]. injection E' as <- E'. by cbn in Hg.
    + eapply wp_mono; [apply (putenv_store w es A s n v None); [done..|]; split; [by eexists|]; by left|].
      intros res w' Hr. split; [|split].
      * intros n' v' E' Hg. assert (n' = n) as ->; [|done]. unfold good_name in Hg. apply andb_true_iff in Hg as [_ Hg]. clear -E' Hg Hn.
        revert n' E' Hg. induction n as [|c n IH]; intros [|c' n'] E' Hg; cbn in *; try done.
        -- injection E' as <- _. done.
        -- injection E' as -> _. done.
        -- injection E' as -> E'. apply andb_true_iff in Hn as [_ Hn]. apply andb_true_iff in Hg as [_ Hg]. by rewrite (IH Hn n' E' Hg).
      * by rewrite (Hbad n v eq_refl).
      * intros [Ht|Ht]; [by destruct n|]. destruct n as [|c n]; [done|]. injection Ht as ->. done.
Qed.
End Environment.

(** * The theorems *)

(** The environment of [w] is the list of strings [E]. *)
Definition env_is (w : world) (E : list (list Z)) : Prop := exists es A, env_ok w es A /\ texts (heap w) es = E.
(** [p] is the text [t], in memory of the caller's. *)
Definition caller (w : world) (p : ptr) (t : list Z) : Prop :=
  (exists c, heap w !! fst p = Some (Cell false (Bytes c))) /\ text_of (heap w) p = Some t.
Definition caller_kept (w w' : world) : Prop := forall p t, caller w p t -> caller w' p t.

Lemma caller_not_alloced w es A p t : strings_ok w es A -> caller w p t -> (fst p, 0) ∉ A.
Proof. intros Hok [[c Hc] _] HA. destruct (ok_alloced _ _ _ Hok) as (_ & _ & Hx). destruct (Hx _ HA) as (_ & c' & Hc'). cbn in Hc'. congruence. Qed.

Lemma frame_caller w w' es A : strings_ok w es A -> frame w w' -> caller_kept w w'.
Proof.
  intros Hok Hfr p t [[c Hc] Ht]. assert (heap w' !! fst p = heap w !! fst p) as E.
  { rewrite Hc. apply Hfr; [done|]. intros He. destruct (ok_environ _ _ _ Hok _ He) as (? & ? & ?). congruence. }
  split; [exists c; congruence|]. rewrite <- Ht. by apply text_of_block.
Qed.

Section Theorems.
Context `{AllocatorSpec} (sizes : res (Z * Z)) (get : res (list Z * list Z)).

(** What a call may do: the environment becomes [E'], or, when the allocator gives nothing, it stays. *)
Definition becomes (w w' : world) (res : Z) (E E' : list (list Z)) : Prop :=
  caller_kept w w' /\ (res = 0 /\ env_is w' E' \/ res = -1 /\ env_is w' E).

Lemma put_becomes w es A n t res w' : strings_ok w es A -> put_result w es A n t None res w' -> becomes w w' res (texts (heap w) es) (set_env n t (texts (heap w) es)).
Proof.
  intros Hok [(-> & es' & A' & Hok' & Ht' & _ & Hfr)|(-> & Hok' & Ht' & Hfr)]; (split; [by eapply frame_caller|]); [left|right]; (split; [done|]).
  - by exists es', A'.
  - by exists es, A.
Qed.
End Theorems.

(** C27: the environment behaves as a list of strings, whatever the calls that
    made it and wherever the strings live: [getenv] gives a pointer to the value of the
    first entry of the name, [setenv] and [putenv] replace the first entry or
    append one, [unsetenv] removes every entry of the name, [clearenv] all; malformed
    names give [EINVAL] and a failed allocation changes nothing.  No call reads a freed
    string, frees one twice, frees what it did not allocate, or touches the
    caller's strings; each leaves an environment of which the same is true. *)
Theorem environment_refines `{AllocatorSpec} sizes get w E : env_is w E ->
  (forall name n, text_of (heap w) name = Some n -> exists r, getenv sizes get name w = Ok (r, w) /\
     match (if good_name n then lookup_env n E else None) with
     | Some v => exists p, r = Some p /\ text_of (heap w) p = Some v
     | None => r = None
     end) /\
  (forall var n value v ow, text_of (heap w) var = Some n -> text_of (heap w) value = Some v ->
     exists res w', setenv sizes get (Some var) value ow w = Ok (res, w') /\
     if negb (good_name n) then res = -1 /\ w' = with_errno EINVAL w
     else if (ow =? 0) && bool_decide (is_Some (lookup_env n E)) then res = 0 /\ w' = w
     else becomes w w' res E (set_env n (n ++ EQUALS :: v) E)) /\
  (forall s t, caller w s t -> exists res w', putenv sizes get s w = Ok (res, w') /\
     (forall n v, t = n ++ EQUALS :: v -> good_name n = true -> becomes w w' res E (set_env n t E)) /\
     (good_name t = true -> res = 0 /\ env_is w' (unset_env t E) /\ caller_kept w w') /\
     (t = [] \/ head t = Some EQUALS -> res = -1 /\ w' = with_errno EINVAL w)) /\
  (forall name n, caller w name n -> exists res w', unsetenv sizes get name w = Ok (res, w') /\
     if good_name n then res = 0 /\ env_is w' (unset_env n E) /\ caller_kept w w' else res = -1 /\ w' = with_errno EINVAL w) /\
  (exists w', clearenv sizes get w = Ok (0, w') /\ env_is w' [] /\ caller_kept w w').
Proof.
  intros (es & A & Hok & <-). pose proof Hok as [_ Hst]. split; [|split; [|split; [|split]]].
  - intros name n Hn. destruct (getenv_wp sizes get w es A name n Hok Hn) as (r & w' & Er & -> & Hr). by exists r.
  - intros var n value v ow Hn Hv. destruct (setenv_wp sizes get w es A var n value v ow Hok Hn Hv) as (res & w' & Er & Hr).
    exists res, w'. split; [done|]. destruct (negb (good_name n)); [done|]. destruct (_ && _); [done|].
    destruct Hr as [(-> & es' & A' & Hok' & Ht' & Hfr)|(-> & Hok' & Ht' & Hfr)]; (split; [by eapply frame_caller|]); [left|right]; (split; [done|]).
    + by exists es', A'.
    + by exists es, A.
  - intros s t Hs. pose proof (caller_not_alloced _ _ _ _ _ Hst Hs) as HsA. destruct Hs as [_ Hs].
    destruct (putenv_wp sizes get w es A s t Hok Hs HsA) as (res & w' & Er & H1 & H2 & H3). exists res, w'. split; [done|]. split; [|split; [|done]].
    + intros n v Et Hg. by eapply put_becomes, H1.
    + intros Hg. destruct (H2 Hg) as (-> & es' & A' & Hok' & Ht' & Hfr). split; [done|]. split; [by exists es', A'|by eapply frame_caller].
  - intros name n Hn. pose proof (caller_not_alloced _ _ _ _ _ Hst Hn) as HnA. destruct Hn as [_ Hn].
    destruct (unsetenv_wp sizes get w es A name n Hok Hn HnA) as (res & w' & Er & Hr). exists res, w'. split; [done|].
    destruct (good_name n); [|done]. destruct Hr as (-> & es' & A' & Hok' & Ht' & _ & Hfr & _). split; [done|]. split; [by exists es', A'|by eapply frame_caller].
  - destruct (clearenv_wp sizes get w es A Hok) as (r & w' & Er & -> & _ & A' & Hok' & _ & Hfr). exists w'. split; [done|]. split; [by exists [], A'|].
    apply (frame_caller w w' es A Hst). intros b c Hb _. by apply Hfr.
Qed.

(** The abstract environment is a map from names to values. *)
Lemma value_of_self n v : value_of n (n ++ EQUALS :: v) = Some v.
Proof. unfold value_of. rewrite take_app_length, drop_app_length. by rewrite bool_decide_eq_true_2. Qed.

Lemma value_of_other n m v : good_name n = true -> good_name m = true -> n <> m -> value_of m (n ++ EQUALS :: v) = None.
Proof.
  intros Hn Hm Hne. destruct (value_of m _) as [v'|] eqn:E; [|done]. apply value_of_entry in E. exfalso. apply Hne.
  unfold good_name in *. apply andb_true_iff in Hn as [_ Hn]. apply andb_true_iff in Hm as [_ Hm]. clear -E Hn Hm.
  revert m E Hm. induction n as [|c n IH]; intros [|c' m] E Hm; cbn in *; try done.
  - injection E as <- _. done.
  - injection E as -> _. done.
  - injection E as -> E. apply andb_true_iff in Hn as [_ Hn]. apply andb_true_iff in Hm as [_ Hm]. by rewrite (IH Hn m E Hm).
Qed.

Lemma value_of_unique n m e v : good_name n = true -> good_name m = true -> n <> m -> value_of n e = Some v -> value_of m e = None.
Proof. intros Hn Hm Hne E. apply value_of_entry in E as ->. by apply value_of_other. Qed.

Lemma lookup_set n v E : good_name n = true -> lookup_env n (set_env n (n ++ EQUALS :: v) E) = Some v /\
  forall m, good_name m = true -> m <> n -> lookup_env m (set_env n (n ++ EQUALS :: v) E) = lookup_env m E.
Proof.
  intros Hn. induction E as [|e E [IH1 IH2]]; cbn [set_env lookup_env].
  - rewrite value_of_self. split; [done|]. intros m Hm Hne. by rewrite value_of_other.
  - destruct (value_of n e) as [v'|] eqn:Ev; cbn [lookup_env].
    + rewrite value_of_self. split; [done|]. intros m Hm Hne. rewrite value_of_other by done. by rewrite (value_of_unique n m e v').
    + rewrite Ev. split; [done|]. intros m Hm Hne. by rewrite IH2.
Qed.

Lemma lookup_unset n E : good_name n = true -> lookup_env n (unset_env n E) = None /\
  forall m, good_name m = true -> m <> n -> lookup_env m (unset_env n E) = lookup_env m E.
Proof.
  intros Hn. unfold unset_env. induction E as [|e E [IH1 IH2]]; [done|]. cbn [List.filter lookup_env].
  destruct (value_of n e) as [v|] eqn:Ev; cbn [lookup_env].
  - split; [done|]. intros m Hm Hne. by rewrite (value_of_unique n m e v), IH2.
  - rewrite Ev. split; [done|]. intros m Hm Hne. by rewrite IH2.
Qed.

(** The value that a program sees for a name. *)
Definition env_value `{Allocator} (sizes : res (Z * Z)) (get : res (list Z * list Z)) (w : world) (name : ptr) : option (list Z) :=
  match getenv sizes get name w with
  | Ok (Some p, w') => text_of (heap w') p
  | _ => None
  end.

Lemma env_value_lookup `{AllocatorSpec} sizes get w E name n : env_is w E -> text_of (heap w) name = Some n -> good_name n = true ->
  env_value sizes get w name = lookup_env n E.
Proof.
  intros (es & A & Hok & <-) Hn Hg. destruct (getenv_wp sizes get w es A name n Hok Hn) as (r & w' & Er & -> & Hr). rewrite Hg in Hr.
  unfold env_value. rewrite Er. destruct (lookup_env n _); [by destruct Hr as (p & -> & ?)|by subst r].
Qed.

(** [getenv] after [setenv] gives the value, after [unsetenv] nothing, and
    other names keep their values. *)
Theorem setenv_getenv `{AllocatorSpec} sizes get w E var n value v ow : env_is w E -> caller w var n -> text_of (heap w) value = Some v ->
  good_name n = true -> ow <> 0 ->
  (forall w', setenv sizes get (Some var) value ow w = Ok (0, w') -> env_value sizes get w' var = Some v /\
     forall name m, caller w name m -> good_name m = true -> m <> n -> env_value sizes get w' name = env_value sizes get w name) /\
  (forall w', unsetenv sizes get var w = Ok (0, w') -> env_value sizes get w' var = None /\
     forall name m, caller w name m -> good_name m = true -> m <> n -> env_value sizes get w' name = env_value sizes get w name).
Proof.
  intros Hw Hn Hv Hg How. pose proof Hw as (es & A & Hok & <-). pose proof Hok as [_ Hst]. set (E := texts (heap w) es) in *. split; intros w' Hr.
  - destruct (setenv_wp sizes get w es A var n value v ow Hok (proj2 Hn) Hv) as (res & w'' & Er & Hpost). rewrite Hr in Er. injection Er as <- <-.
    rewrite Hg, (proj2 (Z.eqb_neq ow 0) How) in Hpost. cbn [negb andb] in Hpost. destruct Hpost as [(_ & es' & A' & Hok' & Ht' & Hfr)|[? _]]; [|done].
    assert (env_is w' (set_env n (n ++ EQUALS :: v) E)) as Hw' by (by exists es', A'). pose proof (frame_caller _ _ _ _ Hst Hfr) as Hc.
    destruct (lookup_set n v E Hg) as [H1 H2]. split; [by rewrite (env_value_lookup _ _ _ _ _ _ Hw' (proj2 (Hc _ _ Hn)) Hg)|].
    intros name m Hm Hgm Hne. rewrite (env_value_lookup _ _ _ _ _ _ Hw' (proj2 (Hc _ _ Hm)) Hgm), (env_value_lookup _ _ _ _ _ _ Hw (proj2 Hm) Hgm). by apply H2.
  - destruct (unsetenv_wp sizes get w es A var n Hok (proj2 Hn) (caller_not_alloced _ _ _ _ _ Hst Hn)) as (res & w'' & Er & Hpost).
    rewrite Hr in Er. injection Er as <- <-. rewrite Hg in Hpost. destruct Hpost as (_ & es' & A' & Hok' & Ht' & _ & Hfr & _).
    assert (env_is w' (unset_env n E)) as Hw' by (by exists es', A'). pose proof (frame_caller _ _ _ _ Hst Hfr) as Hc.
    destruct (lookup_unset n E Hg) as [H1 H2]. split; [by rewrite (env_value_lookup _ _ _ _ _ _ Hw' (proj2 (Hc _ _ Hn)) Hg)|].
    intros name m Hm Hgm Hne. rewrite (env_value_lookup _ _ _ _ _ _ Hw' (proj2 (Hc _ _ Hm)) Hgm), (env_value_lookup _ _ _ _ _ _ Hw (proj2 Hm) Hgm). by apply H2.
Qed.

(** * Initialization *)

(** What WASI documents: [environ_get] fills a buffer of the size that [environ_sizes_get] gave with as many strings. *)
Record host_environ (sizes : res (Z * Z)) (get : res (list Z * list Z)) (offsets bytes : list Z) : Prop := {
  host_sizes : exists size, sizes = Val (zlen offsets, size) /\ zlen bytes <= size;
  host_get : get = Val (offsets, bytes);
  host_count : 4 * (zlen offsets + 1) < 2 ^ 32;
  host_texts : Forall (fun o => 0 <= o /\ existsb (fun c => c =? 0) (drop (Z.to_nat o) bytes) = true) offsets
}.

(** The state before the first use. *)
Record env_fresh (w : world) : Prop := {
  fresh_environ : environ w = Uninit;
  fresh_oldenv : oldenv w = None;
  fresh_alloced : env_alloced w = None /\ env_alloced_n w = 0;
  fresh_empty : heap w !! empty_environ = Some (Cell false (Ptrs [None]))
}.

Lemma strings_start w es : oldenv w = None -> env_alloced w = None /\ env_alloced_n w = 0 -> (forall e, e ∈ es -> is_Some (text_of (heap w) e)) ->
  (forall b, environ w = Arr b -> exists o l, heap w !! b = Some (Cell o (Ptrs l))) -> strings_ok w es [].
Proof.
  intros Ho [Ha Hn] Hl He. split; [done| | | |done|by rewrite Ho|by rewrite Ha].
  - split; [exists []; rewrite Ha, Hn; done|]. split; [constructor|]. intros p Hp. by apply elem_of_nil in Hp.
  - destruct (claims [] es) as [|b l] eqn:E; [constructor|]. assert (b ∈ claims [] es) as Hb by (rewrite E; by left).
    apply elem_of_claims in Hb as [Hb _]. by apply elem_of_nil in Hb.
  - intros e _ Hx. by apply elem_of_nil in Hx.
Qed.

Lemma initialize_wp `{AllocatorSpec} sizes get offsets bytes w : host_environ sizes get offsets bytes -> env_fresh w ->
  wp (__wasilibc_initialize_environ sizes get) (fun r w' => r = Err Preopens.EX_SOFTWARE \/
    (r = Val tt /\ env_is w' (map (fun o => Preopens.until_nul (drop (Z.to_nat o) bytes)) offsets) /\ caller_kept w w')) w.
Proof.
  intros [(size & -> & Hsz) -> Hcount Htexts] [Hu Ho Ha Hem]. unfold __wasilibc_initialize_environ. pose proof (zlen_nonneg offsets).
  destruct (Z.eqb_spec (zlen offsets) 0) as [E|E].
  { destruct offsets as [|o offs]; [|rewrite zlen_cons in E; pose proof (zlen_nonneg offs); lia]. apply wp_bind, wp_sput, wp_ret. right. split; [done|].
    split; [|by intros p t Hp]. exists [], []. split; [|done]. split; [exists false, []; exact Hem|]. apply strings_start; try done.
    - intros e He. by apply elem_of_nil in He.
    - intros b [= <-]. eauto. }
  rewrite (u32_id (zlen offsets + 1)) by (unfold in_u; lia). rewrite (proj2 (Z.eqb_neq _ 0)) by lia.
  apply wp_bind, wp_alloc; [|apply wp_ret; by left]. intros buf Hbuf. rewrite (proj2 (Z.ltb_lt _ _)) by lia.
  apply wp_bind, wp_alloc.
  2:{ apply wp_bind. eapply wp_free_block; [apply lookup_insert_eq|]. apply wp_ret. by left. }
  cbn [heap with_heap]. intros ptrs Hptrs. assert (ptrs <> buf) as Hpb by (intros ->; by rewrite lookup_insert_eq in Hptrs).
  rewrite lookup_insert_ne in Hptrs by done. set (es := map (fun o => (buf, o)) offsets).
  apply wp_bind. eapply wp_slots; [apply lookup_insert_eq|].
  assert (drop (length offsets) (replicate (Z.to_nat (zlen offsets + 1)) None) = [@None ptr]) as ->.
  { rewrite drop_replicate. by replace (Z.to_nat (zlen offsets + 1) - length offsets)%nat with 1%nat by (unfold zlen; lia). }
  apply wp_bind. eapply wp_set_slots; [apply lookup_insert_eq|rewrite length_app, length_map, length_replicate; unfold zlen; cbn; lia|].
  apply wp_bind. rewrite (proj2 (Z.leb_le _ _)) by done. apply wp_sput. apply wp_bind, wp_sput, wp_ret. right. split; [done|].
  cbn [heap with_heap]. rewrite insert_insert_eq. set (h := <[buf:=_]> _). set (w' := with_environ _ _).
  assert (heap w' = h) as Eh by done.
  assert (h !! ptrs = Some (Cell true (Ptrs (map Some es ++ [None])))) as Hp.
  { unfold h. rewrite lookup_insert_ne by done. unfold es. rewrite map_map. apply lookup_insert_eq. }
  assert (forall o, o ∈ offsets -> text_of h (buf, o) = Some (Preopens.until_nul (drop (Z.to_nat o) bytes))) as Htx.
  { intros o Hoff. rewrite Forall_forall in Htexts. destruct (Htexts o Hoff) as [Ho1 Ho2]. unfold text_of. cbn [fst snd]. unfold h. rewrite lookup_insert_eq.
    rewrite Ho2, (proj2 (Z.leb_le _ _)) by done. done. }
  split.
  - exists es, []. split; [split; [by exists true, []|]|].
    + apply strings_start; try done.
      * intros e He. apply list_elem_of_fmap in He as (o & -> & Hoff). rewrite Eh, Htx by done. by eexists.
      * intros b [= <-]. by eexists _, _.
    + rewrite Eh. unfold texts, es. rewrite map_map. apply map_ext_in. intros o Hoff. rewrite Htx; [done|]. by apply list_elem_of_In.
  - intros p t [[c Hc] Ht]. assert (h !! fst p = heap w !! fst p) as E2.
    { unfold h. rewrite !lookup_insert_ne; [done|congruence..]. }
    split; [exists c; rewrite Eh; congruence|]. rewrite Eh, <- Ht. by apply text_of_block.
Qed.

(** * Examples *)

(** An allocator that takes the next block, up to 1000 bytes. *)
Definition next_block (live : gset Z) : Z := 1 + foldr Z.max 0 (elements live).
#[local] Instance demo_allocator : Allocator := {|
  malloc live n := if n <=? 1000 then Some (next_block live) else None;
  realloc live p n := if n <=? 1000 then Some (next_block live) else None
|}.
Lemma next_block_fresh live : next_block live ∉ live.
Proof.
  intros Hin. apply elem_of_elements in Hin. unfold next_block in Hin.
  assert (forall l x, x ∈ l -> x <= foldr Z.max 0 l) as Hmax.
  { induction l as [|y l IH]; intros x Hx; [by apply elem_of_nil in Hx|]. cbn. apply elem_of_cons in Hx as [-> |Hx]; [lia|]. specialize (IH x Hx). lia. }
  specialize (Hmax _ _ Hin). lia.
Qed.
#[local] Instance demo_allocator_ok : AllocatorSpec.
Proof. split; intros *; cbn; case_match; intros [= <-]; [|right]; apply next_block_fresh. Qed.

(** The host has [A=1] and [B=2]; the program has the strings ["C"], ["x"], ["B=9"] and ["A"]. *)
Definition demo_sizes : res (Z * Z) := Val (2, 8).
Definition demo_get : res (list Z * list Z) := Val ([0; 4], [65; 61; 49; 0; 66; 61; 50; 0]).
Definition demo_world : world :=
  World (list_to_map [(-1, Cell false (Ptrs [None])); (11, Cell false (Bytes [67; 0])); (12, Cell false (Bytes [120; 0]));
    (13, Cell false (Bytes [66; 61; 57; 0])); (14, Cell false (Bytes [65; 0]))]) Uninit None None 0 0.

(** [setenv("C", "x", 1)], [putenv("B=9")], [unsetenv("A")]: the entries that stay, in order, and the values. *)
Example environ_demo :
  match (do* setenv demo_sizes demo_get (Some (11, 0)) (12, 0) 1 in do* putenv demo_sizes demo_get (13, 0) in unsetenv demo_sizes demo_get (14, 0)) demo_world with
  | Ok (r, w) => r = 0 /\ env_value demo_sizes demo_get w (11, 0) = Some [120] /\ env_value demo_sizes demo_get w (14, 0) = None /\
      match environ w with Arr b => heap w !! b = Some (Cell true (Ptrs [Some (13, 0); Some (15, 0); None; None])) | _ => False end
  | _ => False
  end.
Proof. vm_compute. split_and!; reflexivity. Qed.

(** [unsetenv(getenv("A"))] where the value of [A] is ["A"] frees the name it is comparing with, and goes on
    comparing: the hypothesis that the name is the caller's is needed. *)
Example unsetenv_own_value :
  (do* setenv demo_sizes demo_get (Some (11, 0)) (11, 0) 1 in
   do* setenv demo_sizes demo_get (Some (12, 0)) (11, 0) 1 in
   let* p := getenv demo_sizes demo_get (11, 0) in
   match p with Some p => unsetenv demo_sizes demo_get p | None => sret 0 end) demo_world = UB.
Proof. vm_compute. reflexivity. Qed.

Lemma demo_host : host_environ demo_sizes demo_get [0; 4] [65; 61; 49; 0; 66; 61; 50; 0].
Proof. split; [by exists 8|done|done|by repeat constructor]. Qed.
Lemma demo_fresh : env_fresh demo_world.
Proof. by split. Qed.

Lemma demo_started : exists w, __wasilibc_initialize_environ demo_sizes demo_get demo_world = Ok (Val tt, w) /\
  env_is w [[65; 61; 49]; [66; 61; 50]] /\ caller_kept demo_world w.
Proof.
  destruct (initialize_wp demo_sizes demo_get _ _ demo_world demo_host demo_fresh) as (r & w & E & Hr). exists w.
  destruct Hr as [-> |(-> & Hw & Hc)]; [by vm_compute in E|]. split; [done|]. by split.
Qed.

Lemma environment_refines_witness : exists w, env_is w [[65; 61; 49]; [66; 61; 50]] /\
  (exists w', clearenv demo_sizes demo_get w = Ok (0, w') /\ env_is w' []).
Proof.
  destruct demo_started as (w & _ & Hw & _). exists w. split; [done|].
  destruct (environment_refines demo_sizes demo_get w _ Hw) as (_ & _ & _ & _ & w' & E & Hw' & _). by exists w'.
Defined.

Lemma setenv_getenv_witness : exists w, env_is w [[65; 61; 49]; [66; 61; 50]] /\
  forall w', setenv demo_sizes demo_get (Some (11, 0)) (12, 0) 1 w = Ok (0, w') -> env_value demo_sizes demo_get w' (11, 0) = Some [120].
Proof.
  destruct demo_started as (w & _ & Hw & Hc). exists w. split; [done|]. intros w' E.
  assert (caller w (11, 0) [67]) as H1 by (apply Hc; split; [by exists [67; 0]|reflexivity]).
  assert (caller w (12, 0) [120]) as H2 by (apply Hc; split; [by exists [120; 0]|reflexivity]).
  exact (proj1 (proj1 (setenv_getenv demo_sizes demo_get w _ (11, 0) [67] (12, 0) [120] 1 Hw H1 (proj2 H2) eq_refl ltac:(lia)) w' E)).
Defined.
