(* ===== verification/Printf.v ===== *)
(** Formatted output ([libc-top-half/musl/src/stdio/]: vfprintf.c, vsnprintf.c,
    vsprintf.c, vasprintf.c), in the configuration without floating point
    ([__wasilibc_printscan_no_floating_point], the [iprintf] family), where popping
    a floating-point argument aborts.

    The state of [printf_core] is linear memory (strings to print, the targets of
    [%n]), the argument list, the arrays of positional arguments and [errno].  The
    format is [const char *restrict] and not changed by the call: a list of
    characters.  The calls of [out] are recorded in their order; what they do depends
    on nothing else that [printf_core] computes, and [printf_core] does not look at
    what they did, so that the streams below take them one after the other. *)

From Stdlib Require Import Ascii.
From S2P Require Import Prelude Memory Strings Multibyte Intscan.

(** A character constant. *)
Notation "'ch' c" := (ltac:(let x := eval vm_compute in (Z.of_N (N_of_ascii c%char)) in exact x))
  (at level 0, c at level 0, only parsing).

Definition ALT_FORM : Z := Z.shiftl 1 (ch "#" - ch " ").
Definition ZERO_PAD : Z := Z.shiftl 1 (ch "0" - ch " ").
Definition LEFT_ADJ : Z := Z.shiftl 1 (ch "-" - ch " ").
Definition PAD_POS : Z := Z.shiftl 1 (ch " " - ch " ").
Definition MARK_POS : Z := Z.shiftl 1 (ch "+" - ch " ").
Definition GROUPED : Z := Z.shiftl 1 (ch "'" - ch " ").
Definition FLAGMASK : Z := Z.lor ALT_FORM (Z.lor ZERO_PAD (Z.lor LEFT_ADJ (Z.lor PAD_POS (Z.lor MARK_POS GROUPED)))).

(** * The states of the format specifier, and the types of arguments *)

Definition BARE : Z := 0.
Definition LPRE : Z := 1.
Definition LLPRE : Z := 2.
Definition HPRE : Z := 3.
Definition HHPRE : Z := 4.
Definition BIGLPRE : Z := 5.
Definition ZTPRE : Z := 6.
Definition JPRE : Z := 7.
Definition STOP : Z := 8.
Definition PTR : Z := 9.
Definition INT : Z := 10.
Definition UINT : Z := 11.
Definition ULLONG : Z := 12.
Definition LONG : Z := 13.
Definition ULONG : Z := 14.
Definition SHORT : Z := 15.
Definition USHORT : Z := 16.
Definition CHAR : Z := 17.
Definition UCHAR : Z := 18.
Definition LLONG : Z := 19.
Definition SIZET : Z := 20.
Definition IMAX : Z := 21.
Definition UMAX : Z := 22.
Definition PDIFF : Z := 23.
Definition UIPTR : Z := 24.
Definition DBL : Z := 25.
Definition LDBL : Z := 26.
Definition NOARG : Z := 27.

(** A row: the characters with an entry; the others are 0. *)
Definition floats (t : Z) : list (Z * Z) :=
  [(ch "e", t); (ch "f", t); (ch "g", t); (ch "a", t); (ch "E", t); (ch "F", t); (ch "G", t); (ch "A", t)].
Definition ints (s u : Z) : list (Z * Z) :=
  [(ch "d", s); (ch "i", s); (ch "o", u); (ch "u", u); (ch "x", u); (ch "X", u)].

Definition states : list (list (Z * Z)) :=
  [ ints INT UINT ++ floats DBL ++
      [(ch "c", CHAR); (ch "C", INT); (ch "s", PTR); (ch "S", PTR); (ch "p", UIPTR); (ch "n", PTR); (ch "m", NOARG);
       (ch "l", LPRE); (ch "h", HPRE); (ch "L", BIGLPRE); (ch "z", ZTPRE); (ch "j", JPRE); (ch "t", ZTPRE)];
    ints LONG ULONG ++ floats DBL ++ [(ch "c", INT); (ch "s", PTR); (ch "n", PTR); (ch "l", LLPRE)];
    ints LLONG ULLONG ++ [(ch "n", PTR)];
    ints SHORT USHORT ++ [(ch "n", PTR); (ch "h", HHPRE)];
    ints CHAR UCHAR ++ [(ch "n", PTR)];
    floats LDBL ++ [(ch "n", PTR)];
    ints PDIFF SIZET ++ [(ch "n", PTR)];
    ints IMAX UMAX ++ [(ch "n", PTR)] ].

(** [states[st]S(c)] *)
Definition next_state (st c : Z) : Z :=
  match List.find (fun e => fst e =? c) (nth (Z.to_nat st) states []) with Some e => snd e | None => 0 end.

Definition OOB (x : Z) : bool := ch "z" - ch "A" <? u32 (x - ch "A").

(** The loop over the length modifiers and the conversion: the type, the last state, the conversion character
    and the rest of the format; [None] is [goto inval]. *)
Fixpoint specifier (st : Z) (s : list Z) : option (Z * Z * Z * list Z) :=
  match s with
  | [] => None
  | c :: s =>
      if OOB c then None
      else
        let ps := st in
        let st := next_state st c in
        if u32 (st - 1) <? STOP then specifier st s
        else if st =? 0 then None
        else Some (st, ps, c, s)
  end.

(** * Reading the format *)

(** [for (z=s; s[0]=='%' && s[1]=='%'; z++, s+=2);]: how often, and the rest. *)
Fixpoint percents (s : list Z) : nat * list Z :=
  match s with
  | c :: d :: rest =>
      if (c =? ch "%") && (d =? ch "%") then let (k, rest) := percents rest in (S k, rest) else (O, s)
  | _ => (O, s)
  end.

(** The text from [a] to [z], and the rest. *)
Definition literal (s : list Z) : list Z * list Z :=
  let a := span (fun c => negb (c =? ch "%")) s in
  let (k, rest) := percents (drop (length a) s) in
  (a ++ replicate k (ch "%"), rest).

(** The modifier flags. *)
Fixpoint read_flags (fl : Z) (s : list Z) : Z * list Z :=
  match s with
  | c :: s' =>
      if (u32 (c - ch " ") <? 32) && ctrue (Z.land FLAGMASK (Z.shiftl 1 (c - ch " ")))
      then read_flags (Z.lor fl (Z.shiftl 1 (c - ch " "))) s'
      else (fl, s)
  | [] => (fl, s)
  end.

Fixpoint getint_loop (i : Z) (s : list Z) : Z * list Z :=
  match s with
  | c :: s' =>
      if isdigit c then
        getint_loop (if (INT_MAX / 10 <? u32 i) || (INT_MAX - 10 * i <? c - ch "0") then -1 else 10 * i + (c - ch "0")) s'
      else (i, s)
  | [] => (i, s)
  end.
Definition getint (s : list Z) : Z * list Z := getint_loop 0 s.

(** A digit and a dollar at the index [i]: the digit. *)
Definition dollar (s : list Z) (i : Z) : option Z :=
  if isdigit (schar s i) && (schar s (i + 1) =? ch "$") then Some (schar s i - ch "0") else None.

(** * Numbers

    The digits are stored from the end of [buf] downwards; [acc] is what is stored. *)

(** [sizeof(uintmax_t)*3+3+LDBL_MANT_DIG/4] *)
Definition sizeof_buf : Z := 8 * 3 + 3 + 113 / 4.

(** [*--s = c] *)
Definition push (c : Z) (acc : list Z) : outcome (list Z) := if zlen acc <? sizeof_buf then Ok (u8 c :: acc) else UB.

Definition xdigits : list Z := [48; 49; 50; 51; 52; 53; 54; 55; 56; 57; 65; 66; 67; 68; 69; 70].

Fixpoint fmt_x_loop (fuel : nat) (x lower : Z) (acc : list Z) : outcome (list Z) :=
  match fuel with
  | O => NoFuel
  | S fuel' =>
      if x =? 0 then Ok acc
      else
        let! d := zget xdigits (Z.land x 15) in
        let! acc := push (Z.lor d lower) acc in
        fmt_x_loop fuel' (Z.shiftr x 4) lower acc
  end.
Fixpoint fmt_o_loop (fuel : nat) (x : Z) (acc : list Z) : outcome (list Z) :=
  match fuel with
  | O => NoFuel
  | S fuel' =>
      if x =? 0 then Ok acc
      else let! acc := push (ch "0" + Z.land x 7) acc in fmt_o_loop fuel' (Z.shiftr x 3) acc
  end.
(** [for (; x>bound; x/=10) *--s = '0' + x%10;] *)
Fixpoint fmt_u_loop (fuel : nat) (bound x : Z) (acc : list Z) : outcome (Z * list Z) :=
  match fuel with
  | O => NoFuel
  | S fuel' =>
      if x <=? bound then Ok (x, acc)
      else let! acc := push (ch "0" + x mod 10) acc in fmt_u_loop fuel' bound (x / 10) acc
  end.

(** A digit takes one bit at least. *)
Definition digit_fuel : nat := 65.

Definition fmt_x (x lower : Z) : outcome (list Z) := fmt_x_loop digit_fuel x lower [].
Definition fmt_o (x : Z) : outcome (list Z) := fmt_o_loop digit_fuel x [].
Definition fmt_u (x : Z) : outcome (list Z) :=
  let! (y, acc) := fmt_u_loop digit_fuel ULONG_MAX x [] in
  let! (_, acc) := fmt_u_loop digit_fuel 0 y acc in
  Ok acc.

(** * The state *)

(** What a variadic call passes: four or eight bytes. *)
Inductive va : Type := W32 (x : Z) | W64 (x : Z).

Record pf : Type := Pf {
  memory_ : list Z;
  ap : list va;
  nl_arg : list Z;   (** each the 64 bits of the union *)
  nl_type : list Z;
  outs : list (list Z);
  errno : Z
}.
Definition with_memory (m : list Z) (s : pf) : pf := Pf m (ap s) (nl_arg s) (nl_type s) (outs s) (errno s).
Definition with_ap (a : list va) (s : pf) : pf := Pf (memory_ s) a (nl_arg s) (nl_type s) (outs s) (errno s).
Definition with_nl_arg (l : list Z) (s : pf) : pf := Pf (memory_ s) (ap s) l (nl_type s) (outs s) (errno s).
Definition with_nl_type (l : list Z) (s : pf) : pf := Pf (memory_ s) (ap s) (nl_arg s) l (outs s) (errno s).
Definition with_outs (l : list (list Z)) (s : pf) : pf := Pf (memory_ s) (ap s) (nl_arg s) (nl_type s) l (errno s).
Definition with_errno (e : Z) (s : pf) : pf := Pf (memory_ s) (ap s) (nl_arg s) (nl_type s) (outs s) e.

Definition in_memory {A} (c : mem A) : M pf A := fun s =>
  let! r := c (memory_ s) in Ok (fst r, with_memory (snd r) s).

(** Code that can return from [printf_core]: [inl] is the value returned. *)
Notation "'let^' x ':=' c 'in' k" := (sbind c (fun r => match r with inl v => sret (inl v) | inr x => k end))
  (at level 10, x pattern, c at level 100, k at level 200) : c_scope.

Definition fail {A} (e : Z) : M pf (Z + A) := do* sput (with_errno e) in sret (inl (-1)).
Definition inval {A} : M pf (Z + A) := fail EINVAL.
Definition overflow {A} : M pf (Z + A) := fail EOVERFLOW.

(** [va_arg(ap, ...)] of a type of four and of eight bytes. *)
Definition va_32 : M pf Z := fun s =>
  match ap s with W32 x :: r => Ok (x, with_ap r s) | _ => UB end.
Definition va_64 : M pf Z := fun s =>
  match ap s with W64 x :: r => Ok (x, with_ap r s) | _ => UB end.

(** The union after a store to its pointer, and to its number. *)
Definition union_p (arg p : Z) : Z := arg / 2 ^ 32 * 2 ^ 32 + u32 p.
Definition union_i (i : Z) : Z := u64 i.

Definition pop_arg (arg type : Z) : M pf Z :=
  if type =? PTR then let* x := va_32 in sret (union_p arg x)
  else if type =? INT then let* x := va_32 in sret (union_i (s32 x))
  else if type =? UINT then let* x := va_32 in sret (union_i (u32 x))
  else if type =? LONG then let* x := va_32 in sret (union_i (s32 x))
  else if type =? ULONG then let* x := va_32 in sret (union_i (u32 x))
  else if type =? ULLONG then let* x := va_64 in sret (union_i (u64 x))
  else if type =? SHORT then let* x := va_32 in sret (union_i (s16 x))
  else if type =? USHORT then let* x := va_32 in sret (union_i (u16 x))
  else if type =? CHAR then let* x := va_32 in sret (union_i (s8 x))
  else if type =? UCHAR then let* x := va_32 in sret (union_i (u8 x))
  else if type =? LLONG then let* x := va_64 in sret (union_i (s64 x))
  else if type =? SIZET then let* x := va_32 in sret (union_i (u32 x))
  else if type =? IMAX then let* x := va_64 in sret (union_i (s64 x))
  else if type =? UMAX then let* x := va_64 in sret (union_i (u64 x))
  else if type =? PDIFF then let* x := va_32 in sret (union_i (s32 x))
  else if type =? UIPTR then let* x := va_32 in sret (union_i (u32 x))
  else if (type =? DBL) || (type =? LDBL) then fun _ => Trap
  else sret arg.

(** * Output *)

Definition out (s : list Z) : M pf unit := sput (fun st => with_outs (outs st ++ [s]) st).

Definition sizeof_pad : Z := 256.

Fixpoint pad_loop (fuel : nat) (c l : Z) : M pf unit :=
  match fuel with
  | O => fun _ => NoFuel
  | S fuel' =>
      if sizeof_pad <=? l then do* out (replicate (Z.to_nat sizeof_pad) c) in pad_loop fuel' c (l - sizeof_pad)
      else out (replicate (Z.to_nat l) c)
  end.

Definition pad (c w l fl : Z) : M pf unit :=
  if ctrue (Z.land fl (Z.lor LEFT_ADJ ZERO_PAD)) || (w <=? l) then sret tt
  else
    let l := w - l in
    pad_loop (S (Z.to_nat (l / sizeof_pad))) c l.

(** * Conversions *)

Section Printf.
(** The character set of the locale, the text of [strerror] (errno/strerror.c), and what
    uninitialized memory holds. *)
Context (utf8 : bool) (strerror : Z -> list Z) (junk : Z).

Definition has_fl (fl b : Z) : bool := ctrue (Z.land fl b).
Definition drop_fl (fl b : Z) : Z := Z.land fl (Z.lnot b).

(** ["-+   0X0x"] *)
Definition prefixes : list Z := [ch "-"; ch "+"; ch " "; ch " "; ch " "; ch "0"; ch "X"; ch "0"; ch "x"].

(** The end of the integer cases, from the check of the precision: prefix, digits, [p] and [fl]. *)
Definition number_end (fl xp prefix pl : Z) (a : list Z) (arg p : Z) : M pf (Z + (list Z * list Z * Z * Z)) :=
  if ctrue xp && (p <? 0) then overflow
  else
    let fl := if ctrue xp then drop_fl fl ZERO_PAD else fl in
    let text := take (Z.to_nat pl) (drop (Z.to_nat prefix) prefixes) in
    if (arg =? 0) && (p =? 0) then sret (inr (text, [], p, fl))
    else sret (inr (text, a, Z.max p (zlen a + cbool (arg =? 0)), fl)).

(** The cases [p], [x], [X], [o], [d], [i] and [u] of the [switch]. *)
Definition number (fl p xp t arg : Z) : M pf (Z + (list Z * list Z * Z * Z)) :=
  let '(p, t, fl) :=
    if t =? ch "p" then (if 2 * 4 <? u32 p then p else 2 * 4, ch "x", Z.lor fl ALT_FORM) else (p, t, fl) in
  let* (prefix, pl, a, arg, p) :=
    if (t =? ch "x") || (t =? ch "X") then
      let* a := lift (fmt_x arg (Z.land t 32)) in
      sret (if ctrue arg && has_fl fl ALT_FORM then (Z.shiftr t 4, 2, a, arg, p) else (0, 0, a, arg, p))
    else if t =? ch "o" then
      let* a := lift (fmt_o arg) in
      sret (0, 0, a, arg, if has_fl fl ALT_FORM && (p <? zlen a + 1) then zlen a + 1 else p)
    else
      let '(prefix, pl, arg) :=
        if (t =? ch "d") || (t =? ch "i") then
          if LLONG_MAX <? arg then (0, 1, u64 (- arg))
          else if has_fl fl MARK_POS then (1, 1, arg)
          else if has_fl fl PAD_POS then (2, 1, arg)
          else (0, 0, arg)
        else (0, 0, arg) in
      let* a := lift (fmt_u arg) in
      sret (prefix, pl, a, arg, p) in
  number_end fl xp prefix pl a arg p.

(** ["(null)"] *)
Definition null_text : list Z := [ch "("; ch "n"; ch "u"; ch "l"; ch "l"; ch ")"].

(** [z = a + strnlen(a, p<0 ? INT_MAX : p); if (p<0 && *z) goto overflow;]: the text from [a] to [z], of a string
    of the library and of one in memory. *)
Definition constant_text (a : list Z) (p : Z) : M pf (Z + list Z) :=
  let n := Z.min (zlen a) (if p <? 0 then INT_MAX else p) in
  if (p <? 0) && ctrue (schar a n) then overflow else sret (inr (take (Z.to_nat n) a)).
Definition memory_text (a p : Z) : M pf (Z + list Z) :=
  let* n := in_memory (strnlen a (if p <? 0 then INT_MAX else p)) in
  let* more := if p <? 0 then let* c := in_memory (load8 (a + n)) in sret (ctrue c) else sret false in
  if more : bool then overflow
  else let* m := sget memory_ in sret (inr (bytes_at m a n)).

(** [*(unsigned short * )a = v] *)
Definition store16 (a v : Z) : mem unit :=
  if a mod 2 =? 0 then do* store8 a v in store8 (a + 1) (Z.shiftr v 8) else sfail.

(** The case [n]. *)
Definition store_count (ps a cnt : Z) : mem unit :=
  if ps =? BARE then store32 a cnt
  else if ps =? LPRE then store32 a cnt
  else if ps =? LLPRE then store64 a cnt
  else if ps =? HPRE then store16 a cnt
  else if ps =? HHPRE then store8 a cnt
  else if ps =? ZTPRE then store32 a cnt
  else if ps =? JPRE then store64 a cnt
  else sret tt.

(** ** Wide characters: [ws i] reads the [i]-th *)

(** [wctomb(mb, wc)] *)
Definition wctomb (wc : Z) : M pf (option (list Z)) :=
  match Multibyte.wctomb utf8 true wc with
  | Val mb => sret (Some mb)
  | Err e => do* sput (with_errno e) in sret None
  end.

(** [for (i=l=0; i<p && *ws && (l=wctomb(mb, *ws++))>=0 && l<=p-i; i+=l);]: [i], or [None] for a negative [l]. *)
Fixpoint wide_length (fuel : nat) (ws : Z -> M pf Z) (p k i : Z) : M pf (option Z) :=
  match fuel with
  | O => fun _ => NoFuel
  | S fuel' =>
      if i <? u32 p then
        let* c := ws k in
        if c =? 0 then sret (Some i)
        else
          let* mb := wctomb c in
          match mb with
          | None => sret None
          | Some mb => if zlen mb <=? u32 (p - i) then wide_length fuel' ws p (k + 1) (i + zlen mb) else sret (Some i)
          end
      else sret (Some i)
  end.

(** [for (i=0; i<0U+p && *ws && i+(l=wctomb(mb, *ws++))<=p; i+=l) out(f, mb, l);] *)
Fixpoint wide_out (fuel : nat) (ws : Z -> M pf Z) (p k i : Z) : M pf unit :=
  match fuel with
  | O => fun _ => NoFuel
  | S fuel' =>
      if i <? u32 p then
        let* c := ws k in
        if c =? 0 then sret tt
        else
          let* mb := wctomb c in
          match mb with
          | None => if u32 (i - 1) <=? u32 p then sfail else sret tt
          | Some mb => if i + zlen mb <=? u32 p then do* out mb in wide_out fuel' ws p (k + 1) (i + zlen mb) else sret tt
          end
      else sret tt
  end.

(** The case [S], which [C] joins with a local array and no precision. *)
Definition wide_string (ws : Z -> M pf Z) (fl w p : Z) : M pf (Z + Z) :=
  let* fuel := sget (fun s => S (length (memory_ s))) in
  let* n := wide_length (S fuel) ws p 0 0 in
  match n with
  | None => sret (inl (-1))
  | Some i =>
      if INT_MAX <? i then overflow
      else
        let p := i in
        do* pad (ch " ") w p fl in
        do* wide_out (S fuel) ws p 0 0 in
        do* pad (ch " ") w p (Z.lxor fl LEFT_ADJ) in
        sret (inr (if p <? w then w else p))
  end.

(** ** The end of the loop's body *)

Definition emit (cnt fl w p : Z) (prefix a : list Z) : M pf (Z + Z) :=
  let pl := zlen prefix in
  let p := if p <? zlen a then zlen a else p in
  if INT_MAX - pl <? p then overflow
  else
    let w := if w <? pl + p then pl + p else w in
    if INT_MAX - cnt <? w then overflow
    else
      do* pad (ch " ") w (pl + p) fl in
      do* out prefix in
      do* pad (ch "0") w (pl + p) (Z.lxor fl ZERO_PAD) in
      do* pad (ch "0") p (zlen a) 0 in
      do* out a in
      do* pad (ch " ") w (pl + p) (Z.lxor fl LEFT_ADJ) in
      sret (inr w).

(** From the transformation of [ls] and [lc] to the end of the [switch] and the output: the new [l]. *)
Definition conversion (cnt fl w p xp ps t arg : Z) : M pf (Z + Z) :=
  let t := if ctrue ps && (Z.land t 15 =? 3) then Z.land t (Z.lnot 32) else t in
  let fl := if has_fl fl LEFT_ADJ then drop_fl fl ZERO_PAD else fl in
  if t =? ch "n" then do* in_memory (store_count ps (u32 arg) cnt) in sret (inr 0)
  else if existsb (Z.eqb t) [ch "p"; ch "x"; ch "X"; ch "o"; ch "d"; ch "i"; ch "u"] then
    let^ (prefix, a, p, fl) := number fl p xp t arg in
    emit cnt fl w p prefix a
  else if t =? ch "c" then emit cnt (drop_fl fl ZERO_PAD) w 1 [] [u8 arg]
  else if t =? ch "m" then
    let* e := sget errno in
    let^ a := constant_text (strerror e) p in
    emit cnt (drop_fl fl ZERO_PAD) w (zlen a) [] a
  else if t =? ch "s" then
    let^ a := if ctrue (u32 arg) then memory_text (u32 arg) p else constant_text null_text p in
    emit cnt (drop_fl fl ZERO_PAD) w (zlen a) [] a
  else if t =? ch "C" then wide_string (fun k => lift (zget [s32 arg; 0] k)) fl w (-1)
  else if t =? ch "S" then wide_string (fun k => let* c := in_memory (load32 (u32 arg + 4 * k)) in sret (s32 c)) fl w p
  else sfail.

(** * The core *)

Definition nl_set (i type : Z) : M pf unit := fun s => let! l := zset (nl_type s) i type in Ok (tt, with_nl_type l s).
Definition nl_get (i : Z) : M pf Z := fun s => let! x := zget (nl_arg s) i in Ok (x, s).

(** [w=-w] *)
Definition negate (w : Z) : outcome Z := if w =? INT_MIN then UB else Ok (- w).

(** The field width: [w], [fl], [l10n] and the rest of the format. *)
Definition field_width (f : bool) (fl : Z) (l10n : bool) (s : list Z) : M pf (Z + (Z * Z * bool * list Z)) :=
  if schar s 0 =? ch "*" then
    let^ (w, l10n, s) :=
      match dollar s 1 with
      | Some d =>
          do* nl_set d INT in
          let* x := nl_get d in
          sret (inr (s32 x, true, drop 3 s))
      | None =>
          if l10n : bool then inval
          else let* w := if f : bool then let* x := va_32 in sret (s32 x) else sret 0 in sret (inr (w, l10n, drop 1 s))
      end in
    if w <? 0 then let* w := lift (negate w) in sret (inr (w, Z.lor fl LEFT_ADJ, l10n, s))
    else sret (inr (w, fl, l10n, s))
  else
    let (w, s) := getint s in
    if w <? 0 then overflow else sret (inr (w, fl, l10n, s)).

(** The precision: [p], [xp] and the rest. *)
Definition precision (f : bool) (l10n : bool) (s : list Z) : M pf (Z + (Z * Z * list Z)) :=
  if (schar s 0 =? ch ".") && (schar s 1 =? ch "*") then
    let^ (p, s) :=
      match dollar s 2 with
      | Some d =>
          do* nl_set d INT in
          let* x := nl_get d in
          sret (inr (s32 x, drop 4 s))
      | None =>
          if l10n : bool then inval
          else let* p := if f : bool then let* x := va_32 in sret (s32 x) else sret 0 in sret (inr (p, drop 2 s))
      end in
    sret (inr (p, cbool (0 <=? p), s))
  else if schar s 0 =? ch "." then
    let (p, s) := getint (drop 1 s) in sret (inr (p, 1, s))
  else sret (inr (-1, 0, s)).

(** The argument of a conversion; without [f], 0 is returned where there is no position. *)
Definition argument (f : bool) (argpos st arg : Z) : M pf (Z + Z) :=
  if st =? NOARG then if 0 <=? argpos then inval else sret (inr arg)
  else if 0 <=? argpos then do* nl_set argpos st in let* x := nl_get argpos in sret (inr x)
  else if f : bool then let* x := pop_arg arg st in sret (inr x)
  else sret (inl 0).

(** One specification, [s] at its percent sign: the new [l], [l10n], [arg] and the rest.  (The cases that overwrite
    [arg] do so after its last use: the next one fills it, or uses none.) *)
Definition specification (f : bool) (cnt : Z) (l10n : bool) (arg : Z) (s : list Z) : M pf (Z + (Z * bool * Z * list Z)) :=
  let '(argpos, l10n, s) := match dollar s 1 with Some d => (d, true, drop 3 s) | None => (-1, l10n, drop 1 s) end in
  let (fl, s) := read_flags 0 s in
  let^ (w, fl, l10n, s) := field_width f fl l10n s in
  let^ (p, xp, s) := precision f l10n s in
  match specifier 0 s with
  | None => inval
  | Some (st, ps, t, s) =>
      let^ arg := argument f argpos st arg in
      if f : bool then let^ l := conversion cnt fl w p xp ps t arg in sret (inr (l, l10n, arg, s))
      else sret (inr (0, l10n, arg, s))
  end.

Definition NL_ARGMAX : Z := 9.

(** [for (i=1; i<=NL_ARGMAX && nl_type[i]; i++) pop_arg(nl_arg+i, nl_type[i], ap);]: the last [i]. *)
Fixpoint pop_all (fuel : nat) (i : Z) : M pf Z :=
  match fuel with
  | O => sret i
  | S fuel' =>
      let* ty := fun s => let! x := zget (nl_type s) i in Ok (x, s) in
      if ctrue ty then
        let* old := nl_get i in
        let* x := pop_arg old ty in
        do* (fun s => let! l := zset (nl_arg s) i x in Ok (tt, with_nl_arg l s)) in
        pop_all fuel' (i + 1)
      else sret i
  end.

(** After the loop. *)
Definition finish (f : bool) (cnt : Z) (l10n : bool) : M pf Z :=
  if f then sret cnt
  else if negb l10n then sret 0
  else
    let* i := pop_all (Z.to_nat NL_ARGMAX) 1 in
    let* rest := sget (fun s => drop (Z.to_nat i) (nl_type s)) in
    if existsb ctrue rest then do* sput (with_errno EINVAL) in sret (-1) else sret 1.

Fixpoint core_loop (fuel : nat) (f : bool) (s : list Z) (cnt l : Z) (l10n : bool) (arg : Z) : M pf Z :=
  match fuel with
  | O => fun _ => NoFuel
  | S fuel' =>
      if INT_MAX - cnt <? l then do* sput (with_errno EOVERFLOW) in sret (-1)
      else
        let cnt := cnt + l in
        match s with
        | [] => finish f cnt l10n
        | _ =>
            let (text, s) := literal s in
            let l := zlen text in
            if INT_MAX - cnt <? l then do* sput (with_errno EOVERFLOW) in sret (-1)
            else
              do* (if f then out text else sret tt) in
              if ctrue l then core_loop fuel' f s cnt l l10n arg
              else
                let* r := specification f cnt l10n arg s in
                match r with
                | inl v => sret v
                | inr (l, l10n, arg, s) => core_loop fuel' f s cnt l l10n arg
                end
        end
  end.

(** Every round but the last reads a character of the format. *)
Definition printf_core (f : bool) (fmt : list Z) : M pf Z :=
  core_loop (S (length fmt)) f fmt 0 0 false (u64 junk).

(** What [vfprintf] starts from: [va_copy], no types, and arguments that are not initialized. *)
Definition start (m : list Z) (args : list va) (e : Z) : pf :=
  Pf m args (replicate (Z.to_nat NL_ARGMAX + 1) (u64 junk)) (replicate (Z.to_nat NL_ARGMAX + 1) 0) [] e.

(** The two passes of [vfprintf]: over the positional arguments, then with output. *)
Definition first_pass (fmt : list Z) : M pf bool :=
  let* r := printf_core false fmt in sret (0 <=? r).

(** * vsnprintf.c

    The stream that [vsnprintf] makes: [struct cookie], and the internal buffer that [vfprintf] gives it (from
    [wbase] to [wpos]); its [lbf] is [EOF] and no error occurs.  The place [c_s] is [None] for the local [dummy]. *)

Record sn : Type := Sn { c_s : option Z; c_n : Z; wbuf : list Z }.

(** [sizeof internal_buf] *)
Definition sizeof_internal_buf : Z := 80.

(** The effect of [memcpy] from a buffer outside of the modelled memory. *)
Definition store_bytes (d : Z) (src : list Z) : mem unit := fun m =>
  if (0 <=? d) && (d + zlen src <=? zlen m) then Ok (tt, blit m d src) else UB.

(** [memcpy(c->s, src, k); c->s += k; c->n -= k;] where [k] is the length of [src]. *)
Definition cookie_put (src : list Z) (c : sn) : mem sn :=
  if zlen src =? 0 then sret c
  else
    match c_s c with
    | None => sfail
    | Some d => do* store_bytes d src in sret (Sn (Some (d + zlen src)) (c_n c - zlen src) (wbuf c))
    end.

Definition terminate (c : sn) : mem unit := match c_s c with Some d => store8 d 0 | None => sret tt end.

Definition sn_write (c : sn) (s : list Z) : mem sn :=
  let* c1 := cookie_put (take (Z.to_nat (Z.min (c_n c) (zlen (wbuf c)))) (wbuf c)) c in
  let* c2 := cookie_put (take (Z.to_nat (Z.min (c_n c1) (zlen s))) s) c1 in
  do* terminate c2 in
  sret (Sn (c_s c2) (c_n c2) []).

(** [__fwritex] on this stream. *)
Definition sn_out (c : sn) (s : list Z) : mem sn :=
  if sizeof_internal_buf - zlen (wbuf c) <? zlen s then sn_write c s
  else sret (Sn (c_s c) (c_n c) (wbuf c ++ s)).

Fixpoint sn_outs (c : sn) (l : list (list Z)) : mem sn :=
  match l with [] => sret c | s :: l => let* c := sn_out c s in sn_outs c l end.

(** The result, the memory and [errno]. *)
Definition vsnprintf (s n : Z) (fmt : list Z) (args : list va) : M (list Z * Z) Z := fun st =>
  let (m, e) := st in
  let c := if ctrue n then Sn (Some s) (n - 1) [] else Sn None 0 [] in
  if INT_MAX <? n then Ok (-1, (m, EOVERFLOW))
  else
    let! (_, m) := terminate c m in
    let! (ok, st) := first_pass fmt (start m args e) in
    if ok : bool then
      let! (ret, st) := printf_core true fmt st in
      let! (c, m) := sn_outs c (outs st) (memory_ st) in
      let! (_, m) := sn_write c [] m in
      Ok (ret, (m, errno st))
    else Ok (-1, (memory_ st, errno st)).

Definition vsprintf (s : Z) (fmt : list Z) (args : list va) : M (list Z * Z) Z := vsnprintf s INT_MAX fmt args.

(** [malloc] is what the call answers; the pointer stored to [*s] with the result. *)
Definition vasprintf (malloc : Z -> option Z) (fmt : list Z) (args : list va) : M (list Z * Z) (Z * option Z) :=
  let* l := vsnprintf 0 0 fmt args in
  if l <? 0 then sret (-1, None)
  else
    match malloc (u32 (l + 1)) with
    | None => sret (-1, Some NULL)
    | Some s => let* r := vsnprintf s (u32 (l + 1)) fmt args in sret (r, Some s)
    end.
End Printf.

(** The text stored at address 8 by a call with the buffer of 24 bytes there, and the result. *)
Definition demo (junk : Z) (fmt : list Z) (args : list va) : outcome (Z * list Z) :=
  let! (r, (m, _)) := vsnprintf true (fun _ => []) junk 8 24 fmt args ([97; 0; 0; 0; 0; 0; 0; 0] ++ replicate 24 1, 0) in
  Ok (r, span (fun c => negb (c =? 0)) (drop 8 m)).

(** ["%2$c%1$-3d|%%"] with 42 and ['x']: positional arguments. *)
Example positional_demo :
  demo 0 [ch "%"; ch "2"; ch "$"; ch "c"; ch "%"; ch "1"; ch "$"; ch "-"; ch "3"; ch "d"; ch "|"; ch "%"; ch "%"] [W32 42; W32 (ch "x")] =
  Ok (6, [ch "x"; ch "4"; ch "2"; ch " "; ch "|"; ch "%"]).
Proof. vm_compute. reflexivity. Qed.

(** ["%p"] of 0x1234 is not filled to eight digits: [MAX(p, 2*sizeof(void* ))] compares as unsigned, so that the missing
    precision -1 is the larger number. *)
Example pointer_not_filled : demo 0 [ch "%"; ch "p"] [W32 4660] = Ok (6, [ch "0"; ch "x"; ch "1"; ch "2"; ch "3"; ch "4"]).
Proof. vm_compute. reflexivity. Qed.

(** ["%05ls"] of a wide string ["a"] (at address 0) writes one character and returns 5: the flag [0], which the other
    text conversions clear, suppresses both paddings. *)
Example wide_zero_flag : demo 0 [ch "%"; ch "0"; ch "5"; ch "l"; ch "s"] [W32 0] = Ok (5, [ch "a"]).
Proof. vm_compute. reflexivity. Qed.

(** ["%0$d"] is accepted, and prints what was on the stack. *)
Example position_zero : forall junk, junk = 7 \/ junk = 8 -> demo junk [ch "%"; ch "0"; ch "$"; ch "d"] [] = Ok (1, [ch "0" + junk]).
Proof. intros junk [-> | ->]; vm_compute; reflexivity. Qed.
