(* ===== verification/PrintfSpec.v ===== *)
(** What formatted output means, and that the code of Printf gives it.

    A format is a list of pieces: characters, [%%] and conversions with flags,
    width, precision and length modifier.  [render] writes the format string,
    [args] lists the arguments of the call, and [meaning] is the text that a piece stands
    for, by the rules of the C standard: digits of the value to the precision, sign or
    base prefix, and justification in the field. *)

From Stdlib Require Import Ascii.
From S2P Require Import Prelude Memory Strings StringsScan StringsType Multibyte Intscan IntscanSpec Printf.

(** * The specification *)

Inductive width : Type := WNone | WNum (n : Z) | WStar (x : Z).
Inductive prec : Type := PNone | PDot | PNum (n : Z) | PStar (x : Z).
Inductive len : Type := Lnone | Lhh | Lh | Ll | Lll | Lj | Lz | Lt.
(** An integer conversion has its character and the argument; a string its address and text. *)
Inductive conv : Type :=
| CInt (ln : len) (c v : Z)
| CPtr (v : Z)
| CChar (v : Z)
| CStr (a : Z) (text : list Z)
| CNull
| CErrno.
Inductive piece : Type :=
| Char (c : Z)
| Percent
| Conv (fs : list Z) (w : width) (p : prec) (k : conv).

(** ** Digits *)

(** The digits of a number in a base, the first one first; none for 0. *)
Fixpoint digits_upto (fuel : nat) (b x : Z) : list Z :=
  match fuel with
  | O => []
  | S fuel' => if x =? 0 then [] else digits_upto fuel' b (x / b) ++ [x mod b]
  end.
Definition digits (b x : Z) : list Z := digits_upto (S (Z.to_nat (Z.log2 x))) b x.

(** The character of a digit. *)
Definition digit_char (upper : bool) (d : Z) : Z := if d <? 10 then 48 + d else if upper then 55 + d else 87 + d.
Definition numeral_text (upper : bool) (b x : Z) : list Z := map (digit_char upper) (digits b x).
Definition decimal (x : Z) : list Z := if x =? 0 then [48] else numeral_text false 10 x.

(** ** The format string and the arguments *)

Definition width_text (w : width) : list Z := match w with WNone => [] | WNum n => decimal n | WStar _ => [ch "*"] end.
Definition prec_text (p : prec) : list Z :=
  match p with PNone => [] | PDot => [ch "."] | PNum n => ch "." :: decimal n | PStar _ => [ch "."; ch "*"] end.
Definition len_text (ln : len) : list Z :=
  match ln with
  | Lnone => [] | Lhh => [ch "h"; ch "h"] | Lh => [ch "h"] | Ll => [ch "l"] | Lll => [ch "l"; ch "l"]
  | Lj => [ch "j"] | Lz => [ch "z"] | Lt => [ch "t"]
  end.
Definition conv_text (k : conv) : list Z :=
  match k with
  | CInt ln c _ => len_text ln ++ [c]
  | CPtr _ => [ch "p"]
  | CChar _ => [ch "c"]
  | CStr _ _ | CNull => [ch "s"]
  | CErrno => [ch "m"]
  end.
Definition render (p : piece) : list Z :=
  match p with
  | Char c => [c]
  | Percent => [ch "%"; ch "%"]
  | Conv fs w p k => ch "%" :: fs ++ width_text w ++ prec_text p ++ conv_text k
  end.

Definition conv_args (k : conv) : list va :=
  match k with
  | CInt (Lll | Lj) _ v => [W64 v]
  | CInt _ _ v | CPtr v | CChar v => [W32 v]
  | CStr a _ => [W32 a]
  | CNull => [W32 0]
  | CErrno => []
  end.
Definition args (p : piece) : list va :=
  match p with
  | Conv _ w p k =>
      match w with WStar x => [W32 x] | _ => [] end ++ match p with PStar x => [W32 x] | _ => [] end ++ conv_args k
  | _ => []
  end.

(** ** The text *)

Definition flag (fs : list Z) (c : Z) : bool := existsb (Z.eqb c) fs.

(** The width of the field, and whether the text is at its left. *)
Definition field (w : width) : Z := match w with WNone => 0 | WNum n => n | WStar x => Z.abs (s32 x) end.
Definition at_left (fs : list Z) (w : width) : bool :=
  flag fs (ch "-") || match w with WStar x => s32 x <? 0 | _ => false end.
(** The precision; a negative one is none. *)
Definition limit (p : prec) : option Z :=
  match p with PNone => None | PDot => Some 0 | PNum n => Some n | PStar x => if s32 x <? 0 then None else Some (s32 x) end.

Definition bits (ln : len) : Z := match ln with Lhh => 8 | Lh => 16 | Lll | Lj => 64 | _ => 32 end.
Definition is_signed (c : Z) : bool := (c =? ch "d") || (c =? ch "i").
Definition base_of (c : Z) : Z := if c =? ch "o" then 8 else if (c =? ch "x") || (c =? ch "X") then 16 else 10.
(** The value of the argument in the type that the conversion names. *)
Definition value_of (ln : len) (c v : Z) : Z := if is_signed c then swrap (bits ln) v else v mod 2 ^ bits ln.

(** At least [n] digits. *)
Definition zero_extend (n : Z) (ds : list Z) : list Z := replicate (Z.to_nat (n - zlen ds)) (ch "0") ++ ds.

(** The digits of an integer conversion; the alternative form of [o] begins with a zero. *)
Definition int_digits (alt : bool) (p : option Z) (c x : Z) : list Z :=
  let ds := zero_extend (match p with Some n => n | None => 1 end) (numeral_text (c =? ch "X") (base_of c) (Z.abs x)) in
  if alt && (c =? ch "o") && negb (schar ds 0 =? ch "0") then ch "0" :: ds else ds.
Definition int_prefix (fs : list Z) (c x : Z) : list Z :=
  if is_signed c then
    if x <? 0 then [ch "-"] else if flag fs (ch "+") then [ch "+"] else if flag fs (ch " ") then [ch " "] else []
  else if flag fs (ch "#") && negb (x =? 0) && (base_of c =? 16) then [ch "0"; c] else [].

(** A prefix and a text in a field. *)
Definition justify (left zero : bool) (w : Z) (prefix text : list Z) : list Z :=
  let fill := Z.to_nat (w - zlen (prefix ++ text)) in
  if left then prefix ++ text ++ replicate fill (ch " ")
  else if zero then prefix ++ replicate fill (ch "0") ++ text
  else replicate fill (ch " ") ++ prefix ++ text.

Definition cut (p : option Z) (s : list Z) : list Z := match p with Some n => take (Z.to_nat n) s | None => s end.

(** The text of a piece, [err] being the text of the error number. *)
Definition meaning (err : list Z) (p : piece) : list Z :=
  match p with
  | Char c => [c]
  | Percent => [ch "%"]
  | Conv fs w p k =>
      let left := at_left fs w in
      let zero := flag fs (ch "0") && negb (bool_decide (is_Some (limit p))) in
      match k with
      | CInt ln c v =>
          let x := value_of ln c v in
          justify left zero (field w) (int_prefix fs c x) (int_digits (flag fs (ch "#")) (limit p) c x)
      | CPtr v =>
          let x := u32 v in
          justify left zero (field w) (int_prefix [ch "#"] (ch "x") x)
            (int_digits false (option_map (Z.max 8) (limit p)) (ch "x") x)
      | CChar v => justify left false (field w) [] [u8 v]
      | CStr _ text => justify left false (field w) [] (cut (limit p) text)
      | CNull => justify left false (field w) [] (cut (limit p) null_text)
      | CErrno => justify left false (field w) [] (cut (limit p) err)
      end
  end.

(** ** Formats that mean something *)

Definition flag_chars : list Z := [ch "#"; ch "0"; ch "-"; ch " "; ch "+"; ch "'"].
Definition width_ok (w : width) : Prop := match w with WNum n => 0 < n <= INT_MAX | WStar x => s32 x <> INT_MIN | WNone => True end.
Definition prec_ok (p : prec) : Prop := match p with PNum n => 0 <= n <= INT_MAX | _ => True end.
Definition conv_ok (m : list Z) (k : conv) : Prop :=
  match k with
  | CInt _ c _ => c ∈ [ch "d"; ch "i"; ch "o"; ch "u"; ch "x"; ch "X"]
  | CStr a text => 0 < a /\ cstr m a text
  | _ => True
  end.
Definition piece_ok (m : list Z) (p : piece) : Prop :=
  match p with
  | Char c => 0 < c < 256 /\ c <> ch "%"
  | Percent => True
  | Conv fs w p k => Forall (fun c => c ∈ flag_chars) fs /\ width_ok w /\ prec_ok p /\ conv_ok m k
  end.

(** * Digits *)

Lemma digits_upto_enough b : 2 <= b -> forall n k x, 0 <= x < 2 ^ Z.of_nat n -> x < 2 ^ Z.of_nat k ->
  digits_upto n b x = digits_upto k b x.
Proof.
  intros Hb. induction n as [|n IH]; intros k x Hx Hk.
  - replace x with 0 by (cbn in Hx; lia). by destruct k.
  - destruct k as [|k]; [replace x with 0 by (cbn in Hk; lia); done|]. cbn [digits_upto].
    destruct (Z.eqb_spec x 0); [done|]. f_equal.
    assert (0 <= x / b <= x / 2) by (split; [apply Z.div_pos; lia|apply Z.div_le_compat_l; lia]).
    rewrite Nat2Z.inj_succ, Z.pow_succ_r in Hx, Hk by lia.
    assert (x / 2 < 2 ^ Z.of_nat n /\ x / 2 < 2 ^ Z.of_nat k) as [? ?] by (split; apply Z.div_lt_upper_bound; lia).
    apply IH; lia.
Qed.

Lemma log2_fuel x : 0 <= x -> x < 2 ^ Z.of_nat (S (Z.to_nat (Z.log2 x))).
Proof.
  intros Hx. destruct (Z.eq_dec x 0) as [-> |Hn]; [done|]. pose proof (Z.log2_spec x ltac:(lia)).
  rewrite Nat2Z.inj_succ, Z2Nat.id by apply Z.log2_nonneg. lia.
Qed.

Lemma digits_0 b : digits b 0 = [].
Proof. done. Qed.

Lemma digits_step b x : 2 <= b -> 0 < x -> digits b x = digits b (x / b) ++ [x mod b].
Proof.
  intros Hb Hx. unfold digits at 1. cbn [digits_upto]. rewrite (proj2 (Z.eqb_neq x 0)) by lia. f_equal.
  assert (0 <= x / b <= x / 2) by (split; [apply Z.div_pos; lia|apply Z.div_le_compat_l; lia]).
  apply digits_upto_enough; [done| |apply log2_fuel; lia]. split; [lia|].
  pose proof (Z.log2_spec x Hx) as [_ Hl]. rewrite Z2Nat.id by apply Z.log2_nonneg.
  rewrite Z.pow_succ_r in Hl by apply Z.log2_nonneg.
  assert (x / 2 < 2 ^ Z.log2 x) by (apply Z.div_lt_upper_bound; lia). lia.
Qed.

(** Induction along the digits. *)
Lemma digits_ind b (P : Z -> list Z -> Prop) : 2 <= b -> P 0 [] ->
  (forall x, 0 < x -> 0 <= x / b -> P (x / b) (digits b (x / b)) -> P x (digits b (x / b) ++ [x mod b])) ->
  forall x, 0 <= x -> P x (digits b x).
Proof.
  intros Hb H0 Hs x Hx. pattern x. apply (Zlt_0_ind (fun x => P x (digits b x))); [clear x Hx|done].
  intros x IH Hx. destruct (Z.eq_dec x 0) as [-> |Hn]; [done|]. rewrite digits_step by lia.
  assert (0 <= x / b < x) by (split; [apply Z.div_pos; lia|apply Z.div_lt; lia]). apply Hs; [lia|lia|]. by apply IH.
Qed.

Lemma digits_range b x : 2 <= b -> 0 <= x -> Forall (fun d => 0 <= d < b) (digits b x).
Proof.
  intros Hb Hx. apply (digits_ind b (fun _ ds => Forall (fun d => 0 <= d < b) ds)); [done|done| |done]. intros y Hy _ IH.
  apply Forall_app. split; [done|]. repeat constructor; apply Z.mod_pos_bound; lia.
Qed.

Lemma digits_length b x n : 2 <= b -> 0 <= x < b ^ n -> 0 <= n -> zlen (digits b x) <= n.
Proof.
  intros Hb [Hx Hlt]. revert n Hlt. apply (digits_ind b (fun x ds => forall n, x < b ^ n -> 0 <= n -> zlen ds <= n)); [done|intros; done| |done].
  intros y Hy _ IH n Hn Hn0. assert (0 < n).
  { destruct (Z.eq_dec n 0) as [-> |]; [|lia]. cbn in Hn. lia. }
  rewrite zlen_app. change (zlen [y mod b]) with 1. enough (zlen (digits b (y / b)) <= n - 1) by lia.
  apply IH; [|lia]. apply Z.div_lt_upper_bound; [lia|]. rewrite <- Z.pow_succ_r by lia. by replace (Z.succ (n - 1)) with n by lia.
Qed.

(** ** The loops of the code *)

Lemma lower_digit d : 0 <= d < 16 -> exists x, zget xdigits d = Ok x /\
  u8 (Z.lor x 32) = digit_char false d /\ u8 (Z.lor x 0) = digit_char true d.
Proof.
  intros Hd. pose proof (forall_below (fun d => match zget xdigits d with
    | Ok x => (u8 (Z.lor x 32) =? digit_char false d) && (u8 (Z.lor x 0) =? digit_char true d) | _ => false end) 16 eq_refl d Hd) as H.
  cbv beta in H. destruct (zget xdigits d) as [x| | |]; try done. exists x. bool_hyps. done.
Qed.

Lemma fmt_x_loop_digits (upper : bool) n : forall fuel x acc, 0 <= x < 16 ^ Z.of_nat n -> (n < fuel)%nat ->
  zlen acc + Z.of_nat n <= sizeof_buf ->
  fmt_x_loop fuel x (if upper then 0 else 32) acc = Ok (numeral_text upper 16 x ++ acc).
Proof.
  induction n as [|n IH]; intros [|fuel] x acc Hx Hf Hl; try lia; cbn [fmt_x_loop].
  - replace x with 0 by (cbn in Hx; lia). done.
  - destruct (Z.eqb_spec x 0) as [-> |Hn]; [done|].
    change 15 with (Z.ones 4). rewrite Z.land_ones, Z.shiftr_div_pow2 by lia. change (2 ^ 4) with 16.
    destruct (lower_digit (x mod 16)) as (d & Ed & Hlo & Hup); [apply Z.mod_pos_bound; lia|].
    rewrite Ed. cbn [obind]. unfold push. rewrite (proj2 (Z.ltb_lt _ _)) by lia. cbn [obind].
    rewrite Nat2Z.inj_succ, Z.pow_succ_r in Hx by lia.
    rewrite IH; [|split; [apply Z.div_pos; lia|apply Z.div_lt_upper_bound; lia]|lia|rewrite zlen_cons; lia].
    unfold numeral_text. rewrite (digits_step 16 x), map_app, <- app_assoc by lia. cbn [map app].
    do 3 f_equal. by destruct upper.
Qed.

Lemma fmt_o_loop_digits n : forall fuel x acc, 0 <= x < 8 ^ Z.of_nat n -> (n < fuel)%nat ->
  zlen acc + Z.of_nat n <= sizeof_buf -> fmt_o_loop fuel x acc = Ok (numeral_text false 8 x ++ acc).
Proof.
  induction n as [|n IH]; intros [|fuel] x acc Hx Hf Hl; try lia; cbn [fmt_o_loop].
  - replace x with 0 by (cbn in Hx; lia). done.
  - destruct (Z.eqb_spec x 0) as [-> |Hn]; [done|].
    change 7 with (Z.ones 3). rewrite Z.land_ones, Z.shiftr_div_pow2 by lia. change (2 ^ 3) with 8.
    pose proof (Z.mod_pos_bound x 8 ltac:(lia)).
    unfold push. rewrite (proj2 (Z.ltb_lt _ _)) by lia. cbn [obind].
    rewrite Nat2Z.inj_succ, Z.pow_succ_r in Hx by lia.
    rewrite IH; [|split; [apply Z.div_pos; lia|apply Z.div_lt_upper_bound; lia]|lia|rewrite zlen_cons; lia].
    unfold numeral_text. rewrite (digits_step 8 x), map_app, <- app_assoc by lia. cbn [map app].
    do 3 f_equal. unfold digit_char. rewrite (proj2 (Z.ltb_lt _ _)) by lia. apply u8_id. bounds. lia.
Qed.

(** A loop of [fmt_u]: what is left is at most the bound. *)
Lemma fmt_u_loop_digits bound n : 0 <= bound -> forall fuel x acc, 0 <= x < 10 ^ Z.of_nat n -> (n < fuel)%nat ->
  zlen acc + Z.of_nat n <= sizeof_buf ->
  exists y ds, fmt_u_loop fuel bound x acc = Ok (y, ds ++ acc) /\ 0 <= y <= bound /\
    numeral_text false 10 x = numeral_text false 10 y ++ ds.
Proof.
  intros Hb. induction n as [|n IH]; intros [|fuel] x acc Hx Hf Hl; try lia; cbn [fmt_u_loop].
  - replace x with 0 by (cbn in Hx; lia). rewrite (proj2 (Z.leb_le 0 bound)) by lia. by exists 0, [].
  - destruct (Z.leb_spec x bound).
    { exists x, []. rewrite app_nil_r. split_and!; [done|lia|lia|done]. }
    pose proof (Z.mod_pos_bound x 10 ltac:(lia)).
    unfold push. rewrite (proj2 (Z.ltb_lt _ _)) by lia. cbn [obind].
    rewrite Nat2Z.inj_succ, Z.pow_succ_r in Hx by lia.
    destruct (IH fuel (x / 10) (u8 (48 + x mod 10) :: acc)) as (y & ds & -> & Hy & E);
      [split; [apply Z.div_pos; lia|apply Z.div_lt_upper_bound; lia]|lia|rewrite zlen_cons; lia|].
    exists y, (ds ++ [u8 (48 + x mod 10)]). split_and!; [by rewrite <- app_assoc|lia|lia|].
    unfold numeral_text in *. rewrite (digits_step 10 x), map_app, E, <- app_assoc by lia. do 2 f_equal. cbn [map]. f_equal.
    unfold digit_char. rewrite (proj2 (Z.ltb_lt _ _)) by lia. symmetry. apply u8_id. bounds. lia.
Qed.

(** The digits of every 64-bit number fit in the buffer. *)
Lemma fmt_x_digits (upper : bool) x : in_u 64 x -> fmt_x x (if upper then 0 else 32) = Ok (numeral_text upper 16 x).
Proof.
  intros Hx. unfold fmt_x. rewrite (fmt_x_loop_digits upper 16); [by rewrite app_nil_r|exact Hx|unfold digit_fuel; lia|done].
Qed.

Lemma fmt_o_digits x : in_u 64 x -> fmt_o x = Ok (numeral_text false 8 x).
Proof.
  intros Hx. unfold fmt_o. rewrite (fmt_o_loop_digits 22); [by rewrite app_nil_r| |unfold digit_fuel; lia|done].
  unfold in_u in Hx. split; [lia|]. apply Z.lt_le_trans with (2 ^ 64); [lia|by vm_compute].
Qed.

Lemma fmt_u_digits x : in_u 64 x -> fmt_u x = Ok (numeral_text false 10 x).
Proof.
  intros Hx. unfold fmt_u.
  destruct (fmt_u_loop_digits ULONG_MAX 20 ltac:(done) digit_fuel x []) as (y & ds & -> & Hy & E);
    [|unfold digit_fuel; lia|done|].
  { unfold in_u in Hx. split; [lia|]. apply Z.lt_le_trans with (2 ^ 64); [lia|by vm_compute]. }
  cbn [obind]. rewrite app_nil_r.
  assert (zlen ds <= 20) as Hd.
  { assert (zlen (numeral_text false 10 x) <= 20) as Hl.
    { unfold numeral_text, zlen. rewrite length_map. apply (digits_length 10 x 20); [lia| |lia].
      unfold in_u in Hx. split; [lia|]. apply Z.lt_le_trans with (2 ^ 64); [lia|by vm_compute]. }
    rewrite E, zlen_app in Hl. pose proof (zlen_nonneg (numeral_text false 10 y)). lia. }
  destruct (fmt_u_loop_digits 0 10 ltac:(done) digit_fuel y ds) as (y' & ds' & -> & Hy' & E');
    [|unfold digit_fuel; lia|change sizeof_buf with 55; lia|].
  { split; [lia|]. apply Z.le_lt_trans with ULONG_MAX; [lia|by vm_compute]. }
  cbn [obind]. replace y' with 0 in E' by lia. rewrite E, E'. done.
Qed.

(** The first digit is not 0. *)
Lemma digits_head b x : 2 <= b -> 0 < x -> exists d ds, digits b x = d :: ds /\ 0 < d < b.
Proof.
  intros Hb Hx. assert (0 <= x) as H0 by lia. revert Hx.
  apply (digits_ind b (fun x ds => 0 < x -> exists d r, ds = d :: r /\ 0 < d < b)); [done|lia| |done].
  intros y Hy Hd IH _. destruct (Z.eq_dec (y / b) 0) as [E|Hn].
  - rewrite E. exists (y mod b), []. split; [done|]. pose proof (Z.mod_pos_bound y b ltac:(lia)).
    pose proof (Z.div_mod y b ltac:(lia)). lia.
  - destruct IH as (d & r & -> & Hr); [lia|]. by exists d, (r ++ [y mod b]).
Qed.

Lemma digit_char_10 d : 0 <= d < 10 -> digit_char false d = 48 + d.
Proof. intros. unfold digit_char. by rewrite (proj2 (Z.ltb_lt _ _)) by lia. Qed.

(** * Reading the format *)

(** ** Flags *)

Definition add_flag (fl c : Z) : Z := Z.lor fl (Z.shiftl 1 (c - ch " ")).
Definition flag_bits (fs : list Z) : Z := fold_left add_flag fs 0.

Definition starts (P : Z -> Prop) (s : list Z) : Prop := match s with c :: _ => P c | [] => True end.
Definition starts_letter (s : list Z) : Prop := exists c r, s = c :: r /\ 65 <= c <= 122.

Lemma is_flag_char c : 0 <= c < 256 ->
  (u32 (c - ch " ") <? 32) && ctrue (Z.land FLAGMASK (Z.shiftl 1 (c - ch " "))) = existsb (Z.eqb c) flag_chars.
Proof.
  intros Hc. apply eqb_prop. apply (forall_below (fun c => Bool.eqb ((u32 (c - 32) <? 32) && ctrue (Z.land FLAGMASK (Z.shiftl 1 (c - 32))))
    (existsb (Z.eqb c) flag_chars)) 256); [by vm_compute|done].
Qed.

Lemma flag_chars_range c : c ∈ flag_chars -> 0 <= c < 256.
Proof. unfold flag_chars. rewrite !elem_of_cons, elem_of_nil. lia. Qed.

Lemma in_flag_chars c : existsb (Z.eqb c) flag_chars = true <-> c ∈ flag_chars.
Proof.
  rewrite existsb_exists. split.
  - intros (x & Hx & ->%Z.eqb_eq). by apply list_elem_of_In.
  - intros Hc. exists c. split; [by apply list_elem_of_In|apply Z.eqb_refl].
Qed.

Lemma read_flags_list fs : Forall (fun c => c ∈ flag_chars) fs -> forall fl s,
  starts (fun c => 0 <= c < 256 /\ c ∉ flag_chars) s -> read_flags fl (fs ++ s) = (fold_left add_flag fs fl, s).
Proof.
  induction 1 as [|c fs Hc _ IH]; intros fl s Hs.
  - cbn [app fold_left]. destruct s as [|c s]; [done|]. destruct Hs as [Hr Hn]. cbn [read_flags]. rewrite is_flag_char by done.
    destruct (existsb (Z.eqb c) flag_chars) eqn:E; [by apply in_flag_chars in E|done].
  - cbn [app read_flags fold_left]. rewrite is_flag_char by (by apply flag_chars_range).
    rewrite (proj2 (in_flag_chars c)) by done. by apply IH.
Qed.

Lemma testbit_one k i : 0 <= k -> 0 <= i -> Z.testbit (Z.shiftl 1 k) i = (i =? k).
Proof. intros Hk Hi. rewrite Z.shiftl_1_l, Z.pow2_bits_eqb by done. apply Z.eqb_sym. Qed.

Lemma has_fl_bit fl k : 0 <= k -> has_fl fl (Z.shiftl 1 k) = Z.testbit fl k.
Proof.
  intros Hk. unfold has_fl, ctrue. rewrite Z.shiftl_1_l. destruct (Z.testbit fl k) eqn:E.
  - apply negb_true_iff, Z.eqb_neq. intros Hz. apply (f_equal (fun x => Z.testbit x k)) in Hz.
    rewrite Z.land_spec, E, Z.pow2_bits_true, Z.bits_0 in Hz by done. done.
  - apply negb_false_iff, Z.eqb_eq. apply Z.bits_inj'. intros i Hi. rewrite Z.land_spec, Z.bits_0, Z.pow2_bits_eqb by done.
    destruct (Z.eqb_spec k i) as [<- |]; [by rewrite E|apply andb_false_r].
Qed.

Lemma testbit_flag_bits fs k : Forall (fun c => c ∈ flag_chars) fs -> 0 <= k ->
  Z.testbit (flag_bits fs) k = flag fs (k + 32).
Proof.
  intros Hfs Hk. unfold flag_bits.
  enough (forall fl, Z.testbit (fold_left add_flag fs fl) k = Z.testbit fl k || flag fs (k + 32)) as ->.
  { by rewrite Z.bits_0. }
  induction Hfs as [|c fs Hc _ IH]; intros fl; cbn [fold_left flag existsb]; [by rewrite orb_false_r|].
  apply flag_chars_range in Hc as Hr. rewrite IH. unfold add_flag. rewrite Z.lor_spec.
  assert (0 <= c - 32) by (unfold flag_chars in Hc; rewrite !elem_of_cons, elem_of_nil in Hc; lia).
  rewrite testbit_one by lia. rewrite <- orb_assoc. f_equal. f_equal. apply eq_true_iff_eq. rewrite !Z.eqb_eq. lia.
Qed.

(** ** Numbers in the format *)

Lemma isdigit_iff c : 0 <= c < 256 -> isdigit c = (48 <=? c) && (c <=? 57).
Proof.
  intros Hc. apply eqb_prop. apply (forall_below (fun c => Bool.eqb (isdigit c) ((48 <=? c) && (c <=? 57))) 256); [by vm_compute|done].
Qed.

Lemma getint_stop i s : starts (fun c => isdigit c = false) s -> getint_loop i s = (i, s).
Proof. destruct s as [|c s]; [done|]. cbn. by intros ->. Qed.

Lemma getint_digits x : 0 <= x -> x <= INT_MAX -> forall s, getint_loop 0 (numeral_text false 10 x ++ s) = getint_loop x s.
Proof.
  intros Hx. unfold numeral_text.
  apply (digits_ind 10 (fun x ds => x <= INT_MAX -> forall s, getint_loop 0 (map (digit_char false) ds ++ s) = getint_loop x s)); [done|done| |done].
  intros y Hy Hd IH Hm s. rewrite map_app, <- app_assoc.
  pose proof (Z.mod_pos_bound y 10 ltac:(lia)). pose proof (Z.div_mod y 10 ltac:(lia)).
  rewrite IH by lia. cbn [map app getint_loop]. rewrite digit_char_10 by lia.
  rewrite isdigit_iff by lia. decide_cmp. cbn [andb]. unfold INT_MAX in *. change ((2 ^ 31 - 1) / 10) with 214748364 in *.
  rewrite u32_id by (bounds; lia). change (2 ^ 31 - 1) with 2147483647 in *. decide_cmp. cbn [orb]. f_equal. lia.
Qed.

Lemma getint_decimal n s : 0 <= n <= INT_MAX -> starts (fun c => isdigit c = false) s -> getint (decimal n ++ s) = (n, s).
Proof.
  intros Hn Hs. unfold getint, decimal. destruct (Z.eqb_spec n 0) as [-> |].
  - cbn. by rewrite getint_stop.
  - rewrite getint_digits by lia. by apply getint_stop.
Qed.

Lemma decimal_head n : 0 < n -> exists c r, decimal n = c :: r /\ 49 <= c <= 57.
Proof.
  intros Hn. unfold decimal, numeral_text. rewrite (proj2 (Z.eqb_neq n 0)) by lia.
  destruct (digits_head 10 n) as (d & ds & -> & Hd); [lia|lia|]. cbn [map]. rewrite digit_char_10 by lia.
  eexists _, _. split; [done|lia].
Qed.

(** * Output *)

(** [c] returns [r] and its output is [text]. *)
Definition prints {A} (c : M pf A) (st : pf) (r : A) (text : list Z) : Prop :=
  exists cs, c st = Ok (r, with_outs (outs st ++ cs) st) /\ concat cs = text.

Lemma prints_nothing {A} (c : M pf A) st r : c st = Ok (r, st) -> prints c st r [].
Proof. intros E. exists []. split; [|done]. rewrite E, app_nil_r. by destruct st. Qed.

Lemma prints_out s st : prints (out s) st tt s.
Proof. exists [s]. split; [done|]. cbn. apply app_nil_r. Qed.

Lemma prints_bind {A B} (c : M pf A) (k : A -> M pf B) st a r t1 t2 :
  prints c st a t1 -> (forall cs, prints (k a) (with_outs cs st) r t2) -> prints (sbind c k) st r (t1 ++ t2).
Proof.
  intros (cs1 & E1 & H1) H2. destruct (H2 (outs st ++ cs1)) as (cs2 & E2 & H2'). exists (cs1 ++ cs2). split.
  - rewrite (sbind_Ok _ _ _ _ _ E1), E2. cbn. by rewrite app_assoc.
  - by rewrite concat_app, H1, H2'.
Qed.

Lemma prints_ret {A} (r : A) st : prints (sret r) st r [].
Proof. by apply prints_nothing. Qed.

Lemma replicate_Z_add {A} (x : A) a b : 0 <= a -> 0 <= b -> replicate (Z.to_nat (a + b)) x = replicate (Z.to_nat a) x ++ replicate (Z.to_nat b) x.
Proof. intros. by rewrite Z2Nat.inj_add, replicate_add by lia. Qed.

Lemma pad_loop_prints c fuel : forall l st, 0 <= l < sizeof_pad * Z.of_nat fuel ->
  prints (pad_loop fuel c l) st tt (replicate (Z.to_nat l) c).
Proof.
  induction fuel as [|fuel IH]; intros l st Hl; [lia|]. cbn [pad_loop]. destruct (Z.leb_spec sizeof_pad l).
  - assert (replicate (Z.to_nat l) c = replicate (Z.to_nat sizeof_pad) c ++ replicate (Z.to_nat (l - sizeof_pad)) c) as ->.
    { rewrite <- replicate_Z_add by (unfold sizeof_pad in *; lia). do 2 f_equal. lia. }
    eapply prints_bind; [apply prints_out|]. intros. apply IH. lia.
  - apply prints_out.
Qed.

(** The text of a call of [pad]. *)
Definition padding (c w l fl : Z) : list Z :=
  if Z.testbit fl 13 || Z.testbit fl 16 then [] else replicate (Z.to_nat (w - l)) c.

Lemma pad_prints c w l fl st : prints (pad c w l fl) st tt (padding c w l fl).
Proof.
  unfold pad, padding. change (ctrue (Z.land fl (Z.lor LEFT_ADJ ZERO_PAD))) with (has_fl fl (Z.lor LEFT_ADJ ZERO_PAD)).
  assert (has_fl fl (Z.lor LEFT_ADJ ZERO_PAD) = Z.testbit fl 13 || Z.testbit fl 16) as ->.
  { rewrite <- (has_fl_bit fl 13), <- (has_fl_bit fl 16) by lia. unfold has_fl, ctrue.
    change (Z.shiftl 1 13) with LEFT_ADJ. change (Z.shiftl 1 16) with ZERO_PAD. rewrite Z.land_lor_distr_r.
    rewrite <- negb_andb. f_equal. apply eq_true_iff_eq. rewrite andb_true_iff, !Z.eqb_eq. apply Z.lor_eq_0_iff. }
  destruct (Z.testbit fl 13 || Z.testbit fl 16); [apply prints_ret|]. cbn [orb]. destruct (Z.leb_spec w l).
  - replace (Z.to_nat (w - l)) with O by lia. apply prints_ret.
  - apply pad_loop_prints. unfold sizeof_pad. rewrite Nat2Z.inj_succ, Z2Nat.id by (apply Z.div_pos; lia).
    pose proof (Z.div_mod (w - l) 256 ltac:(lia)). pose proof (Z.mod_pos_bound (w - l) 256 ltac:(lia)). lia.
Qed.

(** A conversion with [text] for its output: the number of characters, or [EOVERFLOW]. *)
Definition produces (c : M pf (Z + Z)) (st : pf) (cnt : Z) (text : list Z) : Prop :=
  if zlen text <=? INT_MAX - cnt then prints c st (inr (zlen text)) text
  else c st = Ok (inl (-1), with_errno EOVERFLOW st).

Lemma zlen_replicate {A} n (x : A) : zlen (replicate (Z.to_nat n) x) = Z.max 0 n.
Proof. unfold zlen. rewrite length_replicate. lia. Qed.

Lemma zlen_zero_extend n ds : zlen (zero_extend n ds) = Z.max n (zlen ds).
Proof. unfold zero_extend. rewrite zlen_app, zlen_replicate. pose proof (zlen_nonneg ds). lia. Qed.

Lemma zlen_justify left zero w prefix text : zlen (justify left zero w prefix text) = Z.max w (zlen prefix + zlen text).
Proof.
  unfold justify. pose proof (zlen_nonneg prefix). pose proof (zlen_nonneg text).
  destruct left, zero; rewrite ?zlen_app, ?zlen_replicate, ?zlen_app; lia.
Qed.

Lemma testbit_lxor_one fl k i : 0 <= k -> 0 <= i -> Z.testbit (Z.lxor fl (Z.shiftl 1 k)) i = xorb (Z.testbit fl i) (i =? k).
Proof. intros. by rewrite Z.lxor_spec, testbit_one by done. Qed.

Lemma emit_prints cnt fl w p prefix a st : 0 <= cnt -> Z.testbit fl 13 && Z.testbit fl 16 = false ->
  produces (emit cnt fl w p prefix a) st cnt
    (justify (Z.testbit fl 13) (Z.testbit fl 16) w prefix (zero_extend p a)).
Proof.
  intros Hc Hfl. unfold produces. rewrite zlen_justify, zlen_zero_extend. unfold emit.
  set (q := if p <? zlen a then zlen a else p). replace (Z.max p (zlen a)) with q by (unfold q; case_cmp; lia).
  replace (zero_extend p a) with (zero_extend q a).
  2:{ unfold q. case_cmp; [|done]. unfold zero_extend. f_equal. f_equal. lia. }
  set (W := if w <? zlen prefix + q then zlen prefix + q else w).
  replace (Z.max w (zlen prefix + q)) with W by (unfold W; case_cmp; lia).
  assert (zlen a <= q) by (unfold q; case_cmp; lia).
  assert (zlen prefix + q <= W) by (unfold W; case_cmp; lia).
  pose proof (zlen_nonneg prefix). pose proof (zlen_nonneg a).
  destruct (Z.leb_spec W (INT_MAX - cnt)).
  2:{ destruct (INT_MAX - zlen prefix <? q); [done|]. fold W. by rewrite (proj2 (Z.ltb_lt (INT_MAX - cnt) W)) by lia. }
  rewrite (proj2 (Z.ltb_ge (INT_MAX - zlen prefix) q)) by lia. fold W. rewrite (proj2 (Z.ltb_ge (INT_MAX - cnt) W)) by lia.
  replace (justify _ _ w prefix (zero_extend q a)) with
    (padding (ch " ") W (zlen prefix + q) fl ++ prefix ++ padding (ch "0") W (zlen prefix + q) (Z.lxor fl ZERO_PAD) ++
     padding (ch "0") q (zlen a) 0 ++ a ++ padding (ch " ") W (zlen prefix + q) (Z.lxor fl LEFT_ADJ) ++ []).
  { repeat first [apply prints_ret | eapply prints_bind; [first [apply pad_prints | apply prints_out]|intros]]. }
  unfold padding, justify, zero_extend, ZERO_PAD, LEFT_ADJ. rewrite !testbit_lxor_one, !Z.bits_0 by done. lits. cbn [orb].
  replace (zlen (prefix ++ replicate (Z.to_nat (q - zlen a)) (ch "0") ++ a)) with (zlen prefix + q)
    by (rewrite !zlen_app, zlen_replicate; lia).
  assert (forall x : Z, replicate (Z.to_nat (W - (zlen prefix + q))) x = replicate (Z.to_nat (w - (zlen prefix + q))) x) as E.
  { intros x. f_equal. unfold W. case_cmp; lia. }
  rewrite !E. destruct (Z.testbit fl 13), (Z.testbit fl 16); try done; cbn [xorb orb app];
    rewrite ?app_nil_r; rewrite <- ?app_assoc; done.
Qed.

(** * Integer conversions *)

(** [p] and [xp] as the precision makes them. *)
Definition prec_is (lim : option Z) (p xp : Z) : Prop :=
  match lim with Some n => p = n /\ 0 <= n <= INT_MAX /\ xp = 1 | None => INT_MIN <= p < 0 /\ xp = 0 end.

Definition least (lim : option Z) : Z := match lim with Some n => n | None => 1 end.

Lemma prec_no_overflow lim p xp : prec_is lim p xp -> ctrue xp && (p <? 0) = false.
Proof.
  destruct lim; cbn; [intros (-> & Hn & ->); apply Z.ltb_ge; lia|by intros [_ ->]].
Qed.

Lemma zero_extend_ext n k ds : Z.max n (zlen ds) = Z.max k (zlen ds) -> zero_extend n ds = zero_extend k ds.
Proof. intros E. unfold zero_extend. do 2 f_equal. lia. Qed.

Lemma numeral_text_nonempty u b x : 2 <= b -> 0 < x -> 1 <= zlen (numeral_text u b x).
Proof.
  intros Hb Hx. unfold numeral_text. destruct (digits_head b x Hb Hx) as (d & ds & -> & _). cbn [map].
  rewrite zlen_cons. pose proof (zlen_nonneg (map (digit_char u) ds)). lia.
Qed.

(** The end of the integer cases. *)
Lemma number_end_spec u b fl prefix pl x lim p xp st : 2 <= b -> 0 <= x -> prec_is lim p xp ->
  exists a q, number_end fl xp prefix pl (numeral_text u b x) x p st =
    Ok (inr (take (Z.to_nat pl) (drop (Z.to_nat prefix) prefixes), a, q, if ctrue xp then drop_fl fl ZERO_PAD else fl), st) /\
  zero_extend q a = zero_extend (least lim) (numeral_text u b x).
Proof.
  intros Hb Hx Hp. unfold number_end. set (a := numeral_text u b x).
  rewrite (prec_no_overflow lim p xp Hp). destruct (Z.eqb_spec x 0) as [Ex|Ex]; cbn [andb cbool].
  - assert (a = []) as -> by (unfold a; by rewrite Ex). change (zlen (@nil Z)) with 0.
    destruct (Z.eqb_spec p 0) as [Ep|Ep]; (eexists _, _; split; [reflexivity|]).
    + destruct lim as [n|]; cbn [prec_is least] in *; [|lia]. by destruct Hp as [-> _].
    + apply zero_extend_ext. change (zlen (@nil Z)) with 0. destruct lim as [n|]; cbn [prec_is least] in *; lia.
  - eexists _, _. split; [reflexivity|]. apply zero_extend_ext.
    pose proof (numeral_text_nonempty u b x Hb ltac:(lia)) as Hl. fold a in Hl.
    destruct lim as [n|]; cbn [prec_is least] in *; lia.
Qed.

(** The alternative form of [o]. *)
Lemma octal_tail x lim p xp : 0 <= x -> prec_is lim p xp ->
  let a := numeral_text false 8 x in
  let q := if p <? zlen a + 1 then zlen a + 1 else p in
  let ds := zero_extend (least lim) a in
  zero_extend (Z.max q (zlen a + cbool (x =? 0))) a = if negb (schar ds 0 =? ch "0") then ch "0" :: ds else ds.
Proof.
  intros Hx Hp a q ds. pose proof (zlen_nonneg a) as Ha.
  assert (zero_extend (Z.max q (zlen a + cbool (x =? 0))) a = zero_extend (Z.max (least lim) (zlen a + 1)) a) as ->.
  { apply zero_extend_ext. unfold q, cbool. destruct lim as [n|]; cbn [prec_is least] in *; repeat case_cmp; lia. }
  destruct (Z.lt_ge_cases (zlen a) (least lim)) as [Hl|Hl].
  - assert (schar ds 0 = 48) as ->.
    { unfold ds, zero_extend, schar. cbn [Z.to_nat]. destruct (Z.to_nat (least lim - zlen a)) eqn:E; [lia|done]. }
    cbn [negb Z.eqb Pos.eqb]. apply zero_extend_ext. lia.
  - assert (ds = a) as ->. { unfold ds, zero_extend. by replace (Z.to_nat (least lim - zlen a)) with O by lia. }
    assert (schar a 0 <> 48) as Hh.
    { destruct (Z.eq_dec x 0) as [E|E]; [unfold a; rewrite E; done|]. unfold a, numeral_text.
      destruct (digits_head 8 x ltac:(lia) ltac:(lia)) as (d & r & -> & Hd). unfold schar. change (Z.to_nat 0) with O. cbn [map nth].
      rewrite digit_char_10 by lia. lia. }
    rewrite (proj2 (Z.eqb_neq _ _) Hh). cbn [negb]. unfold zero_extend.
    by replace (Z.to_nat (Z.max (least lim) (zlen a + 1) - zlen a)) with 1%nat by lia.
Qed.

Lemma int_digits_plain alt lim c x : c <> ch "o" ->
  int_digits alt lim c x = zero_extend (least lim) (numeral_text (c =? ch "X") (base_of c) (Z.abs x)).
Proof. intros Hc. unfold int_digits. by rewrite (proj2 (Z.eqb_neq c _) Hc), andb_false_r. Qed.

Lemma u64_neg x : - 2 ^ 63 <= x < 0 -> u64 x = 2 ^ 64 + x.
Proof. intros Hx. unfold u64. symmetry. apply Z.mod_unique with (-1); lia. Qed.

Section Number.
Context (fl : Z) (fs : list Z) (Hfl : forall k, k ∈ [0; 3; 11] -> Z.testbit fl k = flag fs (k + 32)).

Lemma alt_flag : has_fl fl ALT_FORM = flag fs (ch "#").
Proof using Hfl. unfold ALT_FORM. rewrite has_fl_bit by done. by apply (Hfl 3); set_solver. Qed.
Lemma mark_flag : has_fl fl MARK_POS = flag fs (ch "+").
Proof using Hfl. unfold MARK_POS. rewrite has_fl_bit by done. by apply (Hfl 11); set_solver. Qed.
Lemma pos_flag : has_fl fl PAD_POS = flag fs (ch " ").
Proof using Hfl. unfold PAD_POS. rewrite has_fl_bit by done. by apply (Hfl 0); set_solver. Qed.

(** What the number of a conversion can be. *)
Definition int_range (c x : Z) : Prop := if is_signed c then in_s 64 x else in_u 64 x.

(** What [number] gives for an integer conversion. *)
Definition number_ok (c : Z) (lim : option Z) (xp x : Z) (r : M pf (Z + (list Z * list Z * Z * Z))) (st : pf) : Prop :=
  exists a q, r st = Ok (inr (int_prefix fs c x, a, q, if ctrue xp then drop_fl fl ZERO_PAD else fl), st) /\
    zero_extend q a = int_digits (flag fs (ch "#")) lim c x.

(** A call of [number_end] that is enough. *)
Lemma number_end_ok c prefix pl lim p xp x st : c <> ch "o" -> prec_is lim p xp ->
  take (Z.to_nat pl) (drop (Z.to_nat prefix) prefixes) = int_prefix fs c x ->
  number_ok c lim xp x (number_end fl xp prefix pl (numeral_text (c =? ch "X") (base_of c) (Z.abs x)) (Z.abs x) p) st.
Proof using Type.
  intros Hc Hp Hpre. unfold number_ok. rewrite <- Hpre, int_digits_plain by done.
  apply number_end_spec; [unfold base_of; repeat case_match; lia|lia|done].
Qed.

Lemma number_signed c lim p xp x st : is_signed c = true -> prec_is lim p xp -> in_s 64 x ->
  number_ok c lim xp x (number fl p xp c (u64 x)) st.
Proof using Hfl.
  intros Hc Hp Hx. assert (base_of c = 10 /\ (c =? ch "X") = false /\ c <> ch "o") as (Eb & Eu & Hno).
  { unfold is_signed in Hc. apply orb_true_iff in Hc. rewrite !Z.eqb_eq in Hc. by destruct Hc as [-> | ->]. }
  assert (forall prefix pl, take (Z.to_nat pl) (drop (Z.to_nat prefix) prefixes) = int_prefix fs c x ->
    number_ok c lim xp x (number_end fl xp prefix pl (numeral_text false 10 (Z.abs x)) (Z.abs x) p) st) as Hend.
  { intros prefix pl Hpre. pose proof (number_end_ok c prefix pl lim p xp x st Hno Hp Hpre) as H. by rewrite Eb, Eu in H. }
  assert (number fl p xp c (u64 x) = (let '(prefix, pl, arg) := if x <? 0 then (0, 1, - x) else
      if flag fs (ch "+") then (1, 1, x) else if flag fs (ch " ") then (2, 1, x) else (0, 0, x) in
    let* (prefix, pl, a, arg, p) := let* a := lift (fmt_u arg) in sret (prefix, pl, a, arg, p) in number_end fl xp prefix pl a arg p)) as ->.
  { unfold number. rewrite <- mark_flag, <- pos_flag. unfold in_s in Hx. change (64 - 1) with 63 in Hx.
    unfold is_signed in Hc. apply orb_true_iff in Hc as Hc'. rewrite !Z.eqb_eq in Hc'.
    replace (LLONG_MAX <? u64 x) with (x <? 0).
    2:{ unfold LLONG_MAX. case_cmp; symmetry; [apply Z.ltb_lt; rewrite u64_neg by lia; lia|apply Z.ltb_ge; rewrite u64_id by (bounds; lia); lia]. }
    assert (if x <? 0 then u64 (- u64 x) = - x else u64 x = x) as Eu64.
    { case_cmp; [|apply u64_id; bounds; lia]. rewrite (u64_neg x) by lia. unfold u64. symmetry. apply Z.mod_unique with (-1); lia. }
    destruct Hc' as [-> | ->]; cbn [orb Z.eqb Pos.eqb]; destruct (x <? 0); rewrite Eu64; [done| |done|];
      destruct (has_fl fl MARK_POS), (has_fl fl PAD_POS); done. }
  unfold in_s in Hx. change (64 - 1) with 63 in Hx. unfold int_prefix in Hend. rewrite Hc in Hend.
  destruct (Z.ltb_spec x 0).
  - rewrite Z.abs_neq in Hend by lia. unfold number_ok, sbind, lift. rewrite fmt_u_digits by (bounds; lia). by apply Hend.
  - rewrite Z.abs_eq in Hend by lia.
    destruct (flag fs (ch "+")); [|destruct (flag fs (ch " "))];
      unfold number_ok, sbind, lift; rewrite fmt_u_digits by (bounds; lia); by apply Hend.
Qed.

Lemma number_unsigned c lim p xp x st : c ∈ [ch "u"; ch "x"; ch "X"] -> prec_is lim p xp -> in_u 64 x ->
  number_ok c lim xp x (number fl p xp c (u64 x)) st.
Proof using Hfl.
  intros Hc Hp Hx. assert (c <> ch "o") as Hno by set_solver. rewrite u64_id by done.
  pose proof (number_end_ok c) as Hend. rewrite !elem_of_cons, elem_of_nil in Hc.
  assert (Z.abs x = x) as Ea by (unfold in_u in Hx; lia).
  destruct Hc as [-> |[-> |[-> |[]]]]; unfold number; cbn [orb Z.eqb Pos.eqb].
  - specialize (Hend 0 0 lim p xp x st Hno Hp). rewrite Ea in Hend. unfold number_ok, sbind, lift. rewrite fmt_u_digits by done. apply Hend.
    unfold int_prefix. cbn [is_signed base_of orb Z.eqb Pos.eqb]. by rewrite andb_false_r.
  - change (Z.land 120 32) with 32. unfold number_ok, sbind, lift. rewrite (fmt_x_digits false) by done. cbn [obind fst snd sret].
    rewrite alt_flag. destruct (ctrue x && flag fs (ch "#")) eqn:E; cbn [obind fst snd sret].
    + specialize (Hend 7 2 lim p xp x st Hno Hp). rewrite Ea in Hend. apply Hend. unfold int_prefix, ctrue in *. cbn [is_signed base_of orb Z.eqb Pos.eqb].
      rewrite andb_comm in E. by rewrite E.
    + specialize (Hend 0 0 lim p xp x st Hno Hp). rewrite Ea in Hend. apply Hend. unfold int_prefix, ctrue in *. cbn [is_signed base_of orb Z.eqb Pos.eqb].
      rewrite andb_comm in E. by rewrite E.
  - change (Z.land 88 32) with 0. unfold number_ok, sbind, lift. rewrite (fmt_x_digits true) by done. cbn [obind fst snd sret].
    rewrite alt_flag. destruct (ctrue x && flag fs (ch "#")) eqn:E; cbn [obind fst snd sret].
    + specialize (Hend 5 2 lim p xp x st Hno Hp). rewrite Ea in Hend. apply Hend. unfold int_prefix, ctrue in *. cbn [is_signed base_of orb Z.eqb Pos.eqb].
      rewrite andb_comm in E. by rewrite E.
    + specialize (Hend 0 0 lim p xp x st Hno Hp). rewrite Ea in Hend. apply Hend. unfold int_prefix, ctrue in *. cbn [is_signed base_of orb Z.eqb Pos.eqb].
      rewrite andb_comm in E. by rewrite E.
Qed.

Lemma number_octal lim p xp x st : prec_is lim p xp -> in_u 64 x -> number_ok (ch "o") lim xp x (number fl p xp (ch "o") (u64 x)) st.
Proof using Hfl.
  intros Hp Hx. rewrite u64_id by done. assert (Z.abs x = x /\ 0 <= x) as [Ea H0] by (unfold in_u in Hx; lia).
  unfold number. cbn [orb Z.eqb Pos.eqb]. unfold number_ok, sbind, lift. rewrite fmt_o_digits by done. cbn [obind fst snd sret].
  rewrite alt_flag. unfold int_digits. rewrite Ea. change (base_of (ch "o")) with 8. change (ch "o" =? ch "X") with false.
  change (ch "o" =? ch "o") with true. fold (least lim). rewrite andb_true_r.
  assert (int_prefix fs (ch "o") x = []) as -> by (unfold int_prefix; cbn; by rewrite andb_false_r).
  destruct (flag fs (ch "#")); cbn [andb]; [|by apply number_end_spec].
  rewrite <- (octal_tail x lim p xp H0 Hp). set (a := numeral_text false 8 x). cbn zeta. pose proof (zlen_nonneg a).
  set (q := if p <? zlen a + 1 then zlen a + 1 else p). assert (1 <= q) by (unfold q; case_cmp; lia).
  eexists _, _. split; [|reflexivity]. unfold number_end. rewrite (proj2 (Z.ltb_ge q 0)), (proj2 (Z.eqb_neq q 0)), !andb_false_r by lia. done.
Qed.

Lemma number_int c lim p xp x st : c ∈ [ch "d"; ch "i"; ch "o"; ch "u"; ch "x"; ch "X"] -> prec_is lim p xp -> int_range c x ->
  number_ok c lim xp x (number fl p xp c (u64 x)) st.
Proof using Hfl.
  intros Hc Hp Hx. unfold int_range in Hx. destruct (is_signed c) eqn:E; [by apply number_signed|].
  destruct (decide (c = ch "o")) as [-> |Hn]; [by apply number_octal|]. apply number_unsigned; [|done|done].
  unfold is_signed in E. apply orb_false_iff in E. rewrite !Z.eqb_neq in E. set_solver.
Qed.
End Number.

(** * Conversions *)

Lemma testbit_drop_fl fl k i : 0 <= k -> 0 <= i -> Z.testbit (drop_fl fl (Z.shiftl 1 k)) i = Z.testbit fl i && negb (i =? k).
Proof. intros. unfold drop_fl. by rewrite Z.land_spec, Z.lnot_spec, testbit_one by done. Qed.

Lemma justify_left_zero z z' left w prefix text : (left = false -> z = z') -> justify left z w prefix text = justify left z' w prefix text.
Proof. intros H. unfold justify. destruct left; [done|]. by rewrite H. Qed.

(** The flags that the code has for [fs] and a width. *)
Definition flags_are (fl : Z) (fs : list Z) (w : width) : Prop :=
  (forall k, k ∈ [0; 3; 11; 16] -> Z.testbit fl k = flag fs (k + 32)) /\ Z.testbit fl 13 = at_left fs w.

(** - and 0 are exclusive. *)
Definition settle (fl : Z) : Z := if has_fl fl LEFT_ADJ then drop_fl fl ZERO_PAD else fl.

Lemma settle_bits fl fs w : flags_are fl fs w ->
  (forall k, k ∈ [0; 3; 11] -> Z.testbit (settle fl) k = flag fs (k + 32)) /\
  Z.testbit (settle fl) 13 = at_left fs w /\ Z.testbit (settle fl) 16 = flag fs (ch "0") && negb (at_left fs w).
Proof.
  intros [Hk Hl]. unfold settle. assert (has_fl fl LEFT_ADJ = at_left fs w) as -> by (rewrite <- Hl; by apply has_fl_bit).
  destruct (at_left fs w) eqn:El; cbn [negb].
  - unfold ZERO_PAD. split_and!.
    + intros k Hk'. rewrite <- Hk by set_solver. rewrite !elem_of_cons, elem_of_nil in Hk'.
      rewrite testbit_drop_fl, (proj2 (Z.eqb_neq _ _)) by lia. apply andb_true_r.
    + rewrite testbit_drop_fl by done. by rewrite Hl.
    + rewrite testbit_drop_fl by done. cbn. by rewrite !andb_false_r.
  - split_and!; [intros; apply Hk; set_solver|done|]. rewrite andb_true_r. apply Hk. set_solver.
Qed.

(** [emit] in terms of the field. *)
Lemma emit_field cnt fl fs w zero p prefix a st : 0 <= cnt -> Z.testbit fl 13 = at_left fs w ->
  Z.testbit fl 16 = zero && negb (at_left fs w) ->
  produces (emit cnt fl (field w) p prefix a) st cnt (justify (at_left fs w) zero (field w) prefix (zero_extend p a)).
Proof.
  intros Hc Hl Hz. rewrite (justify_left_zero zero (Z.testbit fl 16)), <- Hl.
  - apply emit_prints; [done|]. rewrite Hl, Hz. by destruct (at_left fs w), zero.
  - rewrite Hz. intros ->. by rewrite andb_true_r.
Qed.

Lemma zero_extend_self a : zero_extend (zlen a) a = a.
Proof. unfold zero_extend. by rewrite Z.sub_diag. Qed.

(** [emit] of a text. *)
Lemma emit_text cnt fl fs w a st : 0 <= cnt -> flags_are fl fs w ->
  produces (emit cnt (drop_fl (settle fl) ZERO_PAD) (field w) (zlen a) [] a) st cnt (justify (at_left fs w) false (field w) [] a).
Proof.
  intros Hc Hfl. destruct (settle_bits _ _ _ Hfl) as (_ & Hl & _). 
  pose proof (emit_field cnt (drop_fl (settle fl) ZERO_PAD) fs w false (zlen a) [] a st Hc) as He. rewrite zero_extend_self in He.
  unfold ZERO_PAD in *. apply He; rewrite testbit_drop_fl by done; lits; by rewrite ?andb_true_r, ?andb_false_r.
Qed.

(** The cases of the numbers. *)
Lemma conversion_int utf8 strerror cnt fl fs w lim p xp ps c x st : 0 <= cnt -> flags_are fl fs w -> prec_is lim p xp ->
  c ∈ [ch "d"; ch "i"; ch "o"; ch "u"; ch "x"; ch "X"] -> int_range c x ->
  produces (conversion utf8 strerror cnt fl (field w) p xp ps c (u64 x)) st cnt
    (justify (at_left fs w) (flag fs (ch "0") && negb (bool_decide (is_Some lim))) (field w)
       (int_prefix fs c x) (int_digits (flag fs (ch "#")) lim c x)).
Proof.
  intros Hc Hfl Hp Hcc Hx. destruct (settle_bits _ _ _ Hfl) as (Hk & Hl & Hz).
  destruct (number_int (settle fl) fs Hk c lim p xp x st Hcc Hp Hx) as (a & q & En & <-).
  assert (conversion utf8 strerror cnt fl (field w) p xp ps c (u64 x) =
    let^ (prefix, a, p, fl) := number (settle fl) p xp c (u64 x) in emit cnt fl (field w) p prefix a) as ->.
  { unfold conversion. fold (settle fl). rewrite !elem_of_cons, elem_of_nil in Hcc.
    destruct Hcc as [-> |[-> |[-> |[-> |[-> |[-> |[]]]]]]]; destruct (ctrue ps); reflexivity. }
  assert (Hemit : produces (emit cnt (if ctrue xp then drop_fl (settle fl) ZERO_PAD else settle fl) (field w) q (int_prefix fs c x) a) st cnt
    (justify (at_left fs w) (flag fs (ch "0") && negb (bool_decide (is_Some lim))) (field w) (int_prefix fs c x) (zero_extend q a))).
  { apply emit_field; [done| |].
    - destruct (ctrue xp); [|done]. unfold ZERO_PAD. rewrite testbit_drop_fl by done. by rewrite Hl, andb_true_r.
    - destruct lim; cbn [prec_is] in Hp; [destruct Hp as (_ & _ & ->)|destruct Hp as [_ ->]]; cbn [ctrue Z.eqb negb].
      + unfold ZERO_PAD. rewrite testbit_drop_fl by done. cbn. by rewrite !andb_false_r.
      + rewrite Hz. cbn. by rewrite andb_true_r. }
  unfold produces in *. destruct (_ <=? _).
  - destruct Hemit as (cs & E & Hcs). exists cs. split; [|done]. by rewrite (sbind_Ok _ _ _ _ _ En).
  - by rewrite (sbind_Ok _ _ _ _ _ En).
Qed.

Lemma number_pointer fl p xp arg : number fl p xp (ch "p") arg =
  number (Z.lor fl ALT_FORM) (if 2 * 4 <? u32 p then p else 2 * 4) xp (ch "x") arg.
Proof. reflexivity. Qed.

(** The minimal precision of a pointer. *)
Lemma prec_pointer lim p xp : prec_is lim p xp -> prec_is (option_map (Z.max 8) lim) (if 2 * 4 <? u32 p then p else 2 * 4) xp.
Proof.
  unfold INT_MAX, INT_MIN. destruct lim as [n|]; cbn [prec_is option_map].
  - intros (-> & Hn & ->). unfold INT_MAX in *. rewrite u32_id by (bounds; lia). case_cmp; lia.
  - intros [Hp ->]. unfold INT_MIN in *. unfold u32. rewrite <- (Z.mod_add p 1), Z.mod_small by lia. decide_cmp. lia.
Qed.

Lemma conversion_pointer utf8 strerror cnt fl fs w lim p xp x st : 0 <= cnt -> flags_are fl fs w -> prec_is lim p xp -> in_u 32 x ->
  produces (conversion utf8 strerror cnt fl (field w) p xp 0 (ch "p") (u64 x)) st cnt
    (justify (at_left fs w) (flag fs (ch "0") && negb (bool_decide (is_Some lim))) (field w)
       (int_prefix [ch "#"] (ch "x") x) (int_digits false (option_map (Z.max 8) lim) (ch "x") x)).
Proof.
  intros Hc [Hk Hl] Hp Hx. set (fs' := ch "#" :: fs).
  assert (flags_are (Z.lor fl ALT_FORM) fs' w) as Hfl'.
  { split.
    - intros k Hk'. rewrite Z.lor_spec, Hk by done. unfold ALT_FORM. rewrite !elem_of_cons, elem_of_nil in Hk'.
      rewrite testbit_one by lia. destruct Hk' as [-> |[-> |[-> |[-> |[]]]]]; cbn; by rewrite ?orb_false_r, ?orb_true_r.
    - rewrite Z.lor_spec, Hl. unfold ALT_FORM. rewrite testbit_one by done. cbn. by rewrite orb_false_r. }
  pose proof (conversion_int utf8 strerror cnt (Z.lor fl ALT_FORM) fs' w _ _ xp 0 (ch "x") x st Hc Hfl' (prec_pointer _ _ _ Hp)) as H.
  assert (conversion utf8 strerror cnt (Z.lor fl ALT_FORM) (field w) (if 2 * 4 <? u32 p then p else 2 * 4) xp 0 (ch "x") (u64 x) st =
          conversion utf8 strerror cnt fl (field w) p xp 0 (ch "p") (u64 x) st) as E.
  { unfold conversion. cbn [ctrue Z.eqb negb andb existsb Pos.eqb orb]. rewrite number_pointer.
    fold (settle fl) (settle (Z.lor fl ALT_FORM)). replace (settle (Z.lor fl ALT_FORM)) with (Z.lor (settle fl) ALT_FORM); [done|]. unfold settle.
    assert (has_fl (Z.lor fl ALT_FORM) LEFT_ADJ = has_fl fl LEFT_ADJ) as ->.
    { unfold LEFT_ADJ. rewrite !has_fl_bit, Z.lor_spec by done. cbn. by rewrite orb_false_r. }
    destruct (has_fl fl LEFT_ADJ); [|done]. unfold drop_fl. by rewrite Z.land_lor_distr_l. }
  unfold produces, prints in *. rewrite <- E.
  replace (int_prefix fs' (ch "x") x) with (int_prefix [ch "#"] (ch "x") x) in H by done.
  replace (flag fs' (ch "0")) with (flag fs (ch "0")) in H by done.
  replace (at_left fs' w) with (at_left fs w) in H by done.
  replace (bool_decide (is_Some (option_map (Z.max 8) lim))) with (bool_decide (is_Some lim)) in H by (by destruct lim).
  rewrite int_digits_plain in H |- * by done. apply H; [set_solver|]. unfold int_range. cbn. bounds. lia.
Qed.

(** ** Strings *)

(** A string cut to the precision, where it is not too long. *)
Definition text_is (r : M pf (Z + list Z)) (st : pf) (text : list Z) : Prop :=
  r st = if zlen text <=? INT_MAX then Ok (inr text, st) else Ok (inl (-1), with_errno EOVERFLOW st).

Lemma schar_zero a n : Forall (fun c => 0 < c < 256) a -> 0 <= n <= zlen a -> ctrue (schar a n) = (n <? zlen a).
Proof.
  intros Ha Hn. unfold schar, ctrue, zlen in *. destruct (Z.ltb_spec n (Z.of_nat (length a))).
  - apply negb_true_iff, Z.eqb_neq. destruct (lookup_lt_is_Some_2 a (Z.to_nat n)) as [c Hc]; [lia|].
    rewrite nth_lookup, Hc. cbn. rewrite Forall_forall in Ha. apply list_elem_of_lookup_2, Ha in Hc. lia.
  - rewrite nth_overflow by lia. done.
Qed.

Lemma zlen_take_min {A} n (a : list A) : 0 <= n -> zlen (take (Z.to_nat n) a) = Z.min n (zlen a).
Proof. intros. unfold zlen. rewrite length_take. lia. Qed.

Lemma take_zlen {A} n (a : list A) : zlen a <= n -> take (Z.to_nat n) a = a.
Proof. intros. apply take_ge. unfold zlen in *. lia. Qed.

Lemma constant_text_is a lim p xp st : Forall (fun c => 0 < c < 256) a -> prec_is lim p xp ->
  text_is (constant_text a p) st (cut lim a).
Proof.
  intros Ha Hp. unfold text_is, constant_text. pose proof (zlen_nonneg a).
  destruct lim as [n|]; cbn [prec_is cut] in *; unfold INT_MAX, INT_MIN in *.
  - destruct Hp as (-> & Hn & ->). rewrite (proj2 (Z.ltb_ge n 0)) by lia. cbn [andb]. rewrite zlen_take_min by lia. decide_cmp.
    rewrite Z.min_comm. destruct (Z.le_gt_cases (zlen a) n).
    + by rewrite Z.min_r, !take_zlen by lia.
    + by rewrite Z.min_l by lia.
  - destruct Hp as [Hp ->]. rewrite (proj2 (Z.ltb_lt p 0)) by lia. cbn [andb]. rewrite schar_zero by (done || lia).
    destruct (Z.leb_spec (zlen a) (2 ^ 31 - 1)).
    + rewrite Z.min_l by lia. decide_cmp. by rewrite take_zlen by lia.
    + rewrite Z.min_r by lia. by decide_cmp.
Qed.

Lemma cstr_bytes_at m a text n : cstr m a text -> 0 <= n <= zlen text -> bytes_at m a n = take (Z.to_nat n) text.
Proof.
  intros (Ha & Hl & _ & Hb) Hn. assert (zlen (bytes_at m a n) = n) as Ez by (apply zlen_bytes_at; lia).
  apply memory_ext; [rewrite zlen_take_min; lia|]. intros x Hx. rewrite Ez in Hx. unfold byte at 1. rewrite byte_at by lia.
  rewrite Hb by lia. unfold byte, schar. rewrite !nth_lookup, lookup_take_lt by lia. done.
Qed.

Lemma in_memory_gives {A} (c : mem A) st v : gives c (memory_ st) v -> in_memory c st = Ok (v, st).
Proof. intros E%gives_ok. unfold in_memory. rewrite E. cbn. by destruct st. Qed.

Lemma memory_text_is a text lim p xp st : wf_memory (memory_ st) -> 0 < a -> cstr (memory_ st) a text -> prec_is lim p xp ->
  text_is (memory_text a p) st (cut lim text).
Proof.
  intros Hm Ha Hs Hp. unfold text_is, memory_text. pose proof (zlen_nonneg text) as Hz. pose proof Hs as (_ & Hl & Hf & Hb).
  remember (if p <? 0 then INT_MAX else p) as lm eqn:Elm.
  assert (0 <= lm) by (subst lm; unfold INT_MAX; case_cmp; lia).
  rewrite (sbind_Ok _ _ _ (Z.min lm (zlen text)) st) by (apply in_memory_gives; by apply strnlen_gives).
  remember (Z.min lm (zlen text)) as n eqn:En. assert (0 <= n <= zlen text) as Hn by lia.
  assert ((if p <? 0 then let* c := in_memory (load8 (a + n)) in sret (ctrue c) else sret false) st =
          Ok ((p <? 0) && (n <? zlen text), st)) as Emore.
  { case_cmp; [|done]. rewrite (sbind_Ok _ _ _ (schar text n) st); [unfold sret; by rewrite schar_zero by (done || lia)|].
    apply in_memory_gives, gives_ok. unfold load8. decide_cmp. cbn. by rewrite Hb by lia. }
  rewrite (sbind_Ok _ _ _ _ _ Emore).
  destruct lim as [k|]; cbn [prec_is cut] in *; unfold INT_MAX, INT_MIN in *.
  - destruct Hp as (-> & Hk & ->). rewrite (proj2 (Z.ltb_ge k 0)) in * by lia. cbn [andb]. rewrite zlen_take_min by lia.
    rewrite (proj2 (Z.leb_le _ _)) by lia. unfold sbind, sget, sret. cbn [obind fst snd]. rewrite (cstr_bytes_at _ _ text) by (done || lia).
    do 3 f_equal. destruct (Z.le_gt_cases (zlen text) k); [by rewrite !take_zlen by lia|by replace n with k by lia].
  - destruct Hp as [Hp ->]. rewrite (proj2 (Z.ltb_lt p 0)) in * by lia. cbn [andb].
    destruct (Z.leb_spec (zlen text) (2 ^ 31 - 1)).
    + replace n with (zlen text) by lia. rewrite Z.ltb_irrefl. unfold sbind, sget, sret. cbn [obind fst snd].
      rewrite (cstr_bytes_at _ _ text) by (done || lia). by rewrite take_zlen by lia.
    + by rewrite (proj2 (Z.ltb_lt n (zlen text))) by lia.
Qed.

(** A text that is found is put into the field. *)
Lemma text_produces cnt fl fs w (r : M pf (Z + list Z)) st text : 0 <= cnt -> flags_are fl fs w -> text_is r st text ->
  produces (let^ a := r in emit cnt (drop_fl (settle fl) ZERO_PAD) (field w) (zlen a) [] a) st cnt
    (justify (at_left fs w) false (field w) [] text).
Proof.
  intros Hc Hfl Ht. unfold text_is in Ht. pose proof (emit_text cnt fl fs w text st Hc Hfl) as He.
  unfold produces, prints in *. rewrite zlen_justify in *. change (zlen []) with 0 in *. destruct (Z.leb_spec (zlen text) INT_MAX) as [Hle|Hgt].
  - by rewrite (sbind_Ok _ _ _ _ _ Ht).
  - rewrite (sbind_Ok _ _ _ _ _ Ht), (proj2 (Z.leb_gt _ _)) by lia. done.
Qed.

(** * One specification *)

Lemma starts_app_letter (P : Z -> Prop) a s : starts_letter a -> (forall c, 65 <= c <= 122 -> P c) -> starts P (a ++ s).
Proof. intros (c & r & -> & Hc) HP. by apply HP. Qed.

Lemma letter_conv m k : conv_ok m k -> starts_letter (conv_text k).
Proof.
  destruct k as [ln c v| | | | |]; intros Hk; try (by eexists _, []; split; [reflexivity|]).
  cbn in Hk. rewrite !elem_of_cons, elem_of_nil in Hk.
  destruct ln; (eexists _, _; split; [reflexivity|]); lia.
Qed.

Lemma letter_not_digit c : 65 <= c <= 122 -> isdigit c = false.
Proof. intros. rewrite isdigit_iff by lia. apply andb_false_iff. right. apply Z.leb_gt. lia. Qed.

(** The precision and the conversion do not begin like a number or a flag. *)
Lemma starts_prec (P : Z -> Prop) m p k s : conv_ok m k -> P (ch ".") -> (forall c, 65 <= c <= 122 -> P c) ->
  starts P (prec_text p ++ conv_text k ++ s).
Proof.
  intros Hk Hdot Hl. destruct p; cbn [prec_text app]; try done. eapply starts_app_letter; [by eapply letter_conv|done].
Qed.

Lemma starts_width m w p k s : width_ok w -> conv_ok m k ->
  starts (fun c => 0 <= c < 256 /\ c ∉ flag_chars) (width_text w ++ prec_text p ++ conv_text k ++ s).
Proof.
  intros Hw Hk.
  assert (forall c, 49 <= c <= 122 -> 0 <= c < 256 /\ c ∉ flag_chars) as Hh.
  { intros c Hc. split; [lia|]. unfold flag_chars. rewrite !elem_of_cons, elem_of_nil. lia. }
  destruct w as [|n|x]; cbn [width_text app].
  - eapply starts_prec; [done|split; [lia|]; unfold flag_chars; rewrite !elem_of_cons, elem_of_nil; lia|]. intros. apply Hh. lia.
  - cbn in Hw. destruct (decimal_head n) as (c & r & -> & Hc); [lia|]. cbn [app starts]. apply Hh. lia.
  - cbn [starts]. split; [lia|]. unfold flag_chars. rewrite !elem_of_cons, elem_of_nil. lia.
Qed.

(** ** Positions *)

Lemma decimal_chars n : 0 <= n -> Forall (fun c => 48 <= c <= 57) (decimal n).
Proof.
  intros Hn. unfold decimal, numeral_text. case_cmp; [repeat constructor; lia|]. apply Forall_map.
  eapply Forall_impl; [apply (digits_range 10); lia|]. intros d Hd. cbn in Hd |- *. rewrite digit_char_10 by lia. lia.
Qed.

Definition conversion_text (fs : list Z) (w : width) (p : prec) (k : conv) : list Z := fs ++ width_text w ++ prec_text p ++ conv_text k.

Lemma conversion_plain m fs w p k : Forall (fun c => c ∈ flag_chars) fs -> width_ok w -> prec_ok p -> conv_ok m k ->
  Forall (fun c => c <> ch "$" /\ c <> ch "%") (conversion_text fs w p k).
Proof.
  intros Hf Hw Hp Hk. unfold conversion_text. rewrite !Forall_app. split_and!.
  - eapply Forall_impl; [exact Hf|]. intros c. unfold flag_chars. rewrite !elem_of_cons, elem_of_nil. cbn. lia.
  - destruct w; cbn in *; [constructor| |repeat constructor; lia].
    eapply Forall_impl; [apply decimal_chars; lia|]. cbn. lia.
  - destruct p; cbn in *; repeat constructor; try lia. eapply Forall_impl; [apply decimal_chars; lia|]. cbn. lia.
  - destruct k as [ln c v| | | | |]; cbn in *; try (repeat constructor; lia).
    rewrite !elem_of_cons, elem_of_nil in Hk. destruct ln; cbn; repeat constructor; lia.
Qed.

Lemma conversion_last m fs w p k : conv_ok m k -> exists i t, conversion_text fs w p k = i ++ [t] /\ isdigit t = false.
Proof.
  intros Hk. assert (exists i t, conv_text k = i ++ [t] /\ isdigit t = false) as (i & t & Ek & Ht).
  { destruct k as [ln c v| | | | |]; try (by eexists [], _; split; [reflexivity|]).
    exists (len_text ln), c. split; [done|]. cbn in Hk. rewrite !elem_of_cons, elem_of_nil in Hk. apply letter_not_digit. lia. }
  exists (fs ++ width_text w ++ prec_text p ++ i), t. unfold conversion_text. by rewrite Ek, !app_assoc.
Qed.

Lemma no_position m fs w p k s : Forall (fun c => c ∈ flag_chars) fs -> width_ok w -> prec_ok p -> conv_ok m k ->
  dollar (ch "%" :: conversion_text fs w p k ++ s) 1 = None.
Proof.
  intros Hf Hw Hp Hk. pose proof (conversion_plain m fs w p k Hf Hw Hp Hk) as Hd.
  destruct (conversion_last m fs w p k Hk) as (i & t & E & Ht). rewrite E in Hd |- *. apply Forall_app in Hd as [Hi Hd].
  apply Forall_cons in Hd as [[Htd _] _]. unfold dollar, schar. change (Z.to_nat 1) with 1%nat. change (Z.to_nat (1 + 1)) with 2%nat.
  destruct i as [|c i]; cbn [app nth]; [by rewrite Ht|]. destruct i as [|c' i]; cbn [app nth].
  - by rewrite (proj2 (Z.eqb_neq t _)), andb_false_r by done.
  - apply Forall_cons in Hi as [_ Hi]. apply Forall_cons in Hi as [[Hc' _] _]. by rewrite (proj2 (Z.eqb_neq c' _)), andb_false_r by done.
Qed.

Lemma no_dollar_at s i : isdigit (schar s i) = false -> dollar s i = None.
Proof. intros H. unfold dollar. by rewrite H. Qed.

(** ** Width and precision *)

Definition width_args (w : width) : list va := match w with WStar x => [W32 x] | _ => [] end.
Definition prec_args (p : prec) : list va := match p with PStar x => [W32 x] | _ => [] end.
Definition width_flags (fl : Z) (w : width) : Z :=
  match w with WStar x => if s32 x <? 0 then Z.lor fl LEFT_ADJ else fl | _ => fl end.
Definition prec_value (p : prec) : Z := match p with PNone => -1 | PDot => 0 | PNum n => n | PStar x => s32 x end.
Definition prec_given (p : prec) : Z := match p with PNone => 0 | PStar x => cbool (0 <=? s32 x) | _ => 1 end.

Lemma schar_starts (P : Z -> Prop) s : starts P s -> P 0 -> P (schar s 0).
Proof. by destruct s. Qed.

(** The values that the first pass, without arguments, sees: 0 for a star. *)
Definition seen_width (f : bool) (w : width) : width := if f then w else match w with WStar _ => WStar 0 | _ => w end.
Definition seen_prec (f : bool) (p : prec) : prec := if f then p else match p with PStar _ => PStar 0 | _ => p end.

Lemma schar_head c s : schar (c :: s) 0 = c.
Proof. reflexivity. Qed.

Lemma field_width_spec (f : bool) w fl rest st r : width_ok w -> starts (fun c => isdigit c = false /\ c <> ch "*") rest ->
  ap st = (if f then width_args w else []) ++ r ->
  field_width f fl false (width_text w ++ rest) st =
    Ok (inr (field (seen_width f w), width_flags fl (seen_width f w), false, rest), with_ap r st).
Proof.
  intros Hw Hr Hap. assert (starts (fun c => isdigit c = false) rest) as Hd by (destruct rest; [done|by destruct Hr]).
  destruct w as [|n|x]; cbn [width_text app width_args] in *; unfold field_width.
  - rewrite (proj2 (Z.eqb_neq _ _)) by (destruct rest as [|c rest]; [done|by destruct Hr]).
    unfold getint. rewrite getint_stop by done. cbn. destruct st; destruct f; cbn in Hap |- *; by subst.
  - cbn in Hw. destruct (decimal_head n) as (c & q & E & Hc); [lia|].
    rewrite (proj2 (Z.eqb_neq _ _)) by (rewrite E; cbn [app]; rewrite schar_head; lia). rewrite getint_decimal by (done || lia).
    rewrite (proj2 (Z.ltb_ge n 0)) by lia. destruct st; destruct f; cbn in Hap |- *; by subst.
  - rewrite schar_head, Z.eqb_refl. rewrite no_dollar_at by (unfold schar; change (Z.to_nat 1) with 1%nat; cbn; by destruct rest).
    cbn in Hw. destruct f; cbn [seen_width field width_flags].
    + unfold sbind, va_32. rewrite Hap. cbn [app obind fst snd sret drop]. rewrite skipn_O. unfold negate.
      destruct (Z.ltb_spec (s32 x) 0); cbn [sret]; [|by rewrite Z.abs_eq by lia].
      rewrite (proj2 (Z.eqb_neq _ _)) by done. cbn. by rewrite Z.abs_neq by lia.
    + cbn in Hap. cbn. rewrite skipn_O. destruct st; cbn in *; by subst.
Qed.

Lemma precision_spec (f : bool) m p k s st r : prec_ok p -> conv_ok m k -> ap st = (if f then prec_args p else []) ++ r ->
  precision f false (prec_text p ++ conv_text k ++ s) st =
    Ok (inr (prec_value (seen_prec f p), prec_given (seen_prec f p), conv_text k ++ s), with_ap r st).
Proof.
  intros Hp Hk Hap. destruct (letter_conv m k Hk) as (c & q & E & Hc). rewrite E. cbn [app].
  pose proof (letter_not_digit c Hc) as Hd.
  destruct p as [| |n|x]; cbn [prec_text app prec_args] in *; unfold precision; rewrite schar_head.
  - rewrite (proj2 (Z.eqb_neq c _)) by lia. destruct st; destruct f; cbn in Hap |- *; by subst.
  - change (schar (46 :: c :: q ++ s) 1) with c. rewrite (proj2 (Z.eqb_neq c _)) by lia. cbn [andb drop].
    unfold getint. rewrite skipn_O, getint_stop by done. destruct st; destruct f; cbn in Hap |- *; by subst.
  - assert (schar (46 :: decimal n ++ c :: q ++ s) 1 <> 42) as Hn.
    { cbn in Hp. pose proof (decimal_chars n ltac:(lia)) as Hdc. unfold schar. change (Z.to_nat 1) with 1%nat. cbn [nth].
      destruct (decimal n) as [|d ds]; cbn [app nth]; [lia|]. apply Forall_cons in Hdc as [? _]. lia. }
    rewrite (proj2 (Z.eqb_neq _ _) Hn), andb_false_r. cbn [drop]. rewrite skipn_O, getint_decimal by (done || cbn in Hp; lia).
    cbn in Hp. destruct st; destruct f; cbn in Hap |- *; by subst.
  - change (schar (46 :: 42 :: c :: q ++ s) 1 =? 42) with true. cbn [andb Z.eqb Pos.eqb].
    rewrite no_dollar_at by done. destruct f; cbn [seen_prec prec_value prec_given].
    + unfold sbind, va_32. rewrite Hap. cbn [app obind fst snd sret drop]. by rewrite ?skipn_O.
    + cbn in Hap. cbn. rewrite ?skipn_O. destruct st; cbn in *; by subst.
Qed.

(** ** Type and argument *)

Definition signed_type (ln : len) : Z :=
  match ln with Lnone => INT | Lhh => CHAR | Lh => SHORT | Ll => LONG | Lll => LLONG | Lj => IMAX | Lz | Lt => PDIFF end.
Definition unsigned_type (ln : len) : Z :=
  match ln with Lnone => UINT | Lhh => UCHAR | Lh => USHORT | Ll => ULONG | Lll => ULLONG | Lj => UMAX | Lz | Lt => SIZET end.
Definition conv_type (k : conv) : Z :=
  match k with
  | CInt ln c _ => if is_signed c then signed_type ln else unsigned_type ln
  | CPtr _ => UIPTR | CChar _ => CHAR | CStr _ _ | CNull => PTR | CErrno => NOARG
  end.
Definition conv_state (k : conv) : Z :=
  match k with
  | CInt ln _ _ => match ln with Lnone => BARE | Lhh => HHPRE | Lh => HPRE | Ll => LPRE | Lll => LLPRE | Lj => JPRE | Lz | Lt => ZTPRE end
  | _ => BARE
  end.
Definition conv_char (k : conv) : Z :=
  match k with CInt _ c _ => c | CPtr _ => ch "p" | CChar _ => ch "c" | CStr _ _ | CNull => ch "s" | CErrno => ch "m" end.
(** The union after the argument is popped into it. *)
Definition conv_arg (arg : Z) (k : conv) : Z :=
  match k with
  | CInt ln c v => u64 (value_of ln c v)
  | CPtr v => u64 (u32 v)
  | CChar v => u64 (s8 v)
  | CStr a _ => union_p arg a
  | CNull => union_p arg 0
  | CErrno => arg
  end.

Lemma specifier_spec m k s : conv_ok m k -> specifier 0 (conv_text k ++ s) = Some (conv_type k, conv_state k, conv_char k, s).
Proof.
  destruct k as [ln c v| | | | |]; try reflexivity. intros Hc. cbn in Hc. rewrite !elem_of_cons, elem_of_nil in Hc.
  destruct Hc as [-> |[-> |[-> |[-> |[-> |[-> |[]]]]]]]; destruct ln; reflexivity.
Qed.

Lemma argument_spec m k arg st r : conv_ok m k -> ap st = conv_args k ++ r ->
  argument true (-1) (conv_type k) arg st = Ok (inr (conv_arg arg k), with_ap r st).
Proof.
  intros Hk Hap. destruct st as [m0 ap0 na nt os e]. cbn in Hap. subst ap0.
  destruct k as [ln c v| | | | |]; try reflexivity. cbn in Hk. rewrite !elem_of_cons, elem_of_nil in Hk.
  destruct Hk as [-> |[-> |[-> |[-> |[-> |[-> |[]]]]]]]; destruct ln; reflexivity.
Qed.

Lemma value_range ln c v : int_range c (value_of ln c v).
Proof.
  unfold int_range, value_of. destruct (is_signed c).
  - assert (in_s (bits ln) (swrap (bits ln) v)) as H by (apply swrap_range; by destruct ln).
    destruct ln; cbn [bits] in *; bounds; lia.
  - assert (0 <= v mod 2 ^ bits ln < 2 ^ bits ln) as H by (apply Z.mod_pos_bound; by destruct ln).
    destruct ln; cbn [bits] in *; bounds; lia.
Qed.

Lemma prec_is_limit p : prec_ok p -> prec_is (limit p) (prec_value p) (prec_given p).
Proof.
  destruct p as [| |n|x]; cbn; unfold INT_MIN, INT_MAX in *; try lia. intros _. pose proof (s32_range x) as Hx. unfold in_s in Hx. change (32 - 1) with 31 in Hx.
  destruct (Z.ltb_spec (s32 x) 0); cbn [prec_is]; unfold INT_MIN, INT_MAX; decide_cmp; cbn [cbool]; lia.
Qed.

Lemma flags_are_read fs w : Forall (fun c => c ∈ flag_chars) fs -> flags_are (width_flags (flag_bits fs) w) fs w.
Proof.
  intros Hfs. assert (forall k, 0 <= k -> k <> 13 -> Z.testbit (width_flags (flag_bits fs) w) k = flag fs (k + 32)) as Hk.
  { intros k H0 Hk. rewrite <- testbit_flag_bits by done. destruct w as [| |x]; try done. cbn [width_flags]. case_cmp; [|done].
    unfold LEFT_ADJ. rewrite Z.lor_spec, testbit_one by done. rewrite (proj2 (Z.eqb_neq _ _)) by done. apply orb_false_r. }
  split; [intros k Hin; rewrite !elem_of_cons, elem_of_nil in Hin; apply Hk; lia|].
  unfold at_left. change (ch "-") with (13 + 32). rewrite <- testbit_flag_bits by done.
  destruct w as [| |x]; cbn [width_flags]; rewrite ?orb_false_r; try done.
  case_cmp; [|by rewrite orb_false_r]. unfold LEFT_ADJ. by rewrite Z.lor_spec, testbit_one by done.
Qed.

Lemma union_p_low arg p : u32 (union_p arg p) = u32 p.
Proof. unfold union_p, u32. rewrite Z.add_comm, Z.mod_add by lia. by rewrite Z.mod_mod by lia. Qed.

(** Every conversion of the specification. *)
Lemma conversion_spec utf8 strerror cnt fs w p k arg st : 0 <= cnt -> wf_memory (memory_ st) ->
  Forall (fun c => 0 < c < 256) (strerror (errno st)) -> piece_ok (memory_ st) (Conv fs w p k) ->
  produces (conversion utf8 strerror cnt (width_flags (flag_bits fs) w) (field w) (prec_value p) (prec_given p) (conv_state k) (conv_char k) (conv_arg arg k))
    st cnt (meaning (strerror (errno st)) (Conv fs w p k)).
Proof.
  intros Hc Hm He (Hfs & Hw & Hp & Hk). pose proof (flags_are_read fs w Hfs) as Hfl. pose proof (prec_is_limit p Hp) as Hlim.
  destruct k as [ln c v|v|v|a text| |]; cbn [conv_state conv_char conv_arg meaning].
  - apply conversion_int; try done. apply value_range.
  - apply conversion_pointer; try done. apply u32_range.
  - assert (u8 (u64 (s8 v)) = u8 v) as E.
    { unfold u8, u64, s8. change (2 ^ 64) with (2 ^ 8 * 2 ^ 56). rewrite <- Znumtheory.Zmod_div_mod; try lia.
      - by apply swrap_mod. - exists (2 ^ 56). lia. }
    pose proof (emit_text cnt _ fs w [u8 v] st Hc Hfl) as H. unfold conversion. cbn -[Z.land emit justify]. rewrite E. exact H.
  - destruct Hk as [Ha Hs]. assert (u32 a = a) as Ea.
    { destruct Hs as (? & ? & _). apply u32_id. pose proof (wf_limit _ Hm). pose proof (zlen_nonneg text). split; [lia|]. lia. }
    pose proof (text_produces cnt _ fs w _ st _ Hc Hfl (memory_text_is a text _ _ _ st Hm Ha Hs Hlim)) as H.
    unfold conversion. cbn -[Z.land emit justify memory_text constant_text ctrue]. rewrite union_p_low, Ea.
    replace (ctrue a) with true by (symmetry; apply negb_true_iff, Z.eqb_neq; lia). exact H.
  - assert (Forall (fun c => 0 < c < 256) null_text) as Hn by (repeat constructor; lia).
    pose proof (text_produces cnt _ fs w _ st _ Hc Hfl (constant_text_is null_text _ _ _ st Hn Hlim)) as H.
    unfold conversion. cbn -[Z.land emit justify memory_text constant_text ctrue]. rewrite union_p_low. exact H.
  - pose proof (text_produces cnt _ fs w _ st _ Hc Hfl (constant_text_is (strerror (errno st)) _ _ _ st He Hlim)) as H.
    unfold conversion. cbn -[Z.land emit justify memory_text constant_text ctrue]. exact H.
Qed.

(** * The format *)

Definition render_all (ps : list piece) : list Z := concat (map render ps).
Definition args_all (ps : list piece) : list va := concat (map args ps).
Definition meaning_all (err : list Z) (ps : list piece) : list Z := concat (map (meaning err) ps).

Lemma with_ap_self st : with_ap (ap st) st = st.
Proof. by destruct st. Qed.

Lemma starts_after_width m p k s : conv_ok m k -> starts (fun c => isdigit c = false /\ c <> ch "*") (prec_text p ++ conv_text k ++ s).
Proof. intros Hk. eapply starts_prec; [done|by split|]. intros c Hc. split; [by apply letter_not_digit|lia]. Qed.

(** What [specification] does up to the argument. *)
Lemma specification_reads (f : bool) utf8 strerror cnt arg fs w p k s st r : piece_ok (memory_ st) (Conv fs w p k) ->
  ap st = (if f then width_args w ++ prec_args p else []) ++ r ->
  specification utf8 strerror f cnt false arg (render (Conv fs w p k) ++ s) st =
    (let^ arg := argument f (-1) (conv_type k) arg in
     if f then let^ l := conversion utf8 strerror cnt (width_flags (flag_bits fs) (seen_width f w)) (field (seen_width f w))
                          (prec_value (seen_prec f p)) (prec_given (seen_prec f p)) (conv_state k) (conv_char k) arg in
               sret (inr (l, false, arg, s))
     else sret (inr (0, false, arg, s))) (with_ap r st).
Proof.
  intros (Hfs & Hw & Hp & Hk) Hap. unfold specification. cbn [render app]. rewrite <- !app_assoc.
  pose proof (no_position (memory_ st) fs w p k s Hfs Hw Hp Hk) as Hno. unfold conversion_text in Hno. rewrite <- !app_assoc in Hno.
  rewrite Hno. cbn [drop]. rewrite skipn_O. rewrite read_flags_list by (done || by eapply starts_width). fold (flag_bits fs).
  assert (exists r1, ap st = (if f then width_args w else []) ++ r1 /\ r1 = (if f then prec_args p else []) ++ r) as (r1 & Hap1 & ->).
  { rewrite Hap. destruct f; [|by eexists]. rewrite <- app_assoc. by eexists. }
  rewrite (sbind_Ok _ _ _ _ _ (field_width_spec f w (flag_bits fs) _ st _ Hw (starts_after_width _ p k s Hk) Hap1)).
  rewrite (sbind_Ok _ _ _ _ _ (precision_spec f (memory_ st) p k s (with_ap _ st) r Hp Hk eq_refl)).
  by rewrite (specifier_spec (memory_ st)).
Qed.

Lemma specification_out utf8 strerror cnt arg fs w p k s st r : 0 <= cnt -> wf_memory (memory_ st) ->
  Forall (fun c => 0 < c < 256) (strerror (errno st)) -> piece_ok (memory_ st) (Conv fs w p k) -> ap st = args (Conv fs w p k) ++ r ->
  let text := meaning (strerror (errno st)) (Conv fs w p k) in
  let res := specification utf8 strerror true cnt false arg (render (Conv fs w p k) ++ s) st in
  if zlen text <=? INT_MAX - cnt
  then exists cs arg', res = Ok (inr (zlen text, false, arg', s), with_outs (outs st ++ cs) (with_ap r st)) /\ concat cs = text
  else res = Ok (inl (-1), with_errno EOVERFLOW (with_ap r st)).
Proof.
  intros Hc Hm He Hok Hap text res. unfold res. cbn [args] in Hap. fold (width_args w) (prec_args p) in Hap. rewrite app_assoc, <- app_assoc in Hap.
  rewrite (specification_reads true _ _ _ _ _ _ _ _ _ _ (conv_args k ++ r) Hok Hap). cbn [seen_width seen_prec].
  rewrite (sbind_Ok _ _ _ _ _ (argument_spec (memory_ st) k arg (with_ap (conv_args k ++ r) st) r ltac:(apply Hok) eq_refl)).
  pose proof (conversion_spec utf8 strerror cnt fs w p k arg (with_ap r st) Hc Hm He Hok) as H. unfold produces in H. fold text in H.
  change (meaning (strerror (errno (with_ap r st))) (Conv fs w p k)) with text in H.
  destruct (_ <=? _).
  - destruct H as (cs & E & Hcs). exists cs, (conv_arg arg k). split; [|done]. by rewrite (sbind_Ok _ _ _ _ _ E).
  - by rewrite (sbind_Ok _ _ _ _ _ H).
Qed.

(** Whether the first pass goes on after a conversion. *)
Definition no_argument (k : conv) : bool := match k with CErrno => true | _ => false end.

Lemma specification_first utf8 strerror cnt arg fs w p k s st : piece_ok (memory_ st) (Conv fs w p k) ->
  specification utf8 strerror false cnt false arg (render (Conv fs w p k) ++ s) st =
  Ok (if no_argument k then inr (0, false, arg, s) else inl 0, st).
Proof.
  intros Hok. rewrite (specification_reads false _ _ _ _ _ _ _ _ _ _ (ap st) Hok eq_refl), with_ap_self.
  destruct k as [ln c v| | | | |]; try reflexivity. destruct Hok as (_ & _ & _ & Hc). cbn in Hc. rewrite !elem_of_cons, elem_of_nil in Hc.
  destruct Hc as [-> |[-> |[-> |[-> |[-> |[-> |[]]]]]]]; destruct ln; reflexivity.
Qed.

(** ** Text between conversions *)

Definition is_text (p : piece) : bool := match p with Conv _ _ _ _ => false | _ => true end.
Definition is_char (p : piece) : bool := match p with Char _ => true | _ => false end.

Definition starts_char (ps : list piece) : bool := match ps with p :: _ => is_char p | [] => false end.

Lemma percents_split m ps : Forall (piece_ok m) ps -> starts_char ps = false ->
  exists ps1 ps2, ps = ps1 ++ ps2 /\ Forall (fun p => is_text p = true) ps1 /\
    (forall err, replicate (fst (percents (render_all ps))) (ch "%") = meaning_all err ps1) /\
    snd (percents (render_all ps)) = render_all ps2 /\
    match ps with Percent :: _ => ps1 <> [] | _ => True end.
Proof.
  induction ps as [|p ps IH]; intros Hok Hs; [by exists [], []|]. apply Forall_cons in Hok as [Hp Hok].
  destruct p as [c| |fs w p k]; [done| |].
  - assert (percents (render_all (Percent :: ps)) = let (k, r) := percents (render_all ps) in (S k, r)) as -> by reflexivity.
    destruct (starts_char ps) eqn:Hn.
    2:{ destruct (IH Hok eq_refl) as (ps1 & ps2 & -> & Ht & Hm & Hr & _). exists (Percent :: ps1), ps2.
      destruct (percents _) as [n r]. cbn in Hm, Hr |- *. split_and!; [done|by constructor| |done|done].
      intros err. unfold meaning_all. cbn. f_equal. apply Hm. }
    + exists [Percent], ps. destruct ps as [|[c| |] ps]; try done. apply Forall_cons in Hok as [[_ Hc] _].
      assert (percents (render_all (Char c :: ps)) = (O, render_all (Char c :: ps))) as ->.
      { unfold render_all. cbn. destruct (concat (map render ps)); [done|]. by rewrite (proj2 (Z.eqb_neq c _)) by done. }
      split_and!; by repeat constructor.
  - exists [], (Conv fs w p k :: ps). assert (percents (render_all (Conv fs w p k :: ps)) = (O, render_all (Conv fs w p k :: ps))) as ->.
    { destruct Hp as (Hf & Hw & Hp & Hk). pose proof (conversion_plain m fs w p k Hf Hw Hp Hk) as Hc.
      destruct (conversion_last m fs w p k Hk) as (i & t & E & _). unfold render_all. cbn [map concat render app].
      fold (conversion_text fs w p k). rewrite E in *. destruct i as [|d i]; cbn [app percents]; apply Forall_cons in Hc as [[_ Hc] _];
        by rewrite (proj2 (Z.eqb_neq _ _) Hc), andb_false_r. }
    split_and!; by repeat constructor.
Qed.

Lemma literal_split m ps : Forall (piece_ok m) ps -> exists ps1 ps2, ps = ps1 ++ ps2 /\ Forall (fun p => is_text p = true) ps1 /\
  (forall err, fst (literal (render_all ps)) = meaning_all err ps1) /\ snd (literal (render_all ps)) = render_all ps2 /\
  match ps with p :: _ => is_text p = true -> ps1 <> [] | [] => True end.
Proof.
  induction ps as [|p ps IH]; intros Hok; [by exists [], []|]. destruct (is_char p) eqn:Ec.
  - destruct p as [c| |]; try done. apply Forall_cons in Hok as [[_ Hc] Hok]. destruct (IH Hok) as (ps1 & ps2 & -> & Ht & Hm & Hr & _).
    exists (Char c :: ps1), ps2. unfold literal, render_all in *. cbn [map concat render app span].
    rewrite (proj2 (Z.eqb_neq c _)) by done. cbn [negb drop length].
    destruct (percents _) as [n r]. cbn in Hm, Hr |- *. split_and!; [done|by constructor| |done|done].
    intros err. unfold meaning_all. cbn. f_equal. apply Hm.
  - destruct (percents_split m (p :: ps) Hok) as (ps1 & ps2 & E & Ht & Hm & Hr & Hn); [by destruct p|]. exists ps1, ps2.
    assert (literal (render_all (p :: ps)) = let (k, r) := percents (render_all (p :: ps)) in (replicate k (ch "%"), r)) as ->
      by (by destruct p).
    destruct (percents _) as [n r]. cbn in *. split_and!; try done. by destruct p.
Qed.

Lemma render_nonempty m p : piece_ok m p -> (1 <= length (render p))%nat.
Proof. destruct p; cbn; lia. Qed.

Lemma render_all_app a b : render_all (a ++ b) = render_all a ++ render_all b.
Proof. unfold render_all. by rewrite map_app, concat_app. Qed.
Lemma args_all_app a b : args_all (a ++ b) = args_all a ++ args_all b.
Proof. unfold args_all. by rewrite map_app, concat_app. Qed.
Lemma meaning_all_app err a b : meaning_all err (a ++ b) = meaning_all err a ++ meaning_all err b.
Proof. unfold meaning_all. by rewrite map_app, concat_app. Qed.
Lemma text_args ps : Forall (fun p => is_text p = true) ps -> args_all ps = [].
Proof. induction 1 as [|p ps Hp _ IH]; [done|]. unfold args_all in *. cbn. rewrite IH. by destruct p. Qed.

Lemma text_length err ps : Forall (fun p => is_text p = true) ps -> zlen (meaning_all err ps) = zlen ps.
Proof. induction 1 as [|p ps Hp _ IH]; [done|]. unfold meaning_all in *. cbn. rewrite zlen_app, IH, zlen_cons. by destruct p. Qed.

(** A round of the loop on text: the pieces before the first conversion or run of text after [%%]. *)
Lemma literal_round m ps : Forall (piece_ok m) ps -> ps <> [] ->
  match ps with
  | Conv fs w p k :: ps' => literal (render_all ps) = ([], render_all ps)
  | _ => exists ps1 ps2 text, ps = ps1 ++ ps2 /\ literal (render_all ps) = (text, render_all ps2) /\ (forall err, meaning_all err ps1 = text) /\
      args_all ps1 = [] /\ 0 < zlen text /\ (length (render_all ps2) < length (render_all ps))%nat
  end.
Proof.
  intros Hok Hne. destruct (literal_split m ps Hok) as (ps1 & ps2 & E & Ht & Hm & Hr & Hn).
  destruct (literal (render_all ps)) as [text rest] eqn:El. cbn [fst snd] in *.
  assert (ps1 <> [] -> exists ps1 ps2 text0, ps = ps1 ++ ps2 /\ (text, rest) = (text0, render_all ps2) /\ (forall err, meaning_all err ps1 = text0) /\
      args_all ps1 = [] /\ 0 < zlen text0 /\ (length (render_all ps2) < length (render_all ps))%nat) as Hgo.
  { intros H1. exists ps1, ps2, text. split_and!; [done|by rewrite Hr|done|by apply text_args| |].
    - rewrite (Hm []), text_length by done. destruct ps1; [done|]. rewrite zlen_cons. pose proof (zlen_nonneg ps1). lia.
    - subst ps. rewrite render_all_app, length_app. destruct ps1 as [|p ps1]; [done|]. apply Forall_app in Hok as [Hok _].
      apply Forall_cons in Hok as [Hp _]. apply render_nonempty in Hp. unfold render_all at 2. cbn. rewrite length_app. lia. }
  destruct ps as [|[c| |fs w p k] ps']; [done|by apply Hgo, Hn|by apply Hgo, Hn|].
  destruct ps1 as [|p1 ps1]; [|cbn in E; injection E as <- _; by apply Forall_cons in Ht as [? _]].
  cbn in E. subst ps2. by rewrite (Hm []), Hr.
Qed.

(** * The loop *)

Section Core.
Context (utf8 : bool) (strerror : Z -> list Z).

(** Output that ends the call with the number of characters, or overflows. *)
Definition core_result (total : Z) (text : list Z) (r : list va) (st : pf) (res : outcome (Z * pf)) : Prop :=
  if total <=? INT_MAX
  then exists cs, res = Ok (total, with_outs (outs st ++ cs) (with_ap r st)) /\ concat cs = text
  else exists st', res = Ok (-1, st') /\ memory_ st' = memory_ st /\ errno st' = EOVERFLOW.

Lemma core_result_more total text r st res cs1 text1 r1 : ap st = r1 ->
  core_result total text r (with_outs (outs st ++ cs1) (with_ap r1 st)) res -> concat cs1 = text1 ->
  core_result total (text1 ++ text) r st res.
Proof.
  intros _ H E1. unfold core_result in *. destruct (_ <=? _); [|exact H]. destruct H as (cs & -> & E2). exists (cs1 ++ cs). split.
  - cbn. by rewrite app_assoc.
  - by rewrite concat_app, E1, E2.
Qed.

Lemma core_out fuel : forall ps cnt l arg st r, (length (render_all ps) < fuel)%nat -> 0 <= cnt -> 0 <= l ->
  wf_memory (memory_ st) -> Forall (fun c => 0 < c < 256) (strerror (errno st)) -> Forall (piece_ok (memory_ st)) ps ->
  ap st = args_all ps ++ r -> let text := meaning_all (strerror (errno st)) ps in
  core_result (cnt + l + zlen text) text r st (core_loop utf8 strerror fuel true (render_all ps) cnt l false arg st).
Proof.
  induction fuel as [|fuel IH]; intros ps cnt l arg st r Hf Hc Hl Hm He Hok Hap text; [lia|]. cbn [core_loop].
  pose proof (zlen_nonneg text) as Hz. destruct (Z.ltb_spec (INT_MAX - cnt) l) as [Ho|Ho].
  { unfold core_result. rewrite (proj2 (Z.leb_gt _ _)) by lia. by eexists. }
  destruct ps as [|p ps].
  { unfold core_result. cbn [args_all map concat app] in Hap. change text with (@nil Z). change (zlen (@nil Z)) with 0.
    rewrite Z.add_0_r, (proj2 (Z.leb_le _ _)) by lia. exists []. split; [|done].
    rewrite app_nil_r. destruct st; cbn in *; by subst. }
  assert (exists c s, render_all (p :: ps) = c :: s) as (c0 & s0 & Es).
  { apply Forall_cons in Hok as [Hp _]. apply render_nonempty in Hp. unfold render_all. cbn. destruct (render p); [cbn in Hp; lia|by eexists _, _]. }
  pose proof (literal_round _ (p :: ps) Hok ltac:(done)) as Hlit. rewrite Es in Hlit |- *.
  destruct (is_text p) eqn:Et.
  - assert (exists ps1 ps2 t, p :: ps = ps1 ++ ps2 /\ literal (c0 :: s0) = (t, render_all ps2) /\ (forall err, meaning_all err ps1 = t) /\
      args_all ps1 = [] /\ 0 < zlen t /\ (length (render_all ps2) < length (render_all (p :: ps)))%nat) as (ps1 & ps2 & t & E & -> & Ht & Ha & Hlt & Hlen).
    { rewrite Es. destruct p; [exact Hlit|exact Hlit|done]. }
    assert (text = t ++ meaning_all (strerror (errno st)) ps2) as Etext by (unfold text; by rewrite E, meaning_all_app, Ht).
    rewrite E in Hok, Hap. rewrite args_all_app, Ha in Hap. apply Forall_app in Hok as [_ Hok]. cbn [app] in Hap.
    pose proof (zlen_nonneg (meaning_all (strerror (errno st)) ps2)). rewrite Etext, zlen_app.
    destruct (Z.ltb_spec (INT_MAX - (cnt + l)) (zlen t)) as [Ho2|Ho2].
    { unfold core_result. rewrite (proj2 (Z.leb_gt _ _)) by lia. by eexists. }
    unfold sbind, out, sput. cbn [obind fst snd]. replace (ctrue (zlen t)) with true by (symmetry; apply negb_true_iff, Z.eqb_neq; lia).
    apply (core_result_more _ _ _ _ _ [t] t (ap st) eq_refl); [|cbn; apply app_nil_r]. rewrite with_ap_self.
    replace (cnt + l + (zlen t + zlen (meaning_all (strerror (errno st)) ps2))) with (cnt + l + zlen t + zlen (meaning_all (strerror (errno st)) ps2)) by lia.
    apply (IH ps2 (cnt + l) (zlen t) arg (with_outs (outs st ++ [t]) st) r); try done; lia.
  - destruct p as [|? |fs w p k]; try done. rewrite Hlit. cbn [zlen]. change (zlen (@nil Z)) with 0.
    rewrite (proj2 (Z.ltb_ge (INT_MAX - (cnt + l)) 0)) by lia. unfold sbind at 1, out, sput. cbn [obind fst snd ctrue Z.eqb negb].
    rewrite <- Es. unfold render_all. cbn [map concat]. fold (render_all ps). apply Forall_cons in Hok as [Hp Hok].
    unfold args_all in Hap. cbn [map concat] in Hap. rewrite <- app_assoc in Hap. fold (args_all ps) in Hap.
    set (st0 := with_outs (outs st ++ [[]]) st).
    pose proof (specification_out utf8 strerror (cnt + l) arg fs w p k (render_all ps) st0 (args_all ps ++ r) ltac:(lia) Hm He Hp Hap) as Hs.
    cbv zeta in Hs. change (errno st0) with (errno st) in Hs. set (t := meaning (strerror (errno st)) (Conv fs w p k)) in *.
    assert (text = t ++ meaning_all (strerror (errno st)) ps) as Etext by done.
    pose proof (zlen_nonneg (meaning_all (strerror (errno st)) ps)). pose proof (zlen_nonneg t). rewrite Etext, zlen_app.
    destruct (Z.leb_spec (zlen t) (INT_MAX - (cnt + l))) as [Hle|Hgt].
    + destruct Hs as (cs & arg' & Es' & Hcs). rewrite (sbind_Ok _ _ _ _ _ Es').
      replace (cnt + l + (zlen t + zlen (meaning_all (strerror (errno st)) ps))) with (cnt + l + zlen t + zlen (meaning_all (strerror (errno st)) ps)) by lia.
      assert (core_result (cnt + l + zlen t + zlen (meaning_all (strerror (errno st)) ps)) (meaning_all (strerror (errno st)) ps) r
        (with_outs (outs st0 ++ cs) (with_ap (args_all ps ++ r) st0))
        (core_loop utf8 strerror fuel true (render_all ps) (cnt + l) (zlen t) false arg' (with_outs (outs st0 ++ cs) (with_ap (args_all ps ++ r) st0)))) as Hr.
      { apply (IH ps (cnt + l) (zlen t) arg' (with_outs (outs st0 ++ cs) (with_ap (args_all ps ++ r) st0)) r); try done; try lia.
        apply render_nonempty in Hp. unfold render_all in Hf at 1. cbn in Hf. rewrite length_app in Hf. fold (render_all ps) in Hf. cbn in Hp. lia. }
      unfold core_result in *. destruct (_ <=? _); [|exact Hr]. destruct Hr as (cs' & -> & Hcs'). exists ([[]] ++ cs ++ cs'). split.
      * unfold st0, with_outs, with_ap. cbn [outs memory_ ap nl_arg nl_type errno]. by rewrite <- !app_assoc.
      * rewrite !concat_app. cbn. by rewrite Hcs, Hcs'.
    + unfold core_result. rewrite (proj2 (Z.leb_gt _ _)) by lia. rewrite (sbind_Ok _ _ _ _ _ Hs). by eexists.
Qed.
(** The first pass, without positional arguments. *)
Lemma core_first err fuel : forall ps cnt l arg st, (length (render_all ps) < fuel)%nat -> 0 <= cnt -> 0 <= l ->
  Forall (piece_ok (memory_ st)) ps -> let res := core_loop utf8 strerror fuel false (render_all ps) cnt l false arg st in
  res = Ok (0, st) \/ (INT_MAX < cnt + l + zlen (meaning_all err ps) /\ res = Ok (-1, with_errno EOVERFLOW st)).
Proof.
  induction fuel as [|fuel IH]; intros ps cnt l arg st Hf Hc Hl Hok; [lia|]. cbn [core_loop].
  pose proof (zlen_nonneg (meaning_all err ps)) as Hz. destruct (Z.ltb_spec (INT_MAX - cnt) l) as [Ho|Ho].
  { right. split; [lia|done]. }
  destruct ps as [|p ps]; [by left|].
  assert (exists c s, render_all (p :: ps) = c :: s) as (c0 & s0 & Es).
  { apply Forall_cons in Hok as [Hp _]. apply render_nonempty in Hp. unfold render_all. cbn. destruct (render p); [cbn in Hp; lia|by eexists _, _]. }
  pose proof (literal_round _ (p :: ps) Hok ltac:(done)) as Hlit. rewrite Es in Hlit |- *.
  destruct p as [c| |fs w p k].
  3:{ rewrite Hlit. change (zlen (@nil Z)) with 0. rewrite (proj2 (Z.ltb_ge (INT_MAX - (cnt + l)) 0)) by lia.
    unfold sbind, sret. cbn [obind fst snd ctrue Z.eqb negb]. rewrite <- Es. unfold render_all. cbn [map concat]. fold (render_all ps).
    apply Forall_cons in Hok as [Hp Hok]. rewrite specification_first by done. cbn [obind fst snd]. destruct (no_argument k); [|by left].
    unfold meaning_all. cbn [map concat]. rewrite zlen_app. fold (meaning_all err ps). pose proof (zlen_nonneg (meaning err (Conv fs w p k))).
    destruct (IH ps (cnt + l) 0 arg st) as [-> |[Hlt ->]]; [|lia|lia|done|by left|right; split; [lia|done]].
    unfold render_all in Hf at 1. cbn in Hf. rewrite length_app in Hf. fold (render_all ps) in Hf. lia. }
  all: destruct Hlit as (ps1 & ps2 & t & E & -> & Ht & Ha & Hlt & Hlen); rewrite <- Es in Hlen; rewrite E in Hok |- *;
    rewrite meaning_all_app, Ht, zlen_app; pose proof (zlen_nonneg (meaning_all err ps2)); apply Forall_app in Hok as [_ Hok];
    (destruct (Z.ltb_spec (INT_MAX - (cnt + l)) (zlen t)) as [Ho2|Ho2]; [right; split; [lia|done]|]);
    unfold sbind, sret; cbn [obind fst snd]; replace (ctrue (zlen t)) with true by (symmetry; apply negb_true_iff, Z.eqb_neq; lia);
    (destruct (IH ps2 (cnt + l) (zlen t) arg st) as [-> |[Hlt2 ->]]; [lia|lia|lia|done|by left|right; split; [lia|done]]).
Qed.
End Core.

(** * The buffer of vsnprintf *)

(** The bytes of [n] that are stored of the text: all but one for the terminator. *)
Definition kept (n : Z) (text : list Z) : list Z := take (Z.to_nat (n - 1)) text.

(** The cookie when [text] has been written to a buffer [s] of [n] bytes. *)
Definition cookie_at (s n : Z) (text wb : list Z) : sn :=
  if n =? 0 then Sn None 0 wb else Sn (Some (s + zlen (kept n text))) (n - 1 - zlen (kept n text)) wb.
Definition stored (s n : Z) (m : list Z) (text : list Z) : list Z :=
  if n =? 0 then m else blit m s (kept n text ++ [0]).

Lemma zlen_kept n text : 0 < n -> zlen (kept n text) = Z.min (n - 1) (zlen text).
Proof. intros. unfold kept. apply zlen_take_min. lia. Qed.

Lemma kept_app n a b : 0 < n -> kept n (a ++ b) = kept n a ++ take (Z.to_nat (n - 1 - zlen (kept n a))) b.
Proof.
  intros Hn. unfold kept at 1 2. rewrite take_app. do 2 f_equal. rewrite zlen_kept by done. unfold zlen. lia.
Qed.

(** A copy over the terminator and behind it, and a new terminator. *)
Lemma blit_extend m s a b : 0 <= s -> s + zlen (a ++ b) < zlen m ->
  <[Z.to_nat (s + zlen (a ++ b)) := 0]> (blit (blit m s (a ++ [0])) (s + zlen a) b) = blit m s ((a ++ b) ++ [0]).
Proof.
  intros Hs Hl. rewrite zlen_app in *. pose proof (zlen_nonneg a). pose proof (zlen_nonneg b).
  assert (zlen (a ++ [0]) = zlen a + 1) as Ea by (by rewrite zlen_app).
  assert (zlen ((a ++ b) ++ [0]) = zlen a + zlen b + 1) as Eab by (by rewrite !zlen_app).
  assert (zlen (blit m s (a ++ [0])) = zlen m) as E1 by (apply zlen_blit; lia).
  assert (zlen (blit (blit m s (a ++ [0])) (s + zlen a) b) = zlen m) as E2 by (rewrite zlen_blit; lia).
  apply memory_ext; [rewrite zlen_insert, E2, zlen_blit; lia|]. rewrite zlen_insert, E2. intros x Hx.
  rewrite byte_store, byte_blit, byte_blit, byte_blit, Ea, Eab by lia.
  assert (forall l k, nth k l 0 = byte l (Z.of_nat k)) as Hb by (intros; unfold byte; by rewrite Nat2Z.id).
  unfold zlen in *.
  destruct (Z.eqb_spec x (s + (Z.of_nat (length a) + Z.of_nat (length b)))) as [-> |Hne].
  - decide_cmp. cbn [andb]. rewrite nth_lookup, lookup_app_r by (rewrite length_app; lia).
    replace (Z.to_nat _ - length (a ++ b))%nat with O by (rewrite length_app; lia). done.
  - repeat case_cmp; cbn [andb]; try lia; try done; rewrite !nth_lookup.
    all: rewrite (lookup_app_l (a ++ b)) by (rewrite length_app; lia).
    all: first [rewrite (lookup_app_r a b) by lia; do 2 f_equal; lia | by rewrite !lookup_app_l by lia].
Qed.

Lemma blit_empty m d : blit m d [] = m.
Proof. unfold blit. cbn. by rewrite Nat.add_0_r, take_drop. Qed.

Lemma blit_blit m d a b : 0 <= d -> d + zlen (a ++ b) <= zlen m -> blit (blit m d a) (d + zlen a) b = blit m d (a ++ b).
Proof.
  intros Hd Hl. rewrite zlen_app in Hl. pose proof (zlen_nonneg a). pose proof (zlen_nonneg b).
  assert (zlen (blit m d a) = zlen m) as E1 by (apply zlen_blit; lia).
  apply memory_ext; [rewrite !zlen_blit; rewrite ?zlen_app; lia|]. rewrite zlen_blit, E1 by lia. intros x Hx.
  rewrite !byte_blit by (rewrite ?zlen_app; lia). rewrite zlen_app. unfold zlen in *.
  repeat case_cmp; cbn [andb]; try lia; try done; rewrite !nth_lookup.
  all: first [rewrite (lookup_app_r a b) by lia; do 2 f_equal; lia | by rewrite lookup_app_l by lia].
Qed.

Lemma cookie_put_spec d k wb src m : 0 <= d -> d + zlen src <= zlen m ->
  cookie_put src (Sn (Some d) k wb) m = Ok (Sn (Some (d + zlen src)) (k - zlen src) wb, blit m d src).
Proof.
  intros Hd Hl. unfold cookie_put. cbn [c_s c_n wbuf]. destruct (Z.eqb_spec (zlen src) 0) as [E|E].
  - assert (src = []) as -> by (destruct src; [done|rewrite zlen_cons in E; pose proof (zlen_nonneg src); lia]).
    rewrite blit_empty. change (zlen (@nil Z)) with 0. by rewrite Z.add_0_r, Z.sub_0_r.
  - unfold sbind, store_bytes. decide_cmp. done.
Qed.

Lemma take_min {A} k (l : list A) : take (Z.to_nat (Z.min k (zlen l))) l = take (Z.to_nat k) l.
Proof.
  destruct (Z.le_gt_cases k (zlen l)); [by rewrite Z.min_l by lia|]. rewrite Z.min_r by lia. by rewrite !take_zlen by lia.
Qed.

Section Buffer.
Context (s n : Z) (m : list Z) (Hn : 0 <= n) (Hs : n = 0 \/ (0 <= s /\ s + n <= zlen m)).

Lemma sn_write_spec text wb x :
  sn_write (cookie_at s n text wb) x (stored s n m text) =
  Ok (cookie_at s n (text ++ wb ++ x) [], stored s n m (text ++ wb ++ x)).
Proof using Hn Hs.
  unfold cookie_at, stored. destruct (Z.eqb_spec n 0) as [-> |Hne].
  { unfold sn_write. cbn [c_s c_n wbuf]. rewrite take_min. change (cookie_put (take (Z.to_nat 0) wb) (Sn None 0 wb)) with (sret (Sn None 0 wb) : mem sn).
    unfold sbind at 1, sret at 1. cbn [obind fst snd c_n]. by rewrite take_min. }
  destruct Hs as [|[H0 Hl]]; [done|]. set (K := kept n text). pose proof (zlen_kept n text ltac:(lia)) as HK. fold K in HK.
  set (src := take (Z.to_nat (n - 1 - zlen K)) wb). pose proof (zlen_nonneg text). pose proof (zlen_nonneg wb). pose proof (zlen_nonneg x).
  assert (zlen src = Z.min (n - 1 - zlen K) (zlen wb)) as Hsrc by (apply zlen_take_min; lia).
  set (src2 := take (Z.to_nat (n - 1 - zlen K - zlen src)) x).
  assert (zlen src2 = Z.min (n - 1 - zlen K - zlen src) (zlen x)) as Hsrc2 by (apply zlen_take_min; lia).
  assert (zlen (blit m s (K ++ [0])) = zlen m) as E1 by (apply zlen_blit; [done|rewrite zlen_app; change (zlen [0]) with 1; lia]).
  unfold sn_write. cbn [c_s c_n wbuf]. rewrite !take_min. fold src.
  rewrite (sbind_Ok _ _ _ _ _ (cookie_put_spec (s + zlen K) (n - 1 - zlen K) wb src (blit m s (K ++ [0])) ltac:(lia) ltac:(lia))). cbn [c_n]. rewrite take_min. fold src2.
  assert (zlen (blit (blit m s (K ++ [0])) (s + zlen K) src) = zlen m) as E2 by (rewrite zlen_blit; lia).
  rewrite (sbind_Ok _ _ _ _ _ (cookie_put_spec (s + zlen K + zlen src) _ wb src2 (blit (blit m s (K ++ [0])) (s + zlen K) src) ltac:(lia) ltac:(lia))).
  rewrite blit_blit by (rewrite ?zlen_app; lia). unfold terminate, sbind, store8. cbn [c_s].
  assert (zlen (blit (blit m s (K ++ [0])) (s + zlen K) (src ++ src2)) = zlen m) as E3 by (rewrite zlen_blit; rewrite ?zlen_app; lia).
  rewrite E3. decide_cmp. cbn [andb obind fst snd sret c_s c_n].
  assert (kept n (text ++ wb ++ x) = K ++ src ++ src2) as Ek.
  { rewrite app_assoc, kept_app, kept_app by lia. fold K src. rewrite <- app_assoc. do 2 f_equal. rewrite zlen_app.
    unfold src2. do 2 f_equal. lia. }
  rewrite Ek. pose proof (blit_extend m s K (src ++ src2) H0 ltac:(rewrite !zlen_app; lia)) as Hx.
  rewrite app_assoc in Hx |- *. rewrite <- Hx. rewrite !zlen_app. change (u8 0) with 0. unfold sret.
  replace (s + (zlen K + zlen src + zlen src2)) with (s + zlen K + zlen src + zlen src2) by lia.
  by replace (n - 1 - (zlen K + zlen src + zlen src2)) with (n - 1 - zlen K - zlen src - zlen src2) by lia.
Qed.

Lemma sn_outs_spec chunks : forall text wb, exists text' wb', text' ++ wb' = text ++ wb ++ concat chunks /\
  sn_outs (cookie_at s n text wb) chunks (stored s n m text) = Ok (cookie_at s n text' wb', stored s n m text').
Proof using Hn Hs.
  induction chunks as [|x chunks IH]; intros text wb; [exists text, wb; split; [cbn; by rewrite app_nil_r|done]|].
  cbn [sn_outs concat]. unfold sn_out at 1. destruct (_ <? _).
  - rewrite (sbind_Ok _ _ _ _ _ (sn_write_spec text wb x)). destruct (IH (text ++ wb ++ x) []) as (t & w & E & ->).
    exists t, w. split; [|done]. rewrite E. cbn. by rewrite <- !app_assoc.
  - destruct (IH text (wb ++ x)) as (t & w & E & Er). exists t, w. split; [by rewrite E, <- !app_assoc|]. rewrite <- Er. unfold cookie_at.
    by destruct (n =? 0).
Qed.

(** All the output, in any chunks: it is cut at the end of the buffer, and terminated. *)
Lemma sn_all_spec chunks :
  exists c, (let* c := sn_outs (cookie_at s n [] []) chunks in sn_write c []) (stored s n m []) = Ok (c, stored s n m (concat chunks)).
Proof using Hn Hs.
  destruct (sn_outs_spec chunks [] []) as (t & w & E & Er). rewrite (sbind_Ok _ _ _ _ _ Er), sn_write_spec.
  cbn [app] in E. rewrite app_nil_r, E. by eexists.
Qed.
End Buffer.

(** * vsnprintf *)

Lemma terminate_start s n m : n = 0 \/ (0 <= s /\ s + n <= zlen m) -> 0 <= n ->
  terminate (if ctrue n then Sn (Some s) (n - 1) [] else Sn None 0 []) m = Ok (tt, stored s n m []) /\
  (if ctrue n then Sn (Some s) (n - 1) [] else Sn None 0 []) = cookie_at s n [] [].
Proof.
  intros Hs Hn. unfold ctrue, cookie_at, stored. destruct (Z.eqb_spec n 0) as [-> |Hne]; [done|]. destruct Hs as [|[H0 Hl]]; [done|].
  unfold kept. rewrite take_nil. change (zlen []) with 0. cbn [negb app]. split; [|by rewrite Z.add_0_r, Z.sub_0_r].
  unfold terminate, store8. cbn [c_s]. decide_cmp. cbn [andb]. do 2 f_equal.
  assert (zlen (blit m s [0]) = zlen m) as E by (apply zlen_blit; [done|change (zlen [0]) with 1; lia]).
  apply memory_ext; [by rewrite zlen_insert|]. rewrite zlen_insert. intros x Hx.
  rewrite byte_store, byte_blit by (change (zlen [0]) with 1; lia). change (zlen [0]) with 1.
  destruct (Z.eqb_spec x s) as [-> |]; repeat case_cmp; cbn [andb]; try lia; try done. by rewrite Z.sub_diag.
Qed.

Lemma wf_stored s n m : n = 0 \/ (0 <= s /\ s + n <= zlen m) -> 0 <= n -> wf_memory m -> wf_memory (stored s n m []).
Proof.
  intros Hs Hn Hm. unfold stored. destruct (Z.eqb_spec n 0); [done|]. unfold kept. rewrite take_nil.
  apply retyped_blit; [lia|change (zlen ([] ++ [0])) with 1; lia| |done]. intros _. repeat constructor; lia.
Qed.

(** The strings to print are not in the buffer. *)
Definition apart (s n : Z) (p : piece) : Prop :=
  match p with Conv _ _ _ (CStr a text) => a + zlen text < s \/ s + n <= a | _ => True end.

Lemma piece_ok_stored s n m p : n = 0 \/ (0 <= s /\ s + n <= zlen m) -> 0 <= n -> apart s n p -> piece_ok m p -> piece_ok (stored s n m []) p.
Proof.
  intros Hs Hn Ha Hp. unfold stored. destruct (Z.eqb_spec n 0) as [|Hne]; [done|]. destruct Hs as [|[H0 Hl]]; [done|].
  destruct p as [c| |fs w p k]; try done. destruct Hp as (Hf & Hw & Hp & Hk). split_and!; try done.
  destruct k as [| | |a text| |]; try done. cbn in *. destruct Hk as (Ha0 & H1 & H2 & H3 & H4). split; [done|].
  unfold kept. rewrite take_nil. cbn [app].
  assert (zlen (blit m s [0]) = zlen m) as E by (apply zlen_blit; [done|change (zlen [0]) with 1; lia]).
  split_and!; try done; [by rewrite E|]. intros i Hi. rewrite <- H4 by done. rewrite byte_blit by (change (zlen [0]) with 1; lia).
  change (zlen [0]) with 1. repeat case_cmp; cbn [andb]; try lia; done.
Qed.

Lemma vsnprintf_value utf8 strerror junk s n ps rest m e :
  wf_memory m -> 0 <= n <= INT_MAX -> n = 0 \/ (0 <= s /\ s + n <= zlen m) -> Forall (fun c => 0 < c < 256) (strerror e) ->
  Forall (piece_ok m) ps -> Forall (apart s n) ps -> let text := meaning_all (strerror e) ps in
  exists ret m' e', vsnprintf utf8 strerror junk s n (render_all ps) (args_all ps ++ rest) (m, e) = Ok (ret, (m', e')) /\
    if zlen text <=? INT_MAX then ret = zlen text /\ m' = stored s n m text /\ e' = e
    else ret = -1 /\ e' = EOVERFLOW /\ exists t, m' = stored s n m t.
Proof.
  intros Hm [Hn Hmax] Hs He Hok Hap text. destruct (terminate_start s n m Hs Hn) as [Et Ec].
  assert (Forall (piece_ok (stored s n m [])) ps) as Hok'.
  { rewrite Forall_forall in *. intros p Hp. apply piece_ok_stored; auto. }
  unfold vsnprintf. rewrite (proj2 (Z.ltb_ge INT_MAX n)) by lia. rewrite Et, Ec. cbn [obind fst snd].
  unfold first_pass, printf_core. set (st := start junk (stored s n m []) (args_all ps ++ rest) e).
  destruct (core_first utf8 strerror (strerror e) (S (length (render_all ps))) ps 0 0 (u64 junk) st) as [E1|[Hbig E1]]; try (done || lia).
  2:{ rewrite (sbind_Ok _ _ _ _ _ E1). cbn. eexists _, _, _. split; [done|]. fold text in Hbig. rewrite (proj2 (Z.leb_gt _ _)) by lia.
      split_and!; [done|done|by exists []]. }
  rewrite (sbind_Ok _ _ _ _ _ E1). cbn [obind sret Z.leb Z.compare].
  pose proof (core_out utf8 strerror (S (length (render_all ps))) ps 0 0 (u64 junk) st rest ltac:(lia) ltac:(lia) ltac:(lia)
    (wf_stored s n m Hs Hn Hm) He Hok' eq_refl) as Hcore. cbv zeta in Hcore. change (errno st) with e in Hcore. fold text in Hcore.
  replace (0 + 0 + zlen text) with (zlen text) in Hcore by lia. unfold core_result in Hcore. destruct (zlen text <=? INT_MAX).
  - destruct Hcore as (cs & -> & Hcs). cbn [obind with_outs with_ap outs memory_ errno st start app].
    destruct (sn_all_spec s n m Hn Hs cs) as (c & E). unfold sbind in E. destruct (sn_outs _ cs _) as [[c1 m1]| | |]; try done.
    cbn [obind fst snd] in E |- *. rewrite E. cbn [obind]. eexists _, _, _. split; [done|]. by rewrite Hcs.
  - destruct Hcore as (st' & -> & Hmem & Herr). cbn [obind]. rewrite Hmem. change (memory_ st) with (stored s n m []).
    destruct (sn_all_spec s n m Hn Hs (outs st')) as (c & E). unfold sbind in E. destruct (sn_outs _ (outs st') _) as [[c1 m1]| | |]; try done.
    cbn [obind fst snd] in E |- *. rewrite E. cbn [obind]. eexists _, _, _. split; [done|]. rewrite Herr. by eauto.
Qed.

(** C28: for every format of characters, [%%] and conversions (any flags, width,
    precision, star and length modifier; [d], [i], [o], [u], [x], [X], [p], [c], [s],
    [m]) and the arguments it asks for, [vsnprintf] stores the text that the format
    means, cut to the size and terminated, changes no other byte, and
    returns the length of the whole text; when that does not fit an [int] it returns -1
    with [EOVERFLOW] and still writes only into the buffer.  No call reads or writes
    out of bounds, whatever [printf_core]'s local buffers. *)
Theorem vsnprintf_correct utf8 strerror junk s n ps rest m e :
  wf_memory m -> 0 <= n <= INT_MAX -> n = 0 \/ (0 <= s /\ s + n <= zlen m) -> Forall (fun c => 0 < c < 256) (strerror e) ->
  Forall (piece_ok m) ps -> Forall (apart s n) ps -> let text := meaning_all (strerror e) ps in
  exists ret m' e', vsnprintf utf8 strerror junk s n (render_all ps) (args_all ps ++ rest) (m, e) = Ok (ret, (m', e')) /\
    if zlen text <=? INT_MAX then ret = zlen text /\ m' = stored s n m text /\ e' = e
    else ret = -1 /\ e' = EOVERFLOW /\ exists t, m' = stored s n m t.
Proof. apply vsnprintf_value. Qed.

(** [snprintf(s, 6, "%s=%+04d%%", "ab", 7)] where ["ab"] is at address 4: the text is longer than the room. *)
Lemma vsnprintf_correct_witness :
  let m := [0; 0; 0; 0; 97; 98; 0; 0] ++ replicate 16 1 in
  let ps := [Conv [] WNone PNone (CStr 4 [97; 98]); Char 61; Conv [ch "+"; ch "0"] (WNum 4) PNone (CInt Lnone (ch "d") 7); Percent] in
  render_all ps = [37; 115; 61; 37; 43; 48; 52; 100; 37; 37] /\ meaning_all [] ps = [97; 98; 61; 43; 48; 48; 55; 37] /\
  exists m' e', vsnprintf true (fun _ => []) 7 8 6 (render_all ps) (args_all ps ++ []) (m, 0) = Ok (8, (m', e')) /\
    m' = stored 8 6 m [97; 98; 61; 43; 48; 48; 55; 37].
Proof.
  intros m ps. split; [by vm_compute|]. split; [by vm_compute|].
  destruct (vsnprintf_correct true (fun _ => []) 7 8 6 ps [] m 0) as (ret & m' & e' & E & H).
  - split; [|by vm_compute|by vm_compute]. unfold m. cbn. repeat constructor; lia.
  - by vm_compute.
  - right. split; [lia|by vm_compute].
  - constructor.
  - unfold ps. repeat constructor; cbn; try lia; try set_solver; try done. intros i Hi. change (zlen [97; 98]) with 2 in Hi.
    assert (i = 0 \/ i = 1 \/ i = 2) as [-> |[-> | ->]] by lia; reflexivity.
  - unfold ps. repeat constructor.
  - cbn zeta in H. change (zlen (meaning_all [] ps)) with 8 in H. cbn [Z.leb Z.compare] in H. exists m', e'. rewrite E. destruct H as (-> & -> & _).
    split; [done|]. by vm_compute.
Defined.
