(* ===== verification/PrintfScan.v ===== *)
(** Printing and reading back: what the integer conversions of printf write, the
    [strtol] family reads as the number printed. *)

From Stdlib Require Import Ascii.
From S2P Require Import Prelude Memory Strings Intscan IntscanSpec Printf PrintfSpec.

(** * Digits *)

Lemma val_digit_char u d : 0 <= d < 16 -> val (digit_char u d) = d /\ 48 <= digit_char u d < 128 /\ isspace (digit_char u d) = false.
Proof.
  intros Hd. destruct u.
  - pose proof (forall_below (fun d => (val (digit_char true d) =? d) && (48 <=? digit_char true d) && (digit_char true d <? 128) &&
      negb (isspace (digit_char true d))) 16 eq_refl d Hd) as H. cbv beta in H. bool_hyps. done.
  - pose proof (forall_below (fun d => (val (digit_char false d) =? d) && (48 <=? digit_char false d) && (digit_char false d <? 128) &&
      negb (isspace (digit_char false d))) 16 eq_refl d Hd) as H. cbv beta in H. bool_hyps. done.
Qed.

(** The digits printed denote the number. *)
Lemma num_numeral_text u b x : 2 <= b <= 16 -> 0 <= x -> num b (numeral_text u b x) = x.
Proof.
  intros Hb Hx. unfold numeral_text. apply (digits_ind b (fun x ds => num b (map (digit_char u) ds) = x)); [lia|done| |done].
  intros y Hy Hd IH. rewrite map_app. cbn [map]. rewrite num_app, IH.
  pose proof (Z.mod_pos_bound y b ltac:(lia)). destruct (val_digit_char u (y mod b)) as [-> _]; [lia|].
  pose proof (Z.div_mod y b ltac:(lia)). lia.
Qed.

Lemma num_zeros b k ds : num b (replicate k (ch "0") ++ ds) = num b ds.
Proof. induction k as [|k IH]; [done|]. exact IH. Qed.

(** A text of digits of a base. *)
Definition digit_text (b : Z) (ds : list Z) : Prop := Forall (fun c => is_digit b c = true /\ isspace c = false /\ 48 <= c < 128) ds.

Lemma digit_text_numeral u b x : 2 <= b <= 16 -> 0 <= x -> digit_text b (numeral_text u b x).
Proof.
  intros Hb Hx. unfold digit_text, numeral_text. apply Forall_map. eapply Forall_impl; [apply digits_range; lia|].
  intros d Hd. cbn in *. destruct (val_digit_char u d) as (E & Hr & Hsp); [lia|]. split_and!; try done; [|lia|lia].
  unfold is_digit. rewrite E. apply Z.ltb_lt. lia.
Qed.

Lemma digit_text_zeros b k : 2 <= b -> digit_text b (replicate k (ch "0")).
Proof. intros. apply Forall_replicate. split_and!; try done. unfold is_digit. apply Z.ltb_lt. change (val 48) with 0. lia. Qed.

(** The digits of an integer conversion. *)
Lemma int_digits_text alt lim c x : c ∈ [ch "d"; ch "i"; ch "o"; ch "u"; ch "x"; ch "X"] ->
  digit_text (base_of c) (int_digits alt lim c x) /\ num (base_of c) (int_digits alt lim c x) = Z.abs x.
Proof.
  intros Hc. assert (2 <= base_of c <= 16) as Hb by (unfold base_of; repeat case_match; lia).
  unfold int_digits. set (a := numeral_text _ _ _). assert (digit_text (base_of c) a) as Ha by (apply digit_text_numeral; lia).
  assert (num (base_of c) a = Z.abs x) as Hn by (apply num_numeral_text; lia).
  assert (digit_text (base_of c) (zero_extend (match lim with Some n => n | None => 1 end) a)) as Hz.
  { unfold zero_extend. apply Forall_app. split; [by apply digit_text_zeros; lia|done]. }
  assert (num (base_of c) (zero_extend (match lim with Some n => n | None => 1 end) a) = Z.abs x) as Hzn.
  { unfold zero_extend. by rewrite num_zeros. }
  destruct (_ && negb _); [|done]. split; [|exact Hzn]. apply Forall_cons. split; [|done].
  pose proof (digit_text_zeros (base_of c) 1 ltac:(lia)) as Hz1. by apply Forall_cons in Hz1 as [? _].
Qed.

(** * Numerals in a field *)

Definition starts_with_not {A} (p : A -> bool) (s : list A) : Prop := match s with c :: _ => p c = false | [] => True end.

Lemma span_app {A} (p : A -> bool) a s : Forall (fun c => p c = true) a -> starts_with_not p s -> span p (a ++ s) = a.
Proof.
  intros Ha Hs. induction Ha as [|c a Hc _ IH]; cbn [app span].
  - destruct s as [|c s]; [done|]. cbn in *. by rewrite Hs.
  - by rewrite Hc, IH.
Qed.

Section Numeral.
Context (base : Z) (D : list Z) (a b : nat) (Hb : 2 <= base <= 16) (HD : digit_text base D) (HD0 : D <> []).

Lemma digits_then_spaces : span (is_digit base) (D ++ replicate b (ch " ")) = D.
Proof using HD Hb.
  apply span_app; [eapply Forall_impl; [exact HD|by intros c [? _]]|]. destruct b; [done|]. cbn [replicate starts_with_not].
  unfold is_digit. apply Z.ltb_ge. change (val 32) with 255. lia.
Qed.

(** A hexadecimal prefix is not among the digits. *)
Lemma no_hex_prefix : (Z.lor (schar (D ++ replicate b (ch " ")) 1) 32 =? 120) = false.
Proof using HD HD0 Hb.
  apply Z.eqb_neq. intros Hx. destruct D as [|d D']; [done|]. apply Forall_cons in HD as [_ HD'].
  unfold schar in Hx. change (Z.to_nat 1) with 1%nat in Hx. cbn [app nth] in Hx. destruct D' as [|d' D'].
  - cbn [app] in Hx. by destruct b.
  - apply Forall_cons in HD' as [(Hd & _ & Hr) _]. cbn [app nth] in Hx. unfold is_digit in Hd. apply Z.ltb_lt in Hd.
    pose proof (forall_below (fun c => negb (Z.lor c 32 =? 120) || (16 <=? val c)) 256 ltac:(vm_compute; reflexivity) d' ltac:(lia)) as Q.
    cbv beta in Q. rewrite Hx, Z.eqb_refl in Q. cbn [negb orb] in Q. bool_hyps. lia.
Qed.

Lemma digit_head : exists d D', D = d :: D' /\ isspace d = false /\ 48 <= d < 128.
Proof using HD HD0. destruct D as [|d D']; [done|]. apply Forall_cons in HD as [(_ & Hs & Hr) _]. eauto. Qed.

(** Spaces, a sign, and digits. *)
Lemma numeral_signed sign : sign ∈ [[]; [ch "+"]; [ch "-"]] ->
  numeral base (replicate a (ch " ") ++ sign ++ D ++ replicate b (ch " ")) =
  Some (bool_decide (sign = [ch "-"]), num base D, Z.of_nat a + zlen sign + zlen D).
Proof using HD HD0 Hb.
  intros Hsign. destruct digit_head as (d & D' & ED & Hsp & Hr). unfold numeral.
  assert (span isspace (replicate a (ch " ") ++ sign ++ D ++ replicate b (ch " ")) = replicate a (ch " ")) as ->.
  { apply span_app; [by apply Forall_replicate|]. rewrite !elem_of_cons, elem_of_nil in Hsign.
    destruct Hsign as [-> |[-> |[-> |[]]]]; [rewrite ED; exact Hsp|done..]. }
  assert (zlen (replicate a (ch " ")) = Z.of_nat a) as -> by (unfold zlen; by rewrite length_replicate).
  assert (forall s, schar (replicate a (ch " ") ++ s) (Z.of_nat a) = schar s 0) as Hc.
  { intros s. unfold schar. rewrite !nth_lookup, lookup_app_r by (rewrite length_replicate; lia). rewrite length_replicate. do 2 f_equal. lia. }
  assert (forall k, drop (Z.to_nat (Z.of_nat a + Z.of_nat k)) (replicate a (ch " ") ++ sign ++ D ++ replicate b (ch " ")) = drop k (sign ++ D ++ replicate b (ch " "))) as Hdrop.
  { intros k. rewrite drop_app, length_replicate. rewrite drop_ge by (rewrite length_replicate; lia). cbn [app]. f_equal. lia. }
  rewrite Hc. pose proof digits_then_spaces as Hspan. pose proof no_hex_prefix as Hx.
  assert (base <> 0) as Hb0 by lia. rewrite (proj2 (Z.eqb_neq base 0) Hb0). cbn [orb].
  rewrite !elem_of_cons, elem_of_nil in Hsign. destruct Hsign as [-> |[-> |[-> |[]]]]; cbn [app].
  - assert (schar (D ++ replicate b 32) 0 = d) as -> by (by rewrite ED). rewrite (proj2 (Z.eqb_neq d 43)), (proj2 (Z.eqb_neq d 45)) by lia. cbn [orb].
    specialize (Hdrop O). rewrite Z.add_0_r in Hdrop. cbn [app drop] in Hdrop. rewrite skipn_O in Hdrop. rewrite Hdrop, Hx, !andb_false_r, Hspan.
    change (zlen (@nil Z)) with 0. rewrite Z.add_0_r. by destruct D.
  - rewrite schar_head. cbn [Z.eqb Pos.eqb orb]. specialize (Hdrop 1%nat). change (Z.of_nat 1) with 1 in Hdrop.
    cbn [app drop] in Hdrop. rewrite skipn_O in Hdrop. rewrite Hdrop, Hx, !andb_false_r, Hspan.
    change (zlen [43]) with 1. by destruct D.
  - rewrite schar_head. cbn [Z.eqb Pos.eqb orb]. specialize (Hdrop 1%nat). change (Z.of_nat 1) with 1 in Hdrop.
    cbn [app drop] in Hdrop. rewrite skipn_O in Hdrop. rewrite Hdrop, Hx, !andb_false_r, Hspan.
    change (zlen [45]) with 1. by destruct D.
Qed.

(** Spaces, a hexadecimal prefix, and digits. *)
Lemma numeral_hex c : base = 16 -> c ∈ [ch "x"; ch "X"] ->
  numeral base (replicate a (ch " ") ++ [ch "0"; c] ++ D ++ replicate b (ch " ")) = Some (false, num base D, Z.of_nat a + 2 + zlen D).
Proof using HD HD0 Hb.
  intros Hbase Hc. assert (Z.lor c 32 = 120) as Hx by (rewrite !elem_of_cons, elem_of_nil in Hc; by destruct Hc as [-> |[-> |[]]]).
  unfold numeral.
  assert (span isspace (replicate a (ch " ") ++ [ch "0"; c] ++ D ++ replicate b (ch " ")) = replicate a (ch " ")) as ->.
  { apply span_app; [by apply Forall_replicate|done]. }
  assert (zlen (replicate a (ch " ")) = Z.of_nat a) as -> by (unfold zlen; by rewrite length_replicate).
  assert (schar (replicate a (ch " ") ++ [ch "0"; c] ++ D ++ replicate b (ch " ")) (Z.of_nat a) = ch "0") as ->.
  { unfold schar. rewrite nth_lookup, lookup_app_r by (rewrite length_replicate; lia). rewrite length_replicate.
    by replace (Z.to_nat (Z.of_nat a) - a)%nat with O by lia. }
  cbn [Z.eqb Pos.eqb orb].
  assert (drop (Z.to_nat (Z.of_nat a)) (replicate a (ch " ") ++ [ch "0"; c] ++ D ++ replicate b (ch " ")) = ch "0" :: c :: D ++ replicate b (ch " ")) as ->.
  { rewrite Nat2Z.id, drop_app_length'; [done|by rewrite length_replicate]. }
  rewrite schar_head. change (schar (ch "0" :: c :: D ++ replicate b (ch " ")) 1) with c. rewrite Hx.
  assert (is_digit 16 (schar (ch "0" :: c :: D ++ replicate b (ch " ")) 2) = true) as ->.
  { destruct D as [|d D']; [done|]. apply Forall_cons in HD as [(Hd & _) _]. by rewrite Hbase in Hd. }
  rewrite Hbase. cbn [Z.eqb Pos.eqb orb andb drop]. rewrite skipn_O. pose proof digits_then_spaces as Hs. rewrite Hbase in Hs. by rewrite Hs.
Qed.
End Numeral.

(** The parts of a field. *)
Lemma justify_parts left zero w prefix ds : exists a b z,
  justify left zero w prefix ds = replicate a (ch " ") ++ prefix ++ (replicate z (ch "0") ++ ds) ++ replicate b (ch " ").
Proof.
  unfold justify. destruct left; [|destruct zero].
  - exists O, (Z.to_nat (w - zlen (prefix ++ ds))), O. done.
  - exists O, O, (Z.to_nat (w - zlen (prefix ++ ds))). by rewrite app_nil_r.
  - exists (Z.to_nat (w - zlen (prefix ++ ds))), O, O. by rewrite app_nil_r.
Qed.

Lemma limit_nonneg p k : prec_ok p -> limit p = Some k -> 0 <= k.
Proof. intros Hp E. pose proof (prec_is_limit p Hp) as H. rewrite E in H. cbn in H. lia. Qed.

Lemma int_digits_nonempty alt p c x : prec_ok p -> 2 <= base_of c -> x <> 0 \/ limit p <> Some 0 -> int_digits alt (limit p) c x <> [].
Proof.
  intros Hp Hb Hx. unfold int_digits. fold (least (limit p)). set (a := numeral_text _ _ _).
  destruct (_ && negb _); [done|]. intros E%(f_equal zlen). rewrite zlen_zero_extend in E. change (zlen []) with 0 in E.
  pose proof (zlen_nonneg a). destruct (Z.eq_dec x 0) as [E0|E0].
  - destruct Hx as [|Hx]; [done|]. destruct (limit p) as [k|] eqn:El; cbn [least] in E; [|lia]. pose proof (limit_nonneg p k Hp El).
    assert (k <> 0) by congruence. lia.
  - pose proof (numeral_text_nonempty (c =? ch "X") (base_of c) (Z.abs x) Hb ltac:(lia)) as Hl. fold a in Hl. lia.
Qed.

(** The text of an integer conversion reads as its number. *)
Lemma meaning_numeral err fs w p ln c v : prec_ok p -> c ∈ [ch "d"; ch "i"; ch "o"; ch "u"; ch "x"; ch "X"] ->
  let x := value_of ln c v in x <> 0 \/ limit p <> Some 0 ->
  exists e, numeral (base_of c) (meaning err (Conv fs w p (CInt ln c v))) = Some (x <? 0, Z.abs x, e).
Proof.
  intros Hp Hc x Hx. assert (2 <= base_of c <= 16) as Hb by (unfold base_of; repeat case_match; lia).
  cbn [meaning]. fold x. destruct (int_digits_text (flag fs (ch "#")) (limit p) c x Hc) as [Hd Hn].
  pose proof (int_digits_nonempty (flag fs (ch "#")) p c x Hp ltac:(lia) Hx) as H0. set (ds := int_digits _ _ _ _) in *.
  destruct (justify_parts (at_left fs w) (flag fs (ch "0") && negb (bool_decide (is_Some (limit p)))) (field w) (int_prefix fs c x) ds)
    as (a & b & z & ->). set (D := replicate z (ch "0") ++ ds).
  assert (digit_text (base_of c) D) as HD by (apply Forall_app; split; [by apply digit_text_zeros; lia|done]).
  assert (num (base_of c) D = Z.abs x) as HDn by (unfold D; by rewrite num_zeros).
  assert (D <> []) as HD0 by (unfold D; by destruct z).
  pose proof (numeral_signed (base_of c) D) as Hs. unfold int_prefix. pose proof (value_range ln c v) as Hr. fold x in Hr. unfold int_range in Hr.
  destruct (is_signed c) eqn:Esg.
  - destruct (Z.ltb_spec x 0); [|destruct (flag fs (ch "+")); [|destruct (flag fs (ch " "))]].
    + rewrite Hs by (done || set_solver). rewrite HDn. by eexists.
    + rewrite Hs by (done || set_solver). rewrite HDn. by eexists.
    + assert (replicate a (ch " ") ++ [ch " "] ++ D ++ replicate b (ch " ") = replicate (a + 1) (ch " ") ++ [] ++ D ++ replicate b (ch " ")) as ->
        by (by rewrite replicate_add, <- app_assoc). rewrite Hs by (done || set_solver). rewrite HDn. by eexists.
    + rewrite Hs by (done || set_solver). rewrite HDn. by eexists.
  - rewrite (proj2 (Z.ltb_ge x 0)) by (unfold in_u in Hr; lia).
    destruct (flag fs (ch "#") && negb (x =? 0) && (base_of c =? 16)) eqn:Eh.
    + bool_hyps. rewrite (numeral_hex (base_of c) D a b Hb HD HD0 c) by (done || (unfold base_of in *; rewrite !elem_of_cons, elem_of_nil in *; repeat case_match; bool_hyps; lia)).
      rewrite HDn. by eexists.
    + rewrite Hs by (done || set_solver). rewrite HDn. by eexists.
Qed.

(** * Printing and reading back *)

Lemma meaning_cstring err fs w p ln c v : c ∈ [ch "d"; ch "i"; ch "o"; ch "u"; ch "x"; ch "X"] ->
  cstring (meaning err (Conv fs w p (CInt ln c v))).
Proof.
  intros Hc. cbn [meaning]. set (x := value_of ln c v). destruct (int_digits_text (flag fs (ch "#")) (limit p) c x Hc) as [Hd _].
  set (ds := int_digits _ _ _ _) in *. destruct (justify_parts (at_left fs w) (flag fs (ch "0") && negb (bool_decide (is_Some (limit p)))) (field w) (int_prefix fs c x) ds)
    as (a & b & z & ->). unfold cstring. rewrite !Forall_app. split_and!.
  1,3,5: apply Forall_replicate; lia.
  - rewrite !elem_of_cons, elem_of_nil in Hc. unfold int_prefix. repeat case_match; repeat constructor; lia.
  - eapply Forall_impl; [exact Hd|]. cbn. lia.
Qed.

Lemma cstr_stored s n m text : 0 <= s -> s + n <= zlen m -> zlen text < n -> cstring text -> cstr (stored s n m text) s text.
Proof.
  intros Hs Hn Hl Hc. pose proof (zlen_nonneg text) as Hz. unfold stored. rewrite (proj2 (Z.eqb_neq n 0)) by lia.
  unfold kept. rewrite take_zlen by lia. assert (zlen (text ++ [0]) = zlen text + 1) as E by (by rewrite zlen_app).
  split_and!; [done|rewrite zlen_blit; lia|done|]. intros i Hi. rewrite byte_blit by lia. decide_cmp. cbn [andb].
  replace (s + i - s) with i by lia. unfold schar, zlen in *. rewrite !nth_lookup. destruct (decide (i = Z.of_nat (length text))) as [-> |].
  - rewrite lookup_app_r by lia. replace (Z.to_nat (Z.of_nat (length text)) - length text)%nat with O by lia.
    cbn. by rewrite lookup_ge_None_2 by lia.
  - by rewrite lookup_app_l by lia.
Qed.

(** Round trip: what an integer conversion (any flags, width, precision and length
    modifier) prints into a buffer that is large enough is a C string from which the
    [strtol] function of the type, in the base of the conversion, reads the value
    back exactly.  The exception is 0 with precision 0, which prints no digit. *)
Theorem printf_strtol utf8 strerror junk s n fs w p ln c v rest m e :
  let P := Conv fs w p (CInt ln c v) in let x := value_of ln c v in let text := meaning (strerror e) P in
  wf_memory m -> 0 <= s -> n <= INT_MAX -> s + n <= zlen m -> zlen text < n -> cstring (strerror e) ->
  piece_ok m P -> x <> 0 \/ limit p <> Some 0 ->
  exists m' i, vsnprintf utf8 strerror junk s n (render P) (args P ++ rest) (m, e) = Ok (zlen text, (m', e)) /\ cstr m' s text /\
    if is_signed c
    then strtoll text (base_of c) = Ok (x, None, i) /\ (bits ln <= 32 -> strtol text (base_of c) = Ok (x, None, i))
    else strtoull text (base_of c) = Ok (x, None, i) /\ (bits ln <= 32 -> strtoul text (base_of c) = Ok (x, None, i)).
Proof.
  intros P x text Hm Hs Hmax Hn Hl He HP Hx. destruct HP as (Hf & Hw & Hp & Hc). pose proof (zlen_nonneg text) as Hz.
  destruct (vsnprintf_value utf8 strerror junk s n [P] rest m e Hm ltac:(lia) ltac:(lia) He) as (ret & m' & e' & E & H).
  { apply Forall_singleton. done. } { apply Forall_singleton. done. }
  unfold render_all, args_all, meaning_all in E, H. cbn [map concat] in E, H. rewrite !app_nil_r in H. rewrite (app_nil_r (render P)), (app_nil_r (args P)) in E. fold text in H.
  rewrite (proj2 (Z.leb_le _ _)) in H by lia. destruct H as (-> & -> & ->).
  assert (cstring text) as Hcs by (by apply meaning_cstring).
  destruct (meaning_numeral (strerror e) fs w p ln c v Hp Hc Hx) as (i & Ei). fold P x text in Ei.
  exists (stored s n m text), i. split; [done|]. split; [by apply cstr_stored|].
  destruct (strtol_values text (base_of c) Hcs) as (H1 & H2 & H3 & H4); [right; unfold base_of; repeat case_match; lia|].
  rewrite H1, H2, H3, H4. unfold parse. rewrite Ei. pose proof (value_range ln c v) as Hr. fold x in Hr. unfold int_range in Hr.
  destruct (is_signed c) eqn:Esg.
  - assert ((if x <? 0 then - Z.abs x else Z.abs x) = x) as Ex by (case_cmp; lia).
    unfold to_signed. rewrite Ex. unfold in_s in Hr. change (64 - 1) with 63 in *. change (32 - 1) with 31. split; [by decide_cmp|].
    intros Hb. assert (in_s (bits ln) x) as Hr' by (unfold x, value_of; rewrite Esg; apply swrap_range; by destruct ln).
    assert (- 2 ^ 31 <= x < 2 ^ 31) by (destruct ln; cbn [bits] in *; bounds; lia). by decide_cmp.
  - unfold to_unsigned, in_u in *. rewrite (proj2 (Z.ltb_ge x 0)), Z.abs_eq by lia. split; [decide_cmp; by rewrite Z.mod_small by lia|].
    intros Hb. assert (0 <= x < 2 ^ bits ln) as Hr' by (unfold x, value_of; rewrite Esg; apply Z.mod_pos_bound; by destruct ln).
    assert (0 <= x < 2 ^ 32) by (destruct ln; cbn [bits] in *; bounds; lia). decide_cmp. by rewrite Z.mod_small by lia.
Qed.

(** [" -42"]: [snprintf(buf, 16, "%4d", -42)] and [strtol(buf, 0, 10)]. *)
Lemma printf_strtol_witness : let P := Conv [] (WNum 4) PNone (CInt Lnone (ch "d") (-42)) in
  exists m' i, vsnprintf true (fun _ => []) 7 8 16 (render P) (args P ++ []) (replicate 32 0, 0) = Ok (4, (m', 0)) /\
    cstr m' 8 [32; 45; 52; 50] /\ strtol [32; 45; 52; 50] 10 = Ok (-42, None, i).
Proof.
  intros P. destruct (printf_strtol true (fun _ => []) 7 8 16 [] (WNum 4) PNone Lnone (ch "d") (-42) [] (replicate 32 0) 0)
    as (m' & i & H1 & H2 & H3 & H4).
  - split; [apply Forall_replicate; lia|done|by vm_compute].
  - by vm_compute.
  - by vm_compute.
  - by vm_compute.
  - by vm_compute.
  - constructor.
  - split_and!; [constructor|by vm_compute|done|apply list_elem_of_here].
  - by right.
  - exists m', i. split; [exact H1|]. split; [exact H2|]. apply H4. by vm_compute.
Defined.
