(* ===== verification/PrintfFile.v ===== *)
(** Formatted output to streams ([libc-top-half/musl/src/stdio/]: vfprintf.c,
    vdprintf.c, vprintf.c): the output of [printf_core] goes to a [FILE] of Stdio
    and through it to the host's file. *)

From Stdlib Require Import Ascii.
From S2P Require Import Prelude Memory Syscalls Printf PrintfSpec Stdio StdioBuffer StdioRead StdioWrite StdioSpec.

Section Stream.
Context {S : Type} (host : forall X, wasi X -> S -> res X * S).
Context (utf8 : bool) (strerror : Z -> list Z) (junk : Z).
Notation io := (M (FILE * S)).

(** The calls of [out]: nothing is written after an error. *)
Definition stream_out (s : list Z) : io unit :=
  let* f := get_file in
  if has_flag F_ERR f then sret tt else do* __fwritex host s in sret tt.
Fixpoint stream_outs (l : list (list Z)) : io unit :=
  match l with [] => sret tt | s :: l => do* stream_out s in stream_outs l end.

(** [internal_buf], for a stream without a buffer; the bytes of pushback are not used in writing. *)
Definition lend_buffer (f : FILE) : FILE :=
  with_wr None None None (with_buf (replicate (Z.to_nat (UNGET + sizeof_internal_buf)) 0) sizeof_internal_buf (lbf f) f).
Definition return_buffer (m : list Z) (f : FILE) : FILE := with_wr None None None (with_buf m 0 (lbf f) f).

(** [if (!f->wend && __towrite(f)) ret = -1; else ret = printf_core(f, fmt, &ap2, nl_arg, nl_type);] *)
Definition second_pass (fmt : list Z) (st : pf) : io (Z * pf) :=
  let* no := no_write in
  if no : bool then sret (-1, st)
  else
    let* (r, st) := lift (printf_core utf8 strerror junk true fmt st) in
    do* stream_outs (outs st) in
    sret (r, st).

(** The result, with the memory and [errno] after the call. *)
Definition vfprintf (fmt : list Z) (args : list va) (m : list Z) (e : Z) : io (Z * (list Z * Z)) :=
  let* (ok, st) := lift (first_pass utf8 strerror junk fmt (start junk m args e)) in
  if negb ok then sret (-1, (memory_ st, errno st))
  else
    let* f := get_file in
    let olderr := Z.land (flags f) F_ERR in
    do* (if mode f <? 1 then upd (clear_flag F_ERR) else sret tt) in
    let saved := if buf_size f =? 0 then Some (Stdio.mem f) else None in
    do* match saved with Some _ => upd lend_buffer | None => sret tt end in
    let* (ret, st) := second_pass fmt st in
    let* ret := match saved with
      | None => sret ret
      | Some b =>
          do* write_call host [] in
          let* f := get_file in
          do* upd (return_buffer b) in
          sret (match wpos f with None => -1 | Some _ => ret end)
      end in
    let* f := get_file in
    do* upd (or_flag olderr) in
    sret (if has_flag F_ERR f then -1 else ret, (memory_ st, errno st)).

(** The stream that [vdprintf] makes on its stack; its buffer has no room. *)
Definition vdprintf_file (fd : Z) : FILE :=
  File 0 None None None None None __stdio_write_fn (replicate (Z.to_nat UNGET) 0) 0 fd 0 EOF.
Definition vdprintf (fd : Z) (fmt : list Z) (args : list va) (m : list Z) (e : Z) : M S (Z * (list Z * Z)) :=
  fun s => let! (r, st) := vfprintf fmt args m e (vdprintf_file fd, s) in Ok (r, snd st).
End Stream.

(** * Output to a regular file *)

Section Spec.
Context {S : Type} (host : forall X, wasi X -> S -> res X * S) (fdn : Z) (contents : S -> list Z) (pos : S -> Z) (appends : S -> bool).
Context `{!RegularFile host fdn contents pos appends} (nord : bool).
Context (utf8 : bool) (strerror : Z -> list Z) (junk : Z).
Notation winv := (winv fdn nord).
Notation accepted := (accepted contents pos appends).

Lemma stream_outs_error l f s : has_flag F_ERR f = true -> stream_outs host l (f, s) = Ok (tt, (f, s)).
Proof using Type*.
  intros He. induction l as [|x l IH]; [done|]. cbn [stream_outs]. rewrite (sbind_Ok _ _ _ tt (f, s)); [done|].
  unfold stream_out, sbind, get_file. cbn. by rewrite He.
Qed.

(** Either all the chunks are taken or the error indicator is set. *)
Lemma wp_stream_outs l : forall f s, winv f -> zlen (concat l) < 2 ^ 29 ->
  wp (stream_outs host l) (fun _ st' => let '(f', s') := st' in
    winv f' /\ (has_flag F_ERR f' = false -> accepted f s (concat l) f' s')) (f, s).
Proof using Type*.
  induction l as [|x l IH]; intros f s Hinv Hl.
  { apply wp_ret. split; [done|]. intros _. apply accepted_pending. by rewrite app_nil_r. }
  cbn [concat] in *. rewrite zlen_app in Hl. pose proof (zlen_nonneg x). pose proof (zlen_nonneg (concat l)).
  destruct (has_flag F_ERR f) eqn:He.
  { eexists _, _. split; [by apply stream_outs_error|]. split; [done|congruence]. }
  cbn [stream_outs]. apply wp_bind. unfold stream_out. apply wp_bind. eexists _, _. split; [reflexivity|]. cbn [fst]. rewrite He.
  apply wp_bind. eapply wp_mono; [apply (wp_fwritex host fdn contents pos appends nord f s x Hinv); lia|].
  intros r [f1 s1] [[_ [Hinv1 Ha]]|[_ [Hinv1 (_ & He1 & _)]]]; apply wp_ret.
  - eapply wp_mono; [by apply IH; [done|lia]|]. intros _ [f2 s2] [Hinv2 Hb]. split; [done|]. intros He2.
    eapply (accepted_trans host fdn contents pos appends); [exact Ha|by apply Hb].
  - eexists _, _. split; [by apply stream_outs_error|]. split; [done|congruence].
Qed.

(** Changes of the error flag keep the rest of the stream. *)
Lemma winv_flags f x : winv f -> Z.land x F_NOWR = Z.land (flags f) F_NOWR -> Z.land x F_NORD = Z.land (flags f) F_NORD -> winv (with_flags x f).
Proof using Type*.
  intros (Hst & [Hw Hr] & Hfd & Hbs & Hl) E1 E2. split_and!; try done.
  - unfold has_flag in *. cbn. by rewrite E1.
  - unfold has_flag in *. cbn. by rewrite E2.
Qed.
Lemma winv_clear f : winv f -> winv (clear_flag F_ERR f).
Proof using Type*. intros H. apply winv_flags; [done|..]; by rewrite <- Z.land_assoc. Qed.
Lemma winv_or f x : winv f -> winv (or_flag (Z.land x F_ERR) f).
Proof using Type*. intros H. apply winv_flags; [done|..]; rewrite Z.land_lor_distr_l, <- Z.land_assoc; cbn; by rewrite Z.land_0_r, Z.lor_0_r. Qed.

(** What a call of [vfprintf] leaves: all the text, or the error indicator. *)
Definition printed (f : FILE) (s : S) (text : list Z) (ret : Z) (st' : FILE * S) : Prop :=
  let '(f', s') := st' in
  (if buf_size f =? 0 then pend f' = [] else winv f') /\ (ret = zlen text /\ accepted f s text f' s' \/ ret = -1 /\ has_flag F_ERR f' = true).

(** The second pass and what follows, on a stream with a buffer. *)
Lemma wp_second_pass f s st fmt text cs st1 : winv f -> zlen text < 2 ^ 29 ->
  printf_core utf8 strerror junk true fmt st = Ok (zlen text, st1) -> outs st1 = cs -> concat cs = text ->
  wp (second_pass host utf8 strerror junk fmt st)
    (fun r st' => let '(f', s') := st' in r = (zlen text, st1) /\ winv f' /\
      (has_flag F_ERR f' = false -> accepted f s text f' s')) (f, s).
Proof using Type*.
  intros Hinv Hl Hcore Ho Hcs. apply wp_bind. eapply (wp_no_write fdn nord); [done|]. intros f1 Hinv1 _ Hp1 _ _ _.
  apply wp_bind. eapply wp_lift; [exact Hcore|]. apply wp_bind. rewrite Ho. subst text.
  eapply wp_mono; [by apply wp_stream_outs|]. intros _ [f2 s2] [Hinv2 Ha]. apply wp_ret. split_and!; [done|done|].
  intros He. destruct (Ha He) as (x & Ex & Hx). exists x. by rewrite <- Hp1.
Qed.

(** The format, its passes and their output. *)
Lemma format_passes ps rest m e : wf_memory m -> Forall (fun c => 0 < c < 256) (strerror e) -> Forall (piece_ok m) ps ->
  let text := meaning_all (strerror e) ps in zlen text < 2 ^ 29 -> let st := start junk m (args_all ps ++ rest) e in
  first_pass utf8 strerror junk (render_all ps) st = Ok (true, st) /\
  exists st1, printf_core utf8 strerror junk true (render_all ps) st = Ok (zlen text, st1) /\ concat (outs st1) = text /\
    memory_ st1 = m /\ errno st1 = e.
Proof using Type*.
  intros Hm He Hok text Hl st. split.
  - unfold first_pass, printf_core.
    destruct (core_first utf8 strerror (strerror e) (Datatypes.S (length (render_all ps))) ps 0 0 (u64 junk) st) as [E1|[Hbig _]]; try (done || lia).
    + by rewrite (sbind_Ok _ _ _ _ _ E1).
    + fold text in Hbig. unfold INT_MAX in Hbig. lia.
  - pose proof (core_out utf8 strerror (Datatypes.S (length (render_all ps))) ps 0 0 (u64 junk) st rest ltac:(lia) ltac:(lia) ltac:(lia)
      Hm He Hok eq_refl) as Hcore. cbv zeta in Hcore. change (errno st) with e in Hcore. fold text in Hcore.
    replace (0 + 0 + zlen text) with (zlen text) in Hcore by lia. unfold core_result in Hcore.
    rewrite (proj2 (Z.leb_le _ _)) in Hcore by (unfold INT_MAX; lia). destruct Hcore as (cs & E & Hcs).
    eexists. split; [exact E|]. done.
Qed.

(** The end of the call. *)
Lemma wp_end f0 f s s' text ret olderr (m : list Z) (e : Z) : olderr = Z.land (flags f0) F_ERR -> 
  (if buf_size f0 =? 0 then pend f = [] else winv f) -> (has_flag F_ERR f = false -> ret = zlen text /\ accepted f0 s text f s') ->
  wp (let* f := get_file in do* upd (or_flag olderr) in sret (if has_flag F_ERR f then -1 else ret, (m, e)))
    (fun r st' => snd r = (m, e) /\ printed f0 s text (fst r) st') (f, s').
Proof using Type*.
  intros -> Hinv H. apply wp_bind. eexists _, _. split; [reflexivity|]. cbn [fst]. apply wp_bind. eexists _, _. split; [reflexivity|]. apply wp_ret.
  split; [done|]. cbn [fst snd]. split; [destruct (buf_size f0 =? 0); [done|by apply winv_or]|]. destruct (has_flag F_ERR f) eqn:E; [right|left].
  - split; [done|]. unfold has_flag, or_flag, ctrue in *. cbn. rewrite Z.land_lor_distr_l. apply negb_true_iff, Z.eqb_neq.
    apply negb_true_iff, Z.eqb_neq in E. intros [Hz _]%Z.lor_eq_0_iff. done.
  - by apply H.
Qed.

Lemma winv_lend f : winv f -> buf_size f = 0 -> winv (lend_buffer f) /\ pend (lend_buffer f) = [] /\ pend f = [].
Proof using Type*.
  intros Hinv Hb. assert (pend f = []) as Hp.
  { apply winv_ptrs in Hinv as Hw. apply zlen_pend in Hw as [_ Hz]. rewrite Hb in Hz. apply zlen_0; lia. }
  destruct Hinv as (Hst & Hfl & Hfd & _ & _). split; [|done]. split_and!; try done; try apply Hfl.
  - right. assert (sized (lend_buffer f)) as Hs by (split; by vm_compute).
    destruct Hst as [(_ & Hr1 & Hr2 & _)|[(_ & _ & _ & _ & Hr) Hre]].
    + split; [|cbn; congruence]. split_and!; try done; try apply Hs. cbn. by rewrite Hr1, Hr2.
    + split; [|done]. split_and!; try done; try apply Hs. cbn. rewrite Hb in Hr. destruct (rpos f), (rend f); try done.
      unfold sizeof_internal_buf. lia.
  - intros _. rewrite pend_idle by done. apply not_elem_of_nil.
Qed.

(** Emptying the lent buffer. *)
Lemma wp_return_buffer f0 f s s' text b ret : winv f -> pend f0 = [] ->
  (has_flag F_ERR f = false -> ret = zlen text /\ accepted f0 s text f s') ->
  wp (do* write_call host [] in let* f := get_file in do* upd (return_buffer b) in sret (match wpos f with None => -1 | Some _ => ret end))
    (fun r st' => let '(f', s'') := st' in pend f' = [] /\ (has_flag F_ERR f' = false -> r = zlen text /\ accepted f0 s text f' s'')) (f, s').
Proof using Type*.
  intros Hinv Hp H. pose proof Hinv as (_ & _ & Hfd & Hbs & _). apply wp_bind.
  eapply wp_mono; [by apply (wp_write_call host fdn contents pos appends f s' []); [done|apply winv_ptrs in Hinv| |]|].
  intros r [f2 s2] (f1 & (w & l & -> & _) & Hd). rewrite app_nil_r in Hd.
  apply wp_bind. eexists _, _. split; [reflexivity|]. cbn [fst]. apply wp_bind. eexists _, _. split; [reflexivity|]. apply wp_ret. cbn [fst snd].
  split; [done|]. destruct Hd as [(_ & Hw & ->)|(k & _ & _ & _ & _ & ->)].
  - cbn. change (has_flag F_ERR f = false -> ret = zlen text /\ accepted f0 s text (return_buffer b (with_wr (Some 0) (Some 0) (Some (buf_size f)) (with_write w l f))) s2).
    intros He. destruct (H He) as (-> & x & Ex & Hx). split; [done|]. exists (x ++ pend f). split.
    + rewrite Ex. rewrite (pend_idle (return_buffer _ _)) by done. by rewrite app_nil_r.
    + by eapply (wrote_app host fdn contents pos appends).
  - intros He. exfalso. revert He. unfold has_flag, ctrue. cbn. rewrite Z.land_lor_distr_l. intros Hz%negb_false_iff%Z.eqb_eq.
    apply Z.lor_eq_0_iff in Hz as [_ Hz]. done.
Qed.

Lemma wp_vfprintf f s ps rest m e : winv f -> wf_memory m -> Forall (fun c => 0 < c < 256) (strerror e) -> Forall (piece_ok m) ps ->
  let text := meaning_all (strerror e) ps in zlen text < 2 ^ 29 ->
  wp (vfprintf host utf8 strerror junk (render_all ps) (args_all ps ++ rest) m e)
    (fun r st' => snd r = (m, e) /\ printed f s text (fst r) st') (f, s).
Proof using Type*.
  intros Hinv Hm He Hok text Hl. destruct (format_passes ps rest m e Hm He Hok Hl) as (Hfirst & st1 & Hcore & Hcs & Hmem & Herr).
  unfold vfprintf. apply wp_bind. eapply wp_lift; [exact Hfirst|]. cbn [negb]. apply wp_bind. eexists _, _. split; [reflexivity|]. cbn [fst].
  set (f1 := if mode f <? 1 then clear_flag F_ERR f else f).
  assert (winv f1 /\ pend f1 = pend f /\ buf_size f1 = buf_size f) as (Hinv1 & Hp1 & Hb1).
  { unfold f1. destruct (mode f <? 1); [|done]. split; [by apply winv_clear|done]. }
  apply wp_bind. exists tt, (f1, s). split; [unfold f1; by destruct (mode f <? 1)|].
  assert (forall f2 s2, accepted f1 s text f2 s2 -> accepted f s text f2 s2) as Hacc.
  { intros f2 s2 (x & Ex & Hx). exists x. by rewrite <- Hp1. }
  destruct (Z.eqb_spec (buf_size f) 0) as [Hb|Hb].
  - destruct (winv_lend f1 Hinv1 ltac:(lia)) as (Hinv2 & Hp2 & Hp1'). apply wp_bind. eexists _, _. split; [reflexivity|]. cbn [fst snd].
    apply wp_bind. eapply wp_mono; [by eapply (wp_second_pass (lend_buffer f1) s _ _ text (outs st1) st1 Hinv2 Hl Hcore)|].
    intros r [f3 s3] (-> & Hinv3 & Ha3). apply wp_bind.
    eapply wp_mono; [apply (wp_return_buffer f1 f3 s s3 text (Stdio.mem f) (zlen text) Hinv3 Hp1')|].
    { intros He3. split; [done|]. destruct (Ha3 He3) as (x & Ex & Hx). exists x. by rewrite Hp1', <- Hp2. }
    intros r [f4 s4] [Hp4 H4]. rewrite Hmem, Herr. apply wp_end; [done|by rewrite Hb|]. intros He4. destruct (H4 He4) as [-> Ha4]. auto.
  - apply wp_bind. apply wp_ret. apply wp_bind. eapply wp_mono; [by eapply (wp_second_pass f1 s _ _ text (outs st1) st1 Hinv1 Hl Hcore)|].
    intros r [f3 s3] (-> & Hinv3 & Ha3). apply wp_bind, wp_ret. rewrite Hmem, Herr. apply wp_end; [done| |auto]. by rewrite (proj2 (Z.eqb_neq _ _) Hb).
Qed.
End Spec.

(** C29: formatted output to files: [vfprintf] on a stream opened for writing returns the length
    of the text that the format means when the stream took all of it, and -1 with the
    error indicator set otherwise; after a successful [fflush] the file holds the
    text at the descriptor's position, or at the end of the file when the descriptor appends, is
    otherwise unchanged, and the position is behind the text.  [vdprintf], whose stream
    has no buffer of its own, has written the text when it returns its length. *)
Theorem vfprintf_file {S : Type} (host : forall X, wasi X -> S -> res X * S) fdn contents pos appends
    `{!RegularFile host fdn contents pos appends} utf8 strerror junk mode s0 f s ps rest m e :
  has_char mode 43 = true \/ schar mode 0 <> 114 -> run host (__fdopen true fdn mode) s0 = (Val f, s) ->
  wf_memory m -> Forall (fun c => 0 < c < 256) (strerror e) -> Forall (piece_ok m) ps ->
  let text := meaning_all (strerror e) ps in zlen text < 2 ^ 29 ->
  (exists ret f1 s1 r f2 s2, vfprintf host utf8 strerror junk (render_all ps) (args_all ps ++ rest) m e (f, s) = Ok ((ret, (m, e)), (f1, s1)) /\
     fflush host (f1, s1) = Ok (r, (f2, s2)) /\ (ret = zlen text \/ ret = -1 /\ has_flag F_ERR f1 = true) /\
     (ret = zlen text -> r = 0 -> wrote contents pos appends s text s2)) /\
  (exists ret s1, vdprintf host utf8 strerror junk fdn (render_all ps) (args_all ps ++ rest) m e s = Ok ((ret, (m, e)), s1) /\
     (ret = zlen text \/ ret = -1) /\
     (ret = zlen text -> wrote contents pos appends s text s1)).
Proof.
  intros Hmode Hf Hm He Hok text Hl. pose proof (zlen_nonneg text) as Hz. split.
  - apply fdopen_opened in Hf. assert (negb (has_char mode 43) && (schar mode 0 =? 114) = false) as E.
    { destruct Hmode as [-> |Hm']; [done|]. rewrite (proj2 (Z.eqb_neq _ _)) by done. by rewrite andb_false_r. }
    rewrite E in Hf. destruct (opened_winv f fdn _ Hf) as [Hinv Hp].
    assert (buf_size f <> 0) as Hb by (destruct Hf as (_ & _ & _ & -> & _); done).
    destruct (wp_vfprintf host fdn contents pos appends _ utf8 strerror junk f s ps rest m e Hinv Hm He Hok Hl)
      as ([ret p] & [f1 s1] & Er & Hp' & Hinv1 & Hres). cbn [fst snd] in Hp', Hres. subst p. rewrite (proj2 (Z.eqb_neq _ _) Hb) in Hinv1.
    destruct (wp_fflush host fdn contents pos appends _ f1 s1 Hinv1) as (r & [f2 s2] & Er2 & _ & Hfl).
    exists ret, f1, s1, r, f2, s2. split_and!; [done|done|by destruct Hres as [[-> _]|?]; [left|right]|].
    intros -> ->. destruct Hres as [(_ & x & Ex & Hx)|[? _]]; [|lia]. destruct Hfl as [(_ & _ & Hw)|[? _]]; [|done].
    rewrite Hp in Ex. cbn [app] in Ex. fold text in Ex. rewrite Ex. by apply (wrote_app host fdn contents pos appends s x s1).
  - assert (winv fdn false (vdprintf_file fdn)) as Hinv.
    { split_and!; try done. right. by vm_compute. }
    destruct (wp_vfprintf host fdn contents pos appends _ utf8 strerror junk _ s ps rest m e Hinv Hm He Hok Hl)
      as ([ret p] & [f1 s1] & Er & Hp' & Hend & Hres). cbn [fst snd] in Hp', Hres. subst p.
    exists ret, s1. unfold vdprintf. rewrite Er. split; [done|]. split; [by destruct Hres as [[-> _]|[-> _]]; [left|right]|].
    intros ->. destruct Hres as [(_ & x & Ex & Hx)|[? _]]; [|lia]. change (text = x ++ pend f1) in Ex. change (pend f1 = []) in Hend.
    rewrite Hend, app_nil_r in Ex. by rewrite Ex.
Qed.

(** ["%d\n"] with 42, to the file [abc] opened with [a+]. *)
Lemma vfprintf_file_witness : let ps := [Conv [] WNone PNone (CInt Lnone (ch "d") 42); Char 10] in
  exists ret f1 s1 r f2 s2, vfprintf flag_disk true (fun _ => []) 0 (render_all ps) (args_all ps ++ []) (replicate 8 0) 0 log_stream =
      Ok ((ret, (replicate 8 0, 0)), (f1, s1)) /\
    fflush flag_disk (f1, s1) = Ok (r, (f2, s2)) /\ (ret = 3 \/ ret = -1 /\ has_flag F_ERR f1 = true) /\
    (ret = 3 -> r = 0 -> fst (fst s2) = [97; 98; 99; 52; 50; 10] /\ disk_pos (fst s2) = 6 /\ snd s2 = true).
Proof.
  intros ps. apply (@vfprintf_file _ flag_disk 3 (fun s => fst (fst s)) (fun s => disk_pos (fst s)) snd (flag_disk_file 3)
    true (fun _ => []) 0 [97; 43] log_file (fst log_stream) (snd log_stream) ps [] (replicate 8 0) 0).
  - by left.
  - vm_compute. reflexivity.
  - split; [apply Forall_replicate; lia|done|by vm_compute].
  - constructor.
  - unfold ps. repeat constructor; cbn; try lia; set_solver.
  - by vm_compute.
Defined.
