(* ===== verification/Inet.v ===== *)
(** Internet addresses ([libc-top-half/musl/src/network/]: inet_pton.c, inet_ntop.c,
    inet_aton.c, htonl.c, htons.c, ntohl.c, ntohs.c).

    The text that [inet_pton] reads is a C string, read through [at_], which is
    undefined behind its terminator; [p] is the position of the pointer [s] in it.
    [inet_ntop] runs in linear memory, on the functions of Printf and Strings. *)

From Stdlib Require Import Ascii String.
From S2P Require Import Prelude Memory Strings Multibyte Intscan Printf.

Definition AF_INET : Z := 1.
Definition AF_INET6 : Z := 2.
Definition ENOSPC : Z := 51.

(** [s[k]] *)
Definition at_ (s : list Z) (k : Z) : outcome Z := zget (s ++ [0]) k.

(** * inet_pton.c *)

Definition hexval (c : Z) : Z :=
  if u32 (c - ch "0") <? 10 then c - ch "0"
  else
    let c := Z.lor c 32 in
    if u32 (c - ch "a") <? 6 then c - ch "a" + 10 else -1.

(** [for (v=j=0; j<3 && isdigit(s[j]); j++) v = 10*v + s[j]-'0';]: [v] and [j]. *)
Fixpoint decimal_digits (k : nat) (s : list Z) (p v j : Z) : outcome (Z * Z) :=
  match k with
  | O => Ok (v, j)
  | S k' =>
      let! c := at_ s (p + j) in
      if isdigit c then decimal_digits k' s p (10 * v + c - ch "0") (j + 1) else Ok (v, j)
  end.

(** [for (v=j=0; j<4 && (d=hexval(s[j]))>=0; j++) v=16*v+d;] *)
Fixpoint hex_digits (k : nat) (s : list Z) (p v j : Z) : outcome (Z * Z) :=
  match k with
  | O => Ok (v, j)
  | S k' =>
      let! c := at_ s (p + j) in
      let d := hexval c in
      if 0 <=? d then hex_digits k' s p (16 * v + d) (j + 1) else Ok (v, j)
  end.

(** The loop of the case [AF_INET], which stores from [a[o]] on. *)
Fixpoint pton4_loop (k : nat) (s : list Z) (p i o : Z) (a : list Z) : outcome (Z * list Z) :=
  match k with
  | O => Ok (0, a)
  | S k' =>
      let! (v, j) := decimal_digits 3 s p 0 0 in
      let! first := at_ s p in
      if (j =? 0) || ((1 <? j) && (first =? ch "0")) || (255 <? v) then Ok (0, a)
      else
        let! a := zset a (o + i) (u8 v) in
        let! c := at_ s (p + j) in
        if (c =? 0) && (i =? 3) then Ok (1, a)
        else if negb (c =? ch ".") then Ok (0, a)
        else pton4_loop k' s (p + j + 1) (i + 1) o a
  end.
Definition pton4 (s : list Z) (p o : Z) (a : list Z) : outcome (Z * list Z) := pton4_loop 4 s p 0 o a.

(** What the loop over the groups of [AF_INET6] ends with: [i], [brk], [ip], [need_v4] and the position. *)
Record groups : Type := Groups { g_i : Z; g_brk : Z; g_ip : list Z; g_v4 : bool; g_p : Z }.

(** [None] is [return 0].  Every round but the last advances [i], which stays below 8. *)
Fixpoint pton6_loop (fuel : nat) (s : list Z) (p i brk : Z) (ip : list Z) : outcome (option groups) :=
  match fuel with
  | O => NoFuel
  | S fuel' =>
      let! c := at_ s p in
      if (c =? ch ":") && (brk <? 0) then
        let brk := i in
        let! ip := zset ip (Z.land i 7) 0 in
        let! c := at_ s (p + 1) in
        if c =? 0 then Ok (Some (Groups i brk ip false (p + 1)))
        else if i =? 7 then Ok None
        else pton6_loop fuel' s (p + 1) (i + 1) brk ip
      else
        let! (v, j) := hex_digits 4 s p 0 0 in
        if j =? 0 then Ok None
        else
          let! ip := zset ip (Z.land i 7) (u16 v) in
          let! c := at_ s (p + j) in
          if (c =? 0) && ((0 <=? brk) || (i =? 7)) then Ok (Some (Groups i brk ip false p))
          else if i =? 7 then Ok None
          else if negb (c =? ch ":") then
            if negb (c =? ch ".") || ((i <? 6) && (brk <? 0)) then Ok None
            else Ok (Some (Groups (i + 1) brk ip true p))
          else pton6_loop fuel' s (p + j + 1) (i + 1) brk ip
  end.

(** [memmove(ip+brk+7-i, ip+brk, 2*(i+1-brk)); for (j=0; j<7-i; j++) ip[brk+j] = 0;] *)
Definition close_gap (i brk : Z) (ip : list Z) : outcome (list Z) :=
  let n := i + 1 - brk in
  if (0 <=? brk) && (0 <=? n) && (brk + 7 - i + n <=? zlen ip) && (0 <=? brk + 7 - i) then
    let moved := take (Z.to_nat n) (drop (Z.to_nat brk) ip) in
    let ip := take (Z.to_nat (brk + 7 - i)) ip ++ moved ++ drop (Z.to_nat (brk + 7 - i + n)) ip in
    for_up (Z.to_nat (7 - i)) 0 (fun j ip => zset ip (brk + j) 0) ip
  else UB.

(** The bytes of the groups, in network order. *)
Definition group_bytes (ip : list Z) : list Z := concat (map (fun g => [u8 (Z.shiftr g 8); u8 g]) ip).

(** The return value, the object behind [a0] and [errno] where it is set; [junk] is in the array before its stores. *)
Definition inet_pton (junk : Z) (af : Z) (s : list Z) (a : list Z) : outcome (Z * list Z * option Z) :=
  if af =? AF_INET then let! (r, a) := pton4 s 0 0 a in Ok (r, a, None)
  else if negb (af =? AF_INET6) then Ok (-1, a, Some EAFNOSUPPORT)
  else
    let! c := at_ s 0 in
    let! start := if c =? ch ":" then let! c := at_ s 1 in Ok (if c =? ch ":" then Some 1 else None) else Ok (Some 0) in
    match start with
    | None => Ok (0, a, None)
    | Some p =>
        let! g := pton6_loop 9 s p 0 (-1) (replicate 8 (u16 junk)) in
        match g with
        | None => Ok (0, a, None)
        | Some g =>
            let! ip := if 0 <=? g_brk g then close_gap (g_i g) (g_brk g) (g_ip g) else Ok (g_ip g) in
            let! a := if zlen a =? 16 then Ok (group_bytes ip) else UB in
            if g_v4 g then
              let! (r, a) := pton4 s (g_p g) 12 a in
              Ok (if r <=? 0 then 0 else 1, a, None)
            else Ok (1, a, None)
        end
    end.

(** * inet_ntop.c *)

(** A literal of the source. *)
Definition lit (s : string) : list Z := map (fun c => Z.of_nat (nat_of_ascii c)) (list_ascii_of_string s).
Definition dotted_format : list Z := lit "%d.%d.%d.%d".
Definition groups_format : list Z := lit "%x:%x:%x:%x:%x:%x:%x:%x".
Definition mapped_format : list Z := lit "%x:%x:%x:%x:%x:%x:%d.%d.%d.%d".

(** Code on the memory alone, in a state that has [errno] too. *)
Definition on_memory {A} (c : mem A) : M (list Z * Z) A := fun st => let! (a, m) := c (fst st) in Ok (a, (m, snd st)).
Definition set_errno (e : Z) : M (list Z * Z) unit := sput (fun st => (fst st, e)).

(** The arguments [a[k]] and [256*a[k]+a[k+1]] for the listed [k]. *)
Fixpoint byte_args (a : Z) (ks : list Z) : mem (list va) :=
  match ks with
  | [] => sret []
  | k :: ks => let* x := load8 (a + k) in let* l := byte_args a ks in sret (W32 x :: l)
  end.
Fixpoint group_args (a : Z) (ks : list Z) : mem (list va) :=
  match ks with
  | [] => sret []
  | k :: ks =>
      let* x := load8 (a + k) in
      let* y := load8 (a + (k + 1)) in
      let* l := group_args a ks in
      sret (W32 (256 * x + y) :: l)
  end.

Section Ntop.
(** [buf] is the address of the local array, [set] and [mapped] those of the literals
    of [strspn] and [memcmp]; [utf8], [strerror] and [junk] as in Printf, [bulk] as in Strings. *)
Context (utf8 : bool) (strerror : Z -> list Z) (junk : Z) (bulk : option Z) (buf set mapped : Z).

Definition sizeof_buf : Z := 100.

(** [for (i=best=0, max=2; buf[i]; i++) ...]: [i], [best] and [max] at its end. *)
Definition longest_run : mem (Z * Z * Z) :=
  while (count sizeof_buf) (fun '(i, _, _) => let* c := load8 (buf + i) in sret (ctrue c))
    (fun '(i, best, max) =>
       let* c := load8 (buf + i) in
       if ctrue i && negb (c =? ch ":") then sret (i + 1, best, max)
       else
         let* j := strspn (buf + i) set in
         sret (if max <? j then (i + 1, i, j) else (i + 1, best, max))) (0, 0, 2).

Definition shorten : mem unit :=
  let* (i, best, max) := longest_run in
  if 3 <? max then
    do* store8 (buf + (best + 1)) (ch ":") in
    do* store8 (buf + best) (ch ":") in
    do* memmove bulk (buf + best + 2) (buf + best + max) (i - best - max + 1) in
    sret tt
  else sret tt.

Definition inet_ntop (af a0 s l : Z) : M (list Z * Z) Z :=
  let nospace := do* set_errno ENOSPC in sret NULL in
  if af =? AF_INET then
    let* args := on_memory (byte_args a0 [0; 1; 2; 3]) in
    let* r := vsnprintf utf8 strerror junk s l dotted_format args in
    if u32 r <? l then sret s else nospace
  else if af =? AF_INET6 then
    let* d := on_memory (memcmp a0 mapped 12) in
    do* (if ctrue d then
           let* args := on_memory (group_args a0 [0; 2; 4; 6; 8; 10; 12; 14]) in
           vsnprintf utf8 strerror junk buf sizeof_buf groups_format args
         else
           let* args := on_memory (group_args a0 [0; 2; 4; 6; 8; 10]) in
           let* more := on_memory (byte_args a0 [12; 13; 14; 15]) in
           vsnprintf utf8 strerror junk buf sizeof_buf mapped_format (args ++ more)%list) in
    do* on_memory shorten in
    let* n := on_memory (strlen buf) in
    if n <? l then do* on_memory (strcpy s buf) in sret s else nospace
  else do* set_errno EAFNOSUPPORT in sret NULL.
End Ntop.

(** * inet_aton.c *)

(** The first loop: [a], [i] at its end and whether it returns 0. *)
Fixpoint aton_loop (k : nat) (s : list Z) (p i : Z) (a : list Z) : outcome (option (Z * list Z)) :=
  match k with
  | O => Ok (Some (4, a))
  | S k' =>
      let! (v, _, z) := strtoul (drop (Z.to_nat p) s) 0 in
      let! a := zset a i v in
      let! c := at_ s (p + z) in
      let! first := at_ s p in
      if (z =? 0) || (ctrue c && negb (c =? ch ".")) || negb (isdigit first) then Ok None
      else if c =? 0 then Ok (Some (i, a))
      else aton_loop k' s (p + z + 1) (i + 1) a
  end.

(** The [switch] that splits the last number. *)
Definition aton_split (i : Z) (a : list Z) : list Z :=
  match a with
  | [a0; a1; a2; a3] =>
      let '(a0, a1) := if i =? 0 then (Z.shiftr a0 24, Z.land a0 16777215) else (a0, a1) in
      let '(a1, a2) := if (i =? 0) || (i =? 1) then (Z.shiftr a1 16, Z.land a1 65535) else (a1, a2) in
      let '(a2, a3) := if (i =? 0) || (i =? 1) || (i =? 2) then (Z.shiftr a2 8, Z.land a2 255) else (a2, a3) in
      [a0; a1; a2; a3]
  | _ => a
  end.

(** The last loop: the return value and the bytes stored. *)
Fixpoint aton_store (a d : list Z) : Z * list Z :=
  match a with
  | [] => (1, d)
  | x :: a => if 255 <? x then (0, d) else aton_store a (d ++ [x])
  end.

(** The return value and the bytes stored into [dest]. *)
Definition __inet_aton (s : list Z) : outcome (Z * list Z) :=
  let! r := aton_loop 4 s 0 0 [0; 0; 0; 0] in
  match r with
  | None => Ok (0, [])
  | Some (i, a) => if i =? 4 then Ok (0, []) else Ok (aton_store (aton_split i a) [])
  end.

(** * Byte order: [u.c] is 1 on a little-endian machine *)

Definition bswap_16 (x : Z) : Z := Z.lor (Z.shiftr (u16 x) 8) (u16 (Z.shiftl x 8)).
Definition bswap_32 (x : Z) : Z := Z.lor (Z.shiftr (u32 x) 24) (Z.lor (Z.land (Z.shiftr (u32 x) 8) 65280)
  (Z.lor (Z.land (u32 (Z.shiftl x 8)) 16711680) (u32 (Z.shiftl x 24)))).
Definition htonl (n : Z) : Z := bswap_32 n.
Definition ntohl (n : Z) : Z := bswap_32 n.
Definition htons (n : Z) : Z := bswap_16 n.
Definition ntohs (n : Z) : Z := bswap_16 n.
