(* ===== verification/InetSpec.v ===== *)
(** What the textual forms of internet addresses are, and that [inet_pton] accepts
    exactly them.

    [dotted] is the form of an IPv4 address: four decimal numbers without leading
    zeros.  [address6] is that of an IPv6 address: eight groups of up to four
    hexadecimal digits, a gap ["::"] for one or more zero groups, and a dotted address
    in place of the last two groups. *)

From Stdlib Require Import Ascii.
From S2P Require Import Prelude Memory Strings Intscan IntscanSpec StringsScan StringsSpec Printf PrintfSpec PrintfScan Inet.

(** * The textual forms *)

(** Texts with a separator between them. *)
Fixpoint sep_by (c : Z) (l : list (list Z)) : list Z :=
  match l with
  | [] => []
  | [t] => t
  | t :: l => t ++ c :: sep_by c l
  end.

Definition is_byte (b : Z) : Prop := 0 <= b < 256.
(** The dotted form of the bytes. *)
Definition dotted (bs : list Z) : list Z := sep_by (ch ".") (map decimal bs).
Definition address4 (s : list Z) (bs : list Z) : Prop := length bs = 4%nat /\ Forall is_byte bs /\ s = dotted bs.

(** One to four hexadecimal digits and their value. *)
Definition group_text (h : list Z) (v : Z) : Prop := 1 <= zlen h <= 4 /\ Forall (fun c => is_digit 16 c = true) h /\ v = num 16 h.

(** The groups of four bytes. *)
Definition words_of (bs : list Z) : list Z :=
  match bs with [a; b; c; d] => [256 * a + b; 256 * c + d] | _ => [] end.

(** Groups with colons between them; the last two may be written as a dotted address. *)
Inductive pieces6 : list Z -> list Z -> Prop :=
| P6_last h v : group_text h v -> pieces6 h [v]
| P6_dotted s bs : address4 s bs -> pieces6 s (words_of bs)
| P6_cons h v s ws : group_text h v -> pieces6 s ws -> pieces6 (h ++ ch ":" :: s) (v :: ws).

(** Groups with colons between them, or nothing. *)
Definition groups6 (s : list Z) (ws : list Z) : Prop := exists hs, s = sep_by (ch ":") hs /\ Forall2 group_text hs ws.

Inductive address6 : list Z -> list Z -> Prop :=
| A6_full s ws : pieces6 s ws -> zlen ws = 8 -> address6 s ws
| A6_gap s t wa wb k : groups6 s wa -> (t = [] /\ wb = []) \/ pieces6 t wb -> 0 < k -> zlen wa + k + zlen wb = 8 ->
    address6 (s ++ [ch ":"; ch ":"] ++ t) (wa ++ replicate (Z.to_nat k) 0 ++ wb).

(** * Reading the text *)

Lemma at_schar s p k : 0 <= p -> 0 <= k -> p + k <= zlen s -> at_ s (p + k) = Ok (schar (drop (Z.to_nat p) s) k).
Proof.
  intros Hp Hk H. unfold at_, zget. rewrite (proj2 (Z.leb_le 0 (p + k))) by lia. rewrite schar_drop by lia. unfold schar, zlen in *.
  destruct (decide (p + k = Z.of_nat (length s))) as [E|].
  - rewrite lookup_app_r by lia. replace (Z.to_nat (p + k) - length s)%nat with O by lia. rewrite nth_overflow by lia. done.
  - rewrite lookup_app_l by lia. destruct (lookup_lt_is_Some_2 s (Z.to_nat (p + k))) as [x Hx]; [lia|].
    rewrite Hx. cbn. f_equal. symmetry. by apply nth_lookup_Some.
Qed.

Lemma at_head s p : 0 <= p <= zlen s -> at_ s p = Ok (schar (drop (Z.to_nat p) s) 0).
Proof. intros H. rewrite <- at_schar by lia. f_equal. lia. Qed.

(** The next field of a text: at most [k] characters of a class. *)
Definition field_of (k : nat) (q : Z -> bool) (r : list Z) : list Z := take k (span q r).

Lemma field_of_step k q r : field_of (S k) q r = match r with c :: r' => if q c then c :: field_of k q r' else [] | [] => [] end.
Proof. destruct r as [|c r]; [done|]. unfold field_of. cbn. by destruct (q c). Qed.

Lemma field_of_split k q r : r = field_of k q r ++ drop (length (field_of k q r)) r.
Proof.
  destruct (span_prefix q r) as (x & E & _). unfold field_of. set (sp := span q r) in *. rewrite E, length_take, drop_app.
  destruct (Nat.le_gt_cases k (length sp)).
  - rewrite Nat.min_l, app_assoc, take_drop by lia. by replace (k - length sp)%nat with O by lia.
  - rewrite Nat.min_r, take_ge, drop_all, Nat.sub_diag by lia. done.
Qed.

Lemma field_of_class k q r : Forall (fun c => q c = true) (field_of k q r).
Proof. apply Forall_take. induction r as [|c r IH]; [done|]. cbn. destruct (q c) eqn:E; by constructor. Qed.

(** A position in the text: at the end, or before a character. *)
Lemma position_cases s q : cstring s -> 0 <= q <= zlen s ->
  (drop (Z.to_nat q) s = [] /\ q = zlen s) \/
  exists c r, drop (Z.to_nat q) s = c :: r /\ 0 < c < 256 /\ drop (Z.to_nat (q + 1)) s = r /\ q + 1 <= zlen s.
Proof.
  intros Hs Hq. destruct (drop (Z.to_nat q) s) as [|c r] eqn:E; [left|right; exists c, r].
  - split; [done|]. apply (f_equal zlen) in E. rewrite zlen_drop in E by done. change (zlen []) with 0 in E. lia.
  - pose proof (Forall_drop _ (Z.to_nat q) _ Hs) as H. rewrite E in H. apply Forall_cons in H as [Hc _].
    replace (Z.to_nat (q + 1)) with (Z.to_nat q + 1)%nat by lia. rewrite <- drop_drop, E. split_and!; try done; try lia.
    apply (f_equal zlen) in E. rewrite zlen_drop, zlen_cons in E by done. pose proof (zlen_nonneg r). lia.
Qed.

Lemma digit_val c : 0 <= c < 256 -> isdigit c = is_digit 10 c /\ (isdigit c = true -> val c = c - 48) /\
  hexval c = (if is_digit 16 c then val c else -1).
Proof.
  intros Hc. pose proof (forall_below (fun c => Bool.eqb (isdigit c) (is_digit 10 c) && implb (isdigit c) (val c =? c - 48) &&
    (hexval c =? (if is_digit 16 c then val c else -1))) 256 ltac:(vm_compute; reflexivity) c Hc) as H.
  cbv beta in H. apply andb_true_iff in H as [H H3]. apply andb_true_iff in H as [H1 H2]. split_and!; [by apply eqb_prop| |by apply Z.eqb_eq].
  intros E. rewrite E in H2. by apply Z.eqb_eq.
Qed.

Lemma decimal_digits_run k s : cstring s -> forall p v j, 0 <= p -> 0 <= j -> p + j <= zlen s ->
  let h := field_of k isdigit (drop (Z.to_nat (p + j)) s) in
  decimal_digits k s p v j = Ok (fold_left (fun a c => a * 10 + val c) h v, j + zlen h).
Proof.
  intros Hs. induction k as [|k IH]; intros p v j Hp Hj H; cbv zeta; [by rewrite Z.add_0_r|].
  cbn [decimal_digits]. rewrite at_head by lia. cbn [obind].
  destruct (position_cases s (p + j) Hs ltac:(lia)) as [[E _]|(c & r & E & Hc & E' & Hle)]; rewrite E, field_of_step; [change (zlen []) with 0; by rewrite (Z.add_0_r j)|].
  change (schar (c :: r) 0) with c. destruct (isdigit c) eqn:Ed; [|change (zlen []) with 0; by rewrite (Z.add_0_r j)].
  rewrite IH, Z.add_assoc, E' by lia. cbn [fold_left]. destruct (digit_val c ltac:(lia)) as (_ & Hv & _). rewrite (Hv Ed), zlen_cons.
  do 2 f_equal; [|lia]. f_equal. change (ch "0") with 48. lia.
Qed.

Lemma hex_digits_run k s : cstring s -> forall p v j, 0 <= p -> 0 <= j -> p + j <= zlen s ->
  let h := field_of k (is_digit 16) (drop (Z.to_nat (p + j)) s) in
  hex_digits k s p v j = Ok (fold_left (fun a c => a * 16 + val c) h v, j + zlen h).
Proof.
  intros Hs. induction k as [|k IH]; intros p v j Hp Hj H; cbv zeta; [by rewrite Z.add_0_r|].
  cbn [hex_digits]. rewrite at_head by lia. cbn [obind].
  destruct (position_cases s (p + j) Hs ltac:(lia)) as [[E _]|(c & r & E & Hc & E' & Hle)]; rewrite E, field_of_step; [change (zlen []) with 0; by rewrite (Z.add_0_r j)|].
  change (schar (c :: r) 0) with c. destruct (digit_val c ltac:(lia)) as (_ & _ & ->). pose proof (val_range c ltac:(lia)).
  destruct (is_digit 16 c) eqn:Ed; [|change (zlen []) with 0; by rewrite (Z.add_0_r j)]. rewrite (proj2 (Z.leb_le 0 _)) by lia.
  rewrite IH, Z.add_assoc, E' by lia. cbn [fold_left]. rewrite zlen_cons.
  do 2 f_equal; [|lia]. f_equal. lia.
Qed.

(** * Dotted addresses *)

Lemma field_of_app k q a r : Forall (fun c => q c = true) a -> starts_with_not q r -> (length a <= k)%nat -> field_of k q (a ++ r) = a.
Proof. intros Ha Hr Hk. unfold field_of. rewrite span_app by done. by rewrite take_ge. Qed.

(** The checks of [inet_pton] on a decimal field of value [v] and length [j]. *)
Definition bad_field (h : list Z) : bool :=
  (zlen h =? 0) || ((1 <? zlen h) && (schar h 0 =? ch "0")) || (255 <? num 10 h).

Lemma decimal_field b : is_byte b ->
  Forall (fun c => isdigit c = true) (decimal b) /\ (length (decimal b) <= 3)%nat /\ bad_field (decimal b) = false /\ num 10 (decimal b) = b.
Proof.
  intros Hb. pose proof (forall_below (fun b => forallb isdigit (decimal b) && (Z.of_nat (length (decimal b)) <=? 3) && negb (bad_field (decimal b)) &&
    (num 10 (decimal b) =? b)) 256 ltac:(vm_compute; reflexivity) b Hb) as H. cbv beta in H.
  apply andb_true_iff in H as [H H4]. apply andb_true_iff in H as [H H3]. apply andb_true_iff in H as [H1 H2].
  split_and!; [|lia|by apply negb_true_iff|lia]. apply Forall_forall. intros x Hx. rewrite forallb_forall in H1. by apply H1, list_elem_of_In.
Qed.

(** Every field of up to three digits that passes the checks is the numeral of a byte. *)
Lemma field_decimal h : Forall (fun c => isdigit c = true) h -> Forall (fun c => 0 <= c < 256) h -> (length h <= 3)%nat -> bad_field h = false ->
  is_byte (num 10 h) /\ h = decimal (num 10 h).
Proof.
  intros Hd Hr Hl Hb.
  assert (forall c, 0 <= c < 256 -> isdigit c = true -> exists d, 0 <= d < 10 /\ c = 48 + d) as Hc.
  { intros c Hc E. rewrite isdigit_iff in E by done. exists (c - 48). lia. }
  set (ok h := implb (negb (bad_field h)) ((0 <=? num 10 h) && (num 10 h <? 256) && bool_decide (h = decimal (num 10 h)))).
  cut (ok h = true).
  { unfold ok. rewrite Hb. cbn [negb implb]. intros H. apply andb_true_iff in H as [H1 H2]. apply bool_decide_eq_true in H2. split; [unfold is_byte; lia|done]. }
  assert (forall x, 0 <= x < 10 -> ok [48 + x] = true) as H1 by (apply forall_below; vm_compute; reflexivity).
  assert (forall x, 0 <= x < 10 -> forallb (fun y => ok [48 + x; 48 + y]) (seqZ 0 10) = true) as H2 by (apply forall_below; vm_compute; reflexivity).
  assert (forall x, 0 <= x < 10 -> forallb (fun y => forallb (fun z => ok [48 + x; 48 + y; 48 + z]) (seqZ 0 10)) (seqZ 0 10) = true) as H3
    by (apply forall_below; vm_compute; reflexivity).
  destruct h as [|a [|b [|c [|]]]]; cbn in Hl; try lia; [done| | |]; rewrite !Forall_cons in Hd, Hr.
  - destruct (Hc a) as (x & Hx & ->); [naive_solver..|]. by apply H1.
  - destruct (Hc a) as (x & Hx & ->); [naive_solver..|]. destruct (Hc b) as (y & Hy & ->); [naive_solver..|]. by apply (forall_below _ _ (H2 x Hx)).
  - destruct (Hc a) as (x & Hx & ->); [naive_solver..|]. destruct (Hc b) as (y & Hy & ->); [naive_solver..|].
    destruct (Hc c) as (z & Hz & ->); [naive_solver..|]. by apply (forall_below _ _ (forall_below _ _ (H3 x Hx) y Hy)).
Qed.

Lemma zset_blit a k x : 0 <= k < zlen a -> zset a k x = Ok (blit a k [x]).
Proof.
  intros Hk. unfold zset. rewrite (proj2 (Z.leb_le 0 k)), (proj2 (Z.ltb_lt k _)) by lia. cbn [andb]. f_equal. unfold blit, zlen in *. cbn [length].
  rewrite insert_take_drop by lia. cbn. do 2 f_equal. f_equal. lia.
Qed.

(** The field at a position, and the position behind it. *)
Lemma field_end k q s p : 0 <= p <= zlen s -> let h := field_of k q (drop (Z.to_nat p) s) in
  p + zlen h <= zlen s /\ drop (Z.to_nat p) s = h ++ drop (Z.to_nat (p + zlen h)) s.
Proof.
  intros Hp h. pose proof (field_of_split k q (drop (Z.to_nat p) s)) as E. fold h in E.
  replace (Z.to_nat (p + zlen h)) with (Z.to_nat p + length h)%nat by (unfold zlen; lia). rewrite <- drop_drop. split; [|done].
  apply (f_equal length) in E. rewrite length_app, !length_drop in E. unfold zlen in *. lia.
Qed.

Lemma cstring_field k q s p : cstring s -> Forall (fun c => 0 <= c < 256) (field_of k q (drop (Z.to_nat p) s)).
Proof.
  intros Hs. pose proof (Forall_drop _ (Z.to_nat p) _ Hs) as H. rewrite (field_of_split k q) in H. apply Forall_app in H as [H _].
  eapply Forall_impl; [exact H|]. cbn. lia.
Qed.

Lemma length_field k q r : (length (field_of k q r) <= k)%nat.
Proof. unfold field_of. rewrite length_take. lia. Qed.

Lemma pton4_step k s p i o a : cstring s -> 0 <= p <= zlen s -> 0 <= o + i < zlen a ->
  let h := field_of 3 isdigit (drop (Z.to_nat p) s) in
  let q := p + zlen h in
  pton4_loop (S k) s p i o a =
    if bad_field h then Ok (0, a)
    else
      let a := blit a (o + i) [num 10 h] in
      let c := schar (drop (Z.to_nat q) s) 0 in
      if (c =? 0) && (i =? 3) then Ok (1, a) else if negb (c =? ch ".") then Ok (0, a) else pton4_loop k s (q + 1) (i + 1) o a.
Proof.
  intros Hs Hp Ho h q. destruct (field_end 3 isdigit s p Hp) as [Hq E]. fold h q in Hq, E.
  cbn [pton4_loop]. rewrite decimal_digits_run by (done || lia). rewrite Z.add_0_r. fold h. cbn [obind]. rewrite at_head by done. cbn [obind].
  rewrite Z.add_0_l. change (fold_left _ h 0) with (num 10 h).
  assert ((zlen h =? 0) || ((1 <? zlen h) && (schar (drop (Z.to_nat p) s) 0 =? ch "0")) || (255 <? num 10 h) = bad_field h) as ->.
  { rewrite E. destruct h as [|x h']; [done|]. done. }
  destruct (bad_field h) eqn:Eb; [done|].
  destruct (field_decimal h) as [Hb _]; [apply field_of_class|by apply cstring_field|apply length_field|done|].
  rewrite zset_blit by done. cbn [obind]. unfold u8. rewrite Z.mod_small by done. fold q. rewrite at_head by (pose proof (zlen_nonneg h); lia). done.
Qed.

Lemma pton4_sound s o : cstring s -> 0 <= o -> forall k p i a, i = 4 - Z.of_nat k -> 0 <= i -> 0 <= p <= zlen s -> o + 4 <= zlen a ->
  exists r a', pton4_loop k s p i o a = Ok (r, a') /\ zlen a' = zlen a /\
    (r = 0 \/ r = 1 /\ exists bs, length bs = k /\ Forall is_byte bs /\ drop (Z.to_nat p) s = dotted bs /\ a' = blit a (o + i) bs).
Proof.
  intros Hs Ho. induction k as [|k IH]; intros p i a Hi H0 Hp Ha; [by exists 0, a; auto|].
  rewrite pton4_step by (done || lia). cbv zeta. set (h := field_of 3 isdigit (drop (Z.to_nat p) s)).
  destruct (field_end 3 isdigit s p Hp) as [Hq E]. fold h in Hq, E. destruct (bad_field h) eqn:Eb; [by exists 0, a; auto|].
  destruct (field_decimal h) as [Hb Eh]; [apply field_of_class|by apply cstring_field|apply length_field|done|].
  pose proof (zlen_nonneg h). assert (zlen (blit a (o + i) [num 10 h]) = zlen a) as Hl by (apply zlen_blit; [lia|change (zlen [num 10 h]) with 1; lia]).
  destruct (position_cases s (p + zlen h) Hs ltac:(lia)) as [[E2 _]|(c & r & E2 & Hc & E3 & Hle)]; rewrite E2.
  - change (schar [] 0 =? 0) with true. cbn [andb]. destruct (Z.eqb_spec i 3) as [-> |]; [|by eexists 0, _; auto].
    eexists 1, _. split_and!; [done|done|right]. split; [done|]. exists [num 10 h]. split_and!; try done; [cbn; lia|by constructor|].
    rewrite E, E2, app_nil_r. cbn. done.
  - change (schar (c :: r) 0) with c. rewrite (proj2 (Z.eqb_neq c 0)) by lia. cbn [andb].
    destruct (Z.eqb_spec c (ch ".")) as [-> |]; cbn [negb]; [|by eexists 0, _; auto].
    destruct (IH (p + zlen h + 1) (i + 1) (blit a (o + i) [num 10 h])) as (r' & a' & Er' & Hl' & Hr); try lia.
    exists r', a'. split_and!; [done|lia|]. destruct Hr as [|(-> & bs & Hk & Hbs & Er & ->)]; [by left|right]. split; [done|].
    destruct bs as [|b bs]; [by subst k|].
    exists (num 10 h :: b :: bs). split_and!; [cbn in *; lia|by constructor| |].
    + rewrite E, E2. rewrite <- E3, Er. rewrite Eh at 1. done.
    + replace (o + (i + 1)) with (o + i + zlen [num 10 h]) by (change (zlen [num 10 h]) with 1; lia). rewrite blit_blit; [done|lia|].
      unfold zlen in *. cbn [length app] in *. lia.
Qed.

Lemma pton4_complete s o : cstring s -> 0 <= o -> forall bs p i a, bs <> [] -> i = 4 - zlen bs -> 0 <= i -> 0 <= p <= zlen s -> o + 4 <= zlen a ->
  Forall is_byte bs -> drop (Z.to_nat p) s = dotted bs -> pton4_loop (length bs) s p i o a = Ok (1, blit a (o + i) bs).
Proof.
  intros Hs Ho. induction bs as [|b bs IH]; [done|]. intros p i a _ Hi H0 Hp Ha Hbs E. apply Forall_cons in Hbs as [Hb Hbs].
  destruct (decimal_field b Hb) as (Hd & Hl & Hbad & Hnum). rewrite zlen_cons in Hi. pose proof (zlen_nonneg bs).
  cbn [length]. rewrite pton4_step by (done || lia). cbv zeta.
  assert (exists r, drop (Z.to_nat p) s = decimal b ++ r /\ starts_with_not isdigit r /\
    match bs with [] => r = [] | _ => r = ch "." :: dotted bs end) as (r & Er & Hr & Ebs).
  { rewrite E. destruct bs as [|b2 bs]; [by exists []; rewrite app_nil_r|]. exists (ch "." :: dotted (b2 :: bs)). done. }
  assert (field_of 3 isdigit (drop (Z.to_nat p) s) = decimal b) as Ef by (rewrite Er; by apply field_of_app).
  destruct (field_end 3 isdigit s p Hp) as [Hq E2]. rewrite Ef in Hq, E2 |- *. rewrite Er in E2. apply app_inv_head in E2.
  rewrite Hbad, Hnum, <- E2. destruct bs as [|b2 bs].
  - subst r. change (zlen []) with 0 in Hi. replace i with 3 by lia. done.
  - subst r. set (bs' := b2 :: bs) in *. change (schar (ch "." :: dotted bs') 0) with (ch "."). cbn [Z.eqb Pos.eqb andb negb]. pose proof (zlen_nonneg (decimal b)).
    destruct (position_cases s (p + zlen (decimal b)) Hs ltac:(lia)) as [[E3 _]|(c & r & E3 & Hc & E4 & Hle)]; rewrite <- E2 in E3; [done|].
    injection E3 as <- <-. rewrite IH; try done; try lia.
    + replace (o + (i + 1)) with (o + i + zlen [b]) by (change (zlen [b]) with 1; lia). rewrite blit_blit; [done|lia|].
      unfold zlen in *. cbn [length app] in *. lia.
    + rewrite zlen_blit; [lia..|]. change (zlen [b]) with 1. lia.
Qed.

(** The IPv4 form, at a position and to an offset of the object. *)
Lemma pton4_spec s p o a : cstring s -> 0 <= p <= zlen s -> 0 <= o -> o + 4 <= zlen a ->
  exists r a', pton4 s p o a = Ok (r, a') /\ zlen a' = zlen a /\ (r = 0 \/ r = 1) /\
    (r = 1 -> exists bs, address4 (drop (Z.to_nat p) s) bs) /\ (forall bs, address4 (drop (Z.to_nat p) s) bs -> r = 1 /\ a' = blit a o bs).
Proof.
  intros Hs Hp Ho Ha. destruct (pton4_sound s o Hs Ho 4 p 0 a) as (r & a' & E & Hl & Hr); try lia. exists r, a'. split; [done|]. split; [done|].
  split; [tauto|]. split.
  - intros ->. destruct Hr as [|(_ & bs & H1 & H2 & H3 & _)]; [done|]. by exists bs.
  - intros bs (H1 & H2 & H3). unfold pton4 in E. rewrite <- H1 in E.
    rewrite pton4_complete in E; try done; [|by intros ->|unfold zlen; lia]. injection E as <- <-. by rewrite Z.add_0_r.
Qed.

(** * IPv6 addresses: the loop over the groups *)

Lemma num_snoc b ds c : num b (ds ++ [c]) = num b ds * b + val c.
Proof. unfold num. by rewrite fold_left_app. Qed.

Lemma num_bound ds : Forall (fun c => is_digit 16 c = true) ds -> Forall (fun c => 0 <= c < 256) ds -> 0 <= num 16 ds < 16 ^ zlen ds.
Proof.
  induction ds as [|c ds IH] using rev_ind; intros Hd Hr; [done|]. apply Forall_app in Hd as [Hd [Hc _]%Forall_cons], Hr as [Hr [Hcr _]%Forall_cons].
  specialize (IH Hd Hr). rewrite num_snoc, zlen_app. change (zlen [c]) with 1. rewrite Z.pow_add_r by (try lia; apply zlen_nonneg).
  unfold is_digit in Hc. pose proof (val_range c Hcr). nia.
Qed.

Lemma group_field s p : cstring s -> let h := field_of 4 (is_digit 16) (drop (Z.to_nat p) s) in
  zlen h <> 0 -> group_text h (num 16 h) /\ u16 (num 16 h) = num 16 h.
Proof.
  intros Hs h Hh. pose proof (zlen_nonneg h). pose proof (length_field 4 (is_digit 16) (drop (Z.to_nat p) s)) as Hl. fold h in Hl.
  assert (zlen h <= 4) as Hl' by (unfold zlen; lia). split; [split_and!; try done; [lia|apply field_of_class]|].
  destruct (num_bound h) as [H0 H1]; [apply field_of_class|by apply cstring_field|].
  apply Z.mod_small. split; [done|]. pose proof (Z.pow_le_mono_r 16 (zlen h) 4 ltac:(lia) Hl'). change (2 ^ 16) with (16 ^ 4). lia.
Qed.

Lemma pton6_step f s p i brk ip : cstring s -> 0 <= p <= zlen s -> 0 <= i <= 7 -> zlen ip = 8 ->
  let r := drop (Z.to_nat p) s in
  let h := field_of 4 (is_digit 16) r in
  let q := p + zlen h in
  pton6_loop (S f) s p i brk ip =
    if (schar r 0 =? ch ":") && (brk <? 0) then
      let ip := blit ip i [0] in
      if schar (drop (Z.to_nat (p + 1)) s) 0 =? 0 then Ok (Some (Groups i i ip false (p + 1)))
      else if i =? 7 then Ok None else pton6_loop f s (p + 1) (i + 1) i ip
    else if zlen h =? 0 then Ok None
    else
      let ip := blit ip i [num 16 h] in
      let c := schar (drop (Z.to_nat q) s) 0 in
      if (c =? 0) && ((0 <=? brk) || (i =? 7)) then Ok (Some (Groups i brk ip false p))
      else if i =? 7 then Ok None
      else if negb (c =? ch ":") then
        if negb (c =? ch ".") || ((i <? 6) && (brk <? 0)) then Ok None else Ok (Some (Groups (i + 1) brk ip true p))
      else pton6_loop f s (q + 1) (i + 1) brk ip.
Proof.
  intros Hs Hp Hi Hip r h q. destruct (field_end 4 (is_digit 16) s p Hp) as [Hq E]. fold r h q in Hq, E. pose proof (zlen_nonneg h).
  assert (Z.land i 7 = i) as Ei by (change 7 with (Z.ones 3); rewrite Z.land_ones by lia; apply Z.mod_small; lia).
  cbn [pton6_loop]. rewrite at_head by done. cbn [obind]. fold r. rewrite Ei. rewrite !zset_blit by lia.
  destruct ((schar r 0 =? ch ":") && (brk <? 0)) eqn:Ec.
  - cbn [obind]. apply andb_true_iff in Ec as [Ec _]. apply Z.eqb_eq in Ec. destruct (position_cases s p Hs Hp) as [[E2 _]|(c & r' & E2 & Hc & E3 & Hle)].
    { unfold r in Ec. by rewrite E2 in Ec. }
    rewrite at_head by lia. done.
  - rewrite hex_digits_run by (done || lia). rewrite !Z.add_0_r. fold r h. cbn [obind]. rewrite Z.add_0_l. change (fold_left _ h 0) with (num 16 h).
    destruct (Z.eqb_spec (zlen h) 0); [done|]. pose proof (group_field s p Hs) as G. cbv zeta in G. fold r h in G. destruct G as [_ ->]; [done|]. fold q. rewrite zset_blit by lia. cbn [obind].
    rewrite at_head by (unfold q; lia). done.
Qed.

(** Groups with a colon behind each. *)
Definition ended (hs : list (list Z)) : list Z := concat (map (fun h => h ++ [ch ":"]) hs).

Lemma ended_cons h hs : ended (h :: hs) = h ++ ch ":" :: ended hs.
Proof. unfold ended. cbn. by rewrite <- app_assoc. Qed.

(** What the loop has done from position [p] with group [i] on, when it stops without
    a further gap: [r] is the text from [p]. *)
Inductive tail_result (s r : list Z) (i : Z) (ip : list Z) (brk : Z) : groups -> Prop :=
| TR_groups ws p : pieces6 r ws -> i + zlen ws <= 8 -> 0 <= brk \/ i + zlen ws = 8 ->
    tail_result s r i ip brk (Groups (i + zlen ws - 1) brk (blit ip i ws) false p)
| TR_dotted hs ws x p : Forall2 group_text hs ws -> r = ended hs ++ drop (Z.to_nat p) s -> 0 <= p <= zlen s ->
    i + zlen ws + 2 <= 8 -> 0 <= brk \/ i + zlen ws + 2 = 8 ->
    tail_result s r i ip brk (Groups (i + zlen ws + 1) brk (blit ip i (ws ++ [x])) true p).

(** The same, with a gap before the end. *)
Inductive gap_result (s r : list Z) (i : Z) (ip : list Z) : groups -> Prop :=
| GR_last hs ws p : Forall2 group_text hs ws -> r = ended hs ++ [ch ":"] -> i + zlen ws <= 7 ->
    gap_result s r i ip (Groups (i + zlen ws) (i + zlen ws) (blit ip i (ws ++ [0])) false p)
| GR_more hs ws t g : Forall2 group_text hs ws -> r = ended hs ++ ch ":" :: t -> i + zlen ws < 7 ->
    tail_result s t (i + zlen ws + 1) (blit ip i (ws ++ [0])) (i + zlen ws) g -> gap_result s r i ip g.

Lemma blit_snoc ip i v ws : 0 <= i -> i + 1 + zlen ws <= zlen ip -> blit (blit ip i [v]) (i + 1) ws = blit ip i (v :: ws).
Proof. intros Hi Hl. change (i + 1) with (i + zlen [v]). apply blit_blit; [done|]. change ([v] ++ ws) with (v :: ws). rewrite zlen_cons. lia. Qed.

Lemma tail_result_cons s h v r i ip brk g : zlen ip = 8 -> 0 <= i -> group_text h v ->
  tail_result s r (i + 1) (blit ip i [v]) brk g -> tail_result s (h ++ ch ":" :: r) i ip brk g.
Proof.
  intros Hl Hi Hh [ws p Hp Hle Hb|hs ws x p Hf -> Hp Hle Hb].
  - rewrite blit_snoc by lia. replace (i + 1 + zlen ws - 1) with (i + zlen (v :: ws) - 1) by (rewrite zlen_cons; lia).
    apply TR_groups; [by constructor|rewrite zlen_cons; lia..].
  - rewrite blit_snoc by (rewrite ?zlen_app; change (zlen [x]) with 1; lia).
    replace (i + 1 + zlen ws + 1) with (i + zlen (v :: ws) + 1) by (rewrite zlen_cons; lia). change (v :: ws ++ [x]) with ((v :: ws) ++ [x]).
    apply (TR_dotted _ _ _ _ _ (h :: hs)); [by constructor| |done|rewrite zlen_cons; lia..]. by rewrite ended_cons, <- app_assoc.
Qed.

Lemma gap_result_cons s h v r i ip g : zlen ip = 8 -> 0 <= i -> group_text h v ->
  gap_result s r (i + 1) (blit ip i [v]) g -> gap_result s (h ++ ch ":" :: r) i ip g.
Proof.
  intros Hl Hi Hh [hs ws p Hf -> Hle|hs ws t g' Hf -> Hle Ht].
  - rewrite blit_snoc by (rewrite ?zlen_app; change (zlen [0]) with 1; lia).
    replace (i + 1 + zlen ws) with (i + zlen (v :: ws)) by (rewrite zlen_cons; lia). change (v :: ws ++ [0]) with ((v :: ws) ++ [0]).
    apply (GR_last _ _ _ _ (h :: hs)); [by constructor| |rewrite zlen_cons; lia]. by rewrite ended_cons, <- app_assoc.
  - rewrite blit_snoc in Ht by (rewrite ?zlen_app; change (zlen [0]) with 1; lia).
    replace (i + 1 + zlen ws) with (i + zlen (v :: ws)) in Ht by (rewrite zlen_cons; lia).
    apply (GR_more _ _ _ _ (h :: hs) (v :: ws) t); [by constructor| |rewrite zlen_cons; lia|done]. by rewrite ended_cons, <- app_assoc.
Qed.

Lemma pton6_sound s : cstring s -> forall f p i brk ip, (8 - i < Z.of_nat f) -> 0 <= p <= zlen s -> 0 <= i <= 7 -> zlen ip = 8 ->
  exists g, pton6_loop f s p i brk ip = Ok g /\
    match g with
    | None => True
    | Some g => let r := drop (Z.to_nat p) s in tail_result s r i ip brk g \/ brk < 0 /\ gap_result s r i ip g
    end.
Proof.
  intros Hs. induction f as [|f IH]; intros p i brk ip Hf Hp Hi Hip; [lia|]. rewrite pton6_step by (done || lia). cbv zeta.
  set (r := drop (Z.to_nat p) s). set (h := field_of 4 (is_digit 16) r). assert (zlen (blit ip i [0]) = 8) as Hl0 by (rewrite zlen_blit; try done; try lia; change (zlen [0]) with 1; lia).
  destruct ((schar r 0 =? ch ":") && (brk <? 0)) eqn:Ec.
  - apply andb_true_iff in Ec as [Ec Hb%Z.ltb_lt]. destruct (position_cases s p Hs Hp) as [[E _]|(c & r' & E & Hc & E' & Hle)]; fold r in E; rewrite E in Ec.
    { done. }
    change (schar (c :: r') 0) with c in Ec. apply Z.eqb_eq in Ec as ->. rewrite E'. destruct r' as [|c' r'].
    + eexists. split; [done|]. right. split; [done|]. rewrite E. replace i with (i + zlen (@nil Z)) at 2 3 by (change (zlen []) with 0; lia).
      apply (GR_last s _ i ip [] []); [constructor|done|change (zlen []) with 0; lia].
    + destruct (position_cases s (p + 1) Hs ltac:(lia)) as [[E2 _]|(c2 & r2 & E2 & Hc2 & _)]; rewrite E' in E2; [done|]. injection E2 as <- <-.
      change (schar (c' :: r') 0) with c'. rewrite (proj2 (Z.eqb_neq c' 0)) by lia. destruct (Z.eqb_spec i 7); [by exists None|].
      destruct (IH (p + 1) (i + 1) i (blit ip i [0])) as ([g|] & -> & H); try lia; [|by exists None]. eexists. split; [done|]. right. split; [done|].
      cbv zeta in H. rewrite E' in H. destruct H as [H|[? _]]; [|lia]. rewrite E. apply (GR_more _ _ _ _ [] [] (c' :: r')); try done.
      * change (zlen []) with 0. lia.
      * change (zlen []) with 0. by rewrite !Z.add_0_r.
  - destruct (Z.eqb_spec (zlen h) 0) as [|Hh]; [by exists None|]. destruct (group_field s p Hs Hh) as [Hg _]. fold r h in Hg.
    destruct (field_end 4 (is_digit 16) s p Hp) as [Hq E]. fold r h in Hq, E. pose proof (zlen_nonneg h).
    set (v := num 16 h) in *. set (c := schar (drop (Z.to_nat (p + zlen h)) s) 0).
    assert (zlen (blit ip i [v]) = 8) as Hl1 by (rewrite zlen_blit; try done; try lia; change (zlen [v]) with 1; lia).
    destruct (position_cases s (p + zlen h) Hs ltac:(lia)) as [[E2 _]|(c2 & r2 & E2 & Hc2 & E3 & Hle)]; rewrite E2 in E; unfold c; rewrite E2.
    + change (schar [] 0 =? 0) with true. cbn [andb]. rewrite app_nil_r in E. destruct ((0 <=? brk) || (i =? 7)) eqn:Eb.
      * eexists. split; [done|]. left. replace i with (i + zlen [v] - 1) at 2 by (change (zlen [v]) with 1; lia). rewrite E.
        apply orb_true_iff in Eb. constructor; [by constructor|change (zlen [v]) with 1; lia..].
      * change (schar [] 0 =? ch ":") with false. change (schar [] 0 =? ch ".") with false. cbn [negb orb]. destruct (i =? 7); by exists None.
    + change (schar (c2 :: r2) 0) with c2. rewrite (proj2 (Z.eqb_neq c2 0)) by lia. cbn [andb]. destruct (Z.eqb_spec i 7); [by exists None|].
      destruct (Z.eqb_spec c2 (ch ":")) as [-> |]; cbn [negb].
      * destruct (IH (p + zlen h + 1) (i + 1) brk (blit ip i [v])) as ([g|] & -> & H'); try lia; [|by exists None]. eexists. split; [done|].
        cbv zeta in H'. rewrite E3 in H'. rewrite E. destruct H' as [H'|[? H']]; [left|right; split; [done|]].
        -- apply tail_result_cons with v; try done; lia.
        -- apply gap_result_cons with v; try done; lia.
      * destruct (Z.eqb_spec c2 (ch ".")) as [-> |]; cbn [negb orb]; [|by exists None]. destruct ((i <? 6) && (brk <? 0)) eqn:Eb; [by exists None|].
        eexists. split; [done|]. left. replace (i + 1) with (i + zlen (@nil Z) + 1) by (change (zlen []) with 0; lia). change [v] with ([] ++ [v]).
        apply andb_false_iff in Eb. apply (TR_dotted _ _ _ _ _ []); try done; [change (zlen []) with 0; lia..].
Qed.

(** A round on a group of the text. *)
Lemma pton6_group f s p i brk ip h v rest : cstring s -> 0 <= p <= zlen s -> 0 <= i <= 7 -> zlen ip = 8 ->
  group_text h v -> drop (Z.to_nat p) s = h ++ rest -> starts_with_not (is_digit 16) rest ->
  let ip' := blit ip i [v] in
  let c := schar rest 0 in
  pton6_loop (S f) s p i brk ip =
    if (c =? 0) && ((0 <=? brk) || (i =? 7)) then Ok (Some (Groups i brk ip' false p))
    else if i =? 7 then Ok None
    else if negb (c =? ch ":") then
      if negb (c =? ch ".") || ((i <? 6) && (brk <? 0)) then Ok None else Ok (Some (Groups (i + 1) brk ip' true p))
    else pton6_loop f s (p + zlen h + 1) (i + 1) brk ip'.
Proof.
  intros Hs Hp Hi Hip (Hl & Hd & ->) E Hr. rewrite pton6_step by done. cbv zeta.
  assert (field_of 4 (is_digit 16) (drop (Z.to_nat p) s) = h) as Ef by (rewrite E; apply field_of_app; try done; unfold zlen in Hl; lia).
  destruct (field_end 4 (is_digit 16) s p Hp) as [Hq E2]. rewrite Ef in Hq, E2 |- *. rewrite E in E2. apply app_inv_head in E2. rewrite <- E2.
  rewrite (proj2 (Z.eqb_neq (zlen h) 0)) by lia. replace (schar (drop (Z.to_nat p) s) 0 =? ch ":") with false; [done|].
  rewrite E. destruct h as [|c h]; [change (zlen []) with 0 in Hl; lia|]. apply Forall_cons in Hd as [Hc _]. symmetry. apply Z.eqb_neq. change (schar ((c :: h) ++ rest) 0) with c. by intros ->.
Qed.

(** The position behind a group and its separator. *)
Lemma next_piece (s : list Z) p h c rest : 0 <= p <= zlen s -> drop (Z.to_nat p) s = h ++ c :: rest ->
  p + zlen h + 1 <= zlen s /\ drop (Z.to_nat (p + zlen h + 1)) s = rest.
Proof.
  intros Hp E. pose proof (f_equal zlen E) as El. rewrite zlen_drop, zlen_app, zlen_cons in El by done. pose proof (zlen_nonneg rest). split; [lia|].
  replace (Z.to_nat (p + zlen h + 1)) with (Z.to_nat p + length (h ++ [c]))%nat by (rewrite length_app; unfold zlen in *; cbn; lia).
  rewrite <- drop_drop, E. change (h ++ c :: rest) with (h ++ [c] ++ rest). by rewrite app_assoc, drop_app_length.
Qed.

(** What the loop ends with on groups of the values [ws]. *)
Inductive done_as (s : list Z) (i : Z) (ip : list Z) (brk : Z) (ws : list Z) : groups -> Prop :=
| DA_groups p : done_as s i ip brk ws (Groups (i + zlen ws - 1) brk (blit ip i ws) false p)
| DA_dotted wh x bs p : ws = wh ++ words_of bs -> address4 (drop (Z.to_nat p) s) bs -> 0 <= p <= zlen s -> brk < i + zlen wh ->
    done_as s i ip brk ws (Groups (i + zlen wh + 1) brk (blit ip i (wh ++ [x])) true p).

Lemma words_of_two t bs : address4 t bs -> zlen (words_of bs) = 2.
Proof. intros (H & _ & _). by destruct bs as [|? [|? [|? [|? [|]]]]]. Qed.

Lemma done_as_cons s i ip brk v ws g : zlen ip = 8 -> 0 <= i -> i + 1 + zlen ws <= 8 ->
  done_as s (i + 1) (blit ip i [v]) brk ws g -> done_as s i ip brk (v :: ws) g.
Proof.
  intros Hl Hi Hle [p|wh x bs p -> Ha Hp Hb].
  - rewrite blit_snoc by lia. replace (i + 1 + zlen ws - 1) with (i + zlen (v :: ws) - 1) by (rewrite zlen_cons; lia). constructor.
  - pose proof (words_of_two _ bs Ha) as Hw. rewrite zlen_app, Hw in Hle.
    rewrite blit_snoc by (rewrite ?zlen_app; change (zlen [x]) with 1; lia).
    replace (i + 1 + zlen wh + 1) with (i + zlen (v :: wh) + 1) by (rewrite zlen_cons; lia). change (v :: wh ++ [x]) with ((v :: wh) ++ [x]).
    apply (DA_dotted _ _ _ _ _ (v :: wh) x bs); try done. rewrite zlen_cons. lia.
Qed.

Lemma address4_first t bs : address4 t bs -> exists b rest, is_byte b /\ t = decimal b ++ ch "." :: rest.
Proof.
  intros (Hl & Hb & ->). destruct bs as [|b0 [|b1 [|b2 [|b3 [|]]]]]; try done. apply Forall_cons in Hb as [Hb _]. eexists b0, _. split; [done|]. reflexivity.
Qed.

Lemma pieces6_nonempty t ws : pieces6 t ws -> t <> [] /\ 0 < zlen ws.
Proof.
  intros [h v (H & _)|s bs H|h v s ws' _ _].
  - split; [|done]. intros ->. change (zlen []) with 0 in H. lia.
  - rewrite (words_of_two s bs H). destruct (address4_first _ _ H) as (b & rest & _ & ->). split; [by destruct (decimal b)|lia].
  - rewrite zlen_cons. pose proof (zlen_nonneg ws'). split; [by destruct h|lia].
Qed.

Lemma decimal_group b : is_byte b -> group_text (decimal b) (num 16 (decimal b)).
Proof.
  intros Hb. destruct (decimal_field b Hb) as (Hd & Hl & Hbad & _). split_and!; try done.
  - destruct (decimal b) eqn:E; [done|]. rewrite zlen_cons. pose proof (zlen_nonneg l). lia.
  - unfold zlen. lia.
  - eapply Forall_impl; [apply decimal_chars; unfold is_byte in Hb; lia|]. cbn. intros c Hc.
    assert (forall d, 0 <= d < 10 -> is_digit 16 (48 + d) = true) as H by (apply forall_below; vm_compute; reflexivity).
    replace c with (48 + (c - 48)) by lia. apply H. lia.
Qed.

Lemma pton6_complete s : cstring s -> forall r ws, pieces6 r ws -> forall f p i brk ip, drop (Z.to_nat p) s = r -> zlen ws <= Z.of_nat f ->
  0 <= p <= zlen s -> 0 <= i -> i + zlen ws <= 8 -> zlen ip = 8 -> 0 <= brk \/ i + zlen ws = 8 ->
  brk < i -> exists g, pton6_loop f s p i brk ip = Ok (Some g) /\ done_as s i ip brk ws g.
Proof.
  intros Hs r ws Hr. induction Hr as [h v Hh|t bs Ht|h v t ws Hh Ht IH]; intros f p i brk ip E Hf Hp Hi Hle Hip Hb Hbi.
  - change (zlen [v]) with 1 in *. destruct f as [|f]; [lia|]. rewrite (pton6_group f s p i brk ip h v []); try done; try lia; [|by rewrite app_nil_r].
    cbv zeta. change (schar [] 0 =? 0) with true. assert ((0 <=? brk) || (i =? 7) = true) as -> by lia. eexists. split; [done|].
    replace i with (i + zlen [v] - 1) at 2 by (change (zlen [v]) with 1; lia). constructor.
  - destruct (address4_first t bs Ht) as (b & rest & Hbb & Et).
    pose proof (words_of_two t bs Ht) as Hw. rewrite Hw in *.
    destruct f as [|f]; [lia|]. rewrite (pton6_group f s p i brk ip (decimal b) (num 16 (decimal b)) (ch "." :: rest)); try done; try lia; [|by apply decimal_group|by rewrite E].
    cbv zeta. change (schar (ch "." :: rest) 0) with (ch "."). cbn [Z.eqb Pos.eqb andb negb orb]. rewrite (proj2 (Z.eqb_neq i 7)) by lia.
    assert ((i <? 6) && (brk <? 0) = false) as -> by lia. eexists. split; [done|].
    replace (i + 1) with (i + zlen (@nil Z) + 1) by (change (zlen []) with 0; lia). apply (DA_dotted _ _ _ _ _ [] _ bs); [done|by rewrite E|done|]. change (zlen []) with 0. lia.
  - rewrite zlen_cons in *. pose proof (zlen_nonneg ws). destruct f as [|f]; [lia|].
    destruct (pieces6_nonempty t ws Ht) as [_ Hpos].
    rewrite (pton6_group f s p i brk ip h v (ch ":" :: t)); try done; try lia. cbv zeta. change (schar (ch ":" :: t) 0) with (ch ":").
    cbn [Z.eqb Pos.eqb andb negb orb]. rewrite (proj2 (Z.eqb_neq i 7)) by lia. destruct (next_piece s p h (ch ":") t Hp E) as [Hle' E'].
    destruct (IH f (p + zlen h + 1) (i + 1) brk (blit ip i [v])) as (g & -> & Hg); try done; try lia.
    + pose proof (zlen_nonneg h). lia.
    + rewrite zlen_blit; [done|lia|]. change (zlen [v]) with 1. lia.
    + exists g. split; [done|]. apply done_as_cons; [done|lia..|done].
Qed.

Lemma pton6_gap_complete s t wb : cstring s -> (t = [] /\ wb = []) \/ pieces6 t wb -> forall hs wa, Forall2 group_text hs wa -> forall f p i brk ip,
  drop (Z.to_nat p) s = ended hs ++ ch ":" :: t -> zlen wa + 1 + zlen wb <= Z.of_nat f ->
  0 <= p <= zlen s -> 0 <= i -> i + zlen wa + 1 + zlen wb <= 8 -> zlen ip = 8 -> brk < 0 ->
  exists g, pton6_loop f s p i brk ip = Ok (Some g) /\ done_as s i ip (i + zlen wa) (wa ++ 0 :: wb) g.
Proof.
  intros Hs Ht hs wa Hh. induction Hh as [|h v hs wa Hh Hhs IH]; intros f p i brk ip E Hf Hp Hi Hle Hip Hb; pose proof (zlen_nonneg wb).
  - change (zlen []) with 0 in *. cbn [ended map concat app] in E. destruct f as [|f]; [lia|]. rewrite pton6_step by (done || lia). cbv zeta.
    rewrite E. change (schar (ch ":" :: t) 0) with (ch ":"). rewrite (proj2 (Z.ltb_lt brk 0)) by done. cbn [Z.eqb Pos.eqb andb].
    destruct (next_piece s p [] (ch ":") t Hp E) as [Hle' E']. change (zlen []) with 0 in *. rewrite Z.add_0_r in *. rewrite E'. cbn [app].
    assert (zlen (blit ip i [0]) = 8) as Hl by (rewrite zlen_blit; [done|lia|change (zlen [0]) with 1; lia]).
    destruct Ht as [[-> ->]|Ht].
    + change (schar [] 0 =? 0) with true. eexists. split; [done|]. replace i with (i + zlen [0] - 1) at 3 by (change (zlen [0]) with 1; lia). constructor.
    + destruct (pton6_complete s Hs t wb Ht f (p + 1) (i + 1) i (blit ip i [0])) as (g & Eg & Hg); try done; try lia.
      destruct (pieces6_nonempty t wb Ht) as [Hne Hpos]. rewrite Eg, (proj2 (Z.eqb_neq i 7)) by lia.
      destruct (position_cases s (p + 1) Hs ltac:(lia)) as [[E2 _]|(c & r & E2 & Hc & _)]; rewrite E' in E2; [done|].
      rewrite E2. change (schar (c :: r) 0) with c. rewrite (proj2 (Z.eqb_neq c 0)) by lia. exists g. split; [done|]. apply done_as_cons; [done|lia..|done].
  - rewrite zlen_cons in *. pose proof (zlen_nonneg wa). destruct f as [|f]; [lia|]. rewrite ended_cons, <- app_assoc in E.
    rewrite (pton6_group f s p i brk ip h v (ch ":" :: ended hs ++ ch ":" :: t)); try done; try lia. cbv zeta.
    change (schar (ch ":" :: _) 0) with (ch ":"). cbn [Z.eqb Pos.eqb andb negb orb]. rewrite (proj2 (Z.eqb_neq i 7)) by lia.
    destruct (next_piece s p h (ch ":") _ Hp E) as [Hle' E'].
    destruct (IH f (p + zlen h + 1) (i + 1) brk (blit ip i [v])) as (g & -> & Hg); try done; try lia.
    + pose proof (zlen_nonneg h). lia.
    + rewrite zlen_blit; [done|lia|]. change (zlen [v]) with 1. lia.
    + exists g. split; [done|]. cbn [app]. replace (i + (1 + zlen wa)) with (i + 1 + zlen wa) by lia.
      apply done_as_cons; [done|lia| |done]. rewrite zlen_app, zlen_cons. lia.
Qed.

(** * The end of [inet_pton] *)

(** The groups with the gap filled. *)
Definition closed (i b : Z) (ip : list Z) : list Z :=
  take (Z.to_nat b) ip ++ replicate (Z.to_nat (7 - i)) 0 ++ take (Z.to_nat (i + 1 - b)) (drop (Z.to_nat b) ip).

Lemma zero_loop b n : forall j l, 0 <= b -> 0 <= j -> b + j + Z.of_nat n <= zlen l ->
  for_up n j (fun j l => zset l (b + j) 0) l = Ok (blit l (b + j) (replicate n 0)).
Proof.
  induction n as [|n IH]; intros j l Hb Hj Hl; cbn [for_up]; [by rewrite blit_empty|].
  rewrite zset_blit by lia. cbn [obind]. rewrite IH; [|lia..|rewrite zlen_blit; [lia..|change (zlen [0]) with 1; lia]].
  rewrite Z.add_assoc, blit_snoc; [done|lia|]. unfold zlen in *. rewrite length_replicate. lia.
Qed.

Lemma close_gap_spec i b ip : zlen ip = 8 -> 0 <= b <= i -> i <= 7 -> close_gap i b ip = Ok (closed i b ip).
Proof.
  intros Hl Hb Hi. unfold close_gap. rewrite Hl. decide_cmp. cbn [andb]. set (l := take _ _ ++ _).
  assert (length (take (Z.to_nat (i + 1 - b)) (drop (Z.to_nat b) ip)) = Z.to_nat (i + 1 - b)) as Hlen.
  { rewrite length_take, length_drop. unfold zlen in Hl. lia. }
  assert (zlen l = 8) as Hl'. { unfold l, zlen in *. rewrite !length_app, Hlen, length_take, length_drop. lia. }
  rewrite zero_loop by (rewrite ?Hl'; lia). f_equal. unfold blit, closed. rewrite Z.add_0_r, length_replicate. unfold l, zlen in *. f_equal.
  - rewrite take_app_le by (rewrite length_take; lia). rewrite take_take. f_equal. lia.
  - f_equal. rewrite drop_app_ge by (rewrite length_take; lia). rewrite length_take, Nat.min_l by lia.
    replace (Z.to_nat b + Z.to_nat (7 - i) - Z.to_nat (b + 7 - i))%nat with O by lia. rewrite drop_0, (drop_ge ip (Z.to_nat (b + 7 - i + (i + 1 - b)))) by lia. by rewrite app_nil_r.
Qed.

Lemma zlen_closed i b ip : zlen ip = 8 -> 0 <= b <= i -> i <= 7 -> zlen (closed i b ip) = 8.
Proof. intros Hl Hb Hi. unfold closed, zlen in *. rewrite !length_app, length_replicate, !length_take, length_drop. lia. Qed.

Definition final_words (g : groups) : list Z := if 0 <=? g_brk g then closed (g_i g) (g_brk g) (g_ip g) else g_ip g.

(** The code behind the loop. *)
Definition finish (s a : list Z) (g : groups) : outcome (Z * list Z * option Z) :=
  let! ip := if 0 <=? g_brk g then close_gap (g_i g) (g_brk g) (g_ip g) else Ok (g_ip g) in
  let! a := if zlen a =? 16 then Ok (group_bytes ip) else UB in
  if g_v4 g then
    let! (r, a) := pton4 s (g_p g) 12 a in
    Ok (if r <=? 0 then 0 else 1, a, None)
  else Ok (1, a, None).

Definition well_shaped (s : list Z) (g : groups) : Prop :=
  zlen (g_ip g) = 8 /\ 0 <= g_i g <= 7 /\ (g_brk g < 0 \/ 0 <= g_brk g <= g_i g) /\ (g_v4 g = true -> 0 <= g_p g <= zlen s).

Lemma zlen_group_bytes ip : zlen (group_bytes ip) = 2 * zlen ip.
Proof. unfold group_bytes. induction ip as [|x ip IH]; [done|]. cbn [map concat]. rewrite zlen_app, IH, !zlen_cons. change (zlen []) with 0. lia. Qed.

Lemma finish_spec s a g : cstring s -> zlen a = 16 -> well_shaped s g ->
  exists r a', finish s a g = Ok (r, a', None) /\ zlen a' = 16 /\
    if g_v4 g then (r = 0 \/ r = 1) /\ (r = 1 -> exists bs, address4 (drop (Z.to_nat (g_p g)) s) bs) /\
      (forall bs, address4 (drop (Z.to_nat (g_p g)) s) bs -> r = 1 /\ a' = blit (group_bytes (final_words g)) 12 bs)
    else r = 1 /\ a' = group_bytes (final_words g).
Proof.
  intros Hs Ha (Hl & Hi & Hb & Hp). unfold finish.
  assert ((if 0 <=? g_brk g then close_gap (g_i g) (g_brk g) (g_ip g) else Ok (g_ip g)) = Ok (final_words g) /\ zlen (final_words g) = 8) as [-> Hf].
  { unfold final_words. destruct (Z.leb_spec 0 (g_brk g)); [|done]. rewrite close_gap_spec, zlen_closed by lia. done. }
  cbn [obind]. rewrite Ha, Z.eqb_refl. cbn [obind]. assert (zlen (group_bytes (final_words g)) = 16) as H16 by (rewrite zlen_group_bytes; lia).
  destruct (g_v4 g); [|by eexists _, _].
  destruct (pton4_spec s (g_p g) 12 (group_bytes (final_words g)) Hs (Hp eq_refl)) as (r & a' & -> & Hl' & Hr & H1 & H2); [lia..|].
  cbn [obind]. eexists _, a'. split; [done|]. split; [lia|]. destruct Hr as [-> | ->]; cbn; naive_solver.
Qed.

(** The groups with zeros put in for the gap at [brk]. *)
Definition filled6 (brk : Z) (ws : list Z) : list Z :=
  if brk <? 0 then ws else take (Z.to_nat brk) ws ++ replicate (Z.to_nat (8 - zlen ws)) 0 ++ drop (Z.to_nat brk) ws.

Lemma word_bytes a b : is_byte a -> is_byte b -> u8 (Z.shiftr (256 * a + b) 8) = a /\ u8 (256 * a + b) = b.
Proof.
  unfold is_byte. intros Ha Hb. unfold u8. rewrite Z.shiftr_div_pow2 by lia. change (2 ^ 8) with 256.
  rewrite (Z.mul_comm 256 a), Z.div_add_l, (Z.div_small b), Z.add_0_r, (Z.mod_small a) by lia. split; [done|].
  rewrite Z.add_comm, Z.mod_add, Z.mod_small by lia. done.
Qed.

Lemma group_bytes_app a b : group_bytes (a ++ b) = group_bytes a ++ group_bytes b.
Proof. unfold group_bytes. by rewrite map_app, concat_app. Qed.

Lemma group_bytes_words t bs : address4 t bs -> group_bytes (words_of bs) = bs.
Proof.
  intros (Hl & Hb & _). destruct bs as [|a [|b [|c [|d [|]]]]]; try done. rewrite !Forall_cons in Hb. destruct Hb as (Ha & Hb & Hc & Hd & _).
  cbn. destruct (word_bytes a b Ha Hb) as [-> ->], (word_bytes c d Hc Hd) as [-> ->]. done.
Qed.

(** The dotted address replaces the last two groups. *)
Lemma blit_dotted t l x y bs : address4 t bs -> zlen l = 6 -> blit (group_bytes (l ++ [x; y])) 12 bs = group_bytes (l ++ words_of bs).
Proof.
  intros Ha Hl. rewrite !group_bytes_app, (group_bytes_words t bs Ha). destruct Ha as (H4 & _ & _). unfold blit. change (Z.to_nat 12) with 12%nat. rewrite H4.
  assert (length (group_bytes l) = 12%nat) as H12 by (pose proof (zlen_group_bytes l); unfold zlen in *; lia).
  rewrite <- H12 at 1. rewrite take_app_length, drop_app_ge by lia. rewrite H12. change (drop (12 + 4 - 12) (group_bytes [x; y])) with (@nil Z). by rewrite app_nil_r.
Qed.

Lemma blit_0 ip ws : blit ip 0 ws = ws ++ drop (length ws) ip.
Proof. done. Qed.

Lemma closed_prefix b ws rest : 0 <= b < zlen ws -> closed (zlen ws - 1) b (ws ++ rest) = filled6 b ws.
Proof.
  intros Hb. unfold closed, filled6. rewrite (proj2 (Z.ltb_ge b 0)) by lia. unfold zlen in *. rewrite take_app_le, drop_app_le by lia.
  replace (7 - (Z.of_nat (length ws) - 1)) with (8 - Z.of_nat (length ws)) by lia. do 2 f_equal. rewrite take_app_le by (rewrite length_drop; lia).
  apply take_ge. rewrite length_drop. lia.
Qed.

Lemma filled6_app b u w w' : b < 0 \/ 0 <= b <= zlen u -> zlen w = zlen w' -> exists l, filled6 b (u ++ w) = l ++ w /\ filled6 b (u ++ w') = l ++ w'.
Proof.
  intros Hb Hw. unfold filled6. destruct (Z.ltb_spec b 0); [by exists u|]. rewrite !zlen_app, Hw. unfold zlen in *. rewrite !take_app_le, !drop_app_le by lia.
  eexists. rewrite !app_assoc. done.
Qed.

Lemma zlen_filled6 b ws : 0 <= b <= zlen ws /\ zlen ws <= 8 \/ b < 0 /\ zlen ws = 8 -> zlen (filled6 b ws) = 8.
Proof.
  intros H. unfold filled6. destruct (Z.ltb_spec b 0); [lia|]. unfold zlen in *. rewrite !length_app, length_replicate, length_take, length_drop. lia.
Qed.

Lemma done_finish s a ip brk ws g : cstring s -> zlen a = 16 -> zlen ip = 8 -> brk < 0 /\ zlen ws = 8 \/ 0 <= brk < zlen ws /\ zlen ws <= 8 ->
  done_as s 0 ip brk ws g -> finish s a g = Ok (1, group_bytes (filled6 brk ws), None).
Proof.
  intros Hs Ha Hip Hb [p|wh x bs p -> H4 Hp Hbw].
  - destruct (finish_spec s a (Groups (0 + zlen ws - 1) brk (blit ip 0 ws) false p) Hs Ha) as (r & a' & -> & _ & -> & ->).
    { split_and!; cbn; try lia. rewrite zlen_blit; lia. }
    do 3 f_equal. f_equal. unfold final_words. cbn [g_brk g_i g_ip]. rewrite Z.add_0_l. destruct (Z.leb_spec 0 brk).
    + rewrite blit_0, closed_prefix by lia. done.
    + unfold filled6. rewrite (proj2 (Z.ltb_lt brk 0)), blit_0, drop_ge by (unfold zlen in *; lia). by rewrite app_nil_r.
  - pose proof (words_of_two _ bs H4) as Hw. rewrite zlen_app, Hw in Hb.
    assert (exists y rest, blit ip 0 (wh ++ [x]) = (wh ++ [x; y]) ++ rest) as (y & rest & E).
    { rewrite blit_0, length_app. cbn [length]. destruct (drop (length wh + 1) ip) as [|y rest] eqn:E.
      - apply (f_equal length) in E. rewrite length_drop in E. cbn in E. unfold zlen in *. lia.
      - exists y, rest. by rewrite <- !app_assoc. }
    destruct (finish_spec s a (Groups (0 + zlen wh + 1) brk (blit ip 0 (wh ++ [x])) true p) Hs Ha) as (r & a' & -> & _ & _ & _ & H).
    { split_and!; cbn; try lia. rewrite zlen_blit; rewrite ?zlen_app; change (zlen [x]) with 1; lia. }
    destruct (H bs H4) as [-> ->]. do 3 f_equal. f_equal.
    destruct (filled6_app brk wh [x; y] (words_of bs)) as (l & E1 & E2); [lia|done|]. rewrite E2.
    assert (zlen (filled6 brk (wh ++ words_of bs)) = 8) as H8 by (apply zlen_filled6; rewrite zlen_app, Hw; lia).
    rewrite E2, zlen_app, Hw in H8. rewrite <- (blit_dotted _ l x y bs H4) by lia. rewrite <- E1. do 2 f_equal.
    unfold final_words. cbn [g_brk g_i g_ip]. rewrite Z.add_0_l, E.
    assert (zlen (wh ++ [x; y]) = zlen wh + 2) as Hxy by (rewrite zlen_app; done). destruct (Z.leb_spec 0 brk).
    + replace (zlen wh + 1) with (zlen (wh ++ [x; y]) - 1) by lia. apply closed_prefix. lia.
    + unfold filled6. rewrite (proj2 (Z.ltb_lt brk 0)) by lia. apply (f_equal zlen) in E. rewrite zlen_blit, zlen_app, Hxy, Hip in E.
      * destruct rest; [by rewrite app_nil_r|]. rewrite zlen_cons in E. pose proof (zlen_nonneg rest). lia.
      * lia.
      * rewrite zlen_app. change (zlen [x]) with 1. lia.
Qed.

(** * Accepted exactly the addresses *)

Definition dotted_tail (s : list Z) (g : groups) : Prop := g_v4 g = true -> exists bs, address4 (drop (Z.to_nat (g_p g)) s) bs.
Definition after_gap (t wb : list Z) : Prop := (t = [] /\ wb = []) \/ pieces6 t wb.

Lemma pieces6_ended hs ws t wt : Forall2 group_text hs ws -> pieces6 t wt -> pieces6 (ended hs ++ t) (ws ++ wt).
Proof. intros H Ht. induction H as [|h v hs ws Hh _ IH]; [done|]. rewrite ended_cons, <- app_assoc. cbn [app]. by constructor. Qed.

Lemma tail_done s r i ip brk g : tail_result s r i ip brk g -> 0 <= i -> brk < i -> dotted_tail s g ->
  exists ws, pieces6 r ws /\ i + zlen ws <= 8 /\ (0 <= brk \/ i + zlen ws = 8) /\ done_as s i ip brk ws g.
Proof.
  intros [ws p Hp Hle Hb|hs ws x p Hf -> Hp Hle Hb] Hi Hbi Hd.
  - exists ws. split_and!; try done. constructor.
  - destruct (Hd eq_refl) as (bs & H4). cbn in H4. pose proof (words_of_two _ _ H4) as Hw. pose proof (zlen_nonneg ws). exists (ws ++ words_of bs).
    rewrite zlen_app, Hw. split_and!; [by apply pieces6_ended; [|constructor]|lia|lia|]. apply (DA_dotted _ _ _ _ _ ws x bs); try done. lia.
Qed.

Lemma done_as_app s brk ws g us : forall i ip, zlen ip = 8 -> 0 <= i -> i + zlen us + zlen ws <= 8 ->
  done_as s (i + zlen us) (blit ip i us) brk ws g -> done_as s i ip brk (us ++ ws) g.
Proof.
  induction us as [|v us IH]; intros i ip Hl Hi Hle H.
  - change (zlen []) with 0 in H. by rewrite Z.add_0_r, blit_empty in H.
  - rewrite zlen_cons in Hle, H. pose proof (zlen_nonneg us). pose proof (zlen_nonneg ws). cbn [app]. apply done_as_cons; [done..|rewrite zlen_app; lia|].
    apply IH; [|lia|lia|].
    + rewrite zlen_blit; [done..|]. change (zlen [v]) with 1. lia.
    + rewrite blit_snoc by lia. by replace (i + 1 + zlen us) with (i + (1 + zlen us)) by lia.
Qed.

Lemma gap_done s r i ip g : gap_result s r i ip g -> zlen ip = 8 -> 0 <= i -> dotted_tail s g ->
  exists hs wa t wb, Forall2 group_text hs wa /\ r = ended hs ++ ch ":" :: t /\ after_gap t wb /\ i + zlen wa + 1 + zlen wb <= 8 /\
    done_as s i ip (i + zlen wa) (wa ++ 0 :: wb) g.
Proof.
  intros [hs ws p Hf -> Hle|hs ws t g' Hf -> Hle Ht] Hl Hi Hd.
  - exists hs, ws, [], []. change (zlen []) with 0. split_and!; try done; [by left|lia|].
    replace (Groups (i + zlen ws)) with (Groups (i + zlen (ws ++ [0]) - 1)); [constructor|]. f_equal. rewrite zlen_app. change (zlen [0]) with 1. lia.
  - pose proof (zlen_nonneg ws). destruct (tail_done _ _ _ _ _ _ Ht) as (wb & Hp & Hle' & _ & Hdone); [lia..|done|].
    exists hs, ws, t, wb. split_and!; try done; [by right|]. change (0 :: wb) with ([0] ++ wb). rewrite app_assoc.
    assert (zlen (ws ++ [0]) = zlen ws + 1) as Hz by (rewrite zlen_app; done). apply done_as_app; [done..|lia|]. by rewrite Hz, Z.add_assoc.
Qed.

Lemma tail_shape s r i ip brk g : tail_result s r i ip brk g -> zlen ip = 8 -> 0 <= i -> brk < i -> well_shaped s g.
Proof.
  intros [ws p Hp Hle Hb|hs ws x p Hf -> Hp Hle Hb] Hl Hi Hbi; pose proof (zlen_nonneg ws).
  - destruct (pieces6_nonempty _ _ Hp) as [_ Hpos]. split_and!; cbn; try lia. rewrite zlen_blit; lia.
  - split_and!; cbn; try lia. rewrite zlen_blit; rewrite ?zlen_app; change (zlen [x]) with 1; lia.
Qed.

Lemma gap_shape s r i ip g : gap_result s r i ip g -> zlen ip = 8 -> 0 <= i -> well_shaped s g.
Proof.
  intros [hs ws p Hf -> Hle|hs ws t g' Hf -> Hle Ht] Hl Hi; pose proof (zlen_nonneg ws);
    assert (zlen (blit ip i (ws ++ [0])) = 8) as Hz by (rewrite zlen_blit; rewrite ?zlen_app; change (zlen [0]) with 1; lia).
  - split_and!; cbn; try lia; done.
  - eapply tail_shape; [exact Ht|done|lia|lia].
Qed.

(** Where the loop starts. *)
Definition start6 (s : list Z) : option Z :=
  if schar s 0 =? ch ":" then if schar s 1 =? ch ":" then Some 1 else None else Some 0.

Lemma inet_pton6_eq junk s a : inet_pton junk AF_INET6 s a =
  match start6 s with
  | None => Ok (0, a, None)
  | Some p =>
      let! g := pton6_loop 9 s p 0 (-1) (replicate 8 (u16 junk)) in
      match g with None => Ok (0, a, None) | Some g => finish s a g end
  end.
Proof.
  unfold inet_pton, start6. change (AF_INET6 =? AF_INET) with false. change (AF_INET6 =? AF_INET6) with true. cbn [negb].
  pose proof (zlen_nonneg s). rewrite (at_head s 0) by lia. change (drop (Z.to_nat 0) s) with s. cbn [obind]. destruct (Z.eqb_spec (schar s 0) (ch ":")) as [E|]; [|done].
  destruct s as [|c s]; [done|]. rewrite zlen_cons in *. pose proof (zlen_nonneg s). change 1 with (0 + 1) at 1. rewrite at_schar by (rewrite ?zlen_cons; lia). change (drop (Z.to_nat 0) (c :: s)) with (c :: s). cbn [obind].
  by destruct (schar (c :: s) 1 =? ch ":").
Qed.

Definition hex_headed (t : list Z) : Prop := exists c r, t = c :: r /\ is_digit 16 c = true.

Lemma group_headed h v r : group_text h v -> hex_headed (h ++ r).
Proof. intros (Hl & Hd & _). destruct h as [|c h]; [change (zlen []) with 0 in Hl; lia|]. apply Forall_cons in Hd as [Hc _]. by exists c, (h ++ r). Qed.

Lemma pieces6_headed t ws : pieces6 t ws -> hex_headed t.
Proof.
  intros [h v H|s bs H|h v s ws' H _].
  - rewrite <- (app_nil_r h). by eapply group_headed.
  - destruct (address4_first _ _ H) as (b & rest & Hb & ->). eapply group_headed, decimal_group, Hb.
  - by eapply group_headed.
Qed.

Lemma headed_not_colon t : hex_headed (ch ":" :: t) -> False.
Proof. by intros (c & r & [= <- _] & H). Qed.

Lemma headed_schar t : hex_headed t -> (schar t 0 =? ch ":") = false.
Proof. intros (c & r & -> & H). change (schar (c :: r) 0) with c. apply Z.eqb_neq. by intros ->. Qed.

Lemma ended_sep h hs t : ended (h :: hs) ++ ch ":" :: t = sep_by (ch ":") (h :: hs) ++ [ch ":"; ch ":"] ++ t.
Proof.
  revert h. induction hs as [|h' hs IH]; intros h; rewrite ended_cons, <- app_assoc; [done|].
  change (sep_by (ch ":") (h :: h' :: hs)) with (h ++ ch ":" :: sep_by (ch ":") (h' :: hs)). rewrite <- app_assoc. cbn [app]. by rewrite IH.
Qed.

(** The text of an address with a gap, from where the loop starts. *)
Lemma gap_text s hs wa t : Forall2 group_text hs wa -> s = sep_by (ch ":") hs ++ [ch ":"; ch ":"] ++ t ->
  exists p, start6 s = Some p /\ 0 <= p <= zlen s /\ drop (Z.to_nat p) s = ended hs ++ ch ":" :: t.
Proof.
  intros Hf ->. destruct Hf as [|h v hs wa Hh Hf].
  - exists 1. split; [done|]. split; [|done]. cbn [app sep_by]. rewrite !zlen_cons. pose proof (zlen_nonneg t). lia.
  - exists 0. rewrite <- ended_sep. split; [|split; [|done]]; [|pose proof (zlen_nonneg (ended (h :: hs) ++ ch ":" :: t)); lia].
    unfold start6. rewrite headed_schar; [done|]. rewrite ended_cons, <- app_assoc. by eapply group_headed.
Qed.

Lemma filled6_gap wa wb : filled6 (zlen wa) (wa ++ 0 :: wb) = wa ++ replicate (Z.to_nat (8 - (zlen wa + 1 + zlen wb))) 0 ++ 0 :: wb.
Proof.
  unfold filled6. pose proof (zlen_nonneg wa). rewrite (proj2 (Z.ltb_ge _ 0)) by lia. rewrite zlen_app, zlen_cons. unfold zlen. rewrite Nat2Z.id.
  rewrite take_app_length, drop_app_length. do 3 f_equal. lia.
Qed.

Lemma zeros_one k l : replicate k 0 ++ 0 :: l = replicate (S k) 0 ++ l.
Proof. rewrite replicate_S_end, <- app_assoc. done. Qed.

Lemma pton6_accepts junk s a ws : cstring s -> zlen a = 16 -> address6 s ws -> inet_pton junk AF_INET6 s a = Ok (1, group_bytes ws, None).
Proof.
  intros Hs Ha Hw. rewrite inet_pton6_eq. set (ip := replicate 8 (u16 junk)). assert (zlen ip = 8) as Hip by (unfold zlen, ip; by rewrite length_replicate).
  pose proof (zlen_nonneg s). destruct Hw as [s ws Hp H8|s t wa wb k (hs & -> & Hf) Ht Hk H8].
  - assert (start6 s = Some 0) as -> by (unfold start6; by rewrite (headed_schar s (pieces6_headed s ws Hp))).
    destruct (pton6_complete s Hs s ws Hp 9 0 0 (-1) ip) as (g & -> & Hg); try done; try lia. cbn [obind].
    rewrite (done_finish s a ip (-1) ws g) by (done || lia). done.
  - destruct (gap_text _ hs wa t Hf eq_refl) as (p & -> & Hp & E). pose proof (zlen_nonneg wa). pose proof (zlen_nonneg wb).
    destruct (pton6_gap_complete _ t wb Hs Ht hs wa Hf 9 p 0 (-1) ip E) as (g & -> & Hg); try done; try lia. cbn [obind].
    rewrite (done_finish _ a ip (zlen wa) (wa ++ 0 :: wb) g) by (done || (rewrite zlen_app, zlen_cons; lia)).
    rewrite filled6_gap, zeros_one. by replace (S (Z.to_nat (8 - (zlen wa + 1 + zlen wb)))) with (Z.to_nat k) by lia.
Qed.

Lemma pton6_total junk s a : cstring s -> zlen a = 16 -> exists r a', inet_pton junk AF_INET6 s a = Ok (r, a', None) /\ zlen a' = 16 /\
  (r = 0 \/ r = 1 /\ exists ws, address6 s ws).
Proof.
  intros Hs Ha. rewrite inet_pton6_eq. destruct (start6 s) as [p|] eqn:Ep; [|by exists 0, a; auto].
  set (ip := replicate 8 (u16 junk)). assert (zlen ip = 8) as Hip by (unfold zlen, ip; by rewrite length_replicate). pose proof (zlen_nonneg s).
  assert (0 <= p <= zlen s /\ (p = 0 /\ schar s 0 <> ch ":" \/ exists t, p = 1 /\ s = ch ":" :: ch ":" :: t)) as [Hp Hcase].
  { unfold start6 in Ep. destruct (Z.eqb_spec (schar s 0) (ch ":")) as [E|]; [|injection Ep as <-; split; [lia|by left]].
    destruct s as [|c [|c' t]]; try done. change (schar (c :: c' :: t) 0) with c in E. change (schar (c :: c' :: t) 1) with c' in Ep.
    destruct (Z.eqb_spec c' (ch ":")); [|done]. injection Ep as <-. subst. rewrite !zlen_cons in *. pose proof (zlen_nonneg t). split; [lia|]. right. by exists t. }
  destruct (pton6_sound s Hs 9 p 0 (-1) ip) as ([g|] & -> & Hg); try lia; cbn [obind]; [|by exists 0, a; auto]. cbv zeta in Hg.
  assert (well_shaped s g) as Hsh by (destruct Hg as [Hg|[_ Hg]]; [eapply tail_shape|eapply gap_shape]; try exact Hg; try done; lia).
  destruct (finish_spec s a g Hs Ha Hsh) as (r & a' & -> & Hl & Hr). exists r, a'. split; [done|]. split; [done|].
  destruct (decide (r = 1)) as [-> |]; [right; split; [done|]|destruct (g_v4 g); naive_solver].
  assert (dotted_tail s g) as Hd. { intros Hv. rewrite Hv in Hr. destruct Hr as (_ & Hr & _). by apply Hr. }
  destruct Hg as [Hg|[_ Hg]].
  - destruct (tail_done _ _ _ _ _ _ Hg) as (ws & Hw & _ & H8 & _); [lia..|done|]. destruct Hcase as [[-> _]|(t & -> & ->)].
    + exists ws. constructor; [exact Hw|lia].
    + destruct (headed_not_colon t). by eapply pieces6_headed.
  - destruct (gap_done _ _ _ _ _ Hg) as (hs & wa & t & wb & Hf & E & Ht & H8 & _); [done..|]. pose proof (zlen_nonneg wa). pose proof (zlen_nonneg wb).
    assert (s = sep_by (ch ":") hs ++ [ch ":"; ch ":"] ++ t) as ->.
    { destruct Hcase as [[-> Hc]|(t' & -> & ->)]; [change (drop (Z.to_nat 0) s) with s in E|]; destruct Hf as [|h v hs wa Hh Hf].
      - by rewrite E in Hc.
      - rewrite E. apply ended_sep.
      - cbn in E |- *. by injection E as ->.
      - destruct (headed_not_colon t'). change (drop (Z.to_nat 1) (ch ":" :: ch ":" :: t')) with (ch ":" :: t') in E. rewrite E, ended_cons, <- app_assoc. by eapply group_headed. }
    eexists. apply (A6_gap _ t wa wb (8 - zlen wa - zlen wb)); [by exists hs|done|lia|lia].
Qed.

Lemma blit_all a bs : zlen a = zlen bs -> blit a 0 bs = bs.
Proof. intros H. rewrite blit_0, drop_ge by (unfold zlen in *; lia). apply app_nil_r. Qed.

(** C30: for every C string, [inet_pton] stays in the text and in the object and
    returns 1 exactly for the textual forms of the family: four decimal numbers from 0
    to 255 without leading zeros for IPv4; for IPv6 eight groups of one to four
    hexadecimal digits, of which one gap may stand for one or more zero groups and a
    dotted address for the last two.  The bytes stored then are those of the address;
    every other text gives 0 and every other family -1 with [EAFNOSUPPORT]. *)
Theorem inet_pton_correct junk s a : cstring s ->
  (zlen a = 4 -> exists r a', inet_pton junk AF_INET s a = Ok (r, a', None) /\ (r = 0 \/ r = 1) /\
    (r = 1 <-> exists bs, address4 s bs) /\ forall bs, address4 s bs -> a' = bs) /\
  (zlen a = 16 -> exists r a', inet_pton junk AF_INET6 s a = Ok (r, a', None) /\ (r = 0 \/ r = 1) /\
    (r = 1 <-> exists ws, address6 s ws) /\ forall ws, address6 s ws -> a' = group_bytes ws) /\
  forall af, af <> AF_INET -> af <> AF_INET6 -> inet_pton junk af s a = Ok (-1, a, Some EAFNOSUPPORT).
Proof.
  intros Hs. split; [|split].
  - intros Ha. pose proof (zlen_nonneg s). unfold inet_pton. rewrite Z.eqb_refl.
    destruct (pton4_spec s 0 0 a Hs) as (r & a' & -> & Hl & Hr & H1 & H2); [lia..|]. change (drop (Z.to_nat 0) s) with s in *. cbn [obind].
    exists r, a'. split_and!; [done|done|split; [done|]|].
    + intros (bs & Hbs). by apply (H2 bs).
    + intros bs Hbs. destruct (H2 bs Hbs) as [_ ->]. apply blit_all. destruct Hbs as (H4 & _). unfold zlen in *. lia.
  - intros Ha. destruct (pton6_total junk s a Hs Ha) as (r & a' & E & _ & Hr). exists r, a'.
    assert (forall ws, address6 s ws -> r = 1 /\ a' = group_bytes ws) as Hw by (intros ws Hws; rewrite (pton6_accepts junk s a ws) in E by done; by injection E as <- <-).
    split_and!; [done|tauto|split; [|intros [ws Hws]; by apply (Hw ws)]|intros ws Hws; by apply Hw]. destruct Hr as [-> |[_ ?]]; [done|by intros _].
  - intros af H4 H6. unfold inet_pton. rewrite (proj2 (Z.eqb_neq af _) H4), (proj2 (Z.eqb_neq af _) H6). done.
Qed.

(** ["1::8:255.0.0.1"] is an IPv6 address. *)
Lemma inet_pton_correct_witness :
  let s := [49; 58; 58; 56; 58; 50; 53; 53; 46; 48; 46; 48; 46; 49] in
  cstring s /\ address6 s [1; 0; 0; 0; 0; 8; 65280; 1] /\
  inet_pton 7 AF_INET6 s (replicate 16 9) = Ok (1, [0; 1; 0; 0; 0; 0; 0; 0; 0; 0; 0; 8; 255; 0; 0; 1], None).
Proof.
  intros s. assert (cstring s) as Hs by (repeat constructor; lia).
  assert (address6 s [1; 0; 0; 0; 0; 8; 65280; 1]) as H6.
  { apply (A6_gap [49] [56; 58; 50; 53; 53; 46; 48; 46; 48; 46; 49] [1] [8; 65280; 1] 4); [| |lia|reflexivity].
    - exists [[49]]. split; [done|]. repeat constructor; by vm_compute.
    - right. apply (P6_cons [56] 8 [50; 53; 53; 46; 48; 46; 48; 46; 49]); [repeat constructor; by vm_compute|].
      apply (P6_dotted _ [255; 0; 0; 1]). split_and!; [done|repeat constructor; by vm_compute|by vm_compute]. }
  split; [done|]. split; [done|]. destruct (inet_pton_correct 7 s (replicate 16 9) Hs) as (_ & H & _).
  destruct (H eq_refl) as (r & a' & -> & _ & H1 & H2). rewrite (proj2 H1 (ex_intro _ _ H6)), (H2 _ H6). by vm_compute.
Defined.
