(* ===== verification/InetText.v ===== *)
(** The text that [inet_ntop] writes is a form of the address, so that [inet_pton]
    gives the address back.

    First the text: [hexs] is a group as [printf] writes it, and replacing the longest
    run of zeros and colons by a gap keeps the address ([shortened_groups],
    [shortened_mapped]).  Then the memory: the loop finds such a run
    ([longest_run_ok]) and the function stores the text ([shorten_ok]). *)

From Stdlib Require Import Ascii String.
From S2P Require Import Prelude Memory Strings Intscan IntscanSpec StringsScan StringsSpec StringsCopy StringsCat StringsType SearchSpec Printf PrintfSpec PrintfScan Inet InetSpec.

(** * Groups *)

Definition is_word (w : Z) : Prop := 0 <= w < 65536.
Definition hexs (w : Z) : list Z := if w =? 0 then [ch "0"] else numeral_text false 16 w.
Definition sep6 (ws : list Z) : list Z := sep_by (ch ":") (map hexs ws).

Lemma hexs_group w : is_word w -> group_text (hexs w) w.
Proof.
  unfold is_word, hexs. intros Hw. destruct (Z.eqb_spec w 0) as [-> |Hne]; [split_and!; [by vm_compute|by vm_compute|by repeat constructor|done]|].
  split_and!.
  - apply numeral_text_nonempty; lia.
  - unfold numeral_text, zlen. rewrite length_map. apply (digits_length 16 w 4); lia.
  - eapply Forall_impl; [apply (digit_text_numeral false 16 w); lia|]. cbn. tauto.
  - symmetry. apply num_numeral_text; lia.
Qed.

(** The first digit of a group that is not 0. *)
Lemma hexs_head w : is_word w -> w <> 0 -> exists c r, hexs w = c :: r /\ c <> ch "0" /\ c <> ch ":".
Proof.
  unfold is_word, hexs. intros Hw Hne. rewrite (proj2 (Z.eqb_neq w 0) Hne). destruct (digits_head 16 w) as (d & ds & E & Hd); [lia..|].
  unfold numeral_text. rewrite E. cbn [map]. eexists _, _. split; [done|]. unfold digit_char. change (ch "0") with 48. change (ch ":") with 58.
  destruct (Z.ltb_spec d 10); lia.
Qed.

Lemma hexs_no_colon w c : is_word w -> c ∈ hexs w -> c <> ch ":".
Proof. intros Hw Hc ->. destruct (hexs_group w Hw) as (_ & Hd & _). rewrite Forall_forall in Hd. by specialize (Hd _ Hc). Qed.

Lemma sep6_cons w ws : ws <> [] -> sep6 (w :: ws) = hexs w ++ ch ":" :: sep6 ws.
Proof. by destruct ws. Qed.

Lemma sep6_pieces ws t wt : Forall is_word ws -> pieces6 t wt -> pieces6 (ended (map hexs ws) ++ t) (ws ++ wt).
Proof. intros H. apply pieces6_ended. induction H; constructor; [by apply hexs_group|done]. Qed.

Lemma words_groups ws : Forall is_word ws -> Forall2 group_text (map hexs ws) ws.
Proof. induction 1; constructor; [by apply hexs_group|done]. Qed.

Lemma pieces6_sep ws : ws <> [] -> Forall is_word ws -> pieces6 (sep6 ws) ws.
Proof.
  induction ws as [|w ws IH]; [done|]. intros _ [Hw Hws]%Forall_cons. destruct (decide (ws = [])) as [-> |Hne]; [by constructor; apply hexs_group|].
  rewrite sep6_cons by done. constructor; [by apply hexs_group|by apply IH].
Qed.

(** * Runs of zeros and colons *)

Definition in_run (c : Z) : bool := memb c [ch ":"; ch "0"].
Definition zeros_text (n : nat) : list Z := ended (replicate n [ch "0"]).

Lemma zlen_zeros_text n : zlen (zeros_text n) = 2 * Z.of_nat n.
Proof. induction n as [|n IH]; [done|]. unfold zeros_text in *. cbn [replicate]. rewrite ended_cons. cbn [app]. rewrite !zlen_cons, IH. lia. Qed.

(** The run at the start of groups: the groups that it covers. *)
Lemma run_split ws : Forall is_word ws -> exists n ws', ws = replicate n 0 ++ ws' /\
  (ws' <> [] /\ span in_run (sep6 ws) = zeros_text n /\ sep6 ws = zeros_text n ++ sep6 ws' \/
   ws' = [] /\ span in_run (sep6 ws) = sep6 ws /\ zlen (sep6 ws) <= 2 * Z.of_nat n).
Proof.
  induction ws as [|w ws IH]; intros Hws; [by exists O, []; split; [|right; vm_compute]|]. apply Forall_cons in Hws as [Hw Hws].
  destruct (decide (w = 0)) as [-> |Hne].
  - destruct (decide (ws = [])) as [-> |Hws0]; [exists 1%nat, []; split; [done|right; by vm_compute]|].
    destruct (IH Hws) as (n & ws' & E & H). exists (S n), ws'. split; [cbn; by rewrite E|]. rewrite sep6_cons by done.
    change (hexs 0) with [ch "0"]. cbn [app span]. change (in_run (ch "0")) with true. change (in_run (ch ":")) with true. cbn iota.
    destruct H as [(H1 & H2 & H3)|(H1 & H2 & H3)]; [left|right].
    + split; [done|]. rewrite H2, H3. done.
    + rewrite !zlen_cons. split_and!; [done|by rewrite H2|lia].
  - exists O, (w :: ws). split; [done|]. left. split; [done|]. destruct (hexs_head w Hw Hne) as (c & r & E & H0 & Hc). split; [|done].
    assert (exists r', sep6 (w :: ws) = c :: r') as (r' & ->).
    { unfold sep6. cbn [map sep_by]. rewrite E. destruct (map hexs ws); cbn; eauto. }
    cbn [span]. unfold in_run, memb. cbn [existsb]. rewrite (proj2 (Z.eqb_neq c _) H0), (proj2 (Z.eqb_neq c _) Hc). done.
Qed.

(** A colon of the text is between two groups. *)
Lemma colon_split ws : Forall is_word ws -> forall k, 0 <= k -> schar (sep6 ws) k = ch ":" ->
  exists wa wb, ws = wa ++ wb /\ wa <> [] /\ wb <> [] /\ take (Z.to_nat k) (sep6 ws) = sep6 wa /\ drop (Z.to_nat k) (sep6 ws) = ch ":" :: sep6 wb.
Proof.
  assert (forall w k, is_word w -> 0 <= k -> schar (hexs w) k <> ch ":") as Hno.
  { intros w k Hw Hk E. destruct (Z.lt_ge_cases k (zlen (hexs w))); [|by rewrite schar_end in E by done].
    apply (hexs_no_colon w (schar (hexs w) k) Hw); [|done]. unfold schar, zlen in *. apply list_elem_of_In, nth_In. lia. }
  induction ws as [|w ws IH]; intros Hws k Hk E; [by rewrite schar_end in E|]. apply Forall_cons in Hws as [Hw Hws].
  destruct (decide (ws = [])) as [-> |Hne]; [by destruct (Hno w k Hw Hk)|]. rewrite sep6_cons in * by done. pose proof (zlen_nonneg (hexs w)) as Hz.
  destruct (Z.lt_trichotomy k (zlen (hexs w))) as [Hlt|[-> |Hgt]].
  - destruct (Hno w k Hw Hk). rewrite <- E. unfold schar, zlen in *. by rewrite app_nth1 by lia.
  - exists [w], ws. split_and!; try done; unfold zlen; rewrite Nat2Z.id; [by rewrite take_app_length|by rewrite drop_app_length].
  - set (j := k - zlen (hexs w) - 1). assert (Z.to_nat k = length (hexs w) + S (Z.to_nat j))%nat as Ek by (unfold j, zlen in *; lia).
    destruct (IH Hws j) as (wa & wb & -> & Ha & Hb & E1 & E2); [unfold j; lia| |].
    { rewrite <- E. unfold schar. rewrite Ek, app_nth2_plus. done. }
    exists (w :: wa), wb. split_and!; try done.
    + rewrite Ek, take_app_add'; [|done]. cbn [take]. rewrite E1. by rewrite sep6_cons.
    + rewrite Ek, drop_app_add'; [|done]. done.
Qed.

(** * Shortening *)

Definition run_at (T : list Z) (k : Z) : Z := zlen (span in_run (drop (Z.to_nat k) T)).
Definition candidate (T : list Z) (k : Z) : Prop := k = 0 \/ schar T k = ch ":".

(** What the loop of [inet_ntop] finds: the longest run that a candidate starts. *)
Record found_run (T : list Z) (best max : Z) : Prop := {
  found_at : best = 0 /\ max = 2 \/ 0 <= best < zlen T /\ candidate T best /\ max = run_at T best;
  found_longest k : 0 <= k < zlen T -> candidate T k -> run_at T k <= max
}.

Definition shortened (T : list Z) (best max : Z) : list Z :=
  if 3 <? max then take (Z.to_nat best) T ++ [ch ":"; ch ":"] ++ drop (Z.to_nat (best + max)) T else T.

(** A run behind some groups, replaced by a gap. *)
Lemma gap_address wa wb : Forall is_word wa -> Forall is_word wb -> zlen wa + zlen wb = 8 ->
  3 < zlen (span in_run (sep6 wb)) + (if decide (wa = []) then 0 else 1) ->
  address6 (sep6 wa ++ [ch ":"; ch ":"] ++ drop (length (span in_run (sep6 wb))) (sep6 wb)) (wa ++ wb).
Proof.
  intros Ha Hb H8 Hrun. destruct (run_split wb Hb) as (n & wb' & -> & H). apply Forall_app in Hb as [_ Hb]. rewrite zlen_app in H8.
  replace (replicate n 0) with (replicate (Z.to_nat (Z.of_nat n)) 0) by (by rewrite Nat2Z.id).
  assert (zlen (replicate n 0) = Z.of_nat n) as Hn by (unfold zlen; by rewrite length_replicate).
  apply A6_gap; [exists (map hexs wa); split; [done|by apply words_groups]| |destruct (decide (wa = [])); destruct H as [(_ & E & _)|(_ & E & Hl)]|lia].
  - rewrite Nat2Z.id. destruct H as [(Hne & -> & ->)|(-> & -> & _)].
    + right. rewrite drop_app_length. by apply pieces6_sep.
    + left. by rewrite drop_all.
  - rewrite E, zlen_zeros_text in Hrun. lia.
  - rewrite E in Hrun. lia.
  - rewrite E, zlen_zeros_text in Hrun. lia.
  - rewrite E in Hrun. lia.
Qed.

Lemma shortened_groups ws best max : Forall is_word ws -> zlen ws = 8 -> found_run (sep6 ws) best max -> address6 (shortened (sep6 ws) best max) ws.
Proof.
  intros Hws H8 [Hat _]. unfold shortened. destruct (Z.ltb_spec 3 max) as [Hmax|]; [|constructor; [apply pieces6_sep; [by intros ->|done]|done]].
  destruct Hat as [[_ ->]|(Hb & Hc & ->)]; [lia|]. unfold run_at in *. destruct Hc as [-> |Hc].
  - change (drop (Z.to_nat 0) (sep6 ws)) with (sep6 ws) in *. rewrite Z.add_0_l. unfold zlen at 1. rewrite Nat2Z.id.
    apply (gap_address [] ws); [constructor|done|done|]. destruct (decide _); [lia|done].
  - destruct (colon_split ws Hws best) as (wa & wb & -> & Ha & Hb' & E1 & E2); [lia|done|]. rewrite E1, E2 in *. apply Forall_app in Hws as [Hwa Hwb].
    cbn [span] in *. change (in_run (ch ":")) with true in *. cbn iota in *. rewrite zlen_cons in *. rewrite zlen_app in H8.
    replace (drop _ (sep6 (wa ++ wb))) with (drop (length (span in_run (sep6 wb))) (sep6 wb)).
    + apply gap_address; try done. destruct (decide _); [done|lia].
    + replace (Z.to_nat (best + (1 + zlen (span in_run (sep6 wb))))) with (Z.to_nat best + S (length (span in_run (sep6 wb))))%nat by (unfold zlen; lia).
      rewrite <- drop_drop, E2. done.
Qed.

(** The text of an IPv4-mapped address before the shortening. *)
Definition mapped_head : list Z := sep6 [0; 0; 0; 0; 0; 65535] ++ [ch ":"].

Lemma span_before (q : Z -> bool) a c r : q c = false -> zlen (span q (a ++ c :: r)) <= zlen a.
Proof.
  intros Hc. induction a as [|x a IH]; cbn [app span]; [by rewrite Hc|]. destruct (q x); rewrite !zlen_cons; [lia|]. change (zlen []) with 0. pose proof (zlen_nonneg a). lia.
Qed.

Lemma dotted_chars bs : Forall is_byte bs -> Forall (fun c => 46 <= c <= 57) (dotted bs).
Proof.
  induction 1 as [|b bs Hb Hbs IH]; [constructor|]. assert (Forall (fun c => 46 <= c <= 57) (decimal b)) as Hd.
  { eapply Forall_impl; [apply decimal_chars; unfold is_byte in Hb; lia|]. cbn. lia. }
  unfold dotted in *. cbn [map sep_by]. destruct (map decimal bs); [done|]. apply Forall_app. split; [done|]. constructor; [by vm_compute|done].
Qed.

Lemma shortened_mapped bs best max : address4 (dotted bs) bs -> found_run (mapped_head ++ dotted bs) best max ->
  address6 (shortened (mapped_head ++ dotted bs) best max) ([0; 0; 0; 0; 0; 65535] ++ words_of bs).
Proof.
  intros H4 [Hat Hlong]. set (T := mapped_head ++ dotted bs) in *. pose proof (zlen_nonneg (dotted bs)) as Hz.
  assert (zlen T = 15 + zlen (dotted bs)) as HT by (unfold T; by rewrite zlen_app).
  assert (10 <= max) as Hmax. { assert (run_at T 0 = 10) as <- by reflexivity. apply Hlong; [lia|by left]. }
  assert (best = 0 /\ max = 10) as [-> ->].
  { destruct Hat as [[_ ->]|(Hb & Hc & Em)]; [lia|]. destruct (decide (best = 0)) as [-> |Hne]; [done|]. exfalso. destruct Hc as [|Hc]; [done|].
    destruct (Z.lt_ge_cases best 15) as [Hlt|Hge].
    - assert (best = 1 \/ best = 2 \/ best = 3 \/ best = 4 \/ best = 5 \/ best = 6 \/ best = 7 \/ best = 8 \/ best = 9 \/ best = 10 \/ best = 11 \/
        best = 12 \/ best = 13 \/ best = 14) as Hcases by lia.
      destruct Hcases as [-> |[-> |[-> |[-> |[-> |[-> |[-> |[-> |[-> |[-> |[-> |[-> |[-> | ->]]]]]]]]]]]]]; try discriminate Hc;
        try (match type of Em with _ = ?r => assert (r < 10) by reflexivity end; lia).
      destruct (address4_first (dotted bs) bs H4) as (b & rest & Hb4 & Ed). unfold run_at in Em.
      change (drop (Z.to_nat 14) T) with (ch ":" :: dotted bs) in Em. rewrite Ed in Em. cbn [span] in Em. change (in_run (ch ":")) with true in Em.
      cbn iota in Em. rewrite zlen_cons in Em. pose proof (span_before in_run (decimal b) (ch ".") rest eq_refl).
      destruct (decimal_field b Hb4) as (_ & Hl & _). unfold zlen in *. lia.
    - assert (schar (dotted bs) (best - 15) = ch ":") as E.
      { rewrite <- Hc. unfold T, schar. rewrite app_nth2; change (length mapped_head) with 15%nat; [|lia]. f_equal. lia. }
      destruct H4 as (_ & Hbs & _). pose proof (dotted_chars bs Hbs) as Hd. rewrite Forall_forall in Hd.
      assert (ch ":" ∈ dotted bs) as Hin by (rewrite <- E; unfold schar; apply list_elem_of_In, nth_In; unfold zlen in *; lia).
      specialize (Hd _ Hin). change (ch ":") with 58 in Hd. lia. }
  change (shortened T 0 10) with ([ch ":"; ch ":"] ++ hexs 65535 ++ ch ":" :: dotted bs).
  apply (A6_gap [] (hexs 65535 ++ ch ":" :: dotted bs) [] ([65535] ++ words_of bs) 5).
  - by exists [].
  - right. constructor; [by apply hexs_group|by constructor].
  - lia.
  - rewrite zlen_app, (words_of_two _ _ H4). done.
Qed.

(** * The loop and the stores *)

Lemma span_ext (p q : Z -> bool) l : (forall c, p c = q c) -> span p l = span q l.
Proof. intros H. induction l as [|c l IH]; [done|]. cbn. by rewrite H, IH. Qed.

Section Buffer.
Context (m : memory) (Hm : wf_memory m) (buf set : Z) (T : list Z).
Context (HT : cstr m buf T) (Hlen : zlen T < sizeof_buf) (Hset : cstr m set [ch ":"; ch "0"]).

Lemma strspn_run i : 0 <= i <= zlen T -> gives (strspn (buf + i) set) m (run_at T i).
Proof.
  intros Hi. pose proof (strspn_gives m (buf + i) set _ _ Hm (cstr_drop m buf T i HT Hi) Hset) as H.
  unfold upto in H. unfold run_at. rewrite (span_ext in_run (fun c => negb (negb (memb c [ch ":"; ch "0"])))); [done|]. intros c. by rewrite negb_involutive.
Qed.

Lemma longest_run_ok : wp (longest_run buf set) (fun '(i, best, max) m' => m' = m /\ i = zlen T /\ found_run T best max) m.
Proof.
  pose proof HT as (Hb & Hbl & Hf & Hc). pose proof (zlen_nonneg T) as Hz. unfold longest_run.
  apply (wp_while (fun '(i, best, max) m' => m' = m /\ 0 <= i <= zlen T /\ (best = 0 /\ max = 2 \/ 0 <= best < i /\ candidate T best /\ max = run_at T best) /\
    forall k, 0 <= k < i -> candidate T k -> run_at T k <= max) (fun '(i, _, _) => zlen T - i)).
  - intros [[i best] max] ? (-> & Hi & Hat & Hlong). apply wp_bind, wp_load8; [lia|]. apply wp_ret. rewrite Hc by lia. rewrite schar_zero by done.
    destruct (Z.ltb_spec i (zlen T)) as [Hlt|]; [|split_and!; [done|lia|]; split; [naive_solver lia|intros k Hk; apply Hlong; lia]].
    apply wp_bind, wp_load8; [lia|]. rewrite Hc by lia. destruct (ctrue i && negb (schar T i =? ch ":")) eqn:Ec.
    + apply wp_ret. split_and!; try done; try lia; [naive_solver lia|]. intros k Hk Hck. destruct (decide (k = i)) as [-> |]; [|apply Hlong; [lia|done]].
      exfalso. apply andb_true_iff in Ec as [E1 E2]. unfold ctrue in E1. destruct Hck as [-> |E]; [done|]. by rewrite E in E2.
    + assert (candidate T i) as Hci. { apply andb_false_iff in Ec as [E|E]; unfold ctrue in E; [left; lia|right; lia]. }
      apply wp_bind. eapply wp_mono; [apply strspn_run; lia|]. intros j ? (-> & ->). apply wp_ret. destruct (Z.ltb_spec max (run_at T i)).
      * split_and!; try done; try lia; [right; split_and!; try done; lia|]. intros k Hk Hck. destruct (decide (k = i)) as [-> |]; [lia|].
        specialize (Hlong k ltac:(lia) Hck). lia.
      * split_and!; try done; try lia; [naive_solver lia|]. intros k Hk Hck. destruct (decide (k = i)) as [-> |]; [lia|]. apply Hlong; [lia|done].
  - split_and!; try done; try lia; auto.
  - unfold count, sizeof_buf in *. lia.
  - lia.
Qed.

Lemma run_range k : 0 <= k <= zlen T -> 0 <= run_at T k <= zlen T - k.
Proof.
  intros Hk. unfold run_at. rewrite <- zlen_drop by done. destruct (span_prefix in_run (drop (Z.to_nat k) T)) as (r & E & _). rewrite E at 3.
  rewrite zlen_app. pose proof (zlen_nonneg r). pose proof (zlen_nonneg (span in_run (drop (Z.to_nat k) T))). lia.
Qed.

Lemma zlen_shortened best max : found_run T best max -> zlen (shortened T best max) <= zlen T.
Proof.
  intros [Hat _]. unfold shortened. destruct (Z.ltb_spec 3 max); [|done]. destruct Hat as [?|(Hb & _ & ->)]; [lia|].
  pose proof (run_range best ltac:(lia)). rewrite !zlen_app, zlen_drop, zlen_take_min by lia. change (zlen [ch ":"; ch ":"]) with 2. lia.
Qed.

(** The stores of the shortening, at a run longer than 3. *)
Lemma gap_stores bulk best max : 0 <= best -> 3 < max -> best + max <= zlen T ->
  exists m', (do* store8 (buf + (best + 1)) (ch ":") in do* store8 (buf + best) (ch ":") in
      do* memmove bulk (buf + best + 2) (buf + best + max) (zlen T - best - max + 1) in sret tt) m = Ok (tt, m') /\
    wf_memory m' /\ zlen m' = zlen m /\ cstr m' buf (shortened T best max) /\
    forall x, 0 <= x -> x < buf \/ buf + zlen T < x -> byte m' x = byte m x.
Proof.
  intros Hb Hmax Hle. pose proof HT as (Hb0 & Hbl & Hf & Hc).
  set (m2 := <[Z.to_nat (buf + best) := ch ":"]> (<[Z.to_nat (buf + (best + 1)) := ch ":"]> m)). set (n := zlen T - best - max + 1).
  assert (wf_memory m2) as Hm2 by (by repeat apply wf_store). assert (zlen m2 = zlen m) as Hl2 by (unfold m2; by rewrite !zlen_insert).
  assert (forall x, 0 <= x -> byte m2 x = if (x =? buf + best) || (x =? buf + (best + 1)) then ch ":" else byte m x) as H2.
  { intros x Hx. unfold m2. rewrite !byte_store by (rewrite ?zlen_insert; lia). by destruct (x =? buf + best). }
  assert (zlen (bytes_at m2 (buf + best + max) n) = n) as Hn by (apply zlen_bytes_at; unfold n; lia).
  exists (blit m2 (buf + best + 2) (bytes_at m2 (buf + best + max) n)).
  assert (forall x, 0 <= x -> byte (blit m2 (buf + best + 2) (bytes_at m2 (buf + best + max) n)) x =
    if (buf + best + 2 <=? x) && (x <? buf + best + 2 + n) then byte m (x + max - 2) else byte m2 x) as H3.
  { intros x Hx. rewrite byte_blit by (rewrite ?Hn; unfold n; lia). rewrite Hn. repeat case_cmp; cbn [andb]; try done.
    rewrite byte_at by lia. rewrite H2 by lia. decide_cmp. cbn [orb]. f_equal. lia. }
  split_and!.
  - unfold sbind, store8. replace ((0 <=? buf + (best + 1)) && (buf + (best + 1) <? zlen m)) with true by lia. cbn [obind fst snd].
    rewrite zlen_insert. replace ((0 <=? buf + best) && (buf + best <? zlen m)) with true by lia. cbn [obind fst snd]. change (u8 (ch ":")) with (ch ":"). fold m2.
    rewrite memmove_ok; [done|done|left; unfold n, sizeof_buf in *; lia|unfold n; lia..].
  - apply retyped_blit; [lia|rewrite Hn; unfold n; lia| |done]. intros _. apply Forall_take, Forall_drop, Hm2.
  - rewrite zlen_blit; [done|lia|]. rewrite Hn. unfold n. lia.
  - assert (zlen (shortened T best max) = zlen T - max + 2) as Hls.
    { unfold shortened. rewrite (proj2 (Z.ltb_lt 3 max) Hmax), !zlen_app, zlen_drop, zlen_take_min by lia. change (zlen [ch ":"; ch ":"]) with 2. lia. }
    split_and!; [done|rewrite zlen_blit; rewrite ?Hn, ?Hls; unfold n; lia| |].
    + unfold shortened. rewrite (proj2 (Z.ltb_lt 3 max) Hmax). apply Forall_app. split; [by apply Forall_take|].
      apply Forall_app. split; [repeat constructor; by vm_compute|by apply Forall_drop].
    + rewrite Hls. intros i Hi. rewrite H3 by lia. unfold shortened. rewrite (proj2 (Z.ltb_lt 3 max) Hmax).
      assert (length (take (Z.to_nat best) T) = Z.to_nat best) as Hlt by (rewrite length_take; unfold zlen in *; lia).
      unfold n. repeat case_cmp; cbn [andb]; try lia.
      * replace (buf + i + max - 2) with (buf + (i + max - 2)) by lia. rewrite Hc by lia. unfold schar at 2. rewrite app_nth2, Hlt by lia.
        rewrite app_nth2 by (cbn; lia). unfold schar. rewrite nth_skipn. f_equal. cbn. lia.
      * rewrite H2 by lia. unfold schar. destruct (Z.ltb_spec i best).
        -- rewrite app_nth1 by lia. decide_cmp. cbn [orb]. rewrite Hc by lia. unfold schar. rewrite !nth_lookup, lookup_take_lt by lia. done.
        -- rewrite app_nth2, Hlt by lia. assert (i = best \/ i = best + 1) as [-> | ->] by lia; decide_cmp; cbn [orb].
           ++ by rewrite Nat.sub_diag.
           ++ replace (Z.to_nat (best + 1) - Z.to_nat best)%nat with 1%nat by lia. done.
  - intros x Hx Ho. rewrite H3 by done. unfold n. replace ((buf + best + 2 <=? x) && (x <? buf + best + 2 + (zlen T - best - max + 1))) with false by lia.
    rewrite H2 by done. replace ((x =? buf + best) || (x =? buf + (best + 1))) with false by lia. done.
Qed.

Lemma shorten_ok bulk : exists m' best max, shorten bulk buf set m = Ok (tt, m') /\ found_run T best max /\
  wf_memory m' /\ zlen m' = zlen m /\ cstr m' buf (shortened T best max) /\
  forall x, 0 <= x -> x < buf \/ buf + zlen T < x -> byte m' x = byte m x.
Proof.
  destruct longest_run_ok as ([[i best] max] & ? & E & -> & -> & Hfound). unfold shorten. rewrite (sbind_Ok _ _ _ _ _ E). cbn beta iota.
  destruct (Z.ltb_spec 3 max) as [Hmax|].
  - destruct (found_at _ _ _ Hfound) as [?|(Hb & _ & Em)]; [lia|]. pose proof (run_range best ltac:(lia)).
    destruct (gap_stores bulk best max) as (m' & -> & H'); [lia..|]. exists m', best, max. split; [done|]. split; [done|]. exact H'.
  - exists m, best, max. unfold shortened. rewrite (proj2 (Z.ltb_ge 3 max)) by done. done.
Qed.
End Buffer.

(** * The formats *)

Definition X (w : Z) : piece := Conv [] WNone PNone (CInt Lnone (ch "x") w).
Definition D (b : Z) : piece := Conv [] WNone PNone (CInt Lnone (ch "d") b).
Fixpoint sep_pieces (c : Z) (l : list piece) : list piece :=
  match l with [] => [] | [p] => [p] | p :: l => p :: Char c :: sep_pieces c l end.

Lemma plain_digits u b x : 2 <= b -> 0 <= x -> zero_extend 1 (numeral_text u b x) = if x =? 0 then [ch "0"] else numeral_text u b x.
Proof.
  intros Hb Hx. destruct (Z.eqb_spec x 0) as [-> |Hne]; [unfold numeral_text; by rewrite digits_0|].
  pose proof (numeral_text_nonempty u b x Hb ltac:(lia)). unfold zero_extend. by replace (Z.to_nat (1 - _)) with O by lia.
Qed.

Lemma justify_plain text : justify false false 0 [] text = text.
Proof. unfold justify. cbn [app]. pose proof (zlen_nonneg text). by replace (Z.to_nat (0 - zlen text)) with O by lia. Qed.

Lemma meaning_D err b : is_byte b -> meaning err (D b) = decimal b.
Proof.
  unfold is_byte. intros Hb. unfold D, meaning. replace (value_of Lnone (ch "d") b) with b by (symmetry; apply (s32_id b); unfold in_s; cbn; lia).
  unfold int_prefix. change (is_signed (ch "d")) with true. rewrite (proj2 (Z.ltb_ge b 0)) by lia. cbn [flag existsb at_left andb orb field limit].
  rewrite justify_plain. unfold int_digits. rewrite Z.abs_eq by lia. by apply plain_digits; [|lia].
Qed.

Lemma meaning_X err w : is_word w -> meaning err (X w) = hexs w.
Proof.
  unfold is_word. intros Hw. unfold X, meaning. replace (value_of Lnone (ch "x") w) with w by (symmetry; apply (Z.mod_small w (2 ^ 32)); lia).
  unfold int_prefix. change (is_signed (ch "x")) with false. cbn [flag existsb at_left andb orb field limit].
  rewrite justify_plain. unfold int_digits. rewrite Z.abs_eq by lia. by apply plain_digits; [|lia].
Qed.

Lemma meaning_sep err c (f : Z -> piece) (g : Z -> list Z) l : (forall x, x ∈ l -> meaning err (f x) = g x) ->
  meaning_all err (sep_pieces c (map f l)) = sep_by c (map g l).
Proof.
  intros H. induction l as [|x l IH]; [done|]. assert (meaning err (f x) = g x) as E by (apply H; set_solver).
  destruct l as [|y l]; [unfold meaning_all; cbn; by rewrite E, app_nil_r|].
  change (sep_pieces c (map f (x :: y :: l))) with (f x :: Char c :: sep_pieces c (map f (y :: l))).
  change (sep_by c (map g (x :: y :: l))) with (g x ++ c :: sep_by c (map g (y :: l))). rewrite <- IH by (intros z Hz; apply H; set_solver).
  unfold meaning_all. cbn [map concat]. by rewrite E.
Qed.

Lemma meaning_dotted err bs : Forall is_byte bs -> meaning_all err (sep_pieces (ch ".") (map D bs)) = dotted bs.
Proof. intros Hb. apply meaning_sep. intros x Hx. apply meaning_D. rewrite Forall_forall in Hb. by apply Hb. Qed.

Lemma meaning_sep6 err ws : Forall is_word ws -> meaning_all err (sep_pieces (ch ":") (map X ws)) = sep6 ws.
Proof. intros Hw. apply meaning_sep. intros x Hx. apply meaning_X. rewrite Forall_forall in Hw. by apply Hw. Qed.

(** [snprintf] of such a format. *)
Lemma print_pieces utf8 strerror junk s n ps text m e : wf_memory m -> 0 <= n <= INT_MAX -> n = 0 \/ (0 <= s /\ s + n <= zlen m) ->
  Forall (fun c => 0 < c < 256) (strerror e) -> Forall (fun p => piece_ok m p /\ apart s n p) ps -> meaning_all (strerror e) ps = text ->
  zlen text <= INT_MAX -> vsnprintf utf8 strerror junk s n (render_all ps) (args_all ps) (m, e) = Ok (zlen text, (stored s n m text, e)).
Proof.
  intros Hm Hn Hs He Hps <- Hz. rewrite Forall_and in Hps. destruct Hps as [Hok Hap].
  destruct (vsnprintf_value utf8 strerror junk s n ps [] m e Hm Hn Hs He Hok Hap) as (ret & m' & e' & E & H). rewrite app_nil_r in E. rewrite E.
  rewrite (proj2 (Z.leb_le _ _) Hz) in H. by destruct H as (-> & -> & ->).
Qed.

(** * [inet_ntop] *)

Lemma on_memory_ok {A} (c : mem A) m e v m' : c m = Ok (v, m') -> on_memory c (m, e) = Ok (v, (m', e)).
Proof. intros E. unfold on_memory. cbn [fst snd]. by rewrite E. Qed.

Lemma byte_args_ok m a ks : Forall (fun k => 0 <= a + k < zlen m) ks -> byte_args a ks m = Ok (map (fun k => W32 (byte m (a + k))) ks, m).
Proof.
  induction 1 as [|k ks Hk _ IH]; [done|]. cbn [byte_args]. apply gives_ok, wp_bind, wp_load8; [done|]. apply wp_bind. eapply wp_mono; [apply gives_ok, IH|].
  intros l ? (-> & ->). by apply wp_ret.
Qed.

Lemma group_args_ok m a ks : Forall (fun k => 0 <= a + k /\ a + k + 1 < zlen m) ks ->
  group_args a ks m = Ok (map (fun k => W32 (256 * byte m (a + k) + byte m (a + (k + 1)))) ks, m).
Proof.
  induction 1 as [|k ks Hk _ IH]; [done|]. cbn [group_args]. apply gives_ok, wp_bind, wp_load8; [lia|]. apply wp_bind, wp_load8; [lia|].
  apply wp_bind. eapply wp_mono; [apply gives_ok, IH|]. intros l ? (-> & ->). by apply wp_ret.
Qed.

Lemma bytes_at_map m a n : 0 <= a -> a + Z.of_nat n <= zlen m -> bytes_at m a (Z.of_nat n) = map (fun k => byte m (a + k)) (seqZ 0 (Z.of_nat n)).
Proof.
  intros Ha. induction n as [|n IH]; intros Hn; [done|]. rewrite bytes_at_S, IH by lia. replace (Z.of_nat (S n)) with (Z.of_nat n + 1) by lia.
  rewrite seqZ_app, map_app by lia. done.
Qed.

Lemma hexs_chars w : is_word w -> cstring (hexs w) /\ zlen (hexs w) <= 4.
Proof.
  intros Hw. destruct (hexs_group w Hw) as ([_ Hz] & _). split; [|done]. unfold is_word, hexs in *. destruct (w =? 0); [repeat constructor; by vm_compute|].
  eapply Forall_impl; [apply (digit_text_numeral false 16 w); lia|]. cbn. lia.
Qed.

Lemma sep6_chars ws : Forall is_word ws -> cstring (sep6 ws) /\ zlen (sep6 ws) <= 5 * zlen ws.
Proof.
  induction 1 as [|w ws Hw Hws [IH1 IH2]]; [by split; [constructor|vm_compute]|]. destruct (hexs_chars w Hw) as [Hc Hz]. rewrite zlen_cons.
  destruct (decide (ws = [])) as [-> |Hne]; [change (sep6 [w]) with (hexs w); change (zlen []) with 0; split; [done|lia]|].
  rewrite sep6_cons, zlen_app, zlen_cons by done. split; [|lia]. apply Forall_app. split; [done|]. constructor; [by vm_compute|done].
Qed.

Lemma dotted_length bs : Forall is_byte bs -> zlen (dotted bs) <= 4 * zlen bs - 1 \/ bs = [].
Proof.
  induction 1 as [|b bs Hb Hbs IH]; [by right|left]. destruct (decimal_field b Hb) as (_ & L & _). rewrite zlen_cons. destruct bs as [|b' bs].
  - change (dotted [b]) with (decimal b). change (zlen []) with 0. unfold zlen. lia.
  - destruct IH as [IH|]; [|done]. change (dotted (b :: b' :: bs)) with (decimal b ++ ch "." :: dotted (b' :: bs)). rewrite zlen_app, zlen_cons. unfold zlen in *. lia.
Qed.

Section Ntop.
Context (utf8 : bool) (strerror : Z -> list Z) (junk : Z) (bulk : option Z) (buf set mapped : Z).
Context (m : memory) (e a s l : Z) (Hm : wf_memory m) (He : Forall (fun c => 0 < c < 256) (strerror e)).
Context (Hl : 0 <= l <= INT_MAX) (Hs : 0 <= s) (Hsl : s + l <= zlen m).

(** What a call gives for a text: the text in [s] when it has the room, else
    [ENOSPC]; [inside] are the addresses that may change. *)
Definition gives_text (text : list Z) (inside : Z -> Prop) (res : outcome (Z * (list Z * Z))) : Prop :=
  exists r m' e', res = Ok (r, (m', e')) /\
    (if zlen text <? l then r = s /\ e' = e /\ cstr m' s text else r = NULL /\ e' = ENOSPC) /\
    forall x, 0 <= x -> ~ inside x -> byte m' x = byte m x.

Lemma byte_stored text x : 0 <= x -> x < s \/ s + l <= x -> byte (stored s l m text) x = byte m x.
Proof.
  intros Hx Ho. unfold stored. destruct (Z.eqb_spec l 0); [done|]. pose proof (zlen_kept l text ltac:(lia)) as Hk. pose proof (zlen_nonneg text).
  assert (zlen (kept l text ++ [0]) = zlen (kept l text) + 1) as Hz by (rewrite zlen_app; done).
  rewrite byte_blit by lia. rewrite Hz. repeat case_cmp; cbn [andb]; try done; lia.
Qed.

Lemma ntop4_text : 0 <= a -> a + 4 <= zlen m -> let bs := bytes_at m a 4 in address4 (dotted bs) bs /\
  gives_text (dotted bs) (fun x => s <= x < s + l) (inet_ntop utf8 strerror junk bulk buf set mapped AF_INET a s l (m, e)).
Proof.
  intros Ha Hal bs. assert (bs = map (fun k => byte m (a + k)) [0; 1; 2; 3]) as Ebs by (apply (bytes_at_map m a 4); lia).
  assert (Forall is_byte bs) as Hb by (apply Forall_take, Forall_drop, Hm). split; [by split_and!; [rewrite Ebs|..]|].
  assert (zlen (dotted bs) <= 15) as H15.
  { destruct (dotted_length bs Hb) as [H|H]; rewrite Ebs in H; [|done]. by rewrite Ebs. }
  unfold gives_text, inet_ntop. rewrite Z.eqb_refl.
  rewrite (sbind_Ok _ _ _ _ _ (on_memory_ok _ m e _ _ (byte_args_ok m a [0; 1; 2; 3] ltac:(repeat constructor; lia)))).
  set (ps := sep_pieces (ch ".") (map D bs)).
  assert (vsnprintf utf8 strerror junk s l dotted_format (map (fun k => W32 (byte m (a + k))) [0; 1; 2; 3]) (m, e) =
    Ok (zlen (dotted bs), (stored s l m (dotted bs), e))) as E.
  { replace dotted_format with (render_all ps) by (unfold ps; by rewrite Ebs). replace (map _ [0; 1; 2; 3]) with (args_all ps) by (unfold ps; by rewrite Ebs).
    apply print_pieces; try done; [by right|unfold ps; rewrite Ebs; repeat constructor; cbn; try lia; set_solver|by apply meaning_dotted|unfold INT_MAX; lia]. }
  rewrite (sbind_Ok _ _ _ _ _ E). unfold u32. pose proof (zlen_nonneg (dotted bs)). rewrite Z.mod_small by lia. destruct (Z.ltb_spec (zlen (dotted bs)) l).
  - eexists s, _, e. split_and!; [done|done|done| |intros x Hx Hi; apply byte_stored; [done|lia]].
    apply cstr_stored; try done. eapply Forall_impl; [by apply dotted_chars|]. cbn. lia.
  - eexists NULL, _, ENOSPC. split_and!; [done..|]. intros x Hx Hi; apply byte_stored; [done|lia].
Qed.

(** What the code keeps apart: the local buffer, the literals, the object and [s]. *)
Context (Hbuf : 0 <= buf) (Hbufl : buf + sizeof_buf <= zlen m) (Hset : cstr m set [ch ":"; ch "0"]).
Context (Hsets : set + 2 < buf \/ buf + sizeof_buf <= set) (Hsbuf : s + l <= buf \/ buf + sizeof_buf <= s).

(** The code behind the [snprintf] to [buf]. *)
Lemma ntop6_end T ws : zlen T <= 45 -> cstring T -> (forall best max, found_run T best max -> address6 (shortened T best max) ws) ->
  exists text, address6 text ws /\ cstring text /\ zlen text <= 45 /\
    gives_text text (fun x => s <= x < s + l \/ buf <= x < buf + sizeof_buf)
      ((do* on_memory (shorten bulk buf set) in
        let* n := on_memory (strlen buf) in
        if n <? l then do* on_memory (strcpy s buf) in sret s else do* set_errno ENOSPC in sret NULL) (stored buf sizeof_buf m T, e)).
Proof.
  intros HT Hc Ha. set (m1 := stored buf sizeof_buf m T). unfold sizeof_buf in *. pose proof (zlen_nonneg T) as Hz.
  assert (m1 = blit m buf (T ++ [0])) as Em1 by (unfold m1, stored, kept; cbn [Z.eqb]; by rewrite take_zlen by lia).
  assert (zlen (T ++ [0]) = zlen T + 1) as HT1 by (rewrite zlen_app; done).
  assert (wf_memory m1 /\ zlen m1 = zlen m) as [Hm1 Hz1].
  { rewrite Em1. split; [|by apply zlen_blit; lia]. apply retyped_blit; [lia..| |done]. intros _. apply Forall_app. split; [|repeat constructor; lia].
    eapply Forall_impl; [exact Hc|]. cbn. lia. }
  assert (forall x, 0 <= x -> ~ buf <= x < buf + 100 -> byte m1 x = byte m x) as Hfr.
  { intros x Hx Ho. rewrite Em1, byte_blit by lia. replace ((buf <=? x) && (x <? buf + zlen (T ++ [0]))) with false by lia. done. }
  assert (cstr m1 buf T) as HcT by (apply cstr_stored; unfold sizeof_buf; try done; lia).
  assert (cstr m1 set [ch ":"; ch "0"]) as Hset1.
  { apply (cstr_frame m); [done|done|]. intros x Hx. change (zlen [ch ":"; ch "0"]) with 2 in Hx. destruct Hset as (? & _). apply Hfr; lia. }
  destruct (shorten_ok m1 Hm1 buf set T HcT ltac:(unfold sizeof_buf; lia) Hset1 bulk) as (m2 & best & max & E & Hf & Hm2 & Hz2 & Hc2 & Hfr2).
  exists (shortened T best max). pose proof (zlen_shortened T best max Hf) as Hsh. split; [by apply Ha|]. split; [apply Hc2|]. split; [lia|].
  pose proof (proj1 (gives_ok _ _ _) (strlen_gives m2 buf _ Hm2 Hc2)) as El. set (text := shortened T best max) in *. pose proof (zlen_nonneg text) as Hzt.
  rewrite (sbind_Ok _ _ _ _ _ (on_memory_ok _ m1 e _ _ E)), (sbind_Ok _ _ _ _ _ (on_memory_ok _ m2 e _ _ El)). unfold gives_text.
  assert (forall x, 0 <= x -> ~ buf <= x < buf + 100 -> byte m2 x = byte m x) as Hfr3 by (intros x Hx Ho; rewrite Hfr2, Hfr by lia; done).
  assert (zlen (text ++ [0]) = zlen text + 1) as Ht1 by (rewrite zlen_app; done).
  destruct (Z.ltb_spec (zlen text) l).
  - pose proof (strcpy_ok m2 buf text Hm2 Hc2 s ltac:(lia) ltac:(lia) ltac:(lia)) as Ec. rewrite (sbind_Ok _ _ _ _ _ (on_memory_ok _ m2 e _ _ Ec)).
    eexists s, _, e. split_and!; [done|done|done| |].
    + pose proof (cstr_stored s l m2 text Hs ltac:(lia) ltac:(lia) (proj1 (proj2 (proj2 Hc2)))) as H'.
      unfold stored, kept in H'. rewrite (proj2 (Z.eqb_neq l 0)), take_zlen in H' by lia. exact H'.
    + intros x Hx Ho. rewrite byte_blit by lia. replace ((s <=? x) && (x <? s + zlen (text ++ [0]))) with false by lia. apply Hfr3; lia.
  - eexists NULL, m2, ENOSPC. split_and!; [done..|]. intros x Hx Ho. apply Hfr3; lia.
Qed.

Context (Ha : 0 <= a) (Hal : a + 16 <= zlen m) (Hmap : 0 <= mapped) (Hmapl : mapped + 12 <= zlen m).
Context (Hmapb : forall k, 0 <= k < 12 -> byte m (mapped + k) = if k <? 10 then 0 else 255).

Definition word_at (k : Z) : Z := 256 * byte m (a + k) + byte m (a + (k + 1)).
Definition words_at : list Z := map word_at [0; 2; 4; 6; 8; 10; 12; 14].

Lemma byte_ok x : is_byte (byte m x).
Proof. apply byte_range, Hm. Qed.

Lemma word_ok k : is_word (word_at k).
Proof. unfold word_at. pose proof (byte_ok (a + k)). pose proof (byte_ok (a + (k + 1))). unfold is_word, is_byte in *. lia. Qed.

Lemma words_bytes : group_bytes words_at = bytes_at m a 16.
Proof.
  change 16 with (Z.of_nat 16). rewrite bytes_at_map by (cbn; lia). unfold words_at, group_bytes, word_at. cbn [map concat app].
  repeat match goal with |- context [256 * ?x + ?y] => destruct (word_bytes x y (byte_ok _) (byte_ok _)) as [-> ->] end. done.
Qed.

Definition bytes_tail : list Z := map (fun k => byte m (a + k)) [12; 13; 14; 15].

(** The two formats, printed to [buf]. *)
Lemma print_groups : vsnprintf utf8 strerror junk buf sizeof_buf groups_format (map (fun k => W32 (word_at k)) [0; 2; 4; 6; 8; 10; 12; 14]) (m, e) =
  Ok (zlen (sep6 words_at), (stored buf sizeof_buf m (sep6 words_at), e)).
Proof.
  assert (Forall is_word words_at) as Hw by (repeat constructor; apply word_ok). set (ps := sep_pieces (ch ":") (map X words_at)).
  change groups_format with (render_all ps). change (map (fun k => W32 (word_at k)) _) with (args_all ps). destruct (sep6_chars words_at Hw) as [_ Hz].
  apply print_pieces; try done; [right; unfold sizeof_buf in *; lia|unfold ps; repeat constructor; cbn; try lia; set_solver|by apply meaning_sep6|].
  change (zlen words_at) with 8 in Hz. unfold INT_MAX. lia.
Qed.

Lemma print_mapped : (forall i, 0 <= i < 12 -> byte m (a + i) = byte m (mapped + i)) ->
  vsnprintf utf8 strerror junk buf sizeof_buf mapped_format
    (map (fun k => W32 (word_at k)) [0; 2; 4; 6; 8; 10] ++ map (fun k => W32 (byte m (a + k))) [12; 13; 14; 15])%list (m, e) =
    Ok (zlen (mapped_head ++ dotted bytes_tail), (stored buf sizeof_buf m (mapped_head ++ dotted bytes_tail), e)) /\
  words_at = [0; 0; 0; 0; 0; 65535] ++ words_of bytes_tail.
Proof.
  intros H. assert (map word_at [0; 2; 4; 6; 8; 10] = [0; 0; 0; 0; 0; 65535]) as Ew.
  { unfold word_at. cbn [map]. repeat (rewrite H, Hmapb by lia). done. }
  assert (Forall is_byte bytes_tail) as Hb by (repeat constructor; apply byte_ok). split; [|unfold words_at; cbn [map] in *; by injection Ew as -> -> -> -> -> ->].
  set (ps := sep_pieces (ch ":") (map X (map word_at [0; 2; 4; 6; 8; 10])) ++ [Char (ch ":")] ++ sep_pieces (ch ".") (map D bytes_tail)).
  change mapped_format with (render_all ps). change (map (fun k => W32 (word_at k)) _ ++ _)%list with (args_all ps).
  destruct (dotted_length bytes_tail Hb) as [Hz|]; [|done]. change (zlen bytes_tail) with 4 in Hz.
  apply print_pieces; try done; [right; unfold sizeof_buf in *; lia|unfold ps; repeat constructor; cbn; try lia; set_solver| |].
  - unfold ps, meaning_all. rewrite !map_app, !concat_app. fold (meaning_all (strerror e) (sep_pieces (ch ":") (map X (map word_at [0; 2; 4; 6; 8; 10])))).
    fold (meaning_all (strerror e) (sep_pieces (ch ".") (map D bytes_tail))). rewrite meaning_dotted, Ew, meaning_sep6 by (first [done | by repeat constructor]).
    unfold mapped_head. by rewrite <- app_assoc.
  - rewrite zlen_app. change (zlen mapped_head) with 15. unfold INT_MAX. lia.
Qed.

Lemma ntop6_text : exists text, address6 text words_at /\ cstring text /\ zlen text <= 45 /\
  gives_text text (fun x => s <= x < s + l \/ buf <= x < buf + sizeof_buf) (inet_ntop utf8 strerror junk bulk buf set mapped AF_INET6 a s l (m, e)).
Proof.
  destruct (memcmp_gives m a mapped 12) as (d & Hd%gives_ok & H0); [lia..|]. unfold inet_ntop. change (AF_INET6 =? AF_INET) with false.
  change (AF_INET6 =? AF_INET6) with true. cbn iota. rewrite (sbind_Ok _ _ _ _ _ (on_memory_ok _ m e _ _ Hd)).
  assert (Forall is_word words_at) as Hw by (repeat constructor; apply word_ok). unfold ctrue. destruct (Z.eqb_spec d 0) as [Ed|Hne]; cbn [negb].
  - destruct (print_mapped (proj1 H0 Ed)) as [E Ew].
    pose proof (on_memory_ok _ m e _ _ (group_args_ok m a [0; 2; 4; 6; 8; 10] ltac:(repeat constructor; lia))) as Eg.
    pose proof (on_memory_ok _ m e _ _ (byte_args_ok m a [12; 13; 14; 15] ltac:(repeat constructor; lia))) as Eb.
    erewrite sbind_Ok by (rewrite (sbind_Ok _ _ _ _ _ Eg), (sbind_Ok _ _ _ _ _ Eb); exact E).
    assert (Forall is_byte bytes_tail) as Hb by (repeat constructor; apply byte_ok). assert (address4 (dotted bytes_tail) bytes_tail) as H4 by done.
    destruct (dotted_length bytes_tail Hb) as [Hz|]; [|done]. change (zlen bytes_tail) with 4 in Hz. rewrite Ew. apply ntop6_end.
    + rewrite zlen_app. change (zlen mapped_head) with 15. lia.
    + apply Forall_app. split; [repeat constructor; by vm_compute|]. eapply Forall_impl; [by apply dotted_chars|]. cbn. lia.
    + intros best max Hf. by apply shortened_mapped.
  - pose proof (on_memory_ok _ m e _ _ (group_args_ok m a [0; 2; 4; 6; 8; 10; 12; 14] ltac:(repeat constructor; lia))) as Eg.
    erewrite sbind_Ok by (rewrite (sbind_Ok _ _ _ _ _ Eg); exact print_groups).
    destruct (sep6_chars words_at Hw) as [Hc Hz]. change (zlen words_at) with 8 in Hz. apply ntop6_end; [lia|done|].
    intros best max Hf. by apply shortened_groups.
Qed.
End Ntop.

(** A call of [inet_ntop] that C allows: the object of [n] bytes at [a], the room [s]
    of [l] bytes, the local buffer and the literals of the function. *)
Record ntop_call (m : memory) (buf set mapped a s l n : Z) : Prop := {
  call_memory : wf_memory m;
  call_object : 0 <= a /\ a + n <= zlen m;
  call_room : 0 <= s /\ s + l <= zlen m /\ 0 <= l <= INT_MAX;
  call_buf : 0 <= buf /\ buf + sizeof_buf <= zlen m /\ (s + l <= buf \/ buf + sizeof_buf <= s);
  call_set : cstr m set [ch ":"; ch "0"] /\ (set + 2 < buf \/ buf + sizeof_buf <= set);
  call_mapped : 0 <= mapped /\ mapped + 12 <= zlen m /\ forall k, 0 <= k < 12 -> byte m (mapped + k) = if k <? 10 then 0 else 255
}.

(** C31: for every address of either family, [inet_ntop] writes a text that
    [inet_pton] reads back as the same bytes, when [s] has room for it; the text is
    shorter than [INET_ADDRSTRLEN] (16) or [INET6_ADDRSTRLEN] (46).  Without the room the
    result is a null pointer with [ENOSPC].  Nothing outside [s] and the local buffer
    changes. *)
Theorem inet_ntop_pton utf8 strerror junk bulk buf set mapped m e af a s l : af = AF_INET \/ af = AF_INET6 ->
  let n := if af =? AF_INET then 4 else 16 in
  ntop_call m buf set mapped a s l n -> Forall (fun c => 0 < c < 256) (strerror e) ->
  exists text, zlen text < (if af =? AF_INET then 16 else 46) /\
    gives_text m e s l text (fun x => s <= x < s + l \/ buf <= x < buf + sizeof_buf)
      (inet_ntop utf8 strerror junk bulk buf set mapped af a s l (m, e)) /\
    forall junk' obj, zlen obj = n -> inet_pton junk' af text obj = Ok (1, bytes_at m a n, None).
Proof.
  intros Haf n [Hm [Ha Hal] (Hs & Hsl & Hl) (Hb & Hbl & Hsb) [Hset Hsets] (Hmp & Hmpl & Hmpb)] He. unfold n in *. destruct Haf as [-> | ->].
  - change (AF_INET =? AF_INET) with true in *. cbn iota in *.
    destruct (ntop4_text utf8 strerror junk bulk buf set mapped m e a s l Hm He Hl Hs Hsl Ha Hal) as (H4 & r & m' & e' & E & H1 & H2).
    pose proof H4 as (H4l & H4b & _). destruct (dotted_length _ H4b) as [Hz|Hz]; [|by rewrite Hz in H4l].
    assert (zlen (bytes_at m a 4) = 4) as Hz4 by (unfold zlen; lia). rewrite Hz4 in Hz.
    exists (dotted (bytes_at m a 4)). split; [lia|]. split; [exists r, m', e'; split_and!; try done; naive_solver|].
    intros junk' obj Hobj. assert (cstring (dotted (bytes_at m a 4))) as Hc by (eapply Forall_impl; [by apply dotted_chars|]; cbn; lia).
    unfold inet_pton. rewrite Z.eqb_refl. destruct (pton4_spec _ 0 0 obj Hc) as (r' & o' & -> & _ & _ & _ & H); [pose proof (zlen_nonneg (dotted (bytes_at m a 4))); lia|lia|lia|].
    cbn [obind]. destruct (H _ H4) as [-> ->]. rewrite blit_all; [done|]. lia.
  - change (AF_INET6 =? AF_INET) with false in *. cbn iota in *.
    destruct (ntop6_text utf8 strerror junk bulk buf set mapped m e a s l) as (text & H6 & Hc & Hz & H); try done.
    exists text. split; [lia|]. split; [done|]. intros junk' obj Hobj. rewrite (pton6_accepts junk' text obj (words_at m a)) by done. by rewrite words_bytes.
Qed.

(** ["1:0:0:0:0:ff:0:304"] at address 16, printed to 48 with the buffer at 96. *)
Lemma inet_ntop_pton_witness :
  let m := (replicate 16 7 ++ [0; 1; 0; 0; 0; 0; 0; 0; 0; 0; 0; 255; 0; 0; 3; 4] ++ [58; 48; 0; 9] ++ [0; 0; 0; 0; 0; 0; 0; 0; 0; 0; 255; 255] ++ replicate 152 3)%list in
  ntop_call m 96 32 36 16 48 46 16 /\
  exists text m', inet_ntop true (fun _ => []) 7 None 96 32 36 AF_INET6 16 48 46 (m, 0) = Ok (48, (m', 0)) /\ cstr m' 48 text /\
    inet_pton 9 AF_INET6 text (replicate 16 5) = Ok (1, [0; 1; 0; 0; 0; 0; 0; 0; 0; 0; 0; 255; 0; 0; 3; 4], None).
Proof.
  intros m. assert (ntop_call m 96 32 36 16 48 46 16) as Hcall.
  { split; try (by vm_compute).
    - split; [|by vm_compute..]. unfold m. cbn. repeat constructor; lia.
    - split; [by vm_compute|]. split; [by vm_compute|]. left. by vm_compute.
    - split; [|by left]. split_and!; [done|by vm_compute|repeat constructor; by vm_compute|]. intros i Hi. change (zlen [ch ":"; ch "0"]) with 2 in Hi.
      assert (i = 0 \/ i = 1 \/ i = 2) as [-> |[-> | ->]] by lia; reflexivity.
    - split; [done|]. split; [by vm_compute|]. intros k Hk. apply Z.eqb_eq. revert k Hk. apply forall_below. by vm_compute. }
  split; [done|]. destruct (inet_ntop_pton true (fun _ => []) 7 None 96 32 36 m 0 AF_INET6 16 48 46 (or_intror eq_refl) Hcall ltac:(constructor))
    as (text & Hz & (r & m' & e' & E & Hr & _) & Hp). cbn [AF_INET6 AF_INET Z.eqb Pos.eqb] in Hz. rewrite (proj2 (Z.ltb_lt _ _) Hz) in Hr. destruct Hr as (-> & -> & Hc).
  exists text, m'. split; [done|]. split; [done|]. rewrite (Hp 9 (replicate 16 5) eq_refl). by vm_compute.
Defined.

(** * [inet_aton] *)

Lemma numeral_byte b r : is_byte b -> r = [] \/ (exists r', r = ch "." :: r') -> numeral 0 (decimal b ++ r) = Some (false, b, zlen (decimal b)).
Proof.
  intros Hb Hr. destruct (decide (b = 0)) as [-> |Hne]; [destruct Hr as [-> |(r' & ->)]; reflexivity|].
  destruct (decimal_field b Hb) as (Hd & _ & _ & Hnum). destruct (decimal_head b) as (c & t & E & Hc); [unfold is_byte in Hb; lia|].
  assert (isspace c = false) as Hsp.
  { pose proof (forall_below (fun d => negb (isspace (49 + d))) 9 ltac:(vm_compute; reflexivity) (c - 49) ltac:(lia)) as H. cbv beta in H.
    replace (49 + (c - 49)) with c in H by lia. by apply negb_true_iff. }
  unfold numeral. assert (span isspace (decimal b ++ r) = []) as -> by (rewrite E; cbn [app span]; by rewrite Hsp). change (zlen []) with 0.
  assert (schar (decimal b ++ r) 0 = c) as Ec by (by rewrite E). rewrite Ec.
  rewrite (proj2 (Z.eqb_neq c 43)), (proj2 (Z.eqb_neq c 45)) by lia. cbn [orb]. change (drop (Z.to_nat 0) (decimal b ++ r)) with (decimal b ++ r). rewrite Ec.
  rewrite (proj2 (Z.eqb_neq c 48)) by lia. cbn [Z.eqb andb].
  assert (span (is_digit 10) (decimal b ++ r) = decimal b) as ->.
  { apply span_app; [|destruct Hr as [-> |(r' & ->)]; done]. rewrite Forall_forall in *. intros x Hx. rewrite <- (proj1 (digit_val x ltac:(
      pose proof (decimal_chars b ltac:(unfold is_byte in Hb; lia)) as H; rewrite Forall_forall in H; specialize (H x Hx); cbn in H; lia))). by apply Hd. }
  rewrite E in Hnum |- *. cbn match. by rewrite Hnum.
Qed.

Lemma strtoul_byte b r : is_byte b -> r = [] \/ (exists r', r = ch "." :: r') -> cstring (decimal b ++ r) ->
  strtoul (decimal b ++ r) 0 = Ok (b, None, zlen (decimal b)).
Proof.
  intros Hb Hr Hc. destruct (strtol_values (decimal b ++ r) 0 Hc ltac:(by left)) as (_ & _ & -> & _). unfold parse. rewrite numeral_byte by done.
  unfold to_unsigned. unfold is_byte in Hb. rewrite (proj2 (Z.leb_gt _ _)) by lia. rewrite Z.mod_small by lia. done.
Qed.

Lemma aton_loop_dotted s : cstring s -> forall bs p i a, bs <> [] -> i = 4 - zlen bs -> 0 <= i -> 0 <= p <= zlen s -> zlen a = 4 ->
  Forall is_byte bs -> drop (Z.to_nat p) s = dotted bs -> aton_loop (length bs) s p i a = Ok (Some (3, blit a i bs)).
Proof.
  intros Hs. induction bs as [|b bs IH]; [done|]. intros p i a _ Hi H0 Hp Ha Hbs E. apply Forall_cons in Hbs as [Hb Hbs].
  rewrite zlen_cons in Hi. pose proof (zlen_nonneg bs). pose proof (zlen_nonneg (decimal b)).
  assert (exists r, drop (Z.to_nat p) s = decimal b ++ r /\ (r = [] \/ (exists r', r = ch "." :: r')) /\
    match bs with [] => r = [] | _ => r = ch "." :: dotted bs end) as (r & Er & Hr & Ebs).
  { rewrite E. destruct bs as [|b2 bs]; [by exists []; rewrite app_nil_r; auto|]. exists (ch "." :: dotted (b2 :: bs)). split; [done|]. eauto. }
  assert (cstring (decimal b ++ r)) as Hc by (rewrite <- Er; by apply Forall_drop).
  cbn [length aton_loop]. rewrite Er, strtoul_byte by done. cbn [obind]. rewrite zset_blit by lia. cbn [obind].
  assert (p + zlen (decimal b) <= zlen s /\ drop (Z.to_nat (p + zlen (decimal b))) s = r) as [Hq Eq].
  { pose proof (f_equal zlen Er) as El. rewrite zlen_drop, zlen_app in El by done. pose proof (zlen_nonneg r). split; [lia|].
    replace (Z.to_nat (p + zlen (decimal b))) with (Z.to_nat p + length (decimal b))%nat by (unfold zlen; lia). by rewrite <- drop_drop, Er, drop_app_length. }
  rewrite (at_head s (p + zlen (decimal b))) by lia. cbn [obind]. rewrite Eq, (at_head s p) by lia. cbn [obind]. rewrite Er.
  destruct (decimal_field b Hb) as (Hd & _ & Hbad & _). destruct (decimal b) as [|c t] eqn:Ed; [done|]. apply Forall_cons in Hd as [Hc0 _].
  change (schar ((c :: t) ++ r) 0) with c. rewrite Hc0, zlen_cons. pose proof (zlen_nonneg t). rewrite (proj2 (Z.eqb_neq (1 + zlen t) 0)) by lia. cbn [negb orb].
  rewrite zlen_cons in *. destruct bs as [|b2 bs].
  - subst r. change (zlen []) with 0 in Hi. replace i with 3 by lia. done.
  - subst r. set (bs' := b2 :: bs) in *. change (schar (ch "." :: dotted bs') 0) with (ch "."). cbn [ctrue Z.eqb Pos.eqb andb negb orb].
    destruct (position_cases s (p + (1 + zlen t)) Hs ltac:(lia)) as [[E3 _]|(c3 & r3 & E3 & Hc3 & E4 & Hle)]; rewrite Eq in E3; [done|].
    injection E3 as <- <-. rewrite IH; try done; try lia.
    + rewrite blit_snoc; [done|lia|]. unfold zlen in *. lia.
    + rewrite zlen_blit; [lia..|]. change (zlen [b]) with 1. lia.
Qed.

(** Every text that [inet_pton] takes for an IPv4 address is taken by
    [inet_aton] too, with the same bytes (which takes others: fewer numbers, octal and
    hexadecimal ones). *)
Theorem inet_aton_extends_pton junk s a a' : cstring s -> zlen a = 4 ->
  inet_pton junk AF_INET s a = Ok (1, a', None) -> __inet_aton s = Ok (1, a').
Proof.
  intros Hs Ha E. unfold inet_pton in E. rewrite Z.eqb_refl in E. pose proof (zlen_nonneg s).
  destruct (pton4_spec s 0 0 a Hs) as (r & o & Ep & _ & _ & H1 & H2); [lia..|]. rewrite Ep in E. cbn [obind] in E. injection E as -> ->.
  destruct (H1 eq_refl) as (bs & H4). destruct (H2 bs H4) as [_ ->]. pose proof H4 as (Hl & Hb & Es). change (drop (Z.to_nat 0) s) with s in *.
  rewrite blit_all by (unfold zlen in *; lia). unfold __inet_aton. rewrite <- Hl at 1.
  rewrite (aton_loop_dotted s Hs bs 0 0) by (done || (intros ->; done) || (unfold zlen; lia) || lia). cbn [obind].
  rewrite blit_all by (unfold zlen in *; cbn; lia). change (3 =? 4) with false. cbn iota.
  destruct bs as [|b0 [|b1 [|b2 [|b3 [|]]]]]; try done. rewrite !Forall_cons in Hb. unfold is_byte in Hb. destruct Hb as (B0 & B1 & B2 & B3 & _).
  change (aton_split 3 [b0; b1; b2; b3]) with [b0; b1; b2; b3]. cbn [aton_store app]. rewrite !(proj2 (Z.ltb_ge 255 _)) by lia. done.
Qed.

Lemma inet_aton_extends_pton_witness :
  let s := [49; 48; 46; 48; 46; 50; 53; 53; 46; 55] in
  cstring s /\ inet_pton 3 AF_INET s [9; 9; 9; 9] = Ok (1, [10; 0; 255; 7], None) /\ __inet_aton s = Ok (1, [10; 0; 255; 7]).
Proof.
  intros s. assert (cstring s) as Hs by (repeat constructor; lia). split; [done|]. split; [by vm_compute|].
  apply (inet_aton_extends_pton 3 s [9; 9; 9; 9]); [done|done|by vm_compute].
Defined.

(** What [inet_aton] takes beside them: ["127.1"], ["0x7f.010.3"] and ["2130706433"]. *)
Example inet_aton_forms :
  __inet_aton (lit "127.1") = Ok (1, [127; 0; 0; 1]) /\ __inet_aton (lit "0x7f.010.3") = Ok (1, [127; 8; 0; 3]) /\
  __inet_aton (lit "2130706433") = Ok (1, [127; 0; 0; 1]) /\ __inet_aton (lit "1.2.3.256") = Ok (0, [1; 2; 3]).
Proof. by vm_compute. Qed.

(** * Byte order *)

Lemma wrap_bit w y k : 0 <= w -> 0 <= k -> Z.testbit (y mod 2 ^ w) k = (k <? w) && Z.testbit y k.
Proof. intros Hw Hk. destruct (Z.ltb_spec k w); [by rewrite Z.mod_pow2_bits_low by lia|by rewrite Z.mod_pow2_bits_high by lia]. Qed.

(** The bit of a word of [n] bytes that byte reversal moves to [k]. *)
Definition swapped (n k : Z) : Z := 8 * (n - 1 - k / 8) + k mod 8.

Lemma swapped_twice n k : 0 <= k < 8 * n -> 0 <= swapped n k < 8 * n /\ swapped n (swapped n k) = k.
Proof. unfold swapped. intros H. divlia. Qed.

Ltac swap_bits w k Hk :=
  repeat (rewrite ?Z.lor_spec, ?Z.land_spec, ?Z.shiftr_spec, ?Z.shiftl_spec, ?wrap_bit by lia);
  destruct (Z.ltb_spec k w) as [H|H]; [|by rewrite !(proj2 (Z.ltb_ge _ _)) by lia; cbn [andb orb]; rewrite ?andb_false_r];
  assert (exists n, (n < Z.to_nat w)%nat /\ k = Z.of_nat n) as (n & Hn & ->) by (exists (Z.to_nat k); lia);
  repeat (destruct n as [|n]; [cbn -[Z.testbit]; cbn [Z.testbit]; rewrite ?andb_false_r, ?andb_true_r, ?orb_false_r; reflexivity|]); exfalso; cbn in Hn; lia.

Lemma bswap_32_bit x k : 0 <= k -> Z.testbit (bswap_32 x) k = (k <? 32) && Z.testbit x (swapped 4 k).
Proof. intros Hk. unfold bswap_32, u32. swap_bits 32 k Hk. Qed.

Lemma bswap_16_bit x k : 0 <= k -> Z.testbit (bswap_16 x) k = (k <? 16) && Z.testbit x (swapped 2 k).
Proof. intros Hk. unfold bswap_16, u16. swap_bits 16 k Hk. Qed.

(** [ntohl] undoes [htonl], and [ntohs] undoes [htons]. *)
Lemma byte_order_roundtrip x : (in_u 32 x -> ntohl (htonl x) = x) /\ (in_u 16 x -> ntohs (htons x) = x).
Proof.
  split; intros Hx; apply Z.bits_inj'; intros k Hk; unfold ntohl, htonl, ntohs, htons.
  - rewrite !bswap_32_bit by done. destruct (Z.ltb_spec k 32); [|symmetry; by apply (testbit_small 32)]. destruct (swapped_twice 4 k) as [Hr E]; [lia|].
    rewrite bswap_32_bit, E, (proj2 (Z.ltb_lt _ _)) by lia. done.
  - rewrite !bswap_16_bit by done. destruct (Z.ltb_spec k 16); [|symmetry; by apply (testbit_small 16)]. destruct (swapped_twice 2 k) as [Hr E]; [lia|].
    rewrite bswap_16_bit, E, (proj2 (Z.ltb_lt _ _)) by lia. done.
Qed.
