(* ===== verification/Fnmatch.v ===== *)
(** File name patterns ([libc-top-half/musl/src/regex/fnmatch.c]).

    The pattern and the string are C strings; a pointer into one is a position, read
    through [at_], which is undefined behind the terminator.  [END] and the other
    tokens are those of the source.  [utf8] is whether the locale is UTF-8
    ([MB_CUR_MAX] is 1 otherwise); the functions of wide characters, [towupper],
    [towlower] and [iswctype] of a class name, are arguments. *)

From Stdlib Require Import Ascii String.
From S2P Require Import Prelude Multibyte Intscan Printf Inet.
Import Multibyte.

Definition FNM_PATHNAME : Z := 1.
Definition FNM_NOESCAPE : Z := 2.
Definition FNM_PERIOD : Z := 4.
Definition FNM_LEADING_DIR : Z := 8.
Definition FNM_CASEFOLD : Z := 16.
Definition FNM_NOMATCH : Z := 1.

Definition END : Z := 0.
Definition UNMATCHABLE : Z := -2.
Definition BRACKET : Z := -3.
Definition QUESTION : Z := -4.
Definition STAR : Z := -5.

Section Fnmatch.
Context (utf8 : bool) (towupper towlower : Z -> Z) (iswctype : Z -> list Z -> bool).

(** [mbtowc] at a position: the value returned and the character. *)
Definition mbtowc_at (s : list Z) (p n : Z) : outcome (Z * Z) :=
  let! r := mbtowc utf8 (Some (drop (Z.to_nat p) (s ++ [0]))) n in
  Ok (ret r, default 0 (wc r)).

(** The character and [*step]. *)
Definition str_next (str : list Z) (p n : Z) : outcome (Z * Z) :=
  if n =? 0 then Ok (0, 0)
  else
    let! c := at_ str p in
    if 128 <=? c then
      let! (k, w) := mbtowc_at str p n in
      Ok (if k <? 0 then (-1, 1) else (w, k))
    else Ok (c, 1).

(** [while (k<m && pat[k] && (pat[k-1]!=z || pat[k]!=']')) k++;] *)
Fixpoint class_end (fuel : nat) (pat : list Z) (p m z k : Z) : outcome Z :=
  match fuel with
  | O => NoFuel
  | S fuel' =>
      if k <? m then
        let! c := at_ pat (p + k) in
        if c =? 0 then Ok k
        else
          let! b := at_ pat (p + (k - 1)) in
          if negb (b =? z) || negb (c =? ch "]") then class_end fuel' pat p m z (k + 1) else Ok k
      else Ok k
  end.

Definition is_class (c : Z) : bool := (c =? ch ":") || (c =? ch ".") || (c =? ch "=").

(** The loop to the end of a bracket expression. *)
Fixpoint bracket_end (fuel : nat) (pat : list Z) (p m k : Z) : outcome Z :=
  match fuel with
  | O => NoFuel
  | S fuel' =>
      if k <? m then
        let! c := at_ pat (p + k) in
        if (c =? 0) || (c =? ch "]") then Ok k
        else
          let! d := if k + 1 <? m then at_ pat (p + (k + 1)) else Ok 0 in
          if negb (d =? 0) && (c =? ch "[") && is_class d then
            let k := k + 2 in
            let! e := if k <? m then at_ pat (p + k) else Ok 0 in
            let k := if e =? 0 then k else k + 1 in
            let! k := class_end (S (length pat)) pat p m d k in
            let! e := if k =? m then Ok 0 else at_ pat (p + k) in
            if e =? 0 then Ok k else bracket_end fuel' pat p m (k + 1)
          else bracket_end fuel' pat p m (k + 1)
      else Ok k
  end.

(** From [escaped:], with [pat] at [p]. *)
Definition pat_char (pat : list Z) (p m step esc : Z) : outcome (Z * Z) :=
  let! c := at_ pat p in
  if 128 <=? c then
    let! (k, w) := mbtowc_at pat p m in
    Ok (if k <? 0 then (UNMATCHABLE, 0) else (w, k + esc))
  else Ok (c, step).

(** The token and [*step]. *)
Definition pat_next (pat : list Z) (p m flags : Z) : outcome (Z * Z) :=
  if m =? 0 then Ok (END, 0)
  else
    let! c := at_ pat p in
    if c =? 0 then Ok (END, 0)
    else
      let! d := if c =? ch "\" then at_ pat (p + 1) else Ok 0 in
      if negb (d =? 0) && negb (ctrue (Z.land flags FNM_NOESCAPE)) then pat_char pat (p + 1) m 2 1
      else if c =? ch "[" then
        let k := 1 in
        let! d := if k <? m then at_ pat (p + k) else Ok 0 in
        let k := if (d =? ch "^") || (d =? ch "!") then k + 1 else k in
        let! d := if k <? m then at_ pat (p + k) else Ok 0 in
        let k := if d =? ch "]" then k + 1 else k in
        let! k := bracket_end (S (length pat)) pat p m k in
        let! e := if k =? m then Ok 0 else at_ pat (p + k) in
        Ok (if e =? 0 then (ch "[", 1) else (BRACKET, k + 1))
      else if c =? ch "*" then Ok (STAR, 1)
      else if c =? ch "?" then Ok (QUESTION, 1)
      else pat_char pat p m 1 0.

Definition casefold (k : Z) : Z := let c := towupper k in if c =? k then towlower k else c.

(** [while (p[-1]!=z || p[0]!=']') p++;] *)
Fixpoint skip_class (fuel : nat) (pat : list Z) (p z : Z) : outcome Z :=
  match fuel with
  | O => NoFuel
  | S fuel' =>
      let! b := at_ pat (p - 1) in
      let! c := at_ pat p in
      if negb (b =? z) || negb (c =? ch "]") then skip_class fuel' pat (p + 1) z else Ok p
  end.

(** The loop of [match_bracket]. *)
Fixpoint bracket_loop (fuel : nat) (pat : list Z) (p wc k kfold : Z) (inv : bool) : outcome bool :=
  match fuel with
  | O => NoFuel
  | S fuel' =>
      let! c := at_ pat p in
      if c =? ch "]" then Ok inv
      else
        let! d := if (c =? ch "-") || (c =? ch "[") then at_ pat (p + 1) else Ok 0 in
        if (c =? ch "-") && negb (d =? ch "]") then
          let! (l, wc2) := mbtowc_at pat (p + 1) 4 in
          if l <? 0 then Ok false
          else if (wc <=? wc2) && ((u32 (k - wc) <=? wc2 - wc) || (u32 (kfold - wc) <=? wc2 - wc)) then Ok (negb inv)
          else bracket_loop fuel' pat (p + (l - 1) + 1) wc k kfold inv
        else if (c =? ch "[") && is_class d then
          let p0 := p + 2 in
          let! q := skip_class (S (length pat)) pat (p + 3) d in
          let name := take (Z.to_nat (q - 1 - p0)) (drop (Z.to_nat p0) pat) in
          if (d =? ch ":") && (q - 1 - p0 <? 16) && (iswctype k name || iswctype kfold name) then Ok (negb inv)
          else bracket_loop fuel' pat (q + 1) wc k kfold inv
        else
          let! (l, wc) := if c <? 128 then Ok (1, c) else mbtowc_at pat p 4 in
          if l <? 0 then Ok false
          else if (wc =? k) || (wc =? kfold) then Ok (negb inv)
          else bracket_loop fuel' pat (p + (l - 1) + 1) wc k kfold inv
  end.

Definition match_bracket (pat : list Z) (p k kfold : Z) : outcome bool :=
  let p := p + 1 in
  let! c := at_ pat p in
  let inv := (c =? ch "^") || (c =? ch "!") in
  let p := if inv then p + 1 else p in
  let! c := at_ pat p in
  if ((c =? ch "]") || (c =? ch "-")) && (k =? c) then Ok (negb inv)
  else
    let p := if (c =? ch "]") || (c =? ch "-") then p + 1 else p in
    let! wc := at_ pat (p - 1) in
    bracket_loop (S (length pat)) pat p wc k kfold inv.

(** Whether the token [c] at [p] takes the character [k]. *)
Definition token_matches (pat : list Z) (flags p c k : Z) : outcome bool :=
  let kfold := if ctrue (Z.land flags FNM_CASEFOLD) then casefold k else k in
  if c =? BRACKET then match_bracket pat p k kfold
  else Ok ((c =? QUESTION) || (k =? c) || (kfold =? c)).

(** The first loop: [inl] is the value returned, [inr] where it stops behind a star. *)
Fixpoint head_loop (fuel : nat) (pat str : list Z) (flags p m s n : Z) : outcome (Z + (Z * Z * Z * Z)) :=
  match fuel with
  | O => NoFuel
  | S fuel' =>
      let! (c, pinc) := pat_next pat p m flags in
      if c =? UNMATCHABLE then Ok (inl FNM_NOMATCH)
      else if c =? STAR then Ok (inr (p + 1, m - 1, s, n))
      else
        let! (k, sinc) := str_next str s n in
        if k <=? 0 then Ok (inl (if c =? END then 0 else FNM_NOMATCH))
        else
          let! b := token_matches pat flags p c k in
          if b : bool then head_loop fuel' pat str flags (p + pinc) (m - pinc) (s + sinc) (n - sinc)
          else Ok (inl FNM_NOMATCH)
  end.

(** [strnlen] *)
Definition strnlen_at (s : list Z) (p n : Z) : Z := Z.min n (zlen s - p).

(** The loop that finds [ptail] and [tailcnt]; [None] is an unmatchable token. *)
Fixpoint tail_loop (fuel : nat) (pat : list Z) (flags p endpat ptail tailcnt : Z) : outcome (option (Z * Z)) :=
  match fuel with
  | O => NoFuel
  | S fuel' =>
      if p <? endpat then
        let! (c, pinc) := pat_next pat p (endpat - p) flags in
        if c =? UNMATCHABLE then Ok None
        else if c =? STAR then tail_loop fuel' pat flags (p + pinc) endpat (p + 1) 0
        else tail_loop fuel' pat flags (p + pinc) endpat ptail (tailcnt + 1)
      else Ok (Some (ptail, tailcnt))
  end.

(** [while ((unsigned char)*--s-0x80U<0x40 && s>str);] *)
Fixpoint back_char (fuel : nat) (str : list Z) (first s : Z) : outcome Z :=
  match fuel with
  | O => NoFuel
  | S fuel' =>
      let s := s - 1 in
      let! c := at_ str s in
      if (u32 (c - 128) <? 64) && (first <? s) then back_char fuel' str first s else Ok s
  end.

(** The loop that finds the last [tailcnt] characters: [s] and what is left of [tailcnt]. *)
Fixpoint back_loop (fuel : nat) (str : list Z) (first s tailcnt : Z) : outcome (Z * Z) :=
  match fuel with
  | O => NoFuel
  | S fuel' =>
      if (first <? s) && ctrue tailcnt then
        let! c := at_ str (s - 1) in
        let! s := if (c <? 128) || negb utf8 then Ok (s - 1) else back_char (S (length str)) str first s in
        back_loop fuel' str first s (tailcnt - 1)
      else Ok (s, tailcnt)
  end.

(** The loop on the tails: whether it passes. *)
Fixpoint tails_match (fuel : nat) (pat str : list Z) (flags p endpat s endstr : Z) : outcome bool :=
  match fuel with
  | O => NoFuel
  | S fuel' =>
      let! (c, pinc) := pat_next pat p (endpat - p) flags in
      let! (k, sinc) := str_next str s (endstr - s) in
      if k <=? 0 then Ok (c =? END)
      else
        let! b := token_matches pat flags p c k in
        if b : bool then tails_match fuel' pat str flags (p + pinc) endpat (s + sinc) endstr else Ok false
  end.

(** A component at [s]: behind a star that ends it, at a mismatch, or at the end of the string. *)
Inductive component : Type := Committed (p s : Z) | Mismatch | Exhausted.
Fixpoint component_loop (fuel : nat) (pat str : list Z) (flags p endpat s endstr : Z) : outcome component :=
  match fuel with
  | O => NoFuel
  | S fuel' =>
      let! (c, pinc) := pat_next pat p (endpat - p) flags in
      if c =? STAR then Ok (Committed (p + pinc) s)
      else
        let! (k, sinc) := str_next str s (endstr - s) in
        if k =? 0 then Ok Exhausted
        else
          let! b := token_matches pat flags p c k in
          if b : bool then component_loop fuel' pat str flags (p + pinc) endpat (s + sinc) endstr else Ok Mismatch
  end.

(** [for (str++; str_next(str, endstr-str, &sinc)<0; str++);], from behind the [str++] *)
Fixpoint skip_invalid (fuel : nat) (str : list Z) (s endstr : Z) : outcome Z :=
  match fuel with
  | O => NoFuel
  | S fuel' =>
      let! (k, _) := str_next str s (endstr - s) in
      if k <? 0 then skip_invalid fuel' str (s + 1) endstr else Ok s
  end.

(** The components between the first star and the tail. *)
Fixpoint sea_loop (fuel : nat) (pat str : list Z) (flags p endpat s endstr : Z) : outcome Z :=
  match fuel with
  | O => NoFuel
  | S fuel' =>
      if p <? endpat then
        let! r := component_loop (S (length pat)) pat str flags p endpat s endstr in
        match r with
        | Committed p s => sea_loop fuel' pat str flags p endpat s endstr
        | Exhausted => Ok FNM_NOMATCH
        | Mismatch =>
            let! (k, sinc) := str_next str s (endstr - s) in
            let! s := if 0 <? k then Ok (s + sinc) else skip_invalid (S (length str)) str (s + 1) endstr in
            sea_loop fuel' pat str flags p endpat s endstr
        end
      else Ok 0
  end.

Definition fnmatch_internal (pat : list Z) (p m : Z) (str : list Z) (s n flags : Z) : outcome Z :=
  let! hidden := if ctrue (Z.land flags FNM_PERIOD) then
      let! c := at_ str s in
      let! d := at_ pat p in
      Ok ((c =? ch ".") && negb (d =? ch "."))
    else Ok false in
  if hidden : bool then Ok FNM_NOMATCH
  else
    let! r := head_loop (S (length pat)) pat str flags p m s n in
    match r with
    | inl v => Ok v
    | inr (p, m, s, n) =>
        let endpat := p + strnlen_at pat p m in
        let! t := tail_loop (S (length pat)) pat flags p endpat p 0 in
        match t with
        | None => Ok FNM_NOMATCH
        | Some (ptail, tailcnt) =>
            let n := strnlen_at str s n in
            let endstr := s + n in
            if n <? tailcnt then Ok FNM_NOMATCH
            else
              let! (stail, missing) := back_loop (S (length str)) str s endstr tailcnt in
              if ctrue missing then Ok FNM_NOMATCH
              else
                let! b := tails_match (S (length pat)) pat str flags ptail endpat stail endstr in
                if b : bool then sea_loop (S (length pat + length str)) pat str flags p ptail s stail
                else Ok FNM_NOMATCH
        end
    end.

(** [for (s=str; *s && *s!='/'; s++);] *)
Fixpoint to_slash (fuel : nat) (str : list Z) (s : Z) : outcome Z :=
  match fuel with
  | O => NoFuel
  | S fuel' =>
      let! c := at_ str s in
      if (c =? 0) || (c =? ch "/") then Ok s else to_slash fuel' str (s + 1)
  end.

(** [for (p=pat; (c=pat_next(p, -1, &inc, flags))!=END && c!='/'; p+=inc);]: [p], [c] and [inc]. *)
Fixpoint pat_slash (fuel : nat) (pat : list Z) (flags p : Z) : outcome (Z * Z * Z) :=
  match fuel with
  | O => NoFuel
  | S fuel' =>
      let! (c, inc) := pat_next pat p SIZE_MAX flags in
      if (c =? END) || (c =? ch "/") then Ok (p, c, inc) else pat_slash fuel' pat flags (p + inc)
  end.

(** The loop of [FNM_PATHNAME].  [steps] bounds the search for a slash in the pattern. *)
Fixpoint path_loop (fuel steps : nat) (pat str : list Z) (flags p0 s0 : Z) : outcome Z :=
  match fuel with
  | O => NoFuel
  | S fuel' =>
      let! s := to_slash (S (length str)) str s0 in
      let! (p, c, inc) := pat_slash steps pat flags p0 in
      let! cs := at_ str s in
      if negb (c =? cs) && ((cs =? 0) || negb (ctrue (Z.land flags FNM_LEADING_DIR))) then Ok FNM_NOMATCH
      else
        let! r := fnmatch_internal pat p0 (p - p0) str s0 (s - s0) flags in
        if ctrue r then Ok FNM_NOMATCH
        else if c =? 0 then Ok 0
        else path_loop fuel' steps pat str flags (p + inc) (s + 1)
  end.

(** The loop of [FNM_LEADING_DIR]: whether a leading directory matches. *)
Fixpoint leading_loop (fuel : nat) (pat str : list Z) (flags s : Z) : outcome bool :=
  match fuel with
  | O => NoFuel
  | S fuel' =>
      let! c := at_ str s in
      if c =? 0 then Ok false
      else if negb (c =? ch "/") then leading_loop fuel' pat str flags (s + 1)
      else
        let! r := fnmatch_internal pat 0 SIZE_MAX str 0 s flags in
        if r =? 0 then Ok true else leading_loop fuel' pat str flags (s + 1)
  end.

Definition fnmatch (steps : nat) (pat str : list Z) (flags : Z) : outcome Z :=
  if ctrue (Z.land flags FNM_PATHNAME) then path_loop (S (length str)) steps pat str flags 0 0
  else
    let! b := if ctrue (Z.land flags FNM_LEADING_DIR) then leading_loop (S (length str)) pat str flags 0 else Ok false in
    if b : bool then Ok 0 else fnmatch_internal pat 0 SIZE_MAX str 0 SIZE_MAX flags.
End Fnmatch.
