(* ===== verification/FnmatchSpec.v ===== *)
(** What a file name pattern means, and that [fnmatch_internal] decides it.

    A pattern is a list of tokens: stars, and tokens that take one character.
    [matches] is the meaning of such a list: a star stands for any characters.  The
    code finds the parts before the first star and behind the last one at the ends of
    the string and every part between two stars at its first place; the theorems
    show that nothing else need be tried. *)

From Stdlib Require Import Ascii String.
From S2P Require Import Prelude Memory Multibyte Intscan IntscanSpec StringsScan StringsSpec Printf PrintfSpec Inet InetSpec Fnmatch.
Import Multibyte.

(** * The meaning of stars *)

Section Stars.
Context {tok : Type} (is_star : tok -> bool) (takes : tok -> Z -> bool).

Inductive matches : list tok -> list Z -> Prop :=
| M_nil : matches [] []
| M_one t ts k ks : is_star t = false -> takes t k = true -> matches ts ks -> matches (t :: ts) (k :: ks)
| M_star t ts ks1 ks2 : is_star t = true -> matches ts ks2 -> matches (t :: ts) (ks1 ++ ks2).

(** Tokens that take one character each. *)
Definition plain (ts : list tok) : Prop := Forall (fun t => is_star t = false) ts.
Definition take_all (ts : list tok) (ks : list Z) : Prop := Forall2 (fun t k => takes t k = true) ts ks.

Lemma matches_cons_one t ts ks : is_star t = false -> matches (t :: ts) ks <-> exists k ks', ks = k :: ks' /\ takes t k = true /\ matches ts ks'.
Proof.
  intros Ht. split.
  - intros H. inversion H; subst; [eauto|congruence].
  - intros (k & ks' & -> & Hk & H). by constructor.
Qed.

Lemma matches_takes t ts k ks : is_star t = false -> matches (t :: ts) (k :: ks) <-> takes t k = true /\ matches ts ks.
Proof. intros Ht. rewrite matches_cons_one by done. split; [by intros (k' & ks' & [= <- <-] & ? & ?)|intros []; eauto]. Qed.

Lemma matches_no_char t ts : is_star t = false -> ~ matches (t :: ts) [].
Proof. intros Ht. rewrite matches_cons_one by done. by intros (? & ? & ? & _). Qed.

Lemma matches_cons_star t ts ks : is_star t = true -> matches (t :: ts) ks <-> exists ks1 ks2, ks = ks1 ++ ks2 /\ matches ts ks2.
Proof.
  intros Ht. split.
  - intros H. inversion H; subst; [congruence|eauto].
  - intros (ks1 & ks2 & -> & H). by constructor.
Qed.

Lemma matches_app xs ys : forall ks, matches (xs ++ ys) ks <-> exists ks1 ks2, ks = ks1 ++ ks2 /\ matches xs ks1 /\ matches ys ks2.
Proof.
  induction xs as [|t xs IH]; intros ks; cbn [app].
  - split; [intros H; exists [], ks; by repeat constructor|]. intros (ks1 & ks2 & -> & H1 & H2). by inversion H1.
  - destruct (is_star t) eqn:Et.
    + rewrite matches_cons_star by done. split.
      * intros (ka & kb & -> & H). apply IH in H as (k1 & k2 & -> & H1 & H2). exists (ka ++ k1), k2. rewrite app_assoc. split; [done|]. split; [by constructor|done].
      * intros (k1 & k2 & -> & H1 & H2). apply matches_cons_star in H1 as (ka & kb & -> & H1); [|done]. exists ka, (kb ++ k2). rewrite app_assoc. split; [done|]. apply IH. eauto.
    + rewrite matches_cons_one by done. split.
      * intros (k & ks' & -> & Hk & H). apply IH in H as (k1 & k2 & -> & H1 & H2). exists (k :: k1), k2. split; [done|]. split; [by constructor|done].
      * intros (k1 & k2 & -> & H1 & H2). apply matches_cons_one in H1 as (k & k' & -> & Hk & H1); [|done]. exists k, (k' ++ k2). split; [done|]. split; [done|]. apply IH. eauto.
Qed.

Lemma matches_plain ts : plain ts -> forall ks, matches ts ks <-> take_all ts ks.
Proof.
  induction 1 as [|t ts Ht _ IH]; intros ks.
  - split; [intros H; inversion H; constructor|intros H; inversion H; constructor].
  - rewrite matches_cons_one by done. split.
    + intros (k & ks' & -> & Hk & H). constructor; [done|by apply IH].
    + intros H. inversion H; subst. eexists _, _. split; [done|]. split; [done|by apply IH].
Qed.

(** A star at the start allows more characters before it. *)
Lemma star_more t ts ks0 ks : is_star t = true -> matches (t :: ts) ks -> matches (t :: ts) (ks0 ++ ks).
Proof. intros Ht H. apply matches_cons_star in H as (k1 & k2 & -> & H); [|done]. rewrite app_assoc. by constructor. Qed.

(** The first place of a part is as good as any other. *)
Lemma star_first t c u ts ks1 ks2 : is_star t = true -> is_star u = true -> plain c -> take_all c ks1 ->
  matches (t :: c ++ u :: ts) (ks1 ++ ks2) <-> matches (u :: ts) ks2.
Proof.
  intros Ht Hu Hc H1. split.
  - intros H. apply matches_cons_star in H as (ka & kb & E & H); [|done]. apply matches_app in H as (k1 & k2 & -> & Hk1 & Hk2).
    apply matches_plain in Hk1; [|done]. apply Forall2_length in H1, Hk1. 
    assert (exists k0, ks2 = k0 ++ k2) as (k0 & ->); [|by apply star_more].
    exists (drop (length ks1) (ka ++ k1)). apply (f_equal (drop (length ks1))) in E. rewrite drop_app_length in E. rewrite E, app_assoc.
    rewrite drop_app_le; [done|]. rewrite length_app. lia.
  - intros H. apply (matches_cons_star t); [done|]. exists [], (ks1 ++ ks2). split; [done|]. apply matches_app. exists ks1, ks2. split_and!; try done. by apply matches_plain.
Qed.

(** Where a part does not match, the star takes a character. *)
Lemma star_skip t c ts k ks : is_star t = true -> (forall ks1 ks2, k :: ks = ks1 ++ ks2 -> ~ matches c ks1) ->
  matches (t :: c ++ ts) (k :: ks) <-> matches (t :: c ++ ts) ks.
Proof.
  intros Ht Hno. split; [|apply (star_more t _ [k] ks Ht)]. intros H. apply matches_cons_star in H as (ka & kb & E & H); [|done].
  destruct ka as [|k' ka]; [|injection E as <- ->; by constructor]. cbn in E. subst kb. apply matches_app in H as (k1 & k2 & E & H1 & _). by destruct (Hno k1 k2 E).
Qed.

(** The part behind the last star is at the end of the string. *)
Lemma star_tail t ts c ks : is_star t = true -> plain c ->
  matches (t :: ts ++ c) ks <-> exists ks1 ks2, ks = ks1 ++ ks2 /\ matches (t :: ts) ks1 /\ take_all c ks2.
Proof.
  intros Ht Hc. change (t :: ts ++ c) with ((t :: ts) ++ c). rewrite matches_app.
  split; intros (k1 & k2 & -> & H1 & H2); exists k1, k2; split_and!; try done; by apply matches_plain.
Qed.

Lemma star_alone t ks : is_star t = true -> matches [t] ks.
Proof. intros Ht. rewrite <- (app_nil_r ks). constructor; [done|constructor]. Qed.
End Stars.

(** * Characters of the string *)

(** The bytes of one character. *)
Definition valid_char (utf8 : bool) (bs : list Z) (k : Z) : Prop :=
  if utf8 then scalar k /\ k <> 0 /\ bs = encode k
  else exists b, 0 < b < 256 /\ bs = [b] /\ k = if b <? 128 then b else CODEUNIT b.

(** A text and its characters. *)
Definition chars (utf8 : bool) (t : list Z) (ks : list Z) : Prop := exists bss, t = concat bss /\ Forall2 (valid_char utf8) bss ks.

Lemma mbtowc_mono u s n n' r : mbtowc u (Some s) n = Ok r -> 0 <= ret r -> 0 < n <= n' -> mbtowc u (Some s) n' = Ok r.
Proof.
  intros E Hr Hn. unfold mbtowc in *. unfold ctrue in E |- * at 1. rewrite (proj2 (Z.eqb_neq n 0)) in E by lia. rewrite (proj2 (Z.eqb_neq n' 0)) by lia. cbn [negb] in *.
  destruct (zget s 0) as [b| | |] eqn:Eb; try done. cbn [obind] in *. destruct (b <? 128); [done|]. destruct (negb u); [done|].
  destruct (SB - SA <? u32 (b - SA)) eqn:Es; [done|]. destruct (zget bittab (b - SA)) as [c| | |] eqn:Ec; try done. cbn [obind] in *.
  assert (194 <= b <= 244) as Hb.
  { unfold SA, SB in *. unfold zget in Ec. destruct (Z.leb_spec 0 (b - 194)) as [H0|]; [|done].
    destruct (bittab !! Z.to_nat (b - 194)) eqn:El; [|done]. apply lookup_lt_Some in El. change (length bittab) with 51%nat in El. lia. }
  unfold SA in Ec. rewrite lead_word in Ec by done. assert (c = word (Lead b)) as -> by congruence. rewrite enough in E by lia. rewrite enough by lia.
  destruct (Z.ltb_spec n (2 + Z.of_nat (lead_more b))); [injection E as <-; cbn in Hr; lia|].
  by rewrite (proj2 (Z.ltb_ge n' _)) by lia.
Qed.

Lemma encode_bytes_pos k : scalar k -> k <> 0 -> Forall (fun b => 0 < b < 256) (encode k).
Proof.
  intros Hs Hk. assert (0 <= k < 1114112) by (unfold scalar in Hs; lia). unfold encode. repeat case_cmp; repeat constructor; try lia; divlia.
Qed.

Section Chars.
Context (utf8 : bool).

Lemma valid_char_bytes bs k : valid_char utf8 bs k -> Forall (fun b => 0 < b < 256) bs /\ 1 <= zlen bs <= 4 /\ 0 < k.
Proof.
  unfold valid_char. destruct utf8.
  - intros (Hs & Hk & ->). split_and!; [by apply encode_bytes_pos|apply encode_len..|unfold scalar in Hs; lia].
  - intros (b & Hb & -> & ->). split_and!; [by constructor|done..|]. destruct (Z.ltb_spec b 128); [lia|].
    pose proof (forall_below (fun b => 0 <? CODEUNIT (128 + b)) 128 ltac:(vm_compute; reflexivity) (b - 128) ltac:(lia)) as H'.
    cbv beta in H'. replace (128 + (b - 128)) with b in H' by lia. lia.
Qed.

(** [mbtowc] at a character. *)
Lemma mbtowc_char s p n bs k rest : cstring s -> 0 <= p <= zlen s -> valid_char utf8 bs k -> drop (Z.to_nat p) s = bs ++ rest -> zlen bs <= n ->
  mbtowc_at utf8 s p n = Ok (zlen bs, k).
Proof.
  intros Hs Hp Hv E Hn. destruct (valid_char_bytes bs k Hv) as (Hb & Hl & Hk). unfold mbtowc_at.
  assert (drop (Z.to_nat p) (s ++ [0]) = bs ++ rest ++ [0]) as ->.
  { rewrite drop_app_le by (unfold zlen in *; lia). by rewrite E, <- app_assoc. }
  enough (exists r, mbtowc utf8 (Some (bs ++ rest ++ [0])) (zlen bs) = Ok r /\ ret r = zlen bs /\ wc r = Some k) as (r & Er & E1 & E2).
  { rewrite (mbtowc_mono _ _ _ n _ Er) by lia. cbn [obind]. by rewrite E1, E2. }
  unfold valid_char in Hv. destruct utf8.
  - destruct Hv as (Hsc & Hk0 & ->). rewrite mbtowc_decode.
    + replace (Z.to_nat (zlen (encode k))) with (length (encode k)) by (unfold zlen; lia). pose proof (decode_encode k [] 0 Hsc) as Ed.
      rewrite app_nil_r in Ed. rewrite take_app_length, Ed. eexists. split; [done|]. cbn [result' ret wc]. rewrite (proj2 (Z.eqb_neq k 0)) by done. split; [lia|done].
    + unfold bytes. rewrite Forall_app, Forall_app. split_and!; [eapply Forall_impl; [exact Hb|cbn; lia]| |by repeat constructor].
      apply (Forall_drop _ (Z.to_nat p)) in Hs. rewrite E in Hs. apply Forall_app in Hs as [_ Hs]. eapply Forall_impl; [exact Hs|cbn; lia].
    + rewrite zlen_app. pose proof (zlen_nonneg (rest ++ [0])). lia.
  - destruct Hv as (b & Hb' & -> & ->). unfold mbtowc. change (zget ([b] ++ rest ++ [0]) 0) with (Ok b). cbn [obind].
    change (negb (ctrue (zlen [b]))) with false. cbn iota. destruct (Z.ltb_spec b 128); eexists; (split; [done|]); [|done].
    cbn [ret wc]. unfold ctrue. by rewrite (proj2 (Z.eqb_neq b 0)) by lia.
Qed.

(** A character starts with its only byte below 128, or with one above. *)
Lemma char_head bs k : valid_char utf8 bs k -> exists b t, bs = b :: t /\ (b < 128 -> bs = [b] /\ k = b).
Proof.
  unfold valid_char. destruct utf8.
  - intros (Hs & Hk & ->). destruct (encode_head k Hs) as (b & t & E & H). exists b, t. split; [done|]. intros Hb. rewrite ascii_encode in * by (unfold scalar in Hs; lia).
    by injection E as -> <-.
  - intros (b & Hb & -> & ->). exists b, []. split; [done|]. intros H. by rewrite (proj2 (Z.ltb_lt b 128)) by done.
Qed.

(** A character of ASCII is its only byte. *)
Lemma first_byte b t k x : valid_char utf8 (b :: t) k -> x < 128 -> (b =? x) = (k =? x).
Proof.
  intros Hv Hx. destruct (char_head _ _ Hv) as (b' & t' & [= <- <-] & Hb). destruct (Z.lt_ge_cases b 128) as [Hl|Hl]; [by destruct (Hb Hl) as [_ ->]|].
  rewrite (proj2 (Z.eqb_neq b x)) by lia. symmetry. apply Z.eqb_neq. intros ->. unfold valid_char in Hv. destruct utf8.
  - destruct Hv as (Hs & Hk & E). rewrite ascii_encode in E by (unfold scalar in Hs; lia). injection E as -> _. lia.
  - destruct Hv as (b' & Hb' & [= -> ->] & ->). rewrite (proj2 (Z.ltb_ge b' 128)) in Hx by lia.
    pose proof (forall_below (fun b => 127 <? CODEUNIT (128 + b)) 128 ltac:(vm_compute; reflexivity) (b' - 128) ltac:(lia)) as H'.
    cbv beta in H'. replace (128 + (b' - 128)) with b' in H' by lia. lia.
Qed.

Lemma str_next_char s p n bs k rest : cstring s -> 0 <= p <= zlen s -> valid_char utf8 bs k -> drop (Z.to_nat p) s = bs ++ rest -> zlen bs <= n ->
  str_next utf8 s p n = Ok (k, zlen bs).
Proof.
  intros Hs Hp Hv E Hn. destruct (valid_char_bytes bs k Hv) as (_ & Hl & Hk). unfold str_next. rewrite (proj2 (Z.eqb_neq n 0)) by lia.
  rewrite at_head by done. rewrite E. cbn [obind]. destruct (char_head bs k Hv) as (b & t & Eb & Hb). assert (schar (bs ++ rest) 0 = b) as -> by (by rewrite Eb).
  destruct (Z.leb_spec 128 b).
  - rewrite (mbtowc_char s p n bs k rest) by done. cbn [obind]. by rewrite (proj2 (Z.ltb_ge _ 0)) by lia.
  - destruct Hb as [-> ->]; [lia|]. done.
Qed.

(** At the end. *)
Lemma str_next_end s p n : cstring s -> 0 <= p <= zlen s -> 0 <= n -> n = 0 \/ p = zlen s -> exists step, str_next utf8 s p n = Ok (0, step).
Proof.
  intros Hs Hp Hn He. unfold str_next. destruct (Z.eqb_spec n 0); [by eexists|]. destruct He as [|He]; [done|]. rewrite at_head by done.
  rewrite drop_ge by (unfold zlen in *; lia). by eexists.
Qed.
End Chars.

(** * Back from the end of the string *)

Lemma at_mid a c r : at_ (a ++ c :: r) (zlen a) = Ok c.
Proof. unfold at_, zget. pose proof (zlen_nonneg a). rewrite (proj2 (Z.leb_le 0 _)) by lia. rewrite <- app_assoc. cbn [app]. unfold zlen. rewrite Nat2Z.id. by rewrite list_lookup_middle. Qed.

Lemma encode_shape k : scalar k -> 128 <= k -> exists b t, encode k = b :: t /\ 192 <= b /\ t <> [] /\ Forall (fun c => 128 <= c < 192) t.
Proof.
  intros Hs Hk. assert (0 <= k < 1114112) by (unfold scalar in Hs; lia). unfold encode. rewrite (proj2 (Z.ltb_ge k 128)) by lia.
  destruct (Z.ltb_spec k 2048); [|destruct (Z.ltb_spec k 65536)]; eexists _, _; (split; [done|]); (split; [divlia|]); (split; [done|]);
    repeat constructor; divlia.
Qed.

Lemma back_char_run fuel pre b t : forall post first, 192 <= b < 256 -> Forall (fun c => 128 <= c < 192) t -> 0 <= first <= zlen pre -> (length t < fuel)%nat ->
  back_char fuel (pre ++ b :: t ++ post) first (zlen (pre ++ b :: t)) = Ok (zlen pre).
Proof.
  revert t. induction fuel as [|fuel IH]; intros t post first Hb Ht Hf Hl; [lia|]. cbn [back_char]. destruct t as [|c t _] using rev_ind.
  - replace (zlen (pre ++ [b]) - 1) with (zlen pre) by (rewrite zlen_app; change (zlen [b]) with 1; lia). cbn [app]. rewrite at_mid. cbn [obind].
    unfold u32. rewrite Z.mod_small, (proj2 (Z.ltb_ge (b - 128) 64)) by lia. done.
  - apply Forall_app in Ht as [Ht [Hc _]%Forall_cons]. rewrite length_app in Hl. cbn [length] in Hl.
    replace (pre ++ b :: (t ++ [c])) with ((pre ++ b :: t) ++ [c]) by (by rewrite <- app_assoc).
    replace (pre ++ b :: (t ++ [c]) ++ post) with ((pre ++ b :: t) ++ c :: post) by (by rewrite <- !app_assoc).
    replace (zlen ((pre ++ b :: t) ++ [c]) - 1) with (zlen (pre ++ b :: t)) by (rewrite (zlen_app (pre ++ b :: t)); change (zlen [c]) with 1; lia).
    rewrite at_mid. cbn [obind]. unfold u32. rewrite Z.mod_small, (proj2 (Z.ltb_lt (c - 128) 64)) by lia.
    assert (first < zlen (pre ++ b :: t)) as Hlt by (rewrite zlen_app, zlen_cons; pose proof (zlen_nonneg t); lia).
    rewrite (proj2 (Z.ltb_lt first _) Hlt). cbn [andb].
    replace ((pre ++ b :: t) ++ c :: post) with (pre ++ b :: t ++ c :: post) by (by rewrite <- app_assoc). apply IH; [done|done|done|lia].
Qed.

(** One character back. *)
Lemma back_one utf8 pre bs k post first : valid_char utf8 bs k -> 0 <= first <= zlen pre -> let str := pre ++ bs ++ post in
  (let! c := at_ str (zlen (pre ++ bs) - 1) in
   if (c <? 128) || negb utf8 then Ok (zlen (pre ++ bs) - 1) else back_char (S (length str)) str first (zlen (pre ++ bs))) = Ok (zlen pre).
Proof.
  intros Hv Hf str. unfold valid_char in Hv. destruct utf8.
  - destruct Hv as (Hs & Hk & ->). destruct (Z.lt_ge_cases k 128) as [Hlt|Hge].
    + unfold str. rewrite ascii_encode by (unfold scalar in Hs; lia). replace (zlen (pre ++ [k]) - 1) with (zlen pre) by (rewrite zlen_app; change (zlen [k]) with 1; lia).
      cbn [app]. rewrite at_mid. cbn [obind]. by rewrite (proj2 (Z.ltb_lt k 128)).
    + destruct (encode_shape k Hs Hge) as (b & t & E & Hb & Hne & Ht). pose proof (encode_bytes_pos k Hs Hk) as Hpos. unfold str in *. rewrite E in *.
      apply Forall_cons in Hpos as [Hb' _]. destruct t as [|c t _] using rev_ind; [done|].
      replace (pre ++ (b :: t ++ [c]) ++ post) with ((pre ++ b :: t) ++ c :: post) at 1 by (cbn [app]; by rewrite <- !app_assoc).
      replace (zlen (pre ++ b :: t ++ [c]) - 1) with (zlen (pre ++ b :: t)) at 1 by (rewrite !zlen_app, !zlen_cons, zlen_app; change (zlen [c]) with 1; lia).
      rewrite at_mid. cbn [obind]. pose proof Ht as [_ [Hc _]%Forall_cons]%Forall_app. rewrite (proj2 (Z.ltb_ge c 128)) by lia. cbn [orb negb app].
      apply back_char_run; [lia|done|done|]. rewrite !length_app. cbn [length]. rewrite !length_app. lia.
  - destruct Hv as (b & Hb & -> & ->). unfold str. replace (zlen (pre ++ [b]) - 1) with (zlen pre) by (rewrite zlen_app; change (zlen [b]) with 1; lia).
    cbn [app]. rewrite at_mid. cbn [obind]. by rewrite orb_true_r.
Qed.

Lemma back_loop_run utf8 pre ks bss : Forall2 (valid_char utf8) bss ks -> forall fuel post t, 0 <= t -> (length bss < fuel)%nat ->
  back_loop utf8 fuel (pre ++ concat bss ++ post) (zlen pre) (zlen (pre ++ concat bss)) t =
    Ok (zlen (pre ++ concat (take (length bss - Z.to_nat t) bss)), Z.max 0 (t - zlen bss)).
Proof.
  revert ks. induction bss as [|bs bss IH] using rev_ind; intros ks Hv fuel post t Ht Hfuel; (destruct fuel as [|fuel]; [lia|]); cbn [back_loop].
  - cbn [concat app]. rewrite app_nil_r, Z.ltb_irrefl. cbn [andb length Nat.sub take concat]. rewrite app_nil_r. change (zlen []) with 0. do 3 f_equal. lia.
  - apply Forall2_app_inv_l in Hv as (ks1 & ks2 & Hv & Hv2 & ->). inversion Hv2 as [|? k ? ? Hk Hnil]; subst. inversion Hnil; subst.
    destruct (valid_char_bytes utf8 bs k Hk) as (_ & Hl & _). rewrite concat_app. cbn [concat]. rewrite app_nil_r.
    assert (zlen pre < zlen (pre ++ concat bss ++ bs)) as Hlt by (rewrite !zlen_app; pose proof (zlen_nonneg (concat bss)); lia).
    rewrite (proj2 (Z.ltb_lt _ _) Hlt). cbn [andb]. unfold ctrue. destruct (Z.eqb_spec t 0) as [-> |Ht0]; cbn [negb].
    { change (Z.to_nat 0) with O. rewrite Nat.sub_0_r, take_ge, concat_app by lia. cbn [concat]. rewrite app_nil_r. do 3 f_equal. pose proof (zlen_nonneg (bss ++ [bs])). lia. }
    rewrite !app_assoc, <- (app_assoc (pre ++ concat bss) bs post).
    rewrite <- obind_assoc, (back_one utf8 (pre ++ concat bss) bs k post (zlen pre) Hk) by (rewrite zlen_app; pose proof (zlen_nonneg (concat bss)); pose proof (zlen_nonneg pre); lia).
    cbn [obind]. rewrite <- app_assoc, (IH ks1 Hv) by (rewrite ?length_app in Hfuel; cbn in Hfuel; lia). rewrite length_app, (zlen_app bss). cbn [length]. change (zlen [bs]) with 1.
    do 3 f_equal; [|lia]. rewrite take_app_le by lia. do 3 f_equal. lia.
Qed.

(** * [mbtowc] in a C string *)

Lemma zget_pad {A} (s t : list A) i x : zget s i = Ok x -> zget (s ++ t) i = Ok x.
Proof. unfold zget. destruct (0 <=? i); [|done]. rewrite !deref_Ok. apply lookup_app_l_Some. Qed.

Lemma mbtowc_pad u s t n r : mbtowc u (Some s) n = Ok r -> mbtowc u (Some (s ++ t)) n = Ok r.
Proof.
  unfold mbtowc. destruct (negb (ctrue n)); [done|].
  destruct (zget s 0) as [b| | |] eqn:E0; try done. rewrite (zget_pad s t _ _ E0). cbn [obind]. destruct (b <? 128); [done|]. destruct (negb u); [done|].
  destruct (SB - SA <? u32 (b - SA)); [done|]. destruct (zget bittab (b - SA)) as [c| | |]; try done. cbn [obind].
  destruct ((n <? 4) && _); [done|]. destruct (zget s 1) as [b1| | |] eqn:E1; try done. rewrite (zget_pad s t _ _ E1). cbn [obind].
  destruct (OOB c b1); [done|]. destruct (negb (high _)); [done|]. destruct (zget s 2) as [b2| | |] eqn:E2; try done. rewrite (zget_pad s t _ _ E2). cbn [obind].
  destruct (not_cont b2); [done|]. destruct (negb (high _)); [done|]. destruct (zget s 3) as [b3| | |] eqn:E3; try done. by rewrite (zget_pad s t _ _ E3).
Qed.

(** It does not read behind the terminator. *)
Lemma mbtowc_total u t n : t <> [] -> cstring t -> 1 <= n -> exists r, mbtowc u (Some (t ++ [0])) n = Ok r.
Proof.
  intros Ht Hc Hn. unfold mbtowc. unfold ctrue at 1. rewrite (proj2 (Z.eqb_neq n 0)) by lia. cbn [negb].
  destruct t as [|b t]; [done|]. change (zget ((b :: t) ++ [0]) 0) with (Ok b). cbn [obind]. destruct (b <? 128) eqn:Eb; [by eexists|]. destruct (negb u); [by eexists|].
  destruct (SB - SA <? u32 (b - SA)) eqn:Es; [by eexists|].
  destruct (decide (194 <= b <= 244)) as [Hb|Hb].
  2:{ exfalso. apply Forall_cons in Hc as [Hc _]. rewrite bad_lead in Es by lia. lia. }
  unfold SA. rewrite lead_word by done. cbn [obind]. destruct ((n <? 4) && _); [by eexists|].
  assert (OOB (word (Lead b)) 0 = true) as Hz.
  { pose proof (feed_lead b 0 Hb ltac:(lia)) as H. unfold feed_spec in H. replace (feed (Lead b) 0) with Reject in H; [done|].
    cbn [feed]. unfold second_ok. by replace ((if b =? 224 then 160 else if b =? 240 then 144 else 128) <=? 0) with false by (repeat case_cmp; lia). }
  destruct t as [|b1 t]; [change (zget ([b] ++ [0]) 1) with (Ok 0); cbn [obind]; rewrite Hz; by eexists|].
  change (zget ((b :: b1 :: t) ++ [0]) 1) with (Ok b1). cbn [obind]. destruct (OOB _ b1); [by eexists|]. destruct (negb (high _)); [by eexists|].
  destruct t as [|b2 t]; [by eexists|]. change (zget ((b :: b1 :: b2 :: t) ++ [0]) 2) with (Ok b2). cbn [obind]. destruct (not_cont b2); [by eexists|].
  destruct (negb (high _)); [by eexists|]. destruct t as [|b3 t]; [by eexists|]. change (zget ((b :: b1 :: b2 :: b3 :: t) ++ [0]) 3) with (Ok b3). cbn [obind].
  destruct (not_cont b3); by eexists.
Qed.

(** What it finds in a C string: no character, or one that is there. *)
Lemma mbtowc_result utf8 s p n : cstring s -> 0 <= p < zlen s -> 1 <= n ->
  exists l w, mbtowc_at utf8 s p n = Ok (l, w) /\
    (l = -1 \/ exists bs rest, valid_char utf8 bs w /\ drop (Z.to_nat p) s = bs ++ rest /\ zlen bs = l).
Proof.
  intros Hs Hp Hn. set (t := drop (Z.to_nat p) s). assert (cstring t) as Ht by (by apply Forall_drop).
  assert (t <> []) as Hne. { intros E. apply (f_equal zlen) in E. unfold t in E. rewrite zlen_drop in E by lia. change (zlen []) with 0 in E. lia. }
  destruct (mbtowc_total utf8 t n Hne Ht Hn) as (r & Er). exists (ret r), (default 0 (wc r)). unfold mbtowc_at.
  rewrite drop_app_le by (unfold zlen in *; lia). fold t. rewrite Er. split; [done|]. destruct utf8.
  - pose proof (mbtowc_pad true (t ++ [0]) [0; 0; 0] n r Er) as E4. set (t4 := (t ++ [0]) ++ [0; 0; 0]) in E4.
    assert (bytes t4) as Hb4 by (unfold t4, bytes; rewrite !Forall_app; split_and!; [eapply Forall_impl; [exact Ht|cbn; lia]|by repeat constructor..]).
    assert (4 <= zlen t4) as Hz4 by (unfold t4; rewrite zlen_app; change (zlen [0; 0; 0]) with 3; rewrite zlen_app; change (zlen [0]) with 1; pose proof (zlen_nonneg t); lia).
    assert (mbtowc true (Some t4) (Z.min n 4) = Ok r) as Em.
    { destruct (Z.le_gt_cases n 4); [by rewrite Z.min_l by lia|]. rewrite Z.min_r by lia. rewrite <- E4. unfold mbtowc. unfold ctrue at 1 3.
      rewrite (proj2 (Z.eqb_neq n 0)), (proj2 (Z.ltb_ge n 4)) by lia. done. }
    rewrite mbtowc_decode in Em by (done || lia). injection Em as <-. destruct (decode Start (take (Z.to_nat (Z.min n 4)) t4) 0) as [|q|w k] eqn:Ed; [by left..|right].
    apply decode_sound in Ed as (Hsc & Hk & rest & Et); [|by apply Forall_take]. cbn [result' ret wc default].
    assert (w <> 0) as Hw0.
    { intros ->. change (encode 0) with [0] in Et. destruct t as [|b t']; [done|]. apply Forall_cons in Ht as [Hb _].
      destruct (Z.to_nat (Z.min n 4)) eqn:En; [lia|]. cbn in Et. injection Et as ->. lia. }
    rewrite (proj2 (Z.eqb_neq w 0)) by done. pose proof (encode_bytes_pos w Hsc Hw0) as Hpos.
    exists (encode w), (drop (length (encode w)) t). split; [done|]. split; [|done].
    assert (take (length (encode w)) t4 = encode w) as E1.
    { rewrite <- (take_drop (Z.to_nat (Z.min n 4)) t4), Et, <- app_assoc. apply take_app_length. }
    destruct (Nat.le_gt_cases (length (encode w)) (length t)) as [Hle|Hgt].
    + rewrite <- E1 at 1. unfold t4. rewrite <- app_assoc, take_app_le by done. by rewrite take_drop.
    + exfalso. rewrite <- E1 in Hpos. assert (t4 !! length t = Some 0) as El by (unfold t4; rewrite <- app_assoc; by apply list_lookup_middle).
      rewrite Forall_lookup in Hpos. specialize (Hpos (length t) 0). rewrite lookup_take_lt in Hpos by done. specialize (Hpos El). lia.
  - right. destruct t as [|b t']; [done|]. apply Forall_cons in Ht as [Hb _]. unfold mbtowc, ctrue at 1 in Er. rewrite (proj2 (Z.eqb_neq n 0)) in Er by lia.
    change (zget ((b :: t') ++ [0]) 0) with (Ok b) in Er. cbn [negb obind] in Er. exists [b], t'. destruct (b <? 128) eqn:E128; injection Er as <-; cbn [ret wc default].
    + split; [exists b; by rewrite E128|]. split; [done|]. unfold ctrue. by rewrite (proj2 (Z.eqb_neq b 0)) by lia.
    + split; [exists b; by rewrite E128|]. done.
Qed.

(** * Tokens of the pattern *)

Section Pattern.
Context (pat : list Z) (Hpat : cstring pat) (p : Z) (Hp : 0 <= p <= zlen pat).

(** [pat[k]], and the characters left. *)
Definition pc (k : Z) : Z := schar pat (p + k).
Definition rest_len : Z := zlen pat - p.

Lemma at_pc k : 0 <= k <= rest_len -> at_ pat (p + k) = Ok (pc k).
Proof. unfold rest_len. intros Hk. rewrite at_schar by lia. by rewrite schar_drop by lia. Qed.

Lemma pc_zero k : 0 <= k <= rest_len -> pc k = 0 <-> k = rest_len.
Proof.
  unfold rest_len, pc. intros Hk. split.
  - intros E. destruct (decide (p + k = zlen pat)); [lia|]. exfalso. pose proof (schar_zero pat (p + k) Hpat ltac:(lia)) as H. rewrite E in H.
    rewrite (proj2 (Z.ltb_lt _ _)) in H by lia. done.
  - intros ->. apply schar_end. lia.
Qed.

(** A scan that stops at [K] without a limit stops at [K] or at the limit. *)
Definition stops_at (scan : Z -> outcome Z) (k m K : Z) : Prop :=
  (forall m', k <= m' <= m -> scan m' = Ok (Z.min K m')) /\ k <= K <= m /\ K <= rest_len /\ (K = m \/ pc K = 0 \/ pc K = ch "]").

Lemma class_end_stops z m fuel : forall k, 1 <= k <= m -> k <= rest_len -> rest_len - k < Z.of_nat fuel ->
  exists K, stops_at (fun m' => class_end fuel pat p m' z k) k m K.
Proof.
  induction fuel as [|fuel IH]; intros k Hk Hr Hf; [lia|]. unfold stops_at. cbn [class_end].
  destruct (Z.eqb_spec k m) as [-> |Hkm].
  { exists m. split; [|lia]. intros m' Hm'. rewrite (proj2 (Z.ltb_ge m m')) by lia. f_equal. lia. }
  destruct (Z.eqb_spec (pc k) 0) as [E0|Hne].
  { exists k. split; [|lia]. intros m' Hm'. rewrite (at_pc k) by lia. cbn [obind]. rewrite E0. destruct (k <? m') eqn:E; [cbn; f_equal; lia|f_equal; lia]. }
  assert (k < rest_len) as Hlt. { destruct (decide (k = rest_len)) as [Er|]; [|lia]. by apply pc_zero in Er; [|lia]. }
  destruct (negb (pc (k - 1) =? z) || negb (pc k =? ch "]")) eqn:Es.
  - destruct (IH (k + 1)) as (K & HK & HK1 & HK2 & HK3); [lia..|]. exists K. split; [|lia]. intros m' Hm'.
    destruct (Z.ltb_spec k m'); [|f_equal; lia]. rewrite (at_pc k), (at_pc (k - 1)) by lia. cbn [obind]. rewrite (proj2 (Z.eqb_neq _ 0) Hne), Es. apply HK. lia.
  - exists k. split; [|lia]. intros m' Hm'. destruct (Z.ltb_spec k m'); [|f_equal; lia]. rewrite (at_pc k), (at_pc (k - 1)) by lia. cbn [obind].
    rewrite (proj2 (Z.eqb_neq _ 0) Hne), Es. f_equal. lia.
Qed.

Lemma bracket_end_stops m fuel : forall k, 1 <= k <= m -> k <= rest_len -> rest_len - k < Z.of_nat fuel ->
  exists K, stops_at (fun m' => bracket_end fuel pat p m' k) k m K.
Proof.
  induction fuel as [|fuel IH]; intros k Hk Hr Hf; [lia|]. unfold stops_at. cbn [bracket_end].
  destruct (Z.eqb_spec k m) as [-> |Hkm].
  { exists m. split; [|lia]. intros m' Hm'. rewrite (proj2 (Z.ltb_ge m m')) by lia. f_equal. lia. }
  destruct ((pc k =? 0) || (pc k =? ch "]")) eqn:E0.
  { exists k. split; [|lia]. intros m' Hm'. rewrite (at_pc k) by lia. cbn [obind]. rewrite E0. destruct (k <? m') eqn:E; f_equal; lia. }
  assert (k < rest_len) as Hlt. { destruct (decide (k = rest_len)) as [Er|]; [|lia]. apply pc_zero in Er; lia. }
  destruct (IH (k + 1)) as (K & HK & HK1 & HK2 & HK3); [lia..|].
  destruct (negb (pc (k + 1) =? 0) && (pc k =? ch "[") && is_class (pc (k + 1))) eqn:Ec.
  - destruct (Z.eqb_spec (k + 1) m) as [Em|Hm1].
    { exists m. split; [|lia]. intros m' Hm'. destruct (Z.ltb_spec k m'); [|f_equal; lia]. rewrite (at_pc k) by lia. cbn [obind]. rewrite E0, (proj2 (Z.ltb_ge (k + 1) m')) by lia.
      cbn [obind Z.eqb negb andb]. rewrite HK by lia. f_equal. lia. }
    assert (k + 1 < rest_len) as Hlt1. { destruct (decide (k + 1 = rest_len)) as [Er|]; [|lia]. apply pc_zero in Er; [rewrite Er in Ec; done|lia]. }
    set (k3 := if k + 2 <? m then (if pc (k + 2) =? 0 then k + 2 else k + 2 + 1) else k + 2).
    assert (k + 2 <= k3 <= m /\ k3 <= rest_len) as [Hk3 Hk3r].
    { unfold k3. destruct (Z.ltb_spec (k + 2) m); [|lia]. destruct (Z.eqb_spec (pc (k + 2)) 0) as [|Hn0]; [lia|].
      destruct (decide (k + 2 = rest_len)) as [Er|]; [apply pc_zero in Er; lia|lia]. }
    destruct (class_end_stops (pc (k + 1)) m (S (length pat)) k3) as (Kc & HKc & HKc1 & HKc2 & HKc3); [lia|lia|unfold rest_len, zlen in *; lia|].
    assert (exists K2, Kc <= K2 <= m /\ K2 <= rest_len /\ (K2 = m \/ pc K2 = 0 \/ pc K2 = ch "]") /\
      forall m', Kc < m' <= m -> (let! e := if Kc =? m' then Ok 0 else at_ pat (p + Kc) in
        if e =? 0 then Ok Kc else bracket_end fuel pat p m' (Kc + 1)) = Ok (Z.min K2 m')) as (K2 & HK2a & HK2b & HK2c & HK2d).
    { destruct (Z.eqb_spec (pc Kc) 0) as [Ez|Hnz].
      - exists Kc. split_and!; [lia|lia|lia|by auto|]. intros m' Hm'. rewrite (proj2 (Z.eqb_neq Kc m')), (at_pc Kc) by lia. cbn [obind]. rewrite Ez. cbn. f_equal. lia.
      - destruct (Z.eqb_spec Kc m) as [-> |]; [exists m; split_and!; [lia|lia|lia|by auto|intros m' Hm'; lia]|].
        assert (Kc < rest_len) by (destruct (decide (Kc = rest_len)) as [Er|]; [apply pc_zero in Er; lia|lia]).
        destruct (IH (Kc + 1)) as (K2 & HKe & HK21 & HK22 & HK23); [lia..|]. exists K2. split_and!; [lia|lia|lia|done|]. intros m' Hm'.
        rewrite (proj2 (Z.eqb_neq Kc m')), (at_pc Kc) by lia. cbn [obind]. rewrite (proj2 (Z.eqb_neq _ 0) Hnz). apply HKe. lia. }
    exists K2. split; [|lia]. intros m' Hm'. destruct (Z.ltb_spec k m'); [|f_equal; lia]. rewrite (at_pc k) by lia. cbn [obind]. rewrite E0.
    destruct (Z.ltb_spec (k + 1) m').
    2:{ cbn [obind Z.eqb negb andb]. rewrite HK by lia. f_equal. lia. }
    rewrite (at_pc (k + 1)) by lia. cbn [obind]. rewrite Ec. destruct (Z.ltb_spec (k + 2) m').
    + rewrite (at_pc (k + 2)) by lia. cbn [obind].
      assert ((if pc (k + 2) =? 0 then k + 2 else k + 2 + 1) <= m') as Hkm' by (destruct (pc (k + 2) =? 0); lia).
      unfold k3 in *. rewrite (proj2 (Z.ltb_lt (k + 2) m)) in * by lia. rewrite HKc by lia. cbn [obind].
      destruct (Z.lt_ge_cases Kc m'); [rewrite Z.min_l by lia; apply HK2d; lia|]. rewrite Z.min_r, Z.eqb_refl by lia. cbn. f_equal. lia.
    + cbn [obind Z.eqb]. assert (k + 2 = m') as <- by lia. cbn [class_end]. rewrite Z.ltb_irrefl. cbn [obind]. rewrite Z.eqb_refl. cbn. f_equal. lia.
  - exists K. split; [|lia]. intros m' Hm'. destruct (Z.ltb_spec k m'); [|f_equal; lia]. rewrite (at_pc k) by lia. cbn [obind]. rewrite E0.
    destruct (Z.ltb_spec (k + 1) m').
    + rewrite (at_pc (k + 1)) by lia. cbn [obind]. rewrite Ec. apply HK. lia.
    + cbn [obind Z.eqb negb andb]. apply HK. lia.
Qed.

(** What a read of a token gives, for every limit that does not cut the token. *)
Definition token_at (next : Z -> outcome (Z * Z)) (c inc : Z) : Prop :=
  (c = UNMATCHABLE /\ inc = 0 /\ forall m', rest_len <= m' <= SIZE_MAX -> next m' = Ok (c, inc)) \/
  (c <> UNMATCHABLE /\ c <> END /\ 1 <= inc <= rest_len /\ forall m', inc <= m' <= SIZE_MAX -> next m' = Ok (c, inc)).

Lemma pat_char_token utf8 esc : 0 <= esc <= 1 -> esc < rest_len -> exists c inc, token_at (fun m' => pat_char utf8 pat (p + esc) m' (1 + esc) esc) c inc /\ (0 < c \/ c = UNMATCHABLE).
Proof.
  intros He Hr. unfold token_at, pat_char. assert (pc esc <> 0) as Hne by (intros E; apply pc_zero in E; lia).
  assert (0 <= pc esc < 256) as Hrange by (apply schar_range, Hpat). rewrite at_pc by lia. cbn [obind]. destruct (Z.leb_spec 128 (pc esc)).
  - destruct (mbtowc_result utf8 pat (p + esc) SIZE_MAX Hpat) as (l & w & E & Hres); [unfold rest_len in *; lia|unfold SIZE_MAX; lia|].
    destruct Hres as [-> |(bs & rest & Hv & Ebs & Hl)].
    + exists UNMATCHABLE, 0. split; [|by right]. left. split; [done|]. split; [done|]. intros m' Hm'.
      destruct (mbtowc_result utf8 pat (p + esc) m' Hpat) as (l' & w' & E' & Hres'); [unfold rest_len in *; lia|lia|]. rewrite E'. cbn [obind].
      destruct Hres' as [-> |(bs & rest & Hv & Ebs & Hl)]; [done|]. exfalso. pose proof (valid_char_bytes utf8 bs w' Hv) as (_ & Hlb & _).
      rewrite (mbtowc_char utf8 pat (p + esc) SIZE_MAX bs w' rest) in E; try done; [injection E; lia|unfold rest_len in *; lia|unfold SIZE_MAX; lia].
    + pose proof (valid_char_bytes utf8 bs w Hv) as (_ & Hlb & Hw). exists w, (l + esc). split; [|by left]. right.
      assert (esc + zlen bs <= rest_len) as Hfit.
      { apply (f_equal zlen) in Ebs. rewrite zlen_app, zlen_drop in Ebs by (unfold rest_len in *; lia). pose proof (zlen_nonneg rest). unfold rest_len. lia. }
      split_and!; [unfold UNMATCHABLE; lia|unfold END; lia|lia|lia|]. intros m' Hm'.
      rewrite (mbtowc_char utf8 pat (p + esc) m' bs w rest); try done; [|unfold rest_len in *; lia|lia]. cbn [obind]. rewrite (proj2 (Z.ltb_ge _ 0)) by lia. by rewrite Hl.
  - exists (pc esc), (1 + esc). split; [|left; lia]. right. split_and!; [unfold UNMATCHABLE; lia|unfold END; lia|lia|lia|done].
Qed.

(** The start of the scan of a bracket expression. *)
Definition bracket_start (m : Z) : Z :=
  let d := if 1 <? m then pc 1 else 0 in
  let k := if (d =? ch "^") || (d =? ch "!") then 2 else 1 in
  let d := if k <? m then pc k else 0 in
  if d =? ch "]" then k + 1 else k.

Definition bracket_token (m : Z) : outcome (Z * Z) :=
  let! k := bracket_end (S (length pat)) pat p m (bracket_start m) in
  let! e := if k =? m then Ok 0 else at_ pat (p + k) in
  Ok (if e =? 0 then (ch "[", 1) else (BRACKET, k + 1)).

Lemma bracket_start_range m : 0 < rest_len -> 1 <= m -> 1 <= bracket_start m <= m /\ bracket_start m <= rest_len.
Proof.
  intros Hr Hm. unfold bracket_start. set (d := if 1 <? m then pc 1 else 0). set (k := if (d =? ch "^") || (d =? ch "!") then 2 else 1).
  assert (1 <= k <= m /\ k <= rest_len) as [Hk Hkr].
  { unfold k, d. destruct (Z.ltb_spec 1 m); [|cbn; lia]. destruct ((pc 1 =? ch "^") || (pc 1 =? ch "!")) eqn:E; [|lia]. split; [lia|].
    destruct (decide (rest_len = 1)) as [E1|]; [|lia]. assert (pc 1 = 0) as E2 by (apply pc_zero; lia). by rewrite E2 in E. }
  destruct (Z.ltb_spec k m); [|cbn; lia]. destruct (Z.eqb_spec (pc k) (ch "]")) as [E|]; [|lia]. split; [lia|].
  destruct (decide (rest_len = k)) as [E1|]; [|lia]. assert (pc k = 0) as E2 by (apply pc_zero; lia). by rewrite E2 in E.
Qed.

(** With a lower limit the scan starts there, or at the limit. *)
Lemma bracket_start_cut m m' : 1 <= m' <= m -> bracket_start m' = Z.min (bracket_start m) m'.
Proof.
  intros Hm. destruct (Z.eqb_spec m' 1) as [-> |Hne].
  { change (bracket_start 1) with 1. assert (1 <= bracket_start m); [|lia]. unfold bracket_start.
    repeat match goal with |- context [if ?b then _ else _] => destruct b end; lia. }
  unfold bracket_start. rewrite (proj2 (Z.ltb_lt 1 m')), (proj2 (Z.ltb_lt 1 m)) by lia.
  set (k := if (pc 1 =? ch "^") || (pc 1 =? ch "!") then 2 else 1). assert (1 <= k <= 2) by (unfold k; destruct (_ || _); lia).
  destruct (Z.ltb_spec k m'), (Z.ltb_spec k m); try lia; [destruct (pc k =? ch "]"); lia|destruct (pc k =? ch "]"); cbn; lia|cbn; lia].
Qed.

Context (Hbig : zlen pat < SIZE_MAX).

Lemma bracket_token_at : 0 < rest_len -> exists c inc, token_at bracket_token c inc /\
  (c = ch "[" \/ c = BRACKET /\ pc (inc - 1) = ch "]" /\
    stops_at (fun m' => bracket_end (S (length pat)) pat p m' (bracket_start SIZE_MAX)) (bracket_start SIZE_MAX) SIZE_MAX (inc - 1)).
Proof.
  intros Hr. set (k0 := bracket_start SIZE_MAX). destruct (bracket_start_range SIZE_MAX Hr) as [Hk0 Hk0r]; [unfold SIZE_MAX; lia|]. fold k0 in Hk0, Hk0r.
  destruct (bracket_end_stops SIZE_MAX (S (length pat)) k0) as (K & Hstop); [lia|lia|unfold rest_len, zlen in *; lia|].
  pose proof Hstop as (HK & HK1 & HK2 & HK3). assert (K < SIZE_MAX) by (unfold rest_len in *; lia).
  destruct (Z.eqb_spec (pc K) 0) as [Ez|Hnz].
  - exists (ch "["), 1. split; [|by left]. right. split_and!; [done|done|lia|lia|]. intros m' Hm'. unfold bracket_token. rewrite (bracket_start_cut SIZE_MAX m') by lia. fold k0.
    assert (bracket_end (S (length pat)) pat p m' (Z.min k0 m') = Ok (Z.min K m')) as ->.
    { destruct (Z.le_gt_cases k0 m'); [rewrite (Z.min_l k0) by lia; apply HK; lia|]. rewrite !Z.min_r by lia. cbn [bracket_end]. by rewrite Z.ltb_irrefl. }
    cbn [obind]. destruct (Z.eqb_spec (Z.min K m') m'); [done|]. rewrite Z.min_l, at_pc by lia. cbn [obind]. by rewrite Ez.
  - assert (pc K = ch "]") as Ec by (destruct HK3 as [?|[?|?]]; [lia|done|done]).
    assert (K < rest_len) by (destruct (decide (K = rest_len)) as [Er|]; [apply pc_zero in Er; lia|lia]).
    exists BRACKET, (K + 1). replace (K + 1 - 1) with K by lia. split; [|by right]. right. split_and!; [done|done|lia|lia|]. intros m' Hm'. unfold bracket_token.
    rewrite (bracket_start_cut SIZE_MAX m') by lia. fold k0. rewrite (Z.min_l k0), HK by lia. cbn [obind]. rewrite Z.min_l, (proj2 (Z.eqb_neq K m')), at_pc by lia.
    cbn [obind]. by rewrite (proj2 (Z.eqb_neq _ 0) Hnz).
Qed.

Lemma pat_next_token utf8 flags : 0 < rest_len -> exists c inc, token_at (fun m' => pat_next utf8 pat p m' flags) c inc /\
  (0 < c \/ c = UNMATCHABLE \/ c = QUESTION \/ c = STAR /\ inc = 1 \/ c = BRACKET /\ pc (inc - 1) = ch "]" /\
    stops_at (fun m' => bracket_end (S (length pat)) pat p m' (bracket_start SIZE_MAX)) (bracket_start SIZE_MAX) SIZE_MAX (inc - 1)).
Proof.
  intros Hr. assert (pc 0 <> 0) as Hne by (intros E; apply pc_zero in E; lia).
  assert (forall (f : Z -> outcome (Z * Z)) c inc, (forall m', 1 <= m' <= SIZE_MAX -> pat_next utf8 pat p m' flags = f m') -> token_at f c inc ->
    token_at (fun m' => pat_next utf8 pat p m' flags) c inc) as Hvia.
  { intros f c inc Hf [(-> & -> & H)|(H1 & H2 & H3 & H)]; [left|right]; split_and!; try done; try lia; intros m' Hm'; rewrite Hf by lia; apply H; lia. }
  assert (forall m', 1 <= m' -> pat_next utf8 pat p m' flags =
    let! d := if pc 0 =? ch "\" then at_ pat (p + 1) else Ok 0 in
    if negb (d =? 0) && negb (ctrue (Z.land flags FNM_NOESCAPE)) then pat_char utf8 pat (p + 1) m' 2 1
    else if pc 0 =? ch "[" then bracket_token m'
    else if pc 0 =? ch "*" then Ok (STAR, 1) else if pc 0 =? ch "?" then Ok (QUESTION, 1) else pat_char utf8 pat p m' 1 0) as Enext.
  { intros m' Hm'. unfold pat_next. rewrite (proj2 (Z.eqb_neq m' 0)) by lia. rewrite <- (Z.add_0_r p) at 1. rewrite at_pc by lia. cbn [obind].
    rewrite (proj2 (Z.eqb_neq _ 0) Hne). assert (1 <= rest_len) as H1 by lia. destruct (if pc 0 =? ch "\" then _ else _) as [d| | |]; try done. cbn [obind].
    destruct (negb (d =? 0) && _); [done|]. destruct (pc 0 =? ch "["); [|done]. unfold bracket_token, bracket_start.
    assert ((if 1 <? m' then at_ pat (p + 1) else Ok 0) = Ok (if 1 <? m' then pc 1 else 0)) as -> by (destruct (1 <? m'); [by rewrite at_pc by lia|done]). cbn [obind].
    set (d1 := if 1 <? m' then pc 1 else 0). change (1 + 1) with 2. set (k1 := if (d1 =? ch "^") || (d1 =? ch "!") then 2 else 1).
    assert (1 <= k1 <= rest_len) as Hk1.
    { unfold k1. destruct ((d1 =? ch "^") || (d1 =? ch "!")) eqn:E; [|lia]. split; [lia|]. destruct (decide (rest_len = 1)) as [E1|]; [|lia].
      assert (pc 1 = 0) as E2 by (apply pc_zero; lia). unfold d1 in E. rewrite E2 in E. by destruct (1 <? m'). }
    assert ((if k1 <? m' then at_ pat (p + k1) else Ok 0) = Ok (if k1 <? m' then pc k1 else 0)) as -> by (destruct (k1 <? m'); [by rewrite at_pc by lia|done]). done. }
  destruct (pc 0 =? ch "\") eqn:Eb.
  - apply Z.eqb_eq in Eb. assert (at_ pat (p + 1) = Ok (pc 1)) as E1 by (apply at_pc; lia).
    destruct (negb (pc 1 =? 0) && negb (ctrue (Z.land flags FNM_NOESCAPE))) eqn:Ee.
    + assert (1 < rest_len) as H1. { destruct (decide (1 = rest_len)) as [E|]; [|lia]. apply pc_zero in E; [|lia]. by rewrite E in Ee. }
      destruct (pat_char_token utf8 1) as (c & inc & Hc & Hpos); [lia|lia|]. exists c, inc. split; [|tauto]. eapply Hvia; [|exact Hc]. intros m' Hm'. rewrite Enext by lia.
      rewrite E1. cbn [obind]. by rewrite Ee.
    + destruct (pat_char_token utf8 0) as (c & inc & Hc & Hpos); [lia|lia|]. exists c, inc. split; [|tauto]. eapply Hvia; [|exact Hc]. intros m' Hm'. rewrite Enext by lia.
      rewrite E1. cbn [obind]. by rewrite Ee, Eb, Z.add_0_r.
  - cbn [obind Z.eqb negb andb] in Enext. destruct (pc 0 =? ch "["); [|destruct (pc 0 =? ch "*"); [|destruct (pc 0 =? ch "?")]].
    + destruct bracket_token_at as (c & inc & Hc & Hcases); [lia|]. exists c, inc. split; [|destruct Hcases as [-> |?]; [by left|by auto]]. eapply Hvia; [|exact Hc]. intros m' Hm'. apply Enext. lia.
    + exists STAR, 1. split; [|by do 3 right; left]. eapply (Hvia (fun _ => Ok (STAR, 1))); [intros m' Hm'; apply Enext; lia|]. right. split_and!; done || lia.
    + exists QUESTION, 1. split; [|by auto]. eapply (Hvia (fun _ => Ok (QUESTION, 1))); [intros m' Hm'; apply Enext; lia|]. right. split_and!; done || lia.
    + destruct (pat_char_token utf8 0) as (c & inc & Hc & Hpos); [lia|lia|]. exists c, inc. split; [|tauto]. eapply Hvia; [|exact Hc]. intros m' Hm'. rewrite Enext by lia. by rewrite Z.add_0_r.
Qed.

Lemma pat_next_end utf8 flags m : m = 0 \/ p = zlen pat -> pat_next utf8 pat p m flags = Ok (END, 0).
Proof.
  intros H. unfold pat_next. destruct (Z.eqb_spec m 0); [done|]. destruct H as [|H]; [done|]. rewrite <- (Z.add_0_r p) at 1. rewrite at_pc by (unfold rest_len; lia).
  cbn [obind]. assert (pc 0 = 0) as -> by (apply pc_zero; unfold rest_len; lia). done.
Qed.

(** ** Bracket expressions are read to their end *)

Section Bracket.
Context (K : Z) (HK : K < rest_len) (Hclose : pc K = ch "]").

(** The scan of [pat_next] goes from [k] to the end [K]. *)
Definition closes (k : Z) : Prop := 1 <= k <= K /\ exists fuel, bracket_end fuel pat p SIZE_MAX k = Ok K.

Lemma scan_grows fuel k j : 1 <= k <= rest_len -> bracket_end fuel pat p SIZE_MAX k = Ok j -> k <= j <= rest_len.
Proof.
  revert k. induction fuel as [|fuel IH]; intros k Hk E; [done|]. cbn [bracket_end] in E. rewrite (proj2 (Z.ltb_lt k SIZE_MAX)) in E by (unfold rest_len in *; lia).
  rewrite at_pc in E by lia. cbn [obind] in E. destruct ((pc k =? 0) || (pc k =? ch "]")) eqn:E0; [injection E as <-; lia|].
  assert (k < rest_len) as Hlt by (destruct (decide (k = rest_len)) as [Er|]; [apply pc_zero in Er; lia|lia]).
  rewrite (proj2 (Z.ltb_lt (k + 1) SIZE_MAX)), at_pc in E by (unfold rest_len in *; lia). cbn [obind] in E.
  destruct (negb (pc (k + 1) =? 0) && (pc k =? ch "[") && is_class (pc (k + 1))) eqn:Ec; [|apply IH in E; lia].
  assert (k + 1 < rest_len) as Hlt1 by (destruct (decide (k + 1 = rest_len)) as [Er|]; [apply pc_zero in Er; [by rewrite Er in Ec|lia]|lia]).
  destruct (Z.ltb_spec (k + 2) SIZE_MAX); [|unfold rest_len in *; lia]. rewrite at_pc in E by lia. cbn [obind] in E.
  set (k3 := if pc (k + 2) =? 0 then k + 2 else k + 2 + 1) in E.
  assert (k + 2 <= k3 <= rest_len) as Hk3.
  { unfold k3. destruct (Z.eqb_spec (pc (k + 2)) 0); [lia|]. destruct (decide (k + 2 = rest_len)) as [Er|]; [apply pc_zero in Er; lia|lia]. }
  destruct (class_end_stops (pc (k + 1)) SIZE_MAX (S (length pat)) k3) as (Kc & H1 & H2 & H3 & _); [unfold rest_len in *; lia|lia|unfold rest_len, zlen in *; lia|].
  rewrite H1, Z.min_l in E by (unfold rest_len in *; lia). cbn [obind] in E. rewrite (proj2 (Z.eqb_neq Kc SIZE_MAX)), at_pc in E by (unfold rest_len in *; lia). cbn [obind] in E.
  destruct (Z.eqb_spec (pc Kc) 0) as [|Hn]; [injection E as <-; lia|].
  assert (Kc < rest_len) by (destruct (decide (Kc = rest_len)) as [Er|]; [apply pc_zero in Er; lia|lia]). apply IH in E; lia.
Qed.

(** One step of the scan. *)
Lemma closes_step k : closes k -> k < K ->
  pc k <> 0 /\ pc k <> ch "]" /\
  (if (pc k =? ch "[") && is_class (pc (k + 1)) then
     exists Kc, k + 3 <= Kc < K /\ class_end (S (length pat)) pat p SIZE_MAX (pc (k + 1)) (k + 3) = Ok Kc /\ pc Kc <> 0 /\ closes (Kc + 1)
   else closes (k + 1)).
Proof.
  intros [Hk [fuel E]] Hlt. destruct fuel as [|fuel]; [done|]. cbn [bracket_end] in E. rewrite (proj2 (Z.ltb_lt k SIZE_MAX)) in E by (unfold rest_len in *; lia).
  rewrite at_pc in E by lia. cbn [obind] in E. destruct ((pc k =? 0) || (pc k =? ch "]")) eqn:E0; [injection E as E; lia|]. split; [lia|]. split; [lia|].
  rewrite (proj2 (Z.ltb_lt (k + 1) SIZE_MAX)), at_pc in E by (unfold rest_len in *; lia). cbn [obind] in E.
  assert (pc (k + 1) <> 0) as Hn1 by (intros Er; apply pc_zero in Er; lia). rewrite (proj2 (Z.eqb_neq _ 0) Hn1) in E. cbn [negb andb] in E.
  destruct ((pc k =? ch "[") && is_class (pc (k + 1))) eqn:Ec; [|split; [lia|by exists fuel]].
  rewrite (proj2 (Z.ltb_lt (k + 2) SIZE_MAX)), at_pc in E by (unfold rest_len in *; lia). cbn [obind] in E.
  set (k3 := if pc (k + 2) =? 0 then k + 2 else k + 2 + 1) in E.
  assert (k + 2 <= k3 <= rest_len) as Hk3.
  { unfold k3. destruct (Z.eqb_spec (pc (k + 2)) 0); [lia|]. destruct (decide (k + 2 = rest_len)) as [Er|]; [apply pc_zero in Er; lia|lia]. }
  destruct (class_end_stops (pc (k + 1)) SIZE_MAX (S (length pat)) k3) as (Kc & H1 & H2 & H3 & _); [unfold rest_len in *; lia|lia|unfold rest_len, zlen in *; lia|].
  assert (class_end (S (length pat)) pat p SIZE_MAX (pc (k + 1)) k3 = Ok Kc) as E1 by (rewrite H1 by lia; f_equal; unfold rest_len in *; lia).
  rewrite E1 in E. cbn [obind] in E. rewrite (proj2 (Z.eqb_neq Kc SIZE_MAX)), at_pc in E by (unfold rest_len in *; lia). cbn [obind] in E.
  destruct (Z.eqb_spec (pc Kc) 0) as [Ez|Hn]; [injection E as ->; by rewrite Hclose in Ez|].
  assert (Kc < rest_len) by (destruct (decide (Kc = rest_len)) as [Er|]; [apply pc_zero in Er; lia|lia]). pose proof (scan_grows fuel (Kc + 1) K ltac:(lia) E).
  assert (k3 = k + 3) as E3.
  { unfold k3 in *. destruct (Z.eqb_spec (pc (k + 2)) 0) as [Ez|]; [|lia]. exfalso. apply Hn. apply pc_zero; [lia|]. apply pc_zero in Ez; lia. }
  exists Kc. rewrite <- E3. split_and!; try done; try lia. split; [lia|by exists fuel].
Qed.

Lemma closes_bytes k n : closes k -> (forall i, 0 <= i < Z.of_nat n -> 128 <= pc (k + i)) -> closes (k + Z.of_nat n).
Proof.
  induction n as [|n IH]; intros Hk Hb; [by rewrite Z.add_0_r|]. specialize (IH Hk ltac:(intros i Hi; apply Hb; lia)). specialize (Hb (Z.of_nat n) ltac:(lia)).
  destruct (decide (k + Z.of_nat n = K)) as [E|]; [rewrite E, Hclose in Hb; by vm_compute in Hb|]. destruct IH as [IH1 IH2].
  destruct (closes_step (k + Z.of_nat n)) as (_ & _ & H); [by split|lia|]. replace (k + Z.of_nat (S n)) with (k + Z.of_nat n + 1) by lia.
  destruct (Z.eqb_spec (pc (k + Z.of_nat n)) (ch "[")) as [E|]; [rewrite E in Hb; by vm_compute in Hb|]. exact H.
Qed.

Lemma skip_class_ok z Kc f1 : forall f2 k, 1 <= k -> k <= Kc -> Kc < rest_len -> Kc - k < Z.of_nat f2 -> pc Kc <> 0 ->
  class_end f1 pat p SIZE_MAX z k = Ok Kc -> skip_class f2 pat (p + k) z = Ok (p + Kc).
Proof.
  induction f1 as [|f1 IH]; intros f2 k Hk1 Hk Hr Hf Hn E; [done|]. destruct f2 as [|f2]; [lia|]. cbn [class_end skip_class] in *.
  rewrite (proj2 (Z.ltb_lt k SIZE_MAX)) in E by (unfold rest_len in *; lia). replace (p + k - 1) with (p + (k - 1)) by lia.
  rewrite (at_pc k), (at_pc (k - 1)) in * by lia. cbn [obind] in *.
  destruct (Z.eqb_spec (pc k) 0) as [Ez|]; [injection E as <-; done|]. destruct (negb (pc (k - 1) =? z) || negb (pc k =? ch "]")); [|injection E as <-; done].
  destruct (decide (k = Kc)) as [-> |].
  - exfalso. destruct f1 as [|f1]; [done|]. clear IH. assert (forall f k', Kc < k' <= rest_len -> class_end f pat p SIZE_MAX z k' <> Ok Kc) as Hgrow.
    { induction f as [|f IHf]; intros k' Hk' E'; [done|]. cbn [class_end] in E'. rewrite (proj2 (Z.ltb_lt k' SIZE_MAX)) in E' by (unfold rest_len in *; lia).
      rewrite (at_pc k'), (at_pc (k' - 1)) in E' by lia. cbn [obind] in E'. destruct (Z.eqb_spec (pc k') 0) as [|Hz]; [injection E'; lia|].
      destruct (negb _ || negb _); [|injection E'; lia]. apply IHf in E'; [done|].
      destruct (decide (k' = rest_len)) as [Er|]; [apply pc_zero in Er; lia|lia]. }
    apply Hgrow in E; [done|lia].
  - replace (p + k + 1) with (p + (k + 1)) by lia. apply IH; try done; lia.
Qed.

Lemma high_bytes u bs w : valid_char u bs w -> 128 <= schar bs 0 -> Forall (fun b => 128 <= b) bs.
Proof.
  unfold valid_char. destruct u.
  - intros (Hs & Hk & ->) H. destruct (Z.lt_ge_cases w 128) as [Hlt|Hge]; [rewrite ascii_encode in H |- * by (unfold scalar in Hs; lia); by constructor|].
    destruct (encode_shape w Hs Hge) as (b & t & -> & Hb & _ & Ht). constructor; [lia|]. eapply Forall_impl; [exact Ht|]. cbn. lia.
  - intros (b & Hb & -> & _) H. by constructor.
Qed.

(** A character at [k] is read past. *)
Lemma closes_char u k l w : closes k -> k < K -> 128 <= pc k -> mbtowc_at u pat (p + k) 4 = Ok (l, w) ->
  l = -1 \/ 1 <= l /\ closes (k + (l - 1)) /\ closes (k + l).
Proof.
  intros Hc Hlt Hh E. pose proof Hc as [Hk _].
  destruct (mbtowc_result u pat (p + k) 4 Hpat) as (l' & w' & E' & Hres); [unfold rest_len in *; lia|lia|]. rewrite E in E'. injection E' as <- <-.
  destruct Hres as [|(bs & rest & Hv & Ebs & Hl)]; [by left|right]. pose proof (valid_char_bytes u bs w Hv) as (_ & Hlb & _). split; [lia|].
  assert (forall i, 0 <= i < l -> pc (k + i) = schar bs i) as Hpc.
  { intros i Hi. unfold pc. replace (p + (k + i)) with (p + k + i) by lia. rewrite <- schar_drop by (unfold rest_len in *; lia). rewrite Ebs. unfold schar. rewrite app_nth1; [done|unfold zlen in *; lia]. }
  assert (Forall (fun b => 128 <= b) bs) as Hall by (apply (high_bytes u bs w Hv); rewrite <- Hpc, Z.add_0_r by lia; done).
  assert (forall n, Z.of_nat n <= l -> closes (k + Z.of_nat n)) as Hn.
  { intros n Hn. apply closes_bytes; [done|]. intros i Hi. rewrite Hpc by lia. rewrite Forall_forall in Hall. apply Hall. unfold schar. apply list_elem_of_In, nth_In. unfold zlen in *. lia. }
  split; [specialize (Hn (Z.to_nat (l - 1)))|specialize (Hn (Z.to_nat l))]; rewrite Z2Nat.id in Hn by lia; apply Hn; lia.
Qed.

Lemma bracket_loop_total u iswctype fuel : forall k wc c cf inv, closes k -> K - k < Z.of_nat fuel ->
  exists b, bracket_loop u iswctype fuel pat (p + k) wc c cf inv = Ok b.
Proof.
  induction fuel as [|fuel IH]; intros k wc c cf inv Hk Hf; [destruct Hk; lia|]. cbn [bracket_loop]. pose proof Hk as [Hr _].
  rewrite at_pc by lia. cbn [obind]. destruct (Z.eqb_spec (pc k) (ch "]")) as [|Hne]; [by eexists|].
  assert (k < K) as Hlt by (destruct (decide (k = K)) as [-> |]; [done|lia]). destruct (closes_step k Hk Hlt) as (Hn0 & _ & Hstep).
  assert (exists d, (if (pc k =? ch "-") || (pc k =? ch "[") then at_ pat (p + k + 1) else Ok 0) = Ok d /\
    ((pc k =? ch "-") || (pc k =? ch "[") = true -> d = pc (k + 1))) as (d & Ed & Hd).
  { destruct (_ || _); [|by eexists]. rewrite <- Z.add_assoc, at_pc by lia. by eexists. }
  rewrite Ed. cbn [obind]. destruct ((pc k =? ch "-") && negb (d =? ch "]")) eqn:Em.
  - apply andb_true_iff in Em as [Em1 Em2]. rewrite Em1 in Hd. specialize (Hd eq_refl). subst d. apply Z.eqb_eq in Em1. rewrite Em1 in Hstep. cbn [Z.eqb Pos.eqb andb] in Hstep.
    rename Hstep into Hc1. assert (k + 1 < K) as Hlt1. { destruct (decide (k + 1 = K)) as [E|]; [rewrite E, Hclose in Em2; done|]. destruct Hc1; lia. }
    rewrite <- Z.add_assoc. destruct (mbtowc_result u pat (p + (k + 1)) 4 Hpat) as (l & w & E & Hres); [unfold rest_len in *; lia|lia|]. rewrite E. cbn [obind].
    destruct (Z.ltb_spec l 0); [by eexists|]. match goal with |- context [if ?b then Ok (negb inv) else _] => destruct b end; [by eexists|]. destruct Hres as [|(bs & rest & Hv & Ebs & Hl)]; [lia|].
    pose proof (valid_char_bytes u bs w Hv) as (_ & Hlb & _). replace (p + k + (l - 1) + 1) with (p + (k + l)) by lia. apply IH; [|lia].
    destruct (Z.le_gt_cases 128 (pc (k + 1))) as [Hh|Hlow].
    + destruct (closes_char u (k + 1) l w Hc1 Hlt1 Hh E) as [|(_ & H' & _)]; [lia|]. by replace (k + l) with (k + 1 + (l - 1)) by lia.
    + assert (l = 1) as ->; [|done]. destruct (char_head u bs w Hv) as (b & t & Eb & Hb). destruct Hb as [Hb _]; [|by rewrite <- Hl, Hb].
      assert (pc (k + 1) = b) as <-; [|lia]. unfold pc. rewrite <- (Z.add_0_r (p + (k + 1))), <- schar_drop by (unfold rest_len in *; lia). by rewrite Ebs, Eb.
  - destruct ((pc k =? ch "[") && is_class d) eqn:Ecl.
    + apply andb_true_iff in Ecl as [Ecl1 Ecl2]. rewrite Ecl1, orb_true_r in Hd. specialize (Hd eq_refl). subst d. rewrite Ecl1, Ecl2 in Hstep. cbn [andb] in Hstep.
      destruct Hstep as (Kc & HKc & Ece & HKn & HKcl). rewrite <- Z.add_assoc.
      rewrite (skip_class_ok (pc (k + 1)) Kc (S (length pat)) (S (length pat)) (k + 3)); try done; [|lia|lia|lia|unfold rest_len, zlen in *; lia].
      cbn [obind]. match goal with |- context [if ?b then Ok (negb inv) else _] => destruct b end; [by eexists|]. replace (p + Kc + 1) with (p + (Kc + 1)) by lia. apply IH; [done|lia].
    + assert (closes (k + 1)) as Hc1.
      { destruct ((pc k =? ch "[") && is_class (pc (k + 1))) eqn:E2; [|done]. exfalso. apply andb_true_iff in E2 as [E21 E22]. rewrite E21, orb_true_r in Hd.
        rewrite (Hd eq_refl), E21, E22 in Ecl. done. }
      destruct (Z.ltb_spec (pc k) 128) as [Hlow|Hh]; cbn [obind].
      * cbn [Z.ltb Z.compare]. match goal with |- context [if ?b then Ok (negb inv) else _] => destruct b end; [by eexists|]. replace (p + k + (1 - 1) + 1) with (p + (k + 1)) by lia. apply IH; [done|lia].
      * destruct (mbtowc_result u pat (p + k) 4 Hpat) as (l & w & E & _); [unfold rest_len in *; lia|lia|]. rewrite E. cbn [obind].
        destruct (Z.ltb_spec l 0); [by eexists|]. match goal with |- context [if ?b then Ok (negb inv) else _] => destruct b end; [by eexists|]. destruct (closes_char u k l w Hk Hlt Hh E) as [|(Hl & _ & H')]; [lia|].
        replace (p + k + (l - 1) + 1) with (p + (k + l)) by lia. apply IH; [done|lia].
Qed.
End Bracket.

Lemma match_bracket_total u iswctype K k kf : K < rest_len -> pc K = ch "]" ->
  stops_at (fun m' => bracket_end (S (length pat)) pat p m' (bracket_start SIZE_MAX)) (bracket_start SIZE_MAX) SIZE_MAX K ->
  exists b, match_bracket u iswctype pat p k kf = Ok b.
Proof.
  intros HK Hclose (Hscan & Hk0 & _ & _). set (k0 := bracket_start SIZE_MAX) in *.
  assert (closes K k0) as Hc0.
  { split; [|exists (S (length pat)); rewrite Hscan by lia; f_equal; lia]. destruct (bracket_start_range SIZE_MAX) as [H _]; [|unfold SIZE_MAX; lia|fold k0 in H; lia].
    assert (1 <= k0); [|lia]. unfold k0, bracket_start. repeat match goal with |- context [if ?b then _ else _] => destruct b end; lia. }
  unfold match_bracket. pose proof Hc0 as [Hr0 _]. rewrite at_pc by lia. cbn [obind].
  unfold k0, bracket_start in *. change (1 <? SIZE_MAX) with true in *. cbn iota in *. set (inv := (pc 1 =? ch "^") || (pc 1 =? ch "!")) in *. set (k1 := if inv then 2 else 1) in *.
  assert ((if inv then p + 1 + 1 else p + 1) = p + k1) as -> by (unfold k1; destruct inv; lia).
  assert (1 <= k1 <= 2 /\ k1 <? SIZE_MAX = true) as [Hk1 Hk1s] by (unfold k1; destruct inv; split; done || lia). rewrite Hk1s in *.
  assert (k1 <= K) as Hk1K by (destruct (pc k1 =? ch "]"); lia). rewrite at_pc by lia. cbn [obind].
  destruct (((pc k1 =? ch "]") || (pc k1 =? ch "-")) && (k =? pc k1)); [by eexists|].
  assert (closes K (if (pc k1 =? ch "]") || (pc k1 =? ch "-") then k1 + 1 else k1)) as Hc1.
  { destruct (Z.eqb_spec (pc k1) (ch "]")) as [E|]; [done|]. destruct (Z.eqb_spec (pc k1) (ch "-")) as [E|]; [|done]. cbn [orb].
    destruct (closes_step K HK Hclose k1 Hc0) as (_ & _ & H); [|by rewrite E in H]. destruct (decide (k1 = K)) as [-> |]; [by rewrite Hclose in E|lia]. }
  set (k2 := if (pc k1 =? ch "]") || (pc k1 =? ch "-") then k1 + 1 else k1) in *.
  replace (if (pc k1 =? ch "]") || (pc k1 =? ch "-") then p + k1 + 1 else p + k1) with (p + k2) by (unfold k2; destruct ((pc k1 =? ch "]") || (pc k1 =? ch "-")); lia).
  replace (p + k2 - 1) with (p + (k2 - 1)) by lia. pose proof Hc1 as [Hr2 _]. rewrite at_pc by lia. cbn [obind].
  apply (bracket_loop_total K HK Hclose); [done|]. unfold rest_len, zlen in *. lia.
Qed.
End Pattern.
