(* ===== verification/FnmatchMatch.v ===== *)
(** [fnmatch_internal] decides the meaning of its pattern. *)

From Stdlib Require Import Ascii String.
From S2P Require Import Prelude Memory Multibyte Intscan IntscanSpec StringsScan StringsSpec Printf PrintfSpec Inet InetSpec Fnmatch FnmatchSpec.
Import Multibyte.

Section Match.
Context (utf8 : bool) (towupper towlower : Z -> Z) (iswctype : Z -> list Z -> bool) (flags : Z).
Context (Hcase : forall k, 0 < k -> 0 < towupper k /\ 0 < towlower k).

(** * The tokens of a pattern *)

Section Tokens.
Context (pat : list Z) (Hpat : cstring pat) (Hbig : zlen pat < SIZE_MAX).
Notation next p m := (pat_next utf8 pat p m flags).
Notation token_test p c k := (token_matches utf8 towupper towlower iswctype pat flags p c k).

(** A token is its position and its code. *)
Definition is_star (t : Z * Z) : bool := snd t =? STAR.
Definition takes (t : Z * Z) (k : Z) : bool := match token_test (fst t) (snd t) k with Ok b => b | _ => false end.

(** The tokens from [p] to [e]. *)
Inductive tokens : Z -> Z -> list (Z * Z) -> Prop :=
| T_nil p : 0 <= p <= zlen pat -> tokens p p []
| T_cons p c inc e l : 0 <= p -> next p SIZE_MAX = Ok (c, inc) -> c <> UNMATCHABLE -> c <> END -> tokens (p + inc) e l -> tokens p e ((p, c) :: l).

Lemma tokens_range p e l : tokens p e l -> 0 <= p <= e /\ e <= zlen pat /\ Z.of_nat (length l) <= e - p.
Proof.
  induction 1 as [p Hp|p c inc e l Hp E H1 H2 _ IH]; [cbn; lia|]. cbn [length].
  assert (p <= zlen pat) as Hle.
  { destruct (Z.le_gt_cases p (zlen pat)); [done|]. unfold pat_next, at_, zget in E. change (SIZE_MAX =? 0) with false in E. cbn iota in E.
    rewrite (proj2 (Z.leb_le 0 p)), lookup_ge_None_2 in E by (rewrite ?length_app; cbn; unfold zlen in *; lia). done. }
  destruct (decide (p = zlen pat)) as [-> |].
  { rewrite pat_next_end in E by auto. injection E as <- _. done. }
  destruct (pat_next_token pat Hpat p ltac:(lia) Hbig utf8 flags) as (c' & inc' & Ht & _); [unfold rest_len; lia|].
  destruct Ht as [(-> & -> & Hm)|(_ & _ & Hi & Hm)]; rewrite Hm in E by (unfold rest_len in *; lia); [by injection E as <- _|injection E as -> ->]. lia.
Qed.

(** A token is read the same with every limit behind it, and its test gives an answer. *)
Lemma token_read p c inc : 0 <= p -> next p SIZE_MAX = Ok (c, inc) -> c <> UNMATCHABLE -> c <> END ->
  1 <= inc /\ p + inc <= zlen pat /\ (forall m, inc <= m <= SIZE_MAX -> next p m = Ok (c, inc)) /\ (c = STAR -> inc = 1) /\
  forall k, token_test p c k = Ok (takes (p, c) k).
Proof.
  intros Hp E H1 H2. assert (p < zlen pat) as Hlt.
  { destruct (Z.lt_ge_cases p (zlen pat)) as [|Hge]; [done|]. destruct (decide (p = zlen pat)) as [-> |].
    - rewrite pat_next_end in E by (auto; lia). injection E as <- _. done.
    - unfold pat_next, at_, zget in E. change (SIZE_MAX =? 0) with false in E. cbn iota in E.
      rewrite (proj2 (Z.leb_le 0 p)), lookup_ge_None_2 in E by (rewrite ?length_app; cbn; unfold zlen in *; lia). done. }
  destruct (pat_next_token pat Hpat p ltac:(lia) Hbig utf8 flags) as (c' & inc' & Ht & Hcode); [unfold rest_len; lia|].
  destruct Ht as [(-> & -> & Hm)|(_ & _ & Hi & Hm)]; rewrite Hm in E by (unfold rest_len in *; lia); [by injection E as <- _|injection E as -> ->].
  split_and!; try done; try (unfold rest_len in *; lia).
  - intros ->. destruct Hcode as [?|[?|[?|[[_ ?]|(? & _)]]]]; done.
  - intros k. unfold takes. cbn [fst snd]. unfold token_matches. destruct (Z.eqb_spec c BRACKET) as [-> |]; [|done].
    destruct Hcode as [?|[?|[?|[[? _]|(_ & Hcl & Hst)]]]]; try done.
    destruct (match_bracket_total pat Hpat p ltac:(lia) Hbig utf8 iswctype (inc - 1) k
      (if ctrue (Z.land flags FNM_CASEFOLD) then casefold towupper towlower k else k)) as (b & ->); try done. unfold rest_len in *. lia.
Qed.

Lemma tokens_app p q e l1 l2 : tokens p q l1 -> tokens q e l2 -> tokens p e (l1 ++ l2).
Proof. induction 1; [done|]. intros H'. cbn. by eapply T_cons; eauto. Qed.

Lemma tokens_split l1 : forall p e l2, tokens p e (l1 ++ l2) -> exists q, tokens p q l1 /\ tokens q e l2.
Proof.
  induction l1 as [|t l1 IH]; intros p e l2 H.
  - exists p. split; [|done]. constructor. apply tokens_range in H. lia.
  - cbn in H. inversion H as [|? c inc ? ? Hp0 Hn0 Hu0 He0 Ht0]; subst. destruct (IH _ _ _ Ht0) as (q & H'1 & H'2). exists q. split; [by eapply T_cons; eauto|done].
Qed.

(** A limit that ends at [e], or no limit before the end. *)
Definition limit (len n s e : Z) : Prop := n = e - s \/ e = len /\ e - s <= n <= SIZE_MAX.

Lemma limit_step len n s e inc : limit len n s e -> 0 <= inc -> limit len (n - inc) (s + inc) e.
Proof. unfold limit. lia. Qed.

Lemma next_end p m : tokens p p [] -> limit (zlen pat) m p p -> next p m = Ok (END, 0).
Proof. intros H [Hm|[Hm _]]; apply tokens_range in H; apply pat_next_end; auto; lia. Qed.

Lemma next_token p c e l m : tokens p e ((p, c) :: l) -> limit (zlen pat) m p e -> exists inc,
  next p m = Ok (c, inc) /\ next p (e - p) = Ok (c, inc) /\ 1 <= inc /\ (c = STAR -> inc = 1) /\ c <> UNMATCHABLE /\ c <> END /\
  tokens (p + inc) e l /\ (forall k, token_test p c k = Ok (takes (p, c) k)) /\ tokens p (p + inc) [(p, c)].
Proof.
  intros H Hm. inversion H as [|? ? inc ? ? Hp0 Hn0 Hu0 He0 Ht0]; subst. destruct (token_read p c inc) as (Hi & Hle & Hnext & Hstar & Htest); try done. apply tokens_range in H as Hr. apply tokens_range in Ht0 as Hr'.
  exists inc. split_and!; try done; [apply Hnext; unfold limit in Hm; lia..|]. eapply T_cons; try done. constructor. lia.
Qed.

(** * The characters of the string *)

Context (str : list Z) (Hstr : cstring str) (Hsbig : zlen str < SIZE_MAX).
Notation read s n := (str_next utf8 str s n).

(** The characters from [s] to [e]. *)
Inductive reads : Z -> Z -> list Z -> Prop :=
| R_nil s : 0 <= s <= zlen str -> reads s s []
| R_cons s bs k e ks rest : 0 <= s <= zlen str -> valid_char utf8 bs k -> drop (Z.to_nat s) str = bs ++ rest -> reads (s + zlen bs) e ks -> reads s e (k :: ks).

Lemma reads_range s e ks : reads s e ks -> 0 <= s <= e /\ e <= zlen str /\ Z.of_nat (length ks) <= e - s /\ Forall (fun k => 0 < k) ks.
Proof.
  induction 1 as [s Hs|s bs k e ks rest Hs Hv E _ IH]; [cbn; auto with lia|]. destruct (valid_char_bytes utf8 bs k Hv) as (_ & Hl & Hk). cbn [length].
  split_and!; try lia. constructor; [done|apply IH].
Qed.

Lemma read_end s n : reads s s [] -> limit (zlen str) n s s -> exists step, read s n = Ok (0, step).
Proof. intros H Hn. apply reads_range in H. apply str_next_end; auto; unfold limit in Hn; lia. Qed.

Lemma read_char s k e ks n : reads s e (k :: ks) -> limit (zlen str) n s e -> exists inc, read s n = Ok (k, inc) /\ 1 <= inc /\ 0 < k /\ reads (s + inc) e ks.
Proof.
  intros H Hn. inversion H as [|? bs ? ? ? rest Hs Hv E Ht]; subst. destruct (valid_char_bytes utf8 bs k Hv) as (_ & Hl & Hk). exists (zlen bs).
  split_and!; try done; [|lia]. apply (str_next_char utf8 str s n bs k rest); try done. apply reads_range in Ht. unfold limit in Hn. lia.
Qed.

(** An empty text ends where it starts. *)
Lemma reads_nil s e : reads s e [] -> e = s.
Proof. by inversion 1. Qed.
Lemma tokens_nil p e : tokens p e [] -> e = p.
Proof. by inversion 1. Qed.
Lemma tokens_cons p e t l : tokens p e (t :: l) -> t = (p, snd t).
Proof. by inversion 1. Qed.

Lemma reads_split ks1 : forall s e ks2, reads s e (ks1 ++ ks2) -> exists q, reads s q ks1 /\ reads q e ks2.
Proof.
  induction ks1 as [|k ks1 IH]; intros s e ks2 H.
  - exists s. split; [|done]. constructor. apply reads_range in H. lia.
  - cbn in H. inversion H as [|? bs ? ? ? rest Hs Hv E Ht]; subst. destruct (IH _ _ _ Ht) as (q & H1 & H2). exists q. split; [by eapply R_cons|done].
Qed.

Lemma reads_bytes s e ks : reads s e ks -> exists bss, Forall2 (valid_char utf8) bss ks /\ drop (Z.to_nat s) str = concat bss ++ drop (Z.to_nat e) str /\ e = s + zlen (concat bss).
Proof.
  induction 1 as [s Hs|s bs k e ks rest Hs Hv E Ht (bss & H1 & H2 & H3)].
  - exists []. split; [constructor|]. split; [done|]. change (zlen (concat [])) with 0. lia.
  - exists (bs :: bss). split; [by constructor|]. destruct (valid_char_bytes utf8 bs k Hv) as (_ & Hl & _). cbn [concat]. rewrite zlen_app. split; [|lia].
    rewrite <- app_assoc, <- H2, E. f_equal. replace (Z.to_nat (s + zlen bs)) with (Z.to_nat s + length bs)%nat by (unfold zlen; lia). by rewrite <- drop_drop, E, drop_app_length.
Qed.

(** * The first loop *)

Notation matches' := (matches is_star takes).

Lemma takes_end_no p k : 0 < k -> token_test p END k = Ok false.
Proof.
  intros Hk. unfold token_matches. change (END =? BRACKET) with false. cbn iota. f_equal. change (END =? QUESTION) with false. cbn [orb].
  rewrite (proj2 (Z.eqb_neq k END)) by (unfold END; lia). cbn [orb]. apply Z.eqb_neq. unfold END. destruct (ctrue _); [|lia]. unfold casefold.
  destruct (Hcase k Hk). destruct (_ =? _); lia.
Qed.

Lemma head_loop_spec fuel : forall p ep l s es ks m n, tokens p ep l -> reads s es ks -> limit (zlen pat) m p ep -> limit (zlen str) n s es -> (length l < fuel)%nat ->
  (exists v, head_loop utf8 towupper towlower iswctype fuel pat str flags p m s n = Ok (inl v) /\ (v = 0 /\ matches' l ks \/ v = FNM_NOMATCH /\ ~ matches' l ks)) \/
  exists p' m' s' n' t l2 ks2, head_loop utf8 towupper towlower iswctype fuel pat str flags p m s n = Ok (inr (p', m', s', n')) /\
    is_star t = true /\ (matches' l ks <-> matches' (t :: l2) ks2) /\ tokens p' ep l2 /\ reads s' es ks2 /\ limit (zlen pat) m' p' ep /\ limit (zlen str) n' s' es.
Proof.
  induction fuel as [|fuel IH]; intros p ep l s es ks m n Ht Hr Hm Hn Hf; [lia|]. cbn [head_loop]. destruct l as [|[p' c] l].
  - apply tokens_nil in Ht as E. subst ep. rewrite next_end by done. cbn [obind]. change (END =? UNMATCHABLE) with false. change (END =? STAR) with false. cbn iota.
    destruct ks as [|k ks].
    + apply reads_nil in Hr as E. subst es. destruct (read_end s n Hr Hn) as (step & ->). cbn [obind]. left. eexists. split; [done|]. left. split; [done|constructor].
    + destruct (read_char s k es ks n Hr Hn) as (inc & -> & Hi & Hk & _). cbn [obind]. rewrite (proj2 (Z.leb_gt k 0)) by done. rewrite takes_end_no by done. cbn [obind].
      left. eexists. split; [done|]. right. split; [done|]. intros H. inversion H.
  - apply tokens_cons in Ht as E. injection E as ->. destruct (next_token p c ep l m Ht Hm) as (inc & -> & _ & Hi & Hstar & Hu & He & Ht' & Htest & _). cbn [obind].
    rewrite (proj2 (Z.eqb_neq c UNMATCHABLE) Hu). destruct (Z.eqb_spec c STAR) as [-> |Hs].
    { right. rewrite (Hstar eq_refl) in *. eexists _, _, _, _, (p, STAR), l, ks. split; [done|]. split_and!; try done. apply limit_step; [done|lia]. }
    assert (is_star (p, c) = false) as Hone by (by apply Z.eqb_neq). destruct ks as [|k ks].
    + apply reads_nil in Hr as E. subst es. destruct (read_end s n Hr Hn) as (step & ->). cbn [obind Z.leb Z.compare]. left. eexists. split; [done|]. right.
      rewrite (proj2 (Z.eqb_neq c END) He). split; [done|]. by apply matches_no_char.
    + destruct (read_char s k es ks n Hr Hn) as (sinc & -> & Hsi & Hk & Hr'). cbn [obind]. rewrite (proj2 (Z.leb_gt k 0)) by done. rewrite Htest. cbn [obind].
      destruct (takes (p, c) k) eqn:Etk.
      * destruct (IH (p + inc) ep l (s + sinc) es ks (m - inc) (n - sinc)) as [(v & E & Hv)|(p' & m' & s' & n' & t & l2 & ks2 & E & H1 & H2 & H3)]; try done.
        { apply limit_step; [done|lia]. } { apply limit_step; [done|lia]. } { cbn in Hf. lia. }
        -- left. exists v. split; [done|]. rewrite matches_takes, Etk by done. tauto.
        -- right. exists p', m', s', n', t, l2, ks2. split; [done|]. split; [done|]. split; [|done]. rewrite <- H2, matches_takes, Etk by done. tauto.
      * left. eexists. split; [done|]. right. split; [done|]. rewrite matches_takes, Etk by done. by intros [].
Qed.

(** * The tail *)

(** Tokens that end behind a star, or none. *)
Definition starred (l : list (Z * Z)) : Prop := l = [] \/ exists l' t, l = l' ++ [t] /\ is_star t = true.

Lemma limit_self len s e : limit len (e - s) s e.
Proof. by left. Qed.

Lemma tail_loop_spec fuel : forall p0 ptail p ep body tl l, tokens p0 ptail body -> starred body -> tokens ptail p tl -> plain is_star tl -> tokens p ep l -> (length l < fuel)%nat ->
  exists pt body' tl', tail_loop utf8 fuel pat flags p ep ptail (Z.of_nat (length tl)) = Ok (Some (pt, Z.of_nat (length tl'))) /\
    body ++ tl ++ l = body' ++ tl' /\ tokens p0 pt body' /\ starred body' /\ tokens pt ep tl' /\ plain is_star tl'.
Proof.
  induction fuel as [|fuel IH]; intros p0 ptail p ep body tl l Hb Hst Htl Hpl Hl Hf; [lia|]. cbn [tail_loop]. destruct l as [|[p' c] l].
  - apply tokens_nil in Hl as E. subst ep. rewrite Z.ltb_irrefl. exists ptail, body, tl. rewrite app_nil_r. done.
  - apply tokens_cons in Hl as E. injection E as ->. pose proof (tokens_range _ _ _ Hl) as Hr. cbn [length] in Hr, Hf. rewrite (proj2 (Z.ltb_lt p ep)) by lia.
    destruct (next_token p c ep l (ep - p) Hl (limit_self _ _ _)) as (inc & -> & _ & Hi & Hstar & Hu & He & Ht' & _ & Hone). cbn [obind].
    rewrite (proj2 (Z.eqb_neq c UNMATCHABLE) Hu). destruct (Z.eqb_spec c STAR) as [-> |Hs].
    + rewrite (Hstar eq_refl) in *. pose proof (tokens_app _ _ _ _ _ Hb (tokens_app _ _ _ _ _ Htl Hone)) as Hb'.
      destruct (IH p0 (p + 1) (p + 1) ep (body ++ tl ++ [(p, STAR)]) [] l) as (pt & body' & tl' & E & El & H); try done.
      { right. exists (body ++ tl), (p, STAR). by rewrite app_assoc. } { constructor. apply tokens_range in Ht'. lia. } { constructor. } { lia. }
      exists pt, body', tl'. split; [exact E|]. split; [|done]. rewrite <- El. by rewrite <- !app_assoc.
    + destruct (IH p0 ptail (p + inc) ep body (tl ++ [(p, c)]) l) as (pt & body' & tl' & E & El & H); try done.
      { by eapply tokens_app. } { apply Forall_app. split; [done|]. constructor; [by apply Z.eqb_neq|constructor]. } { lia. }
      rewrite length_app in E. cbn [length] in E. replace (Z.of_nat (length tl) + 1) with (Z.of_nat (length tl + 1)) by lia. exists pt, body', tl'. split; [exact E|]. split; [|done].
      rewrite <- El. by rewrite <- !app_assoc.
Qed.

(** The tails have as many characters as tokens. *)
Lemma tails_match_spec fuel : forall tl p ep s es ks, tokens p ep tl -> plain is_star tl -> reads s es ks -> length tl = length ks -> (length tl < fuel)%nat ->
  exists b, tails_match utf8 towupper towlower iswctype fuel pat str flags p ep s es = Ok b /\ (b = true <-> take_all takes tl ks).
Proof.
  induction fuel as [|fuel IH]; intros tl p ep s es ks Ht Hpl Hr Hlen Hf; [lia|]. cbn [tails_match]. destruct tl as [|[p' c] tl], ks as [|k ks]; try done.
  - apply tokens_nil in Ht as E. subst ep. apply reads_nil in Hr as E. subst es. rewrite (next_end p (p - p) Ht (limit_self _ _ _)). cbn [obind].
    destruct (read_end s (s - s) Hr (limit_self _ _ _)) as (step & ->). cbn [obind Z.leb Z.compare]. eexists. split; [done|]. split; [constructor|done].
  - apply tokens_cons in Ht as E. injection E as ->. apply Forall_cons in Hpl as [Hone Hpl].
    destruct (next_token p c ep tl (ep - p) Ht (limit_self _ _ _)) as (inc & -> & _ & Hi & _ & Hu & He & Ht' & Htest & _). cbn [obind].
    destruct (read_char s k es ks (es - s) Hr (limit_self _ _ _)) as (sinc & -> & Hsi & Hk & Hr'). cbn [obind]. rewrite (proj2 (Z.leb_gt k 0)) by done. rewrite Htest. cbn [obind].
    cbn [length] in *. destruct (takes (p, c) k) eqn:Etk.
    + destruct (IH tl (p + inc) ep (s + sinc) es ks) as (b & E & Hb); try done; [lia|lia|]. exists b. split; [done|]. rewrite Hb. split; [by constructor|by inversion 1].
    + eexists. split; [done|]. split; [done|]. inversion 1; congruence.
Qed.

(** * The sea of stars *)

Lemma component_loop_spec fuel : forall cs u l p ep s es ks, tokens p ep (cs ++ u :: l) -> plain is_star cs -> is_star u = true -> reads s es ks -> (length cs < fuel)%nat ->
  exists r, component_loop utf8 towupper towlower iswctype fuel pat str flags p ep s es = Ok r /\
    match r with
    | Committed p' s' => exists ks1 ks2, ks = ks1 ++ ks2 /\ take_all takes cs ks1 /\ tokens p' ep l /\ reads s' es ks2
    | Mismatch => ks <> [] /\ forall ks1 ks2, ks = ks1 ++ ks2 -> ~ matches' cs ks1
    | Exhausted => (length ks < length cs)%nat
    end.
Proof.
  induction fuel as [|fuel IH]; intros cs u l p ep s es ks Ht Hpl Hu Hr Hf; [lia|]. cbn [component_loop]. destruct cs as [|[p' c] cs].
  - cbn [app] in Ht. destruct u as [p' c]. apply tokens_cons in Ht as E. injection E as ->.
    destruct (next_token p c ep l (ep - p) Ht (limit_self _ _ _)) as (inc & -> & _ & Hi & _ & _ & _ & Ht' & _). cbn [obind]. unfold is_star in Hu. cbn [snd] in Hu. rewrite Hu.
    eexists. split; [done|]. exists [], ks. split_and!; try done. constructor.
  - cbn [app] in Ht. apply tokens_cons in Ht as E. injection E as ->. apply Forall_cons in Hpl as [Hone Hpl]. cbn [length] in *.
    destruct (next_token p c ep _ (ep - p) Ht (limit_self _ _ _)) as (inc & -> & _ & Hi & _ & _ & _ & Ht' & Htest & _). cbn [obind]. unfold is_star in Hone at 1. cbn [snd] in Hone. rewrite Hone.
    fold (is_star (p, c)) in Hone. destruct ks as [|k ks].
    + apply reads_nil in Hr as E. subst es. destruct (read_end s (s - s) Hr (limit_self _ _ _)) as (step & ->). cbn [obind Z.eqb]. eexists. split; [done|]. cbn. lia.
    + destruct (read_char s k es ks (es - s) Hr (limit_self _ _ _)) as (sinc & -> & Hsi & Hk & Hr'). cbn [obind]. rewrite (proj2 (Z.eqb_neq k 0)) by lia. rewrite Htest. cbn [obind].
      destruct (takes (p, c) k) eqn:Etk.
      * destruct (IH cs u l (p + inc) ep (s + sinc) es ks) as (r & E & H); try done; [lia|]. exists r. split; [done|]. destruct r as [p' s'| |].
        -- destruct H as (ks1 & ks2 & -> & H1 & H2 & H3). exists (k :: ks1), ks2. split; [done|]. split; [by constructor|done].
        -- destruct H as [Hne H]. split; [done|]. intros ks1 ks2 E2 Hm. apply matches_cons_one in Hm as (k' & ks' & -> & _ & Hm); [|done]. injection E2 as _ E2. by apply (H ks' ks2 E2).
        -- cbn [length]. lia.
      * eexists. split; [done|]. split; [done|]. intros ks1 ks2 E2 Hm. apply matches_cons_one in Hm as (k' & ks' & -> & Hk' & Hm); [|done]. injection E2 as -> _. congruence.
Qed.

(** Tokens that end with a star start with a part and a star. *)
Lemma starred_part l : l <> [] -> starred l -> exists cs u l', l = cs ++ u :: l' /\ plain is_star cs /\ is_star u = true /\ starred l'.
Proof.
  intros Hne [|(l1 & t & -> & Ht)]; [done|]. clear Hne. induction l1 as [|x l1 (cs & u & l' & E & H1 & H2 & H3)].
  - exists [], t, []. split; [done|]. split; [constructor|]. split; [done|by left].
  - destruct (is_star x) eqn:Ex.
    + exists [], x, (l1 ++ [t]). split; [done|]. split; [constructor|]. split; [done|]. right. by exists l1, t.
    + exists (x :: cs), u, l'. cbn [app]. rewrite E. split; [done|]. split; [by constructor|done].
Qed.

Lemma sea_loop_spec fuel : forall l t p ep s es ks, tokens p ep l -> starred l -> is_star t = true -> reads s es ks -> (length l + length ks < fuel)%nat ->
  exists v, sea_loop utf8 towupper towlower iswctype fuel pat str flags p ep s es = Ok v /\ (v = 0 /\ matches' (t :: l) ks \/ v = FNM_NOMATCH /\ ~ matches' (t :: l) ks).
Proof.
  induction fuel as [|fuel IH]; intros l t p ep s es ks Ht Hst Hstar Hr Hf; [lia|]. cbn [sea_loop]. destruct (decide (l = [])) as [-> |Hne].
  { apply tokens_nil in Ht. subst ep. rewrite Z.ltb_irrefl. exists 0. split; [done|]. left. split; [done|by apply star_alone]. }
  destruct (starred_part l Hne Hst) as (cs & u & l' & -> & Hpl & Hu & Hst'). pose proof (tokens_range _ _ _ Ht) as Hrange.
  rewrite length_app in *. cbn [length] in *. rewrite (proj2 (Z.ltb_lt p ep)) by lia.
  destruct (component_loop_spec (S (length pat)) cs u l' p ep s es ks Ht Hpl Hu Hr) as (r & -> & H); [unfold zlen in *; lia|]. cbn [obind]. destruct r as [p' s'| |].
  - destruct H as (ks1 & ks2 & -> & H1 & H2 & H3). rewrite length_app in Hf. destruct (IH l' u p' ep s' es ks2) as (v & E & Hv); try done; [lia|]. exists v. split; [done|].
    rewrite (star_first is_star takes t cs u l' ks1 ks2) by done. done.
  - destruct H as [Hks Hno]. destruct ks as [|k ks]; [done|]. destruct (read_char s k es ks (es - s) Hr (limit_self _ _ _)) as (sinc & -> & Hsi & Hk & Hr'). cbn [obind].
    rewrite (proj2 (Z.ltb_lt 0 k)) by done. cbn [obind length] in *. destruct (IH (cs ++ u :: l') t p ep (s + sinc) es ks) as (v & E & Hv); try done.
    { rewrite length_app. cbn [length]. lia. }
    exists v. split; [done|]. rewrite (star_skip is_star takes t cs (u :: l') k ks) by done. done.
  - exists FNM_NOMATCH. split; [done|]. right. split; [done|]. intros Hm. apply matches_cons_star in Hm as (k1 & k2 & -> & Hm); [|done].
    apply matches_app in Hm as (k3 & k4 & -> & Hm & _). apply matches_plain in Hm; [|done]. apply Forall2_length in Hm. rewrite !length_app in H. lia.
Qed.

(** * [fnmatch_internal] *)

Lemma reads_of bss ks : Forall2 (valid_char utf8) bss ks -> forall s rest, 0 <= s <= zlen str -> drop (Z.to_nat s) str = concat bss ++ rest -> reads s (s + zlen (concat bss)) ks.
Proof.
  induction 1 as [|bs k bss ks Hv Hvs IH]; intros s rest Hs E.
  - change (zlen (concat [])) with 0. rewrite Z.add_0_r. by constructor.
  - cbn [concat] in E |- *. rewrite <- app_assoc in E. rewrite zlen_app, Z.add_assoc. eapply R_cons; [done|done|exact E|].
    assert (s + zlen bs <= zlen str) as Hle.
    { apply (f_equal zlen) in E. rewrite zlen_drop, !zlen_app in E by done. pose proof (zlen_nonneg (concat bss)). pose proof (zlen_nonneg rest). lia. }
    apply (IH _ rest); [pose proof (zlen_nonneg bs); lia|]. replace (Z.to_nat (s + zlen bs)) with (Z.to_nat s + length bs)%nat by (unfold zlen in *; lia).
    by rewrite <- drop_drop, E, drop_app_length.
Qed.

(** The last [t] characters are found from the end. *)
Lemma back_loop_spec s es ks (t : nat) : reads s es ks ->
  exists q, back_loop utf8 (S (length str)) str s es (Z.of_nat t) = Ok (q, Z.max 0 (Z.of_nat t - Z.of_nat (length ks))) /\
    ((t <= length ks)%nat -> exists ks1 ks2, ks = ks1 ++ ks2 /\ length ks2 = t /\ reads s q ks1 /\ reads q es ks2).
Proof.
  intros Hr. pose proof (reads_range _ _ _ Hr) as (Hs & He & Hlen & _). destruct (reads_bytes _ _ _ Hr) as (bss & Hv & E & Hes). pose proof (Forall2_length _ _ _ Hv) as Hl.
  set (pre := take (Z.to_nat s) str). assert (zlen pre = s) as Hpre by (unfold pre, zlen in *; rewrite length_take; lia).
  assert (str = pre ++ concat bss ++ drop (Z.to_nat es) str) as Estr by (rewrite <- E; unfold pre; by rewrite take_drop).
  assert (zlen (pre ++ concat bss) = es) as Hze by (rewrite zlen_app; lia).
  pose proof (back_loop_run utf8 pre ks bss Hv (S (length str)) (drop (Z.to_nat es) str) (Z.of_nat t) ltac:(lia) ltac:(unfold zlen in *; lia)) as H.
  rewrite <- Estr, Hpre, Hze, Nat2Z.id in H. eexists. split; [rewrite H; do 3 f_equal; unfold zlen; lia|]. intros Ht.
  set (i := (length bss - t)%nat) in *. rewrite <- (take_drop i bss) in Hv. apply Forall2_app_inv_l in Hv as (ks1 & ks2 & Hv1 & Hv2 & ->).
  exists ks1, ks2. split; [done|]. split; [apply Forall2_length in Hv2; rewrite length_drop in Hv2; unfold i in Hv2; lia|].
  rewrite zlen_app, Hpre. rewrite <- (take_drop i bss), concat_app, <- app_assoc in E. split; [eapply reads_of; [exact Hv1|lia|exact E]|].
  assert (zlen (concat bss) = zlen (concat (take i bss)) + zlen (concat (drop i bss))) as Hz by (by rewrite <- zlen_app, <- concat_app, take_drop).
  assert (es = s + zlen (concat (take i bss)) + zlen (concat (drop i bss))) as -> by lia.
  pose proof (zlen_nonneg (concat (take i bss))). pose proof (zlen_nonneg (concat (drop i bss))).
  eapply reads_of; [exact Hv2| |]; [|replace (Z.to_nat (s + zlen (concat (take i bss)))) with (Z.to_nat s + length (concat (take i bss)))%nat by (unfold zlen; lia); by rewrite <- drop_drop, E, drop_app_length].
  lia.
Qed.

(** A leading period that the pattern does not name. *)
Definition hidden (p s : Z) : bool := ctrue (Z.land flags FNM_PERIOD) && (schar str s =? ch ".") && negb (schar pat p =? ch ".").

Lemma strnlen_limit (t : list Z) s e n : 0 <= s <= e -> e <= zlen t -> limit (zlen t) n s e -> s + strnlen_at t s n = e.
Proof. unfold limit, strnlen_at. lia. Qed.

(** The code behind the first star. *)
Lemma internal_stars p m s n t ep l es ks : is_star t = true -> tokens p ep l -> reads s es ks -> limit (zlen pat) m p ep -> limit (zlen str) n s es ->
  exists v,
    (let endpat := p + strnlen_at pat p m in
     let! t := tail_loop utf8 (S (length pat)) pat flags p endpat p 0 in
     match t with
     | None => Ok FNM_NOMATCH
     | Some (ptail, tailcnt) =>
         let n := strnlen_at str s n in
         let endstr := s + n in
         if n <? tailcnt then Ok FNM_NOMATCH
         else
           let! (stail, missing) := back_loop utf8 (S (length str)) str s endstr tailcnt in
           if ctrue missing then Ok FNM_NOMATCH
           else
             let! b := tails_match utf8 towupper towlower iswctype (S (length pat)) pat str flags ptail endpat stail endstr in
             if b : bool then sea_loop utf8 towupper towlower iswctype (S (length pat + length str)) pat str flags p ptail s stail
             else Ok FNM_NOMATCH
     end) = Ok v /\ (v = 0 /\ matches' (t :: l) ks \/ v = FNM_NOMATCH /\ ~ matches' (t :: l) ks).
Proof.
  intros Hstar Ht Hr Hm Hn. pose proof (tokens_range _ _ _ Ht) as (Hp & Hep & Hpl). pose proof (reads_range _ _ _ Hr) as (Hs & Hes & Hkl & _).
  cbv zeta. rewrite (strnlen_limit pat p ep m) by done. rewrite (strnlen_limit str s es n) by done.
  destruct (tail_loop_spec (S (length pat)) p p p ep [] [] l) as (pt & body & tl & Etl & El & Hb & Hst & Htl & Hplain); try done; [constructor; lia|by left|constructor; lia|constructor|unfold zlen in *; lia|].
  change (Z.of_nat (length [])) with 0 in Etl. rewrite Etl. cbn [app] in El. subst l. cbn [obind]. assert (strnlen_at str s n = es - s) as -> by (pose proof (strnlen_limit str s es n Hs Hes Hn); lia).
  assert ((length ks < length tl)%nat -> ~ matches' (t :: body ++ tl) ks) as Hshort.
  { intros Hlt Hmt. apply star_tail in Hmt as (k1 & k2 & -> & _ & H2); [|done|done]. apply Forall2_length in H2. rewrite length_app in Hlt. lia. }
  destruct (Z.ltb_spec (es - s) (Z.of_nat (length tl))) as [Hlt|Hge].
  { exists FNM_NOMATCH. split; [done|]. right. split; [done|]. apply Hshort. lia. }
  destruct (back_loop_spec s es ks (length tl) Hr) as (q & -> & Hq). cbn [obind]. unfold ctrue. destruct (Z.eqb_spec (Z.max 0 (Z.of_nat (length tl) - Z.of_nat (length ks))) 0) as [E|Hne]; cbn [negb].
  2:{ exists FNM_NOMATCH. split; [done|]. right. split; [done|]. apply Hshort. lia. }
  destruct Hq as (ks1 & ks2 & -> & Hlen & Hr1 & Hr2); [lia|].
  destruct (tails_match_spec (S (length pat)) tl pt ep q es ks2 Htl Hplain Hr2) as (b & -> & Hbm); [done|apply tokens_range in Htl; unfold zlen in *; lia|]. cbn [obind].
  assert (matches' (t :: body ++ tl) (ks1 ++ ks2) <-> matches' (t :: body) ks1 /\ take_all takes tl ks2) as Hiff.
  { rewrite star_tail by done. split; [|intros []; eauto]. intros (k1 & k2 & E2 & H1 & H2). pose proof (Forall2_length _ _ _ H2) as HL.
    apply app_inj_2 in E2 as [-> ->]; [done|lia]. }
  destruct b.
  - destruct (sea_loop_spec (S (length pat + length str)) body t p pt s q ks1) as (v & E2 & Hv); try done.
    { apply tokens_range in Hb. apply reads_range in Hr1. unfold zlen in *. lia. }
    exists v. split; [done|]. rewrite Hiff. tauto.
  - exists FNM_NOMATCH. split; [done|]. right. split; [done|]. rewrite Hiff. intros [_ H]. by apply Hbm in H.
Qed.

Lemma internal_spec p m s n ep l es ks : tokens p ep l -> reads s es ks -> limit (zlen pat) m p ep -> limit (zlen str) n s es ->
  exists v, fnmatch_internal utf8 towupper towlower iswctype pat p m str s n flags = Ok v /\
    (v = 0 /\ hidden p s = false /\ matches' l ks \/ v = FNM_NOMATCH /\ ~ (hidden p s = false /\ matches' l ks)).
Proof.
  intros Ht Hr Hm Hn. pose proof (tokens_range _ _ _ Ht) as (Hp & Hep & Hpl). pose proof (reads_range _ _ _ Hr) as (Hs & Hes & Hkl & _). unfold fnmatch_internal.
  assert ((if ctrue (Z.land flags FNM_PERIOD) then let! c := at_ str s in let! d := at_ pat p in Ok ((c =? ch ".") && negb (d =? ch ".")) else Ok false) = Ok (hidden p s)) as ->.
  { unfold hidden. destruct (ctrue (Z.land flags FNM_PERIOD)); [|done]. rewrite !at_head by lia. cbn [obind andb]. by rewrite !schar_drop, !Z.add_0_r by lia. }
  cbn [obind]. destruct (hidden p s); [eexists; split; [done|]; right; split; [done|]; by intros []|].
  destruct (head_loop_spec (S (length pat)) p ep l s es ks m n Ht Hr Hm Hn) as [(v & -> & Hv)|(p' & m' & s' & n' & t & l2 & ks2 & -> & H1 & H2 & H3 & H4 & H5 & H6)]; [unfold zlen in *; lia| |]; cbn [obind].
  - exists v. split; [done|]. tauto.
  - destruct (internal_stars p' m' s' n' t ep l2 es ks2 H1 H3 H4 H5 H6) as (v & E & Hv). exists v. split; [exact E|]. rewrite H2. tauto.
Qed.
End Tokens.
End Match.
