(* ===== verification/FnmatchPath.v ===== *)
(** [fnmatch] as a whole: path names, leading directories and hidden files.

    [means] says when a name matches the tokens of a pattern under the flags.  [fnmatch_tokens]
    shows that the code decides it for every pattern whose tokens can be read,
    [pattern_read] that a pattern has tokens or meets bytes that are no character, and
    [fnmatch_never_returns] what [FNM_PATHNAME] does with such bytes. *)

From Stdlib Require Import Ascii String.
From S2P Require Import Prelude Memory Multibyte Intscan IntscanSpec StringsScan StringsSpec Printf PrintfSpec Inet InetSpec Fnmatch FnmatchSpec FnmatchMatch.
Import Multibyte.

(** The first element that passes a test. *)
Lemma split_first {A} (f : A -> bool) (l : list A) : exists l1 l2, l = l1 ++ l2 /\ Forall (fun x => f x = false) l1 /\ (l2 = [] \/ exists x l3, l2 = x :: l3 /\ f x = true).
Proof.
  induction l as [|x l (l1 & l2 & -> & H1 & H2)]; [exists [], []; by auto|]. destruct (f x) eqn:E.
  - exists [], (x :: l1 ++ l2). split; [done|]. split; [constructor|]. right. by exists x, (l1 ++ l2).
  - exists (x :: l1), l2. split; [done|]. split; [by constructor|done].
Qed.

Section Meaning.
(** Tokens: which are stars, slashes and periods, and which characters the others take. *)
Context {tok : Type} (is_star : tok -> bool) (takes : tok -> Z -> bool) (slash dot : tok -> bool) (flags : Z).
Notation matches' := (matches is_star takes).

Definition flag (f : Z) : bool := ctrue (Z.land flags f).

(** With [FNM_PERIOD] a leading period is taken by a period of the pattern only. *)
Definition shown (l : list tok) (ks : list Z) : bool :=
  negb (flag FNM_PERIOD) || match ks with k :: _ => negb (k =? ch ".") | [] => true end ||
  match l with t :: _ => dot t | [] => false end.

(** What one component of a path means. *)
Definition part_matches (l : list tok) (ks : list Z) : Prop := shown l ks = true /\ matches' l ks.

Definition is_slash (k : Z) : bool := k =? ch "/".
Definition no_slash (ks : list Z) : Prop := Forall (fun k => is_slash k = false) ks.
Definition no_slash_token (l : list tok) : Prop := Forall (fun t => slash t = false) l.

(** With [FNM_PATHNAME] the components match one by one; with [FNM_LEADING_DIR] the name may go on. *)
Inductive path_matches : list tok -> list Z -> Prop :=
| P_last l ks : no_slash_token l -> no_slash ks -> part_matches l ks -> path_matches l ks
| P_dir l ks ks' : flag FNM_LEADING_DIR = true -> no_slash_token l -> no_slash ks -> part_matches l ks -> path_matches l (ks ++ ch "/" :: ks')
| P_part l t l' ks ks' : no_slash_token l -> slash t = true -> no_slash ks -> part_matches l ks -> path_matches l' ks' ->
    path_matches (l ++ t :: l') (ks ++ ch "/" :: ks').

Definition means (l : list tok) (ks : list Z) : Prop :=
  if flag FNM_PATHNAME then path_matches l ks
  else part_matches l ks \/ flag FNM_LEADING_DIR = true /\ exists ks1 ks2, ks = ks1 ++ ch "/" :: ks2 /\ part_matches l ks1.

(** A list splits at its first slash in one way. *)
Lemma split_unique {A} (f : A -> bool) (l1 l2 : list A) x y r1 r2 : Forall (fun z => f z = false) l1 -> Forall (fun z => f z = false) l2 -> f x = true -> f y = true ->
  l1 ++ x :: r1 = l2 ++ y :: r2 -> l1 = l2 /\ x = y /\ r1 = r2.
Proof.
  intros H1. revert l2. induction H1 as [|a l1 Ha _ IH]; intros l2 H2 Hx Hy E; destruct l2 as [|b l2]; cbn in E.
  - by injection E as -> ->.
  - injection E as -> _. apply Forall_cons in H2 as [H2 _]. congruence.
  - injection E as -> _. congruence.
  - injection E as -> E. apply Forall_cons in H2 as [_ H2]. by destruct (IH l2 H2 Hx Hy E) as (-> & -> & ->).
Qed.

Lemma split_none {A} (f : A -> bool) (l l1 : list A) x r : Forall (fun z => f z = false) l -> f x = true -> l <> l1 ++ x :: r.
Proof. intros H Hx ->. apply Forall_app in H as [_ H]. apply Forall_cons in H as [H _]. congruence. Qed.

(** How the components of a path decide it. *)
Lemma path_last l ks : no_slash_token l -> no_slash ks -> path_matches l ks <-> part_matches l ks.
Proof.
  intros Hl Hk. split; [|by constructor]. intros H. inversion H as [|? ks1 ks' _ _ _ _|l1 t l' ks1 ks' _ Ht _ _ _]; subst; [done|exfalso..].
  - by apply (split_none is_slash (ks1 ++ ch "/" :: ks') ks1 (ch "/") ks' Hk).
  - by apply (split_none slash (l1 ++ t :: l') l1 t l' Hl).
Qed.

Lemma path_dir l ks ks' : no_slash_token l -> no_slash ks -> path_matches l (ks ++ ch "/" :: ks') <-> flag FNM_LEADING_DIR = true /\ part_matches l ks.
Proof.
  intros Hl Hk. split; [|intros []; by constructor]. intros H. inversion H as [? ? _ Hs _|? ks1 ks2 Hf _ Hs Hp E|l1 t l' ks1 ks2 _ Ht _ _ _]; subst.
  - exfalso. by apply (split_none is_slash (ks ++ ch "/" :: ks') ks (ch "/") ks' Hs).
  - by destruct (split_unique is_slash ks1 ks (ch "/") (ch "/") ks2 ks') as (-> & _).
  - exfalso. by apply (split_none slash (l1 ++ t :: l') l1 t l' Hl).
Qed.

Lemma path_short l t l' ks : slash t = true -> no_slash ks -> ~ path_matches (l ++ t :: l') ks.
Proof.
  intros Ht Hk H. inversion H as [? ? Hs _ _|? ks1 ks2 _ _ _ _|l1 u l2 ks1 ks2 _ _ _ _ _]; subst.
  - by apply (split_none slash (l ++ t :: l') l t l' Hs).
  - by apply (split_none is_slash (ks1 ++ ch "/" :: ks2) ks1 (ch "/") ks2 Hk).
  - by apply (split_none is_slash (ks1 ++ ch "/" :: ks2) ks1 (ch "/") ks2 Hk).
Qed.

Lemma path_part l t l' ks ks' : no_slash_token l -> slash t = true -> no_slash ks ->
  path_matches (l ++ t :: l') (ks ++ ch "/" :: ks') <-> part_matches l ks /\ path_matches l' ks'.
Proof.
  intros Hl Ht Hk. split; [|intros []; by constructor]. intros H. inversion H as [? ? Hs _ _|? ks1 ks2 _ Hs _ _|l1 u l2 ks1 ks2 H1 Hu H2 H3 H4 E1 E2]; subst.
  - exfalso. by apply (split_none slash (l ++ t :: l') l t l' Hs).
  - exfalso. by apply (split_none slash (l ++ t :: l') l t l' Hs).
  - destruct (split_unique slash l1 l u t l2 l') as (-> & -> & ->); try done. by destruct (split_unique is_slash ks1 ks (ch "/") (ch "/") ks2 ks') as (-> & _ & ->).
Qed.
End Meaning.

(** The tokens of the code: a slash by its code, a period by its byte. *)
Definition slash_token (t : Z * Z) : bool := snd t =? ch "/".
Definition dot_token (pat : list Z) (t : Z * Z) : bool := schar pat (fst t) =? ch ".".

Section Code.
Context (utf8 : bool) (towupper towlower : Z -> Z) (iswctype : Z -> list Z -> bool) (pat str : list Z) (flags : Z).
Context (Hcase : forall k, 0 < k -> 0 < towupper k /\ 0 < towlower k).
Context (Hpat : cstring pat) (Hbig : zlen pat < SIZE_MAX) (Hstr : cstring str) (Hsbig : zlen str < SIZE_MAX).
Notation tokens' := (tokens utf8 flags pat).
Notation reads' := (reads utf8 str).
Notation takes' := (takes utf8 towupper towlower iswctype flags pat).
Notation part' := (part_matches is_star takes' (dot_token pat) flags).
Notation path' := (path_matches is_star takes' slash_token (dot_token pat) flags).
Notation no_slash_token := (no_slash_token slash_token).
Notation internal p m s n := (fnmatch_internal utf8 towupper towlower iswctype pat p m str s n flags).

(** * Slashes of the name *)

(** The bytes of characters that are no slashes. *)
Lemma bytes_no_slash bss ks : Forall2 (valid_char utf8) bss ks -> no_slash ks -> Forall (fun b => b <> 0 /\ b <> ch "/") (concat bss).
Proof.
  induction 1 as [|bs k bss ks Hv _ IH]; intros Hk; [constructor|]. apply Forall_cons in Hk as [Hk Hks]. cbn [concat]. apply Forall_app. split; [|by apply IH].
  destruct (valid_char_bytes utf8 bs k Hv) as (Hb & _). destruct (char_head utf8 bs k Hv) as (b & t & -> & Hlow).
  destruct (Z.lt_ge_cases b 128) as [Hl|Hl].
  - destruct (Hlow Hl) as [E ->]. rewrite E. repeat constructor; [|by apply Z.eqb_neq]. apply Forall_cons in Hb as [Hb _]. lia.
  - eapply Forall_impl; [apply (high_bytes utf8 (b :: t) k Hv); exact Hl|]. cbn. intros x Hx. change (ch "/") with 47. lia.
Qed.

Lemma at_str s : 0 <= s <= zlen str -> at_ str s = Ok (schar str s).
Proof. intros Hs. rewrite at_head by done. by rewrite schar_drop, Z.add_0_r by lia. Qed.

Lemma schar_rest s c rest : 0 <= s -> drop (Z.to_nat s) str = c :: rest -> schar str s = c.
Proof. intros Hs E. rewrite <- (Z.add_0_r s), <- schar_drop by lia. by rewrite E. Qed.

Lemma to_slash_run bs : forall fuel s, 0 <= s -> drop (Z.to_nat s) str = bs ++ drop (Z.to_nat (s + zlen bs)) str -> s + zlen bs <= zlen str -> Forall (fun b => b <> 0 /\ b <> ch "/") bs ->
  (length bs < fuel)%nat -> schar str (s + zlen bs) = 0 \/ schar str (s + zlen bs) = ch "/" -> to_slash fuel str s = Ok (s + zlen bs).
Proof.
  induction bs as [|b bs IH]; intros fuel s Hs E Hle Hb Hf Hstop; (destruct fuel as [|fuel]; [cbn in Hf; lia|]); cbn [to_slash].
  - change (zlen []) with 0 in *. rewrite Z.add_0_r in *. rewrite at_str by lia. cbn [obind]. by destruct Hstop as [-> | ->].
  - pose proof (zlen_nonneg bs). rewrite zlen_cons in *. apply Forall_cons in Hb as [[Hb1 Hb2] Hb]. rewrite at_str by lia. cbn [obind]. cbn [app] in E. rewrite (schar_rest s b _ Hs E).
    rewrite (proj2 (Z.eqb_neq b 0)), (proj2 (Z.eqb_neq b _)) by done. cbn [orb length] in *. replace (s + (1 + zlen bs)) with (s + 1 + zlen bs) in * by lia.
    apply IH; try done; try lia. apply (f_equal (drop 1)) in E. rewrite drop_drop in E. cbn [drop] in E. by replace (Z.to_nat (s + 1)) with (Z.to_nat s + 1)%nat by lia.
Qed.

(** A slash among the characters is one byte. *)
Lemma reads_slash s e ks : reads' s e (ch "/" :: ks) -> schar str s = ch "/" /\ reads' (s + 1) e ks.
Proof.
  intros H. inversion H as [|? bs ? ? ? rest Hs Hv E Ht]; subst. destruct (char_head utf8 bs _ Hv) as (b & t & Eb & Hb).
  assert (bs = [ch "/"]) as ->.
  { rewrite Eb in Hv. pose proof (first_byte utf8 b t _ (ch "/") Hv ltac:(done)) as Hf. rewrite Z.eqb_refl in Hf. apply Z.eqb_eq in Hf. subst b. by destruct Hb as [-> _]. }
  split; [by eapply schar_rest; [lia|exact E]|done].
Qed.

Lemma name_end : schar str (zlen str) = 0.
Proof. pose proof (zlen_nonneg str). rewrite <- (Z.add_0_r (zlen str)), <- schar_drop by lia. by rewrite drop_ge by (unfold zlen; lia). Qed.

(** The end of a component of the name. *)
Lemma to_slash_spec s ks : reads' s (zlen str) ks ->
  exists q ks1 ks2, to_slash (S (length str)) str s = Ok q /\ ks = ks1 ++ ks2 /\ no_slash ks1 /\ reads' s q ks1 /\
    (ks2 = [] /\ q = zlen str \/ exists ks3, ks2 = ch "/" :: ks3 /\ schar str q = ch "/" /\ reads' (q + 1) (zlen str) ks3).
Proof.
  intros H. destruct (split_first is_slash ks) as (ks1 & ks2 & -> & Hno & Hend). destruct (reads_split utf8 str ks1 s _ ks2 H) as (q & H1 & H2).
  assert (ks2 = [] /\ q = zlen str \/ exists ks3, ks2 = ch "/" :: ks3 /\ schar str q = ch "/" /\ reads' (q + 1) (zlen str) ks3) as Hq.
  { destruct Hend as [-> |(x & ks3 & -> & Hx)]; [left; split; [done|]; by inversion H2|right]. apply Z.eqb_eq in Hx. subst x.
    exists ks3. split; [done|]. by apply reads_slash. }
  exists q, ks1, ks2. split_and!; try done. destruct (reads_bytes utf8 str s q ks1 H1) as (bss & Hv & E & ->).
  pose proof (reads_range _ _ _ _ _ H1) as (Hs & He & _). apply to_slash_run; try done; try lia.
  - by apply (bytes_no_slash bss ks1).
  - unfold zlen in *. lia.
  - destruct Hq as [(_ & ->)|(? & _ & -> & _)]; [left; apply name_end|by right].
Qed.

(** * Slashes of the pattern *)

Lemma pat_slash_spec l1 : forall fuel p l2, tokens' p (zlen pat) (l1 ++ l2) -> no_slash_token l1 -> (length l1 < fuel)%nat ->
  (l2 = [] \/ exists t l3, l2 = t :: l3 /\ slash_token t = true) ->
  exists q c inc, pat_slash utf8 fuel pat flags p = Ok (q, c, inc) /\ tokens' p q l1 /\
    (l2 = [] /\ q = zlen pat /\ c = END \/ exists t l3, l2 = t :: l3 /\ slash_token t = true /\ c = ch "/" /\ tokens' (q + inc) (zlen pat) l3).
Proof.
  induction l1 as [|t l1 IH]; intros fuel p l2 Ht Hno Hf Hend; (destruct fuel as [|fuel]; [cbn in Hf; lia|]); cbn [pat_slash].
  - cbn [app] in Ht. pose proof (tokens_range _ _ _ Hpat Hbig _ _ _ Ht) as (Hp & _). assert (tokens' p p []) as Hnil by (constructor; lia).
    destruct Hend as [-> |([p' c] & l3 & -> & Hs)].
    + apply tokens_nil in Ht as E. rewrite next_end; [|done..|right; unfold SIZE_MAX in *; lia]. cbn [obind]. exists p, END, 0. split; [done|]. split; [done|]. by left.
    + apply tokens_cons in Ht as E. injection E as ->. destruct (next_token utf8 towupper towlower iswctype flags pat Hpat Hbig p c (zlen pat) l3 SIZE_MAX Ht) as (inc & -> & _ & _ & _ & _ & He & Ht' & _).
      { right. unfold SIZE_MAX in *. lia. }
      cbn [obind]. unfold slash_token in Hs. cbn [snd] in Hs. rewrite Hs, orb_true_r. exists p, c, inc. split; [done|]. split; [done|]. right. exists (p, c), l3. split_and!; try done. by apply Z.eqb_eq.
  - cbn [app] in Ht. destruct t as [p' c]. apply tokens_cons in Ht as E. injection E as ->. pose proof (tokens_range _ _ _ Hpat Hbig _ _ _ Ht) as (Hp & _).
    destruct (next_token utf8 towupper towlower iswctype flags pat Hpat Hbig p c (zlen pat) (l1 ++ l2) SIZE_MAX Ht) as (inc & -> & _ & _ & _ & _ & He & Ht' & _ & Hone).
    { right. unfold SIZE_MAX in *. lia. }
    cbn [obind]. apply Forall_cons in Hno as [Hc Hno]. unfold slash_token in Hc. cbn [snd] in Hc. rewrite Hc, (proj2 (Z.eqb_neq c END) He). cbn [orb].
    destruct (IH fuel (p + inc) l2 Ht' Hno ltac:(cbn in Hf; lia) Hend) as (q & c' & inc' & E & Ht1 & H). exists q, c', inc'. split; [done|]. split; [|done].
    change ((p, c) :: l1) with ([(p, c)] ++ l1). by eapply tokens_app.
Qed.

(** * A component *)

(** The leading period of a component is its first byte. *)
Lemma hidden_shown p s ep l es ks : tokens' p ep l -> reads' s es ks -> schar str es <> ch "." -> matches is_star (takes utf8 towupper towlower iswctype flags pat) l ks ->
  hidden flags pat str p s = negb (shown (dot_token pat) flags l ks).
Proof.
  intros Ht Hr He Hm. unfold hidden, shown, flag. destruct (ctrue (Z.land flags FNM_PERIOD)); [|done]. cbn [negb andb orb].
  destruct ks as [|k ks].
  - apply reads_nil in Hr. subst es. by rewrite (proj2 (Z.eqb_neq _ _) He).
  - assert (schar str s =? ch "." = (k =? ch ".")) as ->.
    { inversion Hr as [|? bs ? ? ? rest Hs Hv E _]; subst. destruct (char_head utf8 bs k Hv) as (b & t & Eb & Hb). subst bs. rewrite (schar_rest s b _ ltac:(lia) E).
      by apply (first_byte utf8 b t). }
    destruct (k =? ch "."); [|done]. cbn [negb orb andb]. destruct l as [|t l]; [inversion Hm|]. apply tokens_cons in Ht as ->. done.
Qed.

Lemma part_spec p m s n ep l es ks : tokens' p ep l -> reads' s es ks -> limit (zlen pat) m p ep -> limit (zlen str) n s es -> schar str es <> ch "." ->
  exists v, internal p m s n = Ok v /\ (v = 0 /\ part' l ks \/ v = FNM_NOMATCH /\ ~ part' l ks).
Proof.
  intros Ht Hr Hm Hn He. destruct (internal_spec utf8 towupper towlower iswctype flags Hcase pat Hpat Hbig str Hstr p m s n ep l es ks Ht Hr Hm Hn) as (v & E & Hv).
  exists v. split; [done|]. unfold part_matches. destruct Hv as [(-> & Hh & Hma)|(-> & Hno)]; [left|right]; (split; [done|]).
  - split; [|done]. rewrite (hidden_shown p s ep l es ks) in Hh by done. by destruct (shown _ _ _ _).
  - intros [Hs Hma]. apply Hno. split; [|done]. rewrite (hidden_shown p s ep l es ks) by done. by rewrite Hs.
Qed.

(** * Paths *)

Lemma path_loop_spec steps fuel : forall p s l ks, tokens' p (zlen pat) l -> reads' s (zlen str) ks -> (length l < steps)%nat -> zlen str - s < Z.of_nat fuel ->
  exists v, path_loop utf8 towupper towlower iswctype fuel steps pat str flags p s = Ok v /\ (v = 0 /\ path' l ks \/ v = FNM_NOMATCH /\ ~ path' l ks).
Proof.
  induction fuel as [|fuel IH]; intros p s l ks Ht Hr Hst Hf; [apply reads_range in Hr; lia|]. cbn [path_loop].
  destruct (to_slash_spec s ks Hr) as (q & ks1 & ks2 & -> & -> & Hno & Hr1 & Hq). cbn [obind]. destruct (split_first slash_token l) as (l1 & l2 & -> & Hnot & Hend).
  rewrite length_app in Hst. destruct (pat_slash_spec l1 steps p l2 Ht Hnot ltac:(lia) Hend) as (pq & c & inc & -> & Ht1 & Hc). cbn [obind].
  pose proof (reads_range _ _ _ _ _ Hr1) as (Hs & Hqr & _). rewrite at_str by lia. cbn [obind].
  assert (schar str q <> ch ".") as Hdot by (destruct Hq as [(_ & ->)|(? & _ & -> & _)]; [rewrite name_end|]; done).
  destruct (part_spec p (pq - p) s (q - s) pq l1 q ks1 Ht1 Hr1 (limit_self _ _ _) (limit_self _ _ _) Hdot) as (v & Ev & Hv).
  destruct Hq as [(-> & ->)|(ks3 & -> & Eq & Hr3)]; [rewrite name_end, app_nil_r|rewrite Eq]; (destruct Hc as [(-> & _ & ->)|(t & l3 & -> & Hsl & -> & Ht3)]; [rewrite app_nil_r|]).
  - change (negb (END =? 0) && ((0 =? 0) || negb (ctrue (Z.land flags FNM_LEADING_DIR)))) with false. cbn iota. rewrite Ev. cbn [obind]. setoid_rewrite path_last; try done.
    destruct Hv as [(-> & Hv)|(-> & Hv)]; eexists; (split; [done|]); auto.
  - eexists. split; [done|]. right. split; [done|]. by apply path_short.
  - setoid_rewrite path_dir; try done. unfold flag. change (negb (END =? ch "/") && ((ch "/" =? 0) || negb (ctrue (Z.land flags FNM_LEADING_DIR)))) with (negb (ctrue (Z.land flags FNM_LEADING_DIR))).
    destruct (ctrue (Z.land flags FNM_LEADING_DIR)); cbn [negb]; [|eexists; split; [done|]; right; split; [done|]; by intros []]. rewrite Ev. cbn [obind].
    destruct Hv as [(-> & Hv)|(-> & Hv)]; eexists; (split; [done|]); [by left|right]. split; [done|]. by intros [].
  - change (negb (ch "/" =? ch "/") && ((ch "/" =? 0) || negb (ctrue (Z.land flags FNM_LEADING_DIR)))) with false. cbn iota. rewrite Ev. cbn [obind]. setoid_rewrite path_part; try done.
    destruct Hv as [(-> & Hv)|(-> & Hv)]; [|eexists; split; [done|]; right; split; [done|]; by intros []]. change (ctrue 0) with false. change (ch "/" =? 0) with false. cbn iota.
    destruct (IH (pq + inc) (q + 1) l3 ks3 Ht3 Hr3) as (v & -> & Hv'); [cbn in Hst; lia|lia|]. exists v. split; [done|]. tauto.
Qed.

(** * Leading directories *)

Lemma leading_skip bs : forall fuel s rest, 0 <= s -> drop (Z.to_nat s) str = bs ++ rest -> Forall (fun b => b <> 0 /\ b <> ch "/") bs ->
  leading_loop utf8 towupper towlower iswctype (length bs + fuel) pat str flags s = leading_loop utf8 towupper towlower iswctype fuel pat str flags (s + zlen bs).
Proof.
  induction bs as [|b bs IH]; intros fuel s rest Hs E Hb.
  - change (zlen []) with 0. by rewrite Z.add_0_r.
  - apply Forall_cons in Hb as [[Hb1 Hb2] Hb]. cbn [length Nat.add leading_loop app] in *. assert (s < zlen str).
    { apply (f_equal length) in E. rewrite length_drop in E. cbn [length] in E. unfold zlen. lia. }
    rewrite at_str by lia. rewrite (schar_rest s b _ Hs E). cbn [obind]. rewrite (proj2 (Z.eqb_neq b 0)), (proj2 (Z.eqb_neq b _)) by done. cbn [negb].
    rewrite zlen_cons. replace (s + (1 + zlen bs)) with (s + 1 + zlen bs) by lia. apply (IH _ _ rest); [lia| |done].
    apply (f_equal (drop 1)) in E. rewrite drop_drop in E. cbn [drop] in E. by replace (Z.to_nat (s + 1)) with (Z.to_nat s + 1)%nat by lia.
Qed.

Lemma leading_loop_spec l ks2 : tokens' 0 (zlen pat) l -> forall s ks1, reads' 0 s ks1 -> reads' s (zlen str) ks2 ->
  exists b, leading_loop utf8 towupper towlower iswctype (S (Z.to_nat (zlen str - s))) pat str flags s = Ok b /\
    (b = true <-> exists k1 k2, ks2 = k1 ++ ch "/" :: k2 /\ part' l (ks1 ++ k1)).
Proof.
  intros Ht. induction ks2 as [|k ks2 IH]; intros s ks1 H1 H2.
  - inversion H2; subst. cbn [leading_loop]. rewrite at_str, name_end by lia. exists false. split; [done|]. split; [done|]. intros ([|] & k2 & E & _); done.
  - pose proof (reads_range _ _ _ _ _ H2) as (Hs & _ & Hlen & _). cbn [length] in Hlen.
    assert (forall q, reads' s q [k] -> reads' 0 q (ks1 ++ [k])) as Happ.
    { intros q Hq. destruct (reads_bytes _ _ _ _ _ H1) as (b1 & V1 & E1 & Q1). destruct (reads_bytes _ _ _ _ _ Hq) as (b2 & V2 & E2 & Q2).
      replace q with (0 + zlen (concat (b1 ++ b2))) by (rewrite concat_app, zlen_app; lia).
      eapply reads_of; [exact pat|by apply Forall2_app|lia|]. rewrite concat_app, <- app_assoc, E1, E2. done. }
    inversion H2 as [|? bs ? ? ? rest Hs' Hv E Ht2]; subst. destruct (valid_char_bytes utf8 bs k Hv) as (_ & Hl & _).
    assert (reads' s (s + zlen bs) [k]) as Hone by (eapply R_cons; [done|exact Hv|exact E|constructor; apply reads_range in Ht2; lia]). specialize (Happ _ Hone).
    destruct (IH _ _ Happ Ht2) as (b & Eb & Hb). pose proof (reads_range _ _ _ _ _ Ht2) as (Hle & _ & _). destruct (is_slash k) eqn:Ek.
    + apply Z.eqb_eq in Ek. subst k. destruct (reads_slash s _ _ H2) as [Ec _]. destruct (reads_slash s _ _ Hone) as [_ Hn]. apply reads_nil in Hn. rewrite Hn in *.
      cbn [leading_loop]. rewrite at_str by lia. rewrite Ec. cbn [obind]. change (ch "/" =? 0) with false. change (ch "/" =? ch "/") with true. cbn [negb].
      destruct (part_spec 0 SIZE_MAX 0 s (zlen pat) l s ks1 Ht H1) as (v & -> & Hpart); [right; pose proof (zlen_nonneg pat); unfold SIZE_MAX in *; lia|left; lia|by rewrite Ec|]. cbn [obind].
      destruct Hpart as [(-> & Hp)|(-> & Hp)].
      * exists true. split; [done|]. split; [|done]. intros _. exists [], ks2. by rewrite app_nil_r.
      * change (FNM_NOMATCH =? 0) with false. cbn iota. replace (Z.to_nat (zlen str - s)) with (S (Z.to_nat (zlen str - (s + 1)))) by lia. exists b. split; [done|]. rewrite Hb. split.
        -- intros (k1 & k2 & -> & H). exists (ch "/" :: k1), k2. split; [done|]. by rewrite <- app_assoc in H.
        -- intros ([|c k1] & k2 & E2 & H); [by rewrite app_nil_r in H|]. cbn in E2. injection E2 as <- ->. exists k1, k2. split; [done|]. by rewrite <- app_assoc.
    + assert (Forall (fun b => b <> 0 /\ b <> ch "/") bs) as Hbs.
      { rewrite <- (app_nil_r bs). apply (bytes_no_slash [bs] [k]); [by repeat constructor|]. by constructor. }
      replace (S (Z.to_nat (zlen str - s))) with (length bs + S (Z.to_nat (zlen str - (s + zlen bs))))%nat by (unfold zlen in *; lia).
      rewrite (leading_skip bs _ s rest) by (done || lia). exists b. split; [done|]. rewrite Hb. split.
      * intros (k1 & k2 & -> & H). exists (k :: k1), k2. split; [done|]. by rewrite <- app_assoc in H.
      * intros ([|c k1] & k2 & E2 & H); cbn in E2; injection E2 as -> E2; [done|]. subst ks2. exists k1, k2. split; [done|]. by rewrite <- app_assoc.
Qed.

Lemma chars_reads ks : chars utf8 str ks -> reads' 0 (zlen str) ks.
Proof.
  intros (bss & E & H). rewrite E at 2. apply (reads_of utf8 pat str bss ks H 0 []); [pose proof (zlen_nonneg str); lia|]. by rewrite app_nil_r.
Qed.
End Code.

(** * Which patterns have tokens *)

(** One byte per character: every byte is one. *)
Lemma byte_token flags pat p c inc : cstring pat -> 0 <= p < zlen pat -> pat_next false pat p SIZE_MAX flags = Ok (c, inc) -> c <> UNMATCHABLE.
Proof.
  intros Hpat Hp. assert (forall q step esc, 0 <= q <= zlen pat -> pat_char false pat q SIZE_MAX step esc = Ok (c, inc) -> c <> UNMATCHABLE) as Hchar.
  { intros q step esc Hq. unfold pat_char. rewrite at_head by done. cbn [obind]. destruct (drop (Z.to_nat q) pat) as [|b rest] eqn:E; [cbn; by intros [= <- _]|].
    assert (0 < b < 256) as Hb by (apply (Forall_drop _ (Z.to_nat q)) in Hpat; rewrite E in Hpat; by inversion Hpat). change (schar (b :: rest) 0) with b. destruct (Z.leb_spec 128 b).
    - assert (valid_char false [b] (CODEUNIT b)) as Hv by (exists b; rewrite (proj2 (Z.ltb_ge b 128)) by lia; done).
      rewrite (mbtowc_char false pat q SIZE_MAX [b] (CODEUNIT b) rest) by (done || (change (zlen [b]) with 1; unfold SIZE_MAX; lia)). cbn [obind].
      destruct (valid_char_bytes false _ _ Hv) as (_ & _ & Hpos). intros [= <- _]. unfold UNMATCHABLE. lia.
    - intros [= <- _]. unfold UNMATCHABLE. lia. }
  unfold pat_next. change (SIZE_MAX =? 0) with false. cbn iota. rewrite (at_head pat p) by lia. cbn [obind]. destruct (_ =? 0); [by intros [= <- _]|].
  destruct (if _ =? ch "\" then _ else _) as [d| | |]; try done. cbn [obind]. destruct (negb (d =? 0) && _); [by apply Hchar; lia|]. destruct (_ =? ch "[").
  - destruct (if 1 <? SIZE_MAX then _ else _) as [d1| | |]; try done. cbn [obind]. destruct (if _ <? SIZE_MAX then _ else _) as [d2| | |]; try done. cbn [obind].
    destruct (bracket_end _ _ _ _ _) as [k| | |]; try done. cbn [obind]. destruct (if k =? SIZE_MAX then _ else _) as [e| | |]; try done. cbn [obind]. destruct (e =? 0); by intros [= <- _].
  - destruct (_ =? ch "*"); [by intros [= <- _]|]. destruct (_ =? ch "?"); [by intros [= <- _]|]. apply Hchar. lia.
Qed.

(** Every pattern is read as tokens up to its end or up to bytes that are no
    character of the locale; with one byte per character it is always read up to its end. *)
Theorem pattern_read utf8 flags pat : cstring pat -> zlen pat < SIZE_MAX ->
  exists q l, tokens utf8 flags pat 0 q l /\ (q = zlen pat \/ utf8 = true /\ pat_next utf8 pat q SIZE_MAX flags = Ok (UNMATCHABLE, 0)).
Proof.
  intros Hpat Hbig. pose proof (zlen_nonneg pat) as Hz. enough (forall n p, 0 <= p <= zlen pat -> zlen pat - p < Z.of_nat n ->
    exists q l, tokens utf8 flags pat p q l /\ (q = zlen pat \/ utf8 = true /\ pat_next utf8 pat q SIZE_MAX flags = Ok (UNMATCHABLE, 0))) as H.
  { apply (H (S (length pat))); unfold zlen in *; lia. }
  induction n as [|n IH]; intros p Hp Hn; [lia|]. destruct (decide (p = zlen pat)) as [-> |]; [exists (zlen pat), []; split; [by constructor|by left]|].
  destruct (pat_next_token pat Hpat p Hp Hbig utf8 flags) as (c & inc & [(-> & -> & H)|(Hu & He & Hi & H)] & _); [unfold rest_len; lia| |].
  - exists p, []. specialize (H SIZE_MAX ltac:(unfold rest_len; lia)). split; [by constructor|]. right. split; [|done]. destruct utf8; [done|]. by apply byte_token in H; [|done|lia].
  - unfold rest_len in Hi. destruct (IH (p + inc)) as (q & l & Ht & Hq); [lia..|]. exists q, ((p, c) :: l). split; [|done]. eapply T_cons; try done; [lia|]. apply H. lia.
Qed.

(** * What [fnmatch] returns *)

(** For every pattern that is read to its end and every name of characters of the
    locale, [fnmatch] returns: 0 exactly when the name matches the tokens under the
    flags, and [FNM_NOMATCH] otherwise. *)
Definition token_means (utf8 : bool) (towupper towlower : Z -> Z) (iswctype : Z -> list Z -> bool) (pat : list Z) (flags : Z) : list (Z * Z) -> list Z -> Prop :=
  means is_star (takes utf8 towupper towlower iswctype flags pat) slash_token (dot_token pat) flags.

Theorem fnmatch_tokens utf8 towupper towlower iswctype pat str flags l ks steps :
  (forall k, 0 < k -> 0 < towupper k /\ 0 < towlower k) -> cstring pat -> zlen pat < SIZE_MAX -> cstring str -> zlen str < SIZE_MAX ->
  tokens utf8 flags pat 0 (zlen pat) l -> chars utf8 str ks -> (length pat < steps)%nat ->
  exists v, fnmatch utf8 towupper towlower iswctype steps pat str flags = Ok v /\
    (v = 0 /\ token_means utf8 towupper towlower iswctype pat flags l ks \/ v = FNM_NOMATCH /\ ~ token_means utf8 towupper towlower iswctype pat flags l ks).
Proof.
  intros Hcase Hpat Hbig Hstr Hsbig Ht Hc Hst. pose proof (zlen_nonneg pat). pose proof (zlen_nonneg str). apply (chars_reads utf8 pat) in Hc as Hr.
  pose proof (tokens_range _ _ _ Hpat Hbig _ _ _ Ht) as (_ & _ & Hlen). unfold fnmatch, token_means, means, flag. destruct (ctrue (Z.land flags FNM_PATHNAME)).
  { apply path_loop_spec; try done; unfold zlen in *; lia. }
  destruct (part_spec utf8 towupper towlower iswctype pat str flags Hcase Hpat Hbig Hstr 0 SIZE_MAX 0 SIZE_MAX (zlen pat) l (zlen str) ks) as (v & Ev & Hv); try done;
    [right; lia..|by rewrite name_end|].
  destruct (ctrue (Z.land flags FNM_LEADING_DIR)); [|cbn [obind]; exists v; split; [done|]; intuition done].
  destruct (leading_loop_spec utf8 towupper towlower iswctype pat str flags Hcase Hpat Hbig Hstr l ks Ht 0 []) as (b & Eb & Hb); [constructor; lia|done|].
  rewrite Z.sub_0_r in Eb. unfold zlen in Eb. rewrite Nat2Z.id in Eb. rewrite Eb. cbn [obind app] in *. destruct b.
  - exists 0. split; [done|]. left. split; [done|]. right. split; [done|]. by apply Hb.
  - exists v. split; [done|]. destruct Hv as [(-> & Hv)|(-> & Hv)]; [by auto|right]. split; [done|]. intros [|(_ & Hl)]; [done|]. by apply Hb in Hl.
Qed.

(** With [FNM_PATHNAME], a pattern that meets bytes that are no character before a
    slash makes [fnmatch] loop: no number of steps is enough. *)
Theorem fnmatch_never_returns towupper towlower iswctype pat str flags q l steps :
  cstring pat -> zlen pat < SIZE_MAX -> cstring str -> ctrue (Z.land flags FNM_PATHNAME) = true ->
  tokens true flags pat 0 q l -> no_slash_token slash_token l -> pat_next true pat q SIZE_MAX flags = Ok (UNMATCHABLE, 0) ->
  fnmatch true towupper towlower iswctype steps pat str flags = NoFuel.
Proof.
  intros Hpat Hbig Hstr Hf Ht Hno Hu. unfold fnmatch. rewrite Hf. cbn [path_loop].
  assert (exists s, to_slash (S (length str)) str 0 = Ok s) as (s & ->).
  { assert (forall fuel p, 0 <= p <= zlen str -> zlen str - p < Z.of_nat fuel -> exists s, to_slash fuel str p = Ok s) as H; [|apply H; pose proof (zlen_nonneg str); unfold zlen in *; lia].
    induction fuel as [|fuel IH]; intros p Hp Hl; [lia|]. cbn [to_slash]. rewrite at_str by done. cbn [obind]. destruct (decide (p = zlen str)) as [-> |]; [rewrite name_end; by eexists|].
    destruct (_ || _); [by eexists|apply IH; lia]. }
  cbn [obind]. enough (forall l p, tokens true flags pat p q l -> no_slash_token slash_token l -> pat_slash true steps pat flags p = NoFuel) as H by (by rewrite (H l 0)).
  clear l Ht Hno. induction steps as [|steps IH]; intros l p Ht Hno; [done|]. cbn [pat_slash]. destruct l as [|[p' c] l].
  - apply tokens_nil in Ht as E. subst q. rewrite Hu. cbn [obind]. change ((UNMATCHABLE =? END) || (UNMATCHABLE =? ch "/")) with false. cbn iota. rewrite Z.add_0_r. by apply (IH []).
  - apply tokens_cons in Ht as E. injection E as ->. inversion Ht as [|? ? inc ? ? Hp Hn _ He Ht']; subst. rewrite Hn. cbn [obind]. apply Forall_cons in Hno as [Hc Hno].
    unfold slash_token in Hc. cbn [snd] in Hc. rewrite Hc, (proj2 (Z.eqb_neq c END) He). cbn [orb]. by apply (IH l).
Qed.

(** * Witnesses and examples *)

(** A name of ASCII is its characters. *)
Lemma ascii_chars t : Forall (fun c => 0 < c < 128) t -> chars true t t.
Proof.
  intros H. exists (map (fun c => [c]) t). induction H as [|c t Hc _ [IH1 IH2]]; [split; [done|constructor]|]. cbn. split; [by f_equal|]. constructor; [|done].
  split; [unfold scalar; lia|]. split; [lia|]. by rewrite ascii_encode by lia.
Qed.

(** Characters of ASCII. *)
Definition upper (k : Z) : Z := if (ch "a" <=? k) && (k <=? ch "z") then k - 32 else k.
Definition lower (k : Z) : Z := if (ch "A" <=? k) && (k <=? ch "Z") then k + 32 else k.
Definition class_of (k : Z) (name : list Z) : bool := bool_decide (name = lit "digit") && (ch "0" <=? k) && (k <=? ch "9").
Notation fnm pat str flags := (fnmatch true upper lower class_of 100 pat str flags).

Lemma case_positive k : 0 < k -> 0 < upper k /\ 0 < lower k.
Proof. unfold upper, lower. change (ch "a") with 97. change (ch "z") with 122. change (ch "A") with 65. change (ch "Z") with 90. intros Hk. repeat case_match; lia. Qed.

Ltac read_tokens := repeat (eapply T_cons; [lia|vm_compute; reflexivity|done|done|]); apply T_nil; vm_compute; split; discriminate.

Lemma pattern_read_witness : exists q l, tokens true 0 [97; 255] 0 q l /\ (q = zlen [97; 255] \/ true = true /\ pat_next true [97; 255] q SIZE_MAX 0 = Ok (UNMATCHABLE, 0)).
Proof. apply (pattern_read true 0 [97; 255]); [repeat constructor|reflexivity]. Defined.

Lemma fnmatch_never_returns_witness : forall steps, fnmatch true upper lower class_of steps [97; 255] [97] FNM_PATHNAME = NoFuel.
Proof.
  intros steps. apply (fnmatch_never_returns upper lower class_of [97; 255] [97] FNM_PATHNAME 1 [(0, 97)]).
  - repeat constructor.
  - reflexivity.
  - repeat constructor.
  - reflexivity.
  - read_tokens.
  - repeat constructor.
  - vm_compute. reflexivity.
Defined.

(** Names on which the code and its comments, or the manual, differ. *)
Example fnmatch_invalid_bytes :
  fnm [97] [97; 255] 0 = Ok 0 /\ fnm (lit "*a") [97; 128] 0 = Ok 0.
Proof. split; vm_compute; reflexivity. Qed.

(** A range that ends in a character of two bytes hides what follows it. *)
Example fnmatch_wide_range :
  fnm (lit "[a-" ++ [195; 169] ++ lit "A]") (lit "A") 0 = Ok FNM_NOMATCH /\ fnm (lit "[!a-" ++ [195; 169] ++ lit "]") (lit "A") 0 = Ok FNM_NOMATCH /\
  fnm (lit "[a-zA]") (lit "A") 0 = Ok 0 /\ fnm (lit "[!a-z]") (lit "A") 0 = Ok 0.
Proof. split_and!; vm_compute; reflexivity. Qed.

(** [FNM_PERIOD] refuses an escaped period. *)
Example fnmatch_escaped_period : fnm (lit "\.a") (lit ".a") FNM_PERIOD = Ok FNM_NOMATCH /\ fnm (lit ".a") (lit ".a") FNM_PERIOD = Ok 0.
Proof. split; vm_compute; reflexivity. Qed.
