(* ===== verification/FnmatchText.v ===== *)
(** Patterns by their text: what the characters, escapes and bracket expressions of a
    pattern stand for, and that [fnmatch] decides it.

    A pattern is a list of pieces, written down by [written_all]; [takes_char] says which
    characters a piece stands for.  [pat_next] reads a piece back as its token, and the
    test of the token is [takes_char]. *)

From Stdlib Require Import Ascii String.
From S2P Require Import Prelude Memory Multibyte Intscan IntscanSpec StringsScan StringsSpec Printf PrintfSpec Inet InetSpec Fnmatch FnmatchSpec FnmatchMatch FnmatchPath.
Import Multibyte.

(** * Patterns *)

(** A character has its bytes [bs] and its value.  A range ends in a character of one byte. *)
Inductive elem : Type := One (bs : list Z) (k : Z) | Range (bs : list Z) (lo b hi : Z) | Class (name : list Z).
(** In a set, [neg] is the sign that negates it, [first] a [ ] ] or [-] at the start, and [dash] a [-] at the end. *)
Inductive piece : Type := Char (escaped : bool) (bs : list Z) (k : Z) | Any | Star | Set_ (neg first : option Z) (es : list elem) (dash : bool).

Definition sign (o : option Z) : list Z := match o with Some c => [c] | None => [] end.
Definition written_elem (e : elem) : list Z :=
  match e with
  | One bs _ => bs
  | Range bs _ b _ => bs ++ [ch "-"; b]
  | Class name => ch "[" :: ch ":" :: name ++ [ch ":"; ch "]"]
  end.
Definition written_elems (es : list elem) : list Z := concat (map written_elem es).
Definition written_dash (dash : bool) : list Z := if dash then [ch "-"] else [].
Definition written (p : piece) : list Z :=
  match p with
  | Char escaped bs _ => (if escaped then [ch "\"] else []) ++ bs
  | Any => [ch "?"]
  | Star => [ch "*"]
  | Set_ neg first es dash => ch "[" :: sign neg ++ sign first ++ written_elems es ++ written_dash dash ++ [ch "]"]
  end.
Definition written_all (ps : list piece) : list Z := concat (map written ps).

(** The other case of a character is a character, and of an [int] an [int]. *)
Definition case_ok (towupper towlower : Z -> Z) : Prop :=
  forall k, 0 < k -> 0 < towupper k /\ 0 < towlower k /\ (k < 2 ^ 31 -> towupper k < 2 ^ 31 /\ towlower k < 2 ^ 31).

Section Pattern.
Context (utf8 : bool) (towupper towlower : Z -> Z) (iswctype : Z -> list Z -> bool) (flags : Z).

(** ** What they stand for *)

(** The same letter in the other case, when cases are not told apart. *)
Definition fold (k : Z) : Z :=
  if flag flags FNM_CASEFOLD then if towupper k =? k then towlower k else towupper k else k.
Definition same (c k : Z) : bool := (c =? k) || (c =? fold k).
Definition between (lo hi k : Z) : bool := (lo <=? k) && (k <=? hi).
Definition in_elem (k : Z) (e : elem) : bool :=
  match e with
  | One _ c => same c k
  | Range _ lo _ hi => between lo hi k || between lo hi (fold k)
  | Class name => iswctype k name || iswctype (fold k) name
  end.
Definition takes_char (p : piece) (k : Z) : bool :=
  match p with
  | Char _ _ c => same c k
  | Any => true
  | Star => false
  | Set_ neg first es dash =>
      xorb (bool_decide (is_Some neg)) (bool_decide (first = Some k) || existsb (in_elem k) es || dash && same (ch "-") k)
  end.
Definition is_star_piece (p : piece) : bool := match p with Star => true | _ => false end.
Definition slash_piece (p : piece) : bool := match p with Char _ _ k => k =? ch "/" | _ => false end.
Definition dot_piece (p : piece) : bool := match p with Char _ _ k => k =? ch "." | _ => false end.

(** ** Which are pieces *)

(** [d] is the byte behind the element. *)
Definition elem_ok (e : elem) (d : Z) : Prop :=
  match e with
  | One bs k => valid_char utf8 bs k /\ k <> ch "]" /\ k <> ch "-" /\ (k = ch "[" -> is_class d = false)
  | Range bs lo b hi => valid_char utf8 bs lo /\ lo <> ch "]" /\ lo <> ch "-" /\
      valid_char utf8 [b] hi /\ hi <> ch "]" /\ hi <> ch "-" /\ (hi = ch "[" -> is_class d = false) /\ lo <= hi
  | Class name => 1 <= zlen name < 16 /\ Forall (fun c => ch "a" <= c <= ch "z") name
  end.
Fixpoint elems_ok (es : list elem) (tl : list Z) : Prop :=
  match es with [] => True | e :: es => elem_ok e (schar (written_elems es ++ tl) 0) /\ elems_ok es tl end.
Definition piece_ok (p : piece) : Prop :=
  match p with
  | Char false bs k => valid_char utf8 bs k /\ k <> ch "*" /\ k <> ch "?" /\ k <> ch "[" /\ (k = ch "\" -> flag flags FNM_NOESCAPE = true)
  | Char true bs k => valid_char utf8 bs k /\ flag flags FNM_NOESCAPE = false /\ (k = ch "." -> flag flags FNM_PERIOD = false)
  | Any | Star => True
  | Set_ neg first es dash =>
      match neg with Some c => c = ch "!" \/ c = ch "^" | None => first = None -> schar (written_elems es) 0 <> ch "!" /\ schar (written_elems es) 0 <> ch "^" end /\
      match first with Some c => c = ch "]" \/ c = ch "-" | None => es <> [] end /\
      elems_ok es (written_dash dash ++ [ch "]"])
  end.

(** * The pieces are read *)

Section Text.
Context (pat : list Z) (Hpat : cstring pat) (Hbig : zlen pat < SIZE_MAX).

(** The text [t] is what is left of the pattern at [q]. *)
Definition left_at (q : Z) (t : list Z) : Prop := 0 <= q <= zlen pat /\ drop (Z.to_nat q) pat = t.

Lemma left_app q a t : left_at q (a ++ t) -> left_at (q + zlen a) t.
Proof.
  intros [Hq E]. pose proof (zlen_nonneg a). split.
  - apply (f_equal length) in E. rewrite length_drop, length_app in E. unfold zlen in *. lia.
  - rewrite Z2Nat.inj_add by lia. rewrite <- drop_drop, E. unfold zlen. by rewrite Nat2Z.id, drop_app_length.
Qed.
Lemma left_cons q c t : left_at q (c :: t) -> left_at (q + 1) t.
Proof. apply (left_app q [c] t). Qed.
Lemma left_head q t : left_at q t -> at_ pat q = Ok (schar t 0).
Proof. intros [Hq <-]. by apply at_head. Qed.
Lemma left_big q t : left_at q t -> q < SIZE_MAX.
Proof. intros [Hq _]. lia. Qed.

(** ** The end of a set *)

(** A byte that the scan for the end passes by itself. *)
Definition quiet (c d : Z) : Prop := c <> 0 /\ c <> ch "]" /\ (c = ch "[" -> is_class d = false).
Fixpoint quiet_text (t : list Z) (d : Z) : Prop := match t with [] => True | c :: t => quiet c (schar (t ++ [d]) 0) /\ quiet_text t d end.

Lemma scan_text p t : forall k d r fuel, 0 <= p -> 0 <= k -> left_at (p + k) (t ++ d :: r) -> quiet_text t d ->
  bracket_end (length t + fuel) pat p SIZE_MAX k = bracket_end fuel pat p SIZE_MAX (k + zlen t).
Proof.
  induction t as [|c t IH]; intros k d r fuel Hp Hk Hl Hq; [change (zlen []) with 0; by rewrite Z.add_0_r|].
  destruct Hq as [(H0 & H1 & H2) Hq]. cbn [app] in Hl. pose proof (left_cons _ _ _ Hl) as Hl1. pose proof (left_big _ _ Hl1). cbn [length Nat.add bracket_end].
  rewrite (proj2 (Z.ltb_lt k SIZE_MAX)), (left_head _ _ Hl) by lia. cbn [obind]. change (schar (c :: t ++ d :: r) 0) with c.
  rewrite (proj2 (Z.eqb_neq c 0) H0), (proj2 (Z.eqb_neq c _) H1). cbn [orb]. rewrite (proj2 (Z.ltb_lt (k + 1) SIZE_MAX)) by lia.
  replace (p + (k + 1)) with (p + k + 1) by lia. rewrite (left_head _ _ Hl1). cbn [obind].
  assert (schar (t ++ d :: r) 0 = schar (t ++ [d]) 0) as Ed by (by destruct t). rewrite Ed.
  assert (negb (schar (t ++ [d]) 0 =? 0) && (c =? ch "[") && is_class (schar (t ++ [d]) 0) = false) as ->.
  { destruct (Z.eqb_spec c (ch "[")) as [E|]; [by rewrite (H2 E), andb_false_r|by rewrite andb_false_r]. }
  rewrite zlen_cons. replace (k + (1 + zlen t)) with (k + 1 + zlen t) by lia. apply (IH (k + 1) d r); try done; [lia|]. by replace (p + (k + 1)) with (p + k + 1) by lia.
Qed.

(** Behind the first letter of a class name. *)
Lemma class_end_run p t : forall k x r fuel, 0 <= p -> 1 <= k -> left_at (p + k - 1) (x :: t ++ ch ":" :: ch "]" :: r) -> Forall (fun c => ch "a" <= c <= ch "z") (x :: t) ->
  (S (length t) < fuel)%nat -> class_end fuel pat p SIZE_MAX (ch ":") k = Ok (k + zlen t + 1).
Proof.
  induction t as [|c t IH]; intros k x r fuel Hp Hk Hl Ht Hf; (destruct fuel as [|fuel]; [lia|]); cbn [app] in Hl; pose proof (left_cons _ _ _ Hl) as Hl1; pose proof (left_cons _ _ _ Hl1) as Hl2;
    pose proof (left_big _ _ Hl2); apply Forall_cons in Ht as [Hx Ht]; change (ch "a") with 97 in *; change (ch "z") with 122 in *;
    replace (p + k - 1 + 1) with (p + k) in * by lia; replace (p + k - 1) with (p + (k - 1)) in * by lia; cbn [class_end];
    rewrite (proj2 (Z.ltb_lt k SIZE_MAX)), (left_head _ _ Hl1), (left_head _ _ Hl) by lia; cbn [obind].
  - change (schar (ch ":" :: ch "]" :: r) 0) with (ch ":"). change (schar (x :: _) 0) with x. change (ch ":" =? 0) with false. change (ch ":") with 58 at 1. rewrite (proj2 (Z.eqb_neq x 58)) by lia. cbn [negb orb].
    destruct fuel as [|fuel]; [cbn in Hf; lia|]. cbn [class_end]. rewrite (proj2 (Z.ltb_lt (k + 1) SIZE_MAX)) by lia. replace (p + (k + 1)) with (p + k + 1) by lia.
    rewrite (left_head _ _ Hl2). cbn [obind]. change (schar (ch "]" :: r) 0) with (ch "]"). change (ch "]" =? 0) with false. cbv iota. replace (p + (k + 1 - 1)) with (p + k) by lia.
    rewrite (left_head _ _ Hl1). cbn [obind]. change (zlen []) with 0. by rewrite Z.add_0_r.
  - apply Forall_cons in Ht as Hc. destruct Hc as [Hc _]. change (schar (c :: t ++ ch ":" :: ch "]" :: r) 0) with c. change (schar (x :: _) 0) with x. change (ch ":") with 58 at 1.
    rewrite (proj2 (Z.eqb_neq c 0)), (proj2 (Z.eqb_neq x 58)) by lia. cbn [negb orb]. rewrite zlen_cons. replace (k + (1 + zlen t) + 1) with (k + 1 + zlen t + 1) by lia.
    apply (IH (k + 1) c r); try done; [lia|by replace (p + (k + 1) - 1) with (p + k) by lia|cbn in Hf; lia].
Qed.
Lemma skip_class_run t : forall q x r fuel, 1 <= q -> left_at (q - 1) (x :: t ++ ch ":" :: ch "]" :: r) -> Forall (fun c => ch "a" <= c <= ch "z") (x :: t) ->
  (S (length t) < fuel)%nat -> skip_class fuel pat q (ch ":") = Ok (q + zlen t + 1).
Proof.
  induction t as [|c t IH]; intros q x r fuel Hq Hl Ht Hf; (destruct fuel as [|fuel]; [lia|]); cbn [app] in Hl; pose proof (left_cons _ _ _ Hl) as Hl1; pose proof (left_cons _ _ _ Hl1) as Hl2;
    apply Forall_cons in Ht as [Hx Ht]; change (ch "a") with 97 in *; change (ch "z") with 122 in *; replace (q - 1 + 1) with q in * by lia;
    cbn [skip_class]; rewrite (left_head _ _ Hl1), (left_head _ _ Hl); cbn [obind]; change (schar (x :: _) 0) with x; change (ch ":") with 58 at 1; rewrite (proj2 (Z.eqb_neq x 58)) by lia; cbn [negb orb].
  - destruct fuel as [|fuel]; [cbn in Hf; lia|]. cbn [skip_class]. replace (q + 1 - 1) with q by lia. rewrite (left_head _ _ Hl1), (left_head _ _ Hl2). cbn [obind].
    change (zlen []) with 0. by rewrite Z.add_0_r.
  - rewrite zlen_cons. replace (q + (1 + zlen t) + 1) with (q + 1 + zlen t + 1) by lia. apply (IH (q + 1) c r); try done; [lia|by replace (q + 1 - 1) with q by lia|cbn in Hf; lia].
Qed.

Lemma scan_class p k name r fuel : 0 <= p -> 0 <= k -> left_at (p + k) (written_elem (Class name) ++ r) -> 1 <= zlen name -> Forall (fun c => ch "a" <= c <= ch "z") name ->
  bracket_end (S fuel) pat p SIZE_MAX k = bracket_end fuel pat p SIZE_MAX (k + zlen (written_elem (Class name))).
Proof.
  intros Hp Hk Hl Hn Hnm. destruct name as [|x t]; [by cbn in Hn|]. cbn [written_elem app] in Hl |- *. rewrite <- app_assoc in Hl. cbn [app] in Hl.
  pose proof (left_cons _ _ _ Hl) as Hl1. pose proof (left_cons _ _ _ Hl1) as Hl2. pose proof (left_app _ (x :: t) _ Hl2) as Hl3. pose proof (left_cons _ _ _ Hl3) as Hl4.
  pose proof (left_big _ _ Hl4) as Hb. rewrite zlen_cons in Hl3, Hl4, Hb. pose proof (zlen_nonneg t). pose proof Hnm as Hx. apply Forall_cons in Hx as [Hx _]. change (ch "a") with 97 in Hx. change (ch "z") with 122 in Hx.
  cbn [bracket_end]. rewrite (proj2 (Z.ltb_lt k SIZE_MAX)), (left_head _ _ Hl) by lia. cbn [obind]. change (schar (ch "[" :: _) 0) with (ch "["). change ((ch "[" =? 0) || (ch "[" =? ch "]")) with false. cbv iota.
  rewrite (proj2 (Z.ltb_lt (k + 1) SIZE_MAX)) by lia. replace (p + (k + 1)) with (p + k + 1) by lia. rewrite (left_head _ _ Hl1). cbn [obind]. change (schar (ch ":" :: _) 0) with (ch ":").
  change (negb (ch ":" =? 0) && (ch "[" =? ch "[") && is_class (ch ":")) with true. cbv iota. rewrite (proj2 (Z.ltb_lt (k + 2) SIZE_MAX)) by lia.
  replace (p + (k + 2)) with (p + k + 1 + 1) by lia. rewrite (left_head _ _ Hl2). cbn [obind]. change (schar (x :: _) 0) with x. rewrite (proj2 (Z.eqb_neq x 0)) by lia.
  rewrite (class_end_run p t (k + 2 + 1) x r); try done; [|lia|by replace (p + (k + 2 + 1) - 1) with (p + k + 1 + 1) by lia|].
  2:{ destruct Hl2 as [_ E]. apply (f_equal length) in E. rewrite length_drop in E. cbn in E. rewrite length_app in E. cbn in E. lia. }
  cbn [obind]. rewrite (proj2 (Z.eqb_neq _ SIZE_MAX)) by lia. replace (p + (k + 2 + 1 + zlen t + 1)) with (p + k + 1 + 1 + (1 + zlen t) + 1) by lia. rewrite (left_head _ _ Hl4). cbn [obind].
  change (schar (ch "]" :: r) 0 =? 0) with false. cbv iota. f_equal. rewrite !zlen_cons, zlen_app, !zlen_cons. change (zlen []) with 0. lia.
Qed.

(** The text of an element passes the scan. *)
Lemma quiet_app a b d : quiet_text a (schar (b ++ [d]) 0) -> quiet_text b d -> quiet_text (a ++ b) d.
Proof.
  induction a as [|c a IH]; intros Ha Hb; [done|]. destruct Ha as [Hc Ha]. split; [|by apply IH]. rewrite <- app_assoc. by destruct a.
Qed.
Lemma quiet_char bs k d : valid_char utf8 bs k -> k <> ch "]" -> (k = ch "[" -> is_class d = false) -> quiet_text bs d.
Proof.
  intros Hv H1 H2. destruct (char_head utf8 bs k Hv) as (b & t & -> & Hb). destruct (valid_char_bytes utf8 _ _ Hv) as (Hbs & _).
  destruct (Z.lt_ge_cases b 128) as [Hl|Hl].
  - destruct (Hb Hl) as [E ->]. injection E as ->. apply Forall_cons in Hbs as [Hbs _]. split; [|done]. split_and!; [lia|done|done].
  - pose proof (high_bytes utf8 _ _ Hv Hl) as Hh. clear -Hh. assert (forall t, Forall (fun b => 128 <= b) t -> quiet_text t d) as H; [|by apply H].
    induction 1 as [|c t' Hc _ IH]; [done|]. split; [|done]. unfold quiet. change (ch "]") with 93. change (ch "[") with 91. lia.
Qed.

Lemma scan_elem p k e r fuel : 0 <= p -> 0 <= k -> left_at (p + k) (written_elem e ++ r) -> r <> [] -> elem_ok e (schar r 0) ->
  (length (written_elem e) <= fuel)%nat -> exists fuel', (fuel - length (written_elem e) <= fuel')%nat /\
    bracket_end fuel pat p SIZE_MAX k = bracket_end fuel' pat p SIZE_MAX (k + zlen (written_elem e)).
Proof.
  intros Hp Hk Hl Hr Hok Hf. destruct r as [|d r]; [done|]. change (schar (d :: r) 0) with d in Hok.
  assert (quiet_text (written_elem e) d -> exists fuel', (fuel - length (written_elem e) <= fuel')%nat /\
    bracket_end fuel pat p SIZE_MAX k = bracket_end fuel' pat p SIZE_MAX (k + zlen (written_elem e))) as Hquiet.
  { intros Hq. exists (fuel - length (written_elem e))%nat. split; [done|]. rewrite <- (scan_text p (written_elem e) k d r) by done. f_equal. lia. }
  destruct e as [bs c|bs lo b hi|name]; cbn [elem_ok] in Hok.
  - apply Hquiet. destruct Hok as (Hv & H1 & _ & H2). by eapply quiet_char.
  - apply Hquiet. destruct Hok as (Hv & H1 & _ & Hh & H2 & _ & H3 & _). cbn [written_elem]. apply quiet_app; [by eapply quiet_char|].
    change [ch "-"; b] with ([ch "-"] ++ [b]). apply quiet_app; [done|by eapply quiet_char].
  - destruct fuel as [|fuel]; [cbn in Hf; lia|]. exists fuel. split; [cbn; lia|]. destruct Hok as [Hn Hok]. apply (scan_class p k name (d :: r)); done || lia.
Qed.

Lemma scan_elems p es : forall k tl r fuel, 0 <= p -> 0 <= k -> tl = [] \/ tl = [ch "-"] -> left_at (p + k) (written_elems es ++ tl ++ ch "]" :: r) -> elems_ok es (tl ++ [ch "]"]) ->
  (length (written_elems es) + length tl < fuel)%nat -> bracket_end fuel pat p SIZE_MAX k = Ok (k + zlen (written_elems es) + zlen tl).
Proof.
  induction es as [|e es IH]; intros k tl r fuel Hp Hk Htl Hl Hok Hf.
  - change (written_elems []) with (@nil Z) in *. cbn [app length Nat.add] in *. change (zlen []) with 0. replace (k + 0) with k by lia.
    replace fuel with (length tl + S (fuel - length tl - 1))%nat by lia. rewrite (scan_text p tl k (ch "]") r) by (done || (by destruct Htl as [-> | ->])).
    cbn [bracket_end]. apply left_app in Hl. pose proof (left_big _ _ Hl). replace (p + k + zlen tl) with (p + (k + zlen tl)) in * by lia.
    rewrite (proj2 (Z.ltb_lt _ SIZE_MAX)), (left_head _ _ Hl) by lia. done.
  - destruct Hok as [He Hok]. change (written_elems (e :: es)) with (written_elem e ++ written_elems es) in *. rewrite <- app_assoc in Hl. rewrite length_app in Hf.
    destruct (scan_elem p k e (written_elems es ++ tl ++ ch "]" :: r) fuel Hp Hk Hl) as (fuel' & Hf' & ->).
    { by destruct (written_elems es), Htl as [-> | ->]. }
    { replace (schar (written_elems es ++ tl ++ ch "]" :: r) 0) with (schar (written_elems es ++ tl ++ [ch "]"]) 0); [done|]. by destruct (written_elems es), Htl as [-> | ->]. }
    { lia. }
    pose proof (zlen_nonneg (written_elem e)). apply left_app in Hl. rewrite (IH (k + zlen (written_elem e)) tl r fuel'); try done; [rewrite zlen_app; f_equal; lia|lia|by replace (p + (k + zlen (written_elem e))) with (p + k + zlen (written_elem e)) by lia|lia].
Qed.

(** ** The tokens *)

Definition code_of (p : piece) : Z := match p with Char _ _ k => k | Any => QUESTION | Star => STAR | Set_ _ _ _ _ => BRACKET end.

Lemma char_first bs k x : valid_char utf8 bs k -> x < 128 -> exists b t, bs = b :: t /\ (b = x <-> k = x).
Proof.
  intros Hv Hx. destruct (char_head utf8 bs k Hv) as (b & t & -> & _). exists b, t. split; [done|]. pose proof (first_byte utf8 b t k x Hv Hx) as H.
  destruct (Z.eqb_spec b x), (Z.eqb_spec k x); done.
Qed.
Lemma elems_head es tl : es <> [] -> elems_ok es tl -> exists b t, written_elems es = b :: t /\ b <> ch "]" /\ b <> ch "-".
Proof.
  destruct es as [|e es]; [done|]. intros _ [He _].
  assert (forall bs k t, valid_char utf8 bs k -> k <> ch "]" -> k <> ch "-" -> exists b t', bs ++ t = b :: t' /\ b <> ch "]" /\ b <> ch "-") as H.
  { intros bs k t Hv H1 H2. destruct (char_first bs k (ch "]") Hv ltac:(by vm_compute)) as (b & t' & -> & Hb1). destruct (char_first _ k (ch "-") Hv ltac:(by vm_compute)) as (b' & t'' & [= <- <-] & Hb2).
    exists b, (t' ++ t). split; [done|]. split; intros E; [apply H1; by apply Hb1|apply H2; by apply Hb2]. }
  unfold written_elems. cbn [map concat]. destruct e as [bs c|bs lo b hi|name]; cbn [written_elem elem_ok] in *.
  - destruct He as (Hv & H1 & H2 & _). by apply (H bs c).
  - destruct He as (Hv & H1 & H2 & _). rewrite <- app_assoc. by apply (H bs lo).
  - by eexists _, _.
Qed.

Lemma next_set q neg first es dash r : left_at q (written (Set_ neg first es dash) ++ r) -> piece_ok (Set_ neg first es dash) ->
  pat_next utf8 pat q SIZE_MAX flags = Ok (BRACKET, zlen (written (Set_ neg first es dash))).
Proof.
  intros Hl (Hneg & Hfirst & Hes). cbn [written app] in Hl |- *. rewrite <- !app_assoc in Hl. cbn [app] in Hl. pose proof Hl as [Hq _].
  set (body := written_elems es ++ written_dash dash ++ ch "]" :: r) in *. pose proof (left_cons _ _ _ Hl) as Hl1. pose proof (left_app _ _ _ Hl1) as Hl2. pose proof (left_app _ _ _ Hl2) as Hl3.
  assert (written_dash dash = [] \/ written_dash dash = [ch "-"]) as Hdash by (destruct dash; auto).
  assert (forall k fuel, 0 <= k -> q + k = q + 1 + zlen (sign neg) + zlen (sign first) -> (length body <= fuel)%nat ->
    bracket_end fuel pat q SIZE_MAX k = Ok (k + zlen (written_elems es) + zlen (written_dash dash))) as Hscan.
  { intros k fuel Hk E Hf. apply (scan_elems q es k (written_dash dash) r); try done; [lia|by rewrite E|]. unfold body in Hf. rewrite !length_app in Hf. cbn in Hf. lia. }
  assert (length (ch "[" :: sign neg ++ sign first ++ body) <= length pat)%nat as Hlen by (destruct Hl as [_ <-]; rewrite length_drop; lia).
  pose proof (left_app _ _ _ Hl3) as Hl4. pose proof (left_app _ _ _ Hl4) as Hl5. pose proof (left_big _ _ Hl5) as Hb.
  pose proof (zlen_nonneg (written_elems es)). pose proof (zlen_nonneg (written_dash dash)).
  unfold pat_next. change (SIZE_MAX =? 0) with false. cbv iota. rewrite (left_head _ _ Hl). cbn [obind]. change (schar (ch "[" :: _) 0) with (ch "["). cbn [obind negb andb]. change (ch "[" =? 0) with false. change (ch "[" =? ch "\") with false. cbv iota. cbn [obind].
  change (negb (0 =? 0) && negb (ctrue (Z.land flags FNM_NOESCAPE))) with false. change (ch "[" =? ch "[") with true. cbv iota. change (1 <? SIZE_MAX) with true. cbv iota. rewrite (left_head _ _ Hl1). cbn [obind].
  set (d := schar (sign neg ++ sign first ++ body) 0). set (k1 := if (d =? ch "^") || (d =? ch "!") then 1 + 1 else 1).
  assert (es <> [] -> exists b t, written_elems es = b :: t /\ b <> ch "]" /\ b <> ch "-") as Hhead by (intros Hne; by eapply elems_head).
  assert (k1 = 1 + zlen (sign neg)) as Hk1.
  { unfold k1, d. destruct neg as [c|]; [by destruct Hneg as [-> | ->]|]. cbn [sign app]. change (zlen []) with 0. destruct first as [c|]; [by destruct Hfirst as [-> | ->]|].
    destruct (Hneg eq_refl) as [Hn1 Hn2]. destruct (Hhead Hfirst) as (b & t & E & _). unfold body. cbn [sign app]. rewrite E in Hn1, Hn2 |- *. change (schar (b :: t) 0) with b in *. cbn [app]. change (schar (b :: _) 0) with b.
    by rewrite (proj2 (Z.eqb_neq b (ch "^")) Hn2), (proj2 (Z.eqb_neq b (ch "!")) Hn1). }
  assert (0 <= zlen (sign neg) <= 1 /\ 0 <= zlen (sign first) <= 1) as [Hs1 Hs2] by (split; [destruct neg|destruct first]; by vm_compute).
  rewrite (proj2 (Z.ltb_lt k1 SIZE_MAX)) by (rewrite Hk1; unfold SIZE_MAX; lia). replace (q + k1) with (q + 1 + zlen (sign neg)) by lia. rewrite (left_head _ _ Hl2). cbn [obind].
  set (d2 := schar (sign first ++ body) 0). set (k2 := if d2 =? ch "]" then k1 + 1 else k1).
  assert (bracket_end (S (length pat)) pat q SIZE_MAX k2 = Ok (k1 + zlen (sign first) + zlen (written_elems es) + zlen (written_dash dash))) as ->.
  { unfold k2, d2. destruct first as [c|]; cbn [sign app] in *.
    - change (zlen [c]) with 1 in *. change (schar (c :: body) 0) with c. cbn [length] in Hlen. rewrite length_app in Hlen. cbn [length] in Hlen. destruct Hfirst as [-> | ->]; [apply (Hscan (k1 + 1)); lia|].
      change (ch "-" =? ch "]") with false. cbv iota. pose proof (scan_text q [ch "-"] k1 (schar body 0) (tail body) (length pat) ltac:(lia) ltac:(lia)) as Hst.
      assert (schar body 0 :: tail body = body) as Ebody by (unfold body; by destruct (written_elems es), Hdash as [-> | ->]). cbn [app length Nat.add] in Hst. rewrite Ebody in Hst. change (zlen [ch "-"]) with 1 in Hst.
      rewrite Hst; [apply Hscan; lia|by replace (q + k1) with (q + 1 + zlen (sign neg)) by lia|by repeat split].
    - change (zlen []) with 0 in *. rewrite Z.add_0_r in *. destruct (Hhead Hfirst) as (b & t & E & Hb1 & _). replace (schar body 0) with b by (unfold body; by rewrite E). rewrite (proj2 (Z.eqb_neq b _) Hb1).
      apply Hscan; [lia|lia|]. cbn [length] in Hlen. rewrite length_app in Hlen. lia. }
  cbn [obind]. rewrite (proj2 (Z.eqb_neq _ SIZE_MAX)) by lia.
  replace (q + (k1 + zlen (sign first) + zlen (written_elems es) + zlen (written_dash dash))) with (q + 1 + zlen (sign neg) + zlen (sign first) + zlen (written_elems es) + zlen (written_dash dash)) by lia.
  rewrite (left_head _ _ Hl5). cbn [obind]. change (schar (ch "]" :: r) 0 =? 0) with false. cbv iota. do 2 f_equal. rewrite zlen_cons, !zlen_app. change (zlen [ch "]"]) with 1. lia.
Qed.

Lemma pat_char_at q bs k r m step esc : left_at q (bs ++ r) -> valid_char utf8 bs k -> 4 <= m -> (zlen bs = 1 -> step = 1 + esc) ->
  pat_char utf8 pat q m step esc = Ok (k, zlen bs + esc).
Proof.
  intros Hl Hv Hm Hs. pose proof Hl as [Hq E]. destruct (valid_char_bytes utf8 bs k Hv) as (_ & Hlen & Hk). unfold pat_char. rewrite (left_head _ _ Hl). cbn [obind].
  destruct (char_head utf8 bs k Hv) as (b & t & -> & Hb). change (schar ((b :: t) ++ r) 0) with b. destruct (Z.leb_spec 128 b).
  - rewrite (mbtowc_char utf8 pat q m (b :: t) k r) by (done || lia). cbn [obind]. by rewrite (proj2 (Z.ltb_ge _ 0)) by lia.
  - destruct Hb as [[= ->] ->]; [lia|]. rewrite Hs by done. done.
Qed.

Lemma pat_next_piece q p r : left_at q (written p ++ r) -> piece_ok p -> pat_next utf8 pat q SIZE_MAX flags = Ok (code_of p, zlen (written p)).
Proof.
  intros Hl Hok. destruct p as [[] bs k| | |neg first es dash]; [..|by eapply next_set]; cbn [written app] in *; unfold pat_next; change (SIZE_MAX =? 0) with false; cbv iota; rewrite (left_head _ _ Hl); cbn [obind].
  - destruct Hok as (Hv & Hne & _). change (schar (ch "\" :: _) 0) with (ch "\"). change (ch "\" =? 0) with false. change (ch "\" =? ch "\") with true. cbv iota. pose proof (left_cons _ _ _ Hl) as Hl1. rewrite (left_head _ _ Hl1). cbn [obind].
    destruct (char_head utf8 bs k Hv) as (b & t & -> & _). destruct (valid_char_bytes utf8 _ _ Hv) as (Hb & _). apply Forall_cons in Hb as [Hb _]. change (schar ((b :: t) ++ r) 0) with b.
    rewrite (proj2 (Z.eqb_neq b 0)) by lia. unfold flag in Hne. rewrite Hne. cbn [negb andb]. rewrite (pat_char_at (q + 1) (b :: t) k r) by (done || lia). cbn [code_of]. rewrite (zlen_cons (ch "\")). do 2 f_equal. lia.
  - destruct Hok as (Hv & H1 & H2 & H3 & H4). destruct (char_head utf8 bs k Hv) as (b & t & Eb & _). destruct (valid_char_bytes utf8 _ _ Hv) as (Hb & _). rewrite Eb in Hb. apply Forall_cons in Hb as [Hb _].
    assert (forall x, x < 128 -> (b =? x) = (k =? x)) as Hx by (intros x Hx; rewrite Eb in Hv; by apply (first_byte utf8 b t)). replace (schar (bs ++ r) 0) with b by (by rewrite Eb). rewrite (proj2 (Z.eqb_neq b 0)) by lia.
    rewrite !Hx by (by vm_compute). assert (exists d, (if k =? ch "\" then at_ pat (q + 1) else Ok 0) = Ok d /\ negb (d =? 0) && negb (ctrue (Z.land flags FNM_NOESCAPE)) = false) as (d & -> & Hd).
    { destruct (Z.eqb_spec k (ch "\")) as [E|]; [|by exists 0]. specialize (H4 E). unfold flag in H4. rewrite H4. rewrite Eb in Hl. pose proof (left_cons _ _ _ Hl) as Hl1. rewrite (left_head _ _ Hl1). eexists. split; [done|]. by rewrite andb_false_r. }
    cbn [obind]. rewrite Hd, (proj2 (Z.eqb_neq k _) H1), (proj2 (Z.eqb_neq k _) H2), (proj2 (Z.eqb_neq k _) H3). rewrite (pat_char_at q bs k r) by (done || lia). by rewrite Z.add_0_r.
  - done.
  - done.
Qed.

(** ** The characters of a set *)

Context (Hcase : case_ok towupper towlower).

Lemma fold_range k : 0 < k < 2 ^ 31 -> 0 < fold k < 2 ^ 31.
Proof. intros Hk. destruct (Hcase k ltac:(lia)) as (? & ? & ?). unfold fold. repeat case_match; lia. Qed.
Lemma char_value bs k : valid_char utf8 bs k -> 0 < k < 2 ^ 31.
Proof.
  intros Hv. split; [by destruct (valid_char_bytes utf8 bs k Hv) as (_ & _ & ?)|]. unfold valid_char in Hv. destruct utf8; [destruct Hv as (Hs & _); unfold scalar in Hs; lia|].
  destruct Hv as (b & Hb & _ & ->). destruct (Z.ltb_spec b 128); [lia|].
  pose proof (forall_below (fun b => CODEUNIT (128 + b) <? 2 ^ 31) 128 ltac:(vm_compute; reflexivity) (b - 128) ltac:(lia)) as H'. cbv beta in H'. replace (128 + (b - 128)) with b in H' by lia. by apply Z.ltb_lt.
Qed.

Section Loop.
Context (k : Z) (Hk : 0 < k < 2 ^ 31) (inv : bool).
Notation loop := (fun fuel q wc => bracket_loop utf8 iswctype fuel pat q wc k (fold k) inv).

(** A character by itself. *)
Lemma loop_char fuel q bs c r wc : left_at q (bs ++ r) -> valid_char utf8 bs c -> c <> ch "]" -> (c = ch "-" -> schar r 0 = ch "]") -> (c = ch "[" -> is_class (schar r 0) = false) ->
  loop (S fuel) q wc = if same c k then Ok (negb inv) else loop fuel (q + zlen bs) c.
Proof.
  intros Hl Hv H1 H2 H3. destruct (valid_char_bytes utf8 bs c Hv) as (_ & Hlen & Hc). destruct (char_head utf8 bs c Hv) as (b & t & Eb & Hb).
  assert (forall x, x < 128 -> (b =? x) = (c =? x)) as Hx by (intros x Hx; rewrite Eb in Hv; by apply (first_byte utf8 b t)). cbn [bracket_loop]. rewrite (left_head _ _ Hl). cbn [obind].
  replace (schar (bs ++ r) 0) with b by (by rewrite Eb). rewrite !Hx by (by vm_compute). rewrite (proj2 (Z.eqb_neq c _) H1).
  assert (exists d, (if (c =? ch "-") || (c =? ch "[") then at_ pat (q + 1) else Ok 0) = Ok d /\ (c =? ch "-") && negb (d =? ch "]") = false /\ (c =? ch "[") && is_class d = false) as (d & -> & Hd1 & Hd2).
  { destruct ((c =? ch "-") || (c =? ch "[")) eqn:E.
    - assert (b < 128) as Hlow by (apply orb_true_iff in E as [E|E]; rewrite <- Hx in E by (by vm_compute); apply Z.eqb_eq in E; rewrite E; by vm_compute). destruct (Hb Hlow) as [E1 _]. rewrite E1 in Hl.
      pose proof (left_cons _ _ _ Hl) as Hl1. rewrite (left_head _ _ Hl1). eexists. split; [done|]. split.
      + destruct (Z.eqb_spec c (ch "-")) as [Ec|]; [|done]. by rewrite (H2 Ec), Z.eqb_refl.
      + destruct (Z.eqb_spec c (ch "[")) as [Ec|]; [|done]. by rewrite (H3 Ec).
    - apply orb_false_iff in E as [-> ->]. by exists 0. }
  cbn [obind]. rewrite Hd1, Hd2.
  assert ((if b <? 128 then Ok (1, b) else mbtowc_at utf8 pat q 4) = Ok (zlen bs, c)) as ->.
  { destruct (Z.ltb_spec b 128); [by destruct Hb as [-> ->]|]. destruct Hl as [Hq E]. apply (mbtowc_char utf8 pat q 4 bs c r); done || lia. }
  cbn [obind]. rewrite (proj2 (Z.ltb_ge _ 0)) by lia. unfold same. by replace (q + (zlen bs - 1) + 1) with (q + zlen bs) by lia.
Qed.

(** The [-] of a range and the byte behind it, which is read again. *)
Lemma loop_range fuel q b hi r lo : left_at q (ch "-" :: b :: r) -> valid_char utf8 [b] hi -> hi <> ch "]" -> 0 < lo <= hi ->
  loop (S fuel) q lo = if between lo hi k || between lo hi (fold k) then Ok (negb inv) else loop fuel (q + 1) lo.
Proof.
  intros Hl Hv H1 Hlo. pose proof (left_cons _ _ _ Hl) as Hl1. pose proof (char_value _ _ Hv) as Hhi. cbn [bracket_loop]. rewrite (left_head _ _ Hl). cbn [obind]. change (schar (ch "-" :: _) 0) with (ch "-").
  change (ch "-" =? ch "]") with false. change ((ch "-" =? ch "-") || (ch "-" =? ch "[")) with true. change (ch "-" =? ch "-") with true. cbv iota. rewrite (left_head _ _ Hl1). cbn [obind]. change (schar (b :: r) 0) with b.
  rewrite (first_byte utf8 b [] hi (ch "]") Hv), (proj2 (Z.eqb_neq hi _) H1) by (by vm_compute). cbn [negb andb].
  destruct Hl1 as [Hq E]. rewrite (mbtowc_char utf8 pat (q + 1) 4 [b] hi r) by (done || (change (zlen [b]) with 1; lia)). cbn [obind]. change (zlen [b]) with 1. change (1 <? 0) with false. cbv iota.
  rewrite (proj2 (Z.leb_le lo hi)) by lia. cbn [andb].
  assert (forall x, 0 < x < 2 ^ 31 -> (u32 (x - lo) <=? hi - lo) = between lo hi x) as Hu.
  { intros x Hx. unfold between, u32. destruct (Z.leb_spec lo x).
    - rewrite Z.mod_small by lia. cbn [andb]. destruct (Z.leb_spec (x - lo) (hi - lo)), (Z.leb_spec x hi); lia || done.
    - cbn [andb]. apply Z.leb_gt. rewrite <- (Z_mod_plus_full _ 1), Z.mod_small by lia. lia. }
  rewrite (Hu k Hk), (Hu (fold k) (fold_range k Hk)). by replace (q + (1 - 1) + 1) with (q + 1) by lia.
Qed.

Lemma loop_class fuel q name r wc : left_at q (written_elem (Class name) ++ r) -> 1 <= zlen name < 16 -> Forall (fun c => ch "a" <= c <= ch "z") name ->
  loop (S fuel) q wc = if iswctype k name || iswctype (fold k) name then Ok (negb inv) else loop fuel (q + zlen (written_elem (Class name))) wc.
Proof.
  intros Hl Hn Hnm. destruct name as [|x t]; [destruct Hn as [Hn _]; by cbn in Hn|]. cbn [written_elem app] in Hl |- *. rewrite <- app_assoc in Hl. cbn [app] in Hl.
  pose proof (left_cons _ _ _ Hl) as Hl1. pose proof (left_cons _ _ _ Hl1) as Hl2. pose proof Hl as [Hq _]. rewrite zlen_cons in Hn. pose proof (zlen_nonneg t).
  cbn [bracket_loop]. rewrite (left_head _ _ Hl). cbn [obind]. change (schar (ch "[" :: _) 0) with (ch "["). change (ch "[" =? ch "]") with false. change ((ch "[" =? ch "-") || (ch "[" =? ch "[")) with true. cbv iota.
  rewrite (left_head _ _ Hl1). cbn [obind]. change (schar (ch ":" :: _) 0) with (ch ":"). change ((ch "[" =? ch "-") && negb (ch ":" =? ch "]")) with false. change ((ch "[" =? ch "[") && is_class (ch ":")) with true. cbv iota.
  rewrite (skip_class_run t (q + 3) x r); try done; [|lia|by replace (q + 3 - 1) with (q + 1 + 1) by lia|].
  2:{ destruct Hl2 as [_ E]. apply (f_equal length) in E. rewrite length_drop in E. cbn in E. rewrite length_app in E. cbn in E. lia. }
  cbn [obind]. replace (q + 3 + zlen t + 1 - 1 - (q + 2)) with (1 + zlen t) by lia. change (ch ":" =? ch ":") with true. rewrite (proj2 (Z.ltb_lt _ 16)) by lia. cbn [andb].
  replace (take (Z.to_nat (1 + zlen t)) (drop (Z.to_nat (q + 2)) pat)) with (x :: t).
  2:{ destruct Hl2 as [_ E]. replace (Z.to_nat (q + 2)) with (Z.to_nat (q + 1 + 1)) by lia. rewrite E. replace (Z.to_nat (1 + zlen t)) with (length (x :: t)) by (unfold zlen; cbn; lia).
      symmetry. exact (take_app_length (x :: t) _). }
  replace (q + 3 + zlen t + 1 + 1) with (q + zlen (ch "[" :: ch ":" :: x :: t ++ [ch ":"; ch "]"])); [done|]. rewrite !zlen_cons, zlen_app. change (zlen [ch ":"; ch "]"]) with 2. lia.
Qed.

(** ** The elements one after the other *)

Lemma same_dash_range lo hi : 0 < lo <= hi -> between lo hi lo = true /\ between lo hi hi = true.
Proof. unfold between. intros H. by rewrite !(proj2 (Z.leb_le _ _)) by lia. Qed.

Lemma same_in_range lo hi c : 0 < lo <= hi -> c = lo \/ c = hi -> same c k = true -> between lo hi k || between lo hi (fold k) = true.
Proof.
  intros Hlo Hc. unfold same. intros [E|E]%orb_true_iff; apply Z.eqb_eq in E; rewrite <- E; destruct (same_dash_range lo hi Hlo) as [E1 E2]; destruct Hc as [-> | ->]; rewrite ?E1, ?E2, ?orb_true_r; done.
Qed.

Lemma loop_elem e q r wc fuel : left_at q (written_elem e ++ r) -> r <> [] -> elem_ok e (schar r 0) -> (length (written_elem e) <= fuel)%nat ->
  exists fuel' wc', (fuel - length (written_elem e) <= fuel')%nat /\ loop fuel q wc = if in_elem k e then Ok (negb inv) else loop fuel' (q + zlen (written_elem e)) wc'.
Proof.
  intros Hl Hr Hok Hf. destruct e as [bs c|bs lo b hi|name]; cbn [elem_ok in_elem] in *.
  - destruct Hok as (Hv & H1 & H2 & H3). cbn [written_elem] in *. destruct (valid_char_bytes utf8 bs c Hv) as (_ & Hlen & _). destruct fuel as [|fuel]; [unfold zlen in *; lia|].
    exists fuel, c. split; [unfold zlen in *; lia|]. by apply (loop_char fuel q bs c r).
  - destruct Hok as (Hv & H1 & H2 & Hh & H3 & H4 & H5 & Hle). cbn [written_elem] in *. rewrite <- app_assoc in Hl. cbn [app] in Hl. rewrite length_app in Hf. cbn in Hf.
    destruct (valid_char_bytes utf8 bs lo Hv) as (_ & Hlen & Hlo). do 3 (destruct fuel as [|fuel]; [unfold zlen in *; lia|]). pose proof (left_app _ _ _ Hl) as Hl1. pose proof (left_cons _ _ _ Hl1) as Hl2.
    exists fuel, hi. split; [rewrite length_app; cbn; unfold zlen in *; lia|]. cbv beta in *. rewrite (loop_char (S (S fuel)) q bs lo (ch "-" :: b :: r)) by done.
    rewrite (loop_range (S fuel) (q + zlen bs) b hi r lo) by (done || lia). rewrite (loop_char fuel (q + zlen bs + 1) [b] hi r) by done.
    pose proof (same_in_range lo hi lo ltac:(lia) ltac:(by left)) as Ha. pose proof (same_in_range lo hi hi ltac:(lia) ltac:(by right)) as Hb. rewrite zlen_app. change (zlen [ch "-"; b]) with 2. change (zlen [b]) with 1.
    destruct (between lo hi k || between lo hi (fold k)); [by destruct (same lo k)|]. destruct (same lo k); [by specialize (Ha eq_refl)|]. destruct (same hi k); [by specialize (Hb eq_refl)|]. f_equal. lia.
  - destruct fuel as [|fuel]; [cbn in Hf; lia|]. exists fuel, wc. split; [cbn; lia|]. destruct Hok as [Hn Hnm]. by apply (loop_class fuel q name r).
Qed.

Lemma loop_elems es : forall q tl r wc fuel, tl = [] \/ tl = [ch "-"] -> left_at q (written_elems es ++ tl ++ ch "]" :: r) -> elems_ok es (tl ++ [ch "]"]) -> (length (written_elems es) + length tl < fuel)%nat ->
  loop fuel q wc = Ok (xorb inv (existsb (in_elem k) es || bool_decide (tl <> []) && same (ch "-") k)).
Proof.
  induction es as [|e es IH]; intros q tl r wc fuel Htl Hl Hok Hf.
  - change (written_elems []) with (@nil Z) in *. cbn [app length Nat.add existsb orb] in *. assert (forall q fuel wc, left_at q (ch "]" :: r) -> (0 < fuel)%nat -> loop fuel q wc = Ok inv) as Hend.
    { intros q' [|f] wc' Hl' Hf'; [lia|]. cbn [bracket_loop]. by rewrite (left_head _ _ Hl'). }
    destruct Htl as [-> | ->]; cbn [app length] in *; [rewrite Hend by done; by destruct inv|]. destruct fuel as [|fuel]; [lia|].
    assert (valid_char utf8 [ch "-"] (ch "-")) as Hv by (unfold valid_char; destruct utf8; [split_and!; [by (left; vm_compute)|done|done]|by exists (ch "-")]).
    cbv beta. rewrite (loop_char fuel q [ch "-"] (ch "-") (ch "]" :: r)) by done. cbn [bool_decide decide_rel]. rewrite bool_decide_eq_true_2 by done. cbn [andb].
    destruct (same (ch "-") k); [by destruct inv|]. pose proof (left_cons _ _ _ Hl). cbv beta in Hend. rewrite Hend by (done || lia). by destruct inv.
  - destruct Hok as [He Hok]. change (written_elems (e :: es)) with (written_elem e ++ written_elems es) in *. rewrite <- app_assoc in Hl. rewrite length_app in Hf.
    destruct (loop_elem e q (written_elems es ++ tl ++ ch "]" :: r) wc fuel Hl) as (fuel' & wc' & Hf' & E).
    { by destruct (written_elems es), Htl as [-> | ->]. }
    { replace (schar (written_elems es ++ tl ++ ch "]" :: r) 0) with (schar (written_elems es ++ tl ++ [ch "]"]) 0); [done|]. by destruct (written_elems es), Htl as [-> | ->]. }
    { lia. }
    cbv beta in *. rewrite E. cbn [existsb]. destruct (in_elem k e); [by destruct inv|]. cbn [orb]. apply (IH _ tl r); [done|by apply left_app|done|lia].
Qed.
End Loop.

Lemma bracket_takes q neg first es dash r k : 0 < k < 2 ^ 31 -> left_at q (written (Set_ neg first es dash) ++ r) -> piece_ok (Set_ neg first es dash) ->
  match_bracket utf8 iswctype pat q k (fold k) = Ok (takes_char (Set_ neg first es dash) k).
Proof.
  intros Hk Hl (Hneg & Hfirst & Hes). cbn [written app] in Hl. rewrite <- !app_assoc in Hl. cbn [app] in Hl.
  set (body := written_elems es ++ written_dash dash ++ ch "]" :: r) in *. pose proof (left_cons _ _ _ Hl) as Hl1. pose proof (left_app _ _ _ Hl1) as Hl2. pose proof (left_app _ _ _ Hl2) as Hl3.
  assert (written_dash dash = [] \/ written_dash dash = [ch "-"]) as Hdash by (destruct dash; auto). pose proof Hl as [Hq _].
  assert (es <> [] -> exists b t, written_elems es = b :: t /\ b <> ch "]" /\ b <> ch "-") as Hhead by (intros Hne; by eapply elems_head).
  unfold match_bracket. rewrite (left_head _ _ Hl1). cbn [obind]. set (d := schar (sign neg ++ sign first ++ body) 0).
  assert ((d =? ch "^") || (d =? ch "!") = bool_decide (is_Some neg)) as Hinv.
  { unfold d. destruct neg as [c|]; [rewrite bool_decide_eq_true_2 by eauto; by destruct Hneg as [-> | ->]|]. rewrite bool_decide_eq_false_2 by (by intros []). cbn [sign app]. destruct first as [c|]; [by destruct Hfirst as [-> | ->]|].
    destruct (Hneg eq_refl) as [Hn1 Hn2]. destruct (Hhead Hfirst) as (b & t & E & _). unfold body. cbn [sign app]. rewrite E in Hn1, Hn2 |- *. change (schar (b :: t) 0) with b in *. cbn [app]. change (schar (b :: _) 0) with b.
    by rewrite (proj2 (Z.eqb_neq b (ch "^")) Hn2), (proj2 (Z.eqb_neq b (ch "!")) Hn1). }
  rewrite Hinv. set (inv := bool_decide (is_Some neg)). assert ((if inv then q + 1 + 1 else q + 1) = q + 1 + zlen (sign neg)) as ->.
  { unfold inv. destruct neg as [z|]; [rewrite bool_decide_eq_true_2 by eauto|rewrite bool_decide_eq_false_2 by (by intros [])]; [change (zlen (sign (Some z))) with 1|change (zlen (sign None)) with 0]; lia. }
  rewrite (left_head _ _ Hl2). cbn [obind]. cbn [takes_char]. fold inv.
  assert (forall q' wc, left_at q' body -> bracket_loop utf8 iswctype (S (length pat)) pat q' wc k (fold k) inv = Ok (xorb inv (existsb (in_elem k) es || dash && same (ch "-") k))) as Hloop.
  { intros q' wc Hl'. rewrite (loop_elems k Hk inv es q' (written_dash dash) r wc); try done; [by destruct dash|]. destruct Hl' as [_ E]. apply (f_equal length) in E. unfold body in E. rewrite length_drop, !length_app in E. cbn in E. lia. }
  destruct first as [c|]; cbn [sign app] in *.
  - change (schar (c :: body) 0) with c. change (zlen [c]) with 1 in *. assert ((c =? ch "]") || (c =? ch "-") = true) as -> by (by destruct Hfirst as [-> | ->]). cbn [andb].
    destruct (Z.eqb_spec k c) as [-> |Hne]; [rewrite bool_decide_eq_true_2 by done; by destruct inv|]. rewrite bool_decide_eq_false_2 by congruence. cbn [orb].
    replace (q + 1 + zlen (sign neg) + 1 - 1) with (q + 1 + zlen (sign neg)) by lia. rewrite (left_head _ _ Hl2). cbn [obind]. by apply Hloop.
  - rewrite bool_decide_eq_false_2 by done. cbn [orb]. destruct (Hhead Hfirst) as (b & t & E & Hb1 & Hb2). replace (schar body 0) with b by (unfold body; by rewrite E).
    rewrite (proj2 (Z.eqb_neq b _) Hb1), (proj2 (Z.eqb_neq b _) Hb2). cbn [orb andb]. change (zlen []) with 0 in Hl3. rewrite Z.add_0_r in Hl3.
    assert (exists x, at_ pat (q + 1 + zlen (sign neg) - 1) = Ok x) as (x & ->).
    { pose proof (zlen_nonneg (sign neg)). destruct Hl2 as [Hq2 _]. rewrite at_head by lia. by eexists. }
    cbn [obind]. by apply Hloop.
Qed.

Lemma token_takes q p r k : 0 < k < 2 ^ 31 -> left_at q (written p ++ r) -> piece_ok p -> takes utf8 towupper towlower iswctype flags pat (q, code_of p) k = if is_star_piece p then false else takes_char p k.
Proof.
  intros Hk Hl Hok. pose proof (fold_range k Hk) as Hf. unfold takes, token_matches. cbn [fst snd]. change (if ctrue (Z.land flags FNM_CASEFOLD) then casefold towupper towlower k else k) with (fold k).
  assert (forall c, 0 < c -> (c =? BRACKET) = false /\ (c =? QUESTION) = false) as Hc by (unfold BRACKET, QUESTION; intros c Hc; split; apply Z.eqb_neq; lia).
  destruct p as [[] bs c| | |neg first es dash]; cbn [code_of is_star_piece takes_char].
  1,2: destruct Hok as (Hv & _); destruct (char_value _ _ Hv) as [Hc0 _]; destruct (Hc c Hc0) as [-> ->]; cbn [orb]; unfold same; by rewrite (Z.eqb_sym k c), (Z.eqb_sym (fold k) c).
  - done.
  - change (STAR =? BRACKET) with false. change (STAR =? QUESTION) with false. cbv iota. cbn [orb]. rewrite !(proj2 (Z.eqb_neq _ STAR)) by (unfold STAR; lia). done.
  - change (BRACKET =? BRACKET) with true. cbv iota. by rewrite (bracket_takes q neg first es dash r k).
Qed.

(** ** The whole pattern *)

Fixpoint tokens_of (q : Z) (ps : list piece) : list (Z * Z) :=
  match ps with [] => [] | p :: ps => (q, code_of p) :: tokens_of (q + zlen (written p)) ps end.

Lemma code_known p : piece_ok p -> code_of p <> UNMATCHABLE /\ code_of p <> END.
Proof.
  destruct p as [[] bs k| | |]; try (by split). 1,2: intros (Hv & _); destruct (char_value _ _ Hv); cbn [code_of]; unfold UNMATCHABLE, END; lia.
Qed.
Lemma pieces_tokens ps : forall q, left_at q (written_all ps) -> Forall piece_ok ps -> tokens utf8 flags pat q (zlen pat) (tokens_of q ps).
Proof.
  induction ps as [|p ps IH]; intros q Hl Hok; cbn [tokens_of].
  - destruct Hl as [Hq E]. change (written_all []) with (@nil Z) in E. apply (f_equal length) in E. rewrite length_drop in E. cbn in E. replace q with (zlen pat) by (unfold zlen in *; lia). constructor. pose proof (zlen_nonneg pat). lia.
  - apply Forall_cons in Hok as [Hp Hok]. change (written_all (p :: ps)) with (written p ++ written_all ps) in Hl. destruct (code_known p Hp). eapply T_cons; [by destruct Hl; lia|by eapply pat_next_piece|done|done|].
    apply IH; [by apply left_app|done].
Qed.

(** A token and its piece are alike. *)
Lemma dot_alike q p r : left_at q (written p ++ r) -> piece_ok p -> flag flags FNM_PERIOD = true -> dot_token pat (q, code_of p) = dot_piece p.
Proof.
  intros Hl Hok Hp. assert (schar pat q = schar (written p ++ r) 0) as E by (destruct Hl as [Hq <-]; by rewrite schar_drop, Z.add_0_r by lia). unfold dot_token. cbn [fst]. rewrite E.
  destruct p as [[] bs k| | |neg first es dash]; cbn [written dot_piece]; [| |done..].
  - destruct Hok as (_ & _ & Hk). change (schar (([ch "\"] ++ bs) ++ r) 0) with (ch "\"). symmetry. change (ch "\" =? ch ".") with false. apply Z.eqb_neq. intros ->. specialize (Hk eq_refl). congruence.
  - destruct Hok as (Hv & _). cbn [app]. destruct (char_head utf8 bs k Hv) as (b & t & -> & _). change (schar ((b :: t) ++ r) 0) with b. by apply (first_byte utf8 b t).
Qed.
Lemma slash_alike q p : piece_ok p -> slash_token (q, code_of p) = slash_piece p.
Proof. by destruct p. Qed.
Lemma star_alike q p : piece_ok p -> is_star (q, code_of p) = is_star_piece p.
Proof.
  destruct p as [[] bs k| | |]; try done. 1,2: intros (Hv & _); destruct (char_value _ _ Hv); unfold is_star; cbn [snd code_of is_star_piece]; apply Z.eqb_neq; unfold STAR; lia.
Qed.
End Text.
End Pattern.

(** * Alike tokens have the same meaning *)

Section Alike.
Context {A B : Type} (sA lA dA : A -> bool) (tA : A -> Z -> bool) (sB lB dB : B -> bool) (tB : B -> Z -> bool) (flags : Z) (V : Z -> Prop).

Definition alike (a : A) (b : B) : Prop :=
  sA a = sB b /\ lA a = lB b /\ (flag flags FNM_PERIOD = true -> dA a = dB b) /\ forall k, V k -> tA a k = tB b k.

Lemma matches_alike l ks : matches sA tA l ks -> forall l', Forall2 alike l l' -> Forall V ks -> matches sB tB l' ks.
Proof.
  induction 1 as [|a l k ks Hs Ht _ IH|a l ks1 ks2 Hs _ IH]; intros l' Hl Hk.
  - inversion Hl. constructor.
  - inversion Hl as [|? b ? l2 (H1 & _ & _ & H4) Hl2]; subst. apply Forall_cons in Hk as [Hk Hks]. constructor; [congruence|by rewrite <- H4|by apply IH].
  - inversion Hl as [|? b ? l2 (H1 & _) Hl2]; subst. apply Forall_app in Hk as [_ Hks]. constructor; [congruence|by apply IH].
Qed.
Lemma part_alike l l' ks : Forall2 alike l l' -> Forall V ks -> part_matches sA tA dA flags l ks -> part_matches sB tB dB flags l' ks.
Proof.
  intros Hl Hk [Hs Hm]. split; [|by eapply matches_alike]. unfold shown in *. destruct (flag flags FNM_PERIOD) eqn:E; [|done]. cbn [negb orb] in *.
  destruct Hl as [|a b l l' (_ & _ & H & _) _]; [done|]. by rewrite <- H.
Qed.
Lemma no_slash_alike l l' : Forall2 alike l l' -> no_slash_token lA l -> no_slash_token lB l'.
Proof. intros Hl. induction Hl as [|a b l l' (_ & H & _) _ IH]; intros H'; [constructor|]. apply Forall_cons in H' as [H1 H2]. constructor; [congruence|by apply IH]. Qed.
Lemma path_alike l ks : path_matches sA tA lA dA flags l ks -> forall l', Forall2 alike l l' -> Forall V ks -> path_matches sB tB lB dB flags l' ks.
Proof.
  induction 1 as [l ks Hn Hs Hp|l ks ks' Hf Hn Hs Hp|l a l1 ks ks' Hn Ha Hs Hp _ IH]; intros l' Hl Hk.
  - apply P_last; [by eapply no_slash_alike|done|by eapply part_alike].
  - apply Forall_app in Hk as [Hk _]. apply P_dir; [done|by eapply no_slash_alike|done|by eapply part_alike].
  - apply Forall2_app_inv_l in Hl as (l2 & r2 & Hl2 & Hr2 & ->). inversion Hr2 as [|? b ? r3 (_ & Hb & _) Hr3]; subst. apply Forall_app in Hk as [Hk [_ Hks]%Forall_cons].
    apply P_part; [by eapply no_slash_alike|congruence|done|by eapply part_alike|by apply IH].
Qed.
Lemma means_alike l l' ks : Forall2 alike l l' -> Forall V ks -> means sA tA lA dA flags l ks -> means sB tB lB dB flags l' ks.
Proof.
  intros Hl Hk. unfold means. destruct (flag flags FNM_PATHNAME); [intros H; by eapply path_alike|]. intros [H|(Hf & k1 & k2 & -> & H)]; [left; by eapply part_alike|right].
  split; [done|]. exists k1, k2. split; [done|]. apply Forall_app in Hk as [Hk _]. by eapply part_alike.
Qed.
End Alike.

Lemma elem_bytes utf8 e d : elem_ok utf8 e d -> cstring (written_elem e).
Proof.
  destruct e as [bs k|bs lo b hi|name]; cbn [elem_ok written_elem].
  - intros (Hv & _). by destruct (valid_char_bytes utf8 bs k Hv).
  - intros (Hv & _ & _ & Hh & _). destruct (valid_char_bytes utf8 bs lo Hv) as [H1 _]. destruct (valid_char_bytes utf8 [b] hi Hh) as [H2 _]. apply Forall_app. split; [done|]. by constructor.
  - intros [_ H]. repeat (constructor; [by vm_compute|]). apply Forall_app. split; [|by repeat constructor]. eapply Forall_impl; [exact H|]. change (ch "a") with 97. change (ch "z") with 122. cbn. lia.
Qed.
Lemma elems_bytes utf8 es tl : elems_ok utf8 es tl -> cstring (written_elems es).
Proof.
  induction es as [|e es IH]; [intros _; constructor|]. intros [He Hes]. unfold written_elems. cbn [map concat]. apply Forall_app. split; [by eapply elem_bytes|by apply IH].
Qed.
Lemma pieces_bytes utf8 flags ps : Forall (piece_ok utf8 flags) ps -> cstring (written_all ps).
Proof.
  intros H. apply Forall_concat, Forall_map. eapply Forall_impl; [exact H|]. intros [[] bs k| | |neg first es dash]; cbn [piece_ok written].
  - intros (Hv & _). destruct (valid_char_bytes utf8 bs k Hv). by constructor.
  - intros (Hv & _). by destruct (valid_char_bytes utf8 bs k Hv).
  - intros _. by repeat constructor.
  - intros _. by repeat constructor.
  - intros (Hn & Hf & He). constructor; [by vm_compute|]. rewrite !Forall_app. split_and!; [|..|by eapply elems_bytes|by destruct dash; repeat constructor|by repeat constructor].
    + destruct neg as [c|]; [|constructor]. by destruct Hn as [-> | ->]; repeat constructor.
    + destruct first as [c|]; [|constructor]. by destruct Hf as [-> | ->]; repeat constructor.
Qed.

Lemma pieces_alike utf8 towupper towlower iswctype flags pat ps :
  case_ok towupper towlower -> cstring pat -> zlen pat < SIZE_MAX -> Forall (piece_ok utf8 flags) ps ->
  forall q, left_at pat q (written_all ps) ->
  Forall2 (alike is_star slash_token (dot_token pat) (takes utf8 towupper towlower iswctype flags pat) is_star_piece slash_piece dot_piece (takes_char towupper towlower iswctype flags) flags (fun k => 0 < k < 2 ^ 31))
    (tokens_of q ps) ps.
Proof.
  intros Hcase Hpat Hbig Hok. induction Hok as [|p ps Hp _ IH]; intros q Hl; cbn [tokens_of]; [constructor|]. change (written_all (p :: ps)) with (written p ++ written_all ps) in Hl.
  constructor; [|by apply IH, left_app]. split_and!; [by eapply star_alike|by eapply slash_alike|intros Hf; by eapply dot_alike|]. intros k Hk.
  rewrite (token_takes utf8 towupper towlower iswctype flags pat Hpat Hcase q p _ k Hk Hl Hp). by destruct p.
Qed.
Lemma alike_sym {A B} sA lA dA tA sB lB dB tB flags V (l : list A) (l' : list B) :
  Forall2 (alike sA lA dA tA sB lB dB tB flags V) l l' -> Forall2 (alike sB lB dB tB sA lA dA tA flags V) l' l.
Proof.
  induction 1 as [|a b l l' (H1 & H2 & H3 & H4) _ IH]; constructor; [|done]. split_and!; [done|done|intros H; by rewrite H3|intros k Hk; by rewrite H4].
Qed.
Lemma chars_value utf8 t ks : chars utf8 t ks -> Forall (fun k => 0 < k < 2 ^ 31) ks.
Proof. intros (bss & _ & H). induction H as [|bs k bss ks Hv _ IH]; constructor; [by eapply char_value|done]. Qed.

(** * What [fnmatch] returns *)

(** When a name matches a pattern, under the flags. *)
Definition name_matches (towupper towlower : Z -> Z) (iswctype : Z -> list Z -> bool) (flags : Z) : list piece -> list Z -> Prop :=
  means is_star_piece (takes_char towupper towlower iswctype flags) slash_piece dot_piece flags.

(** C32: for every pattern of characters (escaped ones too), [?], [*] and bracket expressions (negated or not, of
    characters, ranges that end in a character of one byte and are not empty, and classes), and every name of characters of the locale, [fnmatch]
    returns 0 exactly when the name matches the pattern, and [FNM_NOMATCH] otherwise: a star stands for any characters, a bracket expression
    for the characters it lists, letters stand for both cases with [FNM_CASEFOLD], with
    [FNM_PATHNAME] the components match one by one, with [FNM_LEADING_DIR] the name may go on behind a slash, and
    with [FNM_PERIOD], under which no period of the pattern is escaped, a leading period is matched by a period only. *)
Theorem fnmatch_correct utf8 towupper towlower iswctype flags ps str ks steps :
  case_ok towupper towlower -> Forall (piece_ok utf8 flags) ps -> zlen (written_all ps) < SIZE_MAX ->
  cstring str -> zlen str < SIZE_MAX -> chars utf8 str ks -> (length (written_all ps) < steps)%nat ->
  exists v, fnmatch utf8 towupper towlower iswctype steps (written_all ps) str flags = Ok v /\
    (v = 0 /\ name_matches towupper towlower iswctype flags ps ks \/ v = FNM_NOMATCH /\ ~ name_matches towupper towlower iswctype flags ps ks).
Proof.
  intros Hcase Hok Hbig Hstr Hsbig Hks Hst. pose proof (pieces_bytes utf8 flags ps Hok) as Hpat. set (pat := written_all ps) in *.
  assert (left_at pat 0 (written_all ps)) as Hl by (split; [pose proof (zlen_nonneg pat); lia|done]).
  pose proof (pieces_alike utf8 towupper towlower iswctype flags pat ps Hcase Hpat Hbig Hok 0 Hl) as Hal. pose proof (chars_value _ _ _ Hks) as Hv.
  destruct (fnmatch_tokens utf8 towupper towlower iswctype pat str flags (tokens_of 0 ps) ks steps) as (v & Ev & H); try done.
  { intros k Hk. destruct (Hcase k Hk) as (? & ? & _). done. } { by apply pieces_tokens. }
  exists v. split; [done|]. destruct H as [(-> & H)|(-> & H)]; [left|right]; (split; [done|]); [by eapply means_alike|]. intros H'. apply H. eapply means_alike; [by apply alike_sym|done|done].
Qed.

(** [s*c/[!0-9[:digit:]]?*.c] and [src/main.c], of which no leading period is asked *)
Definition ascii (c : Z) : piece := Char false [c] c.
Definition demo_pattern : list piece :=
  [ascii (ch "s"); Star; ascii (ch "c"); ascii (ch "/"); Set_ (Some (ch "!")) None [Range [ch "0"] (ch "0") (ch "9") (ch "9"); Class (lit "digit")] false; Any; Star; ascii (ch "."); ascii (ch "c")].

Lemma fnmatch_correct_witness :
  written_all demo_pattern = lit "s*c/[!0-9[:digit:]]?*.c" /\
  fnmatch true upper lower class_of 100 (written_all demo_pattern) (lit "src/main.c") (FNM_PATHNAME + FNM_PERIOD) = Ok 0 /\
  name_matches upper lower class_of (FNM_PATHNAME + FNM_PERIOD) demo_pattern (lit "src/main.c").
Proof.
  split; [reflexivity|]. split; [vm_compute; reflexivity|].
  assert (forall c, 0 < c < 128 -> valid_char true [c] c) as Hv by (intros c Hc; split; [unfold scalar; lia|]; split; [lia|by rewrite ascii_encode by lia]).
  destruct (fnmatch_correct true upper lower class_of (FNM_PATHNAME + FNM_PERIOD) demo_pattern (lit "src/main.c") (lit "src/main.c") 100) as (v & E & H).
  - intros k Hk. destruct (case_positive k Hk). split_and!; [done|done|]. unfold upper, lower. repeat case_match; bool_hyps; lia.
  - unfold demo_pattern, ascii. repeat apply Forall_cons_2; try exact I; try apply Forall_nil_2;
      try (split; [apply Hv; by vm_compute|split_and!; done]).
    split; [by left|]. split; [done|]. split; [split_and!; try done; apply Hv; by vm_compute|]. split; [|done]. split; [by vm_compute|]. repeat constructor; by vm_compute.
  - reflexivity.
  - repeat constructor.
  - reflexivity.
  - apply ascii_chars. repeat constructor.
  - vm_compute. lia.
  - destruct H as [(_ & H)|(-> & _)]; [exact H|]. exfalso. vm_compute in E. discriminate.
Defined.

(** A range that is empty takes its end, which is why ranges are not empty above. *)
Example fnmatch_empty_range : fnmatch true upper lower class_of 100 (lit "[z-a]") (lit "a") 0 = Ok 0.
Proof. vm_compute. reflexivity. Qed.
