(* ===== verification/Getopt.v ===== *)
(** Command line options ([libc-top-half/musl/src/misc/]: getopt.c, getopt_long.c).

    The state holds the argument vector, with its null pointer at the end, and the variables
    of the two files.  Strings do not change, so that a pointer into one is the text
    behind it.  What goes to [stderr] is the list of its lines; [*idx] and the variables
    the long options point to are cells of the state. *)

From Stdlib Require Import Ascii String.
From S2P Require Import Prelude Multibyte Intscan Printf Inet Fnmatch.

Record state : Type := State {
  argv : list (option (list Z));
  optarg : option (list Z);
  optind : Z;
  optpos : Z;
  opterr : Z;
  optopt : Z;
  optreset : Z;
  messages : list (list Z);
  idx : Z;
  cells : gmap Z Z
}.
Definition with_argv (x : list (option (list Z))) (w : state) : state :=
  State x (optarg w) (optind w) (optpos w) (opterr w) (optopt w) (optreset w) (messages w) (idx w) (cells w).
Definition with_optarg (x : option (list Z)) (w : state) : state :=
  State (argv w) x (optind w) (optpos w) (opterr w) (optopt w) (optreset w) (messages w) (idx w) (cells w).
Definition with_optind (x : Z) (w : state) : state :=
  State (argv w) (optarg w) x (optpos w) (opterr w) (optopt w) (optreset w) (messages w) (idx w) (cells w).
Definition with_optpos (x : Z) (w : state) : state :=
  State (argv w) (optarg w) (optind w) x (opterr w) (optopt w) (optreset w) (messages w) (idx w) (cells w).
Definition with_optopt (x : Z) (w : state) : state :=
  State (argv w) (optarg w) (optind w) (optpos w) (opterr w) x (optreset w) (messages w) (idx w) (cells w).
Definition with_optreset (x : Z) (w : state) : state :=
  State (argv w) (optarg w) (optind w) (optpos w) (opterr w) (optopt w) x (messages w) (idx w) (cells w).
Definition with_messages (x : list (list Z)) (w : state) : state :=
  State (argv w) (optarg w) (optind w) (optpos w) (opterr w) (optopt w) (optreset w) x (idx w) (cells w).
Definition with_idx (x : Z) (w : state) : state :=
  State (argv w) (optarg w) (optind w) (optpos w) (opterr w) (optopt w) (optreset w) (messages w) x (cells w).
Definition with_cells (x : gmap Z Z) (w : state) : state :=
  State (argv w) (optarg w) (optind w) (optpos w) (opterr w) (optopt w) (optreset w) (messages w) (idx w) x.

(** The variables before the first call. *)
Definition start (args : list (list Z)) : state := State (map Some args ++ [None]) None 1 0 1 0 0 [] 0 ∅.

Definition MB_LEN_MAX : Z := 4.

Section Getopt.
Context (utf8 : bool).

(** [a], the translated [b] and [l] bytes of [c], to [stderr] *)
Definition __getopt_msg (a b c : list Z) (l : Z) : M state unit :=
  sput (fun w => with_messages (messages w ++ [a ++ b ++ take (Z.to_nat l) c]) w).

Definition message (b c : list Z) (l : Z) : M state unit :=
  let* v := sget argv in
  let* a := lift (zget v 0) in
  let* a := lift (deref a) in
  __getopt_msg a b c l.

(** The first lines of [getopt] and [__getopt_long]. *)
Definition restart : M state unit :=
  let* ind := sget optind in
  let* reset := sget optreset in
  if (ind =? 0) || ctrue reset then
    do* sput (with_optreset 0) in
    do* sput (with_optpos 0) in
    sput (with_optind 1)
  else sret tt.

(** The search for [c] in the option string: [i] and [d]. *)
Fixpoint find_option (fuel : nat) (optstring : list Z) (c i d : Z) : outcome (Z * Z) :=
  match fuel with
  | O => NoFuel
  | S fuel' =>
      let! (l, w) := mbtowc_at utf8 optstring i MB_LEN_MAX in
      let d := if l <? 0 then d else w in
      let i := if 0 <? l then i + l else i + 1 in
      if ctrue l && negb (d =? c) then find_option fuel' optstring c i d else Ok (i, d)
  end.

(** The argument of [c], which the option string has a colon at [i] for. *)
Definition take_argument (argc : Z) (optstring : list Z) (i c k : Z) (optchar : list Z) : M state Z :=
  do* sput (with_optarg None) in
  let* g := lift (at_ optstring (i + 1)) in
  let* pos := sget optpos in
  do* if negb (g =? ch ":") || ctrue pos then
      let* v := sget argv in
      let* ind := sget optind in
      let* a := lift (zget v ind) in
      let* arg := match a with Some a => sret (Some (drop (Z.to_nat pos) a)) | None => if pos =? 0 then sret None else sfail end in
      do* sput (with_optarg arg) in
      do* sput (with_optind (ind + 1)) in
      sput (with_optpos 0)
    else sret tt in
  let* ind := sget optind in
  if argc <? ind then
    do* sput (with_optopt c) in
    let* o := lift (at_ optstring 0) in
    if o =? ch ":" then sret (ch ":")
    else
      let* err := sget opterr in
      do* if ctrue err then message (lit ": option requires an argument: ") optchar k else sret tt in
      sret (ch "?")
  else sret c.

(** What follows once the option character [c] is read, with [optchar] of [k] bytes. *)
Definition look_up (argc : Z) (optstring : list Z) (c k : Z) (optchar : list Z) : M state Z :=
  let* o := lift (at_ optstring 0) in
  let optstring := if (o =? ch "-") || (o =? ch "+") then tail optstring else optstring in
  let* (i, d) := lift (find_option (S (length optstring)) optstring c 0 0) in
  if negb (d =? c) || (c =? ch ":") then
    do* sput (with_optopt c) in
    let* o := lift (at_ optstring 0) in
    let* err := sget opterr in
    do* if negb (o =? ch ":") && ctrue err then message (lit ": unrecognized option: ") optchar k else sret tt in
    sret (ch "?")
  else
    let* f := lift (at_ optstring i) in
    if f =? ch ":" then take_argument argc optstring i c k optchar else sret c.

(** The option character at [pos] of [a], which is [argv[optind]]. *)
Definition read_option (argc : Z) (optstring a : list Z) (ind pos : Z) : M state Z :=
  let* (k, c) := lift (mbtowc_at utf8 a pos MB_LEN_MAX) in
  let '(k, c) := if k <? 0 then (1, 65533) else (k, c) in
  let optchar := drop (Z.to_nat pos) a in
  let pos := pos + k in
  let* e := lift (at_ a pos) in
  do* sput (with_optpos (if e =? 0 then 0 else pos)) in
  do* sput (with_optind (if e =? 0 then ind + 1 else ind)) in
  look_up argc optstring c k optchar.

Definition getopt (argc : Z) (optstring : list Z) : M state Z :=
  do* restart in
  let* ind := sget optind in
  if argc <=? ind then sret (-1)
  else
    let* v := sget argv in
    let* a := lift (zget v ind) in
    match a with
    | None => sret (-1)
    | Some a =>
        let* c0 := lift (at_ a 0) in
        if negb (c0 =? ch "-") then
          let* o := lift (at_ optstring 0) in
          if o =? ch "-" then
            do* sput (with_optarg (Some a)) in
            do* sput (with_optind (ind + 1)) in
            sret 1
          else sret (-1)
        else
          let* c1 := lift (at_ a 1) in
          if c1 =? 0 then sret (-1)
          else
            let* c2 := if c1 =? ch "-" then lift (at_ a 2) else sret 1 in
            if c2 =? 0 then do* sput (with_optind (ind + 1)) in sret (-1)
            else
              let* pos := sget optpos in
              let pos := if pos =? 0 then pos + 1 else pos in
              read_option argc optstring a ind pos
    end.

(** * Long options *)

Definition no_argument : Z := 0.
Definition required_argument : Z := 1.
Definition optional_argument : Z := 2.

Record option_ : Type := Option { name : list Z; has_arg : Z; flag : option Z; val : Z }.

(** [for (i=src; i>dest; i--) av[i] = av[i-1];] *)
Fixpoint shift_up (fuel : nat) (v : list (option (list Z))) (i dest : Z) : outcome (list (option (list Z))) :=
  match fuel with
  | O => NoFuel
  | S fuel' =>
      if dest <? i then
        let! x := zget v (i - 1) in
        let! v := zset v i x in
        shift_up fuel' v (i - 1) dest
      else Ok v
  end.

Definition permute (v : list (option (list Z))) (dest src : Z) : outcome (list (option (list Z))) :=
  let! tmp := zget v src in
  let! v := shift_up (S (length v)) v src dest in
  zset v dest tmp.

(** [while ( *opt && *opt != '=' && *opt == *name) name++, opt++;] *)
Fixpoint name_loop (fuel : nat) (a nm : list Z) (opt n : Z) : outcome (Z * Z) :=
  match fuel with
  | O => NoFuel
  | S fuel' =>
      let! c := at_ a opt in
      if (c =? 0) || (c =? ch "=") then Ok (opt, n)
      else
        let! d := at_ nm n in
        if c =? d then name_loop fuel' a nm (opt + 1) (n + 1) else Ok (opt, n)
  end.

(** The loop over the long options: [cnt], and [arg] and [match]. *)
Fixpoint long_loop (a : list Z) (longopts : list option_) (i cnt : Z) (found : option (Z * Z)) : outcome (Z * option (Z * Z)) :=
  match longopts with
  | [] => Ok (cnt, found)
  | o :: rest =>
      let! c := at_ a 1 in
      let opt := if c =? ch "-" then 2 else 1 in
      let! (opt, n) := name_loop (S (length a)) a (name o) opt 0 in
      let! c := at_ a opt in
      if negb (c =? 0) && negb (c =? ch "=") then long_loop a rest (i + 1) cnt found
      else
        let! d := at_ (name o) n in
        if d =? 0 then Ok (1, Some (opt, i)) else long_loop a rest (i + 1) (cnt + 1) (Some (opt, i))
  end.

(** [for (j=0; j<l && start[j]==optstring[i+j]; j++);]: whether it runs to [l]. *)
Fixpoint same_bytes (fuel : nat) (a optstring : list Z) (i j l : Z) : outcome bool :=
  match fuel with
  | O => NoFuel
  | S fuel' =>
      if j <? l then
        let! c := at_ a (1 + j) in
        let! d := at_ optstring (i + j) in
        if c =? d then same_bytes fuel' a optstring i (j + 1) l else Ok false
      else Ok true
  end.

(** The loop over the short options: whether one has the same bytes. *)
Fixpoint short_loop (fuel : nat) (a optstring : list Z) (i l : Z) : outcome bool :=
  match fuel with
  | O => NoFuel
  | S fuel' =>
      let! c := at_ optstring i in
      if c =? 0 then Ok false
      else
        let! b := same_bytes (S (length a)) a optstring i 0 l in
        if b : bool then Ok true else short_loop fuel' a optstring (i + 1) l
  end.

(** The long option [o] with number [i], whose name ends at [opt] of [a]. *)
Definition take_long (a : list Z) (has_idx colon : bool) (o : option_) (i opt : Z) : M state Z :=
  let* ind := sget optind in
  do* sput (with_optind (ind + 1)) in
  let* err := sget opterr in
  let* c := lift (at_ a opt) in
  let accepted :=
    do* if has_idx then sput (with_idx i) else sret tt in
    match flag o with
    | Some f => do* sput (fun w => with_cells (<[f := val o]> (cells w)) w) in sret 0
    | None => sret (val o)
    end in
  if c =? ch "=" then
    if negb (ctrue (has_arg o)) then
      do* sput (with_optopt (val o)) in
      if colon || negb (ctrue err) then sret (ch "?")
      else do* message (lit ": option does not take an argument: ") (name o) (zlen (name o)) in sret (ch "?")
    else do* sput (with_optarg (Some (drop (Z.to_nat (opt + 1)) a))) in accepted
  else if has_arg o =? required_argument then
    let* v := sget argv in
    let* x := lift (zget v (ind + 1)) in
    do* sput (with_optarg x) in
    match x with
    | None =>
        do* sput (with_optopt (val o)) in
        if colon then sret (ch ":")
        else if negb (ctrue err) then sret (ch "?")
        else do* message (lit ": option requires an argument: ") (name o) (zlen (name o)) in sret (ch "?")
    | Some _ => do* sput (with_optind (ind + 2)) in accepted
    end
  else accepted.

Definition __getopt_long_core (argc : Z) (optstring : list Z) (longopts : option (list option_)) (has_idx longonly : bool) : M state Z :=
  do* sput (with_optarg None) in
  let* v := sget argv in
  let* ind := sget optind in
  let* a := lift (zget v ind) in
  let* a := lift (deref a) in
  match longopts with
  | None => getopt argc optstring
  | Some longopts =>
      let* c0 := lift (at_ a 0) in
      let* c1 := if c0 =? ch "-" then lift (at_ a 1) else sret 0 in
      let* c2 := if c1 =? ch "-" then lift (at_ a 2) else sret 0 in
      if (c0 =? ch "-") && (longonly && negb (c1 =? 0) && negb (c1 =? ch "-") || (c1 =? ch "-") && negb (c2 =? 0)) then
        let* o := lift (at_ optstring 0) in
        let* o := lift (at_ optstring (cbool ((o =? ch "+") || (o =? ch "-")))) in
        let colon := o =? ch ":" in
        let* (cnt, found) := lift (long_loop a longopts 0 0 None) in
        let* cnt := if (cnt =? 1) && longonly then
            let* (arg, _) := lift (deref found) in
            let* (l, _) := lift (mbtowc_at utf8 a 1 MB_LEN_MAX) in
            if arg - 1 =? l then
              let* b := lift (short_loop (S (length optstring)) a optstring 0 (arg - 1)) in
              sret (if b : bool then cnt + 1 else cnt)
            else sret cnt
          else sret cnt in
        if cnt =? 1 then
          let* (arg, i) := lift (deref found) in
          let* o := lift (zget longopts i) in
          take_long a has_idx colon o i arg
        else if c1 =? ch "-" then
          do* sput (with_optopt 0) in
          let* err := sget opterr in
          do* if negb colon && ctrue err then
              message (if ctrue cnt then lit ": option is ambiguous: " else lit ": unrecognized option: ") (drop 2 a) (zlen (drop 2 a))
            else sret tt in
          do* sput (with_optind (ind + 1)) in
          sret (ch "?")
        else getopt argc optstring
      else getopt argc optstring
  end.

(** [for (i=optind; ; i++)], to the next option; [None] where there is none *)
Fixpoint next_option (fuel : nat) (argc : Z) (v : list (option (list Z))) (i : Z) : outcome (option Z) :=
  match fuel with
  | O => NoFuel
  | S fuel' =>
      if argc <=? i then Ok None
      else
        let! a := zget v i in
        match a with
        | None => Ok None
        | Some a =>
            let! c := at_ a 0 in
            let! d := if c =? ch "-" then at_ a 1 else Ok 0 in
            if negb (d =? 0) then Ok (Some i) else next_option fuel' argc v (i + 1)
        end
  end.

(** [for (i=0; i<cnt; i++) permute(argv, skipped, optind-1);], with [n] turns to go *)
Fixpoint permute_loop (n : nat) (v : list (option (list Z))) (dest src : Z) : outcome (list (option (list Z))) :=
  match n with
  | O => Ok v
  | S n' => let! v := permute v dest src in permute_loop n' v dest src
  end.

Definition __getopt_long (argc : Z) (optstring : list Z) (longopts : option (list option_)) (has_idx longonly : bool) : M state Z :=
  do* restart in
  let* ind := sget optind in
  if argc <=? ind then sret (-1)
  else
    let* v := sget argv in
    let* a := lift (zget v ind) in
    match a with
    | None => sret (-1)
    | Some _ =>
        let skipped := ind in
        let* o := lift (at_ optstring 0) in
        let* next := if negb (o =? ch "+") && negb (o =? ch "-") then lift (next_option (S (length v)) argc v ind) else sret (Some ind) in
        match next with
        | None => sret (-1)
        | Some resumed =>
            do* sput (with_optind resumed) in
            let* ret := __getopt_long_core argc optstring longopts has_idx longonly in
            do* if skipped <? resumed then
                let* ind := sget optind in
                let cnt := ind - resumed in
                let* v := sget argv in
                let* v := lift (permute_loop (Z.to_nat cnt) v skipped (ind - 1)) in
                do* sput (with_argv v) in
                sput (with_optind (skipped + cnt))
              else sret tt in
            sret ret
        end
    end.

Definition getopt_long (argc : Z) (optstring : list Z) (longopts : option (list option_)) (has_idx : bool) : M state Z :=
  __getopt_long argc optstring longopts has_idx false.
Definition getopt_long_only (argc : Z) (optstring : list Z) (longopts : option (list option_)) (has_idx : bool) : M state Z :=
  __getopt_long argc optstring longopts has_idx true.
End Getopt.

(** An argument that is missing at the end takes the null pointer that ends the
    vector into the middle of it: [file] is behind [argv[argc]], and [optind] is [argc]. *)
Example missing_argument_moves_null :
  match getopt_long true 3 (lit "o:") None false (start [lit "prog"; lit "file"; lit "-o"]) with
  | Ok (r, w) => r = ch "?" /\ argv w = [Some (lit "prog"); Some (lit "-o"); None; Some (lit "file")] /\ optind w = 3
  | _ => False
  end.
Proof. vm_compute. auto. Qed.
