(* ===== verification/GetoptSpec.v ===== *)
(** What the option functions promise: a parser of the argument list.

    The parser's state is what is left of a group of option letters and the arguments
    not read yet.  [getopt_refines] shows that a call of [getopt] is one step of the parser. *)

From Stdlib Require Import Ascii String.
From S2P Require Import Prelude Memory Multibyte Intscan IntscanSpec StringsScan StringsSpec Printf PrintfSpec Inet InetSpec Fnmatch FnmatchSpec FnmatchMatch FnmatchPath Getopt.
Import Multibyte.

(** * Running a call *)

Lemma bind_get {S A B} (f : S -> A) (k : A -> M S B) w : sbind (sget f) k w = k (f w) w.
Proof. done. Qed.
Lemma bind_put {S B} (f : S -> S) (k : unit -> M S B) w : sbind (sput f) k w = k tt (f w).
Proof. done. Qed.
Lemma bind_ret {S A B} (a : A) (k : A -> M S B) w : sbind (sret a) k w = k a w.
Proof. done. Qed.
Lemma bind_lift {S A B} (a : A) (k : A -> M S B) w : sbind (lift (Ok a)) k w = k a w.
Proof. done. Qed.
Lemma bind_bind {S A B C} (m : M S A) (f : A -> M S B) (k : B -> M S C) w : sbind (sbind m f) k w = sbind m (fun a => sbind (f a) k) w.
Proof. unfold sbind. by destruct (m w) as [[a s]| | |]. Qed.

(** Runs the calls whose values are known. *)
Ltac run := repeat (first [rewrite bind_get | rewrite bind_put | rewrite bind_ret | rewrite bind_lift | rewrite bind_bind]; cbv beta iota).

(** * The parser *)

(** What a call reports. *)
Inductive event : Type :=
| Stop
| Operand (a : list Z)
| Plain (c : Z)
| With (c : Z) (arg : option (list Z))
| Unknown (c : Z) (bs : list Z)
| Missing (c : Z) (bs : list Z).

Inductive arity : Type := NoArg | Required | Optional.

Section Parser.
Context (utf8 : bool).

(** The character at the front, or the replacement character for a byte that starts none. *)
Definition read_char (cs : list Z) : Z * Z :=
  match mbtowc_at utf8 cs 0 MB_LEN_MAX with Ok (k, c) => if k <? 0 then (65533, 1) else (c, k) | _ => (65533, 1) end.

(** The characters behind the first [c]. *)
Fixpoint after (c : Z) (ks : list Z) : option (list Z) :=
  match ks with [] => None | k :: ks => if k =? c then Some ks else after c ks end.

(** The letters [ks] of the option string, and the colons that follow them. *)
Definition arity_of (ks : list Z) (c : Z) : option arity :=
  if c =? ch ":" then None
  else
    match after c ks with
    | None => None
    | Some (d :: e :: _) => Some (if d =? ch ":" then if e =? ch ":" then Optional else Required else NoArg)
    | Some [d] => Some (if d =? ch ":" then Required else NoArg)
    | Some [] => Some NoArg
    end.

Context (in_order : bool) (ks : list Z).

(** The letter [c] of [bs], with [cs] of its group and [rest] behind it. *)
Definition answer (c : Z) (bs cs : list Z) (rest : list (list Z)) : event * (list Z * list (list Z)) :=
  match arity_of ks c with
  | None => (Unknown c bs, (cs, rest))
  | Some NoArg => (Plain c, (cs, rest))
  | Some Optional => (With c (match cs with [] => None | _ => Some cs end), ([], rest))
  | Some Required =>
      match cs, rest with
      | _ :: _, _ => (With c (Some cs), ([], rest))
      | [], v :: rest => (With c (Some v), ([], rest))
      | [], [] => (Missing c bs, ([], []))
      end
  end.

(** The first letter of the group [cs]. *)
Definition letter (cs : list Z) (rest : list (list Z)) : event * (list Z * list (list Z)) :=
  let '(c, k) := read_char cs in answer c (take (Z.to_nat k) cs) (drop (Z.to_nat k) cs) rest.

(** How an argument starts. *)
Inductive kind : Type := Group (cs : list Z) | End | Other.
Definition kind_of (a : list Z) : kind :=
  match a with
  | x :: y :: r => if x =? ch "-" then if (y =? ch "-") && bool_decide (r = []) then End else Group (y :: r) else Other
  | _ => Other
  end.

(** One step of the parser. *)
Definition step (cs : list Z) (rest : list (list Z)) : event * (list Z * list (list Z)) :=
  match cs, rest with
  | _ :: _, _ => letter cs rest
  | [], [] => (Stop, ([], []))
  | [], a :: rest' =>
      match kind_of a with
      | Group cs => letter cs rest'
      | End => (Stop, ([], rest'))
      | Other => if in_order && negb (schar a 0 =? ch "-") then (Operand a, ([], rest')) else (Stop, ([], rest))
      end
  end.

(** * What a call changes besides [optind] and [optpos], and what it returns *)

(** An argument is missing at the end. *)
Definition missing (e : event) : bool := match e with Missing _ _ => true | _ => false end.

Context (colon : bool) (prog : list Z).

Definition warn (text : list Z) (bs : list Z) (w : state) : state :=
  if negb colon && ctrue (opterr w) then with_messages (messages w ++ [prog ++ text ++ bs]) w else w.

Definition effect (e : event) (w : state) : state :=
  match e with
  | Stop | Plain _ => w
  | Operand a => with_optarg (Some a) w
  | With _ arg => with_optarg arg w
  | Unknown c bs => warn (lit ": unrecognized option: ") bs (with_optopt c w)
  | Missing c bs => warn (lit ": option requires an argument: ") bs (with_optopt c (with_optarg None w))
  end.

Definition code (e : event) : Z :=
  match e with
  | Stop => -1
  | Operand _ => 1
  | Plain c | With c _ => c
  | Unknown _ _ => ch "?"
  | Missing _ _ => if colon then ch ":" else ch "?"
  end.
End Parser.

(** * A call of [getopt] *)

(** The state at a place of the arguments. *)
Definition place (ind pos : Z) (w : state) : state := with_optind ind (with_optpos pos w).

(** [w] is at the parser's state: behind a letter of a group, or between two arguments. *)
Inductive at_state (args : list (list Z)) : Z -> Z -> list Z -> list (list Z) -> Prop :=
| Between i : 1 <= i -> at_state args i 0 [] (drop (Z.to_nat i) args)
| Inside i p a b cs : 1 <= i -> 2 <= p -> args !! Z.to_nat i = Some a -> drop (Z.to_nat p) a = b :: cs -> schar a 0 = ch "-" ->
    at_state args i p (b :: cs) (drop (S (Z.to_nat i)) args).

Section Calls.
Context (utf8 : bool) (optstring : list Z) (ks : list Z) (args : list (list Z)).

Definition first_is (x : Z) : bool := schar optstring 0 =? x.
(** The option string without the sign in front. *)
Definition letters : list Z := if first_is (ch "-") || first_is (ch "+") then tail optstring else optstring.
Definition in_order : bool := first_is (ch "-").
Definition colon : bool := schar letters 0 =? ch ":".
Definition prog : list Z := nth 0 args [].

Context (Hopt : cstring optstring) (Hks : chars utf8 letters ks) (Hargs : Forall cstring args).

Lemma letters_cstring : cstring letters.
Proof. unfold letters. destruct (_ || _); [|done]. destruct optstring; [done|]. by apply Forall_cons in Hopt as [_ ?]. Qed.

Lemma at_zero (t : list Z) : at_ t 0 = Ok (schar t 0).
Proof. destruct t; done. Qed.

Lemma find_option_spec c fuel : forall ks' i, reads utf8 letters i (zlen letters) ks' -> 0 < c -> (length ks' < fuel)%nat ->
  exists i' d, find_option utf8 fuel letters c i 0 = Ok (i', d) /\
    match after c ks' with Some ks2 => d = c /\ reads utf8 letters i' (zlen letters) ks2 | None => d <> c end.
Proof.
  (* the value of d before a turn only matters where mbtowc fails *)
  enough (forall ks' i d0, reads utf8 letters i (zlen letters) ks' -> 0 < c -> (length ks' < fuel)%nat ->
    exists i' d, find_option utf8 fuel letters c i d0 = Ok (i', d) /\
      match after c ks' with Some ks2 => d = c /\ reads utf8 letters i' (zlen letters) ks2 | None => d <> c end) as H by (intros; by apply H).
  induction fuel as [|fuel IH]; intros ks' i d0 Hr Hc Hf; [lia|]. cbn [find_option]. destruct ks' as [|k ks'].
  - apply reads_nil in Hr as E. rewrite <- E in *. assert (mbtowc_at utf8 letters (zlen letters) MB_LEN_MAX = Ok (0, 0)) as ->.
    { unfold mbtowc_at. unfold zlen. rewrite Nat2Z.id, drop_app_length. done. }
    cbn. eexists _, _. split; [done|]. lia.
  - inversion Hr as [|? bs ? ? ? rest Hs Hv E Ht]; subst. destruct (valid_char_bytes utf8 bs k Hv) as (_ & Hl & Hk).
    rewrite (mbtowc_char utf8 letters i MB_LEN_MAX bs k rest letters_cstring Hs Hv E) by (unfold MB_LEN_MAX; lia). cbn [obind].
    rewrite (proj2 (Z.ltb_ge _ 0)), (proj2 (Z.ltb_lt 0 _)) by lia. assert (ctrue (zlen bs) = true) as -> by (apply negb_true_iff, Z.eqb_neq; lia). cbn [andb after].
    destruct (Z.eqb_spec k c) as [-> |Hne]; cbn [negb].
    + eexists _, _. split; [done|]. done.
    + apply IH; try done. cbn in Hf. lia.
Qed.

(** The byte at a character of ASCII. *)
Lemma reads_byte (t : list Z) i e ks' x : reads utf8 t i e ks' -> e = zlen t -> 0 < x < 128 -> schar t i =? x = match ks' with k :: _ => k =? x | [] => false end.
Proof.
  intros Hr -> Hx. destruct ks' as [|k ks'].
  - apply reads_nil in Hr as <-. rewrite name_end. apply Z.eqb_neq. lia.
  - inversion Hr as [|? bs ? ? ? rest Hs Hv E Ht]; subst. destruct (char_head utf8 bs k Hv) as (b & t' & -> & _). rewrite (schar_rest t i b _ ltac:(lia) E).
    apply (first_byte utf8 b t'); [done|lia].
Qed.

(** A line for [stderr]. *)
Lemma message_spec text optchar k w : argv w = map Some args ++ [None] -> args <> [] ->
  message text optchar k w = Ok (tt, with_messages (messages w ++ [prog ++ text ++ take (Z.to_nat k) optchar]) w).
Proof. intros Hv Hne. unfold message, __getopt_msg. run. rewrite Hv. unfold prog. by destruct args as [|a l]. Qed.

Lemma warn_spec (o : bool) text optchar k w : argv w = map Some args ++ [None] -> args <> [] ->
  (if negb o && ctrue (opterr w) then message text optchar k else sret tt) w = Ok (tt, warn o prog text (take (Z.to_nat k) optchar) w).
Proof. intros Hv Hne. unfold warn. destruct (negb o && ctrue (opterr w)); [by apply message_spec|done]. Qed.

Lemma argv_at w i : argv w = map Some args ++ [None] -> 0 <= i <= zlen args -> zget (argv w) i = Ok (args !! Z.to_nat i).
Proof.
  intros -> Hi. unfold zget. rewrite (proj2 (Z.leb_le 0 i)) by lia. destruct (decide (i = zlen args)) as [-> |].
  - unfold zlen. rewrite Nat2Z.id. rewrite list_lookup_middle by (by rewrite length_map). by rewrite lookup_ge_None_2 by lia.
  - rewrite lookup_app_l by (rewrite length_map; unfold zlen in *; lia). rewrite list_lookup_fmap.
    destruct (lookup_lt_is_Some_2 args (Z.to_nat i)) as (a & ->); [unfold zlen in *; lia|done].
Qed.

Lemma place_same w : place (optind w) (optpos w) w = w.
Proof. by destruct w. Qed.

Lemma place_ind i w : 0 = optpos w -> place i 0 w = with_optind i w.
Proof. destruct w. cbn. by intros <-. Qed.

Notation answer' := (answer ks).
Notation effect' := (effect colon prog).
Notation code' := (code colon).

Lemma after_pos c ks' ks2 : after c ks' = Some ks2 -> Forall (fun k => 0 < k) ks' -> Forall (fun k => 0 < k) ks2.
Proof. induction ks' as [|k ks' IH]; cbn; [done|]. intros H [_ Hf]%Forall_cons. destruct (k =? c); [by injection H as <-|by apply IH]. Qed.

Lemma at_state_range i p cs rest : at_state args i p cs rest -> 1 <= i /\ 0 <= p /\ (cs <> [] -> i < zlen args).
Proof.
  destruct 1 as [i Hi|i p a b cs Hi Hp Ha _ _]; [split_and!; [done|lia|done]|]. apply lookup_lt_Some in Ha. unfold zlen. split_and!; lia.
Qed.

Lemma take_argument_spec i c k optchar (opt : bool) g cs rest w : at_ letters (i + 1) = Ok g -> (g =? ch ":") = opt ->
  at_state args (optind w) (optpos w) cs rest -> optind w <= zlen args -> argv w = map Some args ++ [None] -> args <> [] ->
  let '(e, (cs2, rest2)) :=
    if opt then (With c (match cs with [] => None | _ => Some cs end), ([], rest))
    else match cs, rest with
      | _ :: _, _ => (With c (Some cs), ([], rest))
      | [], v :: rest => (With c (Some v), ([], rest))
      | [], [] => (Missing c (take (Z.to_nat k) optchar), ([], []))
      end in
  exists ind2 pos2, take_argument (zlen args) letters i c k optchar w = Ok (code' e, place ind2 pos2 (effect' e w)) /\ at_state args ind2 pos2 cs2 rest2 /\ (ind2 <= zlen args \/ missing e = true).
Proof.
  intros Hg Hgo Hat Hle Hv Hne. pose proof (at_state_range _ _ _ _ Hat) as (Hi & Hp & Hcs). unfold take_argument. run. rewrite Hg. run. rewrite Hgo.
  cbn [with_optarg optpos]. inversion Hat as [ind Hind E1 E2 E3 E4|ind pos a b cs' Hind Hpos Ha Hd H0 E1 E2 E3 E4]; subst cs rest.
  - rewrite <- E2 in *. change (ctrue 0) with false. rewrite orb_false_r. destruct opt; cbn [negb]; run.
    + cbn [with_optarg optind]. rewrite (proj2 (Z.ltb_ge _ _)) by lia. exists (optind w), 0. split; [rewrite E2; by destruct w|]. split; [by constructor|by left].
    + cbn [with_optarg with_optind with_optpos optind argv]. rewrite argv_at by (done || lia). run. destruct (Z.lt_ge_cases (optind w) (zlen args)) as [Hlt|Hge].
      * destruct (lookup_lt_is_Some_2 args (Z.to_nat (optind w))) as (v & Ev); [unfold zlen in *; lia|]. rewrite (drop_S _ _ _ Ev), Ev. run. cbn [with_optarg with_optind with_optpos optind argv].
        rewrite (proj2 (Z.ltb_ge _ _)) by lia. exists (optind w + 1), 0. split; [by destruct w|]. split; [|left; lia]. replace (S (Z.to_nat (optind w))) with (Z.to_nat (optind w + 1)) by lia. constructor. lia.
      * rewrite lookup_ge_None_2, drop_ge by (unfold zlen in *; lia). change (0 =? 0) with true. cbv iota. run. cbn [with_optarg with_optind with_optpos optind argv].
        rewrite (proj2 (Z.ltb_lt _ _)) by lia. run. rewrite at_zero. run. fold colon. exists (optind w + 1), 0. split.
        -- unfold effect, code, warn. cbn [with_optarg with_optind with_optpos with_optopt opterr]. destruct colon eqn:Ec; cbn [negb andb]; [by destruct w|]. run.
           cbn [with_optarg with_optind with_optpos with_optopt opterr]. destruct (ctrue (opterr w)); [|by destruct w]. erewrite sbind_Ok; [|apply message_spec; [exact Hv|exact Hne]]. by destruct w.
        -- split; [|by right]. replace (@nil (list Z)) with (drop (Z.to_nat (optind w + 1)) args) by (apply drop_ge; unfold zlen in *; lia). constructor. lia.
  - subst ind pos. assert (ctrue (optpos w) = true) as -> by (apply negb_true_iff, Z.eqb_neq; lia). rewrite orb_true_r. run. cbn [with_optarg with_optind with_optpos optind argv].
    rewrite argv_at by (done || lia). rewrite Ha. run. cbn [with_optarg with_optind with_optpos optind argv]. specialize (Hcs ltac:(done)). rewrite (proj2 (Z.ltb_ge _ _)) by lia.
    rewrite Hd. assert (at_state args (optind w + 1) 0 [] (drop (S (Z.to_nat (optind w))) args)) as Hnew.
    { replace (S (Z.to_nat (optind w))) with (Z.to_nat (optind w + 1)) by lia. constructor. lia. }
    destruct opt; exists (optind w + 1), 0; (split; [by destruct w|]); (split; [done|left; lia]).
Qed.

Lemma look_up_spec c k optchar cs rest w : at_state args (optind w) (optpos w) cs rest -> optind w <= zlen args -> 0 < c -> argv w = map Some args ++ [None] -> args <> [] ->
  let '(e, (cs2, rest2)) := answer' c (take (Z.to_nat k) optchar) cs rest in
  exists ind2 pos2, look_up utf8 (zlen args) optstring c k optchar w = Ok (code' e, place ind2 pos2 (effect' e w)) /\ at_state args ind2 pos2 cs2 rest2 /\ (ind2 <= zlen args \/ missing e = true).
Proof.
  intros Hat Hle Hc Hv Hne. unfold look_up. run. rewrite at_zero. run. fold (first_is (ch "-")). fold (first_is (ch "+")). fold letters.
  pose proof (chars_reads utf8 letters letters ks Hks) as Hr. assert (length ks < S (length letters))%nat as Hlen by (apply reads_range in Hr; unfold zlen in *; lia).
  destruct (find_option_spec c (S (length letters)) ks 0 Hr Hc Hlen) as (i & d & -> & Haf). run. unfold answer, arity_of.
  assert (forall e, e = Unknown c (take (Z.to_nat k) optchar) -> exists ind2 pos2,
    (do* sput (with_optopt c) in let* o := lift (at_ letters 0) in let* err := sget opterr in
     do* if negb (o =? ch ":") && ctrue err then message (lit ": unrecognized option: ") optchar k else sret tt in sret (ch "?")) w =
    Ok (code' e, place ind2 pos2 (effect' e w)) /\ at_state args ind2 pos2 cs rest /\ (ind2 <= zlen args \/ missing e = true)) as Hunknown.
  { intros e ->. run. rewrite at_zero. run. fold colon. erewrite sbind_Ok; [|apply warn_spec; [exact Hv|exact Hne]]. exists (optind w), (optpos w). split; [|by auto].
    unfold sret, effect, code, warn. f_equal. f_equal. destruct (negb colon && _); by destruct w. }
  destruct (Z.eqb_spec c (ch ":")) as [-> |Hcol]; [rewrite orb_true_r; by apply Hunknown|]. rewrite orb_false_r.
  destruct (after c ks) as [ks2|]; [|rewrite (proj2 (Z.eqb_neq d c) Haf); by apply Hunknown]. destruct Haf as [-> Hr2]. rewrite Z.eqb_refl. cbn [negb].
  pose proof (reads_range _ _ _ _ _ Hr2) as (Hi & _). rewrite at_str by lia. run. rewrite (reads_byte letters i _ ks2 (ch ":") Hr2) by done.
  assert (exists ind2 pos2, sret c w = Ok (code' (Plain c), place ind2 pos2 (effect' (Plain c) w)) /\ at_state args ind2 pos2 cs rest /\ (ind2 <= zlen args \/ missing (Plain c) = true)) as Hplain.
  { exists (optind w), (optpos w). cbn [effect code]. rewrite place_same. by auto. }
  destruct ks2 as [|e ks2]; [done|]. destruct (Z.eqb_spec e (ch ":")) as [-> |]; [|by destruct ks2].
  assert (exists g, at_ letters (i + 1) = Ok g /\ (g =? ch ":") = match ks2 with k :: _ => k =? ch ":" | [] => false end) as (g & Hg & Eg).
  { inversion Hr2 as [|? bs ? ? ? rest' Hs Hvc E Ht]; subst. destruct (char_head utf8 bs _ Hvc) as (b & t & -> & Hb).
    pose proof (first_byte utf8 b t _ (ch ":") Hvc ltac:(done)) as Hf. rewrite Z.eqb_refl in Hf. apply Z.eqb_eq in Hf. destruct Hb as [Hb _]; [by subst b|]. injection Hb as ->.
    change (zlen [b]) with 1 in Ht. pose proof (reads_range _ _ _ _ _ Ht) as (Hi2 & _). exists (schar letters (i + 1)). split; [apply at_str; lia|]. by apply (reads_byte letters (i + 1) (zlen letters)). }
  pose proof (take_argument_spec i c k optchar _ g cs rest w Hg eq_refl Hat Hle Hv Hne) as H. rewrite Eg in H. destruct ks2 as [|e2 ks2]; [exact H|]. by destruct (e2 =? ch ":").
Qed.

Lemma place_effect i p i' p' e w : place i p (effect' e (place i' p' w)) = place i p (effect' e w).
Proof. destruct w, e; try done; unfold effect, warn; cbn; by destruct (negb colon && _). Qed.

Lemma read_char_spec a pos : cstring a -> 0 <= pos < zlen a -> exists k0 c0 k c, mbtowc_at utf8 a pos MB_LEN_MAX = Ok (k0, c0) /\
  (if k0 <? 0 then (1, 65533) else (k0, c0)) = (k, c) /\ read_char utf8 (drop (Z.to_nat pos) a) = (c, k) /\ 1 <= k <= zlen a - pos /\ 0 < c.
Proof.
  intros Ha Hp. destruct (mbtowc_result utf8 a pos MB_LEN_MAX Ha Hp) as (l & w & E & H); [done|]. exists l, w.
  assert (read_char utf8 (drop (Z.to_nat pos) a) = if l <? 0 then (65533, 1) else (w, l)) as Er.
  { unfold read_char. unfold mbtowc_at in *. change (Z.to_nat 0) with 0%nat. rewrite drop_0. rewrite drop_app_le in E by (unfold zlen in *; lia). by rewrite E. }
  rewrite Er. destruct H as [-> |(bs & rest & Hv & Eb & Hl)]; [by exists 1, 65533; split_and!; (done || lia)|].
  destruct (valid_char_bytes utf8 bs w Hv) as (_ & Hb & Hw). rewrite (proj2 (Z.ltb_ge l 0)) by lia. exists l, w. split_and!; try done; try lia.
  apply (f_equal zlen) in Eb. rewrite zlen_drop, zlen_app in Eb by lia. pose proof (zlen_nonneg rest). lia.
Qed.

Lemma read_option_spec a i pos w : args !! Z.to_nat i = Some a -> 1 <= i -> 1 <= pos < zlen a -> schar a 0 = ch "-" -> argv w = map Some args ++ [None] ->
  let '(e, (cs2, rest2)) := letter utf8 ks (drop (Z.to_nat pos) a) (drop (S (Z.to_nat i)) args) in
  exists ind2 pos2, read_option utf8 (zlen args) optstring a i pos w = Ok (code' e, place ind2 pos2 (effect' e w)) /\ at_state args ind2 pos2 cs2 rest2 /\ (ind2 <= zlen args \/ missing e = true).
Proof.
  intros Ha Hi Hp H0 Hv. assert (cstring a) as Hca by (by eapply Forall_lookup_1 in Hargs). unfold read_option, letter. pose proof (lookup_lt_Some _ _ _ Ha) as Hlt.
  destruct (read_char_spec a pos Hca) as (k0 & c0 & k & c & -> & Ek & -> & Hk & Hc); [lia|]. run. rewrite Ek. rewrite at_str by lia. run.
  set (w' := with_optind _ _).
  assert (at_state args (optind w') (optpos w') (drop (Z.to_nat k) (drop (Z.to_nat pos) a)) (drop (S (Z.to_nat i)) args)) as Hat.
  { rewrite drop_drop. replace (Z.to_nat pos + Z.to_nat k)%nat with (Z.to_nat (pos + k)) by lia. unfold w'. cbn [with_optind with_optpos optind optpos].
    destruct (decide (pos + k = zlen a)) as [E|].
    - rewrite E, name_end. change (0 =? 0) with true. cbv iota. rewrite drop_ge by (unfold zlen in *; lia). replace (S (Z.to_nat i)) with (Z.to_nat (i + 1)) by lia. constructor. lia.
    - destruct (drop (Z.to_nat (pos + k)) a) as [|b t] eqn:Ed; [apply (f_equal length) in Ed; rewrite length_drop in Ed; cbn in Ed; unfold zlen in *; lia|].
      rewrite (schar_rest a (pos + k) b t) by (done || lia). assert (0 < b).
      { apply (Forall_drop _ (Z.to_nat (pos + k))) in Hca. rewrite Ed in Hca. apply Forall_cons in Hca as [? _]. lia. }
      rewrite (proj2 (Z.eqb_neq b 0)) by lia. apply (Inside _ _ _ a); try done; lia. }
  pose proof (look_up_spec c k (drop (Z.to_nat pos) a) _ _ w' Hat) as H. destruct (answer' _ _ _ _) as [e [cs2 rest2]].
  destruct H as (ind2 & pos2 & E & H); [|done|done|by destruct args|].
  { unfold w'. cbn [with_optind optind]. unfold zlen in *. destruct (_ =? 0); lia. }
  exists ind2, pos2. split; [|done]. rewrite E. do 2 f_equal. apply place_effect.
Qed.

(** The arguments by their first characters. *)
Lemma kind_group a cs : kind_of a = Group cs -> a = ch "-" :: cs /\ cs <> [] /\ cs <> [ch "-"].
Proof.
  unfold kind_of. destruct a as [|x [|y r]]; try done. destruct (Z.eqb_spec x (ch "-")) as [-> |]; [|done]. destruct (Z.eqb_spec y (ch "-")) as [-> |Hy].
  - case_bool_decide; intros [= <-]. split_and!; try done. by intros [=].
  - intros [= <-]. split_and!; try done. by intros [=].
Qed.
Lemma kind_end a : kind_of a = End -> a = [ch "-"; ch "-"].
Proof. unfold kind_of. destruct a as [|x [|y r]]; try done. destruct (Z.eqb_spec x (ch "-")) as [-> |]; [|done]. destruct (Z.eqb_spec y (ch "-")) as [-> |]; [|done]. by case_bool_decide; subst. Qed.
Lemma kind_other a : kind_of a = Other -> a = [] \/ a = [ch "-"] \/ schar a 0 <> ch "-".
Proof.
  unfold kind_of. destruct a as [|x [|y r]]; [by auto|..].
  - destruct (decide (x = ch "-")) as [-> |]; by auto.
  - destruct (Z.eqb_spec x (ch "-")) as [-> |]; [by destruct (_ && _)|by auto].
Qed.

Lemma restart_spec w : optind w <> 0 -> optreset w = 0 -> restart w = Ok (tt, w).
Proof. intros Hi Hr. unfold restart. run. rewrite Hr, (proj2 (Z.eqb_neq _ 0) Hi). done. Qed.

(** The letter of [a] at [pos], behind the checks of its first characters. *)
Lemma getopt_letter a i pos w : args !! Z.to_nat i = Some a -> optind w = i -> 1 <= i -> optreset w = 0 -> (if optpos w =? 0 then 1 else optpos w) = pos ->
  1 <= pos < zlen a -> a <> [ch "-"; ch "-"] -> schar a 0 = ch "-" -> argv w = map Some args ++ [None] ->
  getopt utf8 (zlen args) optstring w = read_option utf8 (zlen args) optstring a i pos w.
Proof.
  intros Ha Hi H1 Hr Hp Hpos Hne H0 Hv. assert (cstring a) as Hca by (by eapply Forall_lookup_1 in Hargs). unfold getopt.
  rewrite (sbind_Ok _ _ _ _ _ (restart_spec w ltac:(lia) Hr)). run. pose proof (lookup_lt_Some _ _ _ Ha) as Hlt. rewrite (proj2 (Z.leb_gt _ _)) by (unfold zlen; lia). run.
  rewrite argv_at by (done || (unfold zlen; lia)). rewrite Hi, Ha. run. rewrite at_zero, H0. run. rewrite Z.eqb_refl. cbn [negb]. rewrite at_str by lia. run.
  destruct a as [|x [|y r]]; [done|unfold zlen in Hpos; cbn in Hpos; lia|]. change (schar (x :: y :: r) 1) with y. apply Forall_cons in Hca as [_ [Hy Hca]%Forall_cons].
  rewrite (proj2 (Z.eqb_neq y 0)) by lia. destruct (Z.eqb_spec y (ch "-")) as [-> |].
  - rewrite at_str by (unfold zlen; cbn [length]; lia). run. change (schar (x :: ch "-" :: r) 2) with (schar r 0). destruct r as [|z r]; [change (schar [x; ch "-"] 0) with x in H0; congruence|].
    change (schar (z :: r) 0) with z. apply Forall_cons in Hca as [Hz _]. rewrite (proj2 (Z.eqb_neq z 0)) by lia. run.
    by destruct (Z.eqb_spec (optpos w) 0) as [-> |]; subst.
  - run. change (1 =? 0) with false. cbv iota. run. by destruct (Z.eqb_spec (optpos w) 0) as [-> |]; subst.
Qed.

Notation step' := (step utf8 in_order ks).

Lemma getopt_step cs rest w : at_state args (optind w) (optpos w) cs rest -> argv w = map Some args ++ [None] -> args <> [] -> optreset w = 0 ->
  let '(e, (cs2, rest2)) := step' cs rest in
  exists ind2 pos2, getopt utf8 (zlen args) optstring w = Ok (code' e, place ind2 pos2 (effect' e w)) /\ at_state args ind2 pos2 cs2 rest2.
Proof.
  intros Hat Hv Hne Hr. pose proof (at_state_range _ _ _ _ Hat) as (Hi & _ & _). inversion Hat as [ind Hind E1 E2 E3 E4|ind pos a b cs' Hind Hpos Ha Hd H0 E1 E2 E3 E4]; subst cs rest.
  2:{ subst ind pos. cbn [step]. assert (optpos w < zlen a) as Hlt by (apply (f_equal length) in Hd; rewrite length_drop in Hd; cbn in Hd; unfold zlen; lia).
    rewrite (getopt_letter a (optind w) (optpos w) w); try done; [|by rewrite (proj2 (Z.eqb_neq _ 0)) by lia|lia|intros ->; unfold zlen in Hlt; cbn in Hlt; lia].
    pose proof (read_option_spec a (optind w) (optpos w) w Ha Hi ltac:(lia) H0 Hv) as H. rewrite Hd in H. destruct (letter _ _ _ _) as [e [cs2 rest2]]. destruct H as (i2 & p2 & E & H & _). by exists i2, p2. }
  destruct (Z.lt_ge_cases (optind w) (zlen args)) as [Hlt|Hge].
  2:{ rewrite drop_ge by (unfold zlen in *; lia). cbn [step]. unfold getopt. rewrite (sbind_Ok _ _ _ _ _ (restart_spec w ltac:(lia) Hr)). run.
    rewrite (proj2 (Z.leb_le _ _)) by lia. exists (optind w), 0. split; [by rewrite E2, place_same|]. replace (@nil (list Z)) with (drop (Z.to_nat (optind w)) args) by (apply drop_ge; unfold zlen in *; lia). by constructor. }
  destruct (lookup_lt_is_Some_2 args (Z.to_nat (optind w))) as (a & Ha); [unfold zlen in *; lia|]. rewrite (drop_S _ _ _ Ha). cbn [step].
  assert (at_state args (optind w + 1) 0 [] (drop (S (Z.to_nat (optind w))) args)) as Hnext.
  { replace (S (Z.to_nat (optind w))) with (Z.to_nat (optind w + 1)) by lia. constructor. lia. }
  destruct (kind_of a) as [cs| |] eqn:Ek.
  - apply kind_group in Ek as (-> & Hcs & Hend). assert (1 < zlen (ch "-" :: cs)) by (rewrite zlen_cons; destruct cs; [done|rewrite zlen_cons; pose proof (zlen_nonneg cs); lia]).
    rewrite (getopt_letter (ch "-" :: cs) (optind w) 1 w); try done; [|by rewrite <- E2|intros [= ->]; done].
    pose proof (read_option_spec (ch "-" :: cs) (optind w) 1 w Ha Hi ltac:(lia) eq_refl Hv) as H0. change (drop (Z.to_nat 1) (ch "-" :: cs)) with cs in H0.
    destruct (letter _ _ _ _) as [e [cs2 rest2]]. destruct H0 as (i2 & p2 & E & H0 & _). by exists i2, p2.
  - apply kind_end in Ek as ->. exists (optind w + 1), 0. split; [|done]. unfold getopt. rewrite (sbind_Ok _ _ _ _ _ (restart_spec w ltac:(lia) Hr)). run.
    rewrite (proj2 (Z.leb_gt _ _)) by lia. run. rewrite argv_at, Ha by (done || lia). run. cbn [code effect]. by rewrite place_ind.
  - unfold getopt. rewrite (sbind_Ok _ _ _ _ _ (restart_spec w ltac:(lia) Hr)). run. rewrite (proj2 (Z.leb_gt _ _)) by lia. run. rewrite argv_at, Ha by (done || lia). run.
    rewrite at_zero. run. assert (exists ind2 pos2, sret (-1) w = Ok (code' Stop, place ind2 pos2 (effect' Stop w)) /\ at_state args ind2 pos2 [] (a :: drop (S (Z.to_nat (optind w))) args)) as Hstop.
    { exists (optind w), 0. split; [by rewrite E2, place_same|]. rewrite <- (drop_S _ _ _ Ha). by constructor. }
    destruct (Z.eqb_spec (schar a 0) (ch "-")) as [E|Hn]; cbn [negb].
    + rewrite andb_false_r. apply kind_other in Ek as [-> |[-> |]]; try done.
    + rewrite andb_true_r. run. rewrite at_zero. run. fold (first_is (ch "-")). fold in_order. destruct in_order; [|done]. run. exists (optind w + 1), 0. split; [|done]. cbn [code effect]. by rewrite place_ind.
Qed.
End Calls.

(** * The promise *)

(** C33: a call of [getopt], between arguments or behind a letter of a group, is one step of the
    parser: it returns the code of the event and changes [optarg], [optopt] and the
    messages as the event says; [optind] and [optpos] are at the parser's new
    state.  Letters with required and optional arguments, unknown letters and missing
    arguments are included, in both locales and for every argument vector. *)
Theorem getopt_refines utf8 optstring ks args cs rest w :
  cstring optstring -> chars utf8 (letters optstring) ks -> Forall cstring args -> args <> [] ->
  argv w = map Some args ++ [None] -> optreset w = 0 -> at_state args (optind w) (optpos w) cs rest ->
  let '(e, (cs2, rest2)) := step utf8 (in_order optstring) ks cs rest in
  exists ind2 pos2, getopt utf8 (zlen args) optstring w = Ok (code (colon optstring) e, place ind2 pos2 (effect (colon optstring) (prog args) e w)) /\
    at_state args ind2 pos2 cs2 rest2.
Proof. intros Hopt Hks Hargs Hne Hv Hr Hat. by apply getopt_step. Qed.

(** [prog -vofile -x], where [o] has an argument, behind the letter [v] *)
Lemma getopt_refines_witness : exists w, getopt true 3 (lit "vo:") (start [lit "prog"; lit "-vofile"; lit "-x"]) = Ok (ch "v", w) /\
  exists ind2 pos2, getopt true 3 (lit "vo:") w = Ok (ch "o", place ind2 pos2 (with_optarg (Some (lit "file")) w)) /\
    at_state [lit "prog"; lit "-vofile"; lit "-x"] ind2 pos2 [] [lit "-x"].
Proof.
  eexists. split; [vm_compute; reflexivity|].
  refine (getopt_refines true (lit "vo:") (lit "vo:") [lit "prog"; lit "-vofile"; lit "-x"] (lit "ofile") [lit "-x"] _ _ _ _ _ _ _ _).
  - repeat constructor.
  - apply ascii_chars. repeat constructor.
  - repeat constructor.
  - discriminate.
  - reflexivity.
  - reflexivity.
  - apply (Inside [lit "prog"; lit "-vofile"; lit "-x"] 1 2 (lit "-vofile") (ch "o") (lit "file")); reflexivity || lia.
Defined.
