(* ===== verification/GetoptLong.v ===== *)
(** Long options and the order of the arguments.

    [getopt_long] finds the options behind operands and moves them before these.  The
    theorems show which option a name stands for, that one call reports the
    next option, and that the calls leave the options in front of the operands, both in
    their order. *)

From Stdlib Require Import Ascii String.
From S2P Require Import Prelude Memory Multibyte Intscan IntscanSpec StringsScan StringsSpec Printf PrintfSpec Inet InetSpec Fnmatch FnmatchSpec FnmatchMatch FnmatchPath Getopt GetoptSpec.
Import Multibyte.

(** * Moving arguments *)

Lemma zget_mid {A} (a : list A) x r : zget (a ++ x :: r) (zlen a) = Ok x.
Proof. unfold zget. pose proof (zlen_nonneg a). rewrite (proj2 (Z.leb_le 0 _)) by lia. unfold zlen. by rewrite Nat2Z.id, list_lookup_middle. Qed.
Lemma zset_mid {A} (a : list A) x y r : zset (a ++ x :: r) (zlen a) y = Ok (a ++ y :: r).
Proof.
  unfold zset. pose proof (zlen_nonneg a). pose proof (zlen_nonneg r). assert ((0 <=? zlen a) && (zlen a <? zlen (a ++ x :: r)) = true) as ->.
  { apply andb_true_iff. split; [apply Z.leb_le; lia|]. apply Z.ltb_lt. rewrite zlen_app, zlen_cons. lia. }
  f_equal. unfold zlen. rewrite Nat2Z.id. by rewrite insert_app_r_alt, Nat.sub_diag by lia.
Qed.

Lemma shift_up_spec pre mid : forall x post fuel, (length mid < fuel)%nat -> exists y, shift_up fuel (pre ++ mid ++ x :: post) (zlen (pre ++ mid)) (zlen pre) = Ok (pre ++ y :: mid ++ post).
Proof.
  induction mid as [|m mid IH] using rev_ind; intros x post fuel Hf; (destruct fuel as [|fuel]; [lia|]); cbn [shift_up].
  - rewrite app_nil_r, Z.ltb_irrefl. by exists x.
  - rewrite length_app in Hf. cbn in Hf. rewrite app_assoc, zlen_app. change (zlen [m]) with 1. rewrite (proj2 (Z.ltb_lt _ _)) by (rewrite zlen_app; pose proof (zlen_nonneg mid); lia).
    replace (zlen (pre ++ mid) + 1 - 1) with (zlen (pre ++ mid)) by lia. replace (pre ++ (mid ++ [m]) ++ x :: post) with ((pre ++ mid) ++ m :: x :: post) by (by rewrite <- !app_assoc).
    rewrite zget_mid. cbn [obind]. replace ((pre ++ mid) ++ m :: x :: post) with (((pre ++ mid) ++ [m]) ++ x :: post) by (by rewrite <- !app_assoc).
    replace (zlen (pre ++ mid) + 1) with (zlen ((pre ++ mid) ++ [m])) by (rewrite (zlen_app (pre ++ mid)); done). rewrite zset_mid. cbn [obind].
    replace (((pre ++ mid) ++ [m]) ++ m :: post) with (pre ++ mid ++ m :: m :: post) by (by rewrite <- !app_assoc). destruct (IH m (m :: post) fuel ltac:(lia)) as (y & ->).
    exists y. by rewrite <- app_assoc.
Qed.

Lemma permute_spec pre mid x post : permute (pre ++ mid ++ x :: post) (zlen pre) (zlen (pre ++ mid)) = Ok (pre ++ x :: mid ++ post).
Proof.
  unfold permute. rewrite app_assoc, zget_mid. cbn [obind]. rewrite <- app_assoc. destruct (shift_up_spec pre mid x post (S (length (pre ++ mid ++ x :: post)))) as (y & ->).
  { rewrite !length_app. cbn. lia. }
  cbn [obind]. by rewrite zset_mid.
Qed.

(** [n] turns move the last [n] of them to the front. *)
Lemma permute_loop_spec pre post con : forall ops, permute_loop (length con) (pre ++ ops ++ con ++ post) (zlen pre) (zlen pre + zlen ops + zlen con - 1) = Ok (pre ++ con ++ ops ++ post).
Proof.
  induction con as [|x con IH] using rev_ind; intros ops; [done|]. rewrite length_app, Nat.add_comm. cbn [length Nat.add permute_loop].
  replace (pre ++ ops ++ (con ++ [x]) ++ post) with (pre ++ (ops ++ con) ++ x :: post) by (by rewrite <- !app_assoc).
  replace (zlen pre + zlen ops + zlen (con ++ [x]) - 1) with (zlen (pre ++ ops ++ con)) by (rewrite !zlen_app; change (zlen [x]) with 1; lia).
  rewrite permute_spec. cbn [obind]. specialize (IH (x :: ops)). rewrite zlen_cons in IH.
  replace (pre ++ x :: (ops ++ con) ++ post) with (pre ++ (x :: ops) ++ con ++ post) by (cbn; by rewrite <- !app_assoc).
  replace (zlen (pre ++ ops ++ con)) with (zlen pre + (1 + zlen ops) + zlen con - 1) by (rewrite !zlen_app; lia). rewrite IH. cbn. by rewrite <- !app_assoc.
Qed.

(** * The option a name stands for *)

Inductive search : Type := Found (i : Z) (o : option_) | NotFound | Ambiguous.

Section Names.
Context (key : list Z).

Fixpoint exact (os : list option_) (i : Z) : option (Z * option_) :=
  match os with
  | [] => None
  | o :: os => if bool_decide (name o = key) then Some (i, o) else exact os (i + 1)
  end.
Fixpoint abbreviated (os : list option_) (i : Z) : list (Z * option_) :=
  match os with
  | [] => []
  | o :: os => if bool_decide (key `prefix_of` name o) then (i, o) :: abbreviated os (i + 1) else abbreviated os (i + 1)
  end.

(** The option with that name, or the only one whose name starts with it. *)
Definition find_long (os : list option_) : search :=
  match exact os 0 with
  | Some (i, o) => Found i o
  | None => match abbreviated os 0 with [] => NotFound | [(i, o)] => Found i o | _ => Ambiguous end
  end.

Context (a : list Z) (tl : list Z) (Ha : cstring a) (Hkey : Forall (fun c => c <> ch "=") key) (Hdrop : drop 2 a = key ++ tl) (Htl : tl = [] \/ exists v, tl = ch "=" :: v).

Lemma name_loop_spec nm : cstring nm -> forall key' fuel opt n, 0 <= opt <= zlen a -> 0 <= n <= zlen nm -> drop (Z.to_nat opt) a = key' ++ tl -> Forall (fun c => c <> ch "=") key' -> (length key' < fuel)%nat ->
  if bool_decide (key' `prefix_of` drop (Z.to_nat n) nm) then name_loop fuel a nm opt n = Ok (opt + zlen key', n + zlen key')
  else exists opt' n' c, name_loop fuel a nm opt n = Ok (opt', n') /\ at_ a opt' = Ok c /\ c <> 0 /\ c <> ch "=".
Proof.
  intros Hnm. induction key' as [|c key' IH]; intros fuel opt n Ho Hn Ed Hk Hf; (destruct fuel as [|fuel]; [cbn in Hf; lia|]); cbn [name_loop].
  - rewrite bool_decide_true by apply prefix_nil. rewrite at_head by done. rewrite Ed. cbn [obind app]. change (zlen []) with 0. rewrite !Z.add_0_r. by destruct Htl as [-> |(v & ->)].
  - apply Forall_cons in Hk as [Hc Hk]. cbn [app] in Ed. assert (0 < c < 256) as Hc0 by (apply (Forall_drop _ (Z.to_nat opt)) in Ha; rewrite Ed in Ha; by apply Forall_cons in Ha as [? _]).
    assert (opt < zlen a) as Hlt by (apply (f_equal length) in Ed; rewrite length_drop in Ed; cbn in Ed; unfold zlen; lia).
    assert (at_ a opt = Ok c) as Eat by (rewrite at_head by done; by rewrite Ed). rewrite Eat. cbn [obind]. rewrite (proj2 (Z.eqb_neq c 0)), (proj2 (Z.eqb_neq c _) Hc) by lia. cbn [orb].
    rewrite at_head by done. cbn [obind]. assert (drop (Z.to_nat (opt + 1)) a = key' ++ tl) as Ed'.
    { replace (Z.to_nat (opt + 1)) with (Z.to_nat opt + 1)%nat by lia. by rewrite <- drop_drop, Ed. }
    destruct (drop (Z.to_nat n) nm) as [|d nm'] eqn:En.
    + rewrite bool_decide_false by apply prefix_nil_not. change (schar [] 0) with 0. rewrite (proj2 (Z.eqb_neq c 0)) by lia. exists opt, n, c. split_and!; try done. lia.
    + change (schar (d :: nm') 0) with d. assert (n < zlen nm) by (apply (f_equal length) in En; rewrite length_drop in En; cbn in En; unfold zlen; lia).
      assert (drop (Z.to_nat (n + 1)) nm = nm') as En'. { replace (Z.to_nat (n + 1)) with (Z.to_nat n + 1)%nat by lia. by rewrite <- drop_drop, En. }
      destruct (Z.eqb_spec c d) as [-> |Hne].
      * specialize (IH fuel (opt + 1) (n + 1) ltac:(lia) ltac:(lia) Ed' Hk ltac:(cbn in Hf; lia)). rewrite En' in IH.
        rewrite (bool_decide_ext (d :: key' `prefix_of` d :: nm') (key' `prefix_of` nm')) by (split; [apply prefix_cons_inv_2|apply prefix_cons]).
        destruct (bool_decide _); [|exact IH]. rewrite IH, zlen_cons. do 2 f_equal; lia.
      * rewrite bool_decide_false by (intros Hp; by apply prefix_cons_inv_1 in Hp). exists opt, n, c. split_and!; try done. lia.
Qed.

Lemma long_loop_spec os : Forall (fun o => cstring (name o)) os -> schar a 1 = ch "-" -> 2 <= zlen a -> forall i cnt found,
  long_loop a os i cnt found = Ok match exact os i with
    | Some (j, _) => (1, Some (2 + zlen key, j))
    | None => (cnt + zlen (abbreviated os i), match last (abbreviated os i) with Some (j, _) => Some (2 + zlen key, j) | None => found end)
    end.
Proof.
  intros Hos H1 H2. induction Hos as [|o os Ho _ IH]; intros i cnt found; cbn [long_loop exact abbreviated].
  { change (zlen []) with 0. by rewrite Z.add_0_r. }
  rewrite at_str by lia. cbn [obind]. rewrite H1, Z.eqb_refl.
  assert (length key < S (length a))%nat as Hf by (apply (f_equal length) in Hdrop; rewrite length_drop, length_app in Hdrop; lia).
  pose proof (name_loop_spec (name o) Ho key (S (length a)) 2 0 ltac:(lia) ltac:(pose proof (zlen_nonneg (name o)); lia) Hdrop Hkey Hf) as Hn. change (drop (Z.to_nat 0) (name o)) with (name o) in Hn.
  case_bool_decide as Hpre.
  - rewrite Hn. cbn [obind]. assert (zlen a = 2 + zlen key + zlen tl) as Hlen. { apply (f_equal length) in Hdrop. rewrite length_drop, length_app in Hdrop. unfold zlen in *. lia. }
    pose proof (zlen_nonneg tl). pose proof (zlen_nonneg key). rewrite at_head by lia. assert (drop (Z.to_nat (2 + zlen key)) a = tl) as ->.
    { replace (Z.to_nat (2 + zlen key)) with (2 + length key)%nat by (unfold zlen; lia). by rewrite <- drop_drop, Hdrop, drop_app_length. }
    cbn [obind]. assert (negb (schar tl 0 =? 0) && negb (schar tl 0 =? ch "=") = false) as -> by (by destruct Htl as [-> |(v & ->)]).
    destruct Hpre as [r Er]. rewrite at_head by (rewrite Er, zlen_app; pose proof (zlen_nonneg r); lia). replace (Z.to_nat (0 + zlen key)) with (length key) by (unfold zlen; lia).
    rewrite Er at 1. rewrite drop_app_length. cbn [obind]. destruct r as [|c r].
    + rewrite bool_decide_true by (by rewrite Er, app_nil_r). done.
    + rewrite Er in Ho. apply Forall_app in Ho as [_ [Hc _]%Forall_cons]. change (schar (c :: r) 0) with c. rewrite (proj2 (Z.eqb_neq c 0)) by lia.
      rewrite bool_decide_false by (rewrite Er; intros E; apply (f_equal length) in E; rewrite length_app in E; cbn in E; lia).
      rewrite IH. f_equal. destruct (exact os (i + 1)) as [[j ?]|]; [done|]. rewrite zlen_cons. f_equal; [lia|]. rewrite (last_cons (i, o)). destruct (last (abbreviated os (i + 1))) as [[]|] eqn:El; done.
  - destruct Hn as (opt' & n' & c & -> & Ec & Hc & Hc'). cbn [obind]. rewrite Ec. cbn [obind]. rewrite (proj2 (Z.eqb_neq c 0) Hc), (proj2 (Z.eqb_neq c _) Hc'). cbn [negb andb].
    rewrite bool_decide_false by (intros E; apply Hpre; by rewrite E). apply IH.
Qed.
End Names.

(** * What a call reports *)

Inductive levent : Type :=
| Short (e : event)
| Long (i : Z) (o : option_) (arg : option (list Z))
| Extra (o : option_)
| Lacking (o : option_)
| NoOption (t : list Z)
| Several (t : list Z).

(** A name and the value behind its first equals sign. *)
Fixpoint split_eq (t : list Z) : list Z * option (list Z) :=
  match t with
  | [] => ([], None)
  | c :: t => if c =? ch "=" then ([], Some t) else let '(k, v) := split_eq t in (c :: k, v)
  end.

Lemma split_eq_spec t : let '(k, v) := split_eq t in
  t = k ++ match v with Some v => ch "=" :: v | None => [] end /\ Forall (fun c => c <> ch "=") k.
Proof.
  induction t as [|c t IH]; cbn [split_eq]; [by split; constructor|]. destruct (Z.eqb_spec c (ch "=")) as [-> |]; [by split; [|constructor]|].
  destruct (split_eq t) as [k v]. destruct IH as [-> H]. split; [done|by constructor].
Qed.

Section Long.
Context (os : list option_).

(** The long option [t], with [rest] behind it, and how many arguments it takes. *)
Definition long_answer (t : list Z) (rest : list (list Z)) : levent * nat :=
  let '(key, v) := split_eq t in
  match find_long key os with
  | NotFound => (NoOption t, 1%nat)
  | Ambiguous => (Several t, 1%nat)
  | Found i o =>
      match v with
      | Some v => if has_arg o =? 0 then (Extra o, 1%nat) else (Long i o (Some v), 1%nat)
      | None =>
          if has_arg o =? required_argument then
            match rest with x :: _ => (Long i o (Some x), 2%nat) | [] => (Lacking o, 1%nat) end
          else (Long i o None, 1%nat)
      end
  end.

Context (has_idx colon : bool) (prog : list Z).

Definition accept (i : Z) (o : option_) (w : state) : state :=
  let w := if has_idx then with_idx i w else w in
  match flag o with Some f => with_cells (<[f := val o]> (cells w)) w | None => w end.

Definition leffect (e : levent) (w : state) : state :=
  match e with
  | Short e => effect colon prog e w
  | Long i o arg => accept i o (with_optarg arg w)
  | Extra o => warn colon prog (lit ": option does not take an argument: ") (name o) (with_optopt (val o) w)
  | Lacking o => warn colon prog (lit ": option requires an argument: ") (name o) (with_optopt (val o) (with_optarg None w))
  | NoOption t => warn colon prog (lit ": unrecognized option: ") t (with_optopt 0 w)
  | Several t => warn colon prog (lit ": option is ambiguous: ") t (with_optopt 0 w)
  end.

Definition lcode (e : levent) : Z :=
  match e with
  | Short e => code colon e
  | Long _ o _ => match flag o with Some _ => 0 | None => val o end
  | Lacking _ => if colon then ch ":" else ch "?"
  | Extra _ | NoOption _ | Several _ => ch "?"
  end.
End Long.

Section Core.
Context (utf8 : bool) (optstring : list Z) (args : list (list Z)) (os : list option_) (has_idx : bool).
Context (Hargs : Forall cstring args) (Hos : Forall (fun o => cstring (name o)) os) (Hne : args <> []).
Notation colon' := (colon optstring).
Notation prog' := (prog args).
Notation effect' := (leffect has_idx colon' prog').
Notation code' := (lcode colon').

Lemma colon_at : at_ optstring (cbool ((schar optstring 0 =? ch "+") || (schar optstring 0 =? ch "-"))) = Ok (schar (letters optstring) 0).
Proof.
  unfold letters, first_is. rewrite orb_comm. destruct optstring as [|c l]; [done|]. change (schar (c :: l) 0) with c.
  destruct ((c =? ch "-") || (c =? ch "+")); [|done]. cbn [cbool]. rewrite at_str by (rewrite zlen_cons; pose proof (zlen_nonneg l); lia). by destruct l.
Qed.

Lemma message_all text (t : list Z) w : argv w = map Some args ++ [None] -> message text t (zlen t) w = Ok (tt, with_messages (messages w ++ [prog' ++ text ++ t]) w).
Proof. intros Hv. erewrite message_spec by done. unfold zlen. by rewrite Nat2Z.id, firstn_all. Qed.

Lemma take_long_spec a i o j opt w v : argv w = map Some args ++ [None] -> args !! Z.to_nat j = Some a -> 1 <= j -> optind w = j -> 0 <= opt <= zlen a -> optarg w = None ->
  drop (Z.to_nat opt) a = match v with Some v => ch "=" :: v | None => [] end ->
  let '(e, n) := match v with
    | Some v => if has_arg o =? 0 then (Extra o, 1) else (Long i o (Some v), 1)
    | None => if has_arg o =? required_argument then match drop (S (Z.to_nat j)) args with x :: _ => (Long i o (Some x), 2) | [] => (Lacking o, 1) end else (Long i o None, 1)
    end in
  take_long a has_idx colon' o i opt w = Ok (code' e, with_optind (j + n) (effect' e w)).
Proof.
  intros Hv Ha Hj Hi Ho Harg Ed. pose proof (lookup_lt_Some _ _ _ Ha) as Hlt. unfold take_long. run. rewrite at_head, Ed, Hi by done. run. destruct v as [v|].
  - change (schar (ch "=" :: v) 0) with (ch "="). rewrite Z.eqb_refl. unfold ctrue. rewrite negb_involutive. destruct (has_arg o =? 0).
    + run. cbn [with_optind with_optopt opterr]. unfold leffect, warn. cbn [with_optopt opterr]. destruct colon'; cbn [negb orb andb]; [by destruct w|]. unfold ctrue. destruct (opterr w =? 0); cbn [negb]; [by destruct w|].
      erewrite sbind_Ok; [|by apply message_all]. by destruct w.
    + replace (Z.to_nat (opt + 1)) with (Z.to_nat opt + 1)%nat by lia. rewrite <- drop_drop, Ed. run. unfold leffect, accept, lcode. destruct has_idx, (flag o); run; by destruct w.
  - change (schar [] 0 =? ch "=") with false. cbv iota. destruct (has_arg o =? required_argument).
    + run. cbn [with_optind argv]. rewrite (argv_at args) by (done || (unfold zlen; lia)). run. replace (Z.to_nat (j + 1)) with (S (Z.to_nat j)) by lia.
      destruct (args !! S (Z.to_nat j)) as [x|] eqn:Ex.
      * rewrite (drop_S _ _ _ Ex). run. unfold leffect, accept, lcode. destruct has_idx, (flag o); run; by destruct w.
      * rewrite drop_ge by (by apply lookup_ge_None_1). run. cbn [with_optind with_optopt with_optarg opterr]. unfold leffect, warn. cbn [with_optopt with_optarg opterr].
        destruct colon' eqn:Ec; cbn [negb orb andb lcode]; [by destruct w|]. destruct (ctrue (opterr w)); cbn [negb]; [|by destruct w].
        erewrite sbind_Ok; [|by apply message_all]. by destruct w.
    + unfold leffect, accept, lcode. assert (with_optarg None w = w) as -> by (destruct w; cbn in Harg; by subst). destruct has_idx, (flag o); run; by destruct w.
Qed.

(** The numbers of the options found are their places. *)
Lemma exact_at key l : forall i j o, exact key l i = Some (j, o) -> i <= j /\ l !! Z.to_nat (j - i) = Some o.
Proof.
  induction l as [|x l IH]; intros i j o; cbn [exact]; [done|]. case_bool_decide; [intros [= <- <-]; by rewrite Z.sub_diag|].
  intros H'. apply IH in H' as [Hj E]. split; [lia|]. by replace (Z.to_nat (j - i)) with (S (Z.to_nat (j - (i + 1)))) by lia.
Qed.
Lemma abbreviated_at key l : forall i j o, (j, o) ∈ abbreviated key l i -> i <= j /\ l !! Z.to_nat (j - i) = Some o.
Proof.
  induction l as [|x l IH]; intros i j o; cbn [abbreviated]; [by intros H%not_elem_of_nil|].
  assert ((j, o) ∈ abbreviated key l (i + 1) -> i <= j /\ (x :: l) !! Z.to_nat (j - i) = Some o) as Hrest.
  { intros H. apply IH in H as [Hj E]. split; [lia|]. by replace (Z.to_nat (j - i)) with (S (Z.to_nat (j - (i + 1)))) by lia. }
  case_bool_decide; [|done]. intros [[= -> ->]|H']%elem_of_cons; [by rewrite Z.sub_diag|by apply Hrest].
Qed.

Lemma core_long a t j w : argv w = map Some args ++ [None] -> args !! Z.to_nat j = Some a -> 1 <= j -> optind w = j -> a = ch "-" :: ch "-" :: t -> t <> [] ->
  let '(e, n) := long_answer os t (drop (S (Z.to_nat j)) args) in
  __getopt_long_core utf8 (zlen args) optstring (Some os) has_idx false w = Ok (code' e, with_optind (j + Z.of_nat n) (effect' e (with_optarg None w))).
Proof.
  intros Hv Ha Hj Hi Ea Ht. assert (cstring a) as Hca by (by eapply Forall_lookup_1 in Hargs). pose proof (lookup_lt_Some _ _ _ Ha) as Hlt.
  assert (2 <= zlen a) as Hz by (rewrite Ea, !zlen_cons; pose proof (zlen_nonneg t); lia). assert (drop 2 a = t) as Ed by (by rewrite Ea).
  assert (at_ a 0 = Ok (ch "-") /\ at_ a 1 = Ok (ch "-") /\ schar a 1 = ch "-") as (E0 & E1 & Es1) by (by rewrite Ea).
  assert (exists z, at_ a 2 = Ok z /\ z <> 0) as (z & E2 & Hz0).
  { rewrite Ea in Hca |- *. destruct t as [|z t]; [done|]. exists z. split; [done|]. apply Forall_inv_tail, Forall_inv_tail, Forall_inv in Hca. lia. }
  unfold __getopt_long_core. run. cbn [with_optarg argv optind]. rewrite Hi, (argv_at args), Ha by (done || (unfold zlen; lia)). run. cbn [deref]. run. rewrite E0. run. rewrite Z.eqb_refl, E1. run.
  rewrite Z.eqb_refl, E2. run. rewrite (proj2 (Z.eqb_neq z 0) Hz0). cbn [negb andb orb]. rewrite at_zero. run. rewrite colon_at. run. fold colon'. unfold long_answer.
  pose proof (split_eq_spec t) as Hsp. destruct (split_eq t) as [key v]. destruct Hsp as [Et Hkey].
  assert (match v with Some v => ch "=" :: v | None => [] end = [] \/ exists v', match v with Some v => ch "=" :: v | None => [] end = ch "=" :: v') as Htl by (destruct v; eauto).
  rewrite (long_loop_spec key a _ Hca Hkey ltac:(by rewrite Ed) Htl os Hos Es1 Hz). run. unfold find_long.
  assert (forall i o, os !! Z.to_nat i = Some o -> 0 <= i ->
    let '(e, n) := match v with
      | Some v => if has_arg o =? 0 then (Extra o, 1%nat) else (Long i o (Some v), 1%nat)
      | None => if has_arg o =? required_argument then match drop (S (Z.to_nat j)) args with x :: _ => (Long i o (Some x), 2%nat) | [] => (Lacking o, 1%nat) end else (Long i o None, 1%nat)
      end in
    (let* (arg, i) := lift (deref (Some (2 + zlen key, i))) in let* o := lift (zget os i) in take_long a has_idx colon' o i arg) (with_optarg None w) =
      Ok (code' e, with_optind (j + Z.of_nat n) (effect' e (with_optarg None w)))) as Htake.
  { intros i o Eo Hi0. cbn [deref]. run. unfold zget at 1. rewrite (proj2 (Z.leb_le 0 i) Hi0), Eo. run. pose proof (zlen_nonneg key).
    assert (drop (Z.to_nat (2 + zlen key)) a = match v with Some v => ch "=" :: v | None => [] end) as Edv.
    { replace (Z.to_nat (2 + zlen key)) with (2 + length key)%nat by (unfold zlen; lia). by rewrite <- drop_drop, Ed, Et, drop_app_length. }
    assert (2 + zlen key <= zlen a) as Hkl. { rewrite Ea, Et, !zlen_cons, zlen_app. match goal with |- context [zlen (match v with _ => _ end)] => pose proof (zlen_nonneg (match v with Some v => ch "=" :: v | None => [] end)) end. lia. }
    pose proof (take_long_spec a i o j (2 + zlen key) (with_optarg None w) v Hv Ha Hj Hi ltac:(lia) eq_refl Edv) as H'.
    destruct v; [by destruct (has_arg o =? 0)|]. destruct (has_arg o =? required_argument); [|done]. by destruct (drop _ args). }
  assert (forall (many : bool) cnt found, cnt = (if many then 2 else 0) \/ many = true /\ 2 <= cnt ->
    (let* cnt := if (cnt =? 1) && false then
         let* (arg, _) := lift (deref found) in let* (l, _) := lift (mbtowc_at utf8 a 1 MB_LEN_MAX) in
         if arg - 1 =? l then let* b := lift (short_loop (S (length optstring)) a optstring 0 (arg - 1)) in sret (if b : bool then cnt + 1 else cnt) else sret cnt
       else sret cnt in
     if cnt =? 1 then let* (arg, i) := lift (deref found) in let* o := lift (zget os i) in take_long a has_idx colon' o i arg
     else if ch "-" =? ch "-" then
       do* sput (with_optopt 0) in let* err := sget opterr in
       do* if negb colon' && ctrue err then
           message (if ctrue cnt then lit ": option is ambiguous: " else lit ": unrecognized option: ") (drop 2 a) (zlen (drop 2 a)) else sret tt in
       do* sput (with_optind (j + 1)) in sret (ch "?")
     else getopt utf8 (zlen args) optstring) (with_optarg None w) =
    Ok (ch "?", with_optind (j + 1) (effect' (if many then Several t else NoOption t) (with_optarg None w)))) as Hnone.
  { intros many cnt found Hcnt. rewrite andb_false_r. run. assert (cnt <> 1) as Hc1 by (destruct many; lia). rewrite (proj2 (Z.eqb_neq cnt 1) Hc1), Z.eqb_refl. run. cbn [with_optopt with_optarg opterr].
    assert (ctrue cnt = many) as -> by (unfold ctrue; destruct many; destruct (Z.eqb_spec cnt 0); done || lia). unfold leffect, warn. rewrite Ed.
    destruct many; cbn [with_optopt with_optarg opterr]; (destruct (negb colon' && ctrue (opterr w)); [erewrite sbind_Ok; [|by apply message_all]|run]); by destruct w. }
  destruct (exact key os 0) as [[i o]|] eqn:Ex.
  { apply exact_at in Ex as [Hi0 Eo]. rewrite Z.sub_0_r in Eo. rewrite andb_false_r. run. change (1 =? 1) with true. cbv iota. apply (Htake i o Eo Hi0). }
  destruct (abbreviated key os 0) as [|[i o] [|y l]] eqn:Eab.
  - apply (Hnone false). by left.
  - assert ((i, o) ∈ abbreviated key os 0) as [Hi0 Eo]%abbreviated_at by (rewrite Eab; by left). rewrite Z.sub_0_r in Eo.
    change (0 + zlen [(i, o)]) with 1. cbn [last]. rewrite andb_false_r. run. change (1 =? 1) with true. cbv iota. apply (Htake i o Eo Hi0).
  - apply (Hnone true). right. split; [done|]. rewrite !zlen_cons. pose proof (zlen_nonneg l). lia.
Qed.

(** Other options are read by [getopt]. *)
Lemma core_short a j w : argv w = map Some args ++ [None] -> args !! Z.to_nat j = Some a -> 1 <= j -> optind w = j -> (schar a 1 <> ch "-" \/ a = [ch "-"; ch "-"]) ->
  __getopt_long_core utf8 (zlen args) optstring (Some os) has_idx false w = getopt utf8 (zlen args) optstring (with_optarg None w).
Proof.
  intros Hv Ha Hj Hi Hs. pose proof (lookup_lt_Some _ _ _ Ha) as Hlt. unfold __getopt_long_core. run. cbn [with_optarg argv optind].
  rewrite Hi, (argv_at args), Ha by (done || (unfold zlen; lia)). run. cbn [deref]. run. rewrite at_zero. run. destruct (Z.eqb_spec (schar a 0) (ch "-")) as [E0|]; [|by run].
  destruct a as [|x a]; [done|]. assert (1 <= zlen (x :: a)) by (rewrite zlen_cons; pose proof (zlen_nonneg a); lia). rewrite at_str by lia. run.
  destruct Hs as [Hs|[= -> ->]]; [|done]. rewrite (proj2 (Z.eqb_neq _ _) Hs). run. by rewrite andb_false_r.
Qed.
End Core.

(** * The calls *)

Section Calls.
Context (utf8 : bool) (optstring : list Z) (ks : list Z) (os : list option_) (has_idx : bool).

(** What the option [a], of which [cs] is left or nothing is read yet, reports with [r] behind it;
    the letters left, and how many arguments are done with. *)
Definition core_answer (cs a : list Z) (r : list (list Z)) : levent * (list Z * nat) :=
  let short cs := let '(e, (cs2, r2)) := letter utf8 ks cs r in
    (Short e, (cs2, match cs2 with [] => S (length r - length r2) | _ => 0%nat end)) in
  match cs, a with
  | _ :: _, _ => short cs
  | [], x :: y :: (z :: t) =>
      if y =? ch "-" then let '(e, n) := long_answer os (z :: t) r in (e, ([], n)) else short (y :: z :: t)
  | [], [x; y] => if y =? ch "-" then (Short Stop, ([], 1%nat)) else short [y]
  | [], _ => (Short Stop, ([], 0%nat))
  end.

(** [w] is behind the arguments [pre], with the operands [ops] to be moved behind what is left. *)
Record lstate (w : state) (pre ops : list (list Z)) (cs : list Z) (rest : list (list Z)) : Prop := {
  ls_argv : argv w = map Some (pre ++ ops ++ rest) ++ [None];
  ls_ind : optind w = zlen pre;
  ls_pre : pre <> [];
  ls_ops : Forall (fun a => kind_of a = Other) ops;
  ls_reset : optreset w = 0;
  ls_cs : cs = [] /\ optpos w = 0 \/
    exists a r, cs <> [] /\ rest = a :: r /\ 2 <= optpos w /\ drop (Z.to_nat (optpos w)) a = cs /\ schar a 0 = ch "-" /\ schar a 1 <> ch "-"
}.

Context (Hopt : cstring optstring) (Hks : chars utf8 (letters optstring) ks) (Hos : Forall (fun o => cstring (name o)) os).
Context (Hmode : first_is optstring (ch "-") = false /\ first_is optstring (ch "+") = false).

Lemma kind_test a : cstring a -> exists d, (if schar a 0 =? ch "-" then at_ a 1 else Ok 0) = Ok d /\ (d =? 0) = match kind_of a with Other => true | _ => false end.
Proof.
  intros Ha. destruct a as [|x [|y r]]; [by exists 0|change (schar [x] 0) with x; destruct (x =? ch "-"); by exists 0|]. change (schar (x :: y :: r) 0) with x. unfold kind_of.
  destruct (x =? ch "-"); [|by exists 0]. exists y. split; [done|]. apply Forall_inv_tail, Forall_inv in Ha. rewrite (proj2 (Z.eqb_neq y 0)) by lia. by destruct (_ && _).
Qed.

Lemma next_option_spec l : forall pre tail fuel, Forall cstring (pre ++ l ++ tail) -> Forall (fun a => kind_of a = Other) l -> (length l < fuel)%nat ->
  (tail = [] \/ exists a r, tail = a :: r /\ kind_of a <> Other) ->
  next_option fuel (zlen (pre ++ l ++ tail)) (map Some (pre ++ l ++ tail) ++ [None]) (zlen pre) = Ok match tail with [] => None | _ => Some (zlen (pre ++ l)) end.
Proof.
  induction l as [|x l IH]; intros pre tail fuel Hc Hl Hf Ht; (destruct fuel as [|fuel]; [cbn in Hf; lia|]); cbn [next_option app] in *.
  - rewrite app_nil_r. destruct Ht as [-> |(a & r & -> & Ha)]; [by rewrite app_nil_r, (proj2 (Z.leb_le _ _)) by lia|].
    assert (cstring a) as Hca by (apply Forall_app in Hc as [_ [? _]%Forall_cons]; done). rewrite (proj2 (Z.leb_gt _ _)) by (rewrite zlen_app, zlen_cons; pose proof (zlen_nonneg r); lia).
    rewrite map_app, <- app_assoc. replace (zlen pre) with (zlen (map (@Some (list Z)) pre)) at 1 by (unfold zlen; by rewrite length_map). cbn [map app]. rewrite zget_mid. cbn [obind].
    rewrite at_zero. cbn [obind]. destruct (kind_test a Hca) as (d & -> & Ed). cbn [obind]. rewrite Ed. by destruct (kind_of a).
  - apply Forall_cons in Hl as [Hx Hl]. assert (cstring x) as Hcx by (apply Forall_app in Hc as [_ [? _]%Forall_cons]; done).
    rewrite (proj2 (Z.leb_gt _ _)) by (rewrite zlen_app, zlen_cons; pose proof (zlen_nonneg (l ++ tail)); lia).
    replace (zget (map Some (pre ++ x :: l ++ tail) ++ [None]) (zlen pre)) with (Ok (Some x)).
    2:{ rewrite map_app, <- app_assoc. replace (zlen pre) with (zlen (map (@Some (list Z)) pre)) at 1 by (unfold zlen; by rewrite length_map). cbn [map app]. by rewrite zget_mid. }
    cbn [obind]. rewrite at_zero. cbn [obind]. destruct (kind_test x Hcx) as (d & -> & Ed). cbn [obind]. rewrite Ed, Hx. cbn [negb].
    specialize (IH (pre ++ [x]) tail fuel). rewrite <- !app_assoc in IH. cbn [app] in IH.
    replace (zlen (pre ++ [x])) with (zlen pre + 1) in IH by (by rewrite zlen_app). apply IH; try done. cbn in Hf. lia.
Qed.

(** No option is left. *)
Lemma getopt_long_end w pre ops rest : Forall cstring (pre ++ ops ++ rest) -> lstate w pre ops [] rest -> Forall (fun a => kind_of a = Other) rest ->
  getopt_long utf8 (zlen (pre ++ ops ++ rest)) optstring (Some os) has_idx w = Ok (-1, w).
Proof.
  intros Hc [Hv Hi Hpre Hops Hr _] Hrest. assert (1 <= zlen pre) by (destruct pre; [done|rewrite zlen_cons; pose proof (zlen_nonneg pre); lia]).
  unfold getopt_long, __getopt_long. rewrite (sbind_Ok _ _ _ _ _ (restart_spec w ltac:(lia) Hr)). run. rewrite Hi. destruct (Z.leb_spec (zlen (pre ++ ops ++ rest)) (zlen pre)) as [|Hlt]; [done|]. run.
  rewrite (argv_at (pre ++ ops ++ rest)) by (done || lia). run. destruct (lookup_lt_is_Some_2 (pre ++ ops ++ rest) (Z.to_nat (zlen pre))) as (a & ->); [unfold zlen in *; lia|].
  rewrite at_zero. run. destruct Hmode as [H1 H2]. unfold first_is in *. rewrite H1, H2. cbn [negb andb]. rewrite Hv.
  pose proof (next_option_spec (ops ++ rest) pre [] (S (length (map Some (pre ++ ops ++ rest) ++ [None])))) as Hn. rewrite !app_nil_r in Hn. rewrite Hn; [done|done|by apply Forall_app| |by left].
  rewrite !length_app, length_map, !length_app. cbn. lia.
Qed.

(** A short option without its argument, at the end. *)
Definition lmissing (e : levent) : bool := match e with Short e => missing e | _ => false end.

Lemma letter_rest cs r : let '(e, (cs2, r2)) := letter utf8 ks cs r in r2 = r \/ exists v, r = v :: r2 /\ cs2 = [].
Proof.
  unfold letter, answer. destruct (read_char utf8 cs) as [c k]. destruct (arity_of ks c) as [[]|]; [by left| |by left..].
  destruct (drop (Z.to_nat k) cs), r; (by left) || (right; by eexists).
Qed.

Lemma place_leffect i p i' p' colon prog e w : place i p (leffect has_idx colon prog e (place i' p' w)) = place i p (leffect has_idx colon prog e w).
Proof.
  destruct w, e as [[]| | | | |]; try done; unfold leffect, effect, warn, accept; cbn; try (by destruct (negb colon && _)). by destruct has_idx, (flag o).
Qed.

Lemma at_state_inv args i p cs rest : at_state args i p cs rest ->
  cs = [] /\ p = 0 /\ rest = drop (Z.to_nat i) args \/
  exists a b t, cs = b :: t /\ 2 <= p /\ args !! Z.to_nat i = Some a /\ drop (Z.to_nat p) a = b :: t /\ rest = drop (S (Z.to_nat i)) args.
Proof. destruct 1 as [i Hi|i p a b t Hi Hp Ha Hd H0]; [by left|right]. by exists a, b, t. Qed.

(** The option that is read by [getopt], at [pos]. *)
Lemma core_letter front a r pos w : Forall cstring (front ++ a :: r) -> front <> [] -> argv w = map Some (front ++ a :: r) ++ [None] -> optind w = zlen front -> optreset w = 0 ->
  (if optpos w =? 0 then 1 else optpos w) = pos -> 1 <= pos < zlen a -> schar a 0 = ch "-" -> schar a 1 <> ch "-" ->
  let '(e, (cs2, r2)) := letter utf8 ks (drop (Z.to_nat pos) a) r in
  missing e = false ->
  let n := match cs2 with [] => S (length r - length r2) | _ => 0%nat end in
  exists p, __getopt_long_core utf8 (zlen (front ++ a :: r)) optstring (Some os) has_idx false w =
      Ok (code (colon optstring) e, place (zlen front + Z.of_nat n) p (effect (colon optstring) (prog (front ++ a :: r)) e (with_optarg None w))) /\
    (n <= S (length r))%nat /\ (cs2 = [] /\ p = 0 \/ cs2 <> [] /\ n = 0%nat /\ 2 <= p /\ drop (Z.to_nat p) a = cs2).
Proof.
  intros Hc Hf Hv Hi Hr Hp Hpos H0 H1. set (args := front ++ a :: r) in *.
  assert (1 <= zlen front) as Hz by (destruct front; [done|rewrite zlen_cons; pose proof (zlen_nonneg front); lia]). assert (Z.to_nat (zlen front) = length front) as Hn by (unfold zlen; lia).
  assert (args !! Z.to_nat (zlen front) = Some a) as Ha by (rewrite Hn; by apply list_lookup_middle). assert (drop (S (Z.to_nat (zlen front))) args = r) as Hd.
  { rewrite Hn. unfold args. rewrite drop_app_ge by lia. by replace (S (length front) - length front)%nat with 1%nat by lia. }
  assert (zlen args = zlen front + 1 + zlen r) as Hlen by (unfold args; rewrite zlen_app, zlen_cons; lia).
  rewrite (core_short utf8 optstring args os has_idx a (zlen front)) by (done || by left).
  rewrite (getopt_letter utf8 optstring args Hc a (zlen front) pos); try done; [|intros ->; by apply H1].
  pose proof (read_option_spec utf8 optstring ks args Hopt Hks Hc a (zlen front) pos (with_optarg None w) Ha Hz Hpos H0 Hv) as H. rewrite Hd in H. pose proof (letter_rest (drop (Z.to_nat pos) a) r) as Hl.
  destruct (letter utf8 ks (drop (Z.to_nat pos) a) r) as [e [cs2 r2]]. destruct H as (ind2 & pos2 & E & Hat & Hle). intros Hm. rewrite Hm in Hle. destruct Hle as [Hle|]; [|done].
  exists pos2. apply at_state_inv in Hat as [(-> & -> & E4)|(a' & b & t & -> & Hp' & Ha' & Hd' & E4)].
  - assert (ind2 = zlen front + Z.of_nat (S (length r - length r2))) as ->.
    { apply (f_equal length) in E4. rewrite length_drop in E4. assert (length r2 <= length r)%nat by (destruct Hl as [-> |(v & -> & _)]; cbn; lia). unfold zlen in *. lia. }
    split; [done|]. split; [lia|by left].
  - destruct Hl as [-> |(v & _ & ?)]; [|done]. assert (ind2 = zlen front) as ->.
    { apply lookup_lt_Some in Ha' as Hlt. apply (f_equal length) in E4. rewrite length_drop in E4. unfold zlen in *. lia. }
    rewrite Ha in Ha'. injection Ha' as <-. rewrite Z.add_0_r. split; [done|]. split; [lia|]. right. by split_and!.
Qed.

(** The call at the option [a] reports [ans]. *)
Definition reports (w : state) (front : list (list Z)) (a : list Z) (r : list (list Z)) (ans : levent * (list Z * nat)) : Prop :=
  let '(e, (cs2, n)) := ans in
  lmissing e = false ->
  exists p, __getopt_long_core utf8 (zlen (front ++ a :: r)) optstring (Some os) has_idx false w =
      Ok (lcode (colon optstring) e, place (zlen front + Z.of_nat n) p (leffect has_idx (colon optstring) (prog (front ++ a :: r)) e (with_optarg None w))) /\
    (n <= S (length r))%nat /\
    (cs2 = [] /\ p = 0 \/ cs2 <> [] /\ n = 0%nat /\ 2 <= p /\ drop (Z.to_nat p) a = cs2 /\ schar a 0 = ch "-" /\ schar a 1 <> ch "-").

Lemma args_at (front : list (list Z)) a r : front <> [] -> 1 <= zlen front /\ (front ++ a :: r) !! Z.to_nat (zlen front) = Some a /\ drop (S (Z.to_nat (zlen front))) (front ++ a :: r) = r.
Proof.
  intros Hf. unfold zlen. rewrite Nat2Z.id. split_and!; [destruct front; [done|cbn; lia]|by apply list_lookup_middle|].
  rewrite drop_app_ge by lia. by replace (S (length front) - length front)%nat with 1%nat by lia.
Qed.

Section Core_call.
Context (front : list (list Z)) (a : list Z) (r : list (list Z)) (w : state).
Context (Hc : Forall cstring (front ++ a :: r)) (Hf : front <> []) (Hv : argv w = map Some (front ++ a :: r) ++ [None]) (Hi : optind w = zlen front) (Hr : optreset w = 0).

Lemma reports_letter pos cs : (if optpos w =? 0 then 1 else optpos w) = pos -> 1 <= pos < zlen a -> schar a 0 = ch "-" -> schar a 1 <> ch "-" -> drop (Z.to_nat pos) a = cs ->
  reports w front a r (let '(e, (cs2, r2)) := letter utf8 ks cs r in (Short e, (cs2, match cs2 with [] => S (length r - length r2) | _ => 0%nat end))).
Proof.
  intros Hp Hpos H0 H1 <-. pose proof (core_letter front a r pos w Hc Hf Hv Hi Hr Hp Hpos H0 H1) as H. destruct (letter utf8 ks (drop (Z.to_nat pos) a) r) as [e [cs2 r2]].
  intros Hm. destruct (H Hm) as (p & E & Hn & Hcs2). exists p. split; [exact E|]. split; [exact Hn|]. destruct Hcs2 as [?|(? & ? & ? & ?)]; [by left|right]. by split_and!.
Qed.

Lemma reports_end : a = [ch "-"; ch "-"] -> optpos w = 0 -> reports w front a r (Short Stop, ([], 1%nat)).
Proof.
  intros -> Hp0 _. destruct (args_at front [ch "-"; ch "-"] r Hf) as (Hz & Hat & _). exists 0. split; [|split; [lia|by left]].
  rewrite (core_short utf8 optstring (front ++ [ch "-"; ch "-"] :: r) os has_idx [ch "-"; ch "-"] (zlen front)) by (done || by right).
  pose proof (lookup_lt_Some _ _ _ Hat) as Hlt. unfold getopt. rewrite (sbind_Ok _ _ _ _ _ (restart_spec (with_optarg None w) ltac:(cbn; lia) Hr)). run. cbn [with_optarg optind]. rewrite Hi.
  rewrite (proj2 (Z.leb_gt _ _)) by (unfold zlen in *; lia). run. rewrite (argv_at (front ++ [ch "-"; ch "-"] :: r)) by (done || (unfold zlen in *; lia)). rewrite Hat. run.
  cbn [lcode code leffect effect]. by rewrite place_ind.
Qed.

Lemma reports_long t : a = ch "-" :: ch "-" :: t -> t <> [] -> optpos w = 0 -> reports w front a r (let '(e, n) := long_answer os t r in (e, ([], n))).
Proof.
  intros Ea Ht Hp0. destruct (args_at front a r Hf) as (Hz & Hat & Hdr). pose proof (core_long utf8 optstring (front ++ a :: r) os has_idx Hc Hos ltac:(by destruct front) a t (zlen front) w Hv Hat Hz Hi Ea Ht) as H.
  rewrite Hdr in H. assert (let '(e, n) := long_answer os t r in (n <= S (length r))%nat) as Hn.
  { unfold long_answer. destruct (split_eq t) as [key v]. destruct (find_long key os) as [i o| |]; [|cbn; lia..]. destruct v; [destruct (has_arg o =? 0); cbn; lia|].
    destruct (has_arg o =? required_argument); [|cbn; lia]. destruct r; cbn; lia. }
  destruct (long_answer os t r) as [e n]. intros _. exists 0. split; [|split; [done|by left]]. rewrite H. do 2 f_equal.
  destruct w, e as [[]| | | | |]; cbn in Hp0; subst; try done; unfold leffect, effect, warn, accept; cbn; try (by destruct (negb _ && _)). by destruct has_idx, (flag o).
Qed.

Lemma core_call cs : (cs = [] /\ optpos w = 0 /\ kind_of a <> Other \/ cs <> [] /\ 2 <= optpos w /\ drop (Z.to_nat (optpos w)) a = cs /\ schar a 0 = ch "-" /\ schar a 1 <> ch "-") ->
  reports w front a r (core_answer cs a r).
Proof.
  unfold core_answer. intros [(-> & Hp0 & Hk)|(Hne & Hp2 & Hd & H0 & H1)].
  2:{ destruct cs as [|b t]; [done|]. apply (reports_letter (optpos w)); try done; [by rewrite (proj2 (Z.eqb_neq _ 0)) by lia|]. split; [lia|].
    apply (f_equal length) in Hd. rewrite length_drop in Hd. cbn in Hd. unfold zlen. lia. }
  assert (exists y t, a = ch "-" :: y :: t) as (y & t & Ea).
  { destruct a as [|x [|y t]]; [done|done|]. unfold kind_of in Hk. destruct (Z.eqb_spec x (ch "-")) as [-> |]; [eauto|done]. }
  assert (y <> ch "-" -> reports w front a r (let '(e, (cs2, r2)) := letter utf8 ks (y :: t) r in (Short e, (cs2, match cs2 with [] => S (length r - length r2) | _ => 0%nat end)))) as Hgroup.
  { intros Hy. apply (reports_letter 1); rewrite ?Ea; try done; [by rewrite Hp0|]. rewrite !zlen_cons. pose proof (zlen_nonneg t). lia. }
  rewrite Ea at 2. destruct t as [|z t]; (destruct (Z.eqb_spec y (ch "-")) as [-> |Hy]; [|by apply Hgroup]); [by apply reports_end|by apply reports_long].
Qed.
End Core_call.

Ltac each_event e := destruct e as [[]| | | | |]; try done; unfold leffect, effect, warn, accept; cbn; try (by destruct (negb _ && _)); by destruct has_idx, (flag _).

Lemma leffect_stays j k p colon prog e w : place j p (leffect has_idx colon prog e (with_optarg None (with_optind k w))) =
  with_argv (argv w) (place j p (leffect has_idx colon prog e (with_optarg None w))).
Proof. destruct w. each_event e. Qed.
Lemma leffect_keeps colon prog e w : argv (leffect has_idx colon prog e (with_optarg None w)) = argv w /\ optreset (leffect has_idx colon prog e (with_optarg None w)) = optreset w.
Proof. destruct w. each_event e. Qed.

Lemma lstate_after w pre ops cs2 a r n p e c g : pre <> [] -> Forall (fun a => kind_of a = Other) ops -> optreset w = 0 -> (n <= S (length r))%nat ->
  (cs2 = [] /\ p = 0 \/ cs2 <> [] /\ n = 0%nat /\ 2 <= p /\ drop (Z.to_nat p) a = cs2 /\ schar a 0 = ch "-" /\ schar a 1 <> ch "-") ->
  lstate (with_argv (map Some (pre ++ take n (a :: r) ++ ops ++ drop n (a :: r)) ++ [None]) (place (zlen pre + Z.of_nat n) p (leffect has_idx c g e (with_optarg None w))))
    (pre ++ take n (a :: r)) ops cs2 (drop n (a :: r)).
Proof.
  intros Hpre Hops Hr Hn Hcs. destruct (leffect_keeps c g e w) as [_ Hk].
  constructor; cbn [argv optind optpos optreset with_argv place with_optind with_optpos]; try done.
  - by rewrite <- app_assoc.
  - rewrite zlen_app. unfold zlen. rewrite length_take. cbn [length]. lia.
  - by destruct pre.
  - by rewrite Hk.
  - destruct Hcs as [?|(Hne & -> & Hp & Hd & H0 & H1)]; [by left|right]. exists a, r. by split_and!.
Qed.

(** A call with an option left: it is reported, and what is done with of the option and its argument
    is before the operands. *)
Lemma getopt_long_call w pre ops ops1 cs a r : Forall cstring (pre ++ ops ++ ops1 ++ a :: r) -> lstate w pre ops cs (ops1 ++ a :: r) -> Forall (fun a => kind_of a = Other) ops1 ->
  (cs = [] /\ kind_of a <> Other \/ cs <> [] /\ ops1 = []) ->
  let '(e, (cs2, n)) := core_answer cs a r in
  lmissing e = false ->
  exists v i p, let w' := with_argv v (place i p (leffect has_idx (colon optstring) (prog pre) e (with_optarg None w))) in
    getopt_long utf8 (zlen (pre ++ ops ++ ops1 ++ a :: r)) optstring (Some os) has_idx w = Ok (lcode (colon optstring) e, w') /\
    lstate w' (pre ++ take n (a :: r)) (ops ++ ops1) cs2 (drop n (a :: r)).
Proof.
  intros Hc [Hv Hi Hpre Hops Hr Hcs] Ho1 Hwhich. set (front := pre ++ ops ++ ops1).
  assert (pre ++ ops ++ ops1 ++ a :: r = front ++ a :: r) as Eargs by (unfold front; by rewrite <- !app_assoc). rewrite Eargs in Hc, Hv |- *.
  assert (1 <= zlen pre) as Hz by (destruct pre; [done|rewrite zlen_cons; pose proof (zlen_nonneg pre); lia]).
  assert (kind_of a <> Other /\ (cs = [] /\ optpos w = 0 /\ kind_of a <> Other \/ cs <> [] /\ 2 <= optpos w /\ drop (Z.to_nat (optpos w)) a = cs /\ schar a 0 = ch "-" /\ schar a 1 <> ch "-")) as [Hka Hcs'].
  { destruct Hcs as [(-> & Hp)|(a' & r' & Hne & Er & Hp & Hd & H0 & H1)]; destruct Hwhich as [(Hn & Hk)|(Hn & ->)]; try done; [split; [done|by left]|]. cbn [app] in Er. injection Er as <- <-.
    split; [|right; by split_and!]. intros Hk. apply kind_other in Hk as [-> |[-> |]]; [|..|done]; rewrite drop_ge in Hd by (cbn; lia); by rewrite <- Hd in Hne. }
  assert (front <> []) as Hfr by (unfold front; by destruct pre). pose proof (zlen_nonneg (ops ++ ops1)) as Hoz. assert (zlen front = zlen pre + zlen (ops ++ ops1)) as Hzf by (unfold front; by rewrite zlen_app).
  assert (argv w = map Some (front ++ a :: r) ++ [None]) as Hv' by done.
  pose proof (core_call front a r (with_optind (zlen front) w) Hc Hfr Hv' eq_refl Hr cs Hcs') as Hrep. destruct (core_answer cs a r) as [e [cs2 n]]. intros Hm.
  destruct (Hrep Hm) as (p & Ecore & Hn & Hcs2). assert (prog (front ++ a :: r) = prog pre) as Eprog by (unfold front, prog; by destruct pre). rewrite Eprog in Ecore.
  assert (zlen (front ++ a :: r) = zlen front + 1 + zlen r) as Hlen by (rewrite zlen_app, zlen_cons; lia). pose proof (zlen_nonneg r).
  unfold getopt_long, __getopt_long. rewrite (sbind_Ok _ _ _ _ _ (restart_spec w ltac:(lia) Hr)). run. rewrite Hi, (proj2 (Z.leb_gt _ _)) by lia. run.
  rewrite (argv_at (front ++ a :: r)) by (done || lia). run. destruct (lookup_lt_is_Some_2 (front ++ a :: r) (Z.to_nat (zlen pre))) as (x & ->); [unfold zlen in *; lia|].
  rewrite at_zero. run. destruct Hmode as [H1 H2]. unfold first_is in H1, H2. rewrite H1, H2. cbn [negb andb]. rewrite Hv'.
  pose proof (next_option_spec (ops ++ ops1) pre (a :: r) (S (length (map Some (front ++ a :: r) ++ [None])))) as Hnx. rewrite <- (app_assoc ops ops1), Eargs in Hnx.
  rewrite Hnx; [|done|by apply Forall_app| |right; by eauto]; [|rewrite !length_app, length_map, !length_app; unfold front; rewrite !length_app; lia]. clear Hnx. fold front. run.
  erewrite sbind_Ok; [|exact Ecore]. rewrite leffect_stays.
  exists (map Some (pre ++ take n (a :: r) ++ (ops ++ ops1) ++ drop n (a :: r)) ++ [None]), (zlen pre + Z.of_nat n), p. split; [|apply lstate_after; try done; by apply Forall_app].
  destruct (Z.ltb_spec (zlen pre) (zlen front)) as [Hlt|Hge]; run; cbn [with_argv place with_optind with_optpos argv optind].
  - replace (zlen front + Z.of_nat n - zlen front) with (Z.of_nat n) by lia. rewrite Nat2Z.id, Hv'.
    pose proof (permute_loop_spec (map Some pre) (map Some (drop n (a :: r)) ++ [None]) (map Some (take n (a :: r))) (map Some (ops ++ ops1))) as Hpm.
    rewrite !app_assoc, <- !map_app, <- !app_assoc, take_drop in Hpm. rewrite length_map, length_take, Nat.min_l in Hpm by (cbn; lia).
    assert (forall l : list (list Z), zlen (map Some l) = zlen l) as Hmz by (intros l; unfold zlen; by rewrite length_map). rewrite !Hmz in Hpm.
    replace (zlen (take n (a :: r))) with (Z.of_nat n) in Hpm by (unfold zlen; rewrite length_take; cbn; lia). rewrite Hzf. unfold front. rewrite <- !app_assoc in *. rewrite Hpm. run. done.
  - assert (ops ++ ops1 = []) as Eo. { destruct (ops ++ ops1) as [|y l]; [done|]. rewrite zlen_cons in Hzf. pose proof (zlen_nonneg l). lia. }
    unfold front in *. rewrite Eo in *. rewrite app_nil_r in *. cbn [app]. rewrite take_drop, Hv'. done.
Qed.

(** * All calls *)

(** What a program sees of a call that returned [r]: [optarg], [optopt], [*idx], the variables
    the long options point to, and the lines on [stderr]. *)
Record seen : Type := Seen {
  s_return : Z; s_optarg : option (list Z); s_optopt : Z; s_idx : Z; s_cells : gmap Z Z; s_messages : list (list Z) }.
Definition look (r : Z) (w : state) : seen := Seen r (optarg w) (optopt w) (idx w) (cells w) (messages w).

(** The calls of a program up to the one that returns -1, by what they leave. *)
Fixpoint getopt_long_all (fuel : nat) (argc : Z) : M state (list seen) :=
  match fuel with
  | O => fun _ => NoFuel
  | S fuel' =>
      let* r := getopt_long utf8 argc optstring (Some os) has_idx in
      if r =? -1 then sret []
      else
        let* x := sget (look r) in
        let* xs := getopt_long_all fuel' argc in
        sret (x :: xs)
  end.

(** What the events make them leave, one after the other, from [w]. *)
Fixpoint history (prog : list Z) (evs : list levent) (w : state) : list seen :=
  match evs with
  | [] => []
  | e :: evs =>
      let w := leffect has_idx (colon optstring) prog e (with_optarg None w) in
      look (lcode (colon optstring) e) w :: history prog evs w
  end.

(** It does not depend on the arguments and the place in them. *)
Lemma leffect_moved v i p colon prog e w : with_argv v (place i p (leffect has_idx colon prog e (with_optarg None w))) =
  leffect has_idx colon prog e (with_optarg None (with_argv v (place i p w))).
Proof. destruct w. each_event e. Qed.
Lemma history_moved v i p prog evs : forall w, history prog evs (with_argv v (place i p w)) = history prog evs w.
Proof.
  induction evs as [|e evs IH]; intros w; [done|]. cbn [history]. rewrite <- leffect_moved, IH. done.
Qed.

(** An option to read, or what is left of one. *)
Definition option_here (cs a : list Z) : Prop := cs <> [] \/ exists y t, kind_of a = Group (y :: t).

(** The events of the arguments; those that belong to options, and the operands. *)
Inductive parses : list Z -> list (list Z) -> list levent -> list (list Z) -> list (list Z) -> Prop :=
| L_end : parses [] [] [] [] []
| L_operand a rest evs con ops : kind_of a = Other -> parses [] rest evs con ops -> parses [] (a :: rest) evs con (a :: ops)
| L_stop r : parses [] ([ch "-"; ch "-"] :: r) [] [[ch "-"; ch "-"]] r
| L_option cs a r e cs2 n evs con ops : option_here cs a -> core_answer cs a r = (e, (cs2, n)) -> lmissing e = false -> lcode (colon optstring) e <> -1 ->
    parses cs2 (drop n (a :: r)) evs con ops -> parses cs (a :: r) (e :: evs) (take n (a :: r) ++ con) ops.

Lemma core_stop r : core_answer [] [ch "-"; ch "-"] r = (Short Stop, ([], 1%nat)).
Proof. done. Qed.

Lemma take_drop_cstrings n (pre ops l : list (list Z)) : Forall cstring (pre ++ ops ++ l) -> Forall cstring ((pre ++ take n l) ++ ops ++ drop n l).
Proof.
  rewrite !Forall_app. intros (H1 & H2 & H3). rewrite <- (take_drop n l), Forall_app in H3. tauto.
Qed.
Lemma take_drop_len n (pre ops l : list (list Z)) : zlen ((pre ++ take n l) ++ ops ++ drop n l) = zlen (pre ++ ops ++ l).
Proof. unfold zlen. rewrite !length_app, length_take, length_drop. lia. Qed.

Lemma run_spec cs rest evs con ops' : parses cs rest evs con ops' -> forall w pre ops ops1 fuel, Forall cstring (pre ++ ops ++ ops1 ++ rest) -> lstate w pre ops cs (ops1 ++ rest) ->
  Forall (fun a => kind_of a = Other) ops1 -> (cs <> [] -> ops1 = []) -> (length evs < fuel)%nat ->
  exists w', getopt_long_all fuel (zlen (pre ++ ops ++ ops1 ++ rest)) w = Ok (history (prog pre) evs w, w') /\
    argv w' = map Some (pre ++ con ++ ops ++ ops1 ++ ops') ++ [None] /\ optind w' = zlen (pre ++ con).
Proof.
  induction 1 as [|a rest evs con ops' Hk _ IH|r|cs a r e cs2 n evs con ops' Hh Ec Hm Hcode _ IH]; intros w pre ops ops1 fuel Hc Hl Ho1 Hcs Hf.
  - destruct fuel as [|fuel]; [lia|]. cbn [getopt_long_all]. rewrite app_nil_r in *. rewrite (sbind_Ok _ _ _ _ _ (getopt_long_end w pre ops ops1 Hc Hl Ho1)). exists w. cbn [app]. rewrite !app_nil_r. by destruct Hl.
  - destruct (IH w pre ops (ops1 ++ [a]) fuel) as (w' & E & Hv & Hi); rewrite <- ?app_assoc; try done; [by apply Forall_app; split; [|constructor]|].
    exists w'. rewrite <- !app_assoc in *. by split_and!.
  - destruct fuel as [|fuel]; [lia|]. cbn [getopt_long_all].
    pose proof (getopt_long_call w pre ops ops1 [] [ch "-"; ch "-"] r Hc Hl Ho1 ltac:(by left)) as H. rewrite core_stop in H. destruct (H eq_refl) as (v & i & p & E & Hl').
    rewrite (sbind_Ok _ _ _ _ _ E). cbn [lcode code]. change (-1 =? -1) with true. cbv iota. eexists. split; [done|]. destruct Hl' as [Hv Hi _ _ _ _]. rewrite Hv, Hi. cbn [take drop]. rewrite <- !app_assoc. done.
  - destruct fuel as [|fuel]; [cbn in Hf; lia|]. cbn [getopt_long_all]. pose proof (getopt_long_call w pre ops ops1 cs a r Hc Hl Ho1) as H. rewrite Ec in H.
    destruct H as (v & i & p & E & Hl'); [|done|].
    { destruct (decide (cs = [])) as [-> |Hn]; [left|right; auto]. split; [done|]. destruct Hh as [|(y & t & ->)]; done. }
    rewrite (sbind_Ok _ _ _ _ _ E). rewrite (proj2 (Z.eqb_neq _ _) Hcode). run. set (w1 := with_argv _ _) in *.
    pose proof (take_drop_cstrings n pre (ops ++ ops1) (a :: r)) as Hc'. pose proof (take_drop_len n pre (ops ++ ops1) (a :: r)) as Hlen. rewrite <- !app_assoc in Hc', Hlen.
    destruct (IH w1 (pre ++ take n (a :: r)) (ops ++ ops1) [] fuel) as (w' & E' & Hv & Hi); [cbn [app]; rewrite <- !app_assoc; by apply Hc'|exact Hl'|by constructor|done|cbn in Hf; lia|].
    rewrite <- !app_assoc in E'. cbn [app] in E'. rewrite Hlen in E'. rewrite (sbind_Ok _ _ _ _ _ E'). exists w'. split.
    { cbn [history]. subst w1. rewrite history_moved. by replace (prog (pre ++ take n (a :: r))) with (prog pre) by (destruct Hl; by destruct pre). }
    rewrite Hv, Hi. cbn [app]. rewrite <- !app_assoc. done.
Qed.

(** The options and the operands are the arguments, both in their order. *)
Lemma parses_orders cs rest evs con ops : parses cs rest evs con ops -> con ++ ops ≡ₚ rest /\ con `sublist_of` rest /\ ops `sublist_of` rest.
Proof.
  induction 1 as [|a rest evs con ops _ _ (IH1 & IH2 & IH3)|r|cs a r e cs2 n evs con ops _ _ _ _ _ (IH1 & IH2 & IH3)]; [done|split_and!..|split_and!].
  - by rewrite <- Permutation_middle, IH1.
  - by apply sublist_cons.
  - by apply sublist_skip.
  - done.
  - apply sublist_skip, sublist_nil_l.
  - by apply sublist_cons.
  - by rewrite <- app_assoc, IH1, take_drop.
  - rewrite <- (take_drop n (a :: r)) at 2. by apply sublist_app.
  - rewrite IH3. apply sublist_drop.
Qed.

(** ** Which arguments parse *)

(** An argument of a letter is missing. *)
Inductive lacking : list Z -> list (list Z) -> Prop :=
| K_here cs a r e x : option_here cs a -> core_answer cs a r = (e, x) -> lmissing e = true -> lacking cs (a :: r)
| K_operand a rest : kind_of a = Other -> lacking [] rest -> lacking [] (a :: rest)
| K_option cs a r e cs2 n : option_here cs a -> core_answer cs a r = (e, (cs2, n)) -> lmissing e = false -> lacking cs2 (drop n (a :: r)) -> lacking cs (a :: r).

Definition weight (cs : list Z) (rest : list (list Z)) : nat :=
  match cs with [] => sum_list (map (fun a => S (length a)) rest) | _ => length cs + sum_list (map (fun a => S (length a)) (tail rest)) end.

Lemma sum_drop n (l : list (list Z)) : (sum_list (map (fun a => S (length a)) (drop n l)) <= sum_list (map (fun a => S (length a)) l))%nat.
Proof. revert n. induction l as [|a l IH]; intros [|n]; cbn; try lia. specialize (IH n). lia. Qed.

Lemma letter_weight cs r : cstring cs -> cs <> [] -> let '(e, (cs2, r2)) := letter utf8 ks cs r in
  cstring cs2 /\ (length cs2 < length cs)%nat /\ code (colon optstring) e <> -1.
Proof.
  intros Hc Hne. destruct (read_char_spec utf8 cs 0 Hc) as (k0 & c0 & k & c & _ & _ & Er & Hk & Hpos); [destruct cs; [done|rewrite zlen_cons; pose proof (zlen_nonneg cs); lia]|].
  rewrite drop_0 in Er. unfold letter, answer. rewrite Er. assert (length (drop (Z.to_nat k) cs) < length cs)%nat as Hlt by (rewrite length_drop; unfold zlen in Hk; lia).
  assert (0 < length cs)%nat by lia. pose proof (Forall_drop _ (Z.to_nat k) _ Hc) as Hd.
  destruct (arity_of ks c) as [[]|]; [split_and!; (done || cbn; lia)| |split_and!; (done || constructor || cbn; lia)..].
  destruct (drop (Z.to_nat k) cs); [|split_and!; (done || constructor || cbn; lia)]. destruct r; [|split_and!; (done || constructor || cbn; lia)].
  split_and!; [constructor|cbn; lia|]. cbn. by destruct (colon optstring).
Qed.

Lemma find_long_in key i o : find_long key os = Found i o -> o ∈ os.
Proof.
  unfold find_long. destruct (exact key os 0) as [[j x]|] eqn:E.
  - intros [= <- <-]. apply exact_at in E as [_ E]. by eapply list_elem_of_lookup_2.
  - destruct (abbreviated key os 0) as [|[j x] [|]] eqn:Eab; try done. intros [= <- <-]. assert ((j, x) ∈ abbreviated key os 0) as [_ E']%abbreviated_at by (rewrite Eab; by left). by eapply list_elem_of_lookup_2.
Qed.

Context (Hval : Forall (fun o => val o <> -1) os).

Lemma long_weight t r : let '(e, n) := long_answer os t r in (1 <= n)%nat /\ lmissing e = false /\ lcode (colon optstring) e <> -1.
Proof.
  unfold long_answer. destruct (split_eq t) as [key v]. destruct (find_long key os) as [i o| |] eqn:Ef; [|by split_and!..].
  apply find_long_in in Ef. assert (lcode (colon optstring) (Long i o None) <> -1) as Hc by (rewrite Forall_forall in Hval; specialize (Hval o Ef); cbn; by destruct (flag o)).
  destruct v; [destruct (has_arg o =? 0); split_and!; (done || exact Hc)|]. destruct (has_arg o =? required_argument); [|by split_and!]. destruct r; [|split_and!; (lia || done || exact Hc)].
  split_and!; [lia|done|]. cbn. by destruct (colon optstring).
Qed.

Lemma core_weight cs a r : option_here cs a -> cstring cs -> cstring a -> let '(e, (cs2, n)) := core_answer cs a r in
  cstring cs2 /\ (weight cs2 (drop n (a :: r)) < weight cs (a :: r))%nat /\ (cs2 <> [] -> n = 0%nat) /\ lcode (colon optstring) e <> -1.
Proof.
  intros Hh Hcs Ha. assert (forall cs', cstring cs' -> cs' <> [] -> (length cs' + sum_list (map (fun a => S (length a)) r) <= weight cs (a :: r))%nat ->
    let '(e, (cs2, n)) := (let '(e, (cs2, r2)) := letter utf8 ks cs' r in (Short e, (cs2, match cs2 with [] => S (length r - length r2) | _ => 0%nat end))) in
    cstring cs2 /\ (weight cs2 (drop n (a :: r)) < weight cs (a :: r))%nat /\ (cs2 <> [] -> n = 0%nat) /\ lcode (colon optstring) e <> -1) as Hletter.
  { intros cs' Hc Hne Hw. pose proof (letter_weight cs' r Hc Hne) as H. destruct (letter utf8 ks cs' r) as [e [cs2 r2]]. destruct H as (H1 & H2 & H3). split_and!; try done.
    - destruct cs2 as [|b t]; cbn [weight drop tail]; [pose proof (sum_drop (length r - length r2) r)|]; cbn in H2 |- *; lia.
    - by destruct cs2. }
  unfold core_answer. destruct cs as [|b cs]; [|by apply Hletter; [done|done|cbn; lia]]. destruct Hh as [|(y & t & Hk)]; [done|]. apply kind_group in Hk as (-> & _ & Hend).
  apply Forall_inv_tail in Ha as Hy. destruct t as [|z t].
  - destruct (Z.eqb_spec y (ch "-")) as [-> |Hn]; [done|]. apply Hletter; [done|done|cbn; lia].
  - destruct (Z.eqb_spec y (ch "-")) as [-> |Hn]; [|apply Hletter; [done|done|cbn; lia]].
    pose proof (long_weight (z :: t) r) as H. destruct (long_answer os (z :: t) r) as [e n]. destruct H as (H1 & _ & H3). split_and!; try done.
    destruct n as [|n]; [lia|]. cbn [weight drop]. pose proof (sum_drop n r). cbn. lia.
Qed.

(** Every argument list parses, or the argument of a letter is missing. *)
Lemma parses_total N : forall cs rest, (weight cs rest < N)%nat -> cstring cs -> Forall cstring rest -> (cs <> [] -> rest <> []) ->
  lacking cs rest \/ exists evs con ops, parses cs rest evs con ops.
Proof.
  induction N as [|N IH]; intros cs rest Hw Hcs Hrest Hne; [lia|]. destruct rest as [|a r].
  { destruct cs as [|b t]; [|by destruct Hne]. right. exists [], [], []. constructor. }
  apply Forall_cons in Hrest as [Ha Hr]. assert (option_here cs a -> lacking cs (a :: r) \/ exists evs con ops, parses cs (a :: r) evs con ops) as Hoption.
  { intros Hh. pose proof (core_weight cs a r Hh Hcs Ha) as H. destruct (core_answer cs a r) as [e [cs2 n]] eqn:Ec. destruct H as (H1 & H2 & H3 & H4).
    destruct (lmissing e) eqn:Em; [left; by eapply K_here|]. destruct (IH cs2 (drop n (a :: r))) as [Hl|(evs & con & ops & Hp)]; [lia|done|by apply Forall_drop; constructor|..].
    - intros Hn. by rewrite (H3 Hn).
    - left. by eapply K_option.
    - right. exists (e :: evs), (take n (a :: r) ++ con), ops. by eapply L_option. }
  destruct cs as [|b cs]; [|by apply Hoption; left]. destruct (kind_of a) as [cs'| |] eqn:Ek.
  - apply Hoption. right. pose proof Ek as (-> & Hn & _)%kind_group. destruct cs' as [|y t]; [done|]. by exists y, t.
  - apply kind_end in Ek as ->. right. exists [], [[ch "-"; ch "-"]], r. constructor.
  - destruct (IH [] r) as [Hl|(evs & con & ops & Hp)]; [cbn in *; lia|done|done|done|left; by constructor|]. right. exists evs, con, (a :: ops). by constructor.
Qed.
End Calls.

(** * The promise *)

(** C34: calls of [getopt_long] up to the one that returns -1, for every argument vector, unless a letter lacks its argument,
    where [optstring] does not begin with a sign and no long option has the value -1: the
    calls end, and every call leaves what the next option means: its return value, [optarg], [optopt], [*idx], the
    variable the option points to and the message; at the end the arguments of the options are in front
    and the operands behind them, both in their order, and [optind] is the first operand. *)
Theorem getopt_long_sorts utf8 optstring ks os has_idx name args :
  cstring optstring -> chars utf8 (letters optstring) ks -> first_is optstring (ch "-") = false -> first_is optstring (ch "+") = false ->
  Forall (fun o => cstring (Getopt.name o)) os -> Forall (fun o => val o <> -1) os -> cstring name -> Forall cstring args ->
  lacking utf8 ks os [] args \/
  exists evs con ops, parses utf8 optstring ks os [] args evs con ops /\ con ++ ops ≡ₚ args /\ con `sublist_of` args /\ ops `sublist_of` args /\
    forall fuel, (length evs < fuel)%nat -> exists w,
      getopt_long_all utf8 optstring os has_idx fuel (1 + zlen args) (start (name :: args)) = Ok (history optstring has_idx name evs (start (name :: args)), w) /\
      argv w = map Some (name :: con ++ ops) ++ [None] /\ optind w = 1 + zlen con.
Proof.
  intros Hopt Hks H1 H2 Hos Hval Hn Hargs. destruct (parses_total utf8 optstring ks os Hval (S (weight [] args)) [] args) as [Hl|(evs & con & ops & Hp)]; try done; [lia|constructor|by left|right].
  exists evs, con, ops. destruct (parses_orders utf8 optstring ks os _ _ _ _ _ Hp) as (Hperm & Hs1 & Hs2). split_and!; try done. intros fuel Hf.
  destruct (run_spec utf8 optstring ks os has_idx Hopt Hks Hos (conj H1 H2) [] args evs con ops Hp (start (name :: args)) [name] [] [] fuel) as (w & E & Hv & Hi); try done; [by constructor| |].
  - constructor; try done. by left.
  - exists w. cbn [app] in *. rewrite !zlen_cons in *. done.
Qed.

(** [prog in -vo out --size=3 more], where [size] has an argument *)
Lemma getopt_long_sorts_witness :
  let os := [Option (lit "silent") no_argument None (ch "q"); Option (lit "size") required_argument None (ch "s")] in
  let args := [lit "in"; lit "-vo"; lit "out"; lit "--siz=3"; lit "more"] in
  (match getopt_long_all true (lit "vo:") os true 10 6 (start (lit "prog" :: args)) with
   | Ok (xs, w) => map (fun x => (s_return x, s_optarg x, s_idx x)) xs = [(ch "v", None, 0); (ch "o", Some (lit "out"), 0); (ch "s", Some (lit "3"), 1)] /\ argv w = map Some [lit "prog"; lit "-vo"; lit "out"; lit "--siz=3"; lit "in"; lit "more"] ++ [None] /\ optind w = 4
   | _ => False
   end) /\
  (lacking true (lit "vo:") os [] args \/
   exists evs con ops, parses true (lit "vo:") (lit "vo:") os [] args evs con ops /\ con ++ ops ≡ₚ args /\ con `sublist_of` args /\ ops `sublist_of` args /\
     forall fuel, (length evs < fuel)%nat -> exists w,
       getopt_long_all true (lit "vo:") os true fuel 6 (start (lit "prog" :: args)) = Ok (history (lit "vo:") true (lit "prog") evs (start (lit "prog" :: args)), w) /\
       argv w = map Some (lit "prog" :: con ++ ops) ++ [None] /\ optind w = 1 + zlen con).
Proof.
  cbv zeta. split; [vm_compute; auto|].
  apply (getopt_long_sorts true (lit "vo:") (lit "vo:") _ true (lit "prog") [lit "in"; lit "-vo"; lit "out"; lit "--siz=3"; lit "more"]).
  - repeat constructor.
  - apply ascii_chars. repeat constructor.
  - reflexivity.
  - reflexivity.
  - repeat constructor.
  - repeat constructor; discriminate.
  - repeat constructor.
  - repeat constructor.
Defined.
