(* ===== verification/Random.v ===== *)
(** Pseudo-random numbers ([libc-top-half/musl/src/prng/]: random.c, rand.c, rand_r.c and the
    48-bit family).

    [random] works on a state array that the program may replace: the arrays are
    blocks of words, and a pointer to one is its name.  The variables [n], [i], [j] and [x] are
    the state; [x] points behind the first word, in which the other three are saved. *)

From S2P Require Import Prelude.

(** * random.c *)

Record rstate : Type := RState { blocks : gmap Z (list Z); x : Z; n : Z; i : Z; j : Z }.
Definition with_blocks (v : gmap Z (list Z)) (w : rstate) : rstate := RState v (x w) (n w) (i w) (j w).
Definition with_x (v : Z) (w : rstate) : rstate := RState (blocks w) v (n w) (i w) (j w).
Definition with_n (v : Z) (w : rstate) : rstate := RState (blocks w) (x w) v (i w) (j w).
Definition with_i (v : Z) (w : rstate) : rstate := RState (blocks w) (x w) (n w) v (j w).
Definition with_j (v : Z) (w : rstate) : rstate := RState (blocks w) (x w) (n w) (i w) v.

(** [x[k]], with the words of the block that [x] points into *)
Definition word (k : Z) : M rstate Z := fun w =>
  let! l := deref (blocks w !! x w) in
  let! v := zget l (k + 1) in
  Ok (v, w).
Definition set_word (k v : Z) : M rstate unit := fun w =>
  let! l := deref (blocks w !! x w) in
  let! l := zset l (k + 1) v in
  Ok (tt, with_blocks (<[x w := l]> (blocks w)) w).

Definition INIT : Z := 0.
Definition init : list Z := [
  0x00000000; 0x5851f42d; 0xc0b18ccf; 0xcbb5f646;
  0xc7033129; 0x30705b04; 0x20fd5db4; 0x9a8b7f78;
  0x502959d8; 0xab894868; 0x6c0356a7; 0x88cdb7ff;
  0xb477d43f; 0x70a3a52b; 0xa8e4baf1; 0xfd8341fc;
  0x8ae16fd9; 0x742d2f7a; 0x0d1f0796; 0x76035e09;
  0x40f7702c; 0x6fa72ca5; 0xaaa84157; 0x58a0df74;
  0xc74a0364; 0xae533cc4; 0x04185faf; 0x6de3b115;
  0x0cab8628; 0xf043bfa4; 0x398150e9; 0x37521657].

(** The variables at the start, with the blocks of the program. *)
Definition initial (user : gmap Z (list Z)) : rstate := RState (<[INIT := init]> user) INIT 31 3 0.

Definition lcg31 (v : Z) : Z := Z.land (u32 (1103515245 * v + 12345)) 0x7fffffff.
Definition lcg64 (v : Z) : Z := u64 (6364136223846793005 * v + 1).

Definition savestate : M rstate Z :=
  let* n := sget n in
  let* i := sget i in
  let* j := sget j in
  do* set_word (-1) (u32 (Z.lor (Z.lor (Z.shiftl n 16) (Z.shiftl i 8)) j)) in
  sget x.

Definition loadstate (state : Z) : M rstate unit :=
  do* sput (with_x state) in
  let* v := word (-1) in
  do* sput (with_n (Z.shiftr v 16)) in
  let* v := word (-1) in
  do* sput (with_i (Z.land (Z.shiftr v 8) 0xff)) in
  let* v := word (-1) in
  sput (with_j (Z.land v 0xff)).

(** [for (k = 0; k < n; k++)], with [m] turns to go *)
Fixpoint seed_loop (m : nat) (k s : Z) : M rstate unit :=
  match m with
  | O => sret tt
  | S m' =>
      let s := lcg64 s in
      do* set_word k (Z.shiftr s 32) in
      seed_loop m' (k + 1) s
  end.

Definition __srandom (seed : Z) : M rstate unit :=
  let* n := sget n in
  if n =? 0 then set_word 0 (u32 seed)
  else
    do* sput (with_i (if (n =? 31) || (n =? 7) then 3 else 1)) in
    do* sput (with_j 0) in
    do* seed_loop (Z.to_nat n) 0 seed in
    let* v := word 0 in
    set_word 0 (Z.lor v 1).

Definition srandom (seed : Z) : M rstate unit := __srandom seed.

(** The pointer returned is null for [None]. *)
Definition initstate (seed state size : Z) : M rstate (option Z) :=
  if size <? 8 then sret None
  else
    let* old := savestate in
    do* sput (with_n (if size <? 32 then 0 else if size <? 64 then 7 else if size <? 128 then 15 else if size <? 256 then 31 else 63)) in
    do* sput (with_x state) in
    do* __srandom seed in
    let* _ := savestate in
    sret (Some old).

Definition setstate (state : Z) : M rstate Z :=
  let* old := savestate in
  do* loadstate state in
  sret old.

Definition random : M rstate Z :=
  let* nn := sget n in
  if nn =? 0 then
    let* v := word 0 in
    do* set_word 0 (lcg31 v) in
    sret (lcg31 v)
  else
    let* ii := sget i in
    let* jj := sget j in
    let* a := word ii in
    let* b := word jj in
    do* set_word ii (u32 (a + b)) in
    let* v := word ii in
    do* sput (with_i (if ii + 1 =? nn then 0 else ii + 1)) in
    do* sput (with_j (if jj + 1 =? nn then 0 else jj + 1)) in
    sret (Z.shiftr v 1).

(** * rand.c and rand_r.c *)

Definition srand (s : Z) : M Z unit := sput (fun _ => u32 (s - 1)).
Definition rand : M Z Z :=
  do* sput (fun seed => u64 (6364136223846793005 * seed + 1)) in
  let* seed := sget id in
  sret (Z.shiftr seed 33).

Definition temper (v : Z) : Z :=
  let v := Z.lxor v (Z.shiftr v 11) in
  let v := Z.lxor v (Z.land (u32 (Z.shiftl v 7)) 0x9D2C5680) in
  let v := Z.lxor v (Z.land (u32 (Z.shiftl v 15)) 0xEFC60000) in
  Z.lxor v (Z.shiftr v 18).
Definition rand_r : M Z Z :=
  do* sput (fun seed => u32 (seed * 1103515245 + 12345)) in
  let* seed := sget id in
  sret (temper seed / 2).

(** * The 48-bit generators *)

(** [__seed48]: the three words of the number, then the four of the multiplier and the addend *)
Definition __seed48 : list Z := [0; 0; 0; 0xe66d; 0xdeec; 0x5; 0xb].

(** The new words of [xi] and the value returned, for [lc] of four words. *)
Definition __rand48_step (xi lc : list Z) : outcome (list Z * Z) :=
  let! x0 := zget xi 0 in
  let! x1 := zget xi 1 in
  let! x2 := zget xi 2 in
  let! a0 := zget lc 0 in
  let! a1 := zget lc 1 in
  let! a2 := zget lc 2 in
  let! c := zget lc 3 in
  let v := Z.lor (Z.lor x0 (u32 (Z.shiftl x1 16))) (u64 (Z.shiftl x2 32)) in
  let a := Z.lor (Z.lor a0 (u32 (Z.shiftl a1 16))) (u64 (Z.shiftl a2 32)) in
  let v := u64 (a * v + c) in
  let! xi := zset xi 0 (u16 v) in
  let! xi := zset xi 1 (u16 (Z.shiftr v 16)) in
  let! xi := zset xi 2 (u16 (Z.shiftr v 32)) in
  Ok (xi, Z.land v 0xffffffffffff).

(** The functions on the words [s] of the program, with [__seed48] as state. *)
Definition nrand48 (s seed : list Z) : outcome (list Z * Z) :=
  let! (s, v) := __rand48_step s (drop 3 seed) in Ok (s, Z.shiftr v 17).
Definition jrand48 (s seed : list Z) : outcome (list Z * Z) :=
  let! (s, v) := __rand48_step s (drop 3 seed) in Ok (s, s32 (Z.shiftr v 16)).

(** The functions on the words of [__seed48] itself. *)
Definition step48 : M (list Z) Z := fun seed =>
  let! (s, v) := __rand48_step seed (drop 3 seed) in Ok (v, s).
Definition lrand48 : M (list Z) Z := let* v := step48 in sret (Z.shiftr v 17).
Definition mrand48 : M (list Z) Z := let* v := step48 in sret (s32 (Z.shiftr v 16)).

(** [memcpy] of [k] words *)
Definition copy_words (k : nat) (src dst : list Z) : outcome (list Z) :=
  if (k <=? length src)%nat && (k <=? length dst)%nat then Ok (take k src ++ drop k dst) else UB.

(** The words that the pointer returned points to. *)
Definition seed48 (s : list Z) : M (list Z) (list Z) := fun seed =>
  let! p := copy_words 3 seed [0; 0; 0] in
  let! seed := copy_words 3 s seed in
  Ok (p, seed).
Definition srand48 (v : Z) : M (list Z) unit :=
  let* _ := seed48 [0x330e; u16 v; u16 (Z.shiftr v 16)] in sret tt.
Definition lcong48 (p : list Z) : M (list Z) unit := fun seed =>
  let! seed := copy_words 7 p seed in Ok (tt, seed).
