(* ===== verification/RandomSpec.v ===== *)
(** The sequences the generators promise.

    [random] is a lagged Fibonacci generator: with a window of the last values, the next is the sum of the oldest
    and the one [sep] places back.  The array of the code is the window, turned by [i].  [random_sequence] shows that the
    calls give that sequence, [random_states] that a program may switch between state arrays without disturbing
    any of the sequences. *)

From S2P Require Import Prelude Random.

(** * The generator *)

Inductive gen : Type := Lcg (v : Z) | Lag (sep : nat) (window : list Z).

Definition next (g : gen) : Z * gen :=
  match g with
  | Lcg v => let v' := (1103515245 * v + 12345) mod 2 ^ 31 in (v', Lcg v')
  | Lag sep w => let v := (nth 0 w 0 + nth (length w - sep) w 0) mod 2 ^ 32 in (v / 2, Lag sep (tail w ++ [v]))
  end.
Fixpoint take_next (k : nat) (g : gen) : list Z * gen :=
  match k with
  | O => ([], g)
  | S k => let '(v, g) := next g in let '(vs, g) := take_next k g in (v :: vs, g)
  end.

(** The upper halves of a sequence of 64-bit numbers. *)
Fixpoint halves (k : nat) (s : Z) : list Z :=
  match k with
  | O => []
  | S k => let s := (6364136223846793005 * s + 1) mod 2 ^ 64 in s / 2 ^ 32 :: halves k s
  end.
Definition sep_of (n : Z) : nat := if (n =? 31) || (n =? 7) then 3%nat else 1%nat.
(** The first number is made odd. *)
Definition odd_first (l : list Z) : list Z := match l with [] => [] | v :: l => Z.lor v 1 :: l end.
Definition seeded (n seed : Z) : gen :=
  if n =? 0 then Lcg seed
  else let l := odd_first (halves (Z.to_nat n) seed) in Lag (sep_of n) (drop (sep_of n) l ++ take (sep_of n) l).

(** * The state *)

(** The generator of an array of words [l], its header apart. *)
Definition gen_of (n i : Z) (l : list Z) : gen :=
  if n =? 0 then Lcg (nth 0 l 0) else let l := take (Z.to_nat n) l in Lag (sep_of n) (drop (Z.to_nat i) l ++ take (Z.to_nat i) l).

Definition size_ok (n : Z) : Prop := n = 0 \/ n = 7 \/ n = 15 \/ n = 31 \/ n = 63.
(** Where [i] and [j] are. *)
Definition places_ok (n i j : Z) : Prop :=
  size_ok n /\ 0 <= i < 256 /\ 0 <= j < 256 /\ (n <> 0 -> i < n /\ j = (i - Z.of_nat (sep_of n)) mod n).

(** A block with a header and enough words. *)
Definition block_ok (n : Z) (l : list Z) : Prop := Z.max 1 n < zlen l /\ Forall (fun v => 0 <= v < 2 ^ 32) l.

(** The state is at [g]. *)
Definition at_gen (w : rstate) (g : gen) : Prop :=
  exists h l, blocks w !! x w = Some (h :: l) /\ block_ok (n w) (h :: l) /\ places_ok (n w) (i w) (j w) /\ g = gen_of (n w) (i w) l.

(** * Reading and writing words *)

Lemma lookup_nth_in (l : list Z) (k : nat) : (k < length l)%nat -> l !! k = Some (nth k l 0).
Proof. intros Hk. destruct (nth_lookup_or_length l k 0); [done|lia]. Qed.

Lemma word_spec w h l k : blocks w !! x w = Some (h :: l) -> 0 <= k < zlen l -> word k w = Ok (nth (Z.to_nat k) l 0, w).
Proof.
  intros E Hk. unfold word. rewrite E. cbn [deref obind]. unfold zget. rewrite (proj2 (Z.leb_le 0 (k + 1))) by lia. replace (Z.to_nat (k + 1)) with (S (Z.to_nat k)) by lia.
  change ((h :: l) !! S (Z.to_nat k)) with (l !! Z.to_nat k). by rewrite lookup_nth_in by (unfold zlen in *; lia).
Qed.

Lemma set_word_spec w h l k v : blocks w !! x w = Some (h :: l) -> 0 <= k < zlen l -> set_word k v w = Ok (tt, with_blocks (<[x w := h :: <[Z.to_nat k := v]> l]> (blocks w)) w).
Proof.
  intros E Hk. unfold set_word. rewrite E. cbn [deref obind]. unfold zset. rewrite (proj2 (Z.leb_le 0 (k + 1))), (proj2 (Z.ltb_lt (k + 1) _)) by (rewrite ?zlen_cons; lia). cbn [andb obind].
  by replace (Z.to_nat (k + 1)) with (S (Z.to_nat k)) by lia.
Qed.

(** * Turning the array *)

Lemma nth_turn (l : list Z) (i k : nat) : (i < length l)%nat -> (k < length l)%nat -> nth k (drop i l ++ take i l) 0 = nth ((i + k) mod length l) l 0.
Proof.
  intros Hi Hk. destruct (Nat.lt_ge_cases (i + k) (length l)).
  - rewrite app_nth1 by (rewrite length_drop; lia). rewrite Nat.mod_small by lia. by rewrite !nth_lookup, lookup_drop.
  - rewrite app_nth2 by (rewrite length_drop; lia). rewrite length_drop, !nth_lookup, lookup_take_lt by lia. do 2 f_equal.
    apply (Nat.mod_unique _ _ 1); lia.
Qed.

Lemma turn_step (l : list Z) (i : nat) v : (i < length l)%nat ->
  let i' := if (i + 1 =? length l)%nat then 0%nat else (i + 1)%nat in
  drop i' (<[i := v]> l) ++ take i' (<[i := v]> l) = tail (drop i l ++ take i l) ++ [v].
Proof.
  intros Hi i'. assert (<[i := v]> l = take i l ++ v :: drop (S i) l) as E by (by rewrite insert_take_drop by lia). rewrite (drop_S l (nth i l 0) i) by (by apply lookup_nth_in). cbn [app tail].
  unfold i'. destruct (Nat.eqb_spec (i + 1) (length l)) as [Hl|Hl].
  - rewrite drop_0, E. cbn [take]. rewrite app_nil_r, (drop_ge l) by lia. done.
  - rewrite drop_insert_lt, E by lia. replace (i + 1)%nat with (S i) by lia. rewrite <- app_assoc. f_equal.
    rewrite take_app_ge by (rewrite length_take; lia). rewrite length_take, Nat.min_l by lia. by replace (S i - i)%nat with 1%nat by lia.
Qed.

(** * A call of [random] *)

Lemma sep_range n : size_ok n -> n <> 0 -> (1 <= sep_of n)%nat /\ Z.of_nat (sep_of n) < n.
Proof. unfold size_ok, sep_of. intros [-> |[-> |[-> |[-> | ->]]]]; cbn; lia. Qed.

Lemma lcg31_spec v : lcg31 v = (1103515245 * v + 12345) mod 2 ^ 31.
Proof.
  unfold lcg31, u32. change 0x7fffffff with (Z.ones 31). rewrite Z.land_ones by lia. apply Z.mod_mod_divide. by exists 2.
Qed.

(** The other blocks are left alone, and the array stays. *)
Definition frame (w w' : rstate) : Prop := x w' = x w /\ n w' = n w /\ forall b, b <> x w -> blocks w' !! b = blocks w !! b.

Lemma frame_trans w1 w2 w3 : frame w1 w2 -> frame w2 w3 -> frame w1 w3.
Proof. intros (A1 & A2 & A3) (B1 & B2 & B3). split_and!; [congruence..|]. intros b Hb. rewrite B3 by congruence. by apply A3. Qed.

Lemma random_lcg w h l : n w = 0 -> blocks w !! x w = Some (h :: l) -> 0 < zlen l ->
  random w = Ok (lcg31 (nth 0 l 0), with_blocks (<[x w := h :: <[0%nat := lcg31 (nth 0 l 0)]> l]> (blocks w)) w).
Proof.
  intros Hn E Hl. unfold random. unfold sbind at 1, sget at 1. cbn [obind fst snd]. rewrite Hn. change (0 =? 0) with true. cbv iota.
  rewrite (sbind_Ok _ _ _ _ _ (word_spec w h l 0 E ltac:(lia))). by rewrite (sbind_Ok _ _ _ _ _ (set_word_spec w h l 0 _ E ltac:(lia))).
Qed.

Lemma random_lag w h l : n w <> 0 -> blocks w !! x w = Some (h :: l) -> 0 <= i w < zlen l -> 0 <= j w < zlen l ->
  let v := u32 (nth (Z.to_nat (i w)) l 0 + nth (Z.to_nat (j w)) l 0) in
  random w = Ok (Z.shiftr v 1, with_j (if j w + 1 =? n w then 0 else j w + 1) (with_i (if i w + 1 =? n w then 0 else i w + 1)
    (with_blocks (<[x w := h :: <[Z.to_nat (i w) := v]> l]> (blocks w)) w))).
Proof.
  intros Hn E Hi Hj v. unfold random. unfold sbind at 1, sget at 1. cbn [obind fst snd]. rewrite (proj2 (Z.eqb_neq _ 0) Hn). unfold sbind at 1 2, sget at 1 2. cbn [obind fst snd].
  rewrite (sbind_Ok _ _ _ _ _ (word_spec w h l (i w) E Hi)), (sbind_Ok _ _ _ _ _ (word_spec w h l (j w) E Hj)). fold v.
  rewrite (sbind_Ok _ _ _ _ _ (set_word_spec w h l (i w) v E Hi)). erewrite sbind_Ok.
  2:{ apply (word_spec _ h (<[Z.to_nat (i w) := v]> l)); [apply lookup_insert_eq|]. unfold zlen. by rewrite length_insert. }
  rewrite nth_lookup, list_lookup_insert_eq by (unfold zlen in *; lia). done.
Qed.

Lemma at_gen_length n l h : block_ok n (h :: l) -> size_ok n -> n <> 0 -> length (take (Z.to_nat n) l) = Z.to_nat n.
Proof. unfold block_ok, size_ok. intros [H _] Hs Hn. rewrite zlen_cons in H. rewrite length_take. unfold zlen in H. lia. Qed.

Lemma block_ok_insert n h l k v : block_ok n (h :: l) -> 0 <= v < 2 ^ 32 -> block_ok n (h :: <[k := v]> l).
Proof.
  intros [H1 H2] Hv. apply Forall_cons in H2 as [Hh Hl]. rewrite zlen_cons in H1. split; [rewrite zlen_cons; unfold zlen in *; rewrite length_insert; lia|]. constructor; [done|by apply Forall_insert].
Qed.

Lemma mod_next a m : 0 < m -> (if a mod m + 1 =? m then 0 else a mod m + 1) = (a + 1) mod m.
Proof.
  intros Hm. pose proof (Z.mod_pos_bound a m Hm). rewrite <- (Zplus_mod_idemp_l a 1). destruct (Z.eqb_spec (a mod m + 1) m) as [-> |]; [by rewrite Z.mod_same by lia|by rewrite (Z.mod_small (a mod m + 1)) by lia].
Qed.

Lemma random_next w g : at_gen w g -> exists w', random w = Ok (fst (next g), w') /\ at_gen w' (snd (next g)) /\ frame w w'.
Proof.
  intros (h & l & E & Hb & (Hs & Hi & Hj & Hp) & ->). pose proof Hb as [Hlen Hu]. rewrite zlen_cons in Hlen. apply Forall_cons in Hu as [Hh Hu]. unfold gen_of.
  assert (forall w' : rstate, x w' = x w -> n w' = n w -> (exists l', blocks w' = <[x w := l']> (blocks w)) -> frame w w') as Hframe.
  { intros w' E1 E2 (l' & E3). split_and!; try done. intros b Hb'. by rewrite E3, lookup_insert_ne. }
  destruct (Z.eqb_spec (n w) 0) as [Hn|Hn].
  - rewrite (random_lcg w h l Hn E) by lia. rewrite lcg31_spec. eexists. split; [done|]. split; [|apply Hframe; by eauto]. cbn [next snd]. set (v := _ mod _).
    exists h, (<[0%nat := v]> l). cbn [with_blocks blocks x n i j]. rewrite lookup_insert_eq. split_and!; try done.
    + apply block_ok_insert; [done|]. pose proof (Z.mod_pos_bound (1103515245 * nth 0 l 0 + 12345) (2 ^ 31) ltac:(lia)). unfold v. lia.
    + unfold gen_of. rewrite Hn. change (0 =? 0) with true. cbv iota. destruct l; [unfold zlen in Hlen; cbn in Hlen; lia|done].
  - destruct (Hp Hn) as [Hin Ej]. pose proof (sep_range _ Hs Hn) as [Hsep1 Hsep]. assert (7 <= n w <= 63) as Hn7 by (unfold size_ok in Hs; lia).
    assert (0 <= j w < n w) as Hjn by (rewrite Ej; apply Z.mod_pos_bound; lia). rewrite (random_lag w h l Hn E) by lia. cbn [next]. set (L := take (Z.to_nat (n w)) l).
    assert (length L = Z.to_nat (n w)) as HL by (by eapply at_gen_length).
    assert (forall k, 0 <= k < n w -> nth (Z.to_nat k) l 0 = nth (Z.to_nat k) L 0) as Hnth by (intros k Hk; unfold L; by rewrite !nth_lookup, lookup_take_lt by lia).
    assert (nth 0 (drop (Z.to_nat (i w)) L ++ take (Z.to_nat (i w)) L) 0 = nth (Z.to_nat (i w)) l 0) as ->.
    { rewrite nth_turn, Nat.add_0_r, Nat.mod_small, Hnth by lia. done. }
    assert (nth (length (drop (Z.to_nat (i w)) L ++ take (Z.to_nat (i w)) L) - sep_of (n w)) (drop (Z.to_nat (i w)) L ++ take (Z.to_nat (i w)) L) 0 = nth (Z.to_nat (j w)) l 0) as ->.
    { rewrite length_app, length_drop, length_take, nth_turn, Hnth by lia. f_equal. rewrite HL, Ej. apply Nat2Z.inj.
      pose proof (Z.mod_pos_bound (i w - Z.of_nat (sep_of (n w))) (n w) ltac:(lia)). rewrite Nat2Z.inj_mod, !Z2Nat.id by lia.
      replace (Z.of_nat (Z.to_nat (i w) + (Z.to_nat (n w) - Z.to_nat (i w) + Z.to_nat (i w) `min` Z.to_nat (n w) - sep_of (n w)))) with (i w - Z.of_nat (sep_of (n w)) + 1 * n w) by lia.
      by rewrite Z.mod_add by lia. }
    fold (u32 (nth (Z.to_nat (i w)) l 0 + nth (Z.to_nat (j w)) l 0)). set (v := u32 _). rewrite Z.shiftr_div_pow2 by lia. change (2 ^ 1) with 2. eexists. split; [done|]. split; [|apply Hframe; by eauto].
    cbn [snd]. exists h, (<[Z.to_nat (i w) := v]> l). cbn [with_j with_i with_blocks blocks x n i j]. rewrite lookup_insert_eq. split_and!; try done.
    + apply block_ok_insert; [done|]. unfold v, u32. apply Z.mod_pos_bound. lia.
    + split; [done|]. split; [case_cmp; lia|]. split; [case_cmp; lia|]. intros _. split; [case_cmp; lia|]. rewrite Ej, mod_next by lia.
      destruct (Z.eqb_spec (i w + 1) (n w)) as [Hw|Hw]; [|f_equal; lia]. replace (i w - Z.of_nat (sep_of (n w)) + 1) with (0 - Z.of_nat (sep_of (n w)) + 1 * n w) by lia. by rewrite Z.mod_add by lia.
    + unfold gen_of. rewrite (proj2 (Z.eqb_neq _ 0) Hn). rewrite take_insert_lt by lia. fold L. f_equal. rewrite <- (turn_step L (Z.to_nat (i w)) v) by lia. rewrite HL.
      assert ((if (Z.to_nat (i w) + 1 =? Z.to_nat (n w))%nat then 0%nat else (Z.to_nat (i w) + 1)%nat) = Z.to_nat (if i w + 1 =? n w then 0 else i w + 1)) as -> by (destruct (Nat.eqb_spec (Z.to_nat (i w) + 1) (Z.to_nat (n w))) as [E1|E1]; destruct (Z.eqb_spec (i w + 1) (n w)) as [E2|E2]; lia). done.
Qed.

(** * Saving and loading *)

Definition header (n i j : Z) : Z := n * 2 ^ 16 + i * 2 ^ 8 + j.

Lemma header_pack n i j : 0 <= n < 2 ^ 15 -> 0 <= i < 256 -> 0 <= j < 256 -> u32 (Z.lor (Z.lor (Z.shiftl n 16) (Z.shiftl i 8)) j) = header n i j.
Proof.
  intros Hn Hi Hj. rewrite !Z.shiftl_mul_pow2 by lia. rewrite lor_add by lia. replace (n * 2 ^ 16 + i * 2 ^ 8) with ((n * 2 ^ 8 + i) * 2 ^ 8) by lia. rewrite lor_add by lia.
  unfold header. rewrite u32_id by (unfold in_u; lia). lia.
Qed.
Lemma header_unpack n i j : 0 <= i < 256 -> 0 <= j < 256 ->
  Z.shiftr (header n i j) 16 = n /\ Z.land (Z.shiftr (header n i j) 8) 0xff = i /\ Z.land (header n i j) 0xff = j.
Proof.
  intros Hi Hj. unfold header. rewrite !Z.shiftr_div_pow2 by lia. change 0xff with (Z.ones 8). rewrite !Z.land_ones by lia. change (2 ^ 16) with 65536. change (2 ^ 8) with 256. split_and!.
  - symmetry. apply (Z.div_unique_pos _ _ _ (i * 256 + j)); lia.
  - replace ((n * 65536 + i * 256 + j) / 256) with (n * 256 + i) by (apply (Z.div_unique_pos _ _ _ j); lia). rewrite Z.add_comm, Z.mod_add, Z.mod_small; lia.
  - replace (n * 65536 + i * 256 + j) with (j + (n * 256 + i) * 256) by lia. rewrite Z.mod_add, Z.mod_small; lia.
Qed.

(** The array [b] holds the generator [g], to be loaded. *)
Definition saved (w : rstate) (b : Z) (g : gen) : Prop :=
  exists n i j l, blocks w !! b = Some (header n i j :: l) /\ block_ok n (header n i j :: l) /\ places_ok n i j /\ g = gen_of n i l.

Lemma block_header n i j h l : block_ok n (h :: l) -> places_ok n i j -> block_ok n (header n i j :: l).
Proof.
  intros [H1 H2] (Hs & Hi & Hj & _). apply Forall_cons in H2 as [_ Hl]. rewrite zlen_cons in H1. split; [by rewrite zlen_cons|]. constructor; [|done]. unfold header, size_ok in *. lia.
Qed.

Lemma set_header w h l v : blocks w !! x w = Some (h :: l) -> set_word (-1) v w = Ok (tt, with_blocks (<[x w := v :: l]> (blocks w)) w).
Proof. intros E. unfold set_word. rewrite E. cbn [deref obind]. unfold zset. change (-1 + 1) with 0. rewrite zlen_cons, (proj2 (Z.ltb_lt 0 _)) by (pose proof (zlen_nonneg l); lia). done. Qed.

Lemma savestate_spec w g : at_gen w g -> exists w', savestate w = Ok (x w, w') /\ at_gen w' g /\ saved w' (x w) g /\ frame w w' /\ i w' = i w /\ j w' = j w.
Proof.
  intros (h & l & E & Hb & Hp & ->). pose proof Hp as (Hs & Hi & Hj & _). unfold savestate. unfold sbind at 1 2 3, sget at 1 2 3. cbn [obind fst snd].
  rewrite header_pack by (unfold size_ok in Hs; lia). rewrite (sbind_Ok _ _ _ _ _ (set_header w h l _ E)). pose proof (block_header _ _ _ _ _ Hb Hp) as Hb'.
  eexists. split; [done|]. split; [|split; [|split; [|done]]].
  - exists (header (n w) (i w) (j w)), l. cbn [with_blocks blocks x n i j]. by rewrite lookup_insert_eq.
  - exists (n w), (i w), (j w), l. cbn [with_blocks blocks]. by rewrite lookup_insert_eq.
  - split_and!; try done. intros b Hb0. cbn [with_blocks blocks]. by rewrite lookup_insert_ne.
Qed.

Lemma word_header w h l : blocks w !! x w = Some (h :: l) -> word (-1) w = Ok (h, w).
Proof. intros E. unfold word. by rewrite E. Qed.

Lemma loadstate_spec w b g : saved w b g -> exists w', loadstate b w = Ok (tt, w') /\ at_gen w' g /\ x w' = b /\ blocks w' = blocks w.
Proof.
  intros (n & i & j & l & E & Hb & Hp & ->). pose proof Hp as (Hs & Hi & Hj & _). destruct (header_unpack n i j Hi Hj) as (E1 & E2 & E3). unfold loadstate.
  assert (forall w', blocks w' = blocks w -> x w' = b -> word (-1) w' = Ok (header n i j, w')) as Hw by (intros w' Eb Ex; apply (word_header w' _ l); by rewrite Eb, Ex).
  unfold sbind at 1, sput at 1. cbn [obind fst snd]. erewrite sbind_Ok by (by apply Hw). unfold sbind at 1, sput at 1. cbn [obind fst snd]. erewrite sbind_Ok by (by apply Hw).
  unfold sbind at 1, sput at 1. cbn [obind fst snd]. erewrite sbind_Ok by (by apply Hw). rewrite E1, E2, E3. eexists. split; [done|]. split; [|done]. by exists (header n i j), l.
Qed.

Lemma setstate_spec w b g g' : at_gen w g -> saved w b g' -> b <> x w -> exists w', setstate b w = Ok (x w, w') /\ at_gen w' g' /\ saved w' (x w) g /\ x w' = b /\
  forall c, c <> x w -> blocks w' !! c = blocks w !! c.
Proof.
  intros Hg Hs Hne. destruct (savestate_spec w g Hg) as (w1 & E1 & _ & Hsv & (Hx & Hn & Hf) & _). unfold setstate. rewrite (sbind_Ok _ _ _ _ _ E1).
  assert (saved w1 b g') as Hs1 by (destruct Hs as (n0 & i0 & j0 & l & E & H); exists n0, i0, j0, l; by rewrite Hf).
  destruct (loadstate_spec w1 b g' Hs1) as (w2 & E2 & Hg2 & Hx2 & Hb2). rewrite (sbind_Ok _ _ _ _ _ E2). exists w2. split; [done|]. split; [done|]. split; [|split; [done|]].
  - destruct Hsv as (n0 & i0 & j0 & l & E & H). exists n0, i0, j0, l. by rewrite Hb2.
  - intros c Hc. rewrite Hb2. by apply Hf.
Qed.

(** * Seeding *)

Lemma lcg64_half s : 0 <= lcg64 s < 2 ^ 64 /\ Z.shiftr (lcg64 s) 32 = (6364136223846793005 * s + 1) mod 2 ^ 64 / 2 ^ 32.
Proof. unfold lcg64, u64. split; [apply Z.mod_pos_bound; lia|by rewrite Z.shiftr_div_pow2 by lia]. Qed.

Lemma halves_length m : forall s, length (halves m s) = m.
Proof. induction m as [|m IH]; intros s; cbn; [done|by rewrite IH]. Qed.
Lemma halves_range m : forall s, Forall (fun v => 0 <= v < 2 ^ 32) (halves m s).
Proof.
  induction m as [|m IH]; intros s; cbn [halves]; constructor; [|apply IH]. pose proof (Z.mod_pos_bound (6364136223846793005 * s + 1) (2 ^ 64) ltac:(lia)).
  split; [apply Z.div_pos; lia|apply Z.div_lt_upper_bound; lia].
Qed.

Lemma seed_loop_spec m : forall w h a l k s, blocks w !! x w = Some (h :: a ++ l) -> k = zlen a -> (m <= length l)%nat ->
  seed_loop m k s w = Ok (tt, with_blocks (<[x w := h :: a ++ halves m s ++ drop m l]> (blocks w)) w).
Proof.
  induction m as [|m IH]; intros w h a l k s E -> Hl; cbn [seed_loop halves].
  - cbn [app drop]. unfold sret. rewrite insert_id by done. by destruct w.
  - destruct l as [|y l]; [cbn in Hl; lia|]. pose proof (zlen_nonneg a). rewrite (sbind_Ok _ _ _ _ _ (set_word_spec w h (a ++ y :: l) (zlen a) _ E ltac:(rewrite zlen_app, zlen_cons; pose proof (zlen_nonneg l); lia))).
    destruct (lcg64_half s) as [_ ->]. replace (Z.to_nat (zlen a)) with (length a) by (unfold zlen; lia). rewrite insert_app_r_alt, Nat.sub_diag by lia. cbn [insert list_insert].
    set (v := _ / _). rewrite (IH _ h (a ++ [v]) l _ (lcg64 s)); [|cbn [with_blocks blocks x]; rewrite lookup_insert_eq; by rewrite <- app_assoc|by rewrite zlen_app|cbn in Hl; lia].
    cbn [with_blocks blocks x drop]. rewrite insert_insert_eq, <- !app_assoc. done.
Qed.

Lemma lor_one v : Z.lor v 1 = v / 2 * 2 + 1.
Proof.
  pose proof (Z.div_mod v 2 ltac:(lia)) as E. pose proof (Z.mod_pos_bound v 2 ltac:(lia)) as Hm. assert (v = Z.lor (v / 2 * 2 ^ 1) (v mod 2)) as -> by (rewrite lor_add by lia; lia).
  rewrite <- Z.lor_assoc. assert (Z.lor (v mod 2) 1 = 1) as -> by (assert (v mod 2 = 0 \/ v mod 2 = 1) as [-> | ->] by lia; done). rewrite !lor_add by lia. rewrite Z.div_add_l, (Z.div_small (v mod 2)) by lia. lia.
Qed.

Lemma srandom_spec w h l seed : blocks w !! x w = Some (h :: l) -> block_ok (n w) (h :: l) -> size_ok (n w) -> 0 <= seed < 2 ^ 32 -> 0 <= i w < 256 -> 0 <= j w < 256 ->
  exists w', __srandom seed w = Ok (tt, w') /\ at_gen w' (seeded (n w) seed) /\ frame w w'.
Proof.
  intros E Hb Hs Hseed Hi Hj. pose proof Hb as [Hlen Hu]. rewrite zlen_cons in Hlen. unfold __srandom. unfold sbind at 1, sget at 1. cbn [obind fst snd].
  assert (forall w' l', x w' = x w -> n w' = n w -> blocks w' = <[x w := l']> (blocks w) -> frame w w') as Hframe.
  { intros w' l' E1 E2 E3. split_and!; try done. intros b Hb'. by rewrite E3, lookup_insert_ne. }
  unfold seeded. destruct (Z.eqb_spec (n w) 0) as [Hn|Hn].
  - rewrite (set_word_spec w h l 0 _ E) by lia. rewrite u32_id by done. eexists. split; [done|]. split; [|by eapply Hframe]. exists h, (<[0%nat := seed]> l). cbn [with_blocks blocks x n i j]. rewrite lookup_insert_eq.
    split_and!; try done; [by apply block_ok_insert|]. unfold gen_of. rewrite Hn. change (0 =? 0) with true. cbv iota. destruct l; [unfold zlen in Hlen; cbn in Hlen; lia|done].
  - assert (7 <= n w <= 63) as Hn7 by (unfold size_ok in Hs; lia). pose proof (sep_range _ Hs Hn) as [Hsep1 Hsep]. unfold sbind at 1 2, sput at 1 2. cbn [obind fst snd].
    set (w1 := with_j 0 _). assert (i w1 = Z.of_nat (sep_of (n w))) as Ei by (unfold w1, sep_of; cbn; by destruct (_ || _)).
    erewrite sbind_Ok by (apply (seed_loop_spec (Z.to_nat (n w)) w1 h [] l 0 seed); [exact E|done|unfold zlen in *; lia]). cbn [app].
    set (H := halves (Z.to_nat (n w)) seed). assert (length H = Z.to_nat (n w)) as HL by apply halves_length. assert (Forall (fun v => 0 <= v < 2 ^ 32) H) as HF by apply halves_range.
    destruct H as [|v0 H]; [cbn in HL; lia|]. set (L := (v0 :: H) ++ drop (Z.to_nat (n w)) l). assert (zlen L = zlen l) as HzL by (unfold zlen, L in *; rewrite length_app, length_drop; lia).
    set (w2 := with_blocks _ w1). assert (blocks w2 !! x w2 = Some (h :: L)) as E2 by (unfold w2; cbn; apply lookup_insert_eq).
    rewrite (sbind_Ok _ _ _ _ _ (word_spec w2 h L 0 E2 ltac:(lia))), (set_word_spec w2 h L 0 _ E2) by lia. change (nth (Z.to_nat 0) L 0) with v0. change (<[Z.to_nat 0 := Z.lor v0 1]> L) with ((Z.lor v0 1 :: H) ++ drop (Z.to_nat (n w)) l).
    eexists. split; [done|]. split; [|eapply Hframe; [done|done|]; unfold w2; cbn; by rewrite insert_insert_eq].
    exists h, ((Z.lor v0 1 :: H) ++ drop (Z.to_nat (n w)) l). cbn [with_blocks blocks x]. split; [apply lookup_insert_eq|]. split; [|split].
    + apply Forall_cons in HF as [Hv HF]. apply Forall_cons in Hu as [Hh Hu]. split; [rewrite zlen_cons; change (n (with_blocks _ w2)) with (n w); unfold zlen, L in *; cbn [length app] in *; lia|].
      constructor; [done|]. constructor; [|apply Forall_app; split; [done|by apply Forall_drop]]. rewrite lor_one. pose proof (Z.div_mod v0 2 ltac:(lia)). pose proof (Z.mod_pos_bound v0 2 ltac:(lia)). lia.
    + split; [done|]. change (i (with_blocks _ w2)) with (i w1). change (j (with_blocks _ w2)) with 0. change (n (with_blocks _ w2)) with (n w). rewrite Ei. split; [lia|]. split; [lia|]. intros _. split; [lia|].
      by rewrite Z.sub_diag, Z.mod_0_l by lia.
    + unfold gen_of. change (i (with_blocks _ w2)) with (i w1). change (n (with_blocks _ w2)) with (n w). rewrite (proj2 (Z.eqb_neq _ 0) Hn), Ei, Nat2Z.id. rewrite take_app_le by (cbn [length] in *; lia).
      rewrite (take_ge (Z.lor v0 1 :: H) (Z.to_nat (n w))) by (cbn [length] in *; lia). done.
Qed.

(** The size of the generator for an array of [size] bytes. *)
Definition length_for (size : Z) : Z := if size <? 32 then 0 else if size <? 64 then 7 else if size <? 128 then 15 else if size <? 256 then 31 else 63.

(** A block of the program: words, [size] bytes at least. *)
Definition room (w : rstate) (b size : Z) : Prop := exists l, blocks w !! b = Some l /\ Forall (fun v => 0 <= v < 2 ^ 32) l /\ 8 <= size <= 4 * zlen l.

Lemma initstate_spec w g seed b size : at_gen w g -> room w b size -> b <> x w -> 0 <= seed < 2 ^ 32 ->
  exists w', initstate seed b size w = Ok (Some (x w), w') /\ at_gen w' (seeded (length_for size) seed) /\ saved w' (x w) g /\ x w' = b /\
    forall c, c <> x w -> c <> b -> blocks w' !! c = blocks w !! c.
Proof.
  intros Hg (l & El & Hl & Hsz) Hne Hseed. unfold initstate. rewrite (proj2 (Z.ltb_ge size 8)) by lia. destruct (savestate_spec w g Hg) as (w1 & E1 & Hg1 & Hs1 & (Hx1 & Hn1 & Hf1) & Hi1 & Hj1).
  rewrite (sbind_Ok _ _ _ _ _ E1). fold (length_for size). unfold sbind at 1 2, sput at 1 2. cbn [obind fst snd]. set (w2 := with_x b _).
  destruct l as [|h l]; [unfold zlen in Hsz; cbn in Hsz; lia|]. assert (blocks w2 !! x w2 = Some (h :: l)) as E2 by (unfold w2; cbn; by rewrite Hf1).
  assert (size_ok (length_for size) /\ 4 * Z.max 1 (length_for size) + 4 <= size) as [Hsize Hfit] by (unfold size_ok, length_for; repeat case_cmp; lia).
  destruct Hg as (_ & _ & _ & _ & (_ & Hi & Hj & _) & _).
  destruct (srandom_spec w2 h l seed E2) as (w3 & E3 & Hg3 & (Hx3 & Hn3 & Hf3)); try done.
  { split; [|done]. change (n w2) with (length_for size). lia. } { change (i w2) with (i w1). by rewrite Hi1. } { change (j w2) with (j w1). by rewrite Hj1. }
  rewrite (sbind_Ok _ _ _ _ _ E3). destruct (savestate_spec w3 _ Hg3) as (w4 & E4 & Hg4 & _ & (Hx4 & Hn4 & Hf4) & _). rewrite (sbind_Ok _ _ _ _ _ E4). exists w4. split; [done|]. split; [done|].
  assert (forall c, c <> b -> blocks w4 !! c = blocks w1 !! c) as Hkeep by (intros c Hc; rewrite Hf4, Hf3 by (rewrite ?Hx3; done); done).
  split_and!.
  - destruct Hs1 as (n0 & i0 & j0 & l0 & E & H). exists n0, i0, j0, l0. by rewrite Hkeep by done.
  - by rewrite Hx4, Hx3.
  - intros c Hc1 Hc2. rewrite Hkeep by done. by apply Hf1.
Qed.

(** * The promises *)

(** [k] calls *)
Fixpoint randoms (k : nat) : M rstate (list Z) :=
  match k with
  | O => sret []
  | S k => let* v := random in let* vs := randoms k in sret (v :: vs)
  end.

Lemma randoms_spec k : forall w g, at_gen w g -> exists w', randoms k w = Ok (fst (take_next k g), w') /\ at_gen w' (snd (take_next k g)) /\ frame w w'.
Proof.
  induction k as [|k IH]; intros w g Hg; cbn [randoms take_next].
  - exists w. split; [done|]. split; [done|]. by split_and!.
  - destruct (random_next w g Hg) as (w1 & E1 & Hg1 & Hf1). destruct (next g) as [v g1]. cbn [fst snd] in *. destruct (IH w1 g1 Hg1) as (w2 & E2 & Hg2 & Hf2). destruct (take_next k g1) as [vs g2].
    cbn [fst snd] in *. exists w2. rewrite (sbind_Ok _ _ _ _ _ E1), (sbind_Ok _ _ _ _ _ E2). split; [done|]. split; [done|by eapply frame_trans].
Qed.

Lemma next_range g : 0 <= fst (next g) < 2 ^ 31.
Proof.
  destruct g as [v|sep w]; cbn [next fst]; [apply Z.mod_pos_bound; lia|]. set (y := nth 0 w 0 + _). pose proof (Z.mod_pos_bound y (2 ^ 32) ltac:(lia)).
  split; [apply Z.div_pos; lia|apply Z.div_lt_upper_bound; lia].
Qed.
Lemma take_next_range k : forall g, Forall (fun v => 0 <= v < 2 ^ 31) (fst (take_next k g)).
Proof.
  induction k as [|k IH]; intros g; cbn [take_next]; [constructor|]. pose proof (next_range g) as H. destruct (next g) as [v g1]. specialize (IH g1). destruct (take_next k g1). by constructor.
Qed.

(** After [srandom] the calls of [random] give the lagged Fibonacci sequence (or, in a small array, the linear congruential
    one) of the seed, numbers below 2^31, in every state, without touching another array. *)
Theorem random_sequence w g seed k : at_gen w g -> 0 <= seed < 2 ^ 32 ->
  exists w1 w2, srandom seed w = Ok (tt, w1) /\ randoms k w1 = Ok (fst (take_next k (seeded (n w) seed)), w2) /\
    Forall (fun v => 0 <= v < 2 ^ 31) (fst (take_next k (seeded (n w) seed))) /\ frame w w2.
Proof.
  intros (h & l & E & Hb & (Hs & Hi & Hj & _) & _) Hseed. destruct (srandom_spec w h l seed E Hb Hs Hseed Hi Hj) as (w1 & E1 & Hg1 & Hf1).
  destruct (randoms_spec k w1 _ Hg1) as (w2 & E2 & _ & Hf2). exists w1, w2. split_and!; [done|done|apply take_next_range|by eapply frame_trans..].
Qed.

(** A program that starts a second generator in its own array with [initstate], draws from it and goes back with
    [setstate] continues the sequence of the first one where it was, and, after another [setstate], the second
    one too: the variables saved in the first word of an array come back as they were. *)
Theorem random_states w g b size seed k1 k2 k3 : at_gen w g -> room w b size -> b <> x w -> 0 <= seed < 2 ^ 32 ->
  exists w1 w2 w3 w4 w5 w6, initstate seed b size w = Ok (Some (x w), w1) /\
    randoms k1 w1 = Ok (fst (take_next k1 (seeded (length_for size) seed)), w2) /\
    setstate (x w) w2 = Ok (b, w3) /\ randoms k2 w3 = Ok (fst (take_next k2 g), w4) /\
    setstate b w4 = Ok (x w, w5) /\ randoms k3 w5 = Ok (fst (take_next k3 (snd (take_next k1 (seeded (length_for size) seed)))), w6).
Proof.
  intros Hg Hr Hne Hseed. destruct (initstate_spec w g seed b size Hg Hr Hne Hseed) as (w1 & E1 & Hg1 & Hs1 & Hx1 & _).
  destruct (randoms_spec k1 w1 _ Hg1) as (w2 & E2 & Hg2 & (Hx2 & _ & Hf2)). assert (saved w2 (x w) g) as Hs2.
  { destruct Hs1 as (n0 & i0 & j0 & l0 & E & H). exists n0, i0, j0, l0. by rewrite Hf2 by congruence. }
  assert (x w2 = b) as Hb2 by congruence. destruct (setstate_spec w2 (x w) _ g Hg2 Hs2 ltac:(congruence)) as (w3 & E3 & Hg3 & Hs3 & Hx3 & _). rewrite Hb2 in E3, Hs3.
  destruct (randoms_spec k2 w3 _ Hg3) as (w4 & E4 & Hg4 & (Hx4 & _ & Hf4)). assert (saved w4 b (snd (take_next k1 (seeded (length_for size) seed)))) as Hs4.
  { destruct Hs3 as (n0 & i0 & j0 & l0 & E & H). exists n0, i0, j0, l0. by rewrite Hf4 by congruence. }
  assert (x w4 = x w) as Hx4' by congruence. destruct (setstate_spec w4 b _ _ Hg4 Hs4 ltac:(congruence)) as (w5 & E5 & Hg5 & _). rewrite Hx4' in E5.
  destruct (randoms_spec k3 w5 _ Hg5) as (w6 & E6 & _). by exists w1, w2, w3, w4, w5, w6.
Qed.

(** The state at the start is a generator of 31 numbers. *)
Lemma initial_gen user : at_gen (initial user) (gen_of 31 3 (tail init)).
Proof.
  exists 0, (tail init). split; [apply lookup_insert_eq|]. split; [split; [done|by repeat constructor]|]. split; [|done]. split; [by unfold size_ok; auto|]. split_and!; try done.
Qed.

Lemma random_sequence_witness : exists w1 w2, srandom 42 (initial ∅) = Ok (tt, w1) /\ randoms 3 w1 = Ok (fst (take_next 3 (seeded 31 42)), w2) /\
  Forall (fun v => 0 <= v < 2 ^ 31) (fst (take_next 3 (seeded 31 42))) /\ frame (initial ∅) w2.
Proof. apply (random_sequence (initial ∅) (gen_of 31 3 (tail init)) 42 3); [apply initial_gen|lia]. Defined.

Lemma random_states_witness : let w := initial {[ 1 := replicate 8 0 ]} in
  exists w1 w2 w3 w4 w5 w6, initstate 7 1 32 w = Ok (Some INIT, w1) /\
    randoms 2 w1 = Ok (fst (take_next 2 (seeded 7 7)), w2) /\
    setstate INIT w2 = Ok (1, w3) /\ randoms 2 w3 = Ok (fst (take_next 2 (gen_of 31 3 (tail init))), w4) /\
    setstate 1 w4 = Ok (INIT, w5) /\ randoms 2 w5 = Ok (fst (take_next 2 (snd (take_next 2 (seeded 7 7)))), w6).
Proof.
  apply (random_states (initial {[ 1 := replicate 8 0 ]}) (gen_of 31 3 (tail init)) 1 32 7 2 2 2).
  - apply initial_gen.
  - exists (replicate 8 0). split; [reflexivity|]. split; [repeat constructor; lia|]. vm_compute. split; discriminate.
  - discriminate.
  - lia.
Defined.

(** * The 48-bit generators *)

Definition num48 (l : list Z) : Z := nth 0 l 0 + nth 1 l 0 * 2 ^ 16 + nth 2 l 0 * 2 ^ 32.
Definition words16 (l : list Z) : Prop := Forall (fun v => 0 <= v < 2 ^ 16) l.

Lemma assemble a b c : 0 <= a < 2 ^ 16 -> 0 <= b < 2 ^ 16 -> 0 <= c < 2 ^ 16 -> Z.lor (Z.lor a (u32 (Z.shiftl b 16))) (u64 (Z.shiftl c 32)) = a + b * 2 ^ 16 + c * 2 ^ 32.
Proof.
  intros Ha Hb Hc. rewrite !Z.shiftl_mul_pow2 by lia. rewrite u32_id, u64_id by (unfold in_u; lia). rewrite (Z.lor_comm a), lor_add by lia. rewrite Z.lor_comm, lor_add by lia. lia.
Qed.

Lemma split48 v : 0 <= v -> u16 v + u16 (Z.shiftr v 16) * 2 ^ 16 + u16 (Z.shiftr v 32) * 2 ^ 32 = v mod 2 ^ 48.
Proof.
  intros Hv. unfold u16. rewrite !Z.shiftr_div_pow2 by lia. replace (2 ^ 48) with (2 ^ 16 * (2 ^ 16 * 2 ^ 16)) by lia. rewrite Z.rem_mul_r, (Z.rem_mul_r (v / 2 ^ 16)) by lia.
  rewrite Z.div_div by lia. change (2 ^ 16 * 2 ^ 16) with (2 ^ 32). lia.
Qed.

(** A step of the 48-bit generators replaces the number in the three words by [a * x + c] modulo 2^48, with the multiplier and the addend of the
    four words, and returns it. *)
Theorem rand48_step_correct xi lc : words16 xi -> words16 lc -> length xi = 3%nat -> length lc = 4%nat ->
  exists xi', __rand48_step xi lc = Ok (xi', num48 xi') /\ words16 xi' /\ length xi' = 3%nat /\ num48 xi' = (num48 lc * num48 xi + nth 3 lc 0) mod 2 ^ 48.
Proof.
  intros Hx Ha Lx La. destruct xi as [|x0 [|x1 [|x2 xi]]]; try done. destruct xi; [|done]. destruct lc as [|a0 [|a1 [|a2 [|c lc]]]]; try done. destruct lc; [|done].
  unfold words16 in *. rewrite !Forall_cons in Hx. rewrite !Forall_cons in Ha. destruct Hx as (H0 & H1 & H2 & _). destruct Ha as (A0 & A1 & A2 & C & _).
  unfold __rand48_step. change (zget [x0; x1; x2] 0) with (Ok x0). change (zget [x0; x1; x2] 1) with (Ok x1). change (zget [x0; x1; x2] 2) with (Ok x2).
  change (zget [a0; a1; a2; c] 0) with (Ok a0). change (zget [a0; a1; a2; c] 1) with (Ok a1). change (zget [a0; a1; a2; c] 2) with (Ok a2). change (zget [a0; a1; a2; c] 3) with (Ok c). cbn [obind].
  rewrite !assemble by done. change (a0 + a1 * 2 ^ 16 + a2 * 2 ^ 32) with (num48 [a0; a1; a2; c]). change (x0 + x1 * 2 ^ 16 + x2 * 2 ^ 32) with (num48 [x0; x1; x2]).
  set (v := u64 _). change (zset [x0; x1; x2] 0 (u16 v)) with (Ok [u16 v; x1; x2]). cbn [obind].
  change (zset [u16 v; x1; x2] 1 (u16 (Z.shiftr v 16))) with (Ok [u16 v; u16 (Z.shiftr v 16); x2]). cbn [obind].
  change (zset [u16 v; u16 (Z.shiftr v 16); x2] 2 (u16 (Z.shiftr v 32))) with (Ok [u16 v; u16 (Z.shiftr v 16); u16 (Z.shiftr v 32)]). cbn [obind].
  assert (0 <= v) as Hv by (unfold v, u64; apply Z.mod_pos_bound; lia). assert (num48 [u16 v; u16 (Z.shiftr v 16); u16 (Z.shiftr v 32)] = v mod 2 ^ 48) as En by (by apply split48).
  eexists. split; [rewrite En; change 0xffffffffffff with (Z.ones 48); by rewrite Z.land_ones by lia|]. split; [|split; [done|]].
  - unfold words16, u16. repeat constructor; apply Z.mod_pos_bound; lia.
  - rewrite En. unfold v, u64. apply Z.mod_mod_divide. by exists (2 ^ 16).
Qed.
