(* ===== verification/Casecmp.v ===== *)
(** Comparing without case ([libc-top-half/musl/src/string/]: strcasecmp.c, strncasecmp.c, strcasestr.c, and
    [isupper] and [tolower] of ctype/).

    A string is the list of its bytes, without the null, as in the files on numbers and patterns.  [casecmp_correct]
    shows that the functions compare the strings with capital letters made small. *)

From Stdlib Require Import Ascii String.
From S2P Require Import Prelude Intscan IntscanSpec StringsScan StringsSpec Printf PrintfSpec Inet InetSpec.

(** * The code *)

Definition isupper (c : Z) : bool := u32 (u32 c - ch "A") <? 26.
Definition tolower (c : Z) : Z := if isupper c then Z.lor c 32 else c.

Fixpoint strcasecmp_loop (fuel : nat) (l r : list Z) (i : Z) : outcome Z :=
  match fuel with
  | O => NoFuel
  | S fuel' =>
      let! a := at_ l i in
      let! b := at_ r i in
      if ctrue a && ctrue b && ((a =? b) || (tolower a =? tolower b)) then strcasecmp_loop fuel' l r (i + 1)
      else Ok (tolower a - tolower b)
  end.
Definition strcasecmp (l r : list Z) : outcome Z := strcasecmp_loop (S (length l)) l r 0.

Fixpoint strncasecmp_loop (fuel : nat) (l r : list Z) (h i n : Z) : outcome Z :=
  match fuel with
  | O => NoFuel
  | S fuel' =>
      let! a := at_ l (h + i) in
      let! b := at_ r i in
      if ctrue a && ctrue b && ctrue n && ((a =? b) || (tolower a =? tolower b)) then strncasecmp_loop fuel' l r h (i + 1) (n - 1)
      else Ok (tolower a - tolower b)
  end.
(** [strncasecmp(l+h, r, n)] *)
Definition strncasecmp_at (l r : list Z) (h n : Z) : outcome Z :=
  if n =? 0 then Ok 0 else strncasecmp_loop (S (length l)) l r h 0 (n - 1).
Definition strncasecmp (l r : list Z) (n : Z) : outcome Z := strncasecmp_at l r 0 n.

(** The offset of the first match, or [None]. *)
Fixpoint strcasestr_loop (fuel : nat) (h n : list Z) (k : Z) : outcome (option Z) :=
  match fuel with
  | O => NoFuel
  | S fuel' =>
      let! c := at_ h k in
      if c =? 0 then Ok None
      else
        let! d := strncasecmp_at h n k (zlen n) in
        if d =? 0 then Ok (Some k) else strcasestr_loop fuel' h n (k + 1)
  end.
Definition strcasestr (h n : list Z) : outcome (option Z) := strcasestr_loop (S (length h)) h n 0.

(** * The order of texts *)

Fixpoint lex (a b : list Z) : comparison :=
  match a, b with
  | [], [] => Datatypes.Eq
  | [], _ => Datatypes.Lt
  | _, [] => Datatypes.Gt
  | x :: a, y :: b => match x ?= y with Datatypes.Eq => lex a b | c => c end
  end.

Lemma lex_app w a b : lex (w ++ a) (w ++ b) = lex a b.
Proof. induction w as [|x w IH]; cbn; [done|]. by rewrite Z.compare_refl. Qed.
Lemma lex_refl a : lex a a = Datatypes.Eq.
Proof. rewrite <- (app_nil_r a). by rewrite lex_app. Qed.

Lemma lex_antisym a : forall b, lex b a = CompOpp (lex a b).
Proof. induction a as [|x a IH]; intros [|y b]; cbn; try done. rewrite Z.compare_antisym. destruct (x ?= y); cbn; done. Qed.
Lemma lex_eq a : forall b, lex a b = Datatypes.Eq -> a = b.
Proof. induction a as [|x a IH]; intros [|y b]; cbn; try done. destruct (Z.compare_spec x y) as [-> | |]; try done. intros H. by rewrite (IH b H). Qed.
Lemma lex_trans a : forall b c, lex a b <> Gt -> lex b c <> Gt -> lex a c <> Gt.
Proof.
  induction a as [|x a IH]; intros [|y b] [|z c]; cbn; try done.
  destruct (Z.compare_spec x y), (Z.compare_spec y z), (Z.compare_spec x z); try done; try lia. by apply IH.
Qed.

Definition byte (c : Z) : Prop := 0 <= c < 256.
Lemma head_byte L : cstring L -> byte (schar L 0).
Proof. unfold byte. destruct L as [|c L]; [done|]. intros H%Forall_inv. change (schar (c :: L) 0) with c. lia. Qed.

Lemma at_suffix pre L : at_ (pre ++ L) (zlen pre) = Ok (schar L 0).
Proof. pose proof (zlen_nonneg pre). rewrite at_head by (rewrite zlen_app; pose proof (zlen_nonneg L); lia). unfold zlen. by rewrite Nat2Z.id, drop_app_length. Qed.
Lemma at_suffix_len pre k L : zlen pre = k -> at_ (pre ++ L) k = Ok (schar L 0).
Proof. intros <-. apply at_suffix. Qed.
Lemma at_prefix pre L k : 0 <= k < zlen pre -> at_ (pre ++ L) k = Ok (schar pre k).
Proof.
  intros Hk. rewrite at_head by (rewrite zlen_app; pose proof (zlen_nonneg L); lia). rewrite schar_drop, Z.add_0_r by lia. unfold schar. rewrite app_nth1; [done|unfold zlen in *; lia].
Qed.


(** * Capital letters made small *)

Lemma tolower_range c : 0 <= c < 256 -> tolower c = if (65 <=? c) && (c <=? 90) then c + 32 else c.
Proof.
  intros Hc. apply Z.eqb_eq. apply (forall_below (fun c => tolower c =? if (65 <=? c) && (c <=? 90) then c + 32 else c) 256); [by vm_compute|done].
Qed.
Lemma tolower_zero c : 0 <= c < 256 -> tolower c = 0 <-> c = 0.
Proof. intros Hc. rewrite tolower_range by done. destruct (Z.leb_spec 65 c), (Z.leb_spec c 90); cbn [andb]; lia. Qed.
Lemma tolower_byte c : byte c -> byte (tolower c).
Proof. unfold byte. intros Hc. rewrite tolower_range by done. destruct (Z.leb_spec 65 c), (Z.leb_spec c 90); cbn [andb]; lia. Qed.

Definition folded (s : list Z) : list Z := map tolower s.

(** The sign of a difference of characters, where the texts differ there or one of them ends. *)
Lemma differ_here L R n : cstring L -> cstring R -> 0 <= n ->
  let a := schar L 0 in let b := schar R 0 in
  ctrue a && ctrue b && ctrue n && ((a =? b) || (tolower a =? tolower b)) = false ->
  (tolower a - tolower b ?= 0) = lex (folded (take (S (Z.to_nat n)) L)) (folded (take (S (Z.to_nat n)) R)).
Proof.
  intros HL HR Hn. destruct L as [|a L], R as [|b R]; cbv zeta.
  - done.
  - apply Forall_inv in HR. change (schar [] 0) with 0. change (schar (b :: R) 0) with b. intros _. pose proof (tolower_zero b). pose proof (tolower_byte b). unfold byte in *.
    change (tolower 0) with 0. cbn [take folded map lex]. destruct (Z.compare_spec (0 - tolower b) 0); done || lia.
  - apply Forall_inv in HL. change (schar [] 0) with 0. change (schar (a :: L) 0) with a. intros _. pose proof (tolower_zero a). pose proof (tolower_byte a). unfold byte in *.
    change (tolower 0) with 0. cbn [take folded map lex]. destruct (Z.compare_spec (tolower a - 0) 0); done || lia.
  - apply Forall_inv in HL, HR. change (schar (a :: L) 0) with a. change (schar (b :: R) 0) with b. unfold ctrue. rewrite (proj2 (Z.eqb_neq a 0)), (proj2 (Z.eqb_neq b 0)) by lia. cbn [negb andb].
    rewrite <- Z.compare_sub. cbn [take folded map lex]. destruct (Z.eqb_spec n 0) as [-> |]; cbn [negb andb]; [intros _; change (Z.to_nat 0) with O; cbn [take map lex]; by destruct (tolower a ?= tolower b)|].
    intros [_ H]%orb_false_elim. apply Z.eqb_neq in H. by destruct (Z.compare_spec (tolower a) (tolower b)).
Qed.

Lemma strncasecmp_from L : forall R p q h fuel n, zlen p = h + zlen q -> cstring L -> cstring R -> 0 <= n -> (length L < fuel)%nat ->
  exists v, strncasecmp_loop fuel (p ++ L) (q ++ R) h (zlen q) n = Ok v /\
    (v ?= 0) = lex (folded (take (S (Z.to_nat n)) L)) (folded (take (S (Z.to_nat n)) R)).
Proof.
  induction L as [|a L IH]; intros R p q h fuel n Hp HL HR Hn Hf; (destruct fuel as [|fuel]; [cbn in Hf; lia|]); cbn [strncasecmp_loop]; rewrite <- Hp, !at_suffix; cbn [obind];
    match goal with |- context [if ?x then _ else _] => destruct x eqn:E end; [by rewrite andb_false_l in E|eexists; split; [done|by apply differ_here]| |eexists; split; [done|by apply differ_here]].
  destruct R as [|b R]; [by rewrite andb_false_r in E|]. change (schar (a :: L) 0) with a in E. change (schar (b :: R) 0) with b in E.
  apply andb_true_iff in E as [E Ec]. apply andb_true_iff in E as [_ En]. assert (tolower a = tolower b) as Eab by (apply orb_true_iff in Ec as [->%Z.eqb_eq|H%Z.eqb_eq]; done).
  assert (0 < n) by (unfold ctrue in En; apply negb_true_iff, Z.eqb_neq in En; lia). apply Forall_inv_tail in HL, HR.
  destruct (IH R (p ++ [a]) (q ++ [b]) h fuel (n - 1)) as (v & Ev & Hv); try done; [rewrite !zlen_app; change (zlen [a]) with 1; change (zlen [b]) with 1; lia|lia|cbn in Hf; lia|].
  exists v. rewrite <- !app_assoc, zlen_app in Ev. split; [done|]. replace (Z.to_nat n) with (S (Z.to_nat (n - 1))) by lia. rewrite Hv. unfold folded. rewrite !firstn_cons. cbn [map lex]. by rewrite Eab, Z.compare_refl.
Qed.

Lemma strncasecmp_at_spec l r h n : cstring l -> cstring r -> 0 <= h <= zlen l -> 0 <= n ->
  exists v, strncasecmp_at l r h n = Ok v /\ (v ?= 0) = lex (folded (take (Z.to_nat n) (drop (Z.to_nat h) l))) (folded (take (Z.to_nat n) r)).
Proof.
  intros Hl Hr Hh Hn. unfold strncasecmp_at. destruct (Z.eqb_spec n 0) as [-> |]; [by exists 0|].
  replace (Z.to_nat n) with (S (Z.to_nat (n - 1))) by lia.
  pose proof (strncasecmp_from (drop (Z.to_nat h) l) r (take (Z.to_nat h) l) [] h (S (length l)) (n - 1)) as H. rewrite take_drop in H. apply H; try done; try lia.
  - change (zlen (@nil Z)) with 0. rewrite zlen_take_min by lia. lia.
  - by apply Forall_drop.
  - rewrite length_drop. lia.
Qed.

Lemma differ_whole L R : cstring L -> cstring R -> let a := schar L 0 in let b := schar R 0 in
  ctrue a && ctrue b && ((a =? b) || (tolower a =? tolower b)) = false -> (tolower a - tolower b ?= 0) = lex (folded L) (folded R).
Proof.
  intros HL HR a b E. pose proof (zlen_nonneg L). pose proof (zlen_nonneg R). set (n := zlen L + zlen R + 1).
  assert (ctrue n = true) as En by (unfold ctrue; by rewrite (proj2 (Z.eqb_neq n 0)) by lia).
  unfold a, b. rewrite (differ_here L R n) by (done || lia || (by rewrite En, andb_true_r)). rewrite !firstn_all2 by (unfold n, zlen; lia). done.
Qed.

Lemma strcasecmp_from L : forall R p q fuel, zlen p = zlen q -> cstring L -> cstring R -> (length L < fuel)%nat ->
  exists v, strcasecmp_loop fuel (p ++ L) (q ++ R) (zlen q) = Ok v /\ (v ?= 0) = lex (folded L) (folded R).
Proof.
  induction L as [|a L IH]; intros R p q fuel Hp HL HR Hf; (destruct fuel as [|fuel]; [cbn in Hf; lia|]); cbn [strcasecmp_loop]; rewrite (at_suffix_len p), at_suffix by done; cbn [obind];
    match goal with |- context [if ?x then _ else _] => destruct x eqn:E end; [by rewrite andb_false_l in E|eexists; split; [done|by apply differ_whole]| |eexists; split; [done|by apply differ_whole]].
  destruct R as [|b R]; [by rewrite andb_false_r in E|]. change (schar (a :: L) 0) with a in E. change (schar (b :: R) 0) with b in E.
  apply andb_true_iff in E as [_ Ec]. assert (tolower a = tolower b) as Eab by (apply orb_true_iff in Ec as [->%Z.eqb_eq|H%Z.eqb_eq]; done). apply Forall_inv_tail in HL, HR.
  destruct (IH R (p ++ [a]) (q ++ [b]) fuel) as (v & Ev & Hv); try done; [rewrite !zlen_app, Hp; done|cbn in Hf; lia|].
  exists v. rewrite <- !app_assoc, zlen_app in Ev. split; [done|]. rewrite Hv. unfold folded. cbn [map lex]. by rewrite Eab, Z.compare_refl.
Qed.

(** * Searching *)

(** The needle is at [k], but for case. *)
Definition matches (h n : list Z) (k : Z) : Prop := folded (take (length n) (drop (Z.to_nat k) h)) = folded n.

Lemma strncasecmp_matches h n k : cstring h -> cstring n -> 0 <= k <= zlen h -> exists d, strncasecmp_at h n k (zlen n) = Ok d /\ (d = 0 <-> matches h n k).
Proof.
  intros Hh Hn Hk. destruct (strncasecmp_at_spec h n k (zlen n)) as (d & Ed & Hd); [done..|apply zlen_nonneg|]. exists d. split; [done|].
  assert (take (Z.to_nat (zlen n)) n = n) as En by (by rewrite take_zlen by lia). rewrite En in Hd. unfold matches. replace (Z.to_nat (zlen n)) with (length n) in Hd by (unfold zlen; lia). split.
  - intros ->. by apply lex_eq.
  - intros E. rewrite E, lex_refl in Hd. by apply Z.compare_eq in Hd.
Qed.

Lemma strcasestr_from h n : cstring h -> cstring n -> forall fuel k, 0 <= k <= zlen h -> zlen h - k < Z.of_nat fuel ->
  exists r, strcasestr_loop fuel h n k = Ok r /\
    match r with
    | Some i => k <= i < zlen h /\ matches h n i /\ (forall j, k <= j < i -> ~ matches h n j)
    | None => forall j, k <= j < zlen h -> ~ matches h n j
    end.
Proof.
  intros Hh Hn. induction fuel as [|fuel IH]; intros k Hk Hf; [lia|]. cbn [strcasestr_loop]. rewrite at_head by done. cbn [obind].
  rewrite schar_drop, Z.add_0_r by lia. destruct (Z.eqb_spec (schar h k) 0) as [E|E].
  - exists None. split; [done|]. intros j Hj. pose proof (schar_zero h k Hh Hk) as Hz. rewrite E in Hz. cbn in Hz. symmetry in Hz. apply Z.ltb_ge in Hz. lia.
  - apply schar_nonzero in E; [|lia]. destruct (strncasecmp_matches h n k) as (d & -> & Hd); [done..|]. cbn [obind]. destruct (Z.eqb_spec d 0) as [E0|E0].
    + exists (Some k). split; [done|]. apply Hd in E0. split_and!; try lia; done.
    + destruct (IH (k + 1)) as (r & -> & Hr); [lia|lia|]. exists r. split; [done|]. assert (~ matches h n k) as Hnk by (intros H; apply E0; by apply Hd).
      destruct r as [i|].
      * destruct Hr as (H1 & H2 & H3). split_and!; try lia; try done. intros j Hj. destruct (decide (j = k)) as [-> |]; [done|]. apply H3. lia.
      * intros j Hj. destruct (decide (j = k)) as [-> |]; [done|]. apply Hr. lia.
Qed.

(** [strcasecmp] and [strncasecmp] compare two strings as texts whose capital letters have been made small, the
    second one at most [n] characters of each; [strcasestr] gives the first place of the haystack where the needle
    is found that way, and a null pointer when there is none.  (No place is found in an empty haystack, not even
    for an empty needle.) *)
Theorem casecmp_correct l r n : cstring l -> cstring r -> 0 <= n ->
  (exists v, strcasecmp l r = Ok v /\ (v ?= 0) = lex (folded l) (folded r)) /\
  (exists v, strncasecmp l r n = Ok v /\ (v ?= 0) = lex (folded (take (Z.to_nat n) l)) (folded (take (Z.to_nat n) r))) /\
  (exists p, strcasestr l r = Ok p /\
    match p with
    | Some i => 0 <= i < zlen l /\ matches l r i /\ (forall j, 0 <= j < i -> ~ matches l r j)
    | None => forall j, 0 <= j < zlen l -> ~ matches l r j
    end).
Proof.
  intros Hl Hr Hn. pose proof (zlen_nonneg l). split_and!.
  - apply (strcasecmp_from l r [] []); (done || lia).
  - apply (strncasecmp_at_spec l r 0 n); (done || lia).
  - apply strcasestr_from; (done || unfold zlen; lia).
Qed.

(** "Content-Type" in two spellings, and its place in a header line. *)
Lemma casecmp_correct_witness :
  let l := lit "x-Content-Type: a" in let r := lit "content-TYPE" in
  strcasestr l r = Ok (Some 2) /\ exists p, strcasestr l r = Ok p /\
    match p with
    | Some i => 0 <= i < zlen l /\ matches l r i /\ (forall j, 0 <= j < i -> ~ matches l r j)
    | None => forall j, 0 <= j < zlen l -> ~ matches l r j
    end.
Proof.
  split; [by vm_compute|]. refine (proj2 (proj2 (casecmp_correct _ _ 0 _ _ _))); [repeat constructor|repeat constructor|lia].
Defined.
