(* ===== verification/Version.v ===== *)
(** Comparing by version ([libc-top-half/musl/src/string/strverscmp.c] and [dirent/versionsort.c]).

    [strverscmp] compares the numbers inside two strings by their value.  [strverscmp_correct] shows that it does,
    and that it is a total order on strings, which [scandir] and [qsort] rely on when [versionsort] is given to
    them: it is the lexicographic order of a key. *)

From Stdlib Require Import Ascii String.
From S2P Require Import Prelude Intscan IntscanSpec StringsScan StringsSpec Printf PrintfSpec Inet InetSpec Casecmp.

(** * The code *)

(** The common prefix: [i], [dp] and [z]; [None] where the strings are equal. *)
Fixpoint prefix_loop (fuel : nat) (l r : list Z) (i dp z : Z) : outcome (option (Z * Z * Z)) :=
  match fuel with
  | O => NoFuel
  | S fuel' =>
      let! a := at_ l i in
      let! b := at_ r i in
      if a =? b then
        if a =? 0 then Ok None
        else
          let '(dp, z) := if negb (isdigit a) then (i + 1, 1) else if negb (a =? ch "0") then (dp, 0) else (dp, z) in
          prefix_loop fuel' l r (i + 1) dp z
      else Ok (Some (i, dp, z))
  end.

(** [for (j=i; isdigit(l[j]); j++) if (!isdigit(r[j])) return 1;]: the value returned, or [j]. *)
Fixpoint longer_loop (fuel : nat) (l r : list Z) (j : Z) : outcome (Z + Z) :=
  match fuel with
  | O => NoFuel
  | S fuel' =>
      let! a := at_ l j in
      if isdigit a then
        let! b := at_ r j in
        if negb (isdigit b) then Ok (inl 1) else longer_loop fuel' l r (j + 1)
      else Ok (inr j)
  end.

(** Behind the common prefix. *)
Definition decide_at (l r : list Z) (i dp z : Z) : outcome Z :=
  let! a := at_ l i in
  let! b := at_ r i in
  let! la := at_ l dp in
  let! rb := at_ r dp in
  if negb (la =? ch "0") && negb (rb =? ch "0") then
    let! x := longer_loop (S (length l)) l r i in
    match x with
    | inl v => Ok v
    | inr j => let! c := at_ r j in if isdigit c then Ok (-1) else Ok (a - b)
    end
  else if ctrue z && (dp <? i) && (isdigit a || isdigit b) then Ok (u8 (a - ch "0") - u8 (b - ch "0"))
  else Ok (a - b).

Definition strverscmp (l r : list Z) : outcome Z :=
  let! p := prefix_loop (S (length l)) l r 0 0 1 in
  match p with
  | None => Ok 0
  | Some (i, dp, z) => decide_at l r i dp z
  end.

(** [versionsort] on the names of two entries *)
Definition versionsort (a b : list Z) : outcome Z := strverscmp a b.

(** * The key *)

(** How many digits are in front. *)
Fixpoint run_length (s : list Z) : Z := match s with c :: s => if isdigit c then 1 + run_length s else 0 | [] => 0 end.

(** Where a position is: not behind a digit; in a number; behind zeros only; in digits behind a zero. *)
Inductive place : Type := Fresh | Number | Zeros | Fraction.

Definition place_after (p : place) (c : Z) : place :=
  if negb (isdigit c) then Fresh
  else match p with
    | Fresh | Zeros => if c =? ch "0" then Zeros else match p with Fresh => Number | _ => Fraction end
    | _ => p
    end.

(** What a character counts at a place: a number is preceded by its length, above every character; behind zeros
    a digit is less than the other characters. *)
Definition weight (p : place) (s : list Z) (c : Z) : list Z :=
  match p with
  | Fresh => if isdigit c && negb (c =? ch "0") then [256 + run_length s; c] else [c]
  | Zeros => if isdigit c then [c - ch "0"] else [10 + c]
  | _ => [c]
  end.

Fixpoint key (p : place) (s : list Z) : list Z :=
  match s with
  | [] => weight p [] 0
  | c :: s' => weight p s c ++ key (place_after p c) s'
  end.

(** * The order is that of the keys *)

Lemma run_length_nonneg s : 0 <= run_length s.
Proof. induction s as [|c s IH]; cbn; [lia|]. destruct (isdigit c); lia. Qed.

(** The numbers in front of two suffixes, by length. *)
Lemma longer_spec pre L R : forall fuel, (length L < fuel)%nat ->
  longer_loop fuel (pre ++ L) (pre ++ R) (zlen pre) =
    Ok (if run_length R <? run_length L then inl 1 else inr (zlen pre + run_length L)).
Proof.
  enough (forall fuel p1 p2, zlen p1 = zlen p2 -> (length L < fuel)%nat -> longer_loop fuel (p1 ++ L) (p2 ++ R) (zlen p1) =
    Ok (if run_length R <? run_length L then inl 1 else inr (zlen p1 + run_length L))) as H by (intros fuel Hf; by apply H).
  revert R. induction L as [|c L IH]; intros R fuel p1 p2 Hp Hf; (destruct fuel as [|fuel]; [cbn in Hf; lia|]); cbn [longer_loop]; rewrite at_suffix; cbn [obind].
  - change (isdigit (schar [] 0)) with false. cbv iota. cbn [run_length]. pose proof (run_length_nonneg R). by rewrite (proj2 (Z.ltb_ge _ 0)), Z.add_0_r by lia.
  - change (schar (c :: L) 0) with c. cbn [run_length]. pose proof (run_length_nonneg R). pose proof (run_length_nonneg L).
    destruct (isdigit c); [|by rewrite (proj2 (Z.ltb_ge _ 0)), Z.add_0_r by lia]. rewrite Hp, at_suffix. cbn [obind]. destruct R as [|d R].
    + change (isdigit (schar [] 0)) with false. cbn [negb run_length]. by rewrite (proj2 (Z.ltb_lt 0 _)) by lia.
    + change (schar (d :: R) 0) with d. cbn [run_length] in *. destruct (isdigit d); cbn [negb]; [|by rewrite (proj2 (Z.ltb_lt 0 _)) by lia].
      specialize (IH R fuel (p1 ++ [c]) (p2 ++ [d])). rewrite <- !app_assoc, !zlen_app in IH. cbn [app] in IH. change (zlen [c]) with 1 in IH. change (zlen [d]) with 1 in IH.
      rewrite Hp in IH. rewrite IH by (done || cbn in Hf; lia). destruct (Z.ltb_spec (run_length R) (run_length L)), (Z.ltb_spec (1 + run_length R) (1 + run_length L)); try lia; try done. by rewrite Z.add_assoc.
Qed.

Lemma at_run pre R : forall k, 0 <= k -> k <= run_length R -> exists c, at_ (pre ++ R) (zlen pre + k) = Ok c /\ isdigit c = (k <? run_length R).
Proof.
  revert pre. induction R as [|d R IH]; intros pre k Hk Hr; cbn [run_length] in *.
  - assert (k = 0) as -> by lia. rewrite Z.add_0_r, at_suffix. by exists 0.
  - destruct (isdigit d) eqn:Ed.
    + destruct (decide (k = 0)) as [-> |]; [rewrite Z.add_0_r, at_suffix; exists d; split; [done|]; pose proof (run_length_nonneg R); by rewrite (proj2 (Z.ltb_lt 0 _)) by lia|].
      destruct (IH (pre ++ [d]) (k - 1)) as (c & E & Hc); [lia..|]. rewrite <- app_assoc, zlen_app in E. cbn [app] in E. change (zlen [d]) with 1 in E. replace (zlen pre + 1 + (k - 1)) with (zlen pre + k) in E by lia.
      exists c. split; [done|]. rewrite Hc. destruct (Z.ltb_spec (k - 1) (run_length R)), (Z.ltb_spec k (1 + run_length R)); done || lia.
    + assert (k = 0) as -> by lia. rewrite Z.add_0_r, at_suffix. by exists d.
Qed.

Lemma decide_number pre L R dp z : dp = zlen pre /\ schar L 0 <> ch "0" /\ schar R 0 <> ch "0" \/ 0 <= dp < zlen pre /\ schar pre dp <> ch "0" ->
  decide_at (pre ++ L) (pre ++ R) (zlen pre) dp z =
    Ok (if run_length R <? run_length L then 1 else if run_length L <? run_length R then -1 else schar L 0 - schar R 0).
Proof.
  intros Hdp. unfold decide_at. rewrite !at_suffix. cbn [obind].
  assert (exists x y, at_ (pre ++ L) dp = Ok x /\ at_ (pre ++ R) dp = Ok y /\ x <> ch "0" /\ y <> ch "0") as (x & y & -> & -> & Hx & Hy).
  { destruct Hdp as [(-> & H1 & H2)|(H1 & H2)]; [rewrite !at_suffix|rewrite !at_prefix by done]; by eexists _, _. }
  cbn [obind]. rewrite (proj2 (Z.eqb_neq x _) Hx), (proj2 (Z.eqb_neq y _) Hy). cbn [negb andb]. rewrite longer_spec by (rewrite length_app; lia). cbn [obind].
  destruct (Z.ltb_spec (run_length R) (run_length L)); [done|]. destruct (at_run pre R (run_length L)) as (c & -> & Hc); [apply run_length_nonneg|lia|]. cbn [obind]. rewrite Hc.
  by destruct (run_length L <? run_length R).
Qed.

(** Two numbers of different lengths. *)
Lemma number_lengths L : forall R pre dp z fuel, 0 <= dp < zlen pre -> schar pre dp <> ch "0" -> run_length L <> run_length R -> (length L < fuel)%nat ->
  (let! p := prefix_loop fuel (pre ++ L) (pre ++ R) (zlen pre) dp z in match p with None => Ok 0 | Some (i, dp, z) => decide_at (pre ++ L) (pre ++ R) i dp z end) =
    Ok (if run_length R <? run_length L then 1 else -1).
Proof.
  assert (forall L R pre dp z, 0 <= dp < zlen pre -> schar pre dp <> ch "0" -> run_length L <> run_length R ->
    decide_at (pre ++ L) (pre ++ R) (zlen pre) dp z = Ok (if run_length R <? run_length L then 1 else -1)) as Hdiff.
  { intros L' R pre dp z Hdp Hnz Hne. rewrite decide_number by (by right). destruct (Z.ltb_spec (run_length R) (run_length L')); [done|]. by rewrite (proj2 (Z.ltb_lt _ _)) by lia. }
  induction L as [|a L IH]; intros R pre dp z fuel Hdp Hnz Hne Hf; (destruct fuel as [|fuel]; [cbn in Hf; lia|]); cbn [prefix_loop]; rewrite !at_suffix; cbn [obind];
    match goal with |- context [if ?x =? ?y then _ else _] => destruct (Z.eqb_spec x y) as [E|E] end; [|by apply Hdiff| |by apply Hdiff].
  - destruct R as [|b R]; [done|]. change (schar [] 0) with 0 in *. change (schar (b :: R) 0) with b in E. subst b. done.
  - change (schar (a :: L) 0) with a in *. assert (isdigit a = true) as Ha.
    { destruct (isdigit a) eqn:Ed; [done|]. exfalso. apply Hne. cbn [run_length]. rewrite Ed. destruct R as [|b R]; [done|]. change (schar (b :: R) 0) with b in E. subst b. cbn. by rewrite Ed. }
    destruct R as [|b R]; [change (schar [] 0) with 0 in E; subst a; done|]. change (schar (b :: R) 0) with b in E. subst b.
    assert (a <> 0) as Ha0 by (intros ->; done). rewrite (proj2 (Z.eqb_neq a 0) Ha0), Ha. cbn [negb]. cbn [run_length] in *. rewrite Ha in *.
    specialize (IH R (pre ++ [a]) dp). rewrite <- !app_assoc in IH. cbn [app] in IH. replace (zlen (pre ++ [a])) with (zlen pre + 1) in IH by (by rewrite zlen_app).
    assert (schar (pre ++ [a]) dp = schar pre dp) as Es by (unfold schar; rewrite app_nth1; [done|unfold zlen in *; lia]). rewrite Es in IH.
    assert ((if run_length R <? run_length L then 1 else -1) = (if 1 + run_length R <? 1 + run_length L then 1 else -1)) as <- by (repeat case_cmp; lia).
    destruct (negb (a =? ch "0")); apply IH; try done; try lia; cbn in Hf; lia.
Qed.

Lemma key_head p L : exists rest, key p L = weight p L (schar L 0) ++ rest.
Proof. destruct L as [|c L]; [exists []; by rewrite app_nil_r|by eexists]. Qed.

(** Where the loop on the common prefix is. *)
Definition place_ok (p : place) (pre : list Z) (dp z : Z) : Prop :=
  match p with
  | Fresh => dp = zlen pre /\ z = 1
  | Number => 0 <= dp < zlen pre /\ schar pre dp <> ch "0"
  | Zeros => 0 <= dp < zlen pre /\ schar pre dp = ch "0" /\ z = 1
  | Fraction => 0 <= dp < zlen pre /\ schar pre dp = ch "0" /\ z = 0
  end.

Lemma place_step p pre dp z a : place_ok p pre dp z ->
  let '(dp', z') := if negb (isdigit a) then (zlen pre + 1, 1) else if negb (a =? ch "0") then (dp, 0) else (dp, z) in
  place_ok (place_after p a) (pre ++ [a]) dp' z'.
Proof.
  assert (zlen (pre ++ [a]) = zlen pre + 1) as Hz by (by rewrite zlen_app). pose proof (zlen_nonneg pre) as H0.
  assert (forall k, 0 <= k < zlen pre -> schar (pre ++ [a]) k = schar pre k) as Hin by (intros k Hk; unfold schar; rewrite app_nth1; [done|unfold zlen in *; lia]).
  assert (schar (pre ++ [a]) (zlen pre) = a) as Hl by (unfold schar, zlen; rewrite Nat2Z.id, nth_middle; done).
  unfold place_after. destruct (isdigit a); cbn [negb]; [|by unfold place_ok; rewrite Hz]. destruct (Z.eqb_spec a (ch "0")) as [Ea|Ea]; cbn [negb]; unfold place_ok; destruct p; rewrite ?Hz; intros H.
  - destruct H as [-> ->]. rewrite Hl. split_and!; (done || lia).
  - destruct H as [H1 H2]. rewrite Hin by lia. split; [lia|done].
  - destruct H as (H1 & H2 & ->). rewrite Hin by lia. split_and!; (done || lia).
  - destruct H as (H1 & H2 & ->). rewrite Hin by lia. split_and!; (done || lia).
  - destruct H as [-> ->]. rewrite Hl. split; [lia|done].
  - destruct H as [H1 H2]. rewrite Hin by lia. split; [lia|done].
  - destruct H as (H1 & H2 & ->). rewrite Hin by lia. split_and!; (done || lia).
  - destruct H as (H1 & H2 & ->). rewrite Hin by lia. split_and!; (done || lia).
Qed.

Lemma wrap_sub c : 0 <= c < 256 -> (c - 48) mod 2 ^ 8 = if c <? 48 then c + 208 else c - 48.
Proof. intros Hc. destruct (Z.ltb_spec c 48); [symmetry; apply (Z.mod_unique_pos _ _ (-1)); lia|by rewrite Z.mod_small by lia]. Qed.

(** At the first difference. *)
Lemma decide_key p pre L R dp z : place_ok p pre dp z -> byte (schar L 0) -> byte (schar R 0) -> schar L 0 <> schar R 0 -> (p = Number -> run_length L = run_length R) ->
  exists v, decide_at (pre ++ L) (pre ++ R) (zlen pre) dp z = Ok v /\ (v ?= 0) = lex (key p L) (key p R).
Proof.
  intros Hp Ha Hb Hne Hnum. destruct (key_head p L) as (ra & ->), (key_head p R) as (rb & ->). set (a := schar L 0) in *. set (b := schar R 0) in *.
  assert (isdigit a = (48 <=? a) && (a <=? 57)) as Da by (by apply isdigit_iff). assert (isdigit b = (48 <=? b) && (b <=? 57)) as Db by (by apply isdigit_iff).
  assert (forall s, run_length s = 0 <-> isdigit (schar s 0) = false) as Hrun.
  { intros [|c s]; [done|]. cbn [run_length]. change (schar (c :: s) 0) with c. pose proof (run_length_nonneg s). destruct (isdigit c); split; (done || lia). }
  assert (forall ra rb, lex ([a] ++ ra) ([b] ++ rb) = (a - b ?= 0)) as Hplain by (intros; cbn; rewrite <- Z.compare_sub; destruct (Z.compare_spec a b); done).
  assert (forall L', byte (schar L' 0) -> schar L' 0 <> ch "0" -> weight Fresh L' (schar L' 0) = (if 0 <? run_length L' then [256 + run_length L'; schar L' 0] else [schar L' 0])) as Hw.
  { intros L' HL H0. unfold weight. rewrite (proj2 (Z.eqb_neq _ _) H0), andb_true_r. specialize (Hrun L'). pose proof (run_length_nonneg L').
    destruct (isdigit (schar L' 0)), (Z.ltb_spec 0 (run_length L')); try done; exfalso.
    - assert (run_length L' = 0) as Hz by lia. by apply Hrun in Hz.
    - pose proof (proj2 Hrun eq_refl). lia. }
  unfold byte in *. destruct p; unfold place_ok in Hp.
  - destruct Hp as [-> ->]. destruct (decide (a = ch "0" \/ b = ch "0")) as [H0|H0].
    + exists (a - b). split.
      * unfold decide_at. rewrite !at_suffix. fold a b. cbn [obind]. rewrite Z.ltb_irrefl, andb_false_r. cbn [andb].
        destruct H0 as [-> | ->]; rewrite Z.eqb_refl; cbn [negb andb]; rewrite ?andb_false_r; done.
      * unfold weight. change (ch "0") with 48 in *. destruct H0 as [E|E]; rewrite E in *; cbn [Z.eqb negb andb isdigit]; rewrite ?Z.eqb_refl, ?andb_false_r; cbn [negb andb].
        -- destruct (isdigit b && negb (b =? 48)) eqn:Eb; [|symmetry; apply Hplain]. cbn [app lex]. pose proof (run_length_nonneg R). rewrite Db in Eb.
           assert (b > 48) by lia. destruct (Z.compare_spec (48 - b) 0), (Z.compare_spec 48 (256 + run_length R)); done || lia.
        -- destruct (isdigit a && negb (a =? 48)) eqn:Eb; [|symmetry; apply Hplain]. cbn [app lex]. pose proof (run_length_nonneg L). rewrite Da in Eb.
           assert (a > 48) by lia. destruct (Z.compare_spec (a - 48) 0), (Z.compare_spec (256 + run_length L) 48); done || lia.
    + rewrite decide_number by (left; split_and!; [done|intros E; apply H0; by left|intros E; apply H0; by right]). rewrite !Hw by (tauto || unfold byte; lia). fold a b.
      pose proof (run_length_nonneg L). pose proof (run_length_nonneg R). eexists. split; [done|].
      destruct (Z.ltb_spec 0 (run_length L)), (Z.ltb_spec 0 (run_length R)), (Z.ltb_spec (run_length R) (run_length L)), (Z.ltb_spec (run_length L) (run_length R)); try lia; cbn;
        repeat match goal with |- context [?x ?= ?y] => destruct (Z.compare_spec x y) end; try done; lia.
  - specialize (Hnum eq_refl). rewrite decide_number by (by right). rewrite Hnum, Z.ltb_irrefl. eexists. split; [done|]. symmetry. apply Hplain.
  - destruct Hp as (Hdp & Hz & ->). unfold decide_at. rewrite !at_suffix, !at_prefix, Hz by done. fold a b. cbn [obind]. rewrite Z.eqb_refl, (proj2 (Z.ltb_lt _ _)) by lia. cbn [negb andb ctrue Z.eqb].
    unfold weight, u8. change (ch "0") with 48. destruct (isdigit a) eqn:Ea, (isdigit b) eqn:Eb; cbn [orb]; eexists; (split; [done|]); rewrite ?wrap_sub by lia; cbn [app lex];
      repeat case_cmp; repeat match goal with |- context [?x ?= ?y] => destruct (Z.compare_spec x y) end; try done; lia.
  - destruct Hp as (Hdp & Hz & ->). unfold decide_at. rewrite !at_suffix, !at_prefix, Hz by done. fold a b. cbn [obind]. rewrite Z.eqb_refl. cbn [negb andb ctrue Z.eqb]. eexists. split; [done|]. symmetry. apply Hplain.
Qed.

Definition verscmp_from (fuel : nat) (l r : list Z) (i dp z : Z) : outcome Z :=
  let! p := prefix_loop fuel l r i dp z in match p with None => Ok 0 | Some (i, dp, z) => decide_at l r i dp z end.

(** One character of the common prefix. *)
Lemma verscmp_from_step fuel pre a L R dp z : a <> 0 ->
  verscmp_from (S fuel) (pre ++ a :: L) (pre ++ a :: R) (zlen pre) dp z =
    let '(dp, z) := if negb (isdigit a) then (zlen pre + 1, 1) else if negb (a =? ch "0") then (dp, 0) else (dp, z) in
    verscmp_from fuel ((pre ++ [a]) ++ L) ((pre ++ [a]) ++ R) (zlen (pre ++ [a])) dp z.
Proof.
  intros Ha. rewrite <- !app_assoc, zlen_app. cbn [app]. change (zlen [a]) with 1. unfold verscmp_from. cbn [prefix_loop]. rewrite !at_suffix. change (schar (a :: L) 0) with a. change (schar (a :: R) 0) with a.
  cbn [obind]. rewrite Z.eqb_refl, (proj2 (Z.eqb_neq a 0) Ha). by destruct (negb (isdigit a)), (negb (a =? ch "0")).
Qed.

Lemma verscmp_from_stop fuel pre L R dp z : schar L 0 <> schar R 0 ->
  verscmp_from (S fuel) (pre ++ L) (pre ++ R) (zlen pre) dp z = decide_at (pre ++ L) (pre ++ R) (zlen pre) dp z.
Proof. intros H. unfold verscmp_from. cbn [prefix_loop]. rewrite !at_suffix. cbn [obind]. by rewrite (proj2 (Z.eqb_neq _ _) H). Qed.

(** A character that both strings have weighs the same unless two numbers of different lengths begin. *)
Lemma weight_same p a L R : isdigit a = true /\ p = Fresh /\ a <> ch "0" /\ run_length L <> run_length R \/ weight p (a :: L) a = weight p (a :: R) a.
Proof.
  destruct p; try by right. unfold weight. cbn [run_length]. destruct (isdigit a); [|by right]. destruct (Z.eqb_spec a (ch "0")); [by right|]. cbn [negb andb].
  destruct (decide (run_length L = run_length R)) as [-> |]; [by right|by left].
Qed.

Lemma verscmp_key L : forall p R pre dp z fuel, place_ok p pre dp z -> cstring L -> cstring R -> (p = Number -> run_length L = run_length R) -> (length L < fuel)%nat ->
  exists v, verscmp_from fuel (pre ++ L) (pre ++ R) (zlen pre) dp z = Ok v /\ (v ?= 0) = lex (key p L) (key p R).
Proof.
  induction L as [|a L IH]; intros p R pre dp z fuel Hp HL HR Hnum Hf; (destruct fuel as [|fuel]; [cbn in Hf; lia|]).
  - destruct R as [|b R]; [|rewrite verscmp_from_stop; [apply decide_key|]; try done; try apply head_byte; try done; change (schar (b :: R) 0) with b; apply Forall_inv in HR; change (schar [] 0) with 0; lia].
    exists 0. rewrite lex_refl. split; [|done]. unfold verscmp_from. cbn [prefix_loop]. by rewrite !at_suffix.
  - destruct (decide (a = schar R 0)) as [E|E]; [|rewrite verscmp_from_stop by done; apply decide_key; try done; by apply head_byte].
    pose proof (Forall_inv HL) as Ha. cbn beta in Ha. destruct R as [|b R]; [change (schar [] 0) with 0 in E; lia|]. change (schar (b :: R) 0) with b in E. subst b.
    apply Forall_inv_tail in HL, HR. rewrite verscmp_from_step by lia. cbn [key].
    destruct (weight_same p a L R) as [(Hd & -> & Hz & Hl)|Hw].
    + destruct Hp as [-> ->]. rewrite Hd, (proj2 (Z.eqb_neq _ _) Hz). cbn [negb]. eexists. split.
      * unfold verscmp_from. apply number_lengths; try done; [rewrite zlen_app; change (zlen [a]) with 1; pose proof (zlen_nonneg pre); lia| |cbn in Hf; lia].
        unfold schar, zlen. by rewrite Nat2Z.id, nth_middle.
      * unfold weight. rewrite Hd, (proj2 (Z.eqb_neq _ _) Hz). cbn [negb andb run_length app lex]. rewrite Hd.
        destruct (Z.compare_spec (256 + (1 + run_length L)) (256 + (1 + run_length R))), (Z.ltb_spec (run_length R) (run_length L)); done || lia.
    + rewrite Hw, lex_app. pose proof (place_step p pre dp z a Hp) as Hstep.
      assert (place_after p a = Number -> run_length L = run_length R) as Hn.
      { unfold place_after. unfold weight in Hw. cbn [run_length] in *. destruct (isdigit a); cbn [negb] in *; [|done]. destruct p; try (by destruct (a =? ch "0")); [|intros _; specialize (Hnum eq_refl); lia].
        destruct (a =? ch "0"); cbn [negb andb] in *; [done|]. intros _. injection Hw. lia. }
      destruct (negb (isdigit a)); [|destruct (negb (a =? ch "0"))]; (apply IH; try done; cbn in Hf; lia).
Qed.

Lemma strverscmp_key l r : cstring l -> cstring r -> exists v, strverscmp l r = Ok v /\ (v ?= 0) = lex (key Fresh l) (key Fresh r).
Proof. intros Hl Hr. apply (verscmp_key l Fresh r [] 0 1); try done. lia. Qed.

(** * Different strings have different keys *)

Lemma weight_inj p L R ra rb : cstring L -> cstring R -> weight p L (schar L 0) ++ ra = weight p R (schar R 0) ++ rb -> schar L 0 = schar R 0.
Proof.
  intros HL%head_byte HR%head_byte. unfold byte in *. pose proof (run_length_nonneg L). pose proof (run_length_nonneg R). unfold weight. change (ch "0") with 48. destruct p.
  - destruct (isdigit (schar L 0) && negb (schar L 0 =? 48)), (isdigit (schar R 0) && negb (schar R 0 =? 48)); cbn [app]; intros E; injection E; lia.
  - intros E. by injection E.
  - rewrite !isdigit_iff by done. repeat case_cmp; cbn [andb app]; intros E; injection E; lia.
  - intros E. by injection E.
Qed.
Lemma weight_zlen p a L R : zlen (weight p (a :: L) a) = zlen (weight p (a :: R) a).
Proof. unfold weight. destruct p; try done; by destruct (isdigit a), (a =? ch "0"). Qed.
Lemma key_inj L : forall p R, cstring L -> cstring R -> key p L = key p R -> L = R.
Proof.
  assert (forall p L R, cstring L -> cstring R -> key p L = key p R -> schar L 0 = schar R 0) as Hhead.
  { intros p L' R' HL HR E. destruct (key_head p L') as (ra & Ea), (key_head p R') as (rb & Eb). rewrite Ea, Eb in E. by apply weight_inj in E. }
  induction L as [|a L IH]; intros p [|b R] HL HR E; [done|..]; pose proof (Hhead p _ _ HL HR E) as H.
  - apply Forall_inv in HR. change (schar (b :: R) 0) with b in H. change (schar [] 0) with 0 in H. lia.
  - apply Forall_inv in HL. change (schar (a :: L) 0) with a in H. change (schar [] 0) with 0 in H. lia.
  - change (a = b) in H. subst b. cbn [key] in E. apply app_inj_1 in E as [_ E]; [|pose proof (weight_zlen p a L R); unfold zlen in *; lia].
    apply Forall_inv_tail in HL, HR. by rewrite (IH _ _ HL HR E).
Qed.

(** * Numbers *)

(** A common prefix with no digit at its end does not matter. *)
Lemma run_length_stop pre c L : isdigit c = false -> forall R, run_length (pre ++ c :: L) = run_length (pre ++ c :: R).
Proof. intros Hc R. induction pre as [|d pre IH]; cbn; [by rewrite Hc|]. by rewrite IH. Qed.
Lemma key_prefix pre c L R : isdigit c = false -> forall p, lex (key p (pre ++ c :: L)) (key p (pre ++ c :: R)) = lex (key Fresh L) (key Fresh R).
Proof.
  intros Hc. induction pre as [|d pre IH]; intros p; cbn [app key].
  - assert (weight p (c :: L) c = weight p (c :: R) c) as -> by (unfold weight; cbn [run_length]; by rewrite Hc).
    rewrite lex_app. unfold place_after. by rewrite Hc.
  - assert (weight p (d :: pre ++ c :: L) d = weight p (d :: pre ++ c :: R) d) as -> by (unfold weight; cbn [run_length]; by rewrite (run_length_stop pre c L Hc R)).
    by rewrite lex_app.
Qed.

(** The numeral of the greater number is longer, or as long and greater as a text. *)
Lemma decimal_order n : forall m, 0 <= n < m -> zlen (digits 10 n) < zlen (digits 10 m) \/
  zlen (digits 10 n) = zlen (digits 10 m) /\ forall x y, lex (map (digit_char false) (digits 10 n) ++ x) (map (digit_char false) (digits 10 m) ++ y) = Datatypes.Lt.
Proof.
  assert (forall x, 0 < x -> digits 10 x = digits 10 (x / 10) ++ [x mod 10]) as Hs by (intros; by apply digits_step).
  destruct (Z_le_gt_dec 0 n) as [Hn|Hn]; [|lia]. revert n Hn. apply (Z_lt_induction (fun n => forall m, 0 <= n < m -> _)). intros n IH m Hm.
  destruct (decide (n = 0)) as [-> |]; [left; rewrite (Hs m), zlen_app by lia; change (zlen (digits 10 0)) with 0; change (zlen [m mod 10]) with 1; pose proof (zlen_nonneg (digits 10 (m / 10))); lia|].
  rewrite (Hs n), (Hs m), !zlen_app by lia. change (zlen [n mod 10]) with 1. change (zlen [m mod 10]) with 1.
  pose proof (Z.mod_pos_bound n 10 eq_refl) as B1. pose proof (Z.mod_pos_bound m 10 eq_refl) as B2. pose proof (Z.div_mod n 10 ltac:(done)) as D1. pose proof (Z.div_mod m 10 ltac:(done)) as D2.
  destruct (decide (n / 10 = m / 10)) as [E|E].
  - right. rewrite E. split; [done|]. intros x y. rewrite !map_app, <- !app_assoc, lex_app. cbn [map app lex]. rewrite !digit_char_10 by lia.
    destruct (Z.compare_spec (48 + n mod 10) (48 + m mod 10)); done || lia.
  - destruct (IH (n / 10) ltac:(lia) (m / 10)) as [H|[H1 H2]]; [lia|left; lia|]. right. split; [lia|]. intros x y. rewrite !map_app, <- !app_assoc. apply H2.
Qed.

Lemma run_length_app X x : Forall (fun c => isdigit c = true) X -> starts (fun c => isdigit c = false) x -> run_length (X ++ x) = zlen X.
Proof.
  intros HX Hx. induction HX as [|c X Hc HX IH]; cbn [app run_length]; [destruct x as [|c x]; cbn in *; [done|by rewrite Hx]|].
  rewrite Hc, IH. unfold zlen. cbn [length]. lia.
Qed.
Lemma key_number X x : Forall (fun c => isdigit c = true) X -> key Number (X ++ x) = X ++ key Number x.
Proof. intros HX. induction HX as [|c X Hc HX IH]; cbn [app key]; [done|]. unfold place_after. rewrite Hc. cbn [weight negb app]. by rewrite IH. Qed.

Lemma decimal_digits n : 0 <= n -> Forall (fun c => isdigit c = true) (decimal n).
Proof. intros Hn. eapply Forall_impl; [by apply decimal_chars|]. cbn beta. intros c Hc. rewrite isdigit_iff by lia. lia. Qed.

Lemma key_decimal n x : 0 < n -> starts (fun c => isdigit c = false) x -> key Fresh (decimal n ++ x) = (256 + zlen (decimal n)) :: decimal n ++ key Number x.
Proof.
  intros Hn Hx. pose proof (decimal_digits n ltac:(lia)) as Hd. pose proof (run_length_app _ x Hd Hx) as Hr. destruct (decimal_head n Hn) as (c & r & E & Hc). rewrite E in *.
  cbn [app key] in *. pose proof (Forall_inv Hd) as Hdc. cbn beta in Hdc. unfold weight, place_after. rewrite Hdc, (proj2 (Z.eqb_neq c (ch "0"))) by (change (ch "0") with 48; lia).
  cbn [negb andb app]. rewrite Hr, key_number by (by apply Forall_inv_tail in Hd). done.
Qed.

Lemma key_numbers n m x y : 0 <= n < m -> starts (fun c => isdigit c = false) x -> starts (fun c => isdigit c = false) y ->
  lex (key Fresh (decimal n ++ x)) (key Fresh (decimal m ++ y)) = Datatypes.Lt.
Proof.
  intros Hn Hx Hy. rewrite (key_decimal m y) by (done || lia). destruct (decide (n = 0)) as [-> |].
  - change (decimal 0) with [48]. cbn [app key]. unfold weight. change (isdigit 48 && negb (48 =? ch "0")) with false. cbn [app lex]. pose proof (zlen_nonneg (decimal m)). destruct (Z.compare_spec 48 (256 + zlen (decimal m))); done || lia.
  - rewrite (key_decimal n x) by (done || lia). unfold decimal. rewrite (proj2 (Z.eqb_neq n 0)), (proj2 (Z.eqb_neq m 0)) by lia. unfold numeral_text.
    assert (forall l, zlen (map (digit_char false) l) = zlen l) as Hz by (intros; unfold zlen; by rewrite length_map). rewrite !Hz. cbn [lex].
    destruct (decimal_order n m) as [H|[H1 H2]]; [lia| |].
    + destruct (Z.compare_spec (256 + zlen (digits 10 n)) (256 + zlen (digits 10 m))); done || lia.
    + rewrite H1, Z.compare_refl. apply H2.
Qed.

(** * The property *)

(** C35: on all strings [strverscmp], and so [versionsort], returns, is a total order — it gives zero for equal strings
    only, the opposite sign the other way round, and what is between is between — and orders by value two numbers
    written in decimal behind the same text, whatever follows them and however many digits they have. *)
Theorem strverscmp_correct a b c : cstring a -> cstring b -> cstring c ->
  (exists x y, strverscmp a b = Ok x /\ strverscmp b a = Ok y /\ (y ?= 0) = CompOpp (x ?= 0) /\ (x = 0 <-> a = b)) /\
  (exists x y z, strverscmp a b = Ok x /\ strverscmp b c = Ok y /\ strverscmp a c = Ok z /\ (x <= 0 -> y <= 0 -> z <= 0)) /\
  (forall t d n m x y, isdigit d = false -> 0 <= n < m -> starts (fun e => isdigit e = false) x -> starts (fun e => isdigit e = false) y ->
    a = t ++ d :: decimal n ++ x -> b = t ++ d :: decimal m ++ y -> exists v, versionsort a b = Ok v /\ v < 0).
Proof.
  intros Ha Hb Hc. destruct (strverscmp_key a b) as (x & Ex & Hx); [done..|]. destruct (strverscmp_key b a) as (y & Ey & Hy); [done..|].
  destruct (strverscmp_key b c) as (y' & Ey' & Hy'); [done..|]. destruct (strverscmp_key a c) as (z & Ez & Hz); [done..|]. split_and!.
  - exists x, y. split_and!; try done; [rewrite Hy, Hx; apply lex_antisym|]. split.
    + intros ->. symmetry in Hx. apply lex_eq, key_inj in Hx; done.
    + intros ->. rewrite lex_refl in Hx. by apply Z.compare_eq in Hx.
  - exists x, y', z. split_and!; try done. unfold Z.le. intros H1 H2. rewrite Hz. apply (lex_trans _ (key Fresh b)); [by rewrite <- Hx|by rewrite <- Hy'].
  - intros t d n m u v Hd Hn Hu Hv -> ->. exists x. split; [done|]. unfold Z.lt. rewrite Hx, key_prefix by done. by apply key_numbers.
Qed.

(** "file9.c" comes before "file10.c". *)
Lemma strverscmp_correct_witness :
  strverscmp (lit "file9.c") (lit "file10.c") = Ok (-1) /\ exists v, versionsort (lit "file9.c") (lit "file10.c") = Ok v /\ v < 0.
Proof.
  split; [by vm_compute|].
  refine (proj2 (proj2 (strverscmp_correct (lit "file9.c") (lit "file10.c") [] _ _ _)) (lit "fil") (ch "e") 9 10 (lit ".c") (lit ".c") _ _ _ _ _ _);
    [repeat constructor..|by vm_compute|lia|by vm_compute|by vm_compute|by vm_compute|by vm_compute].
Defined.
