(* ===== verification/Strftime.v ===== *)
(** Time as text: the code ([libc-top-half/musl/src/]: time/strftime.c, time/strptime.c and locale/langinfo.c, for the
    C locale).

    Strings that are read are lists of bytes without the null; the buffer that [strftime] fills is the list of its
    bytes.  The two functions of strftime.c call each other, and [strptime] calls itself, for conversions that abbreviate a
    format; the first argument [depth] counts these calls, 3 being enough for the formats of the C locale. *)

From Stdlib Require Import Ascii String.
From S2P Require Import Prelude Calendar Memory Intscan Printf Inet Casecmp.
Import Calendar.

(** * langinfo.c *)

(** A string and its null. *)
Definition zstr (s : string) : list Z := lit s ++ [0].
Definition c_time : list Z :=
  zstr "Sun" ++ zstr "Mon" ++ zstr "Tue" ++ zstr "Wed" ++ zstr "Thu" ++ zstr "Fri" ++ zstr "Sat" ++
  zstr "Sunday" ++ zstr "Monday" ++ zstr "Tuesday" ++ zstr "Wednesday" ++ zstr "Thursday" ++ zstr "Friday" ++ zstr "Saturday" ++
  zstr "Jan" ++ zstr "Feb" ++ zstr "Mar" ++ zstr "Apr" ++ zstr "May" ++ zstr "Jun" ++
  zstr "Jul" ++ zstr "Aug" ++ zstr "Sep" ++ zstr "Oct" ++ zstr "Nov" ++ zstr "Dec" ++
  zstr "January" ++ zstr "February" ++ zstr "March" ++ zstr "April" ++ zstr "May" ++ zstr "June" ++
  zstr "July" ++ zstr "August" ++ zstr "September" ++ zstr "October" ++ zstr "November" ++ zstr "December" ++
  zstr "AM" ++ zstr "PM" ++ zstr "%a %b %e %T %Y" ++ zstr "%m/%d/%y" ++ zstr "%H:%M:%S" ++ zstr "%I:%M:%S %p" ++
  zstr "" ++ zstr "" ++ zstr "%m/%d/%y" ++ zstr "0123456789" ++ zstr "%a %b %e %T %Y" ++ zstr "%H:%M:%S".
Definition c_messages : list Z := zstr "^[yY]" ++ zstr "^[nN]" ++ zstr "yes" ++ zstr "no".
Definition c_numeric : list Z := zstr "." ++ zstr "".

Definition LC_NUMERIC : Z := 1.
Definition LC_TIME : Z := 2.
Definition LC_MONETARY : Z := 4.
Definition LC_MESSAGES : Z := 5.
Definition LC_ALL : Z := 6.
Definition CODESET : Z := 14.
Definition ABDAY_1 : Z := 131072.
Definition DAY_1 : Z := 131079.
Definition ABMON_1 : Z := 131086.
Definition MON_1 : Z := 131098.
Definition AM_STR : Z := 131110.
Definition PM_STR : Z := 131111.
Definition D_T_FMT : Z := 131112.
Definition D_FMT : Z := 131113.
Definition T_FMT : Z := 131114.
Definition T_FMT_AMPM : Z := 131115.

(** [for (; idx; idx--, str++) for (; *str; str++);], and the string there. *)
Fixpoint skip_strings (idx : nat) (str : list Z) : list Z :=
  match idx with O => str | S idx => skip_strings idx (drop (S (length (span (fun c => negb (c =? 0)) str))) str) end.
Definition string_at (str : list Z) : list Z := span (fun c => negb (c =? 0)) str.

(** In the C locale, whose [cat] pointers are null; [LCTRANS] then is the identity. *)
Definition __nl_langinfo_l (item : Z) : list Z :=
  let cat := Z.shiftr item 16 in
  let idx := Z.land item 65535 in
  if item =? CODESET then lit "ASCII"
  else if (idx =? 65535) && (cat <? LC_ALL) then lit "C"
  else
    let nth str := string_at (skip_strings (Z.to_nat idx) str) in
    if cat =? LC_NUMERIC then if 1 <? idx then [] else nth c_numeric
    else if cat =? LC_TIME then if 49 <? idx then [] else nth c_time
    else if cat =? LC_MONETARY then []
    else if cat =? LC_MESSAGES then if 3 <? idx then [] else nth c_messages
    else [].
Definition nl_langinfo (item : Z) : list Z := __nl_langinfo_l item.

(** * strftime.c *)

Definition is_leap (y : Z) : bool :=
  let y := if INT_MAX - 1900 <? y then y - 2000 else y in
  let y := y + 1900 in
  (Z.rem y 4 =? 0) && (ctrue (Z.rem y 100) || (Z.rem y 400 =? 0)).

Definition week_num (t : tm) : Z :=
  let val := s32 (u32 (u32 (tm_yday t) + 7 - (u32 (u32 (tm_wday t) + 6) mod 7)) / 7) in
  let val := if u32 (u32 (tm_wday t) + 371 - u32 (tm_yday t) - 2) mod 7 <=? 2 then val + 1 else val in
  if val =? 0 then
    let dec31 := u32 (u32 (tm_wday t) + 7 - u32 (tm_yday t) - 1) mod 7 in
    if (dec31 =? 4) || ((dec31 =? 5) && is_leap (Z.rem (tm_year t) 400 - 1)) then 53 else 52
  else if val =? 53 then
    let jan1 := u32 (u32 (tm_wday t) + 371 - u32 (tm_yday t)) mod 7 in
    if negb (jan1 =? 4) && (negb (jan1 =? 3) || negb (is_leap (tm_year t))) then 1 else 53
  else val.

(** The number of [%g] and [%G] before it is cut. *)
Definition week_year (t : tm) : Z :=
  let val := tm_year t + 1900 in
  if (tm_yday t <? 3) && negb (week_num t =? 1) then val - 1
  else if (360 <? tm_yday t) && (week_num t =? 1) then val + 1
  else val.

Section Strftime.
(** [utf8], [strerror] and [junk] as in Printf; [zone] the string at an address, such as
    [__tm_zone]; [None] where there is none, as at a null pointer. *)
Context (utf8 : bool) (strerror : Z -> list Z) (junk : Z) (zone : Z -> option (list Z)).

(** [*l = snprintf( *s, sizeof *s, fmt, ...)]: the string in the array of 100 bytes, and [*l].  The array is at
    address 8 of a memory of its own. *)
Definition sizeof_s : Z := 100.
Definition snprintf_s (fmt : list Z) (args : list va) : outcome (option (list Z * Z)) :=
  let! (r, (m, _)) := vsnprintf utf8 strerror junk 8 sizeof_s fmt args (replicate 112 (u8 junk), 0) in
  Ok (Some (string_at (drop 8 m), u32 r)).

(** The label [number]. *)
Definition number_text (pad def_pad width val : Z) : outcome (option (list Z * Z)) :=
  let pad := if ctrue pad then pad else def_pad in
  if pad =? ch "-" then snprintf_s (lit "%lld") [W64 val]
  else if pad =? ch "_" then snprintf_s (lit "%*lld") [W32 width; W64 val]
  else snprintf_s (lit "%0*lld") [W32 width; W64 val].

(** The text and its length; [None] is the null pointer.  [rec] is [__strftime_l]. *)
Definition __strftime_fmt_1 (rec : list Z -> Z -> list Z -> tm -> outcome (Z * list Z)) (f : Z) (t : tm) (pad : Z)
  : outcome (option (list Z * Z)) :=
  let string fmt := Ok (Some (fmt, zlen fmt)) in
  let nl_strcat item := string (__nl_langinfo_l item) in
  let recu_strftime fmt :=
    let! (l, s) := rec (replicate 100 (u8 junk)) sizeof_s fmt t in
    if l =? 0 then Ok None else Ok (Some (string_at s, l)) in
  let nl_strftime item := recu_strftime (__nl_langinfo_l item) in
  let number val := number_text pad (ch "0") 2 val in
  if f =? ch "a" then if 6 <? u32 (tm_wday t) then string (lit "-") else nl_strcat (ABDAY_1 + tm_wday t)
  else if f =? ch "A" then if 6 <? u32 (tm_wday t) then string (lit "-") else nl_strcat (DAY_1 + tm_wday t)
  else if (f =? ch "h") || (f =? ch "b") then if 11 <? u32 (tm_mon t) then string (lit "-") else nl_strcat (ABMON_1 + tm_mon t)
  else if f =? ch "B" then if 11 <? u32 (tm_mon t) then string (lit "-") else nl_strcat (MON_1 + tm_mon t)
  else if f =? ch "c" then nl_strftime D_T_FMT
  else if f =? ch "C" then number (Z.quot (1900 + tm_year t) 100)
  else if f =? ch "e" then number_text pad (ch "_") 2 (tm_mday t)
  else if f =? ch "d" then number (tm_mday t)
  else if f =? ch "D" then recu_strftime (lit "%m/%d/%y")
  else if f =? ch "F" then recu_strftime (lit "%Y-%m-%d")
  else if f =? ch "g" then number (Z.rem (week_year t) 100)
  else if f =? ch "G" then number_text pad (ch "0") 4 (week_year t)
  else if f =? ch "H" then number (tm_hour t)
  else if f =? ch "I" then number (if tm_hour t =? 0 then 12 else if 12 <? tm_hour t then tm_hour t - 12 else tm_hour t)
  else if f =? ch "j" then let! v := int_ (tm_yday t + 1) in number_text pad (ch "0") 3 v
  else if f =? ch "m" then let! v := int_ (tm_mon t + 1) in number v
  else if f =? ch "M" then number (tm_min t)
  else if f =? ch "n" then Ok (Some ([10], 1))
  else if f =? ch "p" then nl_strcat (if 12 <=? tm_hour t then PM_STR else AM_STR)
  else if f =? ch "r" then nl_strftime T_FMT_AMPM
  else if f =? ch "R" then recu_strftime (lit "%H:%M")
  else if f =? ch "s" then let! v := tm_to_secs t in number_text pad (ch "0") 1 (v - tm_gmtoff t)
  else if f =? ch "S" then number (tm_sec t)
  else if f =? ch "t" then Ok (Some ([9], 1))
  else if f =? ch "T" then recu_strftime (lit "%H:%M:%S")
  else if f =? ch "u" then number_text pad (ch "0") 1 (if tm_wday t =? 0 then 7 else tm_wday t)
  else if f =? ch "U" then number (u32 (u32 (tm_yday t) + 7 - u32 (tm_wday t)) / 7)
  else if f =? ch "W" then number (u32 (u32 (tm_yday t) + 7 - (u32 (u32 (tm_wday t) + 6) mod 7)) / 7)
  else if f =? ch "V" then number (week_num t)
  else if f =? ch "w" then number_text pad (ch "0") 1 (tm_wday t)
  else if f =? ch "x" then nl_strftime D_FMT
  else if f =? ch "X" then nl_strftime T_FMT
  else if f =? ch "y" then let val := Z.rem (tm_year t + 1900) 100 in number (if val <? 0 then - val else val)
  else if f =? ch "Y" then
    let val := tm_year t + 1900 in
    if 10000 <=? val then snprintf_s (lit "+%lld") [W64 val] else number_text pad (ch "0") 4 val
  else if f =? ch "z" then
    if tm_isdst t <? 0 then Ok (Some ([], 0))
    else snprintf_s (lit "%+.4d") [W32 (Z.quot (tm_gmtoff t) 3600 * 100 + Z.quot (Z.rem (tm_gmtoff t) 3600) 60)]
  else if f =? ch "Z" then
    if tm_isdst t <? 0 then Ok (Some ([], 0)) else let! z := deref (zone (tm_zone t)) in string z
  else if f =? ch "%" then Ok (Some ([ch "%"], 1))
  else Ok None.

(** [for (; *t=='0' && t[1]-'0'<10U; t++, k--);] *)
Fixpoint trim_zeros (t : list Z) (k : Z) : list Z * Z :=
  match t with
  | c :: t' => if (c =? ch "0") && isdigit (schar t' 0) then trim_zeros t' (k - 1) else (t, k)
  | [] => (t, k)
  end.
(** [for (; width > k && l < n; width--) s[l++] = '0';] *)
Fixpoint pad_zeros (fuel : nat) (s : list Z) (n l width k : Z) : outcome (list Z * Z) :=
  match fuel with
  | O => NoFuel
  | S fuel' =>
      if (k <? width) && (l <? n) then let! s := zset s l (ch "0") in pad_zeros fuel' s n (l + 1) (width - 1) k
      else Ok (s, l)
  end.

(** The body of [if (width)]: [s], [l], [t] and [k] behind it; [cp] is [*p]. *)
Definition widen (s : list Z) (n l width k : Z) (t : list Z) (plus : bool) (cp : Z) (year : Z) : outcome (list Z * Z * list Z * Z) :=
  let '(t, k) := if (schar t 0 =? ch "+") || (schar t 0 =? ch "-") then (tail t, u32 (k - 1)) else (t, k) in
  let '(t, k) := trim_zeros t k in
  let width := if width <? k then k else width in
  let d := zlen (span isdigit t) in
  let! (s, l, width) :=
    if year <? -1900 then let! s := zset s l (ch "-") in Ok (s, l + 1, width - 1)
    else if plus && ((if cp =? ch "C" then 3 else 5) <=? u32 (d + (width - k))) then let! s := zset s l (ch "+") in Ok (s, l + 1, width - 1)
    else Ok (s, l, width) in
  let! (s, l) := pad_zeros (S (Z.to_nat n)) s n l width k in
  Ok (s, l, t, k).

(** [memcpy(s+l, t, k)] *)
Definition copy_text (s : list Z) (l : Z) (t : list Z) (k : Z) : outcome (list Z) :=
  if (0 <=? l) && (0 <=? k) && (k <=? zlen t) && (l + k <=? zlen s) then Ok (blit s l (take (Z.to_nat k) t)) else UB.

(** Behind the loop. *)
Definition break_off (s : list Z) (n l : Z) : outcome (Z * list Z) :=
  if ctrue n then let! s := zset s (if l =? n then n - 1 else l) 0 in Ok (0, s) else Ok (0, s).

(** A conversion behind its [%], up to the call: [pad], [plus], [width], the index of [p] and of the last character. *)
Definition read_width (f : list Z) (pad i : Z) : outcome (Z * bool * Z * Z * Z) :=
  let! c := at_ f i in
  let plus := c =? ch "+" in
  let i := if plus then i + 1 else i in
  let! (width, _, e) := strtoul (drop (Z.to_nat i) f) 10 in
  let p := i + e in
  let! c := at_ f p in
  let width :=
    if (c =? ch "C") || (c =? ch "F") || (c =? ch "G") || (c =? ch "Y") then if (width =? 0) && negb (p =? i) then 1 else width
    else 0 in
  Ok (pad, plus, width, p, if (c =? ch "E") || (c =? ch "O") then p + 1 else p).
Definition read_directive (f : list Z) (i : Z) : outcome (Z * bool * Z * Z * Z) :=
  let! c := at_ f i in
  if (c =? ch "-") || (c =? ch "_") || (c =? ch "0") then read_width f c (i + 1) else read_width f 0 i.

(** The loop; the return value and the buffer. *)
Fixpoint strftime_loop (fuel : nat) (rec : list Z -> Z -> list Z -> tm -> outcome (Z * list Z))
  (s : list Z) (n : Z) (f : list Z) (t : tm) (i l : Z) : outcome (Z * list Z) :=
  match fuel with
  | O => NoFuel
  | S fuel' =>
      if l <? n then
        let! c := at_ f i in
        if c =? 0 then let! s := zset s l 0 in Ok (l, s)
        else if negb (c =? ch "%") then
          let! s := zset s l c in
          strftime_loop fuel' rec s n f t (i + 1) (l + 1)
        else
          let! (pad, plus, width, p, i) := read_directive f (i + 1) in
          let! c := at_ f i in
          let! r := __strftime_fmt_1 rec c t pad in
          match r with
          | None => break_off s n l
          | Some (x, k) =>
              let! cp := at_ f p in
              let! (s, l, x, k) := if ctrue width then widen s n l width k x plus cp (tm_year t) else Ok (s, l, x, k) in
              let k := if n - l <? k then n - l else k in
              let! s := copy_text s l x k in
              strftime_loop fuel' rec s n f t (i + 1) (l + k)
          end
      else break_off s n l
  end.

Fixpoint __strftime_l (depth : nat) (s : list Z) (n : Z) (f : list Z) (t : tm) : outcome (Z * list Z) :=
  match depth with
  | O => NoFuel
  | S depth => strftime_loop (S (length f)) (__strftime_l depth) s n f t 0 0
  end.
Definition strftime (s : list Z) (n : Z) (f : list Z) (t : tm) : outcome (Z * list Z) := __strftime_l 3 s n f t.
End Strftime.

(** The text of a time, for a buffer of 64 bytes. *)
Definition show (f : list Z) (t : tm) : outcome (Z * list Z) :=
  let! (r, s) := strftime true (fun _ => []) 7 (fun _ => Some (lit "UTC")) (replicate 64 7) 64 f t in Ok (r, string_at s).

(** The first second of 2000 was a Saturday in the last week of 1999. *)
Example show_c : show (lit "%c") (mk_tm 0 0 0 1 0 100 6 0 0 0 0) = Ok (24, lit "Sat Jan  1 00:00:00 2000").
Proof. by vm_compute. Qed.
Example show_iso : show (lit "%G-W%V-%u %j %I%p %s %z %Z %e") (mk_tm 0 0 0 1 0 100 6 0 0 0 0) = Ok (42, lit "1999-W52-6 001 12AM 946684800 +0000 UTC  1").
Proof. by vm_compute. Qed.
Example show_width : show (lit "%+5Y|%5Y|%+3C|%12F|%-d|%_H") (mk_tm 0 0 0 1 0 (-2000) 6 0 0 0 0) = Ok (33, lit "-0100|-0100|-01|-00100-01-01|1| 0").
Proof. by vm_compute. Qed.

(** * strptime.c *)

(** What [dest] points to. *)
Inductive place_ : Type := Wday | Mon | Mday | Hour | Yday | Min | Sec | Year | Century | Relyear | Dummy.

(** The object behind [tm], and the locals that are assigned in more than one round. *)
Record ptime : Type := PT { p_tm : tm; century : Z; relyear : Z; want_century : Z }.

Definition put (d : place_) (v : Z) (x : ptime) : ptime :=
  let t := p_tm x in
  let with_tm t := PT t (century x) (relyear x) (want_century x) in
  match d with
  | Sec => with_tm (mk_tm v (tm_min t) (tm_hour t) (tm_mday t) (tm_mon t) (tm_year t) (tm_wday t) (tm_yday t) (tm_isdst t) (tm_gmtoff t) (tm_zone t))
  | Min => with_tm (mk_tm (tm_sec t) v (tm_hour t) (tm_mday t) (tm_mon t) (tm_year t) (tm_wday t) (tm_yday t) (tm_isdst t) (tm_gmtoff t) (tm_zone t))
  | Hour => with_tm (mk_tm (tm_sec t) (tm_min t) v (tm_mday t) (tm_mon t) (tm_year t) (tm_wday t) (tm_yday t) (tm_isdst t) (tm_gmtoff t) (tm_zone t))
  | Mday => with_tm (mk_tm (tm_sec t) (tm_min t) (tm_hour t) v (tm_mon t) (tm_year t) (tm_wday t) (tm_yday t) (tm_isdst t) (tm_gmtoff t) (tm_zone t))
  | Mon => with_tm (mk_tm (tm_sec t) (tm_min t) (tm_hour t) (tm_mday t) v (tm_year t) (tm_wday t) (tm_yday t) (tm_isdst t) (tm_gmtoff t) (tm_zone t))
  | Year => with_tm (mk_tm (tm_sec t) (tm_min t) (tm_hour t) (tm_mday t) (tm_mon t) v (tm_wday t) (tm_yday t) (tm_isdst t) (tm_gmtoff t) (tm_zone t))
  | Wday => with_tm (mk_tm (tm_sec t) (tm_min t) (tm_hour t) (tm_mday t) (tm_mon t) (tm_year t) v (tm_yday t) (tm_isdst t) (tm_gmtoff t) (tm_zone t))
  | Yday => with_tm (mk_tm (tm_sec t) (tm_min t) (tm_hour t) (tm_mday t) (tm_mon t) (tm_year t) (tm_wday t) v (tm_isdst t) (tm_gmtoff t) (tm_zone t))
  | Century => PT t v (relyear x) (want_century x)
  | Relyear => PT t (century x) v (want_century x)
  | Dummy => x
  end.
Definition wants (w : Z) (x : ptime) : ptime := PT (p_tm x) (century x) (relyear x) w.
Definition set_tm (t : tm) (x : ptime) : ptime := PT t (century x) (relyear x) (want_century x).

(** [for (; *s && isspace( *s); s++);] *)
Definition skip_space (s : list Z) (k : Z) : Z := k + zlen (span isspace (drop (Z.to_nat k) s)).

(** [*dest * 10 + *s++ - '0'] *)
Definition next_digit (v c : Z) : outcome Z := let! a := int_ (v * 10) in let! a := int_ (a + c) in int_ (a - ch "0").

(** [for (i=1; i<=min+range && isdigit( *s); i*=10)]: [*dest] and [s]. *)
Fixpoint range_digits (fuel : nat) (s : list Z) (k i bound v : Z) : outcome (Z * Z) :=
  match fuel with
  | O => NoFuel
  | S fuel' =>
      if i <=? bound then
        let! c := at_ s k in
        if isdigit c then let! v := next_digit v c in range_digits fuel' s (k + 1) (i * 10) bound v else Ok (v, k)
      else Ok (v, k)
  end.
(** [for ( *dest=i=0; i<w && isdigit( *s); i++)] *)
Fixpoint count_digits (fuel : nat) (s : list Z) (k i w v : Z) : outcome (Z * Z) :=
  match fuel with
  | O => NoFuel
  | S fuel' =>
      if i <? w then
        let! c := at_ s k in
        if isdigit c then let! v := next_digit v c in count_digits fuel' s (k + 1) (i + 1) w v else Ok (v, k)
      else Ok (v, k)
  end.

(** The labels: the new [s] ([None] is [return 0]) and what has been assigned. *)
Definition numeric_range (s : list Z) (k : Z) (d : place_) (min range adj : Z) (x : ptime) : outcome (option Z * ptime) :=
  let! c := at_ s k in
  if negb (isdigit c) then Ok (None, x)
  else
    let! (v, k) := range_digits 5 s k 1 (min + range) 0 in
    if range <=? u32 (v - min) then Ok (None, put d v x) else Ok (Some k, put d (v - adj) x).
Definition numeric_digits (s : list Z) (k : Z) (d : place_) (w adj : Z) (x : ptime) : outcome (option Z * ptime) :=
  let! c := at_ s k in
  let neg := negb (c =? ch "+") && (c =? ch "-") in
  let k := if (c =? ch "+") || (c =? ch "-") then k + 1 else k in
  let! c := at_ s k in
  if negb (isdigit c) then Ok (None, x)
  else
    let! (v, k) := count_digits (S (length s)) s k 0 w 0 in
    let! v := int_ ((if neg then - v else v) - adj) in
    Ok (Some k, put d v x).
(** [n] is [i + 1]. *)
Fixpoint symbolic_loop (n : nat) (s : list Z) (k : Z) (d : place_) (min range : Z) (x : ptime) : outcome (option Z * ptime) :=
  match n with
  | O => Ok (None, x)
  | S n' =>
      let i := Z.of_nat n' in
      let ex := nl_langinfo (min + i) in
      let! r := strncasecmp_at s ex k (zlen ex) in
      if ctrue r then symbolic_loop n' s k d min range x else Ok (Some (k + zlen ex), put d (Z.rem i range) x)
  end.
Definition symbolic_range (s : list Z) (k : Z) (d : place_) (min range : Z) (x : ptime) : outcome (option Z * ptime) :=
  symbolic_loop (Z.to_nat (2 * range)) s k d min range x.

(** [case 'p'] *)
Definition am_pm (s : list Z) (k : Z) (x : ptime) : outcome (option Z * ptime) :=
  let am := nl_langinfo AM_STR in
  let! r := strncasecmp_at s am k (zlen am) in
  if r =? 0 then Ok (Some (k + zlen am), put Hour (Z.rem (tm_hour (p_tm x)) 12) x)
  else
    let pm := nl_langinfo PM_STR in
    let! r := strncasecmp_at s pm k (zlen pm) in
    if r =? 0 then Ok (Some (k + zlen pm), put Hour (Z.rem (tm_hour (p_tm x)) 12 + 12) x) else Ok (None, x).

(** The [switch]; [rec] is [strptime]. *)
Definition conversion (rec : list Z -> list Z -> tm -> outcome (option Z * tm)) (s : list Z) (k c w : Z) (x : ptime)
  : outcome (option Z * ptime) :=
  let again fmt :=
    let! (r, t) := rec (drop (Z.to_nat k) s) fmt (p_tm x) in
    Ok (option_map (Z.add k) r, set_tm t x) in
  if (c =? ch "a") || (c =? ch "A") then symbolic_range s k Wday ABDAY_1 7 x
  else if (c =? ch "b") || (c =? ch "B") || (c =? ch "h") then symbolic_range s k Mon ABMON_1 12 x
  else if c =? ch "c" then again (nl_langinfo D_T_FMT)
  else if c =? ch "C" then numeric_digits s k Century (if w <? 0 then 2 else w) 0 (wants (Z.lor (want_century x) 2) x)
  else if (c =? ch "d") || (c =? ch "e") then numeric_range s k Mday 1 31 0 x
  else if c =? ch "D" then again (lit "%m/%d/%y")
  else if c =? ch "H" then numeric_range s k Hour 0 24 0 x
  else if c =? ch "I" then numeric_range s k Hour 1 12 0 x
  else if c =? ch "j" then numeric_range s k Yday 1 366 1 x
  else if c =? ch "m" then numeric_range s k Mon 1 12 1 x
  else if c =? ch "M" then numeric_range s k Min 0 60 0 x
  else if (c =? ch "n") || (c =? ch "t") then Ok (Some (skip_space s k), x)
  else if c =? ch "p" then am_pm s k x
  else if c =? ch "r" then again (nl_langinfo T_FMT_AMPM)
  else if c =? ch "R" then again (lit "%H:%M")
  else if c =? ch "S" then numeric_range s k Sec 0 61 0 x
  else if c =? ch "T" then again (lit "%H:%M:%S")
  else if (c =? ch "U") || (c =? ch "W") then numeric_range s k Dummy 0 54 0 x
  else if c =? ch "w" then numeric_range s k Wday 0 7 0 x
  else if c =? ch "x" then again (nl_langinfo D_FMT)
  else if c =? ch "X" then again (nl_langinfo T_FMT)
  else if c =? ch "y" then numeric_digits s k Relyear 2 0 (wants (Z.lor (want_century x) 1) x)
  else if c =? ch "Y" then numeric_digits s k Year (if w <? 0 then 4 else w) 1900 (wants 0 x)
  else if c =? ch "%" then let! d := at_ s k in Ok (if d =? ch "%" then Some (k + 1) else None, x)
  else Ok (None, x).

(** Behind the loop. *)
Definition finish_year (x : ptime) : outcome tm :=
  if ctrue (want_century x) then
    let! y :=
      if ctrue (Z.land (want_century x) 2) then
        let! a := int_ (century x * 100) in let! a := int_ (a - 1900) in int_ (relyear x + a)
      else Ok (if relyear x <=? 68 then relyear x + 100 else relyear x) in
    Ok (p_tm (put Year y x))
  else Ok (p_tm x).

(** The loop, at [f + i] and [s + k]; the result is the offset of the end in [s]. *)
Fixpoint strptime_loop (fuel : nat) (rec : list Z -> list Z -> tm -> outcome (option Z * tm)) (s f : list Z) (i k : Z) (x : ptime)
  : outcome (option Z * tm) :=
  match fuel with
  | O => NoFuel
  | S fuel' =>
      let! c := at_ f i in
      if c =? 0 then let! t := finish_year x in Ok (Some k, t)
      else if negb (c =? ch "%") then
        if isspace c then strptime_loop fuel' rec s f (i + 1) (skip_space s k) x
        else
          let! d := at_ s k in
          if negb (d =? c) then Ok (None, p_tm x) else strptime_loop fuel' rec s f (i + 1) (k + 1) x
      else
        let i := i + 1 in
        let! c := at_ f i in
        let i := if c =? ch "+" then i + 1 else i in
        let! c := at_ f i in
        let! (w, i) := if isdigit c then let! (w, _, e) := strtoul (drop (Z.to_nat i) f) 10 in Ok (s32 w, i + e) else Ok (-1, i) in
        let! c := at_ f i in
        let! (r, x) := conversion rec s k c w x in
        match r with
        | None => Ok (None, p_tm x)
        | Some k => strptime_loop fuel' rec s f (i + 1) k x
        end
  end.

Fixpoint strptime_at (depth : nat) (s f : list Z) (t : tm) : outcome (option Z * tm) :=
  match depth with
  | O => NoFuel
  | S depth => strptime_loop (S (length f)) (strptime_at depth) s f 0 0 (PT t 0 0 0)
  end.
Definition strptime (s f : list Z) (t : tm) : outcome (option Z * tm) := strptime_at 3 s f t.

Example parse_c : strptime (lit "Sat Jan  1 23:59:60 2000.") (lit "%c") (mk_tm 0 0 0 0 0 0 0 0 0 0 0) = Ok (Some 24, mk_tm 60 59 23 1 0 100 6 0 0 0 0).
Proof. by vm_compute. Qed.
Example parse_r : strptime (lit "1/2/68 12:00:01 am") (lit "%D %r") (mk_tm 0 0 0 0 0 0 0 0 0 0 0) = Ok (Some 18, mk_tm 1 0 0 2 0 168 0 0 0 0 0).
Proof. by vm_compute. Qed.
