(* ===== verification/Isoweek.v ===== *)
(** The week of a date ([%V], [%G] and [%g] of [libc-top-half/musl/src/time/strftime.c]).

    The weeks of ISO 8601 go from Monday to Sunday and belong to the year in which their Thursday is.  [week_num]
    and the code of [%G] find the number and the year from the day of the week and the day of the
    year by case distinctions; [iso_week_correct] shows them right for every second that [gmtime_r] converts. *)

From S2P Require Import Prelude Calendar Strftime.
Import Calendar.

(** * Leap years *)

Lemma rem_mod_0 x n : 0 < n -> (Z.rem x n =? 0) = (x mod n =? 0).
Proof. intros Hn. apply eq_iff_eq_true. rewrite !Z.eqb_eq, Z.rem_divide, Z.mod_divide by lia. done. Qed.

Lemma leap_year_mod a b : a mod 400 = b mod 400 -> is_leap_year a = is_leap_year b.
Proof.
  intros H. unfold is_leap_year. assert (a mod 4 = b mod 4 /\ a mod 100 = b mod 100) as [-> ->]; [|by rewrite H]. split; Z.div_mod_to_equations; lia.
Qed.

Lemma is_leap_year_of y : is_leap y = is_leap_year (1900 + y).
Proof.
  unfold is_leap, ctrue. rewrite !rem_mod_0 by lia. rewrite (Z.add_comm 1900). destruct (Z.ltb_spec (INT_MAX - 1900) y); [|done].
  change (is_leap_year (y - 2000 + 1900) = is_leap_year (y + 1900)). apply leap_year_mod. Z.div_mod_to_equations; lia.
Qed.

Lemma is_leap_before y : is_leap (Z.rem y 400 - 1) = is_leap_year (1899 + y).
Proof. rewrite is_leap_year_of. apply leap_year_mod. pose proof (Z.quot_rem' y 400). Z.div_mod_to_equations; lia. Qed.

(** * From the day of the year and of the week *)

Definition year_length (y : Z) : Z := 365 + cbool (is_leap_year y).

(** The day of the year of the Thursday of the week, which may be in a neighbouring year. *)
Definition thursday (yday wday : Z) : Z := yday - (wday + 6) mod 7 + 3.

(** By the tables: the number of the week and whether its year is the one before, this one or the next. *)
Definition week_of (prev_leap leap : bool) (yday wday : Z) : Z * Z :=
  let th := thursday yday wday in
  if th <? 0 then (-1, (th + 365 + cbool prev_leap) / 7 + 1)
  else if 365 + cbool leap <=? th then (1, (th - 365 - cbool leap) / 7 + 1)
  else (0, th / 7 + 1).

(** What the code computes, with the two tests for leap years as arguments. *)
Definition code_week (prev_leap leap : bool) (yday wday : Z) : Z * Z :=
  let val := (yday + 7 - (wday + 6) mod 7) / 7 in
  let val := if (wday + 371 - yday - 2) mod 7 <=? 2 then val + 1 else val in
  let num :=
    if val =? 0 then if ((wday + 7 - yday - 1) mod 7 =? 4) || (((wday + 7 - yday - 1) mod 7 =? 5) && prev_leap) then 53 else 52
    else if val =? 53 then let jan1 := (wday + 371 - yday) mod 7 in if negb (jan1 =? 4) && (negb (jan1 =? 3) || negb leap) then 1 else 53
    else val in
  (if (yday <? 3) && negb (num =? 1) then -1 else if (360 <? yday) && (num =? 1) then 1 else 0, num).

Definition week_check (pl l : bool) : bool :=
  forallb (fun yday => forallb (fun wday => bool_decide (code_week pl l yday wday = week_of pl l yday wday)) (seqZ 0 7)) (seqZ 0 (365 + cbool l)).
Lemma week_checked pl l yday wday : 0 <= yday < 365 + cbool l -> 0 <= wday < 7 -> code_week pl l yday wday = week_of pl l yday wday.
Proof.
  intros Hy Hw. assert (week_check pl l = true) as H by (destruct pl, l; by vm_compute). unfold week_check in H.
  pose proof (forall_below _ _ H yday Hy) as H1. pose proof (forall_below _ _ H1 wday Hw) as H2. by apply bool_decide_eq_true in H2.
Qed.

Lemma week_num_code t : 0 <= tm_yday t < year_length (1900 + tm_year t) -> 0 <= tm_wday t < 7 ->
  (week_year t - (1900 + tm_year t), week_num t) = code_week (is_leap_year (1899 + tm_year t)) (is_leap_year (1900 + tm_year t)) (tm_yday t) (tm_wday t).
Proof.
  unfold year_length. intros Hy Hw. assert (0 <= tm_yday t < 366) by (unfold cbool in Hy; destruct (is_leap_year _); lia).
  assert (week_num t = snd (code_week (is_leap_year (1899 + tm_year t)) (is_leap_year (1900 + tm_year t)) (tm_yday t) (tm_wday t))) as E.
  { unfold week_num, code_week. cbn [snd]. rewrite is_leap_before, is_leap_year_of. pose proof (Z.mod_pos_bound (tm_wday t + 6) 7 eq_refl).
    rewrite (u32_id (tm_yday t)), (u32_id (tm_wday t)), (u32_id (tm_wday t + 6)), (u32_id (tm_yday t + 7 - _)), (u32_id (tm_wday t + 371 - tm_yday t - 2)), (u32_id (tm_wday t + 371 - tm_yday t)) by (unfold in_u; lia).
    rewrite s32_id by (unfold in_s; Z.div_mod_to_equations; lia). set (v := (tm_yday t + 7 - (tm_wday t + 6) mod 7) / 7).
    destruct (Z.eqb_spec (if (tm_wday t + 371 - tm_yday t - 2) mod 7 <=? 2 then v + 1 else v) 0) as [E|E]; [|done].
    assert (v <= 0) by (destruct (_ <=? 2); lia). rewrite u32_id; [done|]. unfold in_u. subst v. Z.div_mod_to_equations; lia. }
  unfold week_year. rewrite E. unfold code_week. cbn [fst snd].
  match goal with |- context [if (tm_yday t <? 3) && negb (?n =? 1) then _ else _] => set (num := n) end.
  clearbody num. clear E. destruct ((tm_yday t <? 3) && negb (num =? 1)); [f_equal; lia|]. destruct ((360 <? tm_yday t) && (num =? 1)); f_equal; lia.
Qed.

(** * The dates of [gmtime_r] *)

Lemma month_in_year y m d : 0 <= m < 12 -> 1 <= d <= month_length y m -> 0 <= month_days y m + d - 1 < year_length y.
Proof.
  intros Hm'. assert (0 <= m <= 11) as Hm by lia. clear Hm'. unfold month_length, year_length. pattern m. revert m Hm. apply month_cases; unfold month_days, month_starts; lits; destruct (is_leap_year y); cbn; lia.
Qed.

(** C36: for every second that [gmtime_r] converts, [%V] and [%G] are the week of ISO 8601: with [thu] the
    day, counted from the epoch, of the Thursday of the week from Monday to Sunday that the day is in, the year is the one [thu] lies in, and
    the number of the week counts the Thursdays of that year up to [thu]. *)
Theorem iso_week_correct secs tm0 t : in_s 64 secs -> gmtime_r secs tm0 = Ok (Val t) ->
  let day := secs / 86400 in
  let thu := day - (day + 3) mod 7 + 3 in
  year_days (week_year t) <= thu < year_days (week_year t + 1) /\ week_num t = (thu - year_days (week_year t)) / 7 + 1.
Proof.
  intros Hs Hg. unfold gmtime_r in Hg. destruct (secs_to_tm_spec secs tm0 Hs) as (o & Ho & Hspec). rewrite Ho in Hg. cbn [obind] in Hg.
  destruct o as [n|]; [|done]. injection Hg as <-. destruct Hspec as (Hv & Hsec & Hwd & Hyd & _). destruct Hv as (H1 & H2 & H3 & H4 & H5 & H6).
  set (y := 1900 + tm_year n) in *. pose proof (month_in_year y _ _ H4 H5) as Hr. rewrite <- Hyd in Hr.
  assert (0 <= tm_wday n < 7) as Hw by (rewrite Hwd; apply Z.mod_pos_bound; lia).
  pose proof (week_num_code (in_utc n) Hr Hw) as Hc. change (tm_year (in_utc n)) with (tm_year n) in Hc. change (tm_yday (in_utc n)) with (tm_yday n) in Hc. change (tm_wday (in_utc n)) with (tm_wday n) in Hc.
  fold y in Hc. replace (1899 + tm_year n) with (y - 1) in Hc by lia. rewrite week_checked in Hc by done.
  assert (secs / 86400 = year_days y + tm_yday n) as Hday.
  { unfold tm_seconds, civil_days in Hsec. fold y in Hsec. rewrite <- Hsec, Hyd. Z.div_mod_to_equations; lia. }
  cbv zeta. rewrite Hday. pose proof (year_days_succ y). pose proof (year_days_succ (y - 1)) as Hp. replace (y - 1 + 1) with y in Hp by lia.
  assert (year_days y + tm_yday n - (year_days y + tm_yday n + 3) mod 7 + 3 = year_days y + thursday (tm_yday n) (tm_wday n)) as Hthu.
  { unfold thursday. rewrite <- Hday, Hwd. Z.div_mod_to_equations; lia. }
  rewrite Hthu. pose proof (year_days_succ (y + 1)). unfold week_of in Hc. unfold year_length in Hr.
  set (th := thursday (tm_yday n) (tm_wday n)) in *. assert (-3 <= th < 365 + cbool (is_leap_year y) + 3) by (unfold th, thursday; Z.div_mod_to_equations; lia).
  assert (forall b, 0 <= cbool b <= 1) as Hb by (intros []; cbn; lia). pose proof (Hb (is_leap_year y)). pose proof (Hb (is_leap_year (y - 1))). pose proof (Hb (is_leap_year (y + 1))).
  destruct (Z.ltb_spec th 0); [|destruct (Z.leb_spec (365 + cbool (is_leap_year y)) th)]; injection Hc as Hg Hn; rewrite Hn.
  - replace (week_year (in_utc n)) with (y - 1) by lia. replace (y - 1 + 1) with y by lia. split; [lia|]. do 2 f_equal. lia.
  - replace (week_year (in_utc n)) with (y + 1) by lia. split; [lia|]. do 2 f_equal. lia.
  - replace (week_year (in_utc n)) with y by lia. split; [lia|]. do 2 f_equal. lia.
Qed.

(** January 1 of 2000 is in week 52 of 1999. *)
Lemma iso_week_correct_witness :
  exists t, gmtime_r 946684800 zero_tm = Ok (Val t) /\ tm_year t = 100 /\ week_year t = 1999 /\ week_num t = 52 /\
    let day := 946684800 / 86400 in
    let thu := day - (day + 3) mod 7 + 3 in
    year_days (week_year t) <= thu < year_days (week_year t + 1) /\ week_num t = (thu - year_days (week_year t)) / 7 + 1.
Proof.
  eexists. split; [vm_compute; reflexivity|]. split; [done|]. split; [by vm_compute|]. split; [by vm_compute|].
  apply (iso_week_correct 946684800 zero_tm); [by bounds|vm_compute; reflexivity].
Defined.
