(* ===== verification/StrftimeSpec.v ===== *)
(** What [strftime] writes ([libc-top-half/musl/src/time/strftime.c]).

    [strftime_correct]: a format of characters and conversions, with padding flags and modifiers, is replaced by the
    texts of its pieces, which go to the buffer as far as there is room.  [strftime_safe]: on every
    format, with field widths and unknown conversions too, the function returns and writes into the buffer only. *)

From Stdlib Require Import Ascii String.
From S2P Require Import Prelude Memory Strings StringsScan StringsType Calendar Intscan IntscanSpec Printf PrintfSpec Inet InetSpec InetText Casecmp Strftime.
Import Calendar.

(** * Numbers *)

(** A number in a field: [pad] is ['-'] for no field, ['_'] for blanks, else zeros. *)
Definition num_text (pad width v : Z) : list Z :=
  justify false (negb (pad =? ch "_")) (if pad =? ch "-" then 0 else width) (if v <? 0 then [ch "-"] else []) (decimal (Z.abs v)).

Definition long_d (v : Z) : conv := CInt Lll (ch "d") v.

Lemma decimal_as_digits x : 0 <= x -> zero_extend 1 (numeral_text false 10 x) = decimal x.
Proof.
  intros Hx. unfold decimal. destruct (Z.eqb_spec x 0) as [-> |Hne]; [done|]. pose proof (numeral_text_nonempty false 10 x ltac:(lia) ltac:(lia)).
  unfold zero_extend. by replace (Z.to_nat (1 - zlen (numeral_text false 10 x))) with O by lia.
Qed.

Lemma decimal_length x n : 0 <= x < 10 ^ n -> 1 <= n -> 1 <= zlen (decimal x) <= n.
Proof.
  intros Hx Hn. unfold decimal. destruct (Z.eqb_spec x 0) as [-> |Hne]; [change (zlen [48]) with 1; lia|].
  pose proof (numeral_text_nonempty false 10 x ltac:(lia) ltac:(lia)). pose proof (digits_length 10 x n ltac:(lia) Hx ltac:(lia)).
  unfold numeral_text in *. unfold zlen in *. rewrite length_map in *. lia.
Qed.

Lemma justify_no_field z w p t : w <= zlen p + zlen t -> justify false z w p t = p ++ t.
Proof. intros Hw. unfold justify. rewrite zlen_app. replace (Z.to_nat (w - (zlen p + zlen t))) with O by lia. by destruct z. Qed.

Lemma num_text_no_field v : num_text (ch "-") 0 v = (if v <? 0 then [ch "-"] else []) ++ decimal (Z.abs v).
Proof. unfold num_text. rewrite Z.eqb_refl. apply justify_no_field. pose proof (zlen_nonneg (if v <? 0 then [ch "-"] else [])). pose proof (zlen_nonneg (decimal (Z.abs v))). lia. Qed.

Lemma justify_cstring z w p t : cstring p -> cstring t -> cstring (justify false z w p t).
Proof.
  intros Hp Ht. unfold justify, cstring in *. destruct z; rewrite !Forall_app; split_and!; try done; apply Forall_replicate; by compute.
Qed.

Lemma decimal_cstring x : 0 <= x -> cstring (decimal x).
Proof. intros Hx. eapply Forall_impl; [by apply decimal_chars|]. cbn beta. intros c Hc. lia. Qed.
Lemma sign_cstring v : cstring (if v <? 0 then [ch "-"] else []).
Proof. unfold cstring. destruct (v <? 0); repeat constructor. Qed.

Lemma num_text_cstring pad w v : cstring (num_text pad w v).
Proof. apply justify_cstring; [apply sign_cstring|apply decimal_cstring; lia]. Qed.

Lemma num_text_length pad w v : 0 <= w <= 20 -> in_s 64 v -> 1 <= zlen (num_text pad w v) <= 20.
Proof.
  unfold in_s. intros Hw Hv. unfold num_text. rewrite zlen_justify. pose proof (decimal_length (Z.abs v) 19 ltac:(lia) ltac:(lia)).
  destruct (v <? 0); [change (zlen [ch "-"]) with 1|change (zlen (@nil Z)) with 0]; destruct (pad =? ch "-"); lia.
Qed.

Lemma string_at_text text rest : cstring text -> string_at (text ++ 0 :: rest) = text.
Proof.
  intros Ht. unfold string_at. induction Ht as [|c text Hc Ht IH]; [done|]. cbn [app span]. rewrite (proj2 (Z.eqb_neq c 0)) by lia. cbn [negb]. by rewrite IH.
Qed.

(** At least four digits behind the sign. *)
Definition offset_text (v : Z) : list Z := (if v <? 0 then ch "-" else ch "+") :: zero_extend 4 (numeral_text false 10 (Z.abs v)).

(** * Formats and their texts *)

(** A piece of a format: a character, or a conversion [%] with an optional flag, an optional modifier [E] or [O] (0 where there is none), and its letter. *)
Inductive tpiece : Type := TChar (c : Z) | TConv (pad modifier c : Z).

Definition optional (c : Z) : list Z := if c =? 0 then [] else [c].
Definition written (p : tpiece) : list Z := match p with TChar c => [c] | TConv pad m c => ch "%" :: optional pad ++ optional m ++ [c] end.

Definition short_days : list string := ["Sun"; "Mon"; "Tue"; "Wed"; "Thu"; "Fri"; "Sat"]%string.
Definition long_days : list string := ["Sunday"; "Monday"; "Tuesday"; "Wednesday"; "Thursday"; "Friday"; "Saturday"]%string.
Definition short_months : list string := ["Jan"; "Feb"; "Mar"; "Apr"; "May"; "Jun"; "Jul"; "Aug"; "Sep"; "Oct"; "Nov"; "Dec"]%string.
Definition long_months : list string :=
  ["January"; "February"; "March"; "April"; "May"; "June"; "July"; "August"; "September"; "October"; "November"; "December"]%string.
(** The name of number [i], or a dash. *)
Definition name_of (l : list string) (i : Z) : list Z := if i <? 0 then lit "-" else lit (nth (Z.to_nat i) l "-"%string).

(** The conversions to a number: the padding, the width and the number. *)
Definition number_of (t : tm) (c : Z) : option (Z * Z * Z) :=
  let zero w v := Some (ch "0", w, v) in
  if c =? ch "C" then zero 2 (Z.quot (1900 + tm_year t) 100)
  else if c =? ch "e" then Some (ch "_", 2, tm_mday t)
  else if c =? ch "d" then zero 2 (tm_mday t)
  else if c =? ch "g" then zero 2 (Z.rem (week_year t) 100)
  else if c =? ch "G" then zero 4 (week_year t)
  else if c =? ch "H" then zero 2 (tm_hour t)
  else if c =? ch "I" then zero 2 (if tm_hour t =? 0 then 12 else if 12 <? tm_hour t then tm_hour t - 12 else tm_hour t)
  else if c =? ch "j" then zero 3 (tm_yday t + 1)
  else if c =? ch "m" then zero 2 (tm_mon t + 1)
  else if c =? ch "M" then zero 2 (tm_min t)
  else if c =? ch "s" then zero 1 (carried_seconds t - tm_gmtoff t)
  else if c =? ch "S" then zero 2 (tm_sec t)
  else if c =? ch "u" then zero 1 (if tm_wday t =? 0 then 7 else tm_wday t)
  else if c =? ch "U" then zero 2 (u32 (u32 (tm_yday t) + 7 - u32 (tm_wday t)) / 7)
  else if c =? ch "W" then zero 2 (u32 (u32 (tm_yday t) + 7 - (u32 (u32 (tm_wday t) + 6) mod 7)) / 7)
  else if c =? ch "V" then zero 2 (week_num t)
  else if c =? ch "w" then zero 1 (tm_wday t)
  else if c =? ch "y" then zero 2 (Z.abs (Z.rem (tm_year t + 1900) 100))
  else if c =? ch "Y" then zero 4 (tm_year t + 1900)
  else None.

(** The conversions that stand for a format. *)
Definition conv_of (c : Z) : tpiece := TConv 0 0 c.
Definition time_pieces : list tpiece := [conv_of (ch "H"); TChar (ch ":"); conv_of (ch "M"); TChar (ch ":"); conv_of (ch "S")].
Definition date_pieces : list tpiece := [conv_of (ch "m"); TChar (ch "/"); conv_of (ch "d"); TChar (ch "/"); conv_of (ch "y")].
Definition expansion (c : Z) : option (list tpiece) :=
  if c =? ch "c" then
    Some [conv_of (ch "a"); TChar 32; conv_of (ch "b"); TChar 32; conv_of (ch "e"); TChar 32; conv_of (ch "T"); TChar 32; conv_of (ch "Y")]
  else if (c =? ch "D") || (c =? ch "x") then Some date_pieces
  else if c =? ch "F" then Some [conv_of (ch "Y"); TChar (ch "-"); conv_of (ch "m"); TChar (ch "-"); conv_of (ch "d")]
  else if c =? ch "r" then
    Some [conv_of (ch "I"); TChar (ch ":"); conv_of (ch "M"); TChar (ch ":"); conv_of (ch "S"); TChar 32; conv_of (ch "p")]
  else if c =? ch "R" then Some [conv_of (ch "H"); TChar (ch ":"); conv_of (ch "M")]
  else if (c =? ch "T") || (c =? ch "X") then Some time_pieces
  else None.

Section Texts.
(** The string at the address that is [__tm_zone]. *)
Context (zone : Z -> list Z).

(** The other conversions. *)
Definition simple_text (t : tm) (pad c : Z) : list Z :=
  match number_of t c with
  | Some (def, w, v) => if (c =? ch "Y") && (10000 <=? v) then ch "+" :: decimal v else num_text (if ctrue pad then pad else def) w v
  | None =>
      if c =? ch "a" then name_of short_days (tm_wday t)
      else if c =? ch "A" then name_of long_days (tm_wday t)
      else if (c =? ch "h") || (c =? ch "b") then name_of short_months (tm_mon t)
      else if c =? ch "B" then name_of long_months (tm_mon t)
      else if c =? ch "n" then [10]
      else if c =? ch "t" then [9]
      else if c =? ch "p" then lit (if 12 <=? tm_hour t then "PM" else "AM")
      else if c =? ch "z" then if tm_isdst t <? 0 then [] else offset_text (Z.quot (tm_gmtoff t) 3600 * 100 + Z.quot (Z.rem (tm_gmtoff t) 3600) 60)
      else if c =? ch "Z" then if tm_isdst t <? 0 then [] else zone (tm_zone t)
      else [c]
  end.

Fixpoint text_of (depth : nat) (t : tm) (p : tpiece) : list Z :=
  match p with
  | TChar c => [c]
  | TConv pad _ c =>
      match expansion c with
      | None => simple_text t pad c
      | Some ps => match depth with O => [] | S depth => concat (map (text_of depth t) ps) end
      end
  end.
Definition text_all (depth : nat) (t : tm) (ps : list tpiece) : list Z := concat (map (text_of depth t) ps).

End Texts.

(** The letters of conversions. *)
Definition letters : list Z := lit "aAhbBcCedDFgGHIjmMnprRsStTuUWVwxXyYzZ%".
Definition tpiece_ok (p : tpiece) : Prop :=
  match p with
  | TChar c => 0 < c < 256 /\ c <> ch "%"
  | TConv pad m c => pad ∈ [0; ch "-"; ch "_"; ch "0"] /\ m ∈ [0; ch "E"; ch "O"] /\ c ∈ letters
  end.
(** The expansions end within [depth]. *)
Fixpoint fits (depth : nat) (p : tpiece) : Prop :=
  match p with
  | TChar _ => True
  | TConv _ _ c => match expansion c with None => True | Some ps => match depth with O => False | S depth => Forall (fits depth) ps end end
  end.

(** The fields are of their C types, and adding one to the day of the year and the month stays in range. *)
Definition tm_ok (t : tm) : Prop :=
  int_fields t /\ in_s 32 (tm_wday t) /\ in_s 32 (tm_yday t) /\ in_s 32 (tm_isdst t) /\ in_s 32 (tm_gmtoff t) /\
  tm_yday t < INT_MAX /\ tm_mon t < INT_MAX.

(** Decide the comparisons of characters. *)
Ltac eval_letters :=
  repeat match goal with
  | |- context [?a =? ?b] => let r := eval vm_compute in (a =? b) in match r with true => idtac | false => idtac end; change (a =? b) with r
  end; cbn [orb andb negb].

(** The string at an address, for the texts of [%Z]. *)
Definition zone_text (zones : Z -> option (list Z)) (a : Z) : list Z := default [] (zones a).
(** [%Z] finds a string at [__tm_zone] where it reads it. *)
Definition zone_ok (zones : Z -> option (list Z)) (t : tm) : Prop :=
  tm_isdst t < 0 \/ exists z, zones (tm_zone t) = Some z /\ zlen z < 2 ^ 32.
Definition zoned (zones : Z -> option (list Z)) (t : tm) (p : tpiece) : Prop :=
  match p with TConv _ _ c => c = ch "Z" -> zone_ok zones t | TChar _ => True end.

Section Spec.
Context (utf8 : bool) (strerror : Z -> list Z) (junk : Z) (zones : Z -> option (list Z)).
Notation zone := (zone_text zones).
Notation zoned := (zoned zones).
Notation zone_ok := (zone_ok zones).
Hypothesis strerror_text : cstring (strerror 0).

Lemma meaning_long_d err fs w v : Forall (fun c => c = ch "0") fs -> in_s 64 v -> w = WNone \/ (exists x, w = WStar x /\ 0 <= x <= 20) ->
  meaning err (Conv fs w PNone (long_d v)) = justify false (flag fs (ch "0")) (field w) (if v <? 0 then [ch "-"] else []) (decimal (Z.abs v)).
Proof.
  intros Hfs Hv Hw. unfold long_d, meaning. replace (value_of Lll (ch "d") v) with v by (symmetry; by apply s64_id). cbn [limit].
  assert (forall c, c <> ch "0" -> flag fs c = false) as Hflag.
  { intros c Hc. unfold flag. apply not_true_is_false. rewrite existsb_exists. intros (x & Hx & E%Z.eqb_eq). apply list_elem_of_In in Hx. rewrite Forall_forall in Hfs. rewrite (Hfs x Hx) in E. done. }
  unfold int_prefix, int_digits. change (is_signed (ch "d")) with true. change (base_of (ch "d")) with 10. change (ch "d" =? ch "X") with false. change (ch "d" =? ch "o") with false.
  rewrite (Hflag (ch "+")), (Hflag (ch " ")), (Hflag (ch "#")) by done. cbn [andb]. rewrite decimal_as_digits by lia.
  rewrite bool_decide_eq_false_2 by (by intros [? ?]). rewrite andb_true_r. f_equal. unfold at_left. rewrite Hflag by done.
  destruct Hw as [-> |(x & -> & Hx)]; [done|]. rewrite s32_id by (unfold in_s; lia). by rewrite (proj2 (Z.ltb_ge _ _)) by lia.
Qed.

Definition array : list Z := replicate 112 (u8 junk).
Lemma wf_array : wf_memory array.
Proof.
  split; [|by vm_compute|by vm_compute]. apply Forall_replicate. apply u8_range.
Qed.

(** A text printed to the array. *)
Lemma snprintf_s_spec ps text : Forall (fun p => piece_ok array p /\ apart 8 100 p) ps -> meaning_all (strerror 0) ps = text -> cstring text -> zlen text < 100 ->
  snprintf_s utf8 strerror junk (render_all ps) (args_all ps) = Ok (Some (text, zlen text)).
Proof.
  intros Hps Ht Hc Hl. unfold snprintf_s, sizeof_s. fold array. pose proof (zlen_nonneg text).
  rewrite (print_pieces utf8 strerror junk 8 100 ps text); try done; [|by apply wf_array|right; change (zlen array) with 112; lia|unfold INT_MAX; lia].
  cbn [obind]. rewrite u32_id by (unfold in_u; lia). unfold stored. cbn [Z.eqb]. do 3 f_equal.
  unfold kept. rewrite take_zlen by lia. unfold blit. change (take (Z.to_nat 8) array) with (replicate 8 (u8 junk)). rewrite (drop_app_length' _ _ 8) by done.
  rewrite <- app_assoc. cbn [app]. by apply string_at_text.
Qed.

Lemma flags_known fs : forallb (fun c => existsb (Z.eqb c) flag_chars) fs = true -> Forall (fun c => c ∈ flag_chars) fs.
Proof. intros H. apply Forall_forall. intros c Hc. rewrite forallb_forall in H. apply in_flag_chars, H. by apply list_elem_of_In. Qed.
Ltac known_piece := repeat (constructor; [split; [cbn; split_and!; try (by apply flags_known); try done; try set_solver|done]|]); try constructor.

Lemma number_text_spec pad def w v : 1 <= w <= 20 -> in_s 64 v ->
  let text := num_text (if ctrue pad then pad else def) w v in number_text utf8 strerror junk pad def w v = Ok (Some (text, zlen text)).
Proof.
  intros Hw Hv. unfold number_text. set (p := if ctrue pad then pad else def). pose proof (num_text_length p w v ltac:(lia) Hv). pose proof (num_text_cstring p w v).
  assert (s32 w <> INT_MIN) by (rewrite s32_id by (unfold in_s; lia); unfold INT_MIN; lia).
  assert (Z.abs (s32 w) = w) as Hw' by (rewrite s32_id by (unfold in_s; lia); lia).
  assert (forall fs wd, Forall (fun c => c = ch "0") fs -> wd = WNone \/ wd = WStar w ->
    meaning_all (strerror 0) [Conv fs wd PNone (long_d v)] = justify false (flag fs (ch "0")) (field wd) (if v <? 0 then [ch "-"] else []) (decimal (Z.abs v))) as Hm.
  { intros fs wd Hfs Hwd. unfold meaning_all. cbn [map concat]. rewrite app_nil_r. apply meaning_long_d; try done. destruct Hwd as [-> | ->]; [by left|right; exists w; split; [done|lia]]. }
  pose proof (zlen_nonneg (if v <? 0 then [ch "-"] else [])). pose proof (zlen_nonneg (decimal (Z.abs v))).
  cbv zeta. unfold num_text in *. destruct (Z.eqb_spec p (ch "-")) as [E|E]; [|destruct (Z.eqb_spec p (ch "_")) as [E'|E']].
  - apply (snprintf_s_spec [Conv [] WNone PNone (long_d v)]); try done; [known_piece| |lia]. rewrite Hm by (done || by left). cbn [field]. by rewrite !justify_no_field by lia.
  - apply (snprintf_s_spec [Conv [] (WStar w) PNone (long_d v)]); try done; [known_piece| |lia]. rewrite Hm by (done || by right). cbn [field flag existsb negb]. by rewrite Hw'.
  - apply (snprintf_s_spec [Conv [ch "0"] (WStar w) PNone (long_d v)]); try done; [known_piece| |lia]. rewrite Hm by ((by right) || by repeat constructor). cbn [field negb]. by rewrite Hw'.
Qed.

(** The year of five digits or more, and the offset of the time zone. *)
Lemma plus_text_spec v : 0 <= v -> in_s 64 v -> snprintf_s utf8 strerror junk (lit "+%lld") [W64 v] = Ok (Some (ch "+" :: decimal v, zlen (ch "+" :: decimal v))).
Proof.
  intros Hv Hs. pose proof (decimal_length v 19 ltac:(unfold in_s in Hs; lia) ltac:(lia)).
  apply (snprintf_s_spec [Char (ch "+"); Conv [] WNone PNone (long_d v)]).
  - known_piece.
  - unfold meaning_all. cbn [map concat]. rewrite meaning_long_d by (done || by left). cbn [meaning app field]. rewrite app_nil_r, (proj2 (Z.ltb_ge v 0)) by lia. rewrite justify_no_field by (pose proof (zlen_nonneg (decimal (Z.abs v))); change (zlen (@nil Z)) with 0; lia). cbn [app]. by rewrite Z.abs_eq by lia.
  - constructor; [by compute|]. by apply decimal_cstring.
  - rewrite zlen_cons. lia.
Qed.

Lemma offset_text_spec v : in_s 32 v -> snprintf_s utf8 strerror junk (lit "%+.4d") [W32 v] = Ok (Some (offset_text v, zlen (offset_text v))).
Proof.
  intros Hs. assert (zlen (numeral_text false 10 (Z.abs v)) <= 10) as Hl.
  { unfold numeral_text, zlen. rewrite length_map. apply (digits_length 10 _ 10); unfold in_s in Hs; lia. }
  apply (snprintf_s_spec [Conv [ch "+"] WNone (PNum 4) (CInt Lnone (ch "d") v)]).
  - known_piece; unfold INT_MAX; lia.
  - unfold meaning_all. cbn [map concat]. rewrite app_nil_r. unfold meaning. replace (value_of Lnone (ch "d") v) with v by (symmetry; by apply s32_id).
    cbn [limit field]. rewrite justify_no_field by (match goal with |- _ <= zlen ?a + zlen ?b => pose proof (zlen_nonneg a); pose proof (zlen_nonneg b); lia end).
    unfold offset_text, int_prefix. change (is_signed (ch "d")) with true. change (flag [ch "+"] (ch "+")) with true. by destruct (v <? 0).
  - constructor; [by destruct (v <? 0)|]. unfold zero_extend, cstring. apply Forall_app. split; [apply Forall_replicate; by compute|].
    unfold numeral_text. apply Forall_map. eapply Forall_impl; [apply (digits_range 10); lia|]. cbn beta. intros d Hd. rewrite digit_char_10 by lia. lia.
  - unfold offset_text. rewrite zlen_cons, zlen_zero_extend. lia.
Qed.

(** ** A conversion *)

Lemma names_of_days i : 0 <= i < 7 -> __nl_langinfo_l (ABDAY_1 + i) = lit (nth (Z.to_nat i) short_days "-"%string) /\ __nl_langinfo_l (DAY_1 + i) = lit (nth (Z.to_nat i) long_days "-"%string).
Proof.
  intros Hi. pose proof (forall_below (fun i => bool_decide (__nl_langinfo_l (ABDAY_1 + i) = lit (nth (Z.to_nat i) short_days "-"%string) /\ __nl_langinfo_l (DAY_1 + i) = lit (nth (Z.to_nat i) long_days "-"%string))) 7 ltac:(by vm_compute) i Hi) as H.
  by apply bool_decide_eq_true in H.
Qed.
Lemma names_of_months i : 0 <= i < 12 -> __nl_langinfo_l (ABMON_1 + i) = lit (nth (Z.to_nat i) short_months "-"%string) /\ __nl_langinfo_l (MON_1 + i) = lit (nth (Z.to_nat i) long_months "-"%string).
Proof.
  intros Hi. pose proof (forall_below (fun i => bool_decide (__nl_langinfo_l (ABMON_1 + i) = lit (nth (Z.to_nat i) short_months "-"%string) /\ __nl_langinfo_l (MON_1 + i) = lit (nth (Z.to_nat i) long_months "-"%string))) 12 ltac:(by vm_compute) i Hi) as H.
  by apply bool_decide_eq_true in H.
Qed.
Lemma name_outside l i : (~ 0 <= i < zlen l) -> name_of l i = lit "-".
Proof.
  intros Hi. unfold name_of. destruct (Z.ltb_spec i 0); [done|]. by rewrite nth_overflow by (unfold zlen in Hi; lia).
Qed.

Lemma u32_above b x : in_s 32 x -> 0 <= b <= INT_MAX -> (b <? u32 x) = negb ((0 <=? x) && (x <=? b)).
Proof.
  unfold in_s, INT_MAX. intros Hx Hb. unfold u32. destruct (Z.leb_spec 0 x); cbn [andb].
  - rewrite Z.mod_small by lia. by rewrite Z.ltb_antisym.
  - cbn [negb]. apply Z.ltb_lt. replace (x mod 2 ^ 32) with (x + 2 ^ 32); [lia|]. apply (Z.mod_unique_pos _ _ (-1)); lia.
Qed.

Lemma name_spec l base bound i : in_s 32 i -> zlen l = bound + 1 -> 0 <= bound <= INT_MAX -> (forall i, 0 <= i < bound + 1 -> __nl_langinfo_l (base + i) = lit (nth (Z.to_nat i) l "-"%string)) ->
  (if bound <? u32 i then Ok (Some (lit "-", zlen (lit "-"))) else Ok (Some (__nl_langinfo_l (base + i), zlen (__nl_langinfo_l (base + i))))) = Ok (Some (name_of l i, zlen (name_of l i))).
Proof.
  intros Hi Hl Hb H. rewrite u32_above by done. destruct (Z.leb_spec 0 i), (Z.leb_spec i bound); cbn [andb negb]; try (by rewrite name_outside by lia).
  rewrite H by lia. unfold name_of. by rewrite (proj2 (Z.ltb_ge i 0)) by lia.
Qed.

Lemma week_num_range t : - 2 ^ 31 <= week_num t <= 2 ^ 31.
Proof.
  unfold week_num. match goal with |- context [s32 ?x] => pose proof (s32_range x) as H; set (v := s32 x) in * end. clearbody v. unfold in_s in H.
  destruct (_ <=? 2); repeat match goal with |- context [if ?b then _ else _] => destruct b end; lia.
Qed.
Lemma week_year_range t : tm_year t + 1899 <= week_year t <= tm_year t + 1901.
Proof. unfold week_year. repeat match goal with |- context [if ?b then _ else _] => destruct b end; lia. Qed.

Lemma number_range t c def w v : tm_ok t -> number_of t c = Some (def, w, v) -> 1 <= w <= 20 /\ in_s 64 v.
Proof.
  intros ((H1 & H2 & H3 & H4 & H5 & H6) & H7 & H8 & H9 & H10 & H11 & H12). pose proof (week_num_range t). pose proof (week_year_range t).
  pose proof (carried_bound t (conj H1 (conj H2 (conj H3 (conj H4 (conj H5 H6)))))). assert (forall x, 0 <= u32 x / 7 < 2 ^ 32) as Hu by (intros x; pose proof (u32_range x) as Hr; unfold in_u in Hr; Z.div_mod_to_equations; lia).
  unfold number_of. repeat match goal with |- context [if c =? ?x then _ else _] => destruct (c =? x); [intros E; injection E as <- <- <-; split; [lia|]|] end; [..|done];
    unfold in_s, INT_MIN, INT_MAX in *; try apply Hu; try (Z.quot_rem_to_equations; lia); repeat case_cmp; try lia.
  all: match goal with |- context [u32 ?x / 7] => pose proof (Hu x); lia end.
Qed.

Lemma number_conv rec t pad c def w v : tm_ok t -> number_of t c = Some (def, w, v) -> (c =? ch "Y") && (10000 <=? v) = false ->
  __strftime_fmt_1 utf8 strerror junk zones rec c t pad = number_text utf8 strerror junk pad def w v.
Proof.
  intros Ht. unfold number_of.
  repeat match goal with |- context [if c =? ?x then _ else _] =>
    destruct (Z.eqb_spec c x) as [->|]; [intros E; injection E as <- <- <-; intros Hy; unfold __strftime_fmt_1; eval_letters; try done|] end; [..|done].
  - destruct Ht as (_ & _ & H8 & _ & _ & H11 & _). rewrite int_Ok by (unfold in_s, INT_MAX in *; lia). done.
  - destruct Ht as ((_ & _ & _ & _ & H5 & _) & _ & _ & _ & _ & _ & H12). rewrite int_Ok by (unfold in_s, INT_MAX in *; lia). done.
  - rewrite tm_to_secs_spec by apply Ht. done.
  - f_equal. destruct (Z.ltb_spec (Z.rem (tm_year t + 1900) 100) 0); lia.
  - cbn [andb] in Hy. by rewrite Hy.
Qed.

Lemma simple_spec rec t pad c : tm_ok t -> (c = ch "Z" -> zone_ok t) -> c ∈ letters -> expansion c = None ->
  let x := simple_text zone t pad c in __strftime_fmt_1 utf8 strerror junk zones rec c t pad = Ok (Some (x, zlen x)).
Proof.
  intros Ht HZ Hc He. cbv zeta. unfold simple_text. destruct (number_of t c) as [[[def w] v]|] eqn:En.
  - destruct (number_range t c def w v Ht En) as [Hw Hv]. destruct ((c =? ch "Y") && (10000 <=? v)) eqn:Ey.
    + apply andb_true_iff in Ey as [->%Z.eqb_eq Hl]. unfold number_of in En. revert En. eval_letters. intros E. injection E as <- <- <-. unfold __strftime_fmt_1. eval_letters. rewrite Hl. apply Z.leb_le in Hl. apply plus_text_spec; [lia|done].
    + rewrite (number_conv rec t pad c def w v) by done. by apply number_text_spec.
  - destruct Ht as ((_ & _ & _ & _ & H5 & _) & H7 & _ & _ & H10 & _ & _).
    apply list_elem_of_In in Hc. vm_compute in Hc. unfold __strftime_fmt_1.
    repeat destruct Hc as [<-|Hc]; try done; eval_letters; try done; try discriminate He; try (by unfold number_of in En; revert En; eval_letters).
    + apply (name_spec short_days ABDAY_1 6); try done. intros i Hi. by apply names_of_days.
    + apply (name_spec long_days DAY_1 6); try done. intros i Hi. by apply names_of_days.
    + apply (name_spec short_months ABMON_1 11); try done. intros i Hi. by apply names_of_months.
    + apply (name_spec short_months ABMON_1 11); try done. intros i Hi. by apply names_of_months.
    + apply (name_spec long_months MON_1 11); try done. intros i Hi. by apply names_of_months.
    + by destruct (12 <=? tm_hour t).
    + destruct (tm_isdst t <? 0); [done|]. apply offset_text_spec. unfold in_s in *. Z.quot_rem_to_equations; lia.
    + destruct (Z.ltb_spec (tm_isdst t) 0); [done|]. unfold zone_text. destruct (HZ eq_refl) as [|(z & -> & _)]; [lia|done].
Qed.

(** ** The width *)

Lemma numeral_end s neg n e : numeral 10 s = Some (neg, n, e) -> 0 < e <= zlen s.
Proof.
  unfold numeral. cbv zeta. cbn [Z.eqb orb andb]. set (w := zlen (span isspace s)).
  assert (0 <= w <= zlen s) as Hw by (unfold w, zlen; pose proof (span_length isspace s); lia).
  set (k := if (schar s w =? 43) || (schar s w =? 45) then w + 1 else w).
  assert (0 <= k <= zlen s) as Hk.
  { unfold k. destruct ((schar s w =? 43) || (schar s w =? 45)) eqn:E; [|lia]. pose proof (schar_nonzero s w ltac:(lia)) as Hn. apply orb_true_iff in E as [E%Z.eqb_eq|E%Z.eqb_eq]; rewrite E in Hn; specialize (Hn ltac:(lia)); lia. }
  pose proof (span_length (is_digit 10) (drop (Z.to_nat k) s)) as Hd. rewrite length_drop in Hd. destruct (span (is_digit 10) (drop (Z.to_nat k) s)) as [|d ds] eqn:E; [done|].
  intros H. injection H as <- <- <-. unfold zlen in *. cbn [length] in *. lia.
Qed.

Lemma strtoul_total s : cstring s -> exists w x e, strtoul s 10 = Ok (w, x, e) /\ in_u 32 w /\ 0 <= e <= zlen s.
Proof.
  intros Hs. destruct (strtol_values s 10 Hs ltac:(lia)) as (_ & _ & H & _). rewrite H. unfold parse, to_unsigned. pose proof (zlen_nonneg s).
  destruct (numeral 10 s) as [[[neg n] e]|] eqn:E; [|eexists _, _, _; split; [done|split; [by compute|lia]]].
  pose proof (numeral_end s neg n e E). destruct (2 ^ 32 <=? n); eexists _, _, _; (split; [done|split; [|lia]]); [by compute|apply Z.mod_pos_bound; lia].
Qed.

Lemma strtoul_none c s : cstring (c :: s) -> isspace c = false -> isdigit c = false -> c <> ch "+" -> c <> ch "-" -> strtoul (c :: s) 10 = Ok (0, Some EINVAL, 0).
Proof.
  intros Hs Hsp Hd Hp Hm. destruct (strtol_values (c :: s) 10 Hs ltac:(lia)) as (_ & _ & H & _). rewrite H. unfold parse, numeral. cbv zeta. cbn [span]. rewrite Hsp.
  change (zlen (@nil Z)) with 0. change (schar (c :: s) 0) with c. change (ch "+") with 43 in Hp. change (ch "-") with 45 in Hm.
  rewrite (proj2 (Z.eqb_neq c 43)), (proj2 (Z.eqb_neq c 45)) by done. cbn [orb Z.eqb andb Z.to_nat drop span]. rewrite skipn_O. cbn [span].
  destruct (digit10 c) as [Hd10 _]; [apply Forall_inv in Hs; lia|]. unfold isdigit in Hd. rewrite Hd in Hd10. by rewrite <- Hd10.
Qed.

(** ** The buffer *)

Lemma zset_next s x c : zlen x < zlen s -> zset (blit s 0 x) (zlen x) c = Ok (blit s 0 (x ++ [c])).
Proof.
  intros Hx. pose proof (zlen_nonneg x). rewrite zset_blit by (rewrite zlen_blit by lia; lia). f_equal. rewrite <- (blit_blit s 0 x [c]) by (rewrite ?zlen_app; change (zlen [c]) with 1; lia). done.
Qed.
Lemma copy_text_next s x y k : 0 <= k <= zlen y -> zlen x + k <= zlen s -> copy_text (blit s 0 x) (zlen x) y k = Ok (blit s 0 (x ++ take (Z.to_nat k) y)).
Proof.
  intros Hk Hx. pose proof (zlen_nonneg x). assert (zlen (take (Z.to_nat k) y) = k) as Ht by (rewrite zlen_take_min by lia; lia).
  unfold copy_text. rewrite zlen_blit, !(proj2 (Z.leb_le _ _)) by lia. cbn [andb]. f_equal.
  rewrite <- (blit_blit s 0 x) by (rewrite ?zlen_app; lia). done.
Qed.
Lemma zset_last s x c : zlen x <= zlen s -> 0 < zlen x -> zset (blit s 0 x) (zlen x - 1) c = Ok (blit s 0 (take (Z.to_nat (zlen x - 1)) x ++ [c])).
Proof.
  intros Hx H0. rewrite zset_blit by (rewrite zlen_blit by lia; lia). f_equal. destruct x as [|y x _] using rev_ind; [done|]. rewrite zlen_app in *. change (zlen [y]) with 1 in *.
  pose proof (zlen_nonneg x). replace (zlen x + 1 - 1) with (zlen x) by lia. replace (Z.to_nat (zlen x)) with (length x) by (unfold zlen; lia). rewrite take_app_length.
  rewrite !blit_0. unfold blit. unfold zlen. rewrite Nat2Z.id, <- app_assoc, take_app_length. rewrite <- app_assoc. f_equal. f_equal. rewrite !length_app. cbn [length].
  rewrite drop_app_ge by lia. replace (length x + 1 - length x)%nat with 1%nat by lia. done.
Qed.

(** The result for a text. *)
Definition finished (s : list Z) (n : Z) (text : list Z) : Z * list Z := (if zlen text <? n then zlen text else 0, stored 0 n s text).

Lemma break_full s n x y : zlen x = n -> n <= zlen s -> break_off (blit s 0 x) n n = Ok (finished s n (x ++ y)).
Proof.
  intros Hx Hn. pose proof (zlen_nonneg x). pose proof (zlen_nonneg y). unfold break_off, finished, stored, ctrue. rewrite zlen_app, (proj2 (Z.ltb_ge _ _)), Z.eqb_refl by lia. destruct (Z.eqb_spec n 0) as [E|E]; cbn [negb].
  - destruct x; [|unfold zlen in *; cbn in *; lia]. by rewrite blit_empty.
  - subst n. rewrite zset_last by lia. cbn [obind]. do 3 f_equal. unfold kept. f_equal. rewrite take_app_le by (unfold zlen in *; lia). done.
Qed.

(** ** A directive *)

(** The character is not taken for a flag, a width or a blank. *)
Definition plain_char (c : Z) : bool :=
  (0 <? c) && (c <? 256) && negb (isspace c) && negb (isdigit c) && negb (c =? ch "+") && negb (c =? ch "-") && negb (c =? ch "_") && negb (c =? ch "0").
Lemma letters_plain c : c ∈ letters -> plain_char c = true /\ (c =? ch "E") || (c =? ch "O") = false.
Proof.
  intros Hc. apply list_elem_of_In in Hc. assert (forallb (fun c => plain_char c && negb ((c =? ch "E") || (c =? ch "O"))) letters = true) as H by (by vm_compute).
  rewrite forallb_forall in H. specialize (H c Hc). apply andb_true_iff in H as [H1 H2]. by apply negb_true_iff in H2.
Qed.

(** Without a width. *)
Lemma read_no_width A b B pad : plain_char b = true -> cstring (A ++ b :: B) ->
  read_width (A ++ b :: B) pad (zlen A) = Ok (pad, false, 0, zlen A, if (b =? ch "E") || (b =? ch "O") then zlen A + 1 else zlen A).
Proof.
  intros Hb Hs. unfold plain_char in Hb. bool_hyps. apply Forall_app in Hs as [_ Hs].
  unfold read_width. rewrite at_suffix. change (schar (b :: B) 0) with b. cbn [obind]. rewrite (proj2 (Z.eqb_neq b (ch "+"))) by done.
  assert (drop (Z.to_nat (zlen A)) (A ++ b :: B) = b :: B) as -> by (unfold zlen; by rewrite Nat2Z.id, drop_app_length).
  rewrite strtoul_none by done. cbn [obind]. rewrite Z.add_0_r, at_suffix. cbn [obind andb negb]. change (schar (b :: B) 0) with b.
  rewrite !Z.eqb_refl. cbn [andb negb]. by destruct ((b =? ch "C") || (b =? ch "F") || (b =? ch "G") || (b =? ch "Y")).
Qed.

Lemma read_written pre pad m c rest : tpiece_ok (TConv pad m c) -> let f := pre ++ written (TConv pad m c) ++ rest in cstring f ->
  exists p j x, read_directive f (zlen pre + 1) = Ok (pad, false, 0, p, j) /\ at_ f p = Ok x /\ at_ f j = Ok c /\ j + 1 = zlen (pre ++ written (TConv pad m c)).
Proof.
  intros (Hpad & Hm & Hc) f Hf. destruct (letters_plain c Hc) as [Hpl HEO].
  assert (exists b B, optional m ++ [c] ++ rest = b :: B /\ plain_char b = true /\ forall A, at_ (A ++ b :: B) (if (b =? ch "E") || (b =? ch "O") then zlen A + 1 else zlen A) = Ok c /\
    (if (b =? ch "E") || (b =? ch "O") then zlen A + 1 else zlen A) + 1 = zlen A + zlen (optional m) + 1) as (b & B & Eb & Hb & Hj).
  { unfold optional. destruct (Z.eqb_spec m 0) as [-> |Hm0].
    - exists c, rest. split_and!; try done. intros A. rewrite HEO, at_suffix. split; [done|]. change (zlen (@nil Z)) with 0. lia.
    - assert ((m =? ch "E") || (m =? ch "O") = true /\ plain_char m = true) as [Hm1 Hm2].
      { rewrite !elem_of_cons, elem_of_nil in Hm. destruct Hm as [?|[->|[->|[]]]]; done. }
      exists m, (c :: rest). split_and!; try done. intros A. rewrite Hm1. split; [|change (zlen [m]) with 1; lia].
      change (m :: c :: rest) with ([m] ++ c :: rest). rewrite app_assoc. rewrite (at_suffix_len (A ++ [m])); [done|by rewrite zlen_app]. }
  set (A := pre ++ ch "%" :: optional pad). assert (f = A ++ b :: B) as Ef.
  { unfold f, A, written. rewrite <- Eb. rewrite <- !app_assoc. cbn [app]. rewrite <- !app_assoc. done. }
  assert (zlen A = zlen pre + 1 + zlen (optional pad)) as HA by (unfold A; rewrite zlen_app, zlen_cons; lia).
  exists (zlen A), (if (b =? ch "E") || (b =? ch "O") then zlen A + 1 else zlen A), b. rewrite Ef in *. destruct (Hj A) as [Hj1 Hj2]. split_and!; [|by rewrite at_suffix|done|].
  - unfold read_directive. assert (Hplain := Hb). unfold plain_char in Hplain. bool_hyps. unfold optional in HA. destruct (Z.eqb_spec pad 0) as [-> |Hp0].
    + change (zlen (@nil Z)) with 0 in HA. replace (zlen pre + 1) with (zlen A) by lia. rewrite at_suffix. change (schar (b :: B) 0) with b. cbn [obind].
      rewrite !(proj2 (Z.eqb_neq b _)) by done. cbn [orb]. by apply read_no_width.
    + change (zlen [pad]) with 1 in HA. assert ((pad =? ch "-") || (pad =? ch "_") || (pad =? ch "0") = true) as Hp1 by (rewrite !elem_of_cons, elem_of_nil in Hpad; destruct Hpad as [?|[->|[->|[->|[]]]]]; done).
      assert (at_ (A ++ b :: B) (zlen pre + 1) = Ok pad) as ->.
      { unfold A, optional. rewrite (proj2 (Z.eqb_neq pad 0)) by done. replace ((pre ++ [ch "%"; pad]) ++ b :: B) with ((pre ++ [ch "%"]) ++ pad :: b :: B) by (by rewrite <- !app_assoc).
        rewrite (at_suffix_len (pre ++ [ch "%"])); [done|by rewrite zlen_app]. }
      cbn [obind]. rewrite Hp1. replace (zlen pre + 1 + 1) with (zlen A) by lia. by apply read_no_width.
  - rewrite Hj2, HA. unfold written. rewrite zlen_app, zlen_cons, !zlen_app. change (zlen [c]) with 1. lia.
Qed.

(** ** The loop *)

Definition written_all (ps : list tpiece) : list Z := concat (map written ps).

Lemma loop_full fuel rec s n f t i x y : zlen x = n -> n <= zlen s -> strftime_loop utf8 strerror junk zones (S fuel) rec (blit s 0 x) n f t i n = Ok (finished s n (x ++ y)).
Proof. intros Hx Hn. cbn [strftime_loop]. rewrite Z.ltb_irrefl. by apply break_full. Qed.

Lemma loop_spec d rec t :
  (forall pad m c, tpiece_ok (TConv pad m c) -> fits d (TConv pad m c) -> zoned t (TConv pad m c) -> let x := text_of zone d t (TConv pad m c) in
    __strftime_fmt_1 utf8 strerror junk zones rec c t pad = Ok (Some (x, zlen x))) ->
  forall ps fuel x pre s n, cstring (pre ++ written_all ps) -> Forall tpiece_ok ps -> Forall (fits d) ps -> Forall (zoned t) ps -> zlen x <= n <= zlen s -> (length ps < fuel)%nat ->
    strftime_loop utf8 strerror junk zones fuel rec (blit s 0 x) n (pre ++ written_all ps) t (zlen pre) (zlen x) = Ok (finished s n (x ++ text_all zone d t ps)).
Proof.
  intros Hconv. induction ps as [|p ps IH]; intros fuel x pre s n Hf Hok Hfits Hzs Hn Hfuel; (destruct fuel as [|fuel]; [lia|]);
    (destruct (decide (zlen x = n)) as [<- |Hne]; [apply loop_full; lia|]); pose proof (zlen_nonneg x).
  - unfold written_all, text_all. cbn [map concat strftime_loop]. rewrite (proj2 (Z.ltb_lt _ _)), at_suffix by lia. cbn [obind]. change (schar [] 0) with 0. cbn [Z.eqb].
    rewrite zset_next by lia. cbn [obind]. rewrite app_nil_r. unfold finished, stored. rewrite (proj2 (Z.ltb_lt _ _)), (proj2 (Z.eqb_neq n 0)) by lia. unfold kept. by rewrite take_zlen by lia.
  - assert (written_all (p :: ps) = written p ++ written_all ps) as Ew by done. assert (text_all zone d t (p :: ps) = text_of zone d t p ++ text_all zone d t ps) as Et by done.
    rewrite Ew, Et in *. assert (cstring ((pre ++ written p) ++ written_all ps)) as Hf' by (by rewrite <- app_assoc). apply Forall_cons in Hok as [Hp Hok]. apply Forall_cons in Hfits as [Hfp Hfits]. apply Forall_cons in Hzs as [Hzp Hzs].
    cbn [length] in Hfuel. cbn [strftime_loop]. rewrite (proj2 (Z.ltb_lt _ _)), at_suffix by lia. cbn [obind]. destruct p as [c|pad m c].
    + cbn [written app]. change (schar (c :: written_all ps) 0) with c. destruct Hp as [Hc1 Hc2]. rewrite (proj2 (Z.eqb_neq c 0)), (proj2 (Z.eqb_neq c _) Hc2) by lia. cbn [negb].
      rewrite zset_next by lia. cbn [obind]. specialize (IH fuel (x ++ [c]) (pre ++ [c]) s n Hf' Hok Hfits Hzs). rewrite <- !app_assoc, !zlen_app in IH. change (zlen [c]) with 1 in IH. cbn [app] in IH.
      replace (text_of zone d t (TChar c)) with [c] by (by destruct d). apply IH; lia.
    + change (schar (written (TConv pad m c) ++ written_all ps) 0) with (ch "%"). rewrite Z.eqb_refl. cbn [Z.eqb negb].
      destruct (read_written pre pad m c (written_all ps) Hp Hf) as (q & j & y & Er & Eq & Ej & Hj). rewrite Er. cbn [obind]. rewrite Ej. cbn [obind]. rewrite (Hconv pad m c Hp Hfp Hzp). cbn [obind].
      rewrite Eq. cbn [obind ctrue Z.eqb negb]. set (text := text_of zone d t (TConv pad m c)). rewrite Hj.
      pose proof (zlen_nonneg text). destruct (Z.ltb_spec (n - zlen x) (zlen text)) as [Hl|Hl].
      * rewrite copy_text_next by lia. cbn [obind]. destruct fuel as [|fuel]; [lia|]. replace (zlen x + (n - zlen x)) with n by lia.
        rewrite (loop_full fuel rec s n _ t _ (x ++ take (Z.to_nat (n - zlen x)) text) (drop (Z.to_nat (n - zlen x)) text ++ text_all zone d t ps)); [|rewrite zlen_app, zlen_take_min by lia; lia|lia].
        do 2 f_equal. rewrite <- app_assoc. f_equal. rewrite app_assoc. by rewrite take_drop.
      * rewrite copy_text_next by lia. cbn [obind]. rewrite take_zlen by lia. specialize (IH fuel (x ++ text) (pre ++ written (TConv pad m c)) s n Hf' Hok Hfits Hzs).
        rewrite <- (app_assoc x), <- (app_assoc pre), (zlen_app x) in IH. apply IH; lia.
Qed.

(** ** Conversions that stand for a format *)

Lemma expand_conv rec t pad c ps : expansion c = Some ps ->
  __strftime_fmt_1 utf8 strerror junk zones rec c t pad =
    (let! (l, s) := rec (replicate 100 (u8 junk)) sizeof_s (written_all ps) t in if l =? 0 then Ok None else Ok (Some (string_at s, l))).
Proof.
  unfold expansion.
  repeat match goal with |- context [?a || ?b] => destruct a eqn:?; cbn [orb] | |- context [if c =? ?x then _ else _] => destruct (c =? x) eqn:?; cbn [orb] end;
    try done; intros E; injection E as <-; bool_hyps; subst c; unfold __strftime_fmt_1; eval_letters; try done;
    match goal with |- context [__nl_langinfo_l ?i] => let v := eval vm_compute in (__nl_langinfo_l i) in change (__nl_langinfo_l i) with v end; done.
Qed.

Definition short_text (x : list Z) : Prop := 1 <= zlen x <= 11 /\ cstring x.

Lemma num_text_short pad w v : 0 <= w <= 11 -> - 10 ^ 10 < v < 10 ^ 10 -> short_text (num_text pad w v).
Proof.
  intros Hw Hv. split; [|apply num_text_cstring]. unfold num_text. rewrite zlen_justify. pose proof (decimal_length (Z.abs v) 10 ltac:(lia) ltac:(lia)).
  destruct (v <? 0); [change (zlen [ch "-"]) with 1|change (zlen (@nil Z)) with 0]; destruct (pad =? ch "-"); lia.
Qed.

Lemma name_short l i : forallb (fun x => (1 <=? zlen (lit x)) && (zlen (lit x) <=? 11) && forallb (fun c => (0 <? c) && (c <? 256)) (lit x)) l = true -> short_text (name_of l i).
Proof.
  intros Hl. assert (forall x, In x l \/ x = "-"%string -> short_text (lit x)) as H.
  { intros x [Hx| ->]; [|by split; [|repeat constructor]]. rewrite forallb_forall in Hl. specialize (Hl x Hx). bool_hyps. split; [lia|].
    apply Forall_forall. intros c Hc. match goal with H : forallb _ _ = true |- _ => rewrite forallb_forall in H; specialize (H c ltac:(by apply list_elem_of_In)) end. bool_hyps. lia. }
  unfold name_of. destruct (i <? 0); [apply H; by right|]. apply H. destruct (nth_in_or_default (Z.to_nat i) l "-"%string) as [?|E]; [by left|by right].
Qed.

Lemma small_texts t pad c : tm_ok t -> c ∈ lit "abedmyYHMSIp" -> short_text (simple_text zone t pad c).
Proof.
  intros ((H1 & H2 & H3 & H4 & H5 & H6) & _) Hc. unfold in_s, INT_MIN, INT_MAX in *. apply list_elem_of_In in Hc. vm_compute in Hc. unfold simple_text, number_of.
  repeat destruct Hc as [<-|Hc]; try done; eval_letters; try (apply num_text_short; try lia; try (by apply name_short)).
  - by apply name_short.
  - by apply name_short.
  - Z.quot_rem_to_equations; lia.
  - destruct (Z.leb_spec 10000 (tm_year t + 1900)); [|apply num_text_short; lia]. pose proof (decimal_length (tm_year t + 1900) 10 ltac:(lia) ltac:(lia)).
    split; [rewrite zlen_cons; lia|]. constructor; [by compute|]. apply decimal_cstring. lia.
  - repeat case_cmp; lia.
  - by destruct (12 <=? tm_hour t); (split; [|repeat constructor]).
Qed.

(** The texts of the expansions fit the array of 100 bytes. *)
Definition cost (p : tpiece) : Z := match p with TChar _ => 1 | TConv _ _ c => if c =? ch "T" then 35 else 11 end.
Definition costs (ps : list tpiece) : Z := fold_right (fun p a => cost p + a) 0 ps.
Definition cheap (d : nat) (t : tm) (p : tpiece) : Prop := cstring (text_of zone d t p) /\ 1 <= zlen (text_of zone d t p) <= cost p.

Lemma cheap_all d t ps : Forall (cheap d t) ps -> cstring (text_all zone d t ps) /\ zlen ps <= zlen (text_all zone d t ps) <= costs ps.
Proof.
  induction 1 as [|p ps [H1 H2] H [IH1 IH2]]; [split; [by apply Forall_nil_2|done]|]. unfold text_all in *. cbn [map concat costs fold_right] in *. rewrite zlen_app, zlen_cons. unfold cstring. rewrite Forall_app. split; [done|]. fold (costs ps). lia.
Qed.
Lemma cheap_char d t c : 0 < c < 256 -> cheap d t (TChar c).
Proof. intros Hc. unfold cheap. replace (text_of zone d t (TChar c)) with [c] by (by destruct d). split; [by apply Forall_singleton|done]. Qed.
Lemma cheap_simple d t c : tm_ok t -> c ∈ lit "abedmyYHMSIp" -> cheap d t (conv_of c).
Proof.
  intros Ht Hc. assert (expansion c = None /\ (c =? ch "T") = false) as [He HT].
  { apply list_elem_of_In in Hc. vm_compute in Hc. repeat destruct Hc as [<-|Hc]; done. }
  unfold cheap, cost, conv_of. rewrite HT. replace (text_of zone d t (TConv 0 0 c)) with (simple_text zone t 0 c) by (destruct d; cbn [text_of]; by rewrite He).
  destruct (small_texts t 0 c Ht Hc). done.
Qed.

Ltac cheap_pieces := repeat (apply Forall_cons; split; [first [apply cheap_char; by compute | apply cheap_simple; [done|]; apply list_elem_of_In; vm_compute; tauto]|]); try apply Forall_nil_2.

Lemma cheap_T d t : tm_ok t -> cheap (S d) t (conv_of (ch "T")).
Proof.
  intros Ht. assert (Forall (cheap d t) time_pieces) as H by (unfold time_pieces; cheap_pieces). destruct (cheap_all d t _ H) as [H1 H2]. split; [done|]. change (zlen time_pieces) with 5 in H2. change (costs time_pieces) with 35 in H2.
  change (text_of zone (S d) t (conv_of (ch "T"))) with (text_all zone d t time_pieces). change (cost (conv_of (ch "T"))) with 35. lia.
Qed.

Lemma expansion_cheap d t pad m c ps : tm_ok t -> expansion c = Some ps -> fits (S d) (TConv pad m c) ->
  Forall (cheap d t) ps /\ costs ps < 100 /\ 1 <= zlen ps /\ Forall tpiece_ok ps /\ Forall (fits d) ps /\ Forall (zoned t) ps.
Proof.
  intros Ht He Hf. cbn [fits] in Hf. rewrite He in Hf. unfold expansion in He. revert He.
  repeat match goal with |- context [?a || ?b] => destruct a eqn:?; cbn [orb] | |- context [if c =? ?x then _ else _] => destruct (c =? x) eqn:?; cbn [orb] end;
    try done; intros E; injection E as <-; (split_and!; [unfold date_pieces, time_pieces|by vm_compute|by vm_compute| |done|by repeat constructor]);
    try (unfold tpiece_ok, conv_of, date_pieces, time_pieces; repeat (apply Forall_cons; split; [split_and!; first [done | apply list_elem_of_In; vm_compute; tauto]|]); apply Forall_nil_2); try cheap_pieces.
  all: apply Forall_cons; split; [|cheap_pieces]; destruct d as [|d]; [|by apply cheap_T].
  all: exfalso; repeat match goal with H : Forall _ (_ :: _) |- _ => apply Forall_cons in H as [? H] end; done.
Qed.

Lemma written_cstring ps : Forall tpiece_ok ps -> cstring (written_all ps).
Proof.
  intros H. unfold written_all, cstring. apply Forall_concat, Forall_map. eapply Forall_impl; [exact H|]. intros [c|pad m c]; cbn beta.
  - intros [Hc _]. by apply Forall_singleton.
  - intros (Hp & Hm & Hc). destruct (letters_plain c Hc) as [Hpl _]. unfold plain_char in Hpl. bool_hyps. unfold written, optional. constructor; [by compute|]. rewrite !Forall_app.
    rewrite !elem_of_cons, elem_of_nil in *. split_and!; [|destruct Hm as [->|[->|[->|[]]]]; repeat constructor|by apply Forall_singleton].
    destruct Hp as [->|[->|[->|[->|[]]]]]; repeat constructor.
Qed.
Lemma written_length ps : (length ps <= length (written_all ps))%nat.
Proof. unfold written_all. induction ps as [|p ps IH]; cbn; [lia|]. rewrite length_app. destruct p; cbn; lia. Qed.

Definition gives_texts (t : tm) (d : nat) : Prop := forall ps s n, Forall tpiece_ok ps -> Forall (fits d) ps -> Forall (zoned t) ps -> 0 <= n <= zlen s ->
  __strftime_l utf8 strerror junk zones (S d) s n (written_all ps) t = Ok (finished s n (text_all zone d t ps)).

Lemma conv_spec t d pad m c : tm_ok t -> (forall d', (d' < d)%nat -> gives_texts t d') -> tpiece_ok (TConv pad m c) -> fits d (TConv pad m c) -> zoned t (TConv pad m c) ->
  let x := text_of zone d t (TConv pad m c) in __strftime_fmt_1 utf8 strerror junk zones (__strftime_l utf8 strerror junk zones d) c t pad = Ok (Some (x, zlen x)).
Proof.
  intros Ht IH Hp Hfit HZ. cbv zeta. destruct (expansion c) as [qs|] eqn:He.
  - destruct d as [|d]; [cbn [fits] in Hfit; by rewrite He in Hfit|]. destruct (expansion_cheap d t pad m c qs Ht He Hfit) as (H1 & H2 & H3 & H4 & H5 & H6). destruct (cheap_all d t qs H1) as [Hc Hl].
    rewrite (expand_conv _ t pad c qs He). rewrite IH; [|lia|done..|unfold sizeof_s; change (zlen (replicate 100 (u8 junk))) with 100; lia].
    cbn [obind]. unfold finished, sizeof_s. rewrite (proj2 (Z.ltb_lt _ 100)), (proj2 (Z.eqb_neq _ 0)) by lia. cbn [text_of]. rewrite He. fold (text_all zone d t qs). do 3 f_equal.
    unfold stored. cbn [Z.eqb]. unfold kept. rewrite take_zlen, blit_0, <- app_assoc by lia. by apply string_at_text.
  - replace (text_of zone d t (TConv pad m c)) with (simple_text zone t pad c) by (destruct d; cbn [text_of]; by rewrite He). destruct Hp as (_ & _ & Hc). by apply simple_spec.
Qed.

Lemma strftime_texts t d : tm_ok t -> gives_texts t d.
Proof.
  intros Ht. induction d as [d IH] using lt_wf_ind. intros ps s n Hok Hfits Hzs Hn. cbn [__strftime_l]. pose proof (written_length ps).
  rewrite <- (blit_empty s 0) at 1. apply (loop_spec d _ t) with (x := []) (pre := []); try done; [|by apply written_cstring|lia].
  intros pad m c Hp Hfit HZ. by apply conv_spec.
Qed.

Lemma fits_2 p : tpiece_ok p -> fits 2 p.
Proof.
  destruct p as [c|pad m c]; [done|]. intros (_ & _ & Hc). apply list_elem_of_In in Hc. vm_compute in Hc. unfold fits. repeat destruct Hc as [<-|Hc]; try done; vm_compute; repeat constructor.
Qed.

(** * All formats *)

Lemma unknown_letter rec c t pad : c ∉ letters -> __strftime_fmt_1 utf8 strerror junk zones rec c t pad = Ok None.
Proof.
  intros Hc. assert (forall x, x ∈ letters -> (c =? x) = false) as H by (intros x Hx; apply Z.eqb_neq; by intros ->). unfold __strftime_fmt_1.
  repeat match goal with |- context [c =? ?x] => rewrite (H x) by (apply list_elem_of_In; vm_compute; tauto) end. done.
Qed.

Lemma simple_length t pad c : tm_ok t -> zone_ok t -> zlen (simple_text zone t pad c) < 2 ^ 32.
Proof.
  intros Ht Hz. unfold simple_text. destruct (number_of t c) as [[[def w] v]|] eqn:E.
  - destruct (number_range t c def w v Ht E) as [Hw Hv]. destruct (_ && _) eqn:Ey; [|pose proof (num_text_length (if ctrue pad then pad else def) w v ltac:(lia) Hv); lia].
    apply andb_true_iff in Ey as [_ Hl%Z.leb_le]. pose proof (decimal_length v 19 ltac:(unfold in_s in Hv; lia) ltac:(lia)). rewrite zlen_cons. lia.
  - assert (forall l i, short_text (name_of l i) -> zlen (name_of l i) < 2 ^ 32) as Hn by (intros l i [H _]; lia).
    assert (forall v, in_s 32 v -> zlen (offset_text v) < 2 ^ 32) as Ho.
    { intros v Hv. unfold offset_text. rewrite zlen_cons, zlen_zero_extend. unfold numeral_text. pose proof (digits_length 10 (Z.abs v) 10 ltac:(lia) ltac:(unfold in_s in Hv; lia) ltac:(lia)). unfold zlen in *. rewrite length_map. lia. }
    repeat match goal with |- context [if ?b then _ else _] => lazymatch b with tm_isdst t <? 0 => destruct (Z.ltb_spec (tm_isdst t) 0) | _ => destruct b end end; first [apply Hn; by apply name_short | apply Ho | unfold zone_text; destruct Hz as [|(z & -> & Hz)]; [lia|exact Hz] | by vm_compute].
    destruct Ht as (_ & _ & _ & _ & H10 & _). unfold in_s in *. Z.quot_rem_to_equations; lia.
Qed.

Lemma conv_total t c pad : tm_ok t -> zone_ok t -> pad ∈ [0; ch "-"; ch "_"; ch "0"] ->
  exists r, __strftime_fmt_1 utf8 strerror junk zones (__strftime_l utf8 strerror junk zones 2) c t pad = Ok r /\ match r with None => True | Some (x, k) => k = zlen x /\ zlen x < 2 ^ 32 end.
Proof.
  intros Ht Hz Hp. destruct (decide (c ∈ letters)) as [Hc|Hc]; [|exists None; split; [by apply unknown_letter|done]].
  assert (tpiece_ok (TConv pad 0 c)) as Hok by (split_and!; [done|apply list_elem_of_In; by left|done]).
  eexists (Some _). rewrite (conv_spec t 2 pad 0 c Ht); [|intros d' _; by apply strftime_texts|done|by apply fits_2|by intros _]. split; [done|]. split; [done|].
  pose proof (fits_2 _ Hok) as Hfit. cbn [text_of]. destruct (expansion c) as [ps|] eqn:He; [|by apply simple_length].
  destruct (expansion_cheap 1 t pad 0 c ps Ht He Hfit) as (H1 & H2 & _). pose proof (cheap_all 1 t ps H1) as [_ H3]. change (zlen (text_all zone 1 t ps) < 2 ^ 32). lia.
Qed.

Lemma at_total f i : 0 <= i <= zlen f -> exists c, at_ f i = Ok c.
Proof. intros Hi. rewrite at_head by done. by eexists. Qed.
Lemma at_inside f i c : 0 <= i <= zlen f -> at_ f i = Ok c -> c <> 0 -> i < zlen f.
Proof. intros Hi. rewrite at_head, schar_from, Z.add_0_r by lia. intros [= <-] H. apply schar_nonzero; [lia|done]. Qed.

Lemma read_width_total f pad i : cstring f -> 0 <= i <= zlen f -> exists plus w p j, read_width f pad i = Ok (pad, plus, w, p, j) /\ in_u 32 w /\ i <= p <= j /\ j <= zlen f.
Proof.
  intros Hf Hi. unfold read_width. destruct (at_total f i Hi) as (c & Ec). rewrite Ec. cbn [obind].
  set (i' := if c =? ch "+" then i + 1 else i). assert (i <= i' <= zlen f) as Hi'.
  { unfold i'. destruct (Z.eqb_spec c (ch "+")) as [-> |]; [|lia]. pose proof (at_inside f i _ Hi Ec ltac:(done)). lia. }
  destruct (strtoul_total (drop (Z.to_nat i') f)) as (w & x & e & -> & Hw & He); [by apply Forall_drop|]. cbn [obind].
  assert (zlen (drop (Z.to_nat i') f) = zlen f - i') as Hd by (unfold zlen in *; rewrite length_drop; lia). rewrite Hd in He.
  destruct (at_total f (i' + e)) as (c' & Ec'); [lia|]. rewrite Ec'. cbn [obind]. eexists _, _, _, _. split; [done|].
  assert ((c' =? ch "E") || (c' =? ch "O") = true -> i' + e < zlen f) as Hend.
  { intros H. apply (at_inside f _ c'); [lia|done|]. intros ->. done. }
  split_and!; try lia.
  - destruct ((c' =? ch "C") || (c' =? ch "F") || (c' =? ch "G") || (c' =? ch "Y")); [|by compute]. destruct ((w =? 0) && _); [by compute|done].
  - destruct ((c' =? ch "E") || (c' =? ch "O")); lia.
  - destruct ((c' =? ch "E") || (c' =? ch "O")); [specialize (Hend eq_refl)|]; lia.
Qed.

Lemma read_directive_total f i : cstring f -> 0 <= i <= zlen f ->
  exists pad plus w p j, read_directive f i = Ok (pad, plus, w, p, j) /\ pad ∈ [0; ch "-"; ch "_"; ch "0"] /\ in_u 32 w /\ i <= p <= j /\ j <= zlen f.
Proof.
  intros Hf Hi. unfold read_directive. destruct (at_total f i Hi) as (c & Ec). rewrite Ec. cbn [obind].
  destruct ((c =? ch "-") || (c =? ch "_") || (c =? ch "0")) eqn:E.
  - assert (c ∈ [0; ch "-"; ch "_"; ch "0"] /\ c <> 0) as [Hc Hc0].
    { apply orb_true_iff in E as [E|E%Z.eqb_eq]; [apply orb_true_iff in E as [E%Z.eqb_eq|E%Z.eqb_eq]|]; subst c; (split; [apply list_elem_of_In; vm_compute; tauto|done]). }
    pose proof (at_inside f i c Hi Ec Hc0). destruct (read_width_total f c (i + 1) Hf ltac:(lia)) as (plus & w & p & j & E' & H1 & H2 & H3). exists c, plus, w, p, j. split_and!; try done; lia.
  - destruct (read_width_total f 0 i Hf Hi) as (plus & w & p & j & E' & H1 & H2 & H3). exists 0, plus, w, p, j. split_and!; try done; try lia. apply list_elem_of_In. by left.
Qed.

Lemma trim_zeros_length x : forall k, exists y k', trim_zeros x k = (y, k') /\ zlen y - k' = zlen x - k.
Proof.
  induction x as [|c x IH]; intros k; cbn [trim_zeros]; [by eexists _, _|]. destruct (_ && _); [|by eexists _, _].
  destruct (IH (k - 1)) as (y & k' & E & H). exists y, k'. split; [done|]. rewrite zlen_cons. lia.
Qed.

Lemma pad_zeros_total s n k : n <= zlen s -> forall fuel x width, zlen x <= n -> n - zlen x < Z.of_nat fuel ->
  exists y, pad_zeros fuel (blit s 0 x) n (zlen x) width k = Ok (blit s 0 y, zlen y) /\ zlen x <= zlen y <= n.
Proof.
  intros Hn. induction fuel as [|fuel IH]; intros x width Hx Hf; [lia|]. cbn [pad_zeros]. destruct (Z.ltb_spec k width), (Z.ltb_spec (zlen x) n); cbn [andb]; try (exists x; split; [done|lia]).
  rewrite zset_next by lia. cbn [obind]. destruct (IH (x ++ [ch "0"]) (width - 1)) as (y & E & Hy); [rewrite zlen_app; change (zlen [ch "0"]) with 1; lia..|].
  rewrite zlen_app in E, Hy. exists y. split; [done|]. change (zlen [ch "0"]) with 1 in Hy. lia.
Qed.

Lemma widen_total s n x width y plus cp year : zlen x < n <= zlen s -> zlen y < 2 ^ 32 ->
  exists z y', widen (blit s 0 x) n (zlen x) width (zlen y) y plus cp year = Ok (blit s 0 z, zlen z, y', zlen y') /\ zlen x <= zlen z <= n.
Proof.
  intros Hx Hy. unfold widen. set (b := (schar y 0 =? ch "+") || (schar y 0 =? ch "-")).
  assert (exists y1, (if b then (tail y, u32 (zlen y - 1)) else (y, zlen y)) = (y1, zlen y1)) as (y1 & ->).
  { destruct b eqn:E; [|by exists y]. exists (tail y). destruct y as [|c y]; [done|]. rewrite zlen_cons in *. pose proof (zlen_nonneg y). rewrite u32_id by (unfold in_u; lia). cbn [tail]. f_equal. lia. }
  destruct (trim_zeros_length y1 (zlen y1)) as (y2 & k & -> & Hk). assert (k = zlen y2) as -> by lia. cbv zeta.
  set (w := if width <? zlen y2 then zlen y2 else width). clearbody w.
  assert (forall c, exists w', (let! s := zset (blit s 0 x) (zlen x) c in Ok (s, zlen x + 1, w - 1)) = Ok (blit s 0 (x ++ [c]), zlen (x ++ [c]), w')) as Hput.
  { intros c. exists (w - 1). rewrite zset_next by lia. cbn [obind]. by rewrite zlen_app. }
  assert (exists z w', (if year <? -1900 then let! s := zset (blit s 0 x) (zlen x) (ch "-") in Ok (s, zlen x + 1, w - 1)
    else if plus && ((if cp =? ch "C" then 3 else 5) <=? u32 (zlen (span isdigit y2) + (w - zlen y2))) then let! s := zset (blit s 0 x) (zlen x) (ch "+") in Ok (s, zlen x + 1, w - 1)
    else Ok (blit s 0 x, zlen x, w)) = Ok (blit s 0 z, zlen z, w') /\ zlen x <= zlen z <= n) as (z & w' & -> & Hz).
  { destruct (year <? -1900); [|destruct (plus && _)]; [destruct (Hput (ch "-")) as (w' & ->)|destruct (Hput (ch "+")) as (w' & ->)|]; (eexists _, _; split; [done|]); rewrite ?zlen_app; change (zlen [ch "-"]) with 1; change (zlen [ch "+"]) with 1; lia. }
  cbn [obind]. destruct (pad_zeros_total s n (zlen y2) ltac:(lia) (S (Z.to_nat n)) z w' ltac:(lia) ltac:(pose proof (zlen_nonneg z); lia)) as (z' & -> & Hz'). cbn [obind]. exists z', y2. split; [done|lia].
Qed.

Lemma break_total s n x : zlen x <= n <= zlen s -> exists r text, break_off (blit s 0 x) n (zlen x) = Ok (r, if n =? 0 then s else blit s 0 (text ++ [0])) /\ (0 < n -> zlen text < n) /\ (r = 0 \/ r = zlen text).
Proof.
  intros Hx. pose proof (zlen_nonneg x). destruct (Z.eqb_spec (zlen x) n) as [E|E].
  - rewrite E. rewrite (break_full s n x []) by (done || lia). exists 0, (kept n x). unfold finished, stored. rewrite app_nil_r, (proj2 (Z.ltb_ge _ _)) by lia. split; [done|]. split; [|by left].
    intros H0. rewrite zlen_kept by done. lia.
  - unfold break_off, ctrue. rewrite (proj2 (Z.eqb_neq n 0)), (proj2 (Z.eqb_neq _ _) E) by lia. cbn [negb]. rewrite zset_next by lia. cbn [obind]. exists 0, x. split; [done|]. split; [lia|by left].
Qed.

Lemma loop_total t f s n : tm_ok t -> zone_ok t -> cstring f -> n <= zlen s -> forall fuel x i, zlen x <= n -> 0 <= i <= zlen f -> zlen f - i < Z.of_nat fuel ->
  exists r text, strftime_loop utf8 strerror junk zones fuel (__strftime_l utf8 strerror junk zones 2) (blit s 0 x) n f t i (zlen x) = Ok (r, if n =? 0 then s else blit s 0 (text ++ [0])) /\
    (0 < n -> zlen text < n) /\ (r = 0 \/ r = zlen text).
Proof.
  intros Ht Hz Hf Hn. induction fuel as [|fuel IH]; intros x i Hx Hi Hfuel; [lia|]. cbn [strftime_loop]. destruct (Z.ltb_spec (zlen x) n) as [Hlt|Hge]; [|by apply break_total].
  destruct (at_total f i Hi) as (c & Ec). rewrite Ec. cbn [obind]. pose proof (zlen_nonneg x). destruct (Z.eqb_spec c 0) as [-> |Hc].
  { rewrite zset_next by lia. cbn [obind]. exists (zlen x), x. rewrite (proj2 (Z.eqb_neq n 0)) by lia. split_and!; [done|lia|by right]. }
  pose proof (at_inside f i c Hi Ec Hc). destruct (negb (c =? ch "%")).
  { rewrite zset_next by lia. cbn [obind]. specialize (IH (x ++ [c]) (i + 1)). rewrite zlen_app in IH. change (zlen [c]) with 1 in IH. apply IH; lia. }
  destruct (read_directive_total f (i + 1) Hf ltac:(lia)) as (pad & plus & w & p & j & -> & Hp & Hw & Hpj & Hj). cbn [obind].
  destruct (at_total f j ltac:(lia)) as (cj & Ecj). rewrite Ecj. cbn [obind]. destruct (conv_total t cj pad Ht Hz Hp) as (r & Er & Hr). rewrite Er. cbn [obind].
  destruct r as [[y k]|]; [|by apply break_total]. destruct Hr as [-> Hy]. destruct (at_total f p ltac:(lia)) as (cp & ->). cbn [obind].
  assert (cj <> 0) as Hcj by (intros ->; rewrite unknown_letter in Er by (by apply (bool_decide_unpack _)); done). pose proof (at_inside f j cj ltac:(lia) Ecj Hcj).
  assert (exists z y', (if ctrue w then widen (blit s 0 x) n (zlen x) w (zlen y) y plus cp (tm_year t) else Ok (blit s 0 x, zlen x, y, zlen y)) = Ok (blit s 0 z, zlen z, y', zlen y') /\ zlen x <= zlen z <= n) as (z & y' & -> & Hz').
  { destruct (ctrue w); [by apply widen_total|]. exists x, y. split; [done|lia]. }
  cbn [obind]. set (k := if n - zlen z <? zlen y' then n - zlen z else zlen y'). assert (0 <= k <= zlen y' /\ zlen z + k <= n) as [Hk1 Hk2] by (unfold k; pose proof (zlen_nonneg y'); destruct (Z.ltb_spec (n - zlen z) (zlen y')); lia).
  rewrite copy_text_next by lia. cbn [obind]. assert (zlen (z ++ take (Z.to_nat k) y') = zlen z + k) as Hl by (rewrite zlen_app, zlen_take_min by lia; lia). rewrite <- Hl. apply IH; lia.
Qed.
End Spec.

(** * The properties *)

(** For every format of characters and known conversions, with their padding flags and modifiers, and fields of any value, [strftime] replaces the
    pieces by their texts; the text goes to the buffer with a null behind it, and its length is returned, or, when there is
    no room for it in [n] bytes, as much of it as fits, and zero is returned.  No other byte changes. *)
Theorem strftime_correct utf8 strerror junk zones t ps s n : cstring (strerror 0) -> tm_ok t -> Forall tpiece_ok ps -> Forall (zoned zones t) ps -> 0 <= n <= zlen s ->
  let text := text_all (zone_text zones) 2 t ps in
  strftime utf8 strerror junk zones s n (written_all ps) t = Ok (if zlen text <? n then zlen text else 0, stored 0 n s text).
Proof.
  intros He Ht Hps Hzs Hn. apply strftime_texts; try done. eapply Forall_impl; [exact Hps|]. apply fits_2.
Qed.

(** C37: on every format, whatever its flags, widths and letters, and every time whose fields are any [int]s, except that [tm_mday] is
    above [INT_MIN], [tm_mon] and [tm_yday] are below [INT_MAX], and [__tm_zone] points to a string unless [tm_isdst] is negative,
    [strftime] returns without undefined behaviour, leaves a null-terminated text within the [n] bytes, changes no byte behind it, and returns its length or zero. *)
Theorem strftime_safe utf8 strerror junk zones t f s n : cstring (strerror 0) -> tm_ok t -> zone_ok zones t -> cstring f -> 0 <= n <= zlen s ->
  exists r text, strftime utf8 strerror junk zones s n f t = Ok (r, if n =? 0 then s else blit s 0 (text ++ [0])) /\
    (0 < n -> zlen text < n) /\ (r = 0 \/ r = zlen text).
Proof.
  intros He Ht Hz Hf Hn. unfold strftime. cbn [__strftime_l]. pose proof (loop_total utf8 strerror junk zones He t f s n Ht Hz Hf ltac:(lia) (S (length f)) [] 0) as H. rewrite blit_empty in H.
  apply H; [change (zlen (@nil Z)) with 0; lia|split; [done|apply zlen_nonneg]|unfold zlen; lia].
Qed.

Definition moon : tm := mk_tm 40 17 20 20 6 69 0 200 0 0 utc.
Definition log_format : list tpiece := [TConv 0 0 (ch "A"); TChar 32; TConv 0 0 (ch "F"); TChar 32; TConv (ch "_") 0 (ch "I"); TConv 0 0 (ch "p"); TChar 32; TConv 0 (ch "O") (ch "V")].

(** July 20, 1969, in a buffer that is too small for it and in one that is not. *)
Lemma strftime_correct_witness :
  written_all log_format = lit "%A %F %_I%p %OV" /\
  strftime true (fun _ => []) 7 (fun _ => None) (replicate 9 1) 8 (written_all log_format) moon = Ok (0, lit "Sunday " ++ [0; 1]) /\
  strftime true (fun _ => []) 7 (fun _ => None) (replicate 26 1) 26 (written_all log_format) moon = Ok (25, lit "Sunday 1969-07-20  8PM 29" ++ [0]).
Proof.
  split; [by vm_compute|].
  assert (Forall tpiece_ok log_format) as Hps by (unfold log_format; repeat (apply Forall_cons; split; [first [split_and!; first [done | apply list_elem_of_In; vm_compute; tauto]]|]); apply Forall_nil_2).
  assert (Forall (zoned (fun _ => None) moon) log_format) as Hzs by (unfold log_format; repeat (apply Forall_cons; split; [try done; intros [=]|]); apply Forall_nil_2).
  assert (tm_ok moon) as Ht by (unfold tm_ok, int_fields; vm_compute; done).
  split.
  - rewrite (strftime_correct true (fun _ => []) 7 (fun _ => None) moon log_format (replicate 9 1) 8); [by vm_compute|apply Forall_nil_2|done|done|done|by vm_compute].
  - rewrite (strftime_correct true (fun _ => []) 7 (fun _ => None) moon log_format (replicate 26 1) 26); [by vm_compute|apply Forall_nil_2|done|done|done|by vm_compute].
Defined.

(** An unknown letter, and a width that is a negative number for [strtoul]. *)
Lemma strftime_safe_witness :
  exists r text, strftime true (fun _ => []) 7 (fun _ => Some (lit "UTC")) (replicate 9 1) 8 (lit "%-Ek%-1Y") moon = Ok (r, if 8 =? 0 then replicate 9 1 else blit (replicate 9 1) 0 (text ++ [0])) /\
    (0 < 8 -> zlen text < 8) /\ (r = 0 \/ r = zlen text).
Proof.
  apply (strftime_safe true (fun _ => []) 7 (fun _ => Some (lit "UTC")) moon (lit "%-Ek%-1Y") (replicate 9 1) 8); [apply Forall_nil_2|unfold tm_ok, int_fields; vm_compute; done|right; by exists (lit "UTC")|repeat constructor|by vm_compute].
Defined.

(** Outside of it: a null zone, and a day whose predecessor is no [int]. *)
Example strftime_null_zone : strftime true (fun _ => []) 7 (fun _ => None) (replicate 9 1) 8 (lit "%Z") moon = UB.
Proof. by vm_compute. Qed.
Example strftime_first_int : strftime true (fun _ => []) 7 (fun _ => None) (replicate 9 1) 8 (lit "%s") (mk_tm 0 0 0 INT_MIN 0 70 0 0 0 0 utc) = UB.
Proof. by vm_compute. Qed.
