(* ===== verification/TimeText.v ===== *)
(** Reading back the text of a time ([strptime] behind [strftime], [libc-top-half/musl/src/time/]).

    [strptime] on a text that [strftime] wrote with the same format ends at its end and gives the fields of the format back.
    The proof goes along the pieces of the format: [effect] is what a piece assigns, and the string at the
    position of [strptime] is the text of the pieces that are left, perhaps without blanks in front,
    which a blank in the format skips. *)

From Stdlib Require Import Ascii String.
From S2P Require Import Prelude Memory Strings StringsScan StringsSpec StringsType Calendar Intscan IntscanSpec Printf PrintfSpec Inet InetSpec InetText Casecmp Strftime StrftimeSpec.
Import Calendar.

(** * Times whose fields are in range *)

Definition in_range (t : tm) : Prop :=
  0 <= tm_sec t <= 60 /\ 0 <= tm_min t < 60 /\ 0 <= tm_hour t < 24 /\ 1 <= tm_mday t <= 31 /\ 0 <= tm_mon t < 12 /\
  -1900 <= tm_year t < 8100 /\ 0 <= tm_wday t < 7 /\ 0 <= tm_yday t < 366.

(** * Digits *)

Definition digit1 (v : Z) : list Z := [48 + v].
Definition digit2 (v : Z) : list Z := [48 + v / 10; 48 + v mod 10].
Definition digit3 (v : Z) : list Z := [48 + v / 100; 48 + v / 10 mod 10; 48 + v mod 10].
Definition digit4 (v : Z) : list Z := [48 + v / 1000; 48 + v / 100 mod 10; 48 + v / 10 mod 10; 48 + v mod 10].

Lemma text_by_table (f g : Z -> list Z) n : forallb (fun v => bool_decide (f v = g v)) (seqZ 0 n) = true -> forall v, 0 <= v < n -> f v = g v.
Proof. intros H v Hv. pose proof (forall_below _ _ H v Hv) as E. by apply bool_decide_eq_true in E. Qed.
Lemma num_text_1 v : 0 <= v < 10 -> num_text (ch "0") 1 v = digit1 v.
Proof. apply (text_by_table (num_text (ch "0") 1) digit1). by vm_compute. Qed.
Lemma num_text_2 v : 0 <= v < 100 -> num_text (ch "0") 2 v = digit2 v.
Proof. apply (text_by_table (num_text (ch "0") 2) digit2). by vm_compute. Qed.
Lemma num_text_3 v : 0 <= v < 1000 -> num_text (ch "0") 3 v = digit3 v.
Proof. apply (text_by_table (num_text (ch "0") 3) digit3). by vm_compute. Qed.
Lemma num_text_4 v : 0 <= v < 10000 -> num_text (ch "0") 4 v = digit4 v.
Proof. apply (text_by_table (num_text (ch "0") 4) digit4). by vm_compute. Qed.
Lemma num_text_blank v : 0 <= v < 100 -> num_text (ch "_") 2 v = if v <? 10 then 32 :: digit1 v else digit2 v.
Proof. apply (text_by_table (num_text (ch "_") 2) (fun v => if v <? 10 then 32 :: digit1 v else digit2 v)). by vm_compute. Qed.

Lemma digit_char_is x : 0 <= x < 10 -> isdigit (48 + x) = true.
Proof. intros Hx. rewrite isdigit_iff by lia. lia. Qed.

(** What is read at a position. *)
Lemma at_here s k j R : 0 <= k <= zlen s -> drop (Z.to_nat k) s = R -> 0 <= j <= zlen R -> at_ s (k + j) = Ok (schar R j).
Proof. intros Hk HR Hj. assert (zlen R = zlen s - k) as Hl by (subst R; unfold zlen in *; rewrite length_drop; lia). rewrite at_schar by lia. by rewrite HR. Qed.
Lemma drop_here s k (a R : list Z) : 0 <= k <= zlen s -> drop (Z.to_nat k) s = a ++ R -> drop (Z.to_nat (k + zlen a)) s = R /\ 0 <= k + zlen a <= zlen s.
Proof.
  intros Hk HR. pose proof (zlen_nonneg a). assert (zlen (a ++ R) = zlen s - k) as Hl by (rewrite <- HR; unfold zlen in *; rewrite length_drop; lia). rewrite zlen_app in Hl. pose proof (zlen_nonneg R). split; [|lia].
  replace (Z.to_nat (k + zlen a)) with (Z.to_nat k + length a)%nat by (unfold zlen in *; lia). by rewrite <- drop_drop, HR, drop_app_length.
Qed.

Lemma next_digit_Ok v x : 0 <= v < 10 ^ 8 -> 0 <= x < 10 -> next_digit v (48 + x) = Ok (v * 10 + x).
Proof. intros Hv Hx. unfold next_digit. change (ch "0") with 48. rewrite !int_Ok by (unfold in_s; lia). cbn [obind]. rewrite int_Ok by (unfold in_s; lia). cbn [obind]. rewrite int_Ok by (unfold in_s; lia). f_equal. lia. Qed.

Section Reading.
Context (s : list Z).

Lemma at_first k c R : 0 <= k <= zlen s -> drop (Z.to_nat k) s = c :: R -> at_ s k = Ok c /\ drop (Z.to_nat (k + 1)) s = R /\ 0 <= k + 1 <= zlen s.
Proof.
  intros Hk HR. split.
  - rewrite <- (Z.add_0_r k), (at_here s k 0 (c :: R)) by (done || (rewrite zlen_cons; pose proof (zlen_nonneg R); lia)). done.
  - apply (drop_here s k [c] R); done.
Qed.

Lemma range_step f k i bound v x R : 0 <= k <= zlen s -> drop (Z.to_nat k) s = (48 + x) :: R -> 0 <= x < 10 -> 0 <= v < 10 ^ 8 -> i <= bound ->
  range_digits (S f) s k i bound v = range_digits f s (k + 1) (i * 10) bound (v * 10 + x).
Proof.
  intros Hk HR Hx Hv Hi. destruct (at_first k _ R Hk HR) as (E & _). cbn [range_digits]. rewrite (proj2 (Z.leb_le _ _)) by lia. rewrite E. cbn [obind]. rewrite digit_char_is by done. by rewrite next_digit_Ok by done.
Qed.
Lemma range_stop f k i bound v : bound < i -> range_digits (S f) s k i bound v = Ok (v, k).
Proof. intros Hi. cbn [range_digits]. by rewrite (proj2 (Z.leb_gt _ _)) by lia. Qed.

Lemma count_step f k i w v x R : 0 <= k <= zlen s -> drop (Z.to_nat k) s = (48 + x) :: R -> 0 <= x < 10 -> 0 <= v < 10 ^ 8 -> i < w ->
  count_digits (S f) s k i w v = count_digits f s (k + 1) (i + 1) w (v * 10 + x).
Proof.
  intros Hk HR Hx Hv Hi. destruct (at_first k _ R Hk HR) as (E & _). cbn [count_digits]. rewrite (proj2 (Z.ltb_lt _ _)) by lia. rewrite E. cbn [obind]. rewrite digit_char_is by done. by rewrite next_digit_Ok by done.
Qed.
Lemma count_stop f k i w v : w <= i -> count_digits (S f) s k i w v = Ok (v, k).
Proof. intros Hi. cbn [count_digits]. by rewrite (proj2 (Z.ltb_ge _ _)) by lia. Qed.

(** [numeric_range] on as many digits as the range has. *)
Lemma range_all bound k v a R : 0 <= k <= zlen s -> drop (Z.to_nat k) s = a ++ R ->
  (1 <= bound < 10 /\ 0 <= v < 10 /\ a = digit1 v) \/ (10 <= bound < 100 /\ 0 <= v < 100 /\ a = digit2 v) \/ (100 <= bound < 1000 /\ 0 <= v < 1000 /\ a = digit3 v) ->
  range_digits 5 s k 1 bound 0 = Ok (v, k + zlen a) /\ exists c, at_ s k = Ok c /\ isdigit c = true.
Proof.
  intros Hk HR H. destruct H as [(Hb & Hv & ->)|[(Hb & Hv & ->)|(Hb & Hv & ->)]]; unfold digit1, digit2, digit3 in *; cbn [app] in HR; destruct (at_first k _ _ Hk HR) as (E1 & H1 & K1).
  - split; [|eexists; split; [exact E1|by apply digit_char_is]]. rewrite (range_step 4 k 1 bound 0 v R) by (done || lia). rewrite range_stop by lia. done.
  - split; [|eexists; split; [exact E1|apply digit_char_is; Z.div_mod_to_equations; lia]]. destruct (at_first _ _ _ K1 H1) as (_ & H2 & K2).
    rewrite (range_step 4 k 1 bound 0 _ _ Hk HR) by (Z.div_mod_to_equations; lia). rewrite (range_step 3 _ _ bound _ _ _ K1 H1) by (Z.div_mod_to_equations; lia). rewrite range_stop by lia.
    do 2 f_equal; [Z.div_mod_to_equations; lia|]. change (zlen [48 + v / 10; 48 + v mod 10]) with 2. lia.
  - split; [|eexists; split; [exact E1|apply digit_char_is; Z.div_mod_to_equations; lia]]. destruct (at_first _ _ _ K1 H1) as (_ & H2 & K2). destruct (at_first _ _ _ K2 H2) as (_ & H3 & K3).
    rewrite (range_step 4 k 1 bound 0 _ _ Hk HR) by (Z.div_mod_to_equations; lia). rewrite (range_step 3 _ _ bound _ _ _ K1 H1) by (Z.div_mod_to_equations; lia). rewrite (range_step 2 _ _ bound _ _ _ K2 H2) by (Z.div_mod_to_equations; lia). rewrite range_stop by lia.
    do 2 f_equal; [Z.div_mod_to_equations; lia|]. change (zlen [48 + v / 100; 48 + v / 10 mod 10; 48 + v mod 10]) with 3. lia.
Qed.

Lemma numeric_range_spec k d min range adj x v a R : 0 <= k <= zlen s -> drop (Z.to_nat k) s = a ++ R -> 0 <= min -> min <= v < min + range ->
  (1 <= min + range < 10 /\ 0 <= v < 10 /\ a = digit1 v) \/ (10 <= min + range < 100 /\ 0 <= v < 100 /\ a = digit2 v) \/ (100 <= min + range < 1000 /\ 0 <= v < 1000 /\ a = digit3 v) ->
  numeric_range s k d min range adj x = Ok (Some (k + zlen a), put d (v - adj) x).
Proof.
  intros Hk HR Hmin Hv H. destruct (range_all (min + range) k v a R Hk HR H) as (E & c & Ec & Hc). unfold numeric_range. rewrite Ec. cbn [obind]. rewrite Hc. cbn [negb]. rewrite E. cbn [obind].
  rewrite u32_id by (unfold in_u; lia). by rewrite (proj2 (Z.leb_gt _ _)) by lia.
Qed.

(** A day of one digit behind the blank that has been skipped. *)
Lemma numeric_range_short k d x v R : 0 <= k <= zlen s -> drop (Z.to_nat k) s = digit1 v ++ R -> starts (fun c => isdigit c = false) R -> 1 <= v < 10 ->
  numeric_range s k d 1 31 0 x = Ok (Some (k + 1), put d v x).
Proof.
  intros Hk HR Hn Hv. cbn [app digit1] in HR. destruct (at_first k _ R Hk HR) as (E1 & H1 & K1). unfold numeric_range. rewrite E1. cbn [obind]. rewrite digit_char_is by lia. cbn [negb].
  rewrite (range_step 4 k 1 _ 0 v R Hk HR) by lia. cbn [range_digits Z.leb Z.compare Pos.compare Pos.compare_cont Z.mul Pos.mul Z.add]. destruct (Z.leb_spec (1 * 10) (1 + 31)); [|lia].
  replace (at_ s (k + 1)) with (Ok (schar R 0)) by (rewrite <- (Z.add_0_r (k + 1)); symmetry; apply at_here; [done|done|pose proof (zlen_nonneg R); lia]). cbn [obind].
  assert (isdigit (schar R 0) = false) as -> by (destruct R; [done|exact Hn]). cbn [obind]. replace (0 * 10 + v) with v by lia. rewrite u32_id by (unfold in_u; lia). rewrite (proj2 (Z.leb_gt _ _)) by lia. by rewrite Z.sub_0_r.
Qed.

(** [numeric_digits] on as many digits as [w]. *)
Lemma numeric_digits_spec k d w adj x v a R : 0 <= k <= zlen s -> drop (Z.to_nat k) s = a ++ R -> 0 <= adj <= 1900 ->
  (w = 2 /\ 0 <= v < 100 /\ a = digit2 v) \/ (w = 4 /\ 0 <= v < 10000 /\ a = digit4 v) ->
  numeric_digits s k d w adj x = Ok (Some (k + zlen a), put d (v - adj) x).
Proof.
  intros Hk HR Hadj H.
  assert (exists c R', drop (Z.to_nat k) s = (48 + c) :: R' /\ 0 <= c < 10) as (c & R' & HR1 & Hc).
  { destruct H as [(_ & Hv & ->)|(_ & Hv & ->)]; rewrite HR; cbn [app digit2 digit4]; eexists _, _; (split; [done|]); Z.div_mod_to_equations; lia. }
  destruct (at_first k _ R' Hk HR1) as (E & _ & K1). unfold numeric_digits. rewrite E. cbn [obind]. change (ch "+") with 43. change (ch "-") with 45. rewrite !(proj2 (Z.eqb_neq (48 + c) _)) by lia. cbn [andb negb orb]. rewrite E. cbn [obind]. rewrite digit_char_is by done. cbn [negb].
  assert (count_digits (S (length s)) s k 0 w 0 = Ok (v, k + zlen a)) as ->; [|cbn [obind]; rewrite int_Ok by (unfold in_s; destruct H as [(_ & ? & _)|(_ & ? & _)]; lia); done].
  assert (zlen (a ++ R) <= zlen s) as Hl by (rewrite <- HR; unfold zlen; rewrite length_drop; lia). rewrite zlen_app in Hl. pose proof (zlen_nonneg R).
  destruct H as [(-> & Hv & ->)|(-> & Hv & ->)]; cbn [app digit2 digit4] in HR.
  - destruct (at_first _ _ _ Hk HR) as (_ & H1 & _). destruct (at_first _ _ _ K1 H1) as (_ & H2 & K2). change (zlen (digit2 v)) with 2 in *. destruct (length s) as [|[|n]] eqn:En; [unfold zlen in *; lia..|].
    rewrite (count_step _ k 0 2 0 _ _ Hk HR) by (Z.div_mod_to_equations; lia). rewrite (count_step _ _ _ 2 _ _ _ K1 H1) by (Z.div_mod_to_equations; lia). rewrite count_stop by lia.
    do 2 f_equal; [Z.div_mod_to_equations; lia|lia].
  - destruct (at_first _ _ _ Hk HR) as (_ & H1 & _). destruct (at_first _ _ _ K1 H1) as (_ & H2 & K2). destruct (at_first _ _ _ K2 H2) as (_ & H3 & K3). destruct (at_first _ _ _ K3 H3) as (_ & H4 & K4).
    change (zlen (digit4 v)) with 4 in *. destruct (length s) as [|[|[|[|n]]]] eqn:En; [unfold zlen in *; lia..|].
    rewrite (count_step _ k 0 4 0 _ _ Hk HR) by (Z.div_mod_to_equations; lia). rewrite (count_step _ _ _ 4 _ _ _ K1 H1) by (Z.div_mod_to_equations; lia).
    rewrite (count_step _ _ _ 4 _ _ _ K2 H2) by (Z.div_mod_to_equations; lia). rewrite (count_step _ _ _ 4 _ _ _ K3 H3) by (Z.div_mod_to_equations; lia). rewrite count_stop by lia.
    do 2 f_equal; [Z.div_mod_to_equations; lia|lia].
Qed.
End Reading.

(** * Names *)

Definition letter (c : Z) : bool := ((65 <=? c) && (c <=? 90)) || ((97 <=? c) && (c <=? 122)).
Definition nonletter (R : list Z) : Prop := starts (fun c => letter c = false) R.

(** A name is told from another by a character of both, or because it ends where the other has a letter. *)
Definition differs (name ex : list Z) : bool :=
  existsb (fun j => negb (tolower (schar name j) =? tolower (schar ex j))) (seqZ 0 (Z.min (zlen name) (zlen ex))).
Definition goes_on (name ex : list Z) : bool := (zlen name <? zlen ex) && letter (schar ex (zlen name)).

Lemma matches_at s n k j : matches s n k -> 0 <= j < zlen n -> j < zlen (drop (Z.to_nat k) s) /\ tolower (schar (drop (Z.to_nat k) s) j) = tolower (schar n j).
Proof.
  unfold matches, folded. intros H Hj. set (l := drop (Z.to_nat k) s) in *.
  assert (length n <= length l)%nat as Hl by (apply (f_equal (@length Z)) in H; rewrite !length_map, length_take in H; lia). split; [unfold zlen in *; lia|].
  apply (f_equal (fun l => nth (Z.to_nat j) l (tolower 0))) in H. rewrite !map_nth in H. unfold schar. rewrite <- H. f_equal.
  rewrite <- (take_drop (length n) l) at 1. rewrite app_nth1; [done|]. rewrite length_take. unfold zlen in *. lia.
Qed.

Lemma tolower_letter a b : 0 <= a < 256 -> 0 <= b < 256 -> letter a = false -> letter b = true -> tolower a <> tolower b.
Proof. intros Ha Hb. unfold letter. rewrite !tolower_range by done. repeat case_cmp; cbn [andb orb]; lia. Qed.

Lemma no_match s k name ex R : cstring s -> cstring ex -> drop (Z.to_nat k) s = name ++ R -> differs name ex || (goes_on name ex && forallb (fun c => negb (letter c)) (take 1 R)) = true -> ~ matches s ex k.
Proof.
  intros Hs Hex HR H Hm. apply orb_true_iff in H as [H|H].
  - unfold differs in H. apply existsb_exists in H as (j & Hj & Hd%negb_true_iff%Z.eqb_neq). apply list_elem_of_In, elem_of_seqZ in Hj. destruct (matches_at s ex k j Hm ltac:(lia)) as [_ E]. apply Hd. rewrite <- E, HR. unfold schar. by rewrite app_nth1 by (unfold zlen in *; lia).
  - apply andb_true_iff in H as [H HRl]. unfold goes_on in H. apply andb_true_iff in H as [Hl%Z.ltb_lt Hlet]. destruct (matches_at s ex k (zlen name) Hm ltac:(pose proof (zlen_nonneg name); lia)) as [Hlen E].
    rewrite HR, zlen_app in Hlen. destruct R as [|c R]; [change (zlen (@nil Z)) with 0 in Hlen; lia|]. cbn in HRl. apply andb_true_iff in HRl as [Hc%negb_true_iff _].
    rewrite HR in E. unfold schar at 1 in E. unfold zlen in E at 1. rewrite Nat2Z.id, nth_middle in E. revert E. apply tolower_letter; try done; [|apply schar_range; done].
    assert (c ∈ s) as Hin by (rewrite <- (take_drop (Z.to_nat k) s), HR; set_solver). unfold cstring in Hs. rewrite Forall_forall in Hs. specialize (Hs c Hin). lia.
Qed.

Lemma symbolic_loop_spec s k d min range x g : cstring s -> 0 <= k <= zlen s -> 0 <= g -> (forall i, cstring (nl_langinfo (min + i))) -> matches s (nl_langinfo (min + g)) k ->
  forall n, g < Z.of_nat n -> (forall i, g < i < Z.of_nat n -> ~ matches s (nl_langinfo (min + i)) k) ->
  symbolic_loop n s k d min range x = Ok (Some (k + zlen (nl_langinfo (min + g))), put d (Z.rem g range) x).
Proof.
  intros Hs Hk Hg Hex Hm. induction n as [|n IH]; intros Hn Hno; [lia|]. cbn [symbolic_loop]. destruct (strncasecmp_matches s (nl_langinfo (min + Z.of_nat n)) k) as (r & -> & Hr); [done..|]. cbn [obind]. unfold ctrue.
  destruct (decide (Z.of_nat n = g)) as [E|E].
  - rewrite E in *. apply Hr in Hm. rewrite Hm. done.
  - assert (r <> 0) as Hr0 by (intros ->; apply (Hno (Z.of_nat n)); [lia|]; by apply Hr). rewrite (proj2 (Z.eqb_neq r 0)) by done. cbn [negb]. apply IH; [lia|]. intros i Hi. apply Hno. lia.
Qed.

Lemma langinfo_cstring item : cstring (nl_langinfo item).
Proof.
  assert (forall str idx, forallb (fun c => (0 <=? c) && (c <? 256)) str = true -> cstring (string_at (skip_strings idx str))) as H.
  { intros str idx Hstr. revert str Hstr. induction idx as [|idx IH]; intros str Hstr.
    - cbn [skip_strings]. unfold string_at, cstring. rewrite Forall_forall. intros c Hc. pose proof (span_forall (fun c => negb (c =? 0)) str) as Hs. rewrite Forall_forall in Hs. specialize (Hs c Hc). cbn beta in Hs.
      rewrite forallb_forall in Hstr. destruct (span_prefix (fun c => negb (c =? 0)) str) as (r & Er & _). specialize (Hstr c). rewrite Er, in_app_iff in Hstr. specialize (Hstr (or_introl (proj1 (list_elem_of_In _ _) Hc))). bool_hyps. lia.
    - cbn [skip_strings]. apply IH. rewrite forallb_forall in Hstr |- *. intros c Hc. apply Hstr. rewrite <- (take_drop (S (length (span (fun c => negb (c =? 0)) str))) str). apply in_or_app. by right. }
  unfold nl_langinfo, __nl_langinfo_l. cbv zeta. repeat match goal with |- context [if ?b then _ else _] => destruct b end; try (apply H; by vm_compute); repeat constructor.
Qed.

(** The names of a table: [name v] is the entry [g v], and differs from the entries above. *)
Definition table_ok (name : Z -> list Z) (g : Z -> Z) (min range : Z) (short : bool) : bool :=
  forallb (fun v => bool_decide (nl_langinfo (min + g v) = name v) && (Z.rem (g v) range =? v) && (0 <=? g v) && (g v <? 2 * range) &&
    forallb (fun i => (i <=? g v) || differs (name v) (nl_langinfo (min + i)) || (short && goes_on (name v) (nl_langinfo (min + i)))) (seqZ 0 (2 * range))) (seqZ 0 range).

Lemma symbolic_range_spec name g min range short s k d x v R : table_ok name g min range short = true -> cstring s -> 0 <= k <= zlen s -> drop (Z.to_nat k) s = name v ++ R ->
  0 <= v < range -> (short = true -> nonletter R) -> symbolic_range s k d min range x = Ok (Some (k + zlen (name v)), put d v x).
Proof.
  intros Ht Hs Hk HR Hv Hnl. pose proof (forall_below _ _ Ht v Hv) as H. cbv beta in H. rewrite !andb_true_iff in H. destruct H as ((((H1%bool_decide_eq_true & H2%Z.eqb_eq) & H3%Z.leb_le) & H4%Z.ltb_lt) & H5).
  unfold symbolic_range. rewrite (symbolic_loop_spec s k d min range x (g v)); try done; [by rewrite H1, H2|intros i; apply langinfo_cstring| |lia|].
  - rewrite H1. unfold matches. by rewrite HR, take_app_length.
  - intros i Hi. pose proof (forall_below _ _ H5 i ltac:(lia)) as H6. cbv beta in H6. rewrite (proj2 (Z.leb_gt _ _)) in H6 by lia. cbn [orb] in H6. apply (no_match s k (name v) _ R); [done|apply langinfo_cstring|done|].
    apply orb_true_iff in H6 as [-> |H6]; [done|]. apply andb_true_iff in H6 as [-> ->]. rewrite orb_true_iff. right. specialize (Hnl eq_refl). destruct R as [|c R]; [done|]. cbn in *. by rewrite Hnl.
Qed.

Lemma short_day_table : table_ok (name_of short_days) (fun v => v) ABDAY_1 7 true = true.
Proof. by vm_compute. Qed.
Lemma long_day_table : table_ok (name_of long_days) (fun v => 7 + v) ABDAY_1 7 false = true.
Proof. by vm_compute. Qed.
(** May is its own abbreviation. *)
Lemma short_month_table : table_ok (name_of short_months) (fun v => if v =? 4 then 16 else v) ABMON_1 12 true = true.
Proof. by vm_compute. Qed.
Lemma long_month_table : table_ok (name_of long_months) (fun v => 12 + v) ABMON_1 12 false = true.
Proof. by vm_compute. Qed.

Lemma am_pm_spec s k x (pm : bool) R : cstring s -> 0 <= k <= zlen s -> drop (Z.to_nat k) s = lit (if pm then "PM" else "AM") ++ R ->
  am_pm s k x = Ok (Some (k + 2), put Hour (Z.rem (tm_hour (p_tm x)) 12 + (if pm then 12 else 0)) x).
Proof.
  intros Hs Hk HR. unfold am_pm. destruct (strncasecmp_matches s (nl_langinfo AM_STR) k) as (r & -> & Hr); [done|apply langinfo_cstring|done|]. cbn [obind].
  destruct pm.
  - destruct (Z.eqb_spec r 0) as [E|_]; [exfalso; apply Hr in E; revert E; apply (no_match s k (lit "PM") _ R); [done|apply langinfo_cstring|done|by vm_compute]|].
    destruct (strncasecmp_matches s (nl_langinfo PM_STR) k) as (r' & -> & Hr'); [done|apply langinfo_cstring|done|]. cbn [obind].
    destruct (Z.eqb_spec r' 0) as [_|E]; [done|]. exfalso. apply E, Hr'. unfold matches. rewrite HR. done.
  - destruct (Z.eqb_spec r 0) as [_|E]; [by rewrite Z.add_0_r|]. exfalso. apply E, Hr. unfold matches. rewrite HR. done.
Qed.

(** * The effect of a piece *)

Definition simple_effect (t : tm) (c : Z) (x : ptime) : ptime :=
  if (c =? ch "a") || (c =? ch "A") || (c =? ch "w") then put Wday (tm_wday t) x
  else if (c =? ch "b") || (c =? ch "B") || (c =? ch "h") || (c =? ch "m") then put Mon (tm_mon t) x
  else if c =? ch "C" then put Century ((1900 + tm_year t) / 100) (wants (Z.lor (want_century x) 2) x)
  else if (c =? ch "d") || (c =? ch "e") then put Mday (tm_mday t) x
  else if c =? ch "H" then put Hour (tm_hour t) x
  else if c =? ch "I" then put Hour (if tm_hour t =? 0 then 12 else if 12 <? tm_hour t then tm_hour t - 12 else tm_hour t) x
  else if c =? ch "j" then put Yday (tm_yday t) x
  else if c =? ch "M" then put Min (tm_min t) x
  else if c =? ch "p" then put Hour (Z.rem (tm_hour (p_tm x)) 12 + (if 12 <=? tm_hour t then 12 else 0)) x
  else if c =? ch "S" then put Sec (tm_sec t) x
  else if c =? ch "y" then put Relyear ((1900 + tm_year t) mod 100) (wants (Z.lor (want_century x) 1) x)
  else if c =? ch "Y" then put Year (tm_year t) (wants 0 x)
  else x.

(** Without the blanks in front. *)
Definition strip (l : list Z) : list Z := drop (length (span isspace l)) l.
Definition stripped (b : bool) (l : list Z) : list Z := if b then strip l else l.

Lemma strip_cons c l : strip (c :: l) = if isspace c then strip l else c :: l.
Proof. unfold strip. cbn [span]. by destruct (isspace c). Qed.
Lemma strip_strip l : strip (strip l) = strip l.
Proof. induction l as [|c l IH]; [done|]. rewrite strip_cons. destruct (isspace c) eqn:E; [done|]. by rewrite strip_cons, E. Qed.
Lemma stripped_text b c a R : isspace c = false -> stripped b ((c :: a) ++ R) = (c :: a) ++ R.
Proof. intros H. destruct b; [|done]. cbn [stripped app]. by rewrite strip_cons, H. Qed.

(** What must follow: a letter does not follow an abbreviated name, and no digit a day of one digit, which must follow a blank. *)
Definition clear (t : tm) (b : bool) (c : Z) (R : list Z) : Prop :=
  (c ∈ lit "abh" -> nonletter R) /\ (c = ch "e" -> 10 <= tm_mday t \/ (b = true /\ starts (fun c => isdigit c = false) R)).
Definition blank_conv (c : Z) : bool := (c =? ch "n") || (c =? ch "t").

Lemma digit_nonspace x : 0 <= x < 10 -> isspace (48 + x) = false.
Proof.
  intros Hx. apply negb_true_iff. replace (48 + x) with (x + 48) by lia. apply (forall_below (fun x => negb (isspace (x + 48))) 10); [by vm_compute|done].
Qed.

Lemma name_first l i : forallb (fun x => match lit x with c :: _ => negb (isspace c) | [] => false end) l = true -> exists c r, name_of l i = c :: r /\ isspace c = false.
Proof.
  intros Hl. assert (forall x, In x l \/ x = "-"%string -> exists c r, lit x = c :: r /\ isspace c = false) as H.
  { intros x [Hx| ->]; [|by eexists _, _]. rewrite forallb_forall in Hl. specialize (Hl x Hx). destruct (lit x) as [|c r]; [done|]. apply negb_true_iff in Hl. by eexists _, _. }
  unfold name_of. destruct (i <? 0); [apply H; by right|]. apply H. destruct (nth_in_or_default (Z.to_nat i) l "-"%string); [by left|by right].
Qed.

Definition simple_letters : list Z := lit "aAbBhCdeHIjmMnpSwyY%t".
(** The result of a conversion at [k]. *)
Definition converts (s : list Z) (r : outcome (option Z * ptime)) (x' : ptime) (R : list Z) : Prop :=
  exists k, r = Ok (Some k, x') /\ drop (Z.to_nat k) s = R /\ 0 <= k <= zlen s.

Lemma converts_number s k a R r x' : 0 <= k <= zlen s -> drop (Z.to_nat k) s = a ++ R -> r = Ok (Some (k + zlen a), x') -> converts s r x' R.
Proof. intros Hk HR ->. exists (k + zlen a). split; [done|]. by apply drop_here. Qed.

Section Convert.
Context (zone : Z -> list Z) (s : list Z) (Hs : cstring s) (t : tm) (Ht : in_range t).

Lemma range_conv k b d min range adj x w v v' R : 0 <= k <= zlen s -> drop (Z.to_nat k) s = stripped b (num_text (ch "0") w v ++ R) -> 0 <= min -> min <= v < min + range -> v - adj = v' ->
  (w = 1 /\ v < 10 /\ 1 <= min + range < 10) \/ (w = 2 /\ v < 100 /\ 10 <= min + range < 100) \/ (w = 3 /\ v < 1000 /\ 100 <= min + range < 1000) ->
  converts s (numeric_range s k d min range adj x) (put d v' x) R.
Proof.
  intros Hk HR Hm Hv <- Hw. assert (exists a, num_text (ch "0") w v = a /\ ((1 <= min + range < 10 /\ 0 <= v < 10 /\ a = digit1 v) \/ (10 <= min + range < 100 /\ 0 <= v < 100 /\ a = digit2 v) \/ (100 <= min + range < 1000 /\ 0 <= v < 1000 /\ a = digit3 v))
    /\ exists y r, a = (48 + y) :: r /\ 0 <= y < 10) as (a & Ea & Ha & y & r & Er & Hy).
  { destruct Hw as [(-> & H1 & H2)|[(-> & H1 & H2)|(-> & H1 & H2)]].
    - exists (digit1 v). split_and!; [apply num_text_1; lia|left; split_and!; (done || lia)|eexists _, _; split; [done|lia]].
    - exists (digit2 v). split_and!; [apply num_text_2; lia|right; left; split_and!; (done || lia)|eexists _, _; split; [done|Z.div_mod_to_equations; lia]].
    - exists (digit3 v). split_and!; [apply num_text_3; lia|right; right; split_and!; (done || lia)|eexists _, _; split; [done|Z.div_mod_to_equations; lia]]. }
  rewrite Ea in HR. rewrite Er in HR. rewrite stripped_text in HR by (by apply digit_nonspace). rewrite <- Er in HR.
  apply (converts_number s k a R); try done. by apply (numeric_range_spec s k d min range adj x v a R).
Qed.

Lemma digits_conv k b d w adj x v v' R : 0 <= k <= zlen s -> drop (Z.to_nat k) s = stripped b (num_text (ch "0") w v ++ R) -> 0 <= adj <= 1900 -> v - adj = v' ->
  (w = 2 /\ 0 <= v < 100) \/ (w = 4 /\ 0 <= v < 10000) -> converts s (numeric_digits s k d w adj x) (put d v' x) R.
Proof.
  intros Hk HR Hadj <- Hw. assert (exists a, num_text (ch "0") w v = a /\ ((w = 2 /\ 0 <= v < 100 /\ a = digit2 v) \/ (w = 4 /\ 0 <= v < 10000 /\ a = digit4 v)) /\ exists y r, a = (48 + y) :: r /\ 0 <= y < 10) as (a & Ea & Ha & y & r & Er & Hy).
  { destruct Hw as [(-> & Hv)|(-> & Hv)].
    - exists (digit2 v). split_and!; [by apply num_text_2|by left|eexists _, _; split; [done|Z.div_mod_to_equations; lia]].
    - exists (digit4 v). split_and!; [by apply num_text_4|by right|eexists _, _; split; [done|Z.div_mod_to_equations; lia]]. }
  rewrite Ea in HR. rewrite Er in HR. rewrite stripped_text in HR by (by apply digit_nonspace). rewrite <- Er in HR.
  apply (converts_number s k a R); try done. by apply (numeric_digits_spec s k d w adj x v a R).
Qed.

Lemma name_conv k b d l g min range short x v R : forallb (fun x => match lit x with c :: _ => negb (isspace c) | [] => false end) l = true -> table_ok (name_of l) g min range short = true ->
  0 <= k <= zlen s -> drop (Z.to_nat k) s = stripped b (name_of l v ++ R) -> 0 <= v < range -> (short = true -> nonletter R) -> converts s (symbolic_range s k d min range x) (put d v x) R.
Proof.
  intros Hl Htab Hk HR Hv Hn. destruct (name_first l v Hl) as (c & r & E & Hc). rewrite E in HR. rewrite stripped_text in HR by done. rewrite <- E in HR.
  apply (converts_number s k (name_of l v) R); try done. by apply (symbolic_range_spec (name_of l) g min range short s k d x v R).
Qed.

Lemma blank_skip k b c x R : 0 <= k <= zlen s -> isspace c = true -> drop (Z.to_nat k) s = stripped b (c :: R) -> converts s (Ok (Some (skip_space s k), x)) x (strip R).
Proof.
  intros Hk Hc HR. exists (skip_space s k). split; [done|]. unfold skip_space. assert (strip (drop (Z.to_nat k) s) = strip R) as Hstrip.
  { rewrite HR. destruct b; cbn [stripped]; rewrite ?strip_strip; by rewrite strip_cons, Hc. }
  set (l := drop (Z.to_nat k) s) in *. pose proof (span_length isspace l) as Hsp. assert (zlen l = zlen s - k) as Hl by (unfold l, zlen in *; rewrite length_drop; lia). pose proof (zlen_nonneg (span isspace l)).
  split; [|unfold zlen in *; lia]. rewrite <- Hstrip. unfold strip. replace (Z.to_nat (k + zlen (span isspace l))) with (Z.to_nat k + length (span isspace l))%nat by (unfold zlen in *; lia). by rewrite <- drop_drop.
Qed.

Lemma char_here k c R : 0 <= k <= zlen s -> drop (Z.to_nat k) s = c :: R -> at_ s k = Ok c /\ drop (Z.to_nat (k + 1)) s = R /\ 0 <= k + 1 <= zlen s.
Proof. apply at_first. Qed.

Lemma simple_conv rec k b c x R : 0 <= k <= zlen s -> c ∈ simple_letters -> clear t b c R -> drop (Z.to_nat k) s = stripped b (simple_text zone t 0 c ++ R) ->
  converts s (conversion rec s k c (-1) x) (simple_effect t c x) (stripped (blank_conv c) R).
Proof.
  destruct Ht as (H1 & H2 & H3 & H4 & H5 & H6 & H7 & H8). intros Hk Hc [Hab He] HR.
  apply list_elem_of_In in Hc. vm_compute in Hc. revert HR. unfold conversion, simple_effect, blank_conv, simple_text, number_of.
  repeat destruct Hc as [<-|Hc]; [..|done]; eval_letters; intros HR.
  - apply (name_conv k b Wday short_days (fun v => v) ABDAY_1 7 true); try done. intros _. apply Hab. apply list_elem_of_In. vm_compute. tauto.
  - by apply (name_conv k b Wday long_days (fun v => 7 + v) ABDAY_1 7 false).
  - apply (name_conv k b Mon short_months (fun v => if v =? 4 then 16 else v) ABMON_1 12 true); try done. intros _. apply Hab. apply list_elem_of_In. vm_compute. tauto.
  - by apply (name_conv k b Mon long_months (fun v => 12 + v) ABMON_1 12 false).
  - apply (name_conv k b Mon short_months (fun v => if v =? 4 then 16 else v) ABMON_1 12 true); try done. intros _. apply Hab. apply list_elem_of_In. vm_compute. tauto.
  - rewrite Z.quot_div_nonneg in HR by lia. apply (digits_conv k b Century 2 0 _ ((1900 + tm_year t) / 100)); try done; [lia|]. left. split; [done|]. Z.div_mod_to_equations; lia.
  - apply (range_conv k b Mday 1 31 0 _ 2 (tm_mday t)); try done; lia.
  - specialize (He eq_refl). change (ctrue 0) with false in HR. cbv iota in HR. rewrite num_text_blank in HR by lia. destruct (Z.ltb_spec (tm_mday t) 10).
    + destruct He as [|[-> Hn]]; [lia|]. cbn [app stripped] in HR. rewrite strip_cons in HR. change (isspace 32) with true in HR. cbv iota in HR. unfold digit1 in HR. cbn [app] in HR. rewrite strip_cons, digit_nonspace in HR by lia.
      apply (converts_number s k (digit1 (tm_mday t)) R); try done. apply (numeric_range_short s k Mday x (tm_mday t) R); (done || lia).
    + rewrite <- num_text_2 in HR by lia. apply (range_conv k b Mday 1 31 0 _ 2 (tm_mday t)); try done; lia.
  - apply (range_conv k b Hour 0 24 0 _ 2 (tm_hour t)); try done; lia.
  - eapply (range_conv k b Hour 1 12 0 _ 2); [done|exact HR|done| |apply Z.sub_0_r|right; left; split_and!; [done|..|done]]; repeat case_cmp; lia.
  - apply (range_conv k b Yday 1 366 1 _ 3 (tm_yday t + 1)); try done; lia.
  - apply (range_conv k b Mon 1 12 1 _ 2 (tm_mon t + 1)); try done; lia.
  - apply (range_conv k b Min 0 60 0 _ 2 (tm_min t)); try done; lia.
  - by apply (blank_skip k b 10).
  - assert (drop (Z.to_nat k) s = lit (if 12 <=? tm_hour t then "PM" else "AM") ++ R) as HR' by (rewrite HR; destruct (12 <=? tm_hour t); by apply stripped_text).
    apply (converts_number s k (lit (if 12 <=? tm_hour t then "PM" else "AM")) R); try done. rewrite (am_pm_spec s k x (12 <=? tm_hour t) R) by done. by destruct (12 <=? tm_hour t).
  - apply (range_conv k b Sec 0 61 0 _ 2 (tm_sec t)); try done; lia.
  - apply (range_conv k b Wday 0 7 0 _ 1 (tm_wday t)); try done; lia.
  - replace (Z.abs (Z.rem (tm_year t + 1900) 100)) with ((1900 + tm_year t) mod 100) in HR by (rewrite Z.rem_mod_nonneg by lia; rewrite Z.abs_eq by (apply Z.mod_pos_bound; lia); f_equal; lia).
    apply (digits_conv k b Relyear 2 0 _ ((1900 + tm_year t) mod 100)); try done; [lia|]. left. split; [done|]. apply Z.mod_pos_bound. lia.
  - rewrite (proj2 (Z.leb_gt _ _)) in HR by lia. apply (digits_conv k b Year 4 1900 _ (tm_year t + 1900)); try done; [lia|]. right. split; [done|lia].
  - cbn [app] in HR. destruct (char_here k (ch "%") R Hk) as (E & HR' & Hk'); [rewrite HR; by apply (stripped_text b _ [])|]. rewrite E. cbn [obind]. rewrite Z.eqb_refl. exists (k + 1). done.
  - by apply (blank_skip k b 9).
Qed.
End Convert.

(** * Formats *)

(** Behind the loop. *)
Definition finish (x : ptime) : tm :=
  if ctrue (want_century x) then
    p_tm (put Year (if ctrue (Z.land (want_century x) 2) then relyear x + (century x * 100 - 1900) else if relyear x <=? 68 then relyear x + 100 else relyear x) x)
  else p_tm x.
Definition bounded (x : ptime) : Prop := 0 <= century x < 100 /\ 0 <= relyear x < 100.

Lemma finish_year_Ok x : bounded x -> finish_year x = Ok (finish x).
Proof.
  intros [H1 H2]. unfold finish_year, finish. destruct (ctrue (want_century x)); [|done]. destruct (ctrue (Z.land (want_century x) 2)); [|done].
  rewrite int_Ok by (unfold in_s; lia). cbn [obind]. rewrite int_Ok by (unfold in_s; lia). cbn [obind]. by rewrite int_Ok by (unfold in_s; lia).
Qed.

Fixpoint effect (d : nat) (t : tm) (p : tpiece) (x : ptime) : ptime :=
  match p with
  | TChar _ => x
  | TConv _ _ c =>
      match expansion c with
      | None => simple_effect t c x
      | Some ps => match d with O => x | S d => set_tm (finish (fold_left (fun x p => effect d t p x) ps (PT (p_tm x) 0 0 0))) x end
      end
  end.
Definition effects (d : nat) (t : tm) (ps : list tpiece) (x : ptime) : ptime := fold_left (fun x p => effect d t p x) ps x.

(** The pieces that [strptime] knows too: no flags and modifiers, and not all letters. *)
Definition readable_letters : list Z := (simple_letters ++ lit "cDrRTxX")%list.
Definition readable (p : tpiece) : Prop := match p with TChar c => 0 < c < 256 /\ c <> ch "%" | TConv pad m c => pad = 0 /\ m = 0 /\ c ∈ readable_letters end.

(** Whether blanks have just been skipped. *)
Definition skips (p : tpiece) : bool := match p with TChar c => isspace c | TConv _ _ c => blank_conv c end.
Fixpoint end_flag (b : bool) (ps : list tpiece) : bool := match ps with [] => b | p :: ps => end_flag (skips p) ps end.

Section Formats.
Context (zone : Z -> list Z) (t : tm) (Ht : in_range t).

(** The pieces can be told apart in the text, which [R] follows. *)
Fixpoint separate (d : nat) (b : bool) (ps : list tpiece) (R : list Z) : Prop :=
  match ps with
  | [] => True
  | p :: ps =>
      match p with TConv _ _ c => clear t b c (text_all zone d t ps ++ R) | TChar _ => True end /\ separate d (skips p) ps R
  end.

Lemma simple_bounded c x : bounded x -> bounded (simple_effect t c x).
Proof.
  destruct Ht as (_ & _ & _ & _ & _ & H6 & _). intros Hx. unfold simple_effect.
  repeat match goal with |- context [if ?b then _ else _] => destruct b end; try done; split; cbn; try apply Hx; try (apply Z.mod_pos_bound; lia). Z.div_mod_to_equations; lia.
Qed.
Lemma effect_bounded d p x : bounded x -> bounded (effect d t p x).
Proof. destruct p as [c|pad m c]; [by destruct d|]. intros Hx. destruct d as [|d]; cbn [effect]; destruct (expansion c); try done; by apply simple_bounded. Qed.

Lemma expansion_conversion rec s k c w x qs : c ∈ readable_letters -> expansion c = Some qs ->
  conversion rec s k c w x = (let! (r, t) := rec (drop (Z.to_nat k) s) (written_all qs) (p_tm x) in Ok (option_map (Z.add k) r, set_tm t x)).
Proof.
  intros Hc He. apply list_elem_of_In in Hc. vm_compute in Hc. unfold conversion.
  repeat destruct Hc as [<-|Hc]; try done; eval_letters; injection He as <-;
    try match goal with |- context [nl_langinfo ?i] => let v := eval vm_compute in (nl_langinfo i) in change (nl_langinfo i) with v end; done.
Qed.

Lemma first_text d c qs : c ∈ readable_letters -> expansion c = Some qs -> exists a r, text_all zone d t qs = a :: r /\ isspace a = false.
Proof.
  destruct Ht as (H1 & H2 & H3 & H4 & H5 & H6 & H7 & H8). intros Hc He.
  assert (forall c' qs', c' ∈ lit "aHmI" -> exists a r, text_all zone d t (conv_of c' :: qs') = a :: r /\ isspace a = false) as H.
  { intros c' qs' Hc'. assert (exists a r, simple_text zone t 0 c' = a :: r /\ isspace a = false) as (a & r & E & Ha).
    { apply list_elem_of_In in Hc'. vm_compute in Hc'. unfold simple_text, number_of. repeat destruct Hc' as [<-|Hc']; [..|done]; eval_letters; [by apply name_first|..].
      all: change (ctrue 0) with false; cbv iota; rewrite num_text_2 by (repeat case_cmp; lia); eexists _, _; (split; [done|]); apply digit_nonspace; repeat case_cmp; Z.div_mod_to_equations; lia. }
    exists a, (r ++ text_all zone d t qs'). split; [|done]. unfold text_all. cbn [map concat]. assert (expansion c' = None) as He' by (apply list_elem_of_In in Hc'; vm_compute in Hc'; repeat destruct Hc' as [<-|Hc']; done).
    replace (text_of zone d t (conv_of c')) with (simple_text zone t 0 c') by (destruct d; cbn [text_of conv_of]; by rewrite He'). by rewrite E. }
  apply list_elem_of_In in Hc. vm_compute in Hc. repeat destruct Hc as [<-|Hc]; try done; injection He as <-; apply H; apply list_elem_of_In; vm_compute; tauto.
Qed.

Lemma text_all_char d c ps R : text_all zone d t (TChar c :: ps) ++ R = c :: text_all zone d t ps ++ R.
Proof. unfold text_all. cbn [map concat]. by destruct d. Qed.
Lemma clear_others b c R : existsb (Z.eqb c) (lit "abhe") = false -> clear t b c R.
Proof.
  intros H. assert (forall y, y ∈ lit "abhe" -> c <> y) as Hn by (intros y Hy ->; apply not_true_iff_false in H; apply H, existsb_exists; exists y; split; [by apply list_elem_of_In|apply Z.eqb_refl]).
  split; [intros Hc; exfalso; apply (Hn c); [|done]|intros ->; exfalso; apply (Hn (ch "e")); [|done]]; [|apply list_elem_of_In; vm_compute; tauto].
  apply list_elem_of_In in Hc. apply list_elem_of_In. vm_compute in Hc |- *. tauto.
Qed.
Lemma clear_before_blank c ps d R : clear t true c (text_all zone d t (TChar 32 :: ps) ++ R).
Proof. rewrite text_all_char. split; [done|]. right. by split. Qed.
Lemma clear_name_blank c b ps d R : c <> ch "e" -> clear t b c (text_all zone d t (TChar 32 :: ps) ++ R).
Proof. intros H. rewrite text_all_char. by split. Qed.

Lemma expansion_separate d c qs R : c ∈ readable_letters -> expansion c = Some qs -> Forall readable qs /\ separate d false qs R /\ end_flag false qs = false.
Proof.
  intros Hc He. apply list_elem_of_In in Hc. vm_compute in Hc. repeat destruct Hc as [<-|Hc]; try done; injection He as <-; split_and!; try done.
  all: try (repeat (apply Forall_cons; split; [first [by split | split_and!; first [done | apply list_elem_of_In; vm_compute; tauto]]|]); apply Forall_nil_2).
  all: unfold date_pieces, time_pieces; cbn [separate skips conv_of]; change (isspace 32) with true; split_and!; try done; first [by apply clear_others | by apply clear_before_blank | by apply clear_name_blank].
Qed.

(** * Reading back *)

Definition written_read (d : nat) : Prop := forall ps R s t0, Forall readable ps -> Forall (fits d) ps -> cstring s -> s = text_all zone d t ps ++ R -> separate d false ps R ->
  exists k, strptime_at (S d) s (written_all ps) t0 = Ok (Some k, finish (effects d t ps (PT t0 0 0 0))) /\ drop (Z.to_nat k) s = stripped (end_flag false ps) R /\ 0 <= k <= zlen s.

(** A conversion. *)
Lemma conversion_reads d s k b c x R : (forall d', (d' < d)%nat -> written_read d') -> cstring s -> c ∈ readable_letters -> fits d (conv_of c) -> 0 <= k <= zlen s -> clear t b c R ->
  drop (Z.to_nat k) s = stripped b (text_of zone d t (conv_of c) ++ R) ->
  converts s (conversion (strptime_at d) s k c (-1) x) (effect d t (conv_of c) x) (stripped (blank_conv c) R).
Proof.
  intros IH Hs Hc Hfit Hk Hcl HR. destruct (expansion c) as [qs|] eqn:He.
  - destruct d as [|d]; [cbn [fits conv_of] in Hfit; by rewrite He in Hfit|]. cbn [fits conv_of] in Hfit. rewrite He in Hfit. cbn [text_of conv_of] in HR. rewrite He in HR. fold (text_all zone d t qs) in HR.
    destruct (first_text d c qs Hc He) as (a & r & Ea & Ha). rewrite Ea in HR. rewrite stripped_text in HR by done. rewrite <- Ea in HR.
    destruct (expansion_separate d c qs R Hc He) as (Hq & Hsep & Hend). destruct (IH d ltac:(lia) qs R (drop (Z.to_nat k) s) (p_tm x)) as (k' & E & Hk1 & Hk2); try done; [by apply Forall_drop|].
    rewrite (expansion_conversion _ s k c (-1) x qs Hc He). rewrite E. cbn [obind option_map effect conv_of]. rewrite He. fold (effects d t qs (PT (p_tm x) 0 0 0)).
    assert (zlen (drop (Z.to_nat k) s) = zlen s - k) as Hl by (unfold zlen in *; rewrite length_drop; lia).
    exists (k + k'). split; [done|]. split; [|lia]. rewrite Hend in Hk1. cbn [stripped] in Hk1. rewrite drop_drop in Hk1. replace (Z.to_nat (k + k')) with (Z.to_nat k + Z.to_nat k')%nat by lia. rewrite Hk1.
    assert (blank_conv c = false) as ->; [|done]. apply list_elem_of_In in Hc. vm_compute in Hc. repeat destruct Hc as [<-|Hc]; done.
  - replace (effect d t (conv_of c) x) with (simple_effect t c x) by (destruct d; cbn [effect conv_of]; by rewrite He). replace (text_of zone d t (conv_of c)) with (simple_text zone t 0 c) in HR by (destruct d; cbn [text_of conv_of]; by rewrite He).
    apply (simple_conv zone s Hs t Ht _ k b); try done. unfold readable_letters in Hc. apply elem_of_app in Hc as [|Hc]; [done|].
    exfalso. apply list_elem_of_In in Hc. vm_compute in Hc. repeat destruct Hc as [<-|Hc]; done.
Qed.

Lemma readable_plain c : c ∈ readable_letters -> plain_char c = true.
Proof. intros Hc. apply list_elem_of_In in Hc. assert (forallb plain_char readable_letters = true) as H by (by vm_compute). rewrite forallb_forall in H. by apply H. Qed.

Lemma strptime_loop_spec d s R : (forall d', (d' < d)%nat -> written_read d') -> cstring s -> forall ps fuel b fpre k x, Forall readable ps -> Forall (fits d) ps -> separate d b ps R ->
  bounded x -> 0 <= k <= zlen s -> drop (Z.to_nat k) s = stripped b (text_all zone d t ps ++ R) -> (length ps < fuel)%nat ->
  exists k', strptime_loop fuel (strptime_at d) s (fpre ++ written_all ps) (zlen fpre) k x = Ok (Some k', finish (effects d t ps x)) /\ drop (Z.to_nat k') s = stripped (end_flag b ps) R /\ 0 <= k' <= zlen s.
Proof.
  intros IHd Hs. induction ps as [|p ps IH]; intros fuel b fpre k x Hok Hfits Hsep Hx Hk HR Hfuel; (destruct fuel as [|fuel]; [cbn in Hfuel; lia|]); cbn [strptime_loop]; rewrite at_suffix; cbn [obind].
  - change (schar (written_all []) 0) with 0. cbn [Z.eqb]. rewrite finish_year_Ok by done. cbn [obind]. exists k. done.
  - apply Forall_cons in Hok as [Hp Hok]. apply Forall_cons in Hfits as [Hfp Hfits]. destruct Hsep as [Hcl Hsep]. cbn [length] in Hfuel. assert (text_all zone d t (p :: ps) = text_of zone d t p ++ text_all zone d t ps) as Et by done. rewrite Et, <- app_assoc in HR.
    assert (written_all (p :: ps) = written p ++ written_all ps) as Ew by done. rewrite Ew. cbn [end_flag]. change (effects d t (p :: ps) x) with (effects d t ps (effect d t p x)).
    destruct p as [c|pad m c].
    + replace (text_of zone d t (TChar c)) with [c] in HR by (by destruct d). replace (effect d t (TChar c) x) with x by (by destruct d). destruct Hp as [Hc1 Hc2]. cbn [written app]. change (schar (c :: written_all ps) 0) with c.
      rewrite (proj2 (Z.eqb_neq c 0)), (proj2 (Z.eqb_neq c _) Hc2) by lia. cbn [negb skips app] in *. specialize (fun k b => IH fuel b (fpre ++ [c]) k x Hok Hfits). rewrite <- app_assoc, zlen_app in IH. cbn [app] in IH. change (zlen [c]) with 1 in IH.
      destruct (isspace c) eqn:Esp.
      * destruct (blank_skip s k b c x _ Hk Esp HR) as (k' & E & HR' & Hk'). injection E as ->. apply (IH k' true); (done || lia).
      * assert (drop (Z.to_nat k) s = c :: text_all zone d t ps ++ R) as HR1 by (rewrite HR; by apply (stripped_text b c [])). destruct (at_first s k c _ Hk HR1) as (-> & HR' & Hk'). cbn [obind]. rewrite Z.eqb_refl. cbn [negb]. apply (IH (k + 1) false); (done || lia).
    + destruct Hp as (-> & -> & Hc). cbn [written optional Z.eqb app]. change (schar (ch "%" :: c :: written_all ps) 0) with (ch "%"). rewrite Z.eqb_refl. cbn [Z.eqb negb].
      assert (at_ (fpre ++ ch "%" :: c :: written_all ps) (zlen fpre + 1) = Ok c) as Ec.
      { replace (fpre ++ ch "%" :: c :: written_all ps) with ((fpre ++ [ch "%"]) ++ c :: written_all ps) by (by rewrite <- app_assoc). rewrite (at_suffix_len (fpre ++ [ch "%"])); [done|by rewrite zlen_app]. }
      pose proof (readable_plain c Hc) as Hpl. unfold plain_char in Hpl. bool_hyps. rewrite Ec. cbn [obind]. rewrite (proj2 (Z.eqb_neq c (ch "+"))) by done. rewrite Ec. cbn [obind].
      match goal with H : isdigit c = false |- _ => rewrite H end. cbn [obind]. rewrite Ec. cbn [obind].
      destruct (conversion_reads d s k b c x _ IHd Hs Hc Hfp Hk Hcl HR) as (k' & -> & HR' & Hk'). cbn [obind].
      specialize (IH fuel (blank_conv c) (fpre ++ [ch "%"; c]) k' (effect d t (TConv 0 0 c) x) Hok Hfits). rewrite <- app_assoc, zlen_app in IH. cbn [app] in IH. change (zlen [ch "%"; c]) with 2 in IH.
      replace (zlen fpre + 1 + 1) with (zlen fpre + 2) by lia. apply IH; try done; [by apply effect_bounded|lia].
Qed.

Lemma strptime_reads d : written_read d.
Proof.
  induction d as [d IHd] using lt_wf_ind. intros ps R s t0 Hok Hfits Hs Es Hsep. cbn [strptime_at]. pose proof (written_length ps).
  apply (strptime_loop_spec d s R IHd Hs ps (S (length (written_all ps))) false [] 0 (PT t0 0 0 0)); try done; [split; [done|apply zlen_nonneg]|lia].
Qed.
End Formats.

(** * The fields of a format *)

#[export] Instance place_eq : EqDecision place_.
Proof. solve_decision. Defined.

Definition has (l : list place_) (d : place_) : bool := existsb (fun e => bool_decide (e = d)) l.
(** The fields [l] of [t], the others of [t0]. *)
Definition merge (l : list place_) (t t0 : tm) : tm :=
  let pick {A} (d : place_) (f : tm -> A) := f (if has l d then t else t0) in
  mk_tm (pick Sec tm_sec) (pick Min tm_min) (pick Hour tm_hour) (pick Mday tm_mday) (pick Mon tm_mon) (pick Year tm_year) (pick Wday tm_wday) (pick Yday tm_yday)
    (tm_isdst t0) (tm_gmtoff t0) (tm_zone t0).

(** What a conversion determines. *)
Definition fields_of (c : Z) : list place_ :=
  if (c =? ch "a") || (c =? ch "A") || (c =? ch "w") then [Wday]
  else if (c =? ch "b") || (c =? ch "B") || (c =? ch "h") || (c =? ch "m") then [Mon]
  else if (c =? ch "d") || (c =? ch "e") then [Mday]
  else if c =? ch "H" then [Hour]
  else if c =? ch "j" then [Yday]
  else if c =? ch "M" then [Min]
  else if c =? ch "S" then [Sec]
  else if (c =? ch "y") || (c =? ch "Y") then [Year]
  else if (c =? ch "T") || (c =? ch "X") || (c =? ch "r") then [Hour; Min; Sec]
  else if c =? ch "R" then [Hour; Min]
  else if (c =? ch "D") || (c =? ch "x") then [Mon; Mday; Year]
  else if c =? ch "c" then [Wday; Mon; Mday; Hour; Min; Sec; Year]
  else [].
Definition piece_fields (p : tpiece) : list place_ := match p with TChar _ => [] | TConv _ _ c => fields_of c end.
Definition fields (ps : list tpiece) : list place_ := concat (map piece_fields ps).

(** The conversions that determine their fields alone: not the century, nor the hour without its half of the day.  A year of two digits is
    one from 1969 to 2068. *)
Definition whole_letters : list Z := lit "aAbBhdeHjmMnSwyY%tcDrRTxX".
Definition whole (t : tm) (p : tpiece) : Prop :=
  match p with
  | TChar c => 0 < c < 256 /\ c <> ch "%"
  | TConv pad m c => pad = 0 /\ m = 0 /\ c ∈ whole_letters /\ (c ∈ lit "yDx" -> 69 <= tm_year t <= 168)
  end.

Lemma whole_readable t p : whole t p -> readable p.
Proof.
  destruct p as [c|pad m c]; [done|]. intros (-> & -> & Hc & _). split_and!; try done. assert (forallb (fun c => bool_decide (c ∈ readable_letters)) whole_letters = true) as H by (by vm_compute).
  rewrite forallb_forall in H. apply list_elem_of_In in Hc. specialize (H c Hc). by apply bool_decide_eq_true in H.
Qed.

Lemma has_app l l' d : has (l ++ l') d = has l d || has l' d.
Proof. apply existsb_app. Qed.
Lemma merge_merge l l' t t0 : merge l t (merge l' t t0) = merge (l ++ l') t t0.
Proof. unfold merge. cbn [tm_sec tm_min tm_hour tm_mday tm_mon tm_year tm_wday tm_yday tm_isdst tm_gmtoff tm_zone]. rewrite !has_app. f_equal; match goal with |- context [has l ?d] => by destruct (has l d) end. Qed.
Lemma merge_ext l l' t t0 : (forall d, has l d = has l' d) -> merge l t t0 = merge l' t t0.
Proof. intros H. unfold merge. by rewrite !H. Qed.

Definition with_year (y : Z) (t : tm) : tm := p_tm (put Year y (PT t 0 0 0)).

Section Fields.
Context (t : tm) (Ht : in_range t).

(** What a simple conversion but [y] and [Y] does to the fields. *)
Lemma simple_merge c x : c ∈ lit "aAbBhdeHjmMnSw%t" -> simple_effect t c x = set_tm (merge (fields_of c) t (p_tm x)) x.
Proof.
  intros Hc. apply list_elem_of_In in Hc. vm_compute in Hc. unfold simple_effect, fields_of, set_tm. destruct x as [[] ce re wa]. repeat destruct Hc as [<-|Hc]; [..|done]; eval_letters; reflexivity.
Qed.

Lemma year_of_two : 69 <= tm_year t <= 168 -> (if (1900 + tm_year t) mod 100 <=? 68 then (1900 + tm_year t) mod 100 + 100 else (1900 + tm_year t) mod 100) = tm_year t.
Proof. intros Hy. destruct (Z.leb_spec ((1900 + tm_year t) mod 100) 68); Z.div_mod_to_equations; lia. Qed.
Lemma hour_of_half : Z.rem (if tm_hour t =? 0 then 12 else if 12 <? tm_hour t then tm_hour t - 12 else tm_hour t) 12 + (if 12 <=? tm_hour t then 12 else 0) = tm_hour t.
Proof. destruct Ht as (_ & _ & H3 & _). rewrite Z.rem_mod_nonneg by (repeat case_cmp; lia). repeat case_cmp; Z.div_mod_to_equations; lia. Qed.

Lemma expansion_merge d c qs x : c ∈ whole_letters -> (c ∈ lit "yDx" -> 69 <= tm_year t <= 168) -> expansion c = Some qs -> Forall (fits d) qs ->
  finish (effects d t qs (PT (p_tm x) 0 0 0)) = merge (fields_of c) t (p_tm x).
Proof.
  intros Hc Hy He Hfit. apply list_elem_of_In in Hc. vm_compute in Hc. destruct x as [[] ce re wa]. cbn [p_tm].
  assert (forall T, merge [Mon; Mday; Year] t T = mk_tm (tm_sec T) (tm_min T) (tm_hour T) (tm_mday t) (tm_mon t) (tm_year t) (tm_wday T) (tm_yday T) (tm_isdst T) (tm_gmtoff T) (tm_zone T)) as Hdate by done.
  assert (forall T, merge [Hour; Min; Sec] t T = mk_tm (tm_sec t) (tm_min t) (tm_hour t) (tm_mday T) (tm_mon T) (tm_year T) (tm_wday T) (tm_yday T) (tm_isdst T) (tm_gmtoff T) (tm_zone T)) as Htime by done.
  repeat destruct Hc as [<-|Hc]; try done; injection He as <-.
  - destruct d as [|d]; [exfalso; repeat (apply Forall_cons in Hfit as [? Hfit]); done|]. by destruct d.
  - unfold fields_of. eval_letters. rewrite Hdate, <- (year_of_two (Hy ltac:(apply list_elem_of_In; vm_compute; tauto))). by destruct d.
  - unfold fields_of. eval_letters. rewrite Htime, <- hour_of_half. by destruct d.
  - by destruct d.
  - by destruct d.
  - unfold fields_of. eval_letters. rewrite Hdate, <- (year_of_two (Hy ltac:(apply list_elem_of_In; vm_compute; tauto))). by destruct d.
  - by destruct d.
Qed.

(** Where the century is still open, the year is determined but not stored. *)
Definition known (t0 : tm) (l : list place_) (x : ptime) : Prop :=
  (want_century x = 0 /\ p_tm x = merge l t t0) \/
  (want_century x = 1 /\ relyear x = (1900 + tm_year t) mod 100 /\ 69 <= tm_year t <= 168 /\ with_year (tm_year t) (p_tm x) = merge l t t0).

Lemma known_finish t0 l x : known t0 l x -> finish x = merge l t t0.
Proof.
  intros [[H1 H2]|(H1 & H2 & H3 & H4)]; unfold finish; rewrite H1; [done|]. change (ctrue 1) with true. change (ctrue (Z.land 1 2)) with false. cbv iota. rewrite H2, year_of_two by done. exact H4.
Qed.

Lemma with_year_merge l T : with_year (tm_year t) (merge l t T) = merge l t (with_year (tm_year t) T).
Proof. unfold with_year, merge. cbn [put p_tm tm_sec tm_min tm_hour tm_mday tm_mon tm_year tm_wday tm_yday tm_isdst tm_gmtoff tm_zone]. f_equal; match goal with |- context [has l ?d] => by destruct (has l d) end. Qed.

Lemma known_set t0 l fs x : known t0 l x -> known t0 (fs ++ l) (set_tm (merge fs t (p_tm x)) x).
Proof.
  intros [[H1 H2]|(H1 & H2 & H3 & H4)]; [left|right]; cbn [want_century relyear p_tm set_tm]; split_and!; try done; try lia; [by rewrite H2, merge_merge|]. by rewrite with_year_merge, H4, merge_merge.
Qed.

Lemma known_effect d t0 l p x : whole t p -> fits d p -> known t0 l x -> known t0 (piece_fields p ++ l) (effect d t p x).
Proof.
  destruct p as [c|pad m c]; [by destruct d|]. intros (_ & _ & Hc & Hy) Hfit Hx. cbn [piece_fields]. destruct (expansion c) as [qs|] eqn:He.
  - destruct d as [|d]; cbn [fits effect] in *; rewrite He in *; [done|]. fold (effects d t qs (PT (p_tm x) 0 0 0)). rewrite (expansion_merge d c qs x) by done. by apply known_set.
  - replace (effect d t (TConv pad m c) x) with (simple_effect t c x) by (destruct d; cbn [effect]; by rewrite He).
    destruct (decide (c ∈ lit "aAbBhdeHjmMnSw%t")) as [Hs|Hs]; [rewrite simple_merge by done; by apply known_set|].
    assert (c = ch "y" \/ c = ch "Y") as [-> | ->].
    { apply list_elem_of_In in Hc. vm_compute in Hc. repeat destruct Hc as [<-|Hc]; try done; try (by left); try (by right); exfalso; apply Hs, list_elem_of_In; vm_compute; tauto. }
    + change (simple_effect t (ch "y") x) with (put Relyear ((1900 + tm_year t) mod 100) (wants (Z.lor (want_century x) 1) x)). specialize (Hy ltac:(apply list_elem_of_In; vm_compute; tauto)). right.
      change (fields_of (ch "y")) with [Year]. cbn [want_century relyear p_tm put wants]. split_and!; try done; try lia; [by destruct Hx as [[-> _]|(-> & _)]|].
      rewrite <- merge_merge. destruct Hx as [[_ ->]|(_ & _ & _ & <-)]; done.
    + change (simple_effect t (ch "Y") x) with (put Year (tm_year t) (wants 0 x)). left. split; [done|]. change (fields_of (ch "Y")) with [Year].
      rewrite <- merge_merge. destruct Hx as [[_ H2]|(_ & _ & _ & <-)]; [|by destruct x as [[]]]. rewrite <- H2. by destruct x as [[]].
Qed.

Lemma known_effects d t0 ps : forall l x, Forall (whole t) ps -> Forall (fits d) ps -> known t0 l x -> exists l', known t0 l' (effects d t ps x) /\ forall e, has l' e = has (fields ps ++ l) e.
Proof.
  induction ps as [|p ps IH]; intros l x Hw Hf Hx; [by exists l|]. apply Forall_cons in Hw as [Hp Hw]. apply Forall_cons in Hf as [Hfp Hf].
  destruct (IH _ _ Hw Hf (known_effect d t0 l p x Hp Hfp Hx)) as (l' & H1 & H2). exists l'. split; [done|]. intros e. rewrite H2. unfold fields. cbn [map concat]. rewrite !has_app. by destruct (has (piece_fields p) e), (has (concat (map piece_fields ps)) e).
Qed.
End Fields.

(** * The texts have no null *)

Lemma readable_text zone t d p : in_range t -> readable p -> fits d p -> cstring (text_of zone d t p).
Proof.
  intros Ht. revert p. induction d as [d IH] using lt_wf_ind. intros [c|pad m c] Hp Hfit.
  - replace (text_of zone d t (TChar c)) with [c] by (by destruct d). apply Forall_singleton. lia || (destruct Hp; lia).
  - destruct Hp as (-> & -> & Hc). destruct (expansion c) as [qs|] eqn:He.
    + destruct d as [|d]; cbn [fits text_of] in *; rewrite He in *; [done|]. destruct (expansion_separate zone t d c qs [] Hc He) as (Hq & _ & _).
      apply Forall_concat, Forall_map. rewrite Forall_forall in Hq, Hfit |- *. intros p Hp. apply (IH d ltac:(lia)); [by apply Hq|by apply Hfit].
    + replace (text_of zone d t (TConv 0 0 c)) with (simple_text zone t 0 c) by (destruct d; cbn [text_of]; by rewrite He). unfold simple_text. destruct (number_of t c) as [[[def w] v]|].
      * destruct (_ && _) eqn:E; [|apply num_text_cstring]. apply andb_true_iff in E as [_ E%Z.leb_le]. constructor; [by compute|apply decimal_cstring; lia].
      * apply list_elem_of_In in Hc. vm_compute in Hc. repeat destruct Hc as [<-|Hc]; [..|done]; eval_letters; try (by apply name_short); try (by repeat constructor). destruct (12 <=? tm_hour t); repeat constructor.
Qed.

Lemma in_range_ok t : in_range t -> in_s 32 (tm_isdst t) -> in_s 32 (tm_gmtoff t) -> tm_ok t.
Proof. intros (H1 & H2 & H3 & H4 & H5 & H6 & H7 & H8) H9 H10. unfold tm_ok, int_fields, INT_MIN, INT_MAX. unfold in_s in *. lia. Qed.

Lemma whole_ok t p : whole t p -> tpiece_ok p.
Proof.
  destruct p as [c|pad m c]; [done|]. intros (-> & -> & Hc & _). split_and!; [apply list_elem_of_In; by left|apply list_elem_of_In; by left|].
  assert (forallb (fun c => bool_decide (c ∈ letters)) whole_letters = true) as H by (by vm_compute). rewrite forallb_forall in H. apply list_elem_of_In in Hc. specialize (H c Hc). by apply bool_decide_eq_true in H.
Qed.

(** * The properties *)

(** What [strptime] makes of the text of a format. *)
Lemma reads_text zone t t0 ps : in_range t -> Forall (whole t) ps -> separate zone t 2 false ps [] ->
  let text := text_all zone 2 t ps in cstring text /\ strptime text (written_all ps) t0 = Ok (Some (zlen text), merge (fields ps) t t0).
Proof.
  intros Ht Hps Hsep text. assert (Forall readable ps) as Hr by (eapply Forall_impl; [exact Hps|]; apply whole_readable).
  assert (Forall (fits 2) ps) as Hf by (eapply Forall_impl; [exact Hps|]; intros p Hp; by apply fits_2, (whole_ok t)).
  assert (cstring text) as Hc.
  { apply Forall_concat, Forall_map. rewrite Forall_forall in Hr, Hf |- *. intros p Hp. apply readable_text; [done|by apply Hr|by apply Hf]. }
  split; [done|]. destruct (strptime_reads zone t Ht 2 ps [] text t0 Hr Hf Hc) as (k & E & Hk1 & Hk2); [by rewrite app_nil_r|done|].
  destruct (known_effects t Ht 2 t0 ps [] (PT t0 0 0 0) Hps Hf) as (l & Hl & Hle); [left; by destruct t0|].
  unfold strptime. rewrite E. rewrite (known_finish t t0 l _ Hl), (merge_ext l (fields ps)) by (intros e; by rewrite Hle, app_nil_r). do 3 f_equal.
  assert (drop (Z.to_nat k) text = []) as Hd by (rewrite Hk1; by destruct (end_flag false ps)). apply (f_equal (@length Z)) in Hd. rewrite length_drop in Hd. cbn [length] in Hd. unfold zlen in *. lia.
Qed.

Lemma whole_zoned zones t p : whole t p -> zoned zones t p.
Proof.
  destruct p as [c|pad m c]; [done|]. intros (_ & _ & Hc & _) ->. exfalso. apply list_elem_of_In in Hc. vm_compute in Hc. by repeat destruct Hc as [Hc|Hc].
Qed.

(** C38: for every format of characters and, without flags and widths, the conversions [%a], [%A], [%b], [%B], [%h], [%d], [%e], [%H], [%j], [%m], [%M],
    [%S], [%w], [%y], [%Y], [%n], [%t], [%%], [%c], [%D], [%r], [%R], [%T], [%x] and [%X] (not [%C], [%I], [%p], [%U] and [%W], which
    both functions know but which do not hold a whole field) in which the pieces can be told apart — no letter behind an
    abbreviated name, a blank before a padded day and no digit behind it — and every time with its fields in
    range, in the years 0 to 9999, or 1969 to 2068 where [%y], [%D] or [%x] occurs, [strptime] takes the whole text that [strftime] wrote and
    gives every field of the format back, leaving the other fields alone. *)
Theorem strptime_strftime utf8 strerror junk zones t t0 ps s n : cstring (strerror 0) -> in_range t -> in_s 32 (tm_isdst t) -> in_s 32 (tm_gmtoff t) ->
  Forall (whole t) ps -> separate (zone_text zones) t 2 false ps [] -> zlen (text_all (zone_text zones) 2 t ps) < n <= zlen s ->
  exists s', strftime utf8 strerror junk zones s n (written_all ps) t = Ok (zlen (text_all (zone_text zones) 2 t ps), s') /\
    strptime (string_at s') (written_all ps) t0 = Ok (Some (zlen (text_all (zone_text zones) 2 t ps)), merge (fields ps) t t0).
Proof.
  intros He Ht Hd Hg Hps Hsep Hn. pose proof (zlen_nonneg (text_all (zone_text zones) 2 t ps)). destruct (reads_text (zone_text zones) t t0 ps Ht Hps Hsep) as [Hc Hr]. exists (stored 0 n s (text_all (zone_text zones) 2 t ps)). split.
  - unfold strftime. rewrite (strftime_texts utf8 strerror junk zones He t 2 (in_range_ok t Ht Hd Hg) ps s n); [unfold finished; by rewrite (proj2 (Z.ltb_lt _ _)) by lia|..|lia].
    + eapply Forall_impl; [exact Hps|]. apply whole_ok.
    + eapply Forall_impl; [exact Hps|]. intros p Hp. by apply fits_2, (whole_ok t).
    + eapply Forall_impl; [exact Hps|]. apply whole_zoned.
  - rewrite <- Hr. f_equal. unfold stored. rewrite (proj2 (Z.eqb_neq n 0)) by lia. unfold kept. rewrite take_zlen, blit_0, <- app_assoc by lia. by apply string_at_text.
Qed.

Ltac whole_pieces := repeat (apply Forall_cons; split; [first [by split | split_and!; first [done | apply list_elem_of_In; vm_compute; tauto | intros; done | by intros _]]|]); apply Forall_nil_2.

(** The format of [asctime], read into a time that is all zeros. *)
Lemma strptime_strftime_witness :
  exists s', strftime true (fun _ => []) 7 (fun _ => None) (replicate 32 1) 32 (lit "%a %b %e %r, %y.") moon = Ok (27, s') /\
    strptime (string_at s') (lit "%a %b %e %r, %y.") zero_tm = Ok (Some 27, mk_tm 40 17 20 20 6 69 0 0 0 0 0).
Proof.
  destruct (strptime_strftime true (fun _ => []) 7 (fun _ => None) moon zero_tm
    [conv_of (ch "a"); TChar 32; conv_of (ch "b"); TChar 32; conv_of (ch "e"); TChar 32; conv_of (ch "r"); TChar (ch ","); TChar 32; conv_of (ch "y"); TChar (ch ".")] (replicate 32 1) 32)
    as (s' & E1 & E2); [apply Forall_nil_2|by vm_compute|by vm_compute|by vm_compute|whole_pieces| |by vm_compute|].
  - cbn [separate skips conv_of]. split_and!; try done; try (by apply clear_others); try (by apply clear_name_blank). by apply clear_before_blank.
  - exists s'. split; [exact E1|exact E2].
Defined.

(** * Times of the clock as text *)

(** ["%Y-%m-%dT%H:%M:%SZ"] *)
Definition iso_format : list tpiece :=
  [conv_of (ch "Y"); TChar (ch "-"); conv_of (ch "m"); TChar (ch "-"); conv_of (ch "d"); TChar (ch "T");
   conv_of (ch "H"); TChar (ch ":"); conv_of (ch "M"); TChar (ch ":"); conv_of (ch "S"); TChar (ch "Z")].

Lemma iso_whole t : Forall (whole t) iso_format.
Proof.
  unfold iso_format. repeat (apply Forall_cons; split; [first [by split | split_and!; [done|done|apply list_elem_of_In; vm_compute; tauto|intros H; exfalso; apply list_elem_of_In in H; vm_compute in H; by repeat destruct H as [H|H]]]|]). apply Forall_nil_2.
Qed.
Lemma iso_separate zone t R : separate zone t 2 false iso_format R.
Proof. unfold iso_format. cbn [separate skips conv_of]. split_and!; try done; by apply clear_others. Qed.
Lemma iso_length zone t : in_range t -> zlen (text_all zone 2 t iso_format) = 20.
Proof.
  intros (H1 & H2 & H3 & H4 & H5 & H6 & _). unfold text_all, iso_format. cbn [map concat]. rewrite !zlen_app.
  assert (forall c, expansion c = None -> text_of zone 2 t (conv_of c) = simple_text zone t 0 c) as E by (intros c Hc; cbn [text_of conv_of]; by rewrite Hc). rewrite !E by done. unfold simple_text, number_of. eval_letters. change (ctrue 0) with false. cbv iota.
  rewrite (proj2 (Z.leb_gt 10000 _)), num_text_4, !num_text_2 by lia. done.
Qed.

(** The months have at most 31 days. *)
Lemma valid_in_range_of n : valid_tm n -> -1900 <= tm_year n < 8100 -> 0 <= tm_wday n < 7 -> tm_yday n = month_days (1900 + tm_year n) (tm_mon n) + tm_mday n - 1 -> in_range n.
Proof.
  intros (H1 & H2 & H3 & H4 & H5 & _) Hy Hw Hyd. assert (month_length (1900 + tm_year n) (tm_mon n) <= 31 /\ 0 <= month_days (1900 + tm_year n) (tm_mon n) /\ month_days (1900 + tm_year n) (tm_mon n) + month_length (1900 + tm_year n) (tm_mon n) <= 366) as (Hl & Hd1 & Hd2).
  { assert (0 <= tm_mon n <= 11) as Hm by lia. clear -Hm. revert Hm. generalize (tm_mon n) as m. intros m Hm. unfold month_length. pattern m. revert m Hm. apply month_cases; unfold month_days, month_starts; lits; destruct (is_leap_year (1900 + tm_year n)); cbn; lia. }
  unfold in_range. lia.
Qed.

(** A time of the clock in the years 0 to 9999 survives being written as text: [gmtime_r], [strftime] with
    ["%Y-%m-%dT%H:%M:%SZ"], [strptime] into any structure and [timegm] give the same second and the same broken-down time back. *)
Theorem iso8601_roundtrip utf8 strerror junk zones secs tm0 t t0 s : cstring (strerror 0) -> in_s 64 secs -> gmtime_r secs tm0 = Ok (Val t) -> -1900 <= tm_year t < 8100 -> 21 <= zlen s ->
  exists s' t1, strftime utf8 strerror junk zones s 21 (written_all iso_format) t = Ok (20, s') /\
    strptime (string_at s') (written_all iso_format) t0 = Ok (Some 20, t1) /\ timegm t1 = Ok (Val (secs, t)).
Proof.
  intros He Hs Hg Hy Hl. unfold gmtime_r in Hg. destruct (secs_to_tm_spec secs tm0 Hs) as (o & Ho & Hspec). rewrite Ho in Hg. cbn [obind] in Hg.
  destruct o as [n|]; [|done]. injection Hg as <-. destruct Hspec as (Hv & Hsec & Hwd & Hyd & _). change (tm_year (in_utc n)) with (tm_year n) in Hy.
  assert (in_range (in_utc n)) as Hr by (apply (valid_in_range_of n); try done; rewrite Hwd; apply Z.mod_pos_bound; lia).
  destruct (reads_text (zone_text zones) (in_utc n) t0 iso_format Hr (iso_whole _) (iso_separate (zone_text zones) _ _)) as [Hc Hread]. rewrite iso_length in Hread by done.
  exists (stored 0 21 s (text_all (zone_text zones) 2 (in_utc n) iso_format)), (merge (fields iso_format) (in_utc n) t0). split_and!.
  - unfold strftime. rewrite (strftime_texts utf8 strerror junk zones He (in_utc n) 2); [unfold finished; by rewrite iso_length|by apply in_range_ok| |by repeat constructor| |lia];
      (eapply Forall_impl; [apply (iso_whole (in_utc n))|]); [apply whole_ok|apply whole_zoned].
  - rewrite <- Hread. f_equal. unfold stored. cbn [Z.eqb]. unfold kept. rewrite take_zlen, blit_0, <- app_assoc by (rewrite iso_length by done; lia). by apply string_at_text.
  - unfold timegm. assert (carried_seconds (merge (fields iso_format) (in_utc n) t0) = secs) as Ec by (rewrite <- Hsec, <- valid_carried by done; done).
    rewrite tm_to_secs_spec, Ec by exact (valid_int_fields n Hv). cbn [obind]. rewrite (secs_to_tm_zone secs tm0), Ho. done.
Qed.

(** The last second of February 29, 2000. *)
Lemma iso8601_roundtrip_witness :
  exists t s' t1, gmtime_r 951868799 zero_tm = Ok (Val t) /\ strftime true (fun _ => []) 7 (fun _ => None) (replicate 21 1) 21 (lit "%Y-%m-%dT%H:%M:%SZ") t = Ok (20, s') /\
    strptime (string_at s') (lit "%Y-%m-%dT%H:%M:%SZ") zero_tm = Ok (Some 20, t1) /\ timegm t1 = Ok (Val (951868799, t)).
Proof.
  eexists. destruct (iso8601_roundtrip true (fun _ => []) 7 (fun _ => None) 951868799 zero_tm _ zero_tm (replicate 21 1) (Forall_nil_2 _) ltac:(by bounds) ltac:(vm_compute; reflexivity)) as (s' & t1 & E1 & E2 & E3); [by vm_compute|by vm_compute|].
  exists s', t1. split; [vm_compute; reflexivity|]. split; [exact E1|]. split; [exact E2|exact E3].
Defined.

(** A width that lets [strptime] read more digits than an [int] has is undefined behaviour. *)
Example strptime_year_overflow : strptime (lit "9999999999") (lit "%10Y") zero_tm = UB.
Proof. by vm_compute. Qed.
(** [%e] does not read a day that [%e] has padded with a blank, unless a blank of the format has skipped it. *)
Example strptime_padded_day : strptime (lit " 7") (lit "%e") zero_tm = Ok (None, zero_tm).
Proof. by vm_compute. Qed.
