(* ===== verification/MultibyteN.v ===== *)
(** String conversions with a limit on the source ([libc-top-half/musl/src/multibyte/mbsnrtowcs.c], [wcsnrtombs.c]).

    [mbsnrtowcs] converts with [mbsrtowcs], which knows no limit on the source, as long as four bytes are there for
    every wide character it asks for, and with [mbrtowc] at the end.  Positions and results are as in Multibyte. *)

From S2P Require Import Prelude Multibyte.
Import Multibyte.

(** * The code *)

Definition MB_LEN_MAX : Z := 4.

Section Locale.
Variable utf8 : bool.

(** The loop of [wcsnrtombs], from a wide string on; [dst] is false for a null buffer. *)
Fixpoint wcsnrtombs_loop (dst : bool) (ws : list Z) (wn n cnt : Z) (out : list Z) : outcome wcs :=
  if wn =? 0 then Ok (mk_wcs cnt out (Some ws) false) else
  match ws with
  | [] => UB
  | w :: ws' =>
      match wcrtomb utf8 w with
      | Err _ => Ok (mk_wcs (u32 (-1)) out (Some ws) true)
      | Val bs =>
          if dst && (n <? MB_LEN_MAX) && (n <? zlen bs) then Ok (mk_wcs cnt out (Some ws) false)
          else
            let '(n, out) := if dst then (n - zlen bs, out ++ bs) else (n, out) in
            if w =? 0 then Ok (mk_wcs cnt out None false)
            else wcsnrtombs_loop dst ws' (wn - 1) n (u32 (cnt + zlen bs)) out
      end
  end.
Definition wcsnrtombs (dst : bool) (ws : list Z) (wn n : Z) : outcome wcs :=
  let! r := wcsnrtombs_loop dst ws wn (if dst then n else 0) 0 [] in
  Ok (if dst then r else mk_wcs (w_ret r) [] (Some ws) (w_err r)).

Section Mbsnrtowcs.
Variable mem : list Z.
Variable addr : Z.
(** Whether [st] is a null pointer, in which case the state of [mbrtowc] is its [internal_state]. *)
Variable st_null : bool.
(** Whether [wcs] is not null. *)
Variable wcs_ : bool.

(** What the loops change: [s], [n], [wn], the wide characters stored to [wcs], [cnt], the state and [errno]. *)
Record run := mk_run { r_s : option Z; r_n : Z; r_wn : Z; r_out : list Z; r_cnt : Z; r_st : Z; r_err : bool }.

(** The first loop. *)
Fixpoint whole_loop (fuel : nat) (x : run) : outcome run :=
  match fuel with
  | O => NoFuel
  | S fuel' =>
      match r_s x with
      | None => Ok x
      | Some i =>
          let n2 := r_n x / 4 in
          if ctrue (r_wn x) && ((r_wn x <=? n2) || (32 <? n2)) then
            let n2 := if r_wn x <=? n2 then r_wn x else n2 in
            let! r := mbsrtowcs utf8 (drop (Z.to_nat i) mem) (addr + i) true n2 (if st_null then 0 else r_st x) in
            let st := if st_null then r_st x else s_st r in
            let s := option_map (Z.add i) (s_src r) in
            if u32 (s_ret r + 1) =? 0 then Ok (mk_run s (r_n x) 0 (r_out x ++ s_out r) (s_ret r) st true)
            else
              whole_loop fuel' (mk_run s (match s_src r with Some j => r_n x - j | None => 0 end) (if wcs_ then r_wn x - s_ret r else r_wn x)
                (r_out x ++ s_out r) (u32 (r_cnt x + s_ret r)) st (r_err x))
          else Ok x
      end
  end.

(** The second loop. *)
Fixpoint single_loop (fuel : nat) (x : run) : outcome run :=
  match fuel with
  | O => NoFuel
  | S fuel' =>
      match r_s x with
      | None => Ok x
      | Some i =>
          if ctrue (r_wn x) && ctrue (r_n x) then
            let! r := mbrtowc utf8 (Some (drop (Z.to_nat i) mem)) (r_n x) (r_st x) in
            let out := match wc r with Some w => r_out x ++ [w] | None => r_out x end in
            if u32 (ret r + 2) <=? 2 then
              if u32 (ret r + 1) =? 0 then Ok (mk_run (Some i) (r_n x) (r_wn x) out (ret r) (st r) true)
              else if ret r =? 0 then Ok (mk_run None (r_n x) (r_wn x) out (r_cnt x) (st r) (r_err x))
              else if st_null then UB
              else Ok (mk_run (Some i) (r_n x) (r_wn x) out (r_cnt x) 0 (r_err x))
            else single_loop fuel' (mk_run (Some (i + ret r)) (r_n x - ret r) (r_wn x - 1) out (u32 (r_cnt x + 1)) (st r) (r_err x))
          else Ok x
      end
  end.

(** [sizeof wbuf / sizeof *wbuf] *)
Definition wbuf_len : Z := 256.

(** [st] is the value of the state. *)
Definition mbsnrtowcs (n wn st : Z) : outcome mbs :=
  let! x := whole_loop (S (length mem)) (mk_run (Some 0) n (if wcs_ then wn else wbuf_len) [] 0 st false) in
  let! x := single_loop (S (length mem)) x in
  Ok (mk_mbs (r_cnt x) (if wcs_ then r_out x else []) (if wcs_ then r_s x else Some 0) (r_st x) (r_err x)).
End Mbsnrtowcs.
End Locale.

(** A character of which not all bytes are there, without a state of the caller: the state is rolled back through a
    null pointer. *)
Example partial_null_state : mbsnrtowcs true [97; 226; 130; 172; 0; 7; 7; 7] 0 true true 2 8 0 = UB.
Proof. by vm_compute. Qed.
Example partial_state : mbsnrtowcs true [97; 226; 130; 172; 0; 7; 7; 7] 0 false true 2 8 0 = Ok (mk_mbs 1 [97] (Some 1) 0 false).
Proof. by vm_compute. Qed.
Example counted_131 : mbsnrtowcs true (replicate 140 97 ++ [0; 7; 7; 7]) 0 false false 131 0 0 = Ok (mk_mbs 131 [] (Some 0) 0 false).
Proof. by vm_compute. Qed.

(** * wcsnrtombs *)

Lemma fit_length ws n : zlen (encodes ws) <= n -> fit ws n = length ws.
Proof.
  revert n. induction ws as [|w ws IH]; intros n Hn; [done|]. unfold encodes in *. cbn [map concat fit length] in *. rewrite zlen_app in Hn. pose proof (zlen_nonneg (concat (map encode ws))).
  pose proof (encode_len w). decide_cmp. f_equal. apply IH. lia.
Qed.
Lemma encodes_cons w ws : encodes (w :: ws) = encode w ++ encodes ws.
Proof. done. Qed.
Lemma fit_bound ws m : forall n, 0 <= n -> zlen (encodes (take (Nat.min (fit ws n) m) ws)) <= n.
Proof.
  revert m. induction ws as [|w ws IH]; intros m n Hn; cbn [fit]; [done|]. destruct (Z.ltb_spec n (zlen (encode w))); [done|]. destruct m as [|m]; [done|]. cbn [Nat.min take].
  rewrite encodes_cons, zlen_app. specialize (IH m (n - zlen (encode w)) ltac:(lia)). lia.
Qed.
Lemma encodes_length ws : zlen ws <= zlen (encodes ws) <= 4 * zlen ws.
Proof. induction ws as [|w ws IH]; [done|]. rewrite encodes_cons, zlen_cons, zlen_app. pose proof (encode_len w). lia. Qed.

(** How the loop ends: the wide characters converted and whether the terminator follows them. *)
Lemma wcsnrtombs_store ws : forall wn n cnt out junk, text ws -> 0 <= wn -> 0 <= n -> 0 <= cnt -> cnt + zlen (encodes ws) < 2 ^ 32 ->
  let k := Nat.min (fit ws n) (Z.to_nat wn) in
  let sent := encodes (take k ws) in
  wcsnrtombs_loop true true (ws ++ 0 :: junk) wn n cnt out =
    Ok (if (zlen ws <? wn) && (zlen (encodes ws) <? n) then mk_wcs (cnt + zlen (encodes ws)) (out ++ encodes ws ++ [0]) None false
        else mk_wcs (cnt + zlen sent) (out ++ sent) (Some (drop k ws ++ 0 :: junk)) false).
Proof.
  induction ws as [|w ws IH]; intros wn n cnt out junk Ht Hwn Hn Hc Hb; cbv zeta; cbn [app wcsnrtombs_loop].
  - cbn [fit Nat.min take drop]. change (encodes []) with (@nil Z). change (zlen (@nil Z)) with 0. rewrite app_nil_r, Z.add_0_r. destruct (Z.eqb_spec wn 0) as [-> |]; [done|]. decide_cmp. cbn [andb].
    change (wcrtomb true 0) with (Val (A := list Z) [0]). unfold MB_LEN_MAX. change (zlen [0]) with 1. destruct (Z.ltb_spec n 1); repeat case_cmp; cbn [andb]; try lia; done.
  - apply Forall_cons in Ht as [[Hw H0] Ht]. rewrite zlen_cons, encodes_cons, zlen_app in *. pose proof (zlen_nonneg ws). pose proof (zlen_nonneg (encodes ws)). pose proof (encode_len w). cbn [fit].
    destruct (Z.eqb_spec wn 0) as [-> |].
    { decide_cmp. cbn [andb]. replace (Nat.min _ (Z.to_nat 0)) with O by lia. cbn [take drop]. change (encodes []) with (@nil Z). change (zlen (@nil Z)) with 0. by rewrite app_nil_r, Z.add_0_r. }
    rewrite wcrtomb_scalar by done. unfold MB_LEN_MAX. cbn [andb]. destruct (Z.ltb_spec n (zlen (encode w))) as [Hl|Hl].
    { decide_cmp. cbn [andb]. rewrite andb_false_r. cbn [Nat.min take drop]. change (encodes []) with (@nil Z). change (zlen (@nil Z)) with 0. by rewrite app_nil_r, Z.add_0_r. }
    rewrite andb_false_r. rewrite (proj2 (Z.eqb_neq w 0)) by done. rewrite u32_id by (unfold in_u; lia). rewrite IH by (done || lia). cbv zeta.
    replace (Nat.min (S (fit ws (n - zlen (encode w)))) (Z.to_nat wn)) with (S (Nat.min (fit ws (n - zlen (encode w))) (Z.to_nat (wn - 1)))) by lia.
    cbn [take drop]. rewrite encodes_cons, zlen_app. replace (1 + zlen ws <? wn) with (zlen ws <? wn - 1) by (repeat case_cmp; lia). replace (zlen (encode w) + zlen (encodes ws) <? n) with (zlen (encodes ws) <? n - zlen (encode w)) by (repeat case_cmp; lia).
    destruct (_ && _); do 2 f_equal; try lia; by rewrite <- !app_assoc.
Qed.

Lemma wcsnrtombs_length ws : forall wn cnt junk, text ws -> 0 <= wn -> 0 <= cnt -> cnt + zlen (encodes ws) < 2 ^ 32 ->
  exists src, wcsnrtombs_loop true false (ws ++ 0 :: junk) wn 0 cnt [] = Ok (mk_wcs (cnt + zlen (encodes (take (Z.to_nat wn) ws))) [] src false).
Proof.
  induction ws as [|w ws IH]; intros wn cnt junk Ht Hwn Hc Hb; cbn [app wcsnrtombs_loop].
  - rewrite take_nil. change (zlen (encodes [])) with 0. rewrite Z.add_0_r. destruct (wn =? 0); by eexists.
  - apply Forall_cons in Ht as [[Hw H0] Ht]. rewrite encodes_cons, zlen_app in *. pose proof (zlen_nonneg (encodes ws)). pose proof (encode_len w).
    destruct (Z.eqb_spec wn 0) as [-> |]; [eexists; cbn [Z.to_nat take]; change (zlen (encodes (take 0 (w :: ws)))) with 0; by rewrite Z.add_0_r|].
    rewrite wcrtomb_scalar by done. cbn [andb]. rewrite (proj2 (Z.eqb_neq w 0)) by done. rewrite u32_id by (unfold in_u; lia). destruct (IH (wn - 1) (cnt + zlen (encode w)) junk) as (src & ->); [done|lia..|].
    exists src. replace (Z.to_nat wn) with (S (Z.to_nat (wn - 1))) by lia. cbn [take]. rewrite encodes_cons, zlen_app. do 2 f_equal. lia.
Qed.

(** * mbrtowc on a character of a text *)

Lemma mbrtowc_loop_more s : forall N n c d r, 0 < n -> 0 <= d -> mbrtowc_loop s N n c = Ok r -> ret r <> u32 (-2) -> mbrtowc_loop s (N + d) (n + d) c = Ok r.
Proof.
  induction s as [|b s IH]; intros N n c d r Hn Hd; cbn [mbrtowc_loop]; [done|]. destruct (high (shift_in c b)); cbn [negb]; [|intros H _; rewrite <- H; do 2 f_equal; lia].
  unfold ctrue. destruct (Z.eqb_spec (n - 1) 0); cbn [negb]; [intros [= <-]; done|]. rewrite (proj2 (Z.eqb_neq (n + d - 1) 0)) by lia. cbn [negb].
  destruct s as [|b' s]; [done|]. destruct (not_cont b'); [done|]. intros H Hr. replace (n + d - 1) with (n - 1 + d) by lia. by apply IH; [lia|..].
Qed.

Lemma mbrtowc_cont_more s N n c d r : 0 <= n -> 0 <= d -> mbrtowc_cont s N n c = Ok r -> ret r <> u32 (-2) -> mbrtowc_cont s (N + d) (n + d) c = Ok r.
Proof.
  intros Hn Hd. unfold mbrtowc_cont, ctrue. destruct (Z.eqb_spec n 0); cbn [negb]; [intros [= <-]; done|]. rewrite (proj2 (Z.eqb_neq (n + d) 0)) by lia. cbn [negb].
  destruct (zget s 0) as [b| | |]; cbn [obind]; try done. destruct (OOB c b); [done|]. intros H Hr. by apply mbrtowc_loop_more; [lia|..].
Qed.

(** A longer limit does not change a character that was read whole. *)
Lemma mbrtowc_more s n c d r : 0 <= n -> 0 <= d -> mbrtowc true (Some s) n c = Ok r -> ret r <> u32 (-2) -> mbrtowc true (Some s) (n + d) c = Ok r.
Proof.
  intros Hn Hd. unfold mbrtowc, ctrue. destruct (Z.eqb_spec n 0); cbn [negb]; [intros [= <-]; done|]. rewrite (proj2 (Z.eqb_neq (n + d) 0)) by lia. cbn [negb].
  destruct (c =? 0); cbn [negb]; [|by apply mbrtowc_cont_more]. destruct (zget s 0) as [b| | |]; cbn [obind]; try done. destruct (b <? 128); [by destruct (b =? 0)|]. destruct (SB - SA <? u32 (b - SA)); [done|].
  destruct (zget bittab (b - SA)) as [c'| | |]; cbn [obind]; try done. replace (n + d - 1) with (n - 1 + d) by lia. apply mbrtowc_cont_more; lia.
Qed.

Lemma decode_prefix a : forall p b r w k, decode p (a ++ b) r = Char w k -> r + zlen a < k -> exists q, decode p a r = Partial q.
Proof.
  induction a as [|x a IH]; intros p b r w k; [by eexists|]. cbn [app decode]. destruct (feed p x) as [|v|q]; [done|intros [= <- <-]|]; rewrite zlen_cons; pose proof (zlen_nonneg a); [lia|].
  intros Hd Hk. apply (IH q b (r + 1) w k); [done|lia].
Qed.

Section Text.
Variables mem pad : list Z.
Hypothesis mem_bytes : bytes mem.
Hypothesis pad_len : 3 <= zlen pad.

Lemma offset_length i ws : at_offset mem pad i ws -> i + zlen (encodes ws) + 1 + zlen pad = zlen mem.
Proof. intros [Hi Hd]. apply (f_equal zlen) in Hd. rewrite zlen_app, zlen_cons in Hd. pose proof (zlen_nonneg (encodes ws)). unfold zlen in *. rewrite length_drop in Hd. lia. Qed.

Lemma mbrtowc_char i w ws n : at_offset mem pad i (w :: ws) -> scalar w -> w <> 0 -> zlen (encode w) <= n ->
  mbrtowc true (Some (drop (Z.to_nat i) mem)) n 0 = Ok (mk_mb (zlen (encode w)) 0 (Some w) false).
Proof.
  intros Hat Hw H0 Hn. pose proof (encode_len w). destruct Hat as [Hi Hd]. assert (drop (Z.to_nat i) mem = encode w ++ encodes ws ++ 0 :: pad) as E by (by rewrite Hd, encodes_cons, <- app_assoc).
  replace n with (zlen (encode w) + (n - zlen (encode w))) by lia. apply mbrtowc_more; [lia|lia| |cbn [ret]; change (u32 (-2)) with 4294967294; lia].
  pose proof (mbrtowc_decode (drop (Z.to_nat i) mem) Start (zlen (encode w)) (Forall_drop _ _ _ mem_bytes) I) as H'. rewrite E in *. rewrite zlen_app in H'. pose proof (zlen_nonneg (encodes ws ++ 0 :: pad)).
  cbn [word] in H'. rewrite H' by lia. replace (Z.to_nat (zlen (encode w))) with (length (encode w)) by (unfold zlen; lia). rewrite take_app_length. rewrite <- (app_nil_r (encode w)) at 1. rewrite decode_encode by done. cbn [result]. by rewrite (proj2 (Z.eqb_neq w 0)) by done.
Qed.

Lemma mbrtowc_part i w ws n : at_offset mem pad i (w :: ws) -> scalar w -> 0 < n < zlen (encode w) -> exists q, mbrtowc true (Some (drop (Z.to_nat i) mem)) n 0 = Ok (mk_mb (u32 (-2)) q None false).
Proof.
  intros [Hi Hd] Hw Hn. assert (drop (Z.to_nat i) mem = encode w ++ encodes ws ++ 0 :: pad) as E by (by rewrite Hd, encodes_cons, <- app_assoc).
  pose proof (mbrtowc_decode (drop (Z.to_nat i) mem) Start n (Forall_drop _ _ _ mem_bytes) I) as H'. rewrite E in *. rewrite zlen_app in H'. pose proof (zlen_nonneg (encodes ws ++ 0 :: pad)). cbn [word] in H'. rewrite H' by lia.
  rewrite take_app_le by (unfold zlen in *; lia). pose proof (decode_encode w [] 0 Hw) as Hc. rewrite app_nil_r in Hc. rewrite <- (take_drop (Z.to_nat n) (encode w)) in Hc at 1.
  apply decode_prefix in Hc as (q & ->); [|unfold zlen in *; rewrite length_take; lia]. by eexists.
Qed.

Lemma mbrtowc_end i n : at_offset mem pad i [] -> 0 < n -> mbrtowc true (Some (drop (Z.to_nat i) mem)) n 0 = Ok (mk_mb 0 0 (Some 0) false).
Proof. intros [Hi ->] Hn. unfold mbrtowc, ctrue at 1. by rewrite (proj2 (Z.eqb_neq n 0)) by lia. Qed.

(** * The loops of mbsnrtowcs *)

Variables (addr : Z) (wcs_ : bool).

(** What is left to do for the string [ws] at [i]: the position, the wide characters stored and their number. *)
Definition expected (i n wn : Z) (ws out : list Z) (cnt : Z) : option Z * list Z * Z :=
  if (negb wcs_ || (zlen ws <? wn)) && (zlen (encodes ws) <? n) then (None, out ++ ws ++ [0], cnt + zlen ws)
  else
    let k := if wcs_ then Nat.min (fit ws n) (Z.to_nat wn) else fit ws n in
    (Some (i + zlen (encodes (take k ws))), out ++ take k ws, cnt + Z.of_nat k).

Lemma expected_step i n wn w ws out cnt : zlen (encode w) <= n -> 0 < wn ->
  expected i n wn (w :: ws) out cnt = expected (i + zlen (encode w)) (n - zlen (encode w)) (if wcs_ then wn - 1 else wn) ws (out ++ [w]) (cnt + 1).
Proof.
  intros Hn Hwn. unfold expected. rewrite encodes_cons, zlen_app, zlen_cons. cbn [fit]. rewrite (proj2 (Z.ltb_ge n _)) by lia.
  assert ((negb wcs_ || (1 + zlen ws <? wn)) && (zlen (encode w) + zlen (encodes ws) <? n) = (negb wcs_ || (zlen ws <? (if wcs_ then wn - 1 else wn))) && (zlen (encodes ws) <? n - zlen (encode w))) as ->.
  { f_equal; [destruct wcs_; [|done]; cbn [negb orb]|]; repeat case_cmp; lia. }
  destruct ((negb wcs_ || (zlen ws <? (if wcs_ then wn - 1 else wn))) && (zlen (encodes ws) <? n - zlen (encode w))).
  - rewrite <- app_assoc. cbn [app]. f_equal. lia.
  - destruct wcs_.
    + replace (Nat.min (S (fit ws (n - zlen (encode w)))) (Z.to_nat wn)) with (S (Nat.min (fit ws (n - zlen (encode w))) (Z.to_nat (wn - 1)))) by lia.
      cbn [take]. rewrite encodes_cons, zlen_app, <- app_assoc. cbn [app]. f_equal; [f_equal; f_equal; lia|lia].
    + cbn [take]. rewrite encodes_cons, zlen_app, <- app_assoc. cbn [app]. f_equal; [f_equal; f_equal; lia|lia].
Qed.

Lemma expected_steps k : forall i n wn ws out cnt, (k <= length ws)%nat -> zlen (encodes (take k ws)) <= n -> Z.of_nat k <= wn ->
  expected i n wn ws out cnt =
    expected (i + zlen (encodes (take k ws))) (n - zlen (encodes (take k ws))) (if wcs_ then wn - Z.of_nat k else wn) (drop k ws) (out ++ take k ws) (cnt + Z.of_nat k).
Proof.
  induction k as [|k IH]; intros i n wn ws out cnt Hk Hn Hwn.
  - cbn [take drop]. change (zlen (encodes [])) with 0. rewrite skipn_O, app_nil_r, !Z.add_0_r, !Z.sub_0_r. by destruct wcs_.
  - destruct ws as [|w ws]; [cbn in Hk; lia|]. cbn [take drop length] in *. rewrite encodes_cons, zlen_app in *. pose proof (zlen_nonneg (encodes (take k ws))).
    rewrite expected_step, IH by (lia || (destruct wcs_; lia)). rewrite <- app_assoc. cbn [app].
    replace (i + zlen (encode w) + zlen (encodes (take k ws))) with (i + (zlen (encode w) + zlen (encodes (take k ws)))) by lia.
    replace (n - zlen (encode w) - zlen (encodes (take k ws))) with (n - (zlen (encode w) + zlen (encodes (take k ws)))) by lia. replace (cnt + 1 + Z.of_nat k) with (cnt + Z.of_nat (S k)) by lia.
    f_equal. destruct wcs_; lia.
Qed.

Lemma at_steps i k ws : at_offset mem pad i ws -> (k <= length ws)%nat -> at_offset mem pad (i + zlen (encodes (take k ws))) (drop k ws).
Proof.
  revert i ws. induction k as [|k IH]; intros i ws Hat Hk; [cbn [take drop]; change (zlen (encodes [])) with 0; by rewrite skipn_O, Z.add_0_r|].
  destruct ws as [|w ws]; [cbn in Hk; lia|]. cbn [take drop length] in *. rewrite encodes_cons, zlen_app, Z.add_assoc. apply IH; [by apply at_step|lia].
Qed.
Lemma text_drop k ws : text ws -> text (drop k ws).
Proof. apply Forall_drop. Qed.

(** [mbsrtowcs] from a position on. *)
Lemma mbsrtowcs_at i ws n2 : at_offset mem pad i ws -> text ws -> 0 <= n2 < 2 ^ 32 -> mbsrtowcs true (drop (Z.to_nat i) mem) (addr + i) true n2 0 =
  Ok (if zlen ws <? n2 then mk_mbs (zlen ws) (ws ++ [0]) None 0 false else mk_mbs n2 (take (Z.to_nat n2) ws) (Some (zlen (encodes (take (Z.to_nat n2) ws)))) 0 false).
Proof.
  intros Hat Ht Hn2. unfold mbsrtowcs. change (ctrue 0) with false. cbn [negb]. assert (at_offset (drop (Z.to_nat i) mem) pad 0 ws) as Hat' by (destruct Hat as [Hi Hd]; split; [lia|]; by rewrite skipn_O).
  rewrite (mbs_store_spec (drop (Z.to_nat i) mem) pad (Forall_drop _ _ _ mem_bytes) pad_len (addr + i) _ 0 n2 n2 [] ws Hat' Ht); [|pose proof (at_length _ _ _ _ Hat'); lia|lia].
  unfold stored. fold (zlen ws). cbn [app]. pose proof (zlen_nonneg ws). destruct (Z.ltb_spec (zlen ws) n2); [|done]. rewrite u32_id by (unfold in_u; lia). do 2 f_equal. lia.
Qed.

Lemma whole_loop_spec st_null : zlen mem < 2 ^ 32 -> forall fuel i n wn ws out cnt, at_offset mem pad i ws -> text ws -> (S (length ws) < fuel)%nat -> 0 <= n -> 0 <= wn < 2 ^ 32 -> 0 <= cnt -> cnt + zlen ws < 2 ^ 32 ->
  exists x, whole_loop true mem addr st_null wcs_ fuel (mk_run (Some i) n wn out cnt 0 false) = Ok x /\ r_st x = 0 /\ r_err x = false /\
    match r_s x with
    | None => (None, r_out x, r_cnt x) = expected i n wn ws out cnt
    | Some i' => exists ws', at_offset mem pad i' ws' /\ text ws' /\ expected i' (r_n x) (r_wn x) ws' (r_out x) (r_cnt x) = expected i n wn ws out cnt /\ 0 <= r_n x /\ 0 <= r_wn x < 2 ^ 32 /\
        0 <= r_cnt x /\ r_cnt x + zlen ws' < 2 ^ 32 /\ (wcs_ = false -> r_wn x = wn /\ (wn = 0 \/ r_n x <= 131))
    end.
Proof.
  intros Hmem. induction fuel as [|fuel IH]; intros i n wn ws out cnt Hat Ht Hf Hn Hwn Hc Hcb; [lia|]. cbn [whole_loop r_s r_n r_wn r_out r_cnt r_st r_err].
  destruct (ctrue wn && ((wn <=? n / 4) || (32 <? n / 4))) eqn:Econd.
  - assert ((if st_null then 0 else 0) = 0) as -> by (by destruct st_null). apply andb_true_iff in Econd as [Ewn Eor]. unfold ctrue in Ewn. apply negb_true_iff, Z.eqb_neq in Ewn.
    set (n2 := if wn <=? n / 4 then wn else n / 4). assert (0 < n2 <= wn /\ n2 <= n / 4 /\ n2 < 2 ^ 32) as (H1 & H2 & H3).
    { unfold n2. destruct (Z.leb_spec wn (n / 4)); cbn [orb] in Eor; [lia|]. apply Z.ltb_lt in Eor. lia. }
    rewrite (mbsrtowcs_at i ws n2) by (done || lia). cbn [obind]. pose proof (zlen_nonneg ws). pose proof (encodes_length ws). assert (4 * n2 <= n) by (Z.div_mod_to_equations; lia).
    destruct (Z.ltb_spec (zlen ws) n2) as [Hl|Hl]; cbn [s_ret s_src s_out s_st option_map].
    + rewrite u32_id by (unfold in_u; lia). rewrite (proj2 (Z.eqb_neq _ 0)) by lia. destruct fuel as [|fuel]; [lia|]. cbn [whole_loop r_s]. eexists. split; [done|]. cbn [r_s r_n r_wn r_out r_cnt r_st r_err].
      split; [by destruct st_null|]. split; [done|]. unfold expected. rewrite !(proj2 (Z.ltb_lt _ _)), orb_true_r by lia. cbn [andb]. by rewrite u32_id by (unfold in_u; lia).
    + assert ((Z.to_nat n2 <= length ws)%nat) as Hk by (unfold zlen in *; lia). pose proof (encodes_length (take (Z.to_nat n2) ws)) as He. assert (zlen (take (Z.to_nat n2) ws) = n2) as Hz by (unfold zlen in *; rewrite length_take; lia). rewrite Hz in He.
      rewrite (u32_id (n2 + 1)) by (unfold in_u; pose proof (offset_length i ws Hat); destruct Hat; lia). rewrite (proj2 (Z.eqb_neq _ 0)) by lia. rewrite (u32_id (cnt + n2)) by (unfold in_u; lia).
      rewrite (expected_steps (Z.to_nat n2) i n wn ws out cnt) by lia. rewrite !Z2Nat.id by lia. replace (if st_null then 0 else 0) with 0 by (by destruct st_null).
      assert (zlen (drop (Z.to_nat n2) ws) = zlen ws - n2) as Hd by (unfold zlen in *; rewrite length_drop; lia).
      destruct (IH (i + zlen (encodes (take (Z.to_nat n2) ws))) (n - zlen (encodes (take (Z.to_nat n2) ws))) (if wcs_ then wn - n2 else wn) (drop (Z.to_nat n2) ws) (out ++ take (Z.to_nat n2) ws) (cnt + n2)) as (x & Ex & Hst & Herr & Hx);
        [by apply at_steps|by apply text_drop|rewrite length_drop; lia|lia|destruct wcs_; lia|lia|lia|]. exists x. split; [done|]. split; [done|]. split; [done|].
      destruct (r_s x); [|done]. destruct Hx as (ws' & A1 & A2 & A3 & A4 & A5 & A6 & A7 & A8). exists ws'. split_and!; try done; try lia. intros E. specialize (A8 E). by rewrite E in A8.
  - eexists. split; [done|]. cbn [r_s r_n r_wn r_out r_cnt r_st r_err]. split; [done|]. split; [done|]. exists ws. split_and!; try done; try lia. intros _. split; [done|].
    unfold ctrue in Econd. destruct (Z.eqb_spec wn 0); [by left|]. right. cbn [negb andb] in Econd. apply orb_false_iff in Econd as [_ E%Z.ltb_ge]. Z.div_mod_to_equations; lia.
Qed.

Lemma single_loop_spec : zlen mem < 2 ^ 32 -> forall fuel i n wn ws out cnt, at_offset mem pad i ws -> text ws -> (length ws < fuel)%nat -> 0 <= n -> 0 <= wn < 2 ^ 32 -> 0 <= cnt -> cnt + zlen ws < 2 ^ 32 -> (wcs_ = false -> n < wn) ->
  exists x, single_loop true mem false fuel (mk_run (Some i) n wn out cnt 0 false) = Ok x /\ r_st x = 0 /\ r_err x = false /\ (r_s x, r_out x, r_cnt x) = expected i n wn ws out cnt.
Proof.
  intros Hmem. induction fuel as [|fuel IH]; intros i n wn ws out cnt Hat Ht Hf Hn Hwn Hc Hcb Hlim; [lia|]. cbn [single_loop r_s r_n r_wn r_out r_cnt r_st r_err].
  assert (wn = 0 \/ n = 0 \/ (exists w ws', ws = w :: ws' /\ n < zlen (encode w)) -> expected i n wn ws out cnt = (Some i, out, cnt)) as Hstop.
  { intros H. unfold expected. pose proof (zlen_nonneg ws). pose proof (zlen_nonneg (encodes ws)).
    assert ((negb wcs_ || (zlen ws <? wn)) && (zlen (encodes ws) <? n) = false /\ (if wcs_ then Nat.min (fit ws n) (Z.to_nat wn) else fit ws n) = O) as [-> ->].
    { destruct H as [-> |[-> |(w & ws' & -> & Hl)]].
      - destruct wcs_; [|specialize (Hlim eq_refl); lia]. rewrite (proj2 (Z.ltb_ge _ 0)) by lia. split; [done|lia].
      - rewrite (proj2 (Z.ltb_ge _ 0)), andb_false_r by lia. split; [done|]. assert (fit ws 0 = O) as -> by (destruct ws as [|w ws]; [done|]; cbn [fit]; pose proof (encode_len w); by rewrite (proj2 (Z.ltb_lt _ _)) by lia). by destruct wcs_.
      - rewrite encodes_cons, zlen_app. pose proof (zlen_nonneg (encodes ws')). rewrite (proj2 (Z.ltb_ge _ n)), andb_false_r by lia. cbn [fit]. rewrite (proj2 (Z.ltb_lt _ _)) by lia. split; [done|]. by destruct wcs_. }
    cbn [take]. change (zlen (encodes [])) with 0. by rewrite app_nil_r, !Z.add_0_r. }
  unfold ctrue. destruct (Z.eqb_spec wn 0) as [E|E]; [rewrite Hstop by (by left); by eexists|]. destruct (Z.eqb_spec n 0) as [E'|E']; [rewrite Hstop by (right; by left); by eexists|]. cbn [negb andb].
  destruct ws as [|w ws].
  - rewrite (mbrtowc_end i n) by (done || lia). cbn [obind ret wc st]. eexists. split; [done|]. cbn [r_s r_out r_cnt r_st r_err]. split_and!; try done. unfold expected. change (zlen (encodes [])) with 0. change (zlen (@nil Z)) with 0. rewrite !(proj2 (Z.ltb_lt 0 _)), orb_true_r by lia. cbn [andb app]. by rewrite Z.add_0_r.
  - apply Forall_cons in Ht as [[Hw H0] Ht]. pose proof (encode_len w). rewrite zlen_cons in Hcb. pose proof (zlen_nonneg ws). cbn [length] in Hf. destruct (Z_lt_le_dec n (zlen (encode w))) as [Hl|Hl].
    + destruct (mbrtowc_part i w ws n Hat Hw ltac:(lia)) as (q & ->). cbn [obind ret wc st]. rewrite Hstop by (right; right; by eexists _, _). by eexists.
    + rewrite (mbrtowc_char i w ws n) by done. cbn [obind ret wc st]. rewrite (u32_id (zlen (encode w) + 2)) by (unfold in_u; lia). rewrite (proj2 (Z.leb_gt _ 2)) by lia. rewrite (u32_id (cnt + 1)) by (unfold in_u; lia).
      rewrite expected_step by lia. destruct (IH (i + zlen (encode w)) (n - zlen (encode w)) (wn - 1) ws (out ++ [w]) (cnt + 1)) as (x & Ex & Hx1 & Hx2 & Hx3); [by apply at_step|done|lia|lia|lia|lia|lia|intros Hwc; specialize (Hlim Hwc); lia|].
      exists x. split_and!; try done. rewrite Hx3. destruct wcs_ eqn:Ewc; [done|]. unfold expected. by rewrite Ewc.
Qed.

(** Both loops, with the fuel [mbsnrtowcs] takes. *)
Lemma loops_spec n wn ws : zlen mem < 2 ^ 32 -> at_offset mem pad 0 ws -> text ws -> 0 <= n -> 0 <= wn < 2 ^ 32 ->
  mbsnrtowcs true mem addr false wcs_ n wn 0 =
    (let '(s, out, cnt) := expected 0 n (if wcs_ then wn else wbuf_len) ws [] 0 in
     Ok (mk_mbs cnt (if wcs_ then out else []) (if wcs_ then s else Some 0) 0 false)).
Proof.
  intros Hmem Hat Ht Hn Hwn. pose proof (offset_length 0 ws Hat) as Hlen. pose proof (encodes_length ws). pose proof (zlen_nonneg ws). unfold mbsnrtowcs.
  destruct (whole_loop_spec false Hmem (S (length mem)) 0 n (if wcs_ then wn else wbuf_len) ws [] 0) as (x & -> & Hst & Herr & Hx); [done|done|unfold zlen in *; lia|lia|unfold wbuf_len; destruct wcs_; lia|lia|lia|].
  cbn [obind]. destruct (r_s x) as [i|] eqn:Es.
  - destruct Hx as (ws' & Hat' & Ht' & <- & Hn' & Hwn' & Hc' & Hcb' & Hlim). pose proof (offset_length i ws' Hat'). pose proof (encodes_length ws'). assert (0 <= i) by (by destruct Hat').
    destruct x as [s n' wn' out cnt st err]. cbn [r_s r_n r_wn r_out r_cnt r_st r_err] in *. subst s st err.
    destruct (single_loop_spec Hmem (S (length mem)) i n' wn' ws' out cnt) as (y & -> & Hst & Herr & <-); [done|done|unfold zlen in *; lia|lia|lia|lia|lia|intros E; destruct (Hlim E) as [-> Hl]; rewrite E in *; unfold wbuf_len in *; lia|].
    cbn [obind]. by rewrite Hst, Herr.
  - rewrite <- Hx. cbn [single_loop]. rewrite Es. cbn [obind]. by rewrite Hst, Herr, Es.
Qed.
End Text.

(** * Theorems *)

(** C40: [mbsnrtowcs] with a limit on both sides: it converts the characters that lie whole within the first [n] bytes, as
    many as [wn] allows, stores the terminator when it lies within both limits and sets [*src] to null then, and to the
    end of the last converted character otherwise, with the state rolled back to the initial one.  Without a buffer it
    returns the number of the characters within the first [n] bytes, whatever [wn] is, and leaves [*src]. *)
Theorem mbsnrtowcs_correct ws addr wn n pad :
  text ws -> bytes pad -> 3 <= zlen pad -> zlen (encodes ws ++ 0 :: pad) < 2 ^ 32 -> 0 <= n < 2 ^ 32 -> 0 <= wn < 2 ^ 32 ->
  let mem := encodes ws ++ 0 :: pad in
  let k := Nat.min (fit ws n) (Z.to_nat wn) in
  mbsnrtowcs true mem addr false true n wn 0 = Ok
    (if (zlen ws <? wn) && (zlen (encodes ws) <? n) then mk_mbs (zlen ws) (ws ++ [0]) None 0 false
     else mk_mbs (Z.of_nat k) (take k ws) (Some (zlen (encodes (take k ws)))) 0 false) /\
  mbsnrtowcs true mem addr false false n wn 0 = Ok (mk_mbs (Z.of_nat (fit ws n)) [] (Some 0) 0 false).
Proof.
  intros Ht Hpad Hplen Hmem Hn Hwn mem k. assert (bytes mem) as Hb by (apply Forall_app; split; [by apply encodes_bytes|by constructor]).
  assert (at_offset mem pad 0 ws) as Hat by (split; [lia|done]). rewrite !(loops_spec mem pad Hb Hplen addr _ n wn ws Hmem Hat Ht) by lia. unfold expected. cbn [negb orb app]. rewrite !Z.add_0_l. split.
  - by destruct ((zlen ws <? wn) && (zlen (encodes ws) <? n)).
  - cbn [andb]. destruct (Z.ltb_spec (zlen (encodes ws)) n); [|done]. rewrite fit_length by lia. done.
Qed.

Lemma mbsnrtowcs_correct_witness :
  mbsnrtowcs true [97; 226; 130; 172; 98; 0; 1; 2; 3] 1 false true 3 9 0 = Ok (mk_mbs 1 [97] (Some 1) 0 false) /\
  mbsnrtowcs true [97; 226; 130; 172; 98; 0; 1; 2; 3] 1 false false 3 9 0 = Ok (mk_mbs 1 [] (Some 0) 0 false).
Proof. apply (mbsnrtowcs_correct [97; 8364; 98] 1 9 3 [1; 2; 3]); try lia; try done; repeat constructor; try done; try (right; lia); left; lia. Defined.

(** [wcsnrtombs] writes the encodings of the wide characters that fit whole into [n] bytes, at most [wn] of them, and
    the terminator when it fits too, which the count it returns leaves out; without a buffer it returns the length of the
    encodings of the first [wn] wide characters. *)
Theorem wcsnrtombs_correct ws junk wn n : text ws -> zlen (encodes ws) < 2 ^ 32 -> 0 <= wn -> 0 <= n ->
  let k := Nat.min (fit ws n) (Z.to_nat wn) in
  wcsnrtombs true true (ws ++ 0 :: junk) wn n = Ok
    (if (zlen ws <? wn) && (zlen (encodes ws) <? n) then mk_wcs (zlen (encodes ws)) (encodes ws ++ [0]) None false
     else mk_wcs (zlen (encodes (take k ws))) (encodes (take k ws)) (Some (drop k ws ++ 0 :: junk)) false) /\
  wcsnrtombs true false (ws ++ 0 :: junk) wn n = Ok (mk_wcs (zlen (encodes (take (Z.to_nat wn) ws))) [] (Some (ws ++ 0 :: junk)) false) /\
  zlen (encodes (take k ws)) <= n.
Proof.
  intros Ht Hb Hwn Hn k. unfold wcsnrtombs. split_and!.
  - rewrite (wcsnrtombs_store ws wn n 0 [] junk) by (done || lia). by cbn [obind app].
  - destruct (wcsnrtombs_length ws wn 0 junk) as (src & ->); [done|lia..|]. by cbn [obind w_ret w_err].
  - by apply fit_bound.
Qed.

Lemma wcsnrtombs_correct_witness :
  wcsnrtombs true true [97; 8364; 98; 0; 7] 9 3 = Ok (mk_wcs 1 [97] (Some [8364; 98; 0; 7]) false) /\
  wcsnrtombs true false [97; 8364; 98; 0; 7] 2 3 = Ok (mk_wcs 4 [] (Some [97; 8364; 98; 0; 7]) false).
Proof.
  assert (text [97; 8364; 98]) as Ht by (repeat constructor; try done; left; lia).
  split; [apply (wcsnrtombs_correct [97; 8364; 98] [7] 9 3)|apply (wcsnrtombs_correct [97; 8364; 98] [7] 2 3)]; done || lia.
Defined.
