(* ===== verification/Asctime.v ===== *)
(** The text of a date ([libc-top-half/musl/src/time/]: asctime_r.c, asctime.c, ctime_r.c, ctime.c).

    [asctime] composes three components: [snprintf] of Printf, the names of langinfo.c of Strftime, and the broken-down time of
    Calendar. *)

From Stdlib Require Import Ascii String.
From S2P Require Import Prelude Memory Strings StringsScan StringsType StringsSpec Calendar Intscan IntscanSpec Printf PrintfSpec Inet InetSpec InetText Casecmp Strftime StrftimeSpec.
Import Calendar.

(** * The code *)

Section Asctime.
(** [utf8], [strerror] and [junk] as in Printf; [name] is the address of the string of langinfo.c that [__nl_langinfo_l] returns. *)
Context (utf8 : bool) (strerror : Z -> list Z) (junk : Z) (name : Z -> Z).

Definition asctime_format : list Z := lit "%.3s %.3s%3d %.2d:%.2d:%.2d %d" ++ [10].

(** The [int] additions are computed before the call; [a_crash] traps. *)
Definition __asctime_r (t : tm) (buf : Z) : M (list Z * Z) Z := fun st =>
  let! wday := int_ (ABDAY_1 + tm_wday t) in
  let! mon := int_ (ABMON_1 + tm_mon t) in
  let! year := int_ (1900 + tm_year t) in
  let! (l, st) := vsnprintf utf8 strerror junk buf 26 asctime_format
    [W32 (name wday); W32 (name mon); W32 (tm_mday t); W32 (tm_hour t); W32 (tm_min t); W32 (tm_sec t); W32 year] st in
  if 26 <=? l then Trap else Ok (buf, st).

(** [static_buf] is the address of the static array. *)
Definition asctime (static_buf : Z) (t : tm) : M (list Z * Z) Z := __asctime_r t static_buf.

(** [tm0] is the structure that [localtime_r] fills: the local one of [ctime_r], the static one of [localtime]. *)
Definition ctime_r (tm0 : tm) (t buf : Z) : M (list Z * Z) Z := fun st =>
  let! r := localtime_r t tm0 in
  match r with Val new => __asctime_r new buf st | Err e => Ok (NULL, (fst st, e)) end.
Definition ctime (static_buf : Z) (tm0 : tm) (t : Z) : M (list Z * Z) Z := fun st =>
  let! r := localtime_r t tm0 in
  match r with Val new => asctime static_buf new st | Err e => Ok (NULL, (fst st, e)) end.
End Asctime.

(** * The text *)

(** The fields have the values of a calendar date; a minute may have 61 seconds. *)
Definition date_fields (t : tm) : Prop :=
  0 <= tm_wday t <= 6 /\ 0 <= tm_mon t <= 11 /\ 1 <= tm_mday t <= 31 /\ 0 <= tm_hour t <= 23 /\ 0 <= tm_min t <= 59 /\ 0 <= tm_sec t <= 60.

Definition asctime_pieces : list tpiece :=
  [conv_of (ch "a"); TChar 32; conv_of (ch "b"); TChar 32; conv_of (ch "e"); TChar 32; conv_of (ch "T"); TChar 32; TConv (ch "-") 0 (ch "Y"); TChar 10].

(** The pieces of the format for a time. *)
Definition two (v : Z) : piece := Conv [] WNone (PNum 2) (CInt Lnone (ch "d") v).
Definition name_piece (a : Z) (text : list Z) : piece := Conv [] WNone (PNum 3) (CStr a text).
Definition pieces_of (name : Z -> Z) (t : tm) : list piece :=
  [name_piece (name (ABDAY_1 + tm_wday t)) (__nl_langinfo_l (ABDAY_1 + tm_wday t)); Char 32;
   name_piece (name (ABMON_1 + tm_mon t)) (__nl_langinfo_l (ABMON_1 + tm_mon t)); Conv [] (WNum 3) PNone (CInt Lnone (ch "d") (tm_mday t)); Char 32;
   two (tm_hour t); Char 58; two (tm_min t); Char 58; two (tm_sec t); Char 32; D (1900 + tm_year t); Char 10].

Lemma pieces_render name t : render_all (pieces_of name t) = asctime_format.
Proof. done. Qed.

(** Two functions are compared on the numbers below a bound. *)
Lemma equal_below (f g : Z -> list Z) n : forallb (fun v => bool_decide (f v = g v)) (seqZ 0 n) = true -> forall v, 0 <= v < n -> f v = g v.
Proof. intros H v Hv. apply (forall_below _ n H) in Hv. by apply bool_decide_eq_true in Hv. Qed.

Lemma meaning_two err v : 0 <= v <= 60 -> meaning err (two v) = num_text (ch "0") 2 v.
Proof. intros Hv. by apply (equal_below (fun v => meaning [] (two v)) (num_text (ch "0") 2) 61); [vm_compute|lia]. Qed.

Lemma meaning_mday err v : 1 <= v <= 31 -> meaning err (Conv [] (WNum 3) PNone (CInt Lnone (ch "d") v)) = 32 :: num_text (ch "_") 2 v.
Proof. intros Hv. by apply (equal_below (fun v => meaning [] (Conv [] (WNum 3) PNone (CInt Lnone (ch "d") v))) (fun v => 32 :: num_text (ch "_") 2 v) 32); [vm_compute|lia]. Qed.

Lemma meaning_wday err a v : 0 <= v <= 6 -> meaning err (name_piece a (__nl_langinfo_l (ABDAY_1 + v))) = name_of short_days v.
Proof. intros Hv. by apply (equal_below (fun v => meaning [] (name_piece 0 (__nl_langinfo_l (ABDAY_1 + v)))) (name_of short_days) 7); [vm_compute|lia]. Qed.

Lemma meaning_mon err a v : 0 <= v <= 11 -> meaning err (name_piece a (__nl_langinfo_l (ABMON_1 + v))) = name_of short_months v.
Proof. intros Hv. by apply (equal_below (fun v => meaning [] (name_piece 0 (__nl_langinfo_l (ABMON_1 + v)))) (name_of short_months) 12); [vm_compute|lia]. Qed.

Lemma meaning_int err v : in_s 32 v -> meaning err (D v) = num_text (ch "-") 0 v.
Proof.
  intros Hv. rewrite num_text_no_field. unfold D, meaning. replace (value_of Lnone (ch "d") v) with v by (symmetry; by apply s32_id).
  unfold int_prefix. change (is_signed (ch "d")) with true. cbn [flag existsb at_left andb orb field limit]. rewrite justify_no_field; [|pose proof (zlen_nonneg (if v <? 0 then [ch "-"] else [])); match goal with |- 0 <= _ + zlen ?l => pose proof (zlen_nonneg l) end; lia].
  f_equal. unfold int_digits. cbn [andb]. apply decimal_as_digits. lia.
Qed.

(** The text, the year being without a field. *)
Definition asctime_text (t : tm) : list Z :=
  name_of short_days (tm_wday t) ++ 32 :: name_of short_months (tm_mon t) ++ 32 :: num_text (ch "_") 2 (tm_mday t) ++ 32 :: num_text (ch "0") 2 (tm_hour t) ++ 58 ::
  num_text (ch "0") 2 (tm_min t) ++ 58 :: num_text (ch "0") 2 (tm_sec t) ++ 32 :: num_text (ch "-") 0 (1900 + tm_year t) ++ [10].

Lemma pieces_meaning err name t : date_fields t -> in_s 32 (1900 + tm_year t) -> meaning_all err (pieces_of name t) = asctime_text t.
Proof.
  intros (H1 & H2 & H3 & H4 & H5 & H6) Hy. unfold meaning_all, pieces_of. cbn [map concat]. rewrite meaning_wday, meaning_mon, meaning_mday, !meaning_two, meaning_int by (done || lia). cbn [meaning app].
  unfold asctime_text. by rewrite <- ?app_assoc.
Qed.

Lemma two_length pad v : 0 <= v <= 60 -> pad = ch "0" \/ pad = ch "_" -> zlen (num_text pad 2 v) = 2.
Proof.
  intros Hv Hp. unfold num_text. rewrite zlen_justify. rewrite (proj2 (Z.ltb_ge v 0)) by lia. change (zlen (@nil Z)) with 0. pose proof (decimal_length (Z.abs v) 2 ltac:(lia) ltac:(lia)).
  destruct Hp as [-> | ->]; cbn [Z.eqb Pos.eqb]; lia.
Qed.

Lemma name_length (l : list string) v : forallb (fun x => zlen (lit x) =? 3) l = true -> 0 <= v < zlen l -> zlen (name_of l v) = 3.
Proof.
  intros Hl Hv. unfold name_of. rewrite (proj2 (Z.ltb_ge v 0)) by lia. rewrite forallb_forall in Hl. apply Z.eqb_eq, Hl, nth_In. unfold zlen in Hv. lia.
Qed.

Lemma asctime_text_length t : date_fields t -> zlen (asctime_text t) = 21 + zlen (num_text (ch "-") 0 (1900 + tm_year t)).
Proof.
  intros (H1 & H2 & H3 & H4 & H5 & H6). unfold asctime_text. repeat (rewrite zlen_app || rewrite zlen_cons). rewrite !two_length by (lia || by (left; done) || by (right; done)).
  rewrite !name_length by (done || (change (zlen short_days) with 7; lia) || (change (zlen short_months) with 12; lia)). change (zlen (@nil Z)) with 0. lia.
Qed.

Lemma decimal_above x n : 10 ^ n <= x -> 0 <= n -> n < zlen (decimal x).
Proof.
  intros Hx Hn. assert (0 < 10 ^ n) by lia. unfold decimal, numeral_text. rewrite (proj2 (Z.eqb_neq x 0)) by lia. unfold zlen at 1. rewrite length_map. fold (zlen (digits 10 x)).
  assert (x < 10 ^ zlen (digits 10 x)) as Hl.
  { clear - Hx H. assert (0 <= x) as H0 by lia. clear Hx H. revert x H0. apply (digits_ind 10 (fun x ds => x < 10 ^ zlen ds)); [lia|done|]. intros x Hx _ IH. rewrite zlen_app. change (zlen [x mod 10]) with 1.
    rewrite Z.pow_add_r by (pose proof (zlen_nonneg (digits 10 (x / 10))); lia). Z.div_mod_to_equations; lia. }
  apply (Z.pow_lt_mono_r_iff 10); [lia|apply zlen_nonneg|lia].
Qed.

(** Four characters are enough for these years only. *)
Lemma year_length y : in_s 32 y -> if (-999 <=? y) && (y <=? 9999) then 1 <= zlen (num_text (ch "-") 0 y) <= 4 else 4 < zlen (num_text (ch "-") 0 y) <= 11.
Proof.
  unfold in_s. intros Hy. rewrite num_text_no_field, zlen_app. pose proof (decimal_length (Z.abs y) 10 ltac:(lia) ltac:(lia)).
  destruct (Z.leb_spec (-999) y), (Z.leb_spec y 9999); cbn [andb]; destruct (Z.ltb_spec y 0); try lia; [change (zlen [ch "-"]) with 1|change (zlen (@nil Z)) with 0|change (zlen (@nil Z)) with 0|change (zlen [ch "-"]) with 1].
  - pose proof (decimal_length (Z.abs y) 3 ltac:(lia) ltac:(lia)). lia.
  - pose proof (decimal_length (Z.abs y) 4 ltac:(lia) ltac:(lia)). lia.
  - pose proof (decimal_above (Z.abs y) 4 ltac:(lia) ltac:(lia)). lia.
  - pose proof (decimal_above (Z.abs y) 3 ltac:(lia) ltac:(lia)). lia.
Qed.

(** The same text by a format of [strftime]. *)
Lemma asctime_text_pieces zone t : 1900 + tm_year t <= 9999 -> text_all zone 2 t asctime_pieces = asctime_text t.
Proof.
  intros Hy. unfold text_all, asctime_pieces. cbn [map concat]. change (text_of zone 2 t (TConv (ch "-") 0 (ch "Y"))) with (if 10000 <=? tm_year t + 1900 then ch "+" :: decimal (tm_year t + 1900) else num_text (ch "-") 4 (tm_year t + 1900)).
  rewrite (proj2 (Z.leb_gt _ _)) by lia. rewrite (Z.add_comm (tm_year t)). unfold asctime_text. change (num_text (ch "-") 4) with (num_text (ch "-") 0).
  change (text_of zone 2 t (conv_of (ch "T"))) with (num_text (ch "0") 2 (tm_hour t) ++ [58] ++ num_text (ch "0") 2 (tm_min t) ++ [58] ++ num_text (ch "0") 2 (tm_sec t) ++ []).
  rewrite !app_nil_r. cbn [app]. rewrite <- !app_assoc. cbn [app]. rewrite <- ?app_assoc. done.
Qed.

Lemma four_digits v : 1000 <= v <= 9999 -> num_text (ch "0") 4 v = num_text (ch "-") 4 v.
Proof.
  intros Hv. unfold num_text. cbn [Z.eqb Pos.eqb negb]. pose proof (decimal_above (Z.abs v) 3 ltac:(lia) ltac:(lia)). rewrite !justify_no_field; [done|..]; match goal with |- _ <= zlen ?l + _ => pose proof (zlen_nonneg l) end; lia.
Qed.

Lemma asctime_text_c zone t : 1000 <= 1900 + tm_year t <= 9999 -> text_all zone 2 t [conv_of (ch "c"); TChar 10] = asctime_text t.
Proof.
  intros Hy. rewrite <- (asctime_text_pieces zone) by lia.
  change (text_all zone 2 t [conv_of (ch "c"); TChar 10]) with (text_all zone 1 t [conv_of (ch "a"); TChar 32; conv_of (ch "b"); TChar 32; conv_of (ch "e"); TChar 32; conv_of (ch "T"); TChar 32; conv_of (ch "Y")] ++ [10]).
  assert (text_of zone 1 t (conv_of (ch "Y")) = text_of zone 2 t (TConv (ch "-") 0 (ch "Y"))) as E.
  { change (text_of zone 1 t (conv_of (ch "Y"))) with (if 10000 <=? tm_year t + 1900 then ch "+" :: decimal (tm_year t + 1900) else num_text (ch "0") 4 (tm_year t + 1900)).
    change (text_of zone 2 t (TConv (ch "-") 0 (ch "Y"))) with (if 10000 <=? tm_year t + 1900 then ch "+" :: decimal (tm_year t + 1900) else num_text (ch "-") 4 (tm_year t + 1900)).
    rewrite !(proj2 (Z.leb_gt _ _)) by lia. by rewrite four_digits by lia. }
  unfold text_all, asctime_pieces. cbn [map concat]. rewrite E, <- !app_assoc. done.
Qed.

(** * The theorems *)

Section Spec.
Context (utf8 : bool) (strerror : Z -> list Z) (junk : Z) (name : Z -> Z).

Lemma int_piece_ok m buf n w p v : width_ok w -> prec_ok p -> piece_ok m (Conv [] w p (CInt Lnone (ch "d") v)) /\ apart buf n (Conv [] w p (CInt Lnone (ch "d") v)).
Proof. intros Hw Hp. split; [|done]. split_and!; [by apply Forall_nil_2|done|done|]. cbn. set_solver. Qed.
Lemma name_piece_ok m buf n a text : 0 < a -> cstr m a text -> a + zlen text < buf \/ buf + n <= a -> piece_ok m (name_piece a text) /\ apart buf n (name_piece a text).
Proof. intros Ha Hs Hap. split; [|done]. split_and!; [by apply Forall_nil_2|done|cbn; unfold INT_MAX; lia|done]. Qed.

(** The names of langinfo.c are in memory, outside of [buf]. *)
Definition names_at (m : list Z) (buf : Z) : Prop :=
  forall item, ABDAY_1 <= item < ABMON_1 + 12 -> 0 < name item /\ cstr m (name item) (__nl_langinfo_l item) /\ (name item + zlen (__nl_langinfo_l item) < buf \/ buf + 26 <= name item).

(** For the fields of a calendar date, [asctime_r] stores the text of 25 characters at most and a null when the year has
    at most four characters, and traps when it has more; it never writes behind the 26 bytes.  For the years 1000 to 9999
    the text is the one [strftime] writes for ["%c"] and a newline, in 26 bytes too. *)
Theorem asctime_correct t buf m e zones : wf_memory m -> cstring (strerror e) -> cstring (strerror 0) -> names_at m buf -> 0 <= buf -> buf + 26 <= zlen m ->
  date_fields t -> tm_ok t -> tm_year t <= INT_MAX - 1900 ->
  let y := 1900 + tm_year t in
  __asctime_r utf8 strerror junk name t buf (m, e) =
    (if (-999 <=? y) && (y <=? 9999) then Ok (buf, (stored buf 26 m (asctime_text t), e)) else Trap) /\
  (1000 <= y <= 9999 -> forall s, zlen s = 26 ->
     strftime utf8 strerror junk zones s 26 (written_all [conv_of (ch "c"); TChar 10]) t = Ok (25, asctime_text t ++ [0])).
Proof.
  intros Hm He He0 Hn Hb Hbl Hd Ht Hy y. pose proof Hd as (H1 & H2 & H3 & H4 & H5 & H6). pose proof Ht as ((_ & _ & _ & _ & _ & Hyr) & _). assert (in_s 32 y) as Hy32 by (unfold y, in_s in *; unfold INT_MAX in Hy; lia).
  pose proof (asctime_text_length t Hd) as Hlen. fold y in Hlen. pose proof (year_length y Hy32) as Hyl. split.
  - unfold __asctime_r, int_. fold y. unfold in_s in Hy32. unfold INT_MIN, INT_MAX in *. rewrite !(proj2 (Z.leb_le _ _)) by (unfold ABDAY_1, ABMON_1; lia). cbn [andb obind].
    rewrite <- (pieces_render name t). change [W32 (name _); _; _; _; _; _; _] with (args_all (pieces_of name t)).
    assert (Forall (fun p => piece_ok m p /\ apart buf 26 p) (pieces_of name t)) as Hok.
    { destruct (Hn (ABDAY_1 + tm_wday t) ltac:(unfold ABDAY_1, ABMON_1; lia)) as (A1 & A2 & A3). destruct (Hn (ABMON_1 + tm_mon t) ltac:(unfold ABDAY_1, ABMON_1; lia)) as (B1 & B2 & B3). unfold pieces_of, two, D.
      repeat apply Forall_cons_2; try by apply Forall_nil_2. all: try (by apply int_piece_ok; cbn; unfold INT_MAX; lia). all: try by apply name_piece_ok. all: split; [cbn; lia|done]. }
    rewrite (print_pieces utf8 strerror junk buf 26 (pieces_of name t) (asctime_text t) m e Hm) by (done || (unfold INT_MAX; lia) || (by right) || (by apply pieces_meaning) || (unfold INT_MAX; destruct (_ && _); lia)).
    cbn [obind]. destruct (_ && _); [rewrite (proj2 (Z.leb_gt _ _)) by lia|rewrite (proj2 (Z.leb_le _ _)) by lia]; done.
  - intros Hy4 s Hs. rewrite (proj2 (Z.leb_le (-999) y)), (proj2 (Z.leb_le y 9999)) in Hyl by lia. cbn [andb] in Hyl.
    pose proof (decimal_above (Z.abs y) 3 ltac:(lia) ltac:(lia)) as Hab. rewrite num_text_no_field, (proj2 (Z.ltb_ge y 0)) in Hlen, Hyl by lia. cbn [app] in Hlen, Hyl. assert (zlen (asctime_text t) = 25) as E25 by lia.
    assert (Forall tpiece_ok [conv_of (ch "c"); TChar 10]) as Hps by (repeat apply Forall_cons_2; [split_and!; match goal with |- ?P => by apply (bool_decide_eq_true_1 P); vm_compute end|done|by apply Forall_nil_2]).
    assert (Forall (zoned zones t) [conv_of (ch "c"); TChar 10]) as Hzs by (repeat apply Forall_cons_2; [intros [=]|done|by apply Forall_nil_2]).
    rewrite strftime_correct by (done || lia). rewrite asctime_text_c by lia. rewrite E25. do 2 f_equal. unfold stored, kept. cbn [Z.eqb]. rewrite firstn_all2 by (unfold zlen in *; lia). apply blit_all. rewrite zlen_app. change (zlen [0]) with 1. lia.
Qed.

(** The sum of [tm_year] and 1900 leaves the range of an [int] for years that [gmtime_r] computes. *)
Theorem asctime_year_overflow t buf st : 0 <= tm_wday t <= 6 -> 0 <= tm_mon t <= 11 -> INT_MAX - 1900 < tm_year t -> __asctime_r utf8 strerror junk name t buf st = UB.
Proof.
  intros Hw Hmn Hy. unfold __asctime_r, int_. unfold INT_MIN, INT_MAX, ABDAY_1, ABMON_1 in *. rewrite !(proj2 (Z.leb_le _ _)) by lia. cbn [andb obind]. by rewrite (proj2 (Z.leb_gt _ _)) by lia.
Qed.
End Spec.

(** The names from address 60 on. *)
Definition table : list Z := replicate 60 7 ++ c_time.
Definition table_name (item : Z) : Z := zlen table - zlen (skip_strings (Z.to_nat (item - ABDAY_1)) c_time).

Lemma table_names : names_at table_name table 8.
Proof.
  assert (forallb (fun k => let item := ABDAY_1 + k in let l := __nl_langinfo_l item in let s := table_name item in
    (43 <=? s) && ((0 <=? s) && (s + zlen l <? zlen table) && forallb (fun c => (0 <? c) && (c <? 256)) l && forallb (fun i => Memory.byte table (s + i) =? schar l i) (seqZ 0 (zlen l + 1)))) (seqZ 0 26) = true) as H by (by vm_compute).
  intros item Hi. assert (0 <= item - ABDAY_1 < 26) as Hk by (unfold ABDAY_1, ABMON_1 in *; lia). pose proof (forall_below _ 26 H _ Hk) as H'. cbv beta zeta in H'. replace (ABDAY_1 + (item - ABDAY_1)) with item in H' by lia.
  apply andb_true_iff in H' as [H1%Z.leb_le H2]. split_and!; [lia|by apply cstr_check|right; lia].
Qed.

Lemma table_wf : wf_memory table.
Proof. split; [|by vm_compute|by vm_compute]. apply Forall_app. split; [apply Forall_replicate; lia|]. match goal with |- ?P => by apply (bool_decide_eq_true_1 P); vm_compute end. Qed.

(** July 20, 1969. *)
Lemma asctime_correct_witness :
  __asctime_r true (fun _ => []) 7 table_name moon 8 (table, 0) = Ok (8, (stored 8 26 table (lit "Sun Jul 20 20:17:40 1969" ++ [10]), 0)) /\
  strftime true (fun _ => []) 7 (fun _ => None) (replicate 26 7) 26 (lit "%c" ++ [10]) moon = Ok (25, lit "Sun Jul 20 20:17:40 1969" ++ [10; 0]).
Proof.
  destruct (asctime_correct true (fun _ => []) 7 table_name moon 8 table 0 (fun _ => None)) as [H1 H2].
  - apply table_wf.
  - by apply Forall_nil_2.
  - by apply Forall_nil_2.
  - apply table_names.
  - lia.
  - by vm_compute.
  - by vm_compute.
  - by vm_compute.
  - by vm_compute.
  - split; [exact H1|]. assert (asctime_text moon = lit "Sun Jul 20 20:17:40 1969" ++ [10]) as E by (by vm_compute).
    pose proof (H2 ltac:(cbn; lia) (replicate 26 7) eq_refl) as H3. rewrite E in H3. exact H3.
Defined.

(** The last year of an [int] year. *)
Lemma asctime_year_overflow_witness : __asctime_r true (fun _ => []) 7 table_name (mk_tm 0 0 0 1 0 INT_MAX 0 0 0 0 utc) 8 (table, 0) = UB.
Proof. apply asctime_year_overflow; cbn; unfold INT_MAX; lia. Defined.

(** As built for WASI, [ctime] of any time [localtime] accepts is undefined, since [localtime_r] is. *)
Example ctime_epoch : ctime true (fun _ => []) 7 table_name 8 (mk_tm 0 0 0 0 0 0 0 0 0 0 0) 0 (table, 0) = UB.
Proof. by vm_compute. Qed.
Example ctime_too_large : ctime_r true (fun _ => []) 7 table_name (mk_tm 0 0 0 0 0 0 0 0 0 0 0) (2 ^ 62) 8 (table, 0) = Ok (NULL, (table, EOVERFLOW)).
Proof. by vm_compute. Qed.
