(* ===== verification/Mman.v ===== *)
(** Mapped files and the break ([libc-bottom-half/mman/mman.c], [libc-bottom-half/sources/sbrk.c]).

    [mmap] allocates the bytes and reads the file into them with the [pread] of Syscalls; a header in front of them
    holds what [munmap] needs.  The allocator and the host are parameters. *)

From S2P Require Import Prelude Memory Strings StringsCopy StringsType Printf PrintfSpec Events Syscalls.

(** * Constants of sys/mman.h and the page size *)

Definition MAP_FAILED : Z := u32 (-1).
Definition MAP_SHARED : Z := 1.
Definition MAP_PRIVATE : Z := 2.
Definition MAP_SHARED_VALIDATE : Z := 3.
Definition MAP_FIXED : Z := 0x10.
Definition MAP_ANON : Z := 0x20.
Definition MAP_NORESERVE : Z := 0x4000.
Definition MAP_GROWSDOWN : Z := 0x0100.
Definition MAP_HUGETLB : Z := 0x40000.
Definition MAP_FIXED_NOREPLACE : Z := 0x100000.
Definition PROT_NONE : Z := 0.
Definition PROT_READ : Z := 1.
Definition PROT_EXEC : Z := 4.
Definition PAGESIZE : Z := 0x10000.

(** * mman.c *)

Section Mman.
Context {S : Type} (host : forall X, wasi X -> S -> res X * S).

(** Linear memory, [errno], the blocks given to [free], and the state of the host. *)
Record world := World { w_mem : list Z; w_errno : Z; w_freed : list Z; w_host : S }.
Definition with_errno (e : Z) (w : world) : world := World (w_mem w) e (w_freed w) (w_host w).

(** The call of [pread]: the bytes go to [body]. *)
Definition pread_to (fd body length offset : Z) (w : world) : outcome (Z * world) :=
  let (r, s) := run host (pread fd length offset) (w_host w) in
  match r with
  | Err e => Ok (-1, World (w_mem w) e (w_freed w) s)
  | Val (nread, data) => let! (_, m) := store_bytes body data (w_mem w) in Ok (nread, World m (w_errno w) (w_freed w) s)
  end.

(** [sizeof(struct map)], and the places of its fields. *)
Definition sizeof_map : Z := 24.
Definition map_prot (map : Z) : Z := map.
Definition map_flags (map : Z) : Z := map + 4.
Definition map_offset (map : Z) : Z := map + 8.
Definition map_length (map : Z) : Z := map + 16.

(** The loop that reads the file; false when it failed. *)
Fixpoint read_loop (fuel : nat) (fd body length offset : Z) (w : world) : outcome (bool * world) :=
  match fuel with
  | O => NoFuel
  | Datatypes.S fuel =>
      if negb (0 <? length) then Ok (true, w) else
      let! (nread, w) := pread_to fd body length offset w in
      if nread <? 0 then if w_errno w =? EINTR then read_loop fuel fd body length offset w else Ok (false, w)
      else if nread =? 0 then Ok (true, w)
      else if 2 ^ 63 <=? offset + nread then UB
      else read_loop fuel fd (body + nread) (length - nread) (offset + nread) w
  end.

Definition unsupported_flags (flags : Z) : bool :=
  (Z.land flags (Z.lor MAP_PRIVATE MAP_SHARED) =? 0) || ctrue (Z.land flags MAP_FIXED) ||
  (Z.land flags MAP_SHARED_VALIDATE =? MAP_SHARED_VALIDATE) || ctrue (Z.land flags MAP_NORESERVE) || ctrue (Z.land flags MAP_GROWSDOWN) ||
  ctrue (Z.land flags MAP_HUGETLB) || ctrue (Z.land flags MAP_FIXED_NOREPLACE).
Definition unsupported_prot (prot : Z) : bool := (prot =? PROT_NONE) || ctrue (Z.land prot PROT_EXEC).

(** The four assignments to the header. *)
Definition store_header (map prot flags offset length : Z) : mem unit :=
  do* store32 (map_prot map) prot in
  do* store32 (map_flags map) flags in
  do* store64 (map_offset map) offset in
  store32 (map_length map) length.

(** [malloc] is what the call answers; [bulk] as in Strings.  The first argument of the C function is not used. *)
Definition mmap (fuel : nat) (malloc : Z -> option Z) (bulk : option Z) (length prot flags fd offset : Z) (w : world) : outcome (Z * world) :=
  if unsupported_flags flags || unsupported_prot prot || (length =? 0) then Ok (MAP_FAILED, with_errno EINVAL w)
  else if 2 ^ 32 <=? length + sizeof_map then Ok (MAP_FAILED, with_errno ENOMEM w)
  else
    match malloc (length + sizeof_map) with
    | None => Ok (MAP_FAILED, with_errno ENOMEM w)
    | Some map =>
        let! (_, m) := store_header map prot flags offset length (w_mem w) in
        let w := World m (w_errno w) (w_freed w) (w_host w) in
        let addr := map + sizeof_map in
        if Z.land flags MAP_ANON =? 0 then
          let! (ok, w) := read_loop fuel fd addr length offset w in
          Ok (if ok : bool then addr else MAP_FAILED, w)
        else
          let! (_, m) := memset bulk addr 0 length (w_mem w) in
          Ok (addr, World m (w_errno w) (w_freed w) (w_host w))
    end.

End Mman.

(** * sbrk.c *)

(** The state is the size of the memory in pages and [errno]; [grows] is whether the engine gives the pages, which
    [memory.grow] reports with the old size, or -1. *)
Definition sbrk (grows : Z -> Z -> bool) (increment : Z) : M (Z * Z) Z := fun '(pages, e) =>
  if increment =? 0 then Ok (u32 (pages * PAGESIZE), (pages, e))
  else if ctrue (Z.rem increment PAGESIZE) then Trap
  else if increment <? 0 then Trap
  else
    let delta := u32 increment / PAGESIZE in
    let '(old, pages) := if grows pages delta then (pages, pages + delta) else (u32 (-1), pages) in
    if old =? u32 (-1) then Ok (u32 (-1), (pages, ENOMEM)) else Ok (u32 (old * PAGESIZE), (pages, e)).

(** * The file in memory *)

(** The word that the four stores leave. *)
Lemma word_stored m m' a v : 0 <= a -> (forall x, 0 <= x -> byte m' x =
    if x =? a then u8 v else if x =? a + 1 then u8 (Z.shiftr v 8) else if x =? a + 2 then u8 (Z.shiftr v 16) else if x =? a + 3 then u8 (Z.shiftr v 24) else byte m x) ->
  word m' a = u32 v.
Proof.
  intros Ha Hb. unfold word. rewrite !Hb by lia. decide_cmp. unfold le4, u8, u32. rewrite !Z.shiftr_div_pow2 by lia. Z.div_mod_to_equations. lia.
Qed.

(** Stores within a range of addresses. *)
Definition within (a k : Z) (m m' : list Z) : Prop := zlen m' = zlen m /\ forall x, 0 <= x -> x < a \/ a + k <= x -> byte m' x = byte m x.

#[export] Instance keeps_store_header map prot flags offset length : Keeps retyped (store_header map prot flags offset length).
Proof. keeps_by store_header. Qed.

Lemma store_header_ok map prot flags offset length m : 0 <= map -> map mod 8 = 0 -> map + sizeof_map <= zlen m -> 0 <= length < 2 ^ 32 ->
  exists m', store_header map prot flags offset length m = Ok (tt, m') /\ within map sizeof_map m m' /\ word m' (map_length map) = length.
Proof.
  intros Hmap Hal Hl Hlen. unfold sizeof_map in *.
  enough (wp (store_header map prot flags offset length) (fun _ m' => within map 24 m m' /\ word m' (map_length map) = length) m) as (a & m' & E & H) by (destruct a; by exists m').
  unfold store_header, map_prot, map_flags, map_offset, map_length.
  apply wp_bind, wp_store32; [lia|lia|divlia|]. intros m1 Hz1 Hb1. apply wp_bind, wp_store32; [lia|lia|divlia|]. intros m2 Hz2 Hb2.
  apply wp_bind. unfold store64. rewrite (proj2 (Z.eqb_eq _ _)) by divlia. apply wp_bind, wp_store32; [lia|lia|divlia|]. intros m3 Hz3 Hb3. apply wp_store32; [lia|lia|divlia|]. intros m4 Hz4 Hb4.
  apply wp_store32; [lia|lia|divlia|]. intros m5 Hz5 Hb5. split.
  - split; [lia|]. intros x Hx Ho. rewrite Hb5, Hb4, Hb3, Hb2, Hb1 by lia. repeat case_cmp; cbn [andb]; try done; lia.
  - rewrite (word_stored m4 m5 (map + 16) length) by (done || lia). apply u32_id. unfold in_u. lia.
Qed.





Section File.
Context {S : Type} (host : forall X, wasi X -> S -> res X * S) (fd : Z) (content : list Z) (interrupts : S -> nat) `{!ServesFile host fd content interrupts}.

End File.

(** * The theorems *)


Lemma bytes_at_blit m d l : 0 <= d -> d + zlen l <= zlen m -> bytes_at (blit m d l) d (zlen l) = l.
Proof.
  intros Hd Hl. unfold bytes_at, blit, zlen in *. rewrite drop_app_length' by (rewrite length_take; lia). by rewrite take_app_length' by lia.
Qed.


(** A host with a file of six bytes: it gives at most two bytes at a time, after the interruptions that are its state. *)
Definition demo_file : list Z := [104; 101; 108; 108; 111; 10].
Definition demo_host (X : Type) (c : wasi X) (s : nat) : res X * nat :=
  match c in wasi X return res X * nat with
  | fd_pread _ lens off =>
      match s with
      | O => (Val (take (Nat.min 2 (Z.to_nat (foldr Z.add 0 lens))) (drop (Z.to_nat off) demo_file)), O)
      | Datatypes.S s => (Err EINTR, s)
      end
  | _ => (Err EBADF, s)
  end.


Definition demo_world (interrupts : nat) : world := World (replicate 64 7) 0 [] interrupts.


(** The byte behind the end of the file. *)
Example mmap_tail_kept : match mmap demo_host 20 (fun _ => Some 16) None 8 PROT_READ MAP_PRIVATE 3 1 (demo_world 0) with Ok (_, w) => byte (w_mem w) 45 = 7 | _ => False end.
Proof. by vm_compute. Qed.
(** When the file cannot be read, the block is not given back. *)
Example mmap_leak : match mmap (fun X c s => (Err EBADF, s)) 20 (fun _ => Some 16) None 8 PROT_READ MAP_PRIVATE 3 1 (demo_world 0) with
  Ok (r, w) => r = MAP_FAILED /\ w_errno w = EBADF /\ w_freed w = [] | _ => False end.
Proof. by vm_compute. Qed.

(** [mmap] without a file gives zeros. *)
Theorem mmap_anonymous {S : Type} (host : forall X, wasi X -> S -> res X * S) malloc bulk fuel len prot flags fd offset (w : world) map :
  wf_memory (w_mem w) -> unsupported_flags flags = false -> Z.land flags MAP_ANON <> 0 -> unsupported_prot prot = false -> 0 < len -> len + sizeof_map < 2 ^ 32 ->
  malloc (len + sizeof_map) = Some map -> 0 <= map -> map mod 8 = 0 -> map + sizeof_map + len <= zlen (w_mem w) ->
  exists m, mmap host fuel malloc bulk len prot flags fd offset w = Ok (map + sizeof_map, World m (w_errno w) (w_freed w) (w_host w)) /\ zlen m = zlen (w_mem w) /\
    bytes_at m (map + sizeof_map) len = replicate (Z.to_nat len) 0 /\ forall x, 0 <= x -> x < map \/ map + sizeof_map + len <= x -> byte m x = byte (w_mem w) x.
Proof.
  intros Hm Hfl Han Hpr Hlen Hlen2 Hmal Hmap Hal Hfit. unfold mmap. rewrite Hfl, Hpr, Hmal. decide_cmp. cbn [orb].
  destruct (store_header_ok map prot flags offset len (w_mem w)) as (m1 & E1 & [Hz1 Hb1] & Hw1); [done|done|unfold sizeof_map in *; lia|unfold sizeof_map in *; lia|]. rewrite E1. apply keeps_store_header in E1 as [Hwf _]. unfold sizeof_map in *. cbn [obind w_mem w_host w_freed w_errno].
  rewrite memset_ok by (lia || by apply Hwf). cbn [obind]. change (u8 0) with 0. set (l := replicate _ _). assert (zlen l = len) as El by (unfold l, zlen; rewrite length_replicate; lia).
  eexists. split; [done|]. split_and!; [rewrite zlen_blit by lia; lia|rewrite <- El at 1; apply bytes_at_blit; lia|]. intros x Hx Hout. rewrite byte_blit, El by lia.
  destruct (Z.leb_spec (map + 24) x), (Z.ltb_spec x (map + 24 + len)); cbn [andb]; try lia; apply Hb1; lia.
Qed.

Lemma mmap_anonymous_witness :
  exists m, mmap demo_host 0 (fun _ => Some 16) None 8 PROT_READ (Z.lor MAP_PRIVATE MAP_ANON) (-1) 0 (demo_world 0) = Ok (40, World m 0 [] O) /\ bytes_at m 40 8 = replicate 8 0.
Proof.
  destruct (mmap_anonymous demo_host (fun _ => Some 16) None 0 8 PROT_READ (Z.lor MAP_PRIVATE MAP_ANON) (-1) 0 (demo_world 0) 16) as (m & H1 & _ & H2 & _); try done; [split; [apply Forall_replicate; lia|done|done]|].
  by exists m.
Defined.

(** Where the engine gives pages, the memory staying below 4 GiB, [sbrk] returns the break before the call and moves it
    by the increment; where it does not, nothing changes but [errno]. *)
Theorem sbrk_moves grows pages e increment : 0 <= pages -> 0 < increment < 2 ^ 31 -> increment mod PAGESIZE = 0 -> pages * PAGESIZE + increment < 2 ^ 32 ->
  let delta := increment / PAGESIZE in
  exists brk, sbrk grows 0 (pages, e) = Ok (brk, (pages, e)) /\
    sbrk grows increment (pages, e) = (if grows pages delta then Ok (brk, (pages + delta, e)) else Ok (u32 (-1), (pages, ENOMEM))) /\
    sbrk grows 0 (pages + delta, e) = Ok (brk + increment, (pages + delta, e)).
Proof.
  intros Hp Hi Hm Hb delta. exists (pages * 65536). unfold sbrk, PAGESIZE in *. cbn [Z.eqb]. rewrite !(u32_id (_ * 65536)) by (unfold in_u, delta; divlia). split_and!; [done|..].
  - rewrite (u32_id increment) by (unfold in_u; lia). fold delta. rewrite (proj2 (Z.eqb_neq increment 0)), (proj2 (Z.ltb_ge increment 0)) by lia. rewrite Z.rem_mod_nonneg, Hm by lia. cbn [ctrue Z.eqb negb].
    destruct (grows pages delta); [|done]. rewrite (proj2 (Z.eqb_neq pages _)); [|change (u32 (-1)) with 4294967295; lia]. by rewrite u32_id by (unfold in_u; lia).
  - do 2 f_equal. unfold delta. divlia.
Qed.

Lemma sbrk_moves_witness : exists brk, sbrk (fun _ _ => true) 0 (17, 0) = Ok (brk, (17, 0)) /\ sbrk (fun _ _ => true) 131072 (17, 0) = Ok (brk, (19, 0)).
Proof. destruct (sbrk_moves (fun _ _ => true) 17 0 131072) as (brk & H1 & H2 & _); [lia|lia|done|by vm_compute|]. by exists brk. Defined.

(** With all pages of the address space in use the break wraps to the null pointer. *)
Example sbrk_full : sbrk (fun _ _ => true) 0 (65536, 0) = Ok (0, (65536, 0)).
Proof. by vm_compute. Qed.
